(* ===== verification/_CoqProject ===== *)
-Q . S2P
Prelude.v
Layout.v
Torch.v
SpecFloatTorch.v
BitPack.v
Meta.v
Quant.v
Tab.v
Triton.v
FixedTorch.v
Decoded.v
QuantFast.v
Page.v
Sidecar.v
Tail.v
OnlineRef.v
Runtime.v
Bulk.v
ChunkPlan.v
PageKernel.v
EncodeKernel.v
Stores.v
Int3Cache.v
FastAppend.v
Attention.v
PageAttention.v
TailAttention.v
TailPrep.v
RealAttention.v
DecodeAttention.v
DecodeState.v
Typing.v
FusedPage.v
AttnHelpers.v
Int3Attention.v
TileSchedule.v
TileKernels.v
Lifecycle.v
Forward.v
ForwardFrame.v
TileState.v
ForwardStream.v
ForwardState.v
Engine.v
FreeQueue.v
BlockPool.v
PoolState.v
KVManager.v
KVTables.v
ManagedEngine.v
StagedTensor.v
InputBatch.v
BlockTables.v
RequestStates.v
RunnerV2.v
RunnerView.v
RunnerSteps.v
RunnerBatch.v
RunnerRun.v
ServedV2.v
EngineFit.v
SchedRequest.v
Scheduler.v
SchedCalls.v
SchedulerPass.v
SchedulerStep.v
SchedulerEvents.v
SchedulerView.v
SchedulerHead.v
SchedulerProps.v
SchedulerFair.v
EngineCore.v
WorkerModel.v
CoreServed.v
CoreRun.v
CoreDrains.v
CoreAnswers.v
EngineServed.v
EngineDrains.v
PromptAttention.v
