(* ===== verification/Prelude.v ===== *)
(** * RABIT-KV verification development

    RABIT-KV keeps the KV cache of an LLM server in a low-bit form: K in 3 bits per
    channel group, V in 2 bits per token group, the scales and minima of both in
    8 bits (META8), and the newest tokens exact in BF16.  The code is a set of
    modules inside a copy of vLLM ([src/vllm-kvquant/vllm]); this development
    models it bottom-up, from the bit packing to whole runs of the serving engine,
    and proves that the layers compose.

    ** The program and its parts

    A sequence of tokens is cut in three: groups of 32 old tokens are closed into
    opaque pages of bytes, written in the cache block the block table names; the
    open group holds the old tokens that do not fill a page; the residual holds
    the newest four.  The open group and the residual are the sidecar of a
    request, an object outside the paged cache.  A scheduler publishes a batch of
    requests; every attention layer appends the new tokens to each request's
    sidecar, closes pages, and attends over pages and sidecar.

    ** Files (in dependency order) and the code they model

    Sources are named below [vllm/v1/attention/ops/] unless a path is given.

    - [Prelude]: Python exceptions, the result and state monads in which every
      fallible or stateful function is written (an exception keeps the state
      reached), generic lemmas, and [st_at], the framework for "whatever the
      outcome, only this changed".
    - [Layout]: [v1/kv_cache_interface.py] and [config/cache.py] — modes, packed
      widths, metadata sizes, the page layout, staging bounds, guards.
    - [Torch], [Triton]: the interface classes of the arithmetic (below).
      [SpecFloatTorch] (binary32 and BF16 from the Standard Library's SpecFloat)
      and [FixedTorch] (a fixed-point arithmetic that satisfies every law) are
      their instances, so no theorem is about an empty class.
    - [BitPack]: [kvquant_k3.py] [pack_lowbit_values]/[unpack_lowbit_values] and
      the direct packers and kernels of [rabit_kv2.py].
    - [Meta]: the META8 codec and its blob.  [Quant], [Decoded]: the K3 and V2
      quantizers of [kvquant_k3.py] and what dequantizing returns.  [QuantFast]: the
      second binding of [_quantize_v2_primary_ref] in [rabit_kv2.py], with the compiled
      functions of its CUDA path, and its equality with the first.
    - [Page], [Tail]: [encode_rabit2_page_ref]/[decode_rabit2_page_ref] and the
      page writer from primaries.  [Sidecar]: the append loop, shared through the
      class [SidecarOwner] by the reference state ([OnlineRef]:
      [Rabit2OnlineStateRef]) and the runtime ([Runtime]:
      [Rabit2SingleSequenceRuntime] with the cache it writes).
    - [Bulk]: [rabit2_bulk_append_exact], both definitions.  [ChunkPlan]:
      [Rabit2CausalChunkPlan].  [FastAppend]: the buffered one-token append that
      replaces [append] at the end of [rabit_kv2.py], kernels included.
    - [PageKernel], [EncodeKernel]: the Triton kernels that decode and encode a
      page, as grids of programs over flat device memory.
    - [Attention]: the attention kernels; [PageAttention], [TailAttention]: their
      specification ([split_attention]) and the proof that they compute it;
      [RealAttention]: the same specification over real numbers is softmax attention;
      [TailPrep]: the preparation of the open group, reference and workspace
      kernels; [DecodeAttention], [DecodeState]: the decode entries in force and
      their theorems on a served sequence; [FusedPage]: the fused page kernel.
    - [Typing]: the types of a runtime, its cache and a chunk plan, as predicates
      that every method keeps.
    - [Stores]: a memory after a list of stores.  [Int3Cache]: the per-token-head
      INT3 cache of [kvquant_k3.py] and [_ensure_scale_caches] of
      [v1/attention/backends/triton_attn.py].  [AttnHelpers]:
      [triton_attention_helpers.py].  [Int3Attention]: [_attn_int3_kernel], its
      launcher, and [reduce_segments] of [triton_unified_attention.py].
    - [TileSchedule], [TileKernels]: the opt-in implementations of a later chunk
      ([rabit_kv2_stage3c_tile32.py], [rabit_kv2_stage3c_shared_decode.py], and the
      switch of [rabit_kv2_stage3c_profile.py]): selection from the environment, the
      tiles, the batched scans and the batched reduction.
    - [Lifecycle]: the scheduler/attention bridge (Stage 3C) and the hooks of
      [v1/worker/gpu_model_runner.py], the older runner; [RunnerV2] calls the same bridge.
    - [Forward], [ForwardFrame], [TileState], [ForwardStream], [ForwardState]:
      [v1/attention/backends/triton_attn.py] [_forward_rabit_kv2] with the three
      implementations of a later chunk; what it may touch on any outcome; the scans
      on a stream's pages; one request; a batch.
    - [Engine]: the worker over a sequence of steps of [execute_model]: the bridge,
      every layer of the model, and the abstract scheduler that drives them.
    - [FreeQueue]: the doubly linked queue of free blocks
      ([v1/core/kv_cache_utils.py]) over a heap of shared block objects.
      [BlockPool], [PoolState]: [v1/core/block_pool.py], and what it promises to its
      clients.  [KVManager], [KVTables]: [v1/core/single_type_kv_cache_manager.py],
      [kv_cache_coordinator.py] and [kv_cache_manager.py] for one group of full
      attention, and the tables of block numbers it hands out.  [ManagedEngine]: the
      engine with the tables of the manager.
    - The V2 model runner ([v1/worker/gpu/]), which serves the cache by default.
      [StagedTensor]: [buffer_utils.py] [StagedWriteTensor], device rows whose writes
      are staged and applied by one kernel.  [InputBatch]: the kernels of
      [input_batch.py].  [BlockTables]: [block_table.py].  [RequestStates]:
      [states.py].  [RunnerV2]: [model_runner.py], from the output of the scheduler
      ([v1/core/sched/output.py]) to the inputs of the model and back from the sampled
      tokens.  [RunnerView]: the same step on a map of requests.  [RunnerSteps],
      [RunnerBatch], [RunnerRun]: the methods, the batch and whole runs refine it.
      [ServedV2]: the runner with the attention layers, the metadata built between
      them ([model_states/default.py], [attn_utils.py], the builder of
      [triton_attn.py]), under the manager.  [EngineFit]: what a run of the worker asks
      of the model and of the schedule, the rest of the conditions of [ManagedEngine]
      derived.
    - The scheduler ([v1/core/sched/]).  [SchedRequest]: the object of a request
      ([v1/request.py]), [sched/utils.py] ([check_stop], the detection of repetitions).
      [Scheduler]: [scheduler.py] and [async_scheduler.py], [schedule] and
      [update_from_output] in full, with preemption, chunked prefills and pauses.
      [SchedCalls]: the requests the manager is called with, counted so that its refusals
      are known.  [SchedulerPass], [SchedulerStep], [SchedulerEvents]: the loops, a step and
      the other events keep the invariant [sched_ok].  [SchedulerView]: what a step sends
      is what the worker may be asked for, and its view follows the scheduler.
      [SchedulerHead]: the request at the head of the queues; the loops end.
      [SchedulerProps]: the limits of a step, and the tokens a request keeps.
      [SchedulerFair]: one long prefill at a time.
    - The core of the engine ([v1/engine/core.py]).  [EngineCore]: [step],
      [step_with_batch_queue], aborts and pauses, over any worker of the class
      [ModelWorker].  [WorkerModel]: the V2 worker as an instance
      ([v1/worker/gpu/async_utils.py]), the worker that is only its view, and when the
      core cannot tell two workers apart.  [CoreServed], [CoreRun]: the invariant of the core.
      [CoreDrains], [CoreAnswers]: left to step, the core finishes every request and says
      why; the chunks of its runs.  [EngineServed], [EngineDrains]: the engine as it runs,
      and two configurations on which it does not end.
    - [PromptAttention]: [triton_prefill_attention.py], the dense attention of a
      first chunk.  [Forward] and [Engine] take it as the parameter
      [context_attention_fwd]; [dense_prompt] is the function of that type that the
      kernel computes.

    ** How state corresponds

    A Python object is a record; a list of tensors is a [tensor3] (heads, channels,
    rows of tokens); bytes and BF16 patterns are [Z]; [None] is [option].  The
    opaque cache is the list of its blocks.  A representation function says what
    the state is after a list of tokens ([sidecar_of], [rt_of], [online_of],
    [plan_of], [runtime_of]); every operation is proved to take one representation
    to the next, so an invariant is an equation.  Where the code rebinds a module
    global several times, the definition in force is modelled and, where it is a
    replacement, the replaced one too, with their equivalence.

    ** Theorems, in groups

    - Codecs: pack/unpack, META8, page and whole-prefix round trips; the packers, the
      page writers, the decode kernel and both bindings of the V2 quantizer
      ([quantize_paths_agree]) agree byte for byte with the references.  The experimental
      Triton page writer (Stage 3B1), which the code calls not byte-identical, does so
      only where a plain [/] of Triton is IEEE division ([TritonIeee], [EncodeKernel]):
      nothing else uses that.
    - Sequences: the reference state materializes the whole-prefix oracle; the
      runtime refines it; bulk append, chunk plan and buffered append each leave
      the state of token-by-token append; results do not depend on chunking.
    - Attention: the decode entry in force returns softmax attention, split in
      one segment per page and one for the tail, over what the reference decoders
      return; the optimised entries return the bits of the frozen ones.  In exact
      arithmetic the segments and the maxima they subtract cancel
      ([split_attention_is_softmax]).
    - Serving: publication and release of requests are exact; a forward pass
      touches its batch only, whatever its outcome; a consistent schedule is
      served without error, and its states and outputs are functions of the token
      streams; the three implementations of a later chunk return the same bits
      ([stage3c_impls_agree]), over tiles that cut the chunk exactly
      ([tiles_cut_chunk]).  Runs of steps are served ([engine_serves_runs]) when no request
      gets several tokens at once after a step that gave it a single one while it held
      four or more ([run_uncut]): on those the buffered append loses a chunk
      ([stale_fast_buffers_lose_chunk]).  Every theorem about runs of the worker has
      this condition, or derives it from the configuration of the scheduler.
    - Blocks: the linked queue is a list ([queue_refines_list]); the pool counts its
      holders and its free queue holds exactly the blocks nobody holds
      ([pool_counts_holders]); the tables of the manager are distinct and disjoint and
      grow at the end ([manager_tables_disjoint]); so the conditions of
      [engine_serves_runs] on the tables hold by themselves when the manager makes
      them ([managed_runs_served]); those on the chunks and the counts remain.
    - The worker: runs of the V2 runner do to a map of requests what the scheduler
      asked: slots are reused, staged writes land, batches are sorted, tokens,
      positions, rows of blocks and slots are those of the requests, and sampled
      tokens come back ([worker_run_refines]).  With the layers and the manager
      ([served_runs]) this is the whole worker: from what the scheduler sends and the
      model computes to the output rows, no step raises and every request reads its
      own stream.  The counts of the worker are proved to be the lengths of the streams;
      the condition on the chunks is a hypothesis there.
    - The scheduler: a step raises nothing and stays within the budget, the requests that
      may run, the length of the model and the blocks ([step_within_limits]); a request
      keeps the tokens up to its first stop ([append_stops_first]); without a threshold for
      long prefills and with a budget above the number of requests, as by default
      ([fair_config]), one long prefill runs at a time and the condition on the chunks holds
      ([one_long_prefill]).
    - The engine as it runs: for any requests, aborts and pauses of clients, and any
      tokens the sampler chooses, scheduler, core and worker raise nothing, the front end
      hears of each request the tokens it was given, and attention reads each request's
      own stream ([engine_core_serves]).  The modelled scheduler makes the batches, and
      scheduler, core and the view of the worker need no condition on them.  For the layers
      the model has to pass tensors of its geometry with ordinary numbers ([run_inputs]),
      and the schedule has to be [fair_config] or [run_uncut].  Once it runs unpaused, the
      engine answers every request in a bounded number of steps ([engine_answers]);
      [EngineDrains] also runs the two cases its hypotheses exclude, a minimum of tokens the
      model has no room for and a cache without a block besides those of the longest
      request.
    - Prompts: the dense attention of a batch computes each query from its own
      sequence ([context_attention_rows]), and a row of a prompt from the tokens up
      to its own ([dense_prompt_causal]).
    - The INT3 mode: what the writer stores the kernel's loads read back
      ([int3_cache_roundtrip]), where the scale views fit ([int3_scale_view_fits]),
      the search over the flattened grid ends and covers every block of queries once
      ([grid_covers_queries]), and attention reads each sequence from its own tokens,
      split into segments or not ([int3_attention_reads_sequences]).
    - Types: the methods keep the types of the state on every outcome, and typed
      states can be read ([runtime_methods_typed]).
    - Errors: every guard raises its exception and leaves the state unchanged; after any
      appends, a chunk between two buffered tokens is lost ([stale_fast_buffers_lose_chunk]).

    ** Arithmetic, bounds and fuel

    The float operations are fields of classes ([TorchFloat], [TritonFloat],
    [TritonReduce]); laws are separate classes ([TorchFloatLaws], [TritonLaws],
    [TritonZero]) that state documented behaviour: BF16 casts are stable, minima
    are attained, a rounded and clamped code is in range, [div_rn] is IEEE division, and
    [/] is exact where a range is divided by the 3, 7 or 255 steps of its codes.  The
    kernels that divide by a scale with [/] agree with the reference on ordinary blocks
    ([tl_regular]); those hypotheses are named.  [RealAttention] uses the Standard
    Library's real numbers in place of floats.  Nothing is
    assumed about the order of a block sum.  Byte and code widths are explicit
    ([byte_ok], [code_ok]).  Every function is structurally recursive or a map
    over a range, except the loops below.  The binary search of the attention kernels has
    one more than the binary logarithm of the number of sequences as its fuel
    ([search_fuel]), which [search_terminates] proves enough; the walk over the free
    queue ends within the number of blocks plus three ([queue_refines_list],
    [pool_counts_holders]).  The loops of [schedule] have as fuel the number of running
    requests ([schedule_running] passes over or schedules one each turn), one more than
    it ([allocate_running] preempts one) and the number of waiting requests
    ([schedule_waiting] admits one); from any state of the scheduler more of it changes
    nothing ([scheduling_loops_end]).  Fresh device memory ([torch.empty]) is an
    arbitrary value, so no result depends on it.  The kernels of prompts and of the
    INT3 mode add [TritonScores] and [TritonPrompt]; [TritonPromptLaws] is the one
    law about a masked score that is a large negative number, and [Float32Words] the
    bit pattern of a float32 in a byte storage.

    ** Not modelled

    - The rest of vLLM (model code, other attention backends, front ends): vendored and
      only called or calling.  Of the scheduler: priorities, connectors, encoder inputs,
      draft tokens, LoRA, structured outputs, streaming sessions and statistics; of the
      core: sockets and threads, the reset of caches after a pause, data and pipeline
      parallelism.  Of the block pool: the KV
      cache events and the metrics collector, which observe it; of the KV cache
      manager: sliding window, chunked local, Mamba and cross attention, several
      groups, context parallelism and connectors, none of which a cache of this mode
      has.
    - Of the V2 runner: the model and the sampler (their results are arguments of the
      steps), LoRA, encoder inputs, pooling, pipeline and data parallelism, speculative
      decoding (refused with this cache), captured graphs and their padding, the
      connector, the zeroing of fresh blocks, and the fused writer of several cache
      groups.  Its int32 arrays are [Z]: the conditions of [worker_run_refines] bound
      every value by the sizes of the buffers.
    - The timing windows of the two profilers and the logging flags: they wrap
      calls and change nothing else.  The selection and the scope test are modelled.
    - The arguments of the attention helpers that the INT3 kernel leaves at their
      defaults (non-causal sequences, chunked attention), and the per-token-head modes
      of other widths: vendored.
    - Benchmarks, paper scripts, tests, C++/CUDA sources: no program logic of the
      RABIT cache.  [_rabit2_stage4d3_4_tail_unpacked_k_partial_kernel] is dead
      code. *)

From Stdlib Require Import ZArith Lia.
From stdpp Require Import base tactics numbers list option.

(** ** Python exceptions and fallible computations *)

(** The exception classes the modelled code raises. *)
Inductive exn :=
  | ValueError
  | RuntimeError
  | IndexError
  | NotImplementedError
  | AssertionError
  | NameError
  | AttributeError
  | TypeError
  | KeyError
  | OverflowError
  | StopIteration.

#[export] Instance exn_eq_dec : EqDecision exn.
Proof. solve_decision. Defined.

(** A pure computation that returns or raises. *)
Inductive result (A : Type) :=
  | Ok (a : A)
  | Err (e : exn).
Arguments Ok {A} a.
Arguments Err {A} e.

#[export] Instance result_ret : MRet result := @Ok.
#[export] Instance result_bind : MBind result := λ A B f m,
  match m with Ok a => f a | Err e => Err e end.
#[export] Instance result_fmap : FMap result := λ A B f m,
  match m with Ok a => Ok (f a) | Err e => Err e end.

(** [raise_if b e]: a guard [if b: raise e]. *)
Definition raise_if (b : bool) (e : exn) : result unit :=
  if b then Err e else Ok tt.

(** A computation over a mutable state; an exception keeps the state reached so
    far, as a Python exception does. *)
Definition ST (S A : Type) : Type := S → result A * S.

#[export] Instance ST_ret {S} : MRet (ST S) := λ A a s, (Ok a, s).
#[export] Instance ST_bind {S} : MBind (ST S) := λ A B f m s,
  match m s with
  | (Ok a, s') => f a s'
  | (Err e, s') => (Err e, s')
  end.

Definition st_get {S} : ST S S := λ s, (Ok s, s).
Definition st_put {S} (s : S) : ST S unit := λ _, (Ok tt, s).
Definition st_modify {S} (f : S → S) : ST S unit := λ s, (Ok tt, f s).
Definition st_lift {S A} (r : result A) : ST S A := λ s, (r, s).
Definition st_raise_if {S} (b : bool) (e : exn) : ST S unit := st_lift (raise_if b e).

(** [for x in l: body(x)] in the state monad. *)
Fixpoint st_for {S A} (l : list A) (body : A → ST S unit) : ST S unit :=
  match l with
  | [] => mret tt
  | x :: l' => body x ≫= λ _, st_for l' body
  end.

(** [[f(x) for x in l]] where [f] may raise. *)
Fixpoint result_map {A B} (f : A → result B) (l : list A) : result (list B) :=
  match l with
  | [] => Ok []
  | x :: l' => y ← f x; ys ← result_map f l'; Ok (y :: ys)
  end.

(** Reduction of the monads' operations on computed values. *)
Lemma result_bind_ok {A B} (a : A) (f : A → result B) : (Ok a ≫= f) = f a.
Proof. reflexivity. Qed.
Lemma result_bind_err {A B} e (f : A → result B) : (Err e ≫= f) = Err e.
Proof. reflexivity. Qed.
Lemma st_bind_eq {S A B} (m : ST S A) (f : A → ST S B) s :
  (m ≫= f) s = match m s with (Ok a, s') => f a s' | (Err e, s') => (Err e, s') end.
Proof. reflexivity. Qed.

Lemma st_bind_ok {S A B} (m : ST S A) (f : A → ST S B) s b s' :
  (m ≫= f) s = (Ok b, s') → ∃ a s1, m s = (Ok a, s1) ∧ f a s1 = (Ok b, s').
Proof. rewrite st_bind_eq. destruct (m s) as [[a|e] s1]; [|done]. by exists a, s1. Qed.

Lemma st_for_app {S A} (l1 l2 : list A) (body : A → ST S unit) s :
  st_for (l1 ++ l2) body s = (st_for l1 body ≫= λ _, st_for l2 body) s.
Proof.
  revert s. induction l1 as [|x l1 IH]; intros s; [done|].
  simpl. rewrite !st_bind_eq. destruct (body x s) as [[u|e] s']; [apply IH|done].
Qed.

Create HintDb rabit.

(** Case analysis on the next binding of a [result] hypothesis. *)
Ltac result_cases :=
  repeat match goal with
  | H : Ok _ = Ok _ |- _ => injection H as H
  | H : Err _ = Err _ |- _ => injection H as H
  | H : Ok _ = Err _ |- _ => discriminate H
  | H : Err _ = Ok _ |- _ => discriminate H
  | H : context [raise_if ?b _] |- _ => destruct b eqn:?; simpl in H
  | H : (?m ≫= _) = Ok _ |- _ =>
      let a := fresh "a" in let E := fresh "E" in
      destruct m as [a|] eqn:E; [rewrite result_bind_ok in H|discriminate H]
  end.

(** ** Python integers: ceiling division as [vllm.utils.math_utils.cdiv] writes it *)

Definition cdiv (a b : Z) : Z := (- (a / - b))%Z.

Lemma cdiv_nat (a b : nat) :
  (0 < b)%nat → cdiv (Z.of_nat a) (Z.of_nat b) = Z.of_nat ((a + (b - 1)) / b).
Proof.
  intros Hb. unfold cdiv.
  rewrite Nat2Z.inj_div, Nat2Z.inj_add, Nat2Z.inj_sub by lia.
  set (x := Z.of_nat a). set (y := Z.of_nat b). assert (0 < y)%Z by lia.
  pose proof (Z.div_mod x (- y) ltac:(lia)) as Hd.
  pose proof (Z.mod_neg_bound x (- y) ltac:(lia)) as Hm.
  apply Z.div_unique_pos with (r := (x + (y - Z.of_nat 1) - y * (- (x / - y)))%Z); lia.
Qed.

#[global] Arguments Nat.div : simpl never.
#[global] Arguments Nat.modulo : simpl never.

(** ** Lists *)

#[global] Arguments concat {A} _ : assert.

(** Python's [l[a:b]] for [0 <= a]. *)
Definition slice {A} (a b : nat) (l : list A) : list A := take (b - a) (drop a l).

(** [tensor.reshape(r, n)] of a flat row-major list. *)
Definition view2 {A} (r n : nat) (l : list A) : list (list A) := reshape (replicate r n) l.

(** [tensor.reshape(-1, n)]. *)
Definition rows_of {A} (n : nat) (l : list A) : list (list A) := view2 (length l / n) n l.

(** [tensor.reshape(a, b, c)]. *)
Definition view3 {A} (a b c : nat) (l : list A) : list (list (list A)) :=
  map (view2 b c) (view2 a (b * c) l).

Lemma slice_length {A} a b (l : list A) :
  length (slice a b l) = ((b `min` length l) - a)%nat.
Proof. unfold slice. rewrite length_take, length_drop. lia. Qed.

Lemma slice_0 {A} b (l : list A) : slice 0 b l = take b l.
Proof. unfold slice. rewrite drop_0. f_equal; lia. Qed.

Lemma view2_length {A} r n (l : list A) : length (view2 r n l) = r.
Proof. unfold view2. by rewrite length_reshape, length_replicate. Qed.

Lemma view2_Forall_length {A} r n (l : list A) :
  (r * n ≤ length l)%nat → Forall (λ x, length x = n) (view2 r n l).
Proof.
  revert l. induction r as [|r IH]; intros l Hl; simpl; [constructor|].
  constructor.
  - rewrite length_take. lia.
  - apply IH. rewrite length_drop. lia.
Qed.

(** Flattening then reshaping a list of [r] rows of length [n] gives it back. *)
Lemma view2_concat {A} r n (ls : list (list A)) :
  length ls = r → Forall (λ x, length x = n) ls → view2 r n (concat ls) = ls.
Proof.
  intros <- H. induction H as [|x ls Hx Hls IH]; simpl; [done|].
  unfold view2 in *. simpl.
  rewrite take_app_length' by done. rewrite drop_app_length' by done. by rewrite IH.
Qed.

Lemma concat_view2 {A} r n (l : list A) :
  length l = (r * n)%nat → concat (view2 r n l) = l.
Proof.
  revert l. induction r as [|r IH]; intros l Hl; simpl.
  - destruct l; [done|simpl in Hl; lia].
  - unfold view2 in *. rewrite IH by (rewrite length_drop; lia). apply take_drop.
Qed.

Lemma length_concat_uniform {A} n (ls : list (list A)) :
  Forall (λ x, length x = n) ls → length (concat ls) = (length ls * n)%nat.
Proof. induction 1 as [|x ls Hx _ IH]; simpl; [done|]. rewrite length_app. lia. Qed.

Lemma view2_app {A} r1 r2 n (l1 l2 : list A) :
  length l1 = (r1 * n)%nat →
  view2 (r1 + r2) n (l1 ++ l2) = view2 r1 n l1 ++ view2 r2 n l2.
Proof.
  revert l1. induction r1 as [|r1 IH]; intros l1 Hl; simpl.
  - by destruct l1; [|simpl in Hl; lia].
  - unfold view2 in *. simpl. rewrite take_app_le by lia.
    rewrite drop_app_le by lia. rewrite IH; [done|]. rewrite length_drop. lia.
Qed.

Lemma rows_of_app {A} n (l1 l2 : list A) :
  (0 < n)%nat → (n | length l1)%nat →
  rows_of n (l1 ++ l2) = rows_of n l1 ++ rows_of n l2.
Proof.
  intros Hn [k Hk]. unfold rows_of. rewrite length_app, Hk.
  rewrite Nat.div_add_l by lia. rewrite Nat.div_mul by lia. by apply view2_app.
Qed.

Lemma view3_concat {A} a b c (t : list (list (list A))) :
  length t = a →
  Forall (λ m, length m = b ∧ Forall (λ r, length r = c) m) t →
  view3 a b c (concat (map concat t)) = t.
Proof.
  intros Ha H. unfold view3. rewrite view2_concat.
  - rewrite map_map. clear Ha. induction H as [|m t [Hm Hr] _ IH]; simpl; [done|].
    rewrite IH. f_equal. by apply view2_concat.
  - by rewrite length_map.
  - rewrite Forall_map. eapply Forall_impl; [|exact H]. intros m [Hm Hr].
    simpl. erewrite length_concat_uniform by exact Hr. by rewrite Hm.
Qed.

(** Reading a mapped or tabulated list. *)
Lemma nth_map_lt {A B} (f : A → B) (l : list A) i d d' :
  (i < length l)%nat → nth i (map f l) d = f (nth i l d').
Proof.
  intros Hi. rewrite nth_indep with (d' := f d') by (by rewrite length_map).
  apply map_nth.
Qed.

Lemma nth_tabulate {B} (f : nat → B) n i d :
  (i < n)%nat → nth i (map f (seq 0 n)) d = f i.
Proof.
  intros Hi. rewrite (nth_map_lt f _ _ _ 0) by (by rewrite length_seq). by rewrite seq_nth.
Qed.

Lemma map_nth_seq {A} (l : list A) x : map (λ i, nth i l x) (seq 0 (length l)) = l.
Proof.
  apply nth_ext with x x; [by rewrite length_map, length_seq|].
  intros i Hi. rewrite length_map, length_seq in Hi. by rewrite nth_tabulate.
Qed.

Lemma lookup_map {A B} (f : A → B) (l : list A) k : map f l !! k = option_map f (l !! k).
Proof. exact (list_lookup_fmap f l k). Qed.

Lemma Forall_nth_In {A} (P : A → Prop) (l : list A) i d :
  Forall P l → (i < length l)%nat → P (nth i l d).
Proof. intros H Hi. rewrite List.Forall_forall in H. by apply H, nth_In. Qed.

Lemma last_app_cons {A} (a b : list A) x d :
  List.last (a ++ x :: b) d = List.last (x :: b) d.
Proof.
  induction a as [|y a IH]; [done|]. rewrite <-IH. simpl. by destruct (a ++ x :: b) eqn:E;
    [destruct a|].
Qed.

Lemma seq_shift_map a n : seq a n = map (Nat.add a) (seq 0 n).
Proof. rewrite <-(Nat.add_0_r a) at 1. symmetry. apply fmap_add_seq. Qed.

(** A counted loop that maintains an indexed state. *)
Lemma st_for_seq {S} (body : nat → ST S unit) (st : nat → S) n :
  (∀ i, (i < n)%nat → body i (st i) = (Ok tt, st (i + 1)%nat)) →
  st_for (seq 0 n) body (st 0%nat) = (Ok tt, st n).
Proof.
  intros H. assert (∀ k m, (k + m ≤ n)%nat → st_for (seq k m) body (st k) = (Ok tt, st (k + m)%nat)) as G.
  { intros k m. revert k. induction m as [|m IH]; intros k Hk; simpl.
    - by rewrite Nat.add_0_r.
    - rewrite st_bind_eq, H by lia. rewrite Nat.add_1_r, IH by lia. do 2 f_equal. lia. }
  apply (G 0%nat n). lia.
Qed.

(** ** What a computation may change, whatever its outcome *)

(** From [s] the computation ends, normally or by an exception, in a state related
    to [s]. *)
Definition st_at {S A} (R : S → S → Prop) (s : S) (m : ST S A) : Prop := R s (m s).2.

Section Moves.
Context {S : Type} (R : S → S → Prop) `{!PreOrder R}.

Lemma at_ret {A} s (a : A) : st_at R s (mret a).
Proof. unfold st_at. cbn. reflexivity. Qed.

Lemma at_lift {A} s (r : result A) : st_at R s (st_lift r).
Proof. unfold st_at. cbn. reflexivity. Qed.

Lemma at_put s s' : R s s' → st_at R s (st_put s').
Proof. done. Qed.

Lemma at_modify s f : R s (f s) → st_at R s (st_modify f).
Proof. done. Qed.

Lemma at_bind {A B} s (m : ST S A) (f : A → ST S B) :
  st_at R s m → (∀ a s', m s = (Ok a, s') → st_at R s' (f a)) → st_at R s (m ≫= f).
Proof.
  unfold st_at. intros Hm Hf. rewrite st_bind_eq. destruct (m s) as [[a|e] s'] eqn:E; [|done].
  transitivity s'; [done|]. by apply Hf.
Qed.

Lemma at_get {B} s (f : S → ST S B) : st_at R s (f s) → st_at R s (st_get ≫= f).
Proof. done. Qed.

Lemma at_lift_bind {A B} s (r : result A) (f : A → ST S B) :
  (∀ a, r = Ok a → st_at R s (f a)) → st_at R s (st_lift r ≫= f).
Proof. intros H. unfold st_at. rewrite st_bind_eq. unfold st_lift. destruct r; [by apply H|reflexivity]. Qed.

Lemma at_raise_bind {B} s b e (f : unit → ST S B) :
  st_at R s (f tt) → st_at R s (st_raise_if b e ≫= f).
Proof. intros H. apply at_lift_bind. by intros []. Qed.

Lemma at_for_in {A} s (l : list A) (body : A → ST S unit) :
  (∀ x s, In x l → st_at R s (body x)) → st_at R s (st_for l body).
Proof.
  revert s. induction l as [|x l IH]; intros s H; [apply at_ret|].
  apply at_bind; [apply H; by left|]. intros _ s' _. apply IH. intros y s'' Hy. apply H. by right.
Qed.

Lemma at_for {A} s (l : list A) (body : A → ST S unit) :
  (∀ x s, st_at R s (body x)) → st_at R s (st_for l body).
Proof. intros H. apply at_for_in. auto. Qed.
End Moves.

Lemma result_map_ok {A B} (f : A → result B) (g : A → B) l :
  (∀ x, In x l → f x = Ok (g x)) → result_map f l = Ok (map g l).
Proof.
  induction l as [|x l IH]; intros H; [done|]. cbn [result_map map].
  rewrite H, result_bind_ok by (by left). rewrite IH, result_bind_ok by (intros; apply H; by right).
  done.
Qed.
