(* ===== verification/Layout.v ===== *)
(** * Page layout of the physical cache

    [vllm/v1/kv_cache_interface.py]: packed widths, metadata sizes, the opaque
    page layout of one quantized page, the staging-byte bound, and the guards of
    [vllm/config/cache.py] and [triton_attn.py] on the block size.  Python
    integers are [Z]; a [raise ValueError] is [Err ValueError]. *)

From Stdlib Require Import ZArith Lia.
From stdpp Require Import base tactics numbers list option strings.
From S2P Require Import Prelude.

#[local] Open Scope Z_scope.

(** ** Constants *)

Definition RABIT2_K_BITS : Z := 3.
Definition RABIT2_V_BITS : Z := 2.
Definition RABIT2_GROUP_SIZE : Z := 32.
Definition RABIT2_METADATA_GROUP_SIZE : Z := 64.
Definition RABIT2_RESIDUAL_TOKENS : Z := 4.

(** ** Quantization modes *)

Inductive KVQuantMode :=
  | NONE
  | FP8_PER_TENSOR
  | INT8_PER_TOKEN_HEAD
  | FP8_PER_TOKEN_HEAD
  | INT4_PER_TOKEN_HEAD
  | NVFP4
  | INT3_PER_TOKEN_HEAD
  | RABIT_KV2.

#[export] Instance KVQuantMode_eq_dec : EqDecision KVQuantMode.
Proof. solve_decision. Defined.

Definition is_per_token_head (m : KVQuantMode) : bool :=
  match m with
  | INT8_PER_TOKEN_HEAD | FP8_PER_TOKEN_HEAD
  | INT4_PER_TOKEN_HEAD | INT3_PER_TOKEN_HEAD => true
  | _ => false
  end.

Definition is_nvfp4 (m : KVQuantMode) : bool := bool_decide (m = NVFP4).
Definition is_rabit_kv2 (m : KVQuantMode) : bool := bool_decide (m = RABIT_KV2).

Definition get_kv_quant_mode (kv_cache_dtype : string) : KVQuantMode :=
  if String.eqb kv_cache_dtype "rabit_kv2" then RABIT_KV2
  else if String.eqb kv_cache_dtype "kvquant_k3" then INT3_PER_TOKEN_HEAD
  else if String.eqb kv_cache_dtype "int4_per_token_head" then INT4_PER_TOKEN_HEAD
  else if String.eqb kv_cache_dtype "int8_per_token_head" then INT8_PER_TOKEN_HEAD
  else if String.eqb kv_cache_dtype "fp8_per_token_head" then FP8_PER_TOKEN_HEAD
  else if String.eqb kv_cache_dtype "nvfp4" then NVFP4
  else if String.prefix "fp8" kv_cache_dtype then FP8_PER_TENSOR
  else NONE.

Definition is_quantized_kv_cache (kv_cache_dtype : string) : bool :=
  negb (bool_decide (get_kv_quant_mode kv_cache_dtype = NONE)).

Definition kv_cache_uses_per_token_head_scales (kv_cache_dtype : string) : bool :=
  is_per_token_head (get_kv_quant_mode kv_cache_dtype).

(** ** Sizes *)

Definition kvquant_k3_packed_dim (head_size : Z) : Z := cdiv (head_size * 3) 8.

Definition rabit2_packed_dim (value_count bits : Z) : result Z :=
  _ ← raise_if (value_count <? 0) ValueError;
  _ ← raise_if (negb ((bits =? 2) || (bits =? 3))) ValueError;
  Ok (cdiv (value_count * bits) 8).

Definition rabit2_encoded_metadata_bytes (value_count metadata_group_size : Z) : result Z :=
  _ ← raise_if (value_count <? 0) ValueError;
  _ ← raise_if (metadata_group_size <=? 0) ValueError;
  if value_count =? 0 then Ok 0
  else Ok (value_count + cdiv value_count metadata_group_size * 4).

(** ** The page layout *)

Record Rabit2PageLayout := mkLayout {
  block_size : Z;
  num_kv_heads : Z;
  head_size_k : Z;
  head_size_v : Z;
  k_payload_offset : Z;
  k_payload_bytes : Z;
  v_payload_offset : Z;
  v_payload_bytes : Z;
  k_min_offset : Z;
  k_min_bytes : Z;
  k_scale_offset : Z;
  k_scale_bytes : Z;
  v_min_offset : Z;
  v_min_bytes : Z;
  v_scale_offset : Z;
  v_scale_bytes : Z;
  page_bytes : Z
}.

Definition payload_bytes (l : Rabit2PageLayout) : Z := k_payload_bytes l + v_payload_bytes l.

Definition metadata_bytes (l : Rabit2PageLayout) : Z :=
  k_min_bytes l + k_scale_bytes l + v_min_bytes l + v_scale_bytes l.

(** [head_size_v: int | None = None] *)
Definition default_head_size_v (head_size_k : Z) (head_size_v : option Z) : Z :=
  default head_size_k head_size_v.

Definition rabit2_page_layout (block_size num_kv_heads head_size_k : Z)
    (head_size_v : option Z) : result Rabit2PageLayout :=
  _ ← raise_if ((block_size <=? 0) || negb (block_size mod RABIT2_GROUP_SIZE =? 0)) ValueError;
  _ ← raise_if ((num_kv_heads <=? 0) || (head_size_k <=? 0)) ValueError;
  let head_size_v := default_head_size_v head_size_k head_size_v in
  _ ← raise_if (head_size_v <=? 0) ValueError;
  k_packed ← rabit2_packed_dim head_size_k RABIT2_K_BITS;
  let k_payload_bytes := block_size * num_kv_heads * k_packed in
  let v_padded_dim := cdiv head_size_v RABIT2_GROUP_SIZE * RABIT2_GROUP_SIZE in
  v_packed ← rabit2_packed_dim v_padded_dim RABIT2_V_BITS;
  let v_payload_bytes := block_size * num_kv_heads * v_packed in
  let k_primary_values := (block_size / RABIT2_GROUP_SIZE) * num_kv_heads * head_size_k in
  let v_primary_values := block_size * num_kv_heads * cdiv head_size_v RABIT2_GROUP_SIZE in
  k_meta_each ← rabit2_encoded_metadata_bytes k_primary_values RABIT2_METADATA_GROUP_SIZE;
  v_meta_each ← rabit2_encoded_metadata_bytes v_primary_values RABIT2_METADATA_GROUP_SIZE;
  let k_payload_offset := 0 in
  let v_payload_offset := k_payload_offset + k_payload_bytes in
  let k_min_offset := v_payload_offset + v_payload_bytes in
  let k_scale_offset := k_min_offset + k_meta_each in
  let v_min_offset := k_scale_offset + k_meta_each in
  let v_scale_offset := v_min_offset + v_meta_each in
  Ok {| block_size := block_size;
        num_kv_heads := num_kv_heads;
        head_size_k := head_size_k;
        head_size_v := head_size_v;
        k_payload_offset := k_payload_offset;
        k_payload_bytes := k_payload_bytes;
        v_payload_offset := v_payload_offset;
        v_payload_bytes := v_payload_bytes;
        k_min_offset := k_min_offset;
        k_min_bytes := k_meta_each;
        k_scale_offset := k_scale_offset;
        k_scale_bytes := k_meta_each;
        v_min_offset := v_min_offset;
        v_min_bytes := v_meta_each;
        v_scale_offset := v_scale_offset;
        v_scale_bytes := v_meta_each;
        page_bytes := v_scale_offset + v_meta_each |}.

(** ** Per-sequence state outside the page pool *)

Definition min3 (a b c : Z) : Z := Z.min (Z.min a b) c.

Definition rabit2_residual_bytes_per_sequence (num_kv_heads head_size_k : Z)
    (head_size_v : option Z) (residual_tokens : Z) : result Z :=
  let head_size_v := default_head_size_v head_size_k head_size_v in
  _ ← raise_if ((min3 num_kv_heads head_size_k head_size_v <=? 0) || (residual_tokens <? 0))
        ValueError;
  Ok (residual_tokens * num_kv_heads * (head_size_k + head_size_v) * 2).

Definition rabit2_exact_online_staging_bytes_per_sequence (num_kv_heads head_size_k : Z)
    (head_size_v : option Z) (residual_tokens sequence_group_size : Z) : result Z :=
  let head_size_v := default_head_size_v head_size_k head_size_v in
  _ ← raise_if (min3 num_kv_heads head_size_k head_size_v <=? 0) ValueError;
  _ ← raise_if ((residual_tokens <? 0) || (sequence_group_size <=? 0)) ValueError;
  let open_tokens := Z.max (sequence_group_size - 1) 0 in
  let open_k_bf16 := open_tokens * num_kv_heads * head_size_k * 2 in
  let v_padded_dim := cdiv head_size_v RABIT2_GROUP_SIZE * RABIT2_GROUP_SIZE in
  v_packed ← rabit2_packed_dim v_padded_dim RABIT2_V_BITS;
  let open_v_payload := open_tokens * num_kv_heads * v_packed in
  let v_groups_per_head := cdiv head_size_v RABIT2_GROUP_SIZE in
  let open_v_primary_metadata := open_tokens * num_kv_heads * v_groups_per_head * 2 * 4 in
  let residual := residual_tokens * num_kv_heads * (head_size_k + head_size_v) * 2 in
  Ok (open_k_bf16 + open_v_payload + open_v_primary_metadata + residual).

(** [rabit2_effective_compression_with_staging] returns
    [bf16_bytes / rabit_bytes]; the model returns the two integers of the
    quotient. *)
Definition rabit2_effective_compression_with_staging (context_tokens block_size num_kv_heads
    head_size_k : Z) (head_size_v : option Z) : result (Z * Z) :=
  _ ← raise_if (context_tokens <=? 0) ValueError;
  let head_size_v := default_head_size_v head_size_k head_size_v in
  layout ← rabit2_page_layout block_size num_kv_heads head_size_k (Some head_size_v);
  let page_count := cdiv context_tokens block_size in
  staging ← rabit2_exact_online_staging_bytes_per_sequence num_kv_heads head_size_k
              (Some head_size_v) RABIT2_RESIDUAL_TOKENS RABIT2_GROUP_SIZE;
  let rabit_bytes := page_count * page_bytes layout + staging in
  let bf16_bytes := context_tokens * num_kv_heads * (head_size_k + head_size_v) * 2 in
  Ok (bf16_bytes, rabit_bytes).

(** ** Block-size guards of the cache configuration and the backend *)

(** [CacheConfig._validate_rabit_kv2_block_size] *)
Definition validate_rabit_kv2_block_size (cache_dtype : string) (block_size : Z) : result unit :=
  raise_if (String.eqb cache_dtype "rabit_kv2" && negb (block_size mod 32 =? 0)) ValueError.

(** The RABIT branch of [TritonAttentionBackend.get_kv_cache_shape]. *)
Definition get_kv_cache_shape_rabit (num_blocks block_size num_kv_heads head_size : Z) :
    result (list Z) :=
  _ ← raise_if (negb (block_size mod 16 =? 0)) ValueError;
  layout ← rabit2_page_layout block_size num_kv_heads head_size (Some head_size);
  Ok [num_blocks; 1; 1; 1; page_bytes layout].

(** The RABIT branches of [AttentionSpec.real_page_size_bytes] and
    [page_size_bytes]. *)
Definition rabit_real_page_size_bytes (block_size num_kv_heads head_size : Z) : result Z :=
  layout ← rabit2_page_layout block_size num_kv_heads head_size (Some head_size);
  Ok (page_bytes layout).

Definition rabit_page_size_bytes (block_size num_kv_heads head_size : Z)
    (page_size_padded : option Z) : result Z :=
  real_page_size ← rabit_real_page_size_bytes block_size num_kv_heads head_size;
  match page_size_padded with
  | Some padded =>
      _ ← raise_if (negb (real_page_size <=? padded)) AssertionError;
      Ok padded
  | None => Ok real_page_size
  end.

(** ** Closed forms over natural sizes

    The rest of the development indexes lists by [nat]; these are the sizes the
    layout computes, as natural numbers. *)

#[local] Open Scope nat_scope.

Definition packed_dim_nat (n bits : nat) : nat := (n * bits + 7) / 8.
Definition v_groups_nat (dv : nat) : nat := (dv + 31) / 32.
Definition meta_groups_nat (n : nat) : nat := (n + 63) / 64.
Definition meta_bytes_nat (n : nat) : nat := n + meta_groups_nat n * 4.

(** The six region sizes of a page, in page order. *)
Definition region_sizes_nat (bs h dk dv : nat) : list nat :=
  [ bs * h * packed_dim_nat dk 3;
    bs * h * packed_dim_nat (v_groups_nat dv * 32) 2;
    meta_bytes_nat (bs / 32 * h * dk);
    meta_bytes_nat (bs / 32 * h * dk);
    meta_bytes_nat (bs * h * v_groups_nat dv);
    meta_bytes_nat (bs * h * v_groups_nat dv) ].

Lemma cdiv_32 (a : nat) : cdiv (Z.of_nat a) RABIT2_GROUP_SIZE = Z.of_nat (v_groups_nat a).
Proof. exact (cdiv_nat a 32 ltac:(lia)). Qed.

Lemma rabit2_packed_dim_nat (n b : nat) :
  b = 2 ∨ b = 3 → rabit2_packed_dim (Z.of_nat n) (Z.of_nat b) = Ok (Z.of_nat (packed_dim_nat n b)).
Proof.
  intros Hb. unfold rabit2_packed_dim.
  destruct (Z.ltb_spec (Z.of_nat n) 0); [lia|]. simpl raise_if. rewrite result_bind_ok.
  replace (_ || _)%bool with true by (destruct Hb; subst; done). simpl raise_if.
  rewrite result_bind_ok. do 2 f_equal. rewrite <-Nat2Z.inj_mul.
  exact (cdiv_nat (n * b) 8 ltac:(lia)).
Qed.

Lemma rabit2_encoded_metadata_bytes_nat (n : nat) :
  rabit2_encoded_metadata_bytes (Z.of_nat n) RABIT2_METADATA_GROUP_SIZE
  = Ok (Z.of_nat (meta_bytes_nat n)).
Proof.
  unfold rabit2_encoded_metadata_bytes.
  destruct (Z.ltb_spec (Z.of_nat n) 0); [lia|]. simpl raise_if.
  rewrite !result_bind_ok. destruct (Z.eqb_spec (Z.of_nat n) 0) as [Hn|Hn].
  { by replace n with 0 by lia. }
  unfold RABIT2_METADATA_GROUP_SIZE. change 64%Z with (Z.of_nat 64).
  rewrite cdiv_nat by lia. f_equal. unfold meta_bytes_nat, meta_groups_nat.
  change (64 - 1) with 63. lia.
Qed.

(** The layout of a valid geometry, field by field. *)
Definition layout_of (bs h dk dv : nat) : Rabit2PageLayout :=
  let s := region_sizes_nat bs h dk dv in
  let off i := Z.of_nat (sum_list (take i s)) in
  let size i := Z.of_nat (nth i s 0) in
  mkLayout (Z.of_nat bs) (Z.of_nat h) (Z.of_nat dk) (Z.of_nat dv)
    (off 0) (size 0) (off 1) (size 1) (off 2) (size 2)
    (off 3) (size 3) (off 4) (size 4) (off 5) (size 5) (off 6).

Lemma rabit2_page_layout_nat (bs h dk dv : nat) :
  0 < bs → (32 | bs) → 0 < h → 0 < dk → 0 < dv →
  rabit2_page_layout (Z.of_nat bs) (Z.of_nat h) (Z.of_nat dk) (Some (Z.of_nat dv))
  = Ok (layout_of bs h dk dv).
Proof.
  intros Hbs [q Hq] Hh Hk Hv. unfold rabit2_page_layout, default_head_size_v. simpl default.
  assert (Z.of_nat bs mod RABIT2_GROUP_SIZE = 0)%Z as ->.
  { unfold RABIT2_GROUP_SIZE. subst bs. rewrite Nat2Z.inj_mul. apply Z.mod_mul. lia. }
  repeat match goal with |- context [(Z.of_nat ?a <=? 0)%Z] =>
    replace (Z.of_nat a <=? 0)%Z with false by lia end.
  simpl raise_if. rewrite !result_bind_ok.
  change RABIT2_K_BITS with (Z.of_nat 3). change RABIT2_V_BITS with (Z.of_nat 2).
  rewrite (rabit2_packed_dim_nat dk 3), result_bind_ok by lia.
  rewrite !cdiv_32. unfold RABIT2_GROUP_SIZE.
  replace (Z.of_nat (v_groups_nat dv) * 32)%Z with (Z.of_nat (v_groups_nat dv * 32)) by lia.
  rewrite (rabit2_packed_dim_nat _ 2), result_bind_ok by lia.
  replace (Z.of_nat bs `div` 32 * _ * _)%Z with (Z.of_nat (bs / 32 * h * dk))
    by (rewrite !Nat2Z.inj_mul, Nat2Z.inj_div; lia).
  rewrite <-!Nat2Z.inj_mul. rewrite !rabit2_encoded_metadata_bytes_nat, !result_bind_ok.
  unfold layout_of. f_equal. simpl. f_equal; lia.
Qed.

(** The staging bound of a valid geometry. *)
Definition staging_bytes_nat (h dk dv : nat) : nat :=
  31 * (h * dk * 2 + h * packed_dim_nat (v_groups_nat dv * 32) 2 + h * v_groups_nat dv * 8)
  + 4 * (h * (dk + dv) * 2).

Lemma staging_bytes_of (h dk dv : nat) :
  0 < h → 0 < dk → 0 < dv →
  rabit2_exact_online_staging_bytes_per_sequence (Z.of_nat h) (Z.of_nat dk) (Some (Z.of_nat dv))
    RABIT2_RESIDUAL_TOKENS RABIT2_GROUP_SIZE = Ok (Z.of_nat (staging_bytes_nat h dk dv)).
Proof.
  intros Hh Hk Hv. unfold rabit2_exact_online_staging_bytes_per_sequence, default_head_size_v.
  simpl default. unfold min3.
  replace (Z.min (Z.min (Z.of_nat h) (Z.of_nat dk)) (Z.of_nat dv) <=? 0)%Z with false by lia.
  cbn [raise_if orb]. rewrite !result_bind_ok. rewrite !cdiv_32.
  change RABIT2_V_BITS with (Z.of_nat 2).
  replace (Z.of_nat (v_groups_nat dv) * RABIT2_GROUP_SIZE)%Z with (Z.of_nat (v_groups_nat dv * 32))
    by (unfold RABIT2_GROUP_SIZE; lia).
  rewrite (rabit2_packed_dim_nat _ 2), result_bind_ok by lia.
  unfold staging_bytes_nat, RABIT2_GROUP_SIZE, RABIT2_RESIDUAL_TOKENS.
  change ((4 <? 0)%Z || (32 <=? 0)%Z) with false. cbn [raise_if]. rewrite result_bind_ok. f_equal.
  change (Z.max (32 - 1) 0) with 31%Z.
  rewrite !Nat2Z.inj_add, !Nat2Z.inj_mul, !Nat2Z.inj_add, !Nat2Z.inj_mul. lia.
Qed.

(** ** Properties of the layout *)

(** The argument check of [rabit2_page_layout]. *)
Definition valid_geometry (bs h dk dv : Z) : Prop :=
  (0 < bs ∧ bs mod 32 = 0 ∧ 0 < h ∧ 0 < dk ∧ 0 < dv)%Z.

(** The regions of a layout follow each other without gap or overlap. *)
Definition regions_tile (l : Rabit2PageLayout) : Prop :=
  (k_payload_offset l = 0
   ∧ v_payload_offset l = k_payload_offset l + k_payload_bytes l
   ∧ k_min_offset l = v_payload_offset l + v_payload_bytes l
   ∧ k_scale_offset l = k_min_offset l + k_min_bytes l
   ∧ v_min_offset l = k_scale_offset l + k_scale_bytes l
   ∧ v_scale_offset l = v_min_offset l + v_min_bytes l
   ∧ page_bytes l = v_scale_offset l + v_scale_bytes l
   ∧ page_bytes l = payload_bytes l + metadata_bytes l)%Z.

Definition regions_positive (l : Rabit2PageLayout) : Prop :=
  (0 < k_payload_bytes l ∧ 0 < v_payload_bytes l ∧ 0 < k_min_bytes l
   ∧ 0 < k_scale_bytes l ∧ 0 < v_min_bytes l ∧ 0 < v_scale_bytes l)%Z.

Lemma layout_of_tile bs h dk dv : regions_tile (layout_of bs h dk dv).
Proof.
  unfold regions_tile, payload_bytes, metadata_bytes, layout_of. simpl. repeat split; lia.
Qed.

Lemma packed_dim_nat_pos n b : 0 < n → 0 < b → 0 < packed_dim_nat n b.
Proof. intros. unfold packed_dim_nat. apply Nat.div_str_pos. nia. Qed.

Lemma v_groups_nat_pos dv : 0 < dv → 0 < v_groups_nat dv.
Proof. intros. unfold v_groups_nat. apply Nat.div_str_pos. lia. Qed.

Lemma meta_bytes_nat_pos n : 0 < n → 0 < meta_bytes_nat n.
Proof. unfold meta_bytes_nat. lia. Qed.

Lemma layout_of_positive bs h dk dv :
  0 < bs → (32 | bs) → 0 < h → 0 < dk → 0 < dv → regions_positive (layout_of bs h dk dv).
Proof.
  intros Hbs [q ->] Hh Hk Hv.
  pose proof (packed_dim_nat_pos dk 3 ltac:(lia) ltac:(lia)).
  pose proof (v_groups_nat_pos dv Hv).
  pose proof (packed_dim_nat_pos (v_groups_nat dv * 32) 2 ltac:(lia) ltac:(lia)).
  assert (0 < q * 32 / 32 * h * dk).
  { rewrite Nat.div_mul by lia. repeat apply Nat.mul_pos_pos; lia. }
  pose proof (meta_bytes_nat_pos (q * 32 / 32 * h * dk) ltac:(lia)).
  pose proof (meta_bytes_nat_pos (q * 32 * h * v_groups_nat dv)
                ltac:(repeat apply Nat.mul_pos_pos; lia)).
  unfold regions_positive, layout_of. cbn -[Nat.mul Nat.div].
  repeat split; try lia; rewrite <-(Nat2Z.inj_lt 0); repeat apply Nat.mul_pos_pos; lia.
Qed.

(** C35: [rabit2_page_layout] accepts exactly the positive geometries whose block
    size is a multiple of 32; on those, the six regions are non-empty and tile
    the page [0, page_bytes) in order with no gap and no overlap; on every other
    input it raises [ValueError]. *)
Theorem page_layout_tiles_page (bs h dk dv : Z) :
  (valid_geometry bs h dk dv →
     ∃ l, rabit2_page_layout bs h dk (Some dv) = Ok l
          ∧ regions_tile l ∧ regions_positive l
          ∧ (block_size l, num_kv_heads l, head_size_k l, head_size_v l) = (bs, h, dk, dv))
  ∧ (¬ valid_geometry bs h dk dv → rabit2_page_layout bs h dk (Some dv) = Err ValueError).
Proof.
  split.
  - intros (Hbs & Hmod & Hh & Hk & Hv).
    assert (32 | Z.to_nat bs).
    { exists (Z.to_nat (bs / 32)). pose proof (Z.div_mod bs 32 ltac:(lia)). lia. }
    exists (layout_of (Z.to_nat bs) (Z.to_nat h) (Z.to_nat dk) (Z.to_nat dv)).
    pose proof (rabit2_page_layout_nat (Z.to_nat bs) (Z.to_nat h) (Z.to_nat dk) (Z.to_nat dv)) as E.
    rewrite !Z2Nat.id in E by lia. rewrite E by (done || lia).
    repeat split; try apply layout_of_tile; try apply layout_of_positive; try done; try lia.
    simpl. rewrite !Z2Nat.id by lia. done.
  - intros Hn. unfold rabit2_page_layout, default_head_size_v, RABIT2_GROUP_SIZE. simpl default.
    unfold valid_geometry in Hn.
    destruct (Z.leb_spec bs 0); [done|]. destruct (Z.eqb_spec (bs mod 32) 0); [|done].
    destruct (Z.leb_spec h 0); [done|]. destruct (Z.leb_spec dk 0); [done|].
    destruct (Z.leb_spec dv 0); [done|]. lia.
Qed.

(** For the served geometries (head sizes that are multiples of 32, K/V head
    sizes equal, [heads * head_size] a multiple of 64) a closed 32-token page
    occupies exactly 24.25 bytes per head and channel: [4 * page_bytes = 97 * H * d],
    made of 12 (K3 payload), 8 (V2 payload) and 4.25 (META8g64) bytes. *)
Theorem closed_page_bytes (h d : nat) :
  0 < h → 0 < d → (32 | d) → (64 | h * d) →
  ∃ l, rabit2_page_layout 32 (Z.of_nat h) (Z.of_nat d) (Some (Z.of_nat d)) = Ok l
       ∧ (k_payload_bytes l = 12 * Z.of_nat (h * d)
          ∧ v_payload_bytes l = 8 * Z.of_nat (h * d)
          ∧ 4 * metadata_bytes l = 17 * Z.of_nat (h * d)
          ∧ 4 * page_bytes l = 97 * Z.of_nat (h * d))%Z.
Proof.
  intros Hh Hd [c ->] [m Hm]. exists (layout_of 32 h (c * 32) (c * 32)). split.
  { apply (rabit2_page_layout_nat 32); (lia || by exists 1). }
  assert (v_groups_nat (c * 32) = c) as Hg.
  { unfold v_groups_nat. rewrite Nat.div_add_l, Nat.div_small by lia. lia. }
  assert (packed_dim_nat (c * 32) 3 = c * 12) as H3.
  { unfold packed_dim_nat. replace (c * 32 * 3) with ((c * 12) * 8) by lia.
    rewrite Nat.div_add_l, Nat.div_small by lia. lia. }
  assert (packed_dim_nat (c * 32) 2 = c * 8) as H2.
  { unfold packed_dim_nat. replace (c * 32 * 2) with ((c * 8) * 8) by lia.
    rewrite Nat.div_add_l, Nat.div_small by lia. lia. }
  assert (meta_bytes_nat (m * 64) = m * 68) as HM.
  { unfold meta_bytes_nat, meta_groups_nat. rewrite Nat.div_add_l, Nat.div_small by lia. lia. }
  unfold metadata_bytes, layout_of, region_sizes_nat. rewrite Hg, H3, H2.
  replace (32 / 32 * h * (c * 32)) with (m * 64) by (rewrite <-Hm; change (32 / 32) with 1; lia).
  replace (32 * h * c) with (m * 64) by lia.
  rewrite HM. cbn [sum_list sum_list_with take nth fold_right]. simpl. nia.
Qed.

(** At the served Llama geometry: 24,832 bytes per page. *)
Lemma closed_page_bytes_witness :
  rabit2_page_layout 32 8 128 (Some 128%Z) = Ok (layout_of 32 8 128 128)
  ∧ page_bytes (layout_of 32 8 128 128) = 24832%Z
  ∧ ∃ l, rabit2_page_layout 32 8 128 (Some 128%Z) = Ok l
       ∧ (k_payload_bytes l = 12 * Z.of_nat (8 * 128)
          ∧ v_payload_bytes l = 8 * Z.of_nat (8 * 128)
          ∧ 4 * metadata_bytes l = 17 * Z.of_nat (8 * 128)
          ∧ 4 * page_bytes l = 97 * Z.of_nat (8 * 128))%Z.
Proof.
  split; [reflexivity|]. split; [vm_compute; reflexivity|].
  apply (closed_page_bytes 8 128); [lia|lia|by exists 4|by exists 16].
Defined.
