(* ===== verification/Torch.v ===== *)
(** * The tensor library as an interface

    PyTorch and Triton are not part of the repository.  [TorchFloat] is the set
    of scalar operations the quantizers take from them: float32 arithmetic,
    [amin]/[amax], [torch.round], [clamp], the cast to [uint8], the two
    threshold tests of the code, and the casts between float32 and bfloat16.  A
    bfloat16 number is its 16-bit pattern, because the code stores it as two
    bytes.  [TorchFloatLaws] names the documented facts the development relies
    on.  [SpecFloatTorch] is a concrete instance: IEEE binary32 and bfloat16
    built on the standard library's [SpecFloat].

    Tensors of shape [tokens, heads, dim] are nested lists with their two inner
    dimensions recorded, so that an empty tensor still has a shape. *)

From Stdlib Require Import ZArith Lia Floats.SpecFloat.
From stdpp Require Import base tactics numbers list option.
From S2P Require Import Prelude.

Class TorchFloat := {
  f32 : Type;
  f32_zero : f32;
  f32_one : f32;
  f32_add : f32 → f32 → f32;
  f32_sub : f32 → f32 → f32;
  f32_mul : f32 → f32 → f32;
  f32_div : f32 → f32 → f32;
  f32_min : f32 → f32 → f32;
  f32_max : f32 → f32 → f32;
  f32_round : f32 → f32;                 (* torch.round *)
  f32_clamp : Z → Z → f32 → f32;         (* tensor.clamp(lo, hi) *)
  f32_to_u8 : f32 → Z;                   (* tensor.to(torch.uint8) *)
  f32_of_int : Z → f32;                  (* codes.float(), 7.0, 3.0, 255.0 *)
  f32_abs_lt_1e8 : f32 → bool;           (* x.abs() < 1e-8 *)
  f32_abs_lt_1e12 : f32 → bool;          (* x.abs() < 1e-12 *)
  bf16_of_f32 : f32 → Z;                 (* x.to(torch.bfloat16), as 16 bits *)
  f32_of_bf16 : Z → f32                  (* x.float() *)
}.

Class TorchFloatLaws `(TF : TorchFloat) : Prop := {
  f32_to_u8_clamp : ∀ hi x,
    (0 ≤ hi ≤ 255)%Z → (0 ≤ f32_to_u8 (f32_clamp 0 hi x) ≤ hi)%Z;
  bf16_of_f32_range : ∀ x, (0 ≤ bf16_of_f32 x < 65536)%Z;
  bf16_of_f32_stable : ∀ x, bf16_of_f32 (f32_of_bf16 (bf16_of_f32 x)) = bf16_of_f32 x
}.

(** ** Elementwise and reducing operations shared by the quantizers *)

Section Elementwise.
Context `{TF : TorchFloat}.

(** [x.amin()] and [x.amax()] of a non-empty group. *)
Definition amin (l : list f32) : f32 :=
  match l with [] => f32_zero | x :: l' => fold_left f32_min l' x end.
Definition amax (l : list f32) : f32 :=
  match l with [] => f32_zero | x :: l' => fold_left f32_max l' x end.

(** [scale = (max - min) / levels; torch.where(scale.abs() < eps, 1, scale)] *)
Definition affine_scale (small : f32 → bool) (levels : Z) (mn mx : f32) : f32 :=
  let scale := f32_div (f32_sub mx mn) (f32_of_int levels) in
  if small scale then f32_one else scale.

(** [torch.round((x - min) / scale).clamp(0, levels).to(torch.uint8)] *)
Definition affine_code (levels : Z) (mn scale x : f32) : Z :=
  f32_to_u8 (f32_clamp 0 levels (f32_round (f32_div (f32_sub x mn) scale))).

(** [codes.float() * scale + min] *)
Definition affine_value (code : Z) (scale mn : f32) : f32 :=
  f32_add (f32_mul (f32_of_int code) scale) mn.

Lemma affine_code_range `{!TorchFloatLaws TF} levels mn scale x :
  (0 ≤ levels ≤ 255)%Z → (0 ≤ affine_code levels mn scale x ≤ levels)%Z.
Proof. intros. by apply f32_to_u8_clamp. Qed.
End Elementwise.

(** ** Tensors of shape [tokens, heads, dim] *)

Record tensor3 (A : Type) := mkTensor3 {
  t_heads : nat;
  t_dim : nat;
  t_rows : list (list (list A))
}.
Arguments mkTensor3 {A} t_heads t_dim t_rows.
Arguments t_heads {A} _.
Arguments t_dim {A} _.
Arguments t_rows {A} _.

Definition t_tokens {A} (t : tensor3 A) : nat := length (t_rows t).

(** One token's [heads x dim] matrix. *)
Definition wf_row {A} (h d : nat) (tok : list (list A)) : Prop :=
  length tok = h ∧ Forall (λ r, length r = d) tok.

Definition wf_tensor3 {A} (t : tensor3 A) : Prop :=
  Forall (wf_row (t_heads t) (t_dim t)) (t_rows t).

(** [a.shape == b.shape] *)
Definition shape_eqb {A B} (a : tensor3 A) (b : tensor3 B) : bool :=
  (t_tokens a =? t_tokens b)%nat && (t_heads a =? t_heads b)%nat && (t_dim a =? t_dim b)%nat.

(** Apply a scalar function to every element. *)
Definition map3 {A B} (f : A → B) : list (list (list A)) → list (list (list B)) :=
  map (map (map f)).

Lemma wf_row_map {A B} (f : A → B) h d tok : wf_row h d tok → wf_row h d (map (map f) tok).
Proof.
  intros [Hl Hr]. split; [by rewrite length_map|].
  rewrite Forall_map. eapply Forall_impl; [|exact Hr]. intros r Hr'. by rewrite length_map.
Qed.

(** ** Exchanging the token and head axes ([permute(1, 0, 2)]) *)

Definition permute102 {A} (n : nat) (t : list (list A)) (dflt : A) : list (list A) :=
  map (λ i, map (λ r, nth i r dflt) t) (seq 0 n).

Lemma permute102_length {A} n (t : list (list A)) x : length (permute102 n t x) = n.
Proof. unfold permute102. by rewrite length_map, length_seq. Qed.

Lemma permute102_row_length {A} n (t : list (list A)) x :
  Forall (λ r, length r = length t) (permute102 n t x).
Proof.
  unfold permute102. rewrite Forall_map. apply Forall_forall. intros i _. apply length_map.
Qed.

Lemma permute102_app {A} n (t1 t2 : list (list A)) x :
  permute102 n (t1 ++ t2) x = zip_with app (permute102 n t1 x) (permute102 n t2 x).
Proof.
  unfold permute102. generalize 0 as k. induction n as [|n IH]; intros k; simpl; [done|].
  by rewrite map_app, IH.
Qed.

Lemma permute102_involutive {A} n (t : list (list A)) x :
  Forall (λ r, length r = n) t → permute102 (length t) (permute102 n t x) x = t.
Proof.
  intros H. unfold permute102 at 1.
  transitivity (map (λ i, nth i t []) (seq 0 (length t))); [|apply map_nth_seq].
  apply map_ext_in. intros i [_ Hi]%in_seq. simpl in Hi.
  unfold permute102. rewrite map_map.
  rewrite <-(map_nth_seq (nth i t []) x) at 1.
  rewrite (Forall_nth_In _ _ i [] H Hi).
  apply map_ext. intros j. by rewrite (nth_map_lt _ _ _ _ []).
Qed.
