(* ===== verification/SpecFloatTorch.v ===== *)
(** * A concrete instance of the tensor interface

    IEEE binary32 arithmetic with round-to-nearest-even on the standard
    library's [SpecFloat] (precision 24, exponent bound 128), bfloat16 as
    precision 8 with the same exponent range, stored as its 16-bit pattern.
    Comparisons with integers, rounding to an integer and truncation are exact
    on the represented value.  The instance shows that [TorchFloatLaws] is
    satisfiable by real float arithmetic, and lets the witnesses evaluate. *)

From Stdlib Require Import ZArith Lia Floats.SpecFloat.
From stdpp Require Import base tactics numbers list.
From S2P Require Import Prelude Torch.

#[local] Open Scope Z_scope.

(** Signed mantissa. *)
Definition sf_signed (s : bool) (m : positive) : Z := if s then Zneg m else Zpos m.

(** [x < z] and [z < x] on the exact values; a NaN compares false. *)
Definition sf_lt_int (x : spec_float) (z : Z) : bool :=
  match x with
  | S754_zero _ => 0 <? z
  | S754_infinity s => s
  | S754_nan => false
  | S754_finite s m e =>
      if 0 <=? e then sf_signed s m * 2 ^ e <? z else sf_signed s m <? z * 2 ^ (- e)
  end.

Definition sf_gt_int (x : spec_float) (z : Z) : bool :=
  match x with
  | S754_zero _ => z <? 0
  | S754_infinity s => negb s
  | S754_nan => false
  | S754_finite s m e =>
      if 0 <=? e then z <? sf_signed s m * 2 ^ e else z * 2 ^ (- e) <? sf_signed s m
  end.

Definition sf_of_int (z : Z) : spec_float := binary_normalize 24 128 z 0 false.

(** Truncation toward zero, as the float-to-uint8 cast does inside [0, 255]. *)
Definition sf_trunc (x : spec_float) : Z :=
  match x with
  | S754_finite s m e =>
      if 0 <=? e then sf_signed s m * 2 ^ e else Z.quot (sf_signed s m) (2 ^ (- e))
  | _ => 0
  end.

(** Round half to even to an integral float. *)
Definition sf_round (x : spec_float) : spec_float :=
  match x with
  | S754_finite s m e =>
      if 0 <=? e then x
      else
        let d := 2 ^ (- e) in
        let q := Zpos m / d in
        let r := Zpos m mod d in
        let n := if 2 * r <? d then q
                 else if d <? 2 * r then q + 1
                 else if Z.even q then q else q + 1 in
        binary_normalize 24 128 (if s then - n else n) 0 s
  | _ => x
  end.

Definition sf_clamp (lo hi : Z) (x : spec_float) : spec_float :=
  if sf_lt_int x lo then sf_of_int lo else if sf_gt_int x hi then sf_of_int hi else x.

Definition sf_min (x y : spec_float) : spec_float :=
  match x, y with
  | S754_nan, _ | _, S754_nan => S754_nan
  | _, _ => if SFltb y x then y else x
  end.

Definition sf_max (x y : spec_float) : spec_float :=
  match x, y with
  | S754_nan, _ | _, S754_nan => S754_nan
  | _, _ => if SFltb x y then y else x
  end.

(** The float32 values nearest 1e-8 and 1e-12. *)
Definition sf_1e8 : spec_float := S754_finite false 11258999 (-50).
Definition sf_1e12 : spec_float := S754_finite false 9223372 (-63).

(** bfloat16 patterns: sign, 8 exponent bits, 7 fraction bits; one NaN pattern. *)
Definition bf16_canonical (p : Z) : Z :=
  if (Z.land (Z.shiftr p 7) 255 =? 255) && negb (Z.land p 127 =? 0) then 32704 else p.

Definition bf16_encode (x : spec_float) : Z :=
  let bits s v := (if s : bool then 32768 else 0) + v in
  bf16_canonical (match x with
  | S754_zero s => bits s 0
  | S754_infinity s => bits s 32640
  | S754_nan => 32704
  | S754_finite s m e =>
      match binary_normalize 8 128 (sf_signed s m) e s with
      | S754_zero s' => bits s' 0
      | S754_infinity s' => bits s' 32640
      | S754_nan => 32704
      | S754_finite s' m' e' =>
          if Zpos m' <? 128 then bits s' (Zpos m')
          else bits s' ((e' + 134) * 128 + (Zpos m' - 128))
      end
  end mod 65536).

Definition bf16_decode (p : Z) : spec_float :=
  let s := 32768 <=? p in
  let ex := Z.land (Z.shiftr p 7) 255 in
  let fr := Z.land p 127 in
  if ex =? 255 then (if fr =? 0 then S754_infinity s else S754_nan)
  else
    let m := if ex =? 0 then fr else 128 + fr in
    let e := if ex =? 0 then -133 else ex - 134 in
    binary_normalize 24 128 (if s then - m else m) e s.

#[export] Instance SpecFloatTorch : TorchFloat := {
  f32 := spec_float;
  f32_zero := S754_zero false;
  f32_one := sf_of_int 1;
  f32_add := SFadd 24 128;
  f32_sub := SFsub 24 128;
  f32_mul := SFmul 24 128;
  f32_div := SFdiv 24 128;
  f32_min := sf_min;
  f32_max := sf_max;
  f32_round := sf_round;
  f32_clamp := sf_clamp;
  f32_to_u8 := sf_trunc;
  f32_of_int := sf_of_int;
  f32_abs_lt_1e8 := λ x, SFltb (SFabs x) sf_1e8;
  f32_abs_lt_1e12 := λ x, SFltb (SFabs x) sf_1e12;
  bf16_of_f32 := bf16_encode;
  f32_of_bf16 := bf16_decode
}.

(** The integers 0..255 are exactly representable. *)
Lemma sf_trunc_of_int (z : Z) : 0 <= z <= 255 → sf_trunc (sf_of_int z) = z.
Proof.
  intros Hz.
  assert (forallb (λ n, sf_trunc (sf_of_int (Z.of_nat n)) =? Z.of_nat n) (seq 0 256) = true)
    as H by (vm_compute; reflexivity).
  rewrite forallb_forall in H. specialize (H (Z.to_nat z)).
  rewrite Z2Nat.id in H by lia. apply Z.eqb_eq, H, in_seq. lia.
Qed.

Lemma sf_trunc_between (hi : Z) x :
  0 <= hi → sf_lt_int x 0 = false → sf_gt_int x hi = false → 0 <= sf_trunc x <= hi.
Proof.
  intros Hhi. destruct x as [s|s| |s m e]; simpl; try lia.
  destruct (Z.leb_spec 0 e) as [He|He]; [lia|].
  rewrite Z.mul_0_l. intros H1 H2. apply Z.ltb_ge in H1, H2.
  pose proof (Z.pow_pos_nonneg 2 (- e) ltac:(lia) ltac:(lia)) as Hp. split.
  - by apply Z.quot_pos.
  - apply Z.quot_le_upper_bound; lia.
Qed.

(** Reading back a bfloat16 pattern and rounding again is the identity: every
    pattern is exact. *)
Lemma bf16_decode_encode_patterns :
  forallb (λ hi, forallb (λ lo, let p := bf16_canonical (hi * 256 + lo) in
     (0 <=? p) && (p <? 65536) && (bf16_encode (bf16_decode p) =? p))
    (seqZ 0 256)) (seqZ 0 256) = true.
Proof. vm_compute. reflexivity. Qed.

Lemma bf16_canonical_pattern p :
  0 <= p < 65536 →
  0 <= bf16_canonical p < 65536 ∧ bf16_encode (bf16_decode (bf16_canonical p)) = bf16_canonical p.
Proof.
  intros Hp. pose proof bf16_decode_encode_patterns as H. rewrite forallb_forall in H.
  pose proof (Z.div_mod p 256 ltac:(lia)) as Hd. pose proof (Z.mod_pos_bound p 256 ltac:(lia)).
  assert (0 <= p / 256 < 256) by (split; [apply Z.div_pos; lia|apply Z.div_lt_upper_bound; lia]).
  specialize (H (p / 256)). rewrite forallb_forall in H.
  specialize (H ltac:(apply list_elem_of_In, elem_of_seqZ; lia) (p mod 256)
                ltac:(apply list_elem_of_In, elem_of_seqZ; lia)).
  cbv zeta in H. replace (p / 256 * 256 + p mod 256) with p in H by lia.
  apply andb_true_iff in H as [H E%Z.eqb_eq]. apply andb_true_iff in H as [HA%Z.leb_le HB%Z.ltb_lt].
  done.
Qed.

#[export] Instance SpecFloatTorch_laws : TorchFloatLaws SpecFloatTorch.
Proof.
  split.
  - intros hi x Hhi. simpl. unfold sf_clamp.
    destruct (sf_lt_int x 0) eqn:E1; [rewrite sf_trunc_of_int; lia|].
    destruct (sf_gt_int x hi) eqn:E2; [rewrite sf_trunc_of_int; lia|].
    apply sf_trunc_between; [lia|done|done].
  - intros x. simpl. unfold bf16_encode. apply bf16_canonical_pattern, Z.mod_pos_bound. lia.
  - intros x. simpl. unfold bf16_encode at 2 3. apply bf16_canonical_pattern, Z.mod_pos_bound. lia.
Qed.
