(* ===== verification/BitPack.v ===== *)
(** * Low-bit packing

    [pack_lowbit_values], [unpack_lowbit_values], [pack_int3_values],
    [unpack_int3_values] and the [int2] wrappers of [kvquant_k3.py], the direct
    INT3 packer of [rabit_kv2.py], and the packing kernels.  A tensor is a list
    of rows along its last dimension ([values.reshape(-1, value_count)]).

    The abstract contract is the little-endian bit stream: bit [p] of a row of
    [bits]-bit codes is bit [p mod bits] of code [p / bits].  [packs] says a byte
    row holds that stream; every packer is proved to produce the one byte row
    that satisfies it, so the packers are byte-identical. *)

From Stdlib Require Import ZArith Lia.
From stdpp Require Import base tactics numbers list option.
From S2P Require Import Prelude.

(** ** Reference packers *)

Definition valid_bits (bits : nat) : bool :=
  (bits =? 1)%nat || (bits =? 2)%nat || (bits =? 3)%nat || (bits =? 4)%nat || (bits =? 8)%nat.

(** [_packed_dim] (value counts are natural here, so its first guard is moot). *)
Definition _packed_dim (value_count bits : nat) : result nat :=
  _ ← raise_if (negb (valid_bits bits)) ValueError;
  Ok ((value_count * bits + 7) / 8)%nat.

Definition _kvquant_k3_packed_dim (head_size : nat) : nat := ((head_size * 3 + 7) / 8)%nat.

(** [packed.scatter_add_(1, index, src)] on one row. *)
Definition scatter_add (acc : list Z) (index : list nat) (src : list Z) : list Z :=
  fold_left (λ acc jv, alter (Z.add jv.2) jv.1 acc) (zip index src) acc.

Definition byte_offsets (bits bit n : nat) : list nat :=
  map (λ i, (i * bits + bit) / 8)%nat (seq 0 n).

Definition bit_offset (bits bit i : nat) : nat := ((i * bits + bit) mod 8)%nat.

(** One pass of the packing loop: [bit_values << bit_offsets]. *)
Definition bit_contributions (bits bit : nat) (codes : list Z) : list Z :=
  map (λ i, Z.shiftl (Z.land (Z.shiftr (nth i codes 0%Z) (Z.of_nat bit)) 1)
                     (Z.of_nat (bit_offset bits bit i)))
      (seq 0 (length codes)).

(** The loop over [bit in range(bits)] and the cast to [uint8], on one row. *)
Definition pack_row (bits packed_count : nat) (codes : list Z) : list Z :=
  let packed :=
    fold_left (λ packed bit,
                 scatter_add packed (byte_offsets bits bit (length codes))
                             (bit_contributions bits bit codes))
              (seq 0 bits) (replicate packed_count 0%Z) in
  map (λ b, b mod 256)%Z packed.

Definition out_of_range (bits : nat) (c : Z) : bool :=
  (c <? 0)%Z || (2 ^ Z.of_nat bits - 1 <? c)%Z.

Definition pack_lowbit_values (bits : nat) (value_count : nat) (values : list (list Z)) :
    result (list (list Z)) :=
  _ ← raise_if (negb (valid_bits bits)) ValueError;
  if (length (concat values) =? 0)%nat then Ok (map (λ _, []) values)
  else
    _ ← raise_if (existsb (out_of_range bits) (concat values)) ValueError;
    if (bits =? 8)%nat then Ok values
    else
      packed_count ← _packed_dim value_count bits;
      Ok (map (pack_row bits packed_count) values).

Definition pack_int3_values (value_count : nat) (values : list (list Z)) :
    result (list (list Z)) :=
  if (length (concat values) =? 0)%nat then Ok (map (λ _, []) values)
  else
    _ ← raise_if (existsb (out_of_range 3) (concat values)) ValueError;
    Ok (map (pack_row 3 (_kvquant_k3_packed_dim value_count)) values).

Definition pack_int2_values (value_count : nat) (values : list (list Z)) :
    result (list (list Z)) :=
  pack_lowbit_values 2 value_count values.

(** The unpacking loop on one value: [values |= ((source >> off) & 1) << bit]. *)
Definition unpack_value (bits : nat) (bytes : list Z) (i : nat) : Z :=
  fold_left (λ v bit,
      Z.lor v (Z.shiftl
                 (Z.land (Z.shiftr (nth ((i * bits + bit) / 8) bytes 0%Z)
                                   (Z.of_nat (bit_offset bits bit i))) 1)
                 (Z.of_nat bit)))
    (seq 0 bits) 0%Z.

Definition unpack_row (bits value_count : nat) (bytes : list Z) : list Z :=
  map (λ v, v mod 256)%Z (map (unpack_value bits bytes) (seq 0 value_count)).

(** [last_dim] is [packed.shape[-1]]. *)
Definition unpack_lowbit_values (bits value_count last_dim : nat) (packed : list (list Z)) :
    result (list (list Z)) :=
  _ ← raise_if (negb (valid_bits bits)) ValueError;
  expected ← _packed_dim value_count bits;
  _ ← raise_if (last_dim <? expected)%nat ValueError;
  if (value_count =? 0)%nat then Ok (map (λ _, []) packed)
  else if (bits =? 8)%nat then Ok (map (take value_count) packed)
  else Ok (map (λ row, unpack_row bits value_count (take expected row)) packed).

Definition unpack_int3_values (value_count last_dim : nat) (packed : list (list Z)) :
    result (list (list Z)) :=
  let expected := _kvquant_k3_packed_dim value_count in
  _ ← raise_if (last_dim <? expected)%nat ValueError;
  if (value_count =? 0)%nat then Ok (map (λ _, []) packed)
  else Ok (map (λ row, unpack_row 3 value_count (take expected row)) packed).

Definition unpack_int2_values (value_count last_dim : nat) (packed : list (list Z)) :
    result (list (list Z)) :=
  unpack_lowbit_values 2 value_count last_dim packed.

(** ** The bit-stream contract *)

(** Bit [p] of the little-endian stream of [bits]-bit codes. *)
Definition stream_bit (bits : nat) (codes : list Z) (p : nat) : bool :=
  Z.testbit (nth (p / bits) codes 0%Z) (Z.of_nat (p mod bits)).

(** The byte whose bit [k] is [f k]. *)
Definition byte_of (f : nat → bool) : Z :=
  (Z.b2z (f 0%nat) + 2 * Z.b2z (f 1%nat) + 4 * Z.b2z (f 2%nat) + 8 * Z.b2z (f 3%nat)
   + 16 * Z.b2z (f 4%nat) + 32 * Z.b2z (f 5%nat) + 64 * Z.b2z (f 6%nat) + 128 * Z.b2z (f 7%nat))%Z.

(** The [count] bytes of the stream. *)
Definition stream_row (bits count : nat) (codes : list Z) : list Z :=
  map (λ j, byte_of (λ k, stream_bit bits codes (8 * j + k))) (seq 0 count).

Definition code_ok (bits : nat) (c : Z) : Prop := (0 ≤ c < 2 ^ Z.of_nat bits)%Z.
Definition byte_ok (b : Z) : Prop := (0 ≤ b < 256)%Z.

Lemma byte_of_range f : byte_ok (byte_of f).
Proof.
  unfold byte_ok, byte_of.
  repeat match goal with |- context [Z.b2z ?b] => destruct b; simpl Z.b2z end; lia.
Qed.

Lemma byte_of_ext f g : (∀ k, (k < 8)%nat → f k = g k) → byte_of f = byte_of g.
Proof. intros H. unfold byte_of. by rewrite !H by lia. Qed.

(** Turning one clear bit into [g k0]. *)
Lemma byte_of_flip f g k0 :
  (k0 < 8)%nat → (∀ k, (k < 8)%nat → k ≠ k0 → g k = f k) → f k0 = false →
  byte_of g = (Z.shiftl (Z.b2z (g k0)) (Z.of_nat k0) + byte_of f)%Z.
Proof.
  intros Hk H Hf. rewrite Z.shiftl_mul_pow2 by lia. unfold byte_of.
  pose proof (H 0%nat ltac:(lia)); pose proof (H 1%nat ltac:(lia));
  pose proof (H 2%nat ltac:(lia)); pose proof (H 3%nat ltac:(lia));
  pose proof (H 4%nat ltac:(lia)); pose proof (H 5%nat ltac:(lia));
  pose proof (H 6%nat ltac:(lia)); pose proof (H 7%nat ltac:(lia)); clear H.
  do 8 (destruct k0 as [|k0];
    [repeat match goal with
       | Hx : ?a ≠ ?b → _ |- _ => first [specialize (Hx ltac:(discriminate)); rewrite Hx | clear Hx]
       end; rewrite Hf; simpl; lia|]). lia.
Qed.

Lemma byte_of_testbit f k :
  (k < 8)%nat → Z.testbit (byte_of f) (Z.of_nat k) = f k.
Proof.
  intros Hk. unfold byte_of.
  destruct (f 0%nat) eqn:E0, (f 1%nat) eqn:E1, (f 2%nat) eqn:E2, (f 3%nat) eqn:E3,
    (f 4%nat) eqn:E4, (f 5%nat) eqn:E5, (f 6%nat) eqn:E6, (f 7%nat) eqn:E7;
  do 8 (destruct k as [|k]; [symmetry; assumption|]); lia.
Qed.

Lemma byte_of_testbit_high f k : (8 ≤ k)%Z → Z.testbit (byte_of f) k = false.
Proof.
  intros Hk. pose proof (byte_of_range f) as [H0 H1].
  destruct (Z.eq_dec (byte_of f) 0%Z) as [->|Hn]; [apply Z.testbit_0_l|].
  apply Z.bits_above_log2; [lia|].
  apply Z.lt_le_trans with 8%Z; [|done]. apply Z.log2_lt_pow2; lia.
Qed.

Lemma byte_eq_byte_of b f :
  byte_ok b → (∀ k, (k < 8)%nat → Z.testbit b (Z.of_nat k) = f k) → b = byte_of f.
Proof.
  intros [H0 H1] H. apply Z.bits_inj'. intros n Hn.
  destruct (Z.lt_ge_cases n 8) as [Hlt|Hge].
  - rewrite <-(Z2Nat.id n) by lia. rewrite H by lia. rewrite byte_of_testbit by lia. done.
  - rewrite byte_of_testbit_high by lia.
    destruct (Z.eq_dec b 0%Z) as [->|Hb]; [apply Z.testbit_0_l|].
    apply Z.bits_above_log2; [lia|].
    apply Z.lt_le_trans with 8%Z; [|done]. apply Z.log2_lt_pow2; lia.
Qed.

(** ** The packing loop computes the stream *)

(** Stream positions already written after [b] full passes and [i] codes of pass
    [b]. *)
Definition written (bits n b i p : nat) : bool :=
  (p / bits <? n)%nat && ((p mod bits <? b)%nat || ((p mod bits =? b)%nat && (p / bits <? i)%nat)).

Definition partial_row (bits count : nat) (codes : list Z) (b i : nat) : list Z :=
  map (λ j, byte_of (λ k, written bits (length codes) b i (8 * j + k)
                          && stream_bit bits codes (8 * j + k))) (seq 0 count).

Lemma scatter_add_seq (f : nat → nat) (g : nat → Z) n acc :
  scatter_add acc (map f (seq 0 n)) (map g (seq 0 n))
  = fold_left (λ acc i, alter (Z.add (g i)) (f i) acc) (seq 0 n) acc.
Proof.
  unfold scatter_add. generalize 0%nat as k. revert acc.
  induction n as [|n IH]; intros acc k; simpl; [done|]. apply IH.
Qed.

Lemma contribution_bit c b : Z.land (Z.shiftr c (Z.of_nat b)) 1 = Z.b2z (Z.testbit c (Z.of_nat b)).
Proof.
  change 1%Z with (Z.ones 1). rewrite Z.land_ones by lia.
  rewrite Z.testbit_spec' by lia. by rewrite Z.shiftr_div_pow2 by lia.
Qed.

Lemma written_step bits n b i p :
  (b < bits)%nat → (i < n)%nat → p ≠ (i * bits + b)%nat →
  written bits n b (S i) p = written bits n b i p.
Proof.
  intros Hb Hi Hp. unfold written.
  pose proof (Nat.div_mod_eq p bits). pose proof (Nat.mod_upper_bound p bits ltac:(lia)).
  destruct (Nat.eqb_spec (p mod bits) b); simpl; [|done].
  replace (p / bits <? S i)%nat with (p / bits <? i)%nat; [done|].
  assert (p / bits ≠ i) by nia.
  destruct (Nat.ltb_spec (p / bits) i), (Nat.ltb_spec (p / bits) (S i)); lia.
Qed.

Lemma div_mod_at i bits b :
  (b < bits)%nat → ((i * bits + b) / bits = i ∧ (i * bits + b) mod bits = b)%nat.
Proof.
  intros Hb. split.
  - rewrite Nat.div_add_l by lia. rewrite Nat.div_small by lia. lia.
  - rewrite Nat.add_comm, Nat.Div0.mod_add. by apply Nat.mod_small.
Qed.

Lemma written_at bits n b i :
  (b < bits)%nat → (i < n)%nat →
  written bits n b i (i * bits + b) = false ∧ written bits n b (S i) (i * bits + b) = true.
Proof.
  intros Hb Hi. unfold written. destruct (div_mod_at i bits b Hb) as [-> ->].
  rewrite Nat.eqb_refl. split; simpl;
  destruct (Nat.ltb_spec i n), (Nat.ltb_spec b b), (Nat.ltb_spec i i), (Nat.ltb_spec i (S i));
  simpl; lia || done.
Qed.

Lemma partial_row_step bits count codes b i :
  (b < bits)%nat → (i < length codes)%nat →
  alter (Z.add (Z.shiftl (Z.land (Z.shiftr (nth i codes 0%Z) (Z.of_nat b)) 1)
                         (Z.of_nat (bit_offset bits b i))))
        ((i * bits + b) / 8)%nat (partial_row bits count codes b i)
  = partial_row bits count codes b (S i).
Proof.
  intros Hb Hi. set (p0 := (i * bits + b)%nat).
  pose proof (Nat.div_mod_eq p0 8) as Hp0. pose proof (Nat.mod_upper_bound p0 8 ltac:(lia)).
  destruct (written_at bits (length codes) b i Hb Hi) as [Hw0 Hw1]. fold p0 in Hw0, Hw1.
  assert (stream_bit bits codes p0 = Z.testbit (nth i codes 0%Z) (Z.of_nat b)) as Hs.
  { unfold stream_bit, p0. by destruct (div_mod_at i bits b Hb) as [-> ->]. }
  apply list_eq. intros j. unfold partial_row. rewrite list_lookup_alter.
  rewrite !list_lookup_fmap. case_decide as Heq; [rewrite Heq|];
  (destruct (decide (j < count)%nat) as [Hj|Hj];
    [rewrite lookup_seq_lt by lia; cbn [fmap option_fmap option_map Nat.add]; f_equal; symmetry
    |rewrite lookup_seq_ge by lia; done]).
  - rewrite (byte_of_flip
      (λ k, written bits (length codes) b i (8 * j + k) && stream_bit bits codes (8 * j + k))
      _ (p0 mod 8)); [|done| |].
    + cbv beta. rewrite <-Heq, <-Hp0. rewrite Hw1, Hs, contribution_bit. done.
    + intros k Hk Hne. rewrite written_step; [done|done|done|]. fold p0. subst j. lia.
    + cbv beta. rewrite <-Heq, <-Hp0. by rewrite Hw0.
  - apply byte_of_ext. intros k Hk. rewrite written_step; [done|done|done|].
    fold p0. intros E. apply Heq. symmetry. apply (Nat.div_unique _ 8 j k); lia.
Qed.

Lemma partial_row_pass bits count codes b m :
  (b < bits)%nat → (m ≤ length codes)%nat →
  fold_left (λ acc i, alter (Z.add (Z.shiftl (Z.land (Z.shiftr (nth i codes 0%Z) (Z.of_nat b)) 1)
                                             (Z.of_nat (bit_offset bits b i))))
                            ((i * bits + b) / 8)%nat acc)
            (seq 0 m) (partial_row bits count codes b 0)
  = partial_row bits count codes b m.
Proof.
  intros Hb. induction m as [|m IH]; intros Hm; [done|].
  rewrite seq_S, fold_left_app, IH by lia. simpl. apply partial_row_step; lia.
Qed.

Lemma partial_row_next bits count codes b :
  (b < bits)%nat →
  partial_row bits count codes b (length codes) = partial_row bits count codes (S b) 0.
Proof.
  intros Hb. unfold partial_row. apply map_ext. intros j. apply byte_of_ext. intros k _.
  f_equal. unfold written. set (p := (8 * j + k)%nat).
  destruct (Nat.ltb_spec (p / bits) (length codes)); simpl; [|done].
  replace (p / bits <? 0)%nat with false by (symmetry; apply Nat.ltb_ge; lia).
  destruct (Nat.ltb_spec (p mod bits) b), (Nat.eqb_spec (p mod bits) b),
    (Nat.ltb_spec (p mod bits) (S b)), (Nat.eqb_spec (p mod bits) (S b)); simpl; lia || done.
Qed.

Lemma partial_row_full bits count codes :
  (0 < bits)%nat → partial_row bits count codes bits 0 = stream_row bits count codes.
Proof.
  intros Hb. unfold partial_row, stream_row. apply map_ext. intros j. apply byte_of_ext.
  intros k _. unfold written. set (p := (8 * j + k)%nat).
  pose proof (Nat.mod_upper_bound p bits ltac:(lia)).
  replace (p mod bits <? bits)%nat with true by (symmetry; by apply Nat.ltb_lt).
  destruct (Nat.ltb_spec (p / bits) (length codes)); simpl; [done|].
  unfold stream_bit. rewrite nth_overflow by lia. by rewrite Z.testbit_0_l.
Qed.

Lemma partial_row_zero bits count codes :
  partial_row bits count codes 0 0 = replicate count 0%Z.
Proof.
  apply list_eq. intros j. unfold partial_row. rewrite list_lookup_fmap.
  destruct (decide (j < count)%nat) as [Hj|Hj].
  - rewrite lookup_seq_lt, lookup_replicate_2 by lia. simpl. f_equal.
    transitivity (byte_of (λ _, false)); [|done]. apply byte_of_ext. intros k _.
    unfold written. destruct (Nat.eqb_spec ((8 * j + k) mod bits) 0);
    destruct (Nat.ltb_spec ((8 * j + k) mod bits) 0), (Nat.ltb_spec ((8 * j + k) / bits) 0);
    simpl; rewrite ?andb_false_r; lia || done.
  - rewrite lookup_seq_ge by lia. symmetry. apply lookup_replicate_None. lia.
Qed.

(** The canonical packing loop writes the little-endian bit stream. *)
Lemma pack_row_stream bits count codes :
  (0 < bits)%nat → pack_row bits count codes = stream_row bits count codes.
Proof.
  intros Hb. unfold pack_row.
  assert (∀ b, (b ≤ bits)%nat →
    fold_left (λ packed bit, scatter_add packed (byte_offsets bits bit (length codes))
                                         (bit_contributions bits bit codes))
              (seq 0 b) (replicate count 0%Z) = partial_row bits count codes b 0) as H.
  { induction b as [|b IH]; intros Hle; [by rewrite partial_row_zero|].
    rewrite seq_S, fold_left_app, IH by lia. simpl.
    unfold byte_offsets, bit_contributions. rewrite scatter_add_seq.
    rewrite partial_row_pass by lia. by apply partial_row_next. }
  rewrite H by lia. rewrite partial_row_full by done. unfold stream_row. rewrite map_map.
  apply map_ext. intros j. apply Z.mod_small, byte_of_range.
Qed.

(** ** Unpacking reads the stream *)

Lemma b2z_testbit x n : Z.testbit (Z.b2z x) n = x && (n =? 0)%Z.
Proof. destruct x, n as [|p|p]; try destruct p; done. Qed.

Lemma unpack_value_testbit bits bytes i m b :
  Z.testbit
    (fold_left (λ v bit,
        Z.lor v (Z.shiftl
                   (Z.land (Z.shiftr (nth ((i * bits + bit) / 8) bytes 0%Z)
                                     (Z.of_nat (bit_offset bits bit i))) 1)
                   (Z.of_nat bit)))
      (seq 0 m) 0%Z) (Z.of_nat b)
  = (b <? m)%nat && Z.testbit (nth ((i * bits + b) / 8) bytes 0%Z)
                              (Z.of_nat (bit_offset bits b i)).
Proof.
  induction m as [|m IH]; [by rewrite Z.testbit_0_l|].
  rewrite seq_S, fold_left_app. cbn [fold_left Nat.add].
  rewrite Z.lor_spec, IH, contribution_bit.
  rewrite Z.shiftl_spec by lia.
  destruct (Nat.ltb_spec b m), (Nat.ltb_spec b (S m)); try lia; simpl.
  - rewrite b2z_testbit. destruct (Z.eqb_spec (Z.of_nat b - Z.of_nat m) 0); [lia|].
    by rewrite andb_false_r, orb_false_r.
  - assert (b = m) as -> by lia. rewrite b2z_testbit, Z.sub_diag. by rewrite andb_true_r.
  - rewrite b2z_testbit. destruct (Z.eqb_spec (Z.of_nat b - Z.of_nat m) 0); [lia|].
    by rewrite andb_false_r.
Qed.

Lemma stream_row_length bits count codes : length (stream_row bits count codes) = count.
Proof. unfold stream_row. by rewrite length_map, length_seq. Qed.

Lemma stream_row_byte_ok bits count codes : Forall byte_ok (stream_row bits count codes).
Proof.
  unfold stream_row. rewrite Forall_map. apply Forall_forall. intros j _. apply byte_of_range.
Qed.

Lemma stream_row_testbit bits count codes p :
  (p / 8 < count)%nat →
  Z.testbit (nth (p / 8) (stream_row bits count codes) 0%Z) (Z.of_nat (p mod 8))
  = stream_bit bits codes p.
Proof.
  intros Hp. unfold stream_row. rewrite nth_tabulate by done.
  pose proof (Nat.mod_upper_bound p 8 ltac:(lia)).
  rewrite byte_of_testbit by done. f_equal. symmetry. apply Nat.div_mod_eq.
Qed.

Lemma code_ok_testbit_high bits c b :
  code_ok bits c → (bits ≤ b)%nat → Z.testbit c (Z.of_nat b) = false.
Proof.
  intros [H0 H1] Hb. destruct (Z.eq_dec c 0%Z) as [->|Hc]; [apply Z.testbit_0_l|].
  apply Z.bits_above_log2; [lia|]. apply Z.lt_le_trans with (Z.of_nat bits); [|lia].
  apply Z.log2_lt_pow2; lia.
Qed.

Lemma Z_testbit_ext a b : (∀ n : nat, Z.testbit a (Z.of_nat n) = Z.testbit b (Z.of_nat n)) → a = b.
Proof. intros H. apply Z.bits_inj'. intros n Hn. rewrite <-(Z2Nat.id n) by lia. apply H. Qed.

Lemma unpack_value_stream bits count codes i :
  (0 < bits)%nat → (((i + 1) * bits + 7) / 8 ≤ count)%nat →
  code_ok bits (nth i codes 0%Z) →
  unpack_value bits (stream_row bits count codes) i = nth i codes 0%Z.
Proof.
  intros Hb Hc Hok. apply Z_testbit_ext. intros b. unfold unpack_value.
  rewrite unpack_value_testbit. destruct (Nat.ltb_spec b bits) as [Hlt|Hge]; cbn [andb].
  - unfold bit_offset. rewrite stream_row_testbit.
    + unfold stream_bit. by destruct (div_mod_at i bits b Hlt) as [-> ->].
    + eapply Nat.lt_le_trans; [|exact Hc].
      apply Nat.Div0.div_lt_upper_bound.
      pose proof (Nat.div_mod_eq ((i + 1) * bits + 7) 8).
      pose proof (Nat.mod_upper_bound ((i + 1) * bits + 7) 8 ltac:(lia)). nia.
  - by rewrite (code_ok_testbit_high bits).
Qed.

(** Unpacking the stream of in-range codes gives the codes back. *)
Lemma unpack_row_stream bits codes :
  (0 < bits ≤ 8)%nat → Forall (code_ok bits) codes →
  unpack_row bits (length codes)
    (take ((length codes * bits + 7) / 8)
          (stream_row bits ((length codes * bits + 7) / 8) codes)) = codes.
Proof.
  intros Hb Hok. rewrite take_ge by (by rewrite stream_row_length).
  unfold unpack_row. rewrite map_map.
  transitivity (map (λ i, nth i codes 0%Z) (seq 0 (length codes))); [|apply map_nth_seq].
  apply map_ext_in. intros i [_ Hi]%in_seq.
  assert (code_ok bits (nth i codes 0%Z)) as Hc by (by apply Forall_nth_In).
  rewrite unpack_value_stream; [|lia| |done].
  - destruct Hc as [H0 H1]. apply Z.mod_small. split; [done|].
    eapply Z.lt_le_trans; [exact H1|]. change 256%Z with (2 ^ 8)%Z.
    apply Z.pow_le_mono_r; lia.
  - apply Nat.Div0.div_le_mono. nia.
Qed.

(** *** The checks of the tensor-level functions *)

Lemma out_of_range_false bits c : code_ok bits c ↔ out_of_range bits c = false.
Proof. unfold code_ok, out_of_range. rewrite orb_false_iff, !Z.ltb_ge. lia. Qed.

Lemma existsb_out_of_range bits values :
  Forall (Forall (code_ok bits)) values →
  existsb (out_of_range bits) (concat values) = false.
Proof.
  intros H. apply not_true_is_false. intros E. apply existsb_exists in E as (c & Hin & Hc).
  apply in_concat in Hin as (row & Hrow & Hin').
  rewrite List.Forall_forall in H. specialize (H row Hrow).
  rewrite List.Forall_forall in H. specialize (H c Hin').
  apply out_of_range_false in H. congruence.
Qed.

(** Rows of [n] in-range codes. *)
Definition code_rows (bits n : nat) (values : list (list Z)) : Prop :=
  Forall (λ r, length r = n ∧ Forall (code_ok bits) r) values.

Lemma code_rows_codes bits n values :
  code_rows bits n values → Forall (Forall (code_ok bits)) values.
Proof. intros H. eapply Forall_impl; [|exact H]. by intros r []. Qed.

Lemma code_rows_empty bits n values (f : list Z → list Z) :
  code_rows bits n values → length (concat values) = 0%nat → f [] = [] →
  map (λ _, []) values = map f values.
Proof.
  intros H Hl Hf. apply map_ext_in. intros r Hr.
  assert (r = []) as ->; [|done].
  apply nil_length_inv. apply in_split in Hr as (l1 & l2 & ->).
  rewrite concat_app in Hl. simpl in Hl. rewrite !length_app in Hl. lia.
Qed.

(** On in-range rows, [pack_int3_values] is the stream packer at width 3. *)
Lemma pack_int3_values_ok n values :
  code_rows 3 n values →
  pack_int3_values n values = Ok (map (stream_row 3 (_kvquant_k3_packed_dim n)) values).
Proof.
  intros H. unfold pack_int3_values. destruct (Nat.eqb_spec (length (concat values)) 0) as [E|E].
  - destruct (decide (n = 0)%nat) as [->|Hn].
    + by apply (f_equal Ok), (code_rows_empty 3 0).
    + destruct H as [|r values [Hr _] _]; [done|]. simpl in E. rewrite length_app in E. lia.
  - rewrite existsb_out_of_range by (by eapply code_rows_codes). simpl.
    rewrite ?result_bind_ok. f_equal. apply map_ext. intros r. apply pack_row_stream. lia.
Qed.

Lemma valid_bits_range bits : valid_bits bits = true → (0 < bits ≤ 8)%nat.
Proof.
  unfold valid_bits. intros H. repeat (apply orb_true_iff in H as [H|H]);
  apply Nat.eqb_eq in H; lia.
Qed.

Lemma pack_lowbit_values_ok bits n values :
  valid_bits bits = true → bits ≠ 8%nat → code_rows bits n values →
  pack_lowbit_values bits n values
  = Ok (map (stream_row bits ((n * bits + 7) / 8)) values).
Proof.
  intros Hv H8 H. pose proof (valid_bits_range bits Hv).
  unfold pack_lowbit_values, _packed_dim. rewrite Hv. simpl. rewrite ?result_bind_ok.
  destruct (Nat.eqb_spec (length (concat values)) 0) as [E|E].
  - destruct (decide (n = 0)%nat) as [->|Hn].
    + by apply (f_equal Ok), (code_rows_empty bits 0).
    + destruct H as [|r values [Hr _] _]; [done|]. simpl in E. rewrite length_app in E. lia.
  - rewrite existsb_out_of_range by (by eapply code_rows_codes). simpl.
    rewrite ?result_bind_ok. destruct (Nat.eqb_spec bits 8); [done|].
    rewrite ?result_bind_ok. f_equal. apply map_ext. intros r. apply pack_row_stream. lia.
Qed.

(** ** Round trip *)

Lemma unpack_lowbit_values_stream bits n values :
  valid_bits bits = true → bits ≠ 8%nat → code_rows bits n values →
  unpack_lowbit_values bits n ((n * bits + 7) / 8)
    (map (stream_row bits ((n * bits + 7) / 8)) values) = Ok values.
Proof.
  intros Hv H8 H. pose proof (valid_bits_range bits Hv).
  unfold unpack_lowbit_values, _packed_dim. rewrite Hv. simpl.
  rewrite Nat.ltb_irrefl. simpl. destruct (Nat.eqb_spec n 0) as [->|Hn].
  - rewrite map_map. f_equal. rewrite <-(map_id values) at 2. apply map_ext_in.
    intros r Hr. unfold code_rows in H. rewrite List.Forall_forall in H.
    destruct (H r Hr) as [Hl _]. by apply nil_length_inv in Hl.
  - destruct (Nat.eqb_spec bits 8); [done|]. rewrite map_map. f_equal.
    rewrite <-(map_id values) at 2. apply map_ext_in. intros r Hr.
    unfold code_rows in H. rewrite List.Forall_forall in H.
    destruct (H r Hr) as [<- Hok]. by apply unpack_row_stream.
Qed.

Lemma unpack_int3_values_stream n values :
  code_rows 3 n values →
  unpack_int3_values n (_kvquant_k3_packed_dim n)
    (map (stream_row 3 (_kvquant_k3_packed_dim n)) values) = Ok values.
Proof.
  intros H. pose proof (unpack_lowbit_values_stream 3 n values eq_refl ltac:(done) H) as E.
  unfold unpack_lowbit_values in E. simpl in E. exact E.
Qed.

(** C36: for every supported width (1, 2, 3, 4, 8) and every tensor of in-range
    codes, [pack_lowbit_values] succeeds, each packed row has
    [ceil(n * bits / 8)] bytes in [0, 255], and [unpack_lowbit_values] of the
    packed tensor returns the codes. *)
Theorem pack_unpack_lowbit_values (bits n : nat) (values : list (list Z)) :
  valid_bits bits = true → code_rows bits n values →
  ∃ packed, pack_lowbit_values bits n values = Ok packed
    ∧ Forall (λ r, length r = ((n * bits + 7) / 8)%nat ∧ Forall byte_ok r) packed
    ∧ unpack_lowbit_values bits n ((n * bits + 7) / 8) packed = Ok values.
Proof.
  intros Hv H. destruct (decide (bits = 8)%nat) as [->|H8].
  - exists values. assert ((n * 8 + 7) / 8 = n)%nat as Hn.
    { rewrite Nat.div_add_l, (Nat.div_small 7 8) by lia. lia. }
    rewrite Hn. split; [|split; [exact H|]].
    + unfold pack_lowbit_values. simpl.
      destruct (Nat.eqb_spec (length (concat values)) 0) as [E|E].
      * apply (f_equal Ok). rewrite <-(map_id values) at 2. by apply (code_rows_empty 8 n).
      * by rewrite existsb_out_of_range by (by eapply code_rows_codes).
    + unfold unpack_lowbit_values, _packed_dim. simpl. rewrite Hn, Nat.ltb_irrefl. simpl.
      destruct (Nat.eqb_spec n 0) as [->|Hn0]; f_equal; rewrite <-(map_id values) at 2;
      apply map_ext_in; intros r Hr; unfold code_rows in H; rewrite List.Forall_forall in H;
      destruct (H r Hr) as [Hl _]; [by apply nil_length_inv in Hl|by apply take_ge; rewrite Hl].
  - eexists. split; [by apply pack_lowbit_values_ok|].
    split; [|by apply unpack_lowbit_values_stream].
    rewrite Forall_map. apply Forall_forall. intros r _.
    split; [apply stream_row_length|apply stream_row_byte_ok].
Qed.

(** C36 at width 3 on two rows of nine codes. *)
Lemma pack_unpack_lowbit_values_witness :
  ∃ packed, pack_lowbit_values 3 9 [[7;0;5;2;1;6;3;4;7]; [1;1;1;1;1;1;1;1;1]]%Z = Ok packed
    ∧ Forall (λ r, length r = ((9 * 3 + 7) / 8)%nat ∧ Forall byte_ok r) packed
    ∧ unpack_lowbit_values 3 9 ((9 * 3 + 7) / 8) packed
      = Ok [[7;0;5;2;1;6;3;4;7]; [1;1;1;1;1;1;1;1;1]]%Z.
Proof.
  apply (pack_unpack_lowbit_values 3 9); [reflexivity|].
  repeat constructor; unfold code_ok; simpl; lia.
Defined.

(** ** The other packers of the code *)

(** Shift left in [uint8] arithmetic. *)
Definition shl8 (x k : Z) : Z := (Z.shiftl x k mod 256)%Z.

(** [_rabit2_stage4d2_pack_int3_direct_exact] on eight codes. *)
Definition direct_int3_bytes (c0 c1 c2 c3 c4 c5 c6 c7 : Z) : list Z :=
  [ Z.lor (Z.lor c0 (shl8 c1 3)) (shl8 (Z.land c2 3) 6);
    Z.lor (Z.lor (Z.lor (Z.shiftr c2 2) (shl8 c3 1)) (shl8 c4 4)) (shl8 (Z.land c5 1) 7);
    Z.lor (Z.lor (Z.shiftr c5 1) (shl8 c6 2)) (shl8 c7 5) ]%Z.

Fixpoint direct_int3_row (groups : nat) (codes : list Z) : list Z :=
  match groups with
  | O => []
  | S groups' =>
      let c i := nth i codes 0%Z in
      direct_int3_bytes (c 0%nat) (c 1%nat) (c 2%nat) (c 3%nat)
                        (c 4%nat) (c 5%nat) (c 6%nat) (c 7%nat)
      ++ direct_int3_row groups' (drop 8 codes)
  end.

(** The fallback names [pack_int3_values], which [rabit_kv2.py] neither defines
    nor imports: the call raises [NameError]. *)
Definition _rabit2_stage4d2_pack_int3_direct_exact (value_count : nat)
    (codes : list (list Z)) : result (list (list Z)) :=
  if negb (value_count mod 8 =? 0)%nat then Err NameError
  else Ok (map (direct_int3_row (value_count / 8)) codes).

(** One byte of [_rabit2_stage4d3_4_pack_k3_kernel]: four masked code loads
    joined into a 12-bit word, then shifted. [_rabit2_k_pack_kernel] builds the
    same word from the codes it has just quantized. *)
Definition k3_kernel_byte (head_size : nat) (codes : list Z) (b : nat) : Z :=
  let bit_pos := (b * 8)%nat in
  let c0_idx := (bit_pos / 3)%nat in
  let shift := (bit_pos mod 3)%nat in
  let load j := if (c0_idx + j <? head_size)%nat then nth (c0_idx + j) codes 0%Z else 0%Z in
  let word := Z.lor (Z.lor (Z.lor (load 0%nat) (Z.shiftl (load 1%nat) 3))
                           (Z.shiftl (load 2%nat) 6)) (Z.shiftl (load 3%nat) 9) in
  Z.land (Z.shiftr word (Z.of_nat shift)) 255.

Definition k3_kernel_row (head_size packed_dim : nat) (codes : list Z) : list Z :=
  map (k3_kernel_byte head_size codes) (seq 0 packed_dim).

(** One byte of [_rabit2_stage4b2_pack_8x128], [_rabit2_v_pack_kernel] and
    [_rabit2_final_v2_age_kernel]: four 2-bit codes. *)
Definition v2_byte (c0 c1 c2 c3 : Z) : Z :=
  Z.lor (Z.lor (Z.lor c0 (shl8 c1 2)) (shl8 c2 4)) (shl8 c3 6).

Definition v2_pack_row (packed_dim : nat) (codes : list Z) : list Z :=
  map (λ b, v2_byte (nth (4 * b) codes 0%Z) (nth (4 * b + 1) codes 0%Z)
                    (nth (4 * b + 2) codes 0%Z) (nth (4 * b + 3) codes 0%Z))
      (seq 0 packed_dim).

(** *** Finite checks over in-range codes *)

Lemma forall_codes (bits : nat) (P : Z → bool) :
  forallb P (map Z.of_nat (seq 0 (2 ^ bits))) = true → ∀ c, code_ok bits c → P c = true.
Proof.
  intros H c [H0 H1]. rewrite forallb_forall in H. apply H, in_map_iff.
  exists (Z.to_nat c). split; [lia|]. apply in_seq. split; [lia|].
  apply Nat2Z.inj_lt. rewrite Nat2Z.inj_add, Nat2Z.inj_pow. change (Z.of_nat 2) with 2%Z. lia.
Qed.

Definition codes_of (bits : nat) : list Z := map Z.of_nat (seq 0 (2 ^ bits)).

(** A word of four [bits]-bit codes has the stream's bits. *)
Lemma k3_word_bits c0 c1 c2 c3 m :
  code_ok 3 c0 → code_ok 3 c1 → code_ok 3 c2 → code_ok 3 c3 → (m < 12)%nat →
  Z.testbit (Z.lor (Z.lor (Z.lor c0 (Z.shiftl c1 3)) (Z.shiftl c2 6)) (Z.shiftl c3 9)) (Z.of_nat m)
  = Z.testbit (nth (m / 3) [c0; c1; c2; c3] 0%Z) (Z.of_nat (m mod 3)).
Proof.
  intros H0 H1 H2 H3 Hm.
  pose proof (forall_codes 3 (λ c0, forallb (λ c1, forallb (λ c2, forallb (λ c3,
     forallb (λ m, Bool.eqb
       (Z.testbit (Z.lor (Z.lor (Z.lor c0 (Z.shiftl c1 3)) (Z.shiftl c2 6)) (Z.shiftl c3 9))
                  (Z.of_nat m))
       (Z.testbit (nth (m / 3) [c0; c1; c2; c3] 0%Z) (Z.of_nat (m mod 3)))) (seq 0 12))
     (codes_of 3)) (codes_of 3)) (codes_of 3)) ltac:(vm_compute; reflexivity) c0 H0) as E.
  apply (forall_codes 3 _) with (c := c1) in E; [|done].
  apply (forall_codes 3 _) with (c := c2) in E; [|done].
  apply (forall_codes 3 _) with (c := c3) in E; [|done].
  rewrite forallb_forall in E. apply Bool.eqb_prop, E, in_seq. lia.
Qed.

Lemma v2_byte_bits c0 c1 c2 c3 k :
  code_ok 2 c0 → code_ok 2 c1 → code_ok 2 c2 → code_ok 2 c3 → (k < 8)%nat →
  Z.testbit (v2_byte c0 c1 c2 c3) (Z.of_nat k)
  = Z.testbit (nth (k / 2) [c0; c1; c2; c3] 0%Z) (Z.of_nat (k mod 2)).
Proof.
  intros H0 H1 H2 H3 Hk.
  pose proof (forall_codes 2 (λ c0, forallb (λ c1, forallb (λ c2, forallb (λ c3,
     forallb (λ k, Bool.eqb
       (Z.testbit (v2_byte c0 c1 c2 c3) (Z.of_nat k))
       (Z.testbit (nth (k / 2) [c0; c1; c2; c3] 0%Z) (Z.of_nat (k mod 2)))) (seq 0 8))
     (codes_of 2)) (codes_of 2)) (codes_of 2)) ltac:(vm_compute; reflexivity) c0 H0) as E.
  apply (forall_codes 2 _) with (c := c1) in E; [|done].
  apply (forall_codes 2 _) with (c := c2) in E; [|done].
  apply (forall_codes 2 _) with (c := c3) in E; [|done].
  rewrite forallb_forall in E. apply Bool.eqb_prop, E, in_seq. lia.
Qed.

Lemma direct_byte_0 c0 c1 c2 :
  code_ok 3 c0 → code_ok 3 c1 → code_ok 3 c2 →
  Z.lor (Z.lor c0 (shl8 c1 3)) (shl8 (Z.land c2 3) 6)
  = byte_of (λ k, Z.testbit (nth (k / 3) [c0; c1; c2] 0%Z) (Z.of_nat (k mod 3))).
Proof.
  intros H0 H1 H2. apply Z.eqb_eq.
  pose proof (forall_codes 3 (λ c0, forallb (λ c1, forallb (λ c2,
    (Z.lor (Z.lor c0 (shl8 c1 3)) (shl8 (Z.land c2 3) 6)
     =? byte_of (λ k, Z.testbit (nth (k / 3) [c0; c1; c2] 0%Z) (Z.of_nat (k mod 3))))%Z)
    (codes_of 3)) (codes_of 3)) ltac:(vm_compute; reflexivity) c0 H0) as E.
  apply (forall_codes 3 _) with (c := c1) in E; [|done].
  by apply (forall_codes 3 _) with (c := c2) in E.
Qed.

Lemma direct_byte_1 c2 c3 c4 c5 :
  code_ok 3 c2 → code_ok 3 c3 → code_ok 3 c4 → code_ok 3 c5 →
  Z.lor (Z.lor (Z.lor (Z.shiftr c2 2) (shl8 c3 1)) (shl8 c4 4)) (shl8 (Z.land c5 1) 7)
  = byte_of (λ k, Z.testbit (nth ((8 + k) / 3) [0; 0; c2; c3; c4; c5]%Z 0%Z)
                            (Z.of_nat ((8 + k) mod 3))).
Proof.
  intros H2 H3 H4 H5. apply Z.eqb_eq.
  pose proof (forall_codes 3 (λ c2, forallb (λ c3, forallb (λ c4, forallb (λ c5,
    (Z.lor (Z.lor (Z.lor (Z.shiftr c2 2) (shl8 c3 1)) (shl8 c4 4)) (shl8 (Z.land c5 1) 7)
     =? byte_of (λ k, Z.testbit (nth ((8 + k) / 3) [0; 0; c2; c3; c4; c5]%Z 0%Z)
                                (Z.of_nat ((8 + k) mod 3))))%Z)
    (codes_of 3)) (codes_of 3)) (codes_of 3)) ltac:(vm_compute; reflexivity) c2 H2) as E.
  apply (forall_codes 3 _) with (c := c3) in E; [|done].
  apply (forall_codes 3 _) with (c := c4) in E; [|done].
  by apply (forall_codes 3 _) with (c := c5) in E.
Qed.

Lemma direct_byte_2 c5 c6 c7 :
  code_ok 3 c5 → code_ok 3 c6 → code_ok 3 c7 →
  Z.lor (Z.lor (Z.shiftr c5 1) (shl8 c6 2)) (shl8 c7 5)
  = byte_of (λ k, Z.testbit (nth ((16 + k) / 3) [0; 0; 0; 0; 0; c5; c6; c7]%Z 0%Z)
                            (Z.of_nat ((16 + k) mod 3))).
Proof.
  intros H5 H6 H7. apply Z.eqb_eq.
  pose proof (forall_codes 3 (λ c5, forallb (λ c6, forallb (λ c7,
    (Z.lor (Z.lor (Z.shiftr c5 1) (shl8 c6 2)) (shl8 c7 5)
     =? byte_of (λ k, Z.testbit (nth ((16 + k) / 3) [0; 0; 0; 0; 0; c5; c6; c7]%Z 0%Z)
                                (Z.of_nat ((16 + k) mod 3))))%Z)
    (codes_of 3)) (codes_of 3)) ltac:(vm_compute; reflexivity) c5 H5) as E.
  apply (forall_codes 3 _) with (c := c6) in E; [|done].
  by apply (forall_codes 3 _) with (c := c7) in E.
Qed.

Lemma code_ok_0 bits : code_ok bits 0%Z.
Proof. split; [lia|]. apply Z.pow_pos_nonneg; lia. Qed.

Lemma code_ok_nth bits codes i : Forall (code_ok bits) codes → code_ok bits (nth i codes 0%Z).
Proof.
  intros H. destruct (decide (i < length codes)%nat).
  - by apply Forall_nth_In.
  - rewrite nth_overflow by lia. apply code_ok_0.
Qed.

Lemma stream_bit_drop codes n p :
  stream_bit 3 codes (n * 3 + p) = stream_bit 3 (drop n codes) p.
Proof.
  unfold stream_bit. rewrite Nat.div_add_l by lia.
  rewrite (Nat.add_comm (n * 3)), Nat.Div0.mod_add. f_equal.
  destruct (decide (n ≤ length codes)%nat).
  - rewrite <-(take_drop n codes) at 1. rewrite app_nth2; rewrite length_take; [|lia].
    f_equal. lia.
  - rewrite (nth_overflow codes) by lia. rewrite drop_ge by lia. by destruct (p / 3)%nat.
Qed.

(** Eight codes become three bytes of the stream. *)
Lemma direct_int3_bytes_stream codes :
  Forall (code_ok 3) codes →
  let c i := nth i codes 0%Z in
  direct_int3_bytes (c 0%nat) (c 1%nat) (c 2%nat) (c 3%nat)
                    (c 4%nat) (c 5%nat) (c 6%nat) (c 7%nat)
  = stream_row 3 3 codes.
Proof.
  intros H c. pose proof (code_ok_nth 3 codes) as Hc.
  unfold direct_int3_bytes, stream_row. cbn [seq map].
  rewrite direct_byte_0, direct_byte_1, direct_byte_2 by (by apply Hc).
  reflexivity.
Qed.

Lemma stream_row_app3 codes g :
  stream_row 3 (3 + 3 * g) codes = stream_row 3 3 codes ++ stream_row 3 (3 * g) (drop 8 codes).
Proof.
  unfold stream_row. rewrite seq_app, map_app. f_equal.
  replace (seq (0 + 3) (3 * g)) with (map (Nat.add 3) (seq 0 (3 * g)))
    by apply (fmap_add_seq 3 0).
  rewrite map_map. apply map_ext. intros j. apply byte_of_ext. intros k _.
  rewrite <-stream_bit_drop. f_equal. lia.
Qed.

Lemma direct_int3_row_stream g codes :
  Forall (code_ok 3) codes → direct_int3_row g codes = stream_row 3 (3 * g) codes.
Proof.
  revert codes. induction g as [|g IH]; intros codes H; [done|].
  cbn [direct_int3_row]. rewrite direct_int3_bytes_stream by done.
  rewrite IH by (by apply Forall_drop).
  replace (3 * S g)%nat with (3 + 3 * g)%nat by lia. by rewrite stream_row_app3.
Qed.

Lemma k3_kernel_byte_stream codes b :
  Forall (code_ok 3) codes →
  k3_kernel_byte (length codes) codes b = byte_of (λ k, stream_bit 3 codes (8 * b + k)).
Proof.
  intros H. unfold k3_kernel_byte. set (w0 := (b * 8 / 3)%nat). set (s := (b * 8 mod 3)%nat).
  pose proof (Nat.div_mod_eq (b * 8) 3) as Hd.
  pose proof (Nat.mod_upper_bound (b * 8) 3 ltac:(lia)) as Hs. fold w0 s in Hd, Hs.
  assert (∀ j, (if (w0 + j <? length codes)%nat then nth (w0 + j) codes 0%Z else 0%Z)
               = nth (w0 + j) codes 0%Z) as Hload.
  { intros j. destruct (Nat.ltb_spec (w0 + j) (length codes)); [done|].
    by rewrite nth_overflow by lia. }
  rewrite !Hload. apply byte_eq_byte_of.
  - change 255%Z with (Z.ones 8). rewrite Z.land_ones by lia. apply Z.mod_pos_bound. lia.
  - intros k Hk. rewrite Z.land_spec, Z.shiftr_spec by lia.
    change 255%Z with (Z.ones 8). rewrite Z.ones_spec_low by lia. rewrite andb_true_r.
    rewrite <-Nat2Z.inj_add. rewrite k3_word_bits by (apply code_ok_nth, H || lia).
    unfold stream_bit. replace (8 * b + k)%nat with (w0 * 3 + (k + s))%nat by lia.
    rewrite Nat.div_add_l by lia. rewrite (Nat.add_comm (w0 * 3)), Nat.Div0.mod_add.
    f_equal. pose proof (Nat.Div0.div_lt_upper_bound (k + s) 3 4 ltac:(lia)).
    destruct ((k + s) / 3)%nat as [|[|[|[|]]]]; simpl; f_equal; lia.
Qed.

Lemma v2_byte_range c0 c1 c2 c3 :
  code_ok 2 c0 → code_ok 2 c1 → code_ok 2 c2 → code_ok 2 c3 → byte_ok (v2_byte c0 c1 c2 c3).
Proof.
  intros H0 H1 H2 H3.
  pose proof (forall_codes 2 (λ c0, forallb (λ c1, forallb (λ c2, forallb (λ c3,
     (0 <=? v2_byte c0 c1 c2 c3)%Z && (v2_byte c0 c1 c2 c3 <? 256)%Z)
     (codes_of 2)) (codes_of 2)) (codes_of 2)) ltac:(vm_compute; reflexivity) c0 H0) as E.
  apply (forall_codes 2 _) with (c := c1) in E; [|done].
  apply (forall_codes 2 _) with (c := c2) in E; [|done].
  apply (forall_codes 2 _) with (c := c3) in E; [|done].
  apply andb_true_iff in E as [E1%Z.leb_le E2%Z.ltb_lt]. done.
Qed.

Lemma v2_pack_row_stream count codes :
  Forall (code_ok 2) codes → v2_pack_row count codes = stream_row 2 count codes.
Proof.
  intros H. unfold v2_pack_row, stream_row. apply map_ext. intros b.
  pose proof (λ i, code_ok_nth 2 codes i H) as Hc.
  apply byte_eq_byte_of; [by apply v2_byte_range|]. intros k Hk.
  rewrite v2_byte_bits by (apply Hc || lia). unfold stream_bit.
  replace (8 * b + k)%nat with ((4 * b) * 2 + k)%nat by lia.
  rewrite Nat.div_add_l by lia. rewrite (Nat.add_comm (4 * b * 2)), Nat.Div0.mod_add.
  f_equal. pose proof (Nat.Div0.div_lt_upper_bound k 2 4 ltac:(lia)).
  destruct (k / 2)%nat as [|[|[|[|]]]]; simpl; f_equal; lia.
Qed.

Lemma direct_pack_ok n rows :
  code_rows 3 n rows → n mod 8 = 0%nat →
  _rabit2_stage4d2_pack_int3_direct_exact n rows
  = Ok (map (stream_row 3 (_kvquant_k3_packed_dim n)) rows).
Proof.
  intros H Hn. unfold _rabit2_stage4d2_pack_int3_direct_exact. rewrite Hn. simpl. f_equal.
  apply map_ext_in. intros r Hr.
  assert (Forall (code_ok 3) r) as Hc by (unfold code_rows in H; rewrite List.Forall_forall in H; by apply H).
  rewrite direct_int3_row_stream by done. f_equal. unfold _kvquant_k3_packed_dim.
  pose proof (Nat.div_mod_eq n 8). rewrite Hn in *.
  apply (Nat.div_unique _ 8 _ 7); lia.
Qed.

(** On a tensor of 3-bit codes whose last dimension is a multiple of 8, the
    vectorized writer's direct packer returns exactly the bytes of
    [pack_int3_values]; so does the word-shifting Triton packing kernel, on every
    head size; and the four-codes-per-byte V2 packers return exactly the bytes of
    [pack_int2_values]. *)
Theorem packers_byte_identical (n : nat) (k_codes v_codes : list (list Z)) :
  code_rows 3 n k_codes → code_rows 2 (n * 4) v_codes →
  (n mod 8 = 0%nat →
     _rabit2_stage4d2_pack_int3_direct_exact n k_codes = pack_int3_values n k_codes)
  ∧ Ok (map (k3_kernel_row n (_kvquant_k3_packed_dim n)) k_codes) = pack_int3_values n k_codes
  ∧ Ok (map (v2_pack_row n) v_codes) = pack_int2_values (n * 4) v_codes.
Proof.
  intros Hk Hv.
  assert (∀ bits m rows, code_rows bits m rows → ∀ r, In r rows →
            length r = m ∧ Forall (code_ok bits) r) as Hin.
  { intros bits m rows H. by apply List.Forall_forall. }
  rewrite pack_int3_values_ok by done. split; [|split].
  - intros Hn. by apply direct_pack_ok.
  - f_equal. apply map_ext_in. intros r [Hl Hr]%(Hin 3%nat n k_codes Hk).
    unfold k3_kernel_row, stream_row. apply map_ext. intros b. rewrite <-Hl.
    by apply k3_kernel_byte_stream.
  - unfold pack_int2_values. rewrite pack_lowbit_values_ok by done. f_equal.
    apply map_ext_in. intros r [Hl Hr]%(Hin 2%nat _ v_codes Hv).
    rewrite v2_pack_row_stream by done. f_equal.
    apply (Nat.div_unique _ 8 _ 7); lia.
Qed.

(** Outside the multiples of 8 the direct packer never packs: its fallback
    refers to a name the module does not bind. *)
Lemma direct_packer_fallback_raises (n : nat) (codes : list (list Z)) :
  n mod 8 ≠ 0%nat → _rabit2_stage4d2_pack_int3_direct_exact n codes = Err NameError.
Proof.
  intros H. unfold _rabit2_stage4d2_pack_int3_direct_exact.
  by destruct (Nat.eqb_spec (n mod 8) 0).
Qed.
