(* ===== verification/Meta.v ===== *)
(** * META8g64: two-level metadata

    [encode_metadata_uint8_group_ref], [decode_metadata_uint8_group_ref] and
    [metadata_storage_bytes_ref] of [kvquant_k3.py]; the byte blob of
    [encode_metadata_blob_ref]/[decode_metadata_blob_ref] and the per-page blob
    writer of [rabit_kv2.py]; the round trip [meta8_roundtrip] of
    [canonical_rabit_quality.py].

    A primary metadata tensor is its row-major flattening together with its
    shape. *)

From Stdlib Require Import ZArith Lia.
From stdpp Require Import base tactics numbers list option.
From S2P Require Import Prelude Torch SpecFloatTorch BitPack.

Definition META_GROUP : nat := 64.

(** The dictionary [encode_metadata_uint8_group_ref] returns.  [m_codes] is the
    [groups x group_size] code tensor; [m_min] and [m_scale] are the BF16
    patterns of the [groups x 1] second-level tensors. *)
Record Meta8 := mkMeta8 {
  m_codes : list (list Z);
  m_min : list Z;
  m_scale : list Z;
  m_shape : list nat;
  m_pad : nat;
  m_group_size : nat
}.

(** Little-endian bytes of a BF16 pattern, and the pattern of two bytes
    ([view(torch.uint8)] and [view(torch.bfloat16)]). *)
Definition bf16_bytes (p : Z) : list Z := [Z.land p 255; Z.shiftr p 8].
Definition bf16_of_bytes (lo hi : Z) : Z := Z.lor lo (Z.shiftl hi 8).

Fixpoint bf16_parse (bytes : list Z) : list Z :=
  match bytes with
  | lo :: hi :: rest => bf16_of_bytes lo hi :: bf16_parse rest
  | _ => []
  end.

(** [_tensor_as_bytes] of a BF16 tensor. *)
Definition _tensor_as_bytes (patterns : list Z) : list Z := concat (map bf16_bytes patterns).

Section Meta.
Context `{TF : TorchFloat}.

(** [(-flat.numel()) % group_size] *)
Definition pad_to (group_size n : nat) : nat :=
  Z.to_nat ((- Z.of_nat n) mod Z.of_nat group_size).

(** Pad with copies of the last value to a multiple of [group_size]. *)
Definition meta_padded (group_size : nat) (flat : list f32) : list f32 :=
  flat ++ replicate (pad_to group_size (length flat)) (List.last flat f32_zero).

Definition meta_min_of (g : list f32) : f32 := amin g.
Definition meta_scale_of (g : list f32) : f32 :=
  affine_scale f32_abs_lt_1e12 255 (amin g) (amax g).
Definition meta_codes_of (g : list f32) : list Z :=
  map (affine_code 255 (meta_min_of g) (meta_scale_of g)) g.

Definition encode_metadata_uint8_group_ref (flat : list f32) (shape : list nat)
    (group_size : nat) : result Meta8 :=
  _ ← raise_if (group_size <? 8)%nat ValueError;
  if (length flat =? 0)%nat then Ok (mkMeta8 [] [] [] shape 0 group_size)
  else
    let grouped := rows_of group_size (meta_padded group_size flat) in
    Ok {| m_codes := map meta_codes_of grouped;
          m_min := map (λ g, bf16_of_f32 (meta_min_of g)) grouped;
          m_scale := map (λ g, bf16_of_f32 (meta_scale_of g)) grouped;
          m_shape := shape;
          m_pad := pad_to group_size (length flat);
          m_group_size := group_size |}.

(** [codes.float() * scale.float() + min.float()] for one group. *)
Definition meta_group_values (codes : list Z) (mn scale : Z) : list f32 :=
  map (λ c, affine_value c (f32_of_bf16 scale) (f32_of_bf16 mn)) codes.

Definition zip_with3 {A B C D} (f : A → B → C → D) (l : list A) (k : list B) (m : list C) :
    list D :=
  zip_with (λ g, g) (zip_with f l k) m.

Definition decode_metadata_uint8_group_ref (meta : Meta8) : list f32 :=
  if (length (concat (m_codes meta)) =? 0)%nat then []
  else
    let values := concat (zip_with3 meta_group_values (m_codes meta) (m_min meta) (m_scale meta)) in
    if (m_pad meta =? 0)%nat then values else take (length values - m_pad meta) values.

(** [metadata_storage_bytes_ref]: one byte per code, two per BF16. *)
Definition metadata_storage_bytes_ref (meta : Meta8) : nat :=
  length (concat (m_codes meta)) + length (m_min meta) * 2 + length (m_scale meta) * 2.

(** ** The physical blob *)

Definition encode_metadata_blob_ref (meta : Meta8) : list Z :=
  concat (m_codes meta) ++ _tensor_as_bytes (m_min meta) ++ _tensor_as_bytes (m_scale meta).

Definition shape_count (shape : list nat) : nat := fold_left Nat.mul shape 1%nat.

Definition decode_metadata_blob_ref (blob : list Z) (original_shape : list nat)
    (metadata_group_size : nat) : result Meta8 :=
  let value_count := shape_count original_shape in
  let groups := ((value_count + metadata_group_size - 1) / metadata_group_size)%nat in
  let padded_count := (groups * metadata_group_size)%nat in
  let expected := (padded_count + groups * 4)%nat in
  _ ← raise_if (negb (length blob =? expected)%nat) ValueError;
  let code_end := padded_count in
  let secondary_bytes := (groups * 2)%nat in
  let min_end := (code_end + secondary_bytes)%nat in
  Ok {| m_codes := view2 groups metadata_group_size (slice 0 code_end blob);
        m_min := bf16_parse (slice code_end min_end blob);
        m_scale := bf16_parse (drop min_end blob);
        m_shape := original_shape;
        m_pad := padded_count - value_count;
        m_group_size := metadata_group_size |}.

(** [_rabit2_stage4d2_meta_blob_pages_exact] on one page of flattened data. *)
Definition meta_blob_page (flat : list f32) : list Z :=
  let grouped := rows_of META_GROUP (meta_padded META_GROUP flat) in
  concat (map meta_codes_of grouped)
  ++ concat (map (λ g, bf16_bytes (bf16_of_f32 (meta_min_of g))) grouped)
  ++ concat (map (λ g, bf16_bytes (bf16_of_f32 (meta_scale_of g))) grouped).

Definition _rabit2_stage4d2_meta_blob_pages_exact (data : list (list f32)) : list (list Z) :=
  map meta_blob_page data.

(** ** The composite decoded value

    What a reader sees of a primary value after one encode/decode round trip. *)

Definition meta_group_roundtrip (g : list f32) : list f32 :=
  meta_group_values (meta_codes_of g) (bf16_of_f32 (meta_min_of g)) (bf16_of_f32 (meta_scale_of g)).

(** [meta8_roundtrip(primary)["decoded"]] of the canonical evaluator. *)
Definition meta8_roundtrip (flat : list f32) : list f32 :=
  let pad := pad_to META_GROUP (length flat) in
  let g := rows_of META_GROUP (meta_padded META_GROUP flat) in
  let dec := concat (map meta_group_roundtrip g) in
  if (pad =? 0)%nat then dec else take (length dec - pad) dec.

(** ** Padding *)

Lemma pad_to_spec gs n : (0 < gs)%nat → ((n + pad_to gs n) mod gs = 0 ∧ pad_to gs n < gs)%nat.
Proof.
  intros Hg. unfold pad_to.
  pose proof (Z.mod_pos_bound (- Z.of_nat n) (Z.of_nat gs) ltac:(lia)) as Hb.
  pose proof (Z.div_mod (- Z.of_nat n) (Z.of_nat gs) ltac:(lia)) as Hd.
  split; [|lia]. apply Nat2Z.inj. rewrite Nat2Z.inj_mod, Nat2Z.inj_add, Z2Nat.id by lia.
  replace (Z.of_nat n + - Z.of_nat n mod Z.of_nat gs)%Z
    with ((- (- Z.of_nat n / Z.of_nat gs)) * Z.of_nat gs)%Z by lia.
  apply Z.mod_mul. lia.
Qed.

Lemma pad_to_unique gs n p :
  (0 < gs)%nat → (p < gs)%nat → ((n + p) mod gs = 0)%nat → pad_to gs n = p.
Proof.
  intros Hg Hp Hm. destruct (pad_to_spec gs n Hg) as [Hs Hlt].
  apply Nat.Lcm0.mod_divide in Hm as [q Hq]. apply Nat.Lcm0.mod_divide in Hs as [r Hr].
  assert (q = r) as -> by nia. lia.
Qed.

Lemma pad_to_add gs n m : (0 < gs)%nat → (gs | n)%nat → pad_to gs (n + m) = pad_to gs m.
Proof.
  intros Hg [k ->]. destruct (pad_to_spec gs m Hg). apply pad_to_unique; [done|done|].
  replace (k * gs + m + pad_to gs m)%nat with (m + pad_to gs m + k * gs)%nat by lia.
  by rewrite Nat.Div0.mod_add.
Qed.

Lemma pad_to_multiple gs n : (0 < gs)%nat → (gs | n)%nat → pad_to gs n = 0%nat.
Proof.
  intros Hg [k ->]. apply pad_to_unique; [done|done|].
  rewrite Nat.add_0_r. apply Nat.Div0.mod_mul.
Qed.

Lemma meta_padded_length gs flat :
  length (meta_padded gs flat) = (length flat + pad_to gs (length flat))%nat.
Proof. unfold meta_padded. by rewrite length_app, length_replicate. Qed.

Lemma meta_padded_divide gs flat : (0 < gs)%nat → (gs | length (meta_padded gs flat))%nat.
Proof.
  intros Hg. rewrite meta_padded_length.
  apply Nat.Lcm0.mod_divide, pad_to_spec, Hg.
Qed.

Lemma meta_padded_app gs a b :
  (0 < gs)%nat → (gs | length a)%nat → meta_padded gs (a ++ b) = a ++ meta_padded gs b.
Proof.
  intros Hg Ha. unfold meta_padded. rewrite <-app_assoc, length_app. f_equal.
  destruct b as [|x b].
  - rewrite app_nil_r, Nat.add_0_r. by rewrite !pad_to_multiple by (done || by exists 0%nat).
  - rewrite pad_to_add by done. by rewrite last_app_cons.
Qed.

Lemma meta_padded_multiple gs a : (0 < gs)%nat → (gs | length a)%nat → meta_padded gs a = a.
Proof.
  intros Hg Ha. unfold meta_padded. rewrite pad_to_multiple by done. apply app_nil_r.
Qed.

(** Every group of the padded tensor has exactly [gs] values. *)
Lemma meta_rows_uniform gs flat :
  (0 < gs)%nat → Forall (λ g, length g = gs) (rows_of gs (meta_padded gs flat)).
Proof.
  intros Hg. unfold rows_of. apply view2_Forall_length.
  rewrite Nat.mul_comm. apply Nat.Div0.mul_div_le.
Qed.

Lemma meta_rows_length gs flat :
  (0 < gs)%nat → (length (rows_of gs (meta_padded gs flat)) * gs
                  = length flat + pad_to gs (length flat))%nat.
Proof.
  intros Hg. unfold rows_of. rewrite view2_length.
  destruct (meta_padded_divide gs flat Hg) as [k Hk]. rewrite Hk, Nat.div_mul by lia.
  by rewrite <-Hk, meta_padded_length.
Qed.

(** ** Decoding what was encoded *)

Lemma meta_codes_length g : length (meta_codes_of g) = length g.
Proof. unfold meta_codes_of. apply length_map. Qed.

Lemma meta_codes_uniform gs rows :
  Forall (λ g, length g = gs) rows → Forall (λ c, length c = gs) (map meta_codes_of rows).
Proof.
  intros H. rewrite Forall_map. eapply Forall_impl; [|exact H].
  intros g Hg. by rewrite meta_codes_length.
Qed.

Lemma meta_group_roundtrip_length g : length (meta_group_roundtrip g) = length g.
Proof.
  unfold meta_group_roundtrip, meta_group_values. by rewrite length_map, meta_codes_length.
Qed.

Lemma concat_roundtrip_length rows :
  length (concat (map meta_group_roundtrip rows)) = length (concat rows).
Proof.
  induction rows as [|g rows IH]; simpl; [done|].
  by rewrite !length_app, IH, meta_group_roundtrip_length.
Qed.

Lemma zip_with3_map {X} (f : X → list Z) (g h : X → Z) (l : list X) :
  zip_with3 meta_group_values (map f l) (map g l) (map h l)
  = map (λ x, meta_group_values (f x) (g x) (h x)) l.
Proof. unfold zip_with3. induction l as [|x l IH]; simpl; [done|]. by rewrite IH. Qed.

Lemma encode_metadata_ok flat shape gs :
  (8 ≤ gs)%nat → (0 < length flat)%nat →
  encode_metadata_uint8_group_ref flat shape gs
  = Ok (let grouped := rows_of gs (meta_padded gs flat) in
        mkMeta8 (map meta_codes_of grouped)
                (map (λ g, bf16_of_f32 (meta_min_of g)) grouped)
                (map (λ g, bf16_of_f32 (meta_scale_of g)) grouped)
                shape (pad_to gs (length flat)) gs).
Proof.
  intros Hg Hl. unfold encode_metadata_uint8_group_ref.
  destruct (Nat.ltb_spec gs 8); [lia|]. simpl.
  destruct (Nat.eqb_spec (length flat) 0); [lia|done].
Qed.

(** Decoding the encoded metadata is [meta8_roundtrip]. *)
Lemma decode_encode_metadata flat shape :
  ∃ m, encode_metadata_uint8_group_ref flat shape META_GROUP = Ok m
       ∧ decode_metadata_uint8_group_ref m = meta8_roundtrip flat.
Proof.
  destruct (decide (length flat = 0)%nat) as [E|E].
  - apply nil_length_inv in E as ->. eexists. split; done.
  - eexists. split; [apply encode_metadata_ok; unfold META_GROUP; lia|].
    unfold decode_metadata_uint8_group_ref, meta8_roundtrip. cbn [m_codes m_min m_scale m_pad].
    rewrite zip_with3_map. erewrite length_concat_uniform;
      [|apply meta_codes_uniform, meta_rows_uniform; unfold META_GROUP; lia].
    rewrite length_map, meta_rows_length by (unfold META_GROUP; lia).
    destruct (Nat.eqb_spec (length flat + pad_to META_GROUP (length flat)) 0); [lia|done].
Qed.

Lemma meta8_roundtrip_length flat : length (meta8_roundtrip flat) = length flat.
Proof.
  unfold meta8_roundtrip. set (rows := rows_of _ _).
  assert (length (concat (map meta_group_roundtrip rows))
          = length flat + pad_to META_GROUP (length flat))%nat as H.
  { rewrite concat_roundtrip_length.
    erewrite length_concat_uniform by (apply meta_rows_uniform; unfold META_GROUP; lia).
    apply meta_rows_length. unfold META_GROUP; lia. }
  destruct (Nat.eqb_spec (pad_to META_GROUP (length flat)) 0); [lia|].
  rewrite length_take. lia.
Qed.

(** Metadata groups never cross a boundary at a multiple of 64: the round trip
    of a concatenation is the concatenation of the round trips. *)
Lemma meta8_roundtrip_app a b :
  (META_GROUP | length a)%nat →
  meta8_roundtrip (a ++ b) = meta8_roundtrip a ++ meta8_roundtrip b.
Proof.
  intros Ha. assert (0 < META_GROUP)%nat as Hg by (unfold META_GROUP; lia).
  unfold meta8_roundtrip. rewrite meta_padded_app, rows_of_app by done.
  rewrite length_app, pad_to_add, (pad_to_multiple _ (length a)) by done.
  rewrite (meta_padded_multiple _ a) by done. rewrite map_app, concat_app. cbn [Nat.eqb].
  set (A := concat (map _ (rows_of META_GROUP a))). set (B := concat (map _ (rows_of _ _))).
  assert (pad_to META_GROUP (length b) ≤ length B)%nat.
  { unfold B. rewrite concat_roundtrip_length.
    erewrite length_concat_uniform by (by apply meta_rows_uniform).
    rewrite meta_rows_length by done. lia. }
  destruct (Nat.eqb_spec (pad_to META_GROUP (length b)) 0); [done|].
  rewrite length_app, take_app_ge by lia. do 2 f_equal. lia.
Qed.

Lemma meta8_roundtrip_concat (ls : list (list f32)) :
  Forall (λ l, (META_GROUP | length l)%nat) ls →
  meta8_roundtrip (concat ls) = concat (map meta8_roundtrip ls).
Proof.
  induction 1 as [|l ls Hl _ IH]; [done|]. simpl. by rewrite meta8_roundtrip_app, IH.
Qed.

(** ** Bytes *)

Lemma bf16_of_bytes_bytes p :
  (0 ≤ p < 65536)%Z → bf16_of_bytes (Z.land p 255) (Z.shiftr p 8) = p.
Proof.
  intros Hp. unfold bf16_of_bytes. rewrite <-(Z.lor_ldiff_and p 255) at 3.
  rewrite Z.lor_comm. f_equal. change 255%Z with (Z.ones 8).
  by rewrite Z.ldiff_ones_r by lia.
Qed.

Lemma bf16_bytes_ok p : (0 ≤ p < 65536)%Z → Forall byte_ok (bf16_bytes p).
Proof.
  intros Hp. unfold bf16_bytes, byte_ok. change 255%Z with (Z.ones 8).
  rewrite Z.land_ones, Z.shiftr_div_pow2 by lia. repeat constructor.
  - apply Z.mod_pos_bound; lia.
  - apply Z.mod_pos_bound; lia.
  - apply Z.div_pos; lia.
  - apply Z.div_lt_upper_bound; lia.
Qed.

Lemma bf16_parse_bytes l :
  Forall (λ p, (0 ≤ p < 65536)%Z) l → bf16_parse (_tensor_as_bytes l) = l.
Proof.
  unfold _tensor_as_bytes. induction 1 as [|p l Hp _ IH]; [done|].
  cbn [map concat bf16_bytes app bf16_parse]. by rewrite bf16_of_bytes_bytes, IH.
Qed.

Lemma tensor_as_bytes_length l : length (_tensor_as_bytes l) = (length l * 2)%nat.
Proof. unfold _tensor_as_bytes. induction l as [|p l IH]; simpl; lia. Qed.

(** A metadata dictionary as [encode_metadata_uint8_group_ref] builds it for a
    tensor of the given shape. *)
Definition meta_wf (m : Meta8) (groups : nat) : Prop :=
  (0 < m_group_size m)%nat
  ∧ length (m_codes m) = groups
  ∧ Forall (λ c, length c = m_group_size m) (m_codes m)
  ∧ Forall (λ p, (0 ≤ p < 65536)%Z) (m_min m) ∧ length (m_min m) = groups
  ∧ Forall (λ p, (0 ≤ p < 65536)%Z) (m_scale m) ∧ length (m_scale m) = groups
  ∧ (shape_count (m_shape m) + m_pad m = groups * m_group_size m)%nat
  ∧ (m_pad m < m_group_size m)%nat.

Lemma blob_length m groups :
  meta_wf m groups →
  length (encode_metadata_blob_ref m) = (groups * m_group_size m + groups * 4)%nat.
Proof.
  intros (_ & Hc & Hu & _ & Hm & _ & Hs & _). unfold encode_metadata_blob_ref.
  rewrite !length_app, !tensor_as_bytes_length, Hm, Hs.
  erewrite length_concat_uniform by exact Hu. rewrite Hc. lia.
Qed.

Lemma decode_encode_blob m groups :
  meta_wf m groups →
  decode_metadata_blob_ref (encode_metadata_blob_ref m) (m_shape m) (m_group_size m) = Ok m.
Proof.
  intros Hwf. pose proof (blob_length m groups Hwf) as Hlen.
  destruct Hwf as (Hg & Hc & Hu & Hmr & Hml & Hsr & Hsl & Hn & Hp).
  assert ((shape_count (m_shape m) + m_group_size m - 1) / m_group_size m = groups)%nat as Hgr.
  { symmetry. apply (Nat.div_unique _ _ _ (m_group_size m - 1 - m_pad m)); nia. }
  unfold decode_metadata_blob_ref. rewrite Hgr, Hlen, Nat.eqb_refl. simpl.
  assert (length (concat (m_codes m)) = (groups * m_group_size m)%nat) as Hcl.
  { erewrite length_concat_uniform by exact Hu. by rewrite Hc. }
  unfold encode_metadata_blob_ref. rewrite slice_0, take_app_length' by done.
  rewrite view2_concat by done. unfold slice. rewrite drop_app_length' by done.
  rewrite take_app_length' by (rewrite tensor_as_bytes_length; lia).
  rewrite bf16_parse_bytes by done.
  rewrite app_assoc, drop_app_length'
    by (rewrite length_app, tensor_as_bytes_length; lia).
  rewrite bf16_parse_bytes by done.
  replace (groups * m_group_size m - shape_count (m_shape m))%nat with (m_pad m) by lia.
  by destruct m.
Qed.

Lemma encode_metadata_wf `{!TorchFloatLaws TF} flat shape gs m :
  encode_metadata_uint8_group_ref flat shape gs = Ok m → shape_count shape = length flat →
  m_shape m = shape ∧ m_group_size m = gs
  ∧ meta_wf m ((length flat + pad_to gs (length flat)) / gs)
  ∧ Forall (Forall byte_ok) (m_codes m).
Proof.
  intros H Hs. unfold encode_metadata_uint8_group_ref in H.
  destruct (Nat.ltb_spec gs 8) as [|Hg]; [discriminate H|]. simpl in H.
  destruct (Nat.eqb_spec (length flat) 0) as [E|E]; injection H as <-.
  - rewrite E, pad_to_multiple by (lia || by exists 0%nat). rewrite Nat.Div0.div_0_l.
    unfold meta_wf. cbn [m_codes m_min m_scale m_shape m_pad m_group_size]. rewrite Hs, E.
    repeat split; try constructor; simpl; lia.
  - cbn [m_shape m_group_size m_codes]. set (rows := rows_of gs (meta_padded gs flat)).
    pose proof (meta_rows_length gs flat ltac:(lia)) as Hr. fold rows in Hr.
    destruct (pad_to_spec gs (length flat) ltac:(lia)) as [_ Hp].
    rewrite <-Hr, Nat.div_mul by lia. split; [done|]. split; [done|]. split.
    + unfold meta_wf. cbn [m_codes m_min m_scale m_shape m_pad m_group_size].
      rewrite !length_map, Hs. repeat split; try lia.
      * apply meta_codes_uniform, meta_rows_uniform. lia.
      * rewrite Forall_map. apply Forall_forall. intros g _. apply bf16_of_f32_range.
      * rewrite Forall_map. apply Forall_forall. intros g _. apply bf16_of_f32_range.
    + rewrite Forall_map. apply Forall_forall. intros g _. unfold meta_codes_of.
      rewrite Forall_map. apply Forall_forall. intros x _. unfold byte_ok.
      pose proof (affine_code_range 255 (meta_min_of g) (meta_scale_of g) x ltac:(lia)). lia.
Qed.

(** The blob of encoded metadata: its length, its bytes and its decoding. *)
Lemma encoded_blob_length `{!TorchFloatLaws TF} flat shape m :
  encode_metadata_uint8_group_ref flat shape META_GROUP = Ok m → shape_count shape = length flat →
  length (encode_metadata_blob_ref m) = ((length flat + 63) / 64 * 68)%nat.
Proof.
  intros Hm Hs. destruct (encode_metadata_wf flat shape META_GROUP m Hm Hs) as (_ & Hgs & Hwf & _).
  rewrite (blob_length m _ Hwf), Hgs.
  destruct (pad_to_spec META_GROUP (length flat)) as [H0 Hp]; [unfold META_GROUP; lia|].
  apply Nat.Lcm0.mod_divide in H0 as [q Hq]. rewrite Hq.
  unfold META_GROUP in *. rewrite Nat.div_mul by lia.
  replace ((length flat + 63) / 64)%nat with q; [lia|].
  apply (Nat.div_unique _ 64 _ (63 - pad_to 64 (length flat))); lia.
Qed.

Lemma encoded_blob_bytes `{!TorchFloatLaws TF} flat shape m :
  encode_metadata_uint8_group_ref flat shape META_GROUP = Ok m → shape_count shape = length flat →
  Forall byte_ok (encode_metadata_blob_ref m).
Proof.
  intros Hm Hs. destruct (encode_metadata_wf flat shape META_GROUP m Hm Hs) as (_ & _ & Hwf & Hc).
  destruct Hwf as (_ & _ & _ & Hmr & _ & Hsr & _). unfold encode_metadata_blob_ref.
  rewrite !Forall_app. split; [by apply Forall_concat|].
  unfold _tensor_as_bytes. split; apply Forall_concat; rewrite Forall_map;
  (eapply Forall_impl; [intros p; apply bf16_bytes_ok|done]).
Qed.

Lemma decode_encoded_blob `{!TorchFloatLaws TF} flat shape m :
  encode_metadata_uint8_group_ref flat shape META_GROUP = Ok m → shape_count shape = length flat →
  decode_metadata_blob_ref (encode_metadata_blob_ref m) shape META_GROUP = Ok m.
Proof.
  intros Hm Hs. destruct (encode_metadata_wf flat shape META_GROUP m Hm Hs) as (Hsh & Hgs & Hwf & _).
  rewrite <-Hsh, <-Hgs. by eapply decode_encode_blob.
Qed.

(** The vectorized per-page blob is the serialization of the reference
    dictionary. *)
Lemma meta_blob_page_ref flat shape m :
  (0 < length flat)%nat →
  encode_metadata_uint8_group_ref flat shape META_GROUP = Ok m →
  meta_blob_page flat = encode_metadata_blob_ref m.
Proof.
  intros Hl H. rewrite encode_metadata_ok in H by (unfold META_GROUP; lia).
  injection H as <-. unfold meta_blob_page, encode_metadata_blob_ref, _tensor_as_bytes. simpl.
  by rewrite !map_map.
Qed.

(** C37: META8g64 blobs round-trip.  For every primary tensor whose shape
    multiplies to its element count, the encoder succeeds, the physical blob
    has [ceil(n/64) * 68] bytes (all in [0, 255]), decoding the blob returns the
    very dictionary, and dequantizing it returns one float per primary value. *)
Theorem meta8_blob_roundtrip `{!TorchFloatLaws TF} (flat : list f32) (shape : list nat) :
  shape_count shape = length flat →
  ∃ m, encode_metadata_uint8_group_ref flat shape META_GROUP = Ok m
    ∧ length (encode_metadata_blob_ref m) = ((length flat + 63) / 64 * 68)%nat
    ∧ Forall byte_ok (encode_metadata_blob_ref m)
    ∧ decode_metadata_blob_ref (encode_metadata_blob_ref m) shape META_GROUP = Ok m
    ∧ decode_metadata_uint8_group_ref m = meta8_roundtrip flat
    ∧ length (decode_metadata_uint8_group_ref m) = length flat.
Proof.
  intros Hs. destruct (decode_encode_metadata flat shape) as (m & Hm & Hd).
  exists m. split; [done|]. split; [by apply encoded_blob_length with shape|].
  split; [by apply encoded_blob_bytes with flat shape|].
  split; [by apply decode_encoded_blob with flat|]. split; [done|].
  by rewrite Hd, meta8_roundtrip_length.
Qed.
End Meta.

(** C37 on a tensor of three float32 values, padded to one group. *)
Lemma meta8_blob_roundtrip_witness :
  ∃ m, encode_metadata_uint8_group_ref (map f32_of_int [-2; 5; 100]%Z) [1; 3] META_GROUP = Ok m
    ∧ length (encode_metadata_blob_ref m) = ((3 + 63) / 64 * 68)%nat
    ∧ Forall byte_ok (encode_metadata_blob_ref m)
    ∧ decode_metadata_blob_ref (encode_metadata_blob_ref m) [1; 3] META_GROUP = Ok m
    ∧ decode_metadata_uint8_group_ref m = meta8_roundtrip (map f32_of_int [-2; 5; 100]%Z)
    ∧ length (decode_metadata_uint8_group_ref m) = 3%nat.
Proof. exact (meta8_blob_roundtrip (map f32_of_int [-2; 5; 100]%Z) [1; 3] eq_refl). Defined.
