(* ===== verification/Quant.v ===== *)
(** * The K3 and V2 quantizers

    [quantize_k3_sequence_affine_ref], [dequantize_k3_sequence_affine_ref],
    [quantize_v2_group_affine_ref], [dequantize_v2_group_affine_ref],
    [quantize_rabit2_kv_ref], [dequantize_rabit2_kv_ref] and
    [update_rabit2_kv_ref] of [kvquant_k3.py], and the primary V2 quantizer of
    [rabit_kv2.py], of which [QuantFast] has the second binding.

    Tensors are lists of tokens, a token is a list of head rows.  A primary
    metadata tensor of shape [1, heads, groups, 1, dim] is the nested list
    [heads][groups][dim]; the singleton axes are not represented.  The [ndim]
    checks of the code hold by typing. *)

From Stdlib Require Import ZArith Lia.
From stdpp Require Import base tactics numbers list option.
From S2P Require Import Prelude Torch BitPack Meta.

Definition GROUP : nat := 32.
Definition RESIDUAL : nat := 4.

(** The dictionary of [quantize_k3_sequence_affine_ref]. *)
Record K3State := mkK3State {
  k_packed : tensor3 Z;
  k_original_shape : nat * nat * nat;
  k_padded_tokens : nat;
  k_pad_seq : nat;
  k_seq_group_size : nat;
  k_min : Meta8;
  k_scale : Meta8
}.

(** The dictionary of [quantize_v2_group_affine_ref]. *)
Record V2State := mkV2State {
  v_packed : tensor3 Z;
  v_original_shape : nat * nat * nat;
  v_padded_dim : nat;
  v_pad_dim : nat;
  v_group_size : nat;
  v_min : Meta8;
  v_scale : Meta8
}.

(** Row packers applied to a [tokens x heads x n] code tensor.  The last dimension of the
    result is the packer's, also where there is no row to show it. *)
Definition on_rows (f : list (list Z) → result (list (list Z))) (last_dim : nat)
    (t : tensor3 Z) : result (tensor3 Z) :=
  rows ← f (concat (t_rows t));
  Ok (mkTensor3 (t_heads t) last_dim (view2 (t_tokens t) (t_heads t) rows)).

Section Quant.
Context `{TF : TorchFloat}.

(** ** K: groups of tokens, one affine pair per head and channel *)

(** [grouped.amin(dim=3)] of one group: a minimum per channel. *)
Definition col_reduce (f : list f32 → f32) (dim : nat) (group : list (list f32)) : list f32 :=
  map (λ d, f (map (λ row, nth d row f32_zero) group)) (seq 0 dim).

Definition k_group_min (dim : nat) (group : list (list f32)) : list f32 :=
  col_reduce amin dim group.
Definition k_group_max (dim : nat) (group : list (list f32)) : list f32 :=
  col_reduce amax dim group.
Definition k_group_scale (dim : nat) (group : list (list f32)) : list f32 :=
  zip_with (affine_scale f32_abs_lt_1e8 7) (k_group_min dim group) (k_group_max dim group).
Definition k_group_codes (dim : nat) (group : list (list f32)) : list (list Z) :=
  map (λ row, zip_with3 (affine_code 7) (k_group_min dim group) (k_group_scale dim group) row)
      group.

(** [F.pad(x, (0, 0, 0, pad_seq))] of one head, then the split into groups. *)
Definition k_head_groups (gs dim : nat) (head : list (list f32)) : list (list (list f32)) :=
  rows_of gs (head ++ replicate (pad_to gs (length head)) (replicate dim f32_zero)).

Definition quantize_k3_sequence_affine_ref (tensor : tensor3 f32)
    (seq_group_size metadata_group_size : nat) : result K3State :=
  let tokens := t_tokens tensor in
  let heads := t_heads tensor in
  let head_dim := t_dim tensor in
  _ ← raise_if (tokens =? 0)%nat ValueError;
  _ ← raise_if (seq_group_size =? 0)%nat ValueError;
  let x := permute102 heads (t_rows tensor) [] in
  let pad_seq := pad_to seq_group_size tokens in
  let padded_tokens := (tokens + pad_seq)%nat in
  let grouped := map (k_head_groups seq_group_size head_dim) x in
  let q_min := map (map (k_group_min head_dim)) grouped in
  let scale := map (map (k_group_scale head_dim)) grouped in
  let codes_grouped := map (map (k_group_codes head_dim)) grouped in
  let codes := permute102 padded_tokens (map concat codes_grouped) [] in
  packed ← on_rows (pack_int3_values head_dim) (_kvquant_k3_packed_dim head_dim)
             (mkTensor3 heads head_dim codes);
  let meta_shape := [1; heads; padded_tokens / seq_group_size; 1; head_dim]%nat in
  mn ← encode_metadata_uint8_group_ref (concat (map concat q_min)) meta_shape metadata_group_size;
  sc ← encode_metadata_uint8_group_ref (concat (map concat scale)) meta_shape metadata_group_size;
  Ok (mkK3State packed (tokens, heads, head_dim) padded_tokens pad_seq seq_group_size mn sc).

(** [grouped.float() * scale + q_min] for one group of token rows. *)
Definition k_group_values (codes : list (list Z)) (scale mn : list f32) : list (list f32) :=
  map (λ row, zip_with3 affine_value row scale mn) codes.

Definition dequantize_k3_sequence_affine_ref (state : K3State) (to_dtype : f32 → f32) :
    result (list (list (list f32))) :=
  let '(tokens, heads, head_dim) := k_original_shape state in
  let padded_tokens := k_padded_tokens state in
  let group_size := k_seq_group_size state in
  codes ← on_rows (unpack_int3_values head_dim (t_dim (k_packed state))) head_dim (k_packed state);
  let grouped := map (view2 (padded_tokens / group_size) group_size)
                     (permute102 heads (t_rows codes) []) in
  let q_min := view3 heads (padded_tokens / group_size) head_dim
                     (decode_metadata_uint8_group_ref (k_min state)) in
  let scale := view3 heads (padded_tokens / group_size) head_dim
                     (decode_metadata_uint8_group_ref (k_scale state)) in
  let values := zip_with3 (λ g s m, concat (zip_with3 k_group_values g s m)) grouped scale q_min in
  Ok (map3 to_dtype (permute102 tokens (map (take tokens) values) [])).

(** ** V: groups of channels, one affine pair per token, head and group *)

Definition v_group_scale (g : list f32) : f32 :=
  affine_scale f32_abs_lt_1e8 3 (amin g) (amax g).
Definition v_group_codes (g : list f32) : list Z :=
  map (affine_code 3 (amin g) (v_group_scale g)) g.

(** One head row, padded to [padded_dim] and split into groups of [gs]. *)
Definition v_row_groups (gs padded_dim : nat) (row : list f32) : list (list f32) :=
  view2 (padded_dim / gs) gs (row ++ replicate (padded_dim - length row) f32_zero).

Definition v_row_min (gs pd : nat) (row : list f32) : list f32 :=
  map amin (v_row_groups gs pd row).
Definition v_row_scale (gs pd : nat) (row : list f32) : list f32 :=
  map v_group_scale (v_row_groups gs pd row).
Definition v_row_codes (gs pd : nat) (row : list f32) : list Z :=
  concat (map v_group_codes (v_row_groups gs pd row)).

(** [_quantize_v2_primary_ref] as first bound: packed codes and the float32 primary
    tensors.  Its second binding, with a path for one token on CUDA, is that of
    [QuantFast]; the two agree. *)
Definition _quantize_v2_primary_ref (value : tensor3 f32) (group_size : nat) :
    result (tensor3 Z * tensor3 f32 * tensor3 f32 * nat) :=
  let heads := t_heads value in
  let padded_dim := ((t_dim value + group_size - 1) / group_size * group_size)%nat in
  let groups := (padded_dim / group_size)%nat in
  let per_row {B} (f : list f32 → B) := map (map f) (t_rows value) in
  packed ← on_rows (pack_int2_values padded_dim) ((padded_dim * 2 + 7) / 8)
             (mkTensor3 heads padded_dim (per_row (v_row_codes group_size padded_dim)));
  Ok (packed,
      mkTensor3 heads groups (per_row (v_row_min group_size padded_dim)),
      mkTensor3 heads groups (per_row (v_row_scale group_size padded_dim)),
      padded_dim).

(** [(grouped.float() * scale + q_min).reshape(...)[..., :head_dim]] for one row. *)
Definition v_row_values (gs head_dim : nat) (codes : list Z) (scale mn : list f32) : list f32 :=
  take head_dim
    (concat (zip_with3 (λ g s m, map (λ c, affine_value c s m) g)
                       (view2 (length mn) gs codes) scale mn)).

Definition v_tensor_values (gs head_dim : nat) (codes : list (list (list Z)))
    (scale mn : list (list (list f32))) : list (list (list f32)) :=
  zip_with3 (zip_with3 (v_row_values gs head_dim)) codes scale mn.

Definition _dequantize_v2_from_primary_ref (packed : tensor3 Z) (q_min scale : tensor3 f32)
    (head_dim group_size : nat) (to_dtype : f32 → f32) : result (list (list (list f32))) :=
  let padded_dim := (t_dim q_min * group_size)%nat in
  codes ← on_rows (unpack_int2_values padded_dim (t_dim packed)) padded_dim packed;
  Ok (map3 to_dtype (v_tensor_values group_size head_dim (t_rows codes) (t_rows scale)
                                     (t_rows q_min))).

Definition flatten3 {A} (t : tensor3 A) : list A := concat (map concat (t_rows t)).

Definition quantize_v2_group_affine_ref (tensor : tensor3 f32)
    (group_size metadata_group_size : nat) : result V2State :=
  let tokens := t_tokens tensor in
  let heads := t_heads tensor in
  let head_dim := t_dim tensor in
  _ ← raise_if (tokens =? 0)%nat ValueError;
  _ ← raise_if (group_size =? 0)%nat ValueError;
  let pad_dim := pad_to group_size head_dim in
  let padded_dim := (head_dim + pad_dim)%nat in
  let per_row {B} (f : list f32 → B) := map (map f) (t_rows tensor) in
  packed ← on_rows (pack_int2_values padded_dim) ((padded_dim * 2 + 7) / 8)
             (mkTensor3 heads padded_dim (per_row (v_row_codes group_size padded_dim)));
  let meta_shape := [tokens; heads; padded_dim / group_size; 1]%nat in
  mn ← encode_metadata_uint8_group_ref
         (concat (map concat (per_row (v_row_min group_size padded_dim))))
         meta_shape metadata_group_size;
  sc ← encode_metadata_uint8_group_ref
         (concat (map concat (per_row (v_row_scale group_size padded_dim))))
         meta_shape metadata_group_size;
  Ok (mkV2State packed (tokens, heads, head_dim) padded_dim pad_dim group_size mn sc).

Definition dequantize_v2_group_affine_ref (state : V2State) (to_dtype : f32 → f32) :
    result (list (list (list f32))) :=
  let '(tokens, heads, head_dim) := v_original_shape state in
  let padded_dim := v_padded_dim state in
  let group_size := v_group_size state in
  codes ← on_rows (unpack_int2_values padded_dim (t_dim (v_packed state))) padded_dim
                  (v_packed state);
  let groups := (padded_dim / group_size)%nat in
  let q_min := view3 tokens heads groups (decode_metadata_uint8_group_ref (v_min state)) in
  let scale := view3 tokens heads groups (decode_metadata_uint8_group_ref (v_scale state)) in
  Ok (map3 to_dtype (v_tensor_values group_size head_dim (t_rows codes) scale q_min)).

(** ** The whole-prefix reference state *)

Record Rabit2KV := mkRabit2KV {
  kv_original_shape : nat * nat * nat;
  kv_residual_tokens : nat;
  kv_old_count : nat;
  kv_old_k : option K3State;
  kv_old_v : option V2State;
  kv_recent_k : list (list (list Z));
  kv_recent_v : list (list (list Z))
}.

(** [t[:n]] of a tensor. *)
Definition t_take {A} (n : nat) (t : tensor3 A) : tensor3 A :=
  mkTensor3 (t_heads t) (t_dim t) (take n (t_rows t)).

Definition quantize_rabit2_kv_ref (key value : tensor3 f32)
    (residual_tokens group_size metadata_group_size : nat) : result Rabit2KV :=
  _ ← raise_if (negb (shape_eqb key value)) ValueError;
  let tokens := t_tokens key in
  let recent_count := (tokens `min` residual_tokens)%nat in
  let old_count := (tokens - recent_count)%nat in
  old_k ← (if (old_count =? 0)%nat then Ok None
           else Some <$> quantize_k3_sequence_affine_ref (t_take old_count key)
                           group_size metadata_group_size);
  old_v ← (if (old_count =? 0)%nat then Ok None
           else Some <$> quantize_v2_group_affine_ref (t_take old_count value)
                           group_size metadata_group_size);
  Ok {| kv_original_shape := (tokens, t_heads key, t_dim key);
        kv_residual_tokens := residual_tokens;
        kv_old_count := old_count;
        kv_old_k := old_k;
        kv_old_v := old_v;
        kv_recent_k := map3 bf16_of_f32 (drop old_count (t_rows key));
        kv_recent_v := map3 bf16_of_f32 (drop old_count (t_rows value)) |}.

(** [bf16_tensor.to(dtype)] *)
Definition bf16_to (to_dtype : f32 → f32) : list (list (list Z)) → list (list (list f32)) :=
  map3 (λ p, to_dtype (f32_of_bf16 p)).

Definition dequantize_rabit2_kv_ref (state : Rabit2KV) (to_dtype : f32 → f32) :
    result (list (list (list f32)) * list (list (list f32))) :=
  old ← (if (kv_old_count state =? 0)%nat then Ok ([], [])
         else match kv_old_k state, kv_old_v state with
              | Some k, Some v =>
                  old_k ← dequantize_k3_sequence_affine_ref k to_dtype;
                  old_v ← dequantize_v2_group_affine_ref v to_dtype;
                  Ok (old_k, old_v)
              | _, _ => Err TypeError
              end);
  Ok (old.1 ++ bf16_to to_dtype (kv_recent_k state),
      old.2 ++ bf16_to to_dtype (kv_recent_v state)).

(** [update_rabit2_kv_ref]; [to_dtype] is [new_key.dtype]. *)
Definition update_rabit2_kv_ref (state : option Rabit2KV) (new_key new_value : tensor3 f32)
    (to_dtype : f32 → f32) : result Rabit2KV :=
  _ ← raise_if (negb (shape_eqb new_key new_value)) ValueError;
  match state with
  | None => quantize_rabit2_kv_ref new_key new_value RESIDUAL GROUP META_GROUP
  | Some st =>
      old ← dequantize_rabit2_kv_ref st to_dtype;
      let full k t := mkTensor3 (t_heads t) (t_dim t) (k ++ t_rows t) in
      quantize_rabit2_kv_ref (full old.1 new_key) (full old.2 new_value)
                             (kv_residual_tokens st) GROUP META_GROUP
  end.

(** ** Shapes and code ranges of the quantizers *)

Lemma zip_with3_maps {X A B C D} (F : A → B → C → D) (f : X → A) (g : X → B) (h : X → C) l :
  zip_with3 F (map f l) (map g l) (map h l) = map (λ x, F (f x) (g x) (h x)) l.
Proof. unfold zip_with3. induction l as [|x l IH]; simpl; [done|]. by rewrite IH. Qed.

Lemma zip_with3_length {A B C D} (F : A → B → C → D) l k m n :
  length l = n → length k = n → length m = n → length (zip_with3 F l k m) = n.
Proof. intros. unfold zip_with3. rewrite !length_zip_with. lia. Qed.

Lemma zip_with_map {X A B C} (F : A → B → C) (f : X → A) (g : X → B) l :
  zip_with F (map f l) (map g l) = map (λ x, F (f x) (g x)) l.
Proof. induction l as [|x l IH]; simpl; [done|]. by rewrite IH. Qed.

Lemma on_rows_map (f : list (list Z) → result (list (list Z))) g ld h d rows :
  f (concat rows) = Ok (map g (concat rows)) →
  Forall (λ tok, length tok = h) rows →
  on_rows f ld (mkTensor3 h d rows) = Ok (mkTensor3 h ld (map (map g) rows)).
Proof.
  intros Hf Hr. unfold on_rows. simpl. rewrite Hf, result_bind_ok. do 2 f_equal.
  rewrite concat_map. apply view2_concat; [by rewrite length_map|].
  rewrite Forall_map. eapply Forall_impl; [|exact Hr]. intros tok Ht. by rewrite length_map.
Qed.

Lemma on_rows_unmap (f : list (list Z) → result (list (list Z))) g ld h d rows :
  f (concat (map (map g) rows)) = Ok (concat rows) →
  Forall (λ tok, length tok = h) rows →
  on_rows f ld (mkTensor3 h d (map (map g) rows)) = Ok (mkTensor3 h ld rows).
Proof.
  intros Hf Hr. unfold on_rows, t_tokens. simpl. rewrite Hf, result_bind_ok, length_map.
  do 2 f_equal. by apply view2_concat.
Qed.

Definition code_tensor (bits h n : nat) (rows : list (list (list Z))) : Prop :=
  Forall (λ tok, length tok = h ∧ code_rows bits n tok) rows.

Lemma code_tensor_rows bits h n rows : code_tensor bits h n rows → code_rows bits n (concat rows).
Proof.
  intros H. unfold code_rows. apply Forall_concat. eapply Forall_impl; [|exact H].
  by intros tok [_ ?].
Qed.

Lemma code_tensor_heads bits h n rows :
  code_tensor bits h n rows → Forall (λ tok, length tok = h) rows.
Proof. intros H. eapply Forall_impl; [|exact H]. by intros tok [? _]. Qed.

(** The two payload codecs at tensor level. *)
Lemma pack_int3_tensor h n rows :
  code_tensor 3 h n rows →
  on_rows (pack_int3_values n) (_kvquant_k3_packed_dim n) (mkTensor3 h n rows)
  = Ok (mkTensor3 h (_kvquant_k3_packed_dim n)
                  (map (map (stream_row 3 (_kvquant_k3_packed_dim n))) rows)).
Proof.
  intros H. apply on_rows_map; [|by eapply code_tensor_heads].
  by apply pack_int3_values_ok, code_tensor_rows with h.
Qed.

Lemma unpack_int3_tensor h n rows :
  code_tensor 3 h n rows →
  on_rows (unpack_int3_values n (_kvquant_k3_packed_dim n)) n
    (mkTensor3 h (_kvquant_k3_packed_dim n)
               (map (map (stream_row 3 (_kvquant_k3_packed_dim n))) rows))
  = Ok (mkTensor3 h n rows).
Proof.
  intros H. apply on_rows_unmap; [|by eapply code_tensor_heads].
  rewrite <-concat_map. apply unpack_int3_values_stream. by eapply code_tensor_rows.
Qed.

Lemma pack_int2_tensor h n rows :
  code_tensor 2 h n rows →
  on_rows (pack_int2_values n) ((n * 2 + 7) / 8) (mkTensor3 h n rows)
  = Ok (mkTensor3 h ((n * 2 + 7) / 8) (map (map (stream_row 2 ((n * 2 + 7) / 8))) rows)).
Proof.
  intros H. apply on_rows_map; [|by eapply code_tensor_heads].
  by apply pack_lowbit_values_ok, code_tensor_rows with h.
Qed.

Lemma unpack_int2_tensor h n rows :
  code_tensor 2 h n rows →
  on_rows (unpack_int2_values n ((n * 2 + 7) / 8)) n
    (mkTensor3 h ((n * 2 + 7) / 8) (map (map (stream_row 2 ((n * 2 + 7) / 8))) rows))
  = Ok (mkTensor3 h n rows).
Proof.
  intros H. apply on_rows_unmap; [|by eapply code_tensor_heads].
  rewrite <-concat_map. apply unpack_lowbit_values_stream; [done|done|].
  by eapply code_tensor_rows.
Qed.
End Quant.
