(* ===== verification/Tab.v ===== *)
(** * Tabulated tensors

    A kernel computes a tensor element by element from addresses; the reference
    reshapes, permutes and zips nested lists.  [tab n f] is [f 0 .. f (n - 1)];
    the lemmas say what each list operation of the reference does to tabulated
    lists, so that both sides meet in one formula per element. *)

From Stdlib Require Import ZArith Lia.
From stdpp Require Import base tactics numbers list option.
From S2P Require Import Prelude Torch Meta Quant.

Definition tab {A} (n : nat) (f : nat → A) : list A := map f (seq 0 n).

Lemma tab_length {A} n (f : nat → A) : length (tab n f) = n.
Proof. unfold tab. by rewrite length_map, length_seq. Qed.

Lemma tab_nth {A} n (f : nat → A) i x : (i < n)%nat → nth i (tab n f) x = f i.
Proof. apply nth_tabulate. Qed.

Lemma tab_ext {A} n (f g : nat → A) : (∀ i, (i < n)%nat → f i = g i) → tab n f = tab n g.
Proof. intros H. apply map_ext_in. intros i [_ Hi]%in_seq. apply H. lia. Qed.

Lemma tab_of_list {A} (l : list A) x n : length l = n → l = tab n (λ i, nth i l x).
Proof. intros <-. symmetry. apply map_nth_seq. Qed.

Lemma map_tab {A B} (g : A → B) n f : map g (tab n f) = tab n (λ i, g (f i)).
Proof. apply map_map. Qed.

Lemma zip_with3_tab {A B C D} (F : A → B → C → D) n f g h :
  zip_with3 F (tab n f) (tab n g) (tab n h) = tab n (λ i, F (f i) (g i) (h i)).
Proof. apply zip_with3_maps. Qed.

Lemma tab_add {A} a b (f : nat → A) : tab (a + b) f = tab a f ++ tab b (λ i, f (a + i)%nat).
Proof.
  unfold tab. rewrite seq_app, map_app. f_equal. cbn [Nat.add]. rewrite (seq_shift_map a), map_map. done.
Qed.

Lemma concat_concat {A} (l : list (list (list A))) : concat (concat l) = concat (map concat l).
Proof. induction l as [|x l IH]; [done|]. simpl. by rewrite concat_app, IH. Qed.

(** Row-major flattening. *)
Lemma concat_tab {A} a b (f : nat → nat → A) :
  concat (tab a (λ i, tab b (f i))) = tab (a * b) (λ k, f (k / b)%nat (k mod b)%nat).
Proof.
  induction a as [|a IH]; [done|].
  replace (S a) with (a + 1)%nat by lia. rewrite tab_add, concat_app, IH.
  replace ((a + 1) * b)%nat with (a * b + b)%nat by lia. rewrite tab_add. f_equal.
  unfold tab at 1. cbn [seq map concat]. rewrite app_nil_r, Nat.add_0_r. apply tab_ext.
  intros i Hi. f_equal.
  - by rewrite Nat.div_add_l, Nat.div_small, Nat.add_0_r by lia.
  - rewrite Nat.add_comm, Nat.Div0.mod_add. by rewrite Nat.mod_small.
Qed.

Lemma view2_tab {A} a b (l : list A) x :
  length l = (a * b)%nat → view2 a b l = tab a (λ i, tab b (λ j, nth (i * b + j) l x)).
Proof.
  intros H. rewrite (tab_of_list l x (a * b) H) at 1.
  rewrite (tab_ext _ _ (λ k, nth (k / b * b + k mod b) l x)).
  - rewrite <-(concat_tab a b (λ i j, nth (i * b + j) l x)). apply view2_concat.
    + apply tab_length.
    + unfold tab. rewrite Forall_map. apply List.Forall_forall. intros i _. apply tab_length.
  - intros k Hk. f_equal. rewrite Nat.mul_comm. apply Nat.div_mod_eq.
Qed.

Lemma view3_tab {A} a b c (l : list A) x :
  length l = (a * b * c)%nat →
  view3 a b c l = tab a (λ i, tab b (λ j, tab c (λ k, nth ((i * b + j) * c + k) l x))).
Proof.
  intros H. unfold view3. rewrite (view2_tab a (b * c) l x) by lia. rewrite map_tab.
  apply tab_ext. intros i Hi. rewrite (view2_tab b c _ x) by apply tab_length.
  apply tab_ext. intros j Hj. apply tab_ext. intros k Hk. rewrite tab_nth by nia. f_equal. lia.
Qed.

Lemma permute102_tab {A} m n (f : nat → nat → A) x :
  permute102 n (tab m (λ i, tab n (f i))) x = tab n (λ j, tab m (λ i, f i j)).
Proof.
  unfold permute102. apply tab_ext. intros j Hj. rewrite map_tab. apply tab_ext. intros i Hi.
  by rewrite tab_nth.
Qed.

Lemma take_tab {A} m n (f : nat → A) : (m ≤ n)%nat → take m (tab n f) = tab m f.
Proof.
  intros H. replace n with (m + (n - m))%nat by lia. rewrite tab_add.
  by rewrite take_app_length' by (symmetry; apply tab_length).
Qed.

Lemma tab_slice {A} n off (l : list A) x :
  (off + n ≤ length l)%nat → slice off (off + n) l = tab n (λ i, nth (off + i) l x).
Proof.
  intros H. rewrite (tab_of_list (slice off (off + n) l) x n) by (rewrite slice_length; lia).
  apply tab_ext. intros i Hi. unfold slice. replace (off + n - off)%nat with n by lia.
  rewrite nth_firstn. rewrite (proj2 (Nat.ltb_lt i n) Hi). apply nth_skipn.
Qed.

Lemma tab_1 {A} (f : nat → A) : tab 1 f = [f 0%nat].
Proof. reflexivity. Qed.

(** A row-major index of an [n * h * w] tensor. *)
Lemma flat_index a b c n h w : (a < n)%nat → (b < h)%nat → (c < w)%nat → ((a * h + b) * w + c < n * h * w)%nat.
Proof.
  intros Ha Hb Hc. assert (a * h + b + 1 ≤ n * h)%nat as H by nia.
  apply (Nat.mul_le_mono_r _ _ w) in H. lia.
Qed.
