(* ===== verification/Triton.v ===== *)
(** * The kernel language as an interface

    The Triton kernels of [rabit_kv2.py] quantize with their own sequence of
    scalar operations: [tl.min]/[tl.max] over a block, the [/] operator or
    [tl.div_rn], rounding by [tl.floor] and a comparison of the fraction with
    one half, clamping by [tl.minimum]/[tl.maximum] before or after the cast to
    [int32].  [TritonFloat] is that set of operations; [TritonLaws] names the
    facts the code relies on when it calls a kernel exact: on a block of
    ordinary numbers ([tl_regular]) the reductions are [amin]/[amax], [tl.div_rn]
    and the division of a range by its number of levels are IEEE divisions, and on
    the quantizer's coordinates ([tl_coord]) the floor-based rounding is
    [torch.round].

    The scalar programs are translated here and proved equal to the quantizers
    of [Torch]; the kernels that use them are in [Kernels] and [FastAppend]. *)

From Stdlib Require Import ZArith Lia.
From stdpp Require Import base tactics numbers list option.
From S2P Require Import Prelude Torch BitPack Meta Quant.

Class TritonFloat `{TF : TorchFloat} := {
  tl_min : list f32 → f32;              (* tl.min(x, axis=0) *)
  tl_max : list f32 → f32;
  tl_minimum : f32 → f32 → f32;
  tl_maximum : f32 → f32 → f32;
  tl_div : f32 → f32 → f32;             (* x / y *)
  tl_div_rn : f32 → f32 → f32;
  tl_floor : f32 → f32;
  tl_gt_half : f32 → bool;              (* x > 0.5 *)
  tl_lt_half : f32 → bool;
  tl_eq_half : f32 → bool;
  tl_to_i32 : f32 → Z                   (* x.to(tl.int32) *)
}.

(** [torch.empty]: memory of the requested size with unknown contents. *)
Class TorchEmpty `{TF : TorchFloat} := {
  empty_int : nat → list Z;
  empty_float : nat → list f32;
  empty_int_length : ∀ n, length (empty_int n) = n;
  empty_float_length : ∀ n, length (empty_float n) = n
}.

(** Memory that happens to hold zeros. *)
Definition zero_memory `{TF : TorchFloat} : TorchEmpty := {|
  empty_int n := replicate n 0%Z;
  empty_float n := replicate n f32_zero;
  empty_int_length n := length_replicate n 0%Z;
  empty_float_length n := length_replicate n f32_zero
|}.

Section Scalar.
Context `{TF : TorchFloat} {TR : TritonFloat}.

Definition _rabit2_round_to_even_nonnegative (x : f32) : f32 :=
  let flo := tl_floor x in
  let frac := f32_sub x flo in
  let tie_up := negb (Z.land (tl_to_i32 flo) 1 =? 0)%Z in
  if tl_gt_half frac then f32_add flo f32_one
  else if tl_lt_half frac then flo
  else if tie_up then f32_add flo f32_one else flo.

Definition _rabit2_stage4d3_4_round_even_nonneg (x : f32) : f32 :=
  let lo := tl_floor x in
  let frac := f32_sub x lo in
  let add := tl_gt_half frac || (tl_eq_half frac && negb (Z.land (tl_to_i32 lo) 1 =? 0)%Z) in
  f32_add lo (if add then f32_one else f32_zero).

(** [scale = (qmax - qmin) / levels; tl.where(tl.abs(scale) < eps, 1.0, scale)] *)
Definition tl_scale (small : f32 → bool) (levels : Z) (qmin qmax : f32) : f32 :=
  let scale := tl_div (f32_sub qmax qmin) (f32_of_int levels) in
  if small scale then f32_one else scale.

(** Stage 3B1: round, cast, clamp in integers. *)
Definition tl_code_int (hi : Z) (mn sc x : f32) : Z :=
  let q := tl_to_i32 (_rabit2_round_to_even_nonnegative (tl_div (f32_sub x mn) sc)) in
  Z.max 0 (Z.min hi q).

(** Stage 4D3.4 and the final append: [tl.div_rn], round, clamp in floats, cast. *)
Definition tl_code_rn (hi : Z) (mn sc x : f32) : Z :=
  let q := _rabit2_stage4d3_4_round_even_nonneg (tl_div_rn (f32_sub x mn) sc) in
  tl_to_i32 (tl_maximum f32_zero (tl_minimum (f32_of_int hi) q)).
End Scalar.

Class TritonLaws `{TF : TorchFloat} (TR : TritonFloat) := {
  tl_regular : list f32 → Prop;
  tl_coord : f32 → Prop;
  tl_min_amin : ∀ l, tl_regular l → tl_min l = amin l;
  tl_max_amax : ∀ l, tl_regular l → tl_max l = amax l;
  tl_div_levels : ∀ levels x, levels = 3%Z ∨ levels = 7%Z ∨ levels = 255%Z →
    tl_div x (f32_of_int levels) = f32_div x (f32_of_int levels);
  tl_div_rn_ieee : ∀ x y, tl_div_rn x y = f32_div x y;
  tl_coord_affine : ∀ small levels l x,
    (0 ≤ levels)%Z → tl_regular l → x ∈ l →
    tl_coord (f32_div (f32_sub x (amin l)) (affine_scale small levels (amin l) (amax l)));
  tl_half_total : ∀ y, tl_coord y → let frac := f32_sub y (tl_floor y) in
    tl_lt_half frac = negb (tl_gt_half frac || tl_eq_half frac)
    ∧ (tl_gt_half frac = true → tl_eq_half frac = false);
  tl_round_up : ∀ y, tl_coord y → let frac := f32_sub y (tl_floor y) in
    tl_gt_half frac = true
    ∨ (tl_eq_half frac = true ∧ Z.land (tl_to_i32 (tl_floor y)) 1 ≠ 0%Z) →
    f32_add (tl_floor y) f32_one = f32_round y;
  tl_round_down : ∀ y, tl_coord y → let frac := f32_sub y (tl_floor y) in
    tl_gt_half frac = false →
    (tl_eq_half frac = true → Z.land (tl_to_i32 (tl_floor y)) 1 = 0%Z) →
    tl_floor y = f32_round y ∧ f32_add (tl_floor y) f32_zero = f32_round y;
  tl_clamp_float : ∀ hi y, (0 ≤ hi ≤ 255)%Z → tl_coord y →
    tl_to_i32 (tl_maximum f32_zero (tl_minimum (f32_of_int hi) (f32_round y)))
    = f32_to_u8 (f32_clamp 0 hi (f32_round y));
  tl_clamp_int : ∀ hi y, (0 ≤ hi ≤ 255)%Z → tl_coord y →
    Z.max 0 (Z.min hi (tl_to_i32 (f32_round y))) = f32_to_u8 (f32_clamp 0 hi (f32_round y))
}.

(** [/] is IEEE division on all operands.  Triton promises this of [div_rn] only; the
    kernels in force divide by [/] a range by its number of levels and nothing else.  The
    experimental page writer of Stage 3B1 divides codes by [/] too, and is exact under this
    condition only. *)
Class TritonIeee `{TF : TorchFloat} (TR : TritonFloat) : Prop :=
  tl_div_ieee : ∀ x y, tl_div x y = f32_div x y.

Section ScalarSpec.
Context `{TF : TorchFloat} {TR : TritonFloat} {TL : TritonLaws TR}.

(** Both rounding programs are [torch.round] on coordinates. *)
Lemma round_even_3b1 y : tl_coord y → _rabit2_round_to_even_nonnegative y = f32_round y.
Proof.
  intros Hy. unfold _rabit2_round_to_even_nonnegative.
  pose proof (tl_half_total y Hy) as [Hlt Hex]. pose proof (tl_round_up y Hy) as Hup.
  pose proof (tl_round_down y Hy) as Hdn. cbv zeta in *.
  set (frac := f32_sub y (tl_floor y)) in *. rewrite Hlt.
  destruct (tl_gt_half frac) eqn:Eg; [apply Hup; by left|]. cbn [orb].
  destruct (tl_eq_half frac) eqn:Ee; cbn [negb].
  - destruct (Z.eqb_spec (Z.land (tl_to_i32 (tl_floor y)) 1) 0) as [E|E]; cbn [negb].
    + by apply Hdn.
    + apply Hup. by right.
  - by apply Hdn.
Qed.

Lemma round_even_4d3 y : tl_coord y → _rabit2_stage4d3_4_round_even_nonneg y = f32_round y.
Proof.
  intros Hy. unfold _rabit2_stage4d3_4_round_even_nonneg.
  pose proof (tl_round_up y Hy) as Hup. pose proof (tl_round_down y Hy) as Hdn. cbv zeta in *.
  set (frac := f32_sub y (tl_floor y)) in *.
  destruct (tl_gt_half frac) eqn:Eg; cbn [orb]; [apply Hup; by left|].
  destruct (tl_eq_half frac) eqn:Ee; cbn [andb].
  - destruct (Z.eqb_spec (Z.land (tl_to_i32 (tl_floor y)) 1) 0) as [E|E]; cbn [negb].
    + by apply Hdn.
    + apply Hup. by right.
  - by apply Hdn.
Qed.

Lemma tl_scale_affine small levels l :
  tl_regular l → levels = 3%Z ∨ levels = 7%Z ∨ levels = 255%Z →
  tl_scale small levels (tl_min l) (tl_max l) = affine_scale small levels (amin l) (amax l).
Proof.
  intros H Hlev. unfold tl_scale, affine_scale. by rewrite tl_min_amin, tl_max_amax, tl_div_levels.
Qed.

(** The codes of both kernel families are the codes of the reference. *)
Lemma tl_code_rn_affine small hi l x :
  (0 ≤ hi ≤ 255)%Z → tl_regular l → x ∈ l →
  tl_code_rn hi (amin l) (affine_scale small hi (amin l) (amax l)) x
  = affine_code hi (amin l) (affine_scale small hi (amin l) (amax l)) x.
Proof.
  intros Hh Hl Hx. unfold tl_code_rn, affine_code. rewrite tl_div_rn_ieee.
  pose proof (tl_coord_affine small hi l x ltac:(lia) Hl Hx) as Hc.
  by rewrite round_even_4d3, tl_clamp_float.
Qed.

Lemma tl_code_int_affine {TD : TritonIeee TR} small hi l x :
  (0 ≤ hi ≤ 255)%Z → tl_regular l → x ∈ l →
  tl_code_int hi (amin l) (affine_scale small hi (amin l) (amax l)) x
  = affine_code hi (amin l) (affine_scale small hi (amin l) (amax l)) x.
Proof.
  intros Hh Hl Hx. unfold tl_code_int, affine_code. rewrite tl_div_ieee.
  pose proof (tl_coord_affine small hi l x ltac:(lia) Hl Hx) as Hc.
  by rewrite round_even_3b1, tl_clamp_int.
Qed.

(** Block forms. *)
Lemma tl_codes_rn small hi l :
  hi = 3%Z ∨ hi = 7%Z ∨ hi = 255%Z → tl_regular l →
  map (tl_code_rn hi (tl_min l) (tl_scale small hi (tl_min l) (tl_max l))) l
  = map (affine_code hi (amin l) (affine_scale small hi (amin l) (amax l))) l.
Proof.
  intros Hh Hl. apply map_ext_in. intros x Hx%list_elem_of_In.
  rewrite tl_scale_affine, tl_min_amin by (done || tauto). apply tl_code_rn_affine; [lia|done|done].
Qed.

Lemma tl_codes_int {TD : TritonIeee TR} small hi l :
  hi = 3%Z ∨ hi = 7%Z ∨ hi = 255%Z → tl_regular l →
  map (tl_code_int hi (tl_min l) (tl_scale small hi (tl_min l) (tl_max l))) l
  = map (affine_code hi (amin l) (affine_scale small hi (amin l) (amax l))) l.
Proof.
  intros Hh Hl. apply map_ext_in. intros x Hx%list_elem_of_In.
  rewrite tl_scale_affine, tl_min_amin by (done || tauto). apply tl_code_int_affine; [lia|done|done].
Qed.
End ScalarSpec.

(** ** Device memory

    A contiguous buffer is its flat list of elements.  A program stores a block
    of consecutive addresses; the buffers are allocated by the callers with the
    sizes the addresses assume, which the lemmas carry as length hypotheses. *)

Definition load_block {A} (n off : nat) (mem : list A) : list A := slice off (off + n) mem.
Definition store_block {A} (off : nat) (vals mem : list A) : list A :=
  take off mem ++ vals ++ drop (off + length vals) mem.

(** [triton.next_power_of_2]. *)
Definition next_power_of_2 (n : nat) : nat := (2 ^ Nat.log2_up n)%nat.

(** [n] programs, program [p] storing its block. *)
Definition launch {M} (n : nat) (program : nat → M → M) (mem : M) : M :=
  fold_left (λ m p, program p m) (seq 0 n) mem.

Lemma launch_S {M} n (program : nat → M → M) mem :
  launch (S n) program mem = program n (launch n program mem).
Proof. unfold launch. rewrite seq_S, fold_left_app. done. Qed.

(** An invariant of the programs in order. *)
Lemma launch_ind {M} (P : nat → M → Prop) n (program : nat → M → M) mem :
  P 0%nat mem → (∀ p m, (p < n)%nat → P p m → P (S p) (program p m)) → P n (launch n program mem).
Proof.
  intros H0 HS. induction n as [|n IH]; [done|]. rewrite launch_S. apply HS; [lia|].
  apply IH. intros p m Hp. apply HS. lia.
Qed.

Lemma store_block_length {A} off (vals mem : list A) :
  (off + length vals ≤ length mem)%nat → length (store_block off vals mem) = length mem.
Proof.
  intros H. unfold store_block. rewrite !length_app, length_take, length_drop. lia.
Qed.

(** Storing two adjacent blocks is storing their concatenation. *)
Lemma store_block_app {A} off (v1 v2 mem : list A) :
  (off + length v1 + length v2 ≤ length mem)%nat →
  store_block (off + length v1) v2 (store_block off v1 mem) = store_block off (v1 ++ v2) mem.
Proof.
  intros H. unfold store_block at 1 3.
  assert (store_block off v1 mem = (take off mem ++ v1) ++ drop (off + length v1) mem) as ->
    by (unfold store_block; by rewrite <-app_assoc).
  assert (length (take off mem ++ v1) = off + length v1)%nat as Hl
    by (rewrite length_app, length_take; lia).
  rewrite take_app_length' by done. rewrite drop_app, (drop_ge (take off mem ++ v1)) by lia.
  rewrite app_nil_l, Hl, drop_drop, <-!app_assoc, length_app.
  replace (off + length v1 + (off + length v1 + length v2 - (off + length v1)))%nat
    with (off + (length v1 + length v2))%nat by lia. done.
Qed.

Lemma store_block_nil {A} off (mem : list A) : store_block off [] mem = mem.
Proof. unfold store_block. cbn [length app]. by rewrite Nat.add_0_r, take_drop. Qed.

(** [n] programs that store consecutive blocks of [k] elements from [base] on. *)
Lemma launch_blocks {A} n k base (block : nat → list A) mem :
  (∀ p, (p < n)%nat → length (block p) = k) → (base + n * k ≤ length mem)%nat →
  launch n (λ p, store_block (base + p * k) (block p)) mem
  = store_block base (concat (map block (seq 0 n))) mem.
Proof.
  induction n as [|n IH]; intros Hb Hm; [cbn [seq map concat]; by rewrite store_block_nil|].
  rewrite launch_S, IH; [|intros; apply Hb; lia|simpl in Hm; lia].
  rewrite seq_S, map_app, concat_app. cbn [map concat]. rewrite app_nil_r.
  assert (length (concat (map block (seq 0 n))) = n * k)%nat as Hl.
  { rewrite (length_concat_uniform k); [by rewrite length_map, length_seq|].
    rewrite Forall_map. apply List.Forall_forall. intros p [_ Hp]%in_seq. apply Hb. lia. }
  rewrite <-Hl at 1. apply store_block_app. rewrite Hl, Hb by lia. simpl in Hm. lia.
Qed.

(** One of equally long segments of a buffer. *)
Lemma seg_split {A} n i (segs : list (list A)) seg :
  Forall (λ s, length s = n) segs → segs !! i = Some seg →
  concat segs = concat (take i segs) ++ seg ++ concat (drop (S i) segs)
  ∧ length (concat (take i segs)) = (i * n)%nat ∧ length seg = n.
Proof.
  intros H Hi. rewrite <-(take_drop_middle segs i seg Hi) at 1. rewrite concat_app. cbn [concat].
  split; [done|]. split.
  - rewrite (length_concat_uniform n) by (by apply Forall_take). rewrite length_take.
    apply lookup_lt_Some in Hi. f_equal. lia.
  - by eapply (Forall_lookup_1 (λ s, length s = n)).
Qed.
