(* ===== verification/FixedTorch.v ===== *)
(** * A fixed-point instance of the tensor and kernel interfaces

    Numbers are integers that stand for multiples of 1/2048.  Division rounds
    down, rounding to an integer is exact round-half-to-even, the threshold
    tests hold of zero only, and the cast to bfloat16 keeps the low 16 bits.
    [SpecFloatTorch] is the instance with the arithmetic of the hardware; this
    one shows that the laws of [TritonLaws] hold together with those of
    [TorchFloatLaws] on every block, and lets the witnesses of the kernel
    theorems evaluate. *)

From Stdlib Require Import ZArith Lia.
From stdpp Require Import base tactics numbers list option.
From S2P Require Import Prelude Torch BitPack Meta Quant Triton.

#[local] Open Scope Z_scope.

Definition UNIT : Z := 2048.
Definition HALF : Z := 1024.

Definition fx_floor (x : Z) : Z := x / UNIT * UNIT.

Definition fx_round (x : Z) : Z :=
  let q := x / UNIT in
  let r := x mod UNIT in
  (if (HALF <? r) || ((HALF =? r) && Z.odd q) then q + 1 else q) * UNIT.

Definition fx_clamp (lo hi x : Z) : Z := Z.max (lo * UNIT) (Z.min (hi * UNIT) x).

#[local] Instance FixedTorch : TorchFloat := {
  f32 := Z;
  f32_zero := 0;
  f32_one := UNIT;
  f32_add := Z.add;
  f32_sub := Z.sub;
  f32_mul := λ x y, x * y / UNIT;
  f32_div := λ x y, x * UNIT / y;
  f32_min := Z.min;
  f32_max := Z.max;
  f32_round := fx_round;
  f32_clamp := fx_clamp;
  f32_to_u8 := λ x, x / UNIT;
  f32_of_int := λ z, z * UNIT;
  f32_abs_lt_1e8 := λ x, x =? 0;
  f32_abs_lt_1e12 := λ x, x =? 0;
  bf16_of_f32 := λ x, x mod 65536;
  f32_of_bf16 := λ p, p
}.

#[local] Instance FixedTriton : @TritonFloat FixedTorch := {
  tl_min := amin;
  tl_max := amax;
  tl_minimum := Z.min;
  tl_maximum := Z.max;
  tl_div := λ x y, x * UNIT / y;
  tl_div_rn := λ x y, x * UNIT / y;
  tl_floor := fx_floor;
  tl_gt_half := λ x, HALF <? x;
  tl_lt_half := λ x, x <? HALF;
  tl_eq_half := λ x, x =? HALF;
  tl_to_i32 := λ x, x / UNIT
}.

Lemma fx_split (y : Z) : y = UNIT * (y / UNIT) + y mod UNIT ∧ 0 <= y mod UNIT < UNIT.
Proof. unfold UNIT. split; [apply Z.div_mod; lia|apply Z.mod_pos_bound; lia]. Qed.

Lemma fx_floor_frac y : y - fx_floor y = y mod UNIT.
Proof. unfold fx_floor. pose proof (fx_split y). lia. Qed.

Lemma fx_floor_int y : fx_floor y / UNIT = y / UNIT.
Proof. unfold fx_floor. apply Z.div_mul. done. Qed.

Lemma fx_land_odd z : Z.land z 1 = if Z.odd z then 1 else 0.
Proof. change 1 with (Z.ones 1). rewrite Z.land_ones by lia. apply Zmod_odd. Qed.

Lemma amin_le (l : list Z) x : x ∈ l → (amin l : Z) <= x.
Proof.
  destruct l as [|a l]; [by intros ?%elem_of_nil|]. intros Hx. unfold amin.
  assert (∀ (l : list Z) m, fold_left Z.min l m <= m ∧ ∀ z, z ∈ l → fold_left Z.min l m <= z) as H.
  { clear. induction l as [|b l IH]; intros m; cbn [fold_left].
    - split; [lia|]. intros z Hz. by apply elem_of_nil in Hz.
    - destruct (IH (Z.min m b)) as [H1 H2]. split; [lia|].
      intros z [->|Hz]%elem_of_cons; [lia|by apply H2]. }
  destruct (H l a) as [H1 H2]. apply elem_of_cons in Hx as [->|Hx]; [done|by apply H2].
Qed.

Lemma amax_ge (l : list Z) x : x ∈ l → x <= (amax l : Z).
Proof.
  destruct l as [|a l]; [by intros ?%elem_of_nil|]. intros Hx. unfold amax.
  assert (∀ (l : list Z) m, m <= fold_left Z.max l m ∧ ∀ z, z ∈ l → z <= fold_left Z.max l m) as H.
  { clear. induction l as [|b l IH]; intros m; cbn [fold_left].
    - split; [lia|]. intros z Hz. by apply elem_of_nil in Hz.
    - destruct (IH (Z.max m b)) as [H1 H2]. split; [lia|].
      intros z [->|Hz]%elem_of_cons; [lia|by apply H2]. }
  destruct (H l a) as [H1 H2]. apply elem_of_cons in Hx as [->|Hx]; [done|by apply H2].
Qed.

Lemma fx_round_range y : 0 <= y → 0 <= fx_round y ∧ fx_round y = fx_round y / UNIT * UNIT.
Proof.
  intros H. unfold fx_round. set (b := _ || _).
  assert (0 <= y / UNIT) by (apply Z.div_pos; [done|by unfold UNIT]).
  destruct b; rewrite Z.div_mul by done; split; unfold UNIT in *; lia.
Qed.

#[local] Instance FixedTorch_laws : TorchFloatLaws FixedTorch.
Proof.
  split.
  - intros hi x Hh. cbn. unfold fx_clamp, UNIT. split.
    + apply Z.div_pos; lia.
    + apply Z.div_le_upper_bound; lia.
  - intros x. cbn. apply Z.mod_pos_bound. lia.
  - intros x. cbn. by rewrite Z.mod_mod.
Qed.

Lemma fx_coord small levels (l : list Z) x :
  0 <= levels → x ∈ l →
  0 <= (x - (amin l : Z)) * UNIT / affine_scale (TF := FixedTorch) small levels (amin l) (amax l).
Proof.
  intros Hl Hx. pose proof (amin_le l x Hx) as Hmin. pose proof (amax_ge l x Hx) as Hmax.
  set (mn := @amin FixedTorch l) in *. set (mx := @amax FixedTorch l) in *.
  assert (0 <= (affine_scale (TF := FixedTorch) small levels mn mx : Z)) as Hs.
  { unfold affine_scale. destruct (small _); [done|]. cbn.
    destruct (Z.eq_dec levels 0) as [->|?]; [by rewrite Z.div_0_r|].
    apply Z.div_pos; unfold UNIT; lia. }
  set (sc := @affine_scale FixedTorch small levels mn mx) in *.
  destruct (Z.eq_dec sc 0) as [E|E]; [by rewrite E, Z.div_0_r|].
  apply Z.div_pos; unfold UNIT; lia.
Qed.

Lemma fx_clamp_round hi y :
  0 <= hi <= 255 → 0 <= y → Z.max 0 (Z.min hi (fx_round y / UNIT)) = fx_clamp 0 hi (fx_round y) / UNIT.
Proof.
  intros Hh Hy. destruct (fx_round_range y Hy) as [H0 E]. unfold fx_clamp.
  set (q := fx_round y / UNIT) in *. rewrite E.
  replace (Z.max (0 * UNIT) (Z.min (hi * UNIT) (q * UNIT))) with (Z.max 0 (Z.min hi q) * UNIT)
    by (unfold UNIT; lia).
  by rewrite Z.div_mul.
Qed.

#[local] Instance FixedTriton_laws : TritonLaws FixedTriton.
Proof.
  refine (@Build_TritonLaws FixedTorch FixedTriton (λ _, True) (λ y : Z, 0 <= y)
            _ _ _ _ _ _ _ _ _ _); try done.
  - intros small levels l x Hl _ Hx. by apply fx_coord.
  - intros y Hy. cbn. rewrite fx_floor_frac. split; [|lia].
    destruct (Z.ltb_spec (y mod UNIT) HALF), (Z.ltb_spec HALF (y mod UNIT)),
      (Z.eqb_spec (y mod UNIT) HALF); cbn; done || lia.
  - intros y Hy. cbn. rewrite fx_floor_frac, fx_floor_int, fx_land_odd. unfold fx_round, fx_floor.
    intros [H|[H%Z.eqb_eq Ho]]; [rewrite H; cbn [orb]; lia|].
    rewrite (proj2 (Z.eqb_eq HALF _)) by lia. destruct (Z.odd (y / UNIT)); [|done].
    rewrite orb_comm. cbn [andb orb]. lia.
  - intros y Hy. cbn. rewrite fx_floor_frac, fx_floor_int, fx_land_odd. unfold fx_round, fx_floor.
    intros -> H. cbn [orb]. destruct (Z.eqb_spec HALF (y mod UNIT)) as [E|E]; cbn [andb]; [|lia].
    rewrite (proj2 (Z.eqb_eq _ HALF)) in H by lia. specialize (H eq_refl).
    destruct (Z.odd (y / UNIT)); [done|lia].
  - intros hi y Hh Hy. cbn -[fx_round fx_clamp]. by apply fx_clamp_round.
Defined.

#[local] Instance FixedTriton_ieee : TritonIeee FixedTriton.
Proof. done. Defined.
