(* ===== verification/Decoded.v ===== *)
(** * What a reader of the quantized cache sees

    The closed form of quantization followed by dequantization: [k_decoded] for
    K3 and [v_decoded] for V2.  Both functions are shown to be the composition of
    the reference quantizer and dequantizer, and both distribute over the
    concatenation of a group-aligned prefix with its continuation.  That is what
    lets a paged, append-only cache reproduce the whole-prefix oracle. *)

From Stdlib Require Import ZArith Lia.
From stdpp Require Import base tactics numbers list option.
From S2P Require Import Prelude Torch SpecFloatTorch BitPack Meta Quant.

(** ** Axis exchange on well-formed token lists *)

Lemma permute102_wf {A} h d (rows : list (list (list A))) :
  Forall (wf_row h d) rows → Forall (wf_row (length rows) d) (permute102 h rows []).
Proof.
  intros H. unfold permute102. rewrite Forall_map. apply List.Forall_forall.
  intros i [_ Hi]%in_seq. simpl in Hi. split; [apply length_map|]. rewrite Forall_map.
  eapply Forall_impl; [|exact H]. intros tok [Hl Hr]. cbv beta.
  apply (Forall_nth_In (λ r, length r = d)); [done|lia].
Qed.

Lemma permute102_zip_app {A} n1 n2 (a b : list (list A)) x :
  length a = length b → Forall (λ r, length r = n1) a →
  permute102 (n1 + n2) (zip_with app a b) x = permute102 n1 a x ++ permute102 n2 b x.
Proof.
  intros Hl Ha. unfold permute102. rewrite seq_app, map_app. f_equal.
  - apply map_ext_in. intros i [_ Hi]%in_seq. simpl in Hi.
    revert b Hl. induction Ha as [|r a Hr _ IH]; intros [|s b] Hl; try done.
    simpl. rewrite IH by (simpl in Hl; lia). f_equal. rewrite app_nth1; [done|lia].
  - rewrite Nat.add_0_l, seq_shift_map, map_map. apply map_ext. intros i.
    revert b Hl. induction Ha as [|r a Hr _ IH]; intros [|s b] Hl; try done.
    simpl. rewrite IH by (simpl in Hl; lia). f_equal. rewrite app_nth2 by lia. f_equal. lia.
Qed.

Lemma view3_app {A} n1 n2 b c (l1 l2 : list A) :
  length l1 = (n1 * (b * c))%nat →
  view3 (n1 + n2) b c (l1 ++ l2) = view3 n1 b c l1 ++ view3 n2 b c l2.
Proof. intros H. unfold view3. by rewrite view2_app, map_app. Qed.

Lemma zip_with3_app {A B C D} (F : A → B → C → D) l1 l2 k1 k2 m1 m2 :
  length l1 = length k1 → length k1 = length m1 →
  zip_with3 F (l1 ++ l2) (k1 ++ k2) (m1 ++ m2) = zip_with3 F l1 k1 m1 ++ zip_with3 F l2 k2 m2.
Proof.
  intros H1 H2. unfold zip_with3. rewrite zip_with_app by done.
  apply zip_with_app. rewrite length_zip_with. lia.
Qed.

Section Decoded.
Context `{TF : TorchFloat}.

(** ** K *)

Definition k_group_decoded (dim : nat) (group : list (list f32)) : list (list f32) :=
  k_group_values (k_group_codes dim group) (meta8_roundtrip (k_group_scale dim group))
                 (meta8_roundtrip (k_group_min dim group)).

Definition k_head_decoded (dim : nat) (head : list (list f32)) : list (list f32) :=
  take (length head) (concat (map (k_group_decoded dim) (k_head_groups GROUP dim head))).

Definition k_decoded (heads dim : nat) (rows : list (list (list f32))) : list (list (list f32)) :=
  permute102 (length rows) (map (k_head_decoded dim) (permute102 heads rows [])) [].

(** ** V *)

Definition v_pad_dim_of (dv : nat) : nat := ((dv + 31) / 32 * 32)%nat.
Definition v_groups_of (dv : nat) : nat := ((dv + 31) / 32)%nat.

Definition v_codes (dv : nat) : list (list (list f32)) → list (list (list Z)) :=
  map (map (v_row_codes GROUP (v_pad_dim_of dv))).
Definition v_mins (dv : nat) : list (list (list f32)) → list (list (list f32)) :=
  map (map (v_row_min GROUP (v_pad_dim_of dv))).
Definition v_scales (dv : nat) : list (list (list f32)) → list (list (list f32)) :=
  map (map (v_row_scale GROUP (v_pad_dim_of dv))).

Definition flat {A} (rows : list (list (list A))) : list A := concat (map concat rows).

(** A primary tensor after the META8 round trip. *)
Definition meta_view (n heads groups : nat) (primary : list (list (list f32))) :
    list (list (list f32)) :=
  view3 n heads groups (meta8_roundtrip (flat primary)).

Definition v_decoded (heads dv : nat) (rows : list (list (list f32))) : list (list (list f32)) :=
  v_tensor_values GROUP dv (v_codes dv rows)
    (meta_view (length rows) heads (v_groups_of dv) (v_scales dv rows))
    (meta_view (length rows) heads (v_groups_of dv) (v_mins dv rows)).

(** ** Shapes of the K quantizer *)

Lemma k_group_min_length dim g : length (k_group_min dim g) = dim.
Proof. unfold k_group_min, col_reduce. by rewrite length_map, length_seq. Qed.

Lemma k_group_scale_length dim g : length (k_group_scale dim g) = dim.
Proof.
  unfold k_group_scale. rewrite length_zip_with, k_group_min_length.
  unfold k_group_max, col_reduce. rewrite length_map, length_seq. lia.
Qed.

Lemma k_group_codes_ok `{!TorchFloatLaws TF} n dim g :
  wf_row n dim g →
  length (k_group_codes dim g) = n ∧ code_rows 3 dim (k_group_codes dim g).
Proof.
  intros [Hl Hr]. unfold k_group_codes. split; [by rewrite length_map|].
  unfold code_rows. rewrite Forall_map. eapply Forall_impl; [|exact Hr]. intros r Hd. cbv beta. split.
  - apply zip_with3_length; [apply k_group_min_length|apply k_group_scale_length|done].
  - generalize (k_group_min dim g) (k_group_scale dim g). clear Hd Hr Hl. intros m s. unfold zip_with3.
    revert s r. induction m as [|a m IH]; intros [|b s] [|c r]; simpl; try constructor.
    + pose proof (affine_code_range 7 a b c ltac:(lia)). unfold code_ok. simpl. lia.
    + apply IH.
Qed.

Lemma k_head_groups_spec gs n dim head :
  (0 < gs)%nat → wf_row n dim head →
  let G := ((n + pad_to gs n) / gs)%nat in
  (n + pad_to gs n = G * gs)%nat
  ∧ length (k_head_groups gs dim head) = G
  ∧ Forall (wf_row gs dim) (k_head_groups gs dim head).
Proof.
  intros Hg [Hl Hr]. simpl. destruct (pad_to_spec gs n Hg) as [H0 _].
  apply Nat.Lcm0.mod_divide in H0 as [q Hq].
  unfold k_head_groups, rows_of. rewrite length_app, length_replicate, Hl, Hq, Nat.div_mul by lia.
  split; [done|]. split; [apply view2_length|].
  set (l := head ++ _). assert (Forall (λ r, length r = dim) l) as Hall.
  { unfold l. apply Forall_app; split; [done|]. apply Forall_replicate.
    by rewrite length_replicate. }
  assert (length l = (q * gs)%nat) as Hll
    by (unfold l; rewrite length_app, length_replicate, Hl; lia).
  clearbody l. clear Hq. revert l Hall Hll. induction q as [|q IH]; intros l Hall Hll; [constructor|].
  constructor.
  - split; [rewrite length_take; lia|]. by apply Forall_take.
  - apply IH; [by apply Forall_drop|rewrite length_drop; lia].
Qed.

Lemma k_group_decoded_wf n dim g :
  wf_row n dim g → wf_row n dim (k_group_decoded dim g).
Proof.
  intros [Hl Hr]. unfold k_group_decoded, k_group_values, k_group_codes. rewrite map_map.
  split; [by rewrite length_map|]. rewrite Forall_map.
  eapply Forall_impl; [|exact Hr]. intros r Hd. cbv beta.
  apply zip_with3_length; [apply zip_with3_length|..]; 
    rewrite ?meta8_roundtrip_length; auto using k_group_min_length, k_group_scale_length.
Qed.

Lemma k_head_decoded_wf n dim head : wf_row n dim head → wf_row n dim (k_head_decoded dim head).
Proof.
  intros Hwf. destruct (k_head_groups_spec GROUP n dim head ltac:(unfold GROUP; lia) Hwf)
    as (Hn & HG & HF). destruct Hwf as [Hl _].
  assert (Forall (wf_row GROUP dim) (map (k_group_decoded dim) (k_head_groups GROUP dim head))) as HD.
  { rewrite Forall_map. eapply Forall_impl; [|exact HF]. intros g. apply k_group_decoded_wf. }
  unfold k_head_decoded. split.
  - rewrite length_take. erewrite (length_concat_uniform GROUP)
      by (eapply Forall_impl; [|exact HD]; by intros ? [??]).
    rewrite length_map, HG. lia.
  - apply Forall_take, Forall_concat. eapply Forall_impl; [|exact HD]. by intros ? [??].
Qed.

Lemma k_decoded_wf heads dim rows :
  Forall (wf_row heads dim) rows →
  length (k_decoded heads dim rows) = length rows
  ∧ Forall (wf_row heads dim) (k_decoded heads dim rows).
Proof.
  intros H. unfold k_decoded. split; [apply permute102_length|].
  set (hs := map _ _). assert (length hs = heads) as Hh
    by (unfold hs; by rewrite length_map, permute102_length).
  rewrite <-Hh. assert (Forall (wf_row (length rows) dim) hs) as Hhs.
  { unfold hs. rewrite Forall_map. eapply Forall_impl; [|by apply permute102_wf].
    intros g. apply k_head_decoded_wf. }
  clearbody hs. by apply permute102_wf.
Qed.

(** ** Dequantizing what was quantized *)

(** The META8 round trip of a [heads x groups x dim] primary tensor acts on
    each group row by itself when rows are whole metadata groups. *)
Lemma meta8_roundtrip_rows dim (F : list (list f32) → list f32)
    (grouped : list (list (list (list f32)))) G :
  (META_GROUP | dim)%nat →
  Forall (λ gs, length gs = G ∧ Forall (λ g, length (F g) = dim) gs) grouped →
  view3 (length grouped) G dim (meta8_roundtrip (concat (map concat (map (map F) grouped))))
  = map (map (λ g, meta8_roundtrip (F g))) grouped.
Proof.
  intros Hd H.
  assert (concat (map concat (map (map F) grouped)) = concat (map F (concat grouped))) as ->.
  { clear H. induction grouped as [|gs l IH]; [done|]. simpl.
    by rewrite map_app, concat_app, IH. }
  rewrite meta8_roundtrip_concat, map_map.
  - transitivity (view3 (length grouped) G dim
      (concat (map concat (map (map (λ g, meta8_roundtrip (F g))) grouped)))).
    + f_equal. clear H. induction grouped as [|gs l IH]; [done|]. simpl.
      by rewrite map_app, concat_app, IH.
    + apply view3_concat; [apply length_map|]. rewrite Forall_map.
      eapply Forall_impl; [|exact H]. intros gs [Hl Hg]. split; [by rewrite length_map|].
      rewrite Forall_map. eapply Forall_impl; [|exact Hg]. intros g E. cbv beta.
      by rewrite meta8_roundtrip_length.
  - rewrite Forall_map. apply Forall_concat. eapply Forall_impl; [|exact H].
    intros gs [_ Hg]. eapply Forall_impl; [|exact Hg]. intros g E. cbv beta. by rewrite E.
Qed.

Section Heads.
Context `{!TorchFloatLaws TF}.
Variables (gs n dim : nat) (xs : list (list (list f32))).
Hypothesis Hgs : (0 < gs)%nat.
Hypothesis Hxs : Forall (wf_row n dim) xs.

Let G := ((n + pad_to gs n) / gs)%nat.
Let grouped := map (k_head_groups gs dim) xs.
Let codes := map concat (map (map (k_group_codes dim)) grouped).

Lemma k_grouped_shape :
  (n + pad_to gs n = G * gs)%nat
  ∧ Forall (λ l, length l = G ∧ Forall (wf_row gs dim) l) grouped.
Proof.
  split.
  - apply (k_head_groups_spec gs n dim (replicate n (replicate dim f32_zero))); [done|].
    split; [apply length_replicate|]. apply Forall_replicate, length_replicate.
  - unfold grouped. rewrite Forall_map. eapply Forall_impl; [|exact Hxs]. intros head Hw.
    by destruct (k_head_groups_spec gs n dim head Hgs Hw) as (_ & ? & ?).
Qed.

Lemma k_codes_shape :
  Forall (λ h, length h = G * gs ∧ code_rows 3 dim h)%nat codes.
Proof.
  destruct k_grouped_shape as [_ HF]. unfold codes. rewrite map_map, Forall_map.
  eapply Forall_impl; [|exact HF]. intros l [Hl Hw]. cbv beta.
  assert (Forall (λ c, length c = gs ∧ code_rows 3 dim c) (map (k_group_codes dim) l)) as HC.
  { rewrite Forall_map. eapply Forall_impl; [|exact Hw]. intros g. apply k_group_codes_ok. }
  split.
  - erewrite (length_concat_uniform gs) by (eapply Forall_impl; [|exact HC]; by intros ? [??]).
    by rewrite length_map, Hl.
  - unfold code_rows. apply Forall_concat. eapply Forall_impl; [|exact HC]. by intros ? [??].
Qed.

Lemma k_codes_tensor : code_tensor 3 (length xs) dim (permute102 (G * gs) codes []).
Proof.
  unfold code_tensor, permute102. rewrite Forall_map. apply List.Forall_forall.
  intros i [_ Hi]%in_seq. split.
  - unfold codes, grouped. by rewrite !length_map.
  - unfold code_rows. rewrite Forall_map. eapply Forall_impl; [|exact k_codes_shape].
    intros h [Hl Hc]. cbv beta. apply (Forall_nth_In _ h i []) in Hc; [done|lia].
Qed.

(** Reading the code tensor back per head and splitting it into groups. *)
Lemma k_codes_regroup :
  map (view2 G gs) (permute102 (length xs) (permute102 (G * gs) codes []) [])
  = map (map (k_group_codes dim)) grouped.
Proof.
  assert (length xs = length codes) as -> by (unfold codes, grouped; by rewrite !length_map).
  rewrite permute102_involutive
    by (eapply Forall_impl; [|exact k_codes_shape]; by intros ? [??]).
  destruct k_grouped_shape as [_ HF].
  unfold codes. rewrite map_map. rewrite <-(map_id (map (map _) grouped)) at 2.
  apply map_ext_in. intros l Hl%in_map_iff. destruct Hl as (l0 & <- & Hin).
  rewrite List.Forall_forall in HF. destruct (HF l0 Hin) as [Hlen Hw].
  apply view2_concat; [by rewrite length_map|]. rewrite Forall_map.
  eapply Forall_impl; [|exact Hw]. intros g Hg. cbv beta. by apply k_group_codes_ok.
Qed.
End Heads.

(** The groups of every head, and the code tensor the K3 quantizer packs. *)
Definition k_groups (t : tensor3 f32) : list (list (list (list f32))) :=
  map (k_head_groups GROUP (t_dim t)) (permute102 (t_heads t) (t_rows t) []).

Definition k_code_rows (t : tensor3 f32) : list (list (list Z)) :=
  permute102 (t_tokens t + pad_to GROUP (t_tokens t))
    (map concat (map (map (k_group_codes (t_dim t))) (k_groups t))) [].

Definition k_group_count (t : tensor3 f32) : nat :=
  ((t_tokens t + pad_to GROUP (t_tokens t)) / GROUP)%nat.

Definition k_primary (F : nat → list (list f32) → list f32) (t : tensor3 f32) : list f32 :=
  concat (map concat (map (map (F (t_dim t))) (k_groups t))).

Lemma k_groups_shape (t : tensor3 f32) :
  wf_tensor3 t →
  length (k_groups t) = t_heads t
  ∧ (t_tokens t + pad_to GROUP (t_tokens t) = k_group_count t * GROUP)%nat
  ∧ Forall (λ l, length l = k_group_count t ∧ Forall (wf_row GROUP (t_dim t)) l) (k_groups t).
Proof.
  intros Hwf. apply permute102_wf in Hwf.
  destruct (k_grouped_shape GROUP (t_tokens t) (t_dim t) _ ltac:(unfold GROUP; lia) Hwf) as [HG HF].
  split; [|by split]. unfold k_groups. by rewrite length_map, permute102_length.
Qed.

Lemma k_code_rows_tensor `{!TorchFloatLaws TF} (t : tensor3 f32) :
  wf_tensor3 t → code_tensor 3 (t_heads t) (t_dim t) (k_code_rows t).
Proof.
  intros Hwf. destruct (k_groups_shape t Hwf) as (Hl & HG & _). unfold k_code_rows.
  rewrite HG. apply permute102_wf in Hwf.
  pose proof (k_codes_tensor GROUP (t_tokens t) (t_dim t) _ ltac:(unfold GROUP; lia) Hwf) as HC.
  by rewrite permute102_length in HC.
Qed.

Lemma k_primary_length (F : nat → list (list f32) → list f32) (t : tensor3 f32) :
  (∀ g, length (F (t_dim t) g) = t_dim t) → wf_tensor3 t →
  length (k_primary F t) = (t_heads t * (k_group_count t * t_dim t))%nat.
Proof.
  intros HFl Hwf. destruct (k_groups_shape t Hwf) as (Hl & _ & HF). unfold k_primary.
  erewrite (length_concat_uniform (k_group_count t * t_dim t)); [by rewrite !length_map, Hl|].
  rewrite !Forall_map. eapply Forall_impl; [|exact HF]. intros l [Hll _]. cbv beta.
  erewrite (length_concat_uniform (t_dim t)); [by rewrite length_map, Hll|].
  rewrite Forall_map. apply List.Forall_forall. intros g _. apply HFl.
Qed.

(** The state [quantize_k3_sequence_affine_ref] returns. *)
Lemma k_quantize_ok `{!TorchFloatLaws TF} (t : tensor3 f32) :
  wf_tensor3 t → (0 < t_tokens t)%nat →
  quantize_k3_sequence_affine_ref t GROUP META_GROUP
  = (let n := (t_tokens t + pad_to GROUP (t_tokens t))%nat in
     let shape := [1; t_heads t; k_group_count t; 1; t_dim t]%nat in
     mn ← encode_metadata_uint8_group_ref (k_primary k_group_min t) shape META_GROUP;
     sc ← encode_metadata_uint8_group_ref (k_primary k_group_scale t) shape META_GROUP;
     Ok (mkK3State (mkTensor3 (t_heads t) (_kvquant_k3_packed_dim (t_dim t))
                      (map (map (stream_row 3 (_kvquant_k3_packed_dim (t_dim t)))) (k_code_rows t)))
           (t_tokens t, t_heads t, t_dim t) n (pad_to GROUP (t_tokens t)) GROUP mn sc)).
Proof.
  intros Hwf Hpos. unfold quantize_k3_sequence_affine_ref.
  destruct (Nat.eqb_spec (t_tokens t) 0); [lia|].
  destruct (Nat.eqb_spec GROUP 0) as [E|_]; [discriminate E|].
  cbn [raise_if]. rewrite !result_bind_ok. fold (k_groups t). fold (k_code_rows t).
  fold (k_primary k_group_min t) (k_primary k_group_scale t) (k_group_count t).
  by rewrite pack_int3_tensor by (by apply k_code_rows_tensor).
Qed.

(** What dequantizing that state shows: every group of every head takes its
    affine pairs from the META8 round trip of the whole primary tensor. *)
Definition k_decoded_meta (t : tensor3 f32) : list (list (list f32)) :=
  let pairs F := view3 (t_heads t) (k_group_count t) (t_dim t) (meta8_roundtrip (k_primary F t)) in
  permute102 (t_tokens t)
    (map (take (t_tokens t))
       (zip_with3 (λ g s m, concat (zip_with3 k_group_values g s m))
          (map (map (k_group_codes (t_dim t))) (k_groups t))
          (pairs k_group_scale) (pairs k_group_min))) [].

Lemma k_dequantize_quantize_meta `{!TorchFloatLaws TF} (t : tensor3 f32) (to : f32 → f32) :
  wf_tensor3 t → (0 < t_tokens t)%nat →
  ∃ st, quantize_k3_sequence_affine_ref t GROUP META_GROUP = Ok st
    ∧ dequantize_k3_sequence_affine_ref st to = Ok (map3 to (k_decoded_meta t)).
Proof.
  intros Hwf Hpos. destruct (k_groups_shape t Hwf) as (Hgl & HG & HF).
  rewrite k_quantize_ok by done. cbv zeta.
  set (shape := [1; t_heads t; k_group_count t; 1; t_dim t]%nat).
  destruct (decode_encode_metadata (k_primary k_group_min t) shape) as (mn & -> & Dmn).
  destruct (decode_encode_metadata (k_primary k_group_scale t) shape) as (sc & -> & Dsc).
  rewrite !result_bind_ok. eexists. split; [reflexivity|].
  unfold dequantize_k3_sequence_affine_ref.
  cbn [k_original_shape k_padded_tokens k_seq_group_size k_packed k_min k_scale t_dim].
  rewrite unpack_int3_tensor by (by apply k_code_rows_tensor).
  rewrite result_bind_ok. cbn [t_rows]. rewrite Dmn, Dsc. fold (k_group_count t).
  pose proof (permute102_wf _ _ _ Hwf) as Hxs.
  pose proof (k_codes_regroup GROUP (t_tokens t) (t_dim t) _ ltac:(unfold GROUP; lia) Hxs) as HR.
  rewrite permute102_length in HR. fold (k_groups t) (k_group_count t) in HR.
  rewrite <-HG in HR. fold (k_code_rows t) in HR. by rewrite HR.
Qed.

(** When the head size is a multiple of 64, metadata groups do not cross group
    rows and the round trip is local to each 32-token group. *)
Lemma k_decoded_meta_local (t : tensor3 f32) :
  wf_tensor3 t → (META_GROUP | t_dim t)%nat →
  k_decoded_meta t = k_decoded (t_heads t) (t_dim t) (t_rows t).
Proof.
  intros Hwf Hdiv. destruct (k_groups_shape t Hwf) as (Hgl & HG & HF). unfold k_decoded_meta.
  pose proof (meta8_roundtrip_rows (t_dim t) (k_group_min (t_dim t)) (k_groups t)
                (k_group_count t) Hdiv) as Rmn.
  pose proof (meta8_roundtrip_rows (t_dim t) (k_group_scale (t_dim t)) (k_groups t)
                (k_group_count t) Hdiv) as Rsc.
  rewrite Hgl in Rmn, Rsc. unfold k_primary. rewrite Rmn, Rsc; cycle 1.
  { eapply Forall_impl; [|exact HF]. intros l [Hl _]. split; [done|].
    apply List.Forall_forall. intros. apply k_group_scale_length. }
  { eapply Forall_impl; [|exact HF]. intros l [Hl _]. split; [done|].
    apply List.Forall_forall. intros. apply k_group_min_length. }
  unfold k_decoded. fold (t_tokens t). f_equal.
  pose proof (permute102_wf _ _ _ Hwf) as Hxs.
  rewrite zip_with3_maps, map_map. unfold k_groups. rewrite map_map. apply map_ext_in.
  intros head Hin. rewrite zip_with3_maps. unfold k_head_decoded.
  rewrite List.Forall_forall in Hxs. by destruct (Hxs head Hin) as [-> _].
Qed.

Lemma k_dequantize_quantize `{!TorchFloatLaws TF} (t : tensor3 f32) (to : f32 → f32) :
  wf_tensor3 t → (0 < t_tokens t)%nat → (META_GROUP | t_dim t)%nat →
  ∃ st, quantize_k3_sequence_affine_ref t GROUP META_GROUP = Ok st
    ∧ dequantize_k3_sequence_affine_ref st to
      = Ok (map3 to (k_decoded (t_heads t) (t_dim t) (t_rows t))).
Proof.
  intros Hwf Hpos Hdiv. destruct (k_dequantize_quantize_meta t to Hwf Hpos) as (st & Hq & Hd).
  exists st. split; [done|]. by rewrite Hd, k_decoded_meta_local.
Qed.

(** ** Distribution over a group-aligned prefix *)

Lemma k_head_decoded_app dim a b :
  (GROUP | length a)%nat →
  k_head_decoded dim (a ++ b) = k_head_decoded dim a ++ k_head_decoded dim b.
Proof.
  intros Ha. assert (0 < GROUP)%nat as Hg by (unfold GROUP; lia).
  unfold k_head_decoded, k_head_groups.
  rewrite length_app, pad_to_add, (pad_to_multiple _ (length a)) by done.
  rewrite app_nil_r, <-app_assoc, rows_of_app by done. rewrite map_app, concat_app.
  set (A := concat (map _ (rows_of GROUP a))). set (B := concat (map _ _)).
  assert (length A = length a) as HA.
  { unfold A. destruct Ha as [k Hk].
    assert (Forall (λ g, length g = GROUP) (rows_of GROUP a)) as HF.
    { apply view2_Forall_length. rewrite Hk, Nat.div_mul by lia. lia. }
    erewrite (length_concat_uniform GROUP).
    - rewrite length_map. unfold rows_of. rewrite view2_length, Hk, Nat.div_mul by lia. lia.
    - rewrite Forall_map. eapply Forall_impl; [|exact HF]. intros g Hgl. cbv beta.
      unfold k_group_decoded, k_group_values, k_group_codes. by rewrite !length_map. }
  rewrite take_app_add' by done. f_equal. by rewrite <-HA, firstn_all.
Qed.

Lemma k_decoded_app heads dim a b :
  (GROUP | length a)%nat → Forall (wf_row heads dim) a → Forall (wf_row heads dim) b →
  k_decoded heads dim (a ++ b) = k_decoded heads dim a ++ k_decoded heads dim b.
Proof.
  intros Hd Ha Hb. unfold k_decoded. rewrite length_app, permute102_app.
  assert (map (k_head_decoded dim) (zip_with app (permute102 heads a []) (permute102 heads b []))
          = zip_with app (map (k_head_decoded dim) (permute102 heads a []))
                         (map (k_head_decoded dim) (permute102 heads b []))) as ->.
  { apply permute102_wf in Ha. revert Ha. generalize (permute102 heads a []) (permute102 heads b []).
    intros xs ys Hx. revert ys. induction Hx as [|x xs [Hx _] _ IH]; intros [|y ys]; simpl; try done.
    rewrite IH. f_equal. apply k_head_decoded_app. by rewrite Hx. }
  apply permute102_zip_app; [by rewrite !length_map, !permute102_length|].
  rewrite Forall_map. eapply Forall_impl; [|by apply permute102_wf].
  intros x Hx. cbv beta. by apply k_head_decoded_wf in Hx as [? _].
Qed.

(** ** V: shapes *)

Lemma v_pad_dim_spec dv :
  v_pad_dim_of dv = (dv + pad_to GROUP dv)%nat
  ∧ (v_pad_dim_of dv / GROUP = v_groups_of dv)%nat ∧ (dv ≤ v_pad_dim_of dv)%nat.
Proof.
  unfold v_pad_dim_of, v_groups_of, GROUP.
  destruct (pad_to_spec 32 dv ltac:(lia)) as [H0 Hp].
  apply Nat.Lcm0.mod_divide in H0 as [q Hq].
  assert ((dv + 31) / 32 = q)%nat as ->.
  { symmetry. apply (Nat.div_unique _ 32 _ (31 - pad_to 32 dv)); lia. }
  rewrite Nat.div_mul by lia. lia.
Qed.

Lemma v_row_groups_spec dv row :
  length row = dv →
  length (v_row_groups GROUP (v_pad_dim_of dv) row) = v_groups_of dv
  ∧ Forall (λ g, length g = GROUP) (v_row_groups GROUP (v_pad_dim_of dv) row).
Proof.
  intros Hl. destruct (v_pad_dim_spec dv) as (_ & HG & Hle).
  unfold v_row_groups. rewrite HG. split; [apply view2_length|].
  apply view2_Forall_length. rewrite length_app, length_replicate.
  unfold v_pad_dim_of, v_groups_of, GROUP in *. lia.
Qed.

Lemma v_row_codes_ok `{!TorchFloatLaws TF} dv row :
  length row = dv →
  length (v_row_codes GROUP (v_pad_dim_of dv) row) = v_pad_dim_of dv
  ∧ Forall (code_ok 2) (v_row_codes GROUP (v_pad_dim_of dv) row).
Proof.
  intros Hl. destruct (v_row_groups_spec dv row Hl) as [HG HF]. unfold v_row_codes. split.
  - erewrite (length_concat_uniform GROUP).
    + rewrite length_map, HG. reflexivity.
    + rewrite Forall_map. eapply Forall_impl; [|exact HF]. intros g Hg. cbv beta.
      unfold v_group_codes. by rewrite length_map.
  - apply Forall_concat. rewrite Forall_map. apply List.Forall_forall. intros g _.
    unfold v_group_codes. rewrite Forall_map. apply List.Forall_forall. intros x _.
    pose proof (affine_code_range 3 (amin g) (v_group_scale g) x ltac:(lia)).
    unfold code_ok. simpl. lia.
Qed.

Lemma v_row_min_length dv row :
  length row = dv → length (v_row_min GROUP (v_pad_dim_of dv) row) = v_groups_of dv.
Proof. intros H. unfold v_row_min. rewrite length_map. by apply v_row_groups_spec. Qed.

Lemma v_row_scale_length dv row :
  length row = dv → length (v_row_scale GROUP (v_pad_dim_of dv) row) = v_groups_of dv.
Proof. intros H. unfold v_row_scale. rewrite length_map. by apply v_row_groups_spec. Qed.

Lemma map_map_wf {A B} (g : list A → list B) h d d' (rows : list (list (list A))) :
  (∀ r, length r = d → length (g r) = d') →
  Forall (wf_row h d) rows → Forall (wf_row h d') (map (map g) rows).
Proof.
  intros Hg H. rewrite Forall_map. eapply Forall_impl; [|exact H]. intros tok [Hl Hr].
  split; [by rewrite length_map|]. rewrite Forall_map. eapply Forall_impl; [|exact Hr]. apply Hg.
Qed.

Lemma v_mins_wf h dv rows : Forall (wf_row h dv) rows → Forall (wf_row h (v_groups_of dv)) (v_mins dv rows).
Proof. apply map_map_wf, v_row_min_length. Qed.

Lemma v_scales_wf h dv rows :
  Forall (wf_row h dv) rows → Forall (wf_row h (v_groups_of dv)) (v_scales dv rows).
Proof. apply map_map_wf, v_row_scale_length. Qed.

Lemma v_codes_tensor `{!TorchFloatLaws TF} h dv rows :
  Forall (wf_row h dv) rows → code_tensor 2 h (v_pad_dim_of dv) (v_codes dv rows).
Proof.
  intros H. unfold code_tensor, v_codes. rewrite Forall_map. eapply Forall_impl; [|exact H].
  intros tok [Hl Hr]. split; [by rewrite length_map|]. unfold code_rows. rewrite Forall_map.
  eapply Forall_impl; [|exact Hr]. intros r. apply v_row_codes_ok.
Qed.

Lemma flat_app {A} (a b : list (list (list A))) : flat (a ++ b) = flat a ++ flat b.
Proof. unfold flat. by rewrite map_app, concat_app. Qed.

Lemma flat_length {A} h d (rows : list (list (list A))) :
  Forall (wf_row h d) rows → length (flat rows) = (length rows * (h * d))%nat.
Proof.
  intros H. unfold flat. erewrite (length_concat_uniform (h * d)); [by rewrite length_map|].
  rewrite Forall_map. eapply Forall_impl; [|exact H]. intros tok [Hl Hr].
  cbv beta. erewrite length_concat_uniform by exact Hr. by rewrite Hl.
Qed.

(** ** V: quantize and dequantize *)

Definition v_packed_rows (dv : nat) (rows : list (list (list f32))) : list (list (list Z)) :=
  map (map (stream_row 2 ((v_pad_dim_of dv * 2 + 7) / 8))) (v_codes dv rows).

Lemma v_primary_quantize `{!TorchFloatLaws TF} h dv rows :
  Forall (wf_row h dv) rows →
  _quantize_v2_primary_ref (mkTensor3 h dv rows) GROUP
  = Ok (mkTensor3 h ((v_pad_dim_of dv * 2 + 7) / 8) (v_packed_rows dv rows),
        mkTensor3 h (v_groups_of dv) (v_mins dv rows),
        mkTensor3 h (v_groups_of dv) (v_scales dv rows), v_pad_dim_of dv).
Proof.
  intros H. unfold _quantize_v2_primary_ref. cbn [t_heads t_dim t_rows].
  change ((dv + GROUP - 1) / GROUP * GROUP)%nat with ((dv + 32 - 1) / 32 * 32)%nat.
  replace (dv + 32 - 1)%nat with (dv + 31)%nat by lia. fold (v_pad_dim_of dv).
  rewrite pack_int2_tensor by (by apply v_codes_tensor). rewrite result_bind_ok.
  by destruct (v_pad_dim_spec dv) as (_ & -> & _).
Qed.

Lemma v_primary_dequantize `{!TorchFloatLaws TF} h dv rows mins scales to :
  Forall (wf_row h dv) rows →
  _dequantize_v2_from_primary_ref
    (mkTensor3 h ((v_pad_dim_of dv * 2 + 7) / 8) (v_packed_rows dv rows))
    (mkTensor3 h (v_groups_of dv) mins) (mkTensor3 h (v_groups_of dv) scales) dv GROUP to
  = Ok (map3 to (v_tensor_values GROUP dv (v_codes dv rows) scales mins)).
Proof.
  intros H. unfold _dequantize_v2_from_primary_ref. cbn [t_heads t_dim t_rows].
  change (v_groups_of dv * GROUP)%nat with (v_pad_dim_of dv).
  unfold v_packed_rows. rewrite unpack_int2_tensor by (by apply v_codes_tensor). done.
Qed.

Lemma v_dequantize_quantize `{!TorchFloatLaws TF} (t : tensor3 f32) (to : f32 → f32) :
  wf_tensor3 t → (0 < t_tokens t)%nat →
  ∃ st, quantize_v2_group_affine_ref t GROUP META_GROUP = Ok st
    ∧ dequantize_v2_group_affine_ref st to
      = Ok (map3 to (v_decoded (t_heads t) (t_dim t) (t_rows t))).
Proof.
  destruct t as [h dv rows]. unfold wf_tensor3, t_tokens. cbn [t_heads t_dim t_rows].
  intros Hwf Hpos. destruct (v_pad_dim_spec dv) as (Hpd & HG & _).
  set (shape := [length rows; h; v_groups_of dv; 1]%nat).
  destruct (decode_encode_metadata (flat (v_mins dv rows)) shape) as (mn & Emn & Dmn).
  destruct (decode_encode_metadata (flat (v_scales dv rows)) shape) as (sc & Esc & Dsc).
  unfold quantize_v2_group_affine_ref, t_tokens. cbn [t_heads t_dim t_rows].
  destruct (Nat.eqb_spec (length rows) 0); [lia|].
  destruct (Nat.eqb_spec GROUP 0) as [E|_]; [discriminate E|].
  cbn [raise_if]. rewrite !result_bind_ok, <-Hpd, HG.
  fold (v_codes dv rows) (v_mins dv rows) (v_scales dv rows) shape.
  fold (flat (v_mins dv rows)) (flat (v_scales dv rows)).
  rewrite pack_int2_tensor by (by apply v_codes_tensor). fold (v_packed_rows dv rows).
  rewrite result_bind_ok, Emn, result_bind_ok, Esc, result_bind_ok.
  eexists. split; [reflexivity|].
  unfold dequantize_v2_group_affine_ref.
  cbn [v_original_shape v_padded_dim v_group_size v_packed v_min v_scale t_dim].
  unfold v_packed_rows. rewrite unpack_int2_tensor by (by apply v_codes_tensor).
  rewrite result_bind_ok, HG, Dmn, Dsc. done.
Qed.

(** ** V: distribution over a metadata-aligned prefix *)

Lemma meta_view_app n1 n2 h g p1 p2 :
  length p1 = n1 → Forall (wf_row h g) p1 → (META_GROUP | n1 * (h * g))%nat →
  meta_view (n1 + n2) h g (p1 ++ p2) = meta_view n1 h g p1 ++ meta_view n2 h g p2.
Proof.
  intros Hl Hw Hd. unfold meta_view.
  assert (length (flat p1) = n1 * (h * g))%nat as Hf by (erewrite flat_length by done; by rewrite Hl).
  rewrite flat_app, meta8_roundtrip_app by (by rewrite Hf).
  apply view3_app. by rewrite meta8_roundtrip_length.
Qed.

Lemma meta_view_length n h g p : length (meta_view n h g p) = n.
Proof. unfold meta_view, view3. by rewrite length_map, view2_length. Qed.

Lemma v_decoded_app heads dv a b :
  (META_GROUP | length a * (heads * v_groups_of dv))%nat → Forall (wf_row heads dv) a →
  v_decoded heads dv (a ++ b) = v_decoded heads dv a ++ v_decoded heads dv b.
Proof.
  intros Hd Ha. unfold v_decoded, v_codes, v_mins, v_scales.
  rewrite length_app, !map_app, !meta_view_app; try done.
  - apply zip_with3_app; by rewrite ?length_map, !meta_view_length.
  - apply length_map.
  - by apply v_mins_wf.
  - apply length_map.
  - by apply v_scales_wf.
Qed.

Lemma v_decoded_length heads dv rows : length (v_decoded heads dv rows) = length rows.
Proof.
  unfold v_decoded, v_tensor_values. apply zip_with3_length; 
    [unfold v_codes; apply length_map|apply meta_view_length..].
Qed.

(** ** The whole-prefix oracle *)

(** A value stored as BF16 and read back as float32. *)
Definition bf16_rounded (x : f32) : f32 := f32_of_bf16 (bf16_of_f32 x).

Definition residual_count (n : nat) : nat := n `min` RESIDUAL.

(** What the oracle shows for the keys of a prefix: all but the newest four
    tokens quantized together, the newest four at BF16. *)
Definition oracle_k (heads dim : nat) (rows : list (list (list f32))) : list (list (list f32)) :=
  let old := (length rows - residual_count (length rows))%nat in
  k_decoded heads dim (take old rows) ++ map3 bf16_rounded (drop old rows).

Definition oracle_v (heads dv : nat) (rows : list (list (list f32))) : list (list (list f32)) :=
  let old := (length rows - residual_count (length rows))%nat in
  v_decoded heads dv (take old rows) ++ map3 bf16_rounded (drop old rows).

Lemma map3_app {A B} (f : A → B) a b : map3 f (a ++ b) = map3 f a ++ map3 f b.
Proof. apply map_app. Qed.

Lemma map3_map3 {A B C} (g : B → C) (f : A → B) rows : map3 g (map3 f rows) = map3 (λ x, g (f x)) rows.
Proof.
  unfold map3. rewrite map_map. apply map_ext. intros tok. rewrite map_map. apply map_ext.
  intros r. apply map_map.
Qed.

Lemma bf16_to_store to rows : bf16_to to (map3 bf16_of_f32 rows) = map3 to (map3 bf16_rounded rows).
Proof. unfold bf16_to. by rewrite !map3_map3. Qed.

Lemma k_decoded_nil heads dim : k_decoded heads dim [] = [].
Proof. reflexivity. Qed.

Lemma v_decoded_nil heads dv : v_decoded heads dv [] = [].
Proof. reflexivity. Qed.

Lemma shape_eqb_spec {A B} (a : tensor3 A) (b : tensor3 B) :
  shape_eqb a b = true ↔ t_tokens a = t_tokens b ∧ t_heads a = t_heads b ∧ t_dim a = t_dim b.
Proof. unfold shape_eqb. rewrite !andb_true_iff, !Nat.eqb_eq. tauto. Qed.

Lemma wf_tensor3_take {A} n (t : tensor3 A) : wf_tensor3 t → wf_tensor3 (t_take n t).
Proof. intros H. by apply Forall_take. Qed.

Lemma whole_prefix_spec `{!TorchFloatLaws TF} (key value : tensor3 f32) (to : f32 → f32) :
  wf_tensor3 key → wf_tensor3 value → shape_eqb key value = true → (META_GROUP | t_dim key)%nat →
  ∃ st, quantize_rabit2_kv_ref key value RESIDUAL GROUP META_GROUP = Ok st
    ∧ kv_old_count st = (t_tokens key - 4 `min` t_tokens key)%nat
    ∧ dequantize_rabit2_kv_ref st to
      = Ok (map3 to (oracle_k (t_heads key) (t_dim key) (t_rows key)),
            map3 to (oracle_v (t_heads value) (t_dim value) (t_rows value))).
Proof.
  intros Hk Hv Hs Hd. pose proof Hs as (Ht & Hh & Hdim)%shape_eqb_spec.
  unfold quantize_rabit2_kv_ref. rewrite Hs. cbn [negb raise_if]. rewrite result_bind_ok.
  unfold oracle_k, oracle_v, residual_count. fold (t_tokens key) (t_tokens value). rewrite <-Ht.
  set (old := (t_tokens key - t_tokens key `min` RESIDUAL)%nat).
  assert (old = t_tokens key - 4 `min` t_tokens key)%nat as Hold by (unfold old, RESIDUAL; lia).
  rewrite !map3_app, <-!bf16_to_store.
  destruct (Nat.eqb_spec old 0) as [E|E].
  - rewrite !result_bind_ok. eexists. split; [reflexivity|]. split; [done|].
    unfold dequantize_rabit2_kv_ref. cbn [kv_old_count kv_recent_k kv_recent_v].
    rewrite E. cbn [Nat.eqb]. by rewrite result_bind_ok.
  - assert (t_tokens (t_take old key) = old ∧ t_tokens (t_take old value) = old) as [Ok_ Ov_].
    { unfold t_tokens, t_take in *. cbn [t_rows]. rewrite !length_take.
      unfold old in *. lia. }
    destruct (k_dequantize_quantize (t_take old key) to) as (ks & Eks & Dks);
      [by apply wf_tensor3_take|lia|done|].
    destruct (v_dequantize_quantize (t_take old value) to) as (vs & Evs & Dvs);
      [by apply wf_tensor3_take|lia|].
    rewrite Eks, Evs. cbn [fmap result_fmap]. rewrite !result_bind_ok.
    eexists. split; [reflexivity|]. split; [done|].
    unfold dequantize_rabit2_kv_ref. cbn [kv_old_count kv_recent_k kv_recent_v kv_old_k kv_old_v].
    destruct (Nat.eqb_spec old 0); [done|]. by rewrite Dks, result_bind_ok, Dvs, !result_bind_ok.
Qed.

(** The whole-prefix reference.  Two well-formed tensors of one shape whose
    head size is a multiple of 64 are always quantized, the state keeps
    [tokens - min(tokens, 4)] old tokens, and dequantizing it gives exactly the
    grouped K3/META8 and V2/META8 decoding of those old tokens followed by the
    BF16 rounding of the newest four. *)
Theorem whole_prefix_roundtrip `{!TorchFloatLaws TF} (key value : tensor3 f32) (to : f32 → f32) :
  wf_tensor3 key → wf_tensor3 value → shape_eqb key value = true → (META_GROUP | t_dim key)%nat →
  ∃ st, quantize_rabit2_kv_ref key value RESIDUAL GROUP META_GROUP = Ok st
    ∧ kv_old_count st = (t_tokens key - 4 `min` t_tokens key)%nat
    ∧ dequantize_rabit2_kv_ref st to
      = Ok (map3 to (oracle_k (t_heads key) (t_dim key) (t_rows key)),
            map3 to (oracle_v (t_heads value) (t_dim value) (t_rows value))).
Proof. apply whole_prefix_spec. Qed.
End Decoded.

(** Constant test tensors. *)
Definition const_tensor (n h d : nat) (v : Z) : tensor3 f32 :=
  mkTensor3 h d (replicate n (replicate h (replicate d (f32_of_int v)))).

Lemma const_tensor_wf n h d v : wf_tensor3 (const_tensor n h d v).
Proof.
  apply Forall_replicate. split; [apply length_replicate|].
  apply Forall_replicate, length_replicate.
Qed.

(** On six tokens of one head of 64 channels. *)
Lemma whole_prefix_roundtrip_witness :
  ∃ st, quantize_rabit2_kv_ref (const_tensor 6 1 64 3) (const_tensor 6 1 64 (-2))
          RESIDUAL GROUP META_GROUP = Ok st
    ∧ kv_old_count st = 2%nat
    ∧ dequantize_rabit2_kv_ref st (λ x, x)
      = Ok (map3 (λ x, x) (oracle_k 1 64 (t_rows (const_tensor 6 1 64 3))),
            map3 (λ x, x) (oracle_v 1 64 (t_rows (const_tensor 6 1 64 (-2))))).
Proof.
  apply (whole_prefix_roundtrip (const_tensor 6 1 64 3) (const_tensor 6 1 64 (-2)) (λ x, x));
    [apply const_tensor_wf|apply const_tensor_wf|reflexivity|by exists 1%nat].
Defined.
