(* ===== verification/QuantFast.v ===== *)
(** * The V2 quantizer in force on CUDA

    [rabit_kv2.py] binds [_quantize_v2_primary_ref] a second time: one bfloat16 token of
    eight heads of 128 channels takes a path of two compiled functions, and every other
    value the first binding ([Quant._quantize_v2_primary_ref], which the rest of the
    development calls).  [torch.compile] is taken to compute what the function it compiles
    computes, and [clone] to copy.  The path is the first binding exactly
    ([quantize_paths_agree]), so that the development may call that one. *)

From Stdlib Require Import ZArith Lia.
From stdpp Require Import base tactics numbers list option.
From S2P Require Import Prelude Torch SpecFloatTorch BitPack Meta Quant Tab Decoded FixedTorch.

Section Fast.
Context `{TF : TorchFloat}.

(** [_rabit2_stage4b2_stats_8x128]: the values, the minimum and the scale of each group. *)
Definition _rabit2_stage4b2_stats_8x128 (value : tensor3 f32) : list f32 * tensor3 f32 * tensor3 f32 :=
  let x := flatten3 value in
  let grouped := view3 8 4 32 x in
  let q_min := map (map amin) grouped in
  let q_max := map (map amax) grouped in
  let scale := zip_with (zip_with (affine_scale f32_abs_lt_1e8 3)) q_min q_max in
  (x, mkTensor3 8 4 [q_min], mkTensor3 8 4 [scale]).

(** [_rabit2_stage4b2_pack_8x128]: four codes to a byte, in 8-bit arithmetic. *)
Definition _rabit2_stage4b2_pack_8x128 (codes : list Z) : tensor3 Z :=
  let c := view3 8 32 4 codes in
  mkTensor3 8 32 [map (map (λ q, v2_byte (nth 0 q 0) (nth 1 q 0) (nth 2 q 0) (nth 3 q 0))%Z) c].

(** The second [_quantize_v2_primary_ref]; [is_cuda] and [is_bf16] are of the value. *)
Definition _quantize_v2_primary_stage4b2 (is_cuda is_bf16 : bool) (value : tensor3 f32) (group_size : nat) :
    result (tensor3 Z * tensor3 f32 * tensor3 f32 * nat) :=
  if is_cuda && is_bf16 && ((t_tokens value =? 1) && (t_heads value =? 8) && (t_dim value =? 128) && (group_size =? 32))%nat then
    let '(x, q_min, scale) := _rabit2_stage4b2_stats_8x128 value in
    let grouped := view3 8 4 32 x in
    let codes := zip_with3 (zip_with3 (λ g m s, map (affine_code 3 m s) g)) grouped (concat (t_rows q_min)) (concat (t_rows scale)) in
    let packed := _rabit2_stage4b2_pack_8x128 (concat (map concat codes)) in
    Ok (packed, q_min, scale, 128%nat)
  else _quantize_v2_primary_ref value group_size.

(** ** The rows of the path *)

Lemma flat_rows (tok : list (list f32)) : wf_row 8 128 tok → view3 8 4 32 (flatten3 (mkTensor3 8 128 [tok])) = map (view2 4 32) tok.
Proof.
  intros [Hl Hr]. unfold flatten3, view3. cbn [t_rows map concat]. rewrite app_nil_r. change (4 * 32)%nat with 128%nat.
  by rewrite (view2_concat 8 128 tok Hl Hr).
Qed.

Lemma row_groups row : length row = 128%nat → v_row_groups 32 128 row = view2 4 32 row.
Proof. intros H. unfold v_row_groups. rewrite H, Nat.sub_diag. cbn [replicate]. by rewrite app_nil_r. Qed.

(** The bytes of a row are those of the reference packer. *)
Lemma packed_quads c : length c = 128%nat → Forall (code_ok 2) c →
  map (λ q, v2_byte (nth 0 q 0) (nth 1 q 0) (nth 2 q 0) (nth 3 q 0))%Z (view2 32 4 c) = stream_row 2 32 c.
Proof.
  intros Hl Hc. rewrite <-v2_pack_row_stream by done. rewrite (view2_tab 32 4 c 0%Z) by done. rewrite map_tab. unfold v2_pack_row, tab.
  apply map_ext. intros b. cbn [seq map nth]. by rewrite Nat.mul_comm, Nat.add_0_r.
Qed.

Lemma packed_rows rows : Forall (λ c, length c = 128%nat ∧ Forall (code_ok 2) c) rows → length rows = 8%nat →
  _rabit2_stage4b2_pack_8x128 (concat rows) = mkTensor3 8 32 [map (stream_row 2 32) rows].
Proof.
  intros H Hl. unfold _rabit2_stage4b2_pack_8x128, view3. change (32 * 4)%nat with 128%nat. rewrite (view2_concat 8 128 rows Hl).
  - do 2 f_equal. rewrite map_map. apply map_ext_in. intros c Hc. rewrite List.Forall_forall in H. destruct (H c Hc) as [H1 H2].
    by apply packed_quads.
  - eapply Forall_impl; [|exact H]. by intros c [].
Qed.
End Fast.

(** C19: the second binding of the quantizer is the first.  On a CUDA device one bfloat16 token of
    eight heads of 128 channels is quantized by [_rabit2_stage4b2_stats_8x128] and packed by
    [_rabit2_stage4b2_pack_8x128]; the packed bytes, the minima, the scales and the padded
    size are those of the reference, as they are, by the dispatch, for every other value. *)
Theorem quantize_paths_agree `{TF : TorchFloat} `{!TorchFloatLaws TF} is_cuda is_bf16 value group_size :
  wf_tensor3 value → _quantize_v2_primary_stage4b2 is_cuda is_bf16 value group_size = _quantize_v2_primary_ref value group_size.
Proof.
  intros Hwf. unfold _quantize_v2_primary_stage4b2. destruct (_ && _) eqn:E; [|done].
  apply andb_true_iff in E as [_ E]. rewrite !andb_true_iff, !Nat.eqb_eq in E. destruct E as [[[E1 E2] E3] ->].
  destruct value as [h d rows]. cbn in E1, E2, E3. subst h d. destruct rows as [|tok [|tok' rows]]; try done.
  apply Forall_inv in Hwf. cbn in Hwf. unfold _rabit2_stage4b2_stats_8x128. rewrite flat_rows by done. cbn [t_rows concat].
  rewrite !app_nil_r. pose proof Hwf as [Hl Hr].
  assert (∀ row, row ∈ tok → v_row_groups 32 128 row = view2 4 32 row) as Hg
    by (intros row Hrow; apply row_groups; rewrite List.Forall_forall in Hr; by apply Hr, list_elem_of_In).
  rewrite !map_map, zip_with_map.
  rewrite (map_ext (λ row : list f32, zip_with (affine_scale f32_abs_lt_1e8 3) (map amin (view2 4 32 row)) (map amax (view2 4 32 row)))
    (λ row, map v_group_scale (view2 4 32 row))) by (intros row; by rewrite zip_with_map).
  rewrite zip_with3_maps, map_map.
  rewrite (map_ext_in _ (v_row_codes 32 128) tok).
  2:{ intros row Hrow. rewrite <-(map_id (view2 4 32 row)) at 1. rewrite zip_with3_maps. unfold v_row_codes. rewrite Hg by (by apply list_elem_of_In). done. }
  assert (Forall (λ c, length c = 128%nat ∧ Forall (code_ok 2) c) (map (v_row_codes 32 128) tok)) as Hcodes.
  { rewrite Forall_map. eapply Forall_impl; [|exact Hr]. intros row Hrow. exact (v_row_codes_ok 128 row Hrow). }
  rewrite packed_rows by (done || by rewrite length_map). unfold _quantize_v2_primary_ref. cbn [t_heads t_dim t_rows].
  change ((128 + 32 - 1) / 32 * 32)%nat with 128%nat. change (128 / 32)%nat with 4%nat.
  rewrite pack_int2_tensor, result_bind_ok.
  - change ((128 * 2 + 7) / 8)%nat with 32%nat. cbn [map].
    rewrite (map_ext_in (v_row_min 32 128) (λ row, map amin (view2 4 32 row)) tok), (map_ext_in (v_row_scale 32 128) (λ row, map v_group_scale (view2 4 32 row)) tok);
      [done|intros row Hrow..]; (unfold v_row_min || unfold v_row_scale); by rewrite Hg by (by apply list_elem_of_In).
  - constructor; [|constructor]. split; [by rewrite length_map|exact Hcodes].
Qed.

Section Concrete.
#[local] Existing Instance FixedTorch.
#[local] Existing Instance FixedTorch_laws.

Definition sample_token : tensor3 Z := mkTensor3 8 128 [tab 8 (λ h, tab 128 (λ c, Z.of_nat ((7 * h + 3 * c) mod 97)))].

Lemma sample_wf : wf_tensor3 sample_token.
Proof. constructor; [|constructor]. split; [by rewrite tab_length|]. by repeat (constructor; [by rewrite tab_length|]). Qed.

(** C19: a token that takes the path. *)
Lemma quantize_paths_agree_witness :
  _quantize_v2_primary_stage4b2 true true sample_token 32 = _quantize_v2_primary_ref sample_token 32.
Proof. exact (quantize_paths_agree true true sample_token 32 sample_wf). Defined.
End Concrete.
