(* ===== verification/Page.v ===== *)
(** * The physical page codec

    [encode_rabit2_page_ref] and [decode_rabit2_page_ref] of [rabit_kv2.py], and
    the writers that build a page from an open group's primary components:
    [Rabit2OnlineStateRef._encode_open_page_exact],
    [Rabit2SingleSequenceRuntime._closed_page_exact] and
    [_rabit2_stage4b4_encode_page_from_primary].  A page is a list of bytes
    (integers); a slice assignment requires equal lengths, as in torch. *)

From Stdlib Require Import ZArith Lia.
From stdpp Require Import base tactics numbers list option.
From S2P Require Import Prelude Layout Torch SpecFloatTorch BitPack Meta Quant Decoded.

(** ** Regions of a page *)

(** [page[offset : offset + size]] *)
Definition region (page : list Z) (offset size : Z) : list Z :=
  slice (Z.to_nat offset) (Z.to_nat (offset + size)) page.

(** [page[offset : offset + size] = blob] *)
Definition store_region (page : list Z) (offset size : Z) (blob : list Z) : result (list Z) :=
  _ ← raise_if (negb (length (region page offset size) =? length blob)%nat) RuntimeError;
  Ok (take (Z.to_nat offset) page ++ blob ++ drop (Z.to_nat offset + length blob) page).

(** The loop [for name, offset, size in (...)]: a size check and a store per
    region. *)
Fixpoint store_parts (err : exn) (parts : list (Z * Z * list Z)) (page : list Z) :
    result (list Z) :=
  match parts with
  | [] => Ok page
  | (offset, size, blob) :: parts' =>
      _ ← raise_if (negb (Z.of_nat (length blob) =? size)%Z) err;
      page' ← store_region page offset size blob;
      store_parts err parts' page'
  end.

Definition page_parts (layout : Rabit2PageLayout)
    (k_payload v_payload k_min_blob k_scale_blob v_min_blob v_scale_blob : list Z) :
    list (Z * Z * list Z) :=
  [ (k_payload_offset layout, k_payload_bytes layout, k_payload);
    (v_payload_offset layout, v_payload_bytes layout, v_payload);
    (k_min_offset layout, k_min_bytes layout, k_min_blob);
    (k_scale_offset layout, k_scale_bytes layout, k_scale_blob);
    (v_min_offset layout, v_min_bytes layout, v_min_blob);
    (v_scale_offset layout, v_scale_bytes layout, v_scale_blob) ].

Definition zero_page (layout : Rabit2PageLayout) : list Z :=
  replicate (Z.to_nat (page_bytes layout)) 0%Z.

(** [tensor.reshape(a, b, c)] of a flat byte region. *)
Definition reshape3 (a b c : nat) (bytes : list Z) : result (tensor3 Z) :=
  _ ← raise_if (negb (length bytes =? a * b * c)%nat) RuntimeError;
  Ok (mkTensor3 b c (view3 a b c bytes)).

Section Page.
Context `{TF : TorchFloat}.

Definition encode_rabit2_page_ref (key value : tensor3 f32) (layout : option Rabit2PageLayout) :
    result (list Z) :=
  _ ← raise_if (negb (shape_eqb key value)) ValueError;
  let tokens := Z.of_nat (t_tokens key) in
  let heads := Z.of_nat (t_heads key) in
  let head_dim := Z.of_nat (t_dim key) in
  layout ← match layout with
           | Some l => Ok l
           | None => rabit2_page_layout tokens heads head_dim (Some (Z.of_nat (t_dim value)))
           end;
  _ ← raise_if (negb (tokens =? block_size layout)%Z) ValueError;
  _ ← raise_if (negb (heads =? num_kv_heads layout)%Z
                || negb (head_dim =? head_size_k layout)%Z) ValueError;
  _ ← raise_if (negb (Z.of_nat (t_dim value) =? head_size_v layout)%Z) ValueError;
  k_state ← quantize_k3_sequence_affine_ref key GROUP META_GROUP;
  v ← _quantize_v2_primary_ref value GROUP;
  let '(v_packed, v_min_primary, v_scale_primary, _) := v in
  let meta_shape := [t_tokens v_min_primary; t_heads v_min_primary; t_dim v_min_primary; 1]%nat in
  v_min ← encode_metadata_uint8_group_ref (flatten3 v_min_primary) meta_shape META_GROUP;
  v_scale ← encode_metadata_uint8_group_ref (flatten3 v_scale_primary) meta_shape META_GROUP;
  let parts := page_parts layout (flatten3 (k_packed k_state)) (flatten3 v_packed)
                 (encode_metadata_blob_ref (k_min k_state))
                 (encode_metadata_blob_ref (k_scale k_state))
                 (encode_metadata_blob_ref v_min) (encode_metadata_blob_ref v_scale) in
  _ ← raise_if (existsb (λ p, negb (Z.of_nat (length p.2) =? p.1.2)%Z) parts) ValueError;
  store_parts ValueError parts (zero_page layout).

(** The shared body of the three writers from primary components; [err] is the
    exception class of the size check. *)
Definition encode_page_from_metas (err : exn) (layout : Rabit2PageLayout)
    (key_page : tensor3 f32) (v_packed : tensor3 Z) (v_min_meta v_scale_meta : Meta8) :
    result (list Z) :=
  k_state ← quantize_k3_sequence_affine_ref key_page GROUP META_GROUP;
  store_parts err
    (page_parts layout (flatten3 (k_packed k_state)) (flatten3 v_packed)
       (encode_metadata_blob_ref (k_min k_state)) (encode_metadata_blob_ref (k_scale k_state))
       (encode_metadata_blob_ref v_min_meta) (encode_metadata_blob_ref v_scale_meta))
    (zero_page layout).

(** [encode_metadata_uint8_group_ref] of a [tokens x heads x groups x 1] tensor. *)
Definition encode_v_meta (t : tensor3 f32) : result Meta8 :=
  encode_metadata_uint8_group_ref (flatten3 t) [t_tokens t; t_heads t; t_dim t; 1]%nat META_GROUP.

Definition encode_page_from_primary (err : exn) (layout : Rabit2PageLayout)
    (key_page : tensor3 f32) (v_packed : tensor3 Z) (v_min v_scale : tensor3 f32) :
    result (list Z) :=
  v_min_meta ← encode_v_meta v_min;
  v_scale_meta ← encode_v_meta v_scale;
  encode_page_from_metas err layout key_page v_packed v_min_meta v_scale_meta.

Definition _rabit2_stage4b4_encode_page_from_primary :=
  encode_page_from_primary RuntimeError.

Definition decode_rabit2_page_ref (page : list Z) (layout : Rabit2PageLayout) (to : f32 → f32) :
    result (list (list (list f32)) * list (list (list f32))) :=
  _ ← raise_if (negb (Z.of_nat (length page) =? page_bytes layout)%Z) ValueError;
  k_packed_dim ← rabit2_packed_dim (head_size_k layout) 3;
  let v_padded_dim := ((head_size_v layout + RABIT2_GROUP_SIZE - 1) / RABIT2_GROUP_SIZE
                       * RABIT2_GROUP_SIZE)%Z in
  v_packed_dim ← rabit2_packed_dim v_padded_dim 2;
  let n := Z.to_nat (block_size layout) in
  let h := Z.to_nat (num_kv_heads layout) in
  let dk := Z.to_nat (head_size_k layout) in
  let v_groups := Z.to_nat (v_padded_dim / RABIT2_GROUP_SIZE) in
  k_packed ← reshape3 n h (Z.to_nat k_packed_dim)
               (region page (k_payload_offset layout) (k_payload_bytes layout));
  v_packed ← reshape3 n h (Z.to_nat v_packed_dim)
               (region page (v_payload_offset layout) (v_payload_bytes layout));
  let k_primary_shape := [1; h; n / GROUP; 1; dk]%nat in
  let v_primary_shape := [n; h; v_groups; 1]%nat in
  k_min ← decode_metadata_blob_ref (region page (k_min_offset layout) (k_min_bytes layout))
            k_primary_shape META_GROUP;
  k_scale ← decode_metadata_blob_ref (region page (k_scale_offset layout) (k_scale_bytes layout))
              k_primary_shape META_GROUP;
  v_min_meta ← decode_metadata_blob_ref (region page (v_min_offset layout) (v_min_bytes layout))
                 v_primary_shape META_GROUP;
  v_scale_meta ← decode_metadata_blob_ref (region page (v_scale_offset layout) (v_scale_bytes layout))
                   v_primary_shape META_GROUP;
  key ← dequantize_k3_sequence_affine_ref
          (mkK3State k_packed (n, h, dk) n 0 GROUP k_min k_scale) to;
  let v_view m := mkTensor3 h v_groups (view3 n h v_groups (decode_metadata_uint8_group_ref m)) in
  value ← _dequantize_v2_from_primary_ref v_packed (v_view v_min_meta) (v_view v_scale_meta)
            (Z.to_nat (head_size_v layout)) GROUP to;
  Ok (key, value).
End Page.

(** ** Storing and reading consecutive regions *)

Fixpoint consecutive (o : nat) (parts : list (Z * Z * list Z)) : Prop :=
  match parts with
  | [] => True
  | (offset, size, blob) :: parts' =>
      offset = Z.of_nat o ∧ size = Z.of_nat (length blob) ∧ consecutive (o + length blob) parts'
  end.

Lemma region_mid pre b post page o s :
  page = pre ++ b ++ post → o = Z.of_nat (length pre) → s = Z.of_nat (length b) →
  region page o s = b.
Proof.
  intros -> -> ->. unfold region, slice. rewrite <-Nat2Z.inj_add, !Nat2Z.id.
  rewrite drop_app_length' by done. rewrite take_app_length' by lia. done.
Qed.

(** Consecutive parts overwrite the bytes between [pre] and [post]. *)
Lemma store_parts_between err parts pre mid post :
  consecutive (length pre) parts → length mid = length (concat (map snd parts)) →
  store_parts err parts (pre ++ mid ++ post) = Ok (pre ++ concat (map snd parts) ++ post).
Proof.
  revert pre mid. induction parts as [|[[off size] b] parts IH]; intros pre mid H Hl.
  { apply nil_length_inv in Hl as ->. done. }
  destruct H as (-> & -> & H). cbn [store_parts map snd concat] in *.
  rewrite length_app in Hl. rewrite <-(take_drop (length b) mid).
  rewrite Z.eqb_refl. cbn [negb raise_if]. rewrite result_bind_ok. unfold store_region.
  rewrite (region_mid pre (take (length b) mid) (drop (length b) mid ++ post))
    by (rewrite ?length_take; rewrite <-?app_assoc; (done || lia)).
  rewrite length_take, Nat.min_l, Nat.eqb_refl by lia. cbn [negb raise_if]. rewrite !result_bind_ok.
  rewrite Nat2Z.id, take_app_length, drop_app_add.
  rewrite <-app_assoc, drop_app_length' by (rewrite length_take; lia).
  replace (pre ++ b ++ drop (length b) mid ++ post) with ((pre ++ b) ++ drop (length b) mid ++ post)
    by (by rewrite <-app_assoc).
  rewrite IH by (rewrite ?length_app, ?length_drop; (done || lia)).
  by rewrite <-!app_assoc.
Qed.

Lemma store_parts_consecutive err parts mid :
  consecutive 0 parts → length mid = length (concat (map snd parts)) →
  store_parts err parts mid = Ok (concat (map snd parts)).
Proof.
  intros HC Hl. pose proof (store_parts_between err parts [] mid [] HC Hl) as H.
  by rewrite !app_nil_r in H.
Qed.

(** A part of the wrong size stops the loop. *)
Lemma store_parts_app err p1 p2 page :
  store_parts err (p1 ++ p2) page = (page' ← store_parts err p1 page; store_parts err p2 page').
Proof.
  revert page. induction p1 as [|[[o s] b] p1 IH]; intros page; [done|]. cbn [app store_parts].
  destruct (raise_if _ err) as [[]|e]; [rewrite !result_bind_ok|done].
  destruct (store_region page o s b) as [page'|e]; [rewrite !result_bind_ok; apply IH|done].
Qed.

Lemma stream_row_bytes bits count codes : Forall byte_ok (stream_row bits count codes).
Proof.
  unfold stream_row. rewrite Forall_map. apply List.Forall_forall. intros j _. apply byte_of_range.
Qed.

Lemma flat_bytes (rows : list (list (list Z))) :
  Forall (Forall (Forall byte_ok)) rows → Forall byte_ok (flat rows).
Proof.
  intros H. unfold flat. apply Forall_concat. rewrite Forall_map. eapply Forall_impl; [|exact H].
  intros tok Ht. by apply Forall_concat.
Qed.

Lemma stream_rows_bytes bits count (rows : list (list (list Z))) :
  Forall (Forall (Forall byte_ok)) (map (map (stream_row bits count)) rows).
Proof.
  rewrite Forall_map. apply List.Forall_forall. intros tok _. rewrite Forall_map.
  apply List.Forall_forall. intros r _. apply stream_row_bytes.
Qed.

Lemma blob_bytes_of n : ((n + 63) / 64 * 68 = n + pad_to META_GROUP n + meta_groups_nat n * 4)%nat.
Proof.
  destruct (pad_to_spec META_GROUP n) as [H0 Hp]; [unfold META_GROUP; lia|]. unfold META_GROUP in *.
  apply Nat.Lcm0.mod_divide in H0 as [q Hq]. unfold meta_groups_nat.
  assert ((n + 63) / 64 = q)%nat as ->; [|lia].
  symmetry. apply (Nat.div_unique _ 64 _ (63 - pad_to 64 n)); lia.
Qed.

(** A blob has the size the layout reserves exactly when it needs no padding. *)
Lemma blob_fits n : ((n + 63) / 64 * 68 = meta_bytes_nat n)%nat ↔ (64 | n)%nat.
Proof.
  rewrite blob_bytes_of. unfold meta_bytes_nat. split.
  - intros H. destruct (pad_to_spec META_GROUP n) as [H0 _]; [unfold META_GROUP; lia|].
    apply Nat.Lcm0.mod_divide in H0 as [q Hq]. exists q. unfold META_GROUP in *. lia.
  - intros [q ->]. rewrite pad_to_multiple; [lia|unfold META_GROUP; lia|by exists q].
Qed.

(** The sizes for which no metadata blob of a page is padded. *)
Definition meta_aligned (bs h dk dv : nat) : Prop :=
  (64 | bs / 32 * h * dk)%nat ∧ (64 | bs * h * v_groups_nat dv)%nat.

#[export] Instance meta_aligned_dec bs h dk dv : Decision (meta_aligned bs h dk dv).
Proof.
  apply and_dec;
  [destruct (decide ((bs / 32 * h * dk) mod 64 = 0)%nat) as [E|E]
  |destruct (decide ((bs * h * v_groups_nat dv) mod 64 = 0)%nat) as [E|E]];
  try (left; by apply Nat.Lcm0.mod_divide); right; intros H; by apply E, Nat.Lcm0.mod_divide.
Qed.

Section OnePage.
Context `{TF : TorchFloat, !TorchFloatLaws TF}.
Variables (bs h dk dv : nat) (krows vrows : list (list (list f32))).
Hypothesis Hbs : (0 < bs)%nat.
Hypothesis Hgrp : (32 | bs)%nat.
Hypothesis Hk : length krows = bs ∧ Forall (wf_row h dk) krows.
Hypothesis Hv : length vrows = bs ∧ Forall (wf_row h dv) vrows.

Let kt := mkTensor3 h dk krows.
Let k_shape := [1; h; bs / 32; 1; dk]%nat.
Let v_shape := [bs; h; v_groups_of dv; 1]%nat.
Let kpd := _kvquant_k3_packed_dim dk.
Let vpd := ((v_pad_dim_of dv * 2 + 7) / 8)%nat.

(** The primary components of the page and their serializations. *)
Definition k_payload_rows : list (list (list Z)) :=
  map (map (stream_row 3 kpd)) (k_code_rows kt).

Lemma page_tokens : t_tokens kt = bs ∧ pad_to GROUP bs = 0%nat ∧ k_group_count kt = (bs / 32)%nat.
Proof.
  destruct Hk as [Hl _]. unfold k_group_count, kt, t_tokens. cbn [t_rows]. rewrite Hl.
  split; [done|]. rewrite (pad_to_multiple GROUP bs) by (unfold GROUP; lia || done).
  split; [done|]. by rewrite Nat.add_0_r.
Qed.

Lemma page_k_payload :
  length k_payload_rows = bs ∧ Forall (wf_row h kpd) k_payload_rows.
Proof.
  destruct page_tokens as (Ht & Hp & _). destruct Hk as [_ Hw]. unfold k_payload_rows. split.
  - rewrite length_map. unfold k_code_rows. by rewrite permute102_length, Ht, Hp, Nat.add_0_r.
  - pose proof (k_code_rows_tensor kt Hw) as HC. rewrite Forall_map.
    eapply Forall_impl; [|exact HC]. intros tok [Hl _]. split; [by rewrite length_map|].
    rewrite Forall_map. apply List.Forall_forall. intros r _. apply stream_row_length.
Qed.

Lemma page_v_payload :
  length (v_packed_rows dv vrows) = bs ∧ Forall (wf_row h vpd) (v_packed_rows dv vrows).
Proof.
  destruct Hv as [Hl Hw]. unfold v_packed_rows, v_codes. split; [by rewrite !length_map|].
  apply (map_map_wf _ h (v_pad_dim_of dv)); [intros; apply stream_row_length|].
  apply (map_map_wf _ h dv); [|done]. intros r Hr. by apply v_row_codes_ok.
Qed.

Lemma page_k_primary (F : nat → list (list f32) → list f32) :
  (∀ d g, length (F d g) = d) →
  length (k_primary F kt) = (bs / 32 * h * dk)%nat ∧ shape_count k_shape = (bs / 32 * h * dk)%nat.
Proof.
  intros HF. destruct page_tokens as (_ & _ & HG). split.
  - rewrite k_primary_length; [|by intros|by apply Hk]. rewrite HG. cbn [kt t_heads t_dim]. lia.
  - unfold shape_count, k_shape. cbn [fold_left]. lia.
Qed.

Lemma page_v_primary (rows : list (list (list f32))) :
  length rows = bs → Forall (wf_row h (v_groups_of dv)) rows →
  length (flat rows) = (bs * h * v_groups_nat dv)%nat
  ∧ shape_count v_shape = (bs * h * v_groups_nat dv)%nat.
Proof.
  intros Hl Hw. split.
  - rewrite (flat_length h (v_groups_of dv)) by done. rewrite Hl. unfold v_groups_of, v_groups_nat. lia.
  - unfold shape_count, v_shape. cbn [fold_left]. unfold v_groups_of, v_groups_nat. lia.
Qed.

Let layout := layout_of bs h dk dv.
Let v_packed := mkTensor3 h vpd (v_packed_rows dv vrows).
Let v_min := mkTensor3 h (v_groups_of dv) (v_mins dv vrows).
Let v_scale := mkTensor3 h (v_groups_of dv) (v_scales dv vrows).

(** The four metadata dictionaries of the page and their blobs. *)
Record page_meta := mkPageMeta { pm_kmin : Meta8; pm_kscale : Meta8; pm_vmin : Meta8; pm_vscale : Meta8 }.

Definition page_meta_ok (m : page_meta) : Prop :=
  encode_metadata_uint8_group_ref (k_primary k_group_min kt) k_shape META_GROUP = Ok (pm_kmin m)
  ∧ encode_metadata_uint8_group_ref (k_primary k_group_scale kt) k_shape META_GROUP = Ok (pm_kscale m)
  ∧ encode_metadata_uint8_group_ref (flat (v_mins dv vrows)) v_shape META_GROUP = Ok (pm_vmin m)
  ∧ encode_metadata_uint8_group_ref (flat (v_scales dv vrows)) v_shape META_GROUP = Ok (pm_vscale m).

Definition page_parts_of (m : page_meta) : list (Z * Z * list Z) :=
  page_parts layout (flat k_payload_rows) (flat (v_packed_rows dv vrows))
    (encode_metadata_blob_ref (pm_kmin m)) (encode_metadata_blob_ref (pm_kscale m))
    (encode_metadata_blob_ref (pm_vmin m)) (encode_metadata_blob_ref (pm_vscale m)).

Definition page_k_state (m : page_meta) : K3State :=
  mkK3State (mkTensor3 h kpd k_payload_rows) (bs, h, dk) bs 0 GROUP (pm_kmin m) (pm_kscale m).

Lemma page_meta_exists :
  ∃ m, page_meta_ok m
    ∧ decode_metadata_uint8_group_ref (pm_vmin m) = meta8_roundtrip (flat (v_mins dv vrows))
    ∧ decode_metadata_uint8_group_ref (pm_vscale m) = meta8_roundtrip (flat (v_scales dv vrows)).
Proof.
  destruct (decode_encode_metadata (k_primary k_group_min kt) k_shape) as (m1 & E1 & _).
  destruct (decode_encode_metadata (k_primary k_group_scale kt) k_shape) as (m2 & E2 & _).
  destruct (decode_encode_metadata (flat (v_mins dv vrows)) v_shape) as (m3 & E3 & D3).
  destruct (decode_encode_metadata (flat (v_scales dv vrows)) v_shape) as (m4 & E4 & D4).
  by exists (mkPageMeta m1 m2 m3 m4).
Qed.

Lemma page_k_quantize m :
  page_meta_ok m → quantize_k3_sequence_affine_ref kt GROUP META_GROUP = Ok (page_k_state m).
Proof.
  intros (E1 & E2 & _). destruct page_tokens as (Ht & Hp & HG).
  rewrite k_quantize_ok; [|apply Hk|by rewrite Ht]. cbv zeta.
  rewrite Ht, Hp, HG, Nat.add_0_r. cbn [kt t_heads t_dim]. fold k_shape.
  by rewrite E1, result_bind_ok, E2, result_bind_ok.
Qed.

Lemma page_from_primary_parts err m :
  page_meta_ok m →
  encode_page_from_primary err layout kt v_packed v_min v_scale
  = store_parts err (page_parts_of m) (zero_page layout).
Proof.
  intros Hm. pose proof (page_k_quantize m Hm) as Hq. destruct Hm as (_ & _ & E3 & E4).
  unfold encode_page_from_primary, encode_page_from_metas, encode_v_meta, t_tokens, flatten3. cbn [t_heads t_dim t_rows v_min v_scale].
  fold (flat (v_mins dv vrows)) (flat (v_scales dv vrows)).
  assert (length (v_mins dv vrows) = bs ∧ length (v_scales dv vrows) = bs) as [-> ->].
  { unfold v_mins, v_scales. rewrite !length_map. by destruct Hv. }
  fold v_shape. by rewrite E3, result_bind_ok, E4, result_bind_ok, Hq, result_bind_ok.
Qed.

(** The lengths of the six parts. *)
Lemma page_part_lengths m :
  page_meta_ok m →
  length (flat k_payload_rows) = (bs * h * packed_dim_nat dk 3)%nat
  ∧ length (flat (v_packed_rows dv vrows)) = (bs * h * packed_dim_nat (v_groups_nat dv * 32) 2)%nat
  ∧ length (encode_metadata_blob_ref (pm_kmin m)) = ((bs / 32 * h * dk + 63) / 64 * 68)%nat
  ∧ length (encode_metadata_blob_ref (pm_kscale m)) = ((bs / 32 * h * dk + 63) / 64 * 68)%nat
  ∧ length (encode_metadata_blob_ref (pm_vmin m)) = ((bs * h * v_groups_nat dv + 63) / 64 * 68)%nat
  ∧ length (encode_metadata_blob_ref (pm_vscale m)) = ((bs * h * v_groups_nat dv + 63) / 64 * 68)%nat.
Proof.
  intros (E1 & E2 & E3 & E4).
  destruct page_k_payload as [Hkl Hkw]. destruct page_v_payload as [Hvl Hvw].
  destruct (page_k_primary k_group_min k_group_min_length) as [L1 S1].
  destruct (page_k_primary k_group_scale k_group_scale_length) as [L2 S2].
  destruct (page_v_primary (v_mins dv vrows)) as [L3 S3];
    [unfold v_mins; rewrite length_map; by destruct Hv|apply v_mins_wf; by destruct Hv|].
  destruct (page_v_primary (v_scales dv vrows)) as [L4 _];
    [unfold v_scales; rewrite length_map; by destruct Hv|apply v_scales_wf; by destruct Hv|].
  split; [rewrite (flat_length h kpd) by done; rewrite Hkl; unfold kpd, packed_dim_nat, _kvquant_k3_packed_dim; lia|].
  split; [rewrite (flat_length h vpd) by done; rewrite Hvl; unfold vpd, packed_dim_nat, v_pad_dim_of, v_groups_nat; lia|].
  rewrite <-L1 at 1. rewrite <-L2 at 1. rewrite <-L3 at 1. rewrite <-L4 at 1.
  repeat split; eapply encoded_blob_length; eauto; congruence.
Qed.

(** ** The aligned page *)

Section Aligned.
Hypothesis Hal : meta_aligned bs h dk dv.

Lemma page_parts_consecutive m :
  page_meta_ok m →
  consecutive 0 (page_parts_of m)
  ∧ Z.of_nat (length (concat (map snd (page_parts_of m)))) = page_bytes layout
  ∧ zero_page layout = replicate (length (concat (map snd (page_parts_of m)))) 0%Z.
Proof.
  intros Hm. destruct (page_part_lengths m Hm) as (L0 & L1 & L2 & L3 & L4 & L5).
  destruct Hal as [Ak Av]. rewrite (proj2 (blob_fits _) Ak) in L2, L3.
  rewrite (proj2 (blob_fits _) Av) in L4, L5.
  assert (Z.of_nat (length (concat (map snd (page_parts_of m)))) = page_bytes layout) as HL.
  { unfold page_parts_of, page_parts. cbn [map snd concat]. rewrite !length_app, L0, L1, L2, L3, L4, L5.
    unfold layout, layout_of, region_sizes_nat. cbn. lia. }
  split; [|split; [done|]].
  - unfold page_parts_of, page_parts. cbn [consecutive]. rewrite L0, L1, L2, L3, L4, L5.
    unfold layout, layout_of, region_sizes_nat. cbn -[Nat.mul Nat.div]. repeat split; lia.
  - unfold zero_page. rewrite <-HL. by rewrite Nat2Z.id.
Qed.

Lemma page_bytes_ok m :
  page_meta_ok m → Forall byte_ok (concat (map snd (page_parts_of m))).
Proof.
  intros (E1 & E2 & E3 & E4). unfold page_parts_of, page_parts. cbn [map snd concat].
  destruct (page_k_primary k_group_min k_group_min_length) as [L1 S1].
  destruct (page_k_primary k_group_scale k_group_scale_length) as [L2 _].
  destruct (page_v_primary (v_mins dv vrows)) as [L3 S3];
    [unfold v_mins; rewrite length_map; by destruct Hv|apply v_mins_wf; by destruct Hv|].
  destruct (page_v_primary (v_scales dv vrows)) as [L4 _];
    [unfold v_scales; rewrite length_map; by destruct Hv|apply v_scales_wf; by destruct Hv|].
  rewrite !Forall_app. repeat split; try constructor.
  - apply flat_bytes, stream_rows_bytes.
  - apply flat_bytes, stream_rows_bytes.
  - eapply encoded_blob_bytes; [exact E1|congruence].
  - eapply encoded_blob_bytes; [exact E2|congruence].
  - eapply encoded_blob_bytes; [exact E3|congruence].
  - eapply encoded_blob_bytes; [exact E4|congruence].
Qed.

Lemma reshape3_flat a b c (rows : list (list (list Z))) :
  length rows = a → Forall (wf_row b c) rows → reshape3 a b c (flat rows) = Ok (mkTensor3 b c rows).
Proof.
  intros Hl Hw. unfold reshape3. rewrite (flat_length b c) by done.
  rewrite Hl, Nat.mul_assoc, Nat.eqb_refl. cbn [negb raise_if]. rewrite result_bind_ok.
  do 2 f_equal. unfold flat. by apply view3_concat.
Qed.

(** Reading the six regions back. *)
Lemma page_regions m :
  page_meta_ok m →
  let page := concat (map snd (page_parts_of m)) in
  region page (k_payload_offset layout) (k_payload_bytes layout) = flat k_payload_rows
  ∧ region page (v_payload_offset layout) (v_payload_bytes layout) = flat (v_packed_rows dv vrows)
  ∧ region page (k_min_offset layout) (k_min_bytes layout) = encode_metadata_blob_ref (pm_kmin m)
  ∧ region page (k_scale_offset layout) (k_scale_bytes layout) = encode_metadata_blob_ref (pm_kscale m)
  ∧ region page (v_min_offset layout) (v_min_bytes layout) = encode_metadata_blob_ref (pm_vmin m)
  ∧ region page (v_scale_offset layout) (v_scale_bytes layout) = encode_metadata_blob_ref (pm_vscale m).
Proof.
  intros Hm. destruct (page_parts_consecutive m Hm) as (HC & _ & _).
  unfold page_parts_of, page_parts in *. cbn [map snd concat] in *. cbn [consecutive] in HC.
  destruct HC as (-> & -> & -> & -> & -> & -> & -> & -> & -> & -> & -> & -> & _).
  set (b0 := flat k_payload_rows). set (b1 := flat (v_packed_rows dv vrows)).
  set (b2 := encode_metadata_blob_ref (pm_kmin m)). set (b3 := encode_metadata_blob_ref (pm_kscale m)).
  set (b4 := encode_metadata_blob_ref (pm_vmin m)). set (b5 := encode_metadata_blob_ref (pm_vscale m)).
  rewrite app_nil_r. repeat split.
  - by apply (region_mid [] b0 (b1 ++ b2 ++ b3 ++ b4 ++ b5)).
  - apply (region_mid b0 b1 (b2 ++ b3 ++ b4 ++ b5)); [done|simpl; lia|done].
  - apply (region_mid (b0 ++ b1) b2 (b3 ++ b4 ++ b5)); [by rewrite <-!app_assoc|rewrite !length_app; simpl; lia|done].
  - apply (region_mid (b0 ++ b1 ++ b2) b3 (b4 ++ b5)); [by rewrite <-!app_assoc|rewrite !length_app; simpl; lia|done].
  - apply (region_mid (b0 ++ b1 ++ b2 ++ b3) b4 b5); [by rewrite <-!app_assoc|rewrite !length_app; simpl; lia|done].
  - apply (region_mid (b0 ++ b1 ++ b2 ++ b3 ++ b4) b5 []);
      [by rewrite <-!app_assoc, app_nil_r|rewrite !length_app; simpl; lia|done].
Qed.

Lemma page_decode m to :
  page_meta_ok m →
  decode_metadata_uint8_group_ref (pm_vmin m) = meta8_roundtrip (flat (v_mins dv vrows)) →
  decode_metadata_uint8_group_ref (pm_vscale m) = meta8_roundtrip (flat (v_scales dv vrows)) →
  decode_rabit2_page_ref (concat (map snd (page_parts_of m))) layout to
  = Ok (map3 to (k_decoded_meta kt), map3 to (v_decoded h dv vrows)).
Proof.
  intros Hm Dvm Dvs. destruct (page_parts_consecutive m Hm) as (_ & HL & _).
  destruct (page_regions m Hm) as (R0 & R1 & R2 & R3 & R4 & R5).
  pose proof (page_k_quantize m Hm) as Hq. destruct Hm as (E1 & E2 & E3 & E4).
  unfold decode_rabit2_page_ref. rewrite HL, Z.eqb_refl. cbn [negb raise_if]. rewrite result_bind_ok.
  rewrite R0, R1, R2, R3, R4, R5. unfold layout, layout_of.
  cbn [head_size_k head_size_v block_size num_kv_heads].
  change 3%Z with (Z.of_nat 3). change 2%Z with (Z.of_nat 2).
  rewrite (rabit2_packed_dim_nat dk 3), result_bind_ok by lia.
  assert (((Z.of_nat dv + RABIT2_GROUP_SIZE - 1) / RABIT2_GROUP_SIZE * RABIT2_GROUP_SIZE)%Z
          = Z.of_nat (v_groups_nat dv * 32)) as ->.
  { unfold RABIT2_GROUP_SIZE, v_groups_nat. rewrite Nat2Z.inj_mul, Nat2Z.inj_div, Nat2Z.inj_add.
    do 2 f_equal. lia. }
  rewrite (rabit2_packed_dim_nat _ 2), result_bind_ok by lia.
  assert (Z.to_nat (Z.of_nat (v_groups_nat dv * 32) / RABIT2_GROUP_SIZE) = v_groups_of dv) as ->.
  { unfold RABIT2_GROUP_SIZE. rewrite Nat2Z.inj_mul, Z.div_mul by lia. by rewrite Nat2Z.id. }
  rewrite !Nat2Z.id. change GROUP with 32%nat. fold k_shape v_shape.
  change (packed_dim_nat dk 3) with kpd. change (packed_dim_nat (v_groups_nat dv * 32) 2) with vpd.
  destruct page_k_payload as [Hkl Hkw]. destruct page_v_payload as [Hvl Hvw].
  rewrite !reshape3_flat by done. rewrite !result_bind_ok.
  destruct (page_k_primary k_group_min k_group_min_length) as [L1 S1].
  destruct (page_k_primary k_group_scale k_group_scale_length) as [L2 _].
  destruct (page_v_primary (v_mins dv vrows)) as [L3 S3];
    [unfold v_mins; rewrite length_map; by destruct Hv|apply v_mins_wf; by destruct Hv|].
  destruct (page_v_primary (v_scales dv vrows)) as [L4 _];
    [unfold v_scales; rewrite length_map; by destruct Hv|apply v_scales_wf; by destruct Hv|].
  rewrite (decode_encoded_blob _ _ _ E1), result_bind_ok by congruence.
  rewrite (decode_encoded_blob _ _ _ E2), result_bind_ok by congruence.
  rewrite (decode_encoded_blob _ _ _ E3), result_bind_ok by congruence.
  rewrite (decode_encoded_blob _ _ _ E4), result_bind_ok by congruence.
  destruct page_tokens as (Ht & _). destruct Hk as [_ Hw].
  destruct (k_dequantize_quantize_meta kt to) as (st & Hst & Hd); [done|lia|].
  rewrite Hq in Hst. injection Hst as <-. unfold page_k_state in Hd. change 32%nat with GROUP.
  rewrite Hd, result_bind_ok. rewrite Dvm, Dvs.
  unfold vpd. rewrite v_primary_dequantize by apply Hv. rewrite result_bind_ok.
  unfold v_decoded, meta_view. by destruct Hv as [-> _].
Qed.

(** A writer from primary components succeeds, fills the page and is read back. *)
Lemma page_from_primary_spec err :
  ∃ m, page_meta_ok m
    ∧ encode_page_from_primary err layout kt v_packed v_min v_scale
      = Ok (concat (map snd (page_parts_of m)))
    ∧ Z.of_nat (length (concat (map snd (page_parts_of m)))) = page_bytes layout
    ∧ Forall byte_ok (concat (map snd (page_parts_of m)))
    ∧ ∀ to, decode_rabit2_page_ref (concat (map snd (page_parts_of m))) layout to
            = Ok (map3 to (k_decoded_meta kt), map3 to (v_decoded h dv vrows)).
Proof.
  destruct page_meta_exists as (m & Hm & Dm & Ds). exists m.
  destruct (page_parts_consecutive m Hm) as (HC & HL & HZ).
  split; [done|]. split; [|split; [done|split; [by apply page_bytes_ok|]]].
  - rewrite (page_from_primary_parts err m Hm), HZ.
    apply store_parts_consecutive; [done|apply length_replicate].
  - intros to. by apply page_decode.
Qed.
End Aligned.

(** On a geometry whose metadata needs padding, the size check of the blob fails. *)
Lemma page_from_primary_misaligned err :
  ¬ meta_aligned bs h dk dv →
  encode_page_from_primary err layout kt v_packed v_min v_scale = Err err.
Proof.
  intros Hna. destruct page_meta_exists as (m & Hm & _).
  rewrite (page_from_primary_parts err m Hm).
  destruct (page_part_lengths m Hm) as (L0 & L1 & L2 & L3 & L4 & L5).
  assert (∃ p1 off size b p2, page_parts_of m = p1 ++ (off, size, b) :: p2
            ∧ consecutive 0 p1 ∧ Z.of_nat (length b) ≠ size
            ∧ (length (concat (map snd p1)) ≤ length (zero_page layout))%nat)
    as (p1 & off & size & b & p2 & -> & HC & Hne & Hle).
  { unfold page_parts_of, page_parts.
    destruct (decide (64 | bs / 32 * h * dk)%nat) as [Ak|Ak].
    - assert (¬ (64 | bs * h * v_groups_nat dv)%nat) as Av by (intros ?; by apply Hna).
      rewrite (proj2 (blob_fits _) Ak) in L2, L3.
      eexists [_; _; _; _], _, _, _, _. split; [reflexivity|].
      cbn [consecutive map snd concat]. rewrite !length_app, L0, L1, L2, L3, L4.
      unfold zero_page. rewrite length_replicate. unfold layout, layout_of, region_sizes_nat.
      cbn -[Nat.mul Nat.div]. repeat split; try lia.
      intros E. apply Av, blob_fits. lia.
    - eexists [_; _], _, _, _, _. split; [reflexivity|].
      cbn [consecutive map snd concat]. rewrite !length_app, L0, L1, L2.
      unfold zero_page. rewrite length_replicate. unfold layout, layout_of, region_sizes_nat.
      cbn -[Nat.mul Nat.div]. repeat split; try lia.
      intros E. apply Ak, blob_fits. lia. }
  rewrite store_parts_app.
  rewrite <-(take_drop (length (concat (map snd p1))) (zero_page layout)).
  pose proof (store_parts_between err p1 [] (take (length (concat (map snd p1))) (zero_page layout))
                (drop (length (concat (map snd p1))) (zero_page layout)) HC) as HS.
  rewrite app_nil_l in HS. rewrite HS by (rewrite length_take; lia). rewrite result_bind_ok. cbn [store_parts].
  destruct (Z.eqb_spec (Z.of_nat (length b)) size); [done|]. done.
Qed.
End OnePage.


Section PageRef.
Context `{TF : TorchFloat, !TorchFloatLaws TF}.

(** A pair of tensors of one shape, a positive number of 32-token groups. *)
Definition page_input (key value : tensor3 f32) : Prop :=
  wf_tensor3 key ∧ wf_tensor3 value ∧ shape_eqb key value = true
  ∧ (0 < t_tokens key)%nat ∧ (32 | t_tokens key)%nat ∧ (0 < t_heads key)%nat ∧ (0 < t_dim key)%nat.

Definition page_layout_of (key : tensor3 f32) : Rabit2PageLayout :=
  layout_of (t_tokens key) (t_heads key) (t_dim key) (t_dim key).

Lemma page_input_layout key value :
  page_input key value →
  rabit2_page_layout (Z.of_nat (t_tokens key)) (Z.of_nat (t_heads key)) (Z.of_nat (t_dim key))
    (Some (Z.of_nat (t_dim value))) = Ok (page_layout_of key).
Proof.
  intros (_ & _ & Hs & Ht & Hg & Hh & Hd). apply shape_eqb_spec in Hs as (_ & _ & <-).
  by apply rabit2_page_layout_nat.
Qed.

Lemma layout_of_fields bs h dk dv :
  block_size (layout_of bs h dk dv) = Z.of_nat bs
  ∧ num_kv_heads (layout_of bs h dk dv) = Z.of_nat h
  ∧ head_size_k (layout_of bs h dk dv) = Z.of_nat dk
  ∧ head_size_v (layout_of bs h dk dv) = Z.of_nat dv.
Proof. done. Qed.

(** No part of a consecutive list fails the size check. *)
Lemma consecutive_sizes o parts :
  consecutive o parts → existsb (λ p, negb (Z.of_nat (length p.2) =? p.1.2)%Z) parts = false.
Proof.
  revert o. induction parts as [|[[off s] b] parts IH]; intros o HC; [done|].
  destruct HC as (_ & -> & HC). cbn. rewrite Z.eqb_refl. by eapply IH.
Qed.

(** The reference encoder is the writer from the primary components it computes. *)
Lemma encode_page_ref_from_primary key value :
  page_input key value →
  encode_rabit2_page_ref key value None
  = (v ← _quantize_v2_primary_ref value GROUP;
     encode_page_from_primary ValueError (page_layout_of key) key v.1.1.1 v.1.1.2 v.1.2).
Proof.
  intros Hin. pose proof (page_input_layout key value Hin) as HL.
  destruct Hin as (Hwk & Hwv & Hs & Ht & Hg & Hh & Hd).
  unfold encode_rabit2_page_ref. rewrite Hs, HL. cbn [negb raise_if]. rewrite !result_bind_ok.
  pose proof Hs as (Est & Esh & Esd)%shape_eqb_spec.
  unfold page_layout_of.
  destruct (layout_of_fields (t_tokens key) (t_heads key) (t_dim key) (t_dim key)) as (-> & -> & -> & ->).
  rewrite !Z.eqb_refl. rewrite <-Esd, Z.eqb_refl. cbn [negb orb raise_if]. rewrite !result_bind_ok.
  destruct key as [h d krows], value as [h' d' vrows]. cbn [t_heads t_dim t_rows] in *. subst h' d'.
  unfold t_tokens in *. cbn [t_rows] in *. set (bs := length krows) in *.
  rewrite v_primary_quantize by done. rewrite !result_bind_ok. cbn [fst snd].
  assert (length vrows = bs ∧ Forall (wf_row h d) vrows) as Hv by (by split).
  assert (length krows = bs ∧ Forall (wf_row h d) krows) as Hk by (by split).
  destruct (page_meta_exists bs h d d krows vrows) as (m & Hm & _).
  pose proof (page_k_quantize bs h d d krows vrows Ht Hg Hk Hv m Hm) as Hq.
  rewrite Hq, !result_bind_ok.
  assert (length (v_mins d vrows) = bs ∧ length (v_scales d vrows) = bs) as [Lm Ls].
  { unfold v_mins, v_scales. rewrite !length_map. by destruct Hv. }
  pose proof (page_from_primary_parts bs h d d krows vrows Ht Hg Hk Hv ValueError m Hm) as HP.
  pose proof Hm as (_ & _ & E3 & E4).
  unfold flatten3, t_tokens. cbv beta iota zeta. cbn [t_heads t_dim t_rows]. rewrite Lm, ?Ls.
  fold (flat (v_mins d vrows)) (flat (v_scales d vrows)).
  rewrite E3, result_bind_ok, E4, result_bind_ok. rewrite HP.
  cbn [page_k_state k_packed k_min k_scale t_rows].
  fold (flat (k_payload_rows h d krows)) (flat (v_packed_rows d vrows)).
  change (page_parts (layout_of bs h d d) _ _ _ _ _ _) with (page_parts_of bs h d d krows vrows m).
  destruct (decide (meta_aligned bs h d d)) as [Hal|Hna].
  - destruct (page_parts_consecutive bs h d d krows vrows Ht Hg Hk Hv Hal m Hm) as (HC & _).
    by rewrite (consecutive_sizes _ _ HC).
  - rewrite <-HP, page_from_primary_misaligned by done. by destruct (existsb _ _).
Qed.

(** C18: the physical page codec.  For every pair of equally shaped tensors with a
    positive number of whole 32-token groups whose metadata needs no padding, the
    reference encoder returns a page of exactly [page_bytes] bytes, each in
    [0, 255], and decoding that page returns exactly what dequantizing the K3 and
    V2 reference states of the two tensors returns. *)
Theorem page_roundtrip (key value : tensor3 f32) (to : f32 → f32) :
  page_input key value → meta_aligned (t_tokens key) (t_heads key) (t_dim key) (t_dim key) →
  ∃ layout page ks vs k v,
    rabit2_page_layout (Z.of_nat (t_tokens key)) (Z.of_nat (t_heads key)) (Z.of_nat (t_dim key))
      (Some (Z.of_nat (t_dim value))) = Ok layout
    ∧ encode_rabit2_page_ref key value None = Ok page
    ∧ Z.of_nat (length page) = page_bytes layout ∧ Forall byte_ok page
    ∧ quantize_k3_sequence_affine_ref key GROUP META_GROUP = Ok ks
    ∧ dequantize_k3_sequence_affine_ref ks to = Ok k
    ∧ quantize_v2_group_affine_ref value GROUP META_GROUP = Ok vs
    ∧ dequantize_v2_group_affine_ref vs to = Ok v
    ∧ decode_rabit2_page_ref page layout to = Ok (k, v).
Proof.
  intros Hin Hal. exists (page_layout_of key).
  pose proof (encode_page_ref_from_primary key value Hin) as HE.
  pose proof (page_input_layout key value Hin) as HL.
  destruct Hin as (Hwk & Hwv & Hs & Ht & Hg & Hh & Hd). apply shape_eqb_spec in Hs as (Est & Esh & Esd).
  destruct (k_dequantize_quantize_meta key to Hwk Ht) as (ks & Qk & Dk).
  destruct (v_dequantize_quantize value to Hwv ltac:(lia)) as (vs & Qv & Dv).
  destruct key as [h d krows], value as [h' d' vrows]. unfold t_tokens in *. cbn [t_heads t_dim t_rows] in *.
  subst h' d'. set (bs := length krows) in *.
  assert (length krows = bs ∧ Forall (wf_row h d) krows) as Hk by (by split).
  assert (length vrows = bs ∧ Forall (wf_row h d) vrows) as Hv by (by split).
  destruct (page_from_primary_spec bs h d d krows vrows Ht Hg Hk Hv Hal ValueError)
    as (m & _ & HP & Hlen & Hb & HD).
  rewrite v_primary_quantize in HE by done. rewrite result_bind_ok in HE. cbn [fst snd] in HE.
  rewrite HE. unfold page_layout_of, t_tokens. cbn [t_heads t_dim t_rows]. fold bs.
  do 5 eexists. split; [exact HL|]. split; [exact HP|]. split; [exact Hlen|]. split; [done|].
  split; [exact Qk|]. split; [exact Dk|]. split; [exact Qv|]. split; [exact Dv|]. apply HD.
Qed.

(** C38: page writers agree.  On the primary components the V2 quantizer returns,
    the writer used by the online state, by the runtime flush and by the bulk
    append returns the page of the reference encoder, whatever its error class,
    whenever the metadata needs no padding; otherwise each raises its own
    size-mismatch error although the layout was accepted. *)
Theorem page_writers_agree (key value : tensor3 f32) (err : exn) :
  page_input key value →
  let write err := v ← _quantize_v2_primary_ref value GROUP;
                   encode_page_from_primary err (page_layout_of key) key v.1.1.1 v.1.1.2 v.1.2 in
  (meta_aligned (t_tokens key) (t_heads key) (t_dim key) (t_dim key) →
     ∃ page, encode_rabit2_page_ref key value None = Ok page ∧ write err = Ok page)
  ∧ (¬ meta_aligned (t_tokens key) (t_heads key) (t_dim key) (t_dim key) →
     (∃ layout, rabit2_page_layout (Z.of_nat (t_tokens key)) (Z.of_nat (t_heads key))
                  (Z.of_nat (t_dim key)) (Some (Z.of_nat (t_dim value))) = Ok layout)
     ∧ encode_rabit2_page_ref key value None = Err ValueError ∧ write err = Err err).
Proof.
  intros Hin write. pose proof (encode_page_ref_from_primary key value Hin) as HE.
  pose proof (page_input_layout key value Hin) as HL.
  destruct Hin as (Hwk & Hwv & Hs & Ht & Hg & Hh & Hd). apply shape_eqb_spec in Hs as (Est & Esh & Esd).
  destruct key as [h d krows], value as [h' d' vrows]. unfold t_tokens in *. cbn [t_heads t_dim t_rows] in *.
  subst h' d'. set (bs := length krows) in *.
  assert (length krows = bs ∧ Forall (wf_row h d) krows) as Hk by (by split).
  assert (length vrows = bs ∧ Forall (wf_row h d) vrows) as Hv by (by split).
  unfold write. rewrite HE. rewrite v_primary_quantize by done. rewrite !result_bind_ok. cbn [fst snd].
  unfold page_layout_of, t_tokens. cbn [t_heads t_dim t_rows]. fold bs. split.
  - intros Hal. destruct (page_meta_exists bs h d d krows vrows) as (m & Hm & _).
    destruct (page_parts_consecutive bs h d d krows vrows Ht Hg Hk Hv Hal m Hm) as (HC & _ & HZ).
    exists (concat (map snd (page_parts_of bs h d d krows vrows m))).
    rewrite !(page_from_primary_parts bs h d d krows vrows Ht Hg Hk Hv _ m Hm).
    by split; apply store_parts_consecutive; try done; rewrite HZ, length_replicate.
  - intros Hna. split; [eexists; exact HL|]. by rewrite !page_from_primary_misaligned.
Qed.
End PageRef.

(** C18 on one 32-token page of one head of 64 channels. *)
Lemma page_roundtrip_witness :
  ∃ layout page ks vs k v,
    rabit2_page_layout 32 1 64 (Some 64%Z) = Ok layout
    ∧ encode_rabit2_page_ref (const_tensor 32 1 64 3) (const_tensor 32 1 64 (-2)) None = Ok page
    ∧ Z.of_nat (length page) = page_bytes layout ∧ Forall byte_ok page
    ∧ quantize_k3_sequence_affine_ref (const_tensor 32 1 64 3) GROUP META_GROUP = Ok ks
    ∧ dequantize_k3_sequence_affine_ref ks (λ x, x) = Ok k
    ∧ quantize_v2_group_affine_ref (const_tensor 32 1 64 (-2)) GROUP META_GROUP = Ok vs
    ∧ dequantize_v2_group_affine_ref vs (λ x, x) = Ok v
    ∧ decode_rabit2_page_ref page layout (λ x, x) = Ok (k, v).
Proof.
  apply (page_roundtrip (const_tensor 32 1 64 3) (const_tensor 32 1 64 (-2)) (λ x, x)).
  - split; [apply const_tensor_wf|]. split; [apply const_tensor_wf|]. split; [reflexivity|].
    split; [cbn; lia|]. split; [by exists 1%nat|]. cbn. lia.
  - split; [by exists 1%nat|by exists 1%nat].
Defined.

(** C38 on a padded geometry: one head of 32 channels. *)
Lemma page_writers_agree_witness :
  encode_rabit2_page_ref (const_tensor 32 1 32 3) (const_tensor 32 1 32 (-2)) None = Err ValueError.
Proof.
  apply (page_writers_agree (const_tensor 32 1 32 3) (const_tensor 32 1 32 (-2)) RuntimeError).
  - split; [apply const_tensor_wf|]. split; [apply const_tensor_wf|]. split; [reflexivity|].
    split; [cbn; lia|]. split; [by exists 1%nat|]. cbn. lia.
  - intros [H%Nat.Lcm0.mod_divide _]. vm_compute in H. discriminate H.
Defined.
