(* ===== verification/Sidecar.v ===== *)
(** * The sidecar of one sequence

    Both stateful classes of [rabit_kv2.py], the reference
    [Rabit2OnlineStateRef] and the serving [Rabit2SingleSequenceRuntime], keep
    the same six tensors outside the pages and run the same [append] loop; they
    differ in what happens when the open group reaches 32 tokens.  This file
    holds the six tensors ([Sidecar]), the loop over an interface
    ([SidecarOwner]: a state that owns a sidecar and can flush a full open
    group), and the abstract state: the sidecar of a sequence as a function of
    the tokens appended so far ([sidecar_of]).

    A BF16 tensor is a tensor of 16-bit patterns.  [torch.cat] is applied to
    tensors whose trailing dimensions agree (the class checks them on entry), so
    its shape error does not occur and is not modelled. *)

From Stdlib Require Import ZArith Lia.
From stdpp Require Import base tactics numbers list option.
From S2P Require Import Prelude Layout Torch BitPack Meta Quant Decoded Page.

Section SidecarDef.
Context `{TF : TorchFloat}.

Record Sidecar := mkSidecar {
  open_k : option (tensor3 Z);
  open_v_packed : option (tensor3 Z);
  open_v_min : option (tensor3 f32);
  open_v_scale : option (tensor3 f32);
  recent_k : option (tensor3 Z);
  recent_v : option (tensor3 Z)
}.

Definition empty_sidecar : Sidecar := mkSidecar None None None None None None.

(** [x is None] fields count no tokens. *)
Definition tensor_len {A} (o : option (tensor3 A)) : nat :=
  match o with None => 0 | Some t => t_tokens t end.

(** [b if a is None else torch.cat([a, b], dim=0)] *)
Definition cat_tensor {A} (a : option (tensor3 A)) (b : tensor3 A) : tensor3 A :=
  match a with
  | None => b
  | Some a => mkTensor3 (t_heads a) (t_dim a) (t_rows a ++ t_rows b)
  end.

(** [t[a:b]] and [t[n:]] along the token axis. *)
Definition t_slice {A} (a b : nat) (t : tensor3 A) : tensor3 A :=
  mkTensor3 (t_heads t) (t_dim t) (slice a b (t_rows t)).
Definition t_drop {A} (n : nat) (t : tensor3 A) : tensor3 A :=
  mkTensor3 (t_heads t) (t_dim t) (drop n (t_rows t)).

(** [t.to(torch.bfloat16)] and [t.float()] *)
Definition t_map {A B} (f : A → B) (t : tensor3 A) : tensor3 B :=
  mkTensor3 (t_heads t) (t_dim t) (map3 f (t_rows t)).
Definition to_bf16 : tensor3 f32 → tensor3 Z := t_map bf16_of_f32.
Definition widen : list (list (list Z)) → list (list (list f32)) := map3 f32_of_bf16.

Definition push_recent (k_one v_one : tensor3 f32) (sc : Sidecar) : Sidecar :=
  mkSidecar (open_k sc) (open_v_packed sc) (open_v_min sc) (open_v_scale sc)
    (Some (cat_tensor (recent_k sc) (to_bf16 k_one)))
    (Some (cat_tensor (recent_v sc) (to_bf16 v_one))).

Definition drop_oldest (sc : Sidecar) : Sidecar :=
  mkSidecar (open_k sc) (open_v_packed sc) (open_v_min sc) (open_v_scale sc)
    (t_drop 1 <$> recent_k sc) (t_drop 1 <$> recent_v sc).

Definition push_open (key packed : tensor3 Z) (q_min scale : tensor3 f32) (sc : Sidecar) : Sidecar :=
  mkSidecar (Some (cat_tensor (open_k sc) key)) (Some (cat_tensor (open_v_packed sc) packed))
    (Some (cat_tensor (open_v_min sc) q_min)) (Some (cat_tensor (open_v_scale sc) scale))
    (recent_k sc) (recent_v sc).

Definition clear_open (sc : Sidecar) : Sidecar :=
  mkSidecar None None None None (recent_k sc) (recent_v sc).

(** [x.numel()], and the bytes of the six tensors ([sidecar_bytes]): BF16 is two
    bytes, [uint8] one, float32 four. *)
Definition numel {A} (o : option (tensor3 A)) : nat :=
  match o with None => 0 | Some t => length (flatten3 t) end.

Definition sidecar_bytes (sc : Sidecar) : nat :=
  (numel (open_k sc) * 2 + numel (open_v_packed sc) + numel (open_v_min sc) * 4
   + numel (open_v_scale sc) * 4 + numel (recent_k sc) * 2 + numel (recent_v sc) * 2)%nat.

(** ** The interface of a state that owns a sidecar *)

Class SidecarOwner (S : Type) := {
  owner_geometry : S → nat * nat * nat;    (* heads, K head size, V head size *)
  owner_sidecar : S → Sidecar;
  owner_update : Sidecar → S → S;
  owner_flush : ST S unit                  (* close the full open group *)
}.

Section Append.
Context {S : Type} `{O : !SidecarOwner S}.

Definition modify_sidecar (f : Sidecar → Sidecar) : ST S unit :=
  st_modify (λ s, owner_update (f (owner_sidecar s)) s).

(** [_append_open_old] / [_append_aged] *)
Definition append_aged (key value : tensor3 Z) : ST S unit :=
  v ← st_lift (_quantize_v2_primary_ref (t_map f32_of_bf16 value) GROUP);
  let '(packed, q_min, scale, _) := v in
  modify_sidecar (push_open key packed q_min scale);;
  s ← st_get;
  if (tensor_len (open_k (owner_sidecar s)) =? GROUP)%nat then owner_flush else mret tt.

(** One iteration of the loop of [append]. *)
Definition append_one (k_one v_one : tensor3 f32) : ST S unit :=
  modify_sidecar (push_recent k_one v_one);;
  s ← st_get;
  match recent_k (owner_sidecar s), recent_v (owner_sidecar s) with
  | Some rk, Some rv =>
      if (RESIDUAL <? t_tokens rk)%nat then
        modify_sidecar drop_oldest;;
        append_aged (t_slice 0 1 rk) (t_slice 0 1 rv)
      else mret tt
  | _, _ => st_lift (Err TypeError)
  end.

Definition append (key value : tensor3 f32) : ST S unit :=
  st_raise_if (negb (shape_eqb key value)) ValueError;;
  s ← st_get;
  let '(num_kv_heads, head_size_k, head_size_v) := owner_geometry s in
  st_raise_if (negb (t_heads key =? num_kv_heads)%nat || negb (t_dim key =? head_size_k)%nat)
    ValueError;;
  st_raise_if (negb (t_dim value =? head_size_v)%nat) ValueError;;
  st_for (seq 0 (t_tokens key)) (λ i, append_one (t_slice i (i + 1) key) (t_slice i (i + 1) value)).
End Append.

(** ** The sidecar as a function of the appended tokens *)

(** Tokens that have left the BF16 residual, and the groups they close. *)
Definition old_count (n : nat) : nat := (n - residual_count n)%nat.
Definition closed_count (n : nat) : nat := (old_count n / GROUP)%nat.

Definition closed_rows {A} (rows : list A) : list A :=
  take (closed_count (length rows) * GROUP) rows.
Definition open_rows {A} (rows : list A) : list A :=
  drop (closed_count (length rows) * GROUP) (take (old_count (length rows)) rows).
Definition recent_rows {A} (rows : list A) : list A := drop (old_count (length rows)) rows.

Definition when_nonempty {A B} (rows : list A) (x : B) : option B :=
  match rows with [] => None | _ => Some x end.

(** The sidecar that holds the open group [ok]/[ov] and the residual [rk]/[rv]. *)
Definition sidecar_with (h dk dv : nat) (ok ov rk rv : list (list (list Z))) : Sidecar :=
  {| open_k := when_nonempty ok (mkTensor3 h dk ok);
     open_v_packed := when_nonempty ok
       (mkTensor3 h ((v_pad_dim_of dv * 2 + 7) / 8) (v_packed_rows dv (widen ov)));
     open_v_min := when_nonempty ok (mkTensor3 h (v_groups_of dv) (v_mins dv (widen ov)));
     open_v_scale := when_nonempty ok (mkTensor3 h (v_groups_of dv) (v_scales dv (widen ov)));
     recent_k := when_nonempty rk (mkTensor3 h dk rk);
     recent_v := when_nonempty rk (mkTensor3 h dv rv) |}.

Definition sidecar_of (h dk dv : nat) (ks vs : list (list (list Z))) : Sidecar :=
  sidecar_with h dk dv (open_rows ks) (open_rows vs) (recent_rows ks) (recent_rows vs).

(** ** Counting *)

Lemma old_count_small n : (n ≤ 4)%nat → old_count n = 0%nat.
Proof. unfold old_count, residual_count, RESIDUAL. lia. Qed.

Lemma old_count_big n : (4 ≤ n)%nat → old_count n = (n - 4)%nat.
Proof. unfold old_count, residual_count, RESIDUAL. lia. Qed.

Lemma old_count_bound n : (old_count n ≤ n ∧ n - old_count n ≤ 4)%nat.
Proof. unfold old_count, residual_count, RESIDUAL. lia. Qed.

Lemma closed_count_bound n : (closed_count n * GROUP ≤ old_count n < (closed_count n + 1) * GROUP)%nat.
Proof.
  unfold closed_count, GROUP. pose proof (Nat.div_mod_eq (old_count n) 32).
  pose proof (Nat.mod_upper_bound (old_count n) 32 ltac:(lia)). lia.
Qed.

(** One more token: the group fills or it does not. *)
Lemma closed_count_step n :
  (4 ≤ n)%nat →
  (old_count n + 1 = (closed_count n + 1) * GROUP ∧ closed_count (n + 1) = closed_count n + 1)%nat
  ∨ (old_count n + 1 < (closed_count n + 1) * GROUP ∧ closed_count (n + 1) = closed_count n)%nat.
Proof.
  intros Hn. pose proof (closed_count_bound n) as Hb.
  assert (old_count (n + 1) = old_count n + 1)%nat as E by (rewrite !old_count_big; lia).
  pose proof (closed_count_bound (n + 1)) as Hb'. rewrite E in Hb'.
  unfold GROUP in *. destruct (decide (old_count n + 1 = (closed_count n + 1) * 32)%nat).
  - left. split; [done|]. nia.
  - right. split; nia.
Qed.

Lemma closed_open_split {A} (rows : list A) :
  take (old_count (length rows)) rows = closed_rows rows ++ open_rows rows.
Proof.
  unfold closed_rows, open_rows. pose proof (closed_count_bound (length rows)).
  rewrite <-(take_drop (closed_count (length rows) * GROUP) (take _ rows)) at 1.
  f_equal. rewrite take_take. f_equal. lia.
Qed.

Lemma old_recent_split {A} (rows : list A) :
  rows = take (old_count (length rows)) rows ++ recent_rows rows.
Proof. unfold recent_rows. by rewrite take_drop. Qed.

Lemma closed_rows_length {A} (rows : list A) :
  length (closed_rows rows) = (closed_count (length rows) * GROUP)%nat.
Proof.
  unfold closed_rows. rewrite length_take. pose proof (closed_count_bound (length rows)).
  pose proof (old_count_bound (length rows)). lia.
Qed.

Lemma open_rows_length {A} (rows : list A) :
  length (open_rows rows) = (old_count (length rows) - closed_count (length rows) * GROUP)%nat.
Proof.
  unfold open_rows. rewrite length_drop, length_take. pose proof (old_count_bound (length rows)). lia.
Qed.

Lemma recent_rows_length {A} (rows : list A) :
  length (recent_rows rows) = (length rows - old_count (length rows))%nat.
Proof. unfold recent_rows. apply length_drop. Qed.

(** ** One more token *)

Lemma rows_small {A} (rows : list A) :
  (length rows ≤ 4)%nat → closed_rows rows = [] ∧ open_rows rows = [] ∧ recent_rows rows = rows.
Proof.
  intros H. unfold closed_rows, open_rows, recent_rows, closed_count.
  rewrite old_count_small by done. rewrite Nat.Div0.div_0_l. done.
Qed.

Lemma age_split {A} (rows : list A) x :
  (4 ≤ length rows)%nat →
  ∃ y r, recent_rows rows = y :: r ∧ (length r = 3)%nat
    ∧ recent_rows (rows ++ [x]) = r ++ [x]
    ∧ take (old_count (length (rows ++ [x]))) (rows ++ [x])
      = take (old_count (length rows)) rows ++ [y].
Proof.
  intros H. unfold recent_rows. rewrite length_app. cbn [length].
  rewrite !old_count_big by lia. set (n := length rows) in *.
  destruct (drop (n - 4) rows) as [|y r] eqn:E.
  { apply (f_equal length) in E. rewrite length_drop in E. simpl in E. lia. }
  exists y, r. pose proof (f_equal length E) as El. rewrite length_drop in El. simpl in El.
  split; [done|]. split; [lia|]. replace (n + 1 - 4)%nat with (n - 4 + 1)%nat by lia.
  rewrite drop_app_le, take_app_le by lia. split.
  - by rewrite <-drop_drop, E.
  - by rewrite <-take_take_drop, E.
Qed.

Lemma rows_step {A} (rows : list A) x :
  (4 ≤ length rows)%nat →
  ∃ y r, recent_rows rows = y :: r ∧ (length r = 3)%nat ∧ recent_rows (rows ++ [x]) = r ++ [x]
    ∧ ((length (open_rows rows) + 1 = GROUP
        ∧ closed_rows (rows ++ [x]) = closed_rows rows ++ open_rows rows ++ [y]
        ∧ open_rows (rows ++ [x]) = []
        ∧ closed_count (length rows + 1) = closed_count (length rows) + 1)
       ∨ (length (open_rows rows) + 1 ≠ GROUP
          ∧ closed_rows (rows ++ [x]) = closed_rows rows
          ∧ open_rows (rows ++ [x]) = open_rows rows ++ [y]
          ∧ closed_count (length rows + 1) = closed_count (length rows)))%nat.
Proof.
  intros H. destruct (age_split rows x H) as (y & r & Hr & Hlr & Hr' & Hold).
  exists y, r. do 3 (split; [done|]).
  pose proof (closed_open_split rows) as Hs. pose proof (closed_open_split (rows ++ [x])) as Hs'.
  pose proof (closed_rows_length rows) as Lc. pose proof (closed_rows_length (rows ++ [x])) as Lc'.
  pose proof (open_rows_length rows) as Lo. pose proof (open_rows_length (rows ++ [x])) as Lo'.
  rewrite Hold, Hs, <-app_assoc in Hs'. rewrite length_app in Lc', Lo'. cbn [length] in Lc', Lo'.
  pose proof (closed_count_bound (length rows)).
  assert (old_count (length rows + 1) = old_count (length rows) + 1)%nat as E
    by (rewrite !old_count_big; lia).
  destruct (closed_count_step (length rows) H) as [[E1 E2]|[E1 E2]]; rewrite E2 in Lc', Lo'.
  - left. split; [unfold GROUP in *; lia|].
    assert (open_rows (rows ++ [x]) = []) as Hn by (apply nil_length_inv; lia).
    rewrite Hn, app_nil_r in Hs'. by rewrite <-Hs'.
  - right. split; [unfold GROUP in *; lia|].
    apply app_inj_1 in Hs' as [Hc Ho]; [by rewrite Hc, Ho|]. by rewrite Lc, Lc'.
Qed.

(** ** The size of a sidecar *)

Lemma numel_when {A} h d (n : nat) (b : list (list (list Z))) (rows : list (list (list A))) :
  length b = n → length rows = n → Forall (wf_row h d) rows →
  numel (when_nonempty b (mkTensor3 h d rows)) = (n * (h * d))%nat.
Proof.
  intros Hb Hl Hw. destruct b as [|x b]; cbn [when_nonempty numel].
  - subst n. reflexivity.
  - unfold flatten3. cbn [t_rows]. fold (flat rows). rewrite (flat_length h d) by done. by rewrite Hl.
Qed.

Lemma v_packed_rows_wf `{!TorchFloatLaws TF} h dv rows :
  Forall (wf_row h dv) rows → Forall (wf_row h ((v_pad_dim_of dv * 2 + 7) / 8)) (v_packed_rows dv rows).
Proof.
  intros H. unfold v_packed_rows. apply (map_map_wf _ h (v_pad_dim_of dv)); [intros; apply stream_row_length|].
  unfold v_codes. apply (map_map_wf _ h dv); [|done]. intros r Hr. by apply v_row_codes_ok.
Qed.

Lemma sidecar_bytes_with `{!TorchFloatLaws TF} h dk dv ok ov rk rv :
  length ok = length ov → length rk = length rv →
  Forall (wf_row h dk) ok → Forall (wf_row h dv) ov → Forall (wf_row h dk) rk → Forall (wf_row h dv) rv →
  sidecar_bytes (sidecar_with h dk dv ok ov rk rv)
  = (length ok * (h * dk * 2 + h * ((v_pad_dim_of dv * 2 + 7) / 8) + h * v_groups_of dv * 8)
     + length rk * (h * (dk + dv) * 2))%nat.
Proof.
  intros Ho Hr Wok Wov Wrk Wrv. unfold sidecar_bytes, sidecar_with.
  cbn [open_k open_v_packed open_v_min open_v_scale recent_k recent_v].
  assert (Forall (wf_row h dv) (widen ov)) as Ww.
  { unfold widen, map3. rewrite Forall_map. eapply Forall_impl; [|exact Wov]. intros. by apply wf_row_map. }
  assert (length (widen ov) = length ok) as Lw by (unfold widen, map3; by rewrite length_map).
  rewrite !(numel_when h dk (length ok) ok) by done.
  rewrite (numel_when h ((v_pad_dim_of dv * 2 + 7) / 8) (length ok) ok)
    by (done || (unfold v_packed_rows, v_codes; by rewrite !length_map) || by apply v_packed_rows_wf).
  rewrite (numel_when h (v_groups_of dv) (length ok) ok (v_mins dv (widen ov)))
    by (done || (unfold v_mins; by rewrite length_map) || by apply v_mins_wf).
  rewrite (numel_when h (v_groups_of dv) (length ok) ok (v_scales dv (widen ov)))
    by (done || (unfold v_scales; by rewrite length_map) || by apply v_scales_wf).
  rewrite (numel_when h dk (length rk) rk) by done.
  rewrite (numel_when h dv (length rk) rk) by done. lia.
Qed.

(** The sidecar of any number of tokens, and the staging bound. *)
Lemma sidecar_of_bytes `{!TorchFloatLaws TF} h dk dv ks vs :
  length ks = length vs → Forall (wf_row h dk) ks → Forall (wf_row h dv) vs →
  sidecar_bytes (sidecar_of h dk dv ks vs)
  = ((old_count (length ks) mod GROUP)
     * (h * dk * 2 + h * ((v_pad_dim_of dv * 2 + 7) / 8) + h * v_groups_of dv * 8)
     + residual_count (length ks) * (h * (dk + dv) * 2))%nat.
Proof.
  intros Hl Hk Hv. unfold sidecar_of.
  assert (∀ d (rows : list (list (list Z))), Forall (wf_row h d) rows →
            Forall (wf_row h d) (open_rows rows) ∧ Forall (wf_row h d) (recent_rows rows)) as Hw.
  { intros d rows H. rewrite (old_recent_split rows), closed_open_split in H.
    apply Forall_app in H as [Ho Hr]. by apply Forall_app in Ho as [_ Ho]. }
  destruct (Hw _ _ Hk) as [Wok Wrk]. destruct (Hw _ _ Hv) as [Wov Wrv].
  rewrite sidecar_bytes_with; try done.
  - rewrite open_rows_length, recent_rows_length.
    assert (old_count (length ks) - closed_count (length ks) * GROUP = old_count (length ks) mod GROUP)%nat
      as -> by (unfold closed_count; rewrite Nat.Div0.mod_eq; lia).
    assert (length ks - old_count (length ks) = residual_count (length ks))%nat as ->
      by (unfold old_count, residual_count; lia).
    done.
  - by rewrite !open_rows_length, Hl.
  - by rewrite !recent_rows_length, Hl.
Qed.

Lemma sidecar_of_staging `{!TorchFloatLaws TF} h dk dv ks vs :
  length ks = length vs → Forall (wf_row h dk) ks → Forall (wf_row h dv) vs →
  (sidecar_bytes (sidecar_of h dk dv ks vs) ≤ staging_bytes_nat h dk dv)%nat
  ∧ (old_count (length ks) mod GROUP = 31%nat →
     sidecar_bytes (sidecar_of h dk dv ks vs) = staging_bytes_nat h dk dv).
Proof.
  intros Hl Hk Hv. rewrite sidecar_of_bytes by done.
  change ((v_pad_dim_of dv * 2 + 7) / 8)%nat with (packed_dim_nat (v_groups_nat dv * 32) 2).
  change (v_groups_of dv) with (v_groups_nat dv). unfold staging_bytes_nat.
  pose proof (Nat.mod_upper_bound (old_count (length ks)) GROUP ltac:(unfold GROUP; lia)) as Hm.
  assert (residual_count (length ks) ≤ 4)%nat as Hr by (unfold residual_count, RESIDUAL; lia).
  set (w := (h * dk * 2 + _ + _)%nat). set (r := (h * (dk + dv) * 2)%nat). unfold GROUP in *. split.
  - apply Nat.add_le_mono; apply Nat.mul_le_mono_r; lia.
  - intros Hm31. rewrite Hm31. do 2 f_equal.
    destruct (decide (length ks ≤ 4)%nat) as [Hs|Hs]; [|unfold residual_count, RESIDUAL; lia].
    rewrite old_count_small in Hm31 by done. discriminate Hm31.
Qed.

(** ** The laws of an owner, and what its flush promises *)

Class SidecarOwnerLaws {S} (O : SidecarOwner S) : Prop := {
  owner_get_update : ∀ sc s, owner_sidecar (owner_update sc s) = sc;
  owner_update_update : ∀ a b s, owner_update a (owner_update b s) = owner_update a s;
  owner_geometry_update : ∀ sc s, owner_geometry (owner_update sc s) = owner_geometry s
}.

Section AppendSpec.
Context `{!TorchFloatLaws TF} {S : Type} `{O : !SidecarOwner S} `{!SidecarOwnerLaws O}.
Variables (h dk dv : nat).

(** [ext kc vc] is a state whose pages hold the closed tokens [kc]/[vc]; [can i]
    says that the page of group [i] can be written. *)
Variables (ext : list (list (list Z)) → list (list (list Z)) → S) (can : nat → Prop).

Definition flush_closes : Prop :=
  ∀ kc vc gk gv rk rv,
    length kc = length vc → (GROUP | length kc)%nat → can (length kc / GROUP)%nat →
    length gk = GROUP ∧ Forall (wf_row h dk) gk → length gv = GROUP ∧ Forall (wf_row h dv) gv →
    owner_flush (owner_update (sidecar_with h dk dv gk gv rk rv) (ext kc vc))
    = (Ok tt, owner_update (sidecar_with h dk dv [] [] rk rv) (ext (kc ++ gk) (vc ++ gv))).

(** The state of a sequence as a function of its tokens. *)
Definition state_of (ks vs : list (list (list Z))) : S :=
  owner_update (sidecar_of h dk dv ks vs) (ext (closed_rows ks) (closed_rows vs)).

Lemma cat_when {A} h' d (r x : list (list (list A))) :
  cat_tensor (when_nonempty r (mkTensor3 h' d r)) (mkTensor3 h' d x) = mkTensor3 h' d (r ++ x).
Proof. by destruct r. Qed.

Lemma when_app {A B} (r : list A) x (b : B) : when_nonempty (r ++ [x]) b = Some b.
Proof. by destruct r. Qed.

Lemma cat_when_same {A B} h' d (r : list B) (r' x : list (list (list A))) :
  length r = length r' →
  cat_tensor (when_nonempty r (mkTensor3 h' d r')) (mkTensor3 h' d x) = mkTensor3 h' d (r' ++ x).
Proof. destruct r, r'; intros H; done. Qed.

Lemma push_recent_with ok ov rk rv (k v : list (list f32)) :
  length rk = length rv →
  push_recent (mkTensor3 h dk [k]) (mkTensor3 h dv [v]) (sidecar_with h dk dv ok ov rk rv)
  = sidecar_with h dk dv ok ov (rk ++ [map (map bf16_of_f32) k]) (rv ++ [map (map bf16_of_f32) v]).
Proof.
  intros Hl. unfold push_recent, sidecar_with, to_bf16, t_map.
  cbn [open_k open_v_packed open_v_min open_v_scale recent_k recent_v t_heads t_dim t_rows map3 map].
  rewrite cat_when, cat_when_same by done. by rewrite !when_app.
Qed.

Lemma drop_oldest_with ok ov rk rv :
  (2 ≤ length rk)%nat →
  drop_oldest (sidecar_with h dk dv ok ov rk rv)
  = sidecar_with h dk dv ok ov (drop 1 rk) (drop 1 rv).
Proof. by destruct rk as [|? [|? ?]]; simpl; try lia. Qed.

Lemma push_open_with ok ov rk rv k v :
  length ok = length ov →
  push_open (mkTensor3 h dk [k])
    (mkTensor3 h ((v_pad_dim_of dv * 2 + 7) / 8) (v_packed_rows dv (widen [v])))
    (mkTensor3 h (v_groups_of dv) (v_mins dv (widen [v])))
    (mkTensor3 h (v_groups_of dv) (v_scales dv (widen [v])))
    (sidecar_with h dk dv ok ov rk rv)
  = sidecar_with h dk dv (ok ++ [k]) (ov ++ [v]) rk rv.
Proof.
  intros Hl. unfold push_open, sidecar_with.
  cbn [open_k open_v_packed open_v_min open_v_scale recent_k recent_v].
  assert (∀ {A} (f : list (list (list Z)) → list (list (list A))),
            f [] = [] → length ok = length ov → ∀ d,
            cat_tensor (when_nonempty ok (mkTensor3 h d (f ov))) (mkTensor3 h d (f [v]))
            = mkTensor3 h d (f ov ++ f [v])) as Hcat.
  { intros A f Hf Hlen d. destruct ok, ov; simpl in *; try done. by rewrite Hf. }
  rewrite cat_when.
  rewrite (Hcat _ (λ x, v_packed_rows dv (widen x))), (Hcat _ (λ x, v_mins dv (widen x))),
    (Hcat _ (λ x, v_scales dv (widen x))) by done.
  rewrite !when_app. unfold v_packed_rows, v_codes, v_mins, v_scales, widen, map3.
  by rewrite !map_app.
Qed.

Lemma append_aged_spec ok ov rk rv k v e :
  length ok = length ov → wf_row h dv v →
  append_aged (mkTensor3 h dk [k]) (mkTensor3 h dv [v])
    (owner_update (sidecar_with h dk dv ok ov rk rv) e)
  = let s := owner_update (sidecar_with h dk dv (ok ++ [k]) (ov ++ [v]) rk rv) e in
    if (length ok + 1 =? GROUP)%nat then owner_flush s else (Ok tt, s).
Proof.
  intros Hl Hv. unfold append_aged, t_map. cbn [t_heads t_dim t_rows].
  change (map3 f32_of_bf16 [v]) with (widen [v]).
  rewrite v_primary_quantize by (constructor; [by apply wf_row_map|constructor]).
  unfold modify_sidecar. rewrite st_bind_eq. cbn [st_lift]. rewrite st_bind_eq. cbn [st_modify].
  rewrite owner_get_update, owner_update_update, push_open_with by done.
  rewrite st_bind_eq. cbn [st_get]. rewrite owner_get_update.
  cbn [sidecar_with open_k]. rewrite when_app. cbn [tensor_len]. unfold t_tokens. cbn [t_rows].
  rewrite length_app. cbn [length]. by destruct (length ok + 1 =? GROUP)%nat.
Qed.

(** A state whose oldest residual token [y]/[z] has been moved to the open group
    is, after the flush a full group triggers, the state with one more token. *)
Lemma aged_token_closes ks vs k' v' y r z q :
  flush_closes → length ks = length vs → (4 ≤ length ks)%nat →
  Forall (wf_row h dk) ks → Forall (wf_row h dv) vs →
  recent_rows ks = y :: r → recent_rows vs = z :: q →
  (∀ i, (i < closed_count (length ks + 1))%nat → can i) →
  (let s := owner_update (sidecar_with h dk dv (open_rows ks ++ [y]) (open_rows vs ++ [z])
                            (r ++ [k']) (q ++ [v'])) (ext (closed_rows ks) (closed_rows vs)) in
   if (length (open_rows ks) + 1 =? GROUP)%nat then owner_flush s else (Ok tt, s))
  = (Ok tt, state_of (ks ++ [k']) (vs ++ [v'])).
Proof.
  intros HF Hl Hn Hwk Hwv Hr Hq Hcan. unfold state_of, sidecar_of. cbv zeta.
  destruct (rows_step ks k' Hn) as (y' & r' & Hr1 & Hlr & Hr' & Hcase).
  destruct (rows_step vs v' ltac:(lia)) as (z' & q' & Hq1 & Hlq & Hq' & Hcase').
  rewrite Hr in Hr1. injection Hr1 as <- <-. rewrite Hq in Hq1. injection Hq1 as <- <-.
  assert (length (open_rows ks) = length (open_rows vs)) as Hol by (by rewrite !open_rows_length, Hl).
  rewrite Hr', Hq'.
  destruct Hcase as [(Ho & Hc & Hop & Hcc)|(Ho & Hc & Hop & Hcc)];
  destruct Hcase' as [(Ho' & Hc' & Hop' & Hcc')|(Ho' & Hc' & Hop' & Hcc')]; try (exfalso; lia);
  rewrite Hc, Hc', Hop, Hop'.
  - rewrite (proj2 (Nat.eqb_eq _ _) Ho).
    assert (∀ d (rows : list (list (list Z))) y' r', Forall (wf_row h d) rows →
              recent_rows rows = y' :: r' → Forall (wf_row h d) (open_rows rows ++ [y'])) as Hfull.
    { intros d rows y' r' Hw Er. rewrite (old_recent_split rows), closed_open_split, Er in Hw.
      rewrite <-app_assoc in Hw. apply Forall_app in Hw as [_ Hw]. apply Forall_app in Hw as [Ha Hb].
      apply Forall_app. split; [done|]. inversion Hb; subst. by constructor. }
    apply HF.
    + by rewrite !closed_rows_length, Hl.
    + rewrite closed_rows_length. by exists (closed_count (length ks)).
    + rewrite closed_rows_length, Nat.div_mul by (unfold GROUP; lia). apply Hcan. lia.
    + split; [by rewrite length_app|]. by eapply Hfull.
    + split; [by rewrite length_app|]. by eapply Hfull.
  - by rewrite (proj2 (Nat.eqb_neq _ _) Ho).
Qed.

(** The residual is long enough to release a token, or it is not. *)
Lemma append_one_spec ks vs (k v : list (list f32)) :
  flush_closes → length ks = length vs →
  Forall (wf_row h dk) ks → Forall (wf_row h dv) vs → wf_row h dk k → wf_row h dv v →
  (∀ i, (i < closed_count (length ks + 1))%nat → can i) →
  append_one (mkTensor3 h dk [k]) (mkTensor3 h dv [v]) (state_of ks vs)
  = (Ok tt, state_of (ks ++ [map (map bf16_of_f32) k]) (vs ++ [map (map bf16_of_f32) v])).
Proof.
  intros HF Hl Hwk Hwv Hk Hv Hcan.
  set (k' := map (map bf16_of_f32) k). set (v' := map (map bf16_of_f32) v).
  unfold append_one, state_of, modify_sidecar, sidecar_of. rewrite st_bind_eq. cbn [st_modify].
  assert (length (recent_rows ks) = length (recent_rows vs)) as Hrl
    by (by rewrite !recent_rows_length, Hl).
  rewrite owner_get_update, owner_update_update, push_recent_with by done. fold k' v'.
  rewrite st_bind_eq. cbn [st_get]. rewrite owner_get_update. cbn [sidecar_with recent_k recent_v].
  rewrite !when_app. unfold t_tokens. cbn [t_rows]. rewrite length_app, recent_rows_length. cbn [length].
  destruct (decide (length ks < 4)%nat) as [Hn|Hn].
  - rewrite old_count_small by lia. destruct (Nat.ltb_spec RESIDUAL (length ks - 0 + 1)) as [Hb|_];
      [unfold RESIDUAL in Hb; lia|].
    destruct (rows_small ks ltac:(lia)) as (-> & -> & ->).
    destruct (rows_small vs ltac:(lia)) as (-> & -> & ->).
    destruct (rows_small (ks ++ [k'])) as (-> & -> & ->); [rewrite length_app; cbn; lia|].
    by destruct (rows_small (vs ++ [v'])) as (-> & -> & ->); [rewrite length_app; cbn; lia|].
  - destruct (rows_step ks k' ltac:(lia)) as (y & r & Hr & Hlr & _).
    destruct (rows_step vs v' ltac:(lia)) as (z & q & Hq & Hlq & _).
    rewrite old_count_big by lia.
    destruct (Nat.ltb_spec RESIDUAL (length ks - (length ks - 4) + 1)) as [_|Hb];
      [|unfold RESIDUAL in Hb; lia].
    rewrite Hr, Hq. unfold t_slice. cbn [t_heads t_dim t_rows app slice drop take Nat.sub].
    rewrite st_bind_eq. cbn [st_modify]. rewrite owner_get_update, owner_update_update.
    rewrite drop_oldest_with by (cbn [length]; rewrite length_app; lia). cbn [drop].
    assert (wf_row h dv z) as Hz.
    { rewrite (old_recent_split vs), Hq in Hwv. apply Forall_app in Hwv as [_ Hwv]. by inversion Hwv. }
    rewrite append_aged_spec by (done || by rewrite !open_rows_length, Hl).
    apply aged_token_closes; try done. lia.
Qed.

(** The loop of [append]. *)
Lemma append_loop_spec ks vs (key value : tensor3 f32) :
  flush_closes → length ks = length vs →
  Forall (wf_row h dk) ks → Forall (wf_row h dv) vs →
  wf_tensor3 key → wf_tensor3 value → t_heads key = h → t_dim key = dk →
  t_heads value = h → t_dim value = dv → t_tokens key = t_tokens value →
  (∀ i, (i < closed_count (length ks + t_tokens key))%nat → can i) →
  st_for (seq 0 (t_tokens key)) (λ i, append_one (t_slice i (i + 1) key) (t_slice i (i + 1) value))
    (state_of ks vs)
  = (Ok tt, state_of (ks ++ map3 bf16_of_f32 (t_rows key)) (vs ++ map3 bf16_of_f32 (t_rows value))).
Proof.
  intros HF Hl Hwk Hwv Hk Hv Eh1 Ed1 Eh Ed2 Ht Hcan.
  unfold wf_tensor3 in Hk, Hv. rewrite Eh1, Ed1 in Hk. rewrite Eh, Ed2 in Hv.
  pose (st i := state_of (ks ++ map3 bf16_of_f32 (take i (t_rows key)))
                         (vs ++ map3 bf16_of_f32 (take i (t_rows value)))).
  assert (st 0%nat = state_of ks vs) as E0.
  { unfold st, map3. rewrite !take_0. cbn [map]. by rewrite !app_nil_r. }
  assert (st (t_tokens key) = state_of (ks ++ map3 bf16_of_f32 (t_rows key))
                                (vs ++ map3 bf16_of_f32 (t_rows value))) as E1.
  { unfold st. rewrite Ht at 2. unfold t_tokens. by rewrite !firstn_all. }
  rewrite <-E0, <-E1. apply st_for_seq. unfold st. clear st E0 E1.
  intros i Hi. unfold t_tokens in *.
  destruct (lookup_lt_is_Some_2 (t_rows key) i Hi) as [k Ek].
  destruct (lookup_lt_is_Some_2 (t_rows value) i ltac:(lia)) as [v Ev].
  assert (∀ {A} (l : list A) x, l !! i = Some x →
            slice i (i + 1) l = [x] ∧ take (i + 1) l = take i l ++ [x]) as Hsl.
  { intros A l x Ex. split.
    - unfold slice. rewrite (drop_S _ _ _ Ex). by replace (i + 1 - i)%nat with 1%nat by lia.
    - rewrite Nat.add_1_r. by apply take_S_r. }
  unfold t_slice. destruct (Hsl _ _ _ Ek) as [-> ->]. destruct (Hsl _ _ _ Ev) as [-> ->]. rewrite Eh, Eh1, Ed1, Ed2.
  rewrite append_one_spec.
  - unfold map3. rewrite !map_app, !app_assoc. done.
  - done.
  - rewrite !length_app. unfold map3. rewrite !length_map, !length_take. lia.
  - apply Forall_app. split; [done|]. unfold map3. rewrite Forall_map.
    eapply Forall_impl; [|by apply Forall_take, Hk]. intros. by apply wf_row_map.
  - apply Forall_app. split; [done|]. unfold map3. rewrite Forall_map.
    eapply Forall_impl; [|by apply Forall_take, Hv]. intros. by apply wf_row_map.
  - by eapply Forall_lookup_1 in Hk.
  - by eapply Forall_lookup_1 in Hv.
  - intros j Hj. apply Hcan. eapply Nat.lt_le_trans; [exact Hj|].
    rewrite length_app. unfold map3. rewrite length_map, length_take.
    unfold closed_count. apply Nat.Div0.div_le_mono. unfold old_count, residual_count, RESIDUAL. lia.
Qed.
End AppendSpec.
End SidecarDef.
