(* ===== verification/Tail.v ===== *)
(** * Pages and tail of a sequence

    What the classes of [rabit_kv2.py] store and show for a sequence, as
    functions of its tokens: the page of a closed 32-token group ([page_of]), the
    list of pages ([pages_of]), the decoding of the open group
    ([Rabit2OnlineStateRef._decode_open], the same code as in
    [Rabit2SingleSequenceRuntime.tail_materialize]), and the values a reader is
    shown ([served_k], [served_v]).  [served_k_oracle] relates them to the
    whole-prefix oracle. *)

From Stdlib Require Import ZArith Lia.
From stdpp Require Import base tactics numbers list option.
From S2P Require Import Prelude Layout Torch BitPack Meta Quant Decoded Page Sidecar.

(** A multiple of [n] rows, chunk by chunk. *)
Lemma rows_of_ind {A} n (P : list A → Prop) :
  (0 < n)%nat → P [] →
  (∀ g l, length g = n → (n | length l)%nat → P l → P (g ++ l)) →
  ∀ l, (n | length l)%nat → P l.
Proof.
  intros Hn H0 HS l [q Hq]. revert l Hq. induction q as [|q IH]; intros l Hq.
  - by apply nil_length_inv in Hq as ->.
  - rewrite <-(take_drop n l). apply HS.
    + rewrite length_take. lia.
    + exists q. rewrite length_drop. lia.
    + apply IH. rewrite length_drop. lia.
Qed.

Lemma rows_of_one {A} n (g l : list A) :
  (0 < n)%nat → length g = n → rows_of n (g ++ l) = g :: rows_of n l.
Proof.
  intros Hn Hg. rewrite rows_of_app by (done || by (exists 1%nat; lia)).
  unfold rows_of at 1. rewrite Hg, Nat.div_same by lia. unfold view2. simpl.
  by rewrite take_ge by lia.
Qed.

Lemma rows_of_wf {A} h d (l : list (list (list A))) :
  Forall (wf_row h d) l → (GROUP | length l)%nat →
  Forall (λ g, length g = GROUP ∧ Forall (wf_row h d) g) (rows_of GROUP l).
Proof.
  intros Hw Hdiv. revert Hw. pattern l. revert l Hdiv.
  apply (rows_of_ind GROUP); [unfold GROUP; lia|done|].
  intros g l Hg Hdl IH [Hwg Hwl]%Forall_app. rewrite rows_of_one; [|unfold GROUP; lia|done].
  by constructor; [|apply IH].
Qed.

(** The closed groups, the open group and the residual of well-formed tokens. *)
Lemma tail_rows_wf {A} h d (rows : list (list (list A))) :
  Forall (wf_row h d) rows → Forall (wf_row h d) (open_rows rows) ∧ Forall (wf_row h d) (recent_rows rows).
Proof.
  intros H. rewrite (old_recent_split rows), closed_open_split in H.
  apply Forall_app in H as [Ho Hr]. by apply Forall_app in Ho as [_ Ho].
Qed.

Lemma closed_groups_wf {A} h d (rows : list (list (list A))) :
  Forall (wf_row h d) rows →
  Forall (λ g, length g = GROUP ∧ Forall (wf_row h d) g) (rows_of GROUP (closed_rows rows)).
Proof.
  intros H. apply rows_of_wf; [by apply Forall_take|].
  rewrite closed_rows_length. by exists (closed_count (length rows)).
Qed.

Section Tail.
Context `{TF : TorchFloat}.

Definition decode_open (sc : Sidecar) (head_size_v : nat) (to : f32 → f32) :
    result (list (list (list f32)) * list (list (list f32))) :=
  match open_k sc with
  | None => Ok ([], [])
  | Some ok =>
      match open_v_packed sc, open_v_min sc, open_v_scale sc with
      | Some packed, Some q_min, Some scale =>
          k_state ← quantize_k3_sequence_affine_ref (t_map f32_of_bf16 ok) GROUP META_GROUP;
          k ← dequantize_k3_sequence_affine_ref k_state to;
          v_min_meta ← encode_v_meta q_min;
          v_scale_meta ← encode_v_meta scale;
          let v_view t m := mkTensor3 (t_heads t) (t_dim t)
            (view3 (t_tokens t) (t_heads t) (t_dim t) (decode_metadata_uint8_group_ref m)) in
          v ← _dequantize_v2_from_primary_ref packed (v_view q_min v_min_meta)
                (v_view scale v_scale_meta) head_size_v GROUP to;
          Ok (k, v)
      | _, _, _ => Err AssertionError
      end
  end.

(** The page of a closed group of 32 BF16 tokens. *)
Definition write_page (err : exn) (h dk dv : nat) (gk gv : list (list (list Z))) : result (list Z) :=
  v ← _quantize_v2_primary_ref (mkTensor3 h dv (widen gv)) GROUP;
  encode_page_from_primary err (layout_of GROUP h dk dv) (mkTensor3 h dk (widen gk))
    v.1.1.1 v.1.1.2 v.1.2.

Definition page_of (h dk dv : nat) (gk gv : list (list (list Z))) : list Z :=
  match write_page ValueError h dk dv gk gv with Ok p => p | Err _ => [] end.

(** The pages of a closed prefix. *)
Definition pages_of (h dk dv : nat) (kc vc : list (list (list Z))) : list (list Z) :=
  zip_with (page_of h dk dv) (rows_of GROUP kc) (rows_of GROUP vc).

(** What a reader is shown. *)
Definition k_shown (h dk : nat) (g : list (list (list Z))) : list (list (list f32)) :=
  k_decoded_meta (mkTensor3 h dk (widen g)).
Definition v_shown (h dv : nat) (g : list (list (list Z))) : list (list (list f32)) :=
  v_decoded h dv (widen g).

Definition served_k (h dk : nat) (ks : list (list (list Z))) : list (list (list f32)) :=
  concat (map (k_shown h dk) (rows_of GROUP (closed_rows ks)))
  ++ k_shown h dk (open_rows ks) ++ widen (recent_rows ks).
Definition served_v (h dv : nat) (vs : list (list (list Z))) : list (list (list f32)) :=
  concat (map (v_shown h dv) (rows_of GROUP (closed_rows vs)))
  ++ v_shown h dv (open_rows vs) ++ widen (recent_rows vs).

(** ** Widening *)

Lemma widen_wf h d rows : Forall (wf_row h d) rows → Forall (wf_row h d) (widen rows).
Proof.
  intros H. unfold widen, map3. rewrite Forall_map. eapply Forall_impl; [|exact H].
  intros. by apply wf_row_map.
Qed.

Lemma widen_length rows : length (widen rows) = length rows.
Proof. apply length_map. Qed.

Lemma widen_app a b : widen (a ++ b) = widen a ++ widen b.
Proof. apply map_app. Qed.

Lemma bf16_to_widen to rows : bf16_to to rows = map3 to (widen rows).
Proof. unfold bf16_to, widen. by rewrite map3_map3. Qed.

Lemma k_shown_nil h dk : k_shown h dk [] = [].
Proof. reflexivity. Qed.
Lemma v_shown_nil h dv : v_shown h dv [] = [].
Proof. reflexivity. Qed.

Section TailSpec.
Context `{!TorchFloatLaws TF}.
Variables (h dk dv : nat).

(** ** The open group *)

Lemma decode_open_spec ok ov rk rv to :
  length ok = length ov → Forall (wf_row h dk) ok → Forall (wf_row h dv) ov →
  decode_open (sidecar_with h dk dv ok ov rk rv) dv to
  = Ok (map3 to (k_shown h dk ok), map3 to (v_shown h dv ov)).
Proof.
  intros Hl Hk Hv. unfold decode_open, sidecar_with.
  cbn [open_k open_v_packed open_v_min open_v_scale].
  destruct ok as [|x ok]; [by apply symmetry, nil_length_inv in Hl as ->|].
  cbn [when_nonempty]. set (kr := x :: ok) in *.
  change (t_map f32_of_bf16 (mkTensor3 h dk kr)) with (mkTensor3 h dk (widen kr)).
  destruct (k_dequantize_quantize_meta (mkTensor3 h dk (widen kr)) to) as (st & Hq & Hd);
    [by apply widen_wf|unfold t_tokens; cbn; lia|].
  rewrite Hq, result_bind_ok, Hd, result_bind_ok.
  set (vr := widen ov). unfold encode_v_meta, flatten3, t_tokens. cbn [t_heads t_dim t_rows].
  fold (flat (v_mins dv vr)) (flat (v_scales dv vr)).
  destruct (decode_encode_metadata (flat (v_mins dv vr)) [length (v_mins dv vr); h; v_groups_of dv; 1]%nat)
    as (m1 & E1 & D1).
  destruct (decode_encode_metadata (flat (v_scales dv vr)) [length (v_scales dv vr); h; v_groups_of dv; 1]%nat)
    as (m2 & E2 & D2).
  rewrite E1, result_bind_ok, E2, result_bind_ok.
  rewrite v_primary_dequantize by (by apply widen_wf). rewrite result_bind_ok, D1, D2.
  unfold v_shown, v_decoded, meta_view. fold vr. unfold v_mins, v_scales. by rewrite !length_map.
Qed.

(** ** Pages *)

Hypothesis Hal : meta_aligned GROUP h dk dv.

Lemma write_page_spec err gk gv :
  length gk = GROUP ∧ Forall (wf_row h dk) gk → length gv = GROUP ∧ Forall (wf_row h dv) gv →
  write_page err h dk dv gk gv = Ok (page_of h dk dv gk gv)
  ∧ Z.of_nat (length (page_of h dk dv gk gv)) = page_bytes (layout_of GROUP h dk dv)
  ∧ Forall byte_ok (page_of h dk dv gk gv)
  ∧ ∀ to, decode_rabit2_page_ref (page_of h dk dv gk gv) (layout_of GROUP h dk dv) to
          = Ok (map3 to (k_shown h dk gk), map3 to (v_shown h dv gv)).
Proof.
  intros [Hlk Hk] [Hlv Hv]. unfold page_of, write_page.
  rewrite v_primary_quantize by (by apply widen_wf). rewrite !result_bind_ok. cbn [fst snd].
  assert (length (widen gk) = GROUP ∧ Forall (wf_row h dk) (widen gk)) as HK
    by (split; [by rewrite widen_length|by apply widen_wf]).
  assert (length (widen gv) = GROUP ∧ Forall (wf_row h dv) (widen gv)) as HV
    by (split; [by rewrite widen_length|by apply widen_wf]).
  assert (0 < GROUP)%nat as H0 by (unfold GROUP; lia).
  assert (32 | GROUP)%nat as H32 by (by exists 1%nat).
  destruct (page_from_primary_spec GROUP h dk dv (widen gk) (widen gv) H0 H32 HK HV Hal ValueError)
    as (m & Hm & -> & HL & HB & HD).
  destruct (page_parts_consecutive GROUP h dk dv (widen gk) (widen gv) H0 H32 HK HV Hal m Hm)
    as (HC & _ & HZ).
  rewrite (page_from_primary_parts GROUP h dk dv (widen gk) (widen gv) H0 H32 HK HV err m Hm).
  split; [|done]. apply store_parts_consecutive; [done|]. by rewrite HZ, length_replicate.
Qed.

Lemma pages_of_app kc vc gk gv :
  length kc = length vc → (GROUP | length kc)%nat → length gk = GROUP → length gv = GROUP →
  pages_of h dk dv (kc ++ gk) (vc ++ gv) = pages_of h dk dv kc vc ++ [page_of h dk dv gk gv].
Proof.
  intros Hl Hd Hgk Hgv. assert (0 < GROUP)%nat as H0 by (unfold GROUP; lia).
  unfold pages_of. rewrite (rows_of_app GROUP kc gk), (rows_of_app GROUP vc gv)
    by (done || by rewrite <-Hl).
  rewrite zip_with_app by (unfold rows_of; by rewrite !view2_length, Hl).
  f_equal. rewrite <-(app_nil_r gk), <-(app_nil_r gv).
  rewrite !rows_of_one by done. by rewrite !app_nil_r.
Qed.

Lemma pages_of_length kc vc :
  length kc = length vc → length (pages_of h dk dv kc vc) = (length kc / GROUP)%nat.
Proof.
  intros Hl. unfold pages_of. rewrite length_zip_with. unfold rows_of.
  rewrite !view2_length, Hl. lia.
Qed.

(** Decoding a list of pages. *)
Lemma decode_pages_spec lk lv to :
  Forall (λ g, length g = GROUP ∧ Forall (wf_row h dk) g) lk →
  Forall (λ g, length g = GROUP ∧ Forall (wf_row h dv) g) lv →
  result_map (λ page, decode_rabit2_page_ref page (layout_of GROUP h dk dv) to)
    (zip_with (page_of h dk dv) lk lv)
  = Ok (zip_with (λ gk gv, (map3 to (k_shown h dk gk), map3 to (v_shown h dv gv))) lk lv).
Proof.
  intros Hk. revert lv. induction Hk as [|gk lk Hgk _ IH]; intros lv Hv; [done|].
  destruct Hv as [|gv lv Hgv Hv]; [done|]. cbn [zip_with result_map].
  destruct (write_page_spec ValueError gk gv Hgk Hgv) as (_ & _ & _ & ->).
  by rewrite result_bind_ok, IH, result_bind_ok.
Qed.

Lemma shown_pages lk lv (to : f32 → f32) :
  length lk = length lv →
  let P := zip_with (λ gk gv, (map3 to (k_shown h dk gk), map3 to (v_shown h dv gv))) lk lv in
  concat (map fst P) = map3 to (concat (map (k_shown h dk) lk))
  ∧ concat (map snd P) = map3 to (concat (map (v_shown h dv) lv)).
Proof.
  revert lv. induction lk as [|gk lk IH]; intros [|gv lv] Hl; try done. cbn.
  destruct (IH lv ltac:(cbn in Hl; lia)) as [E1 E2]. cbn in E1, E2. rewrite E1, E2.
  by rewrite !map3_app.
Qed.
End TailSpec.

(** ** What is shown is the whole-prefix oracle *)

Section Oracle.
Variables (h d : nat).

Lemma k_shown_local g :
  Forall (wf_row h d) g → (META_GROUP | d)%nat → k_shown h d g = k_decoded h d (widen g).
Proof. intros Hw Hd. unfold k_shown. rewrite k_decoded_meta_local; [done|by apply widen_wf|done]. Qed.

Lemma k_shown_wf g :
  Forall (wf_row h d) g → (META_GROUP | d)%nat →
  length (k_shown h d g) = length g ∧ Forall (wf_row h d) (k_shown h d g).
Proof.
  intros Hw Hd. rewrite k_shown_local by done. rewrite <-(widen_length g).
  apply k_decoded_wf. by apply widen_wf.
Qed.

Lemma k_shown_chunks l rest :
  (META_GROUP | d)%nat → Forall (wf_row h d) l → Forall (wf_row h d) rest → (GROUP | length l)%nat →
  concat (map (k_shown h d) (rows_of GROUP l)) ++ k_shown h d rest = k_decoded h d (widen (l ++ rest)).
Proof.
  intros Hd Hl Hr. revert l Hl. assert (0 < GROUP)%nat as H0 by (unfold GROUP; lia).
  intros l Hl Hdiv. revert Hl. pattern l. revert l Hdiv. apply (rows_of_ind GROUP); [done|..].
  - intros _. unfold rows_of. simpl. by apply k_shown_local.
  - intros g l Hg Hdl IH [Hwg Hwl]%Forall_app. rewrite rows_of_one by done. cbn [map concat].
    rewrite <-!app_assoc, IH by done. rewrite (widen_app g), k_decoded_app.
    + by rewrite k_shown_local.
    + rewrite widen_length, Hg. by exists 1%nat.
    + by apply widen_wf.
    + apply widen_wf. by apply Forall_app.
Qed.

Lemma v_shown_chunks l rest :
  (META_GROUP | GROUP * (h * v_groups_of d))%nat → Forall (wf_row h d) l → (GROUP | length l)%nat →
  concat (map (v_shown h d) (rows_of GROUP l)) ++ v_shown h d rest = v_decoded h d (widen (l ++ rest)).
Proof.
  intros Hd Hl Hdiv. assert (0 < GROUP)%nat as H0 by (unfold GROUP; lia).
  revert Hl. pattern l. revert l Hdiv. apply (rows_of_ind GROUP); [done|done|].
  intros g l Hg Hdl IH [Hwg Hwl]%Forall_app. rewrite rows_of_one by done. cbn [map concat].
  rewrite <-!app_assoc, IH by done. rewrite (widen_app g), v_decoded_app; [done|..].
  - by rewrite widen_length, Hg.
  - by apply widen_wf.
Qed.

(** Tokens that went through BF16 once. *)
Context `{!TorchFloatLaws TF}.
Definition stored (rows : list (list (list f32))) : list (list (list Z)) := map3 bf16_of_f32 rows.

Lemma stored_wf h' d' rows : Forall (wf_row h' d') rows → Forall (wf_row h' d') (stored rows).
Proof.
  intros H. unfold stored, map3. rewrite Forall_map. eapply Forall_impl; [|exact H].
  intros. by apply wf_row_map.
Qed.

Lemma stored_length rows : length (stored rows) = length rows.
Proof. apply length_map. Qed.

Lemma stored_app a b : stored (a ++ b) = stored a ++ stored b.
Proof. apply map_app. Qed.

Lemma widen_stored rows : widen (stored rows) = map3 bf16_rounded rows.
Proof. unfold widen, stored. by rewrite map3_map3. Qed.

Lemma bf16_rounded_stable rows : map3 bf16_rounded (widen (stored rows)) = widen (stored rows).
Proof.
  rewrite widen_stored, map3_map3. unfold map3. apply map_ext. intros tok. apply map_ext. intros r.
  apply map_ext. intros x. unfold bf16_rounded. by rewrite bf16_of_f32_stable.
Qed.

Lemma recent_rounded rows n :
  map3 bf16_rounded (drop n (widen (stored rows))) = widen (drop n (stored rows)).
Proof.
  unfold map3 at 1. rewrite <-skipn_map. fold (map3 bf16_rounded (widen (stored rows))).
  rewrite bf16_rounded_stable. unfold widen, map3. by rewrite skipn_map.
Qed.

Lemma served_k_oracle rows :
  (META_GROUP | d)%nat → Forall (wf_row h d) rows →
  served_k h d (stored rows) = oracle_k h d (widen (stored rows)).
Proof.
  intros Hd Hw. apply (stored_wf h d) in Hw. set (ks := stored rows) in *.
  unfold served_k, oracle_k. rewrite widen_length. change (length ks - residual_count (length ks))%nat
    with (old_count (length ks)). rewrite app_assoc. f_equal.
  - assert (Forall (wf_row h d) (closed_rows ks ++ open_rows ks)) as [Hc Ho]%Forall_app
      by (rewrite <-closed_open_split; by apply Forall_take).
    rewrite k_shown_chunks; try done.
    + rewrite <-closed_open_split. f_equal. unfold widen, map3. by rewrite firstn_map.
    + rewrite closed_rows_length. by exists (closed_count (length ks)).
  - unfold recent_rows. symmetry. apply recent_rounded.
Qed.

Lemma served_v_oracle rows :
  (META_GROUP | GROUP * (h * v_groups_of d))%nat → Forall (wf_row h d) rows →
  served_v h d (stored rows) = oracle_v h d (widen (stored rows)).
Proof.
  intros Hd Hw. apply (stored_wf h d) in Hw. set (vs := stored rows) in *.
  unfold served_v, oracle_v. rewrite widen_length. change (length vs - residual_count (length vs))%nat
    with (old_count (length vs)). rewrite app_assoc. f_equal.
  - assert (Forall (wf_row h d) (closed_rows vs ++ open_rows vs)) as [Hc Ho]%Forall_app
      by (rewrite <-closed_open_split; by apply Forall_take).
    rewrite v_shown_chunks; try done.
    + rewrite <-closed_open_split. f_equal. unfold widen, map3. by rewrite firstn_map.
    + rewrite closed_rows_length. by exists (closed_count (length vs)).
  - unfold recent_rows. symmetry. apply recent_rounded.
Qed.
End Oracle.
End Tail.
