(* ===== verification/OnlineRef.v ===== *)
(** * The online reference state

    [Rabit2OnlineStateRef] of [rabit_kv2.py]: the constructor's guards, [append],
    the page flush, [_decode_open], [materialize], [total_tokens] and
    [storage_breakdown].  The theorems say that the state after any sequence of
    [append] calls is a function of the tokens appended ([online_of]) and that
    [materialize] shows exactly what quantizing and dequantizing the whole prefix
    at once shows.  [block_size] is 32 in every state the constructor accepts and
    [residual_tokens] has its default value. *)

From Stdlib Require Import ZArith Lia.
From stdpp Require Import base tactics numbers list option.
From S2P Require Import Prelude Layout Torch SpecFloatTorch BitPack Meta Quant Decoded Page Sidecar Tail.

Section OnlineRef.
Context `{TF : TorchFloat}.

Record Rabit2OnlineStateRef := mkOnline {
  os_num_kv_heads : nat;
  os_head_size_k : nat;
  os_head_size_v : nat;
  os_layout : Rabit2PageLayout;
  os_pages : list (list Z);
  os_sidecar : Sidecar
}.

(** [__post_init__] on the default fields. *)
Definition online_init (num_kv_heads head_size_k head_size_v block_size : nat) :
    result Rabit2OnlineStateRef :=
  _ ← raise_if (negb (block_size =? GROUP)%nat) ValueError;
  _ ← raise_if (negb (head_size_k mod META_GROUP =? 0)%nat) ValueError;
  let v_groups := ((head_size_v + GROUP - 1) / GROUP)%nat in
  _ ← raise_if (negb ((block_size * num_kv_heads * v_groups) mod META_GROUP =? 0)%nat) ValueError;
  layout ← rabit2_page_layout (Z.of_nat block_size) (Z.of_nat num_kv_heads) (Z.of_nat head_size_k)
             (Some (Z.of_nat head_size_v));
  Ok (mkOnline num_kv_heads head_size_k head_size_v layout [] empty_sidecar).

Definition online_total_tokens (s : Rabit2OnlineStateRef) : nat :=
  length (os_pages s) * GROUP + tensor_len (open_k (os_sidecar s))
  + tensor_len (recent_k (os_sidecar s)).

Definition online_set_sidecar (sc : Sidecar) (s : Rabit2OnlineStateRef) : Rabit2OnlineStateRef :=
  mkOnline (os_num_kv_heads s) (os_head_size_k s) (os_head_size_v s) (os_layout s) (os_pages s) sc.

Definition online_push_page (page : list Z) (s : Rabit2OnlineStateRef) : Rabit2OnlineStateRef :=
  mkOnline (os_num_kv_heads s) (os_head_size_k s) (os_head_size_v s) (os_layout s)
    (os_pages s ++ [page]) (clear_open (os_sidecar s)).

(** [_encode_open_page_exact] *)
Definition _encode_open_page_exact (layout : Rabit2PageLayout) (sc : Sidecar)
    (v_min_meta v_scale_meta : Meta8) : result (list Z) :=
  match open_k sc, open_v_packed sc with
  | Some ok, Some packed =>
      encode_page_from_metas ValueError layout (t_map f32_of_bf16 ok) packed v_min_meta v_scale_meta
  | _, _ => Err AssertionError
  end.

(** The closing branch of [_append_open_old]: the metadata is encoded, the group
    is dequantized once (the result is not used), and the page is written. *)
Definition online_close_page (s : Rabit2OnlineStateRef) : result (list Z) :=
  let sc := os_sidecar s in
  match open_v_packed sc, open_v_min sc, open_v_scale sc with
  | Some packed, Some q_min, Some scale =>
      v_min_meta ← encode_v_meta q_min;
      v_scale_meta ← encode_v_meta scale;
      let v_view t m := mkTensor3 (t_heads t) (t_dim t)
        (view3 (t_tokens t) (t_heads t) (t_dim t) (decode_metadata_uint8_group_ref m)) in
      _ ← _dequantize_v2_from_primary_ref packed (v_view q_min v_min_meta)
            (v_view scale v_scale_meta) (os_head_size_v s) GROUP (λ x, x);
      _encode_open_page_exact (os_layout s) sc v_min_meta v_scale_meta
  | _, _, _ => Err TypeError
  end.

#[export] Instance online_owner : SidecarOwner Rabit2OnlineStateRef := {
  owner_geometry s := (os_num_kv_heads s, os_head_size_k s, os_head_size_v s);
  owner_sidecar := os_sidecar;
  owner_update := online_set_sidecar;
  owner_flush :=
    s ← st_get;
    page ← st_lift (online_close_page s);
    st_modify (online_push_page page)
}.

#[export] Instance online_owner_laws : SidecarOwnerLaws online_owner.
Proof. by split. Qed.

(** [Rabit2OnlineStateRef.append] *)
Definition online_append (key value : tensor3 f32) : ST Rabit2OnlineStateRef unit :=
  append key value.

(** A sequence of [append] calls. *)
Definition online_run (chunks : list (tensor3 f32 * tensor3 f32)) : ST Rabit2OnlineStateRef unit :=
  st_for chunks (λ c, online_append c.1 c.2).

Definition online_materialize (s : Rabit2OnlineStateRef) (to : f32 → f32) :
    result (list (list (list f32)) * list (list (list f32))) :=
  pages ← result_map (λ page, decode_rabit2_page_ref page (os_layout s) to) (os_pages s);
  opened ← decode_open (os_sidecar s) (os_head_size_v s) to;
  let parts := pages ++ (if (length (concat (map concat opened.1)) =? 0)%nat then [] else [opened]) in
  recent ← match recent_k (os_sidecar s), recent_v (os_sidecar s) with
           | Some rk, Some rv => Ok [(bf16_to to (t_rows rk), bf16_to to (t_rows rv))]
           | None, _ => Ok []
           | _, None => Err TypeError
           end;
  Ok (concat (map fst (parts ++ recent)), concat (map snd (parts ++ recent))).

(** The dictionary of [storage_breakdown]. *)
Record online_storage := mkStorage {
  st_pages : nat;
  st_open_k_bf16 : nat;
  st_open_v_payload : nat;
  st_open_v_primary_metadata : nat;
  st_residual : nat;
  st_total : nat
}.

Definition online_storage_breakdown (s : Rabit2OnlineStateRef) : online_storage :=
  let sc := os_sidecar s in
  let pages := sum_list (map length (os_pages s)) in
  let open_k := (numel (open_k sc) * 2)%nat in
  let open_v_payload := numel (open_v_packed sc) in
  let open_v_primary := (numel (open_v_min sc) * 4 + numel (open_v_scale sc) * 4)%nat in
  let residual := (numel (recent_k sc) * 2 + numel (recent_v sc) * 2)%nat in
  mkStorage pages open_k open_v_payload open_v_primary residual
    (pages + open_k + open_v_payload + open_v_primary + residual)%nat.

(** ** The state as a function of the tokens *)

(** The guards of the constructor, for equal K and V head sizes (the only ones
    [append] accepts). *)
Definition online_geometry (h d : nat) : Prop :=
  (0 < h ∧ 0 < d)%nat ∧ (META_GROUP | d)%nat.

Definition online_with_pages (h d : nat) (kc vc : list (list (list Z))) : Rabit2OnlineStateRef :=
  mkOnline h d d (layout_of GROUP h d d) (pages_of h d d kc vc) empty_sidecar.

Definition online_of (h d : nat) (ks vs : list (list (list Z))) : Rabit2OnlineStateRef :=
  state_of h d d (online_with_pages h d) ks vs.

Lemma v_groups_of_multiple d c : (d = c * 32)%nat → v_groups_of d = c.
Proof.
  intros ->. unfold v_groups_of. rewrite Nat.div_add_l, Nat.div_small by lia. lia.
Qed.

Lemma online_geometry_aligned h d :
  online_geometry h d →
  meta_aligned GROUP h d d ∧ (META_GROUP | GROUP * (h * v_groups_of d))%nat.
Proof.
  intros [[Hh Hd] [c Hc]]. unfold META_GROUP, GROUP in *.
  assert (v_groups_of d = c * 2)%nat as Hg by (apply v_groups_of_multiple; lia).
  assert (64 | 32 * h * v_groups_nat d)%nat.
  { change (v_groups_nat d) with (v_groups_of d). rewrite Hg. exists (h * c)%nat. lia. }
  split; [split; [|done]|].
  - exists (h * c)%nat. change (32 / 32)%nat with 1%nat. lia.
  - rewrite Nat.mul_assoc. done.
Qed.

Lemma online_init_of h d :
  online_geometry h d → online_init h d d GROUP = Ok (online_of h d [] []).
Proof.
  intros Hgeo. pose proof (online_geometry_aligned h d Hgeo) as [_ Hv].
  destruct Hgeo as [[Hh Hd] Hk]. unfold online_init. rewrite Nat.eqb_refl.
  apply Nat.Lcm0.mod_divide in Hk. rewrite Hk, Nat.eqb_refl.
  replace (d + GROUP - 1)%nat with (d + 31)%nat by (unfold GROUP; lia).
  change ((d + 31) / GROUP)%nat with (v_groups_of d).
  rewrite <-Nat.mul_assoc. apply Nat.Lcm0.mod_divide in Hv. rewrite Hv, Nat.eqb_refl.
  cbn [negb raise_if]. rewrite !result_bind_ok.
  rewrite rabit2_page_layout_nat by (unfold GROUP; (lia || done || by exists 1%nat)).
  reflexivity.
Qed.

Context `{!TorchFloatLaws TF}.

(** ** A full open group is closed into its page *)

Lemma when_full {A B} (g : list A) (x : B) : length g = GROUP → when_nonempty g x = Some x.
Proof. by destruct g. Qed.

Lemma online_close_page_spec h d e gk gv rk rv :
  length gk = GROUP ∧ Forall (wf_row h d) gk → length gv = GROUP ∧ Forall (wf_row h d) gv →
  os_head_size_v e = d → os_layout e = layout_of GROUP h d d →
  online_close_page (online_set_sidecar (sidecar_with h d d gk gv rk rv) e)
  = write_page ValueError h d d gk gv.
Proof.
  intros [Lk Wk] [Lv Wv] Ed El. unfold online_close_page, online_set_sidecar, _encode_open_page_exact.
  cbn [os_sidecar os_head_size_v os_layout sidecar_with open_k open_v_packed open_v_min open_v_scale].
  rewrite !when_full by done. rewrite El, Ed.
  unfold write_page. rewrite v_primary_quantize by (by apply widen_wf). rewrite result_bind_ok.
  cbn [fst snd]. unfold encode_page_from_primary, encode_v_meta, flatten3, t_tokens.
  cbn [t_heads t_dim t_rows].
  set (vr := widen gv). fold (flat (v_mins d vr)) (flat (v_scales d vr)).
  destruct (decode_encode_metadata (flat (v_mins d vr)) [length (v_mins d vr); h; v_groups_of d; 1]%nat)
    as (m1 & -> & _).
  destruct (decode_encode_metadata (flat (v_scales d vr)) [length (v_scales d vr); h; v_groups_of d; 1]%nat)
    as (m2 & -> & _).
  rewrite !result_bind_ok. rewrite v_primary_dequantize by (by apply widen_wf).
  by rewrite result_bind_ok.
Qed.

Lemma online_flush_closes h d :
  online_geometry h d → flush_closes h d d (online_with_pages h d) (λ _, True).
Proof.
  intros Hgeo kc vc gk gv rk rv Hl Hdiv _ Hk Hv.
  destruct (online_geometry_aligned h d Hgeo) as [Hal _].
  cbn [owner_flush online_owner owner_update]. rewrite st_bind_eq. cbn [st_get]. rewrite st_bind_eq.
  unfold st_lift. rewrite (online_close_page_spec h d) by done.
  destruct (write_page_spec h d d Hal ValueError gk gv Hk Hv) as (-> & _).
  unfold st_modify, online_push_page, online_set_sidecar, online_with_pages.
  cbn [os_num_kv_heads os_head_size_k os_head_size_v os_layout os_pages os_sidecar].
  rewrite pages_of_app by (done || apply Hk || apply Hv). done.
Qed.

(** One [append] on a represented state. *)
Lemma online_append_of h d ks vs (key value : tensor3 f32) :
  online_geometry h d → length ks = length vs → Forall (wf_row h d) ks → Forall (wf_row h d) vs →
  wf_tensor3 key → wf_tensor3 value → shape_eqb key value = true → t_heads key = h → t_dim key = d →
  online_append key value (online_of h d ks vs)
  = (Ok tt, online_of h d (ks ++ stored (t_rows key)) (vs ++ stored (t_rows value))).
Proof.
  intros Hgeo Hl Hwk Hwv Hk Hv Hs Hh Hd. pose proof Hs as (Et & Eh & Ed)%shape_eqb_spec.
  unfold online_append, append. rewrite st_bind_eq. unfold st_raise_if, st_lift.
  rewrite Hs. cbn [negb raise_if]. rewrite st_bind_eq. cbn [st_get].
  change (owner_geometry (online_of h d ks vs)) with (h, d, d). cbv beta iota zeta.
  rewrite Hh, Hd, <-Ed, Hd, !Nat.eqb_refl. cbn [negb orb raise_if].
  do 2 (rewrite st_bind_eq; cbv beta iota). unfold online_of.
  apply append_loop_spec with (can := λ _, True); try done; try congruence.
  by apply online_flush_closes.
Qed.

(** ** Runs *)

(** A chunk of the geometry: two well-formed tensors of one shape. *)
Definition chunk_ok (h d : nat) (c : tensor3 f32 * tensor3 f32) : Prop :=
  wf_tensor3 c.1 ∧ wf_tensor3 c.2 ∧ shape_eqb c.1 c.2 = true ∧ t_heads c.1 = h ∧ t_dim c.1 = d.

(** All tokens of a run. *)
Definition run_keys (chunks : list (tensor3 f32 * tensor3 f32)) : list (list (list f32)) :=
  concat (map (λ c, t_rows c.1) chunks).
Definition run_values (chunks : list (tensor3 f32 * tensor3 f32)) : list (list (list f32)) :=
  concat (map (λ c, t_rows c.2) chunks).

Lemma run_rows_wf h d chunks :
  Forall (chunk_ok h d) chunks →
  Forall (wf_row h d) (run_keys chunks) ∧ Forall (wf_row h d) (run_values chunks)
  ∧ length (run_keys chunks) = length (run_values chunks).
Proof.
  induction 1 as [|c chunks (Hk & Hv & Hs & Hh & Hd) _ (IHk & IHv & IHl)]; [done|].
  apply shape_eqb_spec in Hs as (Et & Eh & Ed). unfold wf_tensor3 in *. unfold t_tokens in Et.
  rewrite <-Eh, <-Ed in Hv. rewrite Hh, Hd in Hk, Hv.
  unfold run_keys, run_values in *. cbn [map concat]. split; [by apply Forall_app|].
  split; [by apply Forall_app|]. rewrite !length_app. lia.
Qed.

Lemma online_run_of h d chunks ks vs :
  online_geometry h d → length ks = length vs → Forall (wf_row h d) ks → Forall (wf_row h d) vs →
  Forall (chunk_ok h d) chunks →
  online_run chunks (online_of h d ks vs)
  = (Ok tt, online_of h d (ks ++ stored (run_keys chunks)) (vs ++ stored (run_values chunks))).
Proof.
  intros Hgeo Hl Hk Hv H. revert ks vs Hl Hk Hv.
  induction H as [|c chunks Hc H IH]; intros ks vs Hl Hk Hv.
  { unfold run_keys, run_values. cbn. by rewrite !app_nil_r. }
  unfold online_run. cbn [st_for]. rewrite st_bind_eq.
  pose proof (run_rows_wf h d [c] ltac:(by constructor)) as (Wk & Wv & Wl).
  unfold run_keys, run_values in Wk, Wv, Wl. cbn [map concat] in Wk, Wv, Wl. rewrite !app_nil_r in *.
  destruct Hc as (H1 & H2 & H3 & H4 & H5).
  rewrite online_append_of by done. change (st_for chunks _) with (online_run chunks).
  rewrite IH.
  - unfold run_keys, run_values. cbn [map concat]. by rewrite !stored_app, !app_assoc.
  - rewrite !length_app, !stored_length. lia.
  - apply Forall_app. split; [done|]. by apply stored_wf.
  - apply Forall_app. split; [done|]. by apply stored_wf.
Qed.

(** ** What [materialize] shows *)

Lemma online_materialize_of h d ks vs to :
  online_geometry h d → length ks = length vs → Forall (wf_row h d) ks → Forall (wf_row h d) vs →
  online_materialize (online_of h d ks vs) to = Ok (map3 to (served_k h d ks), map3 to (served_v h d vs)).
Proof.
  intros Hgeo Hl Hk Hv. destruct (online_geometry_aligned h d Hgeo) as [Hal _].
  unfold online_materialize, online_of, state_of, online_with_pages, pages_of.
  cbn [owner_update online_owner online_set_sidecar os_pages os_layout os_sidecar os_head_size_v].
  rewrite decode_pages_spec; [|done|by apply closed_groups_wf|by apply closed_groups_wf].
  rewrite result_bind_ok. unfold sidecar_of.
  destruct (tail_rows_wf h d ks Hk) as [Ok_ Rk]. destruct (tail_rows_wf h d vs Hv) as [Ov Rv].
  assert (length (open_rows ks) = length (open_rows vs)) as Hol by (by rewrite !open_rows_length, Hl).
  assert (length (recent_rows ks) = length (recent_rows vs)) as Hrl by (by rewrite !recent_rows_length, Hl).
  rewrite decode_open_spec by done. rewrite result_bind_ok.
  cbn [sidecar_with recent_k recent_v fst snd].
  set (P := zip_with _ _ _). set (K := map3 to (k_shown h d (open_rows ks))).
  set (V := map3 to (v_shown h d (open_rows vs))).
  assert (concat (map fst P) = map3 to (concat (map (k_shown h d) (rows_of GROUP (closed_rows ks))))
          ∧ concat (map snd P) = map3 to (concat (map (v_shown h d) (rows_of GROUP (closed_rows vs)))))
    as [HPk HPv].
  { apply shown_pages. unfold rows_of. rewrite !view2_length, !closed_rows_length, Hl. done. }
  assert (concat (map fst (P ++ (if (length (concat (map concat K)) =? 0)%nat then [] else [(K, V)])))
          = concat (map fst P) ++ K
          ∧ concat (map snd (P ++ (if (length (concat (map concat K)) =? 0)%nat then [] else [(K, V)])))
          = concat (map snd P) ++ V) as [HKo HVo].
  { destruct (Nat.eqb_spec (length (concat (map concat K))) 0) as [E|E].
    - assert (open_rows ks = []) as Hnil.
      { apply nil_length_inv. fold (flat K) in E. destruct Hgeo as [[Hh Hd] Hdiv].
        destruct (k_shown_wf h d (open_rows ks) Ok_ Hdiv) as [Ls Ws].
        assert (Forall (wf_row h d) K) as WK by (unfold K, map3; rewrite Forall_map;
          eapply Forall_impl; [|exact Ws]; intros; by apply wf_row_map).
        rewrite (flat_length h d) in E by done. unfold K, map3 in E. rewrite length_map, Ls in E. nia. }
      assert (open_rows vs = []) as Hnil' by (apply nil_length_inv; by rewrite <-Hol, Hnil).
      unfold K, V. rewrite Hnil, Hnil', k_shown_nil, v_shown_nil. cbn. by rewrite !app_nil_r.
    - rewrite !map_app, !concat_app. cbn. by rewrite !app_nil_r. }
  set (X := P ++ _) in *. unfold served_k, served_v. rewrite !map3_app, <-HPk, <-HPv.
  destruct (recent_rows ks) as [|x rk] eqn:Er.
  - assert (recent_rows vs = []) as -> by (apply nil_length_inv; by rewrite <-Hrl).
    cbn [when_nonempty]. rewrite result_bind_ok, app_nil_r, HKo, HVo.
    unfold widen, map3. cbn [map]. by rewrite !app_nil_r.
  - destruct (recent_rows vs) as [|y rv] eqn:Er'; [done|]. cbn [when_nonempty].
    rewrite result_bind_ok. cbn [t_rows].
    rewrite (map_app fst X), (map_app snd X), !concat_app, HKo, HVo.
    cbn [map concat fst snd]. by rewrite !bf16_to_widen, !app_nil_r, <-!app_assoc.
Qed.

(** ** Properties *)

Lemma sum_pages (pages : list (list Z)) pb :
  Forall (λ p, Z.of_nat (length p) = pb) pages →
  Z.of_nat (sum_list (map length pages)) = (Z.of_nat (length pages) * pb)%Z.
Proof.
  induction 1 as [|p l Hp _ IH]; [done|].
  change (sum_list (map length (p :: l))) with (length p + sum_list (map length l))%nat.
  rewrite Nat2Z.inj_add, IH, Hp. cbn [length]. lia.
Qed.

(** C17: the online state is exact.  For every geometry the constructor accepts
    and every sequence of [append] calls with chunks of any lengths, no call
    raises, and [materialize] returns exactly what the whole-prefix reference
    returns when all tokens, rounded to BF16, are quantized at once and
    dequantized. *)
Theorem online_materialize_is_oracle (h d : nat) (chunks : list (tensor3 f32 * tensor3 f32))
    (to : f32 → f32) :
  online_geometry h d → Forall (chunk_ok h d) chunks →
  ∃ s0 s st kv,
    online_init h d d GROUP = Ok s0
    ∧ online_run chunks s0 = (Ok tt, s)
    ∧ quantize_rabit2_kv_ref (mkTensor3 h d (map3 bf16_rounded (run_keys chunks)))
        (mkTensor3 h d (map3 bf16_rounded (run_values chunks))) RESIDUAL GROUP META_GROUP = Ok st
    ∧ dequantize_rabit2_kv_ref st to = Ok kv
    ∧ online_materialize s to = Ok kv.
Proof.
  intros Hgeo Hch. destruct (run_rows_wf h d chunks Hch) as (Wk & Wv & Wl).
  pose proof (online_geometry_aligned h d Hgeo) as [_ Hv].
  rewrite <-!widen_stored.
  destruct (whole_prefix_spec (mkTensor3 h d (widen (stored (run_keys chunks))))
              (mkTensor3 h d (widen (stored (run_values chunks)))) to) as (st & Hq & _ & Hd).
  - by apply widen_wf, stored_wf.
  - by apply widen_wf, stored_wf.
  - apply shape_eqb_spec. unfold t_tokens. cbn. by rewrite !widen_length, !stored_length.
  - apply Hgeo.
  - do 4 eexists. split; [by apply online_init_of|].
    split; [by apply online_run_of|]. split; [exact Hq|]. split; [exact Hd|].
    rewrite !app_nil_l, online_materialize_of.
    + cbn [t_heads t_dim t_rows]. by rewrite served_k_oracle, served_v_oracle by (done || apply Hgeo).
    + done.
    + by rewrite !stored_length.
    + by apply stored_wf.
    + by apply stored_wf.
Qed.

(** Accounting of the online state.  After any run, the state counts every
    token once, holds one page of [page_bytes] bytes per closed group of 32 old
    tokens, [min(n, 4)] residual tokens, an open group of the remaining old
    tokens (fewer than 32), and its bytes outside the pages never exceed the
    staging bound of [kv_cache_interface.py]. *)
Theorem online_accounting (h d : nat) (chunks : list (tensor3 f32 * tensor3 f32)) :
  online_geometry h d → Forall (chunk_ok h d) chunks →
  let n := length (run_keys chunks) in
  ∃ s0 s,
    online_init h d d GROUP = Ok s0 ∧ online_run chunks s0 = (Ok tt, s)
    ∧ online_total_tokens s = n
    ∧ length (os_pages s) = ((n - n `min` 4) / 32)%nat
    ∧ tensor_len (open_k (os_sidecar s)) = ((n - n `min` 4) mod 32)%nat
    ∧ tensor_len (recent_k (os_sidecar s)) = (n `min` 4)%nat
    ∧ Forall (λ p, Z.of_nat (length p) = page_bytes (os_layout s)) (os_pages s)
    ∧ ∃ bound, rabit2_exact_online_staging_bytes_per_sequence (Z.of_nat h) (Z.of_nat d)
                 (Some (Z.of_nat d)) RABIT2_RESIDUAL_TOKENS RABIT2_GROUP_SIZE = Ok bound
      ∧ (Z.of_nat (st_total (online_storage_breakdown s))
         ≤ Z.of_nat (length (os_pages s)) * page_bytes (os_layout s) + bound)%Z.
Proof.
  intros Hgeo Hch n. destruct (run_rows_wf h d chunks Hch) as (Wk & Wv & Wl).
  set (ks := stored (run_keys chunks)). set (vs := stored (run_values chunks)).
  assert (length ks = n) as Lk by apply stored_length.
  assert (length ks = length vs) as Lkv by (unfold ks, vs; by rewrite !stored_length).
  apply (stored_wf h d) in Wk, Wv. fold ks in Wk. fold vs in Wv.
  destruct (online_geometry_aligned h d Hgeo) as [Hal _].
  exists (online_of h d [] []), (online_of h d ks vs).
  split; [by apply online_init_of|]. split; [by apply online_run_of|].
  assert (length (os_pages (online_of h d ks vs)) = closed_count n) as Lp.
  { unfold online_of, state_of, online_with_pages. cbn.
    rewrite pages_of_length by (rewrite !closed_rows_length; congruence).
    rewrite closed_rows_length, Lk. apply Nat.div_mul. unfold GROUP. lia. }
  assert (∀ (rows : list (list (list Z))), tensor_len (when_nonempty rows (mkTensor3 h d rows)) = length rows)
    as Htl by (by intros []).
  assert (tensor_len (open_k (os_sidecar (online_of h d ks vs))) = ((n - n `min` 4) mod 32)%nat) as Lo.
  { change (os_sidecar (online_of h d ks vs)) with (sidecar_of h d d ks vs).
    unfold sidecar_of, sidecar_with. cbn [open_k]. rewrite Htl, open_rows_length, Lk.
    change ((n - n `min` 4) mod 32)%nat with (old_count n mod GROUP)%nat.
    unfold closed_count. rewrite Nat.Div0.mod_eq. lia. }
  assert (tensor_len (recent_k (os_sidecar (online_of h d ks vs))) = (n `min` 4)%nat) as Lr.
  { cbn. rewrite Htl, recent_rows_length, Lk. unfold old_count, residual_count, RESIDUAL. lia. }
  assert (Forall (λ p, Z.of_nat (length p) = page_bytes (layout_of GROUP h d d))
            (os_pages (online_of h d ks vs))) as Hpb.
  { unfold online_of, state_of, online_with_pages. cbn. unfold pages_of.
    pose proof (closed_groups_wf h d ks Wk) as Hk. pose proof (closed_groups_wf h d vs Wv) as Hv.
    revert Hk Hv. generalize (rows_of GROUP (closed_rows ks)) (rows_of GROUP (closed_rows vs)).
    intros lk lv Hk. revert lv. induction Hk as [|gk lk Hgk _ IH]; intros lv Hv; [constructor|].
    destruct Hv as [|gv lv Hgv Hv]; [constructor|]. cbn. constructor; [|by apply IH].
    by apply (write_page_spec h d d Hal ValueError). }
  split; [|split; [|split; [|split; [|split]]]].
  - unfold online_total_tokens. rewrite Lp, Lo, Lr. unfold closed_count, old_count, residual_count, RESIDUAL.
    unfold GROUP. pose proof (Nat.div_mod_eq (n - n `min` 4) 32). lia.
  - exact Lp.
  - exact Lo.
  - exact Lr.
  - exact Hpb.
  - exists (Z.of_nat (staging_bytes_nat h d d)). split; [by apply staging_bytes_of; apply Hgeo|].
    destruct (sidecar_of_staging h d d ks vs Lkv Wk Wv) as [Hb _].
    assert (Z.of_nat (sum_list (map length (os_pages (online_of h d ks vs))))
            = Z.of_nat (length (os_pages (online_of h d ks vs))) * page_bytes (layout_of GROUP h d d))%Z as Hsum.
    { apply sum_pages, Hpb. }
    unfold online_storage_breakdown. cbn [st_total].
    change (os_layout (online_of h d ks vs)) with (layout_of GROUP h d d).
    change (os_sidecar (online_of h d ks vs)) with (sidecar_of h d d ks vs).
    unfold sidecar_bytes in Hb. lia.
Qed.

(** The guards of [append].  On any state, chunks of different shapes, of
    another number of heads or of another head size raise [ValueError] and leave
    the state as it was; so a state whose K and V head sizes differ, which the
    constructor accepts, never accepts a token. *)
Theorem online_append_guards (s : Rabit2OnlineStateRef) (key value : tensor3 f32) :
  (shape_eqb key value = false ∨ t_heads key ≠ os_num_kv_heads s ∨ t_dim key ≠ os_head_size_k s
     ∨ t_dim value ≠ os_head_size_v s → online_append key value s = (Err ValueError, s))
  ∧ (os_head_size_k s ≠ os_head_size_v s → online_append key value s = (Err ValueError, s)).
Proof.
  assert (shape_eqb key value = false ∨ t_heads key ≠ os_num_kv_heads s ∨ t_dim key ≠ os_head_size_k s
          ∨ t_dim value ≠ os_head_size_v s → online_append key value s = (Err ValueError, s)) as H.
  { intros H. unfold online_append, append. rewrite st_bind_eq. unfold st_raise_if, st_lift.
    destruct (shape_eqb key value) eqn:Es; [|done]. cbn [negb raise_if].
    rewrite st_bind_eq. cbn [st_get owner_geometry online_owner].
    destruct (Nat.eqb_spec (t_heads key) (os_num_kv_heads s)); [|done].
    destruct (Nat.eqb_spec (t_dim key) (os_head_size_k s)); [|done].
    cbn [negb orb raise_if]. do 2 (rewrite st_bind_eq; cbv beta iota).
    destruct (Nat.eqb_spec (t_dim value) (os_head_size_v s)); [|done].
    destruct H as [H|[H|[H|H]]]; congruence. }
  split; [done|]. intros Hne. apply H. destruct (shape_eqb key value) eqn:Es; [|by left].
  apply shape_eqb_spec in Es as (_ & _ & Ed). right. rewrite Ed.
  destruct (decide (t_dim value = os_head_size_k s)); [|tauto]. right. right. congruence.
Qed.
End OnlineRef.

(** Constant chunks of one head of 64 channels. *)
Definition const_chunk (n h d : nat) (k v : Z) : tensor3 f32 * tensor3 f32 :=
  (const_tensor n h d k, const_tensor n h d v).

Lemma const_chunk_ok n h d k v : chunk_ok h d (const_chunk n h d k v).
Proof.
  split; [apply const_tensor_wf|]. split; [apply const_tensor_wf|]. split; [|done].
  apply shape_eqb_spec. unfold t_tokens. cbn. by rewrite !length_replicate.
Qed.

Lemma one_head_geometry : online_geometry 1 64.
Proof. split; [lia|by exists 1%nat]. Qed.

(** C17 on a run of three calls: 5, 1 and 40 tokens. *)
Lemma online_materialize_is_oracle_witness :
  ∃ s0 s st kv,
    let chunks := [const_chunk 5 1 64 3 (-2); const_chunk 1 1 64 4 1; const_chunk 40 1 64 (-7) 9] in
    online_init 1 64 64 GROUP = Ok s0
    ∧ online_run chunks s0 = (Ok tt, s)
    ∧ quantize_rabit2_kv_ref (mkTensor3 1 64 (map3 bf16_rounded (run_keys chunks)))
        (mkTensor3 1 64 (map3 bf16_rounded (run_values chunks))) RESIDUAL GROUP META_GROUP = Ok st
    ∧ dequantize_rabit2_kv_ref st (λ x, x) = Ok kv
    ∧ online_materialize s (λ x, x) = Ok kv.
Proof.
  apply (online_materialize_is_oracle 1 64); [apply one_head_geometry|].
  repeat constructor; apply const_chunk_ok.
Defined.

(** On 46 tokens: one page, ten open tokens, four residual tokens. *)
Lemma online_accounting_witness :
  ∃ s0 s,
    online_init 1 64 64 GROUP = Ok s0
    ∧ online_run [const_chunk 5 1 64 3 (-2); const_chunk 1 1 64 4 1; const_chunk 40 1 64 (-7) 9] s0
      = (Ok tt, s)
    ∧ online_total_tokens s = 46%nat ∧ length (os_pages s) = 1%nat
    ∧ tensor_len (open_k (os_sidecar s)) = 10%nat ∧ tensor_len (recent_k (os_sidecar s)) = 4%nat
    ∧ Forall (λ p, Z.of_nat (length p) = page_bytes (os_layout s)) (os_pages s)
    ∧ ∃ bound, rabit2_exact_online_staging_bytes_per_sequence 1 64 (Some 64%Z)
                 RABIT2_RESIDUAL_TOKENS RABIT2_GROUP_SIZE = Ok bound
      ∧ (Z.of_nat (st_total (online_storage_breakdown s))
         ≤ Z.of_nat (length (os_pages s)) * page_bytes (os_layout s) + bound)%Z.
Proof.
  apply (online_accounting 1 64
    [const_chunk 5 1 64 3 (-2); const_chunk 1 1 64 4 1; const_chunk 40 1 64 (-7) 9]).
  - apply one_head_geometry.
  - repeat constructor; apply const_chunk_ok.
Defined.
