(* ===== verification/Runtime.v ===== *)
(** * The serving runtime of one sequence

    [Rabit2SingleSequenceRuntime] of [rabit_kv2.py] with the opaque KV cache it
    writes: the constructor and its layout checks, [append], [_append_aged],
    [_closed_page_exact], [_flush_open_page] through the block table,
    [tail_materialize], [total_tokens] and [sidecar_bytes].

    The cache is the two-dimensional view [kv_cache.reshape(num_blocks, -1)]: a
    row width and a list of pages.  [index_copy_] overwrites one row and raises
    on an index outside the cache.  An exception leaves the runtime and the cache
    as they were when it was raised. *)

From Stdlib Require Import ZArith Lia.
From stdpp Require Import base tactics numbers list option.
From S2P Require Import Prelude Layout Torch SpecFloatTorch BitPack Meta Quant Decoded Page Sidecar Tail.
From S2P Require Import OnlineRef.

(** [_rabit2_stage3b1_validate_layout] *)
Definition _rabit2_stage3b1_validate_layout (layout : Rabit2PageLayout) : result (Z * Z * Z * Z) :=
  _ ← raise_if (negb (block_size layout =? RABIT2_GROUP_SIZE)%Z) ValueError;
  _ ← raise_if (negb (head_size_k layout =? head_size_v layout)%Z) ValueError;
  _ ← raise_if (negb (head_size_k layout mod RABIT2_GROUP_SIZE =? 0)%Z) ValueError;
  let k_primary := (num_kv_heads layout * head_size_k layout)%Z in
  let v_groups := (head_size_v layout / RABIT2_GROUP_SIZE)%Z in
  let v_primary := (block_size layout * num_kv_heads layout * v_groups)%Z in
  _ ← raise_if (negb (k_primary mod RABIT2_METADATA_GROUP_SIZE =? 0)%Z
                || negb (v_primary mod RABIT2_METADATA_GROUP_SIZE =? 0)%Z) ValueError;
  k_packed ← rabit2_packed_dim (head_size_k layout) 3;
  v_packed ← rabit2_packed_dim (head_size_v layout) 2;
  Ok (k_primary, v_primary, k_packed, v_packed).

(** ** The opaque cache *)

Record PageCache := mkCache { pc_width : Z; pc_pages : list (list Z) }.

(** [cache2d.index_copy_(0, physical_id, page.reshape(1, -1))] *)
Definition index_copy (physical_id : nat) (page : list Z) (c : PageCache) : result PageCache :=
  _ ← raise_if (length (pc_pages c) <=? physical_id)%nat IndexError;
  Ok (mkCache (pc_width c) (<[physical_id := page]> (pc_pages c))).

(** The cache after the pages of a sequence were written through its block table. *)
Definition write_pages (bt : list nat) (pages : list (list Z)) (c : PageCache) : PageCache :=
  mkCache (pc_width c) (fold_left (λ ps bp, <[bp.1 := bp.2]> ps) (zip bt pages) (pc_pages c)).

Lemma zip_take_l {A B} (l : list A) (k : list B) : zip l k = zip (take (length k) l) k.
Proof. revert l. induction k as [|y k IH]; intros [|x l]; simpl; try done. by rewrite IH. Qed.

Lemma write_pages_length bt pages c :
  length (pc_pages (write_pages bt pages c)) = length (pc_pages c).
Proof.
  unfold write_pages. cbn [pc_pages]. generalize (zip bt pages) (pc_pages c). intros l.
  induction l as [|[b p] l IH]; intros ps; [done|]. cbn. by rewrite IH, length_insert.
Qed.

Lemma write_pages_snoc bt pages p c :
  (length pages < length bt)%nat →
  write_pages bt (pages ++ [p]) c
  = mkCache (pc_width c) (<[nth (length pages) bt 0%nat := p]> (pc_pages (write_pages bt pages c))).
Proof.
  intros Hl. unfold write_pages. cbn [pc_pages]. f_equal.
  rewrite (zip_take_l bt pages), (zip_take_l bt (pages ++ [p])), length_app. cbn [length].
  destruct (lookup_lt_is_Some_2 bt (length pages) Hl) as [b Hb].
  rewrite Nat.add_1_r, (take_S_r _ _ b) by done.
  rewrite zip_with_app by (rewrite length_take; lia). rewrite fold_left_app. cbn.
  by rewrite (nth_lookup_Some _ _ 0%nat b Hb).
Qed.

Lemma fold_insert_notin (l : list (nat * list Z)) (ps : list (list Z)) b :
  b ∉ map fst l → fold_left (λ ps bp, <[bp.1 := bp.2]> ps) l ps !! b = ps !! b.
Proof.
  revert ps. induction l as [|[b' p] l IH]; intros ps Hb; [done|]. cbn in *.
  apply not_elem_of_cons in Hb as [Hne Hb]. rewrite IH by done. by apply list_lookup_insert_ne.
Qed.

Lemma nth_take_lt {A} n i (l : list A) x : (i < n)%nat → nth i (take n l) x = nth i l x.
Proof.
  revert n l. induction i as [|i IH]; intros [|n] [|y l] H; try done; try lia. cbn. apply IH. lia.
Qed.

(** Every page of the sequence is found under its physical id, and no other block
    of the cache changes. *)
Lemma write_pages_lookup bt pages c :
  NoDup (take (length pages) bt) → (length pages ≤ length bt)%nat →
  Forall (λ b, (b < length (pc_pages c))%nat) (take (length pages) bt) →
  Forall2 (λ b p, pc_pages (write_pages bt pages c) !! b = Some p) (take (length pages) bt) pages.
Proof.
  intros Hnd' Hl Hr. unfold write_pages. cbn [pc_pages]. rewrite zip_take_l.
  assert (length (take (length pages) bt) = length pages) as Hl' by (rewrite length_take; lia).
  clear Hl. revert Hnd' Hl' Hr. generalize (take (length pages) bt) (pc_pages c).
  intros bs ps. revert ps pages. induction bs as [|b bs IH]; intros ps [|p pages] Hnd Hl Hr; try done.
  inversion Hnd as [|?? Hb Hnd']; subst. inversion Hr as [|?? Hbr Hr']; subst.
  cbn [zip_with fold_left fst snd]. constructor.
  - rewrite fold_insert_notin.
    + by apply list_lookup_insert_eq.
    + intros Hin. apply Hb. cbn in Hl. change (map fst (zip bs pages)) with (fst <$> zip bs pages) in Hin.
      rewrite fst_zip in Hin by lia. done.
  - apply IH; [done|cbn in Hl; lia|]. eapply Forall_impl; [|exact Hr']. intros x Hx. cbv beta.
    by rewrite length_insert.
Qed.

Lemma write_pages_frame bt pages c b :
  b ∉ take (length pages) bt → pc_pages (write_pages bt pages c) !! b = pc_pages c !! b.
Proof.
  intros Hb. unfold write_pages. cbn [pc_pages]. rewrite zip_take_l. apply fold_insert_notin.
  intros Hin. apply Hb. clear Hb. revert Hin. generalize (take (length pages) bt). intros bs.
  change (map fst (zip bs pages)) with (fst <$> zip bs pages). intros Hin.
  apply list_elem_of_fmap in Hin as ([b' p] & -> & Hin). by apply elem_of_zip_l in Hin.
Qed.

Section Runtime.
Context `{TF : TorchFloat}.

Record Rabit2SingleSequenceRuntime := mkRuntime {
  rt_num_kv_heads : nat;
  rt_head_size_k : nat;
  rt_head_size_v : nat;
  rt_layout : Rabit2PageLayout;
  rt_closed_pages : nat;
  rt_sidecar : Sidecar
}.

Definition runtime_init (num_kv_heads head_size_k head_size_v : nat) :
    result Rabit2SingleSequenceRuntime :=
  layout ← rabit2_page_layout RABIT2_GROUP_SIZE (Z.of_nat num_kv_heads) (Z.of_nat head_size_k)
             (Some (Z.of_nat head_size_v));
  _ ← _rabit2_stage3b1_validate_layout layout;
  Ok (mkRuntime num_kv_heads head_size_k head_size_v layout 0 empty_sidecar).

Definition runtime_total_tokens (r : Rabit2SingleSequenceRuntime) : nat :=
  rt_closed_pages r * GROUP + tensor_len (open_k (rt_sidecar r)) + tensor_len (recent_k (rt_sidecar r)).

Definition _closed_page_exact (r : Rabit2SingleSequenceRuntime) : result (list Z) :=
  let sc := rt_sidecar r in
  match open_k sc, open_v_packed sc, open_v_min sc, open_v_scale sc with
  | Some ok, Some packed, Some q_min, Some scale =>
      _ ← raise_if (negb (t_tokens ok =? GROUP)%nat) AssertionError;
      encode_page_from_primary ValueError (rt_layout r) (t_map f32_of_bf16 ok) packed q_min scale
  | _, _, _, _ => Err AssertionError
  end.

(** The runtime together with the cache it is handed on every call. *)
Record RtState := mkRt { rs_runtime : Rabit2SingleSequenceRuntime; rs_cache : PageCache }.

Definition runtime_set_sidecar (sc : Sidecar) (r : Rabit2SingleSequenceRuntime) :
    Rabit2SingleSequenceRuntime :=
  mkRuntime (rt_num_kv_heads r) (rt_head_size_k r) (rt_head_size_v r) (rt_layout r)
    (rt_closed_pages r) sc.

(** [closed_pages += 1] and the four [= None]. *)
Definition runtime_page_closed (r : Rabit2SingleSequenceRuntime) : Rabit2SingleSequenceRuntime :=
  mkRuntime (rt_num_kv_heads r) (rt_head_size_k r) (rt_head_size_v r) (rt_layout r)
    (rt_closed_pages r + 1) (clear_open (rt_sidecar r)).

Definition _flush_open_page (block_table_row : list nat) : ST RtState unit :=
  s ← st_get;
  page ← st_lift (_closed_page_exact (rs_runtime s));
  st_raise_if (length block_table_row <=? rt_closed_pages (rs_runtime s))%nat RuntimeError;;
  st_raise_if (negb (pc_width (rs_cache s) =? page_bytes (rt_layout (rs_runtime s)))%Z) ValueError;;
  cache ← st_lift (index_copy (nth (rt_closed_pages (rs_runtime s)) block_table_row 0%nat) page
                              (rs_cache s));
  st_put (mkRt (runtime_page_closed (rs_runtime s)) cache).

Definition runtime_owner (block_table_row : list nat) : SidecarOwner RtState := {|
  owner_geometry s := (rt_num_kv_heads (rs_runtime s), rt_head_size_k (rs_runtime s),
                       rt_head_size_v (rs_runtime s));
  owner_sidecar s := rt_sidecar (rs_runtime s);
  owner_update sc s := mkRt (runtime_set_sidecar sc (rs_runtime s)) (rs_cache s);
  owner_flush := _flush_open_page block_table_row
|}.

#[export] Instance runtime_owner_laws bt : SidecarOwnerLaws (runtime_owner bt).
Proof. by split. Qed.

(** [Rabit2SingleSequenceRuntime.append] *)
Definition runtime_append (block_table_row : list nat) (key value : tensor3 f32) : ST RtState unit :=
  @append _ _ (runtime_owner block_table_row) key value.

(** [tail_materialize] *)
Definition tail_materialize (r : Rabit2SingleSequenceRuntime) (to : f32 → f32) :
    result (list (list (list f32)) * list (list (list f32))) :=
  opened ← decode_open (rt_sidecar r) (rt_head_size_v r) to;
  recent ← match recent_k (rt_sidecar r), recent_v (rt_sidecar r) with
           | Some rk, Some rv => Ok (bf16_to to (t_rows rk), bf16_to to (t_rows rv))
           | None, _ => Ok ([], [])
           | _, None => Err TypeError
           end;
  Ok (opened.1 ++ recent.1, opened.2 ++ recent.2).

(** [sidecar_bytes] *)
Definition runtime_sidecar_bytes (r : Rabit2SingleSequenceRuntime) : nat :=
  sidecar_bytes (rt_sidecar r).

(** What the attention kernels read for a sequence: the closed pages through the
    block table, then the tail. *)
Definition runtime_read (block_table_row : list nat) (s : RtState) (to : f32 → f32) :
    result (list (list (list f32)) * list (list (list f32))) :=
  pages ← result_map
    (λ b, page ← match pc_pages (rs_cache s) !! b with Some p => Ok p | None => Err IndexError end;
          decode_rabit2_page_ref page (rt_layout (rs_runtime s)) to)
    (take (rt_closed_pages (rs_runtime s)) block_table_row);
  tail ← tail_materialize (rs_runtime s) to;
  Ok (concat (map fst pages) ++ tail.1, concat (map snd pages) ++ tail.2).

(** ** The state as a function of the tokens *)

(** The geometries the constructor accepts. *)
Definition runtime_geometry (h d : nat) : Prop := (0 < h ∧ 0 < d)%nat ∧ (32 | d)%nat ∧ (64 | h * d)%nat.

(** The runtime and the cache after closing the tokens [kc]/[vc]. *)
Definition rt_with_pages (h d : nat) (bt : list nat) (c : PageCache)
    (kc vc : list (list (list Z))) : RtState :=
  mkRt (mkRuntime h d d (layout_of GROUP h d d) (length kc / GROUP) empty_sidecar)
       (write_pages bt (pages_of h d d kc vc) c).

Definition rt_of (h d : nat) (bt : list nat) (c : PageCache) (ks vs : list (list (list Z))) : RtState :=
  @state_of _ _ (runtime_owner bt) h d d (rt_with_pages h d bt c) ks vs.

(** Page [i] can be written: the table and the cache are large enough. *)
Definition can_close (h d : nat) (bt : list nat) (c : PageCache) (i : nat) : Prop :=
  (i < length bt)%nat ∧ (nth i bt 0 < length (pc_pages c))%nat
  ∧ pc_width c = page_bytes (layout_of GROUP h d d).

Lemma runtime_geometry_aligned h d : runtime_geometry h d → meta_aligned GROUP h d d.
Proof.
  intros [_ [[c ->] [q Hq]]]. unfold meta_aligned, GROUP.
  change (v_groups_nat (c * 32)) with (v_groups_of (c * 32)).
  assert (v_groups_of (c * 32) = c) as ->.
  { unfold v_groups_of. rewrite Nat.div_add_l, Nat.div_small by lia. lia. }
  split; exists q; [change (32 / 32)%nat with 1%nat|]; lia.
Qed.

Lemma runtime_init_of h d bt c :
  runtime_geometry h d →
  runtime_init h d d = Ok (rs_runtime (rt_of h d bt c [] []))
  ∧ rs_cache (rt_of h d bt c [] []) = c.
Proof.
  intros Hgeo. destruct Hgeo as [[Hh Hd] [H32 H64]]. split; [|by destruct c, bt].
  unfold runtime_init. change RABIT2_GROUP_SIZE with (Z.of_nat GROUP).
  rewrite rabit2_page_layout_nat by (unfold GROUP; (lia || done || by exists 1%nat)).
  rewrite result_bind_ok. unfold _rabit2_stage3b1_validate_layout, layout_of.
  cbn [block_size num_kv_heads head_size_k head_size_v].
  change RABIT2_GROUP_SIZE with (Z.of_nat GROUP). rewrite !Z.eqb_refl. cbn [negb raise_if].
  rewrite !result_bind_ok. destruct H32 as [e ->]. destruct H64 as [q Hq].
  change (Z.of_nat GROUP) with 32%Z. unfold RABIT2_METADATA_GROUP_SIZE.
  replace (Z.of_nat (e * 32)) with (Z.of_nat e * 32)%Z by lia.
  rewrite Z.mod_mul, Z.div_mul by lia.
  replace (Z.of_nat h * (Z.of_nat e * 32))%Z with (Z.of_nat q * 64)%Z by lia.
  replace (32 * Z.of_nat h * Z.of_nat e)%Z with (Z.of_nat q * 64)%Z by lia.
  rewrite Z.mod_mul by lia. cbn [negb orb raise_if Z.eqb]. rewrite !result_bind_ok.
  replace (Z.of_nat e * 32)%Z with (Z.of_nat (e * 32)) by lia.
  change 3%Z with (Z.of_nat 3). change 2%Z with (Z.of_nat 2).
  rewrite !rabit2_packed_dim_nat by lia. by rewrite !result_bind_ok.
Qed.

Context `{!TorchFloatLaws TF}.

Lemma closed_page_exact_spec h d r gk gv rk rv :
  length gk = GROUP ∧ Forall (wf_row h d) gk → length gv = GROUP ∧ Forall (wf_row h d) gv →
  rt_layout r = layout_of GROUP h d d →
  _closed_page_exact (runtime_set_sidecar (sidecar_with h d d gk gv rk rv) r)
  = write_page ValueError h d d gk gv.
Proof.
  intros [Lk Wk] [Lv Wv] El. unfold _closed_page_exact, runtime_set_sidecar.
  cbn [rt_sidecar rt_layout sidecar_with open_k open_v_packed open_v_min open_v_scale].
  assert (∀ {B} (x : B), when_nonempty gk x = Some x) as Hw by (by destruct gk).
  rewrite !Hw. change (t_tokens (mkTensor3 h d gk)) with (length gk). rewrite Lk, Nat.eqb_refl. cbn [negb raise_if].
  rewrite result_bind_ok, El. unfold write_page.
  rewrite v_primary_quantize by (by apply widen_wf). by rewrite result_bind_ok.
Qed.

Lemma runtime_flush_closes h d bt c :
  runtime_geometry h d →
  @flush_closes _ _ (runtime_owner bt) h d d (rt_with_pages h d bt c) (can_close h d bt c).
Proof.
  intros Hgeo kc vc gk gv rk rv Hl Hdiv (Hbt & Hcache & Hw) Hk Hv.
  pose proof (runtime_geometry_aligned h d Hgeo) as Hal.
  pose proof (pages_of_length h d d kc vc Hl) as Hpl.
  cbn [owner_flush runtime_owner owner_update]. unfold _flush_open_page.
  rewrite st_bind_eq. cbn [st_get]. rewrite st_bind_eq. unfold st_lift at 1. cbn [rs_runtime rt_with_pages].
  rewrite (closed_page_exact_spec h d) by done.
  destruct (write_page_spec h d d Hal ValueError gk gv Hk Hv) as (-> & _).
  rewrite st_bind_eq. unfold st_raise_if, st_lift. cbn [rt_closed_pages runtime_set_sidecar].
  destruct (Nat.leb_spec (length bt) (length kc / GROUP)) as [?|_]; [lia|]. cbn [raise_if].
  rewrite st_bind_eq. cbn [rs_cache rt_layout rt_with_pages rs_runtime runtime_set_sidecar].
  change (pc_width (write_pages bt (pages_of h d d kc vc) c)) with (pc_width c).
  rewrite Hw, Z.eqb_refl. cbn [negb raise_if]. rewrite st_bind_eq. unfold index_copy.
  rewrite write_pages_length.
  destruct (Nat.leb_spec (length (pc_pages c)) (nth (length kc / GROUP) bt 0)) as [?|_]; [lia|].
  cbn [raise_if]. rewrite result_bind_ok. unfold st_put. do 2 f_equal.
  unfold runtime_page_closed, runtime_set_sidecar, rt_with_pages, clear_open. cbn [rt_num_kv_heads
    rt_head_size_k rt_head_size_v rt_layout rt_closed_pages rt_sidecar rs_runtime rs_cache sidecar_with
    recent_k recent_v]. f_equal.
  - rewrite length_app. destruct Hk as [-> _]. destruct Hdiv as [q Hq].
    rewrite Hq. replace (q * GROUP + GROUP)%nat with ((q + 1) * GROUP)%nat by lia.
    by rewrite !Nat.div_mul by (unfold GROUP; lia).
  - rewrite pages_of_app; [|done|done|apply Hk|apply Hv]. rewrite write_pages_snoc.
    + by rewrite Hpl.
    + by rewrite Hpl.
Qed.

(** One [append] on a represented state. *)
Lemma runtime_append_of h d bt c ks vs (key value : tensor3 f32) :
  runtime_geometry h d → length ks = length vs → Forall (wf_row h d) ks → Forall (wf_row h d) vs →
  wf_tensor3 key → wf_tensor3 value → shape_eqb key value = true → t_heads key = h → t_dim key = d →
  (∀ i, (i < closed_count (length ks + t_tokens key))%nat → can_close h d bt c i) →
  runtime_append bt key value (rt_of h d bt c ks vs)
  = (Ok tt, rt_of h d bt c (ks ++ stored (t_rows key)) (vs ++ stored (t_rows value))).
Proof.
  intros Hgeo Hl Hwk Hwv Hk Hv Hs Hh Hd Hcan. pose proof Hs as (Et & Eh & Ed)%shape_eqb_spec.
  unfold runtime_append, append. rewrite st_bind_eq. unfold st_raise_if, st_lift.
  rewrite Hs. cbn [negb raise_if]. rewrite st_bind_eq. cbn [st_get].
  change (@owner_geometry _ _ (runtime_owner bt) (rt_of h d bt c ks vs)) with (h, d, d).
  cbv beta iota zeta.
  rewrite Hh, Hd, <-Ed, Hd, !Nat.eqb_refl. cbn [negb orb raise_if].
  do 2 (rewrite st_bind_eq; cbv beta iota). unfold rt_of.
  apply append_loop_spec with (can := can_close h d bt c); try done; try congruence.
  by apply runtime_flush_closes.
Qed.

(** ** Reading a sequence *)

Lemma tail_materialize_of h d bt c ks vs to :
  runtime_geometry h d → length ks = length vs → Forall (wf_row h d) ks → Forall (wf_row h d) vs →
  tail_materialize (rs_runtime (rt_of h d bt c ks vs)) to
  = Ok (map3 to (k_shown h d (open_rows ks) ++ widen (recent_rows ks)),
        map3 to (v_shown h d (open_rows vs) ++ widen (recent_rows vs))).
Proof.
  intros Hgeo Hl Hk Hv. unfold tail_materialize.
  change (rt_sidecar (rs_runtime (rt_of h d bt c ks vs))) with (sidecar_of h d d ks vs).
  change (rt_head_size_v (rs_runtime (rt_of h d bt c ks vs))) with d. unfold sidecar_of.
  destruct (tail_rows_wf h d ks Hk) as [Ok_ Rk]. destruct (tail_rows_wf h d vs Hv) as [Ov Rv].
  assert (length (recent_rows ks) = length (recent_rows vs)) as Hrl by (by rewrite !recent_rows_length, Hl).
  rewrite decode_open_spec by (try done; by rewrite !open_rows_length, Hl).
  rewrite result_bind_ok, !map3_app. cbn [sidecar_with recent_k recent_v].
  destruct (recent_rows ks) as [|x rk], (recent_rows vs) as [|y rv]; try done.
  cbn [when_nonempty]. rewrite result_bind_ok. cbn [fst snd t_rows]. by rewrite !bf16_to_widen.
Qed.

(** Lookups of known blocks commute with decoding. *)
Lemma result_map_lookup {B} (f : list Z → result B) (ps : list (list Z)) bs pages :
  Forall2 (λ b p, ps !! b = Some p) bs pages →
  result_map (λ b, page ← match ps !! b with Some p => Ok p | None => Err IndexError end; f page) bs
  = result_map f pages.
Proof.
  induction 1 as [|b p bs pages Hb _ IH]; [done|]. cbn [result_map]. by rewrite Hb, result_bind_ok, IH.
Qed.

(** The block table of a sequence: one entry for every page the sequence will
    close, and those entries are distinct physical ids inside the cache.  The rest
    of the row is free (the scheduler pads it). *)
Definition table_ok (h d n : nat) (bt : list nat) (c : PageCache) : Prop :=
  NoDup (take (closed_count n) bt) ∧ (closed_count n ≤ length bt)%nat
  ∧ Forall (λ b, (b < length (pc_pages c))%nat) (take (closed_count n) bt)
  ∧ pc_width c = page_bytes (layout_of GROUP h d d).

Lemma table_ok_can_close h d n bt c i :
  table_ok h d n bt c → (i < closed_count n)%nat → can_close h d bt c i.
Proof.
  intros (_ & Hl & Hr & Hw) Hi. split; [lia|]. split; [|done].
  pose proof (Forall_nth_In (λ b, b < length (pc_pages c))%nat (take (closed_count n) bt) i 0%nat Hr) as H.
  rewrite length_take in H. rewrite nth_take_lt in H by done. apply H. lia.
Qed.

Lemma closed_count_mono n m : (n ≤ m)%nat → (closed_count n ≤ closed_count m)%nat.
Proof.
  intros H. unfold closed_count. apply Nat.Div0.div_le_mono. unfold old_count, residual_count, RESIDUAL. lia.
Qed.

Lemma table_ok_mono h d n m bt c : (n ≤ m)%nat → table_ok h d m bt c → table_ok h d n bt c.
Proof.
  intros Hnm (Hnd & Hl & Hr & Hw). pose proof (closed_count_mono n m Hnm) as Hc.
  assert (take (closed_count n) bt = take (closed_count n) (take (closed_count m) bt)) as E
    by (rewrite take_take; f_equal; lia).
  split; [|split; [lia|split; [|done]]]; rewrite E.
  - eapply sublist_NoDup; [exact Hnd|apply sublist_take].
  - by apply Forall_take.
Qed.

Lemma rt_pages_stored h d bt c ks vs :
  length ks = length vs → table_ok h d (length ks) bt c →
  Forall2 (λ b p, pc_pages (rs_cache (rt_of h d bt c ks vs)) !! b = Some p)
    (take (closed_count (length ks)) bt) (pages_of h d d (closed_rows ks) (closed_rows vs))
  ∧ (∀ b, b ∉ take (closed_count (length ks)) bt →
       pc_pages (rs_cache (rt_of h d bt c ks vs)) !! b = pc_pages c !! b)
  ∧ pc_width (rs_cache (rt_of h d bt c ks vs)) = pc_width c
  ∧ rt_closed_pages (rs_runtime (rt_of h d bt c ks vs)) = closed_count (length ks).
Proof.
  intros Hl (Hnd & Hlen & Hr & Hw).
  assert (length (closed_rows ks) = length (closed_rows vs)) as Hcl by (by rewrite !closed_rows_length, Hl).
  pose proof (pages_of_length h d d _ _ Hcl) as Hpl. rewrite closed_rows_length, Nat.div_mul in Hpl
    by (unfold GROUP; lia).
  change (rs_cache (rt_of h d bt c ks vs))
    with (write_pages bt (pages_of h d d (closed_rows ks) (closed_rows vs)) c).
  rewrite <-Hpl. split; [|split; [|split; [done|]]].
  - apply write_pages_lookup; rewrite ?Hpl; done || lia.
  - intros b. apply write_pages_frame.
  - cbn. rewrite closed_rows_length, Nat.div_mul by (unfold GROUP; lia). done.
Qed.

Lemma runtime_read_of h d bt c ks vs to :
  runtime_geometry h d → length ks = length vs → Forall (wf_row h d) ks → Forall (wf_row h d) vs →
  table_ok h d (length ks) bt c →
  runtime_read bt (rt_of h d bt c ks vs) to
  = Ok (map3 to (served_k h d ks), map3 to (served_v h d vs)).
Proof.
  intros Hgeo Hl Hk Hv Ht. pose proof (runtime_geometry_aligned h d Hgeo) as Hal.
  destruct (rt_pages_stored h d bt c ks vs Hl Ht) as (HF & _ & _ & Hc). unfold runtime_read.
  rewrite Hc. change (rt_layout (rs_runtime (rt_of h d bt c ks vs))) with (layout_of GROUP h d d).
  rewrite (result_map_lookup (λ page, decode_rabit2_page_ref page (layout_of GROUP h d d) to) _ _ _ HF).
  unfold pages_of. rewrite decode_pages_spec; [|done|by apply closed_groups_wf|by apply closed_groups_wf].
  rewrite result_bind_ok, tail_materialize_of, result_bind_ok by done. cbn [fst snd].
  destruct (shown_pages h d d (rows_of GROUP (closed_rows ks)) (rows_of GROUP (closed_rows vs)) to) as [-> ->].
  { unfold rows_of. by rewrite !view2_length, !closed_rows_length, Hl. }
  unfold served_k, served_v. by rewrite !map3_app.
Qed.

(** ** Runs *)

(** A sequence of [append] calls with one block table. *)
Definition runtime_run (bt : list nat) (chunks : list (tensor3 f32 * tensor3 f32)) : ST RtState unit :=
  st_for chunks (λ c, runtime_append bt c.1 c.2).

Lemma runtime_run_of h d bt c chunks ks vs :
  runtime_geometry h d → length ks = length vs → Forall (wf_row h d) ks → Forall (wf_row h d) vs →
  Forall (chunk_ok h d) chunks →
  table_ok h d (length ks + length (run_keys chunks)) bt c →
  runtime_run bt chunks (rt_of h d bt c ks vs)
  = (Ok tt, rt_of h d bt c (ks ++ stored (run_keys chunks)) (vs ++ stored (run_values chunks))).
Proof.
  intros Hgeo Hl Hk Hv H. revert ks vs Hl Hk Hv.
  induction H as [|x chunks Hc H IH]; intros ks vs Hl Hk Hv Ht.
  { unfold run_keys, run_values. cbn. by rewrite !app_nil_r. }
  unfold runtime_run. cbn [st_for]. rewrite st_bind_eq.
  pose proof (run_rows_wf h d [x] ltac:(by constructor)) as (Wk & Wv & Wl).
  unfold run_keys, run_values in Wk, Wv, Wl. cbn [map concat] in Wk, Wv, Wl. rewrite !app_nil_r in *.
  destruct Hc as (H1 & H2 & H3 & H4 & H5).
  assert (length (run_keys (x :: chunks)) = t_tokens x.1 + length (run_keys chunks))%nat as Hrun.
  { unfold run_keys, t_tokens. cbn [map concat]. by rewrite length_app. }
  rewrite Hrun in Ht.
  rewrite runtime_append_of; try done.
  - change (st_for chunks _) with (runtime_run bt chunks). rewrite IH.
    + unfold run_keys, run_values. cbn [map concat]. by rewrite !stored_app, !app_assoc.
    + rewrite !length_app, !stored_length. lia.
    + apply Forall_app. split; [done|]. by apply stored_wf.
    + apply Forall_app. split; [done|]. by apply stored_wf.
    + rewrite length_app, stored_length. by rewrite <-Nat.add_assoc.
  - intros i Hi. eapply table_ok_can_close; [exact Ht|].
    eapply Nat.lt_le_trans; [exact Hi|]. apply closed_count_mono. lia.
Qed.

(** The state of a fresh runtime over the cache [c]. *)
Definition runtime_start (h d : nat) (c : PageCache) : result RtState :=
  r ← runtime_init h d d; Ok (mkRt r c).

Lemma runtime_start_of h d bt c :
  runtime_geometry h d → runtime_start h d c = Ok (rt_of h d bt c [] []).
Proof.
  intros Hgeo. unfold runtime_start. destruct (runtime_init_of h d bt c Hgeo) as [-> Hc].
  rewrite result_bind_ok. set (s := rt_of h d bt c [] []) in *.
  transitivity (Ok (mkRt (rs_runtime s) (rs_cache s))); [by rewrite Hc|]. by destruct s.
Qed.

Lemma runtime_run_start h d bt c chunks :
  runtime_geometry h d → Forall (chunk_ok h d) chunks →
  table_ok h d (length (run_keys chunks)) bt c →
  runtime_start h d c = Ok (rt_of h d bt c [] [])
  ∧ runtime_run bt chunks (rt_of h d bt c [] [])
    = (Ok tt, rt_of h d bt c (stored (run_keys chunks)) (stored (run_values chunks)))
  ∧ length (stored (run_keys chunks)) = length (stored (run_values chunks))
  ∧ Forall (wf_row h d) (stored (run_keys chunks)) ∧ Forall (wf_row h d) (stored (run_values chunks))
  ∧ table_ok h d (length (stored (run_keys chunks))) bt c.
Proof.
  intros Hgeo Hch Ht. destruct (run_rows_wf h d chunks Hch) as (Wk & Wv & Wl).
  split; [by apply runtime_start_of|]. split; [by apply (runtime_run_of h d bt c chunks [] [])|].
  split; [by rewrite !stored_length|]. split; [by apply stored_wf|]. split; [by apply stored_wf|].
  by rewrite stored_length.
Qed.

(** ** Properties *)

(** C12: the serving runtime refines the reference state.  For every geometry
    both constructors accept, every sequence of chunks and every block table of
    distinct blocks that is long enough, the two run without error and end with
    the same sidecar; the cache holds page [i] of the reference at block
    [block_table_row[i]], every other block is untouched, and a reader of the
    runtime sees what [materialize] returns. *)
Theorem runtime_refines_reference (h d : nat) (bt : list nat) (c : PageCache)
    (chunks : list (tensor3 f32 * tensor3 f32)) (to : f32 → f32) :
  online_geometry h d → Forall (chunk_ok h d) chunks →
  table_ok h d (length (run_keys chunks)) bt c →
  ∃ s0 s o0 o kv,
    runtime_start h d c = Ok s0 ∧ runtime_run bt chunks s0 = (Ok tt, s)
    ∧ online_init h d d GROUP = Ok o0 ∧ online_run chunks o0 = (Ok tt, o)
    ∧ rt_sidecar (rs_runtime s) = os_sidecar o
    ∧ rt_closed_pages (rs_runtime s) = length (os_pages o)
    ∧ Forall2 (λ b p, pc_pages (rs_cache s) !! b = Some p) (take (length (os_pages o)) bt) (os_pages o)
    ∧ (∀ b, b ∉ take (length (os_pages o)) bt → pc_pages (rs_cache s) !! b = pc_pages c !! b)
    ∧ online_materialize o to = Ok kv ∧ runtime_read bt s to = Ok kv.
Proof.
  intros Hgeo Hch Ht.
  assert (runtime_geometry h d) as Hrt.
  { destruct Hgeo as [Hpos [q Hq]]. unfold META_GROUP in Hq. split; [done|].
    split; [exists (q * 2)%nat; lia|exists (h * q)%nat; lia]. }
  destruct (runtime_run_start h d bt c chunks Hrt Hch Ht) as (Hs0 & Hs & Hl & Wk & Wv & Ht').
  destruct (rt_pages_stored h d bt c _ _ Hl Ht') as (HF & Hfr & _ & Hc).
  set (ks := stored (run_keys chunks)) in *. set (vs := stored (run_values chunks)) in *.
  assert (length (os_pages (online_of h d ks vs)) = closed_count (length ks)) as Hp.
  { change (os_pages (online_of h d ks vs)) with (pages_of h d d (closed_rows ks) (closed_rows vs)).
    rewrite pages_of_length by (by rewrite !closed_rows_length, Hl).
    rewrite closed_rows_length. apply Nat.div_mul. unfold GROUP. lia. }
  do 5 eexists. split; [exact Hs0|]. split; [exact Hs|]. split; [by apply online_init_of|].
  split; [by apply online_run_of|]. rewrite !app_nil_l. fold ks vs.
  split; [done|]. split; [by rewrite Hp|]. rewrite Hp. split; [exact HF|]. split; [exact Hfr|].
  split; [by apply online_materialize_of|by apply runtime_read_of].
Qed.

(** The result does not depend on how a sequence is cut into calls.  Two
    runs over the same tokens end in the same runtime and the same cache,
    whatever the chunk boundaries. *)
Theorem runtime_chunking_independent (h d : nat) (bt : list nat) (c : PageCache)
    (chunks chunks' : list (tensor3 f32 * tensor3 f32)) :
  runtime_geometry h d → Forall (chunk_ok h d) chunks → Forall (chunk_ok h d) chunks' →
  table_ok h d (length (run_keys chunks)) bt c →
  run_keys chunks = run_keys chunks' → run_values chunks = run_values chunks' →
  ∃ s0 s, runtime_start h d c = Ok s0
    ∧ runtime_run bt chunks s0 = (Ok tt, s) ∧ runtime_run bt chunks' s0 = (Ok tt, s).
Proof.
  intros Hgeo Hch Hch' Ht Ek Ev.
  destruct (runtime_run_start h d bt c chunks Hgeo Hch Ht) as (Hs0 & Hs & _).
  destruct (runtime_run_start h d bt c chunks' Hgeo Hch') as (_ & Hs' & _); [by rewrite <-Ek|].
  do 2 eexists. split; [exact Hs0|]. split; [exact Hs|]. by rewrite Hs', Ek, Ev.
Qed.

(** What a reader of the runtime sees, on every geometry the constructor
    accepts.  Each closed group of 32 tokens is decoded from its page alone, the
    open group is quantized and dequantized on its own, and the newest four
    tokens are exact BF16; the token count is exact and the sidecar never
    exceeds the staging bound, which it reaches exactly when 31 tokens are
    open. *)
Theorem runtime_reads_groups (h d : nat) (bt : list nat) (c : PageCache)
    (chunks : list (tensor3 f32 * tensor3 f32)) (to : f32 → f32) :
  runtime_geometry h d → Forall (chunk_ok h d) chunks →
  table_ok h d (length (run_keys chunks)) bt c →
  let n := length (run_keys chunks) in
  ∃ s0 s bound,
    runtime_start h d c = Ok s0 ∧ runtime_run bt chunks s0 = (Ok tt, s)
    ∧ runtime_read bt s to = Ok (map3 to (served_k h d (stored (run_keys chunks))),
                                 map3 to (served_v h d (stored (run_values chunks))))
    ∧ runtime_total_tokens (rs_runtime s) = n
    ∧ rabit2_exact_online_staging_bytes_per_sequence (Z.of_nat h) (Z.of_nat d) (Some (Z.of_nat d))
        RABIT2_RESIDUAL_TOKENS RABIT2_GROUP_SIZE = Ok (Z.of_nat bound)
    ∧ (runtime_sidecar_bytes (rs_runtime s) ≤ bound)%nat
    ∧ (((n - 4) mod 32 = 31)%nat → runtime_sidecar_bytes (rs_runtime s) = bound).
Proof.
  intros Hgeo Hch Ht n.
  destruct (runtime_run_start h d bt c chunks Hgeo Hch Ht) as (Hs0 & Hs & Hl & Wk & Wv & Ht').
  destruct (rt_pages_stored h d bt c _ _ Hl Ht') as (_ & _ & _ & Hc).
  exists (rt_of h d bt c [] []). eexists. exists (staging_bytes_nat h d d).
  split; [exact Hs0|]. split; [exact Hs|]. split; [by apply runtime_read_of|].
  assert (length (stored (run_keys chunks)) = n) as Hn by apply stored_length.
  set (ks := stored (run_keys chunks)) in *. set (vs := stored (run_values chunks)) in *.
  split; [|split; [by apply staging_bytes_of; apply Hgeo|]].
  - unfold runtime_total_tokens. rewrite Hc.
    change (rt_sidecar (rs_runtime (rt_of h d bt c ks vs))) with (sidecar_of h d d ks vs).
    assert (∀ (rows : list (list (list Z))), tensor_len (when_nonempty rows (mkTensor3 h d rows)) = length rows)
      as Htl by (by intros []).
    unfold sidecar_of, sidecar_with. cbn [open_k recent_k].
    rewrite !Htl, open_rows_length, recent_rows_length, Hn.
    pose proof (closed_count_bound n). pose proof (old_count_bound n). lia.
  - change (runtime_sidecar_bytes (rs_runtime (rt_of h d bt c ks vs)))
      with (sidecar_bytes (sidecar_of h d d ks vs)).
    destruct (sidecar_of_staging h d d ks vs Hl Wk Wv) as [Hb He]. split; [done|].
    intros Hm. apply He. rewrite Hn. unfold old_count, residual_count, RESIDUAL, GROUP.
    replace (n - n `min` 4)%nat with (n - 4)%nat by lia. done.
Qed.
End Runtime.

(** A cache of [n] zero blocks for one head of 64 channels. *)
Definition zero_cache (n : nat) : PageCache := mkCache 1552 (replicate n (replicate 1552 0%Z)).

Definition three_chunks : list (tensor3 f32 * tensor3 f32) :=
  [const_chunk 5 1 64 3 (-2); const_chunk 1 1 64 4 1; const_chunk 64 1 64 (-7) 9].

Lemma three_chunks_ok : Forall (chunk_ok 1 64) three_chunks.
Proof. repeat constructor; apply const_chunk_ok. Qed.

Lemma three_chunks_table : table_ok 1 64 (length (run_keys three_chunks)) [3; 0]%nat (zero_cache 5).
Proof.
  split; [apply (bool_decide_unpack _); by vm_compute|]. split; [by vm_compute; lia|].
  split; [repeat constructor|done].
Qed.

(** C12 on 70 tokens in three calls, pages at blocks 3 and 0. *)
Lemma runtime_refines_reference_witness :
  ∃ s0 s o0 o kv,
    runtime_start 1 64 (zero_cache 5) = Ok s0 ∧ runtime_run [3; 0]%nat three_chunks s0 = (Ok tt, s)
    ∧ online_init 1 64 64 GROUP = Ok o0 ∧ online_run three_chunks o0 = (Ok tt, o)
    ∧ rt_sidecar (rs_runtime s) = os_sidecar o
    ∧ rt_closed_pages (rs_runtime s) = length (os_pages o)
    ∧ Forall2 (λ b p, pc_pages (rs_cache s) !! b = Some p) (take (length (os_pages o)) [3; 0]%nat)
        (os_pages o)
    ∧ (∀ b, b ∉ take (length (os_pages o)) [3; 0]%nat →
         pc_pages (rs_cache s) !! b = pc_pages (zero_cache 5) !! b)
    ∧ online_materialize o (λ x, x) = Ok kv ∧ runtime_read [3; 0]%nat s (λ x, x) = Ok kv.
Proof.
  apply (runtime_refines_reference 1 64 [3; 0]%nat (zero_cache 5) three_chunks (λ x, x));
    [apply one_head_geometry|apply three_chunks_ok|apply three_chunks_table].
Defined.

Lemma one_head_runtime : runtime_geometry 1 64.
Proof. split; [lia|]. split; [by exists 2%nat|by exists 1%nat]. Qed.

(** On 70 tokens: three calls against two. *)
Lemma runtime_chunking_independent_witness :
  ∃ s0 s, runtime_start 1 64 (zero_cache 5) = Ok s0
    ∧ runtime_run [3; 0]%nat [const_chunk 30 1 64 3 3; const_chunk 40 1 64 3 3] s0 = (Ok tt, s)
    ∧ runtime_run [3; 0]%nat [const_chunk 1 1 64 3 3; const_chunk 69 1 64 3 3] s0 = (Ok tt, s).
Proof.
  apply (runtime_chunking_independent 1 64 [3; 0]%nat (zero_cache 5)
    [const_chunk 30 1 64 3 3; const_chunk 40 1 64 3 3] [const_chunk 1 1 64 3 3; const_chunk 69 1 64 3 3]).
  - apply one_head_runtime.
  - repeat constructor; apply const_chunk_ok.
  - repeat constructor; apply const_chunk_ok.
  - split; [apply (bool_decide_unpack _); by vm_compute|]. split; [by vm_compute; lia|].
    split; [repeat constructor|done].
  - reflexivity.
  - reflexivity.
Defined.

(** On the same 70 tokens. *)
Lemma runtime_reads_groups_witness :
  ∃ s0 s bound,
    runtime_start 1 64 (zero_cache 5) = Ok s0 ∧ runtime_run [3; 0]%nat three_chunks s0 = (Ok tt, s)
    ∧ runtime_read [3; 0]%nat s (λ x, x)
      = Ok (map3 (λ x, x) (served_k 1 64 (stored (run_keys three_chunks))),
            map3 (λ x, x) (served_v 1 64 (stored (run_values three_chunks))))
    ∧ runtime_total_tokens (rs_runtime s) = length (run_keys three_chunks)
    ∧ rabit2_exact_online_staging_bytes_per_sequence 1 64 (Some 64%Z)
        RABIT2_RESIDUAL_TOKENS RABIT2_GROUP_SIZE = Ok (Z.of_nat bound)
    ∧ (runtime_sidecar_bytes (rs_runtime s) ≤ bound)%nat
    ∧ (((length (run_keys three_chunks) - 4) mod 32 = 31)%nat →
       runtime_sidecar_bytes (rs_runtime s) = bound).
Proof.
  apply (runtime_reads_groups 1 64 [3; 0]%nat (zero_cache 5) three_chunks (λ x, x));
    [apply one_head_runtime|apply three_chunks_ok|apply three_chunks_table].
Defined.
