(* ===== verification/Bulk.v ===== *)
(** * Bulk append and the vectorized page writer

    The two definitions of [rabit2_bulk_append_exact] in [rabit_kv2.py] (the
    Stage-4B4 one, and the Stage-4D2 one that replaces it), their page writers
    ([_rabit2_stage4b4_encode_page_from_primary] in a loop, and
    [_rabit2_stage4d2_encode_pages_vectorized_exact] with
    [_rabit2_stage4d2_write_full_pages]), and the proof that both leave the
    runtime and the cache exactly as the token-by-token [append] does.

    [index_copy_] of several pages raises before writing when the row widths
    differ or an index is out of range. *)

From Stdlib Require Import ZArith Lia.
From stdpp Require Import base tactics numbers list option.
From S2P Require Import Prelude Layout Torch SpecFloatTorch BitPack Meta Quant Decoded Page Sidecar Tail.
From S2P Require Import OnlineRef Runtime Tab.

(** [cache2d.index_copy_(0, physical_ids, pages_tensor)] *)
Definition index_copy_many (ids : list nat) (page_bytes : Z) (pages : list (list Z)) (c : PageCache) :
    result PageCache :=
  _ ← raise_if (negb (pc_width c =? page_bytes)%Z) RuntimeError;
  _ ← raise_if (existsb (λ b, length (pc_pages c) <=? b)%nat ids) IndexError;
  Ok (write_pages ids pages c).

Section Bulk.
Context `{TF : TorchFloat}.

(** ** The vectorized page encoder *)

(** One page of [_rabit2_stage4d2_encode_pages_vectorized_exact]: the K3
    statistics and codes of a [block x heads x dim] page. *)
Definition vec_k_min (dim heads : nat) (page : list (list (list f32))) : list (list f32) :=
  map (λ i, k_group_min dim (map (λ tok, nth i tok []) page)) (seq 0 heads).
Definition vec_k_scale (dim heads : nat) (page : list (list (list f32))) : list (list f32) :=
  map (λ i, k_group_scale dim (map (λ tok, nth i tok []) page)) (seq 0 heads).
Definition vec_k_codes (dim heads : nat) (page : list (list (list f32))) : list (list (list Z)) :=
  let k_min := vec_k_min dim heads page in
  let k_scale := vec_k_scale dim heads page in
  map (λ tok, zip_with3 (λ mn sc row, zip_with3 (affine_code 7) mn sc row) k_min k_scale tok) page.

(** The payload and the four blobs of one page, stored at their offsets. *)
Definition vec_encode_page (layout : Rabit2PageLayout) (heads dim : nat)
    (page : list (list (list f32))) (v_packed : list (list (list Z)))
    (v_min v_scale : list (list (list f32))) : result (list Z) :=
  k_rows ← _rabit2_stage4d2_pack_int3_direct_exact dim (concat (vec_k_codes dim heads page));
  store_parts RuntimeError
    (page_parts layout (concat k_rows) (flat v_packed)
       (meta_blob_page (concat (vec_k_min dim heads page)))
       (meta_blob_page (concat (vec_k_scale dim heads page)))
       (meta_blob_page (flat v_min)) (meta_blob_page (flat v_scale)))
    (zero_page layout).

(** [_rabit2_stage4b4_exact_v2_batch]: the reference quantizer on the whole batch. *)
Definition _rabit2_stage4b4_exact_v2_batch (value : tensor3 f32) :
    result (tensor3 Z * tensor3 f32 * tensor3 f32 * nat) :=
  _quantize_v2_primary_ref value GROUP.

Definition _rabit2_stage4d2_encode_pages_vectorized_exact (r : Rabit2SingleSequenceRuntime)
    (full_pages : nat) (all_k : tensor3 Z) (all_vp : tensor3 Z) (all_vmn all_vsc : tensor3 f32) :
    result (list (list Z)) :=
  _ ← raise_if (negb (t_heads all_k =? rt_num_kv_heads r)%nat) ValueError;
  _ ← raise_if (negb (t_dim all_k =? rt_head_size_k r)%nat) ValueError;
  let pages {A} (t : tensor3 A) := view2 full_pages GROUP (t_rows t) in
  result_map (λ i, vec_encode_page (rt_layout r) (t_heads all_k) (t_dim all_k)
                     (widen (nth i (pages all_k) [])) (nth i (pages all_vp) [])
                     (nth i (pages all_vmn) []) (nth i (pages all_vsc) []))
             (seq 0 full_pages).

Definition _rabit2_stage4d2_write_full_pages (r : Rabit2SingleSequenceRuntime)
    (all_k all_vp : tensor3 Z) (all_vmn all_vsc : tensor3 f32) (full_pages : nat)
    (block_table_row : list nat) (start_closed : nat) (c : PageCache) : result (nat * PageCache) :=
  if (full_pages =? 0)%nat then Ok (start_closed, c)
  else
    pages ← _rabit2_stage4d2_encode_pages_vectorized_exact r full_pages all_k all_vp all_vmn all_vsc;
    let stop := (start_closed + full_pages)%nat in
    _ ← raise_if (length block_table_row <? stop)%nat RuntimeError;
    c' ← index_copy_many (slice start_closed stop block_table_row) (page_bytes (rt_layout r)) pages c;
    Ok (stop, c').

(** ** The Stage-4B4 page loop *)

Definition stage4b4_pages (r : Rabit2SingleSequenceRuntime) (all_k all_vp : tensor3 Z)
    (all_vmn all_vsc : tensor3 f32) (full_pages : nat) : result (list (list Z)) :=
  result_map (λ i, let s := (i * GROUP)%nat in let e := (s + GROUP)%nat in
                   _rabit2_stage4b4_encode_page_from_primary (rt_layout r)
                     (t_map f32_of_bf16 (t_slice s e all_k)) (t_slice s e all_vp)
                     (t_slice s e all_vmn) (t_slice s e all_vsc))
             (seq 0 full_pages).

Definition stage4b4_write_full_pages (r : Rabit2SingleSequenceRuntime)
    (all_k all_vp : tensor3 Z) (all_vmn all_vsc : tensor3 f32) (full_pages : nat)
    (block_table_row : list nat) (start_closed : nat) (c : PageCache) : result (nat * PageCache) :=
  if (full_pages =? 0)%nat then Ok (start_closed, c)
  else
    pages ← stage4b4_pages r all_k all_vp all_vmn all_vsc full_pages;
    let stop := (start_closed + full_pages)%nat in
    _ ← raise_if (length block_table_row <? stop)%nat RuntimeError;
    c' ← index_copy_many (slice start_closed stop block_table_row) (page_bytes (rt_layout r)) pages c;
    Ok (stop, c').

(** ** Appending a whole chunk *)

(** [if runtime.open_k is None: b else torch.cat((a, b))] *)
Definition cat_open {A} (r : Rabit2SingleSequenceRuntime) (a : option (tensor3 A)) (b : tensor3 A) :
    result (tensor3 A) :=
  match open_k (rt_sidecar r) with
  | None => Ok b
  | Some _ => match a with Some a => Ok (cat_tensor (Some a) b) | None => Err TypeError end
  end.

(** The argument checks shared by the bulk append and the chunk plan. *)
Definition chunk_guards (r : Rabit2SingleSequenceRuntime) (key value : tensor3 f32) : result unit :=
  _ ← raise_if (negb (shape_eqb key value)) ValueError;
  _ ← raise_if (negb (t_heads key =? rt_num_kv_heads r)%nat
                || negb (t_dim key =? rt_head_size_k r)%nat) ValueError;
  raise_if (negb (t_dim value =? rt_head_size_v r)%nat) ValueError.

(** [runtime.open_* = all_*[s:]], or [None] when nothing is left. *)
Definition set_open (leftover s : nat) (all_k all_vp : tensor3 Z) (all_vmn all_vsc : tensor3 f32)
    (sc : Sidecar) : Sidecar :=
  if (leftover =? 0)%nat then clear_open sc
  else mkSidecar (Some (t_drop s all_k)) (Some (t_drop s all_vp)) (Some (t_drop s all_vmn))
         (Some (t_drop s all_vsc)) (recent_k sc) (recent_v sc).

Definition set_recent (rk rv : tensor3 Z) (sc : Sidecar) : Sidecar :=
  mkSidecar (open_k sc) (open_v_packed sc) (open_v_min sc) (open_v_scale sc) (Some rk) (Some rv).

Definition set_closed (n : nat) (r : Rabit2SingleSequenceRuntime) : Rabit2SingleSequenceRuntime :=
  mkRuntime (rt_num_kv_heads r) (rt_head_size_k r) (rt_head_size_v r) (rt_layout r) n (rt_sidecar r).

Section Writer.
(** The page writer: the Stage-4B4 loop or the Stage-4D2 vectorized one. *)
Variable write_full_pages :
  Rabit2SingleSequenceRuntime → tensor3 Z → tensor3 Z → tensor3 f32 → tensor3 f32 → nat →
  list nat → nat → PageCache → result (nat * PageCache).

Definition bulk_append (block_table_row : list nat) (key value : tensor3 f32) : ST RtState unit :=
  s ← st_get;
  let r := rs_runtime s in
  st_lift (chunk_guards r key value);;
  if (t_tokens key =? 0)%nat then mret tt
  else
    let key := to_bf16 key in
    let value := to_bf16 value in
    combined_recent_v ← st_lift (match recent_k (rt_sidecar r), recent_v (rt_sidecar r) with
                                 | None, _ => Ok value
                                 | Some _, Some rv => Ok (cat_tensor (Some rv) value)
                                 | Some _, None => Err TypeError
                                 end);
    let combined_recent_k := cat_tensor (recent_k (rt_sidecar r)) key in
    let aged_n := (t_tokens combined_recent_k - RESIDUAL)%nat in
    if (aged_n =? 0)%nat then
      st_modify (λ s, mkRt (runtime_set_sidecar
                              (set_recent combined_recent_k combined_recent_v (rt_sidecar r)) r)
                           (rs_cache s))
    else
      let aged_k := t_take aged_n combined_recent_k in
      let aged_v := t_take aged_n combined_recent_v in
      v ← st_lift (_rabit2_stage4b4_exact_v2_batch (t_map f32_of_bf16 aged_v));
      let '(vp, vmn, vsc, _) := v in
      let all_k := cat_tensor (open_k (rt_sidecar r)) aged_k in
      all_vp ← st_lift (cat_open r (open_v_packed (rt_sidecar r)) vp);
      all_vmn ← st_lift (cat_open r (open_v_min (rt_sidecar r)) vmn);
      all_vsc ← st_lift (cat_open r (open_v_scale (rt_sidecar r)) vsc);
      let total := t_tokens all_k in
      let full_pages := (total / GROUP)%nat in
      let leftover := (total mod GROUP)%nat in
      written ← st_lift (write_full_pages r all_k all_vp all_vmn all_vsc full_pages block_table_row
                           (rt_closed_pages r) (rs_cache s));
      let sc := set_recent (t_drop aged_n combined_recent_k) (t_drop aged_n combined_recent_v)
                  (set_open leftover (full_pages * GROUP) all_k all_vp all_vmn all_vsc (rt_sidecar r)) in
      st_put (mkRt (runtime_set_sidecar sc (set_closed written.1 r)) written.2).
End Writer.

(** The first definition of [rabit2_bulk_append_exact], and the one in force. *)
Definition rabit2_stage4b4_bulk_append_exact := bulk_append stage4b4_write_full_pages.
Definition rabit2_bulk_append_exact := bulk_append _rabit2_stage4d2_write_full_pages.

(** ** The vectorized encoder writes the reference page *)

Context `{!TorchFloatLaws TF}.

Lemma one_group_head d (x : list (list f32)) : length x = GROUP → k_head_groups GROUP d x = [x].
Proof.
  intros Hx. unfold k_head_groups.
  rewrite Hx, pad_to_multiple by ((unfold GROUP; lia) || by exists 1%nat).
  cbn [replicate]. rewrite rows_of_one by (done || (unfold GROUP; lia)). done.
Qed.

Section VecPage.
Variables (h d : nat) (page : list (list (list f32))).
Hypothesis Hpage : length page = GROUP ∧ Forall (wf_row h d) page.
Let kt := mkTensor3 h d page.
Let xs := permute102 h page [].

Lemma vec_groups : k_groups kt = map (λ x, [x]) xs.
Proof.
  destruct Hpage as [Hl Hw]. unfold k_groups. cbn [kt t_dim t_heads t_rows]. fold xs.
  apply map_ext_in. intros x Hx. apply one_group_head.
  pose proof (permute102_wf h d page Hw) as Hp. rewrite List.Forall_forall in Hp.
  destruct (Hp x Hx) as [-> _]. done.
Qed.

Lemma vec_primary (F : nat → list (list f32) → list f32) : k_primary F kt = concat (map (F d) xs).
Proof.
  unfold k_primary. rewrite vec_groups. cbn [kt t_dim]. rewrite !map_map. cbn [map concat].
  f_equal. apply map_ext. intros x. apply app_nil_r.
Qed.

Lemma vec_k_min_primary : concat (vec_k_min d h page) = k_primary k_group_min kt.
Proof. rewrite vec_primary. unfold vec_k_min, xs, permute102. by rewrite map_map. Qed.

Lemma vec_k_scale_primary : concat (vec_k_scale d h page) = k_primary k_group_scale kt.
Proof. rewrite vec_primary. unfold vec_k_scale, xs, permute102. by rewrite map_map. Qed.

Lemma vec_codes_rows : vec_k_codes d h page = k_code_rows kt.
Proof.
  destruct Hpage as [Hl Hw]. unfold k_code_rows. rewrite vec_groups.
  change (t_tokens kt) with (length page). cbn [kt t_dim].
  rewrite Hl, (pad_to_multiple GROUP GROUP) by ((unfold GROUP; lia) || by exists 1%nat).
  rewrite Nat.add_0_r, !map_map. cbn [map concat].
  unfold permute102 at 1. rewrite <-Hl.
  transitivity (map (λ t, map (λ x, nth t (k_group_codes d x) []) xs) (seq 0 (length page))).
  2: { apply map_ext. intros t. rewrite map_map. apply map_ext. intros x. by rewrite app_nil_r. }
  unfold vec_k_codes. set (mns := vec_k_min d h page). set (scs := vec_k_scale d h page).
  cbv zeta. rewrite <-(map_nth_seq page []) at 1. rewrite map_map.
  apply map_ext_in. intros t [_ Ht]%in_seq. simpl in Ht.
  pose proof (Forall_nth_In _ page t [] Hw Ht) as [Htl _]. set (tok := nth t page []) in *.
  unfold mns, scs, vec_k_min, vec_k_scale. rewrite <-(map_nth_seq tok []) at 1. rewrite Htl, zip_with3_maps.
  unfold xs, permute102. rewrite map_map. apply map_ext. intros i.
  unfold k_group_codes. rewrite (nth_map_lt _ _ _ _ []) by (by rewrite length_map).
  f_equal. by rewrite (nth_map_lt _ _ _ _ []).
Qed.

Lemma vec_encode_page_eq layout vpd g v_packed v_min v_scale :
  (8 | d)%nat → (0 < h)%nat → (0 < d)%nat →
  (0 < length (flat v_min))%nat → (0 < length (flat v_scale))%nat →
  vec_encode_page layout h d page v_packed v_min v_scale
  = encode_page_from_primary RuntimeError layout kt (mkTensor3 h vpd v_packed) (mkTensor3 h g v_min)
      (mkTensor3 h g v_scale).
Proof.
  intros Hd8 Hh Hd Hvm Hvs. destruct Hpage as [Hl Hw].
  assert (wf_tensor3 kt) as Hwf by done.
  assert (t_tokens kt = GROUP) as Ht by done.
  assert (k_group_count kt = 1)%nat as HG.
  { unfold k_group_count. rewrite Ht, (pad_to_multiple GROUP GROUP) by ((unfold GROUP; lia) || by exists 1%nat).
    by rewrite Nat.add_0_r. }
  pose proof (k_primary_length k_group_min kt (k_group_min_length _) Hwf) as Lm.
  pose proof (k_primary_length k_group_scale kt (k_group_scale_length _) Hwf) as Ls.
  rewrite HG in Lm, Ls. cbn [kt t_heads t_dim] in Lm, Ls.
  unfold vec_encode_page. rewrite vec_codes_rows, vec_k_min_primary, vec_k_scale_primary.
  pose proof (k_code_rows_tensor kt Hwf) as HC. cbn [kt t_heads t_dim] in HC.
  rewrite direct_pack_ok by ((by apply code_tensor_rows with h) || by apply Nat.Lcm0.mod_divide).
  rewrite result_bind_ok. unfold encode_page_from_primary, encode_v_meta, encode_page_from_metas.
  unfold flatten3, t_tokens. cbn [t_heads t_dim t_rows]. fold (flat v_min) (flat v_scale) (flat v_packed).
  assert (∀ (fl : list f32) shape, (0 < length fl)%nat →
            ∃ m, encode_metadata_uint8_group_ref fl shape META_GROUP = Ok m
                 ∧ meta_blob_page fl = encode_metadata_blob_ref m) as Hmeta.
  { intros fl shape Hfl. destruct (decode_encode_metadata fl shape) as (m & Em & _).
    exists m. split; [done|]. by apply meta_blob_page_ref with shape. }
  destruct (Hmeta (flat v_min) [length v_min; h; g; 1]%nat Hvm) as (m1 & -> & ->).
  destruct (Hmeta (flat v_scale) [length v_scale; h; g; 1]%nat Hvs) as (m2 & -> & ->).
  rewrite !result_bind_ok, k_quantize_ok by (done || (rewrite Ht; unfold GROUP; lia)). cbv zeta.
  destruct (Hmeta (k_primary k_group_min kt) [1; t_heads kt; k_group_count kt; 1; t_dim kt]%nat) as (m3 & -> & ->);
    [rewrite Lm; nia|].
  destruct (Hmeta (k_primary k_group_scale kt) [1; t_heads kt; k_group_count kt; 1; t_dim kt]%nat) as (m4 & -> & ->);
    [rewrite Ls; nia|].
  rewrite !result_bind_ok. cbn [k_packed k_min k_scale t_rows]. do 2 f_equal.
  cbn [kt t_dim]. rewrite <-concat_concat. f_equal. by rewrite concat_map.
Qed.
End VecPage.

(** ** Rows of a chunk *)

Lemma slice_map {A B} (f : A → B) a b (l : list A) : slice a b (map f l) = map f (slice a b l).
Proof. unfold slice. by rewrite skipn_map, firstn_map. Qed.

Lemma view2_slices {A} n g (l : list A) :
  view2 n g l = map (λ i, slice (i * g) (i * g + g) l) (seq 0 n).
Proof.
  revert l. induction n as [|n IH]; intros l; [done|]. unfold view2 in *.
  rewrite <-cons_seq, <-seq_shift. cbn [replicate reshape map]. rewrite IH, map_map. f_equal.
  - unfold slice. by rewrite Nat.mul_0_l, drop_0, Nat.add_0_l, Nat.sub_0_r.
  - apply map_ext. intros i. unfold slice. rewrite drop_drop.
    replace (S i * g)%nat with (g + i * g)%nat by lia. f_equal. lia.
Qed.

Lemma rows_of_take {A} n g (l : list A) :
  (0 < g)%nat → (n * g ≤ length l)%nat → rows_of g (take (n * g) l) = view2 n g l.
Proof.
  intros Hg Hl. unfold rows_of. rewrite length_take, Nat.min_l, Nat.div_mul by lia.
  rewrite !view2_slices. apply map_ext_in. intros i [_ Hi]%in_seq. cbn in Hi. unfold slice.
  rewrite skipn_firstn_comm, take_take. f_equal. nia.
Qed.

(** How the old rows, the residual and a chunk split into new pages, the new open
    group and the new residual. *)
Lemma chunk_rows {A} (rows x : list A) :
  let n := length rows in
  let m := length (rows ++ x) in
  let combined := recent_rows rows ++ x in
  let aged := (length combined - RESIDUAL)%nat in
  let all := open_rows rows ++ take aged combined in
  let full := (length all / GROUP)%nat in
  (closed_count n + full)%nat = closed_count m
  ∧ (length all mod GROUP)%nat = length (open_rows (rows ++ x))
  ∧ (full * GROUP ≤ length all)%nat
  ∧ closed_rows (rows ++ x) = closed_rows rows ++ take (full * GROUP) all
  ∧ open_rows (rows ++ x) = drop (full * GROUP) all
  ∧ recent_rows (rows ++ x) = drop aged combined
  ∧ (aged = 0%nat → open_rows (rows ++ x) = open_rows rows ∧ closed_rows (rows ++ x) = closed_rows rows
                  ∧ closed_count m = closed_count n).
Proof.
  intros n m combined aged all full.
  assert (m = n + length x)%nat as Hm by apply length_app.
  assert (length combined = residual_count n + length x)%nat as Hcl.
  { unfold combined. rewrite length_app, recent_rows_length. fold n.
    unfold old_count, residual_count. lia. }
  assert (old_count n + aged = old_count m)%nat as Hold.
  { unfold aged. rewrite Hcl, Hm. unfold old_count, residual_count, RESIDUAL. lia. }
  assert (take (old_count n) rows ++ take aged combined = take (old_count m) (rows ++ x)) as Htake.
  { unfold combined. rewrite (old_recent_split rows) at 3. rewrite <-app_assoc.
    pose proof (old_count_bound n).
    rewrite <-Hold. symmetry. apply take_app_add'. rewrite length_take. fold n. lia. }
  assert (closed_rows rows ++ all = take (old_count m) (rows ++ x)) as Hall.
  { unfold all. rewrite app_assoc, <-closed_open_split. exact Htake. }
  assert (length all = old_count m - closed_count n * GROUP)%nat as Hal.
  { apply (f_equal length) in Hall. rewrite length_app, closed_rows_length, length_take in Hall.
    fold n m in Hall. pose proof (old_count_bound m). lia. }
  pose proof (closed_count_bound n) as Bn. pose proof (closed_count_bound m) as Bm.
  pose proof (Nat.div_mod_eq (length all) GROUP) as Hdm.
  pose proof (Nat.mod_upper_bound (length all) GROUP ltac:(unfold GROUP; lia)) as Hmu. fold full in Hdm.
  assert (closed_count n + full = closed_count m)%nat as Hfull.
  { unfold GROUP in *. nia. }
  assert (full * GROUP ≤ length all)%nat as Hle by lia.
  assert (closed_rows (rows ++ x) ++ open_rows (rows ++ x)
          = (closed_rows rows ++ take (full * GROUP) all) ++ drop (full * GROUP) all) as Hsplit.
  { rewrite <-closed_open_split, <-app_assoc, take_drop, Hall. done. }
  apply app_inj_1 in Hsplit as [Hc Ho].
  2: { rewrite length_app, !closed_rows_length, length_take. fold n m. rewrite <-Hfull. lia. }
  split; [done|]. split; [rewrite open_rows_length; fold m; rewrite <-Hfull; lia|].
  split; [done|]. split; [done|]. split; [done|]. split.
  - unfold recent_rows. fold m. rewrite <-Hold. unfold combined, recent_rows. fold n.
    rewrite <-drop_drop, drop_app_le by (pose proof (old_count_bound n); lia). done.
  - intros Ha. rewrite Ho, Hc. assert (full = 0)%nat as ->.
    { apply Nat.div_small. rewrite Hal. rewrite Ha in Hold. lia. }
    cbn [Nat.mul take drop]. unfold all. rewrite Ha. cbn [take]. rewrite !app_nil_r.
    split; [done|]. split; [done|]. lia.
Qed.

(** The pages of a prefix and a chunk. *)
Lemma chunk_pages h d ks vs kx vx :
  length ks = length vs → length kx = length vx →
  let aged_k := take (length (recent_rows ks ++ kx) - RESIDUAL) (recent_rows ks ++ kx) in
  let aged_v := take (length (recent_rows vs ++ vx) - RESIDUAL) (recent_rows vs ++ vx) in
  let full := (length (open_rows ks ++ aged_k) / GROUP)%nat in
  pages_of h d d (closed_rows (ks ++ kx)) (closed_rows (vs ++ vx))
  = pages_of h d d (closed_rows ks) (closed_rows vs)
    ++ pages_of h d d (take (full * GROUP) (open_rows ks ++ aged_k))
                      (take (full * GROUP) (open_rows vs ++ aged_v)).
Proof.
  intros Hl Hx aged_k aged_v full.
  destruct (chunk_rows ks kx) as (_ & _ & _ & Fk4 & _). destruct (chunk_rows vs vx) as (_ & _ & _ & Fv4 & _).
  fold aged_k in Fk4. fold aged_v in Fv4.
  assert (length (open_rows vs ++ aged_v) = length (open_rows ks ++ aged_k)) as E.
  { unfold aged_k, aged_v. rewrite !length_app, !length_take, !length_app, !open_rows_length,
      !recent_rows_length. by rewrite Hl, Hx. }
  rewrite E in Fv4. fold full in Fk4, Fv4. rewrite Fk4, Fv4.
  assert (length (closed_rows ks) = length (closed_rows vs)) as Hcl by (by rewrite !closed_rows_length, Hl).
  assert (GROUP | length (closed_rows ks))%nat as Hdv
    by (rewrite closed_rows_length; by exists (closed_count (length ks))).
  unfold pages_of. rewrite !rows_of_app by ((unfold GROUP; lia) || (by rewrite <-?Hcl)).
  apply zip_with_app. unfold rows_of. by rewrite !view2_length, Hcl.
Qed.

(** ** Writing pages after pages *)

Lemma write_pages_more bt P Q c :
  (length P + length Q ≤ length bt)%nat →
  write_pages (slice (length P) (length P + length Q) bt) Q (write_pages bt P c)
  = write_pages bt (P ++ Q) c.
Proof.
  intros Hl. unfold write_pages. cbn [pc_width pc_pages]. f_equal.
  rewrite (zip_take_l bt (P ++ Q)), length_app. rewrite (zip_take_l bt P), <-fold_left_app. f_equal.
  rewrite <-(take_take_drop bt (length P) (length Q)). rewrite zip_with_app by (rewrite length_take; lia).
  f_equal. unfold slice. f_equal. f_equal. lia.
Qed.

Lemma index_copy_more h d bt P Q c :
  (length P + length Q ≤ length bt)%nat →
  Forall (λ b, b < length (pc_pages c))%nat (take (length P + length Q) bt) →
  pc_width c = page_bytes (layout_of GROUP h d d) →
  index_copy_many (slice (length P) (length P + length Q) bt) (page_bytes (layout_of GROUP h d d)) Q
    (write_pages bt P c) = Ok (write_pages bt (P ++ Q) c).
Proof.
  intros Hl Hr Hw. unfold index_copy_many. rewrite write_pages_length.
  change (pc_width (write_pages bt P c)) with (pc_width c). rewrite Hw, Z.eqb_refl.
  cbn [negb raise_if]. rewrite result_bind_ok.
  replace (existsb _ _) with false.
  - cbn [raise_if]. by rewrite result_bind_ok, write_pages_more.
  - symmetry. apply not_true_iff_false. intros (b & Hb & Hlt)%existsb_exists.
    apply Nat.leb_le in Hlt.
    assert (Forall (λ b, b < length (pc_pages c))%nat (slice (length P) (length P + length Q) bt)) as HF
      by (unfold slice; rewrite <-skipn_firstn_comm; by apply Forall_drop).
    rewrite List.Forall_forall in HF. specialize (HF b Hb). cbn in HF. lia.
Qed.

(** ** What a page writer promises *)

Section WriterSpec.
Variables (h d : nat) (bt : list nat) (c : PageCache).
Hypothesis Hgeo : runtime_geometry h d.

Let vpd := ((v_pad_dim_of d * 2 + 7) / 8)%nat.

Definition writer_spec (w : Rabit2SingleSequenceRuntime → tensor3 Z → tensor3 Z → tensor3 f32 →
    tensor3 f32 → nat → list nat → nat → PageCache → result (nat * PageCache)) : Prop :=
  ∀ r K V P full,
    rt_layout r = layout_of GROUP h d d → rt_num_kv_heads r = h → rt_head_size_k r = d →
    length K = length V → Forall (wf_row h d) K → Forall (wf_row h d) V →
    (full * GROUP ≤ length K)%nat → (length P + full ≤ length bt)%nat →
    Forall (λ b, b < length (pc_pages c))%nat (take (length P + full) bt) →
    pc_width c = page_bytes (layout_of GROUP h d d) →
    w r (mkTensor3 h d K) (mkTensor3 h vpd (v_packed_rows d (widen V)))
      (mkTensor3 h (v_groups_of d) (v_mins d (widen V)))
      (mkTensor3 h (v_groups_of d) (v_scales d (widen V))) full bt (length P) (write_pages bt P c)
    = Ok ((length P + full)%nat,
          write_pages bt (P ++ pages_of h d d (take (full * GROUP) K) (take (full * GROUP) V)) c).

(** One chunk of the rows: a full group of well-formed tokens. *)
Lemma group_slice {A} (K : list (list (list A))) full i :
  Forall (wf_row h d) K → (full * GROUP ≤ length K)%nat → (i < full)%nat →
  length (slice (i * GROUP) (i * GROUP + GROUP) K) = GROUP
  ∧ Forall (wf_row h d) (slice (i * GROUP) (i * GROUP + GROUP) K).
Proof.
  intros Hw Hl Hi. split; [rewrite slice_length; nia|]. by apply Forall_take, Forall_drop.
Qed.

Lemma pages_of_slices K V full :
  length K = length V → (full * GROUP ≤ length K)%nat →
  pages_of h d d (take (full * GROUP) K) (take (full * GROUP) V)
  = map (λ i, page_of h d d (slice (i * GROUP) (i * GROUP + GROUP) K)
                            (slice (i * GROUP) (i * GROUP + GROUP) V)) (seq 0 full).
Proof.
  intros Hl Hle. unfold pages_of. rewrite !rows_of_take, !view2_slices by ((unfold GROUP; lia) || lia).
  apply zip_with_map.
Qed.

(** Both encoders return the pages of the groups. *)
Lemma stage4b4_pages_ok r K V full :
  rt_layout r = layout_of GROUP h d d →
  length K = length V → Forall (wf_row h d) K → Forall (wf_row h d) V → (full * GROUP ≤ length K)%nat →
  stage4b4_pages r (mkTensor3 h d K) (mkTensor3 h vpd (v_packed_rows d (widen V)))
    (mkTensor3 h (v_groups_of d) (v_mins d (widen V)))
    (mkTensor3 h (v_groups_of d) (v_scales d (widen V))) full
  = Ok (pages_of h d d (take (full * GROUP) K) (take (full * GROUP) V)).
Proof.
  intros El Hl HK HV Hle. rewrite pages_of_slices by done. unfold stage4b4_pages.
  apply result_map_ok. intros i [_ Hi]%in_seq. cbn in Hi. rewrite El.
  pose proof (group_slice K full i HK Hle Hi) as HKi.
  pose proof (group_slice V full i HV ltac:(by rewrite <-Hl) Hi) as HVi.
  destruct (write_page_spec h d d (runtime_geometry_aligned h d Hgeo) RuntimeError _ _ HKi HVi) as [<- _].
  unfold write_page. rewrite v_primary_quantize by (apply widen_wf, HVi). rewrite result_bind_ok.
  unfold _rabit2_stage4b4_encode_page_from_primary, t_slice, t_map, v_packed_rows, v_codes, v_mins,
    v_scales, widen, map3. cbn [t_heads t_dim t_rows fst snd]. by rewrite !slice_map.
Qed.

Lemma vectorized_pages_ok r K V full :
  rt_layout r = layout_of GROUP h d d → rt_num_kv_heads r = h → rt_head_size_k r = d →
  length K = length V → Forall (wf_row h d) K → Forall (wf_row h d) V → (full * GROUP ≤ length K)%nat →
  _rabit2_stage4d2_encode_pages_vectorized_exact r full (mkTensor3 h d K)
    (mkTensor3 h vpd (v_packed_rows d (widen V)))
    (mkTensor3 h (v_groups_of d) (v_mins d (widen V)))
    (mkTensor3 h (v_groups_of d) (v_scales d (widen V)))
  = Ok (pages_of h d d (take (full * GROUP) K) (take (full * GROUP) V)).
Proof.
  intros El Eh Ed Hl HK HV Hle. rewrite pages_of_slices by done.
  unfold _rabit2_stage4d2_encode_pages_vectorized_exact. cbn [t_heads t_dim t_rows].
  rewrite Eh, Ed, !Nat.eqb_refl. cbn [negb raise_if]. rewrite !result_bind_ok.
  apply result_map_ok. intros i Hin. pose proof Hin as [_ Hi]%in_seq. cbn in Hi. rewrite El.
  pose proof (group_slice K full i HK Hle Hi) as HKi.
  pose proof (group_slice V full i HV ltac:(by rewrite <-Hl) Hi) as HVi.
  assert (∀ {A} (l : list A), nth i (view2 full GROUP l) [] = slice (i * GROUP) (i * GROUP + GROUP) l)
    as Hnth by (intros; by rewrite view2_slices, nth_tabulate).
  rewrite !Hnth. unfold v_packed_rows, v_codes, v_mins, v_scales, widen, map3. rewrite !slice_map.
  set (gk := slice _ _ K) in *. set (gv := slice _ _ V) in *.
  fold (map3 f32_of_bf16 gk) (map3 f32_of_bf16 gv). fold (widen gk) (widen gv).
  fold (v_codes d (widen gv)). fold (v_packed_rows d (widen gv)).
  fold (v_mins d (widen gv)) (v_scales d (widen gv)).
  destruct Hgeo as [[Hh Hd] [[e He] _]]. destruct HKi as [Lk Wk], HVi as [Lv Wv].
  pose proof (v_groups_of_multiple d e He) as Hg.
  assert (∀ rows : list (list (list f32)), length rows = GROUP → Forall (wf_row h (v_groups_of d)) rows →
            0 < length (flat rows))%nat as Hpos.
  { intros rows Lr Wr. rewrite (flat_length h (v_groups_of d)) by done. rewrite Lr, Hg. unfold GROUP. nia. }
  rewrite (vec_encode_page_eq h d (widen gk)) with (vpd := vpd) (g := v_groups_of d).
  - destruct (write_page_spec h d d (runtime_geometry_aligned h d Hgeo) RuntimeError gk gv) as [<- _];
      [by split|by split|].
    unfold write_page. rewrite v_primary_quantize by (by apply widen_wf). by rewrite result_bind_ok.
  - split; [by rewrite widen_length|by apply widen_wf].
  - exists (e * 4)%nat. lia.
  - done.
  - done.
  - apply Hpos; [unfold v_mins; by rewrite length_map, widen_length|by apply v_mins_wf, widen_wf].
  - apply Hpos; [unfold v_scales; by rewrite length_map, widen_length|by apply v_scales_wf, widen_wf].
Qed.

Lemma pages_of_take_length K V full :
  length K = length V → (full * GROUP ≤ length K)%nat →
  length (pages_of h d d (take (full * GROUP) K) (take (full * GROUP) V)) = full.
Proof. intros Hl Hle. rewrite pages_of_slices by done. by rewrite length_map, length_seq. Qed.

Lemma stage4b4_writer_spec : writer_spec stage4b4_write_full_pages.
Proof.
  intros r K V P full El Eh Ed Hl HK HV Hle Hbt Hr Hw. unfold stage4b4_write_full_pages.
  destruct (Nat.eqb_spec full 0) as [->|Hf].
  { cbn [Nat.mul take]. unfold pages_of, rows_of. cbn. by rewrite app_nil_r, Nat.add_0_r. }
  rewrite stage4b4_pages_ok by done. rewrite result_bind_ok.
  destruct (Nat.ltb_spec (length bt) (length P + full)) as [?|_]; [lia|]. cbn [raise_if].
  rewrite result_bind_ok, El. pose proof (pages_of_take_length K V full Hl Hle) as Hpl.
  set (Q := pages_of _ _ _ _ _) in *. rewrite <-Hpl.
  rewrite index_copy_more by (rewrite ?Hpl; done || lia). by rewrite result_bind_ok.
Qed.

Lemma stage4d2_writer_spec : writer_spec _rabit2_stage4d2_write_full_pages.
Proof.
  intros r K V P full El Eh Ed Hl HK HV Hle Hbt Hr Hw. unfold _rabit2_stage4d2_write_full_pages.
  destruct (Nat.eqb_spec full 0) as [->|Hf].
  { cbn [Nat.mul take]. unfold pages_of, rows_of. cbn. by rewrite app_nil_r, Nat.add_0_r. }
  rewrite vectorized_pages_ok by done. rewrite result_bind_ok.
  destruct (Nat.ltb_spec (length bt) (length P + full)) as [?|_]; [lia|]. cbn [raise_if].
  rewrite result_bind_ok, El. pose proof (pages_of_take_length K V full Hl Hle) as Hpl.
  set (Q := pages_of _ _ _ _ _) in *. rewrite <-Hpl.
  rewrite index_copy_more by (rewrite ?Hpl; done || lia). by rewrite result_bind_ok.
Qed.
End WriterSpec.

(** ** The bulk append on a represented state *)

(** Every raise of the bulk append precedes every change of the state. *)
Lemma bulk_append_raises w bt key value (s : RtState) e :
  (bulk_append w bt key value s).1 = Err e → bulk_append w bt key value s = (Err e, s).
Proof.
  unfold bulk_append, st_lift, st_modify, st_put. rewrite st_bind_eq. cbn [st_get].
  repeat first
    [ progress (rewrite st_bind_eq; cbv beta iota zeta)
    | match goal with
      | |- context [match ?x with _ => _ end] => destruct x eqn:?; try discriminate
      end ];
  cbn; congruence.
Qed.

Section BulkSpec.
Variables (h d : nat) (bt : list nat) (c : PageCache).
Hypothesis Hgeo : runtime_geometry h d.

Lemma chunk_guards_ok r (key value : tensor3 f32) :
  rt_num_kv_heads r = h → rt_head_size_k r = d → rt_head_size_v r = d →
  shape_eqb key value = true → t_heads key = h → t_dim key = d →
  chunk_guards r key value = Ok tt.
Proof.
  intros Er1 Er2 Er3 Hs Hh Hd. pose proof Hs as (_ & _ & Ed)%shape_eqb_spec. unfold chunk_guards.
  rewrite Hs, Er1, Er2, Er3, <-Ed, Hh, Hd, !Nat.eqb_refl. done.
Qed.

(** The combined residual of the runtime and a chunk. *)
Lemma combined_recent ks vs (kx vx : list (list (list Z))) :
  length ks = length vs →
  cat_tensor (recent_k (sidecar_of h d d ks vs)) (mkTensor3 h d kx) = mkTensor3 h d (recent_rows ks ++ kx)
  ∧ (match recent_k (sidecar_of h d d ks vs), recent_v (sidecar_of h d d ks vs) with
     | None, _ => Ok (mkTensor3 h d vx)
     | Some _, Some rv => Ok (cat_tensor (Some rv) (mkTensor3 h d vx))
     | Some _, None => Err TypeError
     end) = Ok (mkTensor3 h d (recent_rows vs ++ vx)).
Proof.
  intros Hl. assert (length (recent_rows ks) = length (recent_rows vs)) as Hrl
    by (by rewrite !recent_rows_length, Hl).
  unfold sidecar_of, sidecar_with. cbn [recent_k recent_v]. split; [apply cat_when|].
  by destruct (recent_rows ks), (recent_rows vs).
Qed.

(** The open group followed by the aged tokens. *)
Lemma combined_open r ks vs (ak av : list (list (list Z))) :
  rt_sidecar r = sidecar_of h d d ks vs → length ks = length vs →
  let K := open_rows ks ++ ak in
  let V := open_rows vs ++ av in
  cat_tensor (open_k (rt_sidecar r)) (mkTensor3 h d ak) = mkTensor3 h d K
  ∧ cat_open r (open_v_packed (rt_sidecar r))
      (mkTensor3 h ((v_pad_dim_of d * 2 + 7) / 8) (v_packed_rows d (widen av)))
    = Ok (mkTensor3 h ((v_pad_dim_of d * 2 + 7) / 8) (v_packed_rows d (widen V)))
  ∧ cat_open r (open_v_min (rt_sidecar r)) (mkTensor3 h (v_groups_of d) (v_mins d (widen av)))
    = Ok (mkTensor3 h (v_groups_of d) (v_mins d (widen V)))
  ∧ cat_open r (open_v_scale (rt_sidecar r)) (mkTensor3 h (v_groups_of d) (v_scales d (widen av)))
    = Ok (mkTensor3 h (v_groups_of d) (v_scales d (widen V))).
Proof.
  intros Er Hl K V. assert (length (open_rows ks) = length (open_rows vs)) as Hol
    by (by rewrite !open_rows_length, Hl).
  unfold cat_open. rewrite Er. unfold sidecar_of, sidecar_with.
  cbn [open_k open_v_packed open_v_min open_v_scale].
  split; [apply cat_when|]. unfold K, V, v_packed_rows, v_codes, v_mins, v_scales, widen, map3.
  rewrite !map_app. by destruct (open_rows ks), (open_rows vs).
Qed.

(** [set_open] and [set_recent] build the closed form. *)
Lemma set_open_with n s K V sc :
  length K = length V → n = length (drop s K) →
  set_open n s (mkTensor3 h d K) (mkTensor3 h ((v_pad_dim_of d * 2 + 7) / 8) (v_packed_rows d (widen V)))
    (mkTensor3 h (v_groups_of d) (v_mins d (widen V)))
    (mkTensor3 h (v_groups_of d) (v_scales d (widen V))) sc
  = mkSidecar (open_k (sidecar_with h d d (drop s K) (drop s V) [] []))
      (open_v_packed (sidecar_with h d d (drop s K) (drop s V) [] []))
      (open_v_min (sidecar_with h d d (drop s K) (drop s V) [] []))
      (open_v_scale (sidecar_with h d d (drop s K) (drop s V) [] [])) (recent_k sc) (recent_v sc).
Proof.
  intros Hl Hn. unfold set_open, sidecar_with, t_drop, clear_open.
  cbn [open_k open_v_packed open_v_min open_v_scale t_heads t_dim t_rows].
  unfold v_packed_rows, v_codes, v_mins, v_scales, widen, map3. rewrite !skipn_map.
  destruct (drop s K) as [|x l] eqn:E; subst n; cbn [length when_nonempty]; [|done].
  cbn [Nat.eqb]. done.
Qed.

Lemma bulk_append_of w ks vs (key value : tensor3 f32) :
  writer_spec h d bt c w →
  length ks = length vs → Forall (wf_row h d) ks → Forall (wf_row h d) vs →
  wf_tensor3 key → wf_tensor3 value → shape_eqb key value = true → t_heads key = h → t_dim key = d →
  table_ok h d (length ks + t_tokens key) bt c →
  bulk_append w bt key value (rt_of h d bt c ks vs)
  = (Ok tt, rt_of h d bt c (ks ++ stored (t_rows key)) (vs ++ stored (t_rows value))).
Proof.
  intros Hw Hl Wk Wv Hk Hv Hs Hh Hd (Hnd & Hbt & Hr & Hwd).
  pose proof Hs as (Et & Eh & Ed)%shape_eqb_spec.
  set (r := rs_runtime (rt_of h d bt c ks vs)).
  assert (rt_sidecar r = sidecar_of h d d ks vs) as Er by done.
  unfold bulk_append. rewrite st_bind_eq. cbn [st_get]. fold r.
  rewrite st_bind_eq. unfold st_lift at 1.
  rewrite chunk_guards_ok by done. destruct (Nat.eqb_spec (t_tokens key) 0) as [H0|H0].
  { unfold t_tokens in *. rewrite H0 in Et. apply nil_length_inv in H0. symmetry in Et.
    apply nil_length_inv in Et. rewrite H0, Et. unfold stored, map3. cbn. by rewrite !app_nil_r. }
  destruct key as [h1 d1 kx], value as [h2 d2 vx]. unfold t_tokens, wf_tensor3 in *.
  cbn [t_heads t_dim t_rows] in *. subst h1 d1 h2 d2.
  change (to_bf16 (mkTensor3 h d kx)) with (mkTensor3 h d (stored kx)).
  change (to_bf16 (mkTensor3 h d vx)) with (mkTensor3 h d (stored vx)).
  apply (stored_wf h d) in Hk, Hv.
  assert (length (stored kx) = length kx) as Ekx by apply stored_length.
  assert (length (stored vx) = length vx) as Evx by apply stored_length.
  set (kx' := stored kx) in *. set (vx' := stored vx) in *.
  destruct (combined_recent ks vs kx' vx' Hl) as [Ck Cv]. rewrite <-Er in Ck, Cv.
  rewrite st_bind_eq. unfold st_lift at 1. rewrite Ck, Cv.
  pose proof (chunk_rows ks kx') as (Fk1 & Fk2 & Fk3 & Fk4 & Fk5 & Fk6 & Fk7).
  pose proof (chunk_rows vs vx') as (Fv1 & Fv2 & Fv3 & Fv4 & Fv5 & Fv6 & Fv7).
  cbn [t_rows] in *.
  assert (length (recent_rows vs ++ vx') = length (recent_rows ks ++ kx')) as Ecl.
  { rewrite !length_app, !recent_rows_length, Hl. lia. }
  rewrite Ecl in Fv1, Fv2, Fv3, Fv4, Fv5, Fv6, Fv7.
  set (aged := (length (recent_rows ks ++ kx') - RESIDUAL)%nat) in *.
  destruct (Nat.eqb_spec aged 0) as [Ha|Ha].
  { destruct (Fk7 Ha) as (Ok1 & Ok2 & Ok3). destruct (Fv7 Ha) as (Ov1 & Ov2 & _).
    unfold st_modify. do 2 f_equal. unfold rt_of at 2, state_of. cbn [runtime_owner owner_update].
    unfold rt_with_pages. rewrite Ok2, Ov2. cbn [rs_runtime rs_cache]. f_equal.
    unfold runtime_set_sidecar. f_equal. unfold sidecar_of.
    rewrite Ok1, Ov1, Fk6, Fv6, Ha, !drop_0. rewrite Er.
    unfold set_recent, sidecar_of, sidecar_with. cbn [open_k open_v_packed open_v_min open_v_scale].
    by destruct (recent_rows ks ++ kx') eqn:E; [apply (f_equal length) in E; rewrite length_app in E;
      cbn in E; lia|]. }
  rewrite st_bind_eq. unfold st_lift at 1.
  unfold t_take, t_map, _rabit2_stage4b4_exact_v2_batch. cbn [t_heads t_dim t_rows].
  fold (widen (take aged (recent_rows vs ++ vx'))).
  assert (Forall (wf_row h d) (take aged (recent_rows vs ++ vx'))) as Wav.
  { apply Forall_take, Forall_app. split; [by apply Forall_drop|done]. }
  rewrite v_primary_quantize by (by apply widen_wf).
  destruct (combined_open r ks vs (take aged (recent_rows ks ++ kx')) (take aged (recent_rows vs ++ vx')) Er Hl)
    as (-> & E1 & E2 & E3). cbn [t_rows].
  set (K := open_rows ks ++ take aged (recent_rows ks ++ kx')) in *.
  set (V := open_rows vs ++ take aged (recent_rows vs ++ vx')) in *.
  cbv beta iota zeta. rewrite E1, E2, E3.
  do 3 (rewrite st_bind_eq; unfold st_lift at 1).
  assert (length K = length V) as HKV.
  { unfold K, V. rewrite !length_app, !length_take, !open_rows_length, Ecl, Hl. done. }
  assert (Forall (wf_row h d) K ∧ Forall (wf_row h d) V) as [WK WV].
  { unfold K, V. rewrite !Forall_app. split; split; try done.
    - by apply tail_rows_wf.
    - apply Forall_take, Forall_app. split; [by apply Forall_drop|done].
    - by apply tail_rows_wf. }
  set (full := (length K / GROUP)%nat) in *. rewrite <-HKV in Fv1, Fv2, Fv3, Fv4, Fv5.
  fold full in Fv1, Fv3, Fv4, Fv5.
  assert (length (closed_rows ks) = length (closed_rows vs)) as Hcl by (by rewrite !closed_rows_length, Hl).
  pose proof (pages_of_length h d d _ _ Hcl) as Hpl.
  rewrite closed_rows_length, Nat.div_mul in Hpl by (unfold GROUP; lia).
  assert (rt_closed_pages r = length (pages_of h d d (closed_rows ks) (closed_rows vs))) as Ecp.
  { rewrite Hpl. cbn. rewrite closed_rows_length. apply Nat.div_mul. unfold GROUP. lia. }
  assert (closed_count (length (ks ++ kx')) = closed_count (length ks + length kx))%nat as Em
    by (rewrite length_app; congruence).
  rewrite st_bind_eq. unfold st_lift at 1. rewrite Ecp.
  change (rs_cache (rt_of h d bt c ks vs))
    with (write_pages bt (pages_of h d d (closed_rows ks) (closed_rows vs)) c).
  rewrite Hw; try done.
  2-3: rewrite Hpl, Fk1, Em; done.
  unfold st_put. cbn [fst snd]. do 2 f_equal.
  unfold rt_of, state_of. cbn [runtime_owner owner_update]. unfold rt_with_pages, runtime_set_sidecar.
  cbn [rs_runtime rs_cache rt_num_kv_heads rt_head_size_k rt_head_size_v rt_layout rt_closed_pages
       set_closed rt_sidecar].
  assert (length kx' = length vx') as Hx by lia.
  assert (pages_of h d d (closed_rows (ks ++ kx')) (closed_rows (vs ++ vx'))
          = pages_of h d d (closed_rows ks) (closed_rows vs)
            ++ pages_of h d d (take (full * GROUP) K) (take (full * GROUP) V)) as ->.
  { pose proof (chunk_pages h d ks vs kx' vx' Hl Hx) as HP. cbv zeta in HP. rewrite Ecl in HP. exact HP. }
  f_equal. f_equal.
  - rewrite Hpl, closed_rows_length, Nat.div_mul by (unfold GROUP; lia). exact Fk1.
  - rewrite set_open_with by (done || rewrite Fk2, Fk5; done).
    unfold sidecar_of. rewrite Fk5, Fv5, Fk6, Fv6.
    unfold set_recent, sidecar_with, t_drop. cbn [open_k open_v_packed open_v_min open_v_scale
      recent_k recent_v t_heads t_dim t_rows].
    assert (length (drop aged (recent_rows ks ++ kx')) = RESIDUAL) as Hres.
    { rewrite length_drop. unfold aged in *. lia. }
    by destruct (drop aged (recent_rows ks ++ kx')).
Qed.
End BulkSpec.

(** ** Properties *)

(** C16: bulk append is append.  Both definitions of [rabit2_bulk_append_exact],
    the per-page one and the vectorized one in force, leave the runtime and the
    cache exactly as the token-by-token [append] does, for every accepted
    geometry, every reachable state, every chunk length and every block table
    long enough. *)
Theorem bulk_append_is_append (h d : nat) (bt : list nat) (c : PageCache)
    (chunks : list (tensor3 f32 * tensor3 f32)) (key value : tensor3 f32) :
  runtime_geometry h d → Forall (chunk_ok h d) chunks → chunk_ok h d (key, value) →
  table_ok h d (length (run_keys chunks) + t_tokens key) bt c →
  ∃ s0 s s',
    runtime_start h d c = Ok s0 ∧ runtime_run bt chunks s0 = (Ok tt, s)
    ∧ runtime_append bt key value s = (Ok tt, s')
    ∧ rabit2_stage4b4_bulk_append_exact bt key value s = (Ok tt, s')
    ∧ rabit2_bulk_append_exact bt key value s = (Ok tt, s').
Proof.
  intros Hgeo Hch (Hk & Hv & Hs & Hh & Hd) Ht. cbn [fst snd] in *.
  destruct (runtime_run_start h d bt c chunks Hgeo Hch) as (Hs0 & Hrun & Hl & Wk & Wv & Ht').
  { by eapply table_ok_mono; [|exact Ht]; lia. }
  assert (table_ok h d (length (stored (run_keys chunks)) + t_tokens key) bt c) as Ht''
    by (by rewrite stored_length).
  do 3 eexists. split; [exact Hs0|]. split; [exact Hrun|]. split; [|split].
  - apply runtime_append_of; try done. intros i Hi. by eapply table_ok_can_close.
  - apply bulk_append_of; try done. by apply stage4b4_writer_spec.
  - apply bulk_append_of; try done. by apply stage4d2_writer_spec.
Qed.

(** A bulk append that raises changes nothing.  On every state whatever,
    the runtime, its sidecar and every block of the cache are as before the
    call; in particular a rejected chunk can be retried. *)
Theorem bulk_append_atomic (bt : list nat) (key value : tensor3 f32) (s : RtState) (e : exn) :
  ((rabit2_bulk_append_exact bt key value s).1 = Err e →
   rabit2_bulk_append_exact bt key value s = (Err e, s))
  ∧ ((rabit2_stage4b4_bulk_append_exact bt key value s).1 = Err e →
     rabit2_stage4b4_bulk_append_exact bt key value s = (Err e, s)).
Proof. split; apply bulk_append_raises. Qed.
End Bulk.

(** C16 on 70 tokens followed by a chunk of 30, pages at blocks 3, 0 and 4. *)
Lemma bulk_append_is_append_witness :
  ∃ s0 s s',
    runtime_start 1 64 (zero_cache 5) = Ok s0 ∧ runtime_run [3; 0; 4]%nat three_chunks s0 = (Ok tt, s)
    ∧ runtime_append [3; 0; 4]%nat (const_tensor 30 1 64 5) (const_tensor 30 1 64 6) s = (Ok tt, s')
    ∧ rabit2_stage4b4_bulk_append_exact [3; 0; 4]%nat (const_tensor 30 1 64 5) (const_tensor 30 1 64 6) s
      = (Ok tt, s')
    ∧ rabit2_bulk_append_exact [3; 0; 4]%nat (const_tensor 30 1 64 5) (const_tensor 30 1 64 6) s
      = (Ok tt, s').
Proof.
  apply (bulk_append_is_append 1 64 [3; 0; 4]%nat (zero_cache 5) three_chunks
           (const_tensor 30 1 64 5) (const_tensor 30 1 64 6)).
  - apply one_head_runtime.
  - apply three_chunks_ok.
  - apply (const_chunk_ok 30 1 64 5 6).
  - split; [apply (bool_decide_unpack _); by vm_compute|]. split; [by vm_compute; lia|].
    split; [repeat constructor|done].
Defined.
