(* ===== verification/ChunkPlan.v ===== *)
(** * Causal chunk plan

    [Rabit2CausalChunkPlan] of [rabit_kv2.py]: a plan quantizes a whole prefill
    chunk and writes its pages at once, and [apply_step] then exposes the exact
    runtime state after each token.  The plan holds a reference to the runtime
    object and writes its fields; the model threads the runtime and the cache
    ([RtState]) together with the plan.  The constructor in force is the
    Stage-4B4 one (the module restores it after defining the vectorized one); both
    are modelled, over the page writer they use. *)

From Stdlib Require Import ZArith Lia.
From stdpp Require Import base tactics numbers list option.
From S2P Require Import Prelude Layout Torch SpecFloatTorch BitPack Meta Quant Decoded Page Sidecar Tail.
From S2P Require Import OnlineRef Runtime Bulk.

Section ChunkPlan.
Context `{TF : TorchFloat}.

Record Rabit2CausalChunkPlan := mkPlan {
  cp_num_tokens : nat;
  cp_init_closed : nat;
  cp_init_open_len : nat;
  cp_init_recent_len : nat;
  cp_combined_recent_k : tensor3 Z;
  cp_combined_recent_v : tensor3 Z;
  cp_all_k : tensor3 Z;
  cp_all_vp : tensor3 Z;
  cp_all_vmn : tensor3 f32;
  cp_all_vsc : tensor3 f32;
  cp_last_step : Z
}.

(** The V2 primaries of the aged tokens; three empty tensors when none ages. *)
Definition plan_v2 (r : Rabit2SingleSequenceRuntime) (aged_total : nat) (combined_recent_v : tensor3 Z) :
    result (tensor3 Z * tensor3 f32 * tensor3 f32) :=
  if (aged_total =? 0)%nat then
    let groups := ((rt_head_size_v r + GROUP - 1) / GROUP)%nat in
    vpd ← rabit2_packed_dim (Z.of_nat (rt_head_size_v r)) 2;
    Ok (mkTensor3 (rt_num_kv_heads r) (Z.to_nat vpd) [],
        mkTensor3 (rt_num_kv_heads r) groups [], mkTensor3 (rt_num_kv_heads r) groups [])
  else
    v ← _rabit2_stage4b4_exact_v2_batch (t_map f32_of_bf16 (t_take aged_total combined_recent_v));
    let '(vp, vmn, vsc, _) := v in Ok (vp, vmn, vsc).

Section Init.
Variable write_full_pages :
  Rabit2SingleSequenceRuntime → tensor3 Z → tensor3 Z → tensor3 f32 → tensor3 f32 → nat →
  list nat → nat → PageCache → result (nat * PageCache).

(** [__init__]: the future pages go to the cache, the runtime is not changed. *)
Definition plan_init (block_table_row : list nat) (key value : tensor3 f32) :
    ST RtState Rabit2CausalChunkPlan :=
  s ← st_get;
  let r := rs_runtime s in
  let sc := rt_sidecar r in
  st_lift (chunk_guards r key value);;
  st_raise_if (t_tokens key =? 0)%nat ValueError;;
  let num_tokens := t_tokens key in
  let key := to_bf16 key in
  let value := to_bf16 value in
  let empty_k := mkTensor3 (rt_num_kv_heads r) (rt_head_size_k r) ([] : list (list (list Z))) in
  let empty_v := mkTensor3 (rt_num_kv_heads r) (rt_head_size_v r) ([] : list (list (list Z))) in
  let combined_recent_k := cat_tensor (Some (default empty_k (recent_k sc))) key in
  let combined_recent_v := cat_tensor (Some (default empty_v (recent_v sc))) value in
  let aged_total := (t_tokens combined_recent_k - RESIDUAL)%nat in
  v ← st_lift (plan_v2 r aged_total combined_recent_v);
  let '(vp, vmn, vsc) := v in
  let aged_k := if (aged_total =? 0)%nat then empty_k else t_take aged_total combined_recent_k in
  let all_k := cat_tensor (open_k sc) aged_k in
  all_vp ← st_lift (cat_open r (open_v_packed sc) vp);
  all_vmn ← st_lift (cat_open r (open_v_min sc) vmn);
  all_vsc ← st_lift (cat_open r (open_v_scale sc) vsc);
  let full_pages := (t_tokens all_k / GROUP)%nat in
  written ← st_lift (write_full_pages r all_k all_vp all_vmn all_vsc full_pages block_table_row
                       (rt_closed_pages r) (rs_cache s));
  st_put (mkRt r written.2);;
  mret {| cp_num_tokens := num_tokens;
          cp_init_closed := rt_closed_pages r;
          cp_init_open_len := tensor_len (open_k sc);
          cp_init_recent_len := tensor_len (recent_k sc);
          cp_combined_recent_k := combined_recent_k;
          cp_combined_recent_v := combined_recent_v;
          cp_all_k := all_k;
          cp_all_vp := all_vp;
          cp_all_vmn := all_vmn;
          cp_all_vsc := all_vsc;
          cp_last_step := -1 |}.
End Init.

(** The constructor in force, and the one Stage 4D2 installed in between. *)
Definition chunkplan_init := plan_init stage4b4_write_full_pages.
Definition _rabit2_stage4d2_chunkplan_init := plan_init _rabit2_stage4d2_write_full_pages.

(** [t[a:b]], and [None] when the range is empty. *)
Definition window {A} (a b : nat) (t : tensor3 A) : option (tensor3 A) :=
  if (a <? b)%nat then Some (t_slice a b t) else None.

Definition plan_set_step (step : Z) (p : Rabit2CausalChunkPlan) : Rabit2CausalChunkPlan :=
  mkPlan (cp_num_tokens p) (cp_init_closed p) (cp_init_open_len p) (cp_init_recent_len p)
    (cp_combined_recent_k p) (cp_combined_recent_v p) (cp_all_k p) (cp_all_vp p) (cp_all_vmn p)
    (cp_all_vsc p) step.

(** [apply_step] *)
Definition apply_step (step : Z) : ST (Rabit2CausalChunkPlan * RtState) unit :=
  ps ← st_get;
  let p := ps.1 in
  let r := rs_runtime ps.2 in
  st_raise_if (negb (step =? cp_last_step p + 1)%Z) RuntimeError;;
  st_raise_if ((step <? 0)%Z || (Z.of_nat (cp_num_tokens p) <=? step)%Z) IndexError;;
  let processed := (Z.to_nat step + 1)%nat in
  let aged_now := (cp_init_recent_len p + processed - RESIDUAL)%nat in
  let open_total_now := (cp_init_open_len p + aged_now)%nat in
  let closed_new := (open_total_now / GROUP)%nat in
  let open_start := (closed_new * GROUP)%nat in
  let open_end := open_total_now in
  let recent_start := aged_now in
  let recent_end := (cp_init_recent_len p + processed)%nat in
  let sc := mkSidecar (window open_start open_end (cp_all_k p))
                      (window open_start open_end (cp_all_vp p))
                      (window open_start open_end (cp_all_vmn p))
                      (window open_start open_end (cp_all_vsc p))
                      (window recent_start recent_end (cp_combined_recent_k p))
                      (window recent_start recent_end (cp_combined_recent_v p)) in
  st_put (plan_set_step step p,
          mkRt (runtime_set_sidecar sc (set_closed (cp_init_closed p + closed_new) r)) (rs_cache ps.2)).

(** ** The plan as a function of the tokens *)

Context `{!TorchFloatLaws TF}.

Section PlanSpec.
Variables (h d : nat) (bt : list nat) (c : PageCache).
Hypothesis Hgeo : runtime_geometry h d.

(** All old tokens of the chunk, behind the open group. *)
Definition plan_all {A} (ks kx : list A) : list A :=
  open_rows ks ++ take (length (recent_rows ks ++ kx) - RESIDUAL) (recent_rows ks ++ kx).

Definition plan_of (ks vs kx vx : list (list (list Z))) (step : Z) : Rabit2CausalChunkPlan :=
  let V := widen (plan_all vs vx) in
  {| cp_num_tokens := length kx;
     cp_init_closed := closed_count (length ks);
     cp_init_open_len := length (open_rows ks);
     cp_init_recent_len := length (recent_rows ks);
     cp_combined_recent_k := mkTensor3 h d (recent_rows ks ++ kx);
     cp_combined_recent_v := mkTensor3 h d (recent_rows vs ++ vx);
     cp_all_k := mkTensor3 h d (plan_all ks kx);
     cp_all_vp := mkTensor3 h ((v_pad_dim_of d * 2 + 7) / 8) (v_packed_rows d V);
     cp_all_vmn := mkTensor3 h (v_groups_of d) (v_mins d V);
     cp_all_vsc := mkTensor3 h (v_groups_of d) (v_scales d V);
     cp_last_step := step |}.

Lemma rt_closed_of ks vs : rt_closed_pages (rs_runtime (rt_of h d bt c ks vs)) = closed_count (length ks).
Proof. cbn. rewrite closed_rows_length. apply Nat.div_mul. unfold GROUP. lia. Qed.

Lemma tensor_len_when {A} n m (rows : list (list (list A))) :
  tensor_len (when_nonempty rows (mkTensor3 n m rows)) = length rows.
Proof. by destruct rows. Qed.

(** The widths of the empty tensors of a plan that ages nothing. *)
Lemma empty_widths :
  rabit2_packed_dim (Z.of_nat d) 2 = Ok (Z.of_nat ((v_pad_dim_of d * 2 + 7) / 8))
  ∧ ((d + GROUP - 1) / GROUP)%nat = v_groups_of d.
Proof.
  destruct Hgeo as [_ [[e He] _]]. pose proof (v_groups_of_multiple d e He) as Hg. split.
  - change 2%Z with (Z.of_nat 2). rewrite rabit2_packed_dim_nat by lia.
    unfold packed_dim_nat, v_pad_dim_of. fold (v_groups_of d). rewrite Hg, He. do 3 f_equal.
  - unfold v_groups_of, GROUP. f_equal. lia.
Qed.

Lemma default_recent ks :
  default (mkTensor3 h d []) (when_nonempty (recent_rows ks) (mkTensor3 h d (recent_rows ks)))
  = mkTensor3 h d (recent_rows ks : list (list (list Z))).
Proof. by destruct (recent_rows ks). Qed.

Lemma plan_v2_of r rows aged :
  rt_num_kv_heads r = h → rt_head_size_v r = d → Forall (wf_row h d) rows →
  plan_v2 r aged (mkTensor3 h d rows)
  = Ok (mkTensor3 h ((v_pad_dim_of d * 2 + 7) / 8) (v_packed_rows d (widen (take aged rows))),
        mkTensor3 h (v_groups_of d) (v_mins d (widen (take aged rows))),
        mkTensor3 h (v_groups_of d) (v_scales d (widen (take aged rows)))).
Proof.
  intros Eh Ed Hw. destruct empty_widths as [Ew Eg]. unfold plan_v2. rewrite Eh, Ed.
  destruct (Nat.eqb_spec aged 0) as [->|Ha].
  - by rewrite Ew, result_bind_ok, Eg, Nat2Z.id.
  - unfold _rabit2_stage4b4_exact_v2_batch, t_take, t_map. cbn [t_heads t_dim t_rows].
    fold (widen (take aged rows)). rewrite v_primary_quantize by (by apply widen_wf, Forall_take).
    by rewrite result_bind_ok.
Qed.

Lemma plan_init_of w ks vs (key value : tensor3 f32) :
  writer_spec h d bt c w →
  length ks = length vs → Forall (wf_row h d) ks → Forall (wf_row h d) vs →
  wf_tensor3 key → wf_tensor3 value → shape_eqb key value = true → t_heads key = h → t_dim key = d →
  (0 < t_tokens key)%nat → table_ok h d (length ks + t_tokens key) bt c →
  plan_init w bt key value (rt_of h d bt c ks vs)
  = (Ok (plan_of ks vs (stored (t_rows key)) (stored (t_rows value)) (-1)),
     mkRt (rs_runtime (rt_of h d bt c ks vs))
          (rs_cache (rt_of h d bt c (ks ++ stored (t_rows key)) (vs ++ stored (t_rows value))))).
Proof.
  intros Hw Hl Wk Wv Hk Hv Hs Hh Hd Hpos (Hnd & Hbt & Hr & Hwd).
  pose proof Hs as (Et & Eh & Ed)%shape_eqb_spec.
  set (r := rs_runtime (rt_of h d bt c ks vs)).
  assert (rt_sidecar r = sidecar_of h d d ks vs) as Er by done.
  unfold plan_init. rewrite st_bind_eq. cbn [st_get]. fold r.
  rewrite st_bind_eq. unfold st_lift at 1. rewrite (chunk_guards_ok h d) by done.
  rewrite st_bind_eq. unfold st_raise_if, st_lift at 1.
  destruct (Nat.eqb_spec (t_tokens key) 0) as [?|_]; [lia|]. cbn [raise_if].
  destruct key as [h1 d1 kx], value as [h2 d2 vx]. unfold t_tokens, wf_tensor3 in *.
  cbn [t_heads t_dim t_rows] in *. subst h1 d1 h2 d2.
  change (to_bf16 (mkTensor3 h d kx)) with (mkTensor3 h d (stored kx)).
  change (to_bf16 (mkTensor3 h d vx)) with (mkTensor3 h d (stored vx)).
  apply (stored_wf h d) in Hk, Hv. rewrite <-(stored_length kx) in *. rewrite <-(stored_length vx) in *.
  set (kx' := stored kx) in *. set (vx' := stored vx) in *.
  change (rt_num_kv_heads r) with h. change (rt_head_size_k r) with d. change (rt_head_size_v r) with d.
  rewrite Er. change (recent_k (sidecar_of h d d ks vs))
    with (when_nonempty (recent_rows ks) (mkTensor3 h d (recent_rows ks))).
  assert (length (recent_rows ks) = length (recent_rows vs)) as Hrl by (by rewrite !recent_rows_length, Hl).
  assert (recent_v (sidecar_of h d d ks vs)
          = when_nonempty (recent_rows vs) (mkTensor3 h d (recent_rows vs))) as ->.
  { unfold sidecar_of, sidecar_with. cbn [recent_v]. by destruct (recent_rows ks), (recent_rows vs). }
  rewrite !default_recent. cbn [cat_tensor t_rows t_heads t_dim].
  set (aged := (length (recent_rows ks ++ kx') - RESIDUAL)%nat).
  assert (length (recent_rows vs ++ vx') = length (recent_rows ks ++ kx')) as Ecl
    by (rewrite !length_app; lia).
  set (av := take aged (recent_rows vs ++ vx')). set (ak := take aged (recent_rows ks ++ kx')).
  rewrite st_bind_eq. unfold st_lift at 1.
  rewrite (plan_v2_of r (recent_rows vs ++ vx') aged) by (done || by apply Forall_app; split;
    [by apply tail_rows_wf|]). fold av.
  cbv beta iota zeta.
  assert ((if (aged =? 0)%nat then mkTensor3 h d [] else t_take aged (mkTensor3 h d (recent_rows ks ++ kx')))
          = mkTensor3 h d ak) as ->.
  { destruct (Nat.eqb_spec aged 0) as [Ha|Ha]; [unfold ak; by rewrite Ha|done]. }
  destruct (combined_open h d r ks vs ak av Er Hl) as (E0 & E1 & E2 & E3).
  rewrite Er in E0, E1, E2, E3. rewrite E0. clear E0.
  rewrite E1, E2, E3.
  do 3 (rewrite st_bind_eq; unfold st_lift at 1). cbn [t_rows].
  change (open_rows ks ++ ak) with (plan_all ks kx').
  assert (open_rows vs ++ av = plan_all vs vx') as EV by (unfold plan_all; by rewrite Ecl).
  rewrite EV. set (K := plan_all ks kx') in *. set (V := plan_all vs vx') in *.
  assert (length K = length V) as HKV.
  { unfold K, V, plan_all.
    rewrite !length_app, !length_take, !length_app, !open_rows_length, !recent_rows_length, <-Hl. lia. }
  assert (Forall (wf_row h d) K ∧ Forall (wf_row h d) V) as [WK WV].
  { unfold K, V, plan_all. rewrite !Forall_app. split; split; try (by apply tail_rows_wf);
      apply Forall_take, Forall_app; (split; [by apply tail_rows_wf|done]). }
  pose proof (chunk_rows ks kx') as (Fk1 & _ & Fk3 & _).
  assert (length kx' = length vx') as Hx by lia.
  pose proof (chunk_pages h d ks vs kx' vx' Hl Hx) as HP. cbv zeta in HP.
  change (open_rows ks ++ take _ (recent_rows ks ++ kx')) with K in Fk1, Fk3, HP.
  change (open_rows vs ++ take _ (recent_rows vs ++ vx')) with V in HP.
  set (full := (length K / GROUP)%nat) in *.
  assert (length (closed_rows ks) = length (closed_rows vs)) as Hcl by (by rewrite !closed_rows_length, Hl).
  pose proof (pages_of_length h d d _ _ Hcl) as Hpl.
  rewrite closed_rows_length, Nat.div_mul in Hpl by (unfold GROUP; lia).
  rewrite st_bind_eq. unfold st_lift at 1. 
  assert (rt_closed_pages r = closed_count (length ks)) as Erc by apply rt_closed_of.
  rewrite Erc, <-Hpl.
  change (rs_cache (rt_of h d bt c ks vs))
    with (write_pages bt (pages_of h d d (closed_rows ks) (closed_rows vs)) c).
  rewrite Hw; try done.
  2-3: rewrite Hpl, Fk1, length_app; done.
  rewrite st_bind_eq. unfold st_put. cbn [fst snd mret ST_ret].
  unfold mret, ST_ret, plan_of. fold K V.
  change (rs_cache (rt_of h d bt c (ks ++ kx') (vs ++ vx')))
    with (write_pages bt (pages_of h d d (closed_rows (ks ++ kx')) (closed_rows (vs ++ vx'))) c).
  rewrite HP, Hpl. unfold sidecar_of, sidecar_with. cbn [open_k recent_k].
  by rewrite !tensor_len_when.
Qed.

(** ** One step *)

(** The part of a plan's tensors a step exposes. *)
Lemma plan_windows {A} (ks kx : list A) i :
  (i < length kx)%nat →
  let x := take (i + 1) kx in
  let aged := (length (recent_rows ks) + (i + 1) - RESIDUAL)%nat in
  let stop := (length (open_rows ks) + aged)%nat in
  let full := (stop / GROUP)%nat in
  (closed_count (length ks) + full)%nat = closed_count (length (ks ++ x))
  ∧ slice (full * GROUP) stop (plan_all ks kx) = open_rows (ks ++ x)
  ∧ slice aged (length (recent_rows ks) + (i + 1)) (recent_rows ks ++ kx) = recent_rows (ks ++ x)
  ∧ ((full * GROUP <? stop)%nat = negb (length (open_rows (ks ++ x)) =? 0)%nat)
  ∧ (aged < length (recent_rows ks) + (i + 1))%nat.
Proof.
  intros Hi x aged stop full. destruct (chunk_rows ks x) as (F1 & _ & F3 & _ & F5 & F6 & _).
  assert (length x = i + 1)%nat as Hx by (unfold x; rewrite length_take; lia).
  assert (length (recent_rows ks ++ x) - RESIDUAL = aged)%nat as Ea by (rewrite length_app, Hx; done).
  rewrite Ea in F1, F3, F5, F6.
  set (all := open_rows ks ++ take aged (recent_rows ks ++ x)) in *.
  assert (length all = stop) as Hall.
  { unfold all. rewrite length_app, length_take, length_app, Hx. unfold stop, aged, RESIDUAL. lia. }
  rewrite Hall in F1, F3, F5. fold full in F1, F3, F5.
  assert (take stop (plan_all ks kx) = all) as Htake.
  { unfold plan_all, stop, all. rewrite take_app_add. f_equal. rewrite take_take.
    assert (recent_rows ks ++ kx = (recent_rows ks ++ x) ++ drop (i + 1) kx) as ->
      by (unfold x; by rewrite <-app_assoc, take_drop).
    rewrite take_app_le; [f_equal; rewrite !length_app, Hx, length_drop; unfold aged, RESIDUAL; lia|].
    rewrite !length_app, Hx, length_drop. unfold aged, RESIDUAL. lia. }
  split; [done|]. split; [|split; [|split]].
  - unfold slice. rewrite <-skipn_firstn_comm, Htake. by symmetry.
  - unfold slice. rewrite <-skipn_firstn_comm, F6. f_equal.
    rewrite take_app_add. done.
  - rewrite F5, length_drop, Hall. destruct (Nat.ltb_spec (full * GROUP) stop);
      destruct (Nat.eqb_spec (stop - full * GROUP) 0); (done || lia).
  - unfold aged, RESIDUAL. lia.
Qed.

Lemma window_rows {A} n m a b (rows : list (list (list A))) l :
  (a <? b)%nat = negb (length l =? 0)%nat → slice a b rows = l →
  window a b (mkTensor3 n m rows) = when_nonempty l (mkTensor3 n m l).
Proof.
  intros Hb <-. unfold window, t_slice. cbn [t_heads t_dim t_rows]. rewrite Hb.
  by destruct (slice a b rows).
Qed.

Lemma apply_step_of ks vs kx vx i r cache :
  length ks = length vs → length kx = length vx → (i < length kx)%nat →
  rt_num_kv_heads r = h → rt_head_size_k r = d → rt_head_size_v r = d →
  rt_layout r = layout_of GROUP h d d →
  apply_step (Z.of_nat i) (plan_of ks vs kx vx (Z.of_nat i - 1), mkRt r cache)
  = (Ok tt, (plan_of ks vs kx vx (Z.of_nat i),
             mkRt (rs_runtime (rt_of h d bt c (ks ++ take (i + 1) kx) (vs ++ take (i + 1) vx))) cache)).
Proof.
  intros Hl Hx Hi Er1 Er2 Er3 Er4. unfold plan_of at 1. cbv zeta.
  unfold apply_step. rewrite st_bind_eq. cbn [st_get fst snd].
  rewrite st_bind_eq. unfold st_raise_if, st_lift. cbn [cp_last_step].
  replace (Z.of_nat i - 1 + 1)%Z with (Z.of_nat i) by lia. rewrite Z.eqb_refl. cbn [negb raise_if].
  rewrite st_bind_eq. cbn [cp_num_tokens].
  destruct (Z.ltb_spec (Z.of_nat i) 0) as [?|_]; [lia|].
  destruct (Z.leb_spec (Z.of_nat (length kx)) (Z.of_nat i)) as [?|_]; [lia|]. cbn [orb raise_if].
  rewrite Nat2Z.id. unfold st_put. cbn [cp_init_recent_len cp_init_open_len cp_init_closed cp_all_k cp_all_vp
    cp_all_vmn cp_all_vsc cp_combined_recent_k cp_combined_recent_v rs_runtime rs_cache fst snd].
  destruct (plan_windows ks kx i Hi) as (W1 & W2 & W3 & W4 & W5).
  destruct (plan_windows vs vx i ltac:(lia)) as (V1 & V2 & V3 & V4 & V5).
  assert (length (recent_rows ks) = length (recent_rows vs)) as Hrl by (by rewrite !recent_rows_length, Hl).
  assert (length (open_rows ks) = length (open_rows vs)) as Hol by (by rewrite !open_rows_length, Hl).
  rewrite <-Hrl in V1, V2, V3, V4. rewrite <-Hol in V1, V2, V4.
  set (x := take (i + 1) kx) in *. set (y := take (i + 1) vx) in *.
  set (aged := (length (recent_rows ks) + (i + 1) - RESIDUAL)%nat) in *.
  set (stop := (length (open_rows ks) + aged)%nat) in *. set (full := (stop / GROUP)%nat) in *.
  do 3 f_equal. unfold rt_of, state_of. cbn [runtime_owner owner_update rs_runtime].
  unfold rt_with_pages, runtime_set_sidecar, set_closed. cbn [rs_runtime rt_num_kv_heads rt_head_size_k
    rt_head_size_v rt_layout rt_closed_pages]. rewrite Er1, Er2, Er3, Er4. f_equal.
  { rewrite closed_rows_length, Nat.div_mul by (unfold GROUP; lia). exact W1. }
  assert (length (ks ++ x) = length (vs ++ y)) as Hxy by (rewrite !length_app; unfold x, y; rewrite !length_take; lia).
  unfold sidecar_of, sidecar_with. f_equal.
  - by apply window_rows.
  - unfold window. rewrite W4. unfold t_slice. cbn [t_heads t_dim t_rows].
    unfold v_packed_rows, v_codes, widen, map3. rewrite !slice_map, V2.
    by destruct (open_rows (ks ++ x)).
  - unfold window. rewrite W4. unfold t_slice. cbn [t_heads t_dim t_rows].
    unfold v_mins, widen, map3. rewrite !slice_map, V2. by destruct (open_rows (ks ++ x)).
  - unfold window. rewrite W4. unfold t_slice. cbn [t_heads t_dim t_rows].
    unfold v_scales, widen, map3. rewrite !slice_map, V2. by destruct (open_rows (ks ++ x)).
  - unfold window. destruct (Nat.ltb_spec aged (length (recent_rows ks) + (i + 1))); [|lia].
    unfold t_slice. cbn [t_heads t_dim t_rows]. rewrite W3.
    destruct (recent_rows (ks ++ x)) eqn:E; [|done]. exfalso.
    apply (f_equal length) in E. rewrite recent_rows_length, length_app in E.
    unfold x in E. rewrite length_take in E. pose proof (old_count_bound (length ks + (i + 1))).
    unfold old_count, residual_count, RESIDUAL in E. cbn in E. lia.
  - unfold window. destruct (Nat.ltb_spec aged (length (recent_rows ks) + (i + 1))); [|lia].
    unfold t_slice. cbn [t_heads t_dim t_rows]. rewrite V3.
    destruct (recent_rows (ks ++ x)) eqn:E; [|done]. exfalso.
    apply (f_equal length) in E. rewrite recent_rows_length, length_app in E.
    unfold x in E. rewrite length_take in E.
    unfold old_count, residual_count, RESIDUAL in E. cbn in E. lia.
Qed.

(** ** Steps in order *)

Definition apply_steps (n : nat) : ST (Rabit2CausalChunkPlan * RtState) unit :=
  st_for (seq 0 n) (λ i, apply_step (Z.of_nat i)).

Lemma apply_steps_of ks vs kx vx n cache :
  length ks = length vs → length kx = length vx → (n ≤ length kx)%nat →
  apply_steps n (plan_of ks vs kx vx (-1), mkRt (rs_runtime (rt_of h d bt c ks vs)) cache)
  = (Ok tt, (plan_of ks vs kx vx (Z.of_nat n - 1),
             mkRt (rs_runtime (rt_of h d bt c (ks ++ take n kx) (vs ++ take n vx))) cache)).
Proof.
  intros Hl Hx Hn.
  pose (st i := (plan_of ks vs kx vx (Z.of_nat i - 1),
                 mkRt (rs_runtime (rt_of h d bt c (ks ++ take i kx) (vs ++ take i vx))) cache)).
  assert (st 0%nat = (plan_of ks vs kx vx (-1), mkRt (rs_runtime (rt_of h d bt c ks vs)) cache)) as <-.
  { unfold st. by rewrite !take_0, !app_nil_r. }
  change (apply_steps n (st 0%nat) = (Ok tt, st n)). apply st_for_seq. intros i Hi. unfold st.
  rewrite apply_step_of; try done; [|lia]. do 3 f_equal. lia.
Qed.

(** The pages of a prefix are the first pages. *)
Lemma closed_rows_take {A} n (rows : list A) :
  (n ≤ length rows)%nat → closed_rows (take n rows) = take (closed_count n * GROUP) rows.
Proof.
  intros Hn. unfold closed_rows. rewrite length_take, Nat.min_l, take_take by done. f_equal.
  pose proof (closed_count_bound n). pose proof (old_count_bound n). lia.
Qed.

Lemma pages_of_prefix n ks vs :
  length ks = length vs → (n ≤ length ks)%nat →
  pages_of h d d (closed_rows (take n ks)) (closed_rows (take n vs))
  = take (closed_count n) (pages_of h d d (closed_rows ks) (closed_rows vs)).
Proof.
  intros Hl Hn. rewrite !closed_rows_take by lia. unfold closed_rows. rewrite <-Hl.
  pose proof (closed_count_mono _ _ Hn) as Hm.
  pose proof (closed_count_bound (length ks)). pose proof (old_count_bound (length ks)).
  rewrite !pages_of_slices by (done || unfold GROUP in *; nia).
  rewrite firstn_map. f_equal. rewrite take_seq. f_equal. lia.
Qed.

(** Reading with the pages of a later prefix already in the cache. *)
Lemma read_future_cache ks vs kx vx n to :
  length ks = length vs → length kx = length vx → (n ≤ length kx)%nat →
  Forall (wf_row h d) (ks ++ kx) → Forall (wf_row h d) (vs ++ vx) →
  table_ok h d (length (ks ++ kx)) bt c →
  runtime_read bt (mkRt (rs_runtime (rt_of h d bt c (ks ++ take n kx) (vs ++ take n vx)))
                        (rs_cache (rt_of h d bt c (ks ++ kx) (vs ++ vx)))) to
  = runtime_read bt (rt_of h d bt c (ks ++ take n kx) (vs ++ take n vx)) to.
Proof.
  intros Hl Hx Hn Wk Wv Ht.
  assert (length (ks ++ kx) = length (vs ++ vx)) as Hlm by (rewrite !length_app; lia).
  assert (length (ks ++ take n kx) = length (vs ++ take n vx)) as Hln
    by (rewrite !length_app, !length_take; lia).
  assert (length (ks ++ take n kx) ≤ length (ks ++ kx))%nat as Hle
    by (rewrite !length_app, length_take; lia).
  pose proof (table_ok_mono h d _ _ bt c Hle Ht) as Htn.
  destruct (rt_pages_stored h d bt c _ _ Hlm Ht) as (HFm & _).
  destruct (rt_pages_stored h d bt c _ _ Hln Htn) as (HFn & _ & _ & Hc).
  pose proof (closed_count_mono _ _ Hle) as Hcc.
  set (a := closed_count (length (ks ++ take n kx))) in *.
  set (b := closed_count (length (ks ++ kx))) in *.
  assert (pages_of h d d (closed_rows (ks ++ take n kx)) (closed_rows (vs ++ take n vx))
          = take a (pages_of h d d (closed_rows (ks ++ kx)) (closed_rows (vs ++ vx)))) as Hpg.
  { rewrite <-!take_app_add, <-Hl. unfold a. rewrite length_app, length_take, Nat.min_l by done.
    apply pages_of_prefix; [done|]. rewrite length_app. lia. }
  unfold runtime_read. cbn [rs_runtime rs_cache]. rewrite Hc.
  change (rt_layout (rs_runtime (rt_of h d bt c (ks ++ take n kx) (vs ++ take n vx))))
    with (layout_of GROUP h d d).
  assert (Forall2 (λ b p, pc_pages (rs_cache (rt_of h d bt c (ks ++ kx) (vs ++ vx))) !! b = Some p)
            (take a bt) (pages_of h d d (closed_rows (ks ++ take n kx)) (closed_rows (vs ++ take n vx))))
    as HFa.
  { rewrite Hpg. apply (Forall2_take _ _ _ a) in HFm. rewrite take_take, Nat.min_l in HFm by done. done. }
  pose proof (result_map_lookup (λ page, decode_rabit2_page_ref page (layout_of GROUP h d d) to)) as HM.
  by rewrite (HM _ _ _ HFa), (HM _ _ _ HFn).
Qed.
End PlanSpec.

(** ** Properties *)

(** C15: a chunk plan is causal and exact.  On every reachable state and every
    chunk, the constructor in force and the vectorized one build the same plan
    and write the same pages without touching the runtime; after the steps
    [0 .. n-1], for every [n] up to the chunk length, the runtime is the one
    token-by-token [append] of the first [n] tokens gives, and a reader sees
    exactly those tokens although the pages of later tokens are already in the
    cache. *)
Theorem chunk_plan_causal (h d : nat) (bt : list nat) (c : PageCache)
    (chunks : list (tensor3 f32 * tensor3 f32)) (key value : tensor3 f32) (n : nat) (to : f32 → f32) :
  runtime_geometry h d → Forall (chunk_ok h d) chunks → chunk_ok h d (key, value) →
  (0 < t_tokens key)%nat → (n ≤ t_tokens key)%nat →
  table_ok h d (length (run_keys chunks) + t_tokens key) bt c →
  ∃ s0 s p s1 p2 s2 sn,
    runtime_start h d c = Ok s0 ∧ runtime_run bt chunks s0 = (Ok tt, s)
    ∧ chunkplan_init bt key value s = (Ok p, s1)
    ∧ _rabit2_stage4d2_chunkplan_init bt key value s = (Ok p, s1)
    ∧ rs_runtime s1 = rs_runtime s
    ∧ apply_steps n (p, s1) = (Ok tt, (p2, s2))
    ∧ runtime_append bt (t_take n key) (t_take n value) s = (Ok tt, sn)
    ∧ rs_runtime s2 = rs_runtime sn ∧ runtime_read bt s2 to = runtime_read bt sn to
    ∧ (n = t_tokens key → s2 = sn).
Proof.
  intros Hgeo Hch (Hk & Hv & Hs & Hh & Hd) Hpos Hn Ht. cbn [fst snd] in *.
  destruct (runtime_run_start h d bt c chunks Hgeo Hch) as (Hs0 & Hrun & Hl & Wk & Wv & _).
  { by eapply table_ok_mono; [|exact Ht]; lia. }
  set (ks := stored (run_keys chunks)) in *. set (vs := stored (run_values chunks)) in *.
  assert (table_ok h d (length ks + t_tokens key) bt c) as Ht' by (unfold ks; by rewrite stored_length).
  pose proof Hs as (Et & Eh & Ed)%shape_eqb_spec.
  assert (wf_tensor3 (t_take n key) ∧ wf_tensor3 (t_take n value)) as [Hkn Hvn]
    by (split; by apply wf_tensor3_take).
  assert (t_tokens (t_take n key) = n ∧ t_tokens (t_take n value) = n) as [Etn Etn'].
  { unfold t_tokens, t_take in *. cbn [t_rows]. rewrite !length_take. lia. }
  assert (stored (t_rows (t_take n key)) = take n (stored (t_rows key))
          ∧ stored (t_rows (t_take n value)) = take n (stored (t_rows value))) as [Sk Sv].
  { unfold t_take, stored, map3. cbn [t_rows]. by rewrite !firstn_map. }
  set (kx := stored (t_rows key)) in *. set (vx := stored (t_rows value)) in *.
  assert (length kx = t_tokens key ∧ length vx = t_tokens key) as [Lkx Lvx].
  { unfold kx, vx. rewrite !stored_length. unfold t_tokens in *. lia. }
  do 7 eexists. split; [exact Hs0|]. split; [exact Hrun|].
  split; [apply plan_init_of; try done; by apply stage4b4_writer_spec|].
  split; [apply plan_init_of; try done; by apply stage4d2_writer_spec|].
  split; [done|]. fold kx vx. split; [apply apply_steps_of; lia|].
  split; [|split; [|split]].
  - apply runtime_append_of; try done.
    + apply shape_eqb_spec. rewrite Etn, Etn'. done.
    + intros i Hi. rewrite Etn in Hi. eapply table_ok_can_close; [exact Ht'|].
      eapply Nat.lt_le_trans; [exact Hi|]. apply closed_count_mono. lia.
  - rewrite Sk, Sv. done.
  - rewrite Sk, Sv. apply read_future_cache; try done; try lia.
    + apply Forall_app. split; [done|]. apply stored_wf. unfold wf_tensor3 in Hk. by rewrite Hh, Hd in Hk.
    + apply Forall_app. split; [done|]. apply stored_wf. unfold wf_tensor3 in Hv.
      by rewrite <-Eh, <-Ed, Hh, Hd in Hv.
    + by rewrite length_app, Lkx.
  - intros ->. rewrite Sk, Sv, !take_ge by lia. by destruct (rt_of h d bt c (ks ++ kx) (vs ++ vx)).
Qed.

(** The order of steps is enforced.  On any plan and runtime, a step that is
    not the next one raises [RuntimeError], the next step after the last token
    raises [IndexError], and both leave the plan, the runtime and the cache
    unchanged. *)
Theorem apply_step_guards (step : Z) (p : Rabit2CausalChunkPlan) (s : RtState) :
  (step ≠ cp_last_step p + 1 → apply_step step (p, s) = (Err RuntimeError, (p, s)))%Z
  ∧ ((step = cp_last_step p + 1 ∧ (step < 0 ∨ Z.of_nat (cp_num_tokens p) ≤ step))%Z →
     apply_step step (p, s) = (Err IndexError, (p, s))).
Proof.
  unfold apply_step. rewrite st_bind_eq. cbn [st_get fst snd]. rewrite st_bind_eq.
  unfold st_raise_if, st_lift. split.
  - intros Hne. by destruct (Z.eqb_spec step (cp_last_step p + 1)).
  - intros [-> Hr]. rewrite Z.eqb_refl. cbn [negb raise_if]. rewrite st_bind_eq.
    destruct (Z.ltb_spec (cp_last_step p + 1) 0); [done|].
    destruct (Z.leb_spec (Z.of_nat (cp_num_tokens p)) (cp_last_step p + 1)); [done|lia].
Qed.
End ChunkPlan.

(** C15 on 70 tokens followed by a chunk of 30, after 13 steps. *)
Lemma chunk_plan_causal_witness :
  ∃ s0 s p s1 p2 s2 sn,
    let key := const_tensor 30 1 64 5 in
    let value := const_tensor 30 1 64 6 in
    runtime_start 1 64 (zero_cache 5) = Ok s0 ∧ runtime_run [3; 0; 4]%nat three_chunks s0 = (Ok tt, s)
    ∧ chunkplan_init [3; 0; 4]%nat key value s = (Ok p, s1)
    ∧ _rabit2_stage4d2_chunkplan_init [3; 0; 4]%nat key value s = (Ok p, s1)
    ∧ rs_runtime s1 = rs_runtime s
    ∧ apply_steps 13 (p, s1) = (Ok tt, (p2, s2))
    ∧ runtime_append [3; 0; 4]%nat (t_take 13 key) (t_take 13 value) s = (Ok tt, sn)
    ∧ rs_runtime s2 = rs_runtime sn
    ∧ runtime_read [3; 0; 4]%nat s2 (λ x, x) = runtime_read [3; 0; 4]%nat sn (λ x, x)
    ∧ (13%nat = t_tokens key → s2 = sn).
Proof.
  apply (chunk_plan_causal 1 64 [3; 0; 4]%nat (zero_cache 5) three_chunks
           (const_tensor 30 1 64 5) (const_tensor 30 1 64 6) 13 (λ x, x)).
  - apply one_head_runtime.
  - apply three_chunks_ok.
  - apply (const_chunk_ok 30 1 64 5 6).
  - cbn. lia.
  - cbn. lia.
  - split; [apply (bool_decide_unpack _); by vm_compute|]. split; [by vm_compute; lia|].
    split; [repeat constructor|done].
Defined.
