(* ===== verification/PageKernel.v ===== *)
(** * The page decode kernel

    [_rabit2_meta_parts], [_rabit2_page_views], [_rabit2_page_decode_kernel] and
    [decode_rabit2_page_triton] of [rabit_kv2.py]: a closed page is decoded by one
    program per token and head that gathers payload bits and metadata codes by
    address, without unpacking.  The main theorem is that on every page of bytes
    the kernel returns what [decode_rabit2_page_ref] returns.

    Multiplication and addition in the kernel are the float operations of
    [TorchFloat]; contraction to a fused operation by the compiler is not
    modelled. *)

From Stdlib Require Import ZArith Lia.
From stdpp Require Import base tactics numbers list option.
From S2P Require Import Prelude Layout Torch SpecFloatTorch BitPack Meta Quant Tab Triton Decoded Page Sidecar Tail.
From S2P Require Import OnlineRef Runtime.

(** The three views of one META8g64 blob. *)
Record MetaView := mkMetaView { mv_codes : list Z; mv_mins : list Z; mv_scales : list Z }.

Definition _rabit2_meta_parts (page : list Z) (offset value_count : nat) : MetaView :=
  let groups := ((value_count + META_GROUP - 1) / META_GROUP)%nat in
  let padded := (groups * META_GROUP)%nat in
  let mins_begin := (offset + padded)%nat in
  let mins_end := (mins_begin + groups * 2)%nat in
  {| mv_codes := slice offset (offset + padded) page;
     mv_mins := bf16_parse (slice mins_begin mins_end page);
     mv_scales := bf16_parse (slice mins_end (mins_end + groups * 2) page) |}.

Record PageViews := mkViews {
  pv_k_payload : list Z;
  pv_v_payload : list Z;
  pv_kmin : MetaView;
  pv_kscale : MetaView;
  pv_vmin : MetaView;
  pv_vscale : MetaView;
  pv_k_packed_dim : nat;
  pv_v_packed_dim : nat
}.

Definition _rabit2_page_views (page : list Z) (layout : Rabit2PageLayout) : result PageViews :=
  v ← _rabit2_stage3b1_validate_layout layout;
  let '(k_primary_n, v_primary_n, k_packed_dim, v_packed_dim) := v in
  let kn := Z.to_nat k_primary_n in
  let vn := Z.to_nat v_primary_n in
  Ok {| pv_k_payload := region page (k_payload_offset layout) (k_payload_bytes layout);
        pv_v_payload := region page (v_payload_offset layout) (v_payload_bytes layout);
        pv_kmin := _rabit2_meta_parts page (Z.to_nat (k_min_offset layout)) kn;
        pv_kscale := _rabit2_meta_parts page (Z.to_nat (k_scale_offset layout)) kn;
        pv_vmin := _rabit2_meta_parts page (Z.to_nat (v_min_offset layout)) vn;
        pv_vscale := _rabit2_meta_parts page (Z.to_nat (v_scale_offset layout)) vn;
        pv_k_packed_dim := Z.to_nat k_packed_dim;
        pv_v_packed_dim := Z.to_nat v_packed_dim |}.

Section PageKernel.
Context `{TF : TorchFloat} {TR : TritonFloat} {TE : TorchEmpty}.

(** [load(code + i) * load(secscale + i // 64) + load(secmin + i // 64)] *)
Definition meta_load (m : MetaView) (i : nat) : f32 :=
  f32_add (f32_mul (f32_of_int (nth i (mv_codes m) 0%Z))
                   (f32_of_bf16 (nth (i / 64) (mv_scales m) 0%Z)))
          (f32_of_bf16 (nth (i / 64) (mv_mins m) 0%Z)).

(** The 3-bit code at channel [d] of the payload row that starts at [krow]. *)
Definition k_code_load (payload : list Z) (krow packed_dim d : nat) : Z :=
  let bit_pos := (d * 3)%nat in
  let byte_idx := (bit_pos / 8)%nat in
  let bit_shift := (bit_pos mod 8)%nat in
  let lo := nth (krow + byte_idx) payload 0%Z in
  let hi := if (byte_idx + 1 <? packed_dim)%nat then nth (krow + byte_idx + 1) payload 0%Z else 0%Z in
  Z.land (Z.shiftr (Z.lor lo (Z.shiftl hi 8)) (Z.of_nat bit_shift)) 7.

Definition v_code_load (payload : list Z) (vrow d : nat) : Z :=
  Z.land (Z.shiftr (nth (vrow + d / 4) payload 0%Z) (Z.of_nat ((d mod 4) * 2))) 3.

(** The two lanes of one program. *)
Definition decode_k_value (pv : PageViews) (NUM_HEADS HEAD_SIZE token head d : nat) : f32 :=
  let code := k_code_load (pv_k_payload pv) ((token * NUM_HEADS + head) * pv_k_packed_dim pv)
                (pv_k_packed_dim pv) d in
  let kidx := (head * HEAD_SIZE + d)%nat in
  f32_add (f32_mul (f32_of_int code) (meta_load (pv_kscale pv) kidx)) (meta_load (pv_kmin pv) kidx).

Definition decode_v_value (pv : PageViews) (NUM_HEADS V_GROUPS token head d : nat) : f32 :=
  let code := v_code_load (pv_v_payload pv) ((token * NUM_HEADS + head) * pv_v_packed_dim pv) d in
  let vidx := ((token * NUM_HEADS + head) * V_GROUPS + d / 32)%nat in
  f32_add (f32_mul (f32_of_int code) (meta_load (pv_vscale pv) vidx)) (meta_load (pv_vmin pv) vidx).

(** The grid [(tokens, heads)]; both outputs are stored at
    [(token * NUM_HEADS + head) * HEAD_SIZE + d]. *)
Definition _rabit2_page_decode_kernel (pv : PageViews) (tokens NUM_HEADS HEAD_SIZE V_GROUPS : nat)
    (out : list f32 * list f32) : list f32 * list f32 :=
  launch (tokens * NUM_HEADS) (λ p out,
    let token := (p / NUM_HEADS)%nat in
    let head := (p mod NUM_HEADS)%nat in
    let out_base := ((token * NUM_HEADS + head) * HEAD_SIZE)%nat in
    (store_block out_base (tab HEAD_SIZE (decode_k_value pv NUM_HEADS HEAD_SIZE token head)) out.1,
     store_block out_base (tab HEAD_SIZE (decode_v_value pv NUM_HEADS V_GROUPS token head)) out.2)) out.

Definition decode_rabit2_page_triton (cuda : bool) (page : list Z) (layout : Rabit2PageLayout)
    (to : f32 → f32) : result (list (list (list f32)) * list (list (list f32))) :=
  _ ← raise_if (negb cuda) ValueError;
  _ ← raise_if (negb (Z.of_nat (length page) =? page_bytes layout)%Z) ValueError;
  pv ← _rabit2_page_views page layout;
  let n := Z.to_nat (block_size layout) in
  let h := Z.to_nat (num_kv_heads layout) in
  let d := Z.to_nat (head_size_k layout) in
  let '(out_k, out_v) :=
    _rabit2_page_decode_kernel pv n h d (Z.to_nat (head_size_v layout / RABIT2_GROUP_SIZE))
      (empty_float (n * h * d), empty_float (n * h * d)) in
  Ok (map3 to (view3 n h d out_k), map3 to (view3 n h d out_v)).

(** ** The grid writes the tabulated tensors *)

Lemma concat_tab2 {A} n h d (F : nat → nat → nat → A) :
  concat (map concat (tab n (λ t, tab h (λ hh, tab d (F t hh)))))
  = concat (tab (n * h) (λ p, tab d (F (p / h)%nat (p mod h)%nat))).
Proof.
  by rewrite <-concat_concat, (concat_tab n h (λ t hh, tab d (F t hh))).
Qed.

Lemma view3_of_tab {A} n h d (F : nat → nat → nat → A) :
  view3 n h d (concat (tab (n * h) (λ p, tab d (F (p / h)%nat (p mod h)%nat))))
  = tab n (λ t, tab h (λ hh, tab d (F t hh))).
Proof.
  rewrite <-concat_tab2. apply view3_concat; [apply tab_length|].
  unfold tab at 1. rewrite Forall_map. apply List.Forall_forall. intros t _. split; [apply tab_length|].
  unfold tab at 1. rewrite Forall_map. apply List.Forall_forall. intros hh _. apply tab_length.
Qed.

Lemma launch_pair {A B} n (f : nat → A → A) (g : nat → B → B) out :
  launch n (λ p out, (f p out.1, g p out.2)) out = (launch n f out.1, launch n g out.2).
Proof.
  apply (launch_ind (λ p m, m = (launch p f out.1, launch p g out.2))); [by destruct out|].
  intros p m _ ->. by rewrite !launch_S.
Qed.

Lemma launch_ext {M} n (f g : nat → M → M) m :
  (∀ p m, (p < n)%nat → f p m = g p m) → launch n f m = launch n g m.
Proof.
  intros H. apply (launch_ind (λ p m', m' = launch p g m)); [done|].
  intros p m' Hp ->. rewrite launch_S. by apply H.
Qed.

Lemma launch_fill {A} n d (block : nat → list A) mem :
  (∀ p, (p < n)%nat → length (block p) = d) → length mem = (n * d)%nat →
  launch n (λ p, store_block (p * d) (block p)) mem = concat (tab n block).
Proof.
  intros Hb Hm. pose proof (launch_blocks n d 0 block mem Hb ltac:(lia)) as E. cbn [Nat.add] in E.
  rewrite E. fold (tab n block). unfold store_block. cbn [take Nat.add app].
  assert (length (concat (tab n block)) = n * d)%nat as Hl.
  { rewrite (length_concat_uniform d); [by rewrite tab_length|]. unfold tab. rewrite Forall_map.
    apply List.Forall_forall. intros p [_ Hp]%in_seq. apply Hb. lia. }
  rewrite drop_ge by lia. apply app_nil_r.
Qed.

Lemma decode_kernel_tab pv n h d g (mk mv : list f32) :
  (0 < h)%nat → length mk = (n * h * d)%nat → length mv = (n * h * d)%nat →
  let out := _rabit2_page_decode_kernel pv n h d g (mk, mv) in
  view3 n h d out.1 = tab n (λ t, tab h (λ hh, tab d (decode_k_value pv h d t hh)))
  ∧ view3 n h d out.2 = tab n (λ t, tab h (λ hh, tab d (decode_v_value pv h g t hh))).
Proof.
  intros Hh Hk Hv. cbv zeta. unfold _rabit2_page_decode_kernel.
  assert (∀ p, (p / h * h + p mod h)%nat = p) as Ep by (intros p; rewrite (Nat.div_mod_eq p h) at 3; lia).
  rewrite (launch_ext _ _ (λ p out,
    (store_block (p * d) (tab d (decode_k_value pv h d (p / h) (p mod h))) out.1,
     store_block (p * d) (tab d (decode_v_value pv h g (p / h) (p mod h))) out.2)))
    by (intros p m _; by rewrite Ep).
  rewrite (launch_pair _ (λ p, store_block (p * d) (tab d (decode_k_value pv h d (p / h) (p mod h))))
             (λ p, store_block (p * d) (tab d (decode_v_value pv h g (p / h) (p mod h))))).
  cbn [fst snd]. rewrite !launch_fill by (intros; apply tab_length || done).
  split; apply view3_of_tab.
Qed.

(** ** Gathered codes *)

Lemma nth_byte_ok l i : Forall byte_ok l → byte_ok (nth i l 0%Z).
Proof.
  intros H. destruct (Nat.lt_ge_cases i (length l)) as [Hi|Hi].
  - by apply Forall_nth_In.
  - rewrite nth_overflow by done. unfold byte_ok. lia.
Qed.

Lemma byte_testbit_high b k : byte_ok b → (8 ≤ k)%nat → Z.testbit b (Z.of_nat k) = false.
Proof. intros Hb Hk. by apply (code_ok_testbit_high 8). Qed.

(** The low [m] bits of a number, as a mask takes them. *)
Lemma land_ones_testbit x m b :
  Z.testbit (Z.land x (Z.ones (Z.of_nat m))) (Z.of_nat b)
  = (b <? m)%nat && Z.testbit x (Z.of_nat b).
Proof.
  rewrite Z.land_spec, andb_comm. f_equal. destruct (Nat.ltb_spec b m).
  - by rewrite Z.ones_spec_low by lia.
  - by rewrite Z.ones_spec_high by lia.
Qed.

(** Two adjacent bytes read as a 16-bit word. *)
Lemma word_testbit lo hi k :
  byte_ok lo → (k < 16)%nat →
  Z.testbit (Z.lor lo (Z.shiftl hi 8)) (Z.of_nat k)
  = if (k <? 8)%nat then Z.testbit lo (Z.of_nat k) else Z.testbit hi (Z.of_nat (k - 8)).
Proof.
  intros Hlo Hk. rewrite Z.lor_spec. destruct (Nat.ltb_spec k 8).
  - rewrite Z.shiftl_spec_low by lia. apply orb_false_r.
  - rewrite (byte_testbit_high lo) by done. rewrite Z.shiftl_spec by lia. cbn [orb]. f_equal. lia.
Qed.

(** A 3-bit code read from the word of its two bytes; the upper byte matters only
    where the row has one. *)
Lemma word3_unpack (f : nat → Z) lo hi n i :
  byte_ok lo → lo = f (i * 3 / 8)%nat →
  ((i * 3 / 8 + 1 < _kvquant_k3_packed_dim n)%nat → hi = f (i * 3 / 8 + 1)%nat) → (i < n)%nat →
  unpack_value 3 (tab (_kvquant_k3_packed_dim n) f) i
  = Z.land (Z.shiftr (Z.lor lo (Z.shiftl hi 8)) (Z.of_nat (i * 3 mod 8))) 7.
Proof.
  intros Hb Elo Ehi Hi. apply Z_testbit_ext. intros b. unfold unpack_value. rewrite unpack_value_testbit.
  change 7%Z with (Z.ones (Z.of_nat 3)). rewrite land_ones_testbit.
  destruct (Nat.ltb_spec b 3) as [Hb3|?]; [|done]. cbn [andb]. unfold bit_offset.
  rewrite Z.shiftr_spec by lia. rewrite <-Nat2Z.inj_add.
  pose proof (Nat.div_mod_eq (i * 3) 8) as E. pose proof (Nat.mod_upper_bound (i * 3) 8 ltac:(lia)) as Hm.
  set (q := (i * 3 / 8)%nat) in *. set (r := (i * 3 mod 8)%nat) in *.
  rewrite word_testbit by (done || lia).
  unfold _kvquant_k3_packed_dim in *. pose proof (Nat.div_mod_eq (n * 3 + 7) 8) as En.
  pose proof (Nat.mod_upper_bound (n * 3 + 7) 8 ltac:(lia)). set (kp := ((n * 3 + 7) / 8)%nat) in *.
  destruct (Nat.ltb_spec (b + r) 8) as [Hlt|Hge].
  - assert ((i * 3 + b) / 8 = q)%nat as -> by (symmetry; apply (Nat.div_unique _ 8 _ (b + r)); lia).
    assert ((i * 3 + b) mod 8 = b + r)%nat as -> by (symmetry; apply (Nat.mod_unique _ 8 q); lia).
    rewrite tab_nth by lia. by rewrite Elo.
  - assert ((i * 3 + b) / 8 = q + 1)%nat as -> by (symmetry; apply (Nat.div_unique _ 8 _ (b + r - 8)); lia).
    assert ((i * 3 + b) mod 8 = b + r - 8)%nat as -> by (symmetry; apply (Nat.mod_unique _ 8 (q + 1)); lia).
    rewrite tab_nth by lia. by rewrite Ehi by lia.
Qed.

Lemma k_code_load_unpack payload krow kp n i :
  Forall byte_ok payload → kp = _kvquant_k3_packed_dim n → (i < n)%nat →
  unpack_value 3 (tab kp (λ j, nth (krow + j) payload 0%Z)) i = k_code_load payload krow kp i.
Proof.
  intros Hp -> Hi. apply word3_unpack; [by apply nth_byte_ok|done| |done].
  intros Hq. by rewrite (proj2 (Nat.ltb_lt _ _) Hq), Nat.add_assoc.
Qed.

Lemma v_code_load_unpack payload vrow vp n i :
  Forall byte_ok payload → vp = ((n * 2 + 7) / 8)%nat → (i < n)%nat →
  unpack_value 2 (tab vp (λ j, nth (vrow + j) payload 0%Z)) i = v_code_load payload vrow i.
Proof.
  intros Hp -> Hi. apply Z_testbit_ext. intros b. unfold unpack_value. rewrite unpack_value_testbit.
  unfold v_code_load. change 3%Z with (Z.ones (Z.of_nat 2)). rewrite land_ones_testbit.
  destruct (Nat.ltb_spec b 2) as [Hb|?]; [|done]. cbn [andb]. unfold bit_offset.
  rewrite Z.shiftr_spec by lia. rewrite <-Nat2Z.inj_add.
  pose proof (Nat.div_mod_eq i 4) as E. pose proof (Nat.mod_upper_bound i 4 ltac:(lia)) as Hm.
  set (q := (i / 4)%nat) in *. set (r := (i mod 4)%nat) in *.
  assert ((i * 2 + b) / 8 = q)%nat as -> by (symmetry; apply (Nat.div_unique _ 8 _ (b + r * 2)); lia).
  assert ((i * 2 + b) mod 8 = b + r * 2)%nat as -> by (symmetry; apply (Nat.mod_unique _ 8 q); lia).
  pose proof (Nat.div_mod_eq (n * 2 + 7) 8) as En. pose proof (Nat.mod_upper_bound (n * 2 + 7) 8 ltac:(lia)).
  by rewrite tab_nth by lia.
Qed.

Lemma land_ones_range x m : (0 ≤ Z.land x (Z.ones (Z.of_nat m)) < 2 ^ Z.of_nat m)%Z.
Proof. rewrite Z.land_ones by lia. apply Z.mod_pos_bound. lia. Qed.

(** The unpacked rows of a payload region. *)
Lemma rows_gathered (f : list (list Z) → result (list (list Z))) bits n h d kp payload
    (load : list Z → nat → nat → Z) :
  (∀ rows, f rows = Ok (map (λ row, unpack_row bits d (take kp row)) rows)) →
  (∀ krow i, (i < d)%nat →
     unpack_value bits (tab kp (λ j, nth (krow + j) payload 0%Z)) i = load payload krow i) →
  (∀ krow i, (0 ≤ load payload krow i < 256)%Z) →
  length payload = (n * h * kp)%nat →
  on_rows f d (mkTensor3 h kp (view3 n h kp payload))
  = Ok (mkTensor3 h d (tab n (λ t, tab h (λ hh, tab d (load payload ((t * h + hh) * kp)))))%nat).
Proof.
  intros Hf Hu Hr Hl. rewrite (view3_tab n h kp payload 0%Z Hl).
  rewrite (on_rows_map f (λ row, unpack_row bits d (take kp row))).
  - do 2 f_equal. rewrite map_tab. apply tab_ext. intros t _. rewrite map_tab. apply tab_ext. intros hh _.
    rewrite take_tab by lia. unfold unpack_row. fold (tab d (unpack_value bits (tab kp (λ k, nth ((t * h + hh) * kp + k) payload 0%Z)))).
    rewrite map_tab. apply tab_ext. intros i Hi. rewrite Hu by done. apply Z.mod_small, Hr.
  - apply Hf.
  - unfold tab at 1. rewrite Forall_map. apply List.Forall_forall. intros t _. apply tab_length.
Qed.

Lemma k_rows_gathered payload n h d :
  (0 < d)%nat → Forall byte_ok payload → length payload = (n * h * _kvquant_k3_packed_dim d)%nat →
  let kp := _kvquant_k3_packed_dim d in
  on_rows (unpack_int3_values d kp) d (mkTensor3 h kp (view3 n h kp payload))
  = Ok (mkTensor3 h d (tab n (λ t, tab h (λ hh, tab d (k_code_load payload ((t * h + hh) * kp) kp)))))%nat.
Proof.
  intros Hd Hp Hl. cbv zeta.
  apply (rows_gathered _ 3 n h d _ payload (λ p krow, k_code_load p krow (_kvquant_k3_packed_dim d))); [| | |done].
  - intros rows. unfold unpack_int3_values. rewrite Nat.ltb_irrefl. cbn [raise_if]. rewrite result_bind_ok.
    by rewrite (proj2 (Nat.eqb_neq d 0)) by lia.
  - intros krow i Hi. by apply k_code_load_unpack with d.
  - intros krow i. unfold k_code_load. change 7%Z with (Z.ones (Z.of_nat 3)).
    pose proof (land_ones_range (Z.shiftr (Z.lor (nth (krow + i * 3 / 8) payload 0%Z)
      (Z.shiftl (if (i * 3 / 8 + 1 <? _kvquant_k3_packed_dim d)%nat
                 then nth (krow + i * 3 / 8 + 1) payload 0%Z else 0%Z) 8)) (Z.of_nat (i * 3 mod 8))) 3).
    change (2 ^ Z.of_nat 3)%Z with 8%Z in *. lia.
Qed.

Lemma v_rows_gathered payload n h d :
  (0 < d)%nat → Forall byte_ok payload → length payload = (n * h * ((d * 2 + 7) / 8))%nat →
  let vp := ((d * 2 + 7) / 8)%nat in
  on_rows (unpack_int2_values d vp) d (mkTensor3 h vp (view3 n h vp payload))
  = Ok (mkTensor3 h d (tab n (λ t, tab h (λ hh, tab d (v_code_load payload ((t * h + hh) * vp))))))%nat.
Proof.
  intros Hd Hp Hl. cbv zeta.
  apply (rows_gathered _ 2 n h d _ payload v_code_load); [| | |done].
  - intros rows. unfold unpack_int2_values, unpack_lowbit_values, _packed_dim. cbn [valid_bits negb raise_if orb Nat.eqb].
    rewrite ?result_bind_ok. rewrite Nat.ltb_irrefl. cbn [raise_if]. rewrite result_bind_ok.
    by rewrite (proj2 (Nat.eqb_neq d 0)) by lia.
  - intros krow i Hi. by apply v_code_load_unpack with d.
  - intros krow i. unfold v_code_load. change 3%Z with (Z.ones (Z.of_nat 2)).
    pose proof (land_ones_range (Z.shiftr (nth (krow + i / 4) payload 0%Z) (Z.of_nat (i mod 4 * 2))) 2).
    change (2 ^ Z.of_nat 2)%Z with 4%Z in *. lia.
Qed.

(** ** Gathered metadata *)

Lemma bf16_parse_length l n : length l = (n * 2)%nat → length (bf16_parse l) = n.
Proof.
  revert l. induction n as [|n IH]; intros l Hl.
  - destruct l; [done|simpl in Hl; lia].
  - destruct l as [|a [|b l]]; simpl in Hl; try lia. cbn [bf16_parse length]. f_equal. apply IH. lia.
Qed.

Lemma slice_slice {A} a b off e (l : list A) :
  (off + b ≤ e)%nat → slice a b (slice off e l) = slice (off + a) (off + b) l.
Proof.
  intros H. unfold slice. rewrite skipn_firstn_comm, drop_drop, take_take. f_equal. lia.
Qed.

Lemma slice_tail {A} a off e (l : list A) :
  (off + a ≤ e)%nat → drop a (slice off e l) = slice (off + a) e l.
Proof.
  intros H. unfold slice. rewrite skipn_firstn_comm, drop_drop. f_equal. lia.
Qed.

(** Decoding a blob of a multiple of 64 values reads the views. *)
Lemma meta_gathered page off n shape :
  (0 < n)%nat → (64 | n)%nat → shape_count shape = n → (off + meta_bytes_nat n ≤ length page)%nat →
  ∃ m, decode_metadata_blob_ref (slice off (off + meta_bytes_nat n) page) shape META_GROUP = Ok m
    ∧ decode_metadata_uint8_group_ref m = tab n (meta_load (_rabit2_meta_parts page off n)).
Proof.
  intros Hn [G EG] Hs Hl. unfold decode_metadata_blob_ref. rewrite Hs. unfold META_GROUP.
  assert ((n + 64 - 1) / 64 = G)%nat as HG.
  { replace (n + 64 - 1)%nat with (G * 64 + 63)%nat by lia. rewrite Nat.div_add_l, Nat.div_small; lia. }
  assert (meta_bytes_nat n = n + G * 4)%nat as Hb.
  { unfold meta_bytes_nat, meta_groups_nat. replace (n + 63)%nat with (n + 64 - 1)%nat by lia. by rewrite HG. }
  rewrite HG, Hb in *. rewrite slice_length, Nat.min_l by lia.
  replace (off + (n + G * 4) - off)%nat with (n + G * 4)%nat by lia. rewrite <-EG, Nat.eqb_refl.
  cbn [negb raise_if]. rewrite result_bind_ok. eexists. split; [reflexivity|].
  rewrite !slice_slice, slice_tail by lia.
  unfold decode_metadata_uint8_group_ref. cbn [m_codes m_min m_scale m_pad].
  unfold _rabit2_meta_parts, META_GROUP. rewrite HG, <-EG.
  replace (off + (n + G * 4))%nat with (off + n + G * 2 + G * 2)%nat by lia.
  replace (off + (n + G * 2))%nat with (off + n + G * 2)%nat by lia. rewrite Nat.add_0_r.
  set (codes := slice off (off + n) page).
  set (mins := bf16_parse (slice (off + n) (off + n + G * 2) page)).
  set (scales := bf16_parse (slice (off + n + G * 2) (off + n + G * 2 + G * 2) page)).
  assert (length codes = n) as Lc by (unfold codes; rewrite slice_length; lia).
  assert (length mins = G) as Lm by (apply bf16_parse_length; rewrite slice_length; lia).
  assert (length scales = G) as Ls by (apply bf16_parse_length; rewrite slice_length; lia).
  rewrite concat_view2, Lc by lia. rewrite (proj2 (Nat.eqb_neq n 0)), Nat.sub_diag by lia.
  cbn [Nat.eqb]. rewrite (view2_tab G 64 codes 0%Z) by lia.
  rewrite (tab_of_list mins 0%Z G Lm), (tab_of_list scales 0%Z G Ls) at 1.
  rewrite zip_with3_tab. unfold meta_group_values.
  rewrite (tab_ext _ _ (λ i, tab 64 (λ j, affine_value (nth (i * 64 + j) codes 0%Z)
    (f32_of_bf16 (nth i scales 0%Z)) (f32_of_bf16 (nth i mins 0%Z))))) by (intros; apply map_tab).
  rewrite concat_tab, <-EG. apply tab_ext. intros k Hk. unfold meta_load. cbn [mv_codes mv_mins mv_scales].
  replace (k / 64 * 64 + k mod 64)%nat with k by (rewrite (Nat.div_mod_eq k 64) at 1; lia). done.
Qed.

(** ** The reference in tabulated form *)

Lemma view2_one {A} n (l : list A) : length l = n → view2 1 n l = [l].
Proof. intros H. unfold view2. cbn [replicate reshape]. by rewrite take_ge by lia. Qed.

Lemma k_dequantize_tab h d kp payload C M S km ks to :
  on_rows (unpack_int3_values d kp) d (mkTensor3 h kp payload)
    = Ok (mkTensor3 h d (tab 32 (λ t, tab h (λ hh, tab d (C t hh))))) →
  decode_metadata_uint8_group_ref km = tab (h * d) M →
  decode_metadata_uint8_group_ref ks = tab (h * d) S →
  dequantize_k3_sequence_affine_ref
    (mkK3State (mkTensor3 h kp payload) (32, h, d)%nat 32 0 GROUP km ks) to
  = Ok (map3 to (tab 32 (λ t, tab h (λ hh, tab d (λ i,
      affine_value (C t hh i) (S (hh * d + i)%nat) (M (hh * d + i)%nat)))))).
Proof.
  intros Hc Hm Hs. unfold dequantize_k3_sequence_affine_ref.
  cbn [k_original_shape k_padded_tokens k_seq_group_size k_packed k_min k_scale t_dim].
  rewrite Hc, result_bind_ok, Hm, Hs. cbn [t_rows]. change GROUP with 32%nat.
  change (32 / 32)%nat with 1%nat. do 2 f_equal.
  rewrite (permute102_tab 32 h (λ t hh, tab d (C t hh)) []), map_tab.
  rewrite !(view3_tab h 1 d _ f32_zero) by (rewrite tab_length; lia). rewrite zip_with3_tab, map_tab.
  rewrite <-(permute102_tab h 32 (λ hh t, tab d (λ i,
    affine_value (C t hh i) (S (hh * d + i)%nat) (M (hh * d + i)%nat))) []).
  f_equal. apply tab_ext. intros hh Hhh. rewrite view2_one by apply tab_length. rewrite !tab_1.
  cbn [zip_with3 zip_with zip concat map]. rewrite app_nil_r. unfold k_group_values. rewrite map_tab.
  rewrite take_tab by lia. apply tab_ext. intros t _. rewrite zip_with3_tab. apply tab_ext.
  intros i Hi. rewrite !tab_nth by nia. do 2 f_equal; lia.
Qed.

Lemma v_dequantize_tab n h g vp payload C M S to :
  on_rows (unpack_int2_values (g * 32) vp) (g * 32) (mkTensor3 h vp payload)
    = Ok (mkTensor3 h (g * 32) (tab n (λ t, tab h (λ hh, tab (g * 32) (C t hh))))) →
  _dequantize_v2_from_primary_ref (mkTensor3 h vp payload)
    (mkTensor3 h g (view3 n h g (tab (n * h * g) M))) (mkTensor3 h g (view3 n h g (tab (n * h * g) S)))
    (g * 32) GROUP to
  = Ok (map3 to (tab n (λ t, tab h (λ hh, tab (g * 32) (λ i,
      affine_value (C t hh i) (S ((t * h + hh) * g + i / 32)%nat) (M ((t * h + hh) * g + i / 32)%nat)))))).
Proof.
  intros Hc. unfold _dequantize_v2_from_primary_ref. cbn [t_dim t_rows]. change GROUP with 32%nat.
  rewrite Hc, result_bind_ok. cbn [t_rows]. do 2 f_equal. unfold v_tensor_values.
  rewrite !(view3_tab n h g _ f32_zero) by apply tab_length.
  rewrite zip_with3_tab. apply tab_ext. intros t Ht. rewrite zip_with3_tab. apply tab_ext. intros hh Hhh.
  unfold v_row_values. rewrite tab_length. rewrite (view2_tab g 32 _ 0%Z) by apply tab_length.
  rewrite zip_with3_tab.
  rewrite (tab_ext _ _ (λ q, tab 32 (λ j, affine_value (C t hh (q * 32 + j)%nat)
    (S ((t * h + hh) * g + q)%nat) (M ((t * h + hh) * g + q)%nat)))).
  - rewrite concat_tab, take_tab by lia. apply tab_ext. intros k Hk.
    replace (k / 32 * 32 + k mod 32)%nat with k by (rewrite (Nat.div_mod_eq k 32) at 1; lia). done.
  - intros q Hq. rewrite map_tab. apply tab_ext. intros j Hj. pose proof (flat_index t hh q n h g Ht Hhh Hq).
    rewrite !tab_nth by nia. done.
Qed.

(** ** Both decoders on one page *)

Section OnePage.
Variables (h g : nat) (page : list Z).
Let d := (g * 32)%nat.
Let layout := layout_of GROUP h d d.
Hypotheses (Hh : (0 < h)%nat) (Hg : (0 < g)%nat) (Hmeta : (64 | h * d)%nat)
  (Hlen : Z.of_nat (length page) = page_bytes layout) (Hbytes : Forall byte_ok page).

Let kp := _kvquant_k3_packed_dim d.
Let vp := ((d * 2 + 7) / 8)%nat.
Let s0 := (32 * h * kp)%nat.
Let s1 := (32 * h * vp)%nat.
Let s2 := meta_bytes_nat (h * d).
Let s4 := meta_bytes_nat (32 * h * g).

Lemma page_v_groups : v_groups_nat d = g.
Proof. unfold v_groups_nat, d. rewrite Nat.div_add_l, Nat.div_small by lia. lia. Qed.

Lemma page_fields :
  k_payload_offset layout = 0%Z ∧ k_payload_bytes layout = Z.of_nat s0
  ∧ v_payload_offset layout = Z.of_nat s0 ∧ v_payload_bytes layout = Z.of_nat s1
  ∧ k_min_offset layout = Z.of_nat (s0 + s1) ∧ k_min_bytes layout = Z.of_nat s2
  ∧ k_scale_offset layout = Z.of_nat (s0 + s1 + s2) ∧ k_scale_bytes layout = Z.of_nat s2
  ∧ v_min_offset layout = Z.of_nat (s0 + s1 + s2 + s2) ∧ v_min_bytes layout = Z.of_nat s4
  ∧ v_scale_offset layout = Z.of_nat (s0 + s1 + s2 + s2 + s4) ∧ v_scale_bytes layout = Z.of_nat s4
  ∧ length page = (s0 + s1 + s2 + s2 + s4 + s4)%nat.
Proof.
  assert (region_sizes_nat GROUP h d d = [s0; s1; s2; s2; s4; s4]) as E.
  { unfold region_sizes_nat. rewrite page_v_groups. fold d. unfold s0, s1, s2, s4, vp, kp, GROUP.
    change (packed_dim_nat d 3) with (_kvquant_k3_packed_dim d).
    change (packed_dim_nat d 2) with ((d * 2 + 7) / 8)%nat. change (32 / 32)%nat with 1%nat.
    by rewrite Nat.mul_1_l. }
  assert (page_bytes layout = Z.of_nat (s0 + s1 + s2 + s2 + s4 + s4)) as Epb
    by (unfold layout, layout_of; rewrite E; cbn [page_bytes take]; unfold sum_list_with, id; lia).
  rewrite Epb in Hlen. apply Nat2Z.inj in Hlen. unfold layout, layout_of. rewrite E.
  cbn [k_payload_offset k_payload_bytes v_payload_offset v_payload_bytes k_min_offset k_min_bytes
    k_scale_offset k_scale_bytes v_min_offset v_min_bytes v_scale_offset v_scale_bytes take nth].
  unfold sum_list_with, id. split_and!; try done; lia.
Qed.

Lemma region_slice off size : region page (Z.of_nat off) (Z.of_nat size) = slice off (off + size) page.
Proof. unfold region. rewrite <-Nat2Z.inj_add, !Nat2Z.id. done. Qed.

Lemma slice_bytes a b : Forall byte_ok (slice a b page).
Proof. unfold slice. apply Forall_take, Forall_drop, Hbytes. Qed.

(** The views both decoders take of the page. *)
Let pk := slice 0 s0 page.
Let pv := slice s0 (s0 + s1) page.
Let views := mkViews pk pv
  (_rabit2_meta_parts page (s0 + s1) (h * d)) (_rabit2_meta_parts page (s0 + s1 + s2) (h * d))
  (_rabit2_meta_parts page (s0 + s1 + s2 + s2) (32 * h * g))
  (_rabit2_meta_parts page (s0 + s1 + s2 + s2 + s4) (32 * h * g)) kp vp.

Definition decoded_pair (to : f32 → f32) : list (list (list f32)) * list (list (list f32)) :=
  (map3 to (tab 32 (λ t, tab h (λ hh, tab d (decode_k_value views h d t hh)))),
   map3 to (tab 32 (λ t, tab h (λ hh, tab d (decode_v_value views h g t hh))))).

Lemma meta_divides : (64 | 32 * h * g)%nat.
Proof. destruct Hmeta as [q Hq]. exists q. unfold d in Hq. lia. Qed.

Lemma decode_ref_tab to : decode_rabit2_page_ref page layout to = Ok (decoded_pair to).
Proof.
  destruct page_fields as (F0 & F1 & F2 & F3 & F4 & F5 & F6 & F7 & F8 & F9 & F10 & F11 & FL).
  unfold decode_rabit2_page_ref. rewrite Hlen, Z.eqb_refl. cbn [negb raise_if]. rewrite result_bind_ok.
  rewrite F0, F1, F2, F3, F4, F5, F6, F7, F8, F9, F10, F11. change 0%Z with (Z.of_nat 0).
  rewrite !region_slice. unfold layout, layout_of. cbn [head_size_k head_size_v block_size num_kv_heads].
  change 3%Z with (Z.of_nat 3). change 2%Z with (Z.of_nat 2).
  rewrite (rabit2_packed_dim_nat d 3), result_bind_ok by lia.
  assert (((Z.of_nat d + RABIT2_GROUP_SIZE - 1) / RABIT2_GROUP_SIZE * RABIT2_GROUP_SIZE)%Z
          = Z.of_nat d) as ->.
  { transitivity (Z.of_nat (v_groups_nat d * 32)); [|by rewrite page_v_groups].
    unfold RABIT2_GROUP_SIZE, v_groups_nat. rewrite Nat2Z.inj_mul, Nat2Z.inj_div, Nat2Z.inj_add.
    do 2 f_equal. lia. }
  rewrite (rabit2_packed_dim_nat _ 2), result_bind_ok by lia.
  assert (Z.to_nat (Z.of_nat d / RABIT2_GROUP_SIZE) = g) as ->.
  { unfold RABIT2_GROUP_SIZE, d. rewrite Nat2Z.inj_mul, Z.div_mul by lia. by rewrite Nat2Z.id. }
  rewrite !Nat2Z.id. change GROUP with 32%nat.
  change (packed_dim_nat d 3) with kp. change (packed_dim_nat d 2) with vp. cbn [Nat.add]. fold pk pv.
  assert (length pk = s0) as Lk by (unfold pk; rewrite slice_length; lia).
  assert (length pv = s1) as Lv by (unfold pv; rewrite slice_length; lia).
  unfold reshape3. rewrite Lk, Lv. fold s0 s1. rewrite !Nat.eqb_refl. cbn [negb raise_if].
  rewrite !result_bind_ok. change (32 / 32)%nat with 1%nat.
  assert (0 < h * d ∧ 0 < 32 * h * g)%nat as [Pk Pv] by (unfold d; nia).
  destruct (meta_gathered page (s0 + s1) (h * d) [1; h; 1; 1; d]%nat Pk Hmeta) as (m1 & E1 & D1);
    [unfold shape_count; cbn [fold_left]; lia|fold s2; lia|]. fold s2 in E1. rewrite E1.
  destruct (meta_gathered page (s0 + s1 + s2) (h * d) [1; h; 1; 1; d]%nat Pk Hmeta) as (m2 & E2 & D2);
    [unfold shape_count; cbn [fold_left]; lia|fold s2; lia|]. fold s2 in E2. rewrite result_bind_ok, E2.
  destruct (meta_gathered page (s0 + s1 + s2 + s2) (32 * h * g) [32; h; g; 1]%nat Pv meta_divides)
    as (m3 & E3 & D3); [unfold shape_count; cbn [fold_left]; lia|fold s4; lia|].
  fold s4 in E3. rewrite result_bind_ok, E3.
  destruct (meta_gathered page (s0 + s1 + s2 + s2 + s4) (32 * h * g) [32; h; g; 1]%nat Pv meta_divides)
    as (m4 & E4 & D4); [unfold shape_count; cbn [fold_left]; lia|fold s4; lia|].
  fold s4 in E4. rewrite result_bind_ok, E4, result_bind_ok.
  pose proof (k_rows_gathered pk 32 h d ltac:(unfold d; lia) (slice_bytes _ _) Lk) as RK.
  pose proof (v_rows_gathered pv 32 h d ltac:(unfold d; lia) (slice_bytes _ _) Lv) as RV.
  cbv zeta in RK, RV. fold kp in RK. fold vp in RV.
  pose proof (k_dequantize_tab h d kp _ _ _ _ m1 m2 to RK D1 D2) as EK. change GROUP with 32%nat in EK.
  rewrite EK, result_bind_ok, D3, D4.
  pose proof (v_dequantize_tab 32 h g vp _ _ (meta_load (_rabit2_meta_parts page (s0 + s1 + s2 + s2) (32 * h * g)))
    (meta_load (_rabit2_meta_parts page (s0 + s1 + s2 + s2 + s4) (32 * h * g))) to RV) as EV.
  change GROUP with 32%nat in EV. fold d in EV. rewrite EV.
  rewrite result_bind_ok. done.
Qed.

Lemma validate_layout_of :
  _rabit2_stage3b1_validate_layout layout
  = Ok (Z.of_nat (h * d), Z.of_nat (32 * h * g), Z.of_nat kp, Z.of_nat vp).
Proof.
  unfold _rabit2_stage3b1_validate_layout, layout, layout_of.
  cbn [block_size num_kv_heads head_size_k head_size_v].
  change RABIT2_GROUP_SIZE with 32%Z. change (Z.of_nat GROUP) with 32%Z. rewrite !Z.eqb_refl.
  cbn [negb raise_if]. rewrite !result_bind_ok. unfold RABIT2_METADATA_GROUP_SIZE.
  destruct Hmeta as [q Hq]. assert (Z.of_nat d = Z.of_nat g * 32)%Z as Ed by (unfold d; lia).
  rewrite Ed at 1. rewrite Z.mod_mul by lia. cbn [Z.eqb negb raise_if]. rewrite result_bind_ok.
  rewrite <-Nat2Z.inj_mul, Hq, Nat2Z.inj_mul. change (Z.of_nat 64) with 64%Z.
  rewrite Z.mod_mul by lia.
  assert (Z.of_nat d / 32 = Z.of_nat g)%Z as Eg by (rewrite Ed; by apply Z.div_mul). rewrite !Eg.
  assert (32 * Z.of_nat h * Z.of_nat g = Z.of_nat q * 64)%Z as E by (unfold d in Hq; lia).
  rewrite E, Z.mod_mul by lia. cbn [Z.eqb negb orb raise_if]. rewrite result_bind_ok.
  change 3%Z with (Z.of_nat 3). change 2%Z with (Z.of_nat 2).
  rewrite !rabit2_packed_dim_nat, !result_bind_ok by lia. fold kp vp.
  change (packed_dim_nat d 3) with kp. change (packed_dim_nat d 2) with vp.
  assert (32 * h * g = q * 64)%nat as -> by (unfold d in Hq; lia).
  rewrite Nat2Z.inj_mul. done.
Qed.

Lemma page_views_of :
  ∃ pv, _rabit2_page_views page layout = Ok pv ∧ pv_k_packed_dim pv = kp ∧ pv_v_packed_dim pv = vp
    ∧ ∀ to, decoded_pair to
      = (map3 to (tab 32 (λ t, tab h (λ hh, tab d (decode_k_value pv h d t hh)))),
         map3 to (tab 32 (λ t, tab h (λ hh, tab d (decode_v_value pv h g t hh))))).
Proof.
  destruct page_fields as (F0 & F1 & F2 & F3 & F4 & F5 & F6 & F7 & F8 & F9 & F10 & F11 & FL).
  exists views. split; [|done]. unfold _rabit2_page_views. rewrite validate_layout_of, result_bind_ok.
  rewrite F0, F1, F2, F3, F4, F6, F8, F10. change 0%Z with (Z.of_nat 0) at 1. rewrite !region_slice.
  by rewrite !Nat2Z.id.
Qed.

Lemma layout_v_groups : Z.to_nat (Z.of_nat d / RABIT2_GROUP_SIZE) = g.
Proof. unfold RABIT2_GROUP_SIZE, d. rewrite Nat2Z.inj_mul, Z.div_mul by lia. by rewrite Nat2Z.id. Qed.

Lemma decode_triton_tab to : decode_rabit2_page_triton true page layout to = Ok (decoded_pair to).
Proof.
  destruct page_views_of as (pv' & Epv & _ & _ & Ed).
  unfold decode_rabit2_page_triton. rewrite Hlen, Z.eqb_refl. cbn [negb raise_if].
  rewrite !result_bind_ok, Epv, result_bind_ok.
  unfold layout, layout_of. cbn [head_size_k head_size_v block_size num_kv_heads]. rewrite !Nat2Z.id.
  rewrite layout_v_groups. change GROUP with 32%nat.
  destruct (decode_kernel_tab pv' 32 h d g (empty_float (32 * h * d)) (empty_float (32 * h * d)) Hh
              (empty_float_length _) (empty_float_length _)) as [Ek Ev].
  rewrite Ed. destruct (_rabit2_page_decode_kernel _ _ _ _ _ _) as [ok ov].
  cbn [fst snd] in Ek, Ev. by rewrite Ek, Ev.
Qed.
End OnePage.

(** C22: the page decode kernel is the reference decoder.  For every geometry the
    runtime accepts and every page of the right size, whatever its bytes, the
    gathering kernel returns exactly the tensors [decode_rabit2_page_ref]
    returns; both succeed. *)
Theorem page_decode_kernel_is_reference (h d : nat) (page : list Z) (to : f32 → f32) :
  runtime_geometry h d → Z.of_nat (length page) = page_bytes (layout_of GROUP h d d) →
  Forall byte_ok page →
  ∃ kv, decode_rabit2_page_triton true page (layout_of GROUP h d d) to = Ok kv
        ∧ decode_rabit2_page_ref page (layout_of GROUP h d d) to = Ok kv.
Proof.
  intros ([Hh Hd] & [g ->] & H64) Hlen Hb. eexists. split.
  - apply decode_triton_tab; (done || lia).
  - apply decode_ref_tab; (done || lia).
Qed.
End PageKernel.

(** C22 on a page of one head of 64 channels with every byte 183. *)
Lemma page_decode_kernel_is_reference_witness :
  ∃ kv, decode_rabit2_page_triton (TE := zero_memory) true (replicate 1552 183%Z) (layout_of GROUP 1 64 64)
          (λ x, x) = Ok kv
        ∧ decode_rabit2_page_ref (replicate 1552 183%Z) (layout_of GROUP 1 64 64) (λ x, x) = Ok kv.
Proof.
  apply (page_decode_kernel_is_reference (TE := zero_memory) 1 64 (replicate 1552 183%Z) (λ x, x)).
  - apply one_head_runtime.
  - by vm_compute.
  - apply Forall_replicate. unfold byte_ok. lia.
Defined.
