(* ===== verification/EncodeKernel.v ===== *)
(** * The page encode kernels

    The Triton quantize-and-pack path of [rabit_kv2.py] for one closed page:
    [_rabit2_k_primary_kernel], [_rabit2_k_pack_kernel],
    [_rabit2_v_primary_kernel], [_rabit2_v_pack_kernel],
    [_rabit2_meta_encode_kernel], [_rabit2_encode_meta_triton] and
    [encode_rabit2_page_triton_experimental], together with the exact CUDA writer
    [encode_rabit2_page_exact_cuda].  If every division were IEEE division
    ([TritonIeee]) and the blocks are ordinary numbers ([TritonLaws]), the kernels
    would write the page of [encode_rabit2_page_ref] byte for byte: rounded division
    is the only difference.  The compiler does not promise that of [/], and the
    source keeps the path as a diagnostic that is not byte-exact.

    Strided loads [key_ptr + t*stride_t + h*stride_h + d*stride_d] are element
    accesses; outputs are flat buffers. *)

From Stdlib Require Import ZArith Lia.
From stdpp Require Import base tactics numbers list option.
From S2P Require Import Prelude Layout Torch SpecFloatTorch BitPack Meta Quant Tab Triton FixedTorch Decoded Page.
From S2P Require Import Sidecar Tail OnlineRef Runtime Bulk PageKernel.

Section EncodeKernel.
Context `{TF : TorchFloat} {TR : TritonFloat} {TE : TorchEmpty}.

(** [tensor[t, h, d]], loaded as float32. *)
Definition at3 (x : tensor3 f32) (t h d : nat) : f32 := nth d (nth h (nth t (t_rows x) []) []) f32_zero.

(** A store of the lanes below [n] of block [b]. *)
Definition masked_block {A} (BLOCK n b : nat) (lane : nat → A) : list A :=
  tab (BLOCK `min` (n - b * BLOCK)) (λ j, lane (b * BLOCK + j)%nat).

(** [_rabit2_k_primary_kernel] over the grid [(heads, cdiv(head_size, BLOCK_D))]. *)
Definition k_primary_lane (key : tensor3 f32) (head d : nat) : f32 * f32 :=
  let x := tab 32 (λ t, at3 key t head d) in
  let q_min := tl_min x in
  (q_min, tl_scale f32_abs_lt_1e8 7 q_min (tl_max x)).

Definition _rabit2_k_primary_kernel (key : tensor3 f32) (NUM_HEADS HEAD_SIZE BLOCK_D : nat)
    (out : list f32 * list f32) : list f32 * list f32 :=
  launch NUM_HEADS (λ head, launch ((HEAD_SIZE + (BLOCK_D - 1)) / BLOCK_D) (λ b out,
    let at_ := (head * HEAD_SIZE + b * BLOCK_D)%nat in
    (store_block at_ (masked_block BLOCK_D HEAD_SIZE b (λ d, (k_primary_lane key head d).1)) out.1,
     store_block at_ (masked_block BLOCK_D HEAD_SIZE b (λ d, (k_primary_lane key head d).2)) out.2))) out.

(** One byte of [_rabit2_k_pack_kernel]; masked lanes load [0.0], [0.0] and [1.0]. *)
Definition k_pack_byte (key : tensor3 f32) (mins scales : list f32) (HEAD_SIZE token head b : nat) : Z :=
  let base_d := (b * 8 / 3)%nat in
  let stream_shift := (b * 8 mod 3)%nat in
  let q j :=
    let d := (base_d + j)%nat in
    if (d <? HEAD_SIZE)%nat then
      tl_code_int 7 (nth (head * HEAD_SIZE + d) mins f32_zero) (nth (head * HEAD_SIZE + d) scales f32_one)
        (at3 key token head d)
    else tl_code_int 7 f32_zero f32_one f32_zero in
  let word := Z.lor (Z.lor (Z.lor (Z.lor 0 (Z.shiftl (q 0%nat) 0)) (Z.shiftl (q 1%nat) 3))
                           (Z.shiftl (q 2%nat) 6)) (Z.shiftl (q 3%nat) 9) in
  Z.land (Z.shiftr word (Z.of_nat stream_shift)) 255.

Definition _rabit2_k_pack_kernel (key : tensor3 f32) (mins scales : list f32)
    (tokens NUM_HEADS HEAD_SIZE PACKED_DIM : nat) (payload : list Z) : list Z :=
  launch (tokens * NUM_HEADS) (λ p,
    store_block (p * PACKED_DIM)
      (tab PACKED_DIM (k_pack_byte key mins scales HEAD_SIZE (p / NUM_HEADS) (p mod NUM_HEADS)))) payload.

(** [_rabit2_v_primary_kernel]: one program per token, head and group, flattened
    in row-major order; lanes past the head size load zero. *)
Definition v_primary_lane (value : tensor3 f32) (HEAD_SIZE token head group : nat) : f32 * f32 :=
  let x := tab 32 (λ j, let d := (group * 32 + j)%nat in
                        if (d <? HEAD_SIZE)%nat then at3 value token head d else f32_zero) in
  let q_min := tl_min x in
  (q_min, tl_scale f32_abs_lt_1e8 3 q_min (tl_max x)).

Definition _rabit2_v_primary_kernel (value : tensor3 f32) (tokens NUM_HEADS HEAD_SIZE NUM_GROUPS : nat)
    (out : list f32 * list f32) : list f32 * list f32 :=
  launch (tokens * NUM_HEADS) (λ r, launch NUM_GROUPS (λ group out,
    let v := v_primary_lane value HEAD_SIZE (r / NUM_HEADS) (r mod NUM_HEADS) group in
    (store_block (r * NUM_GROUPS + group * 1) [v.1] out.1,
     store_block (r * NUM_GROUPS + group * 1) [v.2] out.2))) out.

Definition v_pack_byte (value : tensor3 f32) (mins scales : list f32)
    (NUM_HEADS HEAD_SIZE NUM_GROUPS token head b : nat) : Z :=
  let base_d := (b * 4)%nat in
  let group := (base_d / 32)%nat in
  let pidx := ((token * NUM_HEADS + head) * NUM_GROUPS + group)%nat in
  let mn := nth pidx mins f32_zero in
  let sc := nth pidx scales f32_one in
  let q j :=
    let d := (base_d + j)%nat in
    tl_code_int 3 mn sc (if (d <? HEAD_SIZE)%nat then at3 value token head d else f32_zero) in
  v2_byte (q 0%nat) (q 1%nat) (q 2%nat) (q 3%nat).

Definition _rabit2_v_pack_kernel (value : tensor3 f32) (mins scales : list f32)
    (tokens NUM_HEADS HEAD_SIZE NUM_GROUPS PACKED_DIM : nat) (payload : list Z) : list Z :=
  launch (tokens * NUM_HEADS) (λ p,
    store_block (p * PACKED_DIM)
      (tab PACKED_DIM (v_pack_byte value mins scales NUM_HEADS HEAD_SIZE NUM_GROUPS
                         (p / NUM_HEADS) (p mod NUM_HEADS)))) payload.

(** [_rabit2_meta_encode_kernel] and its launcher. *)
Definition meta_block (primary : list f32) (group : nat) : list f32 :=
  tab 64 (λ j, nth (group * 64 + j) primary f32_zero).

Definition _rabit2_meta_encode_kernel (primary : list f32) (groups : nat)
    (out : list Z * list Z * list Z) : list Z * list Z * list Z :=
  launch groups (λ group out,
    let x := meta_block primary group in
    let mn := tl_min x in
    let sc := tl_scale f32_abs_lt_1e12 255 mn (tl_max x) in
    (store_block (group * 64) (map (tl_code_int 255 mn sc) x) out.1.1,
     store_block (group * 1) [bf16_of_f32 mn] out.1.2,
     store_block (group * 1) [bf16_of_f32 sc] out.2)) out.

Definition _rabit2_encode_meta_triton (primary : list f32) : result (list Z * list Z * list Z) :=
  let values := length primary in
  _ ← raise_if (negb (values mod META_GROUP =? 0)%nat) ValueError;
  let groups := (values / META_GROUP)%nat in
  Ok (_rabit2_meta_encode_kernel primary groups (empty_int values, empty_int groups, empty_int groups)).

(** [page[pos : pos + x.numel()].copy_(x)] in sequence. *)
Fixpoint copy_parts (parts : list (Z * list Z)) (page : list Z) : result (list Z) :=
  match parts with
  | [] => Ok page
  | (pos, x) :: parts' =>
      page' ← store_region page pos (Z.of_nat (length x)) x;
      copy_parts parts' page'
  end.

(** Codes, minima and scales of one blob at consecutive positions. *)
Definition meta_parts_at (offset : Z) (m : list Z * list Z * list Z) : list (Z * list Z) :=
  let '(codes, mins, scales) := m in
  let p1 := (offset + Z.of_nat (length codes))%Z in
  let p2 := (p1 + Z.of_nat (length (_tensor_as_bytes mins)))%Z in
  [(offset, codes); (p1, _tensor_as_bytes mins); (p2, _tensor_as_bytes scales)].

Definition encode_rabit2_page_triton_experimental (cuda : bool) (key value : tensor3 f32)
    (layout : option Rabit2PageLayout) : result (list Z) :=
  _ ← raise_if (negb cuda) ValueError;
  _ ← raise_if (negb (shape_eqb key value)) ValueError;
  layout ← match layout with
           | Some l => Ok l
           | None => rabit2_page_layout (Z.of_nat (t_tokens key)) (Z.of_nat (t_heads key))
                       (Z.of_nat (t_dim key)) (Some (Z.of_nat (t_dim value)))
           end;
  v ← _rabit2_stage3b1_validate_layout layout;
  let '(k_primary_n, v_primary_n, k_packed_dim, v_packed_dim) := v in
  _ ← raise_if (negb ((Z.of_nat (t_tokens key) =? block_size layout)
                      && (Z.of_nat (t_heads key) =? num_kv_heads layout)
                      && (Z.of_nat (t_dim key) =? head_size_k layout))%Z) ValueError;
  let n := Z.to_nat (block_size layout) in
  let h := Z.to_nat (num_kv_heads layout) in
  let dk := Z.to_nat (head_size_k layout) in
  let dv := Z.to_nat (head_size_v layout) in
  let kn := Z.to_nat k_primary_n in
  let vn := Z.to_nat v_primary_n in
  let kp := Z.to_nat k_packed_dim in
  let vp := Z.to_nat v_packed_dim in
  let '(k_min_primary, k_scale_primary) :=
    _rabit2_k_primary_kernel key h dk (128 `min` 2 ^ Nat.log2_up dk) (empty_float kn, empty_float kn) in
  let k_payload := _rabit2_k_pack_kernel key k_min_primary k_scale_primary n h dk kp
                     (empty_int (Z.to_nat (k_payload_bytes layout))) in
  let v_groups := Z.to_nat (head_size_v layout / RABIT2_GROUP_SIZE) in
  let '(v_min_primary, v_scale_primary) :=
    _rabit2_v_primary_kernel value n h dv v_groups (empty_float vn, empty_float vn) in
  let v_payload := _rabit2_v_pack_kernel value v_min_primary v_scale_primary n h dv v_groups vp
                     (empty_int (Z.to_nat (v_payload_bytes layout))) in
  kmin ← _rabit2_encode_meta_triton k_min_primary;
  kscale ← _rabit2_encode_meta_triton k_scale_primary;
  vmin ← _rabit2_encode_meta_triton v_min_primary;
  vscale ← _rabit2_encode_meta_triton v_scale_primary;
  copy_parts
    ([(k_payload_offset layout, k_payload); (v_payload_offset layout, v_payload)]
     ++ meta_parts_at (k_min_offset layout) kmin ++ meta_parts_at (k_scale_offset layout) kscale
     ++ meta_parts_at (v_min_offset layout) vmin ++ meta_parts_at (v_scale_offset layout) vscale)
    (empty_int (Z.to_nat (page_bytes layout))).

Definition encode_rabit2_page_exact_cuda (cuda : bool) (key value : tensor3 f32)
    (layout : option Rabit2PageLayout) : result (list Z) :=
  _ ← raise_if (negb cuda) ValueError;
  encode_rabit2_page_ref key value layout.

(** ** Launches that fill a buffer *)

Lemma concat_tab_one {A} n (f : nat → A) : concat (tab n (λ i, [f i])) = tab n f.
Proof.
  unfold tab. generalize (seq 0 n). intros l. induction l as [|x l IH]; [done|].
  cbn [map concat app]. by rewrite IH.
Qed.

Lemma tab_S_block {A} B n p (f : nat → A) :
  (p * B < n)%nat →
  tab ((p * B) `min` n) f ++ masked_block B n p f = tab ((S p * B) `min` n) f
  ∧ length (masked_block B n p f) = (B `min` (n - p * B))%nat.
Proof.
  intros Hp. unfold masked_block. rewrite tab_length. split; [|done].
  replace ((p * B) `min` n)%nat with (p * B)%nat by lia.
  replace ((S p * B) `min` n)%nat with (p * B + B `min` (n - p * B))%nat by lia. by rewrite tab_add.
Qed.

(** Masked blocks of a row. *)
Lemma launch_masked {A} n B base (f : nat → A) mem :
  (0 < B)%nat → (base + n ≤ length mem)%nat →
  launch ((n + (B - 1)) / B) (λ b, store_block (base + b * B) (masked_block B n b f)) mem
  = store_block base (tab n f) mem.
Proof.
  intros HB Hm. set (P := ((n + (B - 1)) / B)%nat).
  pose proof (Nat.div_mod_eq (n + (B - 1)) B) as Hd.
  pose proof (Nat.mod_upper_bound (n + (B - 1)) B ltac:(lia)) as Hr. fold P in Hd.
  assert ((P * B) `min` n = n)%nat as EP by nia.
  replace (tab n f) with (tab ((P * B) `min` n) f) by (by rewrite EP).
  apply (launch_ind (λ p m, m = store_block base (tab ((p * B) `min` n) f) mem)).
  { rewrite Nat.mul_0_l, Nat.min_0_l. symmetry. apply store_block_nil. }
  intros p m Hp ->. assert (p * B < n)%nat as Hpn by nia.
  destruct (tab_S_block B n p f Hpn) as [<- Hl].
  assert (length (tab ((p * B) `min` n) f) = p * B)%nat as Ht by (rewrite tab_length; lia).
  rewrite <-Ht at 1. apply store_block_app. rewrite Ht, Hl. lia.
Qed.

(** A row per program fills the buffer. *)
Lemma launch_rows {A} n d (row : nat → list A) (prog : nat → list A → list A) mem :
  (∀ p, (p < n)%nat → length (row p) = d) → length mem = (n * d)%nat →
  (∀ p m, (p < n)%nat → length m = length mem → prog p m = store_block (p * d) (row p) m) →
  launch n prog mem = concat (tab n row).
Proof.
  intros Hr Hm Hp. rewrite <-(launch_fill n d row mem) by done.
  assert (launch n prog mem = launch n (λ p, store_block (p * d) (row p)) mem
          ∧ length (launch n (λ p, store_block (p * d) (row p)) mem) = length mem) as [? _]; [|done].
  apply (launch_ind (λ p m, m = launch p (λ p, store_block (p * d) (row p)) mem
    ∧ length (launch p (λ p, store_block (p * d) (row p)) mem) = length mem)); [done|].
  intros p m Hlt [-> Hl]. rewrite launch_S. split.
  - by apply Hp.
  - rewrite store_block_length; [done|]. rewrite Hl, Hr, Hm by done. nia.
Qed.

(** ** K statistics *)

(** The column a K program reduces. *)
Definition k_column (key : tensor3 f32) (head d : nat) : list f32 := tab 32 (λ t, at3 key t head d).

Lemma launch_pair2 {A B} n (f : nat → A → A) (g : nat → B → B) (k : nat → A * B → A * B) out :
  (∀ p o, k p o = (f p o.1, g p o.2)) → launch n k out = (launch n f out.1, launch n g out.2).
Proof. intros H. rewrite <-launch_pair. apply launch_ext. intros p m _. apply H. Qed.

Lemma k_primary_kernel_tab key h d B (out : list f32 * list f32) :
  (0 < B)%nat → length out.1 = (h * d)%nat → length out.2 = (h * d)%nat →
  _rabit2_k_primary_kernel key h d B out
  = (concat (tab h (λ hh, tab d (λ i, (k_primary_lane key hh i).1))),
     concat (tab h (λ hh, tab d (λ i, (k_primary_lane key hh i).2)))).
Proof.
  intros HB H1 H2. unfold _rabit2_k_primary_kernel.
  rewrite (launch_pair2 h
    (λ head, launch ((d + (B - 1)) / B) (λ b, store_block (head * d + b * B)
       (masked_block B d b (λ i, (k_primary_lane key head i).1))))
    (λ head, launch ((d + (B - 1)) / B) (λ b, store_block (head * d + b * B)
       (masked_block B d b (λ i, (k_primary_lane key head i).2)))))
    by (intros p o; apply (launch_pair _
          (λ b, store_block (p * d + b * B) (masked_block B d b (λ i, (k_primary_lane key p i).1)))
          (λ b, store_block (p * d + b * B) (masked_block B d b (λ i, (k_primary_lane key p i).2))))).
  f_equal; apply launch_rows with (d := d); try done; try (intros; apply tab_length).
  - intros p m Hp Hm. apply launch_masked; [done|]. rewrite Hm, H1. nia.
  - intros p m Hp Hm. apply launch_masked; [done|]. rewrite Hm, H2. nia.
Qed.

(** ** The reference statistics and codes, element by element *)

Lemma nth_grid {A} h d (F : nat → nat → A) a i x :
  (a < h)%nat → (i < d)%nat → nth (a * d + i) (concat (tab h (λ hh, tab d (F hh)))) x = F a i.
Proof.
  intros Ha Hi. rewrite concat_tab, tab_nth by nia.
  assert ((a * d + i) / d = a)%nat as -> by (symmetry; apply (Nat.div_unique _ d _ i); lia).
  assert ((a * d + i) mod d = i)%nat as -> by (symmetry; apply (Nat.mod_unique _ d a); lia). done.
Qed.

Section Page32.
Variables (key : tensor3 f32) (h d : nat).
Hypotheses (Hlen : length (t_rows key) = 32%nat) (Hwf : Forall (wf_row h d) (t_rows key)).

Definition k_col_scale (hh i : nat) : f32 :=
  affine_scale f32_abs_lt_1e8 7 (amin (k_column key hh i)) (amax (k_column key hh i)).

Lemma page_column hh i :
  map (λ row, nth i row f32_zero) (map (λ tok, nth hh tok []) (t_rows key)) = k_column key hh i.
Proof.
  rewrite map_map. rewrite (tab_of_list (t_rows key) [] 32 Hlen) at 1. rewrite map_tab. done.
Qed.

Lemma vec_k_min_tab : vec_k_min d h (t_rows key) = tab h (λ hh, tab d (λ i, amin (k_column key hh i))).
Proof.
  unfold vec_k_min, k_group_min, col_reduce. apply map_ext. intros hh. apply map_ext. intros i.
  by rewrite page_column.
Qed.

Lemma vec_k_scale_tab : vec_k_scale d h (t_rows key) = tab h (λ hh, tab d (k_col_scale hh)).
Proof.
  unfold vec_k_scale, k_group_scale, k_group_min, k_group_max, col_reduce. apply map_ext. intros hh.
  rewrite zip_with_map. apply map_ext. intros i. by rewrite page_column.
Qed.

Lemma vec_k_codes_tab :
  vec_k_codes d h (t_rows key)
  = tab 32 (λ t, tab h (λ hh, tab d (λ i,
      affine_code 7 (amin (k_column key hh i)) (k_col_scale hh i) (at3 key t hh i)))).
Proof.
  unfold vec_k_codes. cbv zeta. rewrite vec_k_min_tab, vec_k_scale_tab.
  rewrite (tab_of_list (t_rows key) [] 32 Hlen) at 1. rewrite map_tab. apply tab_ext. intros t Ht.
  pose proof (Forall_nth_In _ (t_rows key) t [] Hwf ltac:(lia)) as [Htl Htr].
  rewrite (tab_of_list (nth t (t_rows key) []) [] h Htl), zip_with3_tab. apply tab_ext. intros hh Hhh.
  pose proof (Forall_nth_In _ (nth t (t_rows key) []) hh [] Htr ltac:(lia)) as Hrl.
  rewrite (tab_of_list (nth hh (nth t (t_rows key) []) []) f32_zero d Hrl), zip_with3_tab. done.
Qed.
End Page32.

(** ** The K payload *)

Section KPack.
Context {TFL : TorchFloatLaws TF} {TL : TritonLaws TR} {TD : TritonIeee TR}.

(** The lane past the head size never reaches the stored byte. *)
Lemma masked_lane_invisible a c s :
  (s ≤ 1)%nat →
  Z.land (Z.shiftr (Z.lor a (Z.shiftl c 9)) (Z.of_nat s)) 255 = Z.land (Z.shiftr a (Z.of_nat s)) 255.
Proof.
  intros Hs. apply Z.bits_inj'. intros n Hn. rewrite !Z.land_spec, !Z.shiftr_spec by lia.
  change 255%Z with (Z.ones 8). destruct (Z.lt_ge_cases n 8) as [Hlt|?].
  - rewrite Z.lor_spec, (Z.shiftl_spec_low c) by lia. by rewrite orb_false_r.
  - by rewrite !Z.ones_spec_high, !andb_false_r by lia.
Qed.

Lemma k_pack_byte_codes key mins scales d t hh b codes :
  (8 | d)%nat → (b < _kvquant_k3_packed_dim d)%nat → length codes = d →
  (∀ i, (i < d)%nat →
     tl_code_int 7 (nth (hh * d + i) mins f32_zero) (nth (hh * d + i) scales f32_one) (at3 key t hh i)
     = nth i codes 0%Z) →
  k_pack_byte key mins scales d t hh b = k3_kernel_byte d codes b.
Proof.
  intros [q Hq] Hb Hl Hc. unfold k_pack_byte, k3_kernel_byte.
  assert (b < q * 3)%nat as Hbq.
  { unfold _kvquant_k3_packed_dim in Hb. replace (d * 3 + 7)%nat with ((q * 3) * 8 + 7)%nat in Hb by lia.
    rewrite Nat.div_add_l, Nat.div_small in Hb; lia. }
  pose proof (Nat.div_mod_eq (b * 8) 3) as Hd. pose proof (Nat.mod_upper_bound (b * 8) 3 ltac:(lia)) as Hs.
  set (w := (b * 8 / 3)%nat) in *. set (s := (b * 8 mod 3)%nat) in *.
  assert (∀ j, (j < 3)%nat → (w + j < d)%nat) as Hlt by (intros; lia).
  rewrite Z.shiftl_0_r, Z.lor_0_l.
  rewrite !(proj2 (Nat.ltb_lt _ d)) by (apply Hlt; lia). rewrite !Hc by (apply Hlt; lia).
  destruct (Nat.ltb_spec (w + 3) d) as [H3|H3]; [by rewrite Hc|].
  rewrite !masked_lane_invisible by lia. done.
Qed.

Lemma k_pack_kernel_rows key mins scales n h d mem codes :
  (8 | d)%nat → (0 < h)%nat → length mem = (n * h * _kvquant_k3_packed_dim d)%nat →
  (∀ t hh, (t < n)%nat → (hh < h)%nat → length (codes t hh) = d ∧ Forall (code_ok 3) (codes t hh)) →
  (∀ t hh i, (t < n)%nat → (hh < h)%nat → (i < d)%nat →
     tl_code_int 7 (nth (hh * d + i) mins f32_zero) (nth (hh * d + i) scales f32_one) (at3 key t hh i)
     = nth i (codes t hh) 0%Z) →
  _rabit2_k_pack_kernel key mins scales n h d (_kvquant_k3_packed_dim d) mem
  = flat (tab n (λ t, tab h (λ hh, stream_row 3 (_kvquant_k3_packed_dim d) (codes t hh)))).
Proof.
  intros Hd Hh Hm Hok Hc. unfold _rabit2_k_pack_kernel. set (kp := _kvquant_k3_packed_dim d) in *.
  rewrite (launch_rows (n * h) kp (λ p, stream_row 3 kp (codes (p / h)%nat (p mod h)%nat))).
  - unfold flat. rewrite <-concat_concat, concat_tab. done.
  - intros. apply stream_row_length.
  - done.
  - intros p m Hp _. f_equal.
    assert (p / h < n ∧ p mod h < h)%nat as [Ht Hhh]
      by (split; [apply Nat.Div0.div_lt_upper_bound; lia|apply Nat.mod_upper_bound; lia]).
    destruct (Hok _ _ Ht Hhh) as [Lc Fc].
    unfold stream_row. fold (tab kp (λ j, byte_of (λ k, stream_bit 3 (codes (p / h)%nat (p mod h)%nat) (8 * j + k)))).
    apply tab_ext. intros b Hb. rewrite <-k3_kernel_byte_stream by done. rewrite Lc.
    apply k_pack_byte_codes; try done. intros i Hi. by apply Hc.
Qed.
End KPack.

(** ** The V kernels *)

(** The block a V program reduces. *)
Definition v_block (value : tensor3 f32) (t hh q : nat) : list f32 :=
  tab 32 (λ j, at3 value t hh (q * 32 + j)).

Section VPage.
Variables (value : tensor3 f32) (n h g : nat).
Hypotheses (Hlen : length (t_rows value) = n) (Hwf : Forall (wf_row h (g * 32)) (t_rows value)).

Lemma v_rows_tab {B} (F : list f32 → list B) (G : nat → nat → nat → B) m :
  (∀ t hh row, (t < n)%nat → (hh < h)%nat → length row = (g * 32)%nat →
     (∀ i, nth i row f32_zero = at3 value t hh i) → F row = tab m (G t hh)) →
  map (map F) (t_rows value) = tab n (λ t, tab h (λ hh, tab m (G t hh))).
Proof.
  intros HF. rewrite (tab_of_list (t_rows value) [] n Hlen) at 1. rewrite map_tab. apply tab_ext.
  intros t Ht. pose proof (Forall_nth_In _ (t_rows value) t [] Hwf ltac:(lia)) as [Htl Htr].
  rewrite (tab_of_list (nth t (t_rows value) []) [] h Htl) at 1. rewrite map_tab. apply tab_ext.
  intros hh Hhh. pose proof (Forall_nth_In _ (nth t (t_rows value) []) hh [] Htr ltac:(lia)) as Hrl.
  by apply HF.
Qed.

Lemma v_groups_tab t hh row :
  length row = (g * 32)%nat → (∀ i, nth i row f32_zero = at3 value t hh i) →
  v_row_groups GROUP (v_pad_dim_of (g * 32)) row = tab g (v_block value t hh).
Proof.
  intros Hl Hn. assert (v_pad_dim_of (g * 32) = g * 32)%nat as ->.
  { unfold v_pad_dim_of. rewrite Nat.div_add_l, Nat.div_small by lia. lia. }
  unfold v_row_groups, GROUP. rewrite Hl, Nat.sub_diag, app_nil_r, Nat.div_mul by lia.
  rewrite (view2_tab g 32 row f32_zero Hl). apply tab_ext. intros q _. apply tab_ext. intros j _. apply Hn.
Qed.

Lemma v_mins_tab :
  v_mins (g * 32) (t_rows value) = tab n (λ t, tab h (λ hh, tab g (λ q, amin (v_block value t hh q)))).
Proof.
  unfold v_mins. apply v_rows_tab. intros t hh row _ _ Hl Hn. unfold v_row_min.
  by rewrite (v_groups_tab t hh row Hl Hn), map_tab.
Qed.

Lemma v_scales_tab :
  v_scales (g * 32) (t_rows value)
  = tab n (λ t, tab h (λ hh, tab g (λ q, v_group_scale (v_block value t hh q)))).
Proof.
  unfold v_scales. apply v_rows_tab. intros t hh row _ _ Hl Hn. unfold v_row_scale.
  by rewrite (v_groups_tab t hh row Hl Hn), map_tab.
Qed.

Lemma v_codes_tab :
  v_codes (g * 32) (t_rows value)
  = tab n (λ t, tab h (λ hh, tab (g * 32) (λ k,
      affine_code 3 (amin (v_block value t hh (k / 32))) (v_group_scale (v_block value t hh (k / 32)))
        (at3 value t hh k)))).
Proof.
  unfold v_codes. apply v_rows_tab. intros t hh row _ _ Hl Hn. unfold v_row_codes.
  rewrite (v_groups_tab t hh row Hl Hn), map_tab. unfold v_group_codes.
  rewrite (tab_ext _ _ (λ q, tab 32 (λ j, affine_code 3 (amin (v_block value t hh q))
    (v_group_scale (v_block value t hh q)) (at3 value t hh (q * 32 + j)))))
    by (intros q _; apply map_tab).
  rewrite concat_tab. apply tab_ext. intros k _.
  replace (k / 32 * 32 + k mod 32)%nat with k by (rewrite (Nat.div_mod_eq k 32) at 1; lia). done.
Qed.
End VPage.

Lemma v_primary_kernel_tab value n h d g (out : list f32 * list f32) :
  length out.1 = (n * h * g)%nat → length out.2 = (n * h * g)%nat →
  _rabit2_v_primary_kernel value n h d g out
  = (concat (tab (n * h) (λ r, tab g (λ q, (v_primary_lane value d (r / h) (r mod h) q).1))),
     concat (tab (n * h) (λ r, tab g (λ q, (v_primary_lane value d (r / h) (r mod h) q).2)))).
Proof.
  intros H1 H2. unfold _rabit2_v_primary_kernel.
  rewrite (launch_pair2 (n * h)
    (λ r, launch g (λ q, store_block (r * g + q * 1) [(v_primary_lane value d (r / h) (r mod h) q).1]))
    (λ r, launch g (λ q, store_block (r * g + q * 1) [(v_primary_lane value d (r / h) (r mod h) q).2])))
    by (intros p o; apply (launch_pair _
          (λ q, store_block (p * g + q * 1) [(v_primary_lane value d (p / h) (p mod h) q).1])
          (λ q, store_block (p * g + q * 1) [(v_primary_lane value d (p / h) (p mod h) q).2]))).
  f_equal; apply launch_rows with (d := g); try done; try (intros; apply tab_length).
  - intros p m Hp Hm. rewrite launch_blocks; [by rewrite <-concat_tab_one|done|]. rewrite Hm, H1. nia.
  - intros p m Hp Hm. rewrite launch_blocks; [by rewrite <-concat_tab_one|done|]. rewrite Hm, H2. nia.
Qed.

Section VPack.
Context {TFL : TorchFloatLaws TF} {TL : TritonLaws TR} {TD : TritonIeee TR}.

Lemma v_pack_kernel_rows value mins scales n h g mem codes :
  (0 < h)%nat → length mem = (n * h * (g * 8))%nat →
  (∀ t hh, (t < n)%nat → (hh < h)%nat → Forall (code_ok 2) (codes t hh)) →
  (∀ t hh k, (t < n)%nat → (hh < h)%nat → (k < g * 32)%nat →
     tl_code_int 3 (nth ((t * h + hh) * g + k / 32) mins f32_zero)
       (nth ((t * h + hh) * g + k / 32) scales f32_one) (at3 value t hh k)
     = nth k (codes t hh) 0%Z) →
  _rabit2_v_pack_kernel value mins scales n h (g * 32) g (g * 8) mem
  = flat (tab n (λ t, tab h (λ hh, stream_row 2 (g * 8) (codes t hh)))).
Proof.
  intros Hh Hm Hok Hc. unfold _rabit2_v_pack_kernel.
  rewrite (launch_rows (n * h) (g * 8) (λ p, stream_row 2 (g * 8) (codes (p / h)%nat (p mod h)%nat))).
  - unfold flat. rewrite <-concat_concat, concat_tab. done.
  - intros. apply stream_row_length.
  - done.
  - intros p m Hp _. f_equal.
    assert (p / h < n ∧ p mod h < h)%nat as [Ht Hhh]
      by (split; [apply Nat.Div0.div_lt_upper_bound; lia|apply Nat.mod_upper_bound; lia]).
    rewrite <-v2_pack_row_stream by (by apply Hok). unfold v2_pack_row.
    fold (tab (g * 8) (λ b, v2_byte (nth (4 * b) (codes (p / h)%nat (p mod h)%nat) 0%Z)
      (nth (4 * b + 1) (codes (p / h)%nat (p mod h)%nat) 0%Z)
      (nth (4 * b + 2) (codes (p / h)%nat (p mod h)%nat) 0%Z)
      (nth (4 * b + 3) (codes (p / h)%nat (p mod h)%nat) 0%Z))).
    apply tab_ext. intros b Hb. unfold v_pack_byte.
    assert (∀ j, (j < 4)%nat →
      tl_code_int 3 (nth ((p / h * h + p mod h) * g + b * 4 / 32) mins f32_zero)
        (nth ((p / h * h + p mod h) * g + b * 4 / 32) scales f32_one)
        (if (b * 4 + j <? g * 32)%nat then at3 value (p / h) (p mod h) (b * 4 + j) else f32_zero)
      = nth (4 * b + j) (codes (p / h)%nat (p mod h)%nat) 0%Z) as Hq.
    { intros j Hj. rewrite (proj2 (Nat.ltb_lt _ _)) by lia. rewrite <-Hc by (done || lia).
      assert (b * 4 / 32 = (4 * b + j) / 32)%nat as ->.
      { pose proof (Nat.div_mod_eq b 8) as E. pose proof (Nat.mod_upper_bound b 8 ltac:(lia)).
        rewrite <-(Nat.div_unique (b * 4) 32 (b / 8) (4 * (b mod 8))) by lia.
        by rewrite <-(Nat.div_unique (4 * b + j) 32 (b / 8) (4 * (b mod 8) + j)) by lia. }
      by replace (b * 4 + j)%nat with (4 * b + j)%nat by lia. }
    rewrite !Hq by lia. by rewrite Nat.add_0_r.
Qed.
End VPack.

(** ** Metadata *)

Lemma copy_parts_store err parts page :
  copy_parts parts page = store_parts err (map (λ p, (p.1, Z.of_nat (length p.2), p.2)) parts) page.
Proof.
  revert page. induction parts as [|[pos x] parts IH]; intros page; [done|].
  cbn [copy_parts map store_parts fst snd]. rewrite Z.eqb_refl. cbn [negb raise_if]. rewrite result_bind_ok.
  destruct (store_region page pos (Z.of_nat (length x)) x); [|done]. by rewrite !result_bind_ok.
Qed.

Definition sized (p : Z * list Z) : Z * Z * list Z := (p.1, Z.of_nat (length p.2), p.2).

Definition meta_bytes_of (m : list Z * list Z * list Z) : list Z :=
  m.1.1 ++ _tensor_as_bytes m.1.2 ++ _tensor_as_bytes m.2.

Lemma consecutive_meta o off m rest :
  off = Z.of_nat o → consecutive (o + length (meta_bytes_of m)) rest →
  consecutive o (map sized (meta_parts_at off m) ++ rest).
Proof.
  intros -> H. destruct m as [[c mn] sc]. unfold meta_bytes_of in H. cbn [fst snd] in H.
  rewrite !length_app in H. unfold meta_parts_at, sized. cbn [map app fst snd consecutive].
  split; [done|]. split; [done|]. split; [lia|]. split; [done|]. split; [lia|]. split; [done|].
  by replace (o + length c + length (_tensor_as_bytes mn) + length (_tensor_as_bytes sc))%nat
    with (o + (length c + (length (_tensor_as_bytes mn) + length (_tensor_as_bytes sc))))%nat by lia.
Qed.

Lemma meta_parts_bytes off m : concat (map snd (meta_parts_at off m)) = meta_bytes_of m.
Proof. destruct m as [[c mn] sc]. unfold meta_parts_at, meta_bytes_of. cbn. by rewrite app_nil_r. Qed.

Section MetaKernel.
Context {TL : TritonLaws TR} {TD : TritonIeee TR}.

Definition meta_regular (primary : list f32) : Prop :=
  ∀ q, (q < length primary / 64)%nat → tl_regular (meta_block primary q).

Lemma meta_blocks primary :
  (64 | length primary)%nat →
  rows_of META_GROUP (meta_padded META_GROUP primary) = tab (length primary / 64) (meta_block primary).
Proof.
  intros [G HG]. unfold meta_padded, META_GROUP.
  rewrite pad_to_multiple by (lia || by exists G). cbn [replicate]. rewrite app_nil_r.
  unfold rows_of. rewrite HG, Nat.div_mul by lia. by rewrite (view2_tab G 64 primary f32_zero) by lia.
Qed.

Lemma encode_meta_triton_ok primary :
  (64 | length primary)%nat → meta_regular primary →
  ∃ m, _rabit2_encode_meta_triton primary = Ok m ∧ meta_bytes_of m = meta_blob_page primary.
Proof.
  intros HD Hreg. pose proof (meta_blocks primary HD) as HB. pose proof HD as [G HG].
  unfold _rabit2_encode_meta_triton, META_GROUP. rewrite HG, Nat.Div0.mod_mul, Nat.div_mul by lia.
  rewrite HG, Nat.div_mul in HB by lia. unfold meta_regular in Hreg. rewrite HG, Nat.div_mul in Hreg by lia.
  cbn [Nat.eqb negb raise_if]. rewrite result_bind_ok. eexists. split; [reflexivity|].
  unfold _rabit2_meta_encode_kernel.
  pose (codes := λ q, let x := meta_block primary q in
    map (tl_code_int 255 (tl_min x) (tl_scale f32_abs_lt_1e12 255 (tl_min x) (tl_max x))) x).
  pose (mins := λ q, bf16_of_f32 (tl_min (meta_block primary q))).
  pose (scs := λ q, let x := meta_block primary q in
    bf16_of_f32 (tl_scale f32_abs_lt_1e12 255 (tl_min x) (tl_max x))).
  rewrite (launch_pair2 G
    (λ q o, (store_block (q * 64) (codes q) o.1, store_block (q * 1) [mins q] o.2))
    (λ q, store_block (q * 1) [scs q])) by done.
  rewrite (launch_pair G (λ q, store_block (q * 64) (codes q)) (λ q, store_block (q * 1) [mins q])).
  cbn [fst snd].
  rewrite (launch_fill G 64 codes), (launch_fill G 1 (λ q, [mins q])), (launch_fill G 1 (λ q, [scs q]))
    by (intros; unfold codes, meta_block; rewrite ?length_map, ?tab_length, ?empty_int_length; (done || lia)).
  unfold meta_bytes_of, meta_blob_page, _tensor_as_bytes. cbn [fst snd]. rewrite HB, !map_tab.
  f_equal; [|f_equal].
  - f_equal. apply tab_ext. intros q Hq. unfold codes, meta_codes_of, meta_min_of, meta_scale_of.
    apply tl_codes_int; [tauto|by apply Hreg].
  - rewrite concat_tab_one, map_tab. f_equal. apply tab_ext. intros q Hq. unfold mins, meta_min_of.
    by rewrite tl_min_amin by (by apply Hreg).
  - rewrite concat_tab_one, map_tab. f_equal. apply tab_ext. intros q Hq. unfold scs, meta_scale_of.
    by rewrite tl_scale_affine by (tauto || by apply Hreg).
Qed.
End MetaKernel.

(** ** The page *)

Section PageWrite.
Context {TFL : TorchFloatLaws TF} {TL : TritonLaws TR} {TD : TritonIeee TR}.

(** Every block a kernel reduces while it writes the page is ordinary: the K
    columns, the V groups and the four metadata tensors. *)
Definition page_regular (key value : tensor3 f32) : Prop :=
  let h := t_heads key in
  let d := t_dim key in
  (∀ hh i, (hh < h)%nat → (i < d)%nat → tl_regular (k_column key hh i))
  ∧ (∀ t hh q, (t < t_tokens value)%nat → (hh < h)%nat → (q < d / 32)%nat → tl_regular (v_block value t hh q))
  ∧ meta_regular (concat (vec_k_min d h (t_rows key)))
  ∧ meta_regular (concat (vec_k_scale d h (t_rows key)))
  ∧ meta_regular (flat (v_mins d (t_rows value)))
  ∧ meta_regular (flat (v_scales d (t_rows value))).

Section Parts.
Variables (key value : tensor3 f32) (h g : nat).
Let d := (g * 32)%nat.
Hypotheses (Hh : (0 < h)%nat) (Hg : (0 < g)%nat) (Hk : length (t_rows key) = 32%nat)
  (Hv : length (t_rows value) = 32%nat) (Wk : Forall (wf_row h d) (t_rows key))
  (Wv : Forall (wf_row h d) (t_rows value))
  (Rk : ∀ hh i, (hh < h)%nat → (i < d)%nat → tl_regular (k_column key hh i))
  (Rv : ∀ t hh q, (t < 32)%nat → (hh < h)%nat → (q < g)%nat → tl_regular (v_block value t hh q)).

Lemma k_kernel_outputs B :
  (0 < B)%nat →
  _rabit2_k_primary_kernel key h d B (empty_float (h * d), empty_float (h * d))
  = (concat (vec_k_min d h (t_rows key)), concat (vec_k_scale d h (t_rows key))).
Proof.
  intros HB. rewrite k_primary_kernel_tab by (done || apply empty_float_length).
  rewrite (vec_k_min_tab key h d Hk), (vec_k_scale_tab key h d Hk).
  f_equal; f_equal; apply tab_ext; intros hh Hhh; apply tab_ext; intros i Hi;
    unfold k_primary_lane; cbn [fst snd]; fold (k_column key hh i).
  - apply tl_min_amin. by apply Rk.
  - apply tl_scale_affine; [by apply Rk|tauto].
Qed.

Lemma k_payload_kernel mem :
  length mem = (32 * h * _kvquant_k3_packed_dim d)%nat →
  _rabit2_k_pack_kernel key (concat (vec_k_min d h (t_rows key))) (concat (vec_k_scale d h (t_rows key)))
    32 h d (_kvquant_k3_packed_dim d) mem
  = flat (map (map (stream_row 3 (_kvquant_k3_packed_dim d))) (vec_k_codes d h (t_rows key))).
Proof.
  intros Hm. rewrite (vec_k_codes_tab key h d Hk Wk), (vec_k_min_tab key h d Hk), (vec_k_scale_tab key h d Hk).
  rewrite (k_pack_kernel_rows key _ _ 32 h d mem (λ t hh, tab d (λ i,
    affine_code 7 (amin (k_column key hh i)) (k_col_scale key hh i) (at3 key t hh i)))); try done.
  - f_equal. rewrite map_tab. apply tab_ext. intros t _. by rewrite map_tab.
  - exists (g * 4)%nat. unfold d. lia.
  - intros t hh _ _. split; [apply tab_length|]. unfold tab. rewrite Forall_map.
    apply List.Forall_forall. intros i _.
    pose proof (affine_code_range 7 (amin (k_column key hh i)) (k_col_scale key hh i) (at3 key t hh i) ltac:(lia)).
    unfold code_ok. lia.
  - intros t hh i Ht Hhh Hi. rewrite !nth_grid, tab_nth by done. unfold k_col_scale.
    apply tl_code_int_affine; [lia|by apply Rk|]. unfold k_column, tab. apply list_elem_of_In, in_map_iff.
    exists t. split; [done|]. apply in_seq. lia.
Qed.

Lemma v_kernel_outputs :
  _rabit2_v_primary_kernel value 32 h d g (empty_float (32 * h * g), empty_float (32 * h * g))
  = (flat (v_mins d (t_rows value)), flat (v_scales d (t_rows value))).
Proof.
  rewrite v_primary_kernel_tab by apply empty_float_length.
  unfold d. rewrite (v_mins_tab value 32 h g Hv Wv), (v_scales_tab value 32 h g Hv Wv). unfold flat.
  rewrite (concat_tab2 32 h g (λ t hh q, amin (v_block value t hh q))),
    (concat_tab2 32 h g (λ t hh q, v_group_scale (v_block value t hh q))).
  assert (∀ r q, (r < 32 * h)%nat → (q < g)%nat →
            tab 32 (λ j, if (q * 32 + j <? g * 32)%nat then at3 value (r / h) (r mod h) (q * 32 + j) else f32_zero)
            = v_block value (r / h) (r mod h) q ∧ tl_regular (v_block value (r / h) (r mod h) q)) as HB.
  { intros r q Hr Hq. split.
    - apply tab_ext. intros j Hj. by rewrite (proj2 (Nat.ltb_lt _ _)) by lia.
    - apply Rv; [apply Nat.Div0.div_lt_upper_bound; lia|apply Nat.mod_upper_bound; lia|done]. }
  f_equal; f_equal; apply tab_ext; intros r Hr; apply tab_ext; intros q Hq;
    unfold v_primary_lane; cbn [fst snd]; destruct (HB r q Hr Hq) as [-> Hreg].
  - by apply tl_min_amin.
  - apply tl_scale_affine; [done|tauto].
Qed.

Lemma v_payload_kernel mem :
  length mem = (32 * h * (g * 8))%nat →
  _rabit2_v_pack_kernel value (flat (v_mins d (t_rows value))) (flat (v_scales d (t_rows value)))
    32 h d g (g * 8) mem
  = flat (v_packed_rows d (t_rows value)).
Proof.
  intros Hm. unfold d, v_packed_rows.
  rewrite (v_codes_tab value 32 h g Hv Wv), (v_mins_tab value 32 h g Hv Wv), (v_scales_tab value 32 h g Hv Wv).
  assert ((v_pad_dim_of (g * 32) * 2 + 7) / 8 = g * 8)%nat as ->.
  { unfold v_pad_dim_of. rewrite Nat.div_add_l, (Nat.div_small 31) by lia.
    replace ((g + 0) * 32 * 2 + 7)%nat with (g * 8 * 8 + 7)%nat by lia. rewrite Nat.div_add_l, Nat.div_small; lia. }
  rewrite (v_pack_kernel_rows value _ _ 32 h g mem (λ t hh, tab (g * 32) (λ k,
    affine_code 3 (amin (v_block value t hh (k / 32))) (v_group_scale (v_block value t hh (k / 32)))
      (at3 value t hh k)))); try done.
  - f_equal. rewrite map_tab. apply tab_ext. intros t _. by rewrite map_tab.
  - intros t hh _ _. unfold tab. rewrite Forall_map. apply List.Forall_forall. intros k _.
    pose proof (affine_code_range 3 (amin (v_block value t hh (k / 32)))
      (v_group_scale (v_block value t hh (k / 32))) (at3 value t hh k) ltac:(lia)).
    unfold code_ok. lia.
  - intros t hh k Ht Hhh Hk'.
    assert (k / 32 < g)%nat as Hq by (apply Nat.Div0.div_lt_upper_bound; lia).
    assert (∀ F : nat → nat → nat → f32, ∀ x,
      nth ((t * h + hh) * g + k / 32) (flat (tab 32 (λ t, tab h (λ hh, tab g (F t hh))))) x = F t hh (k / 32)%nat)
      as Hn.
    { intros F x. unfold flat. rewrite concat_tab2.
      rewrite (nth_grid (32 * h) g (λ p, F (p / h)%nat (p mod h)%nat)) by nia.
      assert ((t * h + hh) / h = t)%nat as -> by (symmetry; apply (Nat.div_unique _ h _ hh); lia).
      assert ((t * h + hh) mod h = hh)%nat as -> by (symmetry; apply (Nat.mod_unique _ h t); lia). done. }
    rewrite !Hn, tab_nth by lia. unfold v_group_scale. apply tl_code_int_affine; [lia|by apply Rv|].
    unfold v_block, tab. apply list_elem_of_In, in_map_iff. exists (k mod 32)%nat. split.
    + f_equal. rewrite (Nat.div_mod_eq k 32) at 3. lia.
    + apply in_seq. pose proof (Nat.mod_upper_bound k 32 ltac:(lia)). lia.
Qed.
End Parts.

(** The six regions in kernel form are the parts of the reference page. *)
Lemma kernel_parts_consecutive layout k0 v0 m1 m2 m3 m4 b1 b2 b3 b4 :
  meta_bytes_of m1 = b1 → meta_bytes_of m2 = b2 → meta_bytes_of m3 = b3 → meta_bytes_of m4 = b4 →
  consecutive 0 (page_parts layout k0 v0 b1 b2 b3 b4) →
  let parts := [(k_payload_offset layout, k0); (v_payload_offset layout, v0)]
     ++ meta_parts_at (k_min_offset layout) m1 ++ meta_parts_at (k_scale_offset layout) m2
     ++ meta_parts_at (v_min_offset layout) m3 ++ meta_parts_at (v_scale_offset layout) m4 in
  consecutive 0 (map sized parts)
  ∧ concat (map snd (map sized parts)) = concat (map snd (page_parts layout k0 v0 b1 b2 b3 b4)).
Proof.
  intros <- <- <- <- HC parts. unfold page_parts in *. cbn [consecutive map snd concat] in *.
  destruct HC as (O0 & S0 & O1 & S1 & O2 & S2 & O3 & S3 & O4 & S4 & O5 & S5 & _). split.
  - unfold parts. rewrite !map_app. cbn [map app sized fst snd consecutive].
    split; [done|]. split; [done|]. split; [done|]. split; [done|].
    apply (consecutive_meta _ _ m1); [exact O2|]. apply (consecutive_meta _ _ m2); [exact O3|].
    apply (consecutive_meta _ _ m3); [exact O4|].
    rewrite <-(app_nil_r (map sized (meta_parts_at _ m4))). by apply (consecutive_meta _ _ m4 []).
  - rewrite map_map. change (λ x, snd (sized x)) with (λ x : Z * list Z, snd x).
    unfold parts. rewrite !map_app, !concat_app, !meta_parts_bytes. cbn [map snd concat]. by rewrite !app_nil_r, <-!app_assoc.
Qed.


Section Kernels.
Variables (h g : nat) (krows vrows : list (list (list f32))).
Let d := (g * 32)%nat.
Let key := mkTensor3 h d krows.
Let value := mkTensor3 h d vrows.
Hypotheses (Hh : (0 < h)%nat) (Hg : (0 < g)%nat) (H64 : (64 | h * d)%nat)
  (Hk : length krows = 32%nat ∧ Forall (wf_row h d) krows)
  (Hv : length vrows = 32%nat ∧ Forall (wf_row h d) vrows).

(** The primary tensors fill whole metadata groups. *)
Lemma primary_lengths :
  length (concat (vec_k_min d h krows)) = (h * d)%nat ∧ length (concat (vec_k_scale d h krows)) = (h * d)%nat
  ∧ length (flat (v_mins d vrows)) = (h * d)%nat ∧ length (flat (v_scales d vrows)) = (h * d)%nat.
Proof.
  destruct Hk as [Lk _], Hv as [Lv Wv].
  assert (32 * h * g = h * d)%nat as E by (unfold d; lia).
  pose proof (vec_k_min_tab key h d Lk) as E1. pose proof (vec_k_scale_tab key h d Lk) as E2.
  pose proof (v_mins_tab value 32 h g Lv Wv) as E3. pose proof (v_scales_tab value 32 h g Lv Wv) as E4.
  cbn [key value t_rows] in E1, E2, E3, E4. fold d in E3, E4. rewrite E1, E2, E3, E4. unfold flat.
  rewrite (concat_tab2 32 h g (λ t hh q, amin (v_block value t hh q))),
    (concat_tab2 32 h g (λ t hh q, v_group_scale (v_block value t hh q))), !concat_tab, !tab_length, E.
  done.
Qed.

Lemma v_regular :
  page_regular key value →
  ∀ t hh q, (t < 32)%nat → (hh < h)%nat → (q < g)%nat → tl_regular (v_block value t hh q).
Proof.
  intros (_ & Rv & _) t hh q Ht Hhh Hq. destruct Hv as [Lv _]. apply Rv; [|done|].
  - unfold t_tokens. cbn [value t_rows]. lia.
  - cbn [key t_dim]. unfold d. rewrite Nat.div_mul; lia.
Qed.

(** The payload kernels write the payloads of the reference page. *)
Lemma kernel_payloads m1 m2 :
  page_regular key value →
  length m1 = (32 * h * _kvquant_k3_packed_dim d)%nat → length m2 = (32 * h * (g * 8))%nat →
  _rabit2_k_pack_kernel key (concat (vec_k_min d h krows)) (concat (vec_k_scale d h krows))
    32 h d (_kvquant_k3_packed_dim d) m1 = flat (k_payload_rows h d krows)
  ∧ _rabit2_v_pack_kernel value (flat (v_mins d vrows)) (flat (v_scales d vrows)) 32 h d g (g * 8) m2
    = flat (v_packed_rows d vrows).
Proof.
  intros HR L1 L2. pose proof HR as (Rk & _ & _). cbn [key t_heads t_dim] in Rk.
  destruct Hk as [Lk Wk], Hv as [Lv Wv]. split.
  - unfold k_payload_rows. rewrite <-(vec_codes_rows h d krows) by done.
    by apply (k_payload_kernel key value h g).
  - apply (v_payload_kernel key value h g); try done. by apply v_regular.
Qed.

(** The metadata kernels write the blobs of the reference page. *)
Lemma kernel_metas m :
  page_regular key value → page_meta_ok GROUP h d d krows vrows m →
  ∃ m1 m2 m3 m4,
    _rabit2_encode_meta_triton (concat (vec_k_min d h krows)) = Ok m1
    ∧ _rabit2_encode_meta_triton (concat (vec_k_scale d h krows)) = Ok m2
    ∧ _rabit2_encode_meta_triton (flat (v_mins d vrows)) = Ok m3
    ∧ _rabit2_encode_meta_triton (flat (v_scales d vrows)) = Ok m4
    ∧ meta_bytes_of m1 = encode_metadata_blob_ref (pm_kmin m)
    ∧ meta_bytes_of m2 = encode_metadata_blob_ref (pm_kscale m)
    ∧ meta_bytes_of m3 = encode_metadata_blob_ref (pm_vmin m)
    ∧ meta_bytes_of m4 = encode_metadata_blob_ref (pm_vscale m).
Proof.
  intros (_ & _ & R1 & R2 & R3 & R4) (E1 & E2 & E3 & E4). cbn [key value t_heads t_dim t_rows] in R1, R2, R3, R4.
  destruct primary_lengths as (D1 & D2 & D3 & D4). assert (0 < h * d)%nat as Hp by (unfold d; nia).
  rewrite <-(vec_k_min_primary h d krows) in E1 by done.
  rewrite <-(vec_k_scale_primary h d krows) in E2 by done.
  destruct (encode_meta_triton_ok (concat (vec_k_min d h krows))) as (m1 & X1 & B1); [by rewrite D1|done|].
  destruct (encode_meta_triton_ok (concat (vec_k_scale d h krows))) as (m2 & X2 & B2); [by rewrite D2|done|].
  destruct (encode_meta_triton_ok (flat (v_mins d vrows))) as (m3 & X3 & B3); [by rewrite D3|done|].
  destruct (encode_meta_triton_ok (flat (v_scales d vrows))) as (m4 & X4 & B4); [by rewrite D4|done|].
  exists m1, m2, m3, m4. rewrite B1, B2, B3, B4.
  split_and!; try done; eapply meta_blob_page_ref; (exact E1 || exact E2 || exact E3 || exact E4 || lia).
Qed.

Lemma encode_triton_page m :
  page_regular key value → page_meta_ok GROUP h d d krows vrows m →
  encode_rabit2_page_triton_experimental true key value None
  = Ok (concat (map snd (page_parts_of GROUP h d d krows vrows m))).
Proof.
  intros HR Hm. pose proof HR as (Rk & _). cbn [key t_heads t_dim] in Rk.
  pose proof Hk as [Lk Wk]. pose proof Hv as [Lv Wv].
  assert (0 < GROUP)%nat as H0 by (unfold GROUP; lia). assert (32 | GROUP)%nat as H32 by (by exists 1%nat).
  assert (meta_aligned GROUP h d d) as Hal.
  { apply runtime_geometry_aligned. split; [unfold d; lia|]. split; [by exists g|done]. }
  destruct (page_parts_consecutive GROUP h d d krows vrows H0 H32 Hk Hv Hal m Hm) as (HC & HP & _).
  destruct (page_part_lengths GROUP h d d krows vrows H0 H32 Hk Hv m Hm) as (L0 & L1 & _).
  pose proof HC as HC'. unfold page_parts_of, page_parts in HC'. cbn [consecutive] in HC'.
  destruct HC' as (_ & S0 & _ & S1 & _). rewrite L0 in S0. rewrite L1 in S1. clear L0 L1.
  destruct (kernel_metas m HR Hm) as (m1 & m2 & m3 & m4 & E1 & E2 & E3 & E4 & B1 & B2 & B3 & B4).
  pose proof (k_kernel_outputs key h g Lk Rk (128 `min` 2 ^ Nat.log2_up d)) as EK.
  pose proof (v_kernel_outputs key value h g Hh Hg Lk Lv Wv (v_regular HR)) as EV.
  cbn [key value t_rows] in EK, EV. fold d in EK, EV.
  unfold encode_rabit2_page_triton_experimental.
  assert (shape_eqb key value = true) as ->.
  { apply shape_eqb_spec. unfold t_tokens. cbn [key value t_heads t_dim t_rows]. by rewrite Lk, Lv. }
  unfold t_tokens, key, value. cbn [t_heads t_dim t_rows]. rewrite Lk.
  rewrite (rabit2_page_layout_nat 32 h d d) by (unfold d; lia || done).
  cbn [negb raise_if]. rewrite !result_bind_ok.
  pose proof (validate_layout_of h g [] Hh Hg H64) as HVL. change GROUP with 32%nat in *. fold d in HVL.
  rewrite HVL, result_bind_ok.
  destruct (layout_of_fields 32 h d d) as (F1 & F2 & F3 & F4). rewrite F1, F2, F3, F4.
  rewrite !Z.eqb_refl, !Nat2Z.id. cbn [andb negb raise_if]. rewrite result_bind_ok. cbv zeta.
  assert (Z.to_nat (Z.of_nat d / RABIT2_GROUP_SIZE) = g) as ->.
  { unfold RABIT2_GROUP_SIZE, d. rewrite Nat2Z.inj_mul, Z.div_mul by lia. apply Nat2Z.id. }
  fold key value. rewrite EK, EV.
  2: { apply Nat.min_glb_lt; [lia|]. pose proof (Nat.pow_nonzero 2 (Nat.log2_up d)). lia. }
  rewrite E1, result_bind_ok, E2, result_bind_ok, E3, result_bind_ok, E4, result_bind_ok.
  assert ((d * 2 + 7) / 8 = g * 8)%nat as ->.
  { unfold d. replace (g * 32 * 2 + 7)%nat with (g * 8 * 8 + 7)%nat by lia. rewrite Nat.div_add_l, Nat.div_small; lia. }
  rewrite S0, S1, <-HP, !Nat2Z.id.
  destruct (kernel_payloads (empty_int (32 * h * packed_dim_nat d 3))
    (empty_int (32 * h * packed_dim_nat (v_groups_nat d * 32) 2)) HR) as [-> ->].
  { apply empty_int_length. }
  { rewrite empty_int_length. unfold packed_dim_nat, v_groups_nat, d.
    rewrite (Nat.div_add_l g 32 31), (Nat.div_small 31), Nat.add_0_r by lia.
    replace (g * 32 * 2 + 7)%nat with (g * 8 * 8 + 7)%nat by lia. rewrite Nat.div_add_l, Nat.div_small; lia. }
  unfold page_parts_of in *.
  destruct (kernel_parts_consecutive _ _ _ _ _ _ _ _ _ _ _ B1 B2 B3 B4 HC) as [HK HE].
  rewrite copy_parts_store with (err := ValueError). fold sized. rewrite <-HE.
  apply store_parts_consecutive; [exact HK|]. by rewrite empty_int_length, HE.
Qed.

Lemma encode_ref_page m :
  page_meta_ok GROUP h d d krows vrows m →
  encode_rabit2_page_ref key value None
  = Ok (concat (map snd (page_parts_of GROUP h d d krows vrows m))).
Proof.
  intros Hm. pose proof Hk as [Lk Wk]. pose proof Hv as [Lv Wv].
  assert (0 < GROUP)%nat as H0 by (unfold GROUP; lia). assert (32 | GROUP)%nat as H32 by (by exists 1%nat).
  assert (meta_aligned GROUP h d d) as Hal.
  { apply runtime_geometry_aligned. split; [unfold d; lia|]. split; [by exists g|done]. }
  destruct (page_parts_consecutive GROUP h d d krows vrows H0 H32 Hk Hv Hal m Hm) as (HC & _ & HZ).
  rewrite encode_page_ref_from_primary.
  - unfold value. rewrite v_primary_quantize by done.
    rewrite result_bind_ok. cbn [fst snd]. unfold page_layout_of, t_tokens, key. cbn [t_heads t_dim t_rows].
    rewrite Lk. pose proof (page_from_primary_parts GROUP h d d krows vrows H0 H32 Hk Hv ValueError m Hm) as E.
    change GROUP with 32%nat in *. rewrite E. apply store_parts_consecutive; [done|]. by rewrite HZ, length_replicate.
  - unfold page_input, wf_tensor3, t_tokens, key, value. cbn [t_heads t_dim t_rows].
    split; [done|]. split; [done|]. split; [apply shape_eqb_spec; unfold t_tokens; cbn; by rewrite Lk, Lv|].
    rewrite Lk. unfold d. split; [lia|]. split; [by exists 1%nat|]. lia.
Qed.
End Kernels.

(** The encode kernels write the reference page.  For every accepted geometry
    and every 32-token pair whose reduced blocks are ordinary numbers, the
    statistics, packing and metadata kernels of the Triton writer, run over
    uninitialised buffers, succeed with the very bytes of
    [encode_rabit2_page_ref] if their division is IEEE division; the exact CUDA
    writer calls that encoder. *)
Theorem encode_kernels_are_reference (key value : tensor3 f32) :
  wf_tensor3 key → wf_tensor3 value → shape_eqb key value = true → t_tokens key = GROUP →
  runtime_geometry (t_heads key) (t_dim key) → page_regular key value →
  ∃ page, encode_rabit2_page_triton_experimental true key value None = Ok page
          ∧ encode_rabit2_page_exact_cuda true key value None = Ok page
          ∧ encode_rabit2_page_ref key value None = Ok page.
Proof.
  destruct key as [h d krows], value as [h' d' vrows]. unfold wf_tensor3. cbn [t_heads t_dim t_rows].
  intros Wk Wv (Et & Eh & Ed)%shape_eqb_spec Ht ([Hh Hd] & [g ->] & H64) HR.
  unfold t_tokens in *. cbn [t_rows t_heads t_dim] in *. subst h' d'.
  assert (0 < g)%nat as Hg by lia. rewrite Ht in Et.
  destruct (page_meta_exists GROUP h (g * 32) (g * 32) krows vrows) as (m & Hm & _).
  eexists. split; [|split].
  - by apply encode_triton_page.
  - unfold encode_rabit2_page_exact_cuda. cbn [negb raise_if]. rewrite result_bind_ok. by apply encode_ref_page.
  - by apply encode_ref_page.
Qed.
End PageWrite.
End EncodeKernel.

Section Concrete.
#[local] Existing Instance FixedTorch.
#[local] Existing Instance FixedTriton.

(** A 32-token tensor of one head of 64 channels, all equal to [v]. *)
Definition fixed_tensor (v : Z) : tensor3 f32 :=
  mkTensor3 1 64 (replicate 32 (replicate 1 (replicate 64 (f32_of_int v)))).

Lemma fixed_tensor_wf v : wf_tensor3 (fixed_tensor v).
Proof. apply Forall_replicate. split; [done|]. apply Forall_replicate, length_replicate. Qed.

(** One head of 64 channels. *)
Lemma encode_kernels_are_reference_witness :
  ∃ page, encode_rabit2_page_triton_experimental (TE := zero_memory) true
            (fixed_tensor 3) (fixed_tensor (-2)) None = Ok page
          ∧ encode_rabit2_page_exact_cuda true (fixed_tensor 3) (fixed_tensor (-2)) None = Ok page
          ∧ encode_rabit2_page_ref (fixed_tensor 3) (fixed_tensor (-2)) None = Ok page.
Proof.
  apply (encode_kernels_are_reference (TE := zero_memory) (TFL := FixedTorch_laws) (TL := FixedTriton_laws) (TD := FixedTriton_ieee)
           (fixed_tensor 3) (fixed_tensor (-2))).
  - apply fixed_tensor_wf.
  - apply fixed_tensor_wf.
  - reflexivity.
  - reflexivity.
  - apply one_head_runtime.
  - repeat split.
Defined.
End Concrete.
