(* ===== verification/Stores.v ===== *)
(** * Sequences of stores

    What a kernel grid or an indexed assignment leaves in a flat memory, when its
    effect is a list of stores: a cell holds what every store that covers it agrees
    on, or what it held before.  Programs of a grid may store the same cell more
    than once. *)

From Stdlib Require Import ZArith Lia.
From stdpp Require Import base tactics numbers list option.
From S2P Require Import Prelude Torch Quant Tab Triton.

Section Stores.
Context {A : Type}.

(** An address and the elements stored from it on. *)
Definition Store : Type := nat * list A.

Definition apply_stores (ss : list Store) (mem : list A) : list A :=
  fold_left (λ m s, store_block s.1 s.2 m) ss mem.

Definition covers (s : Store) (i : nat) : Prop := (s.1 ≤ i < s.1 + length s.2)%nat.

(** Every store is inside a memory of [n] elements. *)
Definition inside (n : nat) (ss : list Store) : Prop := Forall (λ s, (s.1 + length s.2 ≤ n)%nat) ss.

Lemma store_block_nth off (v mem : list A) i x :
  (off + length v ≤ length mem)%nat →
  nth i (store_block off v mem) x
  = if ((off <=? i) && (i <? off + length v))%nat then nth (i - off) v x else nth i mem x.
Proof.
  intros H. unfold store_block. destruct (Nat.leb_spec off i) as [H1|H1]; cbn [andb].
  - rewrite app_nth2 by (rewrite length_take; lia). rewrite length_take, Nat.min_l by lia.
    destruct (Nat.ltb_spec i (off + length v)) as [H2|H2].
    + by rewrite app_nth1 by lia.
    + rewrite app_nth2 by lia. rewrite nth_skipn. f_equal. lia.
  - rewrite app_nth1 by (rewrite length_take; lia). rewrite nth_firstn. by rewrite (proj2 (Nat.ltb_lt i off)).
Qed.

Lemma apply_stores_app s1 s2 mem : apply_stores (s1 ++ s2) mem = apply_stores s2 (apply_stores s1 mem).
Proof. apply fold_left_app. Qed.

Lemma apply_stores_length ss mem : inside (length mem) ss → length (apply_stores ss mem) = length mem.
Proof.
  revert mem. induction ss as [|s ss IH]; intros mem H; [done|]. apply Forall_cons_iff in H as [H1 H2].
  unfold apply_stores in *. cbn [fold_left]. assert (length (store_block s.1 s.2 mem) = length mem) as E
    by (by apply store_block_length). rewrite IH by (by rewrite E). done.
Qed.

(** A cell no store covers. *)
Lemma apply_stores_frame ss mem i x :
  inside (length mem) ss → Forall (λ s, ¬ covers s i) ss → nth i (apply_stores ss mem) x = nth i mem x.
Proof.
  revert mem. induction ss as [|s ss IH]; intros mem H Hn; [done|].
  apply Forall_cons_iff in H as [H1 H2], Hn as [N1 N2]. unfold apply_stores in *. cbn [fold_left].
  assert (length (store_block s.1 s.2 mem) = length mem) as E by (by apply store_block_length).
  rewrite IH by (by rewrite ?E). rewrite store_block_nth by done. unfold covers in N1.
  destruct (Nat.leb_spec s.1 i), (Nat.ltb_spec i (s.1 + length s.2)); cbn [andb]; try done. lia.
Qed.

(** A cell on which the stores that cover it agree. *)
Lemma apply_stores_hit ss mem i x v s :
  inside (length mem) ss → In s ss → covers s i →
  (∀ s', In s' ss → covers s' i → nth (i - s'.1) s'.2 x = v) → nth i (apply_stores ss mem) x = v.
Proof.
  intros H Hin Hc Hv. apply in_split in Hin as (s1 & s2 & ->).
  assert (∀ s2 mem, inside (length mem) s2 → nth i mem x = v →
            (∀ s', In s' s2 → covers s' i → nth (i - s'.1) s'.2 x = v) → nth i (apply_stores s2 mem) x = v) as G.
  { clear. induction s2 as [|s s2 IH]; intros mem H Hm Hv; [done|]. apply Forall_cons_iff in H as [H1 H2].
    unfold apply_stores in *. cbn [fold_left]. apply IH.
    - by rewrite store_block_length.
    - rewrite store_block_nth by done. destruct (Nat.leb_spec s.1 i), (Nat.ltb_spec i (s.1 + length s.2)); cbn [andb]; try done.
      apply Hv; [by left|done].
    - intros s' Hs'. apply Hv. by right. }
  unfold inside in H. rewrite Forall_app, Forall_cons_iff in H. destruct H as (H1 & H2 & H3).
  rewrite apply_stores_app. change (apply_stores (s :: s2) ?m) with (apply_stores s2 (store_block s.1 s.2 m)).
  pose proof (apply_stores_length s1 mem H1) as E1. apply G.
  - rewrite store_block_length by (by rewrite E1). by rewrite E1.
  - rewrite store_block_nth by (by rewrite E1). destruct Hc as [C1 C2].
    rewrite (proj2 (Nat.leb_le _ _) C1), (proj2 (Nat.ltb_lt _ _) C2). cbn [andb].
    apply Hv; [apply in_elt|by split].
  - intros s' Hs'. apply Hv. apply in_or_app. by right; right.
Qed.

(** Stores of whole cells of [w] elements, at most one content a cell. *)
Definition cell_stores (w n : nat) (ss : list Store) : Prop :=
  ∀ st, In st ss → ∃ e, st.1 = (e * w)%nat ∧ length st.2 = w ∧ (e * w + w ≤ n)%nat.

Lemma cell_stores_inside w n ss : cell_stores w n ss → inside n ss.
Proof. intros H. apply List.Forall_forall. intros st Hst. destruct (H st Hst) as (e & -> & -> & He). exact He. Qed.

Lemma cells_length w ss mem : cell_stores w (length mem) ss → length (apply_stores ss mem) = length mem.
Proof. intros H. by apply apply_stores_length, (cell_stores_inside w). Qed.

Lemma cells_read w ss mem cell v d x :
  cell_stores w (length mem) ss → In ((cell * w)%nat, v) ss → (d < w)%nat →
  (∀ v', In ((cell * w)%nat, v') ss → v' = v) → nth (cell * w + d) (apply_stores ss mem) x = nth d v x.
Proof.
  intros Hw Hin Hd Hu. destruct (Hw _ Hin) as (e0 & _ & Hl & _). cbn [snd] in Hl.
  apply (apply_stores_hit _ _ _ _ _ ((cell * w)%nat, v)); [by apply (cell_stores_inside w)|done|unfold covers; cbn [fst snd]; lia|].
  intros [a v'] Hs Hc. destruct (Hw _ Hs) as (e & Ea & Hv & _). unfold covers in Hc. cbn [fst snd] in *. subst a.
  assert (e = cell) as -> by nia. rewrite (Hu v' Hs). f_equal. lia.
Qed.

Lemma cells_frame w ss mem cell d x :
  cell_stores w (length mem) ss → (d < w)%nat → (∀ v, ¬ In ((cell * w)%nat, v) ss) →
  nth (cell * w + d) (apply_stores ss mem) x = nth (cell * w + d) mem x.
Proof.
  intros Hw Hd Hn. apply apply_stores_frame; [by apply (cell_stores_inside w)|]. apply List.Forall_forall. intros [a v] Hs Hc.
  destruct (Hw _ Hs) as (e & Ea & Hv & _). unfold covers in Hc. cbn [fst snd] in *. subst a.
  assert (e = cell) as -> by nia. by apply (Hn v).
Qed.

(** The same for stores tabulated over a list of rows. *)
Lemma cells_hit {R} (cell : R → nat) (val : R → list A) (w : nat) rows mem r d x :
  (∀ r', In r' rows → length (val r') = w ∧ (cell r' * w + w ≤ length mem)%nat) → In r rows → (d < w)%nat →
  (∀ r', In r' rows → cell r' = cell r → val r' = val r) →
  let ss := map (λ r', ((cell r' * w)%nat, val r')) rows in
  nth (cell r * w + d) (apply_stores ss mem) x = nth d (val r) x ∧ length (apply_stores ss mem) = length mem.
Proof.
  intros Hw Hin Hd Hu ss. assert (cell_stores w (length mem) ss) as Hc.
  { intros st (r' & <- & Hr')%in_map_iff. destruct (Hw r' Hr') as [H1 H2]. by exists (cell r'). }
  split; [|by apply (cells_length w)]. apply cells_read; [done|by apply in_map_iff; exists r|done|].
  intros v' (r' & [= E <-] & Hr')%in_map_iff. apply Hu; [done|nia].
Qed.
End Stores.
Arguments Store A : clear implicits.
