(* ===== verification/Int3Cache.v ===== *)
(** * The per-token-head INT3 cache

    The symmetric INT3 mode of [kvquant_k3.py]: one scale per token and head, codes
    packed three bits each.  The reference quantizer and dequantizer, the views of
    one byte storage that [triton_attn.py] makes for codes and scales, the writer of
    the paged cache ([reshape_and_cache_kvquant_k3]), and the loads by which the
    attention kernel reads codes and scales back.

    A float32 in the byte storage is its 32-bit pattern ([Float32Words]), least
    significant byte first.  Indexed assignments run index by index, so a token
    whose slot repeats is overwritten by the later one. *)

From Stdlib Require Import ZArith Lia Floats.SpecFloat.
From stdpp Require Import base tactics numbers list option.
From S2P Require Import Prelude Layout Torch SpecFloatTorch BitPack Meta Quant Tab Triton FixedTorch PageKernel Stores.

(** ** The signed arithmetic of the tensor library *)

Class TorchSigned `(TF : TorchFloat) := {
  f32_abs : f32 → f32;                   (* x.abs() *)
  f32_clamp_min_1e6 : f32 → f32;         (* x.clamp(min=1e-6) *)
  f32_to_i16 : f32 → Z                   (* x.to(torch.int16) *)
}.

Class TorchSignedLaws `(TS : TorchSigned) : Prop := {
  f32_to_i16_clamp : ∀ x, (-4 ≤ f32_to_i16 (f32_clamp (-4) 3 x) ≤ 3)%Z;
  f32_sub_small : ∀ c, (0 ≤ c < 8)%Z → f32_sub (f32_of_int c) (f32_of_int 4) = f32_of_int (c - 4)
}.

(** A float32 as its bit pattern. *)
Class Float32Words `(TF : TorchFloat) := {
  f32_word : f32 → Z;
  f32_of_word : Z → f32;
  f32_word_range : ∀ x, (0 ≤ f32_word x < 2 ^ 32)%Z
}.

Section Int3.
Context `{TF : TorchFloat} {TS : TorchSigned TF} {FW : Float32Words TF}.

Definition KVQUANT_K3_SIGNED_ZERO : Z := 4.
Definition KVQUANT_K3_SIGNED_MIN : Z := -4.
Definition KVQUANT_K3_SIGNED_MAX : Z := 3.

(** ** The reference quantizer *)

Definition int3_scale (row : list f32) : f32 :=
  f32_clamp_min_1e6 (f32_div (amax (map f32_abs row)) (f32_of_int KVQUANT_K3_SIGNED_MAX)).

Definition int3_code (scale x : f32) : Z :=
  let signed := f32_clamp KVQUANT_K3_SIGNED_MIN KVQUANT_K3_SIGNED_MAX (f32_round (f32_div x scale)) in
  ((f32_to_i16 signed + KVQUANT_K3_SIGNED_ZERO) mod 256)%Z.

(** A packed tensor: [tokens x heads] rows of bytes, and the width of a row. *)
Definition PackedRows : Type := nat * list (list (list Z)).

(** [amax] refuses an empty dimension; packing an empty tensor gives empty rows. *)
Definition quantize_int3_per_token_head_ref (tensor : tensor3 f32) : result (PackedRows * list (list f32)) :=
  let n := t_dim tensor in
  _ ← raise_if (n =? 0)%nat IndexError;
  let scale := map (map int3_scale) (t_rows tensor) in
  let codes := map (map (λ row, map (int3_code (int3_scale row)) row)) (t_rows tensor) in
  packed ← pack_int3_values n (concat codes);
  let width := if (length (concat codes) =? 0)%nat then 0%nat else _kvquant_k3_packed_dim n in
  Ok (width, view2 (t_tokens tensor) (t_heads tensor) packed, scale).

(** The packed rows of one token; [last_dim] is [packed.shape[-1]]. *)
Definition dequantize_int3_per_token_head_ref (last_dim : nat) (packed : list (list Z)) (scales : list f32) (value_count : nat) :
    result (list (list f32)) :=
  codes ← unpack_int3_values value_count last_dim packed;
  Ok (zip_with (λ row scale, map (λ c, f32_mul (f32_of_int (c - KVQUANT_K3_SIGNED_ZERO)) scale) row) codes scales).

(** ** The storage and its views *)

(** [kv_cache], of shape [blocks, 2, slots, heads, dim] in bytes; the last four bytes
    of a cell are its scale. *)
Record KvCache := mkKv {
  kc_blocks : nat;
  kc_block_size : nat;
  kc_heads : nat;
  kc_dim : nat;
  kc_mem : list Z
}.

Definition kc_store (ss : list (Store Z)) (c : KvCache) : KvCache :=
  mkKv (kc_blocks c) (kc_block_size c) (kc_heads c) (kc_dim c) (apply_stores ss (kc_mem c)).

(** [kv_cache.unbind(1)]: the two byte views share their strides; [kv] is 0 for K. *)
Record Strides := mkStrides { st_0 : nat; st_1 : nat; st_2 : nat; st_3 : nat }.

Definition kv_half (c : KvCache) : nat := (kc_block_size c * kc_heads c * kc_dim c)%nat.
Definition kv_base (c : KvCache) (kv : nat) : nat := (kv * kv_half c)%nat.
Definition kv_strides (c : KvCache) : Strides := mkStrides (2 * kv_half c) (kc_heads c * kc_dim c) (kc_dim c) 1.

Definition cell_base (c : KvCache) (kv block slot head : nat) : nat :=
  (kv_base c kv + block * st_0 (kv_strides c) + slot * st_1 (kv_strides c) + head * st_2 (kv_strides c))%nat.

(** The strided float32 views over the same storage, in words. *)
Definition scale_offset (c : KvCache) (kv : nat) : nat :=
  let scale_off_f32 := ((kc_dim c - 4) / 4)%nat in
  if (kv =? 0)%nat then scale_off_f32 else (kv_half c / 4 + scale_off_f32)%nat.

Definition scale_strides (c : KvCache) : Strides :=
  mkStrides (2 * kv_half c / 4) (kc_heads c * kc_dim c / 4) (kc_dim c / 4) 0.

Definition scale_word (c : KvCache) (kv block slot head : nat) : nat :=
  (scale_offset c kv + block * st_0 (scale_strides c) + slot * st_1 (scale_strides c) + head * st_2 (scale_strides c))%nat.

Definition le_bytes (w : Z) : list Z := [w mod 256; w / 256 mod 256; w / 65536 mod 256; w / 16777216 mod 256]%Z.
Definition le_word (l : list Z) : Z :=
  (nth 0 l 0 + 256 * nth 1 l 0 + 65536 * nth 2 l 0 + 16777216 * nth 3 l 0)%Z.

Definition scale_store (c : KvCache) (kv block slot head : nat) (x : f32) : Store Z :=
  ((4 * scale_word c kv block slot head)%nat, le_bytes (f32_word x)).

Definition scale_load (c : KvCache) (kv block slot head : nat) : f32 :=
  f32_of_word (le_word (slice (4 * scale_word c kv block slot head) (4 * scale_word c kv block slot head + 4) (kc_mem c))).

(** [_ensure_scale_caches]: the first use fills both views with ones. *)
Definition fill_scales (c : KvCache) (kv : nat) : list (Store Z) :=
  flat_map (λ block, flat_map (λ slot, map (λ head, scale_store c kv block slot head f32_one)
    (seq 0 (kc_heads c))) (seq 0 (kc_block_size c))) (seq 0 (kc_blocks c)).

Definition _ensure_scale_caches (c : KvCache) : KvCache := kc_store (fill_scales c 1) (kc_store (fill_scales c 0) c).

(** ** The writer *)

(** Broadcasting a value to [n] rows. *)
Definition expand {A} (n : nat) (l : list A) : result (list A) :=
  if (length l =? n)%nat then Ok l
  else match l with [x] => Ok (replicate n x) | _ => Err RuntimeError end.

Definition expand2 {A} (n h : nat) (rows : list (list A)) : result (list (list A)) :=
  rows ← result_map (expand h) rows;
  expand n rows.

(** A tensor index: a negative one counts from the end. *)
Definition wrap_index (n : nat) (i : Z) : result nat :=
  if ((- Z.of_nat n <=? i) && (i <? Z.of_nat n))%Z then Ok (Z.to_nat (i mod Z.of_nat n)) else Err IndexError.

(** [view[block_indices, block_offsets, ...] = vals]: the row of a slot, head by head. *)
Definition index_put {A} (store : nat → nat → nat → A → Store Z) (slots : list Z) (vals : list (list A)) : ST KvCache unit :=
  st_for (zip slots vals) (λ '(slot, row) c,
    match wrap_index (kc_blocks c) (slot / Z.of_nat (kc_block_size c)) with
    | Ok block => (Ok tt, kc_store (imap (store block (Z.to_nat (slot mod Z.of_nat (kc_block_size c)))) row) c)
    | Err e => (Err e, c)
    end).

Definition _write_packed_cache (kv : nat) (tensor : tensor3 f32) (slot_mapping : list Z) : ST KvCache unit :=
  q ← st_lift (quantize_int3_per_token_head_ref tensor);
  let '(packed_dim, packed, scales) := q in
  c ← st_get;
  st_raise_if (kc_dim c <? packed_dim)%nat ValueError;;
  st_raise_if ((kc_block_size c =? 0)%nat && negb (length slot_mapping =? 0)%nat) RuntimeError;;
  packed ← st_lift (expand2 (length slot_mapping) (kc_heads c) packed);
  index_put (λ block slot head bytes, (cell_base c kv block slot head, bytes)) slot_mapping packed;;
  scales ← st_lift (expand2 (length slot_mapping) (kc_heads c) scales);
  index_put (scale_store c kv) slot_mapping scales.

Definition reshape_and_cache_kvquant_k3 (key value : tensor3 f32) (slot_mapping : list Z) : ST KvCache unit :=
  _write_packed_cache 0 key slot_mapping;;
  _write_packed_cache 1 value slot_mapping.

(** ** The loads of the attention kernel *)

(** [k_lo], [k_hi], [K_word] and [K_codes] of one dimension and one key; the V loads
    are the same expression on the other view. *)
Definition int3_code_load (mem : list Z) (base : nat) (s : Strides) (physical_block_idx slot_in_blk kv_head_idx d : nat) : Z :=
  let bit_pos := (d * 3)%nat in
  let byte_idx := (bit_pos / 8)%nat in
  let bit_shift := (bit_pos mod 8)%nat in
  let addr0 := (base + physical_block_idx * st_0 s + kv_head_idx * st_2 s + slot_in_blk * st_1 s + byte_idx * st_3 s)%nat in
  let lo := nth addr0 mem 0%Z in
  let hi := nth (addr0 + st_3 s) mem 0%Z in
  Z.land (Z.shiftr (Z.lor lo (Z.shiftl hi 8)) (Z.of_nat bit_shift)) 7.

(** [K_signed]: the code as a float less the zero point. *)
Definition int3_signed (code : Z) : f32 := f32_sub (f32_of_int code) (f32_of_int KVQUANT_K3_SIGNED_ZERO).

(** ** The quantizer *)

Definition row_codes (row : list f32) : list Z := map (int3_code (int3_scale row)) row.
Definition row_bytes (n : nat) (row : list f32) : list Z := stream_row 3 (_kvquant_k3_packed_dim n) (row_codes row).

Context {TSL : TorchSignedLaws TS}.

Lemma int3_code_ok scale x : code_ok 3 (int3_code scale x).
Proof.
  unfold int3_code, code_ok, KVQUANT_K3_SIGNED_ZERO. pose proof (f32_to_i16_clamp (f32_round (f32_div x scale))) as H.
  unfold KVQUANT_K3_SIGNED_MIN, KVQUANT_K3_SIGNED_MAX. set (v := f32_to_i16 _) in *. rewrite Z.mod_small by lia. cbn. lia.
Qed.

Lemma quantize_ok (t : tensor3 f32) (n := t_dim t) :
  (0 < n)%nat → wf_tensor3 t →
  quantize_int3_per_token_head_ref t
  = Ok (if (t_tokens t * t_heads t =? 0)%nat then 0%nat else _kvquant_k3_packed_dim n,
        map (map (row_bytes n)) (t_rows t), map (map int3_scale) (t_rows t)).
Proof.
  intros Hn Hwf. unfold quantize_int3_per_token_head_ref. fold n. rewrite (proj2 (Nat.eqb_neq n 0)) by lia.
  cbn [raise_if]. rewrite result_bind_ok.
  change (λ row, map (int3_code (int3_scale row)) row) with row_codes. rewrite <-concat_map.
  assert (length (concat (t_rows t)) = (t_tokens t * t_heads t)%nat) as Hl.
  { apply length_concat_uniform. eapply Forall_impl; [|exact Hwf]. by intros r []. }
  rewrite pack_int3_values_ok.
  - rewrite result_bind_ok, length_map, Hl. do 3 f_equal.
    rewrite map_map. change (λ x, stream_row 3 (_kvquant_k3_packed_dim n) (row_codes x)) with (row_bytes n).
    rewrite concat_map. apply view2_concat; [apply length_map|]. rewrite Forall_map.
    eapply Forall_impl; [|exact Hwf]. intros r [Hr _]. by rewrite length_map.
  - unfold code_rows. rewrite Forall_map. apply Forall_concat. eapply Forall_impl; [|exact Hwf]. intros tok [_ Hr].
    eapply Forall_impl; [|exact Hr]. intros r Hr'. split; [by unfold row_codes; rewrite length_map|].
    unfold row_codes. rewrite Forall_map. apply List.Forall_forall. intros x _. apply int3_code_ok.
Qed.

(** ** The cells *)

Lemma kc_store_app s1 s2 c : kc_store s2 (kc_store s1 c) = kc_store (s1 ++ s2) c.
Proof. unfold kc_store. cbn [kc_blocks kc_block_size kc_heads kc_dim kc_mem]. by rewrite apply_stores_app. Qed.

(** The number of slots, and the slot an index means. *)
Definition kc_slots (c : KvCache) : nat := (kc_blocks c * kc_block_size c)%nat.
Definition slot_index (c : KvCache) (z : Z) : nat := Z.to_nat (z mod Z.of_nat (kc_slots c)).
Definition slot_ok (c : KvCache) (z : Z) : Prop := (- Z.of_nat (kc_slots c) ≤ z < Z.of_nat (kc_slots c))%Z.

Lemma slot_index_at c z (bs := kc_block_size c) :
  (0 < bs)%nat → slot_ok c z →
  wrap_index (kc_blocks c) (z / Z.of_nat bs) = Ok (slot_index c z / bs)%nat
  ∧ Z.to_nat (z mod Z.of_nat bs) = (slot_index c z mod bs)%nat ∧ (slot_index c z < kc_slots c)%nat.
Proof.
  intros Hbs Hz. unfold slot_ok, slot_index, kc_slots in *. fold bs in Hz |- *. set (B := kc_blocks c) in *.
  assert (0 < B)%nat as HB by (destruct B; lia).
  pose proof (Z.rem_mul_r z (Z.of_nat bs) (Z.of_nat B) ltac:(lia) ltac:(lia)) as E.
  replace (Z.of_nat (B * bs)) with (Z.of_nat bs * Z.of_nat B)%Z in * by lia.
  pose proof (Z.mod_pos_bound z (Z.of_nat bs) ltac:(lia)) as H1.
  pose proof (Z.mod_pos_bound (z / Z.of_nat bs) (Z.of_nat B) ltac:(lia)) as H2.
  pose proof (Z.mod_pos_bound z (Z.of_nat bs * Z.of_nat B) ltac:(nia)) as H3.
  set (r := (z mod Z.of_nat bs)%Z) in *. set (q := ((z / Z.of_nat bs) mod Z.of_nat B)%Z) in *.
  rewrite E in H3 |- *.
  assert (Z.to_nat (r + Z.of_nat bs * q) = Z.to_nat q * bs + Z.to_nat r)%nat as En by nia. rewrite En.
  split; [|split; [|nia]].
  - unfold wrap_index. pose proof (Z.div_le_lower_bound z (Z.of_nat bs) (- Z.of_nat B) ltac:(lia) ltac:(lia)).
    pose proof (Z.div_lt_upper_bound z (Z.of_nat bs) (Z.of_nat B) ltac:(lia) ltac:(lia)).
    rewrite (proj2 (Z.leb_le _ _)), (proj2 (Z.ltb_lt _ _)) by done. cbn [andb]. fold q.
    by rewrite Nat.div_add_l, (Nat.div_small (Z.to_nat r)), Nat.add_0_r by lia.
  - rewrite Nat.add_comm, Nat.Div0.mod_add. by rewrite Nat.mod_small by lia.
Qed.

(** The cells in order of address. *)
Definition cell_index (c : KvCache) (kv fs head : nat) : nat :=
  (((fs / kc_block_size c * 2 + kv) * kc_block_size c + fs mod kc_block_size c) * kc_heads c + head)%nat.

Lemma cell_base_index c kv fs head :
  cell_base c kv (fs / kc_block_size c) (fs mod kc_block_size c) head = (cell_index c kv fs head * kc_dim c)%nat.
Proof. unfold cell_base, kv_base, kv_strides, kv_half, cell_index. cbn [st_0 st_1 st_2]. lia. Qed.

Lemma pair_inj a b a' b' n : (b < n)%nat → (b' < n)%nat → (a * n + b = a' * n + b')%nat → a = a' ∧ b = b'.
Proof. intros Hb Hb' E. apply (Nat.div_mod_unique n); lia. Qed.

Lemma cell_index_inj c kv fs head kv' fs' head' :
  (0 < kc_block_size c)%nat → (kv < 2)%nat → (kv' < 2)%nat → (head < kc_heads c)%nat → (head' < kc_heads c)%nat →
  cell_index c kv fs head = cell_index c kv' fs' head' → kv = kv' ∧ fs = fs' ∧ head = head'.
Proof.
  intros Hbs H1 H2 H3 H4 E. unfold cell_index in E. set (bs := kc_block_size c) in *.
  apply pair_inj in E as [E Eh]; [|done|done].
  apply pair_inj in E as [E Eo]; [|apply Nat.mod_upper_bound; lia|apply Nat.mod_upper_bound; lia].
  apply pair_inj in E as [E Ek]; [|done|done]. split; [done|]. split; [|done].
  rewrite (Nat.div_mod_eq fs bs), (Nat.div_mod_eq fs' bs). by rewrite E, Eo.
Qed.

Lemma cell_index_bound c kv fs head :
  (0 < kc_block_size c)%nat → (kv < 2)%nat → (fs < kc_slots c)%nat → (head < kc_heads c)%nat →
  (cell_index c kv fs head < kc_blocks c * 2 * kc_block_size c * kc_heads c)%nat.
Proof.
  intros Hbs H1 H2 H3. unfold cell_index, kc_slots in *. set (bs := kc_block_size c) in *.
  assert (fs / bs < kc_blocks c)%nat as Hb by (apply Nat.Div0.div_lt_upper_bound; lia).
  pose proof (Nat.mod_upper_bound fs bs ltac:(lia)) as Ho.
  set (x := (fs / bs)%nat) in *. set (o := (fs mod bs)%nat) in *.
  assert (x * 2 + kv + 1 ≤ kc_blocks c * 2)%nat as E1 by lia.
  apply (Nat.mul_le_mono_r _ _ bs) in E1. assert ((x * 2 + kv) * bs + o + 1 ≤ kc_blocks c * 2 * bs)%nat as E2 by lia.
  apply (Nat.mul_le_mono_r _ _ (kc_heads c)) in E2. lia.
Qed.

(** The storage has the size of its shape. *)
Definition kc_ok (c : KvCache) : Prop :=
  (0 < kc_block_size c)%nat ∧ length (kc_mem c) = (kc_blocks c * 2 * kc_block_size c * kc_heads c * kc_dim c)%nat.

(** With cells of whole words, the scale of a cell is its last word. *)
Lemma scale_word_aligned c kv fs head k :
  (kv < 2)%nat → kc_dim c = (4 * k)%nat → (0 < k)%nat →
  (4 * scale_word c kv (fs / kc_block_size c) (fs mod kc_block_size c) head
   = cell_index c kv fs head * kc_dim c + (kc_dim c - 4))%nat.
Proof.
  intros Hkv Hd Hk. rewrite <-cell_base_index. unfold scale_word, scale_offset, scale_strides, cell_base, kv_base, kv_strides, kv_half.
  cbn [st_0 st_1 st_2]. rewrite Hd. set (b := (fs / kc_block_size c)%nat). set (o := (fs mod kc_block_size c)%nat).
  set (bs := kc_block_size c). set (H := kc_heads c).
  assert ((4 * k - 4) / 4 = k - 1)%nat as E1 by (symmetry; apply (Nat.div_unique _ 4 _ 0); lia).
  assert (bs * H * (4 * k) / 4 = bs * H * k)%nat as E2 by (symmetry; apply (Nat.div_unique _ 4 _ 0); lia).
  assert (2 * (bs * H * (4 * k)) / 4 = 2 * (bs * H * k))%nat as E3 by (symmetry; apply (Nat.div_unique _ 4 _ 0); lia).
  assert (H * (4 * k) / 4 = H * k)%nat as E4 by (symmetry; apply (Nat.div_unique _ 4 _ 0); lia).
  assert (4 * k / 4 = k)%nat as E5 by (symmetry; apply (Nat.div_unique _ 4 _ 0); lia).
  rewrite E1, E2, E3, E4, E5. destruct (Nat.eqb_spec kv 0) as [->|Hne].
  - lia.
  - assert (kv = 1)%nat as -> by lia. lia.
Qed.

(** ** Indexed assignments as stores *)

(** The stores of the rows at their slots. *)
Definition put_list {A} (c : KvCache) (store : nat → nat → nat → A → Store Z) (slots : list Z) (rows : list (list A)) : list (Store Z) :=
  concat (zip_with (λ z row, imap (store (slot_index c z / kc_block_size c) (slot_index c z mod kc_block_size c))%nat row) slots rows).

Lemma index_put_ok {A} (store : nat → nat → nat → A → Store Z) slots rows c ss :
  (0 < kc_block_size c)%nat → Forall (slot_ok c) slots →
  index_put store slots rows (kc_store ss c) = (Ok tt, kc_store (ss ++ put_list c store slots rows) c).
Proof.
  intros Hbs Hs. revert ss rows. unfold index_put, put_list. induction Hs as [|z slots Hz Hs IH]; intros ss [|row rows];
    cbn [zip zip_with st_for concat]; try (by rewrite app_nil_r).
  rewrite st_bind_eq. cbn [kc_store kc_blocks kc_block_size].
  destruct (slot_index_at c z Hbs Hz) as (E1 & E2 & _). rewrite E1, E2.
  change (mkKv _ _ _ _ _) with (kc_store ss c). rewrite kc_store_app, IH. by rewrite <-app_assoc.
Qed.

Lemma in_put_list {A} c (store : nat → nat → nat → A → Store Z) slots rows s :
  In s (put_list c store slots rows) ↔
  ∃ t z row head x, slots !! t = Some z ∧ rows !! t = Some row ∧ row !! head = Some x
    ∧ s = store (slot_index c z / kc_block_size c)%nat (slot_index c z mod kc_block_size c)%nat head x.
Proof.
  unfold put_list. rewrite in_concat. split.
  - intros (l & Hl & Hs). apply list_elem_of_In in Hl. apply list_elem_of_In in Hs. apply list_elem_of_lookup in Hl as [t Ht].
    apply lookup_zip_with_Some in Ht as (z & row & -> & Hz & Hrow).
    apply list_elem_of_lookup in Hs as [head Hx]. rewrite list_lookup_imap in Hx.
    destruct (row !! head) as [x|] eqn:Ex; [|done]. injection Hx as <-. by exists t, z, row, head, x.
  - intros (t & z & row & head & x & Hz & Hrow & Hx & ->). eexists. split.
    + apply list_elem_of_In, list_elem_of_lookup. exists t. apply lookup_zip_with_Some. by exists z, row.
    + apply list_elem_of_In, list_elem_of_lookup. exists head. by rewrite list_lookup_imap, Hx.
Qed.

(** ** A write *)

Lemma expand_id {A} n (l : list A) : length l = n → expand n l = Ok l.
Proof. intros <-. unfold expand. by rewrite Nat.eqb_refl. Qed.

Lemma expand2_id {A} n h (rows : list (list A)) : length rows = n → Forall (λ r, length r = h) rows → expand2 n h rows = Ok rows.
Proof.
  intros Hn H. unfold expand2. rewrite (result_map_ok (expand h) id).
  - rewrite result_bind_ok, map_id. by apply expand_id.
  - intros r Hr. rewrite List.Forall_forall in H. by apply expand_id, H.
Qed.

(** What a tensor stores, the codes before the scales. *)
Definition data_stores (c : KvCache) (kv n : nat) (rows : list (list (list f32))) (slots : list Z) : list (Store Z) :=
  put_list c (λ block slot head bytes, (cell_base c kv block slot head, bytes)) slots (map (map (row_bytes n)) rows).
Definition scale_stores (c : KvCache) (kv : nat) (rows : list (list (list f32))) (slots : list Z) : list (Store Z) :=
  put_list c (scale_store c kv) slots (map (map int3_scale) rows).

Lemma write_packed_ok c kv (t : tensor3 f32) slots ss :
  (0 < kc_block_size c)%nat → Forall (slot_ok c) slots → wf_tensor3 t → (0 < t_dim t)%nat →
  t_heads t = kc_heads c → length slots = t_tokens t → (_kvquant_k3_packed_dim (t_dim t) ≤ kc_dim c)%nat →
  _write_packed_cache kv t slots (kc_store ss c)
  = (Ok tt, kc_store (ss ++ data_stores c kv (t_dim t) (t_rows t) slots ++ scale_stores c kv (t_rows t) slots) c).
Proof.
  intros Hbs Hs Hwf Hn Hh Hl Hd. unfold _write_packed_cache. rewrite st_bind_eq. unfold st_lift at 1.
  rewrite quantize_ok by done. rewrite st_bind_eq. cbn [st_get]. rewrite st_bind_eq. unfold st_raise_if, st_lift at 1.
  cbn [kc_store kc_dim kc_block_size kc_heads].
  assert ((kc_dim c <? (if (t_tokens t * t_heads t =? 0)%nat then 0 else _kvquant_k3_packed_dim (t_dim t)))%nat = false) as ->
    by (apply Nat.ltb_ge; destruct (_ =? 0)%nat; lia).
  cbn [raise_if]. rewrite st_bind_eq. unfold st_lift at 1. rewrite (proj2 (Nat.eqb_neq (kc_block_size c) 0)) by lia.
  cbn [andb raise_if]. rewrite st_bind_eq. unfold st_lift at 1.
  assert (∀ A (f : list f32 → A), Forall (λ r, length r = kc_heads c) (map (map f) (t_rows t))) as Hr.
  { intros A f. rewrite Forall_map. eapply Forall_impl; [|exact Hwf]. intros r [Hr _]. rewrite length_map. congruence. }
  rewrite expand2_id by (apply Hr || by rewrite length_map). rewrite st_bind_eq.
  change (mkKv _ _ _ _ _) with (kc_store ss c). rewrite index_put_ok by done. rewrite st_bind_eq. unfold st_lift at 1.
  rewrite expand2_id by (apply Hr || by rewrite length_map).
  change (scale_store _ kv) with (scale_store c kv). rewrite index_put_ok by done. by rewrite <-app_assoc.
Qed.

(** ** What a write of keys and values leaves *)

Section Written.
Variables (c : KvCache) (n : nat) (key value : tensor3 f32) (slots : list Z).
Let pd := _kvquant_k3_packed_dim n.
Definition tensor_of (kv : nat) : tensor3 f32 := if (kv =? 0)%nat then key else value.

(** Tensors of the geometry of a storage whose cells hold packed codes in whole
    words and a scale, and slots that are distinct slots of it. *)
Definition write_ok : Prop :=
  kc_ok c ∧ (0 < n)%nat ∧ kc_dim c = (pd + 4)%nat ∧ (4 | pd)%nat
  ∧ (∀ kv, wf_tensor3 (tensor_of kv) ∧ t_dim (tensor_of kv) = n ∧ t_heads (tensor_of kv) = kc_heads c
           ∧ t_tokens (tensor_of kv) = length slots)
  ∧ Forall (slot_ok c) slots ∧ NoDup (map (slot_index c) slots).

Hypothesis (Hok : write_ok).

Definition token_row (kv t head : nat) : list f32 := nth head (nth t (t_rows (tensor_of kv)) []) [].

Definition cell_content (kv t head : nat) : list Z :=
  row_bytes n (token_row kv t head) ++ le_bytes (f32_word (int3_scale (token_row kv t head))).

Definition write_stores (kv : nat) : list (Store Z) :=
  data_stores c kv n (t_rows (tensor_of kv)) slots ++ scale_stores c kv (t_rows (tensor_of kv)) slots.

Lemma write_run : reshape_and_cache_kvquant_k3 key value slots c = (Ok tt, kc_store (write_stores 0 ++ write_stores 1) c).
Proof.
  destruct Hok as ((Hbs & _) & Hn & Hd & _ & Ht & Hs & _).
  destruct (Ht 0%nat) as (K1 & K2 & K3 & K4), (Ht 1%nat) as (V1 & V2 & V3 & V4). cbn [tensor_of Nat.eqb] in *.
  assert (c = kc_store [] c) as Ec by (by destruct c).
  unfold reshape_and_cache_kvquant_k3. rewrite st_bind_eq. rewrite Ec at 1.
  rewrite write_packed_ok by (try done; rewrite ?K2; try done; fold pd; lia). rewrite app_nil_l.
  rewrite write_packed_ok by (try done; rewrite ?V2; try done; fold pd; lia).
  unfold write_stores. cbn [tensor_of Nat.eqb]. by rewrite K2, V2.
Qed.

Lemma row_bytes_length row : length (row_bytes n row) = pd.
Proof. apply stream_row_length. Qed.

(** A store is a part of the content of its cell. *)
Definition part_of (kv t head : nat) (s : Store Z) : Prop :=
  ∃ z, slots !! t = Some z ∧ (head < kc_heads c)%nat ∧
  let base := (cell_index c kv (slot_index c z) head * kc_dim c)%nat in
  (base ≤ s.1)%nat ∧ (s.1 + length s.2 ≤ base + kc_dim c)%nat
  ∧ ∀ j, (j < length s.2)%nat → nth j s.2 0%Z = nth (s.1 - base + j) (cell_content kv t head) 0%Z.

Lemma tensor_row kv t toks head row :
  t_rows (tensor_of kv) !! t = Some toks → toks !! head = Some row → row = token_row kv t head ∧ (head < kc_heads c)%nat.
Proof.
  intros H1 H2. destruct Hok as (_ & _ & _ & _ & Ht & _). destruct (Ht kv) as (W & _ & Hh & _).
  unfold token_row. rewrite (nth_lookup_Some _ _ [] _ H1), (nth_lookup_Some _ _ [] _ H2). split; [done|].
  unfold wf_tensor3 in W. rewrite Forall_lookup in W. destruct (W t toks H1) as [Hl _].
  apply lookup_lt_Some in H2. congruence.
Qed.

Lemma write_stores_parts kv s : (kv < 2)%nat → In s (write_stores kv) → ∃ t head, part_of kv t head s.
Proof.
  intros Hkv. destruct Hok as (_ & _ & Hd & [k Hk] & _). unfold write_stores, data_stores, scale_stores.
  intros [(t & z & r & head & x & Hz & Hr & Hx & ->)%in_put_list|(t & z & r & head & x & Hz & Hr & Hx & ->)%in_put_list]%in_app_or;
    rewrite list_lookup_fmap in Hr; destruct (t_rows (tensor_of kv) !! t) as [toks|] eqn:Et; try done; injection Hr as <-;
    rewrite list_lookup_fmap in Hx; destruct (toks !! head) as [row|] eqn:Eh; try done; injection Hx as <-;
    destruct (tensor_row kv t toks head row Et Eh) as [-> Hh]; exists t, head, z; (split; [done|]); (split; [done|]); cbv zeta.
  - rewrite cell_base_index. cbn [fst snd]. rewrite row_bytes_length, Hd. split; [lia|]. split; [lia|].
    intros j Hj. rewrite Nat.sub_diag. unfold cell_content. by rewrite app_nth1 by (rewrite row_bytes_length; lia).
  - unfold scale_store. rewrite (scale_word_aligned c kv _ head (k + 1)) by lia. cbn [fst snd].
    assert (length (le_bytes (f32_word (int3_scale (token_row kv t head)))) = 4%nat) as E4 by done. rewrite E4, Hd.
    split; [lia|]. split; [lia|]. intros j Hj. unfold cell_content.
    rewrite app_nth2 by (rewrite row_bytes_length; lia). rewrite row_bytes_length. f_equal. lia.
Qed.

(** Every byte of a cell is stored. *)
Lemma write_stores_cover kv t z head j :
  (kv < 2)%nat → slots !! t = Some z → (head < kc_heads c)%nat → (j < kc_dim c)%nat →
  ∃ s, In s (write_stores kv) ∧ covers s (cell_index c kv (slot_index c z) head * kc_dim c + j).
Proof.
  intros Hkv Hz Hh Hj. destruct Hok as (_ & _ & Hd & [k Hk] & Ht & _). destruct (Ht kv) as (W & _ & Eh & El).
  assert (is_Some (t_rows (tensor_of kv) !! t)) as [toks Et].
  { apply lookup_lt_is_Some. change (length (t_rows (tensor_of kv))) with (t_tokens (tensor_of kv)). rewrite El. by eapply lookup_lt_Some. }
  assert (is_Some (toks !! head)) as [row Er].
  { apply lookup_lt_is_Some. unfold wf_tensor3 in W. rewrite Forall_lookup in W. destruct (W t toks Et) as [-> _]. congruence. }
  unfold write_stores. destruct (Nat.lt_ge_cases j pd) as [Hlt|Hge].
  - eexists. split.
    + apply in_or_app. left. apply in_put_list. exists t, z, (map (row_bytes n) toks), head, (row_bytes n row).
      split; [done|]. rewrite !list_lookup_fmap, Et, Er. by split.
    + unfold covers. cbn [fst snd]. rewrite cell_base_index, row_bytes_length. lia.
  - eexists. split.
    + apply in_or_app. right. apply in_put_list. exists t, z, (map int3_scale toks), head, (int3_scale row).
      split; [done|]. rewrite !list_lookup_fmap, Et, Er. by split.
    + unfold covers, scale_store. rewrite (scale_word_aligned c kv _ head (k + 1)) by lia. cbn [fst snd le_bytes length]. lia.
Qed.

Let all_stores := write_stores 0 ++ write_stores 1.
Let mem' := apply_stores all_stores (kc_mem c).

Lemma all_stores_parts s : In s all_stores → ∃ kv t head, (kv < 2)%nat ∧ part_of kv t head s.
Proof.
  intros [H|H]%in_app_or; apply write_stores_parts in H as (t & head & H); try lia.
  - exists 0%nat, t, head. split; [lia|done].
  - exists 1%nat, t, head. split; [lia|done].
Qed.

Lemma slot_index_lt t z : slots !! t = Some z → (slot_index c z < kc_slots c)%nat.
Proof.
  intros Hz. destruct Hok as ((Hbs & _) & _ & _ & _ & _ & Hs & _). rewrite Forall_lookup in Hs.
  by apply (slot_index_at c z Hbs), (Hs t).
Qed.

Lemma all_stores_inside : inside (length (kc_mem c)) all_stores.
Proof.
  destruct Hok as ((Hbs & Hl) & _). apply List.Forall_forall. intros s Hs.
  destruct (all_stores_parts s Hs) as (kv & t & head & Hkv & z & Hz & Hh & _ & Hle & _).
  pose proof (cell_index_bound c kv (slot_index c z) head Hbs Hkv (slot_index_lt t z Hz) Hh) as Hb.
  set (idx := cell_index c kv (slot_index c z) head) in *.
  assert (idx + 1 ≤ kc_blocks c * 2 * kc_block_size c * kc_heads c)%nat as E by lia.
  apply (Nat.mul_le_mono_r _ _ (kc_dim c)) in E. rewrite Hl. lia.
Qed.

(** A store that covers a byte of a cell is a part of that cell. *)
Lemma covering_cell kv' t' head' s kv fs head j :
  part_of kv' t' head' s → (kv' < 2)%nat → (kv < 2)%nat → (head < kc_heads c)%nat → (j < kc_dim c)%nat →
  covers s (cell_index c kv fs head * kc_dim c + j) →
  kv' = kv ∧ head' = head ∧ ∃ z, slots !! t' = Some z ∧ slot_index c z = fs.
Proof.
  intros (z & Hz & Hh & H1 & H2 & _) Hkv' Hkv Hhd Hj [C1 C2]. destruct Hok as ((Hbs & _) & _).
  set (i := (cell_index c kv fs head * kc_dim c + j)%nat) in *.
  set (b := (cell_index c kv' (slot_index c z) head' * kc_dim c)%nat) in *.
  destruct (pair_inj (cell_index c kv fs head) j (cell_index c kv' (slot_index c z) head') (i - b) (kc_dim c))
    as [E _]; [done|lia|lia|].
  apply cell_index_inj in E as (<- & -> & <-); try done. split; [done|]. split; [done|]. by exists z.
Qed.

Lemma written_byte kv t z head j :
  (kv < 2)%nat → slots !! t = Some z → (head < kc_heads c)%nat → (j < kc_dim c)%nat →
  nth (cell_index c kv (slot_index c z) head * kc_dim c + j) mem' 0%Z = nth j (cell_content kv t head) 0%Z.
Proof.
  intros Hkv Hz Hh Hj. destruct (write_stores_cover kv t z head j Hkv Hz Hh Hj) as (s & Hs & Hc).
  apply (apply_stores_hit _ _ _ _ _ s); [apply all_stores_inside| |done|].
  - apply in_or_app. destruct kv as [|[|kv]]; [by left|by right|lia].
  - intros s' Hs' Hc'. destruct (all_stores_parts s' Hs') as (kv' & t' & head' & Hkv' & Hp).
    destruct (covering_cell _ _ _ _ _ _ _ _ Hp Hkv' Hkv Hh Hj Hc') as (-> & -> & z' & Hz' & Ez).
    assert (t' = t) as ->.
    { destruct Hok as (_ & _ & _ & _ & _ & _ & Hnd). apply (NoDup_lookup _ t' t (slot_index c z) Hnd); rewrite list_lookup_fmap.
      - by rewrite Hz', <-Ez.
      - by rewrite Hz. }
    destruct Hp as (z2 & Hz2 & _ & H1 & H2 & Hn). rewrite Hz in Hz2. injection Hz2 as <-. destruct Hc' as [C1 C2].
    rewrite Hn by lia. f_equal. lia.
Qed.

(** The bytes of the other slots stay. *)
Lemma other_byte kv fs head j :
  (kv < 2)%nat → (∀ t z, slots !! t = Some z → slot_index c z ≠ fs) → (head < kc_heads c)%nat → (j < kc_dim c)%nat →
  nth (cell_index c kv fs head * kc_dim c + j) mem' 0%Z = nth (cell_index c kv fs head * kc_dim c + j) (kc_mem c) 0%Z.
Proof.
  intros Hkv Hfs Hh Hj. apply apply_stores_frame; [apply all_stores_inside|]. apply List.Forall_forall. intros s Hs Hc.
  destruct (all_stores_parts s Hs) as (kv' & t & head' & Hkv' & Hp).
  destruct (covering_cell _ _ _ _ _ _ _ _ Hp Hkv' Hkv Hh Hj Hc) as (_ & _ & z & Hz & Ez). by apply (Hfs t z).
Qed.

(** ** Reading back *)

Lemma le_word_bytes w : (0 ≤ w < 2 ^ 32)%Z → le_word (le_bytes w) = w.
Proof.
  intros Hw. unfold le_word, le_bytes. cbn [nth].
  pose proof (Z.div_mod w 256 ltac:(lia)). pose proof (Z.div_mod (w / 256) 256 ltac:(lia)).
  pose proof (Z.div_mod (w / 65536) 256 ltac:(lia)).
  assert (w / 65536 = w / 256 / 256)%Z as E1 by (by rewrite Z.div_div by lia).
  assert (w / 16777216 = w / 65536 / 256)%Z as E2 by (by rewrite Z.div_div by lia).
  assert (w / 16777216 < 256)%Z as E3 by (apply Z.div_lt_upper_bound; lia).
  assert (0 ≤ w / 16777216)%Z as E4 by (apply Z.div_pos; lia).
  rewrite (Z.mod_small (w / 16777216)) by lia. lia.
Qed.

Let c' := kc_store all_stores c.
Definition slot_block (z : Z) : nat := (slot_index c z / kc_block_size c)%nat.
Definition slot_offset (z : Z) : nat := (slot_index c z mod kc_block_size c)%nat.

(** The kernel's code of a written token. *)
Lemma code_load_written kv t z head i :
  (kv < 2)%nat → slots !! t = Some z → (head < kc_heads c)%nat → (i < n)%nat → length (token_row kv t head) = n →
  int3_code_load (kc_mem c') (kv_base c kv) (kv_strides c) (slot_block z) (slot_offset z) head i
  = nth i (row_codes (token_row kv t head)) 0%Z.
Proof.
  intros Hkv Hz Hh Hi Hrow. destruct Hok as (_ & Hn & Hd & _). set (row := token_row kv t head) in *.
  assert (Forall (code_ok 3) (row_codes row)) as Hcodes.
  { unfold row_codes. rewrite Forall_map. apply List.Forall_forall. intros x _. apply int3_code_ok. }
  assert (length (row_codes row) = n) as Hrc by (unfold row_codes; by rewrite length_map).
  rewrite <-(unpack_value_stream 3 pd (row_codes row) i); [|lia| |by apply code_ok_nth].
  2: { unfold pd, _kvquant_k3_packed_dim. apply Nat.Div0.div_le_mono. lia. }
  change (stream_row 3 pd (row_codes row)) with (row_bytes n row).
  rewrite (tab_of_list (row_bytes n row) 0%Z pd) by apply row_bytes_length.
  assert (∀ j, (j < kc_dim c)%nat →
    nth (kv_base c kv + slot_block z * st_0 (kv_strides c) + head * st_2 (kv_strides c)
         + slot_offset z * st_1 (kv_strides c) + j) (kc_mem c') 0%Z = nth j (cell_content kv t head) 0%Z) as Hb.
  { intros j Hj. rewrite <-(written_byte kv t z head j) by done. f_equal. rewrite <-cell_base_index. unfold cell_base, slot_block, slot_offset. lia. }
  assert (i * 3 / 8 < pd)%nat as Hq.
  { unfold pd, _kvquant_k3_packed_dim. apply Nat.Div0.div_lt_upper_bound.
    pose proof (Nat.div_mod_eq (n * 3 + 7) 8). pose proof (Nat.mod_upper_bound (n * 3 + 7) 8 ltac:(lia)). lia. }
  assert (∀ j, (j < pd)%nat → nth j (cell_content kv t head) 0%Z = nth j (row_bytes n row) 0%Z) as Hc.
  { intros j Hj. unfold cell_content. fold row. by rewrite app_nth1 by (rewrite row_bytes_length; lia). }
  unfold int3_code_load. cbn [st_3 kv_strides]. rewrite Nat.mul_1_r. symmetry. apply word3_unpack; [| | |done].
  - rewrite Hb, Hc by lia. apply nth_byte_ok, stream_row_byte_ok.
  - rewrite Hb, Hc by lia. done.
  - fold pd. intros Hq'. rewrite <-Nat.add_assoc. cbn [st_0 st_1 st_2 kv_strides] in Hb. rewrite Hb, Hc by lia. done.
Qed.

Lemma scale_load_written kv t z head :
  (kv < 2)%nat → slots !! t = Some z → (head < kc_heads c)%nat →
  scale_load c' kv (slot_block z) (slot_offset z) head = f32_of_word (f32_word (int3_scale (token_row kv t head))).
Proof.
  intros Hkv Hz Hh. destruct Hok as ((Hbs & Hl) & _ & Hd & [k Hk] & _). unfold scale_load. f_equal.
  change (scale_word c' kv) with (scale_word c kv). unfold slot_block, slot_offset.
  rewrite (scale_word_aligned c kv _ head (k + 1)) by lia. cbn [c' kc_store kc_mem].
  rewrite <-(le_word_bytes (f32_word (int3_scale (token_row kv t head)))) by apply f32_word_range. f_equal.
  set (idx := cell_index c kv (slot_index c z) head).
  assert (idx * kc_dim c + (kc_dim c - 4) + 4 ≤ length (kc_mem c))%nat as Hle.
  { pose proof (cell_index_bound c kv (slot_index c z) head Hbs Hkv (slot_index_lt t z Hz) Hh) as Hb. fold idx in Hb.
    assert (idx + 1 ≤ kc_blocks c * 2 * kc_block_size c * kc_heads c)%nat as E by lia.
    apply (Nat.mul_le_mono_r _ _ (kc_dim c)) in E. rewrite Hl. lia. }
  rewrite (tab_slice 4 _ _ 0%Z) by (fold mem'; unfold mem'; rewrite apply_stores_length by apply all_stores_inside; lia).
  rewrite (tab_of_list (le_bytes _) 0%Z 4) by done. apply tab_ext. intros j Hj. fold mem'.
  replace (idx * kc_dim c + (kc_dim c - 4) + j)%nat with (idx * kc_dim c + (kc_dim c - 4 + j))%nat by lia.
  unfold idx. rewrite (written_byte kv t z head) by (done || lia). unfold cell_content.
  rewrite app_nth2 by (rewrite row_bytes_length; lia). rewrite row_bytes_length. f_equal. lia.
Qed.

(** The packed bytes of a written token, and the reference dequantizer on them. *)
Definition cell_bytes (c : KvCache) (kv : nat) (z : Z) (head : nat) : list Z :=
  let base := cell_base c kv (slot_block z) (slot_offset z) head in slice base (base + pd) (kc_mem c).

Lemma cell_bytes_written kv t z head :
  (kv < 2)%nat → slots !! t = Some z → (head < kc_heads c)%nat → cell_bytes c' kv z head = row_bytes n (token_row kv t head).
Proof.
  intros Hkv Hz Hh. destruct Hok as ((Hbs & Hl) & _ & Hd & _). unfold cell_bytes.
  change (cell_base c' kv) with (cell_base c kv). unfold slot_block, slot_offset. rewrite cell_base_index.
  pose proof (cell_index_bound c kv (slot_index c z) head Hbs Hkv (slot_index_lt t z Hz) Hh) as Hb.
  set (idx := cell_index c kv (slot_index c z) head) in *.
  assert (idx + 1 ≤ kc_blocks c * 2 * kc_block_size c * kc_heads c)%nat as E by lia.
  apply (Nat.mul_le_mono_r _ _ (kc_dim c)) in E. cbn [c' kc_store kc_mem]. fold mem'.
  rewrite (tab_slice pd _ _ 0%Z) by (unfold mem'; rewrite apply_stores_length by apply all_stores_inside; lia).
  rewrite (tab_of_list (row_bytes _ _) 0%Z pd) by apply row_bytes_length. apply tab_ext. intros j Hj.
  unfold idx. rewrite (written_byte kv t z head) by (done || lia). unfold cell_content.
  by rewrite app_nth1 by (rewrite row_bytes_length; lia).
Qed.

Lemma dequantize_row row scale :
  length row = n →
  dequantize_int3_per_token_head_ref pd [row_bytes n row] [scale] n
  = Ok [map (λ x, f32_mul (f32_of_int (int3_code (int3_scale row) x - KVQUANT_K3_SIGNED_ZERO)) scale) row].
Proof.
  intros Hr. unfold dequantize_int3_per_token_head_ref.
  change [row_bytes n row] with (map (stream_row 3 pd) [row_codes row]). unfold pd. rewrite unpack_int3_values_stream.
  - rewrite result_bind_ok. cbn [zip_with]. unfold row_codes. by rewrite map_map.
  - constructor; [|constructor]. unfold row_codes. rewrite length_map. split; [done|].
    rewrite Forall_map. apply List.Forall_forall. intros x _. apply int3_code_ok.
Qed.

Lemma token_row_length kv t z head : slots !! t = Some z → (head < kc_heads c)%nat → length (token_row kv t head) = n.
Proof.
  intros Hz Hh. destruct Hok as (_ & _ & _ & _ & Ht & _). destruct (Ht kv) as (W & Ed & Eh & El).
  apply lookup_lt_Some in Hz. unfold token_row, wf_tensor3, t_tokens in *.
  assert (t < length (t_rows (tensor_of kv)))%nat as Hlt by lia.
  destruct (Forall_nth_In _ _ t [] W Hlt) as [H1 H2].
  rewrite <-Ed. apply (Forall_nth_In _ _ head [] H2). lia.
Qed.
End Written.

(** ** Properties *)

(** C27: the INT3 cache keeps what is written.  For tensors of the layer's geometry, a
    storage whose packed cell is a whole number of words, and distinct slots
    (negative ones counting from the end), the write succeeds; for every token and
    head, in the key and in the value view, the kernel's two-byte load gives the
    quantizer's code in every dimension and its signed value, the strided float32
    view gives the token's scale, and the reference dequantizer of the cell gives
    the signed codes times that scale; and every byte of every other slot is as it
    was. *)
Theorem int3_cache_roundtrip (c : KvCache) (n : nat) (key value : tensor3 f32) (slots : list Z) :
  write_ok c n key value slots →
  ∃ c', reshape_and_cache_kvquant_k3 key value slots c = (Ok tt, c')
  ∧ (∀ kv t z head, (kv < 2)%nat → slots !! t = Some z → (head < kc_heads c)%nat →
       let row := token_row key value kv t head in
       let scale := f32_of_word (f32_word (int3_scale row)) in
       (∀ i, (i < n)%nat →
          int3_code_load (kc_mem c') (kv_base c kv) (kv_strides c) (slot_block c z) (slot_offset c z) head i
          = int3_code (int3_scale row) (nth i row f32_zero))
       ∧ scale_load c' kv (slot_block c z) (slot_offset c z) head = scale
       ∧ dequantize_int3_per_token_head_ref (_kvquant_k3_packed_dim n) [cell_bytes c n c' kv z head]
           [scale_load c' kv (slot_block c z) (slot_offset c z) head] n
         = Ok [map (λ x, f32_mul (int3_signed (int3_code (int3_scale row) x)) scale) row])
  ∧ (∀ kv fs head j, (kv < 2)%nat → (∀ t z, slots !! t = Some z → slot_index c z ≠ fs) → (head < kc_heads c)%nat →
       (j < kc_dim c)%nat →
       nth (cell_index c kv fs head * kc_dim c + j) (kc_mem c') 0%Z = nth (cell_index c kv fs head * kc_dim c + j) (kc_mem c) 0%Z).
Proof.
  intros Hok. eexists. split; [by apply (write_run c n)|]. split.
  - intros kv t z head Hkv Hz Hh row scale. pose proof (token_row_length c n key value slots Hok kv t z head Hz Hh) as Hr.
    split; [|split].
    + intros i Hi. rewrite (code_load_written c n key value slots Hok kv t z head) by done. unfold row_codes.
      by rewrite (nth_map_lt _ _ _ _ f32_zero) by (fold row in Hr |- *; lia).
    + by apply scale_load_written.
    + rewrite (scale_load_written c n key value slots Hok kv t z head) by done.
      rewrite (cell_bytes_written c n key value slots Hok kv t z head) by done. rewrite dequantize_row by done.
      do 2 f_equal. apply map_ext. intros x. unfold int3_signed. f_equal. symmetry. apply f32_sub_small, int3_code_ok.
  - intros kv fs head j Hkv Hfs Hh Hj. by apply other_byte.
Qed.

(** C40: where the scale views fit.  With cells of packed codes and a four-byte scale,
    the scale of every cell is its last four bytes when the packed width is a whole
    number of words.  When it is not (head size 80: 30 bytes), the view of the first
    cell starts inside its packed codes, so that storing its scale overwrites codes
    written just before. *)
Theorem int3_scale_view_fits (c : KvCache) (n : nat) (pd := _kvquant_k3_packed_dim n) :
  kc_dim c = (pd + 4)%nat →
  ((4 | pd)%nat → ∀ kv fs head, (kv < 2)%nat →
     (4 * scale_word c kv (fs / kc_block_size c) (fs mod kc_block_size c) head
      = cell_base c kv (fs / kc_block_size c) (fs mod kc_block_size c) head + pd)%nat)
  ∧ (¬ (4 | pd)%nat → ∀ x, covers (scale_store c 0 0 0 0 x) (cell_base c 0 0 0 0 + (pd - 1)))
  ∧ _kvquant_k3_packed_dim 80 = 30%nat.
Proof.
  intros Hd. split; [|split; [|done]].
  - intros [k Hk] kv fs head Hkv. rewrite (scale_word_aligned c kv fs head (k + 1)) by lia. rewrite cell_base_index. lia.
  - intros Hn x. assert (4 * (pd / 4) + pd mod 4 = pd)%nat as E by (symmetry; apply Nat.div_mod_eq).
    pose proof (Nat.mod_upper_bound pd 4 ltac:(lia)).
    assert (pd mod 4 ≠ 0)%nat as Hm by (intros H0; apply Hn; exists (pd / 4)%nat; lia).
    unfold covers, scale_store, cell_base, kv_base, scale_word, scale_offset. cbn [fst snd Nat.eqb].
    rewrite Hd, Nat.add_sub. change (length (le_bytes _)) with 4%nat. lia.
Qed.
End Int3.

(** A padding token ([PAD_SLOT_ID] is -1) is written, to the last slot of the storage:
    the other writers of the file's callers skip it. *)
Lemma padding_slot (c : KvCache) : (0 < kc_slots c)%nat → slot_ok c (-1) ∧ slot_index c (-1) = (kc_slots c - 1)%nat.
Proof.
  intros H. split; [unfold slot_ok; lia|]. unfold slot_index. set (T := kc_slots c) in *.
  assert (-1 mod Z.of_nat T = Z.of_nat T - 1)%Z as -> by (symmetry; apply (Z.mod_unique _ _ (-1)); lia). lia.
Qed.

(** ** Instances *)

Definition sf_1e6 : spec_float := S754_finite false 8796093 (-43).

(** Binary32 patterns; one NaN pattern. *)
Definition sf_encode (x : spec_float) : Z :=
  let bits (s : bool) v := ((if s then 2147483648 else 0) + v)%Z in
  ((match x with
  | S754_zero s => bits s 0
  | S754_infinity s => bits s 2139095040
  | S754_nan => 2143289344
  | S754_finite s m e => if (Zpos m <? 8388608)%Z then bits s (Zpos m) else bits s ((e + 150) * 8388608 + (Zpos m - 8388608))
  end) mod 2 ^ 32)%Z.

Definition sf_decode (p : Z) : spec_float :=
  let s := (2147483648 <=? p)%Z in
  let ex := Z.land (Z.shiftr p 23) 255 in
  let fr := Z.land p 8388607 in
  if (ex =? 255)%Z then (if (fr =? 0)%Z then S754_infinity s else S754_nan)
  else
    let m := if (ex =? 0)%Z then fr else (8388608 + fr)%Z in
    let e := if (ex =? 0)%Z then (-149)%Z else (ex - 150)%Z in
    binary_normalize 24 128 (if s then - m else m) e s.

#[export] Instance SpecFloatSigned : TorchSigned SpecFloatTorch := {
  f32_abs := SFabs;
  f32_clamp_min_1e6 := λ x, sf_max sf_1e6 x;
  f32_to_i16 := sf_trunc
}.

#[export] Instance SpecFloatWords : Float32Words SpecFloatTorch.
Proof. refine {| f32_word := sf_encode; f32_of_word := sf_decode |}. intros x. apply Z.mod_pos_bound. lia. Defined.

Lemma sf_trunc_signed (lo hi : Z) x :
  (lo ≤ 0 ≤ hi)%Z → sf_lt_int x lo = false → sf_gt_int x hi = false → (lo ≤ sf_trunc x ≤ hi)%Z.
Proof.
  intros Hlh. destruct x as [s|s| |s m e]; simpl; try lia.
  destruct (Z.leb_spec 0 e) as [He|He]; [lia|]. intros H1 H2. apply Z.ltb_ge in H1, H2.
  pose proof (Z.pow_pos_nonneg 2 (- e) ltac:(lia) ltac:(lia)) as Hp. set (P := (2 ^ (- e))%Z) in *.
  set (a := sf_signed s m) in *. pose proof (Z.quot_rem' a P) as Eq. pose proof (Z.rem_bound_abs a P ltac:(lia)) as Hr.
  destruct (Z.le_gt_cases 0 a) as [Ha|Ha].
  - pose proof (Z.rem_nonneg a P ltac:(lia) Ha). pose proof (Z.quot_pos a P Ha Hp). nia.
  - pose proof (Z.rem_nonpos a P ltac:(lia) ltac:(lia)). nia.
Qed.

#[export] Instance SpecFloatSigned_laws : TorchSignedLaws SpecFloatSigned.
Proof.
  split.
  - intros x. simpl. unfold sf_clamp.
    destruct (sf_lt_int x (-4)) eqn:E1; [by vm_compute; split|].
    destruct (sf_gt_int x 3) eqn:E2; [by vm_compute; split|]. apply sf_trunc_signed; [lia|done|done].
  - intros c Hc. assert (c = 0 ∨ c = 1 ∨ c = 2 ∨ c = 3 ∨ c = 4 ∨ c = 5 ∨ c = 6 ∨ c = 7)%Z as Hd by lia.
    by destruct Hd as [->|[->|[->|[->|[->|[->|[->| ->]]]]]]].
Qed.

Section Concrete.
#[local] Existing Instance FixedTorch.

#[local] Instance FixedSigned : TorchSigned FixedTorch := {
  f32_abs := Z.abs;
  f32_clamp_min_1e6 := λ x, Z.max 1 x;
  f32_to_i16 := λ x, (x / UNIT)%Z
}.

#[local] Instance FixedSigned_laws : TorchSignedLaws FixedSigned.
Proof.
  split.
  - intros x. cbn. unfold fx_clamp, UNIT. split; [apply Z.div_le_lower_bound; lia|].
    apply Z.lt_succ_r, Z.div_lt_upper_bound; lia.
  - intros c _. cbn. lia.
Qed.

#[local] Instance FixedWords : Float32Words FixedTorch.
Proof. refine (@Build_Float32Words FixedTorch (λ x : Z, (x mod 2 ^ 32)%Z) (λ p : Z, p) _). intros x. apply Z.mod_pos_bound. lia. Defined.

(** Two blocks of 16 slots, two heads of 32 dimensions. *)
Definition int3_storage : KvCache := mkKv 2 16 2 16 (replicate 2048 0%Z).
Definition int3_tokens (x : Z) : tensor3 (@f32 FixedTorch) :=
  mkTensor3 2 32 [[tab 32 (λ i, Z.of_nat i * x)%Z; replicate 32 x]; [replicate 32 0%Z; tab 32 (λ i, x - Z.of_nat i * UNIT)%Z]].

Lemma int3_storage_ok : write_ok int3_storage 32 (int3_tokens 3000) (int3_tokens 70000) [3; -1]%Z.
Proof.
  split; [split; [cbn; lia|reflexivity]|]. split; [lia|]. split; [done|]. split; [by exists 3%nat|].
  split; [|split].
  - intros [|kv]; (split; [repeat constructor|done]).
  - constructor; [by vm_compute|constructor; [by vm_compute|constructor]].
  - apply (bool_decide_unpack _). by vm_compute.
Qed.

Lemma last_slot : slot_block int3_storage (-1) = 1%nat ∧ slot_offset int3_storage (-1) = 15%nat.
Proof. split; vm_compute; reflexivity. Qed.

(** C27 on two tokens, the second at a negative slot: its head 1, dimension 30. *)
Lemma int3_cache_roundtrip_witness :
  ∃ c', reshape_and_cache_kvquant_k3 (int3_tokens 3000) (int3_tokens 70000) [3; -1]%Z int3_storage = (Ok tt, c')
  ∧ int3_code_load (kc_mem c') (kv_base int3_storage 1) (kv_strides int3_storage) 1 15 1 30
    = int3_code (int3_scale (token_row (int3_tokens 3000) (int3_tokens 70000) 1 1 1)) (70000 - 30 * UNIT)%Z.
Proof.
  destruct (int3_cache_roundtrip int3_storage 32 (int3_tokens 3000) (int3_tokens 70000) [3; -1]%Z int3_storage_ok)
    as (c' & E & H & _). exists c'. split; [exact E|].
  destruct (H 1%nat 1%nat (-1)%Z 1%nat) as (Hc & _); [lia|done|cbn; lia|].
  destruct last_slot as [<- <-]. exact (Hc 30%nat (proj1 (Nat.ltb_lt 30 32) eq_refl)).
Defined.

(** C40 at head sizes 32 and 80. *)
Lemma int3_scale_view_fits_witness :
  (4 * scale_word int3_storage 1 1 15 1 = cell_base int3_storage 1 1 15 1 + 12)%nat
  ∧ covers (scale_store (mkKv 1 16 1 34 []) 0 0 0 0 0%Z) 29.
Proof.
  destruct (int3_scale_view_fits int3_storage 32) as (H1 & _); [done|].
  destruct (int3_scale_view_fits (mkKv 1 16 1 34 []) 80) as (_ & H2 & _); [done|]. split.
  - exact (H1 ltac:(by exists 3%nat) 1%nat 31%nat 1%nat (le_n 2)).
  - apply (H2 ltac:(intros [k Hk]; change (30 = k * 4)%nat in Hk; lia) 0%Z).
Defined.
End Concrete.
