(* ===== verification/FastAppend.v ===== *)
(** * The final one-token append

    The last section of [rabit_kv2.py] replaces
    [Rabit2SingleSequenceRuntime.append]: on a CUDA token of 8 heads of 128 BF16
    channels it keeps the residual and the open group in buffers that are
    allocated once, quantizes the aged V token with
    [_rabit2_final_v2_age_kernel], rotates the residual in place with
    [_rabit2_final_shift_recent_kernel], and closes a full group with the
    runtime's own flush.  Everything else falls through to the append of
    [Runtime].

    The buffers are flat device memory ([TorchEmpty]).  The runtime's fields are views of
    the buffers; the only code that writes the buffers reassigns every view
    before it returns, so a view is modelled by its value. *)

From Stdlib Require Import ZArith Lia.
From stdpp Require Import base tactics numbers list option.
From S2P Require Import Prelude Layout Torch BitPack Meta Quant Triton FixedTorch Decoded Page Sidecar Tail.
From S2P Require Import OnlineRef Runtime Bulk ChunkPlan.

Section FastAppend.
Context `{TF : TorchFloat} {TR : TritonFloat} {TE : TorchEmpty}.

(** ** The two kernels *)

(** The open group's V buffers: packed codes, minima, scales. *)
Record OpenV := mkOpenV { ov_packed : list Z; ov_min : list f32; ov_scale : list f32 }.

Definition v2_age_program (HEAD_SIZE V_GROUPS PACKED_DIM NUM_HEADS open_slot : nat)
    (recent_v : list Z) (p : nat) (m : OpenV) : OpenV :=
  let h := (p / V_GROUPS)%nat in
  let g := (p mod V_GROUPS)%nat in
  let base := (h * HEAD_SIZE + g * 32)%nat in
  let x := map f32_of_bf16 (load_block 32 base recent_v) in
  let qmin := tl_min x in
  let scale := tl_scale f32_abs_lt_1e8 3 qmin (tl_max x) in
  let q b k := tl_code_rn 3 qmin scale (f32_of_bf16 (nth (base + b * 4 + k) recent_v 0%Z)) in
  let bytes := map (λ b, v2_byte (q b 0) (q b 1) (q b 2) (q b 3))%nat (seq 0 8) in
  let meta_off := ((open_slot * NUM_HEADS + h) * V_GROUPS + g)%nat in
  {| ov_packed := store_block ((open_slot * NUM_HEADS + h) * PACKED_DIM + g * 8) bytes (ov_packed m);
     ov_min := store_block meta_off [qmin] (ov_min m);
     ov_scale := store_block meta_off [scale] (ov_scale m) |}.

Definition _rabit2_final_v2_age_kernel (HEAD_SIZE V_GROUPS PACKED_DIM NUM_HEADS open_slot : nat)
    (recent_v : list Z) : OpenV → OpenV :=
  launch (NUM_HEADS * V_GROUPS)
    (v2_age_program HEAD_SIZE V_GROUPS PACKED_DIM NUM_HEADS open_slot recent_v).

(** The residual buffers and the open K buffer. *)
Record ShiftMem := mkShift { sm_k : list Z; sm_v : list Z; sm_open_k : list Z }.

(** The lanes [off < N] of one program; all loads precede the stores. *)
Definition shift_program (N BLOCK open_slot : nat) (new_k new_v : list Z) (p : nat)
    (m : ShiftMem) : ShiftMem :=
  let off := (p * BLOCK)%nat in
  let n := (BLOCK `min` (N - off))%nat in
  let k i := load_block n (i * N + off) (sm_k m) in
  let v i := load_block n (i * N + off) (sm_v m) in
  let nk := load_block n off new_k in
  let nv := load_block n off new_v in
  let put i vals := store_block (i * N + off) vals in
  {| sm_open_k := put open_slot (k 0%nat) (sm_open_k m);
     sm_k := put 3 nk (put 2 (k 3) (put 1 (k 2) (put 0 (k 1) (sm_k m))));
     sm_v := put 3 nv (put 2 (v 3) (put 1 (v 2) (put 0 (v 1) (sm_v m)))) |}%nat.

Definition _rabit2_final_shift_recent_kernel (N BLOCK open_slot : nat) (new_k new_v : list Z) :
    ShiftMem → ShiftMem :=
  launch ((N + (BLOCK - 1)) / BLOCK) (shift_program N BLOCK open_slot new_k new_v).

(** ** The state *)

(** A tensor argument: BF16 bits or another floating type, its device and
    whether it is contiguous. *)
Inductive tensor_data := TBf16 (t : tensor3 Z) | TFloat (t : tensor3 f32).
Record dev_tensor := mkDev { dt_cuda : bool; dt_contiguous : bool; dt_data : tensor_data }.

Definition as_f32 (x : dev_tensor) : tensor3 f32 :=
  match dt_data x with TBf16 t => t_map f32_of_bf16 t | TFloat t => t end.

(** The [_rabit2_final_*_buf] attributes and [_rabit2_final_open_len]. *)
Record FastBuffers := mkBuffers {
  fb_recent_k : list Z;
  fb_recent_v : list Z;
  fb_open_k : list Z;
  fb_open_v : OpenV;
  fb_open_len : nat
}.

(** The runtime, its cache, the flag and the buffer attributes. *)
Record FastState := mkFast {
  fs_rt : RtState;
  fs_ready : bool;
  fs_buf : option FastBuffers
}.

Definition on_rt {A} (m : ST RtState A) : ST FastState A := λ s,
  let '(r, rt) := m (fs_rt s) in (r, mkFast rt (fs_ready s) (fs_buf s)).

Definition FAST_H : nat := 8.
Definition FAST_D : nat := 128.

Definition fast_shape (key value : dev_tensor) (r : Rabit2SingleSequenceRuntime) : option (tensor3 Z * tensor3 Z) :=
  match dt_data key, dt_data value with
  | TBf16 k, TBf16 v =>
      if shape_eqb k v && (t_tokens k =? 1)%nat && dt_cuda key && dt_cuda value
         && dt_contiguous key && dt_contiguous value
         && (t_heads k =? FAST_H)%nat && (t_dim k =? FAST_D)%nat
         && (rt_num_kv_heads r =? FAST_H)%nat && (rt_head_size_k r =? FAST_D)%nat
         && (rt_head_size_v r =? FAST_D)%nat
      then Some (k, v) else None
  | _, _ => None
  end.

Definition _rabit2_final_drop_fast_buffers : ST FastState unit :=
  st_modify (λ s, mkFast (fs_rt s) false (fs_buf s)).

(** [buf[:n]] as a tensor of [n] tokens. *)
Definition view_tensor {A} (n h d : nat) (buf : list A) : tensor3 A := mkTensor3 h d (view3 n h d buf).

(** The open fields as views of the first [n] slots. *)
Definition open_views (n : nat) (open_k : list Z) (ov : OpenV) (rk rv : tensor3 Z) : Sidecar :=
  {| open_k := Some (view_tensor n FAST_H FAST_D open_k);
     open_v_packed := Some (view_tensor n FAST_H 32 (ov_packed ov));
     open_v_min := Some (view_tensor n FAST_H 4 (ov_min ov));
     open_v_scale := Some (view_tensor n FAST_H 4 (ov_scale ov));
     recent_k := Some rk;
     recent_v := Some rv |}.

Definition set_rt_sidecar (sc : Sidecar) (s : RtState) : RtState :=
  mkRt (runtime_set_sidecar sc (rs_runtime s)) (rs_cache s).

(** [_rabit2_final_prepare_fast_buffers]; [cuda] is whether the residual of the
    sequence is on a CUDA device.  The residual is a result of [torch.cat] or a
    leading slice of one, hence contiguous. *)
Definition _rabit2_final_prepare_fast_buffers (cuda : bool) : ST FastState bool :=
  s ← st_get;
  if fs_ready s then mret true
  else
    let r := rs_runtime (fs_rt s) in
    let sc := rt_sidecar r in
    match recent_k sc, recent_v sc with
    | Some rk, Some rv =>
        if negb cuda || negb (t_tokens rk =? RESIDUAL)%nat || negb (rt_num_kv_heads r =? FAST_H)%nat
           || negb (rt_head_size_k r =? FAST_D)%nat || negb (rt_head_size_v r =? FAST_D)%nat
        then mret false
        else
          let recent_k_buf := store_block 0 (flatten3 rk) (empty_int (4 * (FAST_H * FAST_D))) in
          let recent_v_buf := store_block 0 (flatten3 rv) (empty_int (4 * (FAST_H * FAST_D))) in
          let open_k_buf := empty_int (32 * (FAST_H * FAST_D)) in
          let open_v_buf := mkOpenV (empty_int (32 * (FAST_H * 32))) (empty_float (32 * (FAST_H * 4)))
                                    (empty_float (32 * (FAST_H * 4))) in
          let rk' := view_tensor 4 FAST_H FAST_D recent_k_buf in
          let rv' := view_tensor 4 FAST_H FAST_D recent_v_buf in
          let install open_len ok ov sc' :=
            st_put (mkFast (set_rt_sidecar sc' (fs_rt s)) true
                           (Some (mkBuffers recent_k_buf recent_v_buf ok ov open_len)));; mret true in
          match tensor_len (open_k sc) with
          | 0%nat => install 0%nat open_k_buf open_v_buf (mkSidecar None None None None (Some rk') (Some rv'))
          | open_len =>
              match open_k sc, open_v_packed sc, open_v_min sc, open_v_scale sc with
              | Some ok, Some packed, Some q_min, Some scale =>
                  st_raise_if (32 <? open_len)%nat RuntimeError;;
                  let ok' := store_block 0 (flatten3 ok) open_k_buf in
                  let ov' := mkOpenV (store_block 0 (flatten3 packed) (ov_packed open_v_buf))
                                     (store_block 0 (flatten3 q_min) (ov_min open_v_buf))
                                     (store_block 0 (flatten3 scale) (ov_scale open_v_buf)) in
                  install open_len ok' ov' (open_views open_len ok' ov' rk' rv')
              | _, _, _, _ => mret false
              end
          end
    | _, _ => mret false
    end.

(** The steady-state path, after the buffers are ready. *)
Definition fast_token (block_table_row : list nat) (key value : tensor3 Z) : ST FastState unit :=
  s ← st_get;
  b ← st_lift (match fs_buf s with Some b => Ok b | None => Err AttributeError end);
  let open_slot := fb_open_len b in
  st_raise_if (negb (open_slot <? 32)%nat) RuntimeError;;
  let ov := _rabit2_final_v2_age_kernel FAST_D 4 32 FAST_H open_slot (fb_recent_v b) (fb_open_v b) in
  let m := _rabit2_final_shift_recent_kernel (FAST_H * FAST_D) 256 open_slot (flatten3 key)
             (flatten3 value) (mkShift (fb_recent_k b) (fb_recent_v b) (fb_open_k b)) in
  let new_open := (open_slot + 1)%nat in
  let sc := open_views new_open (sm_open_k m) ov (view_tensor 4 FAST_H FAST_D (sm_k m))
              (view_tensor 4 FAST_H FAST_D (sm_v m)) in
  let set_len n := st_modify (λ s, mkFast (fs_rt s) (fs_ready s)
    (Some (mkBuffers (sm_k m) (sm_v m) (sm_open_k m) ov n))) in
  set_len open_slot;;
  st_modify (λ s, mkFast (set_rt_sidecar sc (fs_rt s)) (fs_ready s) (fs_buf s));;
  if (new_open =? 32)%nat then
    on_rt (_flush_open_page block_table_row);; set_len 0%nat
  else set_len new_open.

Definition _rabit2_final_fast_decode_append (cuda : bool) (block_table_row : list nat)
    (key value : dev_tensor) : ST FastState unit :=
  let old_append := on_rt (runtime_append block_table_row (as_f32 key) (as_f32 value)) in
  let drop_buffers s := if fs_ready s then _rabit2_final_drop_fast_buffers else mret tt in
  s ← st_get;
  match fast_shape key value (rs_runtime (fs_rt s)) with
  | None => drop_buffers s;; old_append
  | Some (k, v) =>
      match recent_k (rt_sidecar (rs_runtime (fs_rt s))) with
      | Some rk =>
          if (t_tokens rk <? 4)%nat then drop_buffers s;; old_append
          else
            ok ← _rabit2_final_prepare_fast_buffers cuda;
            if ok : bool then fast_token block_table_row k v else old_append
      | None => drop_buffers s;; old_append
      end
  end.

(** A chunk as [_forward_rabit_kv2] advances it: a plan, then every step. *)
Definition run_chunk (block_table_row : list nat) (key value : tensor3 f32) : ST RtState unit := λ s,
  match chunkplan_init block_table_row key value s with
  | (Ok p, s1) => let '(r, (_, s2)) := apply_steps (t_tokens key) (p, s1) in (r, s2)
  | (Err e, s1) => (Err e, s1)
  end.

(** One contiguous CUDA BF16 token of the production geometry. *)
Definition cuda_token (k v : list (list Z)) : dev_tensor * dev_tensor :=
  (mkDev true true (TBf16 (mkTensor3 FAST_H FAST_D [k])),
   mkDev true true (TBf16 (mkTensor3 FAST_H FAST_D [v]))).

(** ** The shift kernel *)

Definition mix {A} (c : nat) (x y : list A) : list A := take c x ++ drop c y.

Lemma load_mid {A} n off (pre seg post : list A) :
  (off + n ≤ length seg)%nat →
  load_block n (length pre + off) (pre ++ seg ++ post) = load_block n off seg.
Proof.
  intros H. unfold load_block, slice. rewrite drop_app, drop_ge by lia. cbn [app].
  replace (length pre + off - length pre)%nat with off by lia.
  rewrite drop_app_le by lia. replace (length pre + off + n - (length pre + off))%nat with n by lia.
  replace (off + n - off)%nat with n by lia. rewrite take_app_le; [done|]. rewrite length_drop. lia.
Qed.

Lemma store_mid {A} off (vals pre seg post : list A) :
  (off + length vals ≤ length seg)%nat →
  store_block (length pre + off) vals (pre ++ seg ++ post) = pre ++ store_block off vals seg ++ post.
Proof.
  intros H. unfold store_block. rewrite take_app, (take_ge pre) by lia.
  replace (length pre + off - length pre)%nat with off by lia. rewrite take_app_le by lia.
  rewrite drop_app, (drop_ge pre) by lia. cbn [app].
  replace (length pre + off + length vals - length pre)%nat with (off + length vals)%nat by lia.
  rewrite drop_app_le by lia. by rewrite <-!app_assoc.
Qed.

Lemma seg_load {A} n i off k (segs : list (list A)) seg :
  Forall (λ s, length s = n) segs → segs !! i = Some seg → (off + k ≤ n)%nat →
  load_block k (i * n + off) (concat segs) = load_block k off seg.
Proof.
  intros H Hi Hk. destruct (seg_split n i segs seg H Hi) as (-> & <- & Hl). apply load_mid. lia.
Qed.

Lemma seg_store {A} n i off vals (segs : list (list A)) seg :
  Forall (λ s, length s = n) segs → segs !! i = Some seg → (off + length vals ≤ n)%nat →
  store_block (i * n + off) vals (concat segs) = concat (<[i := store_block off vals seg]> segs)
  ∧ Forall (λ s, length s = n) (<[i := store_block off vals seg]> segs).
Proof.
  intros H Hi Hk. destruct (seg_split n i segs seg H Hi) as (E & El & Hl). split.
  - rewrite E, <-El, store_mid by lia. rewrite insert_take_drop by (by eapply lookup_lt_Some).
    rewrite concat_app. done.
  - apply Forall_insert; [done|]. rewrite store_block_length; lia.
Qed.

Section Mix.
Context {A : Type} (n c k : nat) (x y : list A).
Hypotheses (Hx : length x = n) (Hy : length y = n) (Hc : (c + k ≤ n)%nat).

Lemma mix_load : load_block k c (mix c x y) = load_block k c y.
Proof.
  unfold load_block, slice, mix. rewrite drop_app, drop_ge by (rewrite length_take; lia).
  cbn [app]. rewrite length_take, Hx. replace (c - c `min` n)%nat with 0%nat by lia. done.
Qed.

Lemma mix_store : store_block c (load_block k c x) (mix c x y) = mix (c + k) x y.
Proof.
  assert (length (load_block k c x) = k) as Hk by (unfold load_block; rewrite slice_length; lia).
  unfold store_block. rewrite Hk. unfold mix, load_block, slice.
  assert (length (take c x) = c) as Hl by (rewrite length_take; lia).
  rewrite take_app_length' by done. rewrite drop_app, (drop_ge (take c x)) by lia. cbn [app]. rewrite Hl.
  replace (c + k - c)%nat with k by lia. rewrite drop_drop, app_assoc. f_equal.
  apply take_take_drop.
Qed.
End Mix.

Lemma mix_length {A} n c (x y : list A) :
  length x = n → length y = n → (c ≤ n)%nat → length (mix c x y) = n.
Proof. intros. unfold mix. rewrite length_app, length_take, length_drop. lia. Qed.

(** Shifting four residual slots of [n] features by one program's lanes. *)
Lemma shift_four n c k (a0 a1 a2 a3 new : list Z) :
  Forall (λ s, length s = n) [a0; a1; a2; a3; new] → (c + k ≤ n)%nat →
  let mem := concat [mix c a1 a0; mix c a2 a1; mix c a3 a2; mix c new a3] in
  let ld i := load_block k (i * n + c) mem in
  store_block (3 * n + c) (load_block k c new)
    (store_block (2 * n + c) (ld 3) (store_block (1 * n + c) (ld 2)
      (store_block (0 * n + c) (ld 1) mem)))%nat
  = concat [mix (c + k) a1 a0; mix (c + k) a2 a1; mix (c + k) a3 a2; mix (c + k) new a3]
  ∧ ld 0%nat = load_block k c a0.
Proof.
  intros HF Hc. rewrite !Forall_cons_iff in HF. destruct HF as (H0 & H1 & H2 & H3 & Hn & _).
  set (segs := [mix c a1 a0; mix c a2 a1; mix c a3 a2; mix c new a3]).
  assert (Forall (λ s, length s = n) segs) as HS
    by (unfold segs; rewrite !Forall_cons_iff, !(mix_length n) by (done || lia); done).
  assert (∀ x : list Z, length x = n → length (load_block k c x) = k) as Hlk
    by (intros x Hx; unfold load_block; rewrite slice_length; lia).
  cbv zeta beta.
  assert (load_block k (0 * n + c) (concat segs) = load_block k c a0) as ->
    by (rewrite (seg_load n 0 c k segs (mix c a1 a0)) by (done || lia); apply mix_load with n; done).
  rewrite (seg_load n 1 c k segs (mix c a2 a1)), (seg_load n 2 c k segs (mix c a3 a2)),
    (seg_load n 3 c k segs (mix c new a3)) by (done || lia).
  rewrite !(mix_load n) by done. split; [|done].
  destruct (seg_store n 0 c (load_block k c a1) segs (mix c a1 a0) HS eq_refl ltac:(rewrite Hlk; lia))
    as [-> HS0].
  rewrite (mix_store n) in * by done. cbn [list_insert insert segs] in *.
  destruct (seg_store n 1 c (load_block k c a2) _ (mix c a2 a1) HS0 eq_refl ltac:(rewrite Hlk; lia))
    as [-> HS1].
  rewrite (mix_store n) in * by done. cbn [list_insert insert] in *.
  destruct (seg_store n 2 c (load_block k c a3) _ (mix c a3 a2) HS1 eq_refl ltac:(rewrite Hlk; lia))
    as [-> HS2].
  rewrite (mix_store n) in * by done. cbn [list_insert insert] in *.
  destruct (seg_store n 3 c (load_block k c new) _ (mix c new a3) HS2 eq_refl ltac:(rewrite Hlk; lia))
    as [-> HS3].
  by rewrite (mix_store n) in * by done.
Qed.

(** The kernel rotates both residuals and copies the oldest key to the open slot. *)
Lemma shift_kernel_spec n B slot (a0 a1 a2 a3 new b0 b1 b2 b3 newb pre rest : list Z) :
  (0 < B)%nat → Forall (λ s, length s = n) [a0; a1; a2; a3; new] →
  Forall (λ s, length s = n) [b0; b1; b2; b3; newb] →
  length pre = (slot * n)%nat → (n ≤ length rest)%nat →
  _rabit2_final_shift_recent_kernel n B slot new newb
    (mkShift (concat [a0; a1; a2; a3]) (concat [b0; b1; b2; b3]) (pre ++ rest))
  = mkShift (concat [a1; a2; a3; new]) (concat [b1; b2; b3; newb]) (pre ++ a0 ++ drop n rest).
Proof.
  intros HB Ha Hb Hpre Hrest.
  pose (c p := ((p * B) `min` n)%nat).
  pose (st c := mkShift (concat [mix c a1 a0; mix c a2 a1; mix c a3 a2; mix c new a3])
                        (concat [mix c b1 b0; mix c b2 b1; mix c b3 b2; mix c newb b3])
                        (pre ++ mix c a0 (take n rest) ++ drop n rest)).
  assert (∀ x y : list Z, mix 0 x y = y) as H0 by (intros; unfold mix; by rewrite take_0, drop_0).
  assert (∀ x y : list Z, length x = n → length y = n → mix n x y = x) as H1.
  { intros x y Hx Hy. unfold mix. rewrite take_ge, drop_ge by lia. apply app_nil_r. }
  set (P := ((n + (B - 1)) / B)%nat).
  assert (st (c 0%nat) = mkShift (concat [a0; a1; a2; a3]) (concat [b0; b1; b2; b3]) (pre ++ rest)) as <-.
  { unfold st, c. rewrite Nat.mul_0_l, Nat.min_0_l, !H0, take_drop. done. }
  assert (st (c P) = mkShift (concat [a1; a2; a3; new]) (concat [b1; b2; b3; newb])
                             (pre ++ a0 ++ drop n rest)) as <-.
  { unfold st. assert (c P = n) as ->.
    { unfold c, P. pose proof (Nat.div_mod_eq (n + (B - 1)) B).
      pose proof (Nat.mod_upper_bound (n + (B - 1)) B ltac:(lia)). nia. }
    rewrite !Forall_cons_iff in Ha, Hb. destruct Ha as (?&?&?&?&?&_), Hb as (?&?&?&?&?&_).
    rewrite !H1 by (done || (rewrite length_take; lia)). done. }
  unfold _rabit2_final_shift_recent_kernel. fold P.
  apply (launch_ind (λ p m, m = st (c p))); [done|]. intros p m Hp ->.
  assert (p * B < n)%nat as Hpn.
  { unfold P in Hp. pose proof (Nat.div_mod_eq (n + (B - 1)) B). nia. }
  assert (c p = p * B)%nat as Ec by (unfold c; lia).
  unfold shift_program. set (k := (B `min` (n - p * B))%nat).
  assert (c (S p) = p * B + k)%nat as -> by (unfold c, k; lia). rewrite Ec. unfold st. cbn [sm_k sm_v sm_open_k].
  destruct (shift_four n (p * B) k a0 a1 a2 a3 new Ha ltac:(unfold k; lia)) as [Ek E0].
  destruct (shift_four n (p * B) k b0 b1 b2 b3 newb Hb ltac:(unfold k; lia)) as [Ev _].
  cbv zeta in Ek, Ev, E0. rewrite Ek, Ev, E0. f_equal. rewrite <-Hpre.
  rewrite !Forall_cons_iff in Ha. destruct Ha as (?&?&?&?&?&_).
  assert (length (take n rest) = n) by (rewrite length_take; lia).
  rewrite store_mid.
  - by rewrite (mix_store n) by (done || (unfold k; lia)).
  - unfold load_block. rewrite slice_length, (mix_length n) by (done || lia). unfold k. lia.
Qed.

(** ** The V ageing kernel *)

(** The quantizer groups of one token, in program order. *)
Definition token_groups (d : nat) (tok : list (list Z)) : list (list f32) :=
  concat (map (v_row_groups GROUP (v_pad_dim_of d)) (map (map f32_of_bf16) tok)).

(** All 32-channel groups of a token are ordinary blocks. *)
Definition token_regular {TL : TritonLaws TR} (d : nat) (tok : list (list Z)) : Prop :=
  Forall tl_regular (token_groups d tok).

Lemma aligned_dims g : v_pad_dim_of (g * 32) = (g * 32)%nat ∧ v_groups_of (g * 32) = g.
Proof.
  unfold v_pad_dim_of, v_groups_of. rewrite Nat.div_add_l, Nat.div_small by lia. lia.
Qed.

Lemma token_groups_shape h g tok :
  wf_row h (g * 32) tok →
  concat (token_groups (g * 32) tok) = map f32_of_bf16 (concat tok)
  ∧ length (token_groups (g * 32) tok) = (h * g)%nat
  ∧ Forall (λ x, length x = 32%nat) (token_groups (g * 32) tok).
Proof.
  intros [Hl Hr]. unfold token_groups. rewrite map_map. destruct (aligned_dims g) as [-> Eg].
  assert (∀ r : list Z, length r = (g * 32)%nat →
            concat (v_row_groups GROUP (g * 32) (map f32_of_bf16 r)) = map f32_of_bf16 r) as Hcat.
  { intros r E. unfold v_row_groups, GROUP. rewrite length_map, E, Nat.sub_diag, app_nil_r, Nat.div_mul by lia.
    apply concat_view2. by rewrite length_map. }
  split; [|split].
  - clear Hl. induction Hr as [|r tok E Hr IH]; [done|]. cbn [map concat].
    by rewrite concat_app, IH, map_app, Hcat.
  - rewrite (length_concat_uniform g); [by rewrite length_map, Hl|]. rewrite Forall_map.
    eapply Forall_impl; [|exact Hr]. intros r E. cbv beta. unfold v_row_groups, GROUP.
    rewrite view2_length, Nat.div_mul; lia.
  - apply Forall_concat. rewrite Forall_map. eapply Forall_impl; [|exact Hr]. intros r E. cbv beta.
    unfold v_row_groups, GROUP. rewrite Nat.div_mul by lia. apply view2_Forall_length.
    rewrite length_app, length_map, length_replicate. lia.
Qed.

Lemma nth_load {A} n off j (l : list A) x :
  (j < n)%nat → nth j (load_block n off l) x = nth (off + j) l x.
Proof.
  intros Hj. unfold load_block, slice. rewrite <-nth_skipn. rewrite nth_firstn.
  replace (off + n - off)%nat with n by lia. by rewrite (proj2 (Nat.ltb_lt j n) Hj).
Qed.

(** Packing group by group is packing the row. *)
Lemma v2_pack_row_groups gs :
  Forall (λ g, length g = 32%nat) gs →
  concat (map (v2_pack_row 8) gs) = v2_pack_row (length gs * 8) (concat gs).
Proof.
  induction 1 as [|g gs Hg Hgs IH]; [done|]. cbn [map concat length]. rewrite IH. unfold v2_pack_row.
  replace (S (length gs) * 8)%nat with (8 + length gs * 8)%nat by lia. rewrite seq_app, map_app. f_equal.
  - apply map_ext_in. intros b [_ Hb]%in_seq. by rewrite !app_nth1 by lia.
  - rewrite (seq_shift_map (0 + 8)), map_map. apply map_ext. intros b.
    rewrite !app_nth2 by lia. rewrite Hg. f_equal; f_equal; lia.
Qed.

(** What program [p] computes on its group. *)
Lemma age_program_group {TL : TritonLaws TR} off (recents : list Z) x :
  x = map f32_of_bf16 (load_block 32 off recents) → length x = 32%nat → tl_regular x →
  let qmin := tl_min x in
  let scale := tl_scale f32_abs_lt_1e8 3 qmin (tl_max x) in
  let q b k := tl_code_rn 3 qmin scale (f32_of_bf16 (nth (off + b * 4 + k) recents 0%Z)) in
  qmin = amin x ∧ scale = v_group_scale x
  ∧ map (λ b, v2_byte (q b 0) (q b 1) (q b 2) (q b 3))%nat (seq 0 8) = v2_pack_row 8 (v_group_codes x).
Proof.
  intros Ex Hl Hreg. cbv zeta. rewrite tl_scale_affine by (done || tauto). rewrite tl_min_amin by done.
  split; [done|]. split; [done|]. unfold v2_pack_row. apply map_ext_in. intros b [_ Hb]%in_seq.
  assert (∀ k, (k < 4)%nat →
            tl_code_rn 3 (amin x) (affine_scale f32_abs_lt_1e8 3 (amin x) (amax x))
              (f32_of_bf16 (nth (off + b * 4 + k) recents 0%Z))
            = nth (4 * b + k) (v_group_codes x) 0%Z) as Hq.
  { intros k Hk. unfold v_group_codes. rewrite (nth_map_lt _ _ _ _ (f32_of_bf16 0)) by lia.
    assert (nth (4 * b + k) x (f32_of_bf16 0) = f32_of_bf16 (nth (off + b * 4 + k) recents 0%Z)) as <-.
    { rewrite Ex, map_nth, nth_load by lia. do 2 f_equal. lia. }
    apply tl_code_rn_affine; [lia|done|]. apply list_elem_of_In, nth_In. lia. }
  rewrite !Hq by lia. by rewrite Nat.add_0_r.
Qed.

(** One more block after the first [p] groups. *)
Lemma store_next {A} (F : list f32 → list A) k base p (G : list (list f32)) x mem :
  (∀ y, length (F y) = k) → G !! p = Some x → (base + length G * k ≤ length mem)%nat →
  store_block (base + p * k) (F x) (store_block base (concat (map F (take p G))) mem)
  = store_block base (concat (map F (take (S p) G))) mem.
Proof.
  intros HF Hx Hm. pose proof (lookup_lt_Some _ _ _ Hx) as Hp.
  assert (length (concat (map F (take p G))) = p * k)%nat as Hl.
  { rewrite (length_concat_uniform k); [rewrite length_map, length_take; f_equal; lia|].
    rewrite Forall_map. apply List.Forall_forall. intros y _. apply HF. }
  rewrite <-Hl at 1. rewrite store_block_app by (rewrite Hl, HF; nia).
  rewrite (take_S_r _ _ _ Hx), map_app, concat_app. cbn [map concat]. by rewrite app_nil_r.
Qed.

Lemma store_block_at {A} (vals pre rest : list A) :
  (length vals ≤ length rest)%nat →
  store_block (length pre) vals (pre ++ rest) = pre ++ vals ++ drop (length vals) rest.
Proof.
  intros H. unfold store_block. rewrite take_app_length, drop_app, (drop_ge pre) by lia.
  cbn [app]. by replace (length pre + length vals - length pre)%nat with (length vals) by lia.
Qed.

Lemma age_kernel_groups {TL : TritonLaws TR} h g slot tok tail m :
  (0 < g)%nat → wf_row h (g * 32) tok → token_regular (g * 32) tok →
  ((slot + 1) * (h * (g * 8)) ≤ length (ov_packed m))%nat →
  ((slot + 1) * (h * g) ≤ length (ov_min m))%nat → ((slot + 1) * (h * g) ≤ length (ov_scale m))%nat →
  let G := token_groups (g * 32) tok in
  _rabit2_final_v2_age_kernel (g * 32) g (g * 8) h slot (concat tok ++ tail) m
  = mkOpenV (store_block (slot * (h * (g * 8))) (concat (map (λ x, v2_pack_row 8 (v_group_codes x)) G)) (ov_packed m))
            (store_block (slot * (h * g)) (map amin G) (ov_min m))
            (store_block (slot * (h * g)) (map v_group_scale G) (ov_scale m)).
Proof.
  intros Hg Hw Hreg Hmp Hmm Hms G. destruct (token_groups_shape h g tok Hw) as (EG & LG & FG).
  fold G in EG, LG, FG.
  pose (st p := mkOpenV
    (store_block (slot * (h * (g * 8))) (concat (map (λ x, v2_pack_row 8 (v_group_codes x)) (take p G))) (ov_packed m))
    (store_block (slot * (h * g)) (concat (map (λ x, [amin x]) (take p G))) (ov_min m))
    (store_block (slot * (h * g)) (concat (map (λ x, [v_group_scale x]) (take p G))) (ov_scale m))).
  assert (∀ {B} (F : list f32 → B) l, concat (map (λ x, [F x]) l) = map F l) as Hsing
    by (intros B F l; induction l as [|x l IH]; [done|]; cbn [map concat app]; by rewrite IH).
  unfold _rabit2_final_v2_age_kernel.
  transitivity (st (h * g)%nat); [|unfold st; rewrite !Hsing, <-LG, !firstn_all; done].
  apply (launch_ind (λ p m', m' = st p)).
  { unfold st. rewrite take_0. cbn [map concat]. rewrite !store_block_nil. by destruct m. }
  intros p m' Hp ->. destruct (lookup_lt_is_Some_2 G p ltac:(lia)) as [x Hx].
  assert (p = p / g * g + p mod g)%nat as Ep by (rewrite (Nat.div_mod_eq p g) at 1; lia).
  assert (x = map f32_of_bf16 (load_block 32 (p * 32) (concat tok ++ tail))) as Exl.
  { unfold load_block, slice. rewrite <-firstn_map, <-skipn_map, map_app, <-EG.
    change (take _ (drop (p * 32) ?l)) with (load_block 32 (p * 32) l).
    rewrite <-(Nat.add_0_r (p * 32)). destruct (seg_split 32 p G x FG Hx) as (-> & <- & Hl).
    rewrite <-!app_assoc, load_mid by lia. unfold load_block, slice. rewrite drop_0, take_ge by lia. done. }
  assert (length x = 32)%nat as Lx by (by eapply (Forall_lookup_1 (λ y, length y = 32%nat))).
  assert (tl_regular x) as Hrx by (by eapply Forall_lookup_1).
  unfold v2_age_program. replace (p / g * (g * 32) + p mod g * 32)%nat with (p * 32)%nat by nia.
  rewrite <-Exl. destruct (age_program_group (p * 32) (concat tok ++ tail) x Exl Lx Hrx) as (Emn & Esc & Eby).
  cbv zeta in Emn, Esc, Eby. rewrite Esc in *. rewrite Eby, Emn. unfold st. cbn [ov_packed ov_min ov_scale].
  replace ((slot * h + p / g) * (g * 8) + p mod g * 8)%nat with (slot * (h * (g * 8)) + p * 8)%nat by nia.
  replace ((slot * h + p / g) * g + p mod g)%nat with (slot * (h * g) + p * 1)%nat by nia.
  f_equal.
  - apply (store_next (λ x, v2_pack_row 8 (v_group_codes x))); [|done|rewrite LG; nia].
    intros y. unfold v2_pack_row. by rewrite length_map, length_seq.
  - apply (store_next (λ x, [amin x])); [done|done|rewrite LG; nia].
  - apply (store_next (λ x, [v_group_scale x])); [done|done|rewrite LG; nia].
Qed.

(** The buffers after the kernel hold the row-major open group of the reference. *)
Lemma token_groups_rows h g tok :
  wf_row h (g * 32) tok → Forall (code_ok 2) (concat (map v_group_codes (token_groups (g * 32) tok))) →
  flat (v_packed_rows (g * 32) (widen [tok]))
    = concat (map (λ x, v2_pack_row 8 (v_group_codes x)) (token_groups (g * 32) tok))
  ∧ flat (v_mins (g * 32) (widen [tok])) = map amin (token_groups (g * 32) tok)
  ∧ flat (v_scales (g * 32) (widen [tok])) = map v_group_scale (token_groups (g * 32) tok).
Proof.
  intros [Hl Hr] Hok. unfold flat, v_packed_rows, v_codes, v_mins, v_scales, widen, map3, token_groups in *.
  cbn [map concat]. rewrite !app_nil_r, !map_map. destruct (aligned_dims g) as [Epd Eg].
  split; [|split].
  - clear Hl. revert Hok. induction Hr as [|r tok E Hr IH]; intros Hok; [done|]. cbn [map concat] in *.
    rewrite map_app, concat_app in Hok. apply Forall_app in Hok as [Ho Hok].
    rewrite map_app, concat_app, <-(IH Hok). f_equal.
    set (gs := v_row_groups GROUP (v_pad_dim_of (g * 32)) (map f32_of_bf16 r)) in *.
    destruct (v_row_groups_spec (g * 32) (map f32_of_bf16 r)) as [Lg Fg]; [by rewrite length_map|].
    fold gs in Lg, Fg. rewrite Eg in Lg.
    unfold v_row_codes. fold gs. rewrite <-(map_map v_group_codes (v2_pack_row 8)).
    rewrite v2_pack_row_groups.
    + rewrite length_map, Lg, v2_pack_row_stream by done. f_equal. rewrite Epd.
      symmetry. apply (Nat.div_unique _ 8 _ 7); lia.
    + rewrite Forall_map. eapply Forall_impl; [|exact Fg]. intros x Hx. cbv beta.
      unfold v_group_codes. by rewrite length_map.
  - clear Hl. clear Hok. induction Hr as [|r tok E Hr IH]; [done|]. cbn [map concat].
    rewrite map_app, <-IH. done.
  - clear Hl. clear Hok. induction Hr as [|r tok E Hr IH]; [done|]. cbn [map concat].
    rewrite map_app, <-IH. done.
Qed.

Lemma group_codes_ok {TFL : TorchFloatLaws TF} (G : list (list f32)) :
  Forall (code_ok 2) (concat (map v_group_codes G)).
Proof.
  apply Forall_concat. rewrite Forall_map. apply List.Forall_forall. intros g _.
  unfold v_group_codes. rewrite Forall_map. apply List.Forall_forall. intros x _.
  pose proof (affine_code_range 3 (amin g) (v_group_scale g) x ltac:(lia)). unfold code_ok. lia.
Qed.

Lemma age_kernel_spec {TFL : TorchFloatLaws TF} {TL : TritonLaws TR} h g slot tok tail pp pm ps rp rm rs :
  (0 < g)%nat → wf_row h (g * 32) tok → token_regular (g * 32) tok →
  length pp = (slot * (h * (g * 8)))%nat → length pm = (slot * (h * g))%nat →
  length ps = (slot * (h * g))%nat →
  (h * (g * 8) ≤ length rp)%nat → (h * g ≤ length rm)%nat → (h * g ≤ length rs)%nat →
  _rabit2_final_v2_age_kernel (g * 32) g (g * 8) h slot (concat tok ++ tail)
    (mkOpenV (pp ++ rp) (pm ++ rm) (ps ++ rs))
  = mkOpenV (pp ++ flat (v_packed_rows (g * 32) (widen [tok])) ++ drop (h * (g * 8)) rp)
            (pm ++ flat (v_mins (g * 32) (widen [tok])) ++ drop (h * g) rm)
            (ps ++ flat (v_scales (g * 32) (widen [tok])) ++ drop (h * g) rs).
Proof.
  intros Hg Hw Hreg Lp Lm Ls Hrp Hrm Hrs.
  rewrite age_kernel_groups by (done || (cbn [ov_packed ov_min ov_scale]; rewrite length_app; nia)).
  destruct (token_groups_rows h g tok Hw (group_codes_ok _)) as (-> & -> & ->).
  destruct (token_groups_shape h g tok Hw) as (_ & LG & _). cbn [ov_packed ov_min ov_scale].
  set (G := token_groups (g * 32) tok) in *.
  assert (length (concat (map (λ x, v2_pack_row 8 (v_group_codes x)) G)) = h * (g * 8))%nat as Lb.
  { rewrite (length_concat_uniform 8); [rewrite length_map, LG; lia|]. rewrite Forall_map.
    apply List.Forall_forall. intros x _. unfold v2_pack_row. by rewrite length_map, length_seq. }
  assert (∀ {B} base (vals pre rest : list B), length pre = base → (length vals ≤ length rest)%nat →
            store_block base vals (pre ++ rest) = pre ++ vals ++ drop (length vals) rest) as Hs
    by (intros B base vals pre rest <-; apply store_block_at).
  rewrite !Hs by (rewrite ?Lb, ?length_map, ?LG; done). by rewrite Lb, !length_map, LG.
Qed.

(** ** The buffers mirror the sidecar *)

Definition held {A} (slot_size : nat) (rows : list (list (list A))) (mem : list A) : Prop :=
  ∃ rest, mem = flat rows ++ rest ∧ length rest = ((32 - length rows) * slot_size)%nat.

Definition mirrors (ks vs : list (list (list Z))) (b : FastBuffers) : Prop :=
  fb_recent_k b = flat (recent_rows ks) ∧ fb_recent_v b = flat (recent_rows vs)
  ∧ fb_open_len b = length (open_rows ks)
  ∧ held (FAST_H * FAST_D) (open_rows ks) (fb_open_k b)
  ∧ held (FAST_H * 32) (v_packed_rows FAST_D (widen (open_rows vs))) (ov_packed (fb_open_v b))
  ∧ held (FAST_H * 4) (v_mins FAST_D (widen (open_rows vs))) (ov_min (fb_open_v b))
  ∧ held (FAST_H * 4) (v_scales FAST_D (widen (open_rows vs))) (ov_scale (fb_open_v b)).

(** Writing the next slot. *)
Lemma held_next {A} n h d rows (x : list (list A)) rest :
  n = (h * d)%nat → Forall (wf_row h d) rows → (length rows < 32)%nat → wf_row h d x →
  length rest = ((32 - length rows) * n)%nat →
  length (flat rows) = (length rows * n)%nat ∧ (n ≤ length rest)%nat
  ∧ held n (rows ++ [x]) (flat rows ++ flat [x] ++ drop n rest).
Proof.
  intros -> Hw Hn Hx Hr. rewrite (flat_length h d) by done. split; [done|]. split; [nia|].
  exists (drop (h * d) rest). rewrite flat_app, <-app_assoc. split; [done|].
  rewrite length_drop, length_app, Hr. cbn [length]. nia.
Qed.

(** A view of the first slots is the tensor they hold. *)
Lemma view_held {A} n h d (rows : list (list (list A))) rest :
  length rows = n → Forall (wf_row h d) rows → view_tensor n h d (flat rows ++ rest) = mkTensor3 h d rows.
Proof.
  intros Hn Hw. unfold view_tensor. f_equal. rewrite <-(view3_concat n h d rows Hn Hw) at 2.
  unfold view3. f_equal. fold (flat rows).
  assert (length (flat rows) = n * (h * d))%nat as Hl by (rewrite (flat_length h d) by done; by rewrite Hn).
  rewrite <-(Nat.add_0_r n) at 1. rewrite view2_app by done. by rewrite app_nil_r.
Qed.

Lemma view_held_exact {A} n h d (rows : list (list (list A))) :
  length rows = n → Forall (wf_row h d) rows → view_tensor n h d (flat rows) = mkTensor3 h d rows.
Proof. intros. rewrite <-(app_nil_r (flat rows)). by apply view_held. Qed.

(** The tokens that leave the residual at each of the next appends. *)
Definition v_regular {TL : TritonLaws TR} (vs : list (list (list Z))) : Prop :=
  Forall (token_regular FAST_D) vs.

Section Step.
Context {TFL : TorchFloatLaws TF} {TL : TritonLaws TR}.
Variables (bt : list nat) (c : PageCache).

Definition fast_of (ks vs : list (list (list Z))) (ready : bool) (buf : option FastBuffers) : FastState :=
  mkFast (rt_of FAST_H FAST_D bt c ks vs) ready buf.

Lemma fast_geometry : runtime_geometry FAST_H FAST_D.
Proof. split; [unfold FAST_H, FAST_D; lia|]. split; [by exists 4%nat|by exists 16%nat]. Qed.

Lemma open_rows_room {A} (rows : list A) : (length (open_rows rows) < 32)%nat.
Proof.
  rewrite open_rows_length. pose proof (closed_count_bound (length rows)). unfold GROUP in *. lia.
Qed.

Lemma flat_one {A} (x : list (list A)) : flat [x] = concat x.
Proof. apply app_nil_r. Qed.

(** The residual before and after one token leaves it. *)
Lemma recent_four {A} (rows : list (list (list A))) h d y r :
  (4 ≤ length rows)%nat → Forall (wf_row h d) rows → recent_rows rows = y :: r →
  ∃ r1 r2 r3, r = [r1; r2; r3] ∧ Forall (wf_row h d) [y; r1; r2; r3]
    ∧ Forall (wf_row h d) (open_rows rows ++ [y]).
Proof.
  intros Hn Hw Er. destruct (tail_rows_wf h d rows Hw) as [Wo Wr].
  pose proof (recent_rows_length rows) as Lr. rewrite old_count_big in Lr by lia. rewrite Er in Lr, Wr.
  destruct r as [|r1 [|r2 [|r3 [|? ?]]]]; cbn [length] in Lr; try lia.
  exists r1, r2, r3. split; [done|]. split; [done|]. apply Forall_app. split; [done|].
  apply Forall_cons_iff in Wr as [? _]. by constructor.
Qed.

(** What the two kernels compute on mirroring buffers. *)
Lemma fast_shift ks vs b k v y r z q :
  length ks = length vs → (4 ≤ length ks)%nat → mirrors ks vs b →
  Forall (wf_row FAST_H FAST_D) ks → Forall (wf_row FAST_H FAST_D) vs →
  wf_row FAST_H FAST_D k → wf_row FAST_H FAST_D v →
  recent_rows ks = y :: r → recent_rows vs = z :: q →
  let m := _rabit2_final_shift_recent_kernel (FAST_H * FAST_D) 256 (fb_open_len b) (flat [k]) (flat [v])
             (mkShift (fb_recent_k b) (fb_recent_v b) (fb_open_k b)) in
  sm_k m = flat (r ++ [k]) ∧ sm_v m = flat (q ++ [v])
  ∧ held (FAST_H * FAST_D) (open_rows ks ++ [y]) (sm_open_k m).
Proof.
  intros Hl Hn (Erk & Erv & El & (rk & Ek & Lk) & _) Wk Wv Hk Hv Er Eq. cbv zeta.
  destruct (recent_four ks _ _ y r Hn Wk Er) as (r1 & r2 & r3 & -> & Wr & _).
  destruct (recent_four vs _ _ z q ltac:(lia) Wv Eq) as (q1 & q2 & q3 & -> & Wq & _).
  destruct (tail_rows_wf _ _ ks Wk) as [Wok _].
  rewrite Er in Erk. rewrite Eq in Erv. rewrite !Forall_cons_iff in Wr, Wq.
  destruct Wr as (Wy & W1 & W2 & W3 & _), Wq as (Wz & V1 & V2 & V3 & _).
  assert (∀ x : list (list Z), wf_row FAST_H FAST_D x → length (concat x) = FAST_H * FAST_D)%nat as Hcx
    by (intros x [Lx Hx]; rewrite (length_concat_uniform FAST_D) by done; by rewrite Lx).
  destruct (held_next (FAST_H * FAST_D) FAST_H FAST_D (open_rows ks) y rk eq_refl Wok
              (open_rows_room ks) Wy Lk) as (Fk & Gk & HK).
  rewrite Ek, Erk, Erv, El, !flat_one.
  change (flat [y; r1; r2; r3]) with (concat [concat y; concat r1; concat r2; concat r3]).
  change (flat [z; q1; q2; q3]) with (concat [concat z; concat q1; concat q2; concat q3]).
  rewrite shift_kernel_spec; [|lia| | |exact Fk|exact Gk];
    [|repeat (apply Forall_cons_iff; split; [by apply Hcx|]); constructor
     |repeat (apply Forall_cons_iff; split; [by apply Hcx|]); constructor].
  cbn [sm_k sm_v sm_open_k]. split; [done|]. split; [done|]. by rewrite <-flat_one.
Qed.

Lemma fast_age ks vs b y r z q :
  length ks = length vs → (4 ≤ length ks)%nat → mirrors ks vs b →
  Forall (wf_row FAST_H FAST_D) ks → Forall (wf_row FAST_H FAST_D) vs → token_regular FAST_D z →
  recent_rows ks = y :: r → recent_rows vs = z :: q →
  let ov := _rabit2_final_v2_age_kernel FAST_D 4 32 FAST_H (fb_open_len b) (fb_recent_v b) (fb_open_v b) in
  held (FAST_H * 32) (v_packed_rows FAST_D (widen (open_rows vs ++ [z]))) (ov_packed ov)
  ∧ held (FAST_H * 4) (v_mins FAST_D (widen (open_rows vs ++ [z]))) (ov_min ov)
  ∧ held (FAST_H * 4) (v_scales FAST_D (widen (open_rows vs ++ [z]))) (ov_scale ov).
Proof.
  intros Hl Hn (_ & Erv & El & _ & (rp & Ep & Lp) & (rm & Em & Lm) & (rs & Es & Ls)) Wk Wv Hreg Er Eq.
  cbv zeta. destruct (recent_four vs _ _ z q ltac:(lia) Wv Eq) as (q1 & q2 & q3 & -> & Wq & _).
  destruct (tail_rows_wf _ _ vs Wv) as [Wov _]. rewrite Eq in Erv. rewrite !Forall_cons_iff in Wq.
  destruct Wq as (Wz & _).
  assert (length (open_rows ks) = length (open_rows vs)) as Hol by (by rewrite !open_rows_length, Hl).
  pose proof (open_rows_room vs) as Hlt.
  assert (Forall (wf_row FAST_H FAST_D) (widen (open_rows vs)) ∧ Forall (wf_row FAST_H FAST_D) (widen [z]))
    as [Wwv Wwz] by (split; apply widen_wf; [done|by constructor]).
  assert (∀ rows : list (list (list f32)), length (v_packed_rows FAST_D rows) = length rows
            ∧ length (v_mins FAST_D rows) = length rows ∧ length (v_scales FAST_D rows) = length rows) as Hlen
    by (intros; unfold v_packed_rows, v_codes, v_mins, v_scales; by rewrite !length_map).
  destruct (Hlen (widen (open_rows vs))) as (HLp & HLm & HLs). rewrite widen_length in HLp, HLm, HLs.
  pose proof (v_packed_rows_wf _ _ _ Wwv) as WP. pose proof (v_packed_rows_wf _ _ _ Wwz) as WPz.
  pose proof (v_mins_wf _ _ _ Wwv) as WM. pose proof (v_mins_wf _ _ _ Wwz) as WMz.
  pose proof (v_scales_wf _ _ _ Wwv) as WS. pose proof (v_scales_wf _ _ _ Wwz) as WSz.
  change ((v_pad_dim_of FAST_D * 2 + 7) / 8)%nat with 32%nat in WP, WPz.
  change (v_groups_of FAST_D) with 4%nat in WM, WMz, WS, WSz.
  apply Forall_cons_iff in WPz as [WPz _], WMz as [WMz _], WSz as [WSz _].
  destruct (held_next (FAST_H * 32) FAST_H 32 _ _ rp eq_refl WP ltac:(lia) WPz Lp) as (Fp & Gp & HP).
  destruct (held_next (FAST_H * 4) FAST_H 4 _ _ rm eq_refl WM ltac:(lia) WMz Lm) as (Fm & Gm & HM).
  destruct (held_next (FAST_H * 4) FAST_H 4 _ _ rs eq_refl WS ltac:(lia) WSz Ls) as (Fs & Gs & HS).
  rewrite HLp in Fp. rewrite HLm in Fm. rewrite HLs in Fs.
  destruct (fb_open_v b) as [op om os]. cbn [ov_packed ov_min ov_scale] in Ep, Em, Es. subst op om os.
  rewrite Erv, El, Hol. change (flat [z; q1; q2; q3]) with (concat z ++ flat [q1; q2; q3]).
  change FAST_D with (4 * 32)%nat in *.
  pose proof (age_kernel_spec FAST_H 4 (length (open_rows vs)) z (flat [q1; q2; q3]) _ _ _ rp rm rs
                ltac:(lia) Wz Hreg Fp Fm Fs Gp Gm Gs) as HK.
  change (4 * 8)%nat with 32%nat in HK. rewrite HK. clear HK.
  cbn [ov_packed ov_min ov_scale]. rewrite widen_app.
  assert (∀ a b : list (list (list f32)),
            v_packed_rows (4 * 32) (a ++ b) = v_packed_rows (4 * 32) a ++ v_packed_rows (4 * 32) b
            ∧ v_mins (4 * 32) (a ++ b) = v_mins (4 * 32) a ++ v_mins (4 * 32) b
            ∧ v_scales (4 * 32) (a ++ b) = v_scales (4 * 32) a ++ v_scales (4 * 32) b) as Happ
    by (intros; unfold v_packed_rows, v_codes, v_mins, v_scales; rewrite !map_app; repeat split).
  destruct (Happ (widen (open_rows vs)) (widen [z])) as (-> & -> & ->). done.
Qed.

(** After a token that fills the group the buffers start an empty one. *)
Lemma held_empty {A} h d (rows : list (list (list A))) mem :
  Forall (wf_row h d) rows → (length rows ≤ 32)%nat → held (h * d) rows mem → held (h * d) [] mem.
Proof.
  intros Hw Hl (rest & -> & Hr). exists (flat rows ++ rest). split; [done|].
  rewrite length_app, (flat_length h d), Hr by done. cbn [length]. nia.
Qed.

Lemma mirrors_next ks vs k v y r z q ok ov :
  length ks = length vs → (4 ≤ length ks)%nat →
  Forall (wf_row FAST_H FAST_D) ks → Forall (wf_row FAST_H FAST_D) vs →
  recent_rows ks = y :: r → recent_rows vs = z :: q →
  held (FAST_H * FAST_D) (open_rows ks ++ [y]) ok →
  held (FAST_H * 32) (v_packed_rows FAST_D (widen (open_rows vs ++ [z]))) (ov_packed ov) →
  held (FAST_H * 4) (v_mins FAST_D (widen (open_rows vs ++ [z]))) (ov_min ov) →
  held (FAST_H * 4) (v_scales FAST_D (widen (open_rows vs ++ [z]))) (ov_scale ov) →
  mirrors (ks ++ [k]) (vs ++ [v])
    (mkBuffers (flat (r ++ [k])) (flat (q ++ [v])) ok ov
       (if (length (open_rows ks) + 1 =? GROUP)%nat then 0 else length (open_rows ks) + 1)).
Proof.
  intros Hl Hn Wk Wv Er Eq HK HP HM HS.
  destruct (recent_four ks _ _ y r Hn Wk Er) as (_ & _ & _ & _ & _ & Wo).
  destruct (recent_four vs _ _ z q ltac:(lia) Wv Eq) as (_ & _ & _ & _ & _ & Wo').
  destruct (rows_step ks k Hn) as (y' & r' & Hr1 & _ & Hr' & Hcase).
  destruct (rows_step vs v ltac:(lia)) as (z' & q' & Hq1 & _ & Hq' & Hcase').
  rewrite Er in Hr1. injection Hr1 as <- <-. rewrite Eq in Hq1. injection Hq1 as <- <-.
  assert (length (open_rows ks) = length (open_rows vs)) as Hol by (by rewrite !open_rows_length, Hl).
  pose proof (open_rows_room vs) as Hroom.
  unfold mirrors. cbn [fb_recent_k fb_recent_v fb_open_len fb_open_k fb_open_v]. rewrite Hr', Hq'.
  split; [done|]. split; [done|].
  destruct Hcase as [(Ho & _ & -> & _)|(Ho & _ & -> & _)];
    destruct Hcase' as [(Ho' & _ & -> & _)|(Ho' & _ & -> & _)]; try (exfalso; lia).
  - rewrite (proj2 (Nat.eqb_eq _ _) Ho). split; [done|].
    pose proof (widen_wf _ _ _ Wo') as Ww.
    assert (length (widen (open_rows vs ++ [z])) ≤ 32)%nat as Hlw
      by (rewrite widen_length, length_app; cbn [length]; lia).
    split; [by apply (held_empty FAST_H FAST_D) in HK; [|done|rewrite length_app; cbn [length]; lia]|].
    split; [|split].
    + apply (held_empty FAST_H 32) in HP; [done|by apply (v_packed_rows_wf FAST_H FAST_D)|].
      unfold v_packed_rows, v_codes. by rewrite !length_map.
    + apply (held_empty FAST_H 4) in HM; [done|by apply (v_mins_wf FAST_H FAST_D)|].
      unfold v_mins. by rewrite length_map.
    + apply (held_empty FAST_H 4) in HS; [done|by apply (v_scales_wf FAST_H FAST_D)|].
      unfold v_scales. by rewrite length_map.
  - rewrite (proj2 (Nat.eqb_neq _ _) Ho). split; [by rewrite length_app|]. done.
Qed.

(** The views of mirroring buffers are the sidecar with one more open token. *)
Lemma open_views_sidecar n ok ov okr ovr rk rv :
  n = length okr → (0 < n)%nat → length okr = length ovr → length rk = length rv → (0 < length rk)%nat →
  Forall (wf_row FAST_H FAST_D) okr → Forall (wf_row FAST_H FAST_D) ovr →
  held (FAST_H * FAST_D) okr ok → held (FAST_H * 32) (v_packed_rows FAST_D (widen ovr)) (ov_packed ov) →
  held (FAST_H * 4) (v_mins FAST_D (widen ovr)) (ov_min ov) →
  held (FAST_H * 4) (v_scales FAST_D (widen ovr)) (ov_scale ov) →
  open_views n ok ov (mkTensor3 FAST_H FAST_D rk) (mkTensor3 FAST_H FAST_D rv)
  = sidecar_with FAST_H FAST_D FAST_D okr ovr rk rv.
Proof.
  intros -> Hn Hol Hrl Hr Wo Wo' (j & Ej & _) (jp & Ep & _) (jm & Em & _) (js & Es & _).
  assert (∀ {B} (x : B), when_nonempty okr x = Some x) as Hw by (destruct okr; [cbn in Hn; lia|done]).
  assert (∀ {B} (x : B), when_nonempty rk x = Some x) as Hw' by (destruct rk; [cbn in Hr; lia|done]).
  pose proof (widen_wf _ _ _ Wo') as Ww.
  unfold open_views, sidecar_with. rewrite !Hw, !Hw', Ej, Ep, Em, Es. f_equal; f_equal.
  - by apply view_held.
  - apply view_held; [|by apply (v_packed_rows_wf FAST_H FAST_D)].
    unfold v_packed_rows, v_codes. rewrite !length_map, widen_length. lia.
  - apply view_held; [|by apply (v_mins_wf FAST_H FAST_D)]. unfold v_mins. rewrite length_map, widen_length. lia.
  - apply view_held; [|by apply (v_scales_wf FAST_H FAST_D)]. unfold v_scales. rewrite length_map, widen_length. lia.
Qed.

(** One token on mirroring buffers, over any runtime of the geometry: the views
    become the mirrored tokens with the new one, whatever the runtime's sidecar
    was. *)
Lemma fast_token_views ks vs b k v y r z q rt :
  length ks = length vs → (4 ≤ length ks)%nat → mirrors ks vs b →
  Forall (wf_row FAST_H FAST_D) ks → Forall (wf_row FAST_H FAST_D) vs →
  wf_row FAST_H FAST_D k → wf_row FAST_H FAST_D v → v_regular vs →
  recent_rows ks = y :: r → recent_rows vs = z :: q →
  ∃ bk : nat → FastBuffers,
    mirrors (ks ++ [k]) (vs ++ [v])
      (bk (if (length (open_rows ks) + 1 =? GROUP)%nat then 0%nat else (length (open_rows ks) + 1)%nat))
    ∧ fast_token bt (mkTensor3 FAST_H FAST_D [k]) (mkTensor3 FAST_H FAST_D [v]) (mkFast rt true (Some b))
      = (let sc := sidecar_with FAST_H FAST_D FAST_D (open_rows ks ++ [y]) (open_rows vs ++ [z])
                     (r ++ [k]) (q ++ [v]) in
         let set_len n := st_modify (λ s, mkFast (fs_rt s) (fs_ready s) (Some (bk n))) in
         if (length (open_rows ks) + 1 =? GROUP)%nat
         then on_rt (_flush_open_page bt);; set_len 0%nat
         else set_len (length (open_rows ks) + 1)%nat)
        (mkFast (set_rt_sidecar (sidecar_with FAST_H FAST_D FAST_D (open_rows ks ++ [y]) (open_rows vs ++ [z])
                     (r ++ [k]) (q ++ [v])) rt) true (Some (bk (length (open_rows ks))))).
Proof.
  intros Hl Hn Hm Wk Wv Hk Hv Hreg Er Eq.
  assert (token_regular FAST_D z) as Hz.
  { unfold v_regular in Hreg. rewrite (old_recent_split vs), Eq in Hreg.
    apply Forall_app in Hreg as [_ Hreg]. by apply Forall_cons_iff in Hreg as [? _]. }
  destruct (fast_shift ks vs b k v y r z q Hl Hn Hm Wk Wv Hk Hv Er Eq) as (Ek & Ev & HK).
  destruct (fast_age ks vs b y r z q Hl Hn Hm Wk Wv Hz Er Eq) as (HP & HM & HS).
  cbv zeta in *. destruct (recent_four ks _ _ y r Hn Wk Er) as (r1 & r2 & r3 & -> & Wr & Wo).
  destruct (recent_four vs _ _ z q ltac:(lia) Wv Eq) as (q1 & q2 & q3 & -> & Wq & Wo').
  assert (length (open_rows ks) = length (open_rows vs)) as Hol by (by rewrite !open_rows_length, Hl).
  pose proof (mirrors_next ks vs k v y _ z _ _ _ Hl Hn Wk Wv Er Eq HK HP HM HS) as Hmir.
  pose proof Hm as (_ & _ & El & _). rewrite El in *.
  pose proof (open_rows_room ks) as Hroom.
  set (ov := _rabit2_final_v2_age_kernel _ _ _ _ _ _ _) in *.
  set (sh := _rabit2_final_shift_recent_kernel _ _ _ _ _ _) in *.
  assert (Forall (wf_row FAST_H FAST_D) ([r1; r2; r3] ++ [k])
          ∧ Forall (wf_row FAST_H FAST_D) ([q1; q2; q3] ++ [v])) as [Wr' Wq'].
  { apply Forall_cons_iff in Wr as [_ Wr], Wq as [_ Wq].
    split; (apply Forall_app; split; [done|by constructor]). }
  exists (mkBuffers (flat ([r1; r2; r3] ++ [k])) (flat ([q1; q2; q3] ++ [v])) (sm_open_k sh) ov).
  split; [exact Hmir|].
  unfold fast_token. rewrite st_bind_eq. cbn [st_get]. rewrite st_bind_eq. unfold st_lift at 1.
  cbn [fs_buf]. rewrite st_bind_eq. unfold st_raise_if, st_lift. rewrite El.
  rewrite (proj2 (Nat.ltb_lt _ 32) Hroom). cbn [negb raise_if]. rewrite st_bind_eq.
  change (flatten3 (mkTensor3 FAST_H FAST_D [k])) with (flat [k]).
  change (flatten3 (mkTensor3 FAST_H FAST_D [v])) with (flat [v]). fold ov sh.
  cbn [st_modify fs_rt fs_ready fs_buf]. rewrite st_bind_eq. cbn [st_modify fs_rt fs_ready fs_buf].
  rewrite Ek, Ev, !view_held_exact by done.
  rewrite (open_views_sidecar (length (open_rows ks) + 1) _ _ (open_rows ks ++ [y]) (open_rows vs ++ [z]))
    by (done || lia || (rewrite !length_app; cbn [length]; lia)).
  done.
Qed.

Lemma fast_token_spec ks vs b k v :
  length ks = length vs → (4 ≤ length ks)%nat → mirrors ks vs b →
  Forall (wf_row FAST_H FAST_D) ks → Forall (wf_row FAST_H FAST_D) vs →
  wf_row FAST_H FAST_D k → wf_row FAST_H FAST_D v → v_regular vs →
  (∀ i, (i < closed_count (length ks + 1))%nat → can_close FAST_H FAST_D bt c i) →
  ∃ b', fast_token bt (mkTensor3 FAST_H FAST_D [k]) (mkTensor3 FAST_H FAST_D [v])
          (fast_of ks vs true (Some b))
        = (Ok tt, fast_of (ks ++ [k]) (vs ++ [v]) true (Some b')) ∧ mirrors (ks ++ [k]) (vs ++ [v]) b'.
Proof.
  intros Hl Hn Hm Wk Wv Hk Hv Hreg Hcan.
  destruct (rows_step ks k Hn) as (y & r & Er & _).
  destruct (rows_step vs v ltac:(lia)) as (z & q & Eq & _).
  destruct (fast_token_views ks vs b k v y r z q (rt_of FAST_H FAST_D bt c ks vs) Hl Hn Hm Wk Wv Hk Hv
              Hreg Er Eq) as (bk & Hmir & Hrun).
  pose proof (aged_token_closes FAST_H FAST_D FAST_D (rt_with_pages FAST_H FAST_D bt c)
                (can_close FAST_H FAST_D bt c) (O := runtime_owner bt) ks vs k v y r z q
                (runtime_flush_closes _ _ _ _ fast_geometry) Hl Hn Wk Wv Er Eq Hcan) as Hcl.
  unfold fast_of at 1. rewrite Hrun. clear Hrun. cbv zeta in *.
  change (set_rt_sidecar ?sc (rt_of FAST_H FAST_D bt c ks vs))
    with (@owner_update _ _ (runtime_owner bt) sc
            (rt_with_pages FAST_H FAST_D bt c (closed_rows ks) (closed_rows vs))).
  destruct (Nat.eqb_spec (length (open_rows ks) + 1) GROUP) as [Ho|Ho].
  - eexists. split; [|exact Hmir]. rewrite st_bind_eq. unfold on_rt. cbn [fs_rt].
    change (owner_flush ?s) with (_flush_open_page bt s) in Hcl. rewrite Hcl. done.
  - apply (f_equal snd) in Hcl. cbn [snd] in Hcl. eexists. split; [|exact Hmir].
    unfold st_modify. cbn [fs_rt fs_ready]. by rewrite Hcl.
Qed.

(** A copy to the front of a fresh buffer. *)
Lemma held_copy {A} n h d (rows : list (list (list A))) mem :
  n = (h * d)%nat → Forall (wf_row h d) rows → (length rows ≤ 32)%nat → length mem = (32 * n)%nat →
  held n rows (store_block 0 (flat rows) mem).
Proof.
  intros -> Hw Hl Hm. exists (drop (length (flat rows)) mem). split; [done|].
  rewrite length_drop, (flat_length h d), Hm by done. nia.
Qed.

Lemma store_all {A} (vals mem : list A) : length vals = length mem → store_block 0 vals mem = vals.
Proof. intros H. unfold store_block. cbn [take Nat.add app]. by rewrite drop_ge, app_nil_r by lia. Qed.

Lemma prepare_spec ks vs buf :
  length ks = length vs → (4 ≤ length ks)%nat →
  Forall (wf_row FAST_H FAST_D) ks → Forall (wf_row FAST_H FAST_D) vs →
  ∃ b, _rabit2_final_prepare_fast_buffers true (fast_of ks vs false buf)
       = (Ok true, fast_of ks vs true (Some b)) ∧ mirrors ks vs b.
Proof.
  intros Hl Hn Wk Wv. destruct (tail_rows_wf _ _ ks Wk) as [Wok Wrk], (tail_rows_wf _ _ vs Wv) as [Wov Wrv].
  assert (length (open_rows ks) = length (open_rows vs)) as Hol by (by rewrite !open_rows_length, Hl).
  pose proof (open_rows_room ks) as Hroom. pose proof (widen_wf _ _ _ Wov) as Ww.
  assert (length (recent_rows ks) = 4 ∧ length (recent_rows vs) = 4)%nat as [Lr Lq]
    by (rewrite !recent_rows_length, !old_count_big by lia; lia).
  unfold _rabit2_final_prepare_fast_buffers. rewrite st_bind_eq. cbn [st_get fs_ready fast_of fs_rt].
  change (rt_sidecar (rs_runtime (rt_of FAST_H FAST_D bt c ks vs)))
    with (sidecar_of FAST_H FAST_D FAST_D ks vs).
  change (rt_num_kv_heads (rs_runtime (rt_of FAST_H FAST_D bt c ks vs))) with FAST_H.
  change (rt_head_size_k (rs_runtime (rt_of FAST_H FAST_D bt c ks vs))) with FAST_D.
  change (rt_head_size_v (rs_runtime (rt_of FAST_H FAST_D bt c ks vs))) with FAST_D.
  unfold sidecar_of, sidecar_with. cbn [recent_k recent_v open_k open_v_packed open_v_min open_v_scale].
  assert (∀ {B} (x : B), when_nonempty (recent_rows ks) x = Some x) as Hw
    by (destruct (recent_rows ks); [cbn in Lr; lia|done]).
  rewrite !Hw. unfold t_tokens. cbn [t_rows]. rewrite Lr, !Nat.eqb_refl. cbn [RESIDUAL Nat.eqb negb orb].
  unfold flatten3. cbn [t_rows]. fold (flat (recent_rows ks)) (flat (recent_rows vs)).
  assert (∀ rows : list (list (list Z)), Forall (wf_row FAST_H FAST_D) rows → length rows = 4%nat →
            store_block 0 (flat rows) (empty_int (4 * (FAST_H * FAST_D))) = flat rows) as Hst.
  { intros rows W L. apply store_all. rewrite (flat_length FAST_H FAST_D), L by done.
    by rewrite empty_int_length. }
  rewrite !Hst, !view_held_exact by done.
  assert (∀ sc, sc = sidecar_of FAST_H FAST_D FAST_D ks vs →
            set_rt_sidecar sc (rt_of FAST_H FAST_D bt c ks vs) = rt_of FAST_H FAST_D bt c ks vs) as Hset
    by (intros sc ->; done).
  assert (∀ {A} (n : nat) (rows : list (list (list A))) mem, (length rows ≤ 32)%nat →
            rows = [] → length mem = (32 * n)%nat → held n rows mem) as Hnil
    by (intros A n rows mem _ -> Hm; exists mem; rewrite Hm; cbn [length]; split; [done|lia]).
  destruct (open_rows ks) as [|x ok] eqn:Eo.
  - cbn [when_nonempty tensor_len]. eexists. split.
    + rewrite st_bind_eq. unfold st_put. unfold fast_of. rewrite Hset; [done|].
      unfold sidecar_of, sidecar_with. rewrite Eo, !Hw. done.
    + destruct (open_rows vs) as [|? ?] eqn:Eo'; [|done].
      unfold mirrors. cbn [fb_recent_k fb_recent_v fb_open_len fb_open_k fb_open_v ov_packed ov_min ov_scale].
      rewrite Eo, Eo'. split; [done|]. split; [done|]. split; [done|].
      repeat split; (apply Hnil; [cbn; lia|done|by rewrite ?empty_int_length, ?empty_float_length]).
  - cbn [when_nonempty tensor_len]. unfold t_tokens. cbn [t_rows].
    destruct (length (x :: ok)) as [|n] eqn:En; [done|].
    rewrite st_bind_eq. unfold st_raise_if, st_lift.
    destruct (Nat.ltb_spec 32 (S n)) as [?|_]; [lia|]. cbn [raise_if ov_packed ov_min ov_scale].
    cbn [t_rows]. fold (flat (x :: ok)).
    fold (flat (v_packed_rows FAST_D (widen (open_rows vs)))) (flat (v_mins FAST_D (widen (open_rows vs))))
      (flat (v_scales FAST_D (widen (open_rows vs)))).
    pose proof (held_copy (FAST_H * FAST_D) _ _ _ _ eq_refl Wok ltac:(lia) (empty_int_length _)) as HK.
    pose proof (held_copy (FAST_H * 32) FAST_H 32 _ _ eq_refl (v_packed_rows_wf FAST_H FAST_D _ Ww)
      ltac:(unfold v_packed_rows, v_codes; rewrite !length_map, widen_length; lia) (empty_int_length _)) as HP.
    pose proof (held_copy (FAST_H * 4) FAST_H 4 _ _ eq_refl (v_mins_wf FAST_H FAST_D _ Ww)
      ltac:(unfold v_mins; rewrite length_map, widen_length; lia) (empty_float_length _)) as HM.
    pose proof (held_copy (FAST_H * 4) FAST_H 4 _ _ eq_refl (v_scales_wf FAST_H FAST_D _ Ww)
      ltac:(unfold v_scales; rewrite length_map, widen_length; lia) (empty_float_length _)) as HS.
    eexists. split.
    + rewrite st_bind_eq. unfold st_put, fast_of. rewrite Hset; [done|].
      rewrite (open_views_sidecar (S n) _ _ (x :: ok) (open_rows vs)); try done; try lia.
      unfold sidecar_of. by rewrite Eo.
    + unfold mirrors. cbn [fb_recent_k fb_recent_v fb_open_len fb_open_k fb_open_v ov_packed ov_min ov_scale].
      rewrite Eo. done.
Qed.

(** ** One append *)

(** A BF16 tensor holds patterns the cast returns. *)
Definition bf16_data (x : dev_tensor) : Prop :=
  match dt_data x with
  | TBf16 t => map3 bf16_of_f32 (map3 f32_of_bf16 (t_rows t)) = t_rows t
  | TFloat _ => True
  end.

(** The flag is up only while the buffers mirror the sidecar. *)
Definition coherent (ks vs : list (list (list Z))) (ready : bool) (buf : option FastBuffers) : Prop :=
  ready = true → (4 < length ks)%nat ∧ ∃ b, buf = Some b ∧ mirrors ks vs b.

Lemma old_append_step ks vs (x : dev_tensor * dev_tensor) ready buf :
  length ks = length vs → Forall (wf_row FAST_H FAST_D) ks → Forall (wf_row FAST_H FAST_D) vs →
  chunk_ok FAST_H FAST_D (as_f32 x.1, as_f32 x.2) →
  table_ok FAST_H FAST_D (length ks + t_tokens (as_f32 x.1)) bt c →
  on_rt (runtime_append bt (as_f32 x.1) (as_f32 x.2)) (fast_of ks vs ready buf)
  = (Ok tt, fast_of (ks ++ stored (t_rows (as_f32 x.1))) (vs ++ stored (t_rows (as_f32 x.2))) ready buf).
Proof.
  intros Hl Wk Wv (H1 & H2 & H3 & H4 & H5) Ht. cbn [fst snd] in *. unfold on_rt, fast_of. cbn [fs_rt].
  rewrite runtime_append_of; try done; [apply fast_geometry|].
  intros i Hi. by eapply table_ok_can_close.
Qed.

Lemma fast_shape_spec (x y : dev_tensor) r k v :
  fast_shape x y r = Some (k, v) →
  dt_data x = TBf16 k ∧ dt_data y = TBf16 v ∧ t_tokens k = 1%nat ∧ shape_eqb k v = true
  ∧ t_heads k = FAST_H ∧ t_dim k = FAST_D.
Proof.
  unfold fast_shape. destruct (dt_data x) as [k'|], (dt_data y) as [v'|]; try done.
  destruct (shape_eqb k' v') eqn:Es; [|done]. destruct (Nat.eqb_spec (t_tokens k') 1); [|done].
  destruct (Nat.eqb_spec (t_heads k') FAST_H); [|by rewrite !andb_false_r || rewrite ?andb_false_r].
  destruct (Nat.eqb_spec (t_dim k') FAST_D); [|by rewrite !andb_false_r || rewrite ?andb_false_r].
  destruct (_ && _); [|done]. by intros [= <- <-].
Qed.

Lemma prepare_cpu ks vs buf :
  _rabit2_final_prepare_fast_buffers false (fast_of ks vs false buf) = (Ok false, fast_of ks vs false buf).
Proof.
  unfold _rabit2_final_prepare_fast_buffers. rewrite st_bind_eq. cbn [st_get fs_ready fast_of fs_rt].
  set (sc := rt_sidecar _). cbv zeta. by destruct (recent_k sc), (recent_v sc).
Qed.

(** One BF16 token, in the terms of both append paths. *)
Lemma one_bf16_token (x : dev_tensor) k :
  dt_data x = TBf16 k → t_tokens k = 1%nat → wf_tensor3 (as_f32 x) → bf16_data x →
  ∃ tok, k = mkTensor3 (t_heads k) (t_dim k) [tok] ∧ wf_row (t_heads k) (t_dim k) tok
    ∧ stored (t_rows (as_f32 x)) = [tok].
Proof.
  unfold as_f32, bf16_data. intros -> H1 Hw Hb. destruct k as [h d rows]. unfold t_tokens in H1.
  cbn [t_rows t_heads t_dim] in *. destruct rows as [|tok [|? ?]]; try done. exists tok.
  split; [done|]. unfold stored, t_map. cbn [t_rows]. rewrite Hb. split; [|done].
  unfold wf_tensor3, t_map in Hw. cbn [t_heads t_dim t_rows map3 map] in Hw.
  apply Forall_cons_iff in Hw as [[Hl Hr] _]. rewrite length_map in Hl. split; [done|].
  rewrite Forall_map in Hr. eapply Forall_impl; [|exact Hr]. intros r. cbv beta. by rewrite length_map.
Qed.

Lemma fast_append_step cuda ks vs (x : dev_tensor * dev_tensor) ready buf :
  length ks = length vs → Forall (wf_row FAST_H FAST_D) ks → Forall (wf_row FAST_H FAST_D) vs →
  chunk_ok FAST_H FAST_D (as_f32 x.1, as_f32 x.2) → bf16_data x.1 → bf16_data x.2 →
  table_ok FAST_H FAST_D (length ks + t_tokens (as_f32 x.1)) bt c →
  v_regular vs → coherent ks vs ready buf →
  ∃ ready' buf', _rabit2_final_fast_decode_append cuda bt x.1 x.2 (fast_of ks vs ready buf)
  = (Ok tt, fast_of (ks ++ stored (t_rows (as_f32 x.1))) (vs ++ stored (t_rows (as_f32 x.2))) ready' buf')
  ∧ coherent (ks ++ stored (t_rows (as_f32 x.1))) (vs ++ stored (t_rows (as_f32 x.2))) ready' buf'.
Proof.
  intros Hl Wk Wv Hx Hbk Hbv Ht Hreg Hco.
  assert (∀ buf', coherent (ks ++ stored (t_rows (as_f32 x.1))) (vs ++ stored (t_rows (as_f32 x.2))) false buf')
    as Hoff by done.
  assert (∃ ready' buf',
    (_ ← (if ready then _rabit2_final_drop_fast_buffers else mret tt);
     on_rt (runtime_append bt (as_f32 x.1) (as_f32 x.2))) (fast_of ks vs ready buf)
    = (Ok tt, fast_of (ks ++ stored (t_rows (as_f32 x.1))) (vs ++ stored (t_rows (as_f32 x.2))) ready' buf')
    ∧ coherent (ks ++ stored (t_rows (as_f32 x.1))) (vs ++ stored (t_rows (as_f32 x.2))) ready' buf') as Hold.
  { exists false, buf. split; [|done]. rewrite st_bind_eq.
    destruct ready; unfold _rabit2_final_drop_fast_buffers, st_modify; cbn;
      change (mkFast (rt_of FAST_H FAST_D bt c ks vs) false buf) with (fast_of ks vs false buf);
      by apply old_append_step. }
  unfold _rabit2_final_fast_decode_append. rewrite st_bind_eq. cbn [st_get fs_ready fs_rt fast_of].
  destruct (fast_shape x.1 x.2 _) as [[k v]|] eqn:Ef; [|done].
  change (rt_sidecar (rs_runtime (rt_of FAST_H FAST_D bt c ks vs))) with (sidecar_of FAST_H FAST_D FAST_D ks vs).
  unfold sidecar_of, sidecar_with at 1. cbn [recent_k].
  destruct (recent_rows ks) as [|r0 rs] eqn:Er; cbn [when_nonempty]; [done|].
  unfold t_tokens at 1. cbn [t_rows]. rewrite <-Er.
  destruct (Nat.ltb_spec (length (recent_rows ks)) 4) as [?|Hr]; [done|].
  assert (4 ≤ length ks)%nat as Hn by (rewrite recent_rows_length in Hr; lia).
  destruct (fast_shape_spec _ _ _ _ _ Ef) as (Edk & Edv & E1 & Es & Eh & Ed).
  pose proof Es as (Et & Eh' & Ed')%shape_eqb_spec. pose proof Hx as (Wx1 & Wx2 & _). cbn [fst snd] in *.
  destruct (one_bf16_token x.1 k Edk E1 Wx1 Hbk) as (tk & Ek & Wtk & Sk).
  destruct (one_bf16_token x.2 v Edv ltac:(lia) Wx2 Hbv) as (tv & Ev & Wtv & Sv).
  rewrite <-Eh', <-Ed' in Ev, Wtv. rewrite Eh, Ed in Ek, Wtk, Ev, Wtv.
  assert (∀ b, mirrors ks vs b → ∃ ready' buf',
    fast_token bt k v (fast_of ks vs true (Some b))
    = (Ok tt, fast_of (ks ++ stored (t_rows (as_f32 x.1))) (vs ++ stored (t_rows (as_f32 x.2))) ready' buf')
    ∧ coherent (ks ++ stored (t_rows (as_f32 x.1))) (vs ++ stored (t_rows (as_f32 x.2))) ready' buf') as Hfast.
  { intros b Hb. rewrite Sk, Sv, Ek, Ev.
    destruct (fast_token_spec ks vs b tk tv Hl Hn Hb Wk Wv Wtk Wtv Hreg) as (b' & Hrun & Hb').
    - intros i Hi. eapply table_ok_can_close; [exact Ht|]. eapply Nat.lt_le_trans; [exact Hi|].
      apply closed_count_mono. rewrite <-(stored_length (t_rows (as_f32 x.1))) || idtac.
      unfold t_tokens. rewrite <-(stored_length (t_rows (as_f32 x.1))), Sk. cbn [length]. lia.
    - exists true, (Some b'). split; [exact Hrun|]. intros _. split; [rewrite length_app; cbn [length]; lia|]. by exists b'. }
  rewrite st_bind_eq. destruct ready.
  - destruct (Hco eq_refl) as (_ & b & -> & Hb). by apply Hfast.
  - destruct cuda.
    + destruct (prepare_spec ks vs buf Hl Hn Wk Wv) as (b & -> & Hb). by apply Hfast.
    + rewrite prepare_cpu. exists false, buf. split; [|done]. by apply old_append_step.
Qed.

(** ** Runs *)

Definition fast_run (cuda : bool) (chunks : list (dev_tensor * dev_tensor)) : ST FastState unit :=
  st_for chunks (λ x, _rabit2_final_fast_decode_append cuda bt x.1 x.2).

Definition as_chunk (x : dev_tensor * dev_tensor) : tensor3 f32 * tensor3 f32 := (as_f32 x.1, as_f32 x.2).

Lemma fast_run_of cuda chunks ks vs ready buf :
  length ks = length vs → Forall (wf_row FAST_H FAST_D) ks → Forall (wf_row FAST_H FAST_D) vs →
  Forall (λ x, chunk_ok FAST_H FAST_D (as_chunk x) ∧ bf16_data x.1 ∧ bf16_data x.2) chunks →
  table_ok FAST_H FAST_D (length ks + length (run_keys (map as_chunk chunks))) bt c →
  v_regular (vs ++ stored (run_values (map as_chunk chunks))) → coherent ks vs ready buf →
  ∃ ready' buf', fast_run cuda chunks (fast_of ks vs ready buf)
  = (Ok tt, fast_of (ks ++ stored (run_keys (map as_chunk chunks)))
                    (vs ++ stored (run_values (map as_chunk chunks))) ready' buf')
  ∧ coherent (ks ++ stored (run_keys (map as_chunk chunks))) (vs ++ stored (run_values (map as_chunk chunks)))
      ready' buf'.
Proof.
  intros Hl Wk Wv H. revert ks vs ready buf Hl Wk Wv.
  induction H as [|x chunks (Hx & Hb1 & Hb2) H IH]; intros ks vs ready buf Hl Wk Wv Ht Hreg Hco.
  { unfold run_keys, run_values. cbn. rewrite !app_nil_r. by eexists _, _. }
  assert (run_keys (map as_chunk (x :: chunks)) = t_rows (as_f32 x.1) ++ run_keys (map as_chunk chunks)) as Ek
    by done.
  assert (run_values (map as_chunk (x :: chunks)) = t_rows (as_f32 x.2) ++ run_values (map as_chunk chunks)) as Ev
    by done.
  rewrite Ek, Ev, !stored_app, !app_assoc in *. rewrite length_app in Ht.
  pose proof Hx as (W1 & W2 & Hs & Hh & Hd). pose proof Hs as (Et & Eh & Ed)%shape_eqb_spec.
  unfold wf_tensor3 in W1, W2. cbn [as_chunk fst snd] in *. rewrite <-Eh, <-Ed in W2. rewrite Hh, Hd in W1, W2.
  destruct (fast_append_step cuda ks vs x ready buf Hl Wk Wv Hx Hb1 Hb2) as (r' & b' & Hrun & Hco').
  - eapply table_ok_mono; [|exact Ht]. unfold t_tokens. lia.
  - unfold v_regular in *. rewrite !Forall_app in Hreg. by destruct Hreg as [[? _] _].
  - done.
  - unfold fast_run. cbn [st_for]. rewrite st_bind_eq, Hrun. apply IH; try done.
    + rewrite !length_app, !stored_length. unfold t_tokens in Et. lia.
    + apply Forall_app. split; [done|]. by apply stored_wf.
    + apply Forall_app. split; [done|]. by apply stored_wf.
    + rewrite length_app, stored_length. by rewrite <-Nat.add_assoc.
Qed.

(** C14: the append in force is the append of the runtime.  From a fresh runtime
    of the production geometry, for every sequence of chunks of any sizes, types
    and devices whose V groups are ordinary blocks, the buffered append succeeds
    and leaves the runtime and the cache exactly as the append it replaces, pages
    included. *)
Theorem fast_append_is_append (cuda : bool) (chunks : list (dev_tensor * dev_tensor)) :
  Forall (λ x, chunk_ok FAST_H FAST_D (as_chunk x) ∧ bf16_data x.1 ∧ bf16_data x.2) chunks →
  v_regular (stored (run_values (map as_chunk chunks))) →
  table_ok FAST_H FAST_D (length (run_keys (map as_chunk chunks))) bt c →
  ∃ s0 s ready buf,
    runtime_start FAST_H FAST_D c = Ok s0
    ∧ runtime_run bt (map as_chunk chunks) s0 = (Ok tt, s)
    ∧ fast_run cuda chunks (mkFast s0 false None) = (Ok tt, mkFast s ready buf).
Proof.
  intros Hch Hreg Ht.
  assert (Forall (chunk_ok FAST_H FAST_D) (map as_chunk chunks)) as Hok
    by (rewrite Forall_map; eapply Forall_impl; [|exact Hch]; by intros x [? _]).
  destruct (runtime_run_start FAST_H FAST_D bt c _ fast_geometry Hok Ht) as (Hs0 & Hrun & _).
  destruct (fast_run_of cuda chunks [] [] false None eq_refl (Forall_nil_2 _) (Forall_nil_2 _) Hch Ht Hreg)
    as (r & b & Hf & _); [by intros|].
  exists (rt_of FAST_H FAST_D bt c [] []), (rt_of FAST_H FAST_D bt c (stored (run_keys (map as_chunk chunks)))
    (stored (run_values (map as_chunk chunks)))), r, b.
  split; [exact Hs0|]. split; [exact Hrun|]. exact Hf.
Qed.

(** ** A chunk plan between two buffered appends *)

Lemma run_chunk_of ks vs (key value : tensor3 f32) :
  length ks = length vs → Forall (wf_row FAST_H FAST_D) ks → Forall (wf_row FAST_H FAST_D) vs →
  chunk_ok FAST_H FAST_D (key, value) → (0 < t_tokens key)%nat →
  table_ok FAST_H FAST_D (length ks + t_tokens key) bt c →
  run_chunk bt key value (rt_of FAST_H FAST_D bt c ks vs)
  = (Ok tt, rt_of FAST_H FAST_D bt c (ks ++ stored (t_rows key)) (vs ++ stored (t_rows value))).
Proof.
  intros Hl Wk Wv (Hk & Hv & Hs & Hh & Hd) Hpos Ht. cbn [fst snd] in *.
  pose proof Hs as (Et & _)%shape_eqb_spec. unfold t_tokens in Et.
  unfold run_chunk, chunkplan_init.
  rewrite (plan_init_of FAST_H FAST_D bt c fast_geometry) by (done || by apply stage4b4_writer_spec, fast_geometry).
  unfold t_tokens. rewrite <-(stored_length (t_rows key)).
  rewrite (apply_steps_of FAST_H FAST_D bt c) by (rewrite ?stored_length; done || lia).
  rewrite !take_ge by (rewrite ?stored_length; lia).
  by destruct (rt_of FAST_H FAST_D bt c (ks ++ _) (vs ++ _)).
Qed.

(** A CUDA token on a full residual prepares the buffers and is buffered. *)
Lemma fast_decode_full ks vs ready buf k v :
  (4 ≤ length ks)%nat →
  _rabit2_final_fast_decode_append true bt (cuda_token k v).1 (cuda_token k v).2 (fast_of ks vs ready buf)
  = (ok ← _rabit2_final_prepare_fast_buffers true;
     if ok : bool then fast_token bt (mkTensor3 FAST_H FAST_D [k]) (mkTensor3 FAST_H FAST_D [v])
     else on_rt (runtime_append bt (as_f32 (cuda_token k v).1) (as_f32 (cuda_token k v).2)))
    (fast_of ks vs ready buf).
Proof.
  intros Hn. unfold _rabit2_final_fast_decode_append. rewrite st_bind_eq. cbn [st_get fs_ready fs_rt fast_of].
  change (fast_shape _ _ _) with (Some (mkTensor3 FAST_H FAST_D [k], mkTensor3 FAST_H FAST_D [v])).
  change (rt_sidecar (rs_runtime (rt_of FAST_H FAST_D bt c ks vs))) with (sidecar_of FAST_H FAST_D FAST_D ks vs).
  unfold sidecar_of, sidecar_with at 1. cbn [recent_k].
  pose proof (recent_rows_length ks) as Lr. rewrite old_count_big in Lr by done.
  destruct (recent_rows ks) as [|r0 rs] eqn:Er; [cbn in Lr; lia|]. cbn [when_nonempty].
  unfold t_tokens at 1. cbn [t_rows]. rewrite Lr. by destruct (Nat.ltb_spec (length ks - (length ks - 4)) 4); [lia|].
Qed.

Lemma fast_decode_ready ks vs b k v :
  (4 ≤ length ks)%nat →
  _rabit2_final_fast_decode_append true bt (cuda_token k v).1 (cuda_token k v).2 (fast_of ks vs true (Some b))
  = fast_token bt (mkTensor3 FAST_H FAST_D [k]) (mkTensor3 FAST_H FAST_D [v]) (fast_of ks vs true (Some b)).
Proof. intros Hn. rewrite fast_decode_full by done. by rewrite st_bind_eq. Qed.

(** The first buffered token prepares the buffers. *)
Lemma fast_decode_first ks vs ready buf k v :
  length ks = length vs → (4 ≤ length ks)%nat → Forall (wf_row FAST_H FAST_D) ks →
  Forall (wf_row FAST_H FAST_D) vs → wf_row FAST_H FAST_D k → wf_row FAST_H FAST_D v → v_regular vs →
  table_ok FAST_H FAST_D (length ks + 1) bt c → coherent ks vs ready buf →
  ∃ b, _rabit2_final_fast_decode_append true bt (cuda_token k v).1 (cuda_token k v).2 (fast_of ks vs ready buf)
       = (Ok tt, fast_of (ks ++ [k]) (vs ++ [v]) true (Some b)) ∧ mirrors (ks ++ [k]) (vs ++ [v]) b.
Proof.
  intros Hl Hn Wk Wv Hk Hv Hreg Ht Hco.
  assert (∀ i, (i < closed_count (length ks + 1))%nat → can_close FAST_H FAST_D bt c i) as Hcan
    by (intros i Hi; by eapply table_ok_can_close).
  destruct ready.
  { destruct (Hco eq_refl) as (_ & b & -> & Hb). rewrite fast_decode_ready by done. by apply fast_token_spec. }
  destruct (prepare_spec ks vs buf Hl Hn Wk Wv) as (b & Hp & Hb).
  destruct (fast_token_spec ks vs b k v) as (b' & Hrun & Hb'); try done. exists b'. split; [|done].
  by rewrite fast_decode_full, st_bind_eq, Hp by done.
Qed.

Lemma total_tokens_with pages (ks vs : list (list (list Z))) r :
  rt_closed_pages r = pages → rt_sidecar r = sidecar_of FAST_H FAST_D FAST_D ks vs →
  runtime_total_tokens r = (pages * GROUP + (length ks - closed_count (length ks) * GROUP))%nat.
Proof.
  intros Ep Es. unfold runtime_total_tokens. rewrite Ep, Es. unfold sidecar_of, sidecar_with.
  cbn [open_k recent_k]. rewrite !tensor_len_when, open_rows_length, recent_rows_length.
  pose proof (closed_count_bound (length ks)). pose proof (old_count_bound (length ks)). lia.
Qed.

(** One buffered token after the runtime moved on by a chunk. *)
Lemma stale_token ks vs kx vx b k v :
  length ks = length vs → (4 ≤ length ks)%nat → mirrors ks vs b →
  Forall (wf_row FAST_H FAST_D) ks → Forall (wf_row FAST_H FAST_D) vs →
  wf_row FAST_H FAST_D k → wf_row FAST_H FAST_D v → v_regular vs →
  (length (open_rows ks) + 1 ≠ GROUP)%nat →
  ∃ b', _rabit2_final_fast_decode_append true bt (cuda_token k v).1 (cuda_token k v).2
          (fast_of (ks ++ kx) (vs ++ vx) true (Some b))
        = (Ok tt, mkFast (set_rt_sidecar (sidecar_of FAST_H FAST_D FAST_D (ks ++ [k]) (vs ++ [v]))
                            (rt_of FAST_H FAST_D bt c (ks ++ kx) (vs ++ vx))) true (Some b')).
Proof.
  intros Hl Hn Hm Wk Wv Hk Hv Hreg Ho. rewrite fast_decode_ready by (rewrite length_app; lia).
  destruct (rows_step ks k Hn) as (y & r & Er & _ & Er' & [(? & _)|(_ & _ & Eo & _)]); [done|].
  destruct (rows_step vs v ltac:(lia)) as (z & q & Eq & _ & Eq' & [(Ho' & _)|(_ & _ & Eo' & _)]).
  { by rewrite open_rows_length, <-Hl, <-open_rows_length in Ho'. }
  destruct (fast_token_views ks vs b k v y r z q (rt_of FAST_H FAST_D bt c (ks ++ kx) (vs ++ vx)) Hl Hn Hm
              Wk Wv Hk Hv Hreg Er Eq) as (bk & _ & Hrun).
  unfold fast_of. rewrite Hrun, (proj2 (Nat.eqb_neq _ _) Ho). unfold sidecar_of.
  rewrite Er', Eq', Eo, Eo'. by eexists.
Qed.

(** C32: a chunk between two buffered appends is lost.  A chunk plan updates the
    runtime and leaves the buffers and their flag; the next one-token append
    trusts the stale buffers.  From a fresh runtime: any appends that leave at
    least four tokens, a buffered token [k0, v0], a chunk of any [m] tokens, and
    another buffered token [k, v].  When that token does not close a group,
    everything returns without an error and the chunk is in the runtime before the
    last token, but afterwards the exposed tail is the one of the tokens without
    the chunk; only the count of the pages the chunk closed remains, so the
    runtime accounts [n + 1] tokens and those pages instead of [n + m + 1]. *)
Theorem stale_fast_buffers_lose_chunk (pre : list (dev_tensor * dev_tensor)) (k0 v0 k v : list (list Z))
    (key value : tensor3 f32) :
  let ks := stored (run_keys (map as_chunk pre)) ++ [k0] in
  let vs := stored (run_values (map as_chunk pre)) ++ [v0] in
  let n := length ks in
  let m := t_tokens key in
  Forall (λ x, chunk_ok FAST_H FAST_D (as_chunk x) ∧ bf16_data x.1 ∧ bf16_data x.2) pre →
  (4 < n)%nat → ((n - 4) mod 32 ≠ 31)%nat →
  Forall (wf_row FAST_H FAST_D) [k0; v0; k; v] → v_regular vs →
  chunk_ok FAST_H FAST_D (key, value) → (0 < m)%nat →
  table_ok FAST_H FAST_D (n + m) bt c →
  ∃ s0 s1 s2,
    runtime_start FAST_H FAST_D c = Ok s0
    ∧ (fast_run true (pre ++ [cuda_token k0 v0]);; on_rt (run_chunk bt key value)) (mkFast s0 false None)
      = (Ok tt, s1)
    ∧ rt_sidecar (rs_runtime (fs_rt s1))
      = sidecar_of FAST_H FAST_D FAST_D (ks ++ stored (t_rows key)) (vs ++ stored (t_rows value))
    ∧ runtime_total_tokens (rs_runtime (fs_rt s1)) = (n + m)%nat
    ∧ fast_run true [cuda_token k v] s1 = (Ok tt, s2)
    ∧ rt_sidecar (rs_runtime (fs_rt s2)) = sidecar_of FAST_H FAST_D FAST_D (ks ++ [k]) (vs ++ [v])
    ∧ runtime_total_tokens (rs_runtime (fs_rt s2))
      = (n + 1 + 32 * (closed_count (n + m) - closed_count n))%nat.
Proof.
  intros ks vs n m Hpre Hn Hmod Hw Hreg Hch Hm Ht.
  rewrite !Forall_cons_iff in Hw. destruct Hw as (Hk0 & Hv0 & Hk & Hv & _).
  set (K := stored (run_keys (map as_chunk pre))) in *. set (V := stored (run_values (map as_chunk pre))) in *.
  assert (n = length K + 1)%nat as En by (unfold n, ks; by rewrite length_app).
  pose proof (proj1 (Forall_app _ _ _) Hreg) as [HregV _].
  assert (Forall (chunk_ok FAST_H FAST_D) (map as_chunk pre)) as Hok
    by (rewrite Forall_map; eapply Forall_impl; [|exact Hpre]; by intros x [? _]).
  destruct (runtime_run_start FAST_H FAST_D bt c _ fast_geometry Hok) as (Hs0 & _ & Hl & WK & WV & _).
  { eapply table_ok_mono; [|exact Ht]. rewrite En. unfold K. rewrite stored_length. lia. }
  fold K V in Hl, WK, WV.
  destruct (fast_run_of true pre [] [] false None eq_refl (Forall_nil_2 _) (Forall_nil_2 _) Hpre)
    as (r & b & Hf & Hco); [|done|by intros|].
  { eapply table_ok_mono; [|exact Ht]. rewrite En. unfold K. rewrite stored_length. cbn [length]. lia. }
  cbn [app] in Hf, Hco. fold K V in Hf, Hco.
  assert (table_ok FAST_H FAST_D (length K + 1) bt c) as Ht0 by (eapply table_ok_mono; [|exact Ht]; lia).
  destruct (fast_decode_first K V r b k0 v0 Hl ltac:(lia) WK WV Hk0 Hv0 HregV Ht0 Hco)
    as (b0 & Hrun0 & Hb0).
  fold ks vs in Hrun0, Hb0.
  assert (length ks = length vs) as Hl' by (unfold ks, vs; rewrite !length_app, Hl; done).
  assert (Forall (wf_row FAST_H FAST_D) ks) as Wk by (apply Forall_app; split; [done|by constructor]).
  assert (Forall (wf_row FAST_H FAST_D) vs) as Wv by (apply Forall_app; split; [done|by constructor]).
  pose proof (run_chunk_of ks vs key value Hl' Wk Wv Hch Hm Ht) as Hchunk.
  assert (length (open_rows ks) + 1 ≠ GROUP)%nat as Ho.
  { rewrite open_rows_length. fold n. unfold closed_count. rewrite old_count_big by lia. unfold GROUP.
    pose proof (Nat.div_mod_eq (n - 4) 32). lia. }
  destruct (stale_token ks vs (stored (t_rows key)) (stored (t_rows value)) b0 k v Hl' ltac:(lia) Hb0 Wk Wv
              Hk Hv Hreg Ho) as (b1 & Hrun1).
  pose proof (rt_closed_of FAST_H FAST_D bt c (ks ++ stored (t_rows key)) (vs ++ stored (t_rows value))) as Hcl.
  eexists _, _, _. split; [exact Hs0|]. split; [|split; [|split; [|split; [|split]]]].
  - rewrite st_bind_eq. unfold fast_run. rewrite st_for_app, st_bind_eq.
    change (mkFast _ false None) with (fast_of [] [] false None). fold (fast_run true pre). rewrite Hf.
    cbn [st_for]. rewrite st_bind_eq, Hrun0. unfold mret, ST_ret. cbv beta iota.
    unfold on_rt, fast_of. cbn [fs_rt fs_ready fs_buf]. by rewrite Hchunk.
  - done.
  - etransitivity; [exact (total_tokens_with _ (ks ++ stored (t_rows key)) (vs ++ stored (t_rows value)) _ Hcl eq_refl)|].
    rewrite length_app, stored_length. fold n. unfold t_tokens in m. fold m.
    pose proof (closed_count_bound (n + m)). pose proof (old_count_bound (n + m)). lia.
  - unfold fast_run. cbn [st_for]. unfold fast_of in Hrun1. by rewrite st_bind_eq, Hrun1.
  - done.
  - etransitivity; [exact (total_tokens_with _ (ks ++ [k]) (vs ++ [v])
      (rs_runtime (set_rt_sidecar (sidecar_of FAST_H FAST_D FAST_D (ks ++ [k]) (vs ++ [v]))
         (rt_of FAST_H FAST_D bt c (ks ++ stored (t_rows key)) (vs ++ stored (t_rows value))))) Hcl eq_refl)|].
    rewrite !length_app, stored_length. fold n. unfold t_tokens in m. fold m. cbn [length].
    assert (closed_count (n + 1) = closed_count n) as ->.
    { unfold closed_count. rewrite !old_count_big by lia. unfold GROUP.
      replace (n + 1 - 4)%nat with (n - 4 + 1)%nat by lia.
      pose proof (Nat.div_mod_eq (n - 4) 32). pose proof (Nat.mod_upper_bound (n - 4) 32 ltac:(lia)).
      symmetry. apply (Nat.div_unique _ _ _ ((n - 4) mod 32 + 1)); lia. }
    pose proof (closed_count_mono n (n + m) ltac:(lia)).
    pose proof (closed_count_bound n). pose proof (old_count_bound n). unfold GROUP in *. lia.
Qed.
End Step.
End FastAppend.


Section Concrete.
#[local] Existing Instance FixedTorch.
#[local] Existing Instance FixedTriton.

#[local] Existing Instance zero_memory.

(** [n] CUDA BF16 tokens of the production geometry, all channels [p]. *)
Definition cuda_tokens (n : nat) (p : Z) : dev_tensor :=
  mkDev true true (TBf16 (mkTensor3 FAST_H FAST_D (replicate n (replicate FAST_H (replicate FAST_D p))))).
Definition cuda_chunk (n : nat) (p : Z) : dev_tensor * dev_tensor := (cuda_tokens n p, cuda_tokens n p).

Lemma map_replicate {A B} (f : A → B) n x : map f (replicate n x) = replicate n (f x).
Proof. apply fmap_replicate. Qed.

Lemma cuda_chunk_ok n p :
  (0 ≤ p < 65536)%Z →
  chunk_ok FAST_H FAST_D (as_chunk (cuda_chunk n p)) ∧ bf16_data (cuda_chunk n p).1 ∧ bf16_data (cuda_chunk n p).2.
Proof.
  intros Hp.
  assert (wf_tensor3 (as_f32 (cuda_tokens n p))) as Hw.
  { unfold as_f32, cuda_tokens, t_map, wf_tensor3. cbn [dt_data t_rows t_heads t_dim].
    unfold map3. rewrite map_replicate. apply Forall_replicate. split.
    - by rewrite map_replicate, length_replicate.
    - rewrite map_replicate. apply Forall_replicate. by rewrite map_replicate, length_replicate. }
  split; [split; [exact Hw|]; split; [exact Hw|]|].
  - split; [by apply shape_eqb_spec|]. done.
  - assert (bf16_data (cuda_tokens n p)) as Hb; [|done].
    unfold bf16_data, cuda_tokens. cbn [dt_data t_rows]. unfold map3. rewrite !map_replicate.
    change (bf16_of_f32 (f32_of_bf16 p)) with (p mod 65536)%Z. by rewrite Z.mod_small.
Qed.

Definition decode_chunks : list (dev_tensor * dev_tensor) := [cuda_chunk 38 7; cuda_chunk 1 2; cuda_chunk 1 9].

(** C14 on a prompt of 38 tokens and two decoded tokens. *)
Lemma fast_append_is_append_witness :
  let c := mkCache 24832 (replicate 3 (replicate (Z.to_nat 24832) 0%Z)) in
  ∃ s0 s ready buf,
    runtime_start FAST_H FAST_D c = Ok s0
    ∧ runtime_run [2%nat] (map as_chunk decode_chunks) s0 = (Ok tt, s)
    ∧ fast_run [2%nat] true decode_chunks (mkFast s0 false None) = (Ok tt, mkFast s ready buf).
Proof.
  apply (fast_append_is_append (TFL := FixedTorch_laws) (TL := FixedTriton_laws) [2%nat]
           (mkCache 24832 (replicate 3 (replicate (Z.to_nat 24832) 0%Z))) true decode_chunks).
  - repeat (apply Forall_cons_iff; split; [by apply cuda_chunk_ok|]). constructor.
  - apply List.Forall_forall. intros tok _. apply List.Forall_forall. intros g _. exact I.
  - split; [apply (bool_decide_unpack _); by vm_compute|]. split; [by vm_compute; lia|].
    split; [repeat constructor; cbn; lia|]. by vm_compute.
Defined.
(** A token of the production geometry with all channels [p]. *)
Definition row_of (p : Z) : list (list Z) := replicate FAST_H (replicate FAST_D p).

Lemma row_of_wf p : wf_row FAST_H FAST_D (row_of p).
Proof.
  split; [by vm_compute|]. apply Forall_replicate. by rewrite length_replicate.
Qed.

(** C32 on four tokens, a buffered one, a chunk of two and another buffered one:
    the runtime ends with six tokens instead of eight. *)
Lemma stale_fast_buffers_lose_chunk_witness :
  let c := mkCache 24832 (replicate 3 (replicate (Z.to_nat 24832) 0%Z)) in
  let held := stored (run_keys (map as_chunk [cuda_chunk 4 1])) ++ [row_of 2] in
  let chunk := as_f32 (cuda_tokens 2 3) in
  ∃ s0 s1 s2,
    runtime_start FAST_H FAST_D c = Ok s0
    ∧ (fast_run [2%nat] true ([cuda_chunk 4 1] ++ [cuda_token (row_of 2) (row_of 2)]);;
       on_rt (run_chunk [2%nat] chunk chunk)) (mkFast s0 false None) = (Ok tt, s1)
    ∧ rt_sidecar (rs_runtime (fs_rt s1))
      = sidecar_of FAST_H FAST_D FAST_D (held ++ stored (t_rows chunk)) (held ++ stored (t_rows chunk))
    ∧ runtime_total_tokens (rs_runtime (fs_rt s1)) = (length held + 2)%nat
    ∧ fast_run [2%nat] true [cuda_token (row_of 5) (row_of 5)] s1 = (Ok tt, s2)
    ∧ rt_sidecar (rs_runtime (fs_rt s2))
      = sidecar_of FAST_H FAST_D FAST_D (held ++ [row_of 5]) (held ++ [row_of 5])
    ∧ runtime_total_tokens (rs_runtime (fs_rt s2))
      = (length held + 1 + 32 * (closed_count (length held + 2) - closed_count (length held)))%nat.
Proof.
  apply (stale_fast_buffers_lose_chunk (TFL := FixedTorch_laws) (TL := FixedTriton_laws) [2%nat]
           (mkCache 24832 (replicate 3 (replicate (Z.to_nat 24832) 0%Z))) [cuda_chunk 4 1]
           (row_of 2) (row_of 2) (row_of 5) (row_of 5) (as_f32 (cuda_tokens 2 3)) (as_f32 (cuda_tokens 2 3))).
  - apply Forall_cons_iff. split; [by apply cuda_chunk_ok|constructor].
  - by vm_compute; lia.
  - by vm_compute.
  - repeat (apply Forall_cons_iff; split; [apply row_of_wf|]). constructor.
  - apply List.Forall_forall. intros tok _. apply List.Forall_forall. intros g _. exact I.
  - by apply (cuda_chunk_ok 2 3).
  - by vm_compute; lia.
  - split; [apply (bool_decide_unpack _); by vm_compute|]. split; [by vm_compute; lia|].
    split; [repeat constructor; cbn; lia|]. by vm_compute.
Defined.
End Concrete.
