(* ===== verification/Attention.v ===== *)
(** * The decode attention kernels

    The Triton kernels of [rabit_kv2.py] that attend over packed pages and the
    tail of a sequence: [_rabit2_closed_page_attention_kernel],
    [_rabit2_closed_page_partial_kernel], its four-heads-per-program form
    [_rabit2_stage4b3_gqa4_closed_page_partial_kernel],
    [_rabit2_tail_partial_kernel], [_rabit2_stage4b1_exactmeta_tail_partial_kernel]
    and [_rabit2_reduce_partials_kernel].  A kernel is its grid of programs over
    device memory; a lane whose mask is false loads the [other] value.

    [tl.sum] and [tl.exp] are operations of the kernel language ([TritonReduce]):
    nothing is assumed of the order in which a block is summed, so equality of
    two kernels here is equality of every float they compute.  Their
    specification ([split_attention]) is softmax attention split in segments,
    over the tensors the reference decoders return. *)

From Stdlib Require Import ZArith Lia.
From stdpp Require Import base tactics numbers list option.
From S2P Require Import Prelude Layout Torch BitPack Meta Quant Tab Triton Decoded Page Sidecar Tail.
From S2P Require Import OnlineRef Runtime PageKernel EncodeKernel.

Class TritonReduce `{TF : TorchFloat} := {
  tl_sum : list f32 → f32;              (* tl.sum(x, axis=...) of a block *)
  tl_exp : f32 → f32;
  tl_neg_inf : f32;                     (* float("-inf") *)
  py_rsqrt : nat → f32                  (* d ** -0.5, as a float32 argument *)
}.

(** An element type of a floating tensor: loads, stores and fresh memory. *)
Class FloatType `{TF : TorchFloat} (B : Type) := {
  ft_load : B → f32;                    (* .to(tl.float32) *)
  ft_cast : f32 → B;                    (* a store, or .to(dtype) *)
  ft_zero : B;
  ft_empty : nat → list B;              (* torch.empty *)
  ft_empty_length : ∀ n, length (ft_empty n) = n
}.

Definition bf16_type `{TF : TorchFloat} {TE : TorchEmpty} : FloatType Z := {|
  ft_load := f32_of_bf16; ft_cast := bf16_of_f32; ft_zero := 0%Z;
  ft_empty := empty_int; ft_empty_length := empty_int_length |}.

(** Zero in the arithmetic of a masked lane. *)
Class TritonZero `{TF : TorchFloat} : Prop := {
  zero_scale_one : f32_add (f32_mul (f32_of_int 0) f32_one) f32_zero = f32_zero;
  zero_scale_zero : f32_add (f32_mul (f32_of_int 0) f32_zero) f32_zero = f32_zero;
  zero_of_bf16 : f32_of_bf16 0 = f32_zero;
  zero_rounded : f32_of_bf16 (bf16_of_f32 f32_zero) = f32_zero
}.

Section Attention.
Context `{TF : TorchFloat} {TR : TritonFloat} {TA : TritonReduce}.

(** ** Softmax over one segment *)

(** [tl.sum(kval * q[None, :], axis=1) * softmax_scale] *)
Definition score (BLOCK_D : nat) (kval : nat → nat → f32) (q : nat → f32) (softmax_scale : f32) (t : nat) : f32 :=
  f32_mul (tl_sum (tab BLOCK_D (λ d, f32_mul (kval t d) (q d)))) softmax_scale.

(** Maximum, sum of weights and weighted values of a segment of [n] tokens. *)
Definition flash_block (n BLOCK_D : nat) (kval vval : nat → nat → f32) (q : nat → f32) (softmax_scale : f32) :
    f32 * f32 * (nat → f32) :=
  let scores := tab n (score BLOCK_D kval q softmax_scale) in
  let m := tl_max scores in
  let p := map (λ s, tl_exp (f32_sub s m)) scores in
  (m, tl_sum p, λ d, tl_sum (tab n (λ t, f32_mul (nth t p f32_zero) (vval t d)))).

(** The same over the valid lanes of a block. *)
Definition flash_masked (n BLOCK_D : nat) (valid : nat → bool) (kval vval : nat → nat → f32) (q : nat → f32)
    (softmax_scale : f32) : f32 * f32 * (nat → f32) :=
  let scores := tab n (λ t, if valid t then score BLOCK_D kval q softmax_scale t else tl_neg_inf) in
  let m := tl_max scores in
  let p := tab n (λ t, if valid t then tl_exp (f32_sub (nth t scores f32_zero) m) else f32_zero) in
  (m, tl_sum p, λ d, tl_sum (tab n (λ t, f32_mul (nth t p f32_zero) (vval t d)))).

(** [partial_m], [partial_l] and [partial_acc]. *)
Record Partials := mkPartials { pm : list f32; pl : list f32; pacc : list f32 }.

Definition store_partial (seg HEAD_SIZE BLOCK_D : nat) (r : f32 * f32 * (nat → f32)) (mem : Partials) : Partials :=
  {| pm := store_block seg [r.1.1] (pm mem);
     pl := store_block seg [r.1.2] (pl mem);
     pacc := store_block (seg * HEAD_SIZE) (tab (BLOCK_D `min` HEAD_SIZE) r.2) (pacc mem) |}.

(** [tl.load(q_ptr + qh * HEAD_SIZE + d, mask=dmask, other=0.0).to(tl.float32)] *)
Definition q_load {B : Type} {FT : FloatType B} (q : list B) (HEAD_SIZE qh d : nat) : f32 :=
  if (d <? HEAD_SIZE)%nat then ft_load (nth (qh * HEAD_SIZE + d) q ft_zero) else f32_zero.

(** ** Closed pages in the physical cache *)

(** The [constexpr] arguments the launchers derive from the layout. *)
Record PageConsts := mkPageConsts {
  PAGE_BYTES : nat;
  K_PAYLOAD_OFFSET : nat;
  V_PAYLOAD_OFFSET : nat;
  K_MIN_OFFSET : nat;
  K_SCALE_OFFSET : nat;
  V_MIN_OFFSET : nat;
  V_SCALE_OFFSET : nat;
  K_PRIMARY_COUNT : nat;
  K_META_GROUPS : nat;
  V_PRIMARY_COUNT : nat;
  V_META_GROUPS : nat;
  NUM_Q_HEADS : nat;
  NUM_KV_HEADS : nat;
  HEAD_SIZE : nat;
  K_PACKED_DIM : nat;
  V_PACKED_DIM : nat;
  V_GROUPS : nat;
  BLOCK_D : nat
}.

Definition _rabit2_u8pair_to_bf16_f32 (ld : nat → Z) (byte_offset : nat) (mask : bool) : f32 :=
  let lo := if mask then ld byte_offset else 0%Z in
  let hi := if mask then ld (byte_offset + 1)%nat else 0%Z in
  f32_of_bf16 (Z.lor lo (Z.shiftl hi 8)).

(** [code * secscale + secmin] of one META8g64 blob of the page. *)
Definition page_meta_load (ld : nat → Z) (offset count groups idx : nat) (mask : bool) : f32 :=
  let mg := (idx / 64)%nat in
  let code := f32_of_int (if mask then ld (offset + idx)%nat else 0%Z) in
  let secmin := _rabit2_u8pair_to_bf16_f32 ld (offset + count + mg * 2) mask in
  let secscale := _rabit2_u8pair_to_bf16_f32 ld (offset + count + groups * 2 + mg * 2) mask in
  f32_add (f32_mul code secscale) secmin.

Definition page_kval (c : PageConsts) (ld : nat → Z) (kvh t d : nat) : f32 :=
  let dmask := (d <? HEAD_SIZE c)%nat in
  let k_byte := (d * 3 / 8)%nat in
  let k_shift := (d * 3 mod 8)%nat in
  let k_row := ((t * NUM_KV_HEADS c + kvh) * K_PACKED_DIM c)%nat in
  let k_lo := if dmask then ld (K_PAYLOAD_OFFSET c + k_row + k_byte)%nat else 0%Z in
  let k_hi := if dmask && (k_byte + 1 <? K_PACKED_DIM c)%nat
              then ld (K_PAYLOAD_OFFSET c + k_row + k_byte + 1)%nat else 0%Z in
  let k_code := Z.land (Z.shiftr (Z.lor k_lo (Z.shiftl k_hi 8)) (Z.of_nat k_shift)) 7 in
  let k_idx := (kvh * HEAD_SIZE c + d)%nat in
  let k_min := page_meta_load ld (K_MIN_OFFSET c) (K_PRIMARY_COUNT c) (K_META_GROUPS c) k_idx dmask in
  let k_scale := page_meta_load ld (K_SCALE_OFFSET c) (K_PRIMARY_COUNT c) (K_META_GROUPS c) k_idx dmask in
  f32_add (f32_mul (f32_of_int k_code) k_scale) k_min.

Definition page_vval (c : PageConsts) (ld : nat → Z) (kvh t d : nat) : f32 :=
  let dmask := (d <? HEAD_SIZE c)%nat in
  let v_byte := (d / 4)%nat in
  let v_shift := (d mod 4 * 2)%nat in
  let v_row := ((t * NUM_KV_HEADS c + kvh) * V_PACKED_DIM c)%nat in
  let vb := if dmask then ld (V_PAYLOAD_OFFSET c + v_row + v_byte)%nat else 0%Z in
  let v_code := Z.land (Z.shiftr vb (Z.of_nat v_shift)) 3 in
  let v_idx := ((t * NUM_KV_HEADS c + kvh) * V_GROUPS c + d / 32)%nat in
  let v_min := page_meta_load ld (V_MIN_OFFSET c) (V_PRIMARY_COUNT c) (V_META_GROUPS c) v_idx dmask in
  let v_scale := page_meta_load ld (V_SCALE_OFFSET c) (V_PRIMARY_COUNT c) (V_META_GROUPS c) v_idx dmask in
  f32_add (f32_mul (f32_of_int v_code) v_scale) v_min.

(** [page = cache_ptr + physical_page * PAGE_BYTES] *)
Definition page_load (c : PageConsts) (cache : list Z) (block_table : list nat) (logical_page off : nat) : Z :=
  let physical_page := nth logical_page block_table 0%nat in
  nth (physical_page * PAGE_BYTES c + off) cache 0%Z.

Section Query.
Context {B : Type} {FT : FloatType B}.

(** The grid [(closed, q_heads)]. *)
Definition _rabit2_closed_page_partial_kernel (c : PageConsts) (closed : nat) (q : list B) (cache : list Z)
    (block_table : list nat) (softmax_scale : f32) : Partials → Partials :=
  launch closed (λ logical_page, launch (NUM_Q_HEADS c) (λ qh,
    let kvh := (qh / (NUM_Q_HEADS c / NUM_KV_HEADS c))%nat in
    let ld := page_load c cache block_table logical_page in
    let seg := (logical_page * NUM_Q_HEADS c + qh)%nat in
    store_partial seg (HEAD_SIZE c) (BLOCK_D c)
      (flash_block 32 (BLOCK_D c) (page_kval c ld kvh) (page_vval c ld kvh)
         (q_load q (HEAD_SIZE c) qh) softmax_scale))).

(** The grid [(closed, qgroups)]; a program decodes K and V once for four heads. *)
Definition _rabit2_stage4b3_gqa4_closed_page_partial_kernel (c : PageConsts) (closed qgroups : nat) (q : list B)
    (cache : list Z) (block_table : list nat) (softmax_scale : f32) : Partials → Partials :=
  let GQA_RATIO := (NUM_Q_HEADS c / NUM_KV_HEADS c)%nat in
  let GROUPS_PER_KV := (GQA_RATIO / 4)%nat in
  launch closed (λ logical_page, launch qgroups (λ qgroup,
    let kvh := (qgroup / GROUPS_PER_KV)%nat in
    let subgroup := (qgroup - kvh * GROUPS_PER_KV)%nat in
    let qh_base := (kvh * GQA_RATIO + subgroup * 4)%nat in
    let ld := page_load c cache block_table logical_page in
    let kval := page_kval c ld kvh in
    let vval := page_vval c ld kvh in
    launch 4 (λ qi,
      let qh := (qh_base + qi)%nat in
      let seg := (logical_page * NUM_Q_HEADS c + qh)%nat in
      store_partial seg (HEAD_SIZE c) (BLOCK_D c)
        (flash_block 32 (BLOCK_D c) kval vval (q_load q (HEAD_SIZE c) qh) softmax_scale)))).

(** ** The tail *)

(** [tail_k] and [tail_v] hold [tail_len] tokens of any floating type. *)
Definition _rabit2_tail_partial_kernel {C : Type} {FC : FloatType C} (q : list B) (tail_k tail_v : list C)
    (tail_len segment_idx : nat) (softmax_scale : f32) (NUM_Q_HEADS NUM_KV_HEADS HEAD_SIZE BLOCK_T BLOCK_D : nat) :
    Partials → Partials :=
  launch NUM_Q_HEADS (λ qh,
    let kvh := (qh / (NUM_Q_HEADS / NUM_KV_HEADS))%nat in
    let tmask t := (t <? tail_len)%nat in
    let at_ (x : list C) t d :=
      if tmask t && (d <? HEAD_SIZE)%nat
      then ft_load (nth ((t * NUM_KV_HEADS + kvh) * HEAD_SIZE + d) x ft_zero) else f32_zero in
    store_partial (segment_idx * NUM_Q_HEADS + qh) HEAD_SIZE BLOCK_D
      (flash_masked BLOCK_T BLOCK_D tmask (at_ tail_k) (at_ tail_v) (q_load q HEAD_SIZE qh) softmax_scale)).

(** A META8g64 tensor in device memory: [code * secscale + secmin] at [idx]. *)
Definition meta_at (m : MetaView) (idx : nat) (mask : bool) : f32 :=
  let g := (idx / 64)%nat in
  f32_add (f32_mul (f32_of_int (if mask then nth idx (mv_codes m) 0%Z else 0%Z))
                   (if mask then f32_of_bf16 (nth g (mv_scales m) 0%Z) else f32_one))
          (if mask then f32_of_bf16 (nth g (mv_mins m) 0%Z) else f32_zero).

(** The open group and the residual as the kernel receives them. *)
Record TailArgs := mkTailArgs {
  ta_k_packed : list Z;
  ta_v_packed : list Z;
  ta_recent_k : list Z;
  ta_recent_v : list Z;
  ta_kmin : MetaView;
  ta_kscale : MetaView;
  ta_vmin : MetaView;
  ta_vscale : MetaView
}.

Section TailLanes.
Variables (a : TailArgs) (open_len recent_len NUM_KV_HEADS HEAD_SIZE K_PACKED_DIM V_PACKED_DIM V_GROUPS kvh : nat).

Definition open_mask (t : nat) : bool := (t <? open_len)%nat.
Definition recent_mask (t : nat) : bool := (open_len <=? t)%nat && (t - open_len <? recent_len)%nat.

Definition tail_kopen (t d : nat) : f32 :=
  let dmask := (d <? HEAD_SIZE)%nat in
  let k_byte := (d * 3 / 8)%nat in
  let k_shift := (d * 3 mod 8)%nat in
  let k_row := ((t * NUM_KV_HEADS + kvh) * K_PACKED_DIM)%nat in
  let klo := if open_mask t && dmask then nth (k_row + k_byte) (ta_k_packed a) 0%Z else 0%Z in
  let khi := if open_mask t && dmask && (k_byte + 1 <? K_PACKED_DIM)%nat
             then nth (k_row + k_byte + 1) (ta_k_packed a) 0%Z else 0%Z in
  let kcode := Z.land (Z.shiftr (Z.lor klo (Z.shiftl khi 8)) (Z.of_nat k_shift)) 7 in
  let kidx := (kvh * HEAD_SIZE + d)%nat in
  bf16_rounded (f32_add (f32_mul (f32_of_int kcode) (meta_at (ta_kscale a) kidx dmask)) (meta_at (ta_kmin a) kidx dmask)).

Definition tail_vopen (t d : nat) : f32 :=
  let dmask := (d <? HEAD_SIZE)%nat in
  let v_row := ((t * NUM_KV_HEADS + kvh) * V_PACKED_DIM)%nat in
  let vb := if open_mask t && dmask then nth (v_row + d / 4) (ta_v_packed a) 0%Z else 0%Z in
  let vcode := Z.land (Z.shiftr vb (Z.of_nat (d mod 4 * 2))) 3 in
  let vidx := ((t * NUM_KV_HEADS + kvh) * V_GROUPS + d / 32)%nat in
  let mask := open_mask t && dmask in
  bf16_rounded (f32_add (f32_mul (f32_of_int vcode) (meta_at (ta_vscale a) vidx mask)) (meta_at (ta_vmin a) vidx mask)).

Definition tail_recent (x : list Z) (t d : nat) : f32 :=
  if recent_mask t && (d <? HEAD_SIZE)%nat
  then f32_of_bf16 (nth (((t - open_len) * NUM_KV_HEADS + kvh) * HEAD_SIZE + d) x 0%Z) else f32_zero.

Definition tail_kval (t d : nat) : f32 :=
  if open_mask t then tail_kopen t d else tail_recent (ta_recent_k a) t d.
Definition tail_vval (t d : nat) : f32 :=
  if open_mask t then tail_vopen t d else tail_recent (ta_recent_v a) t d.
End TailLanes.

Definition _rabit2_stage4b1_exactmeta_tail_partial_kernel (q : list B) (a : TailArgs)
    (open_len recent_len segment_idx : nat) (softmax_scale : f32)
    (NUM_Q_HEADS NUM_KV_HEADS HEAD_SIZE K_PACKED_DIM V_PACKED_DIM V_GROUPS BLOCK_D : nat) : Partials → Partials :=
  launch NUM_Q_HEADS (λ qh,
    let kvh := (qh / (NUM_Q_HEADS / NUM_KV_HEADS))%nat in
    store_partial (segment_idx * NUM_Q_HEADS + qh) HEAD_SIZE BLOCK_D
      (flash_masked 64 BLOCK_D (λ t, open_mask open_len t || recent_mask open_len recent_len t)
         (tail_kval a open_len recent_len NUM_KV_HEADS HEAD_SIZE K_PACKED_DIM kvh)
         (tail_vval a open_len recent_len NUM_KV_HEADS HEAD_SIZE V_PACKED_DIM V_GROUPS kvh)
         (q_load q HEAD_SIZE qh) softmax_scale)).

(** ** Combining the segments *)

Definition reduce_lane (mem : Partials) (num_segments NUM_Q_HEADS HEAD_SIZE BLOCK_S qh d : nat) : f32 :=
  let smask s := (s <? num_segments)%nat in
  let seg_idx s := (s * NUM_Q_HEADS + qh)%nat in
  let ms := tab BLOCK_S (λ s, if smask s then nth (seg_idx s) (pm mem) f32_zero else tl_neg_inf) in
  let ls := tab BLOCK_S (λ s, if smask s then nth (seg_idx s) (pl mem) f32_zero else f32_zero) in
  let global_m := tl_max ms in
  let w := tab BLOCK_S (λ s, if smask s then tl_exp (f32_sub (nth s ms f32_zero) global_m) else f32_zero) in
  let denom := tl_sum (tab BLOCK_S (λ s, f32_mul (nth s w f32_zero) (nth s ls f32_zero))) in
  let acc s := if smask s && (d <? HEAD_SIZE)%nat
               then nth (seg_idx s * HEAD_SIZE + d) (pacc mem) f32_zero else f32_zero in
  tl_div (tl_sum (tab BLOCK_S (λ s, f32_mul (acc s) (nth s w f32_zero)))) denom.

Definition _rabit2_reduce_partials_kernel (mem : Partials) (num_segments NUM_Q_HEADS HEAD_SIZE BLOCK_S BLOCK_D : nat) :
    list B → list B :=
  launch NUM_Q_HEADS (λ qh,
    store_block (qh * HEAD_SIZE)
      (tab (BLOCK_D `min` HEAD_SIZE) (λ d, ft_cast (reduce_lane mem num_segments NUM_Q_HEADS HEAD_SIZE BLOCK_S qh d)))).

(** ** Attention over one page *)

(** The lane values of [_rabit2_closed_page_attention_kernel], which takes the
    views of a page. *)
Definition view_kval (pv : PageViews) (NUM_KV_HEADS HEAD_SIZE kvh t d : nat) : f32 :=
  let dmask := (d <? HEAD_SIZE)%nat in
  let kbyte := (d * 3 / 8)%nat in
  let krow := ((t * NUM_KV_HEADS + kvh) * pv_k_packed_dim pv)%nat in
  let klo := if dmask then nth (krow + kbyte) (pv_k_payload pv) 0%Z else 0%Z in
  let khi := if dmask && (kbyte + 1 <? pv_k_packed_dim pv)%nat
             then nth (krow + kbyte + 1) (pv_k_payload pv) 0%Z else 0%Z in
  let kcode := Z.land (Z.shiftr (Z.lor klo (Z.shiftl khi 8)) (Z.of_nat (d * 3 mod 8))) 7 in
  let kidx := (kvh * HEAD_SIZE + d)%nat in
  f32_add (f32_mul (f32_of_int kcode) (meta_at (pv_kscale pv) kidx dmask)) (meta_at (pv_kmin pv) kidx dmask).

Definition view_vval (pv : PageViews) (NUM_KV_HEADS HEAD_SIZE V_GROUPS kvh t d : nat) : f32 :=
  let dmask := (d <? HEAD_SIZE)%nat in
  let vrow := ((t * NUM_KV_HEADS + kvh) * pv_v_packed_dim pv)%nat in
  let vb := if dmask then nth (vrow + d / 4) (pv_v_payload pv) 0%Z else 0%Z in
  let vcode := Z.land (Z.shiftr vb (Z.of_nat (d mod 4 * 2))) 3 in
  let vidx := ((t * NUM_KV_HEADS + kvh) * V_GROUPS + d / 32)%nat in
  f32_add (f32_mul (f32_of_int vcode) (meta_at (pv_vscale pv) vidx dmask)) (meta_at (pv_vmin pv) vidx dmask).

(** Normalized weights, then values. *)
Definition page_attention_block (n BLOCK_D : nat) (kval vval : nat → nat → f32) (q : nat → f32)
    (softmax_scale : f32) (d : nat) : f32 :=
  let scores := tab n (score BLOCK_D kval q softmax_scale) in
  let m := tl_max scores in
  let p := map (λ s, tl_exp (f32_sub s m)) scores in
  let z := tl_sum p in
  let p := map (λ x, tl_div x z) p in
  tl_sum (tab n (λ t, f32_mul (nth t p f32_zero) (vval t d))).

Definition _rabit2_closed_page_attention_kernel (pv : PageViews) (q : list B) (softmax_scale : f32)
    (NUM_Q_HEADS NUM_KV_HEADS HEAD_SIZE V_GROUPS BLOCK_D : nat) : list B → list B :=
  launch NUM_Q_HEADS (λ qh,
    let kvh := (qh / (NUM_Q_HEADS / NUM_KV_HEADS))%nat in
    store_block (qh * HEAD_SIZE)
      (tab (BLOCK_D `min` HEAD_SIZE) (λ d, ft_cast
         (page_attention_block 32 BLOCK_D (view_kval pv NUM_KV_HEADS HEAD_SIZE kvh)
            (view_vval pv NUM_KV_HEADS HEAD_SIZE V_GROUPS kvh) (q_load q HEAD_SIZE qh) softmax_scale d)))).
End Query.
End Attention.
