(* ===== verification/PageAttention.v ===== *)
(** * Attention over closed pages

    The specification of the decode kernels of [Attention] and the proofs for the
    closed pages: a page in the physical cache is read through the block table as
    the tensors [decode_rabit2_page_ref] returns, the four-heads-per-program
    kernel writes what the one-head kernel writes, the segments written by the
    grid are combined by the reduction, and the fused attention over one page is
    softmax attention over its decoded tensors. *)

From Stdlib Require Import ZArith Lia.
From stdpp Require Import base tactics numbers list option.
From S2P Require Import Prelude Layout Torch SpecFloatTorch BitPack Meta Quant Tab Triton FixedTorch Decoded Page.
From S2P Require Import Sidecar Tail OnlineRef Runtime PageKernel EncodeKernel Attention.

Section Spec.
Context `{TF : TorchFloat} {TR : TritonFloat} {TA : TritonReduce}.

(** Element [t, kvh, d] of a tensor, zero outside it. *)
Definition lane_of (rows : list (list (list f32))) (kvh t d : nat) : f32 :=
  nth d (nth kvh (nth t rows []) []) f32_zero.

(** One segment of 32 tokens, and a tail of at most [n]. *)
Definition page_segment (BLOCK_D kvh : nat) (kv : list (list (list f32)) * list (list (list f32)))
    (q : nat → f32) (softmax_scale : f32) : f32 * f32 * (nat → f32) :=
  flash_block 32 BLOCK_D (lane_of kv.1 kvh) (lane_of kv.2 kvh) q softmax_scale.
Definition tail_segment (n BLOCK_D kvh : nat) (kv : list (list (list f32)) * list (list (list f32)))
    (q : nat → f32) (softmax_scale : f32) : f32 * f32 * (nat → f32) :=
  flash_masked n BLOCK_D (λ t, (t <? length kv.1)%nat) (lane_of kv.1 kvh) (lane_of kv.2 kvh) q softmax_scale.

(** The weighted combination of the segments of one head, in blocks of [BLOCK_S]. *)
Definition combine_segments (BLOCK_S : nat) (segs : list (f32 * f32 * (nat → f32))) (d : nat) : f32 :=
  let get {A} (f : f32 * f32 * (nat → f32) → A) x s := match segs !! s with Some r => f r | None => x end in
  let ms := tab BLOCK_S (get (λ r, r.1.1) tl_neg_inf) in
  let global_m := tl_max ms in
  let w := tab BLOCK_S (λ s, match segs !! s with
                             | Some r => tl_exp (f32_sub r.1.1 global_m)
                             | None => f32_zero
                             end) in
  let denom := tl_sum (tab BLOCK_S (λ s, f32_mul (nth s w f32_zero) (get (λ r, r.1.2) f32_zero s))) in
  tl_div (tl_sum (tab BLOCK_S (λ s, f32_mul (get (λ r, r.2 d) f32_zero s) (nth s w f32_zero)))) denom.

(** Attention of [NUM_Q_HEADS] query heads over the pages and the tail. *)
Definition split_attention (NUM_Q_HEADS NUM_KV_HEADS HEAD_SIZE BLOCK_T : nat)
    (pages : list (list (list (list f32)) * list (list (list f32))))
    (tail : list (list (list f32)) * list (list (list f32))) (q : nat → nat → f32) (softmax_scale : f32) :
    list (list f32) :=
  let BLOCK_D := next_power_of_2 HEAD_SIZE in
  tab NUM_Q_HEADS (λ qh,
    let kvh := (qh / (NUM_Q_HEADS / NUM_KV_HEADS))%nat in
    let segs := map (λ kv, page_segment BLOCK_D kvh kv (q qh) softmax_scale) pages
                ++ [tail_segment BLOCK_T BLOCK_D kvh tail (q qh) softmax_scale] in
    tab HEAD_SIZE (combine_segments (next_power_of_2 (length segs)) segs)).

(** ** Programs that compute the same floats *)

Definition same_partial (D : nat) (r r' : f32 * f32 * (nat → f32)) : Prop :=
  r.1 = r'.1 ∧ ∀ d, (d < D)%nat → r.2 d = r'.2 d.

Lemma score_ext BLOCK_D k k' q q' s t :
  (∀ d, (d < BLOCK_D)%nat → k t d = k' t d ∧ q d = q' d) → score BLOCK_D k q s t = score BLOCK_D k' q' s t.
Proof.
  intros H. unfold score. do 2 f_equal. apply tab_ext. intros d Hd. by destruct (H d Hd) as [-> ->].
Qed.

Lemma flash_block_ext n BLOCK_D D k k' v v' q s :
  (∀ t d, (t < n)%nat → (d < BLOCK_D)%nat → k t d = k' t d) →
  (∀ t d, (t < n)%nat → (d < D)%nat → v t d = v' t d) →
  same_partial D (flash_block n BLOCK_D k v q s) (flash_block n BLOCK_D k' v' q s).
Proof.
  intros Hk Hv. unfold flash_block, same_partial.
  rewrite (tab_ext n (score BLOCK_D k q s) (score BLOCK_D k' q s))
    by (intros t Ht; apply score_ext; intros d Hd; by rewrite Hk).
  split; [done|]. intros d Hd. cbn [snd]. f_equal. apply tab_ext. intros t Ht. by rewrite Hv.
Qed.

Lemma flash_masked_ext n BLOCK_D D b b' k k' v v' q s :
  (∀ t, (t < n)%nat → b t = b' t) →
  (∀ t d, (t < n)%nat → b t = true → (d < BLOCK_D)%nat → k t d = k' t d) →
  (∀ t d, (t < n)%nat → (d < D)%nat → v t d = v' t d) →
  same_partial D (flash_masked n BLOCK_D b k v q s) (flash_masked n BLOCK_D b' k' v' q s).
Proof.
  intros Hb Hk Hv. unfold flash_masked, same_partial.
  rewrite (tab_ext n (λ t, if b t then score BLOCK_D k q s t else tl_neg_inf)
             (λ t, if b' t then score BLOCK_D k' q s t else tl_neg_inf)).
  2: { intros t Ht. rewrite <-Hb by done. destruct (b t) eqn:E; [|done]. apply score_ext.
       intros d Hd. by rewrite Hk. }
  set (scores := tab n _). set (m := tl_max scores).
  rewrite (tab_ext n (λ t, if b t then tl_exp (f32_sub (nth t scores f32_zero) m) else f32_zero)
             (λ t, if b' t then tl_exp (f32_sub (nth t scores f32_zero) m) else f32_zero))
    by (intros t Ht; by rewrite Hb).
  split; [done|]. intros d Hd. cbn [snd]. f_equal. apply tab_ext. intros t Ht. by rewrite Hv.
Qed.

Lemma store_partial_ext seg D BLOCK_D r r' mem :
  same_partial D r r' → store_partial seg D BLOCK_D r mem = store_partial seg D BLOCK_D r' mem.
Proof.
  intros [E H]. unfold store_partial. rewrite E. f_equal. f_equal. apply tab_ext. intros d Hd. apply H. lia.
Qed.

(** ** Grids *)

(** A grid of [a] by [b] programs numbered in row-major order. *)
Lemma launch_flatten {M} a b (F : nat → M → M) m :
  launch a (λ i, launch b (λ j, F (i * b + j)%nat)) m = launch (a * b) F m.
Proof.
  assert (∀ n k m, launch (n + k) F m = launch k (λ j, F (n + j)%nat) (launch n F m)) as Hadd.
  { intros n k m'. unfold launch. rewrite seq_app, fold_left_app. cbn [Nat.add].
    rewrite (seq_shift_map n k). generalize (fold_left (λ m p, F p m) (seq 0 n) m'). generalize (seq 0 k).
    intros l. induction l as [|x l IH]; intros m0; [done|]. cbn [map fold_left]. apply IH. }
  induction a as [|a IH]; [done|]. rewrite launch_S, IH.
  replace (S a * b)%nat with (a * b + b)%nat by lia. by rewrite Hadd.
Qed.

(** A grid that writes segment [s * n + qh] leaves the segments in the three
    buffers, on top of the segments already there. *)
Definition segs_mem (D : nat) (R : nat → f32 * f32 * (nat → f32)) (n : nat) (mem : Partials) : Partials :=
  {| pm := store_block 0 (tab n (λ s, (R s).1.1)) (pm mem);
     pl := store_block 0 (tab n (λ s, (R s).1.2)) (pl mem);
     pacc := store_block 0 (concat (tab n (λ s, tab D (R s).2))) (pacc mem) |}.

Lemma concat_tab_length {A} n D (f : nat → nat → A) : length (concat (tab n (λ s, tab D (f s)))) = (n * D)%nat.
Proof. by rewrite concat_tab, tab_length. Qed.

Lemma segs_mem_S D BLOCK_D R n mem :
  (D ≤ BLOCK_D)%nat → (n < length (pm mem))%nat → (n < length (pl mem))%nat → (S n * D ≤ length (pacc mem))%nat →
  store_partial n D BLOCK_D (R n) (segs_mem D R n mem) = segs_mem D R (S n) mem.
Proof.
  intros HB H1 H2 H3. unfold store_partial, segs_mem. cbn [pm pl pacc]. rewrite (Nat.min_r BLOCK_D) by done.
  assert (∀ {A} (F : nat → A) (buf : list A), (n < length buf)%nat →
            store_block n [F n] (store_block 0 (tab n F) buf) = store_block 0 (tab (S n) F) buf) as Hone.
  { intros A F buf Hb. replace (S n) with (n + 1)%nat by lia. rewrite tab_add, tab_1, Nat.add_0_r.
    rewrite <-(store_block_app 0) by (rewrite tab_length; cbn [length]; lia). by rewrite tab_length. }
  rewrite (Hone f32 (λ s, (R s).1.1)), (Hone f32 (λ s, (R s).1.2)) by done. f_equal.
  assert (concat (tab (S n) (λ s, tab D (R s).2)) = concat (tab n (λ s, tab D (R s).2)) ++ tab D (R n).2) as ->.
  { replace (S n) with (n + 1)%nat by lia. rewrite tab_add, tab_1, concat_app, Nat.add_0_r. cbn [concat].
    by rewrite app_nil_r. }
  rewrite <-(store_block_app 0) by (rewrite concat_tab_length, tab_length; lia).
  by rewrite concat_tab_length.
Qed.

Lemma launch_segs D BLOCK_D R n m mem :
  (D ≤ BLOCK_D)%nat → (m + n ≤ length (pm mem))%nat → (m + n ≤ length (pl mem))%nat →
  ((m + n) * D ≤ length (pacc mem))%nat →
  launch n (λ qh, store_partial (m + qh) D BLOCK_D (R (m + qh)%nat)) (segs_mem D R m mem) = segs_mem D R (m + n) mem.
Proof.
  intros HB H1 H2 H3.
  apply (launch_ind (λ p x, x = segs_mem D R (m + p) mem)); [by rewrite Nat.add_0_r|].
  intros p x Hp ->. rewrite segs_mem_S by nia. by rewrite Nat.add_succ_r.
Qed.

Lemma segs_mem_0 D R mem : segs_mem D R 0 mem = mem.
Proof.
  unfold segs_mem. cbn. rewrite !store_block_nil. by destruct mem.
Qed.

(** What the reduction reads of a full buffer. *)
Lemma segs_mem_read D R n mem :
  length (pm mem) = n → length (pl mem) = n → length (pacc mem) = (n * D)%nat →
  segs_mem D R n mem
  = mkPartials (tab n (λ s, (R s).1.1)) (tab n (λ s, (R s).1.2)) (concat (tab n (λ s, tab D (R s).2))).
Proof.
  intros H1 H2 H3. unfold segs_mem, store_block. cbn [take app Nat.add].
  rewrite !drop_ge by (rewrite ?tab_length, ?concat_tab_length; lia). by rewrite !app_nil_r.
Qed.

(** Reducing [k] segments of each of [NQ] heads. *)
Lemma reduce_lane_combine k NQ D BLOCK_S R qh d :
  (qh < NQ)%nat → (d < D)%nat →
  reduce_lane (mkPartials (tab (k * NQ) (λ s, (R s).1.1)) (tab (k * NQ) (λ s, (R s).1.2))
                 (concat (tab (k * NQ) (λ s, tab D (R s).2)))) k NQ D BLOCK_S qh d
  = combine_segments BLOCK_S (tab k (λ s, R (s * NQ + qh)%nat)) d.
Proof.
  intros Hq Hd. unfold reduce_lane, combine_segments. cbn [pm pl pacc].
  assert (∀ s, tab k (λ s, R (s * NQ + qh)%nat) !! s = if (s <? k)%nat then Some (R (s * NQ + qh)%nat) else None) as Hlk.
  { intros s. destruct (Nat.ltb_spec s k) as [Hs|Hs].
    - unfold tab. by rewrite list_lookup_fmap, lookup_seq_lt.
    - apply lookup_ge_None. by rewrite tab_length. }
  assert (∀ s, (s < k)%nat → (s * NQ + qh < k * NQ)%nat) as Hin by (intros; nia).
  rewrite (tab_ext BLOCK_S (λ s, if (s <? k)%nat then nth (s * NQ + qh) (tab (k * NQ) (λ s, (R s).1.1)) f32_zero
                               else tl_neg_inf)
             (λ s, match tab k (λ s, R (s * NQ + qh)%nat) !! s with
                                   | Some r => r.1.1 | None => tl_neg_inf end)).
  2: { intros s _. rewrite Hlk. destruct (Nat.ltb_spec s k); [|done]. by rewrite tab_nth by auto. }
  set (ms := tab BLOCK_S (λ s, match _ !! s with Some r => r.1.1 | None => tl_neg_inf end)).
  rewrite (tab_ext BLOCK_S (λ s, if (s <? k)%nat then tl_exp _ else f32_zero)
    (λ s, match tab k (λ s, R (s * NQ + qh)%nat) !! s with
          | Some r => tl_exp (f32_sub r.1.1 (tl_max ms)) | None => f32_zero end)).
  2: { intros s Hs. rewrite Hlk. destruct (Nat.ltb_spec s k); [|done]. unfold ms at 1. rewrite tab_nth by done.
       rewrite Hlk, (proj2 (Nat.ltb_lt s k)) by done. done. }
  set (w := tab BLOCK_S _). f_equal; f_equal; apply tab_ext; intros s Hs; rewrite ?Hlk.
  - f_equal. destruct (Nat.ltb_spec s k) as [Hk|]; cbn [andb]; [|done].
    rewrite (proj2 (Nat.ltb_lt d D)) by done.
    by rewrite (nth_grid (k * NQ) D (λ s d, (R s).2 d)) by (done || auto).
  - f_equal. rewrite tab_nth by done. destruct (Nat.ltb_spec s k); [|done]. by rewrite tab_nth by auto.
Qed.
End Spec.

(** ** A page in the cache *)

Section Pages.
Context `{TF : TorchFloat} {TR : TritonFloat} {TA : TritonReduce}.

(** The constants the launchers pass; [d] is the head size of the query. *)
Definition page_consts (layout : Rabit2PageLayout) (q_heads d k_packed_dim v_packed_dim : nat) : PageConsts :=
  let n z := Z.to_nat z in
  let k_primary := (n (num_kv_heads layout) * n (head_size_k layout))%nat in
  let v_groups := (n (head_size_v layout) / GROUP)%nat in
  let v_primary := (n (block_size layout) * n (num_kv_heads layout) * v_groups)%nat in
  {| PAGE_BYTES := n (page_bytes layout);
     K_PAYLOAD_OFFSET := n (k_payload_offset layout);
     V_PAYLOAD_OFFSET := n (v_payload_offset layout);
     K_MIN_OFFSET := n (k_min_offset layout);
     K_SCALE_OFFSET := n (k_scale_offset layout);
     V_MIN_OFFSET := n (v_min_offset layout);
     V_SCALE_OFFSET := n (v_scale_offset layout);
     K_PRIMARY_COUNT := k_primary;
     K_META_GROUPS := (k_primary / META_GROUP)%nat;
     V_PRIMARY_COUNT := v_primary;
     V_META_GROUPS := (v_primary / META_GROUP)%nat;
     NUM_Q_HEADS := q_heads;
     NUM_KV_HEADS := n (num_kv_heads layout);
     HEAD_SIZE := d;
     K_PACKED_DIM := k_packed_dim;
     V_PACKED_DIM := v_packed_dim;
     V_GROUPS := v_groups;
     BLOCK_D := next_power_of_2 d |}.

Lemma map3_id {A} (x : list (list (list A))) : map3 (λ y, y) x = x.
Proof.
  unfold map3. rewrite (map_ext _ (λ y, y)), map_id; [done|]. intros l.
  rewrite (map_ext _ (λ y, y)), map_id; [done|]. intros r. apply map_id.
Qed.

Lemma lane_of_tab n h d (F : nat → nat → nat → f32) kvh t i :
  (t < n)%nat → (kvh < h)%nat →
  lane_of (tab n (λ t, tab h (λ hh, tab d (F t hh)))) kvh t i = if (i <? d)%nat then F t kvh i else f32_zero.
Proof.
  intros Ht Hh. unfold lane_of. rewrite !tab_nth by done. destruct (Nat.ltb_spec i d).
  - by rewrite tab_nth.
  - apply nth_overflow. by rewrite tab_length.
Qed.

Lemma nth_slice {A} a b i (l : list A) x : (a + i < b)%nat → nth i (slice a b l) x = nth (a + i) l x.
Proof.
  intros H. unfold slice. rewrite nth_firstn. rewrite (proj2 (Nat.ltb_lt i (b - a))) by lia. apply nth_skipn.
Qed.

(** Byte pairs of the page are the patterns of the parsed blob. *)
Lemma bf16_parse_nth (l : list Z) n i :
  length l = (n * 2)%nat → (i < n)%nat →
  nth i (bf16_parse l) 0%Z = Z.lor (nth (i * 2) l 0%Z) (Z.shiftl (nth (i * 2 + 1) l 0%Z) 8).
Proof.
  revert l i. induction n as [|n IH]; intros l i Hl Hi; [lia|].
  destruct l as [|a [|b l]]; cbn [length] in Hl; try lia.
  destruct i as [|i]; [done|]. cbn [bf16_parse nth Nat.mul Nat.add]. rewrite IH by lia.
  by replace (i * 2 + 1)%nat with (S (i * 2)) by lia.
Qed.

(** One META8g64 value of the page, read byte by byte or through the views. *)
Lemma page_meta_load_view (page : list Z) (ld : nat → Z) off n i :
  (64 | n)%nat → (i < n)%nat → (off + meta_bytes_nat n ≤ length page)%nat →
  (∀ o, (o < length page)%nat → ld o = nth o page 0%Z) →
  page_meta_load ld off n (n / META_GROUP) i true = meta_load (_rabit2_meta_parts page off n) i.
Proof.
  intros [G ->] Hi Hl Hld. unfold page_meta_load, meta_load, _rabit2_u8pair_to_bf16_f32, _rabit2_meta_parts.
  unfold META_GROUP in *. rewrite Nat.div_mul by lia.
  assert ((G * 64 + 64 - 1) / 64 = G)%nat as ->.
  { replace (G * 64 + 64 - 1)%nat with (G * 64 + 63)%nat by lia. rewrite Nat.div_add_l, Nat.div_small; lia. }
  assert (meta_bytes_nat (G * 64) = G * 64 + G * 4)%nat as Hb.
  { unfold meta_bytes_nat, meta_groups_nat. rewrite Nat.div_add_l, (Nat.div_small 63) by lia. lia. }
  rewrite Hb in Hl. assert (i / 64 < G)%nat as Hq by (apply Nat.Div0.div_lt_upper_bound; lia).
  cbn [mv_codes mv_mins mv_scales]. rewrite nth_slice by lia.
  rewrite !(bf16_parse_nth _ G) by (rewrite ?slice_length; lia). rewrite !nth_slice by lia.
  rewrite !Hld by lia. by rewrite !Nat.add_assoc.
Qed.

Section OnePage.
Variables (h g NQ : nat) (page : list Z) (ld : nat → Z).
Let d := (g * 32)%nat.
Let layout := layout_of GROUP h d d.
Let kp := _kvquant_k3_packed_dim d.
Let vp := ((d * 2 + 7) / 8)%nat.
Let c := page_consts layout NQ d kp vp.
Hypotheses (Hh : (0 < h)%nat) (Hg : (0 < g)%nat) (Hmeta : (64 | h * d)%nat)
  (Hlen : Z.of_nat (length page) = page_bytes layout)
  (Hld : ∀ o, (o < length page)%nat → ld o = nth o page 0%Z).

Lemma page_consts_fields :
  NUM_KV_HEADS c = h ∧ HEAD_SIZE c = d ∧ K_PACKED_DIM c = kp ∧ V_PACKED_DIM c = vp ∧ V_GROUPS c = g
  ∧ K_PRIMARY_COUNT c = (h * d)%nat ∧ K_META_GROUPS c = (h * d / META_GROUP)%nat
  ∧ V_PRIMARY_COUNT c = (32 * h * g)%nat ∧ V_META_GROUPS c = (32 * h * g / META_GROUP)%nat
  ∧ NUM_Q_HEADS c = NQ ∧ BLOCK_D c = next_power_of_2 d.
Proof.
  assert (d / GROUP = g)%nat as E by (unfold d, GROUP; apply Nat.div_mul; lia).
  unfold c, page_consts, layout, layout_of.
  cbn [NUM_KV_HEADS HEAD_SIZE K_PACKED_DIM V_PACKED_DIM V_GROUPS K_PRIMARY_COUNT K_META_GROUPS V_PRIMARY_COUNT
       V_META_GROUPS NUM_Q_HEADS BLOCK_D num_kv_heads head_size_k head_size_v block_size].
  rewrite !Nat2Z.id, E. done.
Qed.

Context {TZ : TritonZero}.

(** Every lane of a program is the element of the decoded tensor, or zero. *)
Lemma page_kval_ref kvh t i :
  (t < 32)%nat → (kvh < h)%nat → page_kval c ld kvh t i = lane_of (decoded_pair h g page (λ x, x)).1 kvh t i.
Proof.
  intros Ht Hk. destruct page_consts_fields as (E1 & E2 & E3 & _ & _ & E4 & E5 & _ & _ & _ & _).
  destruct (page_fields h g page Hh Hg Hlen) as (F0 & _ & _ & _ & F4 & _ & F6 & _ & _ & _ & _ & _ & FL).
  fold d in F0, F4, F6, FL. fold layout in F0, F4, F6. fold kp in F4, F6, FL.
  unfold decoded_pair. cbn [fst]. rewrite map3_id, lane_of_tab by done. fold d.
  unfold page_kval. rewrite E1, E2, E3, E4, E5. destruct (Nat.ltb_spec i d) as [Hi|Hi].
  2: { unfold page_meta_load, _rabit2_u8pair_to_bf16_f32. cbn [andb]. change (Z.lor 0 (Z.shiftl 0 8)) with 0%Z.
       rewrite Z.shiftr_0_l, Z.land_0_l, zero_of_bf16, !zero_scale_zero. done. }
  unfold decode_k_value, k_code_load. cbn [pv_k_payload pv_k_packed_dim pv_kscale pv_kmin andb]. fold d kp.
  unfold c, page_consts. cbn [K_PAYLOAD_OFFSET K_MIN_OFFSET K_SCALE_OFFSET]. rewrite F0, F4, F6, !Nat2Z.id.
  assert (kvh * d + i < h * d)%nat as Hidx by nia.
  rewrite !(page_meta_load_view page ld) by (try done; fold vp in FL; lia).
  assert (i * 3 / 8 < kp)%nat as Hb.
  { unfold kp, _kvquant_k3_packed_dim, d in *. apply Nat.Div0.div_lt_upper_bound.
    pose proof (Nat.div_mod_eq (g * 32 * 3 + 7) 8). pose proof (Nat.mod_upper_bound (g * 32 * 3 + 7) 8 ltac:(lia)). lia. }
  pose proof (flat_index t kvh (i * 3 / 8) 32 h kp Ht Hk Hb) as HB. change (Z.to_nat 0) with 0%nat. cbn [Nat.add].
  rewrite nth_slice, Hld by lia. cbn [Nat.add]. destruct (Nat.ltb_spec (i * 3 / 8 + 1) kp) as [H1|]; [|done].
  pose proof (flat_index t kvh (i * 3 / 8 + 1) 32 h kp Ht Hk H1) as HB1.
  rewrite nth_slice, Hld by lia. done.
Qed.

Lemma page_vval_ref kvh t i :
  (t < 32)%nat → (kvh < h)%nat → (i < d)%nat →
  page_vval c ld kvh t i = lane_of (decoded_pair h g page (λ x, x)).2 kvh t i.
Proof.
  intros Ht Hk Hi. destruct page_consts_fields as (E1 & E2 & _ & E3 & E4 & _ & _ & E5 & E6 & _ & _).
  destruct (page_fields h g page Hh Hg Hlen) as (_ & _ & F2 & _ & _ & _ & _ & _ & F8 & _ & F10 & _ & FL).
  fold d in F2, F8, F10, FL. fold layout in F2, F8, F10. fold kp in F2, F8, F10, FL. fold vp in F8, F10, FL.
  unfold decoded_pair. cbn [snd]. rewrite map3_id, lane_of_tab by done. fold d.
  unfold page_vval. rewrite E1, E2, E3, E4, E5, E6, (proj2 (Nat.ltb_lt i d)) by done.
  unfold decode_v_value, v_code_load. cbn [pv_v_payload pv_v_packed_dim pv_vscale pv_vmin]. fold d kp vp.
  unfold c, page_consts. cbn [V_PAYLOAD_OFFSET V_MIN_OFFSET V_SCALE_OFFSET]. rewrite F2, F8, F10, !Nat2Z.id.
  assert (i / 32 < g)%nat as Hq by (apply Nat.Div0.div_lt_upper_bound; unfold d in Hi; lia).
  pose proof (flat_index t kvh (i / 32) 32 h g Ht Hk Hq) as Hidx.
  assert (64 | 32 * h * g)%nat as HD by (destruct Hmeta as [q Hq']; exists q; unfold d in Hq'; lia).
  rewrite !(page_meta_load_view page ld) by (try done; lia).
  assert (i / 4 < vp)%nat as Hb.
  { unfold vp. apply Nat.Div0.div_lt_upper_bound. pose proof (Nat.div_mod_eq (d * 2 + 7) 8).
    pose proof (Nat.mod_upper_bound (d * 2 + 7) 8 ltac:(lia)). unfold d in *. lia. }
  pose proof (flat_index t kvh (i / 4) 32 h vp Ht Hk Hb) as HB.
  rewrite nth_slice, Hld by lia. by rewrite Nat.add_assoc.
Qed.

(** A program over the page computes the segment of the decoded tensors. *)
Lemma page_program kvh q scale :
  (kvh < h)%nat →
  same_partial d (flash_block 32 (next_power_of_2 d) (page_kval c ld kvh) (page_vval c ld kvh) q scale)
    (page_segment (next_power_of_2 d) kvh (decoded_pair h g page (λ x, x)) q scale).
Proof.
  intros Hk. apply flash_block_ext.
  - intros t i Ht _. by apply page_kval_ref.
  - intros t i Ht Hi. by apply page_vval_ref.
Qed.
End OnePage.

(** A page of the cache, addressed through the block table. *)
Lemma page_load_page (c : PageConsts) (cache : PageCache) bt lp b page :
  Forall (λ p, Z.of_nat (length p) = pc_width cache) (pc_pages cache) → PAGE_BYTES c = Z.to_nat (pc_width cache) →
  bt !! lp = Some b → pc_pages cache !! b = Some page →
  ∀ o, (o < length page)%nat → page_load c (concat (pc_pages cache)) bt lp o = nth o page 0%Z.
Proof.
  intros Hw HB Hbt Hp o Ho. unfold page_load. rewrite (nth_lookup_Some _ _ _ _ Hbt), HB.
  set (w := Z.to_nat (pc_width cache)).
  assert (Forall (λ p, length p = w) (pc_pages cache)) as Hw'
    by (eapply Forall_impl; [|exact Hw]; intros p; cbv beta; lia).
  destruct (seg_split w b (pc_pages cache) page Hw' Hp) as (-> & El & Ew). rewrite <-El.
  rewrite app_nth2_plus. by rewrite app_nth1.
Qed.

(** ** The two grids over closed pages *)

Section Grids.
Context {B : Type} {FT : FloatType B}.
Variables (c : PageConsts) (q : list B) (cache : list Z) (bt : list nat) (scale : f32).

(** The program of head [qh] on page [lp]. *)
Definition closed_program (lp qh : nat) : f32 * f32 * (nat → f32) :=
  let kvh := (qh / (NUM_Q_HEADS c / NUM_KV_HEADS c))%nat in
  flash_block 32 (BLOCK_D c) (page_kval c (page_load c cache bt lp) kvh)
    (page_vval c (page_load c cache bt lp) kvh) (q_load q (HEAD_SIZE c) qh) scale.

(** Decoding once for four heads writes what decoding once per head writes. *)
Lemma gqa4_kernel_eq groups closed mem :
  (0 < NUM_KV_HEADS c)%nat → (0 < groups)%nat → NUM_Q_HEADS c = (NUM_KV_HEADS c * (groups * 4))%nat →
  _rabit2_stage4b3_gqa4_closed_page_partial_kernel c closed (NUM_KV_HEADS c * groups) q cache bt scale mem
  = _rabit2_closed_page_partial_kernel c closed q cache bt scale mem.
Proof.
  intros Hkv Hg HN. unfold _rabit2_stage4b3_gqa4_closed_page_partial_kernel, _rabit2_closed_page_partial_kernel.
  assert (NUM_Q_HEADS c / NUM_KV_HEADS c = groups * 4)%nat as ER
    by (rewrite HN, Nat.mul_comm; apply Nat.div_mul; lia).
  rewrite ER, (Nat.div_mul groups 4) by lia. apply launch_ext. intros lp m _.
  pose (F qh := store_partial (lp * NUM_Q_HEADS c + qh) (HEAD_SIZE c) (BLOCK_D c)
    (flash_block 32 (BLOCK_D c) (page_kval c (page_load c cache bt lp) (qh / (groups * 4)))
       (page_vval c (page_load c cache bt lp) (qh / (groups * 4))) (q_load q (HEAD_SIZE c) qh) scale)).
  transitivity (launch (NUM_KV_HEADS c * groups) (λ i, launch 4 (λ j, F (i * 4 + j)%nat)) m).
  - apply launch_ext. intros qg m' _. apply launch_ext. intros qi m'' Hqi.
    assert (qg / groups * (groups * 4) + (qg - qg / groups * groups) * 4 + qi = qg * 4 + qi)%nat as ->.
    { pose proof (Nat.div_mod_eq qg groups). nia. }
    unfold F. assert ((qg * 4 + qi) / (groups * 4) = qg / groups)%nat as ->; [|done].
    rewrite (Nat.mul_comm groups 4), <-Nat.Div0.div_div. f_equal. by rewrite Nat.div_add_l, Nat.div_small, Nat.add_0_r by lia.
  - rewrite launch_flatten. by assert (NUM_KV_HEADS c * groups * 4 = NUM_Q_HEADS c)%nat as -> by lia.
Qed.

(** The grid leaves one segment per page and head. *)
Lemma closed_kernel_segs R closed mem :
  (HEAD_SIZE c ≤ BLOCK_D c)%nat → (0 < NUM_Q_HEADS c)%nat →
  (∀ lp qh, (lp < closed)%nat → (qh < NUM_Q_HEADS c)%nat →
     same_partial (HEAD_SIZE c) (closed_program lp qh) (R (lp * NUM_Q_HEADS c + qh)%nat)) →
  (closed * NUM_Q_HEADS c ≤ length (pm mem))%nat → (closed * NUM_Q_HEADS c ≤ length (pl mem))%nat →
  (closed * NUM_Q_HEADS c * HEAD_SIZE c ≤ length (pacc mem))%nat →
  _rabit2_closed_page_partial_kernel c closed q cache bt scale mem
  = segs_mem (HEAD_SIZE c) R (closed * NUM_Q_HEADS c) mem.
Proof.
  intros HB HN HR H1 H2 H3. unfold _rabit2_closed_page_partial_kernel.
  transitivity (launch closed (λ i, launch (NUM_Q_HEADS c) (λ j, let s := (i * NUM_Q_HEADS c + j)%nat in
    store_partial s (HEAD_SIZE c) (BLOCK_D c) (R s))) mem).
  - apply launch_ext. intros lp m Hlp. apply launch_ext. intros qh m' Hqh.
    apply store_partial_ext. by apply HR.
  - rewrite (launch_flatten closed (NUM_Q_HEADS c) (λ s, store_partial s (HEAD_SIZE c) (BLOCK_D c) (R s))).
    rewrite <-(segs_mem_0 (HEAD_SIZE c) R mem) at 1.
    apply (launch_segs (HEAD_SIZE c) (BLOCK_D c) R (closed * NUM_Q_HEADS c) 0); done.
Qed.

(** The reduction of [k] full segments. *)
Lemma reduce_kernel_tab R k NQ D BLOCK_S BLOCK_D mem out :
  (D ≤ BLOCK_D)%nat → length (pm mem) = (k * NQ)%nat → length (pl mem) = (k * NQ)%nat →
  length (pacc mem) = (k * NQ * D)%nat → length out = (NQ * D)%nat →
  _rabit2_reduce_partials_kernel (segs_mem D R (k * NQ) mem) k NQ D BLOCK_S BLOCK_D out
  = map ft_cast (concat (tab NQ (λ qh, tab D (combine_segments BLOCK_S (tab k (λ s, R (s * NQ + qh)%nat)))))).
Proof.
  intros HB H1 H2 H3 Ho. unfold _rabit2_reduce_partials_kernel.
  rewrite segs_mem_read by done. rewrite (Nat.min_r BLOCK_D) by done.
  rewrite launch_fill by (done || intros; apply tab_length).
  rewrite concat_map, map_tab. f_equal. apply tab_ext. intros qh Hq. rewrite map_tab. apply tab_ext.
  intros d Hd. f_equal. by apply reduce_lane_combine.
Qed.
End Grids.
End Pages.
