(* ===== verification/TailAttention.v ===== *)
(** * Attention over the tail

    The open group and the residual as the tail kernels see them.  [OpenTab] gives
    the reference quantization of an open group of at most 32 tokens element by
    element; [open_args] states what a kernel must find in its buffers, whichever
    code prepared them; under it every lane of
    [_rabit2_stage4b1_exactmeta_tail_partial_kernel] is the element of the tail
    that [tail_materialize] returns in BF16. *)

From Stdlib Require Import ZArith Lia.
From stdpp Require Import base tactics numbers list option.
From S2P Require Import Prelude Layout Torch SpecFloatTorch BitPack Meta Quant Tab Triton FixedTorch Decoded Page.
From S2P Require Import Sidecar Tail OnlineRef Runtime Bulk PageKernel EncodeKernel Attention PageAttention.

Section Tab.
Context `{TF : TorchFloat, !TorchFloatLaws TF}.

(** ** META8 element by element *)

Lemma nth_groups {A C} G (y : list A) x (F : nat → A → C) i x0 :
  (i < G * 64)%nat →
  nth i (concat (tab G (λ q, map (F q) (tab 64 (λ j, nth (q * 64 + j) y x))))) x0 = F (i / 64)%nat (nth i y x).
Proof.
  intros Hi. pose proof (Nat.div_mod_eq i 64) as Ei. pose proof (Nat.mod_upper_bound i 64 ltac:(lia)) as Hr.
  rewrite (tab_ext G _ (λ q, tab 64 (λ j, F q (nth (q * 64 + j) y x)))) by (intros; apply map_tab).
  assert (i / 64 < G)%nat as Hq by (apply Nat.Div0.div_lt_upper_bound; lia).
  rewrite Ei at 1. rewrite (Nat.mul_comm 64). rewrite (nth_grid G 64 (λ q j, F q (nth (q * 64 + j) y x))) by done.
  do 2 f_equal. lia.
Qed.

Lemma meta_at_roundtrip (x : list f32) shape m i :
  encode_metadata_uint8_group_ref x shape META_GROUP = Ok m → (i < length x)%nat →
  meta_at (mkMetaView (concat (m_codes m)) (m_min m) (m_scale m)) i true = nth i (meta8_roundtrip x) f32_zero.
Proof.
  intros Hm Hi. rewrite encode_metadata_ok in Hm by (unfold META_GROUP; lia).
  injection Hm as <-. unfold meta_at, meta8_roundtrip. cbn [mv_codes mv_mins mv_scales m_codes m_min m_scale].
  pose proof (meta_padded_divide META_GROUP x ltac:(unfold META_GROUP; lia)) as [G HG].
  pose proof (meta_padded_length META_GROUP x) as HL. unfold META_GROUP in *.
  assert (rows_of 64 (meta_padded 64 x) = tab G (λ q, tab 64 (λ j, nth (q * 64 + j) (meta_padded 64 x) f32_zero))) as ->.
  { unfold rows_of. rewrite HG, Nat.div_mul by lia. by apply view2_tab. }
  rewrite !map_tab. set (g q := tab 64 (λ j, nth (q * 64 + j) (meta_padded 64 x) f32_zero)).
  pose proof (Nat.div_mod_eq i 64) as Ei. pose proof (Nat.mod_upper_bound i 64 ltac:(lia)) as Hr.
  assert (i / 64 < G)%nat as Hq by (apply Nat.Div0.div_lt_upper_bound; lia).
  assert (∀ {A} (F : nat → f32 → A) x0, nth i (concat (tab G (λ q, map (F q) (g q)))) x0
    = F (i / 64)%nat (nth i (meta_padded 64 x) f32_zero)) as Hn' by (intros; apply nth_groups; lia).
  unfold meta_codes_of, meta_group_roundtrip, meta_group_values.
  rewrite (Hn' Z (λ q, affine_code 255 (meta_min_of (g q)) (meta_scale_of (g q)))), !tab_nth by done.
  assert (∀ y : list f32, nth i (if (pad_to 64 (length x) =? 0)%nat then y else take (length y - pad_to 64 (length x)) y) f32_zero
    = if (i <? length y - pad_to 64 (length x))%nat then nth i y f32_zero else f32_zero) as Ht.
  { intros y. destruct (Nat.eqb_spec (pad_to 64 (length x)) 0) as [->|_].
    - rewrite Nat.sub_0_r. destruct (Nat.ltb_spec i (length y)); [done|]. by apply nth_overflow.
    - rewrite nth_firstn. done. }
  rewrite Ht. rewrite (tab_ext G _ (λ q, map (λ y, affine_value (affine_code 255 (meta_min_of (g q)) (meta_scale_of (g q)) y)
    (f32_of_bf16 (bf16_of_f32 (meta_scale_of (g q)))) (f32_of_bf16 (bf16_of_f32 (meta_min_of (g q))))) (g q)))
    by (intros q _; unfold meta_codes_of; by rewrite map_map).
  rewrite (Hn' f32 (λ q y, affine_value (affine_code 255 (meta_min_of (g q)) (meta_scale_of (g q)) y)
    (f32_of_bf16 (bf16_of_f32 (meta_scale_of (g q)))) (f32_of_bf16 (bf16_of_f32 (meta_min_of (g q)))))).
  rewrite (proj2 (Nat.ltb_lt _ _)); [done|].
  rewrite (length_concat_uniform 64); [rewrite tab_length; lia|].
  unfold tab at 1. rewrite Forall_map. apply List.Forall_forall. intros q _. unfold g. by rewrite length_map, tab_length.
Qed.

(** ** An open group, padded to 32 tokens *)

Section OpenTab.
Variables (h d : nat) (rows : list (list (list f32))).
Hypotheses (Hn : (0 < length rows ≤ 32)%nat) (Hw : Forall (wf_row h d) rows).
Let kt := mkTensor3 h d rows.
Let padded := rows ++ replicate (32 - length rows) (replicate h (replicate d f32_zero)).
Let pt := mkTensor3 h d padded.

Lemma nth_Forall_default {A} (P : A → Prop) l i x : P x → Forall P l → P (nth i l x).
Proof.
  intros Hx Hl. destruct (Nat.lt_ge_cases i (length l)); [by apply Forall_nth_In|by rewrite nth_overflow].
Qed.

Lemma padded_wf : length padded = GROUP ∧ Forall (wf_row h d) padded.
Proof.
  unfold padded. split; [rewrite length_app, length_replicate; unfold GROUP; lia|]. apply Forall_app. split; [done|].
  apply Forall_replicate. split; [apply length_replicate|apply Forall_replicate, length_replicate].
Qed.

(** Reading past the group reads the zeros of the padding. *)
Lemma at3_padded t hh i : at3 pt t hh i = at3 kt t hh i.
Proof.
  unfold at3, pt, kt, padded. cbn [t_rows]. destruct (Nat.lt_ge_cases t (length rows)) as [Ht|Ht].
  - by rewrite app_nth1.
  - rewrite app_nth2 by done. rewrite (nth_overflow rows) by done.
    assert (∀ j, nth j (@nil (list f32)) [] = []) as -> by (by intros []).
    assert (nth i (@nil f32) f32_zero = f32_zero) as -> by (by destruct i).
    apply (nth_Forall_default (λ y, y = f32_zero)); [done|].
    apply (nth_Forall_default (Forall (λ y, y = f32_zero))); [constructor|].
    apply (nth_Forall_default (Forall (Forall (λ y, y = f32_zero)))); [constructor|].
    by repeat apply Forall_replicate.
Qed.

Lemma k_groups_padded : k_groups kt = k_groups pt.
Proof.
  unfold k_groups, kt, pt. cbn [t_dim t_heads t_rows]. unfold permute102. rewrite !map_map.
  apply map_ext_in. intros j [_ Hj]%in_seq. cbn in Hj. unfold k_head_groups. f_equal.
  unfold padded. rewrite map_app, !length_app, !length_map, length_replicate.
  replace (length rows + (32 - length rows))%nat with 32%nat by lia.
  rewrite (pad_to_multiple GROUP 32) by (unfold GROUP; lia || by exists 1%nat). cbn [replicate]. rewrite app_nil_r.
  f_equal. rewrite (pad_to_unique GROUP (length rows) (32 - length rows)).
  - rewrite (map_ext_in _ (λ _, replicate d f32_zero)).
    + clear. induction (32 - length rows)%nat as [|m IH]; [done|]. cbn. by rewrite <-IH.
    + intros r Hr. apply list_elem_of_In, elem_of_replicate in Hr as [-> _].
      apply nth_lookup_Some, lookup_replicate_2. lia.
  - unfold GROUP; lia.
  - unfold GROUP; lia.
  - unfold GROUP. by replace (length rows + (32 - length rows))%nat with 32%nat by lia.
Qed.

Lemma k_column_padded hh i : k_column pt hh i = k_column kt hh i.
Proof. apply tab_ext. intros t _. apply at3_padded. Qed.

Lemma open_k_min : k_primary k_group_min kt = concat (tab h (λ hh, tab d (λ i, amin (k_column kt hh i)))).
Proof.
  destruct padded_wf as [Hl Hwf]. transitivity (k_primary k_group_min pt); [by unfold k_primary; rewrite k_groups_padded|].
  pose proof (vec_k_min_primary h d padded padded_wf) as E. fold pt in E. rewrite <-E.
  pose proof (vec_k_min_tab pt h d Hl) as E2. change (t_rows pt) with padded in E2. rewrite E2. f_equal.
  apply tab_ext. intros hh _. apply tab_ext. intros i _. by rewrite k_column_padded.
Qed.

Lemma open_k_scale : k_primary k_group_scale kt = concat (tab h (λ hh, tab d (k_col_scale kt hh))).
Proof.
  destruct padded_wf as [Hl Hwf]. transitivity (k_primary k_group_scale pt); [by unfold k_primary; rewrite k_groups_padded|].
  pose proof (vec_k_scale_primary h d padded padded_wf) as E. fold pt in E. rewrite <-E.
  pose proof (vec_k_scale_tab pt h d Hl) as E2. change (t_rows pt) with padded in E2. rewrite E2. f_equal.
  apply tab_ext. intros hh _. apply tab_ext. intros i _. unfold k_col_scale. by rewrite k_column_padded.
Qed.

(** The 3-bit codes of the padded group. *)
Definition open_k_code (t hh i : nat) : Z :=
  affine_code 7 (amin (k_column kt hh i)) (k_col_scale kt hh i) (at3 kt t hh i).

Lemma open_k_count : (length rows + pad_to GROUP (length rows) = 32)%nat.
Proof.
  rewrite (pad_to_unique GROUP (length rows) (32 - length rows)); unfold GROUP; try lia.
  by replace (length rows + (32 - length rows))%nat with 32%nat by lia.
Qed.

Lemma open_k_codes : k_code_rows kt = tab 32 (λ t, tab h (λ hh, tab d (open_k_code t hh))).
Proof.
  destruct padded_wf as [Hl Hwf]. transitivity (k_code_rows pt).
  - unfold k_code_rows. rewrite k_groups_padded. unfold t_tokens. cbn [kt pt t_rows t_dim].
    rewrite open_k_count, Hl. by rewrite (pad_to_multiple GROUP GROUP) by (unfold GROUP; lia || by exists 1%nat).
  - pose proof (vec_codes_rows h d padded padded_wf) as E. fold pt in E. rewrite <-E. pose proof (vec_k_codes_tab pt h d Hl Hwf) as E2.
    change (t_rows pt) with padded in E2. rewrite E2.
    apply tab_ext. intros t _. apply tab_ext. intros hh _. apply tab_ext. intros i _.
    unfold open_k_code, k_col_scale. by rewrite k_column_padded, at3_padded.
Qed.

Lemma open_k_decoded t hh i :
  (t < length rows)%nat → (hh < h)%nat →
  lane_of (k_decoded_meta kt) hh t i
  = if (i <? d)%nat
    then affine_value (open_k_code t hh i) (nth (hh * d + i) (meta8_roundtrip (k_primary k_group_scale kt)) f32_zero)
           (nth (hh * d + i) (meta8_roundtrip (k_primary k_group_min kt)) f32_zero)
    else f32_zero.
Proof.
  intros Ht Hh. destruct padded_wf as [Hl Hwf].
  assert (nth t (k_decoded_meta kt) [] = nth t (k_decoded_meta pt) []) as E.
  { unfold k_decoded_meta, k_primary, k_group_count. rewrite k_groups_padded. unfold t_tokens.
    cbn [kt pt t_heads t_dim t_rows]. rewrite Hl, open_k_count.
    rewrite (pad_to_multiple GROUP GROUP) by (unfold GROUP; lia || by exists 1%nat). rewrite Nat.add_0_r.
    set (Z := zip_with3 _ _ _ _). unfold permute102. change GROUP with 32%nat.
    fold (tab (length rows) (λ i, map (λ r, nth i r []) (map (take (length rows)) Z))).
    fold (tab 32 (λ i, map (λ r, nth i r []) (map (take 32) Z))).
    rewrite !tab_nth by lia. rewrite !map_map. apply map_ext. intros r. rewrite !nth_firstn.
    by rewrite !(proj2 (Nat.ltb_lt _ _)) by lia. }
  unfold lane_of at 1. rewrite E. fold (lane_of (k_decoded_meta pt) hh t i).
  destruct (k_dequantize_quantize_meta pt (λ x, x)) as (st & Hq & Hd); [done|unfold t_tokens; cbn; unfold GROUP in *; lia|].
  rewrite k_quantize_ok in Hq by (done || unfold t_tokens; cbn; unfold GROUP in *; lia). cbv zeta in Hq.
  set (shape := [1; _; _; 1; _]%nat) in Hq.
  destruct (decode_encode_metadata (k_primary k_group_min pt) shape) as (mn & Emn & Dmn).
  destruct (decode_encode_metadata (k_primary k_group_scale pt) shape) as (sc & Esc & Dsc).
  rewrite Emn, result_bind_ok, Esc, result_bind_ok in Hq. injection Hq as <-.
  change (t_tokens pt) with (length padded) in Hd. rewrite Hl in Hd.
  rewrite (pad_to_multiple GROUP GROUP) in Hd by (unfold GROUP; lia || by exists 1%nat).
  change (GROUP + 0)%nat with 32%nat in Hd. change GROUP with 32%nat in Hd at 1.
  pose proof (unpack_int3_tensor h d (k_code_rows pt) (k_code_rows_tensor pt Hwf)) as HU.
  assert (k_code_rows pt = tab 32 (λ t, tab h (λ hh, tab d (open_k_code t hh)))) as EC.
  { rewrite <-open_k_codes. unfold k_code_rows. rewrite k_groups_padded. unfold t_tokens. cbn [kt pt t_rows t_dim].
    rewrite open_k_count, Hl. by rewrite (pad_to_multiple GROUP GROUP) by (unfold GROUP; lia || by exists 1%nat). }
  assert (k_primary k_group_min kt = k_primary k_group_min pt ∧ k_primary k_group_scale kt = k_primary k_group_scale pt)
    as [EM ES] by (unfold k_primary; by rewrite k_groups_padded).
  rewrite EM, ES. rewrite open_k_min in EM. rewrite open_k_scale in ES.
  assert (∀ F : nat → nat → f32, length (concat (tab h (λ hh, tab d (F hh)))) = (h * d)%nat) as HL
    by (intros F; apply concat_tab_length).
  assert (∀ x : list f32, length x = (h * d)%nat → meta8_roundtrip x = tab (h * d) (λ k, nth k (meta8_roundtrip x) f32_zero)) as HT
    by (intros x Hx; apply tab_of_list; by rewrite meta8_roundtrip_length).
  rewrite EC in HU, Hd. rewrite (k_dequantize_tab h d _ _ _ _ _ _ _ _ HU
    (eq_trans Dmn (HT (k_primary k_group_min pt) ltac:(by rewrite <-EM; apply HL))) (eq_trans Dsc (HT (k_primary k_group_scale pt) ltac:(by rewrite <-ES; apply HL)))) in Hd.
  rewrite !map3_id in Hd. injection Hd as <-. by rewrite lane_of_tab by lia.
Qed.
End OpenTab.

(** ** The V side *)

Lemma v_pad_aligned g : v_pad_dim_of (g * 32) = (g * 32)%nat ∧ v_groups_of (g * 32) = g.
Proof.
  unfold v_pad_dim_of, v_groups_of. rewrite Nat.div_add_l, Nat.div_small by lia. lia.
Qed.

Section OpenV.
Variables (h g : nat) (rows : list (list (list f32))).
Hypotheses (Hw : Forall (wf_row h (g * 32)) rows).
Let vt := mkTensor3 h (g * 32) rows.

Definition open_v_code (t hh i : nat) : Z :=
  affine_code 3 (amin (v_block vt t hh (i / 32))) (v_group_scale (v_block vt t hh (i / 32))) (at3 vt t hh i).

Lemma open_v_decoded t hh i :
  (t < length rows)%nat → (hh < h)%nat →
  lane_of (v_decoded h (g * 32) rows) hh t i
  = if (i <? g * 32)%nat
    then affine_value (open_v_code t hh i)
           (nth ((t * h + hh) * g + i / 32) (meta8_roundtrip (flat (v_scales (g * 32) rows))) f32_zero)
           (nth ((t * h + hh) * g + i / 32) (meta8_roundtrip (flat (v_mins (g * 32) rows))) f32_zero)
    else f32_zero.
Proof.
  intros Ht Hh. set (n := length rows) in *. destruct (v_pad_aligned g) as [Ep Eg].
  pose proof (v_primary_dequantize h (g * 32) rows (meta_view n h g (v_mins (g * 32) rows))
    (meta_view n h g (v_scales (g * 32) rows)) (λ x, x) Hw) as HD.
  rewrite Ep, Eg, map3_id in HD.
  pose proof (unpack_int2_tensor h (g * 32) (v_codes (g * 32) rows)) as HU.
  pose proof (v_codes_tensor h (g * 32) rows Hw) as HC. rewrite Ep in HC. specialize (HU HC).
  assert (length (flat (v_mins (g * 32) rows)) = (n * (h * g))%nat) as Lm.
  { pose proof (v_mins_wf h _ _ Hw) as W. rewrite Eg in W. rewrite (flat_length h g _ W).
    unfold v_mins. by rewrite length_map. }
  assert (length (flat (v_scales (g * 32) rows)) = (n * (h * g))%nat) as Ls.
  { pose proof (v_scales_wf h _ _ Hw) as W. rewrite Eg in W. rewrite (flat_length h g _ W).
    unfold v_scales. by rewrite length_map. }
  unfold v_packed_rows in HD. rewrite Ep in HD.
  assert (v_codes (g * 32) rows = tab n (λ t, tab h (λ hh, tab (g * 32) (open_v_code t hh)))) as EC
    by exact (v_codes_tab vt n h g eq_refl Hw).
  rewrite EC in HU, HD at 1. unfold meta_view in HD.
  rewrite (tab_of_list (meta8_roundtrip (flat (v_mins (g * 32) rows))) f32_zero (n * h * g)) in HD
    by (rewrite meta8_roundtrip_length, Lm; lia).
  rewrite (tab_of_list (meta8_roundtrip (flat (v_scales (g * 32) rows))) f32_zero (n * h * g)) in HD
    by (rewrite meta8_roundtrip_length, Ls; lia).
  rewrite (v_dequantize_tab n h g _ _ _ _ _ _ HU), map3_id in HD. injection HD as HD.
  match goal with |- _ = ?R => set (shown := R) end. unfold v_decoded. fold n. rewrite Eg. unfold meta_view.
  rewrite (tab_of_list (meta8_roundtrip (flat (v_mins (g * 32) rows))) f32_zero (n * h * g))
    by (rewrite meta8_roundtrip_length, Lm; lia).
  rewrite (tab_of_list (meta8_roundtrip (flat (v_scales (g * 32) rows))) f32_zero (n * h * g))
    by (rewrite meta8_roundtrip_length, Ls; lia).
  rewrite <-HD. by rewrite lane_of_tab.
Qed.
End OpenV.

(** ** Lanes of tensors *)

Lemma flat_nth {A} h d (rows : list (list (list A))) t hh i x :
  Forall (wf_row h d) rows → (t < length rows)%nat → (hh < h)%nat → (i < d)%nat →
  nth ((t * h + hh) * d + i) (flat rows) x = nth i (nth hh (nth t rows []) []) x.
Proof.
  intros Hw Ht Hh Hi. set (n := length rows).
  assert (rows = view3 n h d (flat rows)) as E by (symmetry; by apply view3_concat).
  rewrite (view3_tab n h d (flat rows) x) in E by (rewrite (flat_length h d) by done; apply Nat.mul_assoc).
  rewrite E at 2. by rewrite !tab_nth.
Qed.

Lemma lane_of_map (f : f32 → f32) rows hh t i :
  f f32_zero = f32_zero → lane_of (map3 f rows) hh t i = f (lane_of rows hh t i).
Proof.
  intros Hf. unfold lane_of, map3. rewrite <-Hf at 1. change (@nil (list f32)) with (map (map f) []) at 1.
  rewrite (map_nth (map (map f)) rows [] t). change (@nil f32) with (map f []) at 1.
  rewrite (map_nth (map f) _ [] hh). by rewrite (map_nth f).
Qed.

Lemma lane_of_app a b hh t i :
  lane_of (a ++ b) hh t i = if (t <? length a)%nat then lane_of a hh t i else lane_of b hh (t - length a) i.
Proof.
  unfold lane_of. destruct (Nat.ltb_spec t (length a)); [by rewrite app_nth1|by rewrite app_nth2].
Qed.

Lemma lane_of_beyond rows hh t i : (length rows ≤ t)%nat → lane_of rows hh t i = f32_zero.
Proof.
  intros H. unfold lane_of. rewrite (nth_overflow rows) by done. by destruct hh, i.
Qed.

Lemma lane_of_widen h d (rows : list (list (list Z))) hh t i :
  Forall (wf_row h d) rows → (hh < h)%nat →
  lane_of (widen rows) hh t i
  = if (t <? length rows)%nat && (i <? d)%nat then f32_of_bf16 (nth ((t * h + hh) * d + i) (flat rows) 0%Z) else f32_zero.
Proof.
  intros Hw Hh. destruct (Nat.ltb_spec t (length rows)) as [Ht|Ht]; cbn [andb].
  2: { apply lane_of_beyond. by rewrite widen_length. }
  pose proof (Forall_nth_In _ rows t [] Hw Ht) as [Htl Htr].
  pose proof (Forall_nth_In _ (nth t rows []) hh [] Htr ltac:(lia)) as Hrl.
  unfold lane_of, widen, map3.
  rewrite (nth_indep _ [] (map (map f32_of_bf16) [])) by (by rewrite length_map).
  rewrite (map_nth (map (map f32_of_bf16)) rows [] t).
  rewrite (nth_indep _ [] (map f32_of_bf16 [])) by (rewrite length_map; lia).
  rewrite (map_nth (map f32_of_bf16) _ [] hh).
  destruct (Nat.ltb_spec i d) as [Hi|Hi]; [|apply nth_overflow; by rewrite length_map, Hrl].
  rewrite (nth_indep _ f32_zero (f32_of_bf16 0)) by (by rewrite length_map, Hrl). rewrite map_nth. f_equal.
  by rewrite flat_nth.
Qed.

(** ** What a tail kernel must find in its buffers *)

Section TailLanes.
Context {TR : TritonFloat} {TA : TritonReduce} {TZ : TritonZero}.
Variables (h g : nat) (ok ov rk rv : list (list (list Z))).
Let d := (g * 32)%nat.
Let kp := _kvquant_k3_packed_dim d.
Let vp := ((d * 2 + 7) / 8)%nat.

(** The packed codes and the four META8g64 tensors of the reference quantization
    of the open group, and the residual. *)
Record open_args (a : TailArgs) : Prop := {
  oa_k_code : ∀ t hh i, (t < length ok)%nat → (hh < h)%nat → (i < d)%nat →
    k_code_load (ta_k_packed a) ((t * h + hh) * kp) kp i = open_k_code h d (widen ok) t hh i;
  oa_v_code : ∀ t hh i, (t < length ok)%nat → (hh < h)%nat → (i < d)%nat →
    v_code_load (ta_v_packed a) ((t * h + hh) * vp) i = open_v_code h g (widen ov) t hh i;
  oa_kmin : ∀ i, (i < h * d)%nat →
    meta_at (ta_kmin a) i true = nth i (meta8_roundtrip (k_primary k_group_min (mkTensor3 h d (widen ok)))) f32_zero;
  oa_kscale : ∀ i, (i < h * d)%nat →
    meta_at (ta_kscale a) i true = nth i (meta8_roundtrip (k_primary k_group_scale (mkTensor3 h d (widen ok)))) f32_zero;
  oa_vmin : ∀ i, (i < length ok * h * g)%nat →
    meta_at (ta_vmin a) i true = nth i (meta8_roundtrip (flat (v_mins d (widen ov)))) f32_zero;
  oa_vscale : ∀ i, (i < length ok * h * g)%nat →
    meta_at (ta_vscale a) i true = nth i (meta8_roundtrip (flat (v_scales d (widen ov)))) f32_zero;
  oa_recent_k : ta_recent_k a = flat rk;
  oa_recent_v : ta_recent_v a = flat rv
}.

(** The tail in BF16. *)
Definition tail_rows_k : list (list (list f32)) := map3 bf16_rounded (k_shown h d ok) ++ widen rk.
Definition tail_rows_v : list (list (list f32)) := map3 bf16_rounded (v_shown h d ov) ++ widen rv.

Hypotheses (Hok : (0 < length ok ≤ 32)%nat ∧ Forall (wf_row h d) ok) (Hov : length ov = length ok ∧ Forall (wf_row h d) ov)
  (Hrk : Forall (wf_row h d) rk) (Hrv : length rv = length rk ∧ Forall (wf_row h d) rv).

Lemma k_decoded_meta_length (t : tensor3 f32) : length (k_decoded_meta t) = t_tokens t.
Proof. unfold k_decoded_meta. apply permute102_length. Qed.

Lemma tail_rows_length :
  length tail_rows_k = (length ok + length rk)%nat ∧ length tail_rows_v = (length ok + length rk)%nat.
Proof.
  unfold tail_rows_k, tail_rows_v, k_shown, v_shown. rewrite !length_app. unfold map3. rewrite !length_map.
  rewrite k_decoded_meta_length, v_decoded_length. unfold t_tokens. cbn [t_rows]. rewrite !widen_length.
  destruct Hov as [-> _], Hrv as [-> _]. done.
Qed.

Variable (a : TailArgs).
Hypothesis Ha : open_args a.

Lemma meta_at_masked m i : meta_at m i false = f32_zero.
Proof. unfold meta_at. apply zero_scale_one. Qed.

Lemma tail_recent_ref (x : list Z) (rows : list (list (list Z))) kvh t i :
  x = flat rows → length rows = length rk → Forall (wf_row h d) rows → (kvh < h)%nat → (length ok ≤ t)%nat →
  tail_recent (length ok) (length rk) h d kvh x t i = lane_of (widen rows) kvh (t - length ok) i.
Proof.
  intros -> Hl Hw Hk Ht. rewrite (lane_of_widen h d) by done. unfold tail_recent, recent_mask.
  by rewrite (proj2 (Nat.leb_le _ _) Ht), Hl.
Qed.

Lemma tail_kval_ref kvh t i :
  (kvh < h)%nat →
  tail_kval a (length ok) (length rk) h d kp kvh t i = lane_of tail_rows_k kvh t i.
Proof.
  intros Hk. destruct Hok as [Hn Hw]. unfold tail_rows_k. rewrite lane_of_app, (lane_of_map _ _ _ _ _ zero_rounded).
  assert (length (map3 bf16_rounded (k_shown h d ok)) = length ok) as ->.
  { unfold map3, k_shown. rewrite length_map, k_decoded_meta_length. apply widen_length. }
  unfold tail_kval, open_mask. destruct (Nat.ltb_spec t (length ok)) as [Ht|Ht].
  - unfold k_shown. rewrite (open_k_decoded h d (widen ok)); rewrite ?widen_length; try done; [|by apply widen_wf].
    unfold tail_kopen, open_mask. rewrite (proj2 (Nat.ltb_lt _ _) Ht). cbn [andb].
    destruct (Nat.ltb_spec i d) as [Hi|Hi]; cbn [andb].
    + change (let k_byte := (i * 3 / 8)%nat in _) with (k_code_load (ta_k_packed a) ((t * h + kvh) * kp) kp i).
      assert (kvh * d + i < h * d)%nat as Hidx by nia.
      rewrite <-(oa_k_code a Ha) by done. rewrite (oa_kmin a Ha), (oa_kscale a Ha) by done. done.
    + rewrite !meta_at_masked. change (Z.lor 0 (Z.shiftl 0 8)) with 0%Z.
      rewrite Z.shiftr_0_l, Z.land_0_l, zero_scale_zero. done.
  - apply tail_recent_ref; [apply Ha|done..].
Qed.

Lemma tail_vval_ref kvh t i :
  (kvh < h)%nat → (i < d)%nat →
  tail_vval a (length ok) (length rk) h d vp g kvh t i = lane_of tail_rows_v kvh t i.
Proof.
  intros Hk Hi. destruct Hov as [Hl Hw]. unfold tail_rows_v. rewrite lane_of_app, (lane_of_map _ _ _ _ _ zero_rounded).
  assert (length (map3 bf16_rounded (v_shown h d ov)) = length ok) as ->.
  { unfold map3, v_shown. rewrite length_map, v_decoded_length, widen_length. done. }
  unfold tail_vval, open_mask. destruct (Nat.ltb_spec t (length ok)) as [Ht|Ht].
  - unfold v_shown. rewrite (open_v_decoded h g (widen ov)); rewrite ?widen_length; try (done || lia); [|by apply widen_wf].
    unfold tail_vopen, open_mask. rewrite (proj2 (Nat.ltb_lt _ _) Ht). fold d.
    rewrite (proj2 (Nat.ltb_lt _ _) Hi). cbn [andb].
    change (Z.land (Z.shiftr (nth ((t * h + kvh) * vp + i / 4) (ta_v_packed a) 0%Z) (Z.of_nat (i mod 4 * 2))) 3)
      with (v_code_load (ta_v_packed a) ((t * h + kvh) * vp) i).
    assert (i / 32 < g)%nat as Hq by (apply Nat.Div0.div_lt_upper_bound; unfold d in Hi; lia).
    pose proof (flat_index t kvh (i / 32) (length ok) h g Ht Hk Hq) as Hidx.
    rewrite (oa_v_code a Ha), (oa_vmin a Ha), (oa_vscale a Ha) by done. done.
  - apply tail_recent_ref; [apply Ha|apply Hrv|apply Hrv|done..].
Qed.

(** The program of one head computes the tail segment. *)
Lemma tail_program kvh (q : nat → f32) scale :
  (kvh < h)%nat → let D := next_power_of_2 d in
  same_partial d
    (flash_masked 64 D (λ t, open_mask (length ok) t || recent_mask (length ok) (length rk) t)
       (tail_kval a (length ok) (length rk) h d kp kvh) (tail_vval a (length ok) (length rk) h d vp g kvh) q scale)
    (tail_segment 64 D kvh (tail_rows_k, tail_rows_v) q scale).
Proof.
  intros Hk D. apply flash_masked_ext.
  - intros t _. cbn [fst]. rewrite (proj1 tail_rows_length). unfold open_mask, recent_mask.
    destruct (Nat.ltb_spec t (length ok)), (Nat.leb_spec (length ok) t); cbn [orb andb]; try lia.
    + symmetry. apply Nat.ltb_lt. lia.
    + destruct (Nat.ltb_spec (t - length ok) (length rk)), (Nat.ltb_spec t (length ok + length rk)); (done || lia).
  - intros t i _ _ _. by apply tail_kval_ref.
  - intros t i _ Hi. by apply tail_vval_ref.
Qed.
End TailLanes.
End Tab.
