(* ===== verification/TailPrep.v ===== *)
(** * Preparing the tail kernel's buffers

    [_rabit2_stage4b1_exactmeta_tail_partial_kernel] reads the open group as
    packed codes and META8g64 tensors.  Stage 4B1 fills them with the reference
    quantizers ([exactmeta_args]); Stage 4D3.4 fills a reused workspace with
    three kernels, [_rabit2_stage4d3_4_k_stats_codes_kernel],
    [_rabit2_stage4d3_4_pack_k3_kernel] and [_rabit2_stage4d3_4_meta64_kernel]
    ([_rabit2_stage4d3_4_fast_prep]).  Both leave buffers that satisfy
    [open_args], whatever the workspace held before. *)

From Stdlib Require Import ZArith Lia.
From stdpp Require Import gmap base tactics numbers list option.
From S2P Require Import Prelude Layout Torch SpecFloatTorch BitPack Meta Quant Tab Triton FixedTorch Decoded Page.
From S2P Require Import Sidecar Tail OnlineRef Runtime Bulk PageKernel EncodeKernel Attention PageAttention.
From S2P Require Import TailAttention.

Section TailPrep.
Context `{TF : TorchFloat} {TR : TritonFloat} {TE : TorchEmpty}.

Definition meta_mem (m : Meta8) : MetaView := mkMetaView (concat (m_codes m)) (m_min m) (m_scale m).

(** The arguments Stage 4B1 passes when an open group exists. *)
Definition exactmeta_args (sc : Sidecar) (open_k recent_k recent_v : tensor3 Z) : result TailArgs :=
  match open_v_packed sc, open_v_min sc, open_v_scale sc with
  | Some v_packed, Some v_min, Some v_scale =>
      k_state ← quantize_k3_sequence_affine_ref (t_map f32_of_bf16 open_k) GROUP META_GROUP;
      vmin_meta ← encode_v_meta v_min;
      vscale_meta ← encode_v_meta v_scale;
      Ok {| ta_k_packed := flatten3 (k_packed k_state);
            ta_v_packed := flatten3 v_packed;
            ta_recent_k := flatten3 recent_k;
            ta_recent_v := flatten3 recent_v;
            ta_kmin := meta_mem (k_min k_state);
            ta_kscale := meta_mem (k_scale k_state);
            ta_vmin := meta_mem vmin_meta;
            ta_vscale := meta_mem vscale_meta |}
  | _, _, _ => Err AssertionError
  end.

(** ** The Stage 4D3.4 kernels *)

(** One scattered store per lane. *)
Definition store_lanes {A} (n : nat) (off : nat → nat) (val : nat → A) : list A → list A :=
  launch n (λ t, store_block (off t) [val t]).

(** The grid [(h * d,)]: the statistics and the codes of one K column. *)
Definition k_open_column (open_k : list Z) (open_len NUM_KV_HEADS HEAD_SIZE p : nat) : list f32 :=
  tab 32 (λ t, if (t <? open_len)%nat
               then f32_of_bf16 (nth ((t * NUM_KV_HEADS + p / HEAD_SIZE) * HEAD_SIZE + p mod HEAD_SIZE) open_k 0%Z)
               else f32_zero).

Definition _rabit2_stage4d3_4_k_stats_codes_kernel (open_k : list Z) (open_len NUM_KV_HEADS HEAD_SIZE : nat)
    (out : list Z * list f32 * list f32) : list Z * list f32 * list f32 :=
  launch (NUM_KV_HEADS * HEAD_SIZE) (λ p out,
    let off t := ((t * NUM_KV_HEADS + p / HEAD_SIZE) * HEAD_SIZE + p mod HEAD_SIZE)%nat in
    let x := k_open_column open_k open_len NUM_KV_HEADS HEAD_SIZE p in
    let qmin := tl_min x in
    let scale := tl_scale f32_abs_lt_1e8 7 qmin (tl_max x) in
    let q := map (tl_code_rn 7 qmin scale) x in
    (store_lanes 32 off (λ t, nth t q 0%Z) out.1.1,
     store_block p [qmin] out.1.2,
     store_block p [scale] out.2)) out.

(** One program per [token, kv_head] row of [rows]. *)
Definition _rabit2_stage4d3_4_pack_k3_kernel (k_codes : list Z) (rows HEAD_SIZE K_PACKED_DIM BLOCK_B : nat) :
    list Z → list Z :=
  launch rows (λ row,
    store_block (row * K_PACKED_DIM)
      (tab (BLOCK_B `min` K_PACKED_DIM) (k3_kernel_byte HEAD_SIZE (load_block HEAD_SIZE (row * HEAD_SIZE) k_codes)))).

(** Lanes past the end repeat the last value. *)
Definition meta64_block (data : list f32) (n_values g : nat) : list f32 :=
  tab 64 (λ j, let idx := (g * 64 + j)%nat in
               nth (if (idx <? n_values)%nat then idx else n_values - 1)%nat data f32_zero).

Definition _rabit2_stage4d3_4_meta64_kernel (data : list f32) (n_values groups : nat) (dst : MetaView) : MetaView :=
  launch groups (λ g dst,
    let x := meta64_block data n_values g in
    let qmin := tl_min x in
    let scale := tl_scale f32_abs_lt_1e12 255 qmin (tl_max x) in
    {| mv_codes := store_block (g * 64) (map (tl_code_rn 255 qmin scale) x) (mv_codes dst);
       mv_mins := store_block g [bf16_of_f32 qmin] (mv_mins dst);
       mv_scales := store_block g [bf16_of_f32 scale] (mv_scales dst) |}) dst.

(** ** The shared workspace *)

Record Workspace := mkWorkspace {
  ws_k_codes : list Z;
  ws_k_packed : list Z;
  ws_k_min : list f32;
  ws_k_scale : list f32;
  ws_kmin_meta : MetaView;
  ws_kscale_meta : MetaView;
  ws_vmin_meta : MetaView;
  ws_vscale_meta : MetaView
}.

(** Device index, stream, KV heads, K and V head size. *)
Definition ws_key : Type := Z * Z * nat * nat * nat.
Definition Workspaces : Type := gmap ws_key Workspace.

Definition runtime_ws_key (device_stream : Z * Z) (r : Rabit2SingleSequenceRuntime) : ws_key :=
  (device_stream, rt_num_kv_heads r, rt_head_size_k r, rt_head_size_v r).

Definition meta_groups_of (n : nat) : nat := ((n + META_GROUP - 1) / META_GROUP)%nat.

Definition empty_meta (groups : nat) : MetaView :=
  mkMetaView (empty_int (groups * META_GROUP)) (empty_int groups) (empty_int groups).

Definition new_workspace (block_size h dk dv : nat) : Workspace :=
  let k_meta_groups := meta_groups_of (h * dk) in
  let v_meta_groups := meta_groups_of (block_size * h * (dv / GROUP)) in
  {| ws_k_codes := empty_int (block_size * h * dk);
     ws_k_packed := empty_int (block_size * h * _kvquant_k3_packed_dim dk);
     ws_k_min := empty_float (h * dk);
     ws_k_scale := empty_float (h * dk);
     ws_kmin_meta := empty_meta k_meta_groups;
     ws_kscale_meta := empty_meta k_meta_groups;
     ws_vmin_meta := empty_meta v_meta_groups;
     ws_vscale_meta := empty_meta v_meta_groups |}.

Definition _rabit2_stage4d3_4_workspace (device_stream : Z * Z) (r : Rabit2SingleSequenceRuntime) :
    ST Workspaces Workspace :=
  wss ← st_get;
  match wss !! runtime_ws_key device_stream r with
  | Some ws => mret ws
  | None =>
      st_raise_if (negb (rt_head_size_v r mod GROUP =? 0)%nat) ValueError;;
      let ws := new_workspace GROUP (rt_num_kv_heads r) (rt_head_size_k r) (rt_head_size_v r) in
      st_put (<[runtime_ws_key device_stream r := ws]> wss);;
      mret ws
  end.

Definition _rabit2_stage4d3_4_meta_launch (data : list f32) (dst : MetaView) : result (nat * MetaView) :=
  let n_values := length data in
  let groups := meta_groups_of n_values in
  _ ← raise_if (groups =? 0)%nat RuntimeError;
  Ok (groups, _rabit2_stage4d3_4_meta64_kernel data n_values groups dst).

(** The kernels write the workspace in place. *)
Definition _rabit2_stage4d3_4_fast_prep (device_stream : Z * Z) (r : Rabit2SingleSequenceRuntime) :
    ST Workspaces (Workspace * nat * nat) :=
  let sc := rt_sidecar r in
  match open_k sc, open_v_min sc, open_v_scale sc with
  | None, _, _ => st_lift (Err RuntimeError)
  | Some ok, Some v_min, Some v_scale =>
      ws ← _rabit2_stage4d3_4_workspace device_stream r;
      let store ws := st_modify (insert (runtime_ws_key device_stream r) ws) in
      let h := rt_num_kv_heads r in
      let d := rt_head_size_k r in
      let '(codes, mins, scales) :=
        _rabit2_stage4d3_4_k_stats_codes_kernel (flatten3 ok) (t_tokens ok) h d
          (ws_k_codes ws, ws_k_min ws, ws_k_scale ws) in
      let k_packed_dim := _kvquant_k3_packed_dim d in
      let packed := _rabit2_stage4d3_4_pack_k3_kernel codes (GROUP * h) d k_packed_dim
                      (next_power_of_2 k_packed_dim) (ws_k_packed ws) in
      let written := mkWorkspace codes packed mins scales in
      store (written (ws_kmin_meta ws) (ws_kscale_meta ws) (ws_vmin_meta ws) (ws_vscale_meta ws));;
      kmin ← st_lift (_rabit2_stage4d3_4_meta_launch mins (ws_kmin_meta ws));
      store (written kmin.2 (ws_kscale_meta ws) (ws_vmin_meta ws) (ws_vscale_meta ws));;
      kscale ← st_lift (_rabit2_stage4d3_4_meta_launch scales (ws_kscale_meta ws));
      store (written kmin.2 kscale.2 (ws_vmin_meta ws) (ws_vscale_meta ws));;
      vmin ← st_lift (_rabit2_stage4d3_4_meta_launch (flatten3 v_min) (ws_vmin_meta ws));
      store (written kmin.2 kscale.2 vmin.2 (ws_vscale_meta ws));;
      vscale ← st_lift (_rabit2_stage4d3_4_meta_launch (flatten3 v_scale) (ws_vscale_meta ws));
      store (written kmin.2 kscale.2 vmin.2 vscale.2);;
      mret (written kmin.2 kscale.2 vmin.2 vscale.2, vmin.1, vscale.1)
  | Some _, _, _ => st_lift (Err RuntimeError)
  end.

(** ** Payload loads *)

Lemma payload_row bits w h d (rows : list (list (list Z))) t hh :
  code_tensor bits h d rows → (t < length rows)%nat → (hh < h)%nat →
  tab w (λ j, nth ((t * h + hh) * w + j) (flat (map (map (stream_row bits w)) rows)) 0%Z)
  = stream_row bits w (nth hh (nth t rows []) []).
Proof.
  intros Hc Ht Hh. pose proof (Forall_nth_In _ rows t [] Hc Ht) as [Hl _].
  rewrite (tab_of_list (stream_row bits w (nth hh (nth t rows []) [])) 0%Z w) by apply stream_row_length.
  apply tab_ext. intros j Hj. rewrite (flat_nth h w); rewrite ?length_map; try done.
  - rewrite (nth_map_lt _ rows t _ []) by done. rewrite (nth_map_lt _ (nth t rows []) hh _ []) by lia. done.
  - rewrite Forall_map. eapply Forall_impl; [|exact Hc]. intros tok [El _]. split; [by rewrite length_map|].
    rewrite Forall_map. apply List.Forall_forall. intros r _. apply stream_row_length.
Qed.

Lemma code_tensor_nth bits h d rows t hh i :
  code_tensor bits h d rows → (t < length rows)%nat → (hh < h)%nat → (i < d)%nat →
  code_ok bits (nth i (nth hh (nth t rows []) []) 0%Z).
Proof.
  intros Hc Ht Hh Hi. pose proof (Forall_nth_In _ rows t [] Hc Ht) as [Hl Hr]. unfold code_rows in Hr.
  pose proof (Forall_nth_In _ (nth t rows []) hh [] Hr ltac:(lia)) as [El Ec].
  apply Forall_nth_In; [done|lia].
Qed.

Lemma k_payload_load h d rows t hh i (kp := _kvquant_k3_packed_dim d) :
  code_tensor 3 h d rows → (t < length rows)%nat → (hh < h)%nat → (i < d)%nat →
  k_code_load (flat (map (map (stream_row 3 kp)) rows)) ((t * h + hh) * kp) kp i
  = nth i (nth hh (nth t rows []) []) 0%Z.
Proof.
  intros Hc Ht Hh Hi. rewrite <-(k_code_load_unpack _ _ kp d) by (done || apply flat_bytes, stream_rows_bytes).
  rewrite (payload_row 3 kp h d) by done. apply unpack_value_stream; [lia| |by eapply code_tensor_nth].
  unfold kp, _kvquant_k3_packed_dim. apply Nat.Div0.div_le_mono. lia.
Qed.

Lemma v_payload_load h d rows t hh i (vp := ((d * 2 + 7) / 8)%nat) :
  code_tensor 2 h d rows → (t < length rows)%nat → (hh < h)%nat → (i < d)%nat →
  v_code_load (flat (map (map (stream_row 2 vp)) rows)) ((t * h + hh) * vp) i
  = nth i (nth hh (nth t rows []) []) 0%Z.
Proof.
  intros Hc Ht Hh Hi. rewrite <-(v_code_load_unpack _ _ vp d) by (done || apply flat_bytes, stream_rows_bytes).
  rewrite (payload_row 2 vp h d) by done. apply unpack_value_stream; [lia| |by eapply code_tensor_nth].
  unfold vp. apply Nat.Div0.div_le_mono. lia.
Qed.

Lemma nth3_tab n h d (F : nat → nat → nat → Z) t hh i :
  (t < n)%nat → (hh < h)%nat → (i < d)%nat →
  nth i (nth hh (nth t (tab n (λ t, tab h (λ hh, tab d (F t hh)))) []) []) 0%Z = F t hh i.
Proof. intros. by rewrite !tab_nth. Qed.

(** ** The reference quantizers leave the expected buffers *)

Section Exactmeta.
Context {TFL : TorchFloatLaws TF}.
Variables (h g : nat) (ok ov rk rv : list (list (list Z))).
Let d := (g * 32)%nat.
Hypotheses (Hok : (0 < length ok ≤ 32)%nat ∧ Forall (wf_row h d) ok)
  (Hov : length ov = length ok ∧ Forall (wf_row h d) ov).

Lemma open_k_code_rows_tensor :
  code_tensor 3 h d (k_code_rows (mkTensor3 h d (widen ok)))
  ∧ k_code_rows (mkTensor3 h d (widen ok)) = tab 32 (λ t, tab h (λ hh, tab d (open_k_code h d (widen ok) t hh))).
Proof.
  destruct Hok as [Hn Hw]. split.
  - apply (k_code_rows_tensor (mkTensor3 h d (widen ok))). by apply widen_wf.
  - apply open_k_codes; [by rewrite widen_length|by apply widen_wf].
Qed.

Lemma open_v_code_rows_tensor :
  code_tensor 2 h d (v_codes d (widen ov))
  ∧ v_codes d (widen ov) = tab (length ok) (λ t, tab h (λ hh, tab d (open_v_code h g (widen ov) t hh))).
Proof.
  destruct Hov as [Hl Hw]. split.
  - destruct (v_pad_aligned g) as [Ep _]. pose proof (v_codes_tensor h d (widen ov) (widen_wf _ _ _ Hw)) as HC.
    unfold d in *. by rewrite Ep in HC.
  - apply (v_codes_tab (mkTensor3 h d (widen ov)) (length ok) h g); [by rewrite <-Hl; apply widen_length|by apply widen_wf].
Qed.

Lemma open_primary_lengths :
  length (k_primary k_group_min (mkTensor3 h d (widen ok))) = (h * d)%nat
  ∧ length (k_primary k_group_scale (mkTensor3 h d (widen ok))) = (h * d)%nat
  ∧ length (flat (v_mins d (widen ov))) = (length ok * h * g)%nat
  ∧ length (flat (v_scales d (widen ov))) = (length ok * h * g)%nat.
Proof.
  destruct Hok as [Hn Hw], Hov as [Hl Hwv]. destruct (v_pad_aligned g) as [_ Eg].
  pose proof (widen_wf _ _ _ Hw) as Hw'. pose proof (widen_wf _ _ _ Hwv) as Hwv'.
  rewrite open_k_min, open_k_scale by (rewrite ?widen_length; done). rewrite !concat_tab_length.
  pose proof (v_mins_wf h d _ Hwv') as W1. pose proof (v_scales_wf h d _ Hwv') as W2.
  unfold d in W1, W2. rewrite Eg in W1, W2. unfold d. rewrite (flat_length h g _ W1), (flat_length h g _ W2).
  unfold v_mins, v_scales. rewrite !length_map, !widen_length, Hl.
  repeat split; apply Nat.mul_assoc.
Qed.

(** Reference payloads, and any metadata with the reference values. *)
Lemma open_args_of a :
  ta_k_packed a = flat (map (map (stream_row 3 (_kvquant_k3_packed_dim d))) (k_code_rows (mkTensor3 h d (widen ok)))) →
  ta_v_packed a = flat (v_packed_rows d (widen ov)) →
  ta_recent_k a = flat rk → ta_recent_v a = flat rv →
  (let holds m x := ∀ i, (i < length x)%nat → meta_at m i true = nth i (meta8_roundtrip x) f32_zero in
   holds (ta_kmin a) (k_primary k_group_min (mkTensor3 h d (widen ok)))
   ∧ holds (ta_kscale a) (k_primary k_group_scale (mkTensor3 h d (widen ok)))
   ∧ holds (ta_vmin a) (flat (v_mins d (widen ov))) ∧ holds (ta_vscale a) (flat (v_scales d (widen ov)))) →
  open_args h g ok ov rk rv a.
Proof.
  intros Ek Ev Erk Erv (M1 & M2 & M3 & M4). destruct open_k_code_rows_tensor as [HCk EK].
  destruct open_v_code_rows_tensor as [HCv EV]. destruct open_primary_lengths as (L1 & L2 & L3 & L4).
  destruct Hok as [Hn Hw], Hov as [Hl Hwv]. destruct (v_pad_aligned g) as [Ep Eg].
  rewrite L1 in M1. rewrite L2 in M2. rewrite L3 in M3. rewrite L4 in M4. split; try done.
  - intros t hh i Ht Hh Hi. rewrite Ek. fold d. rewrite (k_payload_load h d) by (try done; rewrite EK, tab_length; lia).
    rewrite EK. apply nth3_tab; (lia || done).
  - intros t hh i Ht Hh Hi. rewrite Ev. unfold v_packed_rows. fold d.
    change (v_pad_dim_of d) with (v_pad_dim_of (g * 32)). rewrite Ep. fold d.
    rewrite (v_payload_load h d) by (try done; rewrite EV, tab_length; lia).
    rewrite EV. by apply nth3_tab.
Qed.

Lemma exactmeta_args_ok :
  ∃ a, exactmeta_args (sidecar_with h d d ok ov rk rv) (mkTensor3 h d ok) (mkTensor3 h d rk) (mkTensor3 h d rv) = Ok a
    ∧ open_args h g ok ov rk rv a.
Proof.
  destruct open_k_code_rows_tensor as [HCk EK]. destruct open_v_code_rows_tensor as [HCv EV].
  destruct open_primary_lengths as (L1 & L2 & L3 & L4).
  destruct Hok as [Hn Hw], Hov as [Hl Hwv]. destruct (v_pad_aligned g) as [Ep Eg].
  unfold exactmeta_args. assert (∀ {B} (x : B), when_nonempty ok x = Some x) as Hne
    by (intros B x; destruct ok; [cbn in Hn; lia|done]).
  cbn [sidecar_with open_v_packed open_v_min open_v_scale]. rewrite !Hne. cbv beta iota.
  change (t_map f32_of_bf16 (mkTensor3 h d ok)) with (mkTensor3 h d (widen ok)). set (kt := mkTensor3 h d (widen ok)) in *.
  rewrite k_quantize_ok; [|by apply widen_wf|unfold t_tokens, kt; cbn; rewrite widen_length; lia].
  cbv zeta. set (shape := [1; _; _; 1; _]%nat).
  destruct (decode_encode_metadata (k_primary k_group_min kt) shape) as (mn & Emn & _).
  destruct (decode_encode_metadata (k_primary k_group_scale kt) shape) as (sc & Esc & _).
  rewrite Emn, result_bind_ok, Esc, !result_bind_ok. unfold encode_v_meta, flatten3. cbn [t_rows k_packed k_min k_scale].
  destruct (decode_encode_metadata (flat (v_mins d (widen ov))) [length (v_mins d (widen ov)); h; v_groups_of d; 1]%nat)
    as (vn & Evn & _).
  destruct (decode_encode_metadata (flat (v_scales d (widen ov))) [length (v_scales d (widen ov)); h; v_groups_of d; 1]%nat)
    as (vs & Evs & _).
  unfold flat, t_tokens in *. cbn [t_rows t_heads t_dim]. rewrite Evn, result_bind_ok, Evs, result_bind_ok.
  eexists. split; [reflexivity|].
  apply open_args_of; try done. cbn [ta_kmin ta_kscale ta_vmin ta_vscale]. unfold meta_mem.
  split; [|split; [|split]]; intros i Hi; eapply meta_at_roundtrip; done.
Qed.
End Exactmeta.

(** ** Scattered stores *)

Lemma nth_store_one {A} off (v : A) mem i x :
  (off < length mem)%nat → nth i (store_block off [v] mem) x = if (i =? off)%nat then v else nth i mem x.
Proof.
  intros Ho. unfold store_block. cbn [length]. destruct (Nat.eqb_spec i off) as [->|Hne].
  - rewrite app_nth2 by (rewrite length_take; lia). by rewrite length_take, Nat.min_l, Nat.sub_diag by lia.
  - destruct (Nat.lt_ge_cases i off).
    + rewrite app_nth1 by (rewrite length_take; lia). rewrite nth_firstn. by rewrite (proj2 (Nat.ltb_lt _ _)).
    + rewrite app_nth2 by (rewrite length_take; lia). rewrite length_take, Nat.min_l by lia.
      destruct (i - off)%nat as [|k] eqn:E; [lia|]. cbn [app nth]. rewrite nth_skipn. f_equal. lia.
Qed.

Lemma store_lanes_spec {A} m n p (v : nat → A) mem x :
  (p < n)%nat → length mem = (m * n)%nat →
  length (store_lanes m (λ t, t * n + p)%nat v mem) = (m * n)%nat
  ∧ ∀ t j, (t < m)%nat → (j < n)%nat →
      nth (t * n + j) (store_lanes m (λ t, t * n + p)%nat v mem) x = if (j =? p)%nat then v t else nth (t * n + j) mem x.
Proof.
  intros Hp Hl. unfold store_lanes.
  assert (∀ k, (k ≤ m)%nat → let r := launch k (λ t, store_block (t * n + p) [v t]) mem in length r = (m * n)%nat
    ∧ ∀ t j, (t < m)%nat → (j < n)%nat →
        nth (t * n + j) r x = if (j =? p)%nat && (t <? k)%nat then v t else nth (t * n + j) mem x) as H.
  { induction k as [|k IH]; intros Hk; cbv zeta.
    - split; [done|]. intros t j _ _. by rewrite andb_false_r.
    - destruct (IH ltac:(lia)) as [Lk Nk]. rewrite launch_S.
      assert (k * n + p < m * n)%nat as Hin by nia. split; [rewrite store_block_length; cbn [length]; lia|].
      intros t j Ht Hj. rewrite nth_store_one by lia. rewrite Nk by done.
      destruct (Nat.eqb_spec (t * n + j) (k * n + p)) as [E|E].
      + destruct (Nat.div_mod_unique n t k j p) as [-> ->]; [done|done|lia|]. by rewrite Nat.eqb_refl, (proj2 (Nat.ltb_lt k (S k))) by lia.
      + destruct (Nat.eqb_spec j p) as [->|]; [|done]. cbn [andb].
        destruct (Nat.ltb_spec t k), (Nat.ltb_spec t (S k)); try (done || lia).
        assert (t = k) as -> by lia. done. }
  destruct (H m ltac:(lia)) as [Lm Nm]. split; [done|]. intros t j Ht Hj. rewrite Nm by done.
  by rewrite (proj2 (Nat.ltb_lt t m)), andb_true_r.
Qed.

(** Columns scattered one after the other fill the tensor. *)
Lemma launch_scatter {A} m n (v : nat → nat → A) mem (x : A) :
  length mem = (m * n)%nat →
  launch n (λ p, store_lanes m (λ t, t * n + p)%nat (v p)) mem = tab (m * n) (λ k, v (k mod n)%nat (k / n)%nat).
Proof.
  intros Hl.
  assert (∀ q, (q ≤ n)%nat → let r := launch q (λ p, store_lanes m (λ t, t * n + p)%nat (v p)) mem in
    length r = (m * n)%nat ∧ ∀ t j, (t < m)%nat → (j < n)%nat →
      nth (t * n + j) r x = if (j <? q)%nat then v j t else nth (t * n + j) mem x) as H.
  { induction q as [|q IH]; intros Hq; cbv zeta; [done|]. destruct (IH ltac:(lia)) as [Lq Nq]. rewrite launch_S.
    destruct (store_lanes_spec m n q (v q) _ x ltac:(lia) Lq) as [Ls Ns]. split; [done|].
    intros t j Ht Hj. rewrite Ns, Nq by done.
    destruct (Nat.eqb_spec j q) as [E|], (Nat.ltb_spec j q), (Nat.ltb_spec j (S q)); try (done || lia).
    by rewrite E. }
  destruct (H n ltac:(lia)) as [Ln Nn]. rewrite (tab_of_list _ x (m * n) Ln). apply tab_ext. intros k Hk.
  assert (0 < n)%nat as Hn by nia. pose proof (Nat.div_mod_eq k n) as Ek. pose proof (Nat.mod_upper_bound k n ltac:(lia)) as Hm.
  assert (k / n < m)%nat as Hd by (apply Nat.Div0.div_lt_upper_bound; lia).
  assert (k = k / n * n + k mod n)%nat as E by lia. rewrite E at 1. rewrite Nn by done.
  by rewrite (proj2 (Nat.ltb_lt _ _)).
Qed.

(** ** META8g64 by the kernel *)

Section Meta64.
Context {TFL : TorchFloatLaws TF} {TL : TritonLaws TR}.

Lemma meta_groups_spec n : (meta_groups_of n * 64 = n + pad_to META_GROUP n)%nat.
Proof.
  destruct (pad_to_spec META_GROUP n) as [H0 Hp]; [unfold META_GROUP; lia|].
  apply Nat.Lcm0.mod_divide in H0 as [q Hq]. unfold meta_groups_of. unfold META_GROUP in *.
  assert ((n + 64 - 1) / 64 = q)%nat as ->; [|lia].
  symmetry. apply (Nat.div_unique _ 64 _ (63 - pad_to 64 n)); lia.
Qed.

Lemma last_nth {A} (l : list A) x : List.last l x = nth (length l - 1) l x.
Proof.
  induction l as [|y [|z l] IH]; [done|done|]. change (List.last (y :: z :: l) x) with (List.last (z :: l) x).
  rewrite IH. cbn [length]. by replace (S (S (length l)) - 1)%nat with (S (S (length l) - 1)) by lia.
Qed.

(** The clamped lanes read the padded tensor. *)
Lemma meta64_blocks data :
  rows_of META_GROUP (meta_padded META_GROUP data)
  = tab (meta_groups_of (length data)) (meta64_block data (length data)).
Proof.
  pose proof (meta_groups_spec (length data)) as HG. unfold rows_of. rewrite meta_padded_length, <-HG.
  unfold META_GROUP at 1. rewrite Nat.div_mul by lia.
  rewrite (view2_tab _ 64 (meta_padded META_GROUP data) f32_zero) by (by rewrite meta_padded_length).
  apply tab_ext. intros q Hq. apply tab_ext. intros j Hj. cbv zeta. unfold meta_padded.
  destruct (Nat.ltb_spec (q * 64 + j) (length data)) as [Hlt|Hge]; [by rewrite app_nth1|].
  rewrite app_nth2 by done. rewrite <-last_nth. apply nth_lookup_Some, lookup_replicate_2. nia.
Qed.

Definition blocks_regular (data : list f32) : Prop :=
  Forall tl_regular (rows_of META_GROUP (meta_padded META_GROUP data)).

(** The buffers hold at least the groups of a tensor of [n] values. *)
Definition meta_room (n : nat) (dst : MetaView) : Prop :=
  (meta_groups_of n * 64 ≤ length (mv_codes dst) ∧ meta_groups_of n ≤ length (mv_mins dst)
   ∧ meta_groups_of n ≤ length (mv_scales dst))%nat.

Lemma meta64_launch data groups (codes : nat → list Z) (mins scales : nat → Z) dst :
  (∀ g, (g < groups)%nat → let x := meta64_block data (length data) g in
     let qmin := tl_min x in let scale := tl_scale f32_abs_lt_1e12 255 qmin (tl_max x) in
     map (tl_code_rn 255 qmin scale) x = codes g ∧ bf16_of_f32 qmin = mins g ∧ bf16_of_f32 scale = scales g
     ∧ length (codes g) = 64%nat) →
  (groups * 64 ≤ length (mv_codes dst) ∧ groups ≤ length (mv_mins dst) ∧ groups ≤ length (mv_scales dst))%nat →
  _rabit2_stage4d3_4_meta64_kernel data (length data) groups dst
  = mkMetaView (store_block 0 (concat (tab groups codes)) (mv_codes dst)) (store_block 0 (tab groups mins) (mv_mins dst))
      (store_block 0 (tab groups scales) (mv_scales dst)).
Proof.
  intros H (R1 & R2 & R3). unfold _rabit2_stage4d3_4_meta64_kernel.
  pose proof (launch_blocks groups 64 0 codes (mv_codes dst) ltac:(intros; by apply H) ltac:(lia)) as B1.
  pose proof (launch_blocks groups 1 0 (λ g, [mins g]) (mv_mins dst) ltac:(done) ltac:(lia)) as B2.
  pose proof (launch_blocks groups 1 0 (λ g, [scales g]) (mv_scales dst) ltac:(done) ltac:(lia)) as B3.
  fold (tab groups codes) in B1. fold (tab groups (λ g, [mins g])) in B2. fold (tab groups (λ g, [scales g])) in B3.
  rewrite concat_tab_one in B2, B3. rewrite <-B1, <-B2, <-B3.
  apply (launch_ind (λ p m, m = mkMetaView (launch p (λ p, store_block (0 + p * 64) (codes p)) (mv_codes dst))
    (launch p (λ p, store_block (0 + p * 1) [mins p]) (mv_mins dst))
    (launch p (λ p, store_block (0 + p * 1) [scales p]) (mv_scales dst)))); [by destruct dst|].
  intros p m Hp ->. rewrite !launch_S. destruct (H p Hp) as (E1 & E2 & E3 & _). cbv zeta.
  cbn [mv_codes mv_mins mv_scales]. rewrite E1, E2, E3. cbn [Nat.add]. by rewrite Nat.mul_1_r.
Qed.

Lemma nth_store_0 {A} (vals mem : list A) i x : (i < length vals)%nat → nth i (store_block 0 vals mem) x = nth i vals x.
Proof. intros H. change (store_block 0 vals mem) with (vals ++ drop (length vals) mem). by apply app_nth1. Qed.

Lemma meta_launch_ok data dst :
  (0 < length data)%nat → blocks_regular data → meta_room (length data) dst →
  ∃ dst', _rabit2_stage4d3_4_meta_launch data dst = Ok (meta_groups_of (length data), dst')
    ∧ (∀ i, (i < length data)%nat → meta_at dst' i true = nth i (meta8_roundtrip data) f32_zero)
    ∧ length (mv_codes dst') = length (mv_codes dst) ∧ length (mv_mins dst') = length (mv_mins dst)
    ∧ length (mv_scales dst') = length (mv_scales dst).
Proof.
  intros Hn Hreg (R1 & R2 & R3). set (n := length data) in *. set (G := meta_groups_of n) in *.
  pose proof (meta_groups_spec n) as HG. fold G in HG.
  unfold _rabit2_stage4d3_4_meta_launch. fold n. fold G.
  destruct (Nat.eqb_spec G 0) as [E|_]; [rewrite E in HG; lia|]. cbn [raise_if]. rewrite result_bind_ok.
  pose (B := meta64_block data n).
  assert (∀ g, length (B g) = 64%nat) as LB by (intros; apply tab_length).
  unfold blocks_regular in Hreg. rewrite meta64_blocks in Hreg. fold n G B in Hreg.
  assert (∀ g, (g < G)%nat → tl_regular (B g)) as Hreg'.
  { intros g Hg. unfold tab in Hreg. rewrite Forall_map, List.Forall_forall in Hreg. apply Hreg, in_seq. lia. }
  eexists. split; [reflexivity|].
  rewrite (meta64_launch data G (λ g, meta_codes_of (B g)) (λ g, bf16_of_f32 (meta_min_of (B g)))
             (λ g, bf16_of_f32 (meta_scale_of (B g)))); [|
    |done].
  - cbn [mv_codes mv_mins mv_scales].
    assert (length (concat (tab G (λ g, meta_codes_of (B g)))) = (G * 64)%nat) as LC.
    { rewrite (length_concat_uniform 64); [by rewrite tab_length|]. unfold tab. rewrite Forall_map.
      apply List.Forall_forall. intros g _. by rewrite meta_codes_length. }
    split.
    + intros i Hi. rewrite <-(meta_at_roundtrip data [] _ i (encode_metadata_ok data [] META_GROUP ltac:(unfold META_GROUP; lia) Hn) Hi).
      rewrite meta64_blocks. fold n G B. cbn [m_codes m_min m_scale]. rewrite !map_tab. unfold meta_at.
      cbn [mv_codes mv_mins mv_scales].
      assert (i / 64 < G)%nat as Hq by (apply Nat.Div0.div_lt_upper_bound; lia).
      by rewrite !nth_store_0 by (rewrite ?LC, ?tab_length; lia).
    + rewrite !store_block_length by (rewrite ?LC, ?tab_length; lia). done.
  - intros g Hg. cbv zeta. fold n B. change (meta64_block data n g) with (B g).
    split; [|split; [|split]].
    + unfold meta_codes_of, meta_min_of, meta_scale_of. apply tl_codes_rn; [tauto|by apply Hreg'].
    + unfold meta_min_of. by rewrite tl_min_amin by (by apply Hreg').
    + unfold meta_scale_of. by rewrite tl_scale_affine by (tauto || by apply Hreg').
    + by rewrite meta_codes_length.
Qed.
End Meta64.

(** ** The whole preparation *)

Lemma next_power_of_2_ge n : (n ≤ next_power_of_2 n)%nat.
Proof.
  unfold next_power_of_2. destruct n as [|[|n]]; [cbn; lia|cbn; lia|]. apply Nat.log2_up_spec. lia.
Qed.

Section FastPrep.
Context {TFL : TorchFloatLaws TF} {TL : TritonLaws TR}.
Variables (h g : nat) (ok ov : list (list (list Z))).
Let d := (g * 32)%nat.
Let kp := _kvquant_k3_packed_dim d.
Let kt := mkTensor3 h d (widen ok).
Hypotheses (Hh : (0 < h)%nat) (Hg : (0 < g)%nat) (Hok : (0 < length ok ≤ 32)%nat ∧ Forall (wf_row h d) ok)
  (Hov : length ov = length ok ∧ Forall (wf_row h d) ov).

(** Ordinary numbers in every block a kernel reduces. *)
Definition open_regular : Prop :=
  (∀ hh i, (hh < h)%nat → (i < d)%nat → tl_regular (k_column kt hh i))
  ∧ blocks_regular (k_primary k_group_min kt) ∧ blocks_regular (k_primary k_group_scale kt)
  ∧ blocks_regular (flat (v_mins d (widen ov))) ∧ blocks_regular (flat (v_scales d (widen ov))).

Hypothesis Hreg : open_regular.

Lemma primary_index p : (p < h * d)%nat → (p / d < h ∧ p mod d < d)%nat.
Proof.
  intros Hp. assert (d ≠ 0)%nat by (unfold d in *; lia).
  split; [apply Nat.Div0.div_lt_upper_bound; lia|by apply Nat.mod_upper_bound].
Qed.

Lemma k_open_column_ref p :
  (p < h * d)%nat → k_open_column (flat ok) (length ok) h d p = k_column kt (p / d) (p mod d).
Proof.
  intros Hp. destruct (primary_index p Hp) as [Hq Hr]. apply tab_ext. intros t _.
  change (at3 kt t (p / d) (p mod d)) with (lane_of (widen ok) (p / d) t (p mod d)).
  rewrite (lane_of_widen h d) by (done || apply Hok). by rewrite (proj2 (Nat.ltb_lt _ _) Hr), andb_true_r.
Qed.

Lemma k_stats_ok out :
  length out.1.1 = (32 * (h * d))%nat → length out.1.2 = (h * d)%nat → length out.2 = (h * d)%nat →
  _rabit2_stage4d3_4_k_stats_codes_kernel (flat ok) (length ok) h d out
  = (flat (k_code_rows kt), k_primary k_group_min kt, k_primary k_group_scale kt).
Proof.
  intros L1 L2 L3. destruct Hreg as [Hcol _]. destruct Hok as [Hn Hw].
  assert ((0 < length (widen ok) ≤ 32)%nat) as Hn' by (by rewrite widen_length).
  pose proof (widen_wf _ _ _ Hw) as Hw'.
  pose (codes p t := open_k_code h d (widen ok) t (p / d) (p mod d)).
  pose (mins p := amin (k_column kt (p / d) (p mod d))).
  pose (scs p := k_col_scale kt (p / d) (p mod d)).
  transitivity (launch (h * d) (λ p (out : list Z * list f32 * list f32),
    (store_lanes 32 (λ t, t * (h * d) + p)%nat (codes p) out.1.1, store_block (p * 1) [mins p] out.1.2,
     store_block (p * 1) [scs p] out.2)) out).
  { apply launch_ext. intros p m Hp. cbv zeta. rewrite k_open_column_ref by done. destruct (primary_index p Hp) as [Hq Hr].
    pose proof (Hcol _ _ Hq Hr) as HR. rewrite Nat.mul_1_r, (tl_codes_rn f32_abs_lt_1e8 7) by (done || tauto || lia).
    rewrite tl_scale_affine, tl_min_amin by (done || tauto). f_equal. f_equal. apply launch_ext. intros t m' Ht.
    pose proof (Nat.div_mod_eq p d). f_equal; [rewrite Nat.mul_add_distr_r, <-Nat.mul_assoc; lia|].
    f_equal. unfold k_column at 4. rewrite map_tab, tab_nth by done. done. }
  rewrite (launch_pair2 (h * d)
    (λ p o, (store_lanes 32 (λ t, t * (h * d) + p)%nat (codes p) o.1, store_block (p * 1) [mins p] o.2))
    (λ p, store_block (p * 1) [scs p])) by done.
  rewrite (launch_pair (h * d) (λ p, store_lanes 32 (λ t, t * (h * d) + p)%nat (codes p)) (λ p, store_block (p * 1) [mins p])).
  cbn [fst snd]. rewrite (launch_scatter 32 (h * d) codes _ 0%Z) by done.
  rewrite (launch_fill (h * d) 1 (λ p, [mins p])), (launch_fill (h * d) 1 (λ p, [scs p])) by (done || lia).
  rewrite !concat_tab_one. f_equal; [f_equal|].
  - unfold kt. rewrite (open_k_codes h d (widen ok)) by done. unfold flat. rewrite map_tab.
    rewrite (tab_ext 32 _ (λ t, tab (h * d) (λ p, codes p t))).
    + by rewrite concat_tab.
    + intros t _. by rewrite concat_tab.
  - unfold kt. rewrite (open_k_min h d (widen ok)) by done. by rewrite concat_tab.
  - unfold kt. rewrite (open_k_scale h d (widen ok)) by done. by rewrite concat_tab.
Qed.

Lemma k_pack_ok mem :
  length mem = (32 * h * kp)%nat →
  _rabit2_stage4d3_4_pack_k3_kernel (flat (k_code_rows kt)) (32 * h) d kp (next_power_of_2 kp) mem
  = flat (map (map (stream_row 3 kp)) (k_code_rows kt)).
Proof.
  intros Hm. destruct (open_k_code_rows_tensor h g ok Hok) as [HC EK]. fold d kt in HC, EK.
  assert (flat (map (map (stream_row 3 kp)) (k_code_rows kt))
    = concat (tab (32 * h) (λ row, stream_row 3 kp (tab d (open_k_code h d (widen ok) (row / h) (row mod h)))))) as ->.
  { unfold flat. rewrite EK, map_tab.
    rewrite (tab_ext 32 _ (λ t, tab h (λ hh, stream_row 3 kp (tab d (open_k_code h d (widen ok) t hh)))))
      by (intros; apply map_tab).
    by rewrite <-concat_concat, (concat_tab 32 h). }
  unfold _rabit2_stage4d3_4_pack_k3_kernel. rewrite (Nat.min_r _ kp) by apply next_power_of_2_ge.
  rewrite launch_fill by (done || intros; apply tab_length). f_equal. apply tab_ext. intros row Hrow. rewrite EK.
  assert (row / h < 32 ∧ row mod h < h)%nat as [Ht Hhh]
    by (split; [apply Nat.Div0.div_lt_upper_bound; lia|apply Nat.mod_upper_bound; lia]).
  set (codes := tab d (open_k_code h d (widen ok) (row / h) (row mod h))).
  assert (load_block d (row * d) (flat (tab 32 (λ t, tab h (λ hh, tab d (open_k_code h d (widen ok) t hh))))) = codes) as ->.
  { unfold flat. rewrite concat_tab2. unfold load_block. rewrite (tab_slice d (row * d) _ 0%Z).
    - apply tab_ext. intros i Hi. by rewrite (nth_grid (32 * h) d (λ p, open_k_code h d (widen ok) (p / h) (p mod h))).
    - rewrite concat_tab_length. nia. }
  assert (Forall (code_ok 3) codes) as HF.
  { unfold codes, tab. rewrite Forall_map. apply List.Forall_forall. intros i [_ Hi]%in_seq.
    rewrite <-(nth3_tab 32 h d (open_k_code h d (widen ok)) (row / h) (row mod h) i Ht Hhh Hi), <-EK.
    apply (code_tensor_nth 3 h d); try done. rewrite EK, tab_length. done. }
  rewrite (tab_of_list (stream_row 3 kp codes) 0%Z kp) by apply stream_row_length. apply tab_ext. intros b Hb.
  unfold stream_row. rewrite (nth_map_lt _ _ _ _ 0%nat) by (by rewrite length_seq). rewrite seq_nth by done.
  rewrite <-k3_kernel_byte_stream by done. unfold codes at 2. by rewrite tab_length.
Qed.
End FastPrep.

(** ** The workspaces *)

Definition workspace_sized (key : ws_key) (ws : Workspace) : Prop :=
  let '(_, h, dk, dv) := key in
  length (ws_k_codes ws) = (32 * (h * dk))%nat
  ∧ length (ws_k_packed ws) = (32 * h * _kvquant_k3_packed_dim dk)%nat
  ∧ length (ws_k_min ws) = (h * dk)%nat ∧ length (ws_k_scale ws) = (h * dk)%nat
  ∧ meta_room (h * dk) (ws_kmin_meta ws) ∧ meta_room (h * dk) (ws_kscale_meta ws)
  ∧ meta_room (32 * h * (dv / 32)) (ws_vmin_meta ws) ∧ meta_room (32 * h * (dv / 32)) (ws_vscale_meta ws).

(** Every workspace has the sizes of its key; nothing is said of its contents. *)
Definition workspaces_ok (wss : Workspaces) : Prop := map_Forall workspace_sized wss.

Lemma no_workspaces_ok : workspaces_ok (∅ : Workspaces).
Proof. unfold workspaces_ok, Workspaces. apply (map_Forall_empty (M := gmap ws_key)). Qed.

Lemma new_workspace_sized dev h dk dv : workspace_sized (dev, h, dk, dv) (new_workspace GROUP h dk dv).
Proof.
  unfold workspace_sized, new_workspace, meta_room, empty_meta. cbn [ws_k_codes ws_k_packed ws_k_min ws_k_scale
    ws_kmin_meta ws_kscale_meta ws_vmin_meta ws_vscale_meta mv_codes mv_mins mv_scales].
  rewrite !empty_int_length, !empty_float_length. unfold GROUP, META_GROUP. repeat split; lia.
Qed.

Lemma meta_groups_mono n m : (n ≤ m)%nat → (meta_groups_of n ≤ meta_groups_of m)%nat.
Proof. intros H. unfold meta_groups_of. apply Nat.Div0.div_le_mono. lia. Qed.

Lemma workspace_lookup dev r wss :
  workspaces_ok wss → (32 | rt_head_size_v r)%nat →
  ∃ ws wss', _rabit2_stage4d3_4_workspace dev r wss = (Ok ws, wss')
    ∧ workspace_sized (runtime_ws_key dev r) ws ∧ workspaces_ok wss'
    ∧ (∀ key, key ≠ runtime_ws_key dev r → wss' !! key = wss !! key).
Proof.
  intros Hok [q Hq]. unfold _rabit2_stage4d3_4_workspace. rewrite st_bind_eq. cbn [st_get].
  destruct (wss !! runtime_ws_key dev r) as [ws|] eqn:E.
  - exists ws, wss. split; [done|]. split; [by apply (Hok _ _ E)|done].
  - rewrite st_bind_eq. unfold st_raise_if, st_lift, GROUP. rewrite Hq, Nat.Div0.mod_mul. cbn [Nat.eqb negb raise_if].
    cbv zeta. rewrite <-Hq. rewrite st_bind_eq. cbn [st_put]. do 2 eexists. split; [reflexivity|].
    pose proof (new_workspace_sized dev (rt_num_kv_heads r) (rt_head_size_k r) (rt_head_size_v r)) as HS.
    split; [exact HS|]. split; [by apply map_Forall_insert_2|]. intros key Hne. by apply lookup_insert_ne.
Qed.

Lemma insert_workspace_twice (wss : Workspaces) key a b : <[key := a]> (<[key := b]> wss) = <[key := a]> wss.
Proof. apply fin_maps.insert_insert_eq. Qed.

Lemma insert_workspace_ne (wss : Workspaces) key key' a : key' ≠ key → (<[key := a]> wss : Workspaces) !! key' = wss !! key'.
Proof. intros H. by apply lookup_insert_ne. Qed.

Lemma meta_room_mono n m dst : (n ≤ m)%nat → meta_room m dst → meta_room n dst.
Proof. intros H (R1 & R2 & R3). pose proof (meta_groups_mono n m H). unfold meta_room. lia. Qed.

Lemma meta_room_same n m m' :
  length (mv_codes m') = length (mv_codes m) ∧ length (mv_mins m') = length (mv_mins m)
  ∧ length (mv_scales m') = length (mv_scales m) → meta_room n m → meta_room n m'.
Proof. unfold meta_room. lia. Qed.

Lemma k_prep_lengths `{!TorchFloatLaws TF} h g ok (ov : list (list (list Z))) (d := (g * 32)%nat) (kt := mkTensor3 h d (widen ok)) :
  (0 < length ok ≤ 32)%nat ∧ Forall (wf_row h d) ok →
  length (flat (k_code_rows kt)) = (32 * (h * d))%nat
  ∧ length (flat (map (map (stream_row 3 (_kvquant_k3_packed_dim d))) (k_code_rows kt)))
    = (32 * h * _kvquant_k3_packed_dim d)%nat.
Proof.
  intros Hok. destruct (open_k_code_rows_tensor h g ok Hok) as [HC EK]. fold d kt in HC, EK.
  assert (length (k_code_rows kt) = 32%nat) as L by (rewrite EK; apply tab_length). split.
  - rewrite (flat_length h d); [by rewrite L|]. eapply Forall_impl; [|exact HC]. intros tok [Hl Hr].
    split; [done|]. eapply Forall_impl; [|exact Hr]. by intros r [? _].
  - rewrite (flat_length h (_kvquant_k3_packed_dim d)); [by rewrite length_map, L, Nat.mul_assoc|].
    rewrite Forall_map. eapply Forall_impl; [|exact HC]. intros tok [Hl _]. split; [by rewrite length_map|].
    rewrite Forall_map. apply List.Forall_forall. intros r _. apply stream_row_length.
Qed.

Section Prepared.
Context {TFL : TorchFloatLaws TF} {TL : TritonLaws TR}.
Variables (h g : nat) (ok ov rk rv : list (list (list Z))).
Let d := (g * 32)%nat.
Let kt := mkTensor3 h d (widen ok).
Hypotheses (Hh : (0 < h)%nat) (Hg : (0 < g)%nat) (Hok : (0 < length ok ≤ 32)%nat ∧ Forall (wf_row h d) ok)
  (Hov : length ov = length ok ∧ Forall (wf_row h d) ov) (Hreg : open_regular h g ok ov).

(** The arguments the tail kernel receives from the workspace. *)
Definition workspace_args (ws : Workspace) (v_packed recent_k recent_v : tensor3 Z) : TailArgs :=
  {| ta_k_packed := ws_k_packed ws;
     ta_v_packed := flatten3 v_packed;
     ta_recent_k := flatten3 recent_k;
     ta_recent_v := flatten3 recent_v;
     ta_kmin := ws_kmin_meta ws;
     ta_kscale := ws_kscale_meta ws;
     ta_vmin := ws_vmin_meta ws;
     ta_vscale := ws_vscale_meta ws |}.

Lemma fast_prep_ok dev r wss :
  workspaces_ok wss → rt_num_kv_heads r = h → rt_head_size_k r = d → rt_head_size_v r = d →
  rt_sidecar r = sidecar_with h d d ok ov rk rv →
  ∃ ws vmin_groups vscale_groups wss',
    _rabit2_stage4d3_4_fast_prep dev r wss = (Ok (ws, vmin_groups, vscale_groups), wss')
    ∧ workspaces_ok wss' ∧ (∀ key, key ≠ runtime_ws_key dev r → wss' !! key = wss !! key)
    ∧ ∀ w, open_args h g ok ov rk rv (workspace_args ws
             (mkTensor3 h w (v_packed_rows d (widen ov))) (mkTensor3 h d rk) (mkTensor3 h d rv)).
Proof.
  intros Hws Eh Ek Ev Esc. destruct (workspace_lookup dev r wss Hws) as (ws & wss1 & Ews & HS & Hok1 & Hfr).
  { rewrite Ev. by exists g. }
  unfold runtime_ws_key in HS. rewrite Eh, Ek, Ev in HS. destruct HS as (S1 & S2 & S3 & S4 & S5 & S6 & S7 & S8).
  destruct (open_primary_lengths h g ok ov Hok Hov) as (L1 & L2 & L3 & L4). fold d kt in L1, L2, L3, L4.
  pose proof Hreg as (_ & R1 & R2 & R3 & R4). fold d kt in R1, R2, R3, R4.
  assert (0 < h * d)%nat as Hpos by (unfold d; nia). assert (0 < length ok * h * g)%nat as Hvpos by nia.
  assert (length ok * h * g ≤ 32 * h * (d / 32))%nat as Hroom.
  { unfold d. rewrite Nat.div_mul by lia. apply Nat.mul_le_mono_r, Nat.mul_le_mono_r. lia. }
  destruct (meta_launch_ok (k_primary k_group_min kt) (ws_kmin_meta ws)) as (m1 & E1 & V1 & K1);
    [by rewrite L1|done|by rewrite L1|].
  destruct (meta_launch_ok (k_primary k_group_scale kt) (ws_kscale_meta ws)) as (m2 & E2 & V2 & K2);
    [by rewrite L2|done|by rewrite L2|].
  destruct (meta_launch_ok (flat (v_mins d (widen ov))) (ws_vmin_meta ws)) as (m3 & E3 & V3 & K3);
    [by rewrite L3|done|rewrite L3; by apply (meta_room_mono _ _ _ Hroom)|].
  destruct (meta_launch_ok (flat (v_scales d (widen ov))) (ws_vscale_meta ws)) as (m4 & E4 & V4 & K4);
    [by rewrite L4|done|rewrite L4; by apply (meta_room_mono _ _ _ Hroom)|].
  unfold _rabit2_stage4d3_4_fast_prep. rewrite Esc. cbn [sidecar_with open_k open_v_min open_v_scale].
  assert (∀ {B} (x : B), when_nonempty ok x = Some x) as Hne by (intros B x; destruct ok; [cbn in Hok; lia|done]).
  rewrite !Hne. rewrite st_bind_eq, Ews. cbv beta iota zeta. rewrite Eh, Ek.
  change (flatten3 (mkTensor3 h d ok)) with (flat ok). change (t_tokens (mkTensor3 h d ok)) with (length ok).
  rewrite (k_stats_ok h g ok ov) by done. fold d kt. cbv beta iota. change (GROUP * h)%nat with (32 * h)%nat.
  pose proof (k_pack_ok h g ok ov Hh Hg Hok Hov (ws_k_packed ws) S2) as EP. fold d kt in EP. rewrite EP.
  rewrite st_bind_eq. cbn [st_modify]. rewrite st_bind_eq. unfold st_lift at 1. rewrite E1. cbv beta iota.
  rewrite st_bind_eq. cbn [st_modify]. rewrite st_bind_eq. unfold st_lift at 1. rewrite E2. cbv beta iota.
  rewrite st_bind_eq. cbn [st_modify]. rewrite st_bind_eq. unfold st_lift at 1.
  change (flatten3 (mkTensor3 h (v_groups_of d) (v_mins d (widen ov)))) with (flat (v_mins d (widen ov))).
  rewrite E3. cbv beta iota.
  rewrite st_bind_eq. cbn [st_modify]. rewrite st_bind_eq. unfold st_lift at 1.
  change (flatten3 (mkTensor3 h (v_groups_of d) (v_scales d (widen ov)))) with (flat (v_scales d (widen ov))).
  rewrite E4. cbv beta iota. rewrite st_bind_eq. cbn [st_modify snd fst].
  do 4 eexists. split; [reflexivity|]. rewrite !insert_workspace_twice.
  split; [|split].
  - apply map_Forall_insert_2; [|done]. unfold workspace_sized, runtime_ws_key. rewrite Eh, Ek, Ev.
    cbn [ws_k_codes ws_k_packed ws_k_min ws_k_scale ws_kmin_meta ws_kscale_meta ws_vmin_meta ws_vscale_meta].
    destruct (k_prep_lengths h g ok ov Hok) as [LC LP]. fold d kt in LC, LP.
    repeat (split; [first [done|lia|eapply meta_room_same; done]|]). by eapply meta_room_same.
  - intros key Hne'. rewrite insert_workspace_ne by done. by apply Hfr.
  - intros w. by apply open_args_of.
Qed.
End Prepared.
End TailPrep.
