(* ===== verification/RealAttention.v ===== *)
(** * Attention in exact arithmetic

    The kernels compute attention in segments ([PageAttention.split_attention]): each one
    subtracts its own maximum, and the reduction weighs them by the global one.  Were the
    arithmetic that of the real numbers, the result would be the softmax of the scores of
    all tokens, applied to their values ([split_attention_is_softmax]): the maxima cancel,
    whatever they are, and so do the boundaries of pages, tail and blocks.  How far 32-bit
    arithmetic is from it is not treated. *)

From Stdlib Require Import ZArith Lia Reals Lra.
From stdpp Require Import base tactics numbers list option.
From S2P Require Import Prelude Torch Tab Triton Attention PageAttention TailPrep.

(** ** Sums *)

Fixpoint rsum (l : list R) : R := match l with [] => 0%R | x :: l => (x + rsum l)%R end.

Lemma rsum_app l k : rsum (l ++ k) = (rsum l + rsum k)%R.
Proof. induction l as [|x l IH]; cbn; [lra|]. rewrite IH. lra. Qed.

Lemma rsum_scale {A} c (f : A → R) l : rsum (map (λ x, c * f x)%R l) = (c * rsum (map f l))%R.
Proof. induction l as [|x l IH]; cbn; [lra|]. rewrite IH. lra. Qed.

Lemma rsum_zero {A} (f : A → R) l : (∀ x, x ∈ l → f x = 0%R) → rsum (map f l) = 0%R.
Proof.
  induction l as [|x l IH]; intros H; [done|]. cbn. rewrite IH by (intros y Hy; apply H; by right).
  rewrite (H x) by (by left). lra.
Qed.

(** Lanes beyond [m] that add nothing. *)
Lemma rsum_lanes m n (f : nat → R) : (m ≤ n)%nat → (∀ t, (m ≤ t)%nat → f t = 0%R) → rsum (map f (seq 0 n)) = rsum (map f (seq 0 m)).
Proof.
  intros Hle Hf. replace n with (m + (n - m))%nat by lia. rewrite seq_app, map_app, rsum_app. cbn [Nat.add].
  rewrite (rsum_zero f (seq m _)); [lra|]. intros t [Ht _]%list_elem_of_In%in_seq. by apply Hf.
Qed.

(** A sum over the elements of a list, by their places in a longer block. *)
Lemma rsum_lookup {A} (F : A → R) l : ∀ n, (length l ≤ n)%nat →
  rsum (map (λ s, match l !! s with Some x => F x | None => 0%R end) (seq 0 n)) = rsum (map F l).
Proof.
  induction l as [|x l IH]; intros n Hn.
  - apply rsum_zero. intros s _. by rewrite lookup_nil.
  - destruct n as [|n]; cbn [length] in Hn; [lia|]. cbn [seq map]. rewrite <-seq_shift, map_map. cbn. f_equal. apply IH. lia.
Qed.

(** ** Softmax *)

(** The values weighted by the exponentials of their scores. *)
Definition softmax_of (l : list (R * R)) : R := (rsum (map (λ p, exp p.1 * p.2) l) / rsum (map (λ p, exp p.1) l))%R.

(** The operations of the kernels on numbers that [val] reads exactly. *)
Class ExactReals `{TF : TorchFloat} (TR : TritonFloat) (TA : TritonReduce) := {
  val : f32 → R;
  val_zero : val f32_zero = 0%R;
  val_sub : ∀ x y, val (f32_sub x y) = (val x - val y)%R;
  val_mul : ∀ x y, val (f32_mul x y) = (val x * val y)%R;
  val_div : ∀ x y, val (tl_div x y) = (val x / val y)%R;
  val_sum : ∀ l, val (tl_sum l) = rsum (map val l);
  val_exp : ∀ x, val (tl_exp x) = exp (val x)
}.

Section Exact.
Context `{TF : TorchFloat} {TR : TritonFloat} {TA : TritonReduce} {ER : ExactReals TR TA}.
Variables (D kvh : nat) (q : nat → f32) (scale : f32) (d : nat).

Abbreviation Rows := (list (list (list f32))).

(** The score of token [t], and the lanes of a segment. *)
Definition real_score (K : Rows) (t : nat) : R := (rsum (map (λ c, val (lane_of K kvh t c) * val (q c)) (seq 0 D)) * val scale)%R.
Definition lanes (K V : Rows) : list (R * R) := map (λ t, (real_score K t, val (lane_of V kvh t d))) (seq 0 (length K)).

(** Rows of at most [D] elements. *)
Definition narrow (K : Rows) : Prop := ∀ t c, (D ≤ c)%nat → lane_of K kvh t c = f32_zero.

Lemma val_score BLOCK_D K t : narrow K → (D ≤ BLOCK_D)%nat → val (score BLOCK_D (lane_of K kvh) q scale t) = real_score K t.
Proof.
  intros Hk HD. unfold score, real_score, tab. rewrite val_mul, val_sum, map_map. f_equal.
  rewrite (map_ext _ (λ c, val (lane_of K kvh t c) * val (q c))%R) by (intros c; apply val_mul).
  apply rsum_lanes; [done|]. intros c Hc. rewrite (Hk t c Hc), val_zero. lra.
Qed.

(** What a segment holds of its lanes. *)
Definition segment_of (r : f32 * f32 * (nat → f32)) (l : list (R * R)) : Prop :=
  val r.1.2 = rsum (map (λ p, exp (p.1 - val r.1.1)) l) ∧ val (r.2 d) = rsum (map (λ p, exp (p.1 - val r.1.1) * p.2)%R l).

Lemma page_segment_of BLOCK_D kv : narrow kv.1 → (D ≤ BLOCK_D)%nat → length kv.1 = 32%nat →
  segment_of (page_segment BLOCK_D kvh kv q scale) (lanes kv.1 kv.2).
Proof.
  intros Hk HD Hlen. unfold page_segment, flash_block, segment_of, lanes. rewrite Hlen. set (m := tl_max _). cbn [fst snd]. unfold tab. rewrite !val_sum, !map_map. split.
  - f_equal. apply map_ext. intros t. cbn [fst]. by rewrite val_exp, val_sub, val_score.
  - f_equal. apply map_ext_in. intros t [_ Ht]%in_seq. cbn [fst snd]. rewrite val_mul. f_equal.
    rewrite (nth_indep _ _ (tl_exp (f32_sub (score BLOCK_D (lane_of kv.1 kvh) q scale 0) m))) by (by rewrite length_map, length_seq).
    rewrite (map_nth (λ t, tl_exp (f32_sub (score BLOCK_D (lane_of kv.1 kvh) q scale t) m))), seq_nth by done. by rewrite val_exp, val_sub, val_score.
Qed.

Lemma tail_segment_of n BLOCK_D kv : narrow kv.1 → (D ≤ BLOCK_D)%nat → (length kv.1 ≤ n)%nat →
  segment_of (tail_segment n BLOCK_D kvh kv q scale) (lanes kv.1 kv.2).
Proof.
  intros Hk HD Hlen. unfold tail_segment, flash_masked, segment_of, lanes. set (scores := tab n _). set (m := tl_max scores). cbn [fst snd].
  set (w := λ t, if (t <? length kv.1)%nat then exp (real_score kv.1 t - val m)%R else 0%R).
  assert (∀ t, (t < n)%nat → val (if (t <? length kv.1)%nat then tl_exp (f32_sub (nth t scores f32_zero) m) else f32_zero) = w t) as Hw.
  { intros t Ht. unfold w. destruct (Nat.ltb_spec t (length kv.1)) as [Hin|]; [|apply val_zero]. rewrite val_exp, val_sub. unfold scores.
    rewrite tab_nth by done. by rewrite (proj2 (Nat.ltb_lt _ _) Hin), val_score. }
  split.
  - rewrite val_sum, map_tab, map_map. unfold tab. rewrite (map_ext_in _ w) by (intros t [_ Ht]%in_seq; by apply Hw). rewrite (rsum_lanes (length kv.1)) by (done || intros t Ht; unfold w; by rewrite (proj2 (Nat.ltb_ge _ _) Ht)).
    f_equal. apply map_ext_in. intros t [_ Ht]%in_seq. unfold w. cbn [fst]. by rewrite (proj2 (Nat.ltb_lt t (length kv.1)) Ht).
  - rewrite val_sum, map_tab, map_map. unfold tab at 1. rewrite (map_ext_in _ (λ t, w t * val (lane_of kv.2 kvh t d))%R).
    2:{ intros t [_ Ht]%in_seq. rewrite val_mul, tab_nth by done. by rewrite Hw. }
    rewrite (rsum_lanes (length kv.1)) by (done || intros t Ht; unfold w; rewrite (proj2 (Nat.ltb_ge _ _) Ht); lra).
    f_equal. apply map_ext_in. intros t [_ Ht]%in_seq. unfold w. cbn [fst snd]. by rewrite (proj2 (Nat.ltb_lt t (length kv.1)) Ht).
Qed.

(** *** The reduction *)

Lemma rsum_concat (f : R * R → R) (ls : list (list (R * R))) : rsum (map f (concat ls)) = rsum (map (λ l, rsum (map f l)) ls).
Proof. induction ls as [|l ls IH]; [done|]. cbn [concat map rsum]. by rewrite map_app, rsum_app, IH. Qed.

Lemma rsum_segments (F : f32 * f32 * (nat → f32) → R) (f : list (R * R) → R) segs ls :
  Forall2 segment_of segs ls → (∀ r l, segment_of r l → F r = f l) → rsum (map F segs) = rsum (map f ls).
Proof. intros H Hf. induction H as [|r l segs ls Hr _ IH]; [done|]. cbn [map rsum]. by rewrite IH, (Hf r l Hr). Qed.

Lemma exp_shift x m M : (exp (x - m) * exp (m - M) = exp (- M) * exp x)%R.
Proof. rewrite <-!exp_plus. f_equal. lra. Qed.

(** The segments of one head combine to the softmax of all their lanes. *)
Lemma combine_softmax BLOCK_S segs ls : Forall2 segment_of segs ls → (length segs ≤ BLOCK_S)%nat →
  val (combine_segments BLOCK_S segs d) = softmax_of (concat ls).
Proof.
  intros Hs Hn. unfold combine_segments. set (M := tl_max _). rewrite val_div, !val_sum. unfold tab. rewrite !map_map.
  set (weight := λ r : f32 * f32 * (nat → f32), exp (val r.1.1 - val M)%R).
  assert (∀ s, (s < BLOCK_S)%nat → val (nth s (map (λ s, match segs !! s with Some r => tl_exp (f32_sub r.1.1 M) | None => f32_zero end) (seq 0 BLOCK_S)) f32_zero)
    = match segs !! s with Some r => weight r | None => 0%R end) as Hw.
  { intros s H. rewrite nth_tabulate by done. destruct (segs !! s); [by rewrite val_exp, val_sub|apply val_zero]. }
  rewrite (map_ext_in _ (λ s, match segs !! s with Some r => val (r.2 d) * weight r | None => 0 end)%R).
  2:{ intros s [_ Hs']%in_seq. rewrite val_mul, Hw by done. destruct (segs !! s) as [r|]; [done|]. rewrite val_zero. apply Rmult_0_l. }
  rewrite (map_ext_in (λ s, val (f32_mul (nth s _ _) _)) (λ s, match segs !! s with Some r => val r.1.2 * weight r | None => 0 end)%R).
  2:{ intros s [_ Hs']%in_seq. rewrite val_mul, Hw by done. destruct (segs !! s) as [r|]; [apply Rmult_comm|]. rewrite val_zero. apply Rmult_0_l. }
  rewrite !rsum_lookup by done.
  rewrite (rsum_segments _ (λ l, exp (- val M) * rsum (map (λ p, exp p.1 * p.2) l))%R segs ls Hs).
  2:{ intros r l [_ ->]. unfold weight. rewrite Rmult_comm, <-!rsum_scale. f_equal. apply map_ext. intros p.
      by rewrite <-Rmult_assoc, (Rmult_comm (exp (_ - val M))), exp_shift, Rmult_assoc. }
  rewrite (rsum_segments (λ r, val r.1.2 * weight r)%R (λ l, exp (- val M) * rsum (map (λ p, exp p.1) l))%R segs ls Hs).
  2:{ intros r l [-> _]. unfold weight. rewrite Rmult_comm, <-!rsum_scale. f_equal. apply map_ext. intros p. by rewrite Rmult_comm, exp_shift. }
  rewrite !rsum_scale. unfold softmax_of. rewrite !rsum_concat. unfold Rdiv. rewrite Rinv_mult.
  pose proof (exp_pos (- val M)). rewrite <-(Rmult_1_l (rsum _ * / _)%R), <-(Rinv_r (exp (- val M))) by lra. ring.
Qed.

(** *** All tokens *)

Lemma lane_app (K K' : Rows) t c : lane_of (K ++ K') kvh t c = if (t <? length K)%nat then lane_of K kvh t c else lane_of K' kvh (t - length K) c.
Proof. unfold lane_of. destruct (Nat.ltb_spec t (length K)); [by rewrite app_nth1|by rewrite app_nth2 by lia]. Qed.

Lemma real_score_ext K K' t t' : (∀ c, lane_of K kvh t c = lane_of K' kvh t' c) → real_score K t = real_score K' t'.
Proof. intros H. unfold real_score. do 2 f_equal. apply map_ext. intros c. by rewrite H. Qed.

Lemma lanes_app (K K' V V' : Rows) : length K = length V → lanes (K ++ K') (V ++ V') = lanes K V ++ lanes K' V'.
Proof.
  intros Hl. unfold lanes. rewrite length_app, seq_app, map_app. f_equal.
  - apply map_ext_in. intros t [_ Ht]%in_seq. rewrite lane_app, <-Hl, (proj2 (Nat.ltb_lt t (length K)) Ht). f_equal.
    apply real_score_ext. intros c. by rewrite lane_app, (proj2 (Nat.ltb_lt t (length K)) Ht).
  - rewrite (seq_shift_map (0 + length K)), map_map. apply map_ext. intros t. cbn [Nat.add].
    assert ((length K + t <? length K)%nat = false) as Hge by (apply Nat.ltb_ge; lia).
    assert (length K + t - length K = t)%nat as Hsub by lia. rewrite lane_app, <-Hl, Hge, Hsub. f_equal.
    apply real_score_ext. intros c. by rewrite lane_app, Hge, Hsub.
Qed.

Lemma lanes_concat (pages : list (Rows * Rows)) : (∀ kv, kv ∈ pages → length kv.1 = length kv.2) →
  ∀ tail, lanes (concat (map fst pages) ++ tail.1) (concat (map snd pages) ++ tail.2) = concat (map (λ kv, lanes kv.1 kv.2) (pages ++ [tail])).
Proof.
  induction pages as [|kv pages IH]; intros H tail; cbn [app map concat]; [by rewrite app_nil_r|].
  rewrite <-!app_assoc, lanes_app by (apply H; by left). f_equal. apply IH. intros kv' Hkv. apply H. by right.
Qed.

Lemma rows_narrow (K : Rows) : (∀ tok row, tok ∈ K → row ∈ tok → length row = D) → narrow K.
Proof.
  intros H t c Hc. unfold lane_of. apply nth_overflow. destruct (nth_in_or_default t K []) as [Hin| ->]; [|by destruct kvh; cbn; lia].
  destruct (nth_in_or_default kvh (nth t K []) []) as [Hin'| ->]; [|cbn; lia]. rewrite (H _ _ ltac:(by apply list_elem_of_In) ltac:(by apply list_elem_of_In)). done.
Qed.
End Exact.

(** ** Property *)

(** C10: what the segments compute.  In exact arithmetic, whatever maxima the kernels subtract
    and whatever stands for minus infinity, a channel of a query head of [split_attention] - a
    partial softmax for each page of 32 tokens and for the tail in its block, combined by the
    reduction - is the softmax of the scores of all tokens over the head's keys, applied to
    their values. *)
Theorem split_attention_is_softmax `{TF : TorchFloat} {TR : TritonFloat} {TA : TritonReduce} {ER : ExactReals TR TA}
    NUM_Q_HEADS NUM_KV_HEADS HEAD_SIZE BLOCK_T pages tail (q : nat → nat → f32) scale qh d (kvh := (qh / (NUM_Q_HEADS / NUM_KV_HEADS))%nat) :
  (∀ kv, kv ∈ pages → length kv.1 = 32 ∧ length kv.2 = 32)%nat → (length tail.1 ≤ BLOCK_T)%nat →
  (∀ kv tok row, kv ∈ pages ++ [tail] → tok ∈ kv.1 → row ∈ tok → length row = HEAD_SIZE) → (qh < NUM_Q_HEADS)%nat → (d < HEAD_SIZE)%nat →
  val (nth d (nth qh (split_attention NUM_Q_HEADS NUM_KV_HEADS HEAD_SIZE BLOCK_T pages tail q scale) []) f32_zero)
  = softmax_of (lanes HEAD_SIZE kvh (q qh) scale d (concat (map fst pages) ++ tail.1) (concat (map snd pages) ++ tail.2)).
Proof.
  intros Hpages Htail Hrows Hq Hd. unfold split_attention. rewrite !tab_nth by done.
  rewrite lanes_concat by (intros kv Hkv; by destruct (Hpages kv Hkv) as [-> ->]).
  pose proof (next_power_of_2_ge HEAD_SIZE) as HD. fold kvh.
  apply (combine_softmax d (ER := ER)); [|apply next_power_of_2_ge].
  rewrite map_app. apply Forall2_app.
  - apply Forall2_fmap, Forall_Forall2_diag, List.Forall_forall. intros kv Hkv%list_elem_of_In.
    apply page_segment_of; [|done|by apply Hpages]. apply rows_narrow. intros tok row. apply Hrows, elem_of_app. by left.
  - constructor; [|constructor]. apply tail_segment_of; [|done|done]. apply rows_narrow. intros tok row. apply Hrows, elem_of_app. right. by left.
Qed.

(** ** The real numbers themselves *)

Section Concrete.
Local Open Scope R_scope.

Definition below (bound x : R) : bool := if Rlt_dec (Rabs x) bound then true else false.

#[local] Instance RealTorch : TorchFloat := {|
  f32 := R; f32_zero := 0; f32_one := 1; f32_add := Rplus; f32_sub := Rminus; f32_mul := Rmult; f32_div := Rdiv;
  f32_min := Rmin; f32_max := Rmax; f32_round := λ x, IZR (Int_part (x + / 2)); f32_clamp := λ lo hi x, Rmax (IZR lo) (Rmin (IZR hi) x);
  f32_to_u8 := Int_part; f32_of_int := IZR; f32_abs_lt_1e8 := below (/ 10 ^ 8); f32_abs_lt_1e12 := below (/ 10 ^ 12);
  bf16_of_f32 := Int_part; f32_of_bf16 := IZR |}.

#[local] Instance RealTriton : TritonFloat := {|
  tl_min := amin; tl_max := amax; tl_minimum := Rmin; tl_maximum := Rmax; tl_div := Rdiv; tl_div_rn := Rdiv;
  tl_floor := λ x, IZR (Int_part x); tl_gt_half := λ x, negb (below (/ 2) x); tl_lt_half := below (/ 2); tl_eq_half := λ x, if Req_dec_T x (/ 2) then true else false;
  tl_to_i32 := Int_part |}.

#[local] Instance RealReduce : TritonReduce := {| tl_sum := rsum; tl_exp := exp; tl_neg_inf := -1; py_rsqrt := λ n, / sqrt (INR n) |}.

#[local] Instance RealExact : ExactReals RealTriton RealReduce.
Proof. refine {| val := λ x : f32, x : R |}; try done. intros l. by rewrite List.map_id. Defined.

(** C10: one page and one token of the tail. *)
Lemma split_attention_is_softmax_witness (page := (replicate 32 [[1; 2]], replicate 32 [[3; 4]])) (tail := ([[[5; 6]]], [[[7; 8]]])) :
  nth 1 (nth 0 (split_attention 1 1 2 1 [page] tail (λ _ _, 1) 1) []) 0
  = softmax_of (lanes 2 0 (λ _, 1) 1 1 (page.1 ++ tail.1) (page.2 ++ tail.2)).
Proof.
  apply (split_attention_is_softmax (ER := RealExact) 1 1 2 1 [page] tail (λ _ _, 1) 1 0 1).
  - by intros kv ->%list_elem_of_singleton.
  - done.
  - intros kv tok row [->|[->|[]%not_elem_of_nil]%elem_of_cons]%elem_of_cons.
    + by intros ->%elem_of_replicate_inv ->%list_elem_of_singleton.
    + by intros ->%list_elem_of_singleton ->%list_elem_of_singleton.
  - lia.
  - lia.
Defined.
End Concrete.
