(* ===== verification/DecodeAttention.v ===== *)
(** * Online decode attention

    The attention of one decode query over a sequence held by
    [Rabit2SingleSequenceRuntime]: the Stage 3B2 entry
    [rabit2_online_decode_attention_triton], the Stage 4B1 entry, and the Stage
    4B3 entry in force, [rabit2_online_decode_attention_triton_stage4b3_gqa4],
    with the tail emission they call through the module global that Stage 4D3.4
    rebinds.  All three write one partial per closed page and one for the tail,
    then reduce them; on a runtime state their output is [split_attention] over
    the decoded pages and the materialized tail. *)

From Stdlib Require Import ZArith Lia.
From stdpp Require Import gmap base tactics numbers list option.
From S2P Require Import Prelude Layout Torch SpecFloatTorch BitPack Meta Quant Tab Triton FixedTorch Decoded Page.
From S2P Require Import Sidecar Tail OnlineRef Runtime Bulk PageKernel EncodeKernel Attention PageAttention.
From S2P Require Import TailAttention TailPrep.

(** A query tensor in device memory. *)
Record Query (B : Type) := mkQuery { qy_cuda : bool; qy_shape : list nat; qy_data : list B }.
Arguments mkQuery {B} qy_cuda qy_shape qy_data.
Arguments qy_cuda {B} q.
Arguments qy_shape {B} q.
Arguments qy_data {B} q.

Section DecodeAttention.
Context `{TF : TorchFloat} {TR : TritonFloat} {TE : TorchEmpty} {TA : TritonReduce}.
Context {B : Type} {FT : FloatType B}.

(** [rabit2_packed_dim(n, 2)] of a positive size. *)
Definition v_packed_dim (n : nat) : nat := ((n * 2 + 7) / 8)%nat.

(** ** Emitting the tail segment *)

(** The branch without an open group: the residual alone, in blocks of four. *)
Definition emit_recent (q : list B) (q_heads d : nat) (r : Rabit2SingleSequenceRuntime) (recent_k recent_v : tensor3 Z)
    (segment_idx : nat) (softmax_scale : f32) : Partials → Partials :=
  _rabit2_tail_partial_kernel (FC := bf16_type) q (flatten3 recent_k) (flatten3 recent_v) (t_tokens recent_k) segment_idx
    softmax_scale q_heads (rt_num_kv_heads r) d 4 (next_power_of_2 d).

Definition emit_exactmeta (q : list B) (q_heads d : nat) (r : Rabit2SingleSequenceRuntime) (a : TailArgs)
    (open_len recent_len segment_idx : nat) (softmax_scale : f32) : Partials → Partials :=
  _rabit2_stage4b1_exactmeta_tail_partial_kernel q a open_len recent_len segment_idx softmax_scale
    q_heads (rt_num_kv_heads r) d (_kvquant_k3_packed_dim d) (v_packed_dim (rt_head_size_v r))
    (rt_head_size_v r / GROUP) (next_power_of_2 d).

Definition _rabit2_stage4b1_exactmeta_emit_tail_partial (q : list B) (q_heads d : nat)
    (r : Rabit2SingleSequenceRuntime) (segment_idx : nat) (softmax_scale : f32) (mem : Partials) : result Partials :=
  let sc := rt_sidecar r in
  match recent_k sc, recent_v sc with
  | Some rk, Some rv =>
      match open_k sc with
      | None => Ok (emit_recent q q_heads d r rk rv segment_idx softmax_scale mem)
      | Some ok =>
          a ← exactmeta_args sc ok rk rv;
          Ok (emit_exactmeta q q_heads d r a (t_tokens ok) (t_tokens rk) segment_idx softmax_scale mem)
      end
  | _, _ => Err RuntimeError
  end.

Definition _rabit2_stage4d3_4_emit_tail_partial (device_stream : Z * Z) (q : list B) (q_heads d : nat)
    (r : Rabit2SingleSequenceRuntime) (segment_idx : nat) (softmax_scale : f32) (mem : Partials) :
    ST Workspaces Partials :=
  let sc := rt_sidecar r in
  match recent_k sc, recent_v sc with
  | Some rk, Some rv =>
      match open_k sc, open_v_packed sc with
      | None, _ => mret (emit_recent q q_heads d r rk rv segment_idx softmax_scale mem)
      | Some _, None => st_lift (Err RuntimeError)
      | Some ok, Some v_packed =>
          prep ← _rabit2_stage4d3_4_fast_prep device_stream r;
          mret (emit_exactmeta q q_heads d r (workspace_args prep.1.1 v_packed rk rv) (t_tokens ok) (t_tokens rk)
                  segment_idx softmax_scale mem)
      end
  | _, _ => st_lift (Err RuntimeError)
  end.

(** ** The entries *)

(** What the three entries share: fresh partials, the closed pages if there are
    any, the tail as the last segment, the reduction. *)
Definition decode_frame (q_heads d closed : nat) (closed_pages : Partials → Partials)
    (emit_tail : Partials → ST Workspaces Partials) : ST Workspaces (list B) :=
  let segments := (closed + 1)%nat in
  let mem := mkPartials (empty_float (segments * q_heads)) (empty_float (segments * q_heads))
               (empty_float (segments * q_heads * d)) in
  let mem := if (closed =? 0)%nat then mem else closed_pages mem in
  mem ← emit_tail mem;
  mret (_rabit2_reduce_partials_kernel mem segments q_heads d (next_power_of_2 segments) (next_power_of_2 d)
          (ft_empty (q_heads * d))).

(** [query.ndim != 3 or query.shape[0] != 1], then the device check. *)
Definition decode_query (query : Query B) (cache_cuda : bool) : result (nat * nat) :=
  match qy_shape query with
  | [1%nat; q_heads; d] =>
      _ ← raise_if (negb (qy_cuda query) || negb cache_cuda) ValueError;
      Ok (q_heads, d)
  | _ => Err ValueError
  end.

Definition decode_scale (softmax_scale : option f32) (d : nat) : f32 :=
  match softmax_scale with Some s => s | None => py_rsqrt d end.

Definition decode_output (q_heads d : nat) (out : list B) : Query B := mkQuery true [1%nat; q_heads; d] out.

Section Entries.
Variable cache_cuda : bool.
Variables (cache : PageCache) (block_table_row : list nat) (r : Rabit2SingleSequenceRuntime).

Definition rabit2_online_decode_attention_triton (query : Query B) (softmax_scale : option f32) :
    ST Workspaces (Query B) :=
  qd ← st_lift (decode_query query cache_cuda);
  let '(q_heads, d) := qd in
  st_raise_if (negb (d =? rt_head_size_k r)%nat || negb (q_heads mod rt_num_kv_heads r =? 0)%nat) ValueError;;
  let scale := decode_scale softmax_scale d in
  tail ← st_lift (tail_materialize r (λ x, x));
  let tail_len := length tail.1 in
  st_raise_if ((tail_len =? 0)%nat || (GROUP + RESIDUAL <? tail_len)%nat) RuntimeError;;
  let c := page_consts (rt_layout r) q_heads d (_kvquant_k3_packed_dim d) (v_packed_dim d) in
  let dtype x := map ft_cast (concat (map concat x)) in
  out ← decode_frame q_heads d (rt_closed_pages r)
    (_rabit2_closed_page_partial_kernel c (rt_closed_pages r) (qy_data query) (concat (pc_pages cache)) block_table_row scale)
    (λ mem, mret (_rabit2_tail_partial_kernel (qy_data query) (dtype tail.1) (dtype tail.2) tail_len (rt_closed_pages r)
                    scale q_heads (Z.to_nat (num_kv_heads (rt_layout r))) d 64 (next_power_of_2 d) mem));
  mret (decode_output q_heads d out).

(** The global [_rabit2_stage4b1_exactmeta_emit_tail_partial]. *)
Variable emit_tail : list B → nat → nat → Rabit2SingleSequenceRuntime → nat → f32 → Partials → ST Workspaces Partials.

Definition rabit2_online_decode_attention_triton_stage4b1_exactmeta (query : Query B) (softmax_scale : option f32) :
    ST Workspaces (Query B) :=
  qd ← st_lift (decode_query query cache_cuda);
  let '(q_heads, d) := qd in
  let scale := decode_scale softmax_scale d in
  let c := page_consts (rt_layout r) q_heads d (_kvquant_k3_packed_dim d) (v_packed_dim d) in
  out ← decode_frame q_heads d (rt_closed_pages r)
    (_rabit2_closed_page_partial_kernel c (rt_closed_pages r) (qy_data query) (concat (pc_pages cache)) block_table_row scale)
    (emit_tail (qy_data query) q_heads d r (rt_closed_pages r) scale);
  mret (decode_output q_heads d out).

Definition rabit2_online_decode_attention_triton_stage4b3_gqa4 (query : Query B) (softmax_scale : option f32) :
    ST Workspaces (Query B) :=
  qd ← st_lift (decode_query query cache_cuda);
  let '(q_heads, d) := qd in
  let kv_heads := rt_num_kv_heads r in
  if negb (q_heads mod kv_heads =? 0)%nat || negb ((q_heads / kv_heads) mod 4 =? 0)%nat then
    rabit2_online_decode_attention_triton_stage4b1_exactmeta query softmax_scale
  else
    let scale := decode_scale softmax_scale d in
    let c := page_consts (rt_layout r) q_heads d (_kvquant_k3_packed_dim d) (v_packed_dim (rt_head_size_v r)) in
    let qgroups := (kv_heads * (q_heads / kv_heads / 4))%nat in
    out ← decode_frame q_heads d (rt_closed_pages r)
      (_rabit2_stage4b3_gqa4_closed_page_partial_kernel c (rt_closed_pages r) qgroups (qy_data query)
         (concat (pc_pages cache)) block_table_row scale)
      (emit_tail (qy_data query) q_heads d r (rt_closed_pages r) scale);
    mret (decode_output q_heads d out).
End Entries.

(** The entry in force, with the tail emission in force. *)
Definition decode_in_force (device_stream : Z * Z) (cache_cuda : bool) (cache : PageCache) (bt : list nat)
    (r : Rabit2SingleSequenceRuntime) : Query B → option f32 → ST Workspaces (Query B) :=
  rabit2_online_decode_attention_triton_stage4b3_gqa4 cache_cuda cache bt r
    (_rabit2_stage4d3_4_emit_tail_partial device_stream).

(** ** The frame computes split attention *)

(** Segment [lp * NQ + qh]. *)
Definition decode_segment (NQ NKV D BLOCK_T : nat) (pages : list (list (list (list f32)) * list (list (list f32))))
    (tail : list (list (list f32)) * list (list (list f32))) (q : nat → nat → f32) (scale : f32) (s : nat) :
    f32 * f32 * (nat → f32) :=
  let lp := (s / NQ)%nat in
  let qh := (s mod NQ)%nat in
  let kvh := (qh / (NQ / NKV))%nat in
  match pages !! lp with
  | Some kv => page_segment (next_power_of_2 D) kvh kv (q qh) scale
  | None => tail_segment BLOCK_T (next_power_of_2 D) kvh tail (q qh) scale
  end.

Lemma segment_index NQ lp qh : (qh < NQ)%nat → ((lp * NQ + qh) / NQ = lp ∧ (lp * NQ + qh) mod NQ = qh)%nat.
Proof.
  intros H. split; [by rewrite Nat.div_add_l, Nat.div_small, Nat.add_0_r by lia|].
  by rewrite Nat.add_comm, Nat.Div0.mod_add, Nat.mod_small.
Qed.

Lemma decode_segments_split NQ NKV D BLOCK_T pages tail q scale :
  map ft_cast (concat (tab NQ (λ qh, tab D (combine_segments (next_power_of_2 (length pages + 1))
    (tab (length pages + 1) (λ s, decode_segment NQ NKV D BLOCK_T pages tail q scale (s * NQ + qh)))))))
  = map ft_cast (concat (split_attention NQ NKV D BLOCK_T pages tail q scale)).
Proof.
  f_equal. unfold split_attention. f_equal. apply tab_ext. intros qh Hq. cbv zeta.
  rewrite length_app, length_map. cbn [length]. f_equal. f_equal.
  rewrite tab_add, tab_1. f_equal.
  - rewrite (tab_of_list (map _ pages) (f32_zero, f32_zero, λ _, f32_zero) (length pages)) by apply length_map.
    apply tab_ext. intros lp Hlp. unfold decode_segment. destruct (segment_index NQ lp qh Hq) as [-> ->].
    destruct (lookup_lt_is_Some_2 pages lp Hlp) as [kv Hkv]. rewrite Hkv.
    symmetry. apply nth_lookup_Some. by rewrite list_lookup_fmap, Hkv.
  - f_equal. unfold decode_segment. rewrite Nat.add_0_r. destruct (segment_index NQ (length pages) qh Hq) as [-> ->].
    by rewrite (lookup_ge_None_2 pages (length pages)) by lia.
Qed.

Definition partials_room (segments NQ D : nat) (mem : Partials) : Prop :=
  length (pm mem) = (segments * NQ)%nat ∧ length (pl mem) = (segments * NQ)%nat
  ∧ length (pacc mem) = (segments * NQ * D)%nat.

Lemma decode_frame_ok NQ D closed R closed_pages emit_tail wss wss' :
  (∀ mem, partials_room (closed + 1) NQ D mem → closed_pages mem = segs_mem D R (closed * NQ) mem) →
  (∀ mem, partials_room (closed + 1) NQ D mem →
     emit_tail (segs_mem D R (closed * NQ) mem) wss = (Ok (segs_mem D R ((closed + 1) * NQ) mem), wss')) →
  decode_frame NQ D closed closed_pages emit_tail wss
  = (Ok (map ft_cast (concat (tab NQ (λ qh, tab D (combine_segments (next_power_of_2 (closed + 1))
           (tab (closed + 1) (λ s, R (s * NQ + qh)%nat))))))), wss').
Proof.
  intros Hc He. unfold decode_frame. set (mem := mkPartials _ _ _).
  assert (partials_room (closed + 1) NQ D mem) as HR
    by (unfold partials_room, mem; cbn [pm pl pacc]; by rewrite !empty_float_length).
  assert ((if (closed =? 0)%nat then mem else closed_pages mem) = segs_mem D R (closed * NQ) mem) as ->.
  { destruct (Nat.eqb_spec closed 0) as [->|_]; [|by apply Hc]. cbn [Nat.mul]. symmetry. apply segs_mem_0. }
  rewrite st_bind_eq, He by done. destruct HR as (H1 & H2 & H3).
  unfold mret, ST_ret. do 2 f_equal.
  apply reduce_kernel_tab; try done; [apply next_power_of_2_ge|apply ft_empty_length].
Qed.

(** Any emission of one program per head extends the segments. *)
Lemma emit_segs NQ D closed (R : nat → f32 * f32 * (nat → f32)) (prog : nat → f32 * f32 * (nat → f32)) mem :
  partials_room (closed + 1) NQ D mem →
  (∀ qh, (qh < NQ)%nat → same_partial D (prog qh) (R (closed * NQ + qh)%nat)) →
  launch NQ (λ qh, store_partial (closed * NQ + qh) D (next_power_of_2 D) (prog qh)) (segs_mem D R (closed * NQ) mem)
  = segs_mem D R ((closed + 1) * NQ) mem.
Proof.
  intros (H1 & H2 & H3) HR. replace ((closed + 1) * NQ)%nat with (closed * NQ + NQ)%nat in * by lia.
  rewrite <-(launch_segs D (next_power_of_2 D) R NQ (closed * NQ) mem) by (apply next_power_of_2_ge || lia).
  apply launch_ext. intros qh m Hq. by apply store_partial_ext, HR.
Qed.

(** ** The tail as the last segment *)

Section Emission.
Context {TFL : TorchFloatLaws TF} {TL : TritonLaws TR} {TZ : TritonZero}.
Variables (h g NQ : nat) (ok ov rk rv : list (list (list Z))).
Let d := (g * 32)%nat.
Hypotheses (Hh : (0 < h)%nat) (Hg : (0 < g)%nat) (HQ : (0 < NQ)%nat ∧ (h | NQ)%nat).
Hypotheses (Hok : (length ok ≤ 32)%nat ∧ Forall (wf_row h d) ok) (Hov : length ov = length ok ∧ Forall (wf_row h d) ov)
  (Hrk : (0 < length rk ≤ 4)%nat ∧ Forall (wf_row h d) rk) (Hrv : length rv = length rk ∧ Forall (wf_row h d) rv).
Variables (q : list B) (scale : f32) (pages : list (list (list (list f32)) * list (list (list f32)))).

(** The block of tokens the emission reduces. *)
Definition tail_block : nat := match ok with [] => 4%nat | _ => 64%nat end.
Definition tail_pair : list (list (list f32)) * list (list (list f32)) := (tail_rows_k h g ok rk, tail_rows_v h g ov rv).
Definition decode_segments : nat → f32 * f32 * (nat → f32) :=
  decode_segment NQ h d tail_block pages tail_pair (q_load q d) scale.

Lemma kv_head_bound qh : (qh < NQ)%nat → (qh / (NQ / h) < h)%nat.
Proof.
  intros Hq. destruct HQ as [Hp [k ->]]. rewrite Nat.div_mul by lia. apply Nat.Div0.div_lt_upper_bound. lia.
Qed.

Lemma tail_of_decode_segments qh :
  (qh < NQ)%nat →
  decode_segments (length pages * NQ + qh)
  = tail_segment tail_block (next_power_of_2 d) (qh / (NQ / h)) tail_pair (q_load q d qh) scale.
Proof.
  intros Hq. unfold decode_segments, decode_segment. destruct (segment_index NQ (length pages) qh Hq) as [-> ->].
  by rewrite (lookup_ge_None_2 pages (length pages)).
Qed.

Variable (r : Rabit2SingleSequenceRuntime).
Hypotheses (Eh : rt_num_kv_heads r = h) (Ev : rt_head_size_v r = d).

Lemma emit_exactmeta_ok a mem :
  ok ≠ [] → open_args h g ok ov rk rv a → partials_room (length pages + 1) NQ d mem →
  emit_exactmeta q NQ d r a (length ok) (length rk) (length pages) scale (segs_mem d decode_segments (length pages * NQ) mem)
  = segs_mem d decode_segments ((length pages + 1) * NQ) mem.
Proof.
  intros Hne Ha Hm. unfold emit_exactmeta, _rabit2_stage4b1_exactmeta_tail_partial_kernel. rewrite Eh, Ev.
  assert (d / GROUP = g)%nat as -> by (unfold d, GROUP; apply Nat.div_mul; lia).
  apply emit_segs; [done|]. intros qh Hq. rewrite tail_of_decode_segments by done.
  assert (tail_block = 64%nat) as -> by (unfold tail_block; by destruct ok).
  apply (tail_program h g ok ov rk rv); try done.
  - split; [|apply Hok]. destruct ok; [done|]. split; [cbn; lia|apply Hok].
  - apply Hrk.
  - by apply kv_head_bound.
Qed.

Lemma emit_recent_ok mem :
  ok = [] → partials_room (length pages + 1) NQ d mem →
  emit_recent q NQ d r (mkTensor3 h d rk) (mkTensor3 h d rv) (length pages) scale
    (segs_mem d decode_segments (length pages * NQ) mem)
  = segs_mem d decode_segments ((length pages + 1) * NQ) mem.
Proof.
  intros Eok Hm. unfold emit_recent, _rabit2_tail_partial_kernel. rewrite Eh.
  apply emit_segs; [done|]. intros qh Hq. rewrite tail_of_decode_segments by done.
  pose proof (kv_head_bound qh Hq) as Hk. destruct Hov as [Lov _]. rewrite Eok in Lov. apply nil_length_inv in Lov.
  unfold tail_block, tail_pair, tail_rows_k, tail_rows_v. rewrite Eok, Lov, k_shown_nil, v_shown_nil. cbn [map3 map app].
  change (t_tokens (mkTensor3 h d rk)) with (length rk).
  assert (∀ rows t i, Forall (wf_row h d) rows → length rows = length rk →
    (if (t <? length rk)%nat && (i <? d)%nat
     then f32_of_bf16 (nth ((t * h + qh / (NQ / h)) * d + i) (flat rows) 0%Z) else f32_zero)
    = lane_of (widen rows) (qh / (NQ / h)) t i) as HL.
  { intros rows t i Hw Hl. rewrite (lane_of_widen h d) by done. by rewrite Hl. }
  apply flash_masked_ext.
  - intros t _. cbn [fst]. by rewrite widen_length.
  - intros t i _ _ _. exact (HL rk t i (proj2 Hrk) eq_refl).
  - intros t i _ _. exact (HL rv t i (proj2 Hrv) (proj1 Hrv)).
Qed.

(** ** The closed pages as the other segments *)

Lemma closed_pages_ok BLOCK_T tail (cache : PageCache) bt (P : list (list Z)) mem (R := decode_segment NQ h d BLOCK_T pages tail (q_load q d) scale) :
  (64 | h * d)%nat → Forall (λ p, Z.of_nat (length p) = pc_width cache) (pc_pages cache) →
  pc_width cache = page_bytes (layout_of GROUP h d d) →
  Forall2 (λ b p, pc_pages cache !! b = Some p) (take (length P) bt) P →
  pages = map (λ p, decoded_pair h g p (λ x, x)) P →
  partials_room (length pages + 1) NQ d mem →
  _rabit2_closed_page_partial_kernel (page_consts (layout_of GROUP h d d) NQ d (_kvquant_k3_packed_dim d) (v_packed_dim d))
    (length pages) q (concat (pc_pages cache)) bt scale mem
  = segs_mem d R (length pages * NQ) mem.
Proof.
  intros H64 Hw Hwd HF HP (M1 & M2 & M3). set (c := page_consts _ _ _ _ _).
  destruct (page_consts_fields h g NQ [] Hh Hg) as (E1 & E2 & _ & _ & _ & _ & _ & _ & _ & E10 & E11).
  fold d in E1, E2, E10, E11. unfold v_packed_dim in c. fold c in E1, E2, E10, E11.
  assert (length pages = length P) as EL by (rewrite HP; apply length_map).
  pose proof (closed_kernel_segs c q (concat (pc_pages cache)) bt scale R (length pages) mem) as HK.
  rewrite E2, E10, E11 in HK. apply HK; [apply next_power_of_2_ge|apply HQ| |nia|nia|nia].
  intros lp qh Hlp Hq. unfold R, decode_segment. destruct (segment_index NQ lp qh Hq) as [-> ->].
  rewrite HP, list_lookup_fmap. destruct (lookup_lt_is_Some_2 P lp ltac:(lia)) as [page Hpage]. rewrite Hpage.
  cbn [fmap option_fmap option_map].
  destruct (Forall2_lookup_r _ _ _ _ _ HF Hpage) as (b & Hb & Hin).
  rewrite lookup_take in Hb. destruct (decide (lp < length P)%nat); [|lia].
  unfold closed_program. rewrite E1, E2, E10, E11.
  pose proof (Forall_lookup_1 _ _ _ _ Hw Hin) as Hlen. cbv beta in Hlen. rewrite Hwd in Hlen.
  apply (page_program h g NQ page); try done; [|by apply kv_head_bound].
  intros o Ho. by apply (page_load_page c cache bt lp b page); [|unfold c; cbn; by rewrite Hwd| |..].
Qed.

(** ** Both emissions *)

Hypotheses (Ek : rt_head_size_k r = d) (Esc : rt_sidecar r = sidecar_with h d d ok ov rk rv).

Lemma some_recent {A} (x : A) : when_nonempty rk x = Some x.
Proof. destruct rk; [cbn in Hrk; lia|done]. Qed.

Lemma emit_frozen_ok mem :
  partials_room (length pages + 1) NQ d mem →
  _rabit2_stage4b1_exactmeta_emit_tail_partial q NQ d r (length pages) scale
    (segs_mem d decode_segments (length pages * NQ) mem)
  = Ok (segs_mem d decode_segments ((length pages + 1) * NQ) mem).
Proof.
  intros Hm. unfold _rabit2_stage4b1_exactmeta_emit_tail_partial. rewrite Esc.
  cbn [sidecar_with recent_k recent_v open_k]. rewrite !some_recent. destruct (decide (ok = [])) as [E|E].
  - rewrite E at 1. cbn [when_nonempty]. by rewrite emit_recent_ok.
  - assert (when_nonempty ok (mkTensor3 h d ok) = Some (mkTensor3 h d ok)) as -> by (by destruct ok).
    assert ((0 < length ok ≤ 32)%nat ∧ Forall (wf_row h d) ok) as Hok'.
    { split; [|apply Hok]. destruct ok; [done|]. cbn. split; [lia|apply Hok]. }
    destruct (exactmeta_args_ok h g ok ov rk rv Hok' Hov) as (a & Ea & Ha). fold d in Ea.
    change (mkSidecar _ _ _ _ _ _) with (sidecar_with h d d ok ov rk rv). rewrite Ea, result_bind_ok.
    change (t_tokens (mkTensor3 h d ok)) with (length ok). change (t_tokens (mkTensor3 h d rk)) with (length rk).
    by rewrite emit_exactmeta_ok.
Qed.

Lemma emit_in_force_ok dev wss :
  workspaces_ok wss → (ok ≠ [] → open_regular h g ok ov) →
  ∃ wss', workspaces_ok wss' ∧ (∀ key, key ≠ runtime_ws_key dev r → wss' !! key = wss !! key)
    ∧ ∀ mem, partials_room (length pages + 1) NQ d mem →
        _rabit2_stage4d3_4_emit_tail_partial dev q NQ d r (length pages) scale
          (segs_mem d decode_segments (length pages * NQ) mem) wss
        = (Ok (segs_mem d decode_segments ((length pages + 1) * NQ) mem), wss').
Proof.
  intros Hws Hreg. unfold _rabit2_stage4d3_4_emit_tail_partial. rewrite Esc.
  cbn [sidecar_with recent_k recent_v open_k open_v_packed]. rewrite !some_recent.
  destruct (decide (ok = [])) as [E|E].
  - exists wss. split; [done|]. split; [done|]. intros mem Hm.
    assert (∀ {A} (x : A), when_nonempty ok x = None) as Hnone by (intros; by rewrite E). rewrite !Hnone.
    unfold mret, ST_ret. by rewrite emit_recent_ok.
  - assert ((0 < length ok ≤ 32)%nat ∧ Forall (wf_row h d) ok) as Hok'.
    { split; [|apply Hok]. destruct ok; [done|]. cbn. split; [lia|apply Hok]. }
    destruct (fast_prep_ok h g ok ov rk rv Hh Hg Hok' Hov (Hreg E) dev r wss Hws Eh Ek Ev Esc)
      as (ws & vg & sg & wss' & Ep & Hws' & Hfr & Ha).
    exists wss'. split; [done|]. split; [done|]. intros mem Hm.
    assert (∀ {A} (x : A), when_nonempty ok x = Some x) as Hne by (by destruct ok). rewrite !Hne.
    rewrite st_bind_eq, Ep. cbn [fst snd]. unfold mret, ST_ret.
    change (t_tokens (mkTensor3 h d ok)) with (length ok). change (t_tokens (mkTensor3 h d rk)) with (length rk).
    rewrite emit_exactmeta_ok; [done|done|apply Ha|done].
Qed.
End Emission.
End DecodeAttention.
