(* ===== verification/DecodeState.v ===== *)
(** * Decode attention over a served sequence

    The entries of [DecodeAttention] on the state a sequence of appends leaves:
    the pages are found through the block table, the tail in the sidecar, and the
    output is [split_attention] over what the reference decoders return.  The
    entry in force, the entry with the frozen Stage 4B1 preparation and the
    Stage 4B1 entry return the same tensor; the Stage 3B2 entry attends over the
    tail in the query's own type. *)

From Stdlib Require Import ZArith Lia.
From stdpp Require Import gmap base tactics numbers list option.
From S2P Require Import Prelude Layout Torch SpecFloatTorch BitPack Meta Quant Tab Triton FixedTorch Decoded Page.
From S2P Require Import Sidecar Tail OnlineRef Runtime Bulk PageKernel EncodeKernel Attention PageAttention.
From S2P Require Import TailAttention TailPrep DecodeAttention.

Section DecodeState.
Context `{TF : TorchFloat} {TR : TritonFloat} {TE : TorchEmpty} {TA : TritonReduce}.

(** The closed pages of a sequence, through its block table. *)
Definition read_pages (bt : list nat) (s : RtState) :
    result (list (list (list (list f32)) * list (list (list f32)))) :=
  result_map
    (λ b, page ← match pc_pages (rs_cache s) !! b with Some p => Ok p | None => Err IndexError end;
          decode_rabit2_page_ref page (rt_layout (rs_runtime s)) (λ x, x))
    (take (rt_closed_pages (rs_runtime s)) bt).

(** Every block of the cache has the width of the cache. *)
Definition cache_ok (c : PageCache) : Prop := Forall (λ p, Z.of_nat (length p) = pc_width c) (pc_pages c).

Lemma write_pages_ok bt pages c :
  cache_ok c → Forall (λ p, Z.of_nat (length p) = pc_width c) pages → cache_ok (write_pages bt pages c).
Proof.
  unfold cache_ok, write_pages. cbn [pc_width pc_pages]. generalize (pc_pages c) as ps. revert bt.
  induction pages as [|p pages IH]; intros [|b bt] ps Hc Hp; try done.
  apply Forall_cons_iff in Hp as [Hp Hps]. cbn [zip_with fold_left fst snd]. apply IH; [|done].
  by apply Forall_insert.
Qed.

Section State.
Context {TFL : TorchFloatLaws TF} {TL : TritonLaws TR} {TZ : TritonZero}.
Variables (h g NQ : nat) (bt : list nat) (c : PageCache) (kx vx : list (list (list f32))).
Let d := (g * 32)%nat.
Let ks := stored kx.
Let vs := stored vx.
Let s := rt_of h d bt c ks vs.
Let r := rs_runtime s.
Let closed := closed_count (length ks).
Let P := pages_of h d d (closed_rows ks) (closed_rows vs).
Hypotheses (Hgeo : runtime_geometry h d) (Hl : length kx = length vx) (Hne : (0 < length kx)%nat)
  (Hk : Forall (wf_row h d) kx) (Hv : Forall (wf_row h d) vx)
  (Ht : table_ok h d (length kx) bt c) (Hc : cache_ok c) (HQ : (0 < NQ)%nat ∧ (h | NQ)%nat).

Definition state_pages : list (list (list (list f32)) * list (list (list f32))) :=
  map (λ p, decoded_pair h g p (λ x, x)) P.

Lemma state_facts :
  (0 < h)%nat ∧ (0 < g)%nat ∧ length ks = length kx ∧ length vs = length kx
  ∧ Forall (wf_row h d) ks ∧ Forall (wf_row h d) vs ∧ meta_aligned GROUP h d d.
Proof.
  unfold ks, vs. rewrite !stored_length. pose proof (runtime_geometry_aligned h d Hgeo).
  destruct Hgeo as [[Hh Hd] _].
  assert (0 < g)%nat by (unfold d in Hd; lia). rewrite <-Hl.
  split; [done|]. split; [done|]. do 2 (split; [done|]). split; [by apply stored_wf|]. split; [by apply stored_wf|done].
Qed.

Lemma page_lengths : Forall (λ p, Z.of_nat (length p) = page_bytes (layout_of GROUP h d d)) P.
Proof.
  destruct state_facts as (_ & _ & L1 & L2 & Wk & Wv & Hal). unfold P, pages_of.
  pose proof (closed_groups_wf h d ks Wk) as Gk. pose proof (closed_groups_wf h d vs Wv) as Gv.
  revert Gk Gv. generalize (rows_of GROUP (closed_rows ks)) (rows_of GROUP (closed_rows vs)).
  intros lk. induction lk as [|gk lk IH]; intros [|gv lv] Gk Gv; try by constructor.
  apply Forall_cons_iff in Gk as [Gk Gks]. apply Forall_cons_iff in Gv as [Gv Gvs]. constructor; [|by apply IH].
  by destruct (write_page_spec h d d Hal ValueError gk gv Gk Gv) as (_ & ? & _).
Qed.

Lemma page_lengths_bytes : Forall (Forall byte_ok) P.
Proof.
  destruct state_facts as (_ & _ & L1 & L2 & Wk & Wv & Hal). unfold P, pages_of.
  pose proof (closed_groups_wf h d ks Wk) as Gk. pose proof (closed_groups_wf h d vs Wv) as Gv.
  revert Gk Gv. generalize (rows_of GROUP (closed_rows ks)) (rows_of GROUP (closed_rows vs)).
  intros lk. induction lk as [|gk lk IH]; intros [|gv lv] Gk Gv; try by constructor.
  apply Forall_cons_iff in Gk as [Gk Gks]. apply Forall_cons_iff in Gv as [Gv Gvs]. constructor; [|by apply IH].
  by destruct (write_page_spec h d d Hal ValueError gk gv Gk Gv) as (_ & _ & ? & _).
Qed.

Lemma state_stored :
  Forall2 (λ b p, pc_pages (rs_cache s) !! b = Some p) (take (length P) bt) P
  ∧ rt_closed_pages r = length P ∧ pc_width (rs_cache s) = page_bytes (layout_of GROUP h d d) ∧ cache_ok (rs_cache s).
Proof.
  destruct state_facts as (_ & _ & L1 & L2 & Wk & Wv & Hal).
  destruct (rt_pages_stored h d bt c ks vs) as (HF & _ & Hw & Hcl); [congruence|by rewrite L1|].
  assert (length P = closed_count (length ks)) as EP.
  { unfold P. rewrite pages_of_length by (by rewrite !closed_rows_length, L1, L2).
    rewrite closed_rows_length. apply Nat.div_mul. unfold GROUP. lia. }
  fold s r P in HF, Hw, Hcl. rewrite EP. destruct Ht as (_ & _ & _ & Hwd). split; [done|]. split; [done|].
  split; [by rewrite Hw|]. apply (write_pages_ok bt P c Hc). rewrite Hwd. apply page_lengths.
Qed.

Lemma read_state_pages : read_pages bt s = Ok state_pages.
Proof.
  destruct state_facts as (Hh & Hg & _). destruct state_stored as (HF & Hcl & _). unfold read_pages. fold r. rewrite Hcl.
  change (rt_layout r) with (layout_of GROUP h d d).
  rewrite (result_map_lookup (λ page, decode_rabit2_page_ref page (layout_of GROUP h d d) (λ x, x)) _ _ _ HF).
  unfold state_pages. pose proof page_lengths as HL. pose proof page_lengths_bytes as HB. clear HF Hcl.
  induction P as [|p Q IH]; [done|]. apply Forall_cons_iff in HL as [HL HLs]. apply Forall_cons_iff in HB as [HB HBs].
  cbn [result_map map]. rewrite (decode_ref_tab h g p Hh Hg) by (done || apply Hgeo). rewrite result_bind_ok.
  by rewrite (IH HLs HBs).
Qed.

Lemma state_tail : tail_materialize r bf16_rounded
  = Ok (tail_pair h g (open_rows ks) (open_rows vs) (recent_rows ks) (recent_rows vs)).
Proof.
  destruct state_facts as (_ & _ & L1 & L2 & Wk & Wv & _). unfold r, s.
  rewrite tail_materialize_of by (done || congruence). unfold tail_pair, tail_rows_k, tail_rows_v.
  rewrite !map3_app. assert (∀ rows, map3 bf16_rounded (widen (recent_rows (stored rows))) = widen (recent_rows (stored rows))) as E.
  { intros rows. unfold recent_rows. rewrite <-recent_rounded at 2. unfold widen, map3. by rewrite <-skipn_map. }
  unfold ks, vs. by rewrite !E.
Qed.

Let tail := tail_pair h g (open_rows ks) (open_rows vs) (recent_rows ks) (recent_rows vs).

Lemma state_tail_shape :
  ((length (open_rows ks) ≤ 32)%nat ∧ Forall (wf_row h d) (open_rows ks))
  ∧ (length (open_rows vs) = length (open_rows ks) ∧ Forall (wf_row h d) (open_rows vs))
  ∧ ((0 < length (recent_rows ks) ≤ 4)%nat ∧ Forall (wf_row h d) (recent_rows ks))
  ∧ (length (recent_rows vs) = length (recent_rows ks) ∧ Forall (wf_row h d) (recent_rows vs)).
Proof.
  destruct state_facts as (_ & _ & L1 & L2 & Wk & Wv & _).
  destruct (tail_rows_wf h d ks Wk) as [? ?]. destruct (tail_rows_wf h d vs Wv) as [? ?].
  rewrite !open_rows_length, !recent_rows_length, L1, L2.
  pose proof (closed_count_bound (length kx)). pose proof (old_count_bound (length kx)).
  assert (old_count (length kx) < length kx)%nat by (unfold old_count, residual_count, RESIDUAL; lia).
  unfold GROUP in *. repeat split; try (done || lia).
Qed.

Lemma state_runtime :
  rt_num_kv_heads r = h ∧ rt_head_size_k r = d ∧ rt_head_size_v r = d ∧ rt_layout r = layout_of GROUP h d d
  ∧ rt_sidecar r = sidecar_with h d d (open_rows ks) (open_rows vs) (recent_rows ks) (recent_rows vs).
Proof. done. Qed.

Section Decode.
Context {B : Type} {FT : FloatType B}.
Variables (q : list B) (scale : f32).
Let consts := page_consts (rt_layout r) NQ d (_kvquant_k3_packed_dim d) (v_packed_dim d).
Let cache := concat (pc_pages (rs_cache s)).

Lemma state_frame BLOCK_T tl emit_tail (wss wss' : Workspaces)
    (R := decode_segment NQ h d BLOCK_T state_pages tl (q_load q d) scale) :
  (∀ mem, partials_room (length state_pages + 1) NQ d mem →
     emit_tail (segs_mem d R (length state_pages * NQ) mem) wss
     = (Ok (segs_mem d R ((length state_pages + 1) * NQ) mem), wss')) →
  decode_frame NQ d (rt_closed_pages r)
    (_rabit2_closed_page_partial_kernel consts (rt_closed_pages r) q cache bt scale) emit_tail wss
  = (Ok (map ft_cast (concat (split_attention NQ h d BLOCK_T state_pages tl (q_load q d) scale))), wss').
Proof.
  intros He. destruct state_facts as (Hh & Hg & _). destruct state_stored as (HF & Hcl & Hwd & Hco).
  destruct state_tail_shape as (T1 & T2 & T3 & T4).
  assert (rt_closed_pages r = length state_pages) as -> by (unfold state_pages; by rewrite length_map).
  rewrite (decode_frame_ok NQ d (length state_pages) R _ _ wss wss').
  - by rewrite <-decode_segments_split.
  - intros mem Hm.
    apply (closed_pages_ok h g NQ (open_rows ks) (open_rows vs) (recent_rows ks) (recent_rows vs) Hh Hg HQ)
      with (P := P) (r := r); try done. apply Hgeo.
  - done.
Qed.

(** The four-heads-per-program grid in the frame. *)
Lemma state_frame_gqa4 emit_tail (wss : Workspaces) :
  ((NQ / h) mod 4 = 0)%nat →
  decode_frame NQ d (rt_closed_pages r)
    (_rabit2_stage4b3_gqa4_closed_page_partial_kernel consts (rt_closed_pages r) (h * (NQ / h / 4)) q cache bt scale)
    emit_tail wss
  = decode_frame NQ d (rt_closed_pages r)
      (_rabit2_closed_page_partial_kernel consts (rt_closed_pages r) q cache bt scale) emit_tail wss.
Proof.
  intros H4. destruct state_facts as (Hh & Hg & _). destruct HQ as [Hpos [k Hk']].
  assert (NQ / h = k)%nat as E by (rewrite Hk'; apply Nat.div_mul; lia). rewrite E in H4 |- *.
  apply Nat.Lcm0.mod_divide in H4 as [m Hm]. assert (k / 4 = m)%nat as -> by (rewrite Hm; apply Nat.div_mul; lia).
  unfold decode_frame. destruct (rt_closed_pages r =? 0)%nat; [done|]. f_equal.
  destruct (page_consts_fields h g NQ [] Hh Hg) as (E1 & E2 & _ & _ & _ & _ & _ & _ & _ & E10 & E11).
  pose proof (gqa4_kernel_eq consts q cache bt scale m) as HE.
  change (NUM_KV_HEADS consts = h) in E1. change (NUM_Q_HEADS consts = NQ) in E10. rewrite E1, E10 in HE.
  rewrite HE; [done|done|nia|nia].
Qed.
End Decode.

Section Entries.
Context {B : Type} {FT : FloatType B}.
Variable q : list B.

(** Both entries, whatever emission the global names, when it emits the tail. *)
Lemma entries_state sm emit_tail (wss wss' : Workspaces) (sc := decode_scale sm d)
    (R := decode_segment NQ h d (tail_block (open_rows ks)) state_pages tail (q_load q d) sc) :
  (∀ mem, partials_room (length state_pages + 1) NQ d mem →
     emit_tail q NQ d r (length state_pages) sc (segs_mem d R (length state_pages * NQ) mem) wss
     = (Ok (segs_mem d R ((length state_pages + 1) * NQ) mem), wss')) →
  let out := decode_output NQ d
    (map ft_cast (concat (split_attention NQ h d (tail_block (open_rows ks)) state_pages tail (q_load q d) sc))) in
  rabit2_online_decode_attention_triton_stage4b1_exactmeta true (rs_cache s) bt r emit_tail
    (mkQuery true [1%nat; NQ; d] q) sm wss = (Ok out, wss')
  ∧ rabit2_online_decode_attention_triton_stage4b3_gqa4 true (rs_cache s) bt r emit_tail
      (mkQuery true [1%nat; NQ; d] q) sm wss = (Ok out, wss').
Proof.
  intros He out.
  assert (rt_closed_pages r = length state_pages) as Ecl.
  { unfold state_pages. rewrite length_map. apply state_stored. }
  assert (rabit2_online_decode_attention_triton_stage4b1_exactmeta true (rs_cache s) bt r emit_tail
    (mkQuery true [1%nat; NQ; d] q) sm wss = (Ok out, wss')) as H1.
  { unfold rabit2_online_decode_attention_triton_stage4b1_exactmeta, decode_query.
    cbn [qy_shape qy_cuda qy_data negb orb raise_if]. rewrite result_bind_ok, st_bind_eq. unfold st_lift.
    rewrite st_bind_eq. fold sc.
    pose proof (state_frame q sc (tail_block (open_rows ks)) tail (emit_tail q NQ d r (rt_closed_pages r) sc) wss wss') as HF.
    rewrite HF; [done|]. rewrite Ecl. exact He. }
  split; [done|]. unfold rabit2_online_decode_attention_triton_stage4b3_gqa4, decode_query.
  cbn [qy_shape qy_cuda qy_data negb orb raise_if]. rewrite result_bind_ok, st_bind_eq. unfold st_lift.
  change (rt_num_kv_heads r) with h. destruct (negb (NQ mod h =? 0)%nat || negb ((NQ / h) mod 4 =? 0)%nat) eqn:Eg; [done|].
  apply orb_false_iff in Eg as [_ Eg]. apply negb_false_iff, Nat.eqb_eq in Eg.
  rewrite <-H1. unfold rabit2_online_decode_attention_triton_stage4b1_exactmeta, decode_query.
  cbn [qy_shape qy_cuda qy_data negb orb raise_if]. rewrite result_bind_ok, !st_bind_eq. unfold st_lift. fold sc.
  rewrite st_bind_eq. change (rt_head_size_v r) with d.
  by rewrite (state_frame_gqa4 q sc _ wss Eg).
Qed.
End Entries.
End State.

(** ** Properties *)

Section Properties.
Context {TFL : TorchFloatLaws TF} {TL : TritonLaws TR} {TZ : TritonZero}.
Context {B : Type} {FT : FloatType B}.

(** The block of tokens of the last segment. *)
Definition tail_block_of (r : Rabit2SingleSequenceRuntime) : nat :=
  match open_k (rt_sidecar r) with None => 4%nat | Some _ => 64%nat end.

(** A non-empty sequence of chunks appended through a table of the cache, and a
    query head count that shares the KV heads evenly. *)
Definition decodable (h d NQ : nat) (bt : list nat) (c : PageCache) (chunks : list (tensor3 f32 * tensor3 f32)) : Prop :=
  runtime_geometry h d ∧ Forall (chunk_ok h d) chunks ∧ (0 < length (run_keys chunks))%nat
  ∧ table_ok h d (length (run_keys chunks)) bt c ∧ cache_ok c ∧ (0 < NQ)%nat ∧ (h | NQ)%nat.

(** The open group of the sequence holds ordinary numbers. *)
Definition open_group_regular (h g : nat) (chunks : list (tensor3 f32 * tensor3 f32)) : Prop :=
  let ok := open_rows (stored (run_keys chunks)) in
  ok ≠ [] → open_regular h g ok (open_rows (stored (run_values chunks))).

(** The frozen Stage 4B1 emission, as the global named it before Stage 4D3.4. *)
Definition frozen_emit (q : list B) (q_heads d : nat) (r : Rabit2SingleSequenceRuntime) (segment_idx : nat)
    (softmax_scale : f32) (mem : Partials) : ST Workspaces Partials :=
  st_lift (_rabit2_stage4b1_exactmeta_emit_tail_partial q q_heads d r segment_idx softmax_scale mem).

(** Both entries on a decodable sequence, under either emission. *)
Lemma decodable_entries h g NQ bt c chunks (q : list B) sm dev wss (d := (g * 32)%nat) :
  decodable h d NQ bt c chunks → open_group_regular h g chunks → workspaces_ok wss →
  ∃ s0 s pages tail wss', let r := rs_runtime s in let query := mkQuery true [1%nat; NQ; d] q in
    let out := mkQuery true [1%nat; NQ; d] (map ft_cast (concat
                 (split_attention NQ h d (tail_block_of r) pages tail (q_load q d) (decode_scale sm d)))) in
    runtime_start h d c = Ok s0 ∧ runtime_run bt chunks s0 = (Ok tt, s)
    ∧ read_pages bt s = Ok pages ∧ tail_materialize r bf16_rounded = Ok tail ∧ workspaces_ok wss'
    ∧ decode_in_force dev true (rs_cache s) bt r query sm wss = (Ok out, wss')
    ∧ rabit2_online_decode_attention_triton_stage4b3_gqa4 true (rs_cache s) bt r frozen_emit query sm wss = (Ok out, wss)
    ∧ rabit2_online_decode_attention_triton_stage4b1_exactmeta true (rs_cache s) bt r frozen_emit query sm wss
      = (Ok out, wss).
Proof.
  intros (Hgeo & Hch & Hne & Ht & Hc & HQ) Hreg Hws.
  destruct (run_rows_wf h d chunks Hch) as (Wk & Wv & Wl).
  destruct (runtime_run_start h d bt c chunks Hgeo Hch Ht) as (Hs0 & Hs & _).
  set (ks := stored (run_keys chunks)) in *. set (vs := stored (run_values chunks)) in *.
  destruct (state_facts h g NQ _ _ Hgeo Wl Hne Wk Wv HQ) as (Hh & Hg & _).
  destruct (state_tail_shape h g NQ _ _ Hgeo Wl Hne Wk Wv HQ) as (T1 & T2 & T3 & T4). fold d ks vs in T1, T2, T3, T4.
  set (pages := state_pages h g (run_keys chunks) (run_values chunks)).
  destruct (emit_in_force_ok h g NQ (open_rows ks) (open_rows vs) (recent_rows ks) (recent_rows vs)
              Hh Hg HQ T1 T2 T3 T4 q (decode_scale sm d) pages (rs_runtime (rt_of h d bt c ks vs))
              eq_refl eq_refl eq_refl eq_refl dev wss Hws Hreg) as (wss' & Hws' & _ & He).
  exists (rt_of h d bt c [] []), (rt_of h d bt c ks vs), pages,
    (tail_pair h g (open_rows ks) (open_rows vs) (recent_rows ks) (recent_rows vs)), wss'.
  split; [done|]. split; [done|]. split; [by apply (read_state_pages h g NQ)|].
  split; [by apply (state_tail h g NQ)|]. split; [done|].
  destruct (entries_state h g NQ bt c (run_keys chunks) (run_values chunks) Hgeo Wl Hne Wk Wv Ht Hc HQ q sm
              (_rabit2_stage4d3_4_emit_tail_partial dev) wss wss' He) as [_ E].
  destruct (entries_state h g NQ bt c (run_keys chunks) (run_values chunks) Hgeo Wl Hne Wk Wv Ht Hc HQ q sm
              frozen_emit wss wss) as [E1 E2].
  { intros mem Hm. unfold frozen_emit, st_lift. f_equal.
    exact (emit_frozen_ok h g NQ (open_rows ks) (open_rows vs) (recent_rows ks) (recent_rows vs)
             Hh Hg HQ T1 T2 T3 T4 q (decode_scale sm d) pages (rs_runtime (rt_of h d bt c ks vs))
             eq_refl eq_refl eq_refl eq_refl mem Hm). }
  cbv zeta.
  assert (tail_block_of (rs_runtime (rt_of h d bt c ks vs)) = tail_block (open_rows ks)) as ->; [|done].
  unfold tail_block_of. change (rt_sidecar _) with (sidecar_of h d d ks vs). unfold sidecar_of, tail_block.
  cbn [sidecar_with open_k]. by destruct (open_rows ks).
Qed.

(** C9: the decode attention in force computes softmax attention, split into one
    segment per closed page and one for the tail, over what the reference
    decoders return: the pages found through the block table and the tail
    materialized in BF16.  It holds for every sequence of appends, every GQA
    ratio, every query type and every workspace, whatever the workspace and
    the fresh partial buffers contain. *)
Theorem decode_attention_reads_sequence (h g NQ : nat) (bt : list nat) (c : PageCache)
    (chunks : list (tensor3 f32 * tensor3 f32)) (q : list B) (sm : option f32) (dev : Z * Z) (wss : Workspaces)
    (d := (g * 32)%nat) :
  decodable h d NQ bt c chunks → open_group_regular h g chunks → workspaces_ok wss →
  ∃ s0 s pages tail wss',
    runtime_start h d c = Ok s0 ∧ runtime_run bt chunks s0 = (Ok tt, s)
    ∧ read_pages bt s = Ok pages ∧ tail_materialize (rs_runtime s) bf16_rounded = Ok tail
    ∧ workspaces_ok wss'
    ∧ decode_in_force dev true (rs_cache s) bt (rs_runtime s) (mkQuery true [1%nat; NQ; d] q) sm wss
      = (Ok (mkQuery true [1%nat; NQ; d] (map ft_cast (concat
               (split_attention NQ h d (tail_block_of (rs_runtime s)) pages tail (q_load q d) (decode_scale sm d))))),
         wss').
Proof.
  intros Hdec Hreg Hws. destruct (decodable_entries h g NQ bt c chunks q sm dev wss Hdec Hreg Hws)
    as (s0 & s & pages & tail & wss' & H1 & H2 & H3 & H4 & H5 & H6 & _).
  by exists s0, s, pages, tail, wss'.
Qed.

(** C21: the optimised entries return the tensor of the frozen ones.  On every
    state a sequence of appends leaves, the entry in force (four query heads
    per program, transient workspace), the same entry with the Stage 4B1
    preparation, and the Stage 4B1 entry (one head per program, reference
    quantizers) return the same bits; only the first touches the workspace. *)
Theorem decode_entries_agree (h g NQ : nat) (bt : list nat) (c : PageCache)
    (chunks : list (tensor3 f32 * tensor3 f32)) (q : list B) (sm : option f32) (dev : Z * Z) (wss : Workspaces)
    (d := (g * 32)%nat) :
  decodable h d NQ bt c chunks → open_group_regular h g chunks → workspaces_ok wss →
  ∃ s0 s out wss', let query := mkQuery true [1%nat; NQ; d] q in
    runtime_start h d c = Ok s0 ∧ runtime_run bt chunks s0 = (Ok tt, s)
    ∧ decode_in_force dev true (rs_cache s) bt (rs_runtime s) query sm wss = (Ok out, wss')
    ∧ rabit2_online_decode_attention_triton_stage4b3_gqa4 true (rs_cache s) bt (rs_runtime s) frozen_emit query sm wss
      = (Ok out, wss)
    ∧ rabit2_online_decode_attention_triton_stage4b1_exactmeta true (rs_cache s) bt (rs_runtime s) frozen_emit query sm wss
      = (Ok out, wss).
Proof.
  intros Hdec Hreg Hws. destruct (decodable_entries h g NQ bt c chunks q sm dev wss Hdec Hreg Hws)
    as (s0 & s & pages & tail & wss' & H1 & H2 & _ & _ & _ & H6 & H7 & H8).
  do 4 eexists. by repeat split.
Qed.

(** What decode attention refuses, leaving every workspace as it was: a query
    that is not one token of three dimensions, a query or a cache off the
    device, and, for an accepted query, a sequence without recent tokens. *)
Theorem decode_attention_guards (dev : Z * Z) (cache_cuda : bool) (cache : PageCache) (bt : list nat)
    (r : Rabit2SingleSequenceRuntime) (query : Query B) (sm : option f32) (wss : Workspaces) :
  ((∀ NQ d, qy_shape query ≠ [1%nat; NQ; d]) →
     decode_in_force dev cache_cuda cache bt r query sm wss = (Err ValueError, wss))
  ∧ (qy_cuda query && cache_cuda = false →
     decode_in_force dev cache_cuda cache bt r query sm wss = (Err ValueError, wss))
  ∧ (∀ NQ d, qy_shape query = [1%nat; NQ; d] → qy_cuda query && cache_cuda = true →
     recent_k (rt_sidecar r) = None ∨ recent_v (rt_sidecar r) = None →
     decode_in_force dev cache_cuda cache bt r query sm wss = (Err RuntimeError, wss)).
Proof.
  destruct query as [cu shape data]. cbn [qy_shape qy_cuda].
  unfold decode_in_force, rabit2_online_decode_attention_triton_stage4b3_gqa4,
    rabit2_online_decode_attention_triton_stage4b1_exactmeta, decode_query. cbn [qy_shape qy_cuda qy_data].
  split; [|split].
  - intros Hs. destruct shape as [|[|[|n]] [|NQ [|d [|? ?]]]]; try reflexivity. by destruct (Hs NQ d).
  - intros Hc. destruct shape as [|[|[|n]] [|NQ [|d [|? ?]]]]; try reflexivity. by destruct cu, cache_cuda.
  - intros NQ d -> Hc HN. apply andb_true_iff in Hc as [-> ->]. cbn [negb orb raise_if].
    assert (∀ q nq hd seg sc mem, _rabit2_stage4d3_4_emit_tail_partial dev (FT := FT) q nq hd r seg sc mem wss
              = (Err RuntimeError, wss)) as He.
    { intros. unfold _rabit2_stage4d3_4_emit_tail_partial. destruct HN as [-> | ->]; [done|].
      by destruct (recent_k (rt_sidecar r)). }
    rewrite result_bind_ok, st_bind_eq. unfold st_lift. unfold decode_frame.
    destruct (negb _ || negb _); cbn; rewrite !st_bind_eq; by rewrite He.
Qed.
End Properties.
End DecodeState.

(** ** A concrete arithmetic *)

#[export] Instance SpecFloatZero : @TritonZero SpecFloatTorch.
Proof. by split; vm_compute. Qed.

Section Concrete.
#[local] Existing Instance FixedTorch.
#[local] Existing Instance FixedTriton.

#[local] Instance FixedZero : @TritonZero FixedTorch.
Proof. by split. Qed.

(** Sums in order, a linear stand-in for the exponential. *)
Definition FixedReduce : @TritonReduce FixedTorch :=
  @Build_TritonReduce FixedTorch (fold_right Z.add 0%Z) (λ x : Z, Z.max 0 (UNIT + x)) (- 2 ^ 40)%Z
    (λ d, (UNIT / Z.sqrt (Z.of_nat d))%Z).

(** [n] tokens of one head of 64 channels, all equal to [v]. *)
Definition fixed_chunk (n : nat) (v : Z) : tensor3 f32 * tensor3 f32 :=
  let x := mkTensor3 1 64 (replicate n (replicate 1 (replicate 64 (f32_of_int v)))) in (x, x).

Lemma fixed_chunk_ok n v : chunk_ok 1 64 (fixed_chunk n v).
Proof.
  assert (wf_tensor3 (fixed_chunk n v).1).
  { apply Forall_replicate. split; [done|]. apply Forall_replicate, length_replicate. }
  split; [done|]. split; [done|]. split; [|done].
  apply shape_eqb_spec. done.
Qed.

Definition fixed_chunks : list (tensor3 f32 * tensor3 f32) := [fixed_chunk 30 3; fixed_chunk 1 (-2); fixed_chunk 39 5].

Lemma fixed_decodable : decodable 1 64 4 [3; 0]%nat (zero_cache 5) fixed_chunks.
Proof.
  split; [apply one_head_runtime|]. split; [repeat constructor; apply fixed_chunk_ok|]. split; [vm_compute; lia|].
  split; [|split; [|split; [lia|by exists 4%nat]]].
  - split; [apply (bool_decide_unpack _); by vm_compute|]. split; [by vm_compute; lia|]. split; [repeat constructor|done].
  - unfold cache_ok. cbn [pc_pages zero_cache pc_width]. apply Forall_replicate. by rewrite length_replicate.
Qed.

Lemma fixed_regular : @open_group_regular FixedTorch FixedTriton FixedTriton_laws 1 2 fixed_chunks.
Proof.
  intros _. split; [done|]. unfold blocks_regular. repeat split; apply List.Forall_forall; done.
Qed.

(** C9 on 70 tokens, four query heads and an empty workspace table. *)
Lemma decode_attention_reads_sequence_witness :
  ∃ s0 s pages tail wss',
    runtime_start 1 64 (zero_cache 5) = Ok s0 ∧ runtime_run [3; 0]%nat fixed_chunks s0 = (Ok tt, s)
    ∧ read_pages [3; 0]%nat s = Ok pages ∧ tail_materialize (rs_runtime s) bf16_rounded = Ok tail
    ∧ workspaces_ok wss'
    ∧ decode_in_force (TE := zero_memory) (TA := FixedReduce) (FT := bf16_type (TE := zero_memory)) (0, 0)%Z true
        (rs_cache s) [3; 0]%nat (rs_runtime s) (mkQuery true [1; 4; 64]%nat (replicate 256 7%Z)) None ∅
      = (Ok (mkQuery true [1; 4; 64]%nat (map bf16_of_f32 (concat
               (split_attention (TA := FixedReduce) 4 1 64 (tail_block_of (rs_runtime s)) pages tail
                  (q_load (FT := bf16_type (TE := zero_memory)) (replicate 256 7%Z) 64)
                  (decode_scale (TA := FixedReduce) None 64))))), wss').
Proof.
  apply (decode_attention_reads_sequence (TE := zero_memory) (TA := FixedReduce) (TFL := FixedTorch_laws)
    (TL := FixedTriton_laws) (FT := bf16_type (TE := zero_memory)) 1 2 4 [3; 0]%nat (zero_cache 5) fixed_chunks);
    [apply fixed_decodable|apply fixed_regular|apply no_workspaces_ok].
Defined.

(** C21 on the same sequence. *)
Lemma decode_entries_agree_witness :
  ∃ s0 s out wss', let query := mkQuery true [1; 4; 64]%nat (replicate 256 7%Z) in
    runtime_start 1 64 (zero_cache 5) = Ok s0 ∧ runtime_run [3; 0]%nat fixed_chunks s0 = (Ok tt, s)
    ∧ decode_in_force (TE := zero_memory) (TA := FixedReduce) (FT := bf16_type (TE := zero_memory)) (0, 0)%Z true
        (rs_cache s) [3; 0]%nat (rs_runtime s) query None ∅ = (Ok out, wss')
    ∧ rabit2_online_decode_attention_triton_stage4b3_gqa4 (TE := zero_memory) (TA := FixedReduce)
        (FT := bf16_type (TE := zero_memory)) true (rs_cache s) [3; 0]%nat (rs_runtime s)
        (frozen_emit (TE := zero_memory) (TA := FixedReduce) (FT := bf16_type (TE := zero_memory))) query None ∅ = (Ok out, ∅)
    ∧ rabit2_online_decode_attention_triton_stage4b1_exactmeta (TE := zero_memory) (TA := FixedReduce)
        (FT := bf16_type (TE := zero_memory)) true (rs_cache s) [3; 0]%nat (rs_runtime s)
        (frozen_emit (TE := zero_memory) (TA := FixedReduce) (FT := bf16_type (TE := zero_memory))) query None ∅ = (Ok out, ∅).
Proof.
  apply (decode_entries_agree (TE := zero_memory) (TA := FixedReduce) (TFL := FixedTorch_laws)
    (TL := FixedTriton_laws) (FT := bf16_type (TE := zero_memory)) 1 2 4 [3; 0]%nat (zero_cache 5) fixed_chunks);
    [apply fixed_decodable|apply fixed_regular|apply no_workspaces_ok].
Defined.

(** On a two-dimensional query, and on a runtime that holds no token. *)
Lemma decode_attention_guards_witness :
  let run := decode_in_force (TE := zero_memory) (TA := FixedReduce) (FT := bf16_type (TE := zero_memory)) (0, 0)%Z
               true (zero_cache 5) [3; 0]%nat (rs_runtime (rt_of 1 64 [3; 0]%nat (zero_cache 5) [] [])) in
  run (mkQuery true [4; 64]%nat (replicate 256 7%Z)) None ∅ = (Err ValueError, ∅)
  ∧ run (mkQuery true [1; 4; 64]%nat (replicate 256 7%Z)) None ∅ = (Err RuntimeError, ∅).
Proof.
  split.
  - refine (proj1 (decode_attention_guards (TE := zero_memory) (TA := FixedReduce) (FT := bf16_type (TE := zero_memory))
      _ _ _ _ _ _ _ _) _).
    intros NQ d. discriminate.
  - refine (proj2 (proj2 (decode_attention_guards (TE := zero_memory) (TA := FixedReduce)
      (FT := bf16_type (TE := zero_memory)) _ _ _ _ _ _ _ _)) 4%nat 64%nat _ _ _);
      [reflexivity|reflexivity|left; reflexivity].
Defined.
End Concrete.
