(* ===== verification/Typing.v ===== *)
(** * The types of the serving state

    The tensors of [Rabit2SingleSequenceRuntime] and of [Rabit2CausalChunkPlan] have no
    static types: heads, channels, token counts, element widths and which fields are
    [None] are conventions between the methods.  This file writes the convention down
    and shows that every method keeps it on every outcome, exceptions included, over
    any state that has it, reachable or not. *)

From Stdlib Require Import ZArith Lia.
From stdpp Require Import base tactics numbers list option.
From S2P Require Import Prelude Layout Torch SpecFloatTorch BitPack Meta Quant Decoded Page Sidecar Tail.
From S2P Require Import OnlineRef Runtime Bulk ChunkPlan DecodeState.

(** ** Tensors *)

Definition tensor_typed {A} (P : A → Prop) (h d n : nat) (t : tensor3 A) : Prop :=
  t_heads t = h ∧ t_dim t = d ∧ t_tokens t = n ∧ Forall (λ tok, wf_row h d tok ∧ Forall (Forall P) tok) (t_rows t).

(** A BF16 pattern; any float32. *)
Definition word16 (x : Z) : Prop := (0 ≤ x < 65536)%Z.
Definition anything {A} (x : A) : Prop := True.

Section Tensors.
Context {A : Type} {P : A → Prop}.

Lemma typed_cat h d n m (a b : tensor3 A) :
  tensor_typed P h d n a → tensor_typed P h d m b → tensor_typed P h d (n + m) (cat_tensor (Some a) b).
Proof.
  intros (H1 & H2 & H3 & H4) (G1 & G2 & G3 & G4). unfold tensor_typed, cat_tensor, t_tokens in *. cbn [t_heads t_dim t_rows].
  rewrite length_app. split; [done|]. split; [done|]. split; [lia|]. by apply Forall_app.
Qed.

Lemma typed_slice h d n a b (t : tensor3 A) : (b ≤ n)%nat → tensor_typed P h d n t → tensor_typed P h d (b - a) (t_slice a b t).
Proof.
  intros Hb (H1 & H2 & H3 & H4). unfold tensor_typed, t_slice, t_tokens in *. cbn [t_heads t_dim t_rows].
  split; [done|]. split; [done|]. split; [rewrite slice_length; lia|]. by apply Forall_take, Forall_drop.
Qed.

Lemma typed_drop h d n a (t : tensor3 A) : tensor_typed P h d n t → tensor_typed P h d (n - a) (t_drop a t).
Proof.
  intros (H1 & H2 & H3 & H4). unfold tensor_typed, t_drop, t_tokens in *. cbn [t_heads t_dim t_rows].
  split; [done|]. split; [done|]. split; [rewrite length_drop; lia|]. by apply Forall_drop.
Qed.

Lemma typed_take h d n a (t : tensor3 A) : (a ≤ n)%nat → tensor_typed P h d n t → tensor_typed P h d a (t_take a t).
Proof.
  intros Ha (H1 & H2 & H3 & H4). unfold tensor_typed, t_take, t_tokens in *. cbn [t_heads t_dim t_rows].
  split; [done|]. split; [done|]. split; [rewrite length_take; lia|]. by apply Forall_take.
Qed.

Lemma typed_nil h d : tensor_typed P h d 0 (mkTensor3 h d []).
Proof. by repeat split; constructor. Qed.

Lemma typed_wf h d n (t : tensor3 A) : tensor_typed P h d n t → Forall (wf_row h d) (t_rows t).
Proof. intros (_ & _ & _ & H). eapply Forall_impl; [|exact H]. by intros tok []. Qed.
End Tensors.

(** [x is None] and [torch.cat] with it. *)
Lemma typed_cat_option {A} (P : A → Prop) h d n m (a : option (tensor3 A)) (b : tensor3 A) :
  match a with Some t => tensor_typed P h d n t | None => n = 0%nat end →
  tensor_typed P h d m b → tensor_typed P h d (n + m) (cat_tensor a b).
Proof. destruct a as [a|]; [apply typed_cat|]. intros -> H. exact H. Qed.

(** ** Sidecars *)

Section Types.
Context `{TF : TorchFloat} {TFL : TorchFloatLaws TF}.
Variables (h d : nat).

Definition packed_width : nat := ((v_pad_dim_of d * 2 + 7) / 8)%nat.

(** The four tensors of an open group of [n] tokens. *)
Definition open_typed (n : nat) (ok vp : tensor3 Z) (vmn vsc : tensor3 f32) : Prop :=
  tensor_typed word16 h d n ok ∧ tensor_typed byte_ok h packed_width n vp
  ∧ tensor_typed anything h (v_groups_of d) n vmn ∧ tensor_typed anything h (v_groups_of d) n vsc.

(** All four, of some tokens, or none. *)
Definition open_fields (n : nat) (sc : Sidecar) : Prop :=
  match open_k sc, open_v_packed sc, open_v_min sc, open_v_scale sc with
  | Some ok, Some vp, Some vmn, Some vsc => (0 < n)%nat ∧ open_typed n ok vp vmn vsc
  | None, None, None, None => n = 0%nat
  | _, _, _, _ => False
  end.

(** Both or none; [m] tokens. *)
Definition recent_fields (m : nat) (sc : Sidecar) : Prop :=
  match recent_k sc, recent_v sc with
  | Some rk, Some rv => tensor_typed word16 h d m rk ∧ tensor_typed word16 h d m rv
  | None, None => m = 0%nat
  | _, _ => False
  end.

Definition sidecar_typed (bound : nat) (sc : Sidecar) : Prop :=
  (∃ n, open_fields n sc) ∧ ∃ m, (m ≤ bound)%nat ∧ recent_fields m sc.

(** The runtime; the runtime with its cache. *)
Definition runtime_typed (r : Rabit2SingleSequenceRuntime) : Prop :=
  rt_num_kv_heads r = h ∧ rt_head_size_k r = d ∧ rt_head_size_v r = d ∧ rt_layout r = layout_of GROUP h d d
  ∧ sidecar_typed RESIDUAL (rt_sidecar r).

Definition state_typed (s : RtState) : Prop := runtime_typed (rs_runtime s) ∧ cache_ok (rs_cache s).

End Types.

Section Operations.
Context `{TF : TorchFloat} {TFL : TorchFloatLaws TF}.
Variables (h d : nat).

(** ** New tensors *)

Lemma typed_to_bf16 (x : tensor3 f32) : wf_tensor3 x → tensor_typed word16 (t_heads x) (t_dim x) (t_tokens x) (to_bf16 x).
Proof.
  intros H. unfold tensor_typed, to_bf16, t_map, t_tokens, map3. cbn [t_heads t_dim t_rows]. rewrite length_map.
  do 3 (split; [done|]). rewrite Forall_map. eapply Forall_impl; [|exact H]. intros tok Htok.
  split; [by apply wf_row_map|]. rewrite Forall_map. apply List.Forall_forall. intros row _. rewrite Forall_map.
  apply List.Forall_forall. intros v _. apply bf16_of_f32_range.
Qed.

(** The V2 quantizer succeeds and its tensors are typed. *)
Lemma quantize_typed n (v : tensor3 Z) :
  tensor_typed word16 h d n v →
  ∃ vp vmn vsc pad, _quantize_v2_primary_ref (t_map f32_of_bf16 v) GROUP = Ok (vp, vmn, vsc, pad)
  ∧ tensor_typed byte_ok h (packed_width d) n vp ∧ tensor_typed anything h (v_groups_of d) n vmn ∧ tensor_typed anything h (v_groups_of d) n vsc.
Proof.
  intros Hv. pose proof (typed_wf h d n v Hv) as Hwf. destruct Hv as (E1 & E2 & E3 & _).
  unfold t_map. rewrite E1, E2. change (map3 f32_of_bf16 (t_rows v)) with (widen (t_rows v)).
  assert (Forall (wf_row h d) (widen (t_rows v))) as Hw by (by apply widen_wf).
  rewrite v_primary_quantize by done. do 4 eexists. split; [reflexivity|].
  assert (∀ E (f : list f32 → E), length (map (map f) (widen (t_rows v))) = n) as Hl
    by (intros E f; rewrite length_map, widen_length; exact E3).
  assert (∀ w (rows : list (list (list f32))), Forall (wf_row h w) rows → length rows = n → tensor_typed anything h w n (mkTensor3 h w rows)) as Ha.
  { intros w rows Hr El. split; [done|]. split; [done|]. split; [done|]. eapply Forall_impl; [|exact Hr]. intros tok Htok.
    split; [done|]. apply List.Forall_forall. intros row _. by apply List.Forall_forall. }
  split; [|split; apply Ha; try apply Hl; [by apply v_mins_wf|by apply v_scales_wf]].
  split; [done|]. split; [done|]. split.
  - unfold v_packed_rows, v_codes, t_tokens. cbn [t_rows]. rewrite length_map. apply Hl.
  - pose proof (v_packed_rows_wf h d _ Hw) as Hp. unfold v_packed_rows in *. cbn [t_rows]. rewrite Forall_map in Hp |- *.
    eapply Forall_impl; [|exact Hp]. intros tok Htok. split; [exact Htok|]. rewrite Forall_map. apply List.Forall_forall.
    intros codes _. apply stream_row_byte_ok.
Qed.

(** ** Pages *)

Lemma store_parts_length err parts : ∀ page page', store_parts err parts page = Ok page' → length page' = length page.
Proof.
  induction parts as [|[[off size] blob] parts IH]; intros page page' H; cbn [store_parts] in H; [by injection H as <-|].
  destruct (negb (Z.of_nat (length blob) =? size)%Z); [done|]. cbn [raise_if] in H. rewrite result_bind_ok in H.
  unfold store_region in H. destruct (Nat.eqb_spec (length (region page off size)) (length blob)) as [El|]; [|done].
  cbn [negb raise_if] in H. rewrite !result_bind_ok in H. rewrite (IH _ _ H). unfold region in El. rewrite slice_length in El.
  rewrite !length_app, length_take, length_drop. lia.
Qed.

Lemma page_bytes_nonneg : (0 ≤ page_bytes (layout_of GROUP h d d))%Z.
Proof. unfold layout_of. cbn [page_bytes]. lia. Qed.

Lemma zero_page_length : Z.of_nat (length (zero_page (layout_of GROUP h d d))) = page_bytes (layout_of GROUP h d d).
Proof. unfold zero_page. rewrite length_replicate, Z2Nat.id; [done|apply page_bytes_nonneg]. Qed.

Lemma primary_page_length err key_page vp vmn vsc page :
  encode_page_from_primary err (layout_of GROUP h d d) key_page vp vmn vsc = Ok page →
  Z.of_nat (length page) = page_bytes (layout_of GROUP h d d).
Proof.
  unfold encode_page_from_primary, encode_page_from_metas. intros H.
  destruct (encode_v_meta vmn); [|done]. rewrite result_bind_ok in H. destruct (encode_v_meta vsc); [|done]. rewrite result_bind_ok in H.
  destruct (quantize_k3_sequence_affine_ref _ _ _); [|done]. rewrite result_bind_ok in H.
  apply store_parts_length in H. rewrite H. apply zero_page_length.
Qed.

(** ** The methods *)

Definition kept {S} (I : S → Prop) (s s' : S) : Prop := I s → I s'.
#[local] Instance kept_preorder {S} (I : S → Prop) : PreOrder (kept I).
Proof. split; unfold kept; [by intros s|intros s1 s2 s3; tauto]. Qed.

Section Methods.
Variable bt : list nat.

Lemma index_copy_typed i page c c' :
  cache_ok c → Z.of_nat (length page) = pc_width c → index_copy i page c = Ok c' → cache_ok c' ∧ pc_width c' = pc_width c.
Proof.
  unfold index_copy. intros Hc Hp H. destruct (length (pc_pages c) <=? i)%nat; [done|]. cbn [raise_if] in H.
  rewrite result_bind_ok in H. injection H as <-. split; [|done]. by apply Forall_insert.
Qed.

Lemma flush_typed s : st_at (kept (state_typed h d)) s (_flush_open_page bt).
Proof.
  unfold _flush_open_page. apply at_get, (at_lift_bind _). intros page Ep. apply (at_raise_bind _).
  unfold st_at. rewrite st_bind_eq. unfold st_raise_if, st_lift.
  destruct (Z.eqb_spec (pc_width (rs_cache s)) (page_bytes (rt_layout (rs_runtime s)))) as [Ew|_]; cbn [negb raise_if]; [|by intros Hs].
  rewrite st_bind_eq. destruct (index_copy _ page (rs_cache s)) as [c'|e] eqn:Ec; [|by intros Hs].
  intros [(E1 & E2 & E3 & E4 & [_ (m & Hm & Hr)]) Hc]. cbn [st_put snd]. rewrite E4 in Ew.
  assert (Z.of_nat (length page) = pc_width (rs_cache s)) as Hp.
  { rewrite Ew. unfold _closed_page_exact in Ep. destruct (open_k _); [|done]. destruct (open_v_packed _); [|done].
    destruct (open_v_min _); [|done]. destruct (open_v_scale _); [|done].
    destruct (negb _); [done|]. cbn [raise_if] in Ep. rewrite result_bind_ok, E4 in Ep. by apply primary_page_length in Ep. }
  destruct (index_copy_typed _ _ _ _ Hc Hp Ec) as [Hc' _]. split; [|exact Hc'].
  split; [done|]. split; [done|]. split; [done|]. split; [done|]. split; [by exists 0%nat|]. by exists m.
Qed.

(** [push_recent], [drop_oldest] and [push_open] on typed fields. *)
Lemma push_recent_typed m sc (k v : tensor3 f32) :
  recent_fields h d m sc → tensor_typed anything h d 1 k → tensor_typed anything h d 1 v →
  ∃ rk rv, recent_k (push_recent k v sc) = Some rk ∧ recent_v (push_recent k v sc) = Some rv
  ∧ tensor_typed word16 h d (m + 1) rk ∧ tensor_typed word16 h d (m + 1) rv.
Proof.
  intros Hr Hk Hv. assert (∀ x : tensor3 f32, tensor_typed anything h d 1 x → tensor_typed word16 h d 1 (to_bf16 x)) as Hb.
  { intros x Hx. pose proof (typed_wf h d 1 x Hx) as Hw. destruct Hx as (E1 & E2 & E3 & _). rewrite <-E1, <-E2, <-E3.
    apply typed_to_bf16. unfold wf_tensor3. by rewrite E1, E2. }
  do 2 eexists. split; [reflexivity|]. split; [reflexivity|]. unfold recent_fields in Hr.
  destruct (recent_k sc), (recent_v sc); try done.
  - destruct Hr as [H1 H2]. split; apply typed_cat; auto.
  - subst m. split; apply Hb; done.
Qed.

Lemma push_open_typed n sc ok vp vmn vsc :
  open_fields h d n sc → open_typed h d 1 ok vp vmn vsc → open_fields h d (n + 1) (push_open ok vp vmn vsc sc).
Proof.
  unfold open_fields. intros H (G1 & G2 & G3 & G4). cbn [push_open open_k open_v_packed open_v_min open_v_scale].
  destruct (open_k sc), (open_v_packed sc), (open_v_min sc), (open_v_scale sc); try done.
  - destruct H as (_ & H1 & H2 & H3 & H4). split; [lia|]. split; [|split; [|split]]; by apply typed_cat.
  - subst n. split; [lia|]. by split.
Qed.

(** A runtime with another typed sidecar. *)
Lemma set_sidecar_typed sc s :
  state_typed h d s → sidecar_typed h d RESIDUAL sc → state_typed h d (mkRt (runtime_set_sidecar sc (rs_runtime s)) (rs_cache s)).
Proof. intros [(E1 & E2 & E3 & E4 & _) Hc] Hsc. split; [exact (conj E1 (conj E2 (conj E3 (conj E4 Hsc))))|done]. Qed.

(** One token of [append], whatever comes of it. *)
Lemma append_one_typed (k_one v_one : tensor3 f32) s :
  tensor_typed anything h d 1 k_one → tensor_typed anything h d 1 v_one →
  st_at (kept (state_typed h d)) s (@append_one _ _ (runtime_owner bt) k_one v_one).
Proof.
  intros Hk Hv. unfold st_at. intros Hs. pose proof Hs as [(_ & _ & _ & _ & [(n & Ho) (m & Hm & Hr)]) _].
  set (sc := rt_sidecar (rs_runtime s)) in *. destruct (push_recent_typed m sc k_one v_one Hr Hk Hv) as (rk & rv & Ek & Ev & Trk & Trv).
  unfold append_one, modify_sidecar. rewrite st_bind_eq. cbn [st_modify]. rewrite st_bind_eq. cbn [st_get].
  cbn [owner_sidecar owner_update runtime_owner rs_runtime rt_sidecar runtime_set_sidecar]. fold sc. rewrite Ek, Ev.
  set (s1 := mkRt (runtime_set_sidecar (push_recent k_one v_one sc) (rs_runtime s)) (rs_cache s)).
  assert (t_tokens rk = m + 1)%nat as Et by apply Trk. rewrite Et.
  destruct (Nat.ltb_spec RESIDUAL (m + 1)) as [Hgt|Hle].
  2: { apply (set_sidecar_typed _ s Hs). split; [exists n; exact Ho|]. exists (m + 1)%nat. split; [done|].
       unfold recent_fields. rewrite Ek, Ev. by split. }
  rewrite st_bind_eq. cbn [st_modify]. unfold append_aged. rewrite st_bind_eq. unfold st_lift at 1.
  assert (tensor_typed word16 h d 1 (t_slice 0 1 rk) ∧ tensor_typed word16 h d 1 (t_slice 0 1 rv)) as [Tk Tv]
    by (split; apply (typed_slice h d (m + 1)); (lia || done)).
  destruct (quantize_typed 1 (t_slice 0 1 rv) Tv) as (vp & vmn & vsc & pad & -> & T1 & T2 & T3).
  rewrite st_bind_eq. unfold modify_sidecar. cbn [st_modify]. rewrite st_bind_eq. cbn [st_get].
  cbn [owner_sidecar owner_update owner_flush runtime_owner rs_runtime rt_sidecar runtime_set_sidecar].
  match goal with |- context [push_open _ _ _ _ ?x] => set (sc2 := x) end.
  assert (sidecar_typed h d RESIDUAL (push_open (t_slice 0 1 rk) vp vmn vsc sc2)) as Hsc.
  { split.
    - exists (n + 1)%nat. apply push_open_typed; [exact Ho|]. exact (conj Tk (conj T1 (conj T2 T3))).
    - exists (m + 1 - 1)%nat. split; [lia|]. unfold recent_fields.
      change (recent_k (push_open _ _ _ _ sc2)) with (t_drop 1 <$> recent_k (push_recent k_one v_one sc)).
      change (recent_v (push_open _ _ _ _ sc2)) with (t_drop 1 <$> recent_v (push_recent k_one v_one sc)).
      rewrite Ek, Ev. split; by apply typed_drop. }
  pose proof (set_sidecar_typed _ s Hs Hsc) as Hs'. destruct (_ =? GROUP)%nat; [|exact Hs']. exact (flush_typed _ Hs').
Qed.

Lemma slice_of_chunk n i (x : tensor3 f32) :
  wf_tensor3 x → t_heads x = h → t_dim x = d → t_tokens x = n → (i < n)%nat → tensor_typed anything h d 1 (t_slice i (i + 1) x).
Proof.
  intros Hw Eh Ed En Hi. replace 1%nat with (i + 1 - i)%nat at 1 by lia. apply (typed_slice h d n); [lia|].
  split; [done|]. split; [done|]. split; [done|]. unfold wf_tensor3 in Hw. rewrite Eh, Ed in Hw.
  eapply Forall_impl; [|exact Hw]. intros tok Htok. split; [done|]. apply List.Forall_forall. intros row _. by apply List.Forall_forall.
Qed.

Lemma runtime_append_typed (key value : tensor3 f32) s :
  wf_tensor3 key → wf_tensor3 value → st_at (kept (state_typed h d)) s (runtime_append bt key value).
Proof.
  intros Wk Wv. unfold runtime_append, append, st_at. intros Hs. rewrite st_bind_eq. unfold st_raise_if, st_lift.
  destruct (shape_eqb key value) eqn:Esh; [|exact Hs]. cbn [negb raise_if]. rewrite st_bind_eq. cbn [st_get].
  apply shape_eqb_spec in Esh as (Et & Eh & Ed). pose proof Hs as [(E1 & E2 & E3 & _) _].
  cbn [owner_geometry runtime_owner]. rewrite E1, E2, E3. rewrite st_bind_eq.
  destruct (Nat.eqb_spec (t_heads key) h) as [Hh|]; [|exact Hs]. destruct (Nat.eqb_spec (t_dim key) d) as [Hd|]; [|exact Hs].
  cbn [negb orb raise_if]. rewrite st_bind_eq. destruct (Nat.eqb_spec (t_dim value) d) as [Hd'|]; [|exact Hs]. cbn [negb raise_if].
  revert Hs. change (st_at (kept (state_typed h d)) s (st_for (seq 0 (t_tokens key))
    (λ i, @append_one _ _ (runtime_owner bt) (t_slice i (i + 1) key) (t_slice i (i + 1) value)))).
  apply (at_for_in _). intros i s' Hi%in_seq. apply append_one_typed.
  - apply (slice_of_chunk (t_tokens key)); (done || lia).
  - apply (slice_of_chunk (t_tokens key)); (done || congruence || lia).
Qed.

(** ** Bulk append and chunk plans *)

Lemma result_map_made {A B} (f : A → result B) l : ∀ ys, result_map f l = Ok ys → Forall (λ y, ∃ x, f x = Ok y) ys.
Proof.
  induction l as [|x l IH]; intros ys H; cbn [result_map] in H; [injection H as <-; constructor|].
  destruct (f x) as [y|] eqn:E; [|done]. rewrite result_bind_ok in H. destruct (result_map f l) as [zs|]; [|done].
  rewrite result_bind_ok in H. injection H as <-. constructor; [by exists x|by apply IH].
Qed.

(** A page writer keeps the blocks at the width of the cache. *)
Definition writer_typed (w : Rabit2SingleSequenceRuntime → tensor3 Z → tensor3 Z → tensor3 f32 → tensor3 f32 → nat →
    list nat → nat → PageCache → result (nat * PageCache)) : Prop :=
  ∀ r k vp mn sc full start c n c', rt_layout r = layout_of GROUP h d d → cache_ok c →
    w r k vp mn sc full bt start c = Ok (n, c') → cache_ok c'.

Lemma index_copy_many_typed ids pages c c' :
  cache_ok c → Forall (λ p, Z.of_nat (length p) = page_bytes (layout_of GROUP h d d)) pages →
  index_copy_many ids (page_bytes (layout_of GROUP h d d)) pages c = Ok c' → cache_ok c'.
Proof.
  unfold index_copy_many. intros Hc Hp H. destruct (Z.eqb_spec (pc_width c) (page_bytes (layout_of GROUP h d d))) as [E|]; [|done].
  cbn [negb raise_if] in H. rewrite result_bind_ok in H. destruct (existsb _ ids); [done|]. cbn [raise_if] in H.
  rewrite result_bind_ok in H. injection H as <-. apply write_pages_ok; [done|]. by rewrite E.
Qed.

Lemma stage4d2_writer_typed : writer_typed _rabit2_stage4d2_write_full_pages.
Proof.
  intros r k vp mn sc full start c n c' El Hc H. unfold _rabit2_stage4d2_write_full_pages in H.
  destruct (full =? 0)%nat; [by injection H as <- <-|]. destruct (_rabit2_stage4d2_encode_pages_vectorized_exact _ _ _ _ _ _) as [pages|] eqn:Ep; [|done].
  rewrite result_bind_ok in H. destruct (length bt <? start + full)%nat; [done|]. cbn [raise_if] in H. rewrite result_bind_ok in H.
  destruct (index_copy_many _ _ pages c) as [c2|] eqn:Ec; [|done]. rewrite result_bind_ok in H. injection H as <- <-.
  rewrite El in Ec. apply (index_copy_many_typed _ _ _ _ Hc) in Ec; [done|].
  unfold _rabit2_stage4d2_encode_pages_vectorized_exact in Ep. destruct (negb (t_heads k =? _)%nat); [done|]. cbn [raise_if] in Ep. rewrite result_bind_ok in Ep.
  destruct (negb (t_dim k =? _)%nat); [done|]. cbn [raise_if] in Ep. rewrite result_bind_ok in Ep. apply result_map_made in Ep.
  eapply Forall_impl; [|exact Ep]. intros page [i E]. cbv beta in E. rewrite El in E. unfold vec_encode_page in E.
  destruct (_rabit2_stage4d2_pack_int3_direct_exact _ _); [|done]. rewrite result_bind_ok in E.
  apply store_parts_length in E. rewrite E. apply zero_page_length.
Qed.

Lemma stage4b4_writer_typed : writer_typed stage4b4_write_full_pages.
Proof.
  intros r k vp mn sc full start c n c' El Hc H. unfold stage4b4_write_full_pages in H.
  destruct (full =? 0)%nat; [by injection H as <- <-|]. destruct (stage4b4_pages _ _ _ _ _ _) as [pages|] eqn:Ep; [|done].
  rewrite result_bind_ok in H. destruct (length bt <? start + full)%nat; [done|]. cbn [raise_if] in H. rewrite result_bind_ok in H.
  destruct (index_copy_many _ _ pages c) as [c2|] eqn:Ec; [|done]. rewrite result_bind_ok in H. injection H as <- <-.
  rewrite El in Ec. apply (index_copy_many_typed _ _ _ _ Hc) in Ec; [done|]. apply result_map_made in Ep.
  eapply Forall_impl; [|exact Ep]. intros page [i E]. cbv beta zeta in E. rewrite El in E. by apply primary_page_length in E.
Qed.

(** The residual with a chunk behind it. *)
Lemma combined_recent_typed m sc (k v : tensor3 Z) t :
  recent_fields h d m sc → tensor_typed word16 h d t k → tensor_typed word16 h d t v →
  tensor_typed word16 h d (m + t) (cat_tensor (recent_k sc) k)
  ∧ ∃ rv, (match recent_k sc, recent_v sc with
           | None, _ => Ok v | Some _, Some rv => Ok (cat_tensor (Some rv) v) | Some _, None => Err TypeError end) = Ok rv
    ∧ tensor_typed word16 h d (m + t) rv.
Proof.
  unfold recent_fields. intros Hr Hk Hv. destruct (recent_k sc), (recent_v sc); try done.
  - destruct Hr as [H1 H2]. split; [by apply typed_cat|]. eexists. split; [reflexivity|]. by apply typed_cat.
  - subst m. split; [done|]. by exists v.
Qed.

(** The open group with aged tokens behind it. *)
Lemma combined_open_typed n r ok vp vmn vsc aged :
  open_fields h d n (rt_sidecar r) → open_typed h d aged ok vp vmn vsc →
  ∃ all_vp all_vmn all_vsc, cat_open r (open_v_packed (rt_sidecar r)) vp = Ok all_vp
  ∧ cat_open r (open_v_min (rt_sidecar r)) vmn = Ok all_vmn ∧ cat_open r (open_v_scale (rt_sidecar r)) vsc = Ok all_vsc
  ∧ open_typed h d (n + aged) (cat_tensor (open_k (rt_sidecar r)) ok) all_vp all_vmn all_vsc.
Proof.
  unfold open_fields, cat_open. intros Ho (G1 & G2 & G3 & G4).
  destruct (open_k (rt_sidecar r)), (open_v_packed (rt_sidecar r)), (open_v_min (rt_sidecar r)), (open_v_scale (rt_sidecar r)); try done.
  - destruct Ho as (_ & H1 & H2 & H3 & H4). do 3 eexists. do 3 (split; [reflexivity|]). split; [|split; [|split]]; by apply typed_cat.
  - subst n. exists vp, vmn, vsc. exact (conj eq_refl (conj eq_refl (conj eq_refl (conj G1 (conj G2 (conj G3 G4)))))).
Qed.

(** The argument checks. *)
Lemma chunk_guards_typed r (key value : tensor3 f32) :
  runtime_typed h d r → wf_tensor3 key → wf_tensor3 value → chunk_guards r key value = Ok tt →
  tensor_typed word16 h d (t_tokens key) (to_bf16 key) ∧ tensor_typed word16 h d (t_tokens key) (to_bf16 value).
Proof.
  intros (E1 & E2 & E3 & _) Wk Wv. unfold chunk_guards. rewrite E1, E2, E3.
  destruct (shape_eqb key value) eqn:Esh; [|done]. apply shape_eqb_spec in Esh as (Et & Eh & Ed). cbn [negb raise_if]. rewrite result_bind_ok.
  destruct (Nat.eqb_spec (t_heads key) h) as [Hh|]; [|done]. destruct (Nat.eqb_spec (t_dim key) d) as [Hd|]; [|done]. intros _.
  pose proof (typed_to_bf16 key Wk) as T1. pose proof (typed_to_bf16 value Wv) as T2. rewrite <-Et, <-Eh, <-Ed in T2.
  rewrite Hh, Hd in T1, T2. by split.
Qed.

Lemma bulk_append_typed w (key value : tensor3 f32) s :
  writer_typed w → wf_tensor3 key → wf_tensor3 value → st_at (kept (state_typed h d)) s (bulk_append w bt key value).
Proof.
  intros Hw Wk Wv. unfold bulk_append, st_at. intros Hs. rewrite st_bind_eq. cbn [st_get]. rewrite st_bind_eq. unfold st_lift at 1.
  pose proof Hs as [Hrt Hc]. destruct (chunk_guards (rs_runtime s) key value) as [[]|] eqn:Eg; [|exact Hs].
  destruct (chunk_guards_typed _ _ _ Hrt Wk Wv Eg) as [Tk Tv]. pose proof Hrt as (_ & _ & _ & El & [(n & Ho) (m & Hm & Hr)]).
  destruct (t_tokens key =? 0)%nat; [exact Hs|]. cbv zeta.
  destruct (combined_recent_typed m _ _ _ _ Hr Tk Tv) as (Tck & rv & Erv & Tcv). rewrite st_bind_eq. unfold st_lift at 1. rewrite Erv.
  set (ck := cat_tensor (recent_k (rt_sidecar (rs_runtime s))) (to_bf16 key)) in *. set (t := t_tokens key) in *.
  assert (t_tokens ck = m + t)%nat as -> by apply Tck.
  destruct (Nat.eqb_spec (m + t - RESIDUAL) 0) as [E0|E0].
  { cbn [st_modify]. unfold st_modify. cbn [snd]. apply (set_sidecar_typed _ s Hs). split; [by exists n|].
    exists (m + t)%nat. split; [lia|]. by split. }
  set (aged := (m + t - RESIDUAL)%nat) in *. assert (aged ≤ m + t)%nat as Hag by (unfold aged; lia).
  rewrite st_bind_eq. unfold st_lift at 1. unfold _rabit2_stage4b4_exact_v2_batch.
  destruct (quantize_typed aged (t_take aged rv) (typed_take h d (m + t) aged rv Hag Tcv)) as (vp & vmn & vsc & pad & -> & T1 & T2 & T3).
  destruct (combined_open_typed n (rs_runtime s) (t_take aged ck) vp vmn vsc aged Ho
    (conj (typed_take h d (m + t) aged ck Hag Tck) (conj T1 (conj T2 T3)))) as (avp & avmn & avsc & E1 & E2 & E3 & Tall).
  rewrite st_bind_eq. unfold st_lift at 1. rewrite E1. rewrite st_bind_eq. unfold st_lift at 1. rewrite E2.
  rewrite st_bind_eq. unfold st_lift at 1. rewrite E3.
  set (all_k := cat_tensor (open_k (rt_sidecar (rs_runtime s))) (t_take aged ck)) in *.
  rewrite st_bind_eq. unfold st_lift at 1.
  destruct (w _ _ _ _ _ _ _ _ _) as [[closed c']|] eqn:Ew; [|exact Hs]. apply (Hw _ _ _ _ _ _ _ _ _ _ El Hc) in Ew.
  cbn [fst snd]. unfold st_put. cbn [snd]. split; [|exact Ew]. destruct Hrt as (R1 & R2 & R3 & R4 & _).
  split; [done|]. split; [done|]. split; [done|]. split; [done|]. cbn [rt_sidecar runtime_set_sidecar rs_runtime set_closed]. split.
  - assert (t_tokens all_k = n + aged)%nat as -> by apply Tall. unfold set_open.
    destruct (Nat.eqb_spec ((n + aged) mod GROUP) 0) as [|Hne]; [by exists 0%nat|]. destruct Tall as (A1 & A2 & A3 & A4).
    exists (n + aged - (n + aged) / GROUP * GROUP)%nat. split; [pose proof (Nat.div_mod_eq (n + aged) GROUP); lia|]. split; [|split; [|split]]; by apply typed_drop.
  - exists (m + t - aged)%nat. split; [unfold aged; lia|]. split; by apply typed_drop.
Qed.

(** The windows of a plan: what was quantized is the open group, the aged tokens of
    the residual and of the chunk; the rest is the residual and the chunk. *)
Definition plan_typed (p : Rabit2CausalChunkPlan) : Prop :=
  let total := (cp_init_recent_len p + cp_num_tokens p)%nat in
  tensor_typed word16 h d total (cp_combined_recent_k p) ∧ tensor_typed word16 h d total (cp_combined_recent_v p)
  ∧ open_typed h d (cp_init_open_len p + (total - RESIDUAL)) (cp_all_k p) (cp_all_vp p) (cp_all_vmn p) (cp_all_vsc p).

Lemma open_fields_len n sc : open_fields h d n sc → tensor_len (open_k sc) = n.
Proof.
  unfold open_fields. destruct (open_k sc), (open_v_packed sc), (open_v_min sc), (open_v_scale sc); try done.
  by intros (_ & (_ & _ & E & _) & _).
Qed.

Lemma recent_fields_len m sc : recent_fields h d m sc → tensor_len (recent_k sc) = m.
Proof. unfold recent_fields. destruct (recent_k sc), (recent_v sc); try done. by intros ((_ & _ & E & _) & _). Qed.

Hypothesis (H32 : (32 | d)%nat).

Lemma plan_v2_typed r aged (crv : tensor3 Z) total :
  runtime_typed h d r → tensor_typed word16 h d total crv → (aged ≤ total)%nat →
  ∃ vp vmn vsc, plan_v2 r aged crv = Ok (vp, vmn, vsc) ∧ tensor_typed byte_ok h (packed_width d) aged vp
  ∧ tensor_typed anything h (v_groups_of d) aged vmn ∧ tensor_typed anything h (v_groups_of d) aged vsc.
Proof.
  intros (E1 & E2 & E3 & _) T Ha. unfold plan_v2. destruct (Nat.eqb_spec aged 0) as [->|Hne].
  - rewrite E1, E3. change 2%Z with (Z.of_nat 2). rewrite rabit2_packed_dim_nat by lia. rewrite result_bind_ok, Nat2Z.id.
    assert (packed_dim_nat d 2 = packed_width d) as ->.
    { unfold packed_dim_nat, packed_width, v_pad_dim_of. destruct H32 as [q Hq]. rewrite Hq.
      assert ((q * 32 + 31) / 32 = q)%nat as -> by (rewrite Nat.div_add_l, (Nat.div_small 31) by lia; lia). done. }
    assert ((d + GROUP - 1) / GROUP = v_groups_of d)%nat as ->
      by (unfold v_groups_of, GROUP; f_equal; lia).
    do 3 eexists. split; [reflexivity|]. split; [|split]; apply typed_nil.
  - unfold _rabit2_stage4b4_exact_v2_batch.
    destruct (quantize_typed aged (t_take aged crv) (typed_take h d total aged crv Ha T)) as (vp & vmn & vsc & pad & -> & T1 & T2 & T3).
    rewrite result_bind_ok. by exists vp, vmn, vsc.
Qed.

(** The constructor: a typed plan, and a typed state on any outcome. *)
Definition init_typed (out : result Rabit2CausalChunkPlan * RtState) : Prop :=
  state_typed h d out.2 ∧ match out.1 with Ok p => plan_typed p | Err _ => True end.

Lemma plan_init_typed w (key value : tensor3 f32) s :
  writer_typed w → wf_tensor3 key → wf_tensor3 value → state_typed h d s → init_typed (plan_init w bt key value s).
Proof.
  intros Hw Wk Wv Hs. unfold plan_init. rewrite st_bind_eq. cbn [st_get]. rewrite st_bind_eq. unfold st_lift at 1.
  pose proof Hs as [Hrt Hc]. destruct (chunk_guards (rs_runtime s) key value) as [[]|] eqn:Eg; [|by split].
  destruct (chunk_guards_typed _ _ _ Hrt Wk Wv Eg) as [Tk Tv]. pose proof Hrt as (E1 & E2 & E3 & El & [(n & Ho) (m & Hm & Hr)]).
  rewrite st_bind_eq. unfold st_raise_if, st_lift at 1. destruct (t_tokens key =? 0)%nat; [by split|]. cbn [raise_if]. cbv zeta.
  set (sc := rt_sidecar (rs_runtime s)) in *. rewrite E1, E2, E3.
  set (ek := mkTensor3 h d ([] : list (list (list Z)))). set (t := t_tokens key) in *.
  assert (tensor_typed word16 h d (m + t) (cat_tensor (Some (default ek (recent_k sc))) (to_bf16 key))
          ∧ tensor_typed word16 h d (m + t) (cat_tensor (Some (default ek (recent_v sc))) (to_bf16 value))) as [Tck Tcv].
  { unfold recent_fields in Hr. destruct (recent_k sc), (recent_v sc); try done; cbn [default].
    - destruct Hr as [R1 R2]. split; by apply typed_cat.
    - subst m. split; apply typed_cat; (done || apply typed_nil). }
  set (ck := cat_tensor (Some (default ek (recent_k sc))) (to_bf16 key)) in *.
  set (cv := cat_tensor (Some (default ek (recent_v sc))) (to_bf16 value)) in *.
  assert (t_tokens ck = m + t)%nat as -> by apply Tck. set (aged := (m + t - RESIDUAL)%nat).
  assert (aged ≤ m + t)%nat as Hag by (unfold aged; lia).
  rewrite st_bind_eq. unfold st_lift at 1.
  destruct (plan_v2_typed (rs_runtime s) aged cv (m + t) Hrt Tcv Hag) as (vp & vmn & vsc & -> & T1 & T2 & T3).
  set (aged_k := if (aged =? 0)%nat then ek else t_take aged ck).
  assert (tensor_typed word16 h d aged aged_k) as Tak.
  { unfold aged_k. destruct (Nat.eqb_spec aged 0) as [->|]; [apply typed_nil|by apply (typed_take h d (m + t))]. }
  destruct (combined_open_typed n (rs_runtime s) aged_k vp vmn vsc aged Ho (conj Tak (conj T1 (conj T2 T3))))
    as (avp & avmn & avsc & Q1 & Q2 & Q3 & Tall). fold sc in Q1, Q2, Q3, Tall.
  rewrite st_bind_eq. unfold st_lift at 1. rewrite Q1. rewrite st_bind_eq. unfold st_lift at 1. rewrite Q2.
  rewrite st_bind_eq. unfold st_lift at 1. rewrite Q3. rewrite st_bind_eq. unfold st_lift at 1.
  destruct (w _ _ _ _ _ _ _ _ _) as [[closed c']|] eqn:Ew; [|by split]. apply (Hw _ _ _ _ _ _ _ _ _ _ El Hc) in Ew.
  rewrite st_bind_eq. cbn [st_put fst snd mret ST_ret]. split; [exact (conj Hrt Ew)|]. cbn [fst]. unfold plan_typed.
  cbn [cp_init_recent_len cp_num_tokens cp_combined_recent_k cp_combined_recent_v cp_init_open_len cp_all_k cp_all_vp cp_all_vmn cp_all_vsc].
  rewrite (open_fields_len n sc Ho), (recent_fields_len m sc Hr). split; [exact Tck|]. split; [exact Tcv|exact Tall].
Qed.

Lemma window_typed {A} (P : A → Prop) w n a b (t : tensor3 A) :
  (b ≤ n)%nat → tensor_typed P h w n t →
  match window a b t with Some t' => tensor_typed P h w (b - a) t' | None => (b ≤ a)%nat end.
Proof. intros Hb Ht. unfold window. destruct (Nat.ltb_spec a b); [by apply (typed_slice h w n)|done]. Qed.

Lemma apply_step_typed step p s :
  plan_typed p → state_typed h d s →
  plan_typed (apply_step step (p, s)).2.1 ∧ state_typed h d (apply_step step (p, s)).2.2.
Proof.
  intros Hp Hs. unfold apply_step. rewrite st_bind_eq. cbn [st_get]. rewrite st_bind_eq. unfold st_raise_if, st_lift.
  cbn [fst snd]. destruct (negb _); [by split|]. cbn [raise_if]. rewrite st_bind_eq.
  destruct (Z.ltb_spec step 0), (Z.leb_spec (Z.of_nat (cp_num_tokens p)) step); cbn [orb raise_if]; try (by split). cbn [st_put snd fst].
  split; [exact Hp|]. destruct Hs as [(E1 & E2 & E3 & El & _) Hc]. split; [|exact Hc].
  split; [exact E1|]. split; [exact E2|]. split; [exact E3|]. split; [exact El|]. cbn [rt_sidecar runtime_set_sidecar rs_runtime].
  destruct Hp as (Tk & Tv & (T1 & T2 & T3 & T4)).
  set (done' := (Z.to_nat step + 1)%nat). set (aged := (cp_init_recent_len p + done' - RESIDUAL)%nat).
  set (stop := (cp_init_open_len p + aged)%nat). set (start := (stop / GROUP * GROUP)%nat).
  assert (stop ≤ cp_init_open_len p + (cp_init_recent_len p + cp_num_tokens p - RESIDUAL))%nat as Hstop by (unfold stop, aged, done'; lia).
  assert (cp_init_recent_len p + done' ≤ cp_init_recent_len p + cp_num_tokens p)%nat as Hrec by (unfold done'; lia). split.
  - exists (stop - start)%nat. unfold open_fields. cbn [open_k open_v_packed open_v_min open_v_scale].
    pose proof (window_typed _ _ _ start stop _ Hstop T1) as W1. pose proof (window_typed _ _ _ start stop _ Hstop T2) as W2.
    pose proof (window_typed _ _ _ start stop _ Hstop T3) as W3. pose proof (window_typed _ _ _ start stop _ Hstop T4) as W4.
    unfold window in *. destruct (Nat.ltb_spec start stop) as [Hlt|]; [split; [lia|exact (conj W1 (conj W2 (conj W3 W4)))]|lia].
  - exists (cp_init_recent_len p + done' - aged)%nat. split; [unfold aged; lia|]. unfold recent_fields. cbn [recent_k recent_v].
    pose proof (window_typed _ _ _ aged _ _ Hrec Tk) as W1. pose proof (window_typed _ _ _ aged _ _ Hrec Tv) as W2.
    unfold window in *. destruct (aged <? _)%nat; [exact (conj W1 W2)|lia].
Qed.
End Methods.

(** A typed sidecar can be read: no field is missing and no width is wrong. *)
Lemma tail_materialize_typed r (to : f32 → f32) : runtime_typed h d r → is_Some (match tail_materialize r to with Ok x => Some x | Err _ => None end).
Proof.
  intros (_ & _ & E3 & _ & [(n & Ho) (m & _ & Hr)]). unfold tail_materialize. rewrite E3. set (sc := rt_sidecar r) in *.
  assert (∃ opened, decode_open sc d to = Ok opened) as [opened ->].
  { unfold open_fields in Ho. unfold decode_open.
    destruct (open_k sc) as [ok|]; [|by eexists]. destruct (open_v_packed sc) as [vp|]; [|done].
    destruct (open_v_min sc) as [vmn|]; [|done]. destruct (open_v_scale sc) as [vsc|]; [|done].
    destruct Ho as (Hn & T1 & T2 & T3 & _). pose proof (typed_wf _ _ _ _ T1) as Hw. destruct T1 as (H1 & H2 & H4 & _).
    destruct (k_dequantize_quantize_meta (t_map f32_of_bf16 ok) to) as (st & -> & Hk).
    { unfold wf_tensor3, t_map. cbn [t_heads t_dim t_rows]. rewrite H1, H2. by apply (widen_wf h d). }
    { unfold t_map, t_tokens, map3 in *. cbn [t_rows]. rewrite length_map. lia. }
    rewrite result_bind_ok, Hk, result_bind_ok. unfold encode_v_meta.
    destruct (decode_encode_metadata (flatten3 vmn) [t_tokens vmn; t_heads vmn; t_dim vmn; 1]%nat) as (m1 & -> & _).
    destruct (decode_encode_metadata (flatten3 vsc) [t_tokens vsc; t_heads vsc; t_dim vsc; 1]%nat) as (m2 & -> & _).
    rewrite !result_bind_ok. unfold _dequantize_v2_from_primary_ref, on_rows. cbn [t_dim].
    destruct T2 as (_ & E2 & _). destruct T3 as (_ & E4 & _). rewrite E2, E4.
    unfold unpack_int2_values, unpack_lowbit_values, _packed_dim. change (negb (valid_bits 2)) with false. cbn [raise_if].
    rewrite !result_bind_ok. change (v_groups_of d * GROUP)%nat with (v_pad_dim_of d). fold (packed_width d).
    rewrite Nat.ltb_irrefl. cbn [raise_if]. rewrite result_bind_ok. change (2 =? 8)%nat with false.
    destruct (v_pad_dim_of d =? 0)%nat; rewrite !result_bind_ok; by eexists. }
  rewrite result_bind_ok. unfold recent_fields in Hr. destruct (recent_k sc), (recent_v sc); try done; rewrite result_bind_ok; by eexists.
Qed.
End Operations.

(** ** Properties *)

(** C30: the types of the serving state are preserved and sufficient.  A constructed
    runtime is typed; over any typed runtime and cache, [append], both bulk appends and
    both constructors of a chunk plan leave a typed runtime and cache on every outcome,
    exceptions and partly processed chunks included; a constructed plan is typed, and
    every step of a typed plan, accepted or refused, keeps plan and runtime typed; and
    a typed runtime can always be read back. *)
Theorem runtime_methods_typed `{TF : TorchFloat} {TFL : TorchFloatLaws TF} (h d : nat) (bt : list nat) (key value : tensor3 f32)
    (s : RtState) (to : f32 → f32) :
  runtime_geometry h d → state_typed h d s → wf_tensor3 key → wf_tensor3 value →
  (∀ r, runtime_init h d d = Ok r → runtime_typed h d r)
  ∧ state_typed h d (runtime_append bt key value s).2
  ∧ state_typed h d (rabit2_bulk_append_exact bt key value s).2
  ∧ state_typed h d (rabit2_stage4b4_bulk_append_exact bt key value s).2
  ∧ init_typed h d (chunkplan_init bt key value s)
  ∧ init_typed h d (_rabit2_stage4d2_chunkplan_init bt key value s)
  ∧ (∀ p step, plan_typed h d p → plan_typed h d (apply_step step (p, s)).2.1 ∧ state_typed h d (apply_step step (p, s)).2.2)
  ∧ ∃ ks vs, tail_materialize (rs_runtime s) to = Ok (ks, vs).
Proof.
  intros Hgeo Hs Wk Wv. pose proof Hgeo as (_ & H32 & _).
  split; [|split; [|split; [|split; [|split; [|split; [|split]]]]]].
  - intros r Hr. destruct (runtime_init_of h d [] (mkCache 0 []) Hgeo) as [E _]. rewrite E in Hr. injection Hr as <-.
    do 4 (split; [done|]). split; [by exists 0%nat|]. exists 0%nat. split; [unfold RESIDUAL; lia|done].
  - by apply (runtime_append_typed h d bt key value s).
  - by apply (bulk_append_typed h d bt _ key value s (stage4d2_writer_typed h d bt)).
  - by apply (bulk_append_typed h d bt _ key value s (stage4b4_writer_typed h d bt)).
  - by apply (plan_init_typed h d bt H32 _ key value s (stage4b4_writer_typed h d bt)).
  - by apply (plan_init_typed h d bt H32 _ key value s (stage4d2_writer_typed h d bt)).
  - intros p step Hp. by apply apply_step_typed.
  - destruct (tail_materialize_typed h d (rs_runtime s) to (proj1 Hs)) as [x Hx].
    destruct (tail_materialize (rs_runtime s) to) as [[ks vs]|]; [by exists ks, vs|done].
Qed.

(** C30 where the block table is too short: the append that closes the first page
    fails, and the runtime it leaves is typed. *)
Lemma runtime_methods_typed_witness (s := mkRt (rs_runtime (rt_of 1 64 [] (mkCache 0 []) [] [])) (mkCache 0 [])) :
  state_typed 1 64 (runtime_append [] (const_chunk 40 1 64 3 5).1 (const_chunk 40 1 64 3 5).2 s).2.
Proof.
  destruct (const_chunk_ok 40 1 64 3 5) as (Wk & Wv & _).
  refine (proj1 (proj2 (runtime_methods_typed 1 64 [] (const_chunk 40 1 64 3 5).1 (const_chunk 40 1 64 3 5).2 s (λ x, x) _ _ Wk Wv))).
  - split; [split; lia|]. split; [by exists 2%nat|by exists 1%nat].
  - split; [|constructor]. do 4 (split; [reflexivity|]). split; [by exists 0%nat|]. exists 0%nat. split; [unfold RESIDUAL; lia|reflexivity].
Defined.
