(* ===== verification/FusedPage.v ===== *)
(** * Fused attention over one page

    [rabit2_closed_page_attention_triton]: attention of one query token over a
    closed page read packed, without materializing K and V.  On every page of the
    right size it is softmax attention over the tensors
    [decode_rabit2_page_ref] returns. *)

From Stdlib Require Import ZArith Lia.
From stdpp Require Import gmap base tactics numbers list option.
From S2P Require Import Prelude Layout Torch SpecFloatTorch BitPack Meta Quant Tab Triton FixedTorch Decoded Page.
From S2P Require Import Sidecar Tail OnlineRef Runtime Bulk PageKernel EncodeKernel Attention PageAttention.
From S2P Require Import TailAttention TailPrep DecodeAttention DecodeState.

Section FusedPage.
Context `{TF : TorchFloat} {TR : TritonFloat} {TE : TorchEmpty} {TA : TritonReduce}.
Context {B : Type} {FT : FloatType B}.

Definition rabit2_closed_page_attention_triton (query : Query B) (page_cuda : bool) (page : list Z)
    (layout : Rabit2PageLayout) (softmax_scale : option f32) : result (Query B) :=
  qd ← match qy_shape query with
       | [n; q_heads; d] => _ ← raise_if (negb (n =? 1)%nat) ValueError; Ok (q_heads, d)
       | [q_heads; d] => Ok (q_heads, d)
       | _ => Err ValueError
       end;
  let '(q_heads, d) := qd in
  _ ← raise_if (negb (qy_cuda query) || negb page_cuda) ValueError;
  _ ← raise_if (negb (Z.of_nat d =? head_size_k layout)%Z) ValueError;
  _ ← raise_if (negb (Z.of_nat q_heads mod num_kv_heads layout =? 0)%Z) ValueError;
  let scale := decode_scale softmax_scale d in
  views ← _rabit2_page_views page layout;
  let head_size := Z.to_nat (head_size_k layout) in
  Ok (mkQuery true [q_heads; d]
        (_rabit2_closed_page_attention_kernel views (qy_data query) scale q_heads (Z.to_nat (num_kv_heads layout))
           head_size (Z.to_nat (head_size_v layout / RABIT2_GROUP_SIZE)) (next_power_of_2 head_size)
           (ft_empty (q_heads * d)))).

(** Softmax attention with normalized weights over 32 tokens. *)
Definition page_attention (NQ NKV D : nat) (kv : list (list (list f32)) * list (list (list f32)))
    (q : nat → nat → f32) (scale : f32) : list (list f32) :=
  tab NQ (λ qh, let kvh := (qh / (NQ / NKV))%nat in
    tab D (page_attention_block 32 (next_power_of_2 D) (lane_of kv.1 kvh) (lane_of kv.2 kvh) (q qh) scale)).

Lemma page_attention_block_ext n BLOCK_D k k' v v' q s i :
  (∀ t d, (t < n)%nat → (d < BLOCK_D)%nat → k t d = k' t d) → (∀ t, (t < n)%nat → v t i = v' t i) →
  page_attention_block n BLOCK_D k v q s i = page_attention_block n BLOCK_D k' v' q s i.
Proof.
  intros Hk Hv. unfold page_attention_block. cbv zeta.
  rewrite (tab_ext n (score BLOCK_D k q s) (score BLOCK_D k' q s))
    by (intros t Ht; apply score_ext; intros d Hd; by rewrite Hk).
  f_equal. apply tab_ext. intros t Ht. by rewrite Hv.
Qed.

Section Lanes.
Context {TZ : TritonZero}.
Variables (h g : nat) (pv : PageViews).
Let d := (g * 32)%nat.

Lemma view_kval_lane kvh t i :
  (t < 32)%nat → (kvh < h)%nat →
  view_kval pv h d kvh t i
  = lane_of (map3 (λ x, x) (tab 32 (λ t, tab h (λ hh, tab d (decode_k_value pv h d t hh))))) kvh t i.
Proof.
  intros Ht Hk. rewrite map3_id, lane_of_tab by done. unfold view_kval. destruct (Nat.ltb_spec i d); cbn [andb].
  - done.
  - rewrite !meta_at_masked. change (Z.lor 0 (Z.shiftl 0 8)) with 0%Z. by rewrite Z.shiftr_0_l, Z.land_0_l, zero_scale_zero.
Qed.

Lemma view_vval_lane kvh t i :
  (t < 32)%nat → (kvh < h)%nat → (i < d)%nat →
  view_vval pv h d g kvh t i
  = lane_of (map3 (λ x, x) (tab 32 (λ t, tab h (λ hh, tab d (decode_v_value pv h g t hh))))) kvh t i.
Proof.
  intros Ht Hk Hi. rewrite map3_id, lane_of_tab by done. unfold view_vval. by rewrite (proj2 (Nat.ltb_lt _ _) Hi).
Qed.
End Lanes.

(** C31: attention over a packed page is attention over the decoded page.  For every
    geometry the runtime accepts, every page of the right size, every query with
    or without the token dimension and every GQA ratio, the fused kernel returns
    the softmax attention over what [decode_rabit2_page_ref] returns. *)
Theorem fused_page_attention (h d NQ : nat) (page : list Z) (query : Query B) (sm : option f32)
    {TZ : TritonZero} :
  runtime_geometry h d → Z.of_nat (length page) = page_bytes (layout_of GROUP h d d) → Forall byte_ok page →
  (0 < NQ)%nat ∧ (h | NQ)%nat → qy_cuda query = true →
  qy_shape query = [NQ; d] ∨ qy_shape query = [1%nat; NQ; d] →
  ∃ kv, decode_rabit2_page_ref page (layout_of GROUP h d d) (λ x, x) = Ok kv
    ∧ rabit2_closed_page_attention_triton query true page (layout_of GROUP h d d) sm
      = Ok (mkQuery true [NQ; d] (map ft_cast (concat
              (page_attention NQ h d kv (q_load (qy_data query) d) (decode_scale sm d))))).
Proof.
  intros ([Hh Hd] & [g ->] & H64) Hlen Hb HQ Hcu Hsh. assert (0 < g)%nat as Hg by lia. set (d := (g * 32)%nat) in *.
  exists (decoded_pair h g page (λ x, x)). split; [by apply decode_ref_tab|].
  unfold rabit2_closed_page_attention_triton.
  assert (match qy_shape query with
          | [n; q_heads; d] => _ ← raise_if (negb (n =? 1)%nat) ValueError; Ok (q_heads, d)
          | [q_heads; d] => Ok (q_heads, d)
          | _ => Err ValueError
          end = Ok (NQ, d)) as -> by (by destruct Hsh as [-> | ->]).
  rewrite result_bind_ok, Hcu. cbn [negb orb raise_if]. rewrite result_bind_ok.
  destruct (page_views_of h g page Hh Hg H64 Hlen) as (pv & Epv & E1 & E2 & Ed). fold d in Epv, E1, E2, Ed.
  change (head_size_k (layout_of GROUP h d d)) with (Z.of_nat d). rewrite Z.eqb_refl. cbn [negb raise_if]. rewrite result_bind_ok.
  destruct HQ as [Hpos [k HK]].
  assert (Z.of_nat NQ mod num_kv_heads (layout_of GROUP h d d) = 0)%Z as ->
    by (rewrite HK, Nat2Z.inj_mul; apply Z.mod_mul; cbn; lia).
  cbn [Z.eqb negb raise_if]. rewrite result_bind_ok, Epv, result_bind_ok. unfold layout_of. cbn [head_size_k head_size_v num_kv_heads].
  rewrite !Nat2Z.id.
  assert (Z.to_nat (Z.of_nat d / RABIT2_GROUP_SIZE) = g) as ->
    by (unfold RABIT2_GROUP_SIZE, d; rewrite Nat2Z.inj_mul, Z.div_mul by lia; apply Nat2Z.id).
  do 2 f_equal.
  unfold _rabit2_closed_page_attention_kernel. rewrite (Nat.min_r _ d) by apply next_power_of_2_ge.
  rewrite launch_fill by (intros; by rewrite ?tab_length, ?ft_empty_length).
  unfold page_attention. rewrite concat_map, map_tab. f_equal. apply tab_ext. intros qh Hq. cbv zeta. rewrite map_tab.
  assert (qh / (NQ / h) < h)%nat as Hk'.
  { rewrite HK, Nat.div_mul by lia. apply Nat.Div0.div_lt_upper_bound. lia. }
  apply tab_ext. intros i Hi. f_equal. rewrite Ed. apply page_attention_block_ext.
  - intros t j Ht _. by apply view_kval_lane.
  - intros t Ht. by apply view_vval_lane.
Qed.
End FusedPage.

Section Concrete.
#[local] Existing Instance FixedTorch.
#[local] Existing Instance FixedTriton.
#[local] Existing Instance FixedZero.

(** C31 on a page of 1552 bytes, all 85, and two query heads. *)
Lemma fused_page_attention_witness :
  let query := mkQuery true [1; 2; 64]%nat (replicate 128 5%Z) in
  ∃ kv, decode_rabit2_page_ref (replicate 1552 85%Z) (layout_of GROUP 1 64 64) (λ x, x) = Ok kv
    ∧ rabit2_closed_page_attention_triton (TA := FixedReduce) (FT := bf16_type (TE := zero_memory)) query true
        (replicate 1552 85%Z) (layout_of GROUP 1 64 64) None
      = Ok (mkQuery true [2; 64]%nat (map bf16_of_f32 (concat (page_attention (TA := FixedReduce) 2 1 64 kv
              (q_load (FT := bf16_type (TE := zero_memory)) (replicate 128 5%Z) 64)
              (decode_scale (TA := FixedReduce) None 64))))).
Proof.
  apply (fused_page_attention (TA := FixedReduce) (FT := bf16_type (TE := zero_memory)) 1 64 2 (replicate 1552 85%Z)
           (mkQuery true [1; 2; 64]%nat (replicate 128 5%Z)) None).
  - apply one_head_runtime.
  - by rewrite length_replicate.
  - apply Forall_replicate. done.
  - split; [lia|by exists 2%nat].
  - reflexivity.
  - right. reflexivity.
Defined.
End Concrete.
