(* ===== verification/AttnHelpers.v ===== *)
(** * Helpers of the paged attention kernels

    [triton_attention_helpers.py]: the search that finds the sequence of a program of
    the flattened grid, the bounds of its loop over tiles, the masks and biases of a
    tile of scores, and one step of the online softmax; a row of the block of queries
    at a time.  Positions are [Z]; the keyword parameters the INT3 kernel leaves at
    their defaults (causal attention, no chunks, no per-sequence flag) are at those
    defaults here.

    The grid has one program per block of [BLOCK_Q] queries and a spare one per
    sequence; [grid_covers_queries] says that the search gives every block of every
    sequence exactly one program. *)

From Stdlib Require Import ZArith Lia.
From stdpp Require Import base tactics numbers list option.
From S2P Require Import Prelude Torch Quant Tab Triton Decoded Page Sidecar Tail OnlineRef Runtime PageKernel EncodeKernel FixedTorch Attention.

(** The further operations of the kernel language. *)
Class TritonScores `{TF : TorchFloat} := {
  tl_dot : list f32 → list f32 → f32;    (* an element of tl.dot *)
  tl_neg : f32 → f32;
  tl_sqrt : f32 → f32;
  tl_gt_neg_inf : f32 → bool;            (* x > -inf *)
  tl_is_zero : f32 → bool;               (* x == 0.0 *)
  tl_clamp_inf : f32 → f32;              (* tl.clamp(x, -inf, inf) *)
  tl_clamp_fp8 : f32 → f32               (* tl.clamp(x, FP8_MIN, FP8_MAX) *)
}.

Definition cdiv_fn (x y : Z) : Z := ((x + y - 1) / y)%Z.

Lemma cdiv_fn_lt x y j : (0 < y)%Z → (j <? cdiv_fn x y)%Z = (j * y <? x)%Z.
Proof.
  intros Hy. unfold cdiv_fn.
  destruct (Z.ltb_spec j ((x + y - 1) / y)) as [H1|H1], (Z.ltb_spec (j * y) x) as [H2|H2]; try done; exfalso.
  - assert (j + 1 ≤ (x + y - 1) / y)%Z as H by lia. apply (Z.mul_le_mono_nonneg_r _ _ y) in H; [|lia].
    pose proof (Z.mul_div_le (x + y - 1) y Hy). lia.
  - pose proof (Z.div_le_lower_bound (x + y - 1) y (j + 1) Hy ltac:(lia)). lia.
Qed.

(** ** The search *)

(** The value the search compares at [mid]. *)
Definition prefix_value (query_start_len : list Z) (BLOCK_Q : Z) (use_q_block_mode : bool) (mid : nat) : Z :=
  let val := nth mid query_start_len 0%Z in
  if use_q_block_mode then (val / BLOCK_Q + Z.of_nat mid)%Z else val.

(** [while left < right], with fuel; [None] is a loop that has not ended. *)
Fixpoint search_loop (fuel : nat) (mid_val : nat → Z) (target_idx : Z) (left right : nat) : option nat :=
  if (left <? right)%nat then
    match fuel with
    | O => None
    | S fuel =>
        let mid := ((left + right) / 2)%nat in
        if (mid_val mid <=? target_idx)%Z then search_loop fuel mid_val target_idx (mid + 1) right
        else search_loop fuel mid_val target_idx left mid
    end
  else Some left.

(** Fuel that suffices for [num_seqs] ([search_terminates]): the interval halves. *)
Definition search_fuel (num_seqs : nat) : nat := S (Nat.log2 num_seqs).

Definition find_seq_idx (query_start_len : list Z) (target_idx : Z) (num_seqs : nat) (BLOCK_Q : Z) (use_q_block_mode : bool) :
    option Z :=
  left ← search_loop (search_fuel num_seqs) (prefix_value query_start_len BLOCK_Q use_q_block_mode) target_idx 0 num_seqs;
  Some (Z.of_nat left - 1)%Z.

(** The sequence of a program, its block in the sequence, and the lengths. *)
Record SeqBlock := mkSeqBlock {
  seq_idx : nat;
  q_block_local_idx : Z;
  cur_start : Z;
  cur_batch_query_len : Z;
  seq_len : Z
}.

Definition resolve_seq_and_query_len (query_start_len seq_lens : list Z) (q_block_global_idx : Z) (num_seqs : nat) (BLOCK_Q : Z) :
    option SeqBlock :=
  s ← find_seq_idx query_start_len q_block_global_idx num_seqs BLOCK_Q true;
  let s := Z.to_nat s in
  let start := nth s query_start_len 0%Z in
  let q_block_start_idx := (start / BLOCK_Q + Z.of_nat s)%Z in
  Some (mkSeqBlock s (q_block_global_idx - q_block_start_idx) start (nth (s + 1) query_start_len 0%Z - start) (nth s seq_lens 0%Z)).

(** ** The loop over tiles *)

(** [(loop_lo, loop_hi, max_seq_prefix_len)]; [segm] is the segment and its number of
    tiles when the sequence is split ([IS_3D]).  [//] truncates. *)
Definition compute_tile_loop_bounds (context_len seq_len cur_batch_query_len q_block_local_idx : Z) (segm : option (Z * Z))
    (TILE_SIZE BLOCK_M BLOCK_Q num_queries_per_kv SLIDING_WINDOW : Z) (USE_MM_PREFIX : bool) : Z * Z * Z :=
  let rows := ((BLOCK_M - 1) / num_queries_per_kv)%Z in
  let max_seq_prefix_len := (context_len + q_block_local_idx * BLOCK_Q + rows + 1)%Z in
  let max_seq_prefix_len := if USE_MM_PREFIX then seq_len else Z.min max_seq_prefix_len seq_len in
  let num_tiles := cdiv_fn max_seq_prefix_len TILE_SIZE in
  let '(tile_start, tile_end) :=
    if (0 <? SLIDING_WINDOW)%Z && negb USE_MM_PREFIX then
      let qpos_lo := (q_block_local_idx * BLOCK_Q)%Z in
      let qpos_hi := Z.min (qpos_lo + rows) (cur_batch_query_len - 1) in
      let first_allowed_key := (context_len + qpos_lo - SLIDING_WINDOW + 1)%Z in
      let last_allowed_key := (context_len + qpos_hi)%Z in
      (Z.max 0 (Z.quot first_allowed_key TILE_SIZE), Z.min (Z.quot last_allowed_key TILE_SIZE + 1) num_tiles)
    else (0%Z, num_tiles) in
  match segm with
  | Some (segm_idx, tiles_per_segment) =>
      (Z.max (segm_idx * tiles_per_segment) tile_start, Z.min ((segm_idx + 1) * tiles_per_segment) tile_end, max_seq_prefix_len)
  | None => (tile_start, tile_end, max_seq_prefix_len)
  end.

(** ** A row of scores *)

(** The ranges of a sequence in [mm_prefix_range]. *)
Definition in_mm_range (mm_prefix_range : list Z) (seq_idx MAX_MM_RANGES : nat) (query_abs_pos seq_offset : Z) (i : nat) : bool :=
  let range_start := nth (seq_idx * MAX_MM_RANGES * 2 + i * 2) mm_prefix_range 0%Z in
  let range_end := nth (seq_idx * MAX_MM_RANGES * 2 + i * 2 + 1) mm_prefix_range 0%Z in
  let is_valid := (range_start <? range_end)%Z in
  ((range_start <=? query_abs_pos) && (query_abs_pos <=? range_end))%Z && is_valid
  && (((range_start <=? seq_offset) && (seq_offset <=? range_end))%Z && is_valid).

Definition compute_kv_seq_mask (query_abs_pos seq_offset : Z) (seq_idx : nat) (SLIDING_WINDOW : Z)
    (mm_prefix : option (list Z * nat)) : bool :=
  let seq_mask := (seq_offset <=? query_abs_pos)%Z in
  let seq_mask := if (0 <? SLIDING_WINDOW)%Z then seq_mask && (query_abs_pos - seq_offset <? SLIDING_WINDOW)%Z else seq_mask in
  match mm_prefix with
  | Some (ranges, MAX_MM_RANGES) =>
      fold_left (λ m i, m || in_mm_range ranges seq_idx MAX_MM_RANGES query_abs_pos seq_offset i) (seq 0 MAX_MM_RANGES) seq_mask
  | None => seq_mask
  end.

Section Scores.
Context `{TF : TorchFloat} {TR : TritonFloat} {TA : TritonReduce} {TS : TritonScores}.

Definition apply_softcap (S x : f32) : f32 :=
  let Sdiv := tl_div S x in
  let p1 := tl_exp Sdiv in
  let p2 := tl_exp (tl_neg Sdiv) in
  tl_div (f32_mul x (f32_sub p1 p2)) (f32_add p1 p2).

Definition apply_alibi_to_score (S alibi_slope : f32) (seq_offset context_len query_pos : Z) (USE_ALIBI_SQRT : bool) : f32 :=
  let alibi_offset :=
    if USE_ALIBI_SQRT then
      let relative_pos := (seq_offset - (context_len + query_pos))%Z in
      if (relative_pos <=? 0)%Z then tl_neg (tl_sqrt (f32_of_int (- relative_pos))) else f32_zero
    else f32_of_int (seq_offset - context_len) in
  f32_add S (f32_mul alibi_slope alibi_offset).

Definition load_qq_bias (qq_bias : list f32) (qq_bias_stride_0 : Z) (query_pos seq_offset context_len : Z) : f32 :=
  let key_rel_pos := (seq_offset - context_len)%Z in
  if (0 <=? key_rel_pos)%Z && (key_rel_pos <? qq_bias_stride_0)%Z
  then nth (Z.to_nat (query_pos * qq_bias_stride_0 + key_rel_pos)) qq_bias f32_zero else f32_zero.

(** The initial row maximum; a later segment starts without the sink. *)
Definition init_softmax_M (sinks : option (list f32)) (query_offset_1 num_query_heads : nat) (segm_idx : option Z) : f32 :=
  match sinks with
  | Some s =>
      if (match segm_idx with Some i => i =? 0 | None => true end)%Z
      then if (query_offset_1 <? num_query_heads)%nat then nth query_offset_1 s f32_zero else tl_neg_inf
      else tl_neg_inf
  | None => tl_neg_inf
  end.

(** [(M_new, L_new, P, alpha)] of one row and one tile of scores. *)
Definition softmax_step (S : list f32) (M L : f32) : f32 * f32 * list f32 * f32 :=
  let m_j := tl_maximum M (tl_max S) in
  let m_j := if tl_gt_neg_inf m_j then m_j else f32_zero in
  let P := map (λ s, tl_exp (f32_sub s m_j)) S in
  let l_j := tl_sum P in
  let alpha := tl_exp (f32_sub M m_j) in
  (m_j, f32_add (f32_mul L alpha) l_j, P, alpha).
End Scores.

(** ** Lemmas of the search *)

Section Search.
Variables (mid_val : nat → Z) (target : Z) (N : nat).
Hypothesis (Hmono : ∀ i j, (i ≤ j < N)%nat → (mid_val i ≤ mid_val j)%Z).

(** The loop ends within the binary logarithm of the interval, at the number of
    values up to the target. *)
Lemma search_loop_spec fuel : ∀ left right,
  (right - left < 2 ^ fuel)%nat → (left ≤ right ≤ N)%nat →
  (∀ i, (i < left)%nat → (mid_val i ≤ target)%Z) → (∀ i, (right ≤ i < N)%nat → (target < mid_val i)%Z) →
  ∃ r, search_loop fuel mid_val target left right = Some r
  ∧ (r ≤ N)%nat ∧ (∀ i, (i < r)%nat → (mid_val i ≤ target)%Z) ∧ (∀ i, (r ≤ i < N)%nat → (target < mid_val i)%Z).
Proof.
  induction fuel as [|fuel IH]; intros left right Hf Hlr Hlo Hhi; cbn [search_loop].
  - destruct (Nat.ltb_spec left right); [cbn in Hf; lia|]. exists left. split; [done|]. split; [lia|].
    split; [done|]. intros i Hi. apply Hhi. lia.
  - destruct (Nat.ltb_spec left right) as [Hlt|Hge].
    2: { exists left. split; [done|]. split; [lia|]. split; [done|]. intros i Hi. apply Hhi. lia. }
    set (mid := ((left + right) / 2)%nat).
    pose proof (Nat.div_mod_eq (left + right) 2) as Hd. pose proof (Nat.mod_upper_bound (left + right) 2 ltac:(lia)) as Hm.
    fold mid in Hd. rewrite Nat.pow_succ_r' in Hf. destruct (Z.leb_spec (mid_val mid) target) as [Hv|Hv].
    + apply IH; [lia|lia| |done]. intros i Hi. specialize (Hmono i mid ltac:(lia)). lia.
    + apply IH; [lia|lia|done|]. intros i Hi. specialize (Hmono mid i ltac:(lia)). lia.
Qed.

Lemma search_terminates :
  ∃ r, search_loop (search_fuel N) mid_val target 0 N = Some r
  ∧ (r ≤ N)%nat ∧ (∀ i, (i < r)%nat → (mid_val i ≤ target)%Z) ∧ (∀ i, (r ≤ i < N)%nat → (target < mid_val i)%Z).
Proof.
  apply search_loop_spec; [|lia|lia|lia]. unfold search_fuel. destruct N as [|n]; [cbn; lia|].
  pose proof (Nat.log2_spec (S n) ltac:(lia)). lia.
Qed.
End Search.

(** Cumulative query lengths. *)
Definition cu_ok (cu : list Z) (n : nat) : Prop :=
  nth 0 cu 0%Z = 0%Z ∧ ∀ i, (i < n)%nat → (nth i cu 0 ≤ nth (i + 1) cu 0)%Z.

Section Grid.
Variables (cu : list Z) (n : nat) (BQ : Z).
Hypotheses (Hcu : cu_ok cu n) (HBQ : (0 < BQ)%Z).
Let c (i : nat) : Z := nth i cu 0%Z.

Lemma cu_mono i j : (i ≤ j ≤ n)%nat → (c i ≤ c j)%Z.
Proof.
  intros H. replace j with (i + (j - i))%nat by lia. assert (i + (j - i) ≤ n)%nat as Hn by lia.
  generalize dependent (j - i)%nat. clear H j. intros k. induction k as [|k IH]; intros Hk; [by rewrite Nat.add_0_r|].
  etransitivity; [apply IH; lia|]. replace (i + S k)%nat with (i + k + 1)%nat by lia. apply Hcu. lia.
Qed.

Lemma cu_nonneg i : (i ≤ n)%nat → (0 ≤ c i)%Z.
Proof. intros Hi. destruct Hcu as [H0 _]. change (nth 0 cu 0)%Z with (c 0) in H0. rewrite <-H0. apply cu_mono. lia. Qed.

Lemma prefix_mono mode i j : (i ≤ j < n)%nat → (prefix_value cu BQ mode i ≤ prefix_value cu BQ mode j)%Z.
Proof.
  intros H. pose proof (cu_mono i j ltac:(lia)) as Hc. unfold prefix_value. fold (c i) (c j). destruct mode; [|done].
  pose proof (Z.div_le_mono (c i) (c j) BQ HBQ Hc). lia.
Qed.

(** The sequence a value falls in. *)
Lemma find_seq_between mode target s :
  (s < n)%nat → (prefix_value cu BQ mode s ≤ target)%Z →
  ((s + 1 < n)%nat → (target < prefix_value cu BQ mode (s + 1))%Z) → find_seq_idx cu target n BQ mode = Some (Z.of_nat s).
Proof.
  intros Hs Hlo Hhi. destruct (search_terminates (prefix_value cu BQ mode) target n (prefix_mono mode)) as (r & E & Hr & H1 & H2).
  unfold find_seq_idx. rewrite E. cbn [mbind option_bind]. f_equal. enough (r = s + 1)%nat by lia.
  destruct (Nat.lt_trichotomy r (s + 1)) as [Hlt|[->|Hgt]]; [|done|].
  - specialize (H2 s ltac:(lia)). lia.
  - specialize (H1 (s + 1)%nat ltac:(lia)). specialize (Hhi ltac:(lia)). lia.
Qed.

Lemma find_seq_total mode target :
  (0 < n)%nat → (0 ≤ target)%Z →
  ∃ s, (s < n)%nat ∧ (prefix_value cu BQ mode s ≤ target)%Z ∧ find_seq_idx cu target n BQ mode = Some (Z.of_nat s).
Proof.
  intros Hn Ht. destruct (search_terminates (prefix_value cu BQ mode) target n (prefix_mono mode)) as (r & E & Hr & H1 & H2).
  assert (0 < r)%nat as Hr0.
  { destruct r as [|r]; [|lia]. specialize (H2 0%nat ltac:(lia)). destruct Hcu as [H0 _].
    assert (prefix_value cu BQ mode 0 = 0%Z) as E0 by (unfold prefix_value; rewrite H0; by destruct mode).
    rewrite E0 in H2. lia. }
  exists (r - 1)%nat. split; [lia|]. split; [apply H1; lia|]. unfold find_seq_idx. rewrite E. cbn [mbind option_bind]. f_equal. lia.
Qed.

(** The first program of a sequence, and the block of its [i]-th query. *)
Definition first_program (s : nat) : Z := (c s / BQ + Z.of_nat s)%Z.

Lemma block_before_next s i :
  (s < n)%nat → (0 ≤ i < c (s + 1) - c s)%Z → (first_program s + i / BQ < first_program (s + 1))%Z.
Proof.
  intros Hs Hi. unfold first_program. enough (c s / BQ + i / BQ ≤ c (s + 1) / BQ)%Z by lia.
  pose proof (cu_nonneg s ltac:(lia)). apply Z.div_le_lower_bound; [done|].
  pose proof (Z.div_mod (c s) BQ ltac:(lia)). pose proof (Z.mod_pos_bound (c s) BQ HBQ).
  pose proof (Z.div_mod i BQ ltac:(lia)). pose proof (Z.mod_pos_bound i BQ HBQ). nia.
Qed.

Lemma program_in_grid s i num_tokens :
  (s < n)%nat → (0 ≤ i < c (s + 1) - c s)%Z → (c n ≤ num_tokens)%Z →
  (0 ≤ first_program s + i / BQ < num_tokens / BQ + Z.of_nat n)%Z.
Proof.
  intros Hs Hi Hn. pose proof (block_before_next s i Hs Hi) as Hb. pose proof (Z.div_pos i BQ ltac:(lia) HBQ).
  pose proof (cu_mono (s + 1) n ltac:(lia)) as Hm. pose proof (Z.div_le_mono (c (s + 1)) num_tokens BQ HBQ ltac:(lia)).
  pose proof (Z.div_pos (c s) BQ (cu_nonneg s ltac:(lia)) HBQ). unfold first_program in *. lia.
Qed.

Lemma resolve_block seq_lens s i :
  (s < n)%nat → (0 ≤ i < c (s + 1) - c s)%Z →
  resolve_seq_and_query_len cu seq_lens (first_program s + i / BQ) n BQ
  = Some (mkSeqBlock s (i / BQ) (c s) (c (s + 1) - c s) (nth s seq_lens 0%Z)).
Proof.
  intros Hs Hi. unfold resolve_seq_and_query_len. rewrite (find_seq_between true _ s Hs).
  - cbn [mbind option_bind]. rewrite Nat2Z.id. fold (c s) (c (s + 1)%nat). do 2 f_equal. unfold first_program. lia.
  - unfold prefix_value. fold (c s). unfold first_program. pose proof (Z.div_pos i BQ ltac:(lia) HBQ). lia.
  - intros _. unfold prefix_value. fold (c (s + 1)%nat). apply (block_before_next s i Hs Hi).
Qed.

(** Every program is one of a sequence. *)
Lemma resolve_total seq_lens g :
  (0 < n)%nat → (0 ≤ g)%Z →
  ∃ s l, (s < n)%nat
  ∧ resolve_seq_and_query_len cu seq_lens g n BQ = Some (mkSeqBlock s (Z.of_nat l) (c s) (c (s + 1) - c s) (nth s seq_lens 0%Z)).
Proof.
  intros Hn Hg. destruct (find_seq_total true g Hn Hg) as (s & Hs & Hp & E). exists s, (Z.to_nat (g - first_program s)).
  split; [done|]. unfold resolve_seq_and_query_len. rewrite E. cbn [mbind option_bind]. rewrite Nat2Z.id.
  fold (c s) (c (s + 1)%nat) (first_program s). rewrite Z2Nat.id; [done|]. unfold prefix_value in Hp. fold (c s) (first_program s) in Hp. lia.
Qed.

(** A token is one of one sequence. *)
Lemma cu_unique s s' i i' :
  (s < n)%nat → (s' < n)%nat → (0 ≤ i < c (s + 1) - c s)%Z → (0 ≤ i' < c (s' + 1) - c s')%Z → (c s + i = c s' + i')%Z → s = s' ∧ i = i'.
Proof.
  intros Hs Hs' Hi Hi' E. destruct (Nat.lt_trichotomy s s') as [H|[->|H]]; [|lia|].
  - pose proof (cu_mono (s + 1) s' ltac:(lia)). lia.
  - pose proof (cu_mono (s' + 1) s ltac:(lia)). lia.
Qed.

(** A tile loop reads positions of the sequence. *)
Lemma tile_loop_bounds_ok context_len len query_len l segm TILE_SIZE BLOCK_M num_queries_per_kv SLIDING_WINDOW mm :
  let '(lo, _, prefix) := compute_tile_loop_bounds context_len len query_len l segm TILE_SIZE BLOCK_M BQ num_queries_per_kv SLIDING_WINDOW mm in
  (0 ≤ lo)%Z ∧ (prefix ≤ len)%Z.
Proof. unfold compute_tile_loop_bounds. destruct mm, segm as [[i tps]|], (0 <? SLIDING_WINDOW)%Z; cbn [andb negb]; lia. Qed.

Lemma resolve_seq_inv seq_lens g b :
  resolve_seq_and_query_len cu seq_lens g n BQ = Some b → (g = first_program (seq_idx b) + q_block_local_idx b)%Z.
Proof.
  unfold resolve_seq_and_query_len. destruct (find_seq_idx cu g n BQ true) as [s|]; [|done]. cbn [mbind option_bind].
  intros [= <-]. cbn [seq_idx q_block_local_idx]. unfold first_program. fold (c (Z.to_nat s)). lia.
Qed.
End Grid.

(** C28: the flattened grid covers the queries.  For every cumulative prefix of query
    lengths (empty sequences included), every token count that reaches its end and
    every program of a grid of [tokens / BLOCK_Q + num_seqs] programs, the binary
    search ends, within the logarithm of the number of sequences, in a sequence;
    every block of queries of every sequence is resolved by a program of the grid,
    with the block, the start and the lengths of that sequence, and by no other; and
    the token mode of the search finds the sequence of every token. *)
Theorem grid_covers_queries (cu seq_lens : list Z) (n : nat) (BLOCK_Q num_tokens : Z) (c := λ i, nth i cu 0%Z) :
  cu_ok cu n → (0 < BLOCK_Q)%Z → (c n ≤ num_tokens)%Z → (0 < n)%nat →
  (∀ g, (0 ≤ g)%Z → ∃ b, resolve_seq_and_query_len cu seq_lens g n BLOCK_Q = Some b ∧ (seq_idx b < n)%nat)
  ∧ (∀ s i, (s < n)%nat → (0 ≤ i < c (s + 1)%nat - c s)%Z →
       ∃ g, (0 ≤ g < num_tokens / BLOCK_Q + Z.of_nat n)%Z
       ∧ resolve_seq_and_query_len cu seq_lens g n BLOCK_Q
         = Some (mkSeqBlock s (i / BLOCK_Q) (c s) (c (s + 1)%nat - c s) (nth s seq_lens 0%Z))
       ∧ ∀ g' b, resolve_seq_and_query_len cu seq_lens g' n BLOCK_Q = Some b →
           seq_idx b = s → q_block_local_idx b = (i / BLOCK_Q)%Z → g' = g)
  ∧ (∀ s t, (s < n)%nat → (c s ≤ t < c (s + 1)%nat)%Z → find_seq_idx cu t n BLOCK_Q false = Some (Z.of_nat s)).
Proof.
  intros Hcu HBQ Hn Hn0. split; [|split].
  - intros g Hg. destruct (find_seq_total cu n BLOCK_Q Hcu HBQ true g Hn0 Hg) as (s & Hs & _ & E).
    unfold resolve_seq_and_query_len. rewrite E. eexists. split; [reflexivity|]. cbn [seq_idx]. lia.
  - intros s i Hs Hi. exists (first_program cu BLOCK_Q s + i / BLOCK_Q)%Z. split; [|split].
    + by apply program_in_grid.
    + by apply resolve_block.
    + intros g' b Hb Es El. apply resolve_seq_inv in Hb. by rewrite Hb, Es, El.
  - intros s t Hs Ht. apply find_seq_between; try done; unfold prefix_value; fold (c s).
    + apply Ht.
    + intros _. fold (c (s + 1)%nat). apply Ht.
Qed.

(** C28 with three sequences, the second of them empty. *)
Lemma grid_covers_queries_witness :
  resolve_seq_and_query_len [0; 20; 20; 23]%Z [50; 9; 3]%Z 4 3 16 = Some (mkSeqBlock 2 1 20 3 3) ∧
  ∃ g, (0 ≤ g < 23 / 16 + 3)%Z
  ∧ resolve_seq_and_query_len [0; 20; 20; 23]%Z [50; 9; 3]%Z g 3 16 = Some (mkSeqBlock 0 (17 / 16) 0 (20 - 0) 50).
Proof.
  split; [reflexivity|].
  destruct (grid_covers_queries [0; 20; 20; 23]%Z [50; 9; 3]%Z 3 16 23) as (_ & H & _).
  - split; [done|]. intros i Hi. do 3 (destruct i as [|i]; [cbn; lia|]). lia.
  - lia.
  - cbn. lia.
  - lia.
  - destruct (H 0%nat 17%Z) as (g & Hg & E & _); [lia|cbn; lia|]. exists g. by split.
Defined.

(** ** An instance *)

#[local] Existing Instance FixedTorch.

(** Sums in order; [-2^40] stands for minus infinity. *)
#[local] Instance FixedScores : @TritonScores FixedTorch := {
  tl_dot := λ a b, fold_left Z.add (zip_with (λ x y, x * y / UNIT)%Z a b) 0%Z;
  tl_neg := Z.opp;
  tl_sqrt := λ x, Z.sqrt (x * UNIT);
  tl_gt_neg_inf := λ x, (- 2 ^ 40 <? x)%Z;
  tl_is_zero := λ x, (x =? 0)%Z;
  tl_clamp_inf := λ x, x;
  tl_clamp_fp8 := fx_clamp (-448) 448
}.
