(* ===== verification/Int3Attention.v ===== *)
(** * Attention over the INT3 cache

    [_attn_int3_kernel] of [kvquant_k3.py], its launcher, and the reduction of the
    segments of a split sequence ([reduce_segments] of
    [triton_unified_attention.py]).  A program of the grid is the list of the rows it
    stores; the grid is its stores in order ([Stores]).

    The rows of a program are computed from the lanes it loads ([Loads]): the codes
    and scales behind the block table, or, in the specification, the tokens of the
    sequence.  [tl.dot] is an operation of the kernel language; the block sizes are
    powers of two, as [tl.arange] requires. *)

From Stdlib Require Import ZArith Lia.
From stdpp Require Import base tactics numbers list option.
From S2P Require Import Prelude Layout Torch BitPack Meta Quant Tab Triton Decoded Page Sidecar Tail OnlineRef Runtime PageKernel.
From S2P Require Import EncodeKernel Stores Int3Cache FixedTorch Attention AttnHelpers DecodeState.

Section Int3Attention.
Context `{TF : TorchFloat} {TR : TritonFloat} {TA : TritonReduce} {TS : TritonScores} {FW : Float32Words TF}.
Context {B : Type} {FT : FloatType B}.

(** ** One row of a program *)

(** The arguments of the kernel; an optional feature is [None] when its flag is off. *)
Record Int3Args := mkInt3Args {
  a_num_query_heads : nat;
  a_num_queries_per_kv : nat;
  a_scale : f32;
  a_out_scale : option f32;
  a_softcap : option f32;
  a_block_tables : list nat;
  a_block_table_stride : nat;
  a_query_stride_0 : nat;
  a_query_stride_1 : nat;
  a_output_stride_0 : nat;
  a_output_stride_1 : nat;
  a_TILE_SIZE : nat;
  a_HEAD_SIZE : nat;
  a_alibi_slopes : option (list f32);
  a_USE_ALIBI_SQRT : bool;
  a_qq_bias : option (list f32 * Z);
  a_sinks : option (list f32);
  a_SLIDING_WINDOW : Z;
  a_mm_prefix : option (list Z * nat);
  a_query_start_len : list Z;
  a_seq_lens : list Z;
  a_num_seqs : nat;
  a_BLOCK_Q : nat;
  a_BLOCK_M : nat;
  a_NUM_SEGMENTS : option nat            (* per sequence, when IS_3D *)
}.

(** The lanes of the key (0) and value (1) tiles: a signed code, a scale. *)
Record Loads := mkLoads { ld_signed : nat → Z → nat → f32; ld_scale : nat → Z → f32 }.

(** Behind the block table of a sequence, masked past [max_seq_prefix_len]. *)
Definition device_loads (a : Int3Args) (c : KvCache) (seq_idx kv_head_idx : nat) (max_seq_prefix_len : Z) : Loads :=
  let block off := nth (seq_idx * a_block_table_stride a + Z.to_nat off / kc_block_size c) (a_block_tables a) 0%nat in
  let slot off := (Z.to_nat off mod kc_block_size c)%nat in
  mkLoads
    (λ kv off d, int3_signed (if (off <? max_seq_prefix_len)%Z
       then int3_code_load (kc_mem c) (kv_base c kv) (kv_strides c) (block off) (slot off) kv_head_idx d else 0%Z))
    (λ kv off, if (off <? max_seq_prefix_len)%Z then scale_load c kv (block off) (slot off) kv_head_idx else f32_one).

(** What a row knows of itself. *)
Record Row := mkRow {
  r_Q : list f32;
  r_valid : bool;
  r_query_pos : Z;
  r_query_offset_1 : nat;
  r_context_len : Z;
  r_seq_idx : nat;
  r_qpos_lo : Z
}.

(** The score of a key. *)
Definition int3_score (a : Int3Args) (ld : Loads) (r : Row) (seq_offset : Z) : f32 :=
  let raw_dot := tl_dot (r_Q r) (tab (a_HEAD_SIZE a) (ld_signed ld 0 seq_offset)) in
  let S := f32_mul (f32_mul (ld_scale ld 0 seq_offset) (a_scale a)) raw_dot in
  let S := match a_softcap a with Some x => apply_softcap S x | None => S end in
  let seq_mask := compute_kv_seq_mask (r_context_len r + r_query_pos r) seq_offset (r_seq_idx r) (a_SLIDING_WINDOW a) (a_mm_prefix a) in
  let S := if r_valid r && seq_mask then S else tl_neg_inf in
  let S := match a_alibi_slopes a with
           | Some slopes =>
               let slope := if (r_query_offset_1 r <? a_num_query_heads a)%nat then nth (r_query_offset_1 r) slopes f32_zero else f32_zero in
               apply_alibi_to_score S slope seq_offset (r_context_len r) (r_query_pos r) (a_USE_ALIBI_SQRT a)
           | None => S
           end in
  match a_qq_bias a with
  | Some (bias, stride) => f32_add S (load_qq_bias bias stride (r_query_pos r) seq_offset (r_context_len r))
  | None => S
  end.

(** The value of a key, dropped where the window of the whole block has passed. *)
Definition int3_value (a : Int3Args) (ld : Loads) (r : Row) (d : nat) (seq_offset : Z) : f32 :=
  if (a_SLIDING_WINDOW a =? 0)%Z || (r_context_len r + r_qpos_lo r - seq_offset <? a_SLIDING_WINDOW a)%Z
  then ld_signed ld 1 seq_offset d else f32_zero.

(** One iteration of the tile loop on [(M, L, acc)]. *)
Definition int3_tile (a : Int3Args) (ld : Loads) (r : Row) (st : f32 * f32 * list f32) (j : Z) : f32 * f32 * list f32 :=
  let '(M, L, acc) := st in
  let seq_offset t := (j * Z.of_nat (a_TILE_SIZE a) + Z.of_nat t)%Z in
  let S := tab (a_TILE_SIZE a) (λ t, int3_score a ld r (seq_offset t)) in
  let '(M, L, P, alpha) := softmax_step S M L in
  let P_v := tab (a_TILE_SIZE a) (λ t, f32_mul (nth t P f32_zero) (ld_scale ld 1 (seq_offset t))) in
  (M, L, tab (a_HEAD_SIZE a) (λ d,
     f32_add (f32_mul (nth d acc f32_zero) alpha)
       (tl_dot P_v (tab (a_TILE_SIZE a) (λ t, int3_value a ld r d (seq_offset t)))))).

Definition int3_row (a : Int3Args) (ld : Loads) (r : Row) (loop_lo loop_hi : Z) (M : f32) : f32 * f32 * list f32 :=
  fold_left (int3_tile a ld r) (seqZ loop_lo (loop_hi - loop_lo)) (M, f32_one, tab (a_HEAD_SIZE a) (λ _, f32_zero)).

(** ** A program *)

(** The row [offs_m = m] of a block of queries. *)
Definition block_row (a : Int3Args) (query : list B) (b : SeqBlock) (kv_head_idx m : nat) : Row :=
  let query_pos := (q_block_local_idx b * Z.of_nat (a_BLOCK_Q a) + Z.of_nat (m / a_num_queries_per_kv a))%Z in
  let query_offset_0 := Z.to_nat (cur_start b + query_pos) in
  let query_offset_1 := (kv_head_idx * a_num_queries_per_kv a + m mod a_num_queries_per_kv a)%nat in
  let valid := (query_pos <? cur_batch_query_len b)%Z && (query_offset_1 <? a_num_query_heads a)%nat in
  mkRow
    (tab (a_HEAD_SIZE a) (λ d, if valid
       then ft_load (nth (query_offset_0 * a_query_stride_0 a + query_offset_1 * a_query_stride_1 a + d) query ft_zero) else f32_zero))
    valid query_pos query_offset_1 (seq_len b - cur_batch_query_len b) (seq_idx b) (q_block_local_idx b * Z.of_nat (a_BLOCK_Q a)).

(** [tiles_per_segment]. *)
Definition tiles_per_segment (a : Int3Args) (seq_len : Z) (segments : nat) : Z :=
  cdiv_fn seq_len (Z.of_nat segments * Z.of_nat (a_TILE_SIZE a)).

(** The rows a program stores: [(query_offset_0, query_offset_1, (M, L, acc))]. *)
Definition block_rows (a : Int3Args) (c : KvCache) (query : list B) (b : SeqBlock) (kv_head_idx : nat) (segm_idx : option nat) :
    list (nat * nat * (f32 * f32 * list f32)) :=
  if (cur_batch_query_len b <=? q_block_local_idx b * Z.of_nat (a_BLOCK_Q a))%Z then []
  else
    let segm := match segm_idx, a_NUM_SEGMENTS a with
                | Some i, Some n => Some (Z.of_nat i, tiles_per_segment a (seq_len b) n)
                | _, _ => None
                end in
    let past := match segm with Some (i, tps) => (seq_len b <=? i * tps * Z.of_nat (a_TILE_SIZE a))%Z | None => false end in
    if past then []
    else
      let '(loop_lo, loop_hi, max_seq_prefix_len) :=
        compute_tile_loop_bounds (seq_len b - cur_batch_query_len b) (seq_len b) (cur_batch_query_len b) (q_block_local_idx b) segm
          (Z.of_nat (a_TILE_SIZE a)) (Z.of_nat (a_BLOCK_M a)) (Z.of_nat (a_BLOCK_Q a)) (Z.of_nat (a_num_queries_per_kv a))
          (a_SLIDING_WINDOW a) (match a_mm_prefix a with Some _ => true | None => false end) in
      let ld := device_loads a c (seq_idx b) kv_head_idx max_seq_prefix_len in
      omap (λ m,
        let r := block_row a query b kv_head_idx m in
        if r_valid r
        then Some (Z.to_nat (cur_start b + r_query_pos r), r_query_offset_1 r,
                   int3_row a ld r loop_lo loop_hi
                     (init_softmax_M (a_sinks a) (r_query_offset_1 r) (a_num_query_heads a) (fst <$> segm)))
        else None) (seq 0 (a_BLOCK_M a)).

(** The program [(q_block_global_idx, kv_head_idx, segm_idx)]; [None] if its search did
    not end. *)
Definition int3_program (a : Int3Args) (c : KvCache) (query : list B) (q_block_global_idx kv_head_idx : nat) (segm_idx : option nat) :
    option (list (nat * nat * (f32 * f32 * list f32))) :=
  b ← resolve_seq_and_query_len (a_query_start_len a) (a_seq_lens a) (Z.of_nat q_block_global_idx) (a_num_seqs a) (Z.of_nat (a_BLOCK_Q a));
  Some (block_rows a c query b kv_head_idx segm_idx).

(** The epilogue without segments. *)
Definition output_value (a : Int3Args) (L x : f32) : B :=
  let acc := tl_div x L in
  ft_cast (match a_out_scale a with Some out_s => tl_clamp_inf (f32_mul acc out_s) | None => acc end).

Definition output_store (a : Int3Args) (row : nat * nat * (f32 * f32 * list f32)) : Store B :=
  let '(o0, o1, (M, L, acc)) := row in
  ((o0 * a_output_stride_0 a + o1 * a_output_stride_1 a)%nat, map (output_value a L) acc).

(** The buffers of a split sequence. *)
Record Segments := mkSegments { sg_output : list f32; sg_max : list f32; sg_expsum : list f32 }.

Definition segment_index (a : Int3Args) (segments o0 o1 segm_idx : nat) : nat :=
  (o0 * (a_num_query_heads a * segments) + o1 * segments + segm_idx)%nat.

Definition store_segment (a : Int3Args) (segments segm_idx : nat) (row : nat * nat * (f32 * f32 * list f32)) (s : Segments) : Segments :=
  let '(o0, o1, (M, L, acc)) := row in
  let i := segment_index a segments o0 o1 segm_idx in
  mkSegments (store_block (i * a_HEAD_SIZE a) acc (sg_output s)) (store_block i [M] (sg_max s)) (store_block i [L] (sg_expsum s)).

(** ** The reduction of the segments *)

(** [overall_max], [overall_expsum] and one element of [acc], from the segments' lanes. *)
Definition merge_segments (segments : nat) (segm_max segm_expsum segm_output : nat → f32) : f32 :=
  let overall_max := tl_max (tab segments segm_max) in
  let weight i := tl_exp (f32_sub (segm_max i) overall_max) in
  let overall_expsum := tl_sum (tab segments (λ i, f32_mul (segm_expsum i) (weight i))) in
  let acc_sum := tl_sum (tab segments (λ i, f32_mul (segm_output i) (weight i))) in
  if tl_is_zero overall_expsum then f32_zero else tl_div acc_sum overall_expsum.

Definition merged_value (a : Int3Args) (acc : f32) : B :=
  ft_cast (match a_out_scale a with Some out_s => tl_clamp_fp8 (f32_mul acc out_s) | None => acc end).

Definition reduce_segments (a : Int3Args) (segments : nat) (s : Segments) (query_token_idx query_head_idx : nat) : option (Store B) :=
  sq ← find_seq_idx (a_query_start_len a) (Z.of_nat query_token_idx) (a_num_seqs a) (Z.of_nat (a_BLOCK_Q a)) false;
  let seq_len := nth (Z.to_nat sq) (a_seq_lens a) 0%Z in
  let act_num_segments := cdiv_fn seq_len (tiles_per_segment a seq_len segments * Z.of_nat (a_TILE_SIZE a)) in
  let lane (x other : f32) i := if (Z.of_nat i <? act_num_segments)%Z then x else other in
  let off := segment_index a segments query_token_idx query_head_idx 0 in
  let acc d := merge_segments segments
    (λ i, lane (nth (off + i) (sg_max s) f32_zero) tl_neg_inf i)
    (λ i, lane (nth (off + i) (sg_expsum s) f32_zero) f32_zero i)
    (λ i, lane (nth ((off + i) * a_HEAD_SIZE a + d) (sg_output s) f32_zero) f32_zero i) in
  Some ((query_token_idx * a_output_stride_0 a + query_head_idx * a_output_stride_1 a)%nat,
        tab (a_HEAD_SIZE a) (λ d, merged_value a (acc d))).

(** ** The launcher *)

Definition _is_gemma3_attention (head_size : nat) (sliding_window : Z) : bool :=
  (sliding_window =? 1024)%Z && ((head_size =? 128)%nat || (head_size =? 256)%nat).

Definition _get_tile_size (head_size : nat) (sliding_window : Z) (element_size : nat) (is_prefill : bool) : nat :=
  if _is_gemma3_attention head_size sliding_window then 32
  else if is_prefill then 32
  else if (2 <=? element_size)%nat then 16 else 32.

(** The arguments of [unified_attention_kvquant_k3]: [q] and [out] are contiguous
    tensors of shape [tokens, heads, head_size]; [output_scale] is its inverse;
    [softcap] is [None] unless positive. *)
Record Int3Call := mkInt3Call {
  ic_q : list B;
  ic_tokens : nat;
  ic_query_heads : nat;
  ic_head_size : nat;
  ic_element_size : nat;
  ic_cu_seqlens_q : list Z;
  ic_max_seqlen_q : Z;
  ic_seqused_k : list Z;
  ic_softmax_scale : f32;
  ic_window_size : Z;                    (* window_size[0] *)
  ic_block_table : list nat;
  ic_block_table_stride : nat;
  ic_softcap : option f32;
  ic_sinks : option (list f32);
  ic_alibi_slopes : option (list f32);
  ic_use_alibi_sqrt : bool;
  ic_qq_bias : option (list f32 * Z);
  ic_output_scale : option f32;
  ic_mm_prefix_range : option (list Z * nat * nat);  (* values, ndim, shape[1] *)
  ic_seq_threshold_3D : option Z;
  ic_segments : option (nat * Segments);  (* num_par_softmax_segments and the three buffers *)
  ic_batch_invariant : bool
}.

(** The split over segments is for decode batches small enough. *)
Definition use_3d (x : Int3Call) : option (nat * Segments) :=
  match ic_seq_threshold_3D x, ic_segments x with
  | Some threshold, Some s =>
      if (1 <? ic_max_seqlen_q x)%Z || (threshold <? Z.of_nat (length (ic_seqused_k x)))%Z || ic_batch_invariant x
      then None else Some s
  | _, _ => None
  end.

(** The kernel's arguments. *)
Definition launch_args (x : Int3Call) (c : KvCache) : Int3Args :=
  let num_queries_per_kv := (ic_query_heads x / kc_heads c)%nat in
  let BLOCK_M := if (num_queries_per_kv <=? 16)%nat then 16%nat else next_power_of_2 num_queries_per_kv in
  let sliding_window_val := if (0 <=? ic_window_size x)%Z then (1 + ic_window_size x)%Z else 0%Z in
  let is_3d := use_3d x in
  mkInt3Args (ic_query_heads x) num_queries_per_kv (ic_softmax_scale x) (ic_output_scale x) (ic_softcap x)
    (ic_block_table x) (ic_block_table_stride x)
    (ic_query_heads x * ic_head_size x) (ic_head_size x) (ic_query_heads x * ic_head_size x) (ic_head_size x)
    (_get_tile_size (ic_head_size x) sliding_window_val (ic_element_size x) (match is_3d with Some _ => false | None => true end))
    (ic_head_size x) (ic_alibi_slopes x) (ic_use_alibi_sqrt x) (ic_qq_bias x) (ic_sinks x) (1 + ic_window_size x)
    (match ic_mm_prefix_range x with Some (r, _, n) => Some (r, n) | None => None end)
    (ic_cu_seqlens_q x) (ic_seqused_k x) (length (ic_seqused_k x)) (BLOCK_M / num_queries_per_kv) BLOCK_M (fst <$> is_3d).

(** [total_num_q_blocks]. *)
Definition q_blocks (x : Int3Call) (a : Int3Args) : nat := (ic_tokens x / a_BLOCK_Q a + a_num_seqs a)%nat.

(** The programs [(q_block_global_idx, kv_head_idx, segm_idx)] of the grid. *)
Definition grid_rows (a : Int3Args) (c : KvCache) (query : list B) (blocks : nat) (segm_idx : option nat) :
    option (list (nat * nat * (f32 * f32 * list f32))) :=
  rows ← mapM (λ g, kvs ← mapM (λ kv_head_idx, int3_program a c query g kv_head_idx segm_idx) (seq 0 (kc_heads c)); Some (concat kvs))
    (seq 0 blocks);
  Some (concat rows).

(** The output, or [None] if a search did not end. *)
Definition unified_attention_kvquant_k3 (x : Int3Call) (c : KvCache) (out : list B) : result (option (list B)) :=
  _ ← raise_if (match ic_mm_prefix_range x with Some (_, ndim, _) => negb (ndim =? 3)%nat | None => false end) AssertionError;
  let a := launch_args x c in
  Ok (match use_3d x with
      | None =>
          rows ← grid_rows a c (ic_q x) (q_blocks x a) None;
          Some (apply_stores (map (output_store a) rows) out)
      | Some (segments, s) =>
          rows ← mapM (λ i, rows ← grid_rows a c (ic_q x) (q_blocks x a) (Some i); Some (map (λ r, (i, r)) rows)) (seq 0 segments);
          let s := fold_left (λ s '(i, row), store_segment a segments i row s) (concat rows) s in
          stores ← mapM (λ t, hs ← mapM (reduce_segments a segments s t) (seq 0 (ic_query_heads x)); Some hs) (seq 0 (ic_tokens x));
          Some (apply_stores (concat stores) out)
      end).
End Int3Attention.

(** ** The specification *)

Section Specification.
Context `{TF : TorchFloat} {TR : TritonFloat} {TA : TritonReduce} {TS : TritonScores} {FW : Float32Words TF} {TG : TorchSigned TF}.
Context {B : Type} {FT : FloatType B}.
Variables (x : Int3Call (B := B)) (c : KvCache).
Let a : Int3Args := launch_args x c.

(** The row of token [t] of sequence [s] that was written, for keys (0) and values (1). *)
Variable token : nat → nat → nat → nat → list f32.  (* s kv t head *)

(** The tile lanes of a sequence, quantized token by token. *)
Definition sequence_loads (s head : nat) (max_seq_prefix_len : Z) : Loads :=
  let row kv off := token s kv (Z.to_nat off) head in
  mkLoads
    (λ kv off d, int3_signed (if (off <? max_seq_prefix_len)%Z
       then int3_code (int3_scale (row kv off)) (nth d (row kv off) f32_zero) else 0%Z))
    (λ kv off, if (off <? max_seq_prefix_len)%Z then f32_of_word (f32_word (int3_scale (row kv off))) else f32_one).

Definition cu (s : nat) : Z := nth s (ic_cu_seqlens_q x) 0%Z.
Definition query_len (s : nat) : Z := (cu (s + 1) - cu s)%Z.
Definition kv_len (s : nat) : Z := nth s (ic_seqused_k x) 0%Z.
Definition token_index (s i : nat) : nat := Z.to_nat (cu s + Z.of_nat i).
Definition out_index (t h : nat) : nat := (t * (ic_query_heads x * ic_head_size x) + h * ic_head_size x)%nat.

(** Query [i] of sequence [s] under query head [h]. *)
Definition query_row (s i h : nat) : Row :=
  mkRow (tab (ic_head_size x) (λ d, ft_load (nth (out_index (token_index s i) h + d) (ic_q x) ft_zero)))
    true (Z.of_nat i) h (kv_len s - query_len s) s (Z.of_nat (i / a_BLOCK_Q a * a_BLOCK_Q a)).

(** Its running softmax over the whole sequence, or over one segment of it. *)
Definition segment_of (s : nat) (segm_idx : option nat) : option (Z * Z) :=
  match segm_idx, a_NUM_SEGMENTS a with
  | Some i, Some n => Some (Z.of_nat i, tiles_per_segment a (kv_len s) n)
  | _, _ => None
  end.

Definition sequence_row (s i h : nat) (segm_idx : option nat) : f32 * f32 * list f32 :=
  let '(loop_lo, loop_hi, max_seq_prefix_len) :=
    compute_tile_loop_bounds (kv_len s - query_len s) (kv_len s) (query_len s) (Z.of_nat (i / a_BLOCK_Q a)) (segment_of s segm_idx)
      (Z.of_nat (a_TILE_SIZE a)) (Z.of_nat (a_BLOCK_M a)) (Z.of_nat (a_BLOCK_Q a)) (Z.of_nat (a_num_queries_per_kv a))
      (a_SLIDING_WINDOW a) (match a_mm_prefix a with Some _ => true | None => false end) in
  int3_row a (sequence_loads s (h / a_num_queries_per_kv a) max_seq_prefix_len) (query_row s i h) loop_lo loop_hi
    (init_softmax_M (a_sinks a) h (a_num_query_heads a) (fst <$> segment_of s segm_idx)).

(** The segments of a sequence that hold tokens, and their combination. *)
Definition combine_segments (segments s i h : nat) (d : nat) : B :=
  let live j := (Z.of_nat j * tiles_per_segment a (kv_len s) segments * Z.of_nat (a_TILE_SIZE a) <? kv_len s)%Z in
  let row j := sequence_row s i h (Some j) in
  merged_value a (merge_segments segments
    (λ j, if live j then (row j).1.1 else tl_neg_inf)
    (λ j, if live j then (row j).1.2 else f32_zero)
    (λ j, if live j then nth d (row j).2 f32_zero else f32_zero)).

Definition attention_value (s i h d : nat) : B :=
  match use_3d x with
  | None => let '(M, L, acc) := sequence_row s i h None in output_value a L (nth d acc f32_zero)
  | Some (segments, _) => combine_segments segments s i h d
  end.

(** The geometry of a call: query heads in whole groups that divide the rows of a
    program, cumulative query lengths within the token count, sequences at least as
    long as their queries, and buffers of the launcher's sizes. *)
Definition call_ok (out : list B) : Prop :=
  let group := (ic_query_heads x / kc_heads c)%nat in
  let n := length (ic_seqused_k x) in
  (ic_query_heads x = kc_heads c * group)%nat ∧ (0 < group)%nat ∧ (group | a_BLOCK_M a)%nat
  ∧ (0 < n)%nat ∧ cu_ok (ic_cu_seqlens_q x) n ∧ (cu n ≤ Z.of_nat (ic_tokens x))%Z
  ∧ (∀ s, (s < n)%nat → (query_len s ≤ kv_len s)%Z)
  ∧ (match ic_mm_prefix_range x with Some (_, ndim, _) => ndim = 3%nat | None => True end)
  ∧ length out = (ic_tokens x * ic_query_heads x * ic_head_size x)%nat
  ∧ (match use_3d x with
     | Some (segments, s) =>
         let cells := (ic_tokens x * ic_query_heads x * segments)%nat in
         length (sg_max s) = cells ∧ length (sg_expsum s) = cells ∧ length (sg_output s) = (cells * ic_head_size x)%nat
     | None => True
     end).

(** The storage holds every token of every sequence behind its block table, as
    [int3_cache_roundtrip] leaves it. *)
Definition cache_holds : Prop :=
  ∀ s kv t head, (s < length (ic_seqused_k x))%nat → (kv < 2)%nat → (Z.of_nat t < kv_len s)%Z → (head < kc_heads c)%nat →
  let block := nth (s * ic_block_table_stride x + t / kc_block_size c) (ic_block_table x) 0%nat in
  let row := token s kv t head in
  (∀ d, (d < ic_head_size x)%nat →
     int3_code_load (kc_mem c) (kv_base c kv) (kv_strides c) block (t mod kc_block_size c) head d
     = int3_code (int3_scale row) (nth d row f32_zero))
  ∧ scale_load c kv block (t mod kc_block_size c) head = f32_of_word (f32_word (int3_scale row)).

(** ** Rows depend on the lanes they load *)

Lemma fold_left_eq_in {S E} (f g : S → E → S) l : (∀ s e, In e l → f s e = g s e) → ∀ s, fold_left f l s = fold_left g l s.
Proof. induction l as [|e l IH]; intros H s; [done|]. cbn [fold_left]. rewrite H by (by left). apply IH. intros s' e' He. apply H. by right. Qed.

Lemma int3_score_ext (ld ld' : Loads) r off :
  (∀ d, (d < a_HEAD_SIZE a)%nat → ld_signed ld 0 off d = ld_signed ld' 0 off d) → ld_scale ld 0 off = ld_scale ld' 0 off →
  int3_score a ld r off = int3_score a ld' r off.
Proof. intros H1 H2. unfold int3_score. by rewrite H2, (tab_ext _ _ _ H1). Qed.

Lemma int3_row_ext (ld ld' : Loads) r lo hi M :
  (0 ≤ lo)%Z →
  (∀ kv off d, (kv < 2)%nat → (0 ≤ off)%Z → (d < a_HEAD_SIZE a)%nat → ld_signed ld kv off d = ld_signed ld' kv off d) →
  (∀ kv off, (kv < 2)%nat → (0 ≤ off)%Z → ld_scale ld kv off = ld_scale ld' kv off) →
  int3_row a ld r lo hi M = int3_row a ld' r lo hi M.
Proof.
  intros Hlo H1 H2. unfold int3_row. apply fold_left_eq_in. intros [[M' L] acc] j Hj.
  apply list_elem_of_In, elem_of_seqZ in Hj. unfold int3_tile.
  assert (∀ t, 0 ≤ j * Z.of_nat (a_TILE_SIZE a) + Z.of_nat t)%Z as Hoff by (intros t; nia).
  rewrite (tab_ext _ (λ t, int3_score a ld r _) (λ t, int3_score a ld' r (j * Z.of_nat (a_TILE_SIZE a) + Z.of_nat t))).
  2: { intros t Ht. apply int3_score_ext; [intros d Hd; apply H1|apply H2]; (lia || apply Hoff). }
  destruct (softmax_step _ M' L) as [[[M2 L2] P] alpha]. f_equal. apply tab_ext. intros d Hd. f_equal. f_equal; apply tab_ext; intros t Ht.
  - f_equal. apply H2; (lia || apply Hoff).
  - unfold int3_value. destruct (_ || _); [|done]. apply H1; (lia || apply Hoff).
Qed.
Lemma int3_row_length ld r lo hi M : length (int3_row a ld r lo hi M).2 = ic_head_size x.
Proof.
  unfold int3_row. set (st := (M, f32_one, _)). assert (length st.2 = ic_head_size x) as H by apply tab_length.
  clearbody st. generalize dependent st. induction (seqZ lo (hi - lo)) as [|j l IH]; intros st H; [done|].
  cbn [fold_left]. apply IH. destruct st as [[M' L] acc]. unfold int3_tile. destruct (softmax_step _ M' L) as [[[M2 L2] P] alpha].
  apply tab_length.
Qed.

Lemma sequence_row_length s i h segm_idx : length (sequence_row s i h segm_idx).2 = ic_head_size x.
Proof. unfold sequence_row. destruct (compute_tile_loop_bounds _ _ _ _ _ _ _ _ _ _ _) as [[lo hi] P]. apply int3_row_length. Qed.

Lemma merge_segments_ext segments m m' l l' v v' :
  (∀ j, (j < segments)%nat → m j = m' j ∧ l j = l' j ∧ v j = v' j) → merge_segments segments m l v = merge_segments segments m' l' v'.
Proof.
  intros H. unfold merge_segments. rewrite (tab_ext segments m m') by (intros j Hj; by apply H).
  rewrite (tab_ext segments _ (λ i, f32_mul (l' i) (tl_exp (f32_sub (m' i) (tl_max (tab segments m'))))))
    by (intros j Hj; by destruct (H j Hj) as (-> & -> & _)).
  rewrite (tab_ext segments (λ i, f32_mul (v i) _) (λ i, f32_mul (v' i) (tl_exp (f32_sub (m' i) (tl_max (tab segments m'))))))
    by (intros j Hj; by destruct (H j Hj) as (-> & _ & ->)).
  done.
Qed.

(** ** Searches that all end *)

Lemma mapM_concat_in {S R} (f : S → option (list R)) (Q : S → R → Prop) l :
  (∀ e, In e l → ∃ rs, f e = Some rs ∧ ∀ r, In r rs ↔ Q e r) →
  ∃ rss, mapM f l = Some rss ∧ ∀ r, In r (concat rss) ↔ ∃ e, In e l ∧ Q e r.
Proof.
  induction l as [|e l IH]; intros H.
  - exists []. split; [done|]. intros r. split; [done|]. by intros (e & [] & _).
  - destruct (H e (or_introl eq_refl)) as (rs & E & Hr).
    destruct IH as (rss & El & Hl); [intros e' He'; apply H; by right|]. exists (rs :: rss). split.
    + cbn [mapM]. by rewrite E, El.
    + intros r. cbn [concat]. rewrite in_app_iff, Hr, Hl. split.
      * intros [Hq|(e' & He' & Hq)]; [exists e; by split; [left|]|exists e'; by split; [right|]].
      * intros (e' & [->|He'] & Hq); [by left|right; by exists e'].
Qed.

Lemma mapM_in {S R} (f : S → option R) l : ∀ rs, mapM f l = Some rs → ∀ r, In r rs ↔ ∃ e, In e l ∧ f e = Some r.
Proof.
  induction l as [|e l IH]; intros rs H r; cbn [mapM] in H.
  - injection H as <-. split; [done|]. by intros (e & [] & _).
  - destruct (f e) as [y|] eqn:E; [|done]. cbn [mbind option_bind] in H. destruct (mapM f l) as [ys|] eqn:El; [|done].
    injection H as <-. cbn [In]. rewrite (IH ys eq_refl r). split.
    + intros [->|(e' & He' & E')]; [exists e; by split; [left|]|exists e'; by split; [right|]].
    + intros (e' & [->|He'] & E'); [left; congruence|right; by exists e'].
Qed.

(** ** The rows of a program *)

Section Rows.
Variable out : list B.
Hypotheses (Hx : call_ok out) (Hc : cache_holds).
Let group : nat := (ic_query_heads x / kc_heads c)%nat.
Let n : nat := length (ic_seqused_k x).
Let BQ : nat := a_BLOCK_Q a.

Lemma block_m_split : a_BLOCK_M a = (BQ * group)%nat ∧ (0 < BQ)%nat ∧ (0 < group)%nat.
Proof.
  destruct Hx as (_ & Hg & Hd & _). fold group in Hg, Hd.
  assert (0 < a_BLOCK_M a)%nat as HM.
  { unfold a, launch_args. cbn [a_BLOCK_M]. destruct (_ <=? 16)%nat; [lia|]. unfold next_power_of_2.
    apply Nat.neq_0_lt_0, Nat.pow_nonzero. lia. }
  destruct Hd as [k Hk]. assert (BQ = k) as E.
  { unfold BQ. change (a_BLOCK_Q a) with (a_BLOCK_M a / group)%nat. rewrite Hk. apply Nat.div_mul. lia. }
  rewrite Hk, E in *. split; [lia|]. split; [|done]. destruct k; lia.
Qed.

Lemma head_of_group h : (h < ic_query_heads x)%nat → (h / group < kc_heads c)%nat.
Proof. destruct Hx as (E & Hg & _). fold group in E, Hg. intros H. apply Nat.Div0.div_lt_upper_bound. lia. Qed.

(** A segment that starts within the sequence. *)
Definition live (s : nat) (segm_idx : option nat) : bool :=
  match segment_of s segm_idx with
  | Some (i, tps) => negb (kv_len s <=? i * tps * Z.of_nat (a_TILE_SIZE a))%Z
  | None => true
  end.

Definition seq_block (s l : nat) : SeqBlock := mkSeqBlock s (Z.of_nat l) (cu s) (query_len s) (kv_len s).

(** The loads behind the block table are those of the sequence. *)
Lemma device_loads_ok s head P kv off d :
  (s < n)%nat → (head < kc_heads c)%nat → (P ≤ kv_len s)%Z → (kv < 2)%nat → (0 ≤ off)%Z → (d < ic_head_size x)%nat →
  ld_signed (device_loads a c s head P) kv off d = ld_signed (sequence_loads s head P) kv off d
  ∧ ld_scale (device_loads a c s head P) kv off = ld_scale (sequence_loads s head P) kv off.
Proof.
  intros Hs Hh HP Hkv Ho Hd. unfold device_loads, sequence_loads. cbn [ld_signed ld_scale].
  destruct (Z.ltb_spec off P) as [Hlt|Hge]; [|done].
  destruct (Hc s kv (Z.to_nat off) head Hs Hkv ltac:(lia) Hh) as [H1 H2]. split; [f_equal; by apply H1|exact H2].
Qed.

Lemma block_row_ok s l kv m :
  (m < a_BLOCK_M a)%nat → r_valid (block_row a (ic_q x) (seq_block s l) kv m) = true →
  let i := (l * BQ + m / group)%nat in let h := (kv * group + m mod group)%nat in
  block_row a (ic_q x) (seq_block s l) kv m = query_row s i h
  ∧ (Z.of_nat i < query_len s)%Z ∧ (h < ic_query_heads x)%nat ∧ (i / BQ = l)%nat ∧ (h / group = kv)%nat
  ∧ Z.to_nat (cu s + r_query_pos (block_row a (ic_q x) (seq_block s l) kv m)) = token_index s i.
Proof.
  intros Hm Hv i h. destruct block_m_split as (EM & HB & Hg). rewrite EM in Hm.
  assert (m / group < BQ)%nat as Hq by (apply Nat.Div0.div_lt_upper_bound; lia).
  pose proof (Nat.mod_upper_bound m group ltac:(lia)) as Hr.
  assert (i / BQ = l)%nat as Ei by (unfold i; rewrite Nat.div_add_l, Nat.div_small by lia; lia).
  assert (h / group = kv)%nat as Eh by (unfold h; rewrite Nat.div_add_l, (Nat.div_small (m mod group)) by lia; lia).
  assert (Z.of_nat l * Z.of_nat BQ + Z.of_nat (m / group) = Z.of_nat i)%Z as Ep by (unfold i; lia).
  revert Hv. unfold block_row, seq_block. cbn [r_valid r_query_pos cur_start cur_batch_query_len q_block_local_idx seq_len seq_idx].
  change (a_num_queries_per_kv a) with group. fold BQ. rewrite Ep. fold h (token_index s i).
  change (a_num_query_heads a) with (ic_query_heads x). intros Hv. rewrite Hv. apply andb_true_iff in Hv as [V1 V2].
  apply Z.ltb_lt in V1. apply Nat.ltb_lt in V2. split; [|done]. unfold query_row. fold BQ. rewrite Ei. f_equal. lia.
Qed.

(** A row of the kernel is the row of the sequence. *)
Lemma int3_row_ok s i h lo hi P M :
  (s < n)%nat → (h < ic_query_heads x)%nat → (P ≤ kv_len s)%Z → (0 ≤ lo)%Z →
  int3_row a (device_loads a c s (h / group) P) (query_row s i h) lo hi M
  = int3_row a (sequence_loads s (h / group) P) (query_row s i h) lo hi M.
Proof.
  intros Hs Hh HP Hlo. pose proof (head_of_group h Hh) as Hkv. apply int3_row_ext; [done| |].
  - intros kv off d H1 H2 H3. by apply device_loads_ok.
  - intros kv off H1 H2. destruct (Nat.eq_0_gt_0_cases (ic_head_size x)) as [E|Hd].
    + unfold device_loads, sequence_loads. cbn [ld_scale]. destruct (Z.ltb_spec off P) as [Hlt|Hge]; [|done].
      by destruct (Hc s kv (Z.to_nat off) (h / group) Hs H1 ltac:(lia) Hkv) as [_ Hs2].
    + by apply (device_loads_ok s (h / group) P kv off 0).
Qed.

Lemma block_rows_in s l kv segm_idx row :
  (s < n)%nat → (kv < kc_heads c)%nat →
  In row (block_rows a c (ic_q x) (seq_block s l) kv segm_idx) ↔
  live s segm_idx = true ∧ ∃ i h, (Z.of_nat i < query_len s)%Z ∧ (h < ic_query_heads x)%nat ∧ (i / BQ = l)%nat ∧ (h / group = kv)%nat
    ∧ row = (token_index s i, h, sequence_row s i h segm_idx).
Proof.
  intros Hs Hkv. destruct block_m_split as (EM & HB & Hg). unfold block_rows.
  cbn [seq_block cur_batch_query_len q_block_local_idx seq_len seq_idx cur_start]. fold BQ (segment_of s segm_idx).
  change (match segm_idx with Some i => match a_NUM_SEGMENTS a with Some n => Some (Z.of_nat i, tiles_per_segment a (kv_len s) n)
          | None => None end | None => None end) with (segment_of s segm_idx).
  destruct (Z.leb_spec (query_len s) (Z.of_nat l * Z.of_nat BQ)) as [Hle|Hgt].
  { split; [done|]. intros (_ & i & h & Hi & _ & El & _). pose proof (Nat.div_mod_eq i BQ). nia. }
  assert ((match segment_of s segm_idx with Some (i, tps) => kv_len s <=? i * tps * Z.of_nat (a_TILE_SIZE a) | None => false end)%Z
          = negb (live s segm_idx)) as -> by (unfold live; destruct (segment_of s segm_idx) as [[i tps]|]; by rewrite ?negb_involutive).
  destruct (live s segm_idx); cbn [negb]; [|split; [done|by intros [? _]]].
  pose proof (tile_loop_bounds_ok (Z.of_nat BQ) (kv_len s - query_len s) (kv_len s) (query_len s) (Z.of_nat l) (segment_of s segm_idx)
    (Z.of_nat (a_TILE_SIZE a)) (Z.of_nat (a_BLOCK_M a)) (Z.of_nat (a_num_queries_per_kv a)) (a_SLIDING_WINDOW a)
    (match a_mm_prefix a with Some _ => true | None => false end)) as Hb.
  assert (∀ i h, (h < ic_query_heads x)%nat → (i / BQ = l)%nat → (h / group = kv)%nat → sequence_row s i h segm_idx
    = let '(lo, hi, P) := compute_tile_loop_bounds (kv_len s - query_len s) (kv_len s) (query_len s) (Z.of_nat l) (segment_of s segm_idx)
        (Z.of_nat (a_TILE_SIZE a)) (Z.of_nat (a_BLOCK_M a)) (Z.of_nat BQ) (Z.of_nat (a_num_queries_per_kv a))
        (a_SLIDING_WINDOW a) (match a_mm_prefix a with Some _ => true | None => false end) in
      int3_row a (device_loads a c s kv P) (query_row s i h) lo hi
        (init_softmax_M (a_sinks a) h (a_num_query_heads a) (fst <$> segment_of s segm_idx))) as Hrow.
  { intros i h Hh Ei Eh. unfold sequence_row. fold BQ. change (a_num_queries_per_kv a) with group. rewrite Ei, Eh.
    change (a_num_queries_per_kv a) with group in Hb. destruct (compute_tile_loop_bounds _ _ _ _ _ _ _ _ _ _ _) as [[lo hi] P].
    destruct Hb as [Hlo HP]. rewrite <-Eh. symmetry. by apply int3_row_ok. }
  destruct (compute_tile_loop_bounds _ _ _ _ _ _ _ _ _ _ _) as [[lo hi] P]. rewrite <-list_elem_of_In, list_elem_of_omap. split.
  - intros (m & Hm & Hr). split; [done|]. destruct (r_valid _) eqn:Hv; [|done]. apply (inj Some) in Hr as <-.
    apply list_elem_of_In, in_seq in Hm.
    destruct (block_row_ok s l kv m ltac:(lia) Hv) as (E & H1 & H2 & H3 & H4 & H5).
    exists (l * BQ + m / group)%nat, (kv * group + m mod group)%nat. do 4 (split; [done|]).
    rewrite H5, Hrow by done. by rewrite E.
  - intros (_ & i & h & Hi & Hh & Ei & Eh & ->). set (m := (i mod BQ * group + h mod group)%nat). exists m.
    pose proof (Nat.mod_upper_bound i BQ ltac:(lia)). pose proof (Nat.mod_upper_bound h group ltac:(lia)).
    assert (m < a_BLOCK_M a)%nat as Hm by (rewrite EM; unfold m; nia).
    assert (m / group = i mod BQ)%nat as Eq by (unfold m; rewrite Nat.div_add_l, (Nat.div_small (h mod group)) by lia; lia).
    assert (m mod group = h mod group)%nat as Er by (unfold m; rewrite Nat.add_comm, Nat.Div0.mod_add; by apply Nat.mod_small).
    assert (l * BQ + m / group = i)%nat as Ei' by (rewrite Eq, <-Ei, Nat.mul_comm; symmetry; apply Nat.div_mod_eq).
    assert (kv * group + m mod group = h)%nat as Eh' by (rewrite Er, <-Eh, Nat.mul_comm; symmetry; apply Nat.div_mod_eq).
    split; [apply list_elem_of_In, in_seq; lia|].
    assert (r_valid (block_row a (ic_q x) (seq_block s l) kv m) = true) as Hv.
    { cbn [block_row seq_block r_valid q_block_local_idx cur_batch_query_len]. change (a_num_queries_per_kv a) with group.
      change (a_num_query_heads a) with (ic_query_heads x). fold BQ. rewrite Eh', andb_true_iff, Z.ltb_lt, Nat.ltb_lt. lia. }
    destruct (block_row_ok s l kv m Hm Hv) as (E & _ & _ & _ & _ & H5). rewrite Hv, H5, Hrow by done. rewrite E, Ei', Eh'. done.
Qed.

(** The rows of the grid: one for each query of each sequence under each head. *)
Definition grid_row (segm_idx : option nat) (row : nat * nat * (f32 * f32 * list f32)) : Prop :=
  ∃ s i h, (s < n)%nat ∧ (Z.of_nat i < query_len s)%Z ∧ (h < ic_query_heads x)%nat ∧ live s segm_idx = true
  ∧ row = (token_index s i, h, sequence_row s i h segm_idx).

Lemma grid_rows_in segm_idx :
  ∃ rows, grid_rows a c (ic_q x) (q_blocks x a) segm_idx = Some rows ∧ ∀ row, In row rows ↔ grid_row segm_idx row.
Proof.
  destruct block_m_split as (_ & HB & _). destruct Hx as (_ & _ & _ & Hn & Hcu & Ht & _). fold n in Hn, Hcu, Ht.
  assert (0 < Z.of_nat BQ)%Z as HBZ by lia. set (resolve g := resolve_seq_and_query_len (ic_cu_seqlens_q x) (ic_seqused_k x) g n (Z.of_nat BQ)).
  set (prog (g kv : nat) row := ∃ s l, (s < n)%nat ∧ resolve (Z.of_nat g) = Some (seq_block s l) ∧ live s segm_idx = true
    ∧ ∃ i h, (Z.of_nat i < query_len s)%Z ∧ (h < ic_query_heads x)%nat ∧ (i / BQ = l)%nat ∧ (h / group = kv)%nat
    ∧ row = (token_index s i, h, sequence_row s i h segm_idx)).
  unfold grid_rows.
  destruct (mapM_concat_in (λ g, kvs ← mapM (λ kv, int3_program a c (ic_q x) g kv segm_idx) (seq 0 (kc_heads c)); Some (concat kvs))
    (λ g row, ∃ kv, In kv (seq 0 (kc_heads c)) ∧ prog g kv row) (seq 0 (q_blocks x a))) as (rows & E & Hr).
  { intros g _. destruct (mapM_concat_in (λ kv, int3_program a c (ic_q x) g kv segm_idx) (prog g) (seq 0 (kc_heads c))) as (kvs & -> & Hk);
      [|by exists (concat kvs)].
    intros kv Hkv%in_seq. destruct (resolve_total _ n (Z.of_nat BQ) Hcu HBZ (ic_seqused_k x) (Z.of_nat g) Hn ltac:(lia)) as (s & l & Hs & E).
    exists (block_rows a c (ic_q x) (seq_block s l) kv segm_idx). split.
    - unfold int3_program. change (a_query_start_len a) with (ic_cu_seqlens_q x). change (a_seq_lens a) with (ic_seqused_k x).
      change (a_num_seqs a) with n. fold BQ. by rewrite E.
    - intros row. rewrite block_rows_in by (done || lia). unfold prog. split.
      + intros H. by exists s, l.
      + intros (s' & l' & Hs' & E' & H). unfold resolve in E'. rewrite E in E'. injection E' as <- Hl _ _ _. apply Nat2Z.inj in Hl as <-. exact H. }
  rewrite E. exists (concat rows). split; [done|]. intros row. rewrite Hr. unfold grid_row. split.
  - intros (g & _ & kv & _ & s & l & Hs & _ & Hlive & i & h & Hi & Hh & _ & _ & ->). by exists s, i, h.
  - intros (s & i & h & Hs & Hi & Hh & Hlive & ->).
    assert (0 ≤ Z.of_nat i < query_len s)%Z as Hi' by lia. unfold query_len, cu in Hi'.
    pose proof (program_in_grid _ n (Z.of_nat BQ) Hcu HBZ s (Z.of_nat i) (Z.of_nat (ic_tokens x)) Hs Hi' Ht) as Hg.
    pose proof (resolve_block _ n (Z.of_nat BQ) Hcu HBZ (ic_seqused_k x) s (Z.of_nat i) Hs Hi') as Er.
    set (g := (first_program (ic_cu_seqlens_q x) (Z.of_nat BQ) s + Z.of_nat i / Z.of_nat BQ)%Z) in *.
    rewrite <-!Nat2Z.inj_div in *. exists (Z.to_nat g). split.
    + apply in_seq. unfold q_blocks. fold BQ. change (a_num_seqs a) with n. lia.
    + exists (h / group)%nat. split; [apply in_seq; pose proof (head_of_group h Hh); lia|].
      exists s, (i / BQ)%nat. split; [done|]. split; [unfold resolve; rewrite Z2Nat.id by lia; exact Er|].
      split; [done|]. by exists i, h.
Qed.

(** ** The stores of the grid *)

Lemma token_index_bound s i : (s < n)%nat → (Z.of_nat i < query_len s)%Z → (token_index s i < ic_tokens x)%nat.
Proof.
  destruct Hx as (_ & _ & _ & Hn & Hcu & Ht & _). fold n in Hn, Hcu, Ht. intros Hs Hi. unfold token_index, query_len, cu in *.
  pose proof (cu_nonneg _ n Hcu s ltac:(lia)). pose proof (cu_mono _ n Hcu (s + 1) n ltac:(lia)). cbv zeta beta in *. lia.
Qed.

Lemma token_index_inj s i s' i' :
  (s < n)%nat → (s' < n)%nat → (Z.of_nat i < query_len s)%Z → (Z.of_nat i' < query_len s')%Z →
  token_index s i = token_index s' i' → s = s' ∧ i = i'.
Proof.
  destruct Hx as (_ & _ & _ & Hn & Hcu & _). fold n in Hn, Hcu. intros Hs Hs' Hi Hi' E. unfold token_index, query_len, cu in *.
  pose proof (cu_nonneg _ n Hcu s ltac:(lia)). pose proof (cu_nonneg _ n Hcu s' ltac:(lia)). cbv zeta beta in *.
  destruct (cu_unique _ n Hcu s s' (Z.of_nat i) (Z.of_nat i') Hs Hs') as [-> Ei]; [lia|lia|lia|]. split; [done|lia].
Qed.

(** The cell of a token under a head, of a tensor [tokens, heads, ...]. *)
Definition head_cell (t h : nat) : nat := (t * ic_query_heads x + h)%nat.

Lemma head_cell_bound t h : (t < ic_tokens x)%nat → (h < ic_query_heads x)%nat → (head_cell t h + 1 ≤ ic_tokens x * ic_query_heads x)%nat.
Proof. unfold head_cell. nia. Qed.

Lemma cell_fits i w m : (i + 1 ≤ m)%nat → (i * w + w ≤ m * w)%nat.
Proof. nia. Qed.

Lemma out_index_cell t h : out_index t h = (head_cell t h * ic_head_size x)%nat.
Proof. unfold out_index, head_cell. lia. Qed.

Lemma grid_row_unique segm_idx t h row row' :
  grid_row segm_idx (t, h, row) → grid_row segm_idx (t, h, row') → row = row'.
Proof.
  intros (s & i & h1 & Hs & Hi & Hh & _ & E) (s' & i' & h2 & Hs' & Hi' & Hh' & _ & E').
  apply pair_eq in E as [Ea Er], E' as [Ea' Er']. apply pair_eq in Ea as [Et <-], Ea' as [Et' <-]. rewrite Et in Et'.
  destruct (token_index_inj s i s' i' Hs Hs' Hi Hi' Et') as [<- <-]. congruence.
Qed.

(** A store of the kernel is the cell of its row. *)
Lemma output_store_row t h row :
  output_store a (t, h, row) = ((head_cell t h * ic_head_size x)%nat, map (output_value a row.1.2) row.2).
Proof. destruct row as [[M L] acc]. unfold output_store. cbn [fst snd]. f_equal. apply out_index_cell. Qed.

(** One kernel launch that stores the output. *)
Lemma direct_stores rows :
  use_3d x = None → (∀ row, In row rows ↔ grid_row None row) →
  length (apply_stores (map (output_store a) rows) out) = length out
  ∧ ∀ s i h d, (s < n)%nat → (Z.of_nat i < query_len s)%Z → (h < ic_query_heads x)%nat → (d < ic_head_size x)%nat →
      nth (out_index (token_index s i) h + d) (apply_stores (map (output_store a) rows) out) ft_zero = attention_value s i h d.
Proof.
  intros H3 Hr. destruct Hx as (_ & _ & _ & _ & _ & _ & _ & _ & Hl & _).
  assert (cell_stores (ic_head_size x) (length out) (map (output_store a) rows)) as Hw.
  { intros st (row & <- & (s & i & h & Hs & Hi & Hh & _ & ->)%Hr)%in_map_iff. exists (head_cell (token_index s i) h).
    rewrite output_store_row. cbn [fst snd]. rewrite length_map, sequence_row_length, Hl. split; [done|]. split; [done|].
    apply cell_fits, head_cell_bound; [by apply token_index_bound|done]. }
  split; [by apply (cells_length (ic_head_size x))|]. intros s i h d Hs Hi Hh Hd. rewrite out_index_cell.
  rewrite (cells_read _ _ _ _ (map (output_value a (sequence_row s i h None).1.2) (sequence_row s i h None).2) _ _ Hw); [| |done|].
  - unfold attention_value. rewrite H3. pose proof (sequence_row_length s i h None) as El.
    destruct (sequence_row s i h None) as [[M L] acc]. cbn [fst snd] in *. by rewrite (nth_map_lt _ _ _ _ f32_zero) by lia.
  - rewrite <-output_store_row. apply in_map, Hr. by exists s, i, h.
  - intros v' ([[t h'] row] & E & Hg%Hr)%in_map_iff. rewrite output_store_row in E. injection E as Ec <-.
    assert (t = token_index s i ∧ h' = h) as [-> ->].
    { destruct Hg as (s2 & i2 & h2 & _ & _ & Hh2 & _ & Eg). apply pair_eq in Eg as [Eg _]. apply pair_eq in Eg as [_ ->].
      apply (pair_inj _ _ _ _ (ic_query_heads x)); [done|done|]. unfold head_cell in Ec. nia. }
    assert (row = sequence_row s i h None) as -> by (apply (grid_row_unique None (token_index s i) h); [done|by exists s, i, h]). done.
Qed.

(** The launches that store segments, and their reduction. *)
Section Split.
Variables (segments : nat) (sg : Segments).
Hypothesis (H3 : use_3d x = Some (segments, sg)).
Let D : nat := ic_head_size x.

Definition segment_cell (e : nat * (nat * nat * (f32 * f32 * list f32))) : nat := segment_index a segments e.2.1.1 e.2.1.2 e.1.

Lemma store_segments_fold rows : ∀ s,
  fold_left (λ s '(i, row), store_segment a segments i row s) rows s
  = mkSegments (apply_stores (map (λ e, ((segment_cell e * D)%nat, e.2.2.2)) rows) (sg_output s))
      (apply_stores (map (λ e, ((segment_cell e * 1)%nat, [e.2.2.1.1])) rows) (sg_max s))
      (apply_stores (map (λ e, ((segment_cell e * 1)%nat, [e.2.2.1.2])) rows) (sg_expsum s)).
Proof.
  induction rows as [|[j [[t h] [[M L] acc]]] rows IH]; intros s; [by destruct s|]. cbn [fold_left]. rewrite IH.
  unfold store_segment, segment_cell. cbn [fst snd map sg_output sg_max sg_expsum]. rewrite !Nat.mul_1_r. reflexivity.
Qed.

(** The entries that are stored: the segments that start within their sequence. *)
Definition split_row (e : nat * (nat * nat * (f32 * f32 * list f32))) : Prop := (e.1 < segments)%nat ∧ grid_row (Some e.1) e.2.

Lemma split_rows_in :
  ∃ rows, mapM (λ i, rows ← grid_rows a c (ic_q x) (q_blocks x a) (Some i); Some (map (λ r, (i, r)) rows)) (seq 0 segments) = Some rows
  ∧ ∀ e, In e (concat rows) ↔ split_row e.
Proof.
  destruct (mapM_concat_in (λ i, rows ← grid_rows a c (ic_q x) (q_blocks x a) (Some i); Some (map (λ r, (i, r)) rows))
    (λ i e, e.1 = i ∧ grid_row (Some i) e.2) (seq 0 segments)) as (rows & E & Hr).
  - intros i _. destruct (grid_rows_in (Some i)) as (rows & -> & Hr). exists (map (λ r, (i, r)) rows). split; [done|].
    intros [j r]. rewrite in_map_iff. cbn [fst snd]. split.
    + intros (r' & [= <- <-] & H). split; [done|by apply Hr].
    + intros [-> H]. exists r. split; [done|by apply Hr].
  - exists rows. split; [done|]. intros e. rewrite Hr. unfold split_row. split.
    + intros (i & Hi%in_seq & <- & H). split; [lia|done].
    + intros [Hi H]. exists e.1. split; [apply in_seq; lia|done].
Qed.

Lemma segment_index_cell t h j : segment_index a segments t h j = (head_cell t h * segments + j)%nat.
Proof. unfold segment_index, head_cell. change (a_num_query_heads a) with (ic_query_heads x). lia. Qed.

Lemma segment_cell_fits e w : split_row e → (segment_cell e * w + w ≤ ic_tokens x * ic_query_heads x * segments * w)%nat.
Proof.
  destruct e as [j [[t h] r]]. intros [Hj (s & i & h' & Hs & Hi & Hh & _ & E)]. cbn [fst snd] in *.
  apply pair_eq in E as [E _]. apply pair_eq in E as [-> ->]. apply cell_fits. unfold segment_cell. cbn [fst snd]. rewrite segment_index_cell.
  pose proof (head_cell_bound (token_index s i) h' (token_index_bound s i Hs Hi) Hh) as Hb.
  pose proof (cell_fits _ segments _ Hb). lia.
Qed.

Lemma split_row_unique e e' : split_row e → split_row e' → segment_cell e = segment_cell e' → e = e'.
Proof.
  destruct e as [j [[t h] r]], e' as [j' [[t' h'] r']]. unfold segment_cell. intros [Hj Hg] [Hj' Hg']. cbn [fst snd] in *.
  rewrite !segment_index_cell. intros [Ec <-]%pair_inj; [|done|done].
  assert (t = t' ∧ h = h') as [<- <-].
  { pose proof Hg as (s1 & i1 & h1 & _ & _ & Hh & _ & E). pose proof Hg' as (s2 & i2 & h2 & _ & _ & Hh' & _ & E').
    apply pair_eq in E as [E _], E' as [E' _]. apply pair_eq in E as [_ ->], E' as [_ ->]. by apply pair_inj in Ec. }
  f_equal. f_equal. by apply (grid_row_unique (Some j) t h).
Qed.

(** A buffer holds the entry of a stored row. *)
Lemma segment_buffer {V} (val : nat * (nat * nat * (f32 * f32 * list f32)) → list V) w rows mem e d y :
  (∀ e', split_row e' → length (val e') = w) → length mem = (ic_tokens x * ic_query_heads x * segments * w)%nat →
  (∀ e', In e' rows ↔ split_row e') → split_row e → (d < w)%nat →
  nth (segment_cell e * w + d) (apply_stores (map (λ e', ((segment_cell e' * w)%nat, val e')) rows) mem) y = nth d (val e) y.
Proof.
  intros Hv Hm Hr He Hd. apply cells_hit; [|by apply Hr|done|].
  - intros e' He'%Hr. split; [by apply Hv|]. rewrite Hm. by apply segment_cell_fits.
  - intros e' He'%Hr E. by rewrite (split_row_unique e' e He' He E).
Qed.

Lemma segment_lane s i j :
  (s < n)%nat → (Z.of_nat i < query_len s)%Z → (j < segments)%nat →
  let tps := tiles_per_segment a (kv_len s) segments in
  (Z.of_nat j <? cdiv_fn (kv_len s) (tps * Z.of_nat (a_TILE_SIZE a)))%Z = (Z.of_nat j * tps * Z.of_nat (a_TILE_SIZE a) <? kv_len s)%Z
  ∧ live s (Some j) = (Z.of_nat j * tps * Z.of_nat (a_TILE_SIZE a) <? kv_len s)%Z.
Proof.
  intros Hs Hi Hj tps. destruct Hx as (_ & _ & _ & _ & _ & _ & Hq & _). specialize (Hq s Hs).
  assert (0 < Z.of_nat (a_TILE_SIZE a))%Z as HT.
  { unfold a, launch_args. cbn [a_TILE_SIZE]. unfold _get_tile_size. destruct (_is_gemma3_attention _ _), (match use_3d x with Some _ => false | None => true end), (2 <=? ic_element_size x)%nat; lia. }
  assert (0 < tps)%Z as Htps.
  { unfold tps, tiles_per_segment. pose proof (cdiv_fn_lt (kv_len s) (Z.of_nat segments * Z.of_nat (a_TILE_SIZE a)) 0 ltac:(nia)) as E.
    apply Z.ltb_lt. rewrite E. apply Z.ltb_lt. lia. }
  split.
  - rewrite cdiv_fn_lt by nia. by rewrite Z.mul_assoc.
  - unfold live, segment_of. change (a_NUM_SEGMENTS a) with (fst <$> use_3d x). rewrite H3. cbn [fmap option_fmap option_map fst].
    fold tps. symmetry. apply Z.ltb_antisym.
Qed.

Lemma reduce_ok rows s i h (after := fold_left (λ s '(i, row), store_segment a segments i row s) rows sg) :
  (∀ e, In e rows ↔ split_row e) → (s < n)%nat → (Z.of_nat i < query_len s)%Z → (h < ic_query_heads x)%nat →
  reduce_segments a segments after (token_index s i) h = Some (out_index (token_index s i) h, tab D (combine_segments segments s i h)).
Proof.
  intros Hr Hs Hi Hh. destruct block_m_split as (_ & HB & _).
  destruct Hx as (_ & _ & _ & Hn & Hcu & _ & _ & _ & _ & Hbuf). fold n in Hn, Hcu. rewrite H3 in Hbuf. destruct Hbuf as (Hm & He & Ho).
  unfold reduce_segments. change (a_query_start_len a) with (ic_cu_seqlens_q x). change (a_num_seqs a) with n. fold BQ.
  change (a_seq_lens a) with (ic_seqused_k x). change (a_HEAD_SIZE a) with D.
  assert (0 ≤ cu s)%Z as Hc0 by (pose proof (cu_nonneg _ n Hcu s ltac:(lia)); by cbv zeta beta in *).
  assert (Z.of_nat (token_index s i) = cu s + Z.of_nat i)%Z as Et by (unfold token_index; lia).
  assert (find_seq_idx (ic_cu_seqlens_q x) (Z.of_nat (token_index s i)) n (Z.of_nat BQ) false = Some (Z.of_nat s)) as ->.
  { apply find_seq_between; try done; try lia; rewrite Et; unfold prefix_value; unfold query_len, cu in Hi; unfold cu; lia. }
  cbn [mbind option_bind]. rewrite Nat2Z.id. fold (kv_len s).
  assert (∀ j, (j < segments)%nat → (segment_index a segments (token_index s i) h 0 + j
    = segment_cell (j, (token_index s i, h, sequence_row s i h (Some j))))%nat) as Ec.
  { intros j Hj. unfold segment_cell. cbn [fst snd]. rewrite !segment_index_cell. lia. }
  assert (∀ j, (j < segments)%nat → live s (Some j) = true → split_row (j, (token_index s i, h, sequence_row s i h (Some j)))) as Hrow.
  { intros j Hj Hl. split; [done|]. by exists s, i, h. }
  unfold after. rewrite store_segments_fold. cbn [sg_output sg_max sg_expsum].
  f_equal. f_equal. apply tab_ext. intros d Hd. unfold combine_segments.
  f_equal. apply merge_segments_ext. intros j Hj. destruct (segment_lane s i j Hs Hi Hj) as [E1 E2]. rewrite E1, Ec by done. rewrite <-E2.
  destruct (live s (Some j)) eqn:El; [|done]. specialize (Hrow j Hj El). set (e := (j, (token_index s i, h, sequence_row s i h (Some j)))) in *.
  pose proof (segment_buffer (λ e, e.2.2.2) D rows (sg_output sg) e d f32_zero) as B1.
  pose proof (segment_buffer (λ e, [e.2.2.1.1]) 1 rows (sg_max sg) e 0 f32_zero) as B2.
  pose proof (segment_buffer (λ e, [e.2.2.1.2]) 1 rows (sg_expsum sg) e 0 f32_zero) as B3.
  rewrite Nat.add_0_r in B2, B3. rewrite (Nat.mul_1_r (segment_cell e)) in B2, B3. split; [|split].
  - apply B2; try done; lia.
  - apply B3; try done; lia.
  - apply B1; try done. intros e' [_ (s' & i' & h' & _ & _ & _ & _ & ->)]. apply sequence_row_length.
Qed.

Lemma reduce_total after t h :
  ∃ v, reduce_segments a segments after t h = Some ((head_cell t h * D)%nat, v) ∧ length v = D.
Proof.
  destruct block_m_split as (_ & HB & _). destruct Hx as (_ & _ & _ & Hn & Hcu & _). fold n in Hn, Hcu.
  destruct (find_seq_total _ n (Z.of_nat BQ) Hcu ltac:(lia) false (Z.of_nat t) Hn ltac:(lia)) as (s & _ & _ & E).
  unfold reduce_segments. change (a_query_start_len a) with (ic_cu_seqlens_q x). change (a_num_seqs a) with n. fold BQ.
  rewrite E. cbn [mbind option_bind]. change (t * a_output_stride_0 a + h * a_output_stride_1 a)%nat with (out_index t h).
  rewrite out_index_cell. eexists. split; [reflexivity|apply tab_length].
Qed.

(** The launch of the reduction: every cell of the output, once. *)
Lemma reduce_launch after :
  ∃ stores, mapM (λ t, hs ← mapM (reduce_segments a segments after t) (seq 0 (ic_query_heads x)); Some hs) (seq 0 (ic_tokens x)) = Some stores
  ∧ ∀ st, In st (concat stores) ↔ ∃ t h, (t < ic_tokens x)%nat ∧ (h < ic_query_heads x)%nat ∧ reduce_segments a segments after t h = Some st.
Proof.
  destruct (mapM_concat_in (λ t, hs ← mapM (reduce_segments a segments after t) (seq 0 (ic_query_heads x)); Some hs)
    (λ t st, ∃ h, In h (seq 0 (ic_query_heads x)) ∧ reduce_segments a segments after t h = Some st) (seq 0 (ic_tokens x))) as (stores & E & Hst).
  - intros t _. assert (Forall (λ h, is_Some (reduce_segments a segments after t h)) (seq 0 (ic_query_heads x))) as Hs.
    { apply List.Forall_forall. intros h _. destruct (reduce_total after t h) as (v & -> & _). by eexists. }
    apply mapM_is_Some in Hs as [hs E]. exists hs. rewrite E. split; [done|]. exact (mapM_in _ _ hs E).
  - exists stores. split; [exact E|]. intros st. rewrite Hst. split.
    + intros (t & Ht%in_seq & h & Hh%in_seq & Es). exists t, h. split; [lia|]. split; [lia|exact Es].
    + intros (t & h & Ht & Hh & Es). exists t. split; [apply in_seq; lia|]. exists h. split; [apply in_seq; lia|exact Es].
Qed.

(** The output of the two launches. *)
Lemma split_stores rows stores (after := fold_left (λ s '(i, row), store_segment a segments i row s) rows sg) :
  (∀ e, In e rows ↔ split_row e) →
  (∀ st, In st stores ↔ ∃ t h, (t < ic_tokens x)%nat ∧ (h < ic_query_heads x)%nat ∧ reduce_segments a segments after t h = Some st) →
  length (apply_stores stores out) = length out
  ∧ ∀ s i h d, (s < n)%nat → (Z.of_nat i < query_len s)%Z → (h < ic_query_heads x)%nat → (d < D)%nat →
      nth (out_index (token_index s i) h + d) (apply_stores stores out) ft_zero = attention_value s i h d.
Proof.
  intros Hr Hst. assert (length out = ic_tokens x * ic_query_heads x * D)%nat as Hl by apply Hx.
  assert (cell_stores D (length out) stores) as Hw.
  { intros st (t & h & Ht & Hh & E)%Hst. destruct (reduce_total after t h) as (v & E' & Hv). rewrite E in E'. injection E' as ->.
    exists (head_cell t h). split; [done|]. split; [done|]. rewrite Hl. by apply cell_fits, head_cell_bound. }
  split; [by apply (cells_length D)|]. intros s i h d Hs Hi Hh Hd.
  pose proof (reduce_ok rows s i h Hr Hs Hi Hh) as E. fold after in E. rewrite out_index_cell in *.
  rewrite (cells_read D _ _ _ (tab D (combine_segments segments s i h)) _ _ Hw); [| |done|].
  - rewrite tab_nth by done. unfold attention_value. by rewrite H3.
  - apply Hst. exists (token_index s i), h. split; [by apply token_index_bound|]. by split.
  - intros v' (t' & h' & Ht' & Hh' & E')%Hst. destruct (reduce_total after t' h') as (v & E2 & Hv).
    assert (head_cell t' h' = head_cell (token_index s i) h) as Ec by (rewrite E' in E2; injection E2 as E2 _; nia).
    apply pair_inj in Ec as [-> ->]; [|done|done]. congruence.
Qed.
End Split.
End Rows.
End Specification.

(** What the cache writer leaves is held: the sequences' positions are among the slots
    written, [at_slot] saying which token is at which position. *)
Lemma written_cache_holds `{TF : TorchFloat} {TR : TritonFloat} {TA : TritonReduce} {TS : TritonScores}
    {FW : Float32Words TF} {TG : TorchSigned TF} {TGL : TorchSignedLaws TG} {B : Type} {FT : FloatType B}
    (x : Int3Call (B := B)) (c : KvCache) (key value : tensor3 f32) (slots : list Z) (at_slot : nat → nat → nat) :
  write_ok c (ic_head_size x) key value slots →
  (∀ s t, (s < length (ic_seqused_k x))%nat → (Z.of_nat t < kv_len x s)%Z →
     ∃ z, slots !! at_slot s t = Some z
     ∧ slot_block c z = nth (s * ic_block_table_stride x + t / kc_block_size c) (ic_block_table x) 0%nat
     ∧ slot_offset c z = (t mod kc_block_size c)%nat) →
  cache_holds x (kc_store (write_stores c (ic_head_size x) key value slots 0 ++ write_stores c (ic_head_size x) key value slots 1) c)
    (λ s kv t head, token_row key value kv (at_slot s t) head).
Proof.
  intros Hok Hs s kv t head Hn Hkv Ht Hh. destruct (Hs s t Hn Ht) as (z & Hz & Eb & Eo). cbn [kc_block_size kc_store]. rewrite <-Eb, <-Eo. split.
  - intros d Hd. pose proof (token_row_length c _ key value slots Hok kv (at_slot s t) z head Hz Hh) as Hl.
    etransitivity; [by apply (code_load_written c (ic_head_size x) key value slots Hok kv (at_slot s t) z head)|].
    unfold row_codes. by rewrite (nth_map_lt _ _ _ _ f32_zero) by lia.
  - by apply (scale_load_written c (ic_head_size x) key value slots Hok).
Qed.

(** C26: attention over the INT3 cache attends each query to its own sequence.  When the
    storage holds the tokens of every sequence behind its block table, the call
    returns, every search of its grid ending; every element of the output of every
    query of every sequence under every query head is the one computed from the
    quantized tokens of that sequence and the key-value head of the query's group:
    the running softmax over its tiles, or, when the launcher splits the sequences,
    the merge of the running softmaxes of the segments that start within it.  Nothing
    else of the storage, of the block table, of the grid or of what the buffers of
    the segments held before takes part. *)
Theorem int3_attention_reads_sequences `{TF : TorchFloat} {TR : TritonFloat} {TA : TritonReduce} {TS : TritonScores}
    {FW : Float32Words TF} {TG : TorchSigned TF} {B : Type} {FT : FloatType B}
    (x : Int3Call (B := B)) (c : KvCache) (token : nat → nat → nat → nat → list f32) (out : list B) :
  call_ok x c out → cache_holds x c token →
  ∃ out', unified_attention_kvquant_k3 x c out = Ok (Some out') ∧ length out' = length out
  ∧ ∀ s i h d, (s < length (ic_seqused_k x))%nat → (Z.of_nat i < query_len x s)%Z → (h < ic_query_heads x)%nat → (d < ic_head_size x)%nat →
      nth (out_index x (token_index x s i) h + d) out' ft_zero = attention_value x c token s i h d.
Proof.
  intros Hx Hc. unfold unified_attention_kvquant_k3.
  assert (raise_if (match ic_mm_prefix_range x with Some (_, ndim, _) => negb (ndim =? 3)%nat | None => false end) AssertionError = Ok tt) as ->.
  { destruct Hx as (_ & _ & _ & _ & _ & _ & _ & Hmm & _). destruct (ic_mm_prefix_range x) as [[[r ndim] m]|]; [by rewrite Hmm|done]. }
  rewrite result_bind_ok. destruct (use_3d x) as [[segments sg]|] eqn:H3.
  - destruct (split_rows_in x c token out Hx Hc segments) as (rows & -> & Hr).
    destruct (reduce_launch x c out Hx segments (fold_left (λ s '(i, row), store_segment (launch_args x c) segments i row s) (concat rows) sg))
      as (stores & E & Hst).
    cbn [mbind option_bind] in *. rewrite E. eexists. split; [reflexivity|].
    by apply (split_stores x c token out Hx segments sg H3 (concat rows)).
  - destruct (grid_rows_in x c token out Hx Hc None) as (rows & -> & Hr). cbn [mbind option_bind]. eexists. split; [reflexivity|].
    by apply (direct_stores x c token out Hx rows H3).
Qed.

(** ** An instance *)

Section Concrete.
#[local] Existing Instance FixedTorch.
#[local] Existing Instance FixedTriton.
#[local] Existing Instance FixedReduce.
#[local] Existing Instance FixedSigned.
#[local] Existing Instance FixedSigned_laws.
#[local] Existing Instance FixedWords.
#[local] Existing Instance zero_memory.
#[local] Existing Instance bf16_type.

#[local] Existing Instance FixedScores.

(** One query of a sequence of two tokens, in the second block of the storage; four
    query heads in groups of two; unsplit, or split in two segments. *)
Definition int3_call (split : bool) : Int3Call (B := Z) :=
  mkInt3Call (tab 128 (λ i, Z.of_nat i)) 1 4 32 2 [0; 1]%Z 1 [2]%Z UNIT (-1) [1%nat] 1 None None None false None None None
    (Some 4%Z) (if split then Some (2%nat, mkSegments (replicate 256 7%Z) (replicate 8 7%Z) (replicate 8 7%Z)) else None) false.

Lemma int3_call_ok split : call_ok (int3_call split) int3_storage (replicate 128 0%Z).
Proof.
  split; [done|]. split; [by apply Nat.ltb_lt|]. split; [by exists 8%nat|]. split; [by apply Nat.ltb_lt|].
  split; [split; [done|intros [|i] Hi; [done|cbn in Hi; lia]]|]. split; [done|].
  split; [intros [|s] Hs; [done|cbn in Hs; lia]|]. split; [done|]. split; [done|]. by destruct split.
Qed.

Lemma int3_two_slots : write_ok int3_storage 32 (int3_tokens 3000) (int3_tokens 70000) [16; 17]%Z.
Proof.
  split; [split; [cbn; lia|reflexivity]|]. split; [lia|]. split; [done|]. split; [by exists 3%nat|].
  split; [|split].
  - intros [|kv]; (split; [repeat constructor|done]).
  - constructor; [by vm_compute|constructor; [by vm_compute|constructor]].
  - apply (bool_decide_unpack _). by vm_compute.
Qed.

Lemma int3_call_slots split s t :
  (s < length (ic_seqused_k (int3_call split)))%nat → (Z.of_nat t < kv_len (int3_call split) s)%Z →
  ∃ z, [16; 17]%Z !! t = Some z
  ∧ slot_block int3_storage z = nth (s * 1 + t / kc_block_size int3_storage) [1%nat] 0%nat
  ∧ slot_offset int3_storage z = (t mod kc_block_size int3_storage)%nat.
Proof.
  intros Hs Ht. destruct s as [|s]; [|cbn in Hs; lia]. change (Z.of_nat t < 2)%Z in Ht.
  destruct t as [|[|t]]; [by exists 16%Z|by exists 17%Z|lia].
Qed.

(** C26 behind the cache writer, unsplit and split. *)
Lemma int3_attention_reads_sequences_witness :
  ∃ c', reshape_and_cache_kvquant_k3 (int3_tokens 3000) (int3_tokens 70000) [16; 17]%Z int3_storage = (Ok tt, c')
  ∧ ∀ split, ∃ out', unified_attention_kvquant_k3 (int3_call split) c' (replicate 128 0%Z) = Ok (Some out')
    ∧ nth (out_index (int3_call split) 0 3 + 5) out' ft_zero
      = attention_value (int3_call split) c' (λ s kv t head, token_row (int3_tokens 3000) (int3_tokens 70000) kv t head) 0 0 3 5.
Proof.
  eexists. split; [exact (write_run int3_storage 32 (int3_tokens 3000) (int3_tokens 70000) [16; 17]%Z int3_two_slots)|].
  intros split.
  destruct (int3_attention_reads_sequences (int3_call split)
    (kc_store (write_stores int3_storage 32 (int3_tokens 3000) (int3_tokens 70000) [16; 17]%Z 0
               ++ write_stores int3_storage 32 (int3_tokens 3000) (int3_tokens 70000) [16; 17]%Z 1) int3_storage)
    (λ s kv t head, token_row (int3_tokens 3000) (int3_tokens 70000) kv t head) (replicate 128 0%Z)) as (out' & E & _ & H).
  - exact (int3_call_ok split).
  - exact (written_cache_holds (int3_call split) int3_storage (int3_tokens 3000) (int3_tokens 70000) [16; 17]%Z (λ _ t, t)
      int3_two_slots (int3_call_slots split)).
  - exists out'. split; [exact E|]. apply (H 0%nat 0%nat 3%nat 5%nat); [by apply Nat.ltb_lt|done|by apply Nat.ltb_lt|by apply Nat.ltb_lt].
Defined.
End Concrete.
