(* ===== verification/TileSchedule.v ===== *)
(** * Selecting and cutting: the schedule of the opt-in Stage 3C paths

    From [rabit_kv2_stage3c_shared_decode.py] and [rabit_kv2_stage3c_tile32.py]:
    the environment variables that select an implementation of a later chunk and
    its query block, the condition under which the batched kernels apply, the
    closed-page count after each step of a chunk plan, and the cut of a chunk in
    tiles of queries that see the same pages.

    Environment values are ASCII text; [str.strip], [str.lower] and [int] are
    modelled on it. *)

From Stdlib Require Import ZArith Lia Ascii String.
From stdpp Require Import gmap strings pretty base tactics numbers list option.
From S2P Require Import Prelude Layout Torch SpecFloatTorch Quant Page Sidecar Tail OnlineRef Runtime Bulk ChunkPlan.

(** ** Python text *)

Definition py_isspace (c : ascii) : bool :=
  let n := nat_of_ascii c in ((9 <=? n) && (n <=? 13) || (28 <=? n) && (n <=? 32))%nat.

Fixpoint py_lstrip (s : string) : string :=
  match s with
  | String c s' => if py_isspace c then py_lstrip s' else s
  | EmptyString => EmptyString
  end.
Definition py_strip (s : string) : string := String.rev (py_lstrip (String.rev (py_lstrip s))).

Definition py_lower_ascii (c : ascii) : ascii :=
  let n := nat_of_ascii c in if ((65 <=? n) && (n <=? 90))%nat then ascii_of_nat (n + 32) else c.
Fixpoint py_lower (s : string) : string :=
  match s with
  | String c s' => String (py_lower_ascii c) (py_lower s')
  | EmptyString => EmptyString
  end.

Definition py_digit (c : ascii) : option Z :=
  let n := nat_of_ascii c in if ((48 <=? n) && (n <=? 57))%nat then Some (Z.of_nat (n - 48)) else None.

(** The digits of [int(s)] behind a digit; a single underscore may separate two. *)
Fixpoint py_digits (acc : Z) (s : string) : option Z :=
  match s with
  | EmptyString => Some acc
  | String c s' =>
      match py_digit c with
      | Some k => py_digits (acc * 10 + k)%Z s'
      | None =>
          if decide (c = "_"%char) then
            match s' with
            | String c' s'' => match py_digit c' with Some k => py_digits (acc * 10 + k)%Z s'' | None => None end
            | EmptyString => None
            end
          else None
      end
  end.

Definition py_unsigned (s : string) : option Z :=
  match s with
  | String c s' => match py_digit c with Some k => py_digits k s' | None => None end
  | EmptyString => None
  end.

(** [int(s)] of a stripped text. *)
Definition py_int (s : string) : option Z :=
  match s with
  | String "-" s' => Z.opp <$> py_unsigned s'
  | String "+" s' => py_unsigned s'
  | _ => py_unsigned s
  end.

(** ** Selection *)

(** [os.environ.get] *)
Class Environ := environ_get : string → option string.

Section Selection.
Context {EN : Environ}.

Definition STAGE3C_IMPL_ENV : string := "VLLM_RABIT2_STAGE3C_IMPL".
Definition QUERY_BLOCK_ENV : string := "VLLM_RABIT2_SHARED_DECODE_QUERY_BLOCK".
Definition STAGE3C_IMPLS : list string := ["reference"; "tile32"; "shared_decode"].
Definition TILE32_IMPLS : list string := ["reference"; "tile32"].
Definition QUERY_BLOCKS : list Z := [4; 8; 16; 32]%Z.
Definition DEFAULT_QUERY_BLOCK : Z := 8.

Definition stage3c_select (impls : list string) : result string :=
  let impl := py_lower (py_strip (default "reference" (environ_get STAGE3C_IMPL_ENV))) in
  let impl := if decide (impl = "") then "reference" else impl in
  _ ← raise_if (negb (bool_decide (impl ∈ impls))) ValueError;
  Ok impl.

(** The selection of the shared-decode module, which the attention layer imports,
    and the one of the tile32 module. *)
Definition rabit2_stage3c_impl : result string := stage3c_select STAGE3C_IMPLS.
Definition tile32_stage3c_impl : result string := stage3c_select TILE32_IMPLS.

Definition rabit2_shared_decode_query_block : result Z :=
  let raw := py_strip (default "" (environ_get QUERY_BLOCK_ENV)) in
  qb ← (if decide (raw = "") then Ok DEFAULT_QUERY_BLOCK
        else match py_int raw with Some z => Ok z | None => Err ValueError end);
  _ ← raise_if (negb (bool_decide (qb ∈ QUERY_BLOCKS))) ValueError;
  Ok qb.
End Selection.

(** ** The component profiler's scope

    Off unless its variable is ["1"].  When it is on, the constructor of the scope
    reads the selection of the tile32 module; entering and leaving the scope
    replace functions by timing wrappers that call them with the same arguments,
    and put them back. *)
Definition COMPONENT_PROFILE_ENV : string := "VLLM_RABIT2_STAGE3C_COMPONENT_PROFILE".

Section Profile.
Context {EN : Environ}.

Definition rabit2_stage3c_component_profiling : bool :=
  bool_decide (default "0" (environ_get COMPONENT_PROFILE_ENV) = "1").

(** The recorded [impl], when a scope is made. *)
Definition rabit2_stage3c_profile_scope (q_len : Z) : result (option string) :=
  if (q_len <=? 1)%Z || negb rabit2_stage3c_component_profiling then Ok None
  else impl ← tile32_stage3c_impl; Ok (Some impl).
End Profile.

(** Same GQA condition as the Stage 4B3 dispatch. *)
Definition rabit2_tile32_supported (q_heads kv_heads : nat) : bool :=
  (q_heads mod kv_heads =? 0)%nat && ((q_heads / kv_heads) mod 4 =? 0)%nat.

(** ** Closed pages along a plan *)

Definition rabit2_chunk_closed_pages_after `{TF : TorchFloat} (plan : Rabit2CausalChunkPlan) (step : nat) : nat :=
  let processed := (step + 1)%nat in
  let aged_now := (cp_init_recent_len plan + processed - RESIDUAL)%nat in
  let open_total_now := (cp_init_open_len plan + aged_now)%nat in
  (cp_init_closed plan + open_total_now / GROUP)%nat.

(** ** Tiles *)

Definition TILE_MAX_QUERIES : nat := 32.

(** One iteration of the loop over the end of a run. *)
Definition tile_step (closed_after : list nat) (st : list (nat * nat * nat) * nat) (i : nat) :
    list (nat * nat * nat) * nat :=
  let '(tiles, start) := st in
  if (i =? length closed_after)%nat || negb (nth i closed_after 0 =? nth start closed_after 0)%nat
     || (i - start =? TILE_MAX_QUERIES)%nat
  then (tiles ++ [(start, i, nth start closed_after 0%nat)], i)
  else (tiles, start).

Definition rabit2_tile32_tiles (closed_after : list nat) : list (nat * nat * nat) :=
  (fold_left (tile_step closed_after) (seq 1 (length closed_after)) ([], 0%nat)).1.

(** ** The cut of a chunk *)

(** A tile is a run of queries that see the same pages, as long as possible. *)
Definition tile_ok (closed_after : list nat) (tile : nat * nat * nat) : Prop :=
  let '(start, stop, closed) := tile in
  (start < stop ≤ length closed_after)%nat ∧ (stop - start ≤ TILE_MAX_QUERIES)%nat
  ∧ (∀ j, (start ≤ j < stop)%nat → nth j closed_after 0%nat = closed)
  ∧ (stop = length closed_after ∨ nth stop closed_after 0%nat ≠ closed ∨ (stop - start = TILE_MAX_QUERIES)%nat).

Definition tile_range (tile : nat * nat * nat) : list nat := seq tile.1.1 (tile.1.2 - tile.1.1).

(** The loop after the end [i]: the tiles so far stop where the next one starts. *)
Definition tiles_upto (closed_after : list nat) (i : nat) (st : list (nat * nat * nat) * nat) : Prop :=
  Forall (tile_ok closed_after) st.1 ∧ concat (map tile_range st.1) = seq 0 st.2
  ∧ (st.2 ≤ i)%nat ∧ (i - st.2 < TILE_MAX_QUERIES)%nat
  ∧ (∀ j, (st.2 ≤ j ≤ i)%nat → nth j closed_after 0%nat = nth st.2 closed_after 0%nat)
  ∧ (i = length closed_after → st.2 = i).

Lemma tile_step_ok closed_after st i :
  (i < length closed_after)%nat → tiles_upto closed_after i st →
  tiles_upto closed_after (i + 1) (tile_step closed_after st (i + 1)).
Proof.
  destruct st as [tiles start]. intros Hi (Hok & Hcov & Hs & Hd & Heq & _). cbn [fst snd] in *.
  unfold tile_step. set (n := length closed_after) in *. unfold TILE_MAX_QUERIES in *.
  destruct (Nat.eqb_spec (i + 1) n) as [En|En]; cbn [orb].
  2: destruct (Nat.eqb_spec (nth (i + 1) closed_after 0) (nth start closed_after 0))%nat as [Ec|Ec]; cbn [negb orb].
  2: destruct (Nat.eqb_spec (i + 1 - start) 32)%nat as [Em|Em].
  3: { split; [done|]. split; [done|]. cbn [fst snd]. split; [lia|]. split; [unfold TILE_MAX_QUERIES; lia|].
       split; [|lia]. intros j Hj. destruct (decide (j = i + 1)%nat) as [->|]; [done|]. apply Heq. lia. }
  all: split; [cbn [fst]; apply Forall_app; split; [done|]; constructor; [|constructor]|split; [|split; [|split; [|split]]]];
    cbn [fst snd]; try lia.
  all: try (rewrite map_app, concat_app, Hcov; cbn [map concat]; rewrite app_nil_r; unfold tile_range; cbn [fst snd];
            rewrite <-seq_app; f_equal; lia).
  all: try (unfold TILE_MAX_QUERIES; lia).
  all: try (intros j Hj; by replace j with (i + 1)%nat by lia).
  all: split; [lia|]; split; [unfold TILE_MAX_QUERIES; lia|]; split; [intros j Hj; apply Heq; lia|].
  - by left.
  - right. right. unfold TILE_MAX_QUERIES. lia.
  - right. by left.
Qed.

Lemma tiles_upto_all closed_after :
  tiles_upto closed_after (length closed_after)
    (fold_left (tile_step closed_after) (seq 1 (length closed_after)) ([], 0%nat)).
Proof.
  assert (∀ n, (n ≤ length closed_after)%nat →
    tiles_upto closed_after n (fold_left (tile_step closed_after) (seq 1 n) ([], 0%nat))) as G; [|by apply G].
  induction n as [|n IH]; intros Hn.
  - split; [constructor|]. split; [done|]. cbn. unfold TILE_MAX_QUERIES. split; [lia|]. split; [lia|].
    split; [|lia]. intros j Hj. by replace j with 0%nat by lia.
  - rewrite seq_S, fold_left_app. cbn [fold_left]. replace (1 + n)%nat with (n + 1)%nat by lia.
    replace (S n) with (n + 1)%nat by lia. apply tile_step_ok; [lia|]. apply IH. lia.
Qed.

(** A loop over the tiles moves an invariant of the tokens done so far from the
    start of the chunk to its end. *)
Lemma tiles_loop {S} (body : nat * nat * nat → ST S unit) (I : nat → S → Prop) closed_after s :
  (∀ start stop closed s, tile_ok closed_after (start, stop, closed) → I start s →
     ∃ s', body (start, stop, closed) s = (Ok tt, s') ∧ I stop s') →
  I 0%nat s → ∃ s', st_for (rabit2_tile32_tiles closed_after) body s = (Ok tt, s') ∧ I (length closed_after) s'.
Proof.
  intros Hb. destruct (tiles_upto_all closed_after) as (H1 & H2 & _ & _ & _ & H3). rewrite H3 in H2 by done.
  unfold rabit2_tile32_tiles. clear H3. set (n := length closed_after) in *.
  assert (∀ tiles start s, Forall (tile_ok closed_after) tiles → (start ≤ n)%nat →
            concat (map tile_range tiles) = seq start (n - start) → I start s →
            ∃ s', st_for tiles body s = (Ok tt, s') ∧ I n s') as G.
  2: { intros HI. apply (G _ 0%nat); [done|lia| |done]. by rewrite Nat.sub_0_r. }
  clear H1 H2. induction tiles as [|[[a b] k] tiles IH]; intros start s0 Hok Hs Hc HI.
  - exists s0. split; [done|]. cbn in Hc. apply (f_equal length) in Hc. rewrite length_seq in Hc. cbn in Hc.
    by replace n with start by lia.
  - apply Forall_cons_iff in Hok as [Ht Hok]. pose proof Ht as (Hab & _). fold n in Hab.
    cbn [map concat] in Hc. unfold tile_range at 1 in Hc. cbn [fst snd] in Hc.
    assert (a = start) as ->.
    { destruct (b - a)%nat as [|w] eqn:Ew; [lia|]. destruct (n - start)%nat as [|w'] eqn:Ew'; [done|]. by injection Hc. }
    assert (n - start = (b - start) + (n - b))%nat as Hw by lia. rewrite Hw, seq_app in Hc. apply app_inv_head in Hc.
    replace (start + (b - start))%nat with b in Hc by lia. cbn [st_for]. rewrite st_bind_eq.
    destruct (Hb start b k s0 Ht HI) as (s1 & -> & HI1). apply (IH b); try done. lia.
Qed.

(** C39: the tiles of a chunk cover its queries once, in order; a tile has between 1
    and 32 queries, all of them see its closed-page count, and it ends only at
    the end of the chunk, where the count changes, or at 32 queries. *)
Theorem tiles_cut_chunk (closed_after : list nat) :
  let tiles := rabit2_tile32_tiles closed_after in
  concat (map tile_range tiles) = seq 0 (length closed_after) ∧ Forall (tile_ok closed_after) tiles.
Proof.
  destruct (tiles_upto_all closed_after) as (H1 & H2 & _ & _ & _ & H3). unfold rabit2_tile32_tiles.
  split; [|done]. by rewrite H2, H3.
Qed.

(** ** The schedule follows the plan *)

Section Schedule.
Context `{TF : TorchFloat}.

(** What a successful step exposes, on any plan. *)
Lemma apply_step_closed i p s p' s' :
  apply_step i (p, s) = (Ok tt, (p', s')) →
  i = (cp_last_step p + 1)%Z ∧ (0 ≤ i)%Z ∧ p' = plan_set_step i p
  ∧ rt_closed_pages (rs_runtime s') = rabit2_chunk_closed_pages_after p (Z.to_nat i).
Proof.
  unfold apply_step. rewrite st_bind_eq. cbn [st_get fst snd]. rewrite st_bind_eq.
  unfold st_raise_if, st_lift. destruct (Z.eqb_spec i (cp_last_step p + 1)) as [Ei|]; [|done]. cbn [negb raise_if].
  rewrite st_bind_eq. destruct (Z.ltb_spec i 0); [done|]. cbn [orb]. destruct (_ <=? i)%Z; [done|]. cbn [raise_if].
  unfold st_put. intros [= <- <-]. done.
Qed.

Lemma closed_after_step p i : rabit2_chunk_closed_pages_after (plan_set_step i p) = rabit2_chunk_closed_pages_after p.
Proof. done. Qed.

Lemma closed_after_succ p i :
  (rabit2_chunk_closed_pages_after p i ≤ rabit2_chunk_closed_pages_after p (i + 1)
   ≤ rabit2_chunk_closed_pages_after p i + 1)%nat.
Proof.
  unfold rabit2_chunk_closed_pages_after, GROUP, RESIDUAL.
  set (a := (cp_init_open_len p + (cp_init_recent_len p + (i + 1) - 4))%nat).
  set (b := (cp_init_open_len p + (cp_init_recent_len p + (i + 1 + 1) - 4))%nat).
  pose proof (Nat.div_mod_eq a 32). pose proof (Nat.mod_upper_bound a 32 ltac:(lia)).
  pose proof (Nat.div_mod_eq b 32). pose proof (Nat.mod_upper_bound b 32 ltac:(lia)). lia.
Qed.

(** The tile schedule never diverges from the plan.  On any plan and runtime, a
    step that succeeds leaves the runtime with exactly the closed pages the
    schedule announced for it and the announcements of every later step as they
    were, so that the divergence error of the batched paths is not reachable; the
    announced counts never fall and rise by at most one page per token. *)
Theorem schedule_follows_plan (i : Z) (p p' : Rabit2CausalChunkPlan) (s s' : RtState) :
  apply_step i (p, s) = (Ok tt, (p', s')) →
  rt_closed_pages (rs_runtime s') = rabit2_chunk_closed_pages_after p (Z.to_nat i)
  ∧ (∀ j, rabit2_chunk_closed_pages_after p' j = rabit2_chunk_closed_pages_after p j)
  ∧ ∀ j, let n := rabit2_chunk_closed_pages_after p' j in
         let n' := rabit2_chunk_closed_pages_after p' (j + 1) in n' = n ∨ n' = (n + 1)%nat.
Proof.
  intros (_ & _ & -> & H)%apply_step_closed. split; [done|]. split; [done|]. intros j n n'.
  pose proof (closed_after_succ (plan_set_step i p) j) as Hj. fold n n' in Hj. lia.
Qed.
End Schedule.

(** A chunk of two tokens behind 31 open tokens, the first of which fills the group. *)
Definition small_rows (n : nat) : tensor3 Z := mkTensor3 1 1 (replicate n [[0%Z]]).
Definition small_plan `{TF : TorchFloat} (step : Z) : Rabit2CausalChunkPlan :=
  mkPlan 2 5 31 4 (small_rows 6) (small_rows 6) (small_rows 33) (small_rows 33) (mkTensor3 1 1 []) (mkTensor3 1 1 []) step.
Definition small_state `{TF : TorchFloat} : RtState :=
  mkRt (mkRuntime 1 64 64 (layout_of GROUP 1 64 64) 5 empty_sidecar) (mkCache 0 []).

(** On its first step. *)
Lemma schedule_follows_plan_witness :
  let s' := (apply_step 0 (small_plan (TF := SpecFloatTorch) (-1), small_state)).2 in
  rt_closed_pages (rs_runtime s'.2) = 6%nat
  ∧ rabit2_chunk_closed_pages_after s'.1 1 = 6%nat.
Proof.
  intros s'.
  assert (apply_step 0 (small_plan (TF := SpecFloatTorch) (-1), small_state) = (Ok tt, (s'.1, s'.2))) as E
    by reflexivity.
  destruct (schedule_follows_plan 0 _ _ _ _ E) as (H1 & H2 & _). split; [exact H1|].
  rewrite H2. reflexivity.
Defined.

(** ** Selection *)

Definition only (name value : string) : Environ := λ key, if decide (key = name) then Some value else None.

Lemma query_block_positive `{EN : Environ} qb : rabit2_shared_decode_query_block = Ok qb → (0 < Z.to_nat qb)%nat.
Proof.
  unfold rabit2_shared_decode_query_block. destruct (if decide _ then _ else _) as [z|]; [|done]. rewrite result_bind_ok.
  destruct (bool_decide (z ∈ QUERY_BLOCKS)) eqn:E; [|done]. intros [= <-].
  apply bool_decide_eq_true in E. unfold QUERY_BLOCKS in E. rewrite !elem_of_cons in E.
  destruct E as [->|[->|[->|[->|E]]]]; [lia..|]. by apply not_elem_of_nil in E.
Qed.

(** Selecting an implementation either returns a known one or raises
    [ValueError]; an unset or blank variable selects the reference, and so does
    the query block's default of 8; each documented value selects itself.  The
    tile32 module's own selection, which the component profiler reads, refuses
    ["shared_decode"]: with the profiler on, every chunk of several tokens raises
    [ValueError] under that implementation. *)
Theorem stage3c_selection :
  (∀ EN : Environ, rabit2_stage3c_impl = Err ValueError
     ∨ ∃ impl, rabit2_stage3c_impl = Ok impl ∧ impl ∈ STAGE3C_IMPLS)
  ∧ (∀ EN : Environ, rabit2_shared_decode_query_block = Err ValueError
     ∨ ∃ qb, rabit2_shared_decode_query_block = Ok qb ∧ qb ∈ QUERY_BLOCKS)
  ∧ (∀ EN : Environ, environ_get STAGE3C_IMPL_ENV = None → rabit2_stage3c_impl = Ok "reference")
  ∧ (∀ EN : Environ, environ_get QUERY_BLOCK_ENV = None → rabit2_shared_decode_query_block = Ok 8%Z)
  ∧ Forall (λ impl, rabit2_stage3c_impl (EN := only STAGE3C_IMPL_ENV (" " +:+ impl)) = Ok impl) STAGE3C_IMPLS
  ∧ Forall (λ qb, rabit2_shared_decode_query_block (EN := only QUERY_BLOCK_ENV (pretty qb)) = Ok qb) QUERY_BLOCKS
  ∧ (∀ (EN : Environ) q_len, environ_get STAGE3C_IMPL_ENV = Some "shared_decode" → environ_get COMPONENT_PROFILE_ENV = Some "1" →
       (1 < q_len)%Z → rabit2_stage3c_impl = Ok "shared_decode" ∧ rabit2_stage3c_profile_scope q_len = Err ValueError).
Proof.
  split; [|split; [|split; [|split; [|split; [|split]]]]].
  - intros EN. unfold rabit2_stage3c_impl, stage3c_select. cbv zeta. set (impl := if decide _ then _ else _).
    destruct (decide (impl ∈ STAGE3C_IMPLS)) as [H|H].
    + right. exists impl. by rewrite bool_decide_eq_true_2.
    + left. by rewrite bool_decide_eq_false_2.
  - intros EN. unfold rabit2_shared_decode_query_block. set (raw := py_strip _).
    assert (∀ qb, (_ ← raise_if (negb (bool_decide (qb ∈ QUERY_BLOCKS))) ValueError; Ok qb) = Err ValueError
              ∨ ∃ z, (_ ← raise_if (negb (bool_decide (qb ∈ QUERY_BLOCKS))) ValueError; Ok qb) = Ok z ∧ z ∈ QUERY_BLOCKS) as G.
    { intros qb. destruct (decide (qb ∈ QUERY_BLOCKS)) as [H|H].
      - right. exists qb. by rewrite bool_decide_eq_true_2.
      - left. by rewrite bool_decide_eq_false_2. }
    destruct (decide (raw = "")); [apply G|]. destruct (py_int raw); [apply G|by left].
  - intros EN H. unfold rabit2_stage3c_impl, stage3c_select. rewrite H. by vm_compute.
  - intros EN H. unfold rabit2_shared_decode_query_block. rewrite H. by vm_compute.
  - repeat constructor.
  - repeat constructor.
  - intros EN q_len H1 H2 Hq. unfold rabit2_stage3c_impl, rabit2_stage3c_profile_scope, tile32_stage3c_impl, stage3c_select,
      rabit2_stage3c_component_profiling. rewrite H1, H2. destruct (Z.leb_spec q_len 1); [lia|]. by vm_compute.
Qed.
