(* ===== verification/TileKernels.v ===== *)
(** * The batched attention kernels

    The kernels of the opt-in Stage 3C paths: the closed-page scan of
    [rabit_kv2_stage3c_tile32.py] (one program per page, head group and query),
    the one of [rabit_kv2_stage3c_shared_decode.py] (one program per page, head
    group and block of queries, which decodes its page once), with its decode
    counter, and the reduction over a tile.  Offsetting a pointer is dropping the
    front of the memory on a read, and adding to the segment index on a store.

    On every memory the two scans write the same floats, and what they write in
    the part of a query is what the Stage 4B3 kernel writes for that query
    alone. *)

From Stdlib Require Import ZArith Lia.
From stdpp Require Import gmap base tactics numbers list option.
From S2P Require Import Prelude Layout Torch SpecFloatTorch BitPack Meta Quant Tab Triton FixedTorch Decoded Page.
From S2P Require Import Sidecar Tail OnlineRef Runtime Bulk PageKernel EncodeKernel Attention PageAttention.
From S2P Require Import TailAttention TailPrep DecodeAttention DecodeState.

Section TileKernels.
Context `{TF : TorchFloat} {TR : TritonFloat} {TA : TritonReduce}.
Context {B : Type} {FT : FloatType B}.

(** ** The kernels *)

(** The grid [(closed, qgroups, n)]. *)
Definition _rabit2_tile32_closed_page_partial_kernel (c : PageConsts) (closed qgroups n : nat) (q : list B)
    (cache : list Z) (block_table : list nat) (softmax_scale : f32) (q_tile_stride partial_tile_stride : nat) :
    Partials → Partials :=
  let GQA_RATIO := (NUM_Q_HEADS c / NUM_KV_HEADS c)%nat in
  let GROUPS_PER_KV := (GQA_RATIO / 4)%nat in
  launch closed (λ logical_page, launch qgroups (λ qgroup, launch n (λ tile_q,
    let q := drop (tile_q * q_tile_stride) q in
    let kvh := (qgroup / GROUPS_PER_KV)%nat in
    let subgroup := (qgroup - kvh * GROUPS_PER_KV)%nat in
    let qh_base := (kvh * GQA_RATIO + subgroup * 4)%nat in
    let ld := page_load c cache block_table logical_page in
    let kval := page_kval c ld kvh in
    let vval := page_vval c ld kvh in
    launch 4 (λ qi,
      let qh := (qh_base + qi)%nat in
      let seg := (logical_page * NUM_Q_HEADS c + qh)%nat in
      store_partial (tile_q * partial_tile_stride + seg) (HEAD_SIZE c) (BLOCK_D c)
        (flash_block 32 (BLOCK_D c) kval vval (q_load q (HEAD_SIZE c) qh) softmax_scale))))).

(** The grid [(closed, qgroups, cdiv(n, QUERY_BLOCK))], over the partials and the
    decode counter. *)
Definition _rabit2_shared_decode_closed_page_partial_kernel (c : PageConsts) (QUERY_BLOCK : nat) (COUNT_DECODES : bool)
    (closed qgroups qblocks : nat) (q : list B) (cache : list Z) (block_table : list nat) (softmax_scale : f32)
    (n_queries q_tile_stride partial_tile_stride : nat) : Partials * Z → Partials * Z :=
  let GQA_RATIO := (NUM_Q_HEADS c / NUM_KV_HEADS c)%nat in
  let GROUPS_PER_KV := (GQA_RATIO / 4)%nat in
  launch closed (λ logical_page, launch qgroups (λ qgroup, launch qblocks (λ qblock '(mem, decode_count),
    let kvh := (qgroup / GROUPS_PER_KV)%nat in
    let subgroup := (qgroup - kvh * GROUPS_PER_KV)%nat in
    let qh_base := (kvh * GQA_RATIO + subgroup * 4)%nat in
    let ld := page_load c cache block_table logical_page in
    let kval := page_kval c ld kvh in
    let vval := page_vval c ld kvh in
    let decode_count := if COUNT_DECODES then (decode_count + 1)%Z else decode_count in
    (launch QUERY_BLOCK (λ j,
       let tile_q := (qblock * QUERY_BLOCK + j)%nat in
       let valid := (tile_q <? n_queries)%nat in
       let q_row := drop (tile_q * q_tile_stride) q in
       launch 4 (λ qi mem,
         let qh := (qh_base + qi)%nat in
         let q d := if valid then q_load q_row (HEAD_SIZE c) qh d else f32_zero in
         let seg := (logical_page * NUM_Q_HEADS c + qh)%nat in
         if valid then
           store_partial (tile_q * partial_tile_stride + seg) (HEAD_SIZE c) (BLOCK_D c)
             (flash_block 32 (BLOCK_D c) kval vval q softmax_scale) mem
         else mem)) mem,
     decode_count)))).

(** The partials of one query of a tile, behind its pointers. *)
Definition tile_ptr (tile_q partial_tile_stride HEAD_SIZE : nat) (mem : Partials) : Partials :=
  {| pm := drop (tile_q * partial_tile_stride) (pm mem);
     pl := drop (tile_q * partial_tile_stride) (pl mem);
     pacc := drop (tile_q * partial_tile_stride * HEAD_SIZE) (pacc mem) |}.

(** The grid [(q_heads, n)]. *)
Definition _rabit2_tile32_reduce_partials_kernel (mem : Partials) (n num_segments partial_tile_stride out_tile_stride
    NUM_Q_HEADS HEAD_SIZE BLOCK_S BLOCK_D : nat) : list B → list B :=
  launch NUM_Q_HEADS (λ qh, launch n (λ tile_q,
    store_block (tile_q * out_tile_stride + qh * HEAD_SIZE)
      (tab (BLOCK_D `min` HEAD_SIZE) (λ d, ft_cast
         (reduce_lane (tile_ptr tile_q partial_tile_stride HEAD_SIZE mem) num_segments NUM_Q_HEADS HEAD_SIZE BLOCK_S qh d))))).

(** ** Rows of a buffer *)

(** A buffer of [N] rows of [D] elements; storing a row is updating the list of
    rows. *)
Lemma store_block_row {A} D (rows : list (list A)) s v :
  Forall (λ r, length r = D) rows → (s < length rows)%nat → length v = D →
  store_block (s * D) v (concat rows) = concat (<[s := v]> rows).
Proof.
  intros HD Hs Hv. destruct (lookup_lt_is_Some_2 rows s Hs) as [r Hr].
  destruct (seg_split D s rows r HD Hr) as (E & El & Er). unfold store_block. rewrite E, <-El, Hv.
  rewrite take_app_length, drop_app, (drop_ge (concat (take s rows))) by lia. cbn [app].
  rewrite drop_app, (drop_ge r) by lia. cbn [app].
  replace (length (concat (take s rows)) + D - length (concat (take s rows)) - length r)%nat with 0%nat by lia.
  rewrite drop_0, insert_take_drop by done. rewrite concat_app. done.
Qed.

(** Assigning cells in order; only the last value of a cell stays. *)
Definition put_cells {A} (V : nat → A) (l : list nat) (buf : list A) : list A := fold_left (λ b s, <[s := V s]> b) l buf.

Lemma put_cells_lookup {A} (V : nat → A) l buf i :
  (i < length buf)%nat → put_cells V l buf !! i = if decide (i ∈ l) then Some (V i) else buf !! i.
Proof.
  unfold put_cells. revert buf. induction l as [|s l IH]; intros buf Hi; cbn [fold_left].
  - rewrite decide_False; [done|]. apply not_elem_of_nil.
  - rewrite IH by (by rewrite length_insert). destruct (decide (i ∈ l)) as [H|H].
    + rewrite decide_True; [done|]. by right.
    + destruct (decide (i = s)) as [->|Hne].
      * rewrite decide_True by left. by apply list_lookup_insert_eq.
      * rewrite decide_False by (by rewrite elem_of_cons; intros [?|?]). by apply list_lookup_insert_ne.
Qed.

Lemma put_cells_length {A} (V : nat → A) l buf : length (put_cells V l buf) = length buf.
Proof.
  unfold put_cells. revert buf. induction l as [|s l IH]; intros buf; [done|]. cbn [fold_left].
  by rewrite IH, length_insert.
Qed.

(** Two orders of the same assignments. *)
Lemma put_cells_ext {A} (V W : nat → A) l l' buf :
  (∀ i, (i < length buf)%nat → i ∈ l ↔ i ∈ l') → (∀ i, (i < length buf)%nat → i ∈ l → V i = W i) →
  put_cells V l buf = put_cells W l' buf.
Proof.
  intros Hl HV. apply list_eq. intros i. destruct (decide (i < length buf)%nat) as [Hi|Hi].
  - rewrite !put_cells_lookup by done. destruct (decide (i ∈ l)) as [H|H].
    + rewrite decide_True by (by apply Hl). by rewrite HV.
    + by rewrite decide_False by (by rewrite <-Hl).
  - by rewrite !lookup_ge_None_2 by (rewrite put_cells_length; lia).
Qed.

Lemma lookup_slice {A} a n i (l : list A) : (i < n)%nat → slice a (a + n) l !! i = l !! (a + i)%nat.
Proof. intros H. unfold slice. rewrite lookup_take_lt by lia. apply lookup_drop. Qed.

(** A window of a buffer sees the assignments that fall in it. *)
Lemma slice_put_cells {A} (V : nat → A) l l' a n buf :
  (a + n ≤ length buf)%nat → (∀ s, (s < n)%nat → (a + s)%nat ∈ l ↔ s ∈ l') →
  slice a (a + n) (put_cells V l buf) = put_cells (λ s, V (a + s)%nat) l' (slice a (a + n) buf).
Proof.
  intros Hb Hl. assert (length (slice a (a + n) buf) = n) as Hn by (rewrite slice_length; lia).
  apply list_eq. intros i. destruct (decide (i < n)%nat) as [Hi|Hi].
  - rewrite lookup_slice, !put_cells_lookup by lia. destruct (decide (i ∈ l')) as [H|H].
    + by rewrite decide_True by (by apply Hl).
    + rewrite decide_False by (by rewrite Hl). by rewrite lookup_slice.
  - rewrite !lookup_ge_None_2; [done|by rewrite put_cells_length; lia|]. rewrite slice_length, put_cells_length. lia.
Qed.

Lemma view2_slice {A} D N a n (l : list A) :
  length l = (N * D)%nat → (a + n ≤ N)%nat →
  view2 n D (slice (a * D) (a * D + n * D) l) = slice a (a + n) (view2 N D l).
Proof.
  intros Hl Ha. set (rows := view2 N D l).
  assert (Forall (λ r, length r = D) rows) as HD by (apply view2_Forall_length; lia).
  assert (length rows = N) as HN by apply view2_length.
  rewrite <-(concat_view2 N D l) at 1 by done. fold rows.
  assert (slice (a * D) (a * D + n * D) (concat rows) = concat (slice a (a + n) rows)) as ->.
  { unfold slice. replace (a * D + n * D - a * D)%nat with (n * D)%nat by lia. replace (a + n - a)%nat with n by lia.
    rewrite <-(take_drop a rows) at 1. rewrite concat_app.
    rewrite drop_app_length' by (rewrite (length_concat_uniform D) by (by apply Forall_take); rewrite length_take; f_equal; lia).
    rewrite <-(take_drop n (drop a rows)) at 1. rewrite concat_app.
    rewrite take_app_length'; [done|]. rewrite (length_concat_uniform D) by (by apply Forall_take, Forall_drop).
    rewrite length_take, length_drop. f_equal. lia. }
  apply view2_concat; [rewrite slice_length; lia|]. unfold slice. by apply Forall_take, Forall_drop.
Qed.

(** ** Segments written in any order *)

Definition put_segs (D BLOCK_D : nat) (R : nat → f32 * f32 * (nat → f32)) (l : list nat) (mem : Partials) : Partials :=
  fold_left (λ m s, store_partial s D BLOCK_D (R s) m) l mem.

Lemma put_segs_cells D BLOCK_D R N l mem :
  (D ≤ BLOCK_D)%nat → Forall (λ s, s < N)%nat l → partials_room N 1 D mem →
  put_segs D BLOCK_D R l mem
  = mkPartials (put_cells (λ s, (R s).1.1) l (pm mem)) (put_cells (λ s, (R s).1.2) l (pl mem))
      (concat (put_cells (λ s, tab D (R s).2) l (view2 N D (pacc mem)))).
Proof.
  intros HB Hl. revert mem. induction Hl as [|s l Hs Hl IH]; intros mem (H1 & H2 & H3).
  - cbn. rewrite concat_view2 by lia. by destruct mem.
  - cbn [put_segs fold_left]. fold (put_segs D BLOCK_D R l (store_partial s D BLOCK_D (R s) mem)).
    assert (∀ {A} (buf : list A) x, (s < length buf)%nat → store_block s [x] buf = <[s := x]> buf) as Hone.
    { intros A buf x Hb. rewrite insert_take_drop by done. unfold store_block. cbn [length app]. by rewrite Nat.add_1_r. }
    set (rows := view2 N D (pacc mem)).
    assert (Forall (λ r, length r = D) rows) as HD by (apply view2_Forall_length; lia).
    assert (length rows = N) as HN by apply view2_length.
    assert (store_partial s D BLOCK_D (R s) mem
            = mkPartials (<[s := (R s).1.1]> (pm mem)) (<[s := (R s).1.2]> (pl mem)) (concat (<[s := tab D (R s).2]> rows)))
      as ->.
    { unfold store_partial. rewrite !Hone by lia. rewrite (Nat.min_r BLOCK_D) by done. f_equal.
      rewrite <-(concat_view2 N D (pacc mem)) at 1 by lia. fold rows.
      apply store_block_row; [done|lia|apply tab_length]. }
    assert (Forall (λ r, length r = D) (<[s := tab D (R s).2]> rows)) as HD'
      by (apply Forall_insert; [done|apply tab_length]).
    rewrite IH; cbn [pm pl pacc].
    + rewrite view2_concat; [done|by rewrite length_insert|done].
    + unfold partials_room. cbn [pm pl pacc]. rewrite !length_insert. split; [done|]. split; [done|].
      rewrite (length_concat_uniform D), length_insert by done. lia.
Qed.

Lemma put_segs_ext D BLOCK_D R R' N l l' mem :
  (D ≤ BLOCK_D)%nat → Forall (λ s, s < N)%nat l → Forall (λ s, s < N)%nat l' → partials_room N 1 D mem →
  (∀ s, s ∈ l ↔ s ∈ l') → (∀ s, s ∈ l → R s = R' s) → put_segs D BLOCK_D R l mem = put_segs D BLOCK_D R' l' mem.
Proof.
  intros HB Hl Hl' Hm He HR. rewrite !(put_segs_cells D BLOCK_D _ N) by done.
  f_equal; [| |f_equal]; apply put_cells_ext; intros i Hi; try (by apply He); intros Hin; by rewrite HR.
Qed.

Lemma put_segs_app D BLOCK_D R l l' mem :
  put_segs D BLOCK_D R (l ++ l') mem = put_segs D BLOCK_D R l' (put_segs D BLOCK_D R l mem).
Proof. apply fold_left_app. Qed.

Lemma launch_put_segs D BLOCK_D R n (ls : nat → list nat) mem :
  launch n (λ p, put_segs D BLOCK_D R (ls p)) mem = put_segs D BLOCK_D R (flat_map ls (seq 0 n)) mem.
Proof.
  induction n as [|n IH]; [done|]. by rewrite launch_S, IH, seq_S, flat_map_app, put_segs_app; cbn [flat_map]; rewrite app_nil_r.
Qed.

(** ** The part of one query *)

(** [partial_m[j]], [partial_l[j]], [partial_acc[j]]. *)
Definition tile_view (j S D : nat) (mem : Partials) : Partials :=
  {| pm := slice (j * S) (j * S + S) (pm mem);
     pl := slice (j * S) (j * S + S) (pl mem);
     pacc := slice (j * S * D) (j * S * D + S * D) (pacc mem) |}.

Lemma room_flat n S D mem : partials_room n S D mem ↔ partials_room (n * S) 1 D mem.
Proof. unfold partials_room. by rewrite !Nat.mul_1_r. Qed.

Lemma tile_view_room n S D j mem : (j < n)%nat → partials_room n S D mem → partials_room S 1 D (tile_view j S D mem).
Proof.
  intros Hj (H1 & H2 & H3). unfold partials_room, tile_view. cbn [pm pl pacc]. rewrite !slice_length, H1, H2, H3.
  assert (j * S + S ≤ n * S)%nat by nia. assert (j * S * D + S * D ≤ n * S * D)%nat by nia. lia.
Qed.

Lemma tile_view_put n S D BLOCK_D R l l' j mem :
  (D ≤ BLOCK_D)%nat → (j < n)%nat → partials_room n S D mem →
  Forall (λ s, s < n * S)%nat l → Forall (λ s, s < S)%nat l' →
  (∀ s, (s < S)%nat → (j * S + s)%nat ∈ l ↔ s ∈ l') →
  tile_view j S D (put_segs D BLOCK_D R l mem) = put_segs D BLOCK_D (λ s, R (j * S + s)%nat) l' (tile_view j S D mem).
Proof.
  intros HB Hj Hm Hl Hl' He. pose proof (tile_view_room n S D j mem Hj Hm) as Hv.
  apply (room_flat n S) in Hm. pose proof Hm as (H1 & H2 & H3).
  rewrite (put_segs_cells D BLOCK_D R (n * S)), (put_segs_cells D BLOCK_D _ S) by done.
  assert (j * S + S ≤ n * S)%nat as Hb by nia.
  unfold tile_view. cbn [pm pl pacc]. rewrite !(slice_put_cells _ l l') by (done || lia). f_equal.
  set (rows := put_cells (λ s, tab D (R s).2) l (view2 (n * S) D (pacc mem))).
  assert (Forall (λ r, length r = D) rows) as HD.
  { apply Forall_lookup. intros i r Hr. unfold rows in Hr. apply lookup_lt_Some in Hr as Hlt.
    rewrite put_cells_length, view2_length in Hlt. rewrite put_cells_lookup in Hr by (by rewrite view2_length).
    destruct (decide (i ∈ l)); [injection Hr as <-; apply tab_length|].
    assert (Forall (λ r : list f32, length r = D) (view2 (n * S) D (pacc mem))) as HF by (apply view2_Forall_length; lia).
    exact (Forall_lookup_1 _ _ _ _ HF Hr). }
  assert (length rows = n * S)%nat as HN by (unfold rows; by rewrite put_cells_length, view2_length).
  assert (length (concat rows) = n * S * D)%nat as HC by (rewrite (length_concat_uniform D), HN by done; done).
  rewrite <-(concat_view2 S D (slice _ _ (concat rows))) by (rewrite slice_length, HC; nia).
  rewrite (view2_slice D (n * S)) by done. rewrite view2_concat by done. unfold rows.
  rewrite (slice_put_cells _ l l') by (rewrite ?view2_length; done || lia). do 2 f_equal.
  symmetry. apply (view2_slice D (n * S)); lia.
Qed.

(** Another query's stores leave a query's part alone. *)
Definition set_view (j S D : nat) (v mem : Partials) : Partials :=
  {| pm := store_block (j * S) (pm v) (pm mem);
     pl := store_block (j * S) (pl v) (pl mem);
     pacc := store_block (j * S * D) (pacc v) (pacc mem) |}.

Lemma slice_store_same {A} a (v mem : list A) :
  (a + length v ≤ length mem)%nat → slice a (a + length v) (store_block a v mem) = v.
Proof.
  intros H. unfold slice, store_block. replace (a + length v - a)%nat with (length v) by lia.
  rewrite drop_app_length' by (rewrite length_take; lia). by rewrite take_app_length.
Qed.

Lemma lookup_store_ne {A} a (v mem : list A) i :
  (a + length v ≤ length mem)%nat → (i < a ∨ a + length v ≤ i)%nat → store_block a v mem !! i = mem !! i.
Proof.
  intros H Hi. unfold store_block. destruct Hi as [Hi|Hi].
  - rewrite lookup_app_l by (rewrite length_take; lia). by rewrite lookup_take_lt.
  - rewrite lookup_app_r, lookup_app_r by (rewrite ?length_take; lia). rewrite length_take, lookup_drop. f_equal. lia.
Qed.

Lemma slice_store_other {A} a b n (v mem : list A) :
  (a + length v ≤ length mem)%nat → (b + n ≤ a ∨ a + length v ≤ b)%nat →
  slice b (b + n) (store_block a v mem) = slice b (b + n) mem.
Proof.
  intros H Hb. apply list_eq. intros i. destruct (decide (i < n)%nat) as [Hi|Hi].
  - rewrite !lookup_slice by done. apply lookup_store_ne; [done|]. lia.
  - rewrite !lookup_ge_None_2; [done|rewrite slice_length; lia|rewrite slice_length; lia].
Qed.

Lemma set_view_ok n S D j v mem :
  (j < n)%nat → partials_room n S D mem → partials_room S 1 D v →
  partials_room n S D (set_view j S D v mem) ∧ tile_view j S D (set_view j S D v mem) = v
  ∧ ∀ j', j' ≠ j → tile_view j' S D (set_view j S D v mem) = tile_view j' S D mem.
Proof.
  intros Hj (H1 & H2 & H3) (V1 & V2 & V3). rewrite Nat.mul_1_r in V1, V2, V3.
  assert (j * S + S ≤ n * S)%nat as Hb by nia. assert (j * S * D + S * D ≤ n * S * D)%nat as HbD by nia.
  split; [|split].
  - unfold partials_room, set_view. cbn [pm pl pacc]. rewrite !store_block_length by lia. done.
  - unfold tile_view, set_view. cbn [pm pl pacc].
    destruct v as [a b e]. cbn [pm pl pacc] in *.
    f_equal; [rewrite <-V1|rewrite <-V2|rewrite <-V3]; apply slice_store_same; lia.
  - intros j' Hne. assert (j' * S + S ≤ j * S ∨ j * S + S ≤ j' * S)%nat as Hd by nia.
    assert (j' * S * D + S * D ≤ j * S * D ∨ j * S * D + S * D ≤ j' * S * D)%nat as HdD by nia.
    unfold tile_view, set_view. cbn [pm pl pacc]. f_equal; apply slice_store_other; lia.
Qed.

(** ** The two scans *)

Section Scan.
Variables (c : PageConsts) (groups closed n S qs : nat) (q : list B) (cache : list Z) (bt : list nat) (scale : f32).
Let NQ := NUM_Q_HEADS c.
Let D := HEAD_SIZE c.
Hypotheses (Hkv : (0 < NUM_KV_HEADS c)%nat) (Hgr : (0 < groups)%nat) (HN : NQ = (NUM_KV_HEADS c * (groups * 4))%nat)
  (HB : (D ≤ BLOCK_D c)%nat) (HS : (closed * NQ ≤ S)%nat).

(** What a scan stores at a segment of the tile's memory. *)
Definition tile_segment (s : nat) : f32 * f32 * (nat → f32) :=
  closed_program c (drop (s / S * qs) q) cache bt scale (s mod S / NQ) (s mod S mod NQ).

Definition scan_seg (lp qg tq qi : nat) : nat := (tq * S + (lp * NQ + (qg * 4 + qi)))%nat.

Lemma scan_head qg qi :
  (qi < 4)%nat →
  (qg / groups * (NQ / NUM_KV_HEADS c) + (qg - qg / groups * groups) * 4 + qi = qg * 4 + qi)%nat
  ∧ ((qg * 4 + qi) / (NQ / NUM_KV_HEADS c) = qg / groups)%nat ∧ (NQ / NUM_KV_HEADS c / 4 = groups)%nat.
Proof.
  intros Hqi. assert (NQ / NUM_KV_HEADS c = groups * 4)%nat as -> by (rewrite HN, Nat.mul_comm; apply Nat.div_mul; lia).
  split; [|split].
  - pose proof (Nat.div_mod_eq qg groups). nia.
  - rewrite (Nat.mul_comm groups 4), <-Nat.Div0.div_div. f_equal. by rewrite Nat.div_add_l, Nat.div_small, Nat.add_0_r by lia.
  - apply Nat.div_mul. lia.
Qed.

(** The segment of a program's store lies in its query's part. *)
Lemma scan_seg_split lp qg tq qi :
  (lp < closed)%nat → (qg < NUM_KV_HEADS c * groups)%nat → (qi < 4)%nat →
  (scan_seg lp qg tq qi / S = tq)%nat ∧ (scan_seg lp qg tq qi mod S = lp * NQ + (qg * 4 + qi))%nat
  ∧ (lp * NQ + (qg * 4 + qi) < closed * NQ)%nat ∧ (qg * 4 + qi < NQ)%nat.
Proof.
  intros Hl Hq Hi. assert (qg * 4 + qi < NQ)%nat as H1 by nia.
  assert (lp * NQ + (qg * 4 + qi) < closed * NQ)%nat as H2 by nia. unfold scan_seg.
  destruct (segment_index S tq (lp * NQ + (qg * 4 + qi))) as [-> ->]; [lia|done].
Qed.

Lemma scan_store lp qg tq qi m :
  (lp < closed)%nat → (qg < NUM_KV_HEADS c * groups)%nat → (qi < 4)%nat →
  let kvh := (qg / (NQ / NUM_KV_HEADS c / 4))%nat in
  let qh := (kvh * (NQ / NUM_KV_HEADS c) + (qg - kvh * (NQ / NUM_KV_HEADS c / 4)) * 4 + qi)%nat in
  store_partial (tq * S + (lp * NQ + qh)) D (BLOCK_D c)
    (flash_block 32 (BLOCK_D c) (page_kval c (page_load c cache bt lp) kvh) (page_vval c (page_load c cache bt lp) kvh)
       (q_load (drop (tq * qs) q) D qh) scale) m
  = put_segs D (BLOCK_D c) tile_segment [scan_seg lp qg tq qi] m.
Proof.
  intros Hl Hq Hi. cbv zeta. destruct (scan_head qg qi Hi) as (E1 & E2 & ->). rewrite E1.
  destruct (scan_seg_split lp qg tq qi Hl Hq Hi) as (F1 & F2 & F3 & F4). cbn [put_segs fold_left].
  unfold tile_segment. rewrite F1, F2. destruct (segment_index NQ lp (qg * 4 + qi) F4) as [-> ->].
  unfold closed_program. fold NQ D. by rewrite E2.
Qed.

Definition tile32_order : list nat :=
  flat_map (λ lp, flat_map (λ qg, flat_map (λ tq, flat_map (λ qi, [scan_seg lp qg tq qi]) (seq 0 4)) (seq 0 n))
    (seq 0 (NUM_KV_HEADS c * groups))) (seq 0 closed).

Lemma tile32_put mem :
  _rabit2_tile32_closed_page_partial_kernel c closed (NUM_KV_HEADS c * groups) n q cache bt scale qs S mem
  = put_segs D (BLOCK_D c) tile_segment tile32_order mem.
Proof.
  unfold tile32_order, _rabit2_tile32_closed_page_partial_kernel. rewrite <-launch_put_segs.
  apply launch_ext. intros lp m1 Hlp. rewrite <-launch_put_segs. apply launch_ext. intros qg m2 Hqg.
  rewrite <-launch_put_segs. apply launch_ext. intros tq m3 Htq. rewrite <-launch_put_segs.
  apply launch_ext. intros qi m4 Hqi. by apply scan_store.
Qed.

(** A grid over a memory and a counter. *)
Lemma launch_both {M N} k (f : nat → M → M) (g : nat → N → N) F m x :
  (∀ p m x, (p < k)%nat → F p (m, x) = (f p m, g p x)) → launch k F (m, x) = (launch k f m, launch k g x).
Proof. induction k as [|k IH]; intros H; [done|]. rewrite !launch_S, IH by (intros; apply H; lia). apply H. lia. Qed.

Lemma launch_count k a (x : Z) : launch k (λ _ x, x + a)%Z x = (x + Z.of_nat k * a)%Z.
Proof. induction k as [|k IH]; [cbn; lia|]. rewrite launch_S, IH. lia. Qed.

Definition shared_order (QB qblocks : nat) : list nat :=
  flat_map (λ lp, flat_map (λ qg, flat_map (λ qblock, flat_map (λ j, flat_map (λ qi,
      if (qblock * QB + j <? n)%nat then [scan_seg lp qg (qblock * QB + j) qi] else [])
    (seq 0 4)) (seq 0 QB)) (seq 0 qblocks)) (seq 0 (NUM_KV_HEADS c * groups))) (seq 0 closed).

Lemma flash_block_query k BLOCK kval vval q1 q2 :
  (∀ d, (d < BLOCK)%nat → q1 d = q2 d) → flash_block k BLOCK kval vval q1 scale = flash_block k BLOCK kval vval q2 scale.
Proof.
  intros H. unfold flash_block. rewrite (tab_ext k (score BLOCK kval q1 scale) (score BLOCK kval q2 scale)); [done|].
  intros t _. apply score_ext. intros d Hd. split; [done|]. by apply H.
Qed.

Lemma shared_put QB count qblocks mem x :
  _rabit2_shared_decode_closed_page_partial_kernel c QB count closed (NUM_KV_HEADS c * groups) qblocks q cache bt scale n qs S
    (mem, x)
  = (put_segs D (BLOCK_D c) tile_segment (shared_order QB qblocks) mem,
     x + Z.of_nat (closed * (NUM_KV_HEADS c * groups) * qblocks) * (if count then 1 else 0))%Z.
Proof.
  unfold shared_order, _rabit2_shared_decode_closed_page_partial_kernel. set (a := (if count then 1 else 0)%Z).
  pose (body lp qg qblock := put_segs D (BLOCK_D c) tile_segment (flat_map (λ j, flat_map (λ qi,
      if (qblock * QB + j <? n)%nat then [scan_seg lp qg (qblock * QB + j) qi] else []) (seq 0 4)) (seq 0 QB))).
  pose (cnt (_ : nat) (x : Z) := (x + a)%Z).
  rewrite (launch_both closed (λ lp, launch (NUM_KV_HEADS c * groups) (λ qg, launch qblocks (body lp qg)))
             (λ _, launch (NUM_KV_HEADS c * groups) (λ _, launch qblocks cnt))).
  - f_equal.
    + rewrite <-launch_put_segs. apply launch_ext. intros lp m Hlp. rewrite <-launch_put_segs.
      apply launch_ext. intros qg m' Hqg. by rewrite <-launch_put_segs.
    + unfold cnt. rewrite (launch_ext closed _ (λ _ x, x + Z.of_nat (NUM_KV_HEADS c * groups) * (Z.of_nat qblocks * a))%Z).
      2: { intros _ y _. rewrite (launch_ext _ _ (λ _ x, x + Z.of_nat qblocks * a)%Z) by (intros; apply launch_count).
           apply launch_count. }
      rewrite launch_count. nia.
  - intros lp m y Hlp. apply launch_both. intros qg m' y' Hqg. apply launch_both. intros qblock m2 y2 Hqb.
    unfold cnt, a. f_equal; [|by destruct count; [|rewrite Z.add_0_r]].
    unfold body. rewrite <-launch_put_segs. apply launch_ext. intros j m3 Hj. rewrite <-launch_put_segs.
    apply launch_ext. intros qi m4 Hqi. destruct (_ <? n)%nat; [|done].
    by apply (scan_store lp qg (qblock * QB + j) qi m4).
Qed.

(** Both orders visit the segments of the closed pages of every query. *)
Definition scanned (s : nat) : Prop :=
  ∃ lp qg tq qi, (lp < closed)%nat ∧ (qg < NUM_KV_HEADS c * groups)%nat ∧ (tq < n)%nat ∧ (qi < 4)%nat
                 ∧ s = scan_seg lp qg tq qi.

Lemma tile32_order_scanned s : s ∈ tile32_order ↔ scanned s.
Proof.
  unfold tile32_order, scanned. rewrite list_elem_of_In, in_flat_map. setoid_rewrite in_flat_map.
  setoid_rewrite in_flat_map. setoid_rewrite in_flat_map. setoid_rewrite in_seq. split.
  - intros (lp & [_ Hlp] & qg & [_ Hqg] & tq & [_ Htq] & qi & [_ Hqi] & [<-|[]]). by exists lp, qg, tq, qi.
  - intros (lp & qg & tq & qi & Hlp & Hqg & Htq & Hqi & ->).
    exists lp. split; [lia|]. exists qg. split; [lia|]. exists tq. split; [lia|]. exists qi. split; [lia|]. by left.
Qed.

Lemma shared_order_scanned QB s : (0 < QB)%nat → s ∈ shared_order QB ((n + QB - 1) / QB) ↔ scanned s.
Proof.
  intros HQ. unfold shared_order, scanned. rewrite list_elem_of_In, in_flat_map. do 4 setoid_rewrite in_flat_map.
  setoid_rewrite in_seq. split.
  - intros (lp & [_ Hlp] & qg & [_ Hqg] & qb & [_ Hqb] & j & [_ Hj] & qi & [_ Hqi] & H).
    destruct (Nat.ltb_spec (qb * QB + j) n); [|done]. destruct H as [<-|[]]. by exists lp, qg, (qb * QB + j)%nat, qi.
  - intros (lp & qg & tq & qi & Hlp & Hqg & Htq & Hqi & ->).
    exists lp. split; [lia|]. exists qg. split; [lia|]. exists (tq / QB)%nat. pose proof (Nat.div_mod_eq tq QB) as Hd.
    pose proof (Nat.mod_upper_bound tq QB ltac:(lia)) as Hm. split.
    { split; [lia|]. cbn [Nat.add]. apply Nat.Div0.div_lt_upper_bound.
      pose proof (Nat.div_mod_eq (n + QB - 1) QB). pose proof (Nat.mod_upper_bound (n + QB - 1) QB ltac:(lia)). nia. }
    exists (tq mod QB)%nat. split; [lia|]. exists qi. split; [lia|].
    assert (tq / QB * QB + tq mod QB = tq)%nat as -> by lia. destruct (Nat.ltb_spec tq n); [by left|lia].
Qed.

Lemma scanned_bound s : scanned s → (s < n * S)%nat.
Proof.
  intros (lp & qg & tq & qi & Hlp & Hqg & Htq & Hqi & ->).
  destruct (scan_seg_split lp qg tq qi Hlp Hqg Hqi) as (_ & _ & H & _). unfold scan_seg. nia.
Qed.

Lemma scanned_query j s : (j < n)%nat → (s < S)%nat → scanned (j * S + s) ↔ s ∈ seq 0 (closed * NQ).
Proof.
  intros Hj Hs. rewrite elem_of_seq. destruct (segment_index S j s Hs) as [E1 E2]. split.
  - intros (lp & qg & tq & qi & Hlp & Hqg & Htq & Hqi & E).
    destruct (scan_seg_split lp qg tq qi Hlp Hqg Hqi) as (F1 & F2 & F3 & _). rewrite <-E in F1, F2. lia.
  - intros [_ H]. cbn [Nat.add] in H. assert (0 < NQ)%nat as HNQ by nia.
    pose proof (Nat.div_mod_eq s NQ) as Hd. pose proof (Nat.mod_upper_bound s NQ ltac:(lia)) as Hm.
    pose proof (Nat.div_mod_eq (s mod NQ) 4) as Hd4. pose proof (Nat.mod_upper_bound (s mod NQ) 4 ltac:(lia)) as Hm4.
    exists (s / NQ)%nat, (s mod NQ / 4)%nat, j, (s mod NQ mod 4)%nat.
    split; [apply Nat.Div0.div_lt_upper_bound; lia|]. split; [apply Nat.Div0.div_lt_upper_bound; lia|].
    split; [done|]. split; [done|]. unfold scan_seg. lia.
Qed.

Lemma orders_bound QB :
  (0 < QB)%nat → Forall (λ s, s < n * S)%nat tile32_order ∧ Forall (λ s, s < n * S)%nat (shared_order QB ((n + QB - 1) / QB)).
Proof.
  intros HQ. split; apply List.Forall_forall; intros s Hs%list_elem_of_In; apply scanned_bound;
    [by apply tile32_order_scanned|by apply (shared_order_scanned QB)].
Qed.

(** The shared decode writes what the per-query decode writes. *)
Lemma shared_is_tile32 QB count mem x (qblocks := ((n + QB - 1) / QB)%nat) :
  (0 < QB)%nat → partials_room n S D mem →
  _rabit2_shared_decode_closed_page_partial_kernel c QB count closed (NUM_KV_HEADS c * groups) qblocks q cache bt scale n qs S
    (mem, x)
  = (_rabit2_tile32_closed_page_partial_kernel c closed (NUM_KV_HEADS c * groups) n q cache bt scale qs S mem,
     x + Z.of_nat (closed * (NUM_KV_HEADS c * groups) * qblocks) * (if count then 1 else 0))%Z.
Proof.
  intros HQ Hm. destruct (orders_bound QB HQ) as [O1 O2]. rewrite shared_put, tile32_put. f_equal.
  apply (put_segs_ext D (BLOCK_D c) _ _ (n * S)); try done; [by apply (room_flat n S)|].
  intros s. unfold qblocks. by rewrite tile32_order_scanned, (shared_order_scanned QB).
Qed.

(** The Stage 4B3 kernel alone, in row order. *)
Lemma single_put row mem :
  _rabit2_stage4b3_gqa4_closed_page_partial_kernel c closed (NUM_KV_HEADS c * groups) row cache bt scale mem
  = put_segs D (BLOCK_D c) (λ s, closed_program c row cache bt scale (s / NQ) (s mod NQ)) (seq 0 (closed * NQ)) mem.
Proof.
  rewrite gqa4_kernel_eq by done. unfold _rabit2_closed_page_partial_kernel. fold NQ D.
  transitivity (launch closed (λ i, launch NQ (λ j, let s := (i * NQ + j)%nat in
    store_partial s D (BLOCK_D c) (closed_program c row cache bt scale (s / NQ) (s mod NQ)))) mem).
  - apply launch_ext. intros lp m Hlp. apply launch_ext. intros qh m' Hqh. cbv zeta.
    by destruct (segment_index NQ lp qh Hqh) as [-> ->].
  - apply (launch_flatten closed NQ (λ s, store_partial s D (BLOCK_D c) (closed_program c row cache bt scale (s / NQ) (s mod NQ)))).
Qed.

(** A query's row of the tile is what its pointer reads. *)
Lemma tile_row_load (rows : list (list B)) j row qh d :
  Forall (λ r, length r = qs) rows → rows !! j = Some row → qs = (NQ * D)%nat → (qh < NQ)%nat →
  q_load (drop (j * qs) (concat rows)) D qh d = q_load row D qh d.
Proof.
  intros HF Hj Hqs Hqh. unfold q_load. destruct (Nat.ltb_spec d D) as [Hd|]; [|done]. f_equal.
  destruct (seg_split qs j rows row HF Hj) as (E & El & Er). rewrite E, drop_app_length' by lia.
  apply app_nth1. rewrite Er, Hqs. nia.
Qed.

Lemma tile32_view (rows : list (list B)) j row mem :
  q = concat rows → Forall (λ r, length r = qs) rows → length rows = n → qs = (NQ * D)%nat → rows !! j = Some row →
  partials_room n S D mem →
  tile_view j S D (_rabit2_tile32_closed_page_partial_kernel c closed (NUM_KV_HEADS c * groups) n q cache bt scale qs S mem)
  = _rabit2_stage4b3_gqa4_closed_page_partial_kernel c closed (NUM_KV_HEADS c * groups) row cache bt scale (tile_view j S D mem).
Proof.
  intros Hq HF Hn Hqs Hj Hm. assert (j < n)%nat as Hjn by (rewrite <-Hn; by eapply lookup_lt_Some).
  destruct (orders_bound 1 ltac:(lia)) as [O1 _].
  assert (Forall (λ s, s < S)%nat (seq 0 (closed * NQ))) as O2
    by (apply List.Forall_forall; intros s [_ Hs]%in_seq; lia).
  rewrite tile32_put, single_put.
  rewrite (tile_view_put n S D (BLOCK_D c) _ _ (seq 0 (closed * NQ))); try done.
  - apply (put_segs_ext D (BLOCK_D c) _ _ S); try done; [by eapply tile_view_room|].
    intros s [_ Hs]%elem_of_seq. unfold tile_segment. destruct (segment_index S j s ltac:(lia)) as [-> ->].
    unfold closed_program. rewrite Hq. fold D NQ.
    assert (0 < NQ)%nat as HNQ by nia.
    apply flash_block_query. intros d _. apply tile_row_load; try done. apply Nat.mod_upper_bound. lia.
  - intros s Hs. rewrite tile32_order_scanned. by apply scanned_query.
Qed.

Lemma tile32_room mem :
  partials_room n S D mem →
  partials_room n S D (_rabit2_tile32_closed_page_partial_kernel c closed (NUM_KV_HEADS c * groups) n q cache bt scale qs S mem).
Proof.
  intros Hm. destruct (orders_bound 1 ltac:(lia)) as [O1 _]. apply (room_flat n S) in Hm. rewrite tile32_put.
  rewrite (put_segs_cells D (BLOCK_D c) _ (n * S)) by done. pose proof Hm as (H1 & H2 & H3). apply (room_flat n S).
  unfold partials_room. cbn [pm pl pacc]. rewrite !put_cells_length. split; [done|]. split; [done|].
  rewrite (length_concat_uniform D).
  - rewrite put_cells_length, view2_length. lia.
  - apply Forall_lookup. intros i r Hr. apply lookup_lt_Some in Hr as Hlt. rewrite put_cells_length, view2_length in Hlt.
    rewrite put_cells_lookup in Hr by (by rewrite view2_length). destruct (decide _); [injection Hr as <-; apply tab_length|].
    assert (Forall (λ r : list f32, length r = D) (view2 (n * S) D (pacc mem))) as HF by (apply view2_Forall_length; lia).
    exact (Forall_lookup_1 _ _ _ _ HF Hr).
Qed.
End Scan.

(** ** The reduction *)

Lemma reduce_lane_view S D NQ k BLOCK_S tq qh d mem :
  (k * NQ ≤ S)%nat → (qh < NQ)%nat →
  reduce_lane (tile_ptr tq S D mem) k NQ D BLOCK_S qh d = reduce_lane (tile_view tq S D mem) k NQ D BLOCK_S qh d.
Proof.
  intros Hk Hq. unfold reduce_lane, tile_ptr, tile_view. cbn [pm pl pacc].
  assert (∀ s, (s < k)%nat → (s * NQ + qh < S)%nat) as Hin by (intros; nia).
  assert (∀ (l : list f32) s, (s < k)%nat →
            nth (s * NQ + qh) (drop (tq * S) l) f32_zero = nth (s * NQ + qh) (slice (tq * S) (tq * S + S) l) f32_zero) as E.
  { intros l s Hs. rewrite nth_slice by (specialize (Hin s Hs); lia). by rewrite nth_skipn. }
  rewrite (tab_ext BLOCK_S (λ s, if (s <? k)%nat then nth (s * NQ + qh) (drop _ (pm mem)) f32_zero else tl_neg_inf)
             (λ s, if (s <? k)%nat then nth (s * NQ + qh) (slice (tq * S) (tq * S + S) (pm mem)) f32_zero else tl_neg_inf))
    by (intros s _; destruct (Nat.ltb_spec s k); [by rewrite E|done]).
  set (ms := tab BLOCK_S _). set (w := tab BLOCK_S (λ s, if (s <? k)%nat then tl_exp _ else f32_zero)).
  f_equal; f_equal; apply tab_ext; intros s Hs; f_equal.
  - destruct (Nat.ltb_spec s k) as [Hsk|]; cbn [andb]; [|done]. destruct (Nat.ltb_spec d D); [|done].
    specialize (Hin s Hsk). rewrite nth_slice by nia. by rewrite nth_skipn.
  - rewrite !tab_nth by done. destruct (Nat.ltb_spec s k); [by rewrite E|done].
Qed.

(** Storing whole rows in any order. *)
Lemma put_blocks {A} D N (V : nat → list A) l out :
  Forall (λ s, s < N)%nat l → (∀ s, length (V s) = D) → length out = (N * D)%nat →
  fold_left (λ m s, store_block (s * D) (V s) m) l out = concat (put_cells V l (view2 N D out)).
Proof.
  intros Hl HV Ho. rewrite <-(concat_view2 N D out) at 1 by done. set (rows := view2 N D out).
  assert (Forall (λ r, length r = D) rows) as HD by (apply view2_Forall_length; lia).
  assert (length rows = N) as HN by apply view2_length. clearbody rows. clear Ho. revert rows HD HN.
  induction Hl as [|s l Hs Hl IH]; intros rows HD HN; [done|]. cbn [fold_left put_cells].
  rewrite store_block_row by (done || lia). apply IH; [by apply Forall_insert|by rewrite length_insert].
Qed.

Lemma launch_store_blocks {A} D k (V : nat → list A) (ls : nat → list nat) out :
  launch k (λ p, fold_left (λ m s, store_block (s * D) (V s) m) (ls p)) out
  = fold_left (λ m s, store_block (s * D) (V s) m) (flat_map ls (seq 0 k)) out.
Proof.
  induction k as [|k IH]; [done|]. rewrite launch_S, IH, seq_S, flat_map_app, fold_left_app. cbn [flat_map].
  by rewrite app_nil_r.
Qed.

(** Every query of a tile is reduced as the reference reduces it alone. *)
Lemma tile32_reduce n S D NQ k BLOCK_S BLOCK_D mem out row :
  (D ≤ BLOCK_D)%nat → (k * NQ ≤ S)%nat → length out = (n * (NQ * D))%nat → length row = (NQ * D)%nat →
  _rabit2_tile32_reduce_partials_kernel mem n k S (NQ * D) NQ D BLOCK_S BLOCK_D out
  = concat (tab n (λ tq, _rabit2_reduce_partials_kernel (tile_view tq S D mem) k NQ D BLOCK_S BLOCK_D row)).
Proof.
  intros HB Hk Ho Hr. set (f tq qh := tab D (λ d, ft_cast (reduce_lane (tile_view tq S D mem) k NQ D BLOCK_S qh d))).
  assert (∀ tq, _rabit2_reduce_partials_kernel (tile_view tq S D mem) k NQ D BLOCK_S BLOCK_D row = concat (tab NQ (f tq))) as E.
  { intros tq. unfold _rabit2_reduce_partials_kernel. rewrite (Nat.min_r BLOCK_D) by done.
    by rewrite launch_fill by (done || intros; apply tab_length). }
  rewrite (tab_ext n _ (λ tq, concat (tab NQ (f tq)))) by (intros; apply E). clear E.
  set (V s := f (s / NQ)%nat (s mod NQ)%nat).
  pose (order := flat_map (λ qh, flat_map (λ tq, [(tq * NQ + qh)%nat]) (seq 0 n)) (seq 0 NQ)).
  assert (∀ s, s ∈ order ↔ (s < n * NQ)%nat) as Hord.
  { intros s. unfold order. rewrite list_elem_of_In, in_flat_map. setoid_rewrite in_flat_map. setoid_rewrite in_seq. split.
    - intros (qh & [_ Hq] & tq & [_ Ht] & [<-|[]]). nia.
    - intros Hs. assert (0 < NQ)%nat as HNQ by nia. pose proof (Nat.div_mod_eq s NQ).
      pose proof (Nat.mod_upper_bound s NQ ltac:(lia)). exists (s mod NQ)%nat. split; [lia|]. exists (s / NQ)%nat.
      split; [|left; lia]. split; [lia|]. apply Nat.Div0.div_lt_upper_bound. lia. }
  transitivity (fold_left (λ m s, store_block (s * D) (V s) m) order out).
  - unfold order. rewrite <-launch_store_blocks. unfold _rabit2_tile32_reduce_partials_kernel.
    apply launch_ext. intros qh m Hqh. rewrite <-launch_store_blocks. apply launch_ext. intros tq m' Htq.
    cbn [fold_left]. rewrite (Nat.min_r BLOCK_D) by done.
    replace (tq * (NQ * D) + qh * D)%nat with ((tq * NQ + qh) * D)%nat by lia. f_equal.
    unfold V, f. destruct (segment_index NQ tq qh Hqh) as [-> ->]. apply tab_ext. intros d Hd. f_equal.
    by apply reduce_lane_view.
  - rewrite (put_blocks D (n * NQ)); [|apply List.Forall_forall; intros s Hs%list_elem_of_In; by apply Hord|
      intros; apply tab_length|lia].
    transitivity (concat (tab (n * NQ) V)).
    + f_equal. apply list_eq. intros i. destruct (decide (i < n * NQ)%nat) as [Hi|Hi].
      * rewrite put_cells_lookup, decide_True by (rewrite ?view2_length; by rewrite ?Hord).
        unfold tab. by rewrite list_lookup_fmap, lookup_seq_lt.
      * rewrite !lookup_ge_None_2; [done|rewrite tab_length; lia|rewrite put_cells_length, view2_length; lia].
    + unfold V. rewrite <-(concat_tab n NQ f). rewrite concat_concat. by rewrite map_tab.
Qed.

(** ** Property *)

(** C23: the batched kernels compute the floats of the per-query ones.  On any cache,
    block table and memory, for every number of queries and every query block, the
    shared-decode scan and the tile32 scan leave the same partials; the part of
    each query is what the Stage 4B3 kernel leaves for that query alone; the
    reduction over the tile is the rows of the reference reductions; and the
    shared scan decodes [closed * qgroups * cdiv(n, QUERY_BLOCK)] pages, which is
    what the counter counts when it is on. *)
Theorem batched_kernels_are_reference (c : PageConsts) (groups closed S QB : nat) (rows : list (list B)) (cache : list Z)
    (bt : list nat) (scale : f32) (mem : Partials) (count : bool) (x : Z)
    (n := length rows) (NQ := NUM_Q_HEADS c) (D := HEAD_SIZE c) (qgroups := (NUM_KV_HEADS c * groups)%nat)
    (scan := _rabit2_tile32_closed_page_partial_kernel c closed qgroups n (concat rows) cache bt scale (NQ * D) S mem) :
  (0 < NUM_KV_HEADS c)%nat → (0 < groups)%nat → NQ = (NUM_KV_HEADS c * (groups * 4))%nat → (D ≤ BLOCK_D c)%nat →
  (closed * NQ ≤ S)%nat → (0 < QB)%nat → Forall (λ r, length r = (NQ * D)%nat) rows → partials_room n S D mem →
  _rabit2_shared_decode_closed_page_partial_kernel c QB count closed qgroups ((n + QB - 1) / QB) (concat rows) cache bt scale
    n (NQ * D) S (mem, x)
  = (scan, if count then x + Z.of_nat (closed * qgroups * ((n + QB - 1) / QB)) else x)%Z
  ∧ (∀ j row, rows !! j = Some row →
       tile_view j S D scan
       = _rabit2_stage4b3_gqa4_closed_page_partial_kernel c closed qgroups row cache bt scale (tile_view j S D mem))
  ∧ (∀ k BLOCK_S out out', (k * NQ ≤ S)%nat → length out = (n * (NQ * D))%nat → length out' = (NQ * D)%nat →
       _rabit2_tile32_reduce_partials_kernel scan n k S (NQ * D) NQ D BLOCK_S (BLOCK_D c) out
       = concat (tab n (λ j, _rabit2_reduce_partials_kernel (tile_view j S D scan) k NQ D BLOCK_S (BLOCK_D c) out'))).
Proof.
  intros Hkv Hgr HN HB HS HQ Hrows Hm. split; [|split].
  - rewrite (shared_is_tile32 c groups closed n S) by done. f_equal. destruct count; unfold qgroups; lia.
  - intros j row Hj. by apply (tile32_view c groups closed n S (NQ * D) (concat rows) cache bt scale Hkv Hgr HN HB HS rows).
  - intros k BLOCK_S out out' Hk Ho Ho'. by apply tile32_reduce.
Qed.
End TileKernels.

(** ** Concrete queries *)

Section Concrete.
#[local] Existing Instance FixedTorch.
#[local] Existing Instance FixedTriton.
#[local] Existing Instance zero_memory.
#[local] Existing Instance FixedReduce.
#[local] Existing Instance bf16_type.

(** C23 for three queries of four heads over one page, in blocks of four. *)
Lemma batched_kernels_are_reference_witness :
  let c := page_consts (layout_of GROUP 1 64 64) 4 64 24 16 in
  let rows := [replicate 256 7; replicate 256 1; replicate 256 3]%Z in
  let mem := mkPartials (replicate 24 0%Z) (replicate 24 0%Z) (replicate 1536 0%Z) in
  (_rabit2_shared_decode_closed_page_partial_kernel c 4 true 1 1 1 (concat rows) (replicate 1552 0%Z) [0%nat] UNIT
     3 256 8 (mem, 0%Z)).2 = 1%Z
  ∧ tile_view 1 8 64 (_rabit2_tile32_closed_page_partial_kernel c 1 1 3 (concat rows) (replicate 1552 0%Z) [0%nat] UNIT 256 8 mem)
    = _rabit2_stage4b3_gqa4_closed_page_partial_kernel c 1 1 (replicate 256 1%Z) (replicate 1552 0%Z) [0%nat] UNIT
        (tile_view 1 8 64 mem).
Proof.
  intros c rows mem.
  destruct (batched_kernels_are_reference (TA := FixedReduce) c 1 1 8 4 rows (replicate 1552 0%Z) [0%nat] UNIT mem true 0%Z)
    as (H1 & H2 & _).
  - cbn. lia.
  - lia.
  - reflexivity.
  - apply (bool_decide_unpack _). reflexivity.
  - cbn. lia.
  - lia.
  - repeat constructor.
  - repeat split.
  - split; [|exact (H2 1%nat (replicate 256 1%Z) eq_refl)].
    match type of H1 with ?l = _ => change (l.2 = 1%Z) end. by rewrite H1.
Defined.
End Concrete.
