(* ===== verification/Lifecycle.v ===== *)
(** * Request lifecycle

    The module state that ties the scheduler to the attention layers, from
    [rabit_kv2.py] (Stage 3C): the published batch, the weak set of registered
    attention layers with their tables of runtimes, and the functions that
    register a layer, publish a batch, finish requests and count live sidecars;
    and the three places of [gpu_model_runner.py] that call them.

    A layer is named by its identity.  A layer without a [_rabit2_runtimes]
    attribute has no table.  The order in which a weak set is visited is not
    specified, and no operation depends on it. *)

From Stdlib Require Import ZArith Lia.
From stdpp Require Import gmap strings base tactics numbers list option.
From S2P Require Import Prelude.

(** [(request, query length, context length)] *)
Definition BatchItem : Type := string * Z * Z.

Section Lifecycle.
(** The runtime objects. *)
Context {Obj : Type}.

Abbreviation RuntimeTable := (gmap string Obj).

Record Bridge := mkBridge {
  br_active_batch : list BatchItem;
  br_impls : gmap nat (option RuntimeTable)
}.

Definition rabit2_register_attention_impl (impl : nat) (table : option RuntimeTable) : ST Bridge unit :=
  st_modify (λ s, mkBridge (br_active_batch s) (<[impl := table]> (br_impls s))).

Definition is_profile_key (key : string) : bool := String.prefix "__rabit_profile_" key.

(** [for key in tuple(table): if ...: table.pop(key, None)] *)
Definition drop_profile (table : RuntimeTable) : RuntimeTable :=
  fold_left (λ t key, if is_profile_key key then delete key t else t) (map_to_list table).*1 table.

(** The loop over the registered layers that have a table. *)
Definition each_table (f : RuntimeTable → RuntimeTable) (s : Bridge) : Bridge :=
  mkBridge (br_active_batch s) (fmap (M := gmap nat) (fmap (M := option) f) (br_impls s)).

Definition rabit2_set_active_batch (req_ids : list string) (query_lens context_lens : list Z) : ST Bridge unit :=
  st_raise_if (negb ((length req_ids =? length query_lens)%nat
                     && (length query_lens =? length context_lens)%nat)) ValueError;;
  st_raise_if (existsb (λ q, q <=? 0)%Z query_lens) ValueError;;
  st_raise_if (existsb (λ c, c <? 0)%Z context_lens) ValueError;;
  st_modify (λ s, mkBridge (zip (zip req_ids query_lens) context_lens) (br_impls s));;
  match req_ids with
  | [] => mret tt
  | _ => st_modify (each_table drop_profile)
  end.

Definition rabit2_get_active_batch (s : Bridge) : list BatchItem := br_active_batch s.

Definition rabit2_get_active_request_ids (s : Bridge) : list string := map (λ x, x.1.1) (br_active_batch s).

(** The inner loop: the keys popped, and the table left. *)
Fixpoint pop_all (finished : list string) (table : RuntimeTable) : nat * RuntimeTable :=
  match finished with
  | [] => (0%nat, table)
  | req_id :: finished =>
      match table !! req_id with
      | Some _ => let '(n, t) := pop_all finished (delete req_id table) in (S n, t)
      | None => pop_all finished table
      end
  end.

(** A sum over the registered layers that have a table. *)
Definition sum_tables (f : RuntimeTable → nat) (s : Bridge) : nat :=
  sum_list_with (λ it, match it.2 with Some t => f t | None => 0%nat end) (map_to_list (br_impls s)).

Definition rabit2_finish_requests (req_ids : list string) : ST Bridge nat :=
  match req_ids with
  | [] => mret 0%nat
  | _ => λ s, (Ok (sum_tables (λ t, (pop_all req_ids t).1) s), each_table (λ t, (pop_all req_ids t).2) s)
  end.

Definition rabit2_total_live_sidecars (s : Bridge) : nat := sum_tables size s.

(** ** The model runner's hooks *)

(** The constructor's guards for a [rabit_kv2] cache. *)
Definition runner_init_guards (rabit enable_prefix_caching speculative : bool) : result unit :=
  if rabit then
    _ ← raise_if enable_prefix_caching NotImplementedError;
    raise_if speculative NotImplementedError
  else Ok tt.

(** The release at the head of [_update_states]. *)
Definition runner_release (rabit : bool) (finished_req_ids : list string) : ST Bridge unit :=
  match finished_req_ids with
  | [] => mret tt
  | _ => if rabit then _ ← rabit2_finish_requests finished_req_ids; mret tt else mret tt
  end.

Definition get_item (table : gmap string Z) (key : string) : result Z :=
  match table !! key with Some v => Ok v | None => Err KeyError end.

(** The publication after the batch was condensed and reordered; [req_ids] is
    [input_batch.req_ids[:num_reqs]]. *)
Definition runner_publish (rabit : bool) (req_ids : list string) (num_scheduled_tokens num_computed_tokens : gmap string Z) :
    ST Bridge unit :=
  if rabit then
    query_lens ← st_lift (result_map (get_item num_scheduled_tokens) req_ids);
    context_lens ← st_lift (result_map (get_item num_computed_tokens) req_ids);
    rabit2_set_active_batch req_ids query_lens context_lens
  else mret tt.

(** ** Lemmas *)

Definition keep (P : string → Prop) `{∀ k, Decision (P k)} (t : RuntimeTable) : RuntimeTable :=
  filter (λ it, P it.1) t.

Lemma keep_lookup P `{∀ k, Decision (P k)} t key :
  keep P t !! key = if decide (P key) then t !! key else None.
Proof.
  apply option_eq. intros o. unfold keep. rewrite map_lookup_filter_Some. cbn [fst].
  destruct (decide (P key)); tauto || by split; [intros []|].
Qed.

Lemma drop_profile_keep t : drop_profile t = keep (λ k, is_profile_key k = false) t.
Proof.
  unfold drop_profile.
  assert (∀ l t' key, fold_left (λ (t : RuntimeTable) key, if is_profile_key key then delete key t else t) l t' !! key
            = if is_profile_key key && bool_decide (key ∈ l) then None else t' !! key) as Hf.
  { induction l as [|k l IH]; intros t' key; cbn [fold_left].
    - by rewrite andb_false_r.
    - rewrite IH. destruct (is_profile_key k) eqn:Ek.
      + destruct (decide (key = k)) as [->|Hne].
        * rewrite Ek, (bool_decide_eq_true_2 (k ∈ k :: l)) by left. rewrite lookup_delete_eq.
          by destruct (bool_decide _).
        * rewrite lookup_delete_ne by done.
          assert (bool_decide (key ∈ k :: l) = bool_decide (key ∈ l)) as ->; [|done].
          by apply bool_decide_ext; rewrite elem_of_cons; tauto.
      + destruct (decide (key = k)) as [->|Hne].
        * by rewrite Ek.
        * assert (bool_decide (key ∈ k :: l) = bool_decide (key ∈ l)) as ->; [|done].
          by apply bool_decide_ext; rewrite elem_of_cons; tauto. }
  apply map_eq. intros key. rewrite Hf, keep_lookup.
  destruct (is_profile_key key) eqn:Ek; cbn [andb]; [|done].
  destruct (decide (true = false)); [done|]. case_bool_decide as Hin; [done|].
  apply eq_None_not_Some. intros [o Ho]. apply Hin, list_elem_of_fmap. exists (key, o).
  split; [done|]. by apply elem_of_map_to_list.
Qed.

Lemma keep_cons id finished t :
  keep (λ k, k ∉ id :: finished) t = keep (λ k, k ∉ finished) (delete id t).
Proof.
  apply map_eq. intros k. rewrite !keep_lookup. destruct (decide (k = id)) as [->|Hne].
  - rewrite lookup_delete_eq. destruct (decide (id ∉ id :: finished)) as [Hn|_]; [by destruct Hn; left|].
    by destruct (decide _).
  - rewrite lookup_delete_ne by done.
    destruct (decide (k ∉ id :: finished)) as [H1|H1], (decide (k ∉ finished)) as [H2|H2]; try done;
      rewrite not_elem_of_cons in H1; tauto.
Qed.

Lemma pop_all_spec finished t :
  (pop_all finished t).2 = keep (λ k, k ∉ finished) t
  ∧ ((pop_all finished t).1 + size (pop_all finished t).2)%nat = size t.
Proof.
  revert t. induction finished as [|id finished IH]; intros t; cbn [pop_all].
  { cbn [fst snd]. split; [|done]. apply map_eq. intros k. rewrite keep_lookup.
    destruct (decide (k ∉ [])) as [|Hn]; [done|]. destruct Hn. apply not_elem_of_nil. }
  rewrite keep_cons. destruct (t !! id) as [o|] eqn:E.
  - destruct (IH (delete id t)) as [I1 I2]. destruct (pop_all finished (delete id t)) as [n t'].
    cbn [fst snd] in *. split; [done|].
    rewrite map_size_delete_Some in I2 by (by exists o).
    assert (size t ≠ 0%nat) by (intros H0; apply map_size_empty_inv in H0; by subst t). lia.
  - destruct (IH t) as [I1 I2]. split; [|done]. by rewrite delete_id.
Qed.
(** The sidecar of a request in a layer. *)
Definition sidecar_of_request (s : Bridge) (impl : nat) (key : string) : option Obj :=
  match br_impls s !! impl with Some (Some t) => t !! key | _ => None end.

Lemma each_table_lookup f s impl key :
  sidecar_of_request (each_table f s) impl key
  = match br_impls s !! impl with Some (Some t) => f t !! key | _ => None end.
Proof.
  unfold sidecar_of_request, each_table. cbn [br_impls].
  rewrite (lookup_fmap (M := gmap nat)). by destruct (br_impls s !! impl) as [[t|]|].
Qed.

Lemma sum_tables_each f g s : sum_tables f (each_table g s) = sum_tables (λ t, f (g t)) s.
Proof.
  unfold sum_tables, each_table. cbn [br_impls]. rewrite (map_to_list_fmap (M := gmap nat)).
  induction (map_to_list (br_impls s)) as [|[i [t|]] l IH]; [done| |]; cbn; cbn in IH; by rewrite IH.
Qed.

Lemma sum_tables_plus f g h s :
  (∀ t, f t + g t = h t)%nat → (sum_tables f s + sum_tables g s)%nat = sum_tables h s.
Proof.
  intros H. unfold sum_tables. induction (map_to_list (br_impls s)) as [|[i [t|]] l IH]; [done| |];
    cbn; cbn in IH; [specialize (H t)|]; lia.
Qed.

(** The bridge after a release. *)
Definition released (finished : list string) (s : Bridge) : Bridge :=
  match finished with [] => s | _ => each_table (λ t, (pop_all finished t).2) s end.

Lemma release_state finished s : runner_release true finished s = (Ok tt, released finished s).
Proof. by destruct finished. Qed.

Lemma each_table_table f s impl t :
  br_impls s !! impl = Some (Some t) → br_impls (each_table f s) !! impl = Some (Some (f t)).
Proof. intros E. unfold each_table. cbn [br_impls]. by rewrite (lookup_fmap (M := gmap nat)), E. Qed.

Lemma pop_all_lookup finished t key :
  (pop_all finished t).2 !! key = if decide (key ∈ finished) then None else t !! key.
Proof.
  rewrite (proj1 (pop_all_spec _ _)), keep_lookup.
  destruct (decide (key ∈ finished)) as [H|H], (decide (key ∉ finished)) as [H'|H']; done.
Qed.

Lemma released_table finished s impl t :
  br_impls s !! impl = Some (Some t) →
  ∃ t', br_impls (released finished s) !! impl = Some (Some t')
  ∧ ∀ key, t' !! key = if decide (key ∈ finished) then None else t !! key.
Proof.
  intros E. destruct finished as [|id finished].
  - exists t. split; [done|]. intros key. by destruct (decide (key ∈ [])) as [H%elem_of_nil|].
  - eexists. split; [by apply each_table_table|]. intros key. apply pop_all_lookup.
Qed.

Lemma released_sidecars finished s impl key :
  sidecar_of_request (released finished s) impl key
  = if decide (key ∈ finished) then None else sidecar_of_request s impl key.
Proof.
  destruct finished as [|id finished]; [by destruct (decide (key ∈ [])) as [H%elem_of_nil|]|].
  unfold released. rewrite each_table_lookup. unfold sidecar_of_request.
  destruct (br_impls s !! impl) as [[t|]|]; [apply pop_all_lookup|by destruct (decide _)|by destruct (decide _)].
Qed.

(** What [rabit2_set_active_batch] accepts. *)
Definition batch_valid (ids : list string) (qs cs : list Z) : bool :=
  ((length ids =? length qs)%nat && (length qs =? length cs)%nat)
  && negb (existsb (λ q, q <=? 0)%Z qs) && negb (existsb (λ c, c <? 0)%Z cs).

Definition published (ids : list string) (qs cs : list Z) (s : Bridge) : Bridge :=
  let s := mkBridge (zip (zip ids qs) cs) (br_impls s) in
  match ids with [] => s | _ => each_table drop_profile s end.

Lemma set_active_batch_state ids qs cs s :
  rabit2_set_active_batch ids qs cs s
  = if batch_valid ids qs cs then (Ok tt, published ids qs cs s) else (Err ValueError, s).
Proof.
  unfold rabit2_set_active_batch, batch_valid, published. rewrite st_bind_eq. unfold st_raise_if, st_lift.
  destruct (_ && _); cbn [negb raise_if andb]; [|done]. rewrite st_bind_eq.
  destruct (existsb _ qs); cbn [negb raise_if andb]; [done|]. rewrite st_bind_eq.
  destruct (existsb _ cs); cbn [negb raise_if]; [done|]. by destruct ids.
Qed.

Lemma drop_profile_lookup t key : drop_profile t !! key = if is_profile_key key then None else t !! key.
Proof. rewrite drop_profile_keep, keep_lookup. by destruct (is_profile_key key). Qed.

Lemma published_table ids qs cs s impl t :
  br_impls s !! impl = Some (Some t) →
  ∃ t', br_impls (published ids qs cs s) !! impl = Some (Some t')
  ∧ ∀ key, t' !! key = if negb (length ids =? 0)%nat && is_profile_key key then None else t !! key.
Proof.
  intros E. destruct ids as [|id ids]; [by exists t|]. eexists. split; [by apply each_table_table|].
  intros key. apply drop_profile_lookup.
Qed.

Lemma published_sidecars ids qs cs s impl key :
  sidecar_of_request (published ids qs cs s) impl key
  = if negb (length ids =? 0)%nat && is_profile_key key then None else sidecar_of_request s impl key.
Proof.
  unfold published. destruct ids as [|id ids]; [done|]. cbn [length Nat.eqb negb andb].
  rewrite each_table_lookup. unfold sidecar_of_request. cbn [br_impls].
  destruct (br_impls s !! impl) as [[t|]|]; [|by destruct (is_profile_key key)|by destruct (is_profile_key key)].
  apply drop_profile_lookup.
Qed.

(** The head and the tail of [_update_states]. *)
Definition runner_step (finished ids : list string) (scheduled computed : gmap string Z) : ST Bridge unit :=
  runner_release true finished;; runner_publish true ids scheduled computed.

(** The scheduler's counts of a batch. *)
Definition counted (scheduled computed : gmap string Z) (ids : list string) : Prop :=
  Forall (λ id, ∃ q c, scheduled !! id = Some q ∧ computed !! id = Some c ∧ (0 < q)%Z ∧ (0 ≤ c)%Z) ids.

Definition counted_batch (scheduled computed : gmap string Z) (ids : list string) : list BatchItem :=
  map (λ id, (id, scheduled !!! id, computed !!! id)) ids.

Lemma published_batch scheduled computed ids s :
  rabit2_get_active_batch (published ids (map (λ id, scheduled !!! id) ids) (map (λ id, computed !!! id) ids) s)
  = counted_batch scheduled computed ids.
Proof.
  assert (∀ qs cs, rabit2_get_active_batch (published ids qs cs s) = zip (zip ids qs) cs) as -> by (by destruct ids).
  clear. unfold counted_batch. induction ids as [|id ids IH]; [done|]. cbn. by rewrite IH.
Qed.

Lemma runner_step_state finished ids scheduled computed s :
  counted scheduled computed ids →
  runner_step finished ids scheduled computed s
  = (Ok tt, published ids (map (λ id, scheduled !!! id) ids) (map (λ id, computed !!! id) ids) (released finished s)).
Proof.
  intros HF. unfold runner_step. rewrite st_bind_eq, release_state. unfold runner_publish. rewrite st_bind_eq.
  unfold st_lift.
  assert (∀ t : gmap string Z, Forall (λ id, ∃ v, t !! id = Some v) ids →
            result_map (get_item t) ids = Ok (map (λ id, t !!! id) ids)) as Hmap.
  { intros t Ht. apply result_map_ok. intros id Hin. rewrite List.Forall_forall in Ht.
    destruct (Ht id Hin) as [v Hv]. unfold get_item. rewrite lookup_total_alt, Hv. done. }
  rewrite !Hmap by (eapply Forall_impl; [|exact HF]; intros id (q & c & ? & ? & _); by eexists).
  rewrite st_bind_eq, set_active_batch_state.
  assert (batch_valid ids (map (λ id, scheduled !!! id) ids) (map (λ id, computed !!! id) ids) = true) as ->; [|done].
  unfold batch_valid. rewrite !length_map, Nat.eqb_refl. cbn [andb]. clear Hmap s.
  induction HF as [|id ids (q & c & Eq & Ec & Hq & Hc) HF IH]; [done|]. cbn [map existsb].
  apply andb_true_iff in IH as [I1%negb_true_iff I2%negb_true_iff].
  rewrite !lookup_total_alt, Eq, Ec. cbn [default]. unfold Datatypes.id.
  rewrite I1, I2. destruct (Z.leb_spec q 0), (Z.ltb_spec c 0); try lia.
Qed.

(** ** Properties *)

(** Finishing requests releases exactly their sidecars.  In every layer the
    table loses the finished identifiers and nothing else, the published batch
    stays, and the returned count is the number of sidecars that were live
    before and are not after, whatever the identifiers repeat or name. *)
Theorem finish_requests_exact (finished : list string) (s : Bridge) :
  ∃ n s', rabit2_finish_requests finished s = (Ok n, s')
  ∧ (n + rabit2_total_live_sidecars s')%nat = rabit2_total_live_sidecars s
  ∧ rabit2_get_active_batch s' = rabit2_get_active_batch s
  ∧ (∀ impl key, sidecar_of_request s' impl key
       = if decide (key ∈ finished) then None else sidecar_of_request s impl key).
Proof.
  pose proof (released_sidecars finished s) as Hs. destruct finished as [|id finished]; [by exists 0%nat, s|].
  eexists _, _. split; [done|]. split; [|by split].
  unfold rabit2_total_live_sidecars. rewrite sum_tables_each. apply sum_tables_plus.
  intros t. apply pop_all_spec.
Qed.

(** C33: a batch is published whole or not at all.  Fields of different lengths, a
    query length that is not positive or a negative context length raise
    [ValueError] and change nothing; otherwise the batch is the zipped fields,
    its identifiers are the ones given, and a non-empty batch drops the warmup
    sidecars and only those. *)
Theorem set_active_batch_exact (ids : list string) (qs cs : list Z) (s : Bridge) :
  (batch_valid ids qs cs = false ∧ rabit2_set_active_batch ids qs cs s = (Err ValueError, s))
  ∨ (∃ s', batch_valid ids qs cs = true ∧ rabit2_set_active_batch ids qs cs s = (Ok tt, s')
      ∧ rabit2_get_active_batch s' = zip (zip ids qs) cs ∧ rabit2_get_active_request_ids s' = ids
      ∧ Forall (λ it : BatchItem, 0 < it.1.2 ∧ 0 ≤ it.2)%Z (rabit2_get_active_batch s')
      ∧ ∀ impl key, sidecar_of_request s' impl key
          = if negb (length ids =? 0)%nat && is_profile_key key then None else sidecar_of_request s impl key).
Proof.
  rewrite set_active_batch_state. destruct (batch_valid ids qs cs) eqn:E; [right|by left].
  exists (published ids qs cs s). split; [done|]. split; [done|].
  assert (rabit2_get_active_batch (published ids qs cs s) = zip (zip ids qs) cs) as Hb by (by destruct ids).
  unfold batch_valid in E. apply andb_true_iff in E as [[[Hl Hl']%andb_true_iff Hq]%andb_true_iff Hc].
  apply Nat.eqb_eq in Hl, Hl'. apply negb_true_iff in Hq, Hc.
  split; [done|]. split; [|split; [|intros; apply published_sidecars]].
  - unfold rabit2_get_active_request_ids. unfold rabit2_get_active_batch in Hb. rewrite Hb.
    clear Hb Hq Hc. revert qs cs Hl Hl'. induction ids as [|id ids IH]; intros [|q qs] [|c cs] Hl Hl'; try done.
    cbn in *. f_equal. apply IH; lia.
  - rewrite Hb. clear Hb Hl Hl' s. revert qs cs Hq Hc.
    induction ids as [|id ids IH]; intros [|q qs] [|c cs] Hq Hc; try (by constructor).
    cbn in Hq, Hc. apply orb_false_iff in Hq as [Hq Hqs]. apply orb_false_iff in Hc as [Hc Hcs].
    constructor; [cbn; lia|]. by apply IH.
Qed.

(** One engine step of the bridge.  When every request of the batch has a
    positive number of scheduled tokens and a non-negative number of computed
    ones, the step succeeds, publishes exactly them in batch order, leaves no
    sidecar of a finished request in any layer, drops the warmup sidecars, and
    keeps every other sidecar. *)
Theorem runner_step_exact (finished ids : list string) (scheduled computed : gmap string Z) (s : Bridge) :
  Forall (λ id, ∃ q c, scheduled !! id = Some q ∧ computed !! id = Some c ∧ (0 < q)%Z ∧ (0 ≤ c)%Z) ids →
  ∃ s', runner_step finished ids scheduled computed s = (Ok tt, s')
  ∧ rabit2_get_active_batch s' = map (λ id, (id, scheduled !!! id, computed !!! id)) ids
  ∧ (∀ impl key, sidecar_of_request s' impl key
       = if decide (key ∈ finished) then None
         else if negb (length ids =? 0)%nat && is_profile_key key then None else sidecar_of_request s impl key).
Proof.
  intros HF. eexists. split; [by apply runner_step_state|]. split; [apply published_batch|].
  intros impl key. rewrite published_sidecars, released_sidecars. by repeat case_match.
Qed.
End Lifecycle.

(** With a finished, a running and a warmup request in two layers. *)
Lemma runner_step_exact_witness :
  let t : gmap string nat := list_to_map [("a", 1%nat); ("b", 2%nat); ("__rabit_profile_0", 3%nat)] in
  let s := mkBridge [] (list_to_map [(0%nat, Some t); (1%nat, Some t)]) in
  ∃ s', runner_step ["a"; "a"] ["b"] (list_to_map [("b", 1%Z)]) (list_to_map [("b", 70%Z)]) s = (Ok tt, s')
  ∧ rabit2_get_active_batch s' = [("b", 1%Z, 70%Z)]
  ∧ sidecar_of_request s' 1 "a" = None ∧ sidecar_of_request s' 1 "b" = Some 2%nat
  ∧ sidecar_of_request s' 1 "__rabit_profile_0" = None.
Proof.
  intros t s.
  destruct (runner_step_exact ["a"; "a"] ["b"] (list_to_map [("b", 1%Z)]) (list_to_map [("b", 70%Z)]) s)
    as (s' & H1 & H2 & H3).
  - constructor; [|constructor]. exists 1%Z, 70%Z. by vm_compute.
  - exists s'. split; [exact H1|]. split; [exact H2|]. rewrite !H3. by vm_compute.
Defined.
