(* ===== verification/Forward.v ===== *)
(** * The attention layer's forward pass

    [TritonAttentionImpl._forward_rabit_kv2] of [triton_attn.py]: the guards, the
    published batch (or the synthetic warmup batch), and for every request the
    sidecar it owns, the initial prefill (bulk append and dense attention), the
    later chunk (causal chunk plan, one decode per token) and the decode step
    (buffered append, one decode).

    The layer's state is its table of runtime objects, the opaque cache, the
    decode workspaces of the process and the output tensor.  A Python object is
    found through the table entry that names it, so a mutation made before an
    exception stays.  A later chunk goes through
    the implementation the environment selects: the token loop, or a batched path
    ([rabit2_stage3c_forward_tile32], [rabit2_stage3c_forward_shared_decode]) that
    scans the closed pages once per tile of queries.  The timing windows of the
    profile scope and the two logging flags have no other effect.
    [context_attention_fwd], the dense attention of the vendored engine, is an
    argument. *)

From Stdlib Require Import ZArith Lia.
From stdpp Require Import gmap strings pretty base tactics numbers list option.
From S2P Require Import Prelude Layout Torch BitPack Meta Quant Tab Triton Decoded Page Sidecar Tail OnlineRef Runtime.
From S2P Require Import Bulk ChunkPlan FastAppend Attention PageAttention TailPrep DecodeAttention TileSchedule TileKernels.
From S2P Require Import Lifecycle.

(** ** Tensor arguments *)

(** Python's [l[a:b]]: a negative bound counts from the end, both are clamped. *)
Definition py_index (len : nat) (a : Z) : nat :=
  Z.to_nat (if (a <? 0)%Z then Z.max 0 (a + Z.of_nat len) else Z.min a (Z.of_nat len)).
Definition py_slice {A} (a b : Z) (l : list A) : list A :=
  slice (py_index (length l) a) (py_index (length l) b) l.

Section Forward.
Context `{TF : TorchFloat} {TR : TritonFloat} {TE : TorchEmpty} {TA : TritonReduce}.
Context {B : Type} {FT : FloatType B}.
Context {EN : Environ}.

(** Keys or values of a step.  [sx_row]: every token is contiguous; [sx_dense]:
    so are consecutive tokens. *)
Record StepTensor := mkStepTensor { sx_cuda : bool; sx_row : bool; sx_dense : bool; sx_data : tensor_data }.

Definition on_rows (f : ∀ A, list A → list A) (x : tensor_data) : tensor_data :=
  match x with
  | TBf16 t => TBf16 (mkTensor3 (t_heads t) (t_dim t) (f _ (t_rows t)))
  | TFloat t => TFloat (mkTensor3 (t_heads t) (t_dim t) (f _ (t_rows t)))
  end.
Definition data_tokens (x : tensor_data) : nat :=
  match x with TBf16 t => t_tokens t | TFloat t => t_tokens t end.

(** [x[a:b]] *)
Definition sx_slice (a b : Z) (x : StepTensor) : StepTensor :=
  mkStepTensor (sx_cuda x) (sx_row x) (sx_dense x) (on_rows (λ _, py_slice a b) (sx_data x)).

Definition sx_dev (x : StepTensor) : dev_tensor :=
  mkDev (sx_cuda x) (sx_row x && (sx_dense x || (data_tokens (sx_data x) <=? 1)%nat)) (sx_data x).

(** The attributes of the layer. *)
Record AttnImpl := mkImpl {
  ai_decoder : bool;                   (* attn_type == DECODER *)
  ai_alibi : bool;                     (* alibi_slopes is not None *)
  ai_sinks : bool;
  ai_soft_cap : bool;                  (* logits_soft_cap, as a condition *)
  ai_sliding_window : Z * Z;
  ai_chunk_lookback : Z;
  ai_num_kv_heads : nat;
  ai_head_size : nat;
  ai_scale : f32;
  ai_cuda : bool;                      (* the cache is on a CUDA device *)
  ai_device_stream : Z * Z
}.

(** The arguments of a call, with the fields of [attn_metadata] it reads. *)
Record StepInput := mkStep {
  si_q_cuda : bool;
  si_q_heads : nat;
  si_q_dim : nat;
  si_query : list (list B);            (* a row per token *)
  si_key : StepTensor;
  si_value : StepTensor;
  si_num_actual_tokens : Z;
  si_query_start_loc : list Z;
  si_seq_lens : list Z;
  si_block_table : list (list nat);
  si_mm_prefix : bool;                 (* mm_prefix_range_tensor is not None *)
  si_rswa : bool                       (* rswa_window is not None *)
}.

(** ** The layer's state *)

(** A runtime object: its fields, and the attributes of the buffered append. *)
Record RtObject := mkObj {
  ob_rt : Rabit2SingleSequenceRuntime;
  ob_ready : bool;
  ob_buf : option FastBuffers
}.

Record LayerState := mkLayer {
  ly_runtimes : gmap string RtObject;
  ly_cache : PageCache;
  ly_ws : Workspaces;
  ly_out : list (list B)
}.

Definition ly_set_runtimes (t : gmap string RtObject) (ly : LayerState) : LayerState :=
  mkLayer t (ly_cache ly) (ly_ws ly) (ly_out ly).
Definition ly_set_out (out : list (list B)) (ly : LayerState) : LayerState :=
  mkLayer (ly_runtimes ly) (ly_cache ly) (ly_ws ly) out.

(** The runtime object of a request with the cache it writes. *)
Definition ly_object (ly : LayerState) (o : RtObject) : FastState :=
  mkFast (mkRt (ob_rt o) (ly_cache ly)) (ob_ready o) (ob_buf o).
Definition ly_store (req_id : string) (s : FastState) (ly : LayerState) : LayerState :=
  mkLayer (<[req_id := mkObj (rs_runtime (fs_rt s)) (fs_ready s) (fs_buf s)]> (ly_runtimes ly))
    (rs_cache (fs_rt s)) (ly_ws ly) (ly_out ly).

(** A method of the runtime object the table holds for [req_id]. *)
Definition on_object {A} (req_id : string) (m : ST FastState A) : ST LayerState A := λ ly,
  match ly_runtimes ly !! req_id with
  | None => (Err AssertionError, ly)
  | Some o => let '(r, s) := m (ly_object ly o) in (r, ly_store req_id s ly)
  end.

Section Call.
Variable impl : AttnImpl.
(** [context_attention_fwd]: the output rows of a causal prompt. *)
Variable context_attention_fwd : list (list B) → dev_tensor → dev_tensor → f32 → list (list B).

(** ** One request *)

(** The runtime of the request: new, found, or refused. *)
Definition bind_runtime (req_id : string) (context_len : Z) : ST LayerState unit :=
  ly ← st_get;
  if (context_len =? 0)%Z then
    r ← st_lift (runtime_init (ai_num_kv_heads impl) (ai_head_size impl) (ai_head_size impl));
    st_put (ly_set_runtimes (<[req_id := mkObj r false None]> (ly_runtimes ly)) ly)
  else
    match ly_runtimes ly !! req_id with
    | None => st_lift (Err NotImplementedError)
    | Some o => st_raise_if (negb (Z.of_nat (runtime_total_tokens (ob_rt o)) =? context_len)%Z) RuntimeError
    end.

(** [output[a:b] = rows] *)
Definition write_rows (a b : Z) (rows out : list (list B)) : list (list B) :=
  let lo := py_index (length out) a in
  let hi := py_index (length out) b in
  map (λ i, if (lo <=? i)%nat && (i <? hi)%nat then nth (i - lo) rows [] else nth i out []) (seq 0 (length out)).

(** [rabit2_online_decode_attention_triton] on the request's runtime. *)
Definition decode_request (req_id : string) (block_table_row : list nat) (query : Query B) :
    ST LayerState (Query B) := λ ly,
  match ly_runtimes ly !! req_id with
  | None => (Err AssertionError, ly)
  | Some o =>
      let '(r, ws) := decode_in_force (ai_device_stream impl) (ai_cuda impl) (ly_cache ly) block_table_row
                        (ob_rt o) query (Some (ai_scale impl)) (ly_ws ly) in
      (r, mkLayer (ly_runtimes ly) (ly_cache ly) ws (ly_out ly))
  end.

(** A method of the chunk plan, which writes the runtime it was built from. *)
Definition on_plan (req_id : string) (m : ST (Rabit2CausalChunkPlan * RtState) unit) :
    ST (Rabit2CausalChunkPlan * LayerState) unit := λ '(p, ly),
  match ly_runtimes ly !! req_id with
  | None => (Err AssertionError, (p, ly))
  | Some o =>
      let '(r, (p', s)) := m (p, mkRt (ob_rt o) (ly_cache ly)) in
      (r, (p', ly_store req_id (mkFast s (ob_ready o) (ob_buf o)) ly))
  end.

(** An operation on the layer, beside the plan. *)
Definition keep_plan {P} (m : ST LayerState unit) : ST (P * LayerState) unit := λ '(p, ly),
  let '(r, ly') := m ly in (r, (p, ly')).

(** The append of one token, or the next step of the plan. *)
Definition advance (req_id : string) (block_table_row : list nat) (k_seq v_seq : StepTensor) (local_idx : nat) :
    ST (option Rabit2CausalChunkPlan * LayerState) unit := λ '(plan, ly),
  let i := Z.of_nat local_idx in
  match plan with
  | None =>
      keep_plan (on_object req_id
        (_rabit2_final_fast_decode_append (ai_cuda impl) block_table_row
           (sx_dev (sx_slice i (i + 1) k_seq)) (sx_dev (sx_slice i (i + 1) v_seq)))) (None, ly)
  | Some p => let '(r, (p', ly')) := on_plan req_id (apply_step i) (p, ly) in (r, (Some p', ly'))
  end.

(** The decode of one token into its output row. *)
Definition attend (req_id : string) (block_table_row : list nat) (query : Query B) (row : Z) : ST LayerState unit :=
  rabit_out ← decode_request req_id block_table_row query;
  st_modify (λ ly, ly_set_out (write_rows row (row + 1) [qy_data rabit_out] (ly_out ly)) ly).

(** [q_seq[i : i + 1]] *)
Definition one_query (x : StepInput) (q_seq : list (list B)) (local_idx : nat) : Query B :=
  let q := py_slice (Z.of_nat local_idx) (Z.of_nat local_idx + 1) q_seq in
  mkQuery (si_q_cuda x) [length q; si_q_heads x; si_q_dim x] (concat q).

(** One iteration of the token loop. *)
Definition forward_token (x : StepInput) (req_id : string) (block_table_row : list nat) (q_seq : list (list B))
    (k_seq v_seq : StepTensor) (q0 : Z) (local_idx : nat) : ST (option Rabit2CausalChunkPlan * LayerState) unit :=
  advance req_id block_table_row k_seq v_seq local_idx;;
  keep_plan (attend req_id block_table_row (one_query x q_seq local_idx) (q0 + Z.of_nat local_idx)%Z).

(** The chunk plan of a chunk of several tokens. *)
Definition make_plan (req_id : string) (block_table_row : list nat) (k_seq v_seq : StepTensor) (q_len : Z) :
    ST LayerState (option Rabit2CausalChunkPlan) :=
  if (1 <? q_len)%Z then
    p ← on_object req_id (on_rt (chunkplan_init block_table_row (as_f32 (sx_dev k_seq)) (as_f32 (sx_dev v_seq))));
    mret (Some p)
  else mret None.

Definition forward_tokens (x : StepInput) (req_id : string) (block_table_row : list nat) (q_seq : list (list B))
    (k_seq v_seq : StepTensor) (q0 q_len : Z) : ST LayerState unit := λ ly,
  match make_plan req_id block_table_row k_seq v_seq q_len ly with
  | (Err e, ly) => (Err e, ly)
  | (Ok plan, ly) =>
      let '(r, (_, ly)) := st_for (seq 0 (Z.to_nat q_len))
                             (forward_token x req_id block_table_row q_seq k_seq v_seq q0) (plan, ly) in
      (r, ly)
  end.

(** ** The batched paths of a later chunk *)

(** A call that works on the decode workspaces, beside the plan. *)
Definition on_workspaces {P A} (m : ST Workspaces A) : ST (P * LayerState) A := λ '(p, ly),
  let '(r, ws) := m (ly_ws ly) in (r, (p, mkLayer (ly_runtimes ly) (ly_cache ly) ws (ly_out ly))).

(** The runtime object [runtime] names. *)
Definition get_runtime (req_id : string) (ly : LayerState) : result Rabit2SingleSequenceRuntime :=
  match ly_runtimes ly !! req_id with Some o => Ok (ob_rt o) | None => Err AssertionError end.

(** The launchers of the two scans: the constants come from the runtime's layout. *)
Definition scan_consts (runtime : Rabit2SingleSequenceRuntime) (q_heads d : nat) : PageConsts :=
  page_consts (rt_layout runtime) q_heads d (_kvquant_k3_packed_dim d) (v_packed_dim (rt_head_size_v runtime)).

Definition tile32_closed_pages (runtime : Rabit2SingleSequenceRuntime) (n q_heads d : nat) (q_tile : list B)
    (kv_cache : PageCache) (block_table_row : list nat) (closed : nat) (softmax_scale : f32) : Partials → Partials :=
  let kv_heads := rt_num_kv_heads runtime in
  let segments := (closed + 1)%nat in
  let qgroups := (kv_heads * (q_heads / kv_heads / 4))%nat in
  _rabit2_tile32_closed_page_partial_kernel (scan_consts runtime q_heads d) closed qgroups n q_tile
    (concat (pc_pages kv_cache)) block_table_row softmax_scale (q_heads * d) (segments * q_heads).

(** With the decode counter, a test hook. *)
Definition rabit2_shared_decode_closed_pages (runtime : Rabit2SingleSequenceRuntime) (n q_heads d : nat) (q_tile : list B)
    (kv_cache : PageCache) (block_table_row : list nat) (closed : nat) (softmax_scale : f32) (query_block : nat)
    (decode_counter : option Z) (mem : Partials) : Partials * option Z :=
  let kv_heads := rt_num_kv_heads runtime in
  let segments := (closed + 1)%nat in
  let qgroups := (kv_heads * (q_heads / kv_heads / 4))%nat in
  let count := match decode_counter with Some _ => true | None => false end in
  let '(mem, counter) :=
    _rabit2_shared_decode_closed_page_partial_kernel (scan_consts runtime q_heads d) query_block count closed qgroups
      ((n + query_block - 1) / query_block) q_tile (concat (pc_pages kv_cache)) block_table_row softmax_scale n
      (q_heads * d) (segments * q_heads) (mem, default 0%Z decode_counter) in
  (mem, if count then Some counter else None).

Section Chunk.
(** The scan of a tile's closed pages. *)
Variable scan : Rabit2SingleSequenceRuntime → nat → list B → PageCache → nat → Partials → Partials.
Variables (x : StepInput) (req_id : string) (block_table_row : list nat).
Let q_heads := si_q_heads x.
Let d := si_q_dim x.

(** [for j in range(n)]: the plan's next step, the check of the schedule, the tail
    segment of query [j]. *)
Fixpoint tile_queries (q_tile : list (list B)) (i0 closed : nat) (js : list nat) (mem : Partials) :
    ST (Rabit2CausalChunkPlan * LayerState) Partials :=
  match js with
  | [] => mret mem
  | j :: js =>
      on_plan req_id (apply_step (Z.of_nat (i0 + j)));;
      s ← st_get;
      runtime ← st_lift (get_runtime req_id s.2);
      st_raise_if (negb (rt_closed_pages runtime =? closed)%nat) RuntimeError;;
      let S := ((closed + 1) * q_heads)%nat in
      view ← on_workspaces (_rabit2_stage4d3_4_emit_tail_partial (ai_device_stream impl) (nth j q_tile []) q_heads d
                              runtime closed (ai_scale impl) (tile_view j S d mem));
      tile_queries q_tile i0 closed js (set_view j S d view mem)
  end.

(** One tile: fresh partials, the scan, the queries in order, the reduction, the
    output rows. *)
Definition forward_tile (q_seq : list (list B)) (q0 : Z) (tile : nat * nat * nat) :
    ST (Rabit2CausalChunkPlan * LayerState) unit :=
  let '(i0, i1, closed) := tile in
  let n := (i1 - i0)%nat in
  let segments := (closed + 1)%nat in
  let q_tile := slice i0 i1 q_seq in
  let mem := mkPartials (empty_float (n * segments * q_heads)) (empty_float (n * segments * q_heads))
               (empty_float (n * segments * q_heads * d)) in
  s ← st_get;
  runtime ← st_lift (get_runtime req_id s.2);
  let mem := if (closed =? 0)%nat then mem else scan runtime n (concat q_tile) (ly_cache s.2) closed mem in
  mem ← tile_queries q_tile i0 closed (seq 0 n) mem;
  let out_tile := _rabit2_tile32_reduce_partials_kernel mem n segments (segments * q_heads) (q_heads * d) q_heads d
                    (next_power_of_2 segments) (next_power_of_2 d) (ft_empty (n * (q_heads * d))) in
  keep_plan (st_modify (λ ly, ly_set_out
    (write_rows (q0 + Z.of_nat i0) (q0 + Z.of_nat i1) (view2 n (q_heads * d) out_tile) (ly_out ly)) ly)).

(** The tiles of a plan's schedule, in order. *)
Definition run_tiles (q_seq : list (list B)) (q0 : Z) (plan : Rabit2CausalChunkPlan) : ST LayerState unit := λ ly,
  let closed_after := map (rabit2_chunk_closed_pages_after plan) (seq 0 (length q_seq)) in
  let '(r, (_, ly)) := st_for (rabit2_tile32_tiles closed_after) (forward_tile q_seq q0) (plan, ly) in (r, ly).

Definition forward_tiles (q_seq : list (list B)) (k_seq v_seq : StepTensor) (q0 : Z) : ST LayerState unit :=
  plan ← on_object req_id (on_rt (chunkplan_init block_table_row (as_f32 (sx_dev k_seq)) (as_f32 (sx_dev v_seq))));
  run_tiles q_seq q0 plan.
End Chunk.

(** The condition under which a batched path applies. *)
Definition batched_applies (x : StepInput) (runtime : Rabit2SingleSequenceRuntime) (q_seq : list (list B)) : bool :=
  negb ((length q_seq <=? 1)%nat || negb (si_q_cuda x)
        || negb (rabit2_tile32_supported (si_q_heads x) (rt_num_kv_heads runtime))).

Definition rabit2_stage3c_forward_tile32 (x : StepInput) (req_id : string) (block_table_row : list nat)
    (q_seq : list (list B)) (k_seq v_seq : StepTensor) (q0 : Z) : ST LayerState bool :=
  ly ← st_get;
  runtime ← st_lift (get_runtime req_id ly);
  if negb (batched_applies x runtime q_seq) then mret false
  else
    forward_tiles (λ runtime n q_tile kv_cache closed,
        tile32_closed_pages runtime n (si_q_heads x) (si_q_dim x) q_tile kv_cache block_table_row closed (ai_scale impl))
      x req_id block_table_row q_seq k_seq v_seq q0;;
    mret true.

Definition rabit2_stage3c_forward_shared_decode (x : StepInput) (req_id : string) (block_table_row : list nat)
    (q_seq : list (list B)) (k_seq v_seq : StepTensor) (q0 : Z) : ST LayerState bool :=
  ly ← st_get;
  runtime ← st_lift (get_runtime req_id ly);
  if negb (batched_applies x runtime q_seq) then mret false
  else
    qb ← st_lift rabit2_shared_decode_query_block;
    forward_tiles (λ runtime n q_tile kv_cache closed mem,
        (rabit2_shared_decode_closed_pages runtime n (si_q_heads x) (si_q_dim x) q_tile kv_cache block_table_row closed
           (ai_scale impl) (Z.to_nat qb) None mem).1)
      x req_id block_table_row q_seq k_seq v_seq q0;;
    mret true.

(** [q_len > 1 and rabit2_stage3c_impl() == name and run(...)] *)
Definition opt_in (q_len : Z) (name : string) (run : ST LayerState bool) : ST LayerState bool :=
  if (1 <? q_len)%Z then
    stage3c_impl ← st_lift rabit2_stage3c_impl;
    if decide (stage3c_impl = name) then run else mret false
  else mret false.

(** A chunk after the prompt, or a decode step, inside the profile scope. *)
Definition forward_chunk (x : StepInput) (req_id : string) (block_table_row : list nat) (q_seq : list (list B))
    (k_seq v_seq : StepTensor) (q0 q_len : Z) : ST LayerState unit :=
  st_lift (rabit2_stage3c_profile_scope q_len);;
  handled ← opt_in q_len "tile32" (rabit2_stage3c_forward_tile32 x req_id block_table_row q_seq k_seq v_seq q0);
  if handled : bool then mret tt else
  handled ← opt_in q_len "shared_decode"
              (rabit2_stage3c_forward_shared_decode x req_id block_table_row q_seq k_seq v_seq q0);
  if handled : bool then mret tt else forward_tokens x req_id block_table_row q_seq k_seq v_seq q0 q_len.

(** The initial prompt: one bulk append, dense attention over its own tokens. *)
Definition forward_prompt (req_id : string) (block_table_row : list nat) (q_seq : list (list B))
    (k_seq v_seq : StepTensor) (q0 q1 : Z) : ST LayerState unit :=
  on_object req_id (on_rt (rabit2_bulk_append_exact block_table_row (as_f32 (sx_dev k_seq)) (as_f32 (sx_dev v_seq))));;
  st_modify (λ ly, ly_set_out
    (write_rows q0 q1 (context_attention_fwd q_seq (sx_dev k_seq) (sx_dev v_seq) (ai_scale impl)) (ly_out ly)) ly).

Definition forward_request (x : StepInput) (seq_idx : nat) (q0 : Z) (item : BatchItem) : ST LayerState unit :=
  let '(req_id, q_len, context_len) := item in
  let q1 := (q0 + q_len)%Z in
  if (q_len <=? 0)%Z then mret tt
  else
    st_raise_if (context_len <? 0)%Z RuntimeError;;
    block_table_row ← st_lift (match si_block_table x !! seq_idx with Some row => Ok row | None => Err IndexError end);
    bind_runtime req_id context_len;;
    let q_seq := py_slice q0 q1 (si_query x) in
    let k_seq := sx_slice q0 q1 (si_key x) in
    let v_seq := sx_slice q0 q1 (si_value x) in
    if (context_len =? 0)%Z && (1 <? q_len)%Z then forward_prompt req_id block_table_row q_seq k_seq v_seq q0 q1
    else forward_chunk x req_id block_table_row q_seq k_seq v_seq q0 q_len.

(** ** The whole batch *)

Fixpoint forward_batch (x : StepInput) (seq_idx : nat) (q_cursor : Z) (batch : list BatchItem) : ST LayerState unit :=
  match batch with
  | [] => mret tt
  | item :: batch =>
      forward_request x seq_idx q_cursor item;;
      forward_batch x (S seq_idx) (q_cursor + item.1.2)%Z batch
  end.

(** The warmup batch, when the scheduler has published none. *)
Definition synthetic_batch (x : StepInput) : result (list BatchItem) :=
  let q_starts := si_query_start_loc x in
  result_map (λ i,
      let q_len := (nth (i + 1) q_starts 0 - nth i q_starts 0)%Z in
      seq_len ← (match si_seq_lens x !! i with Some l => Ok l | None => Err IndexError end);
      Ok ("__rabit_profile_" +:+ pretty (N.of_nat i), q_len, (seq_len - q_len)%Z))
    (seq 0 (length q_starts - 1)).

Definition query_total (batch : list BatchItem) : Z := fold_right Z.add 0%Z (map (λ it, it.1.2) batch).

Definition checked_batch (active_batch : list BatchItem) (x : StepInput) : result (list BatchItem) :=
  match active_batch with
  | [] => synthetic_batch x
  | _ =>
      _ ← raise_if (negb (length (si_query_start_loc x) =? length active_batch + 1)%nat) RuntimeError;
      _ ← raise_if (negb (query_total active_batch =? si_num_actual_tokens x)%Z) RuntimeError;
      Ok active_batch
  end.

Definition forward_guards (x : StepInput) : result unit :=
  _ ← raise_if (negb (ai_decoder impl)) NotImplementedError;
  _ ← raise_if (ai_alibi impl || ai_sinks impl || ai_soft_cap impl) NotImplementedError;
  _ ← raise_if (negb ((ai_sliding_window impl).1 =? -1)%Z || negb ((ai_sliding_window impl).2 =? -1)%Z
                || (0 <=? ai_chunk_lookback impl)%Z) NotImplementedError;
  raise_if (si_mm_prefix x || si_rswa x) NotImplementedError.

Definition _forward_rabit_kv2 (active_batch : list BatchItem) (x : StepInput) : ST LayerState unit :=
  st_lift (forward_guards x);;
  if (si_num_actual_tokens x <=? 0)%Z then mret tt
  else
    batch ← st_lift (checked_batch active_batch x);
    forward_batch x 0 0%Z batch.
End Call.
End Forward.
