(* ===== verification/ForwardFrame.v ===== *)
(** * What a forward pass may touch

    Isolation of the requests of a batch: whatever the outcome, a normal return or
    an exception anywhere in the loop, a forward pass changes only the runtime
    objects the batch names, the cache blocks of the batch's block tables and the
    output rows of the scheduled tokens. *)

From Stdlib Require Import ZArith Lia.
From stdpp Require Import gmap strings pretty base tactics numbers list option.
From S2P Require Import Prelude Layout Torch BitPack Meta Quant Tab Triton Decoded Page Sidecar Tail OnlineRef Runtime.
From S2P Require Import FixedTorch Bulk ChunkPlan FastAppend Attention TailPrep DecodeAttention DecodeState TileSchedule Lifecycle Forward.

(** The same cache outside the blocks [bt]. *)
Definition cache_frame (bt : list nat) (c c' : PageCache) : Prop :=
  pc_width c' = pc_width c ∧ length (pc_pages c') = length (pc_pages c)
  ∧ ∀ b, b ∉ bt → pc_pages c' !! b = pc_pages c !! b.

#[export] Instance cache_frame_preorder bt : PreOrder (cache_frame bt).
Proof.
  split; [done|]. intros x y z (W1 & L1 & F1) (W2 & L2 & F2).
  split; [congruence|]. split; [congruence|]. intros b Hb. by rewrite F2, F1.
Qed.

Lemma cache_frame_mono bt bt' c c' : bt ⊆ bt' → cache_frame bt c c' → cache_frame bt' c c'.
Proof. intros Hs (W & L & F). split; [done|]. split; [done|]. intros b Hb. apply F. set_solver. Qed.

Lemma index_copy_many_frame bt ids pb pages c c' :
  ids ⊆ bt → index_copy_many ids pb pages c = Ok c' → cache_frame bt c c'.
Proof.
  intros Hs H. unfold index_copy_many in H. destruct (negb _); [done|]. cbn in H. destruct (existsb _ _); [done|].
  cbn in H. injection H as <-. split; [done|]. split; [apply write_pages_length|].
  intros b Hb. apply write_pages_frame. intros Hin. by apply Hb, Hs, (subseteq_take (length pages) ids).
Qed.

Lemma slice_subseteq {A} a b (l : list A) : slice a b l ⊆ l.
Proof. unfold slice. etrans; [apply subseteq_take|apply subseteq_drop]. Qed.

Section Frame.
Context `{TF : TorchFloat} {TR : TritonFloat} {TE : TorchEmpty} {TA : TritonReduce}.

(** ** The appends *)

Definition rt_frame (bt : list nat) (s s' : RtState) : Prop := cache_frame bt (rs_cache s) (rs_cache s').
Definition fast_frame (bt : list nat) (s s' : FastState) : Prop := rt_frame bt (fs_rt s) (fs_rt s').

#[local] Instance rt_frame_preorder bt : PreOrder (rt_frame bt).
Proof. unfold rt_frame. split; [intros s; reflexivity|intros x y z H1 H2; by transitivity (rs_cache y)]. Qed.
#[local] Instance fast_frame_preorder bt : PreOrder (fast_frame bt).
Proof. unfold fast_frame. split; [intros s; reflexivity|intros x y z H1 H2; by transitivity (fs_rt y)]. Qed.

(** The append loop changes what the owner's updates and flush change. *)
Lemma append_at {S} (O : SidecarOwner S) (R : S → S → Prop) `{!PreOrder R} (key value : tensor3 f32) s :
  (∀ sc s, R s (owner_update sc s)) → (∀ s, st_at R s owner_flush) → st_at R s (append key value).
Proof.
  intros Hu Hf. unfold append. apply (at_raise_bind R), (at_get R).
  destruct (owner_geometry s) as [[n k] v]. apply (at_raise_bind R), (at_raise_bind R), (at_for R).
  intros i s1. unfold append_one. apply (at_bind R); [apply at_modify, Hu|]. intros _ s2 _. apply (at_get R).
  destruct (recent_k (owner_sidecar s2)) as [rk|]; [|apply (at_lift R)].
  destruct (recent_v (owner_sidecar s2)) as [rv|]; [|apply (at_lift R)].
  destruct (RESIDUAL <? t_tokens rk)%nat; [|apply (at_ret R)].
  apply (at_bind R); [apply at_modify, Hu|]. intros _ s3 _. unfold append_aged.
  apply (at_lift_bind R). intros [[[packed q_min] scale] ?] _.
  apply (at_bind R); [apply at_modify, Hu|]. intros _ s4 _. apply (at_get R).
  destruct (_ =? GROUP)%nat; [apply Hf|apply (at_ret R)].
Qed.

Lemma flush_at bt s : st_at (rt_frame bt) s (_flush_open_page bt).
Proof.
  unfold _flush_open_page. apply (at_get _), (at_lift_bind _). intros page _. unfold st_raise_if.
  apply (at_lift_bind _). intros u Hlen. apply (at_raise_bind _), (at_lift_bind _).
  intros c Hc. apply at_put. unfold rt_frame. cbn [rs_cache]. unfold index_copy in Hc.
  destruct (_ <=? _)%nat eqn:E in Hc; [done|]. injection Hc as <-.
  split; [done|]. cbn [pc_pages]. rewrite length_insert. split; [done|]. intros b Hb.
  apply list_lookup_insert_ne. intros <-. apply Hb, list_elem_of_In, nth_In.
  revert Hlen. by destruct (Nat.leb_spec (length bt) (rt_closed_pages (rs_runtime s))).
Qed.

Lemma runtime_append_at bt key value s : st_at (rt_frame bt) s (runtime_append bt key value).
Proof. apply (append_at (runtime_owner bt) (rt_frame bt)); [intros sc s'; unfold rt_frame; reflexivity|apply flush_at]. Qed.

(** A page writer writes through the block table only. *)
Definition writer_frame (w : Rabit2SingleSequenceRuntime → tensor3 Z → tensor3 Z → tensor3 f32 → tensor3 f32 → nat →
    list nat → nat → PageCache → result (nat * PageCache)) : Prop :=
  ∀ r k vp mn sc full bt start c n c', w r k vp mn sc full bt start c = Ok (n, c') → cache_frame bt c c'.

Lemma stage4d2_writer_frame : writer_frame _rabit2_stage4d2_write_full_pages.
Proof.
  intros r k vp mn sc full bt start c n c' H. unfold _rabit2_stage4d2_write_full_pages in H.
  destruct (full =? 0)%nat; [simplify_eq; reflexivity|]. result_cases.
  simplify_eq. eapply index_copy_many_frame; [|done]. apply slice_subseteq.
Qed.

Lemma stage4b4_writer_frame : writer_frame stage4b4_write_full_pages.
Proof.
  intros r k vp mn sc full bt start c n c' H. unfold stage4b4_write_full_pages in H.
  destruct (full =? 0)%nat; [simplify_eq; reflexivity|]. result_cases.
  simplify_eq. eapply index_copy_many_frame; [|done]. apply slice_subseteq.
Qed.

Lemma bulk_append_at w bt key value s : writer_frame w → st_at (rt_frame bt) s (bulk_append w bt key value).
Proof.
  intros Hw. unfold bulk_append. apply (at_get _), (at_lift_bind _). intros _ _.
  destruct (_ =? 0)%nat; [apply (at_ret _)|]. apply (at_lift_bind _). intros rv _.
  destruct (_ =? 0)%nat; [by apply at_modify; unfold rt_frame|]. apply (at_lift_bind _). intros [[[vp vmn] vsc] zero_point] _.
  do 3 (apply (at_lift_bind _); intros ? _). apply (at_lift_bind _). intros [closed c] Hn. apply at_put. by eapply Hw.
Qed.

Lemma plan_init_at w bt key value s : writer_frame w → st_at (rt_frame bt) s (plan_init w bt key value).
Proof.
  intros Hw. unfold plan_init. apply (at_get _), (at_lift_bind _). intros _ _.
  apply (at_raise_bind _), (at_lift_bind _). intros [[vp vmn] vsc] _.
  do 3 (apply (at_lift_bind _); intros ? _). apply (at_lift_bind _). intros [closed c] Hn.
  apply (at_bind _); [apply at_put; by eapply Hw|]. intros. apply (at_ret _).
Qed.

Lemma apply_step_cache step p s :
  rs_cache (apply_step step (p, s)).2.2 = rs_cache s.
Proof.
  unfold apply_step. rewrite st_bind_eq. cbn [st_get]. rewrite st_bind_eq. unfold st_raise_if, st_lift.
  destruct (negb _); [done|]. cbn [raise_if]. rewrite st_bind_eq. by destruct (_ || _).
Qed.

Lemma on_rt_at {A} bt (m : ST RtState A) s : st_at (rt_frame bt) (fs_rt s) m → st_at (fast_frame bt) s (on_rt m).
Proof. unfold st_at, on_rt, fast_frame. by destruct (m (fs_rt s)) as [r rt]. Qed.

Lemma fast_append_at cuda bt key value s :
  st_at (fast_frame bt) s (_rabit2_final_fast_decode_append cuda bt key value).
Proof.
  assert (∀ s, st_at (fast_frame bt) s (on_rt (runtime_append bt (as_f32 key) (as_f32 value)))) as Hold
    by (intros; apply on_rt_at, runtime_append_at).
  assert (∀ b s, st_at (fast_frame bt) s (_ ← (if b : bool then _rabit2_final_drop_fast_buffers else mret tt);
            on_rt (runtime_append bt (as_f32 key) (as_f32 value)))) as Hdrop.
  { intros b s0. apply (at_bind _); [|intros; apply Hold].
    destruct b; [by apply at_modify; unfold fast_frame; cbn; reflexivity|apply (at_ret _)]. }
  unfold _rabit2_final_fast_decode_append. apply (at_get _).
  destruct (fast_shape _ _ _) as [[k v]|]; [|apply Hdrop].
  destruct (recent_k _) as [rk|]; [|apply Hdrop]. destruct (_ <? 4)%nat; [apply Hdrop|].
  apply (at_bind _).
  - unfold _rabit2_final_prepare_fast_buffers. apply (at_get _). destruct (fs_ready s); [apply (at_ret _)|]. cbv zeta.
    destruct (recent_k _) as [?|]; [|apply (at_ret _)]. destruct (recent_v _) as [?|]; [|apply (at_ret _)].
    destruct (_ || _); [apply (at_ret _)|].
    assert (∀ sc buf, st_at (fast_frame bt) s (_ ← st_put (mkFast (set_rt_sidecar sc (fs_rt s)) true (Some buf)); mret true)) as Hin.
    { intros. apply (at_bind _); [apply at_put; unfold fast_frame, rt_frame; cbn; reflexivity|]. intros. apply (at_ret _). }
    destruct (tensor_len _); [apply Hin|].
    do 4 (case_match; [|apply (at_ret _)]). apply (at_raise_bind _), Hin.
  - intros [] s' _; [|apply Hold]. unfold fast_token. apply (at_get _), (at_lift_bind _). intros b _.
    apply (at_raise_bind _).
    assert (∀ (f : FastState → FastState) s, (∀ s, fs_rt (f s) = fs_rt s ∨ rs_cache (fs_rt (f s)) = rs_cache (fs_rt s)) →
              st_at (fast_frame bt) s (st_modify f)) as Hmod.
    { intros f s0 Hf. apply at_modify. unfold fast_frame, rt_frame. destruct (Hf s0) as [-> | ->]; reflexivity. }
    apply (at_bind _); [apply Hmod; by left|]. intros _ s1 _.
    apply (at_bind _); [apply Hmod; by right|]. intros _ s2 _.
    destruct (_ =? 32)%nat; [|apply Hmod; by left].
    apply (at_bind _); [apply on_rt_at, flush_at|]. intros _ s3 _. apply Hmod; by left.
Qed.

(** ** The layer *)

Context {B : Type} {FT : FloatType B}.
Context {EN : Environ}.

(** Only the objects [ids], the blocks [blocks] and the output rows [lo .. hi-1]
    may differ. *)
Definition layer_frame (ids : list string) (blocks : list nat) (lo hi : Z) (ly ly' : LayerState (B := B)) : Prop :=
  (∀ id, id ∉ ids → ly_runtimes ly' !! id = ly_runtimes ly !! id)
  ∧ cache_frame blocks (ly_cache ly) (ly_cache ly')
  ∧ length (ly_out ly') = length (ly_out ly)
  ∧ (∀ i, (Z.of_nat i < lo ∨ hi ≤ Z.of_nat i)%Z → ly_out ly' !! i = ly_out ly !! i).

#[local] Instance layer_frame_preorder ids blocks lo hi : PreOrder (layer_frame ids blocks lo hi).
Proof.
  split.
  - intros ly. split; [done|]. split; [reflexivity|]. done.
  - intros x y z (R1 & C1 & L1 & O1) (R2 & C2 & L2 & O2). split; [|split; [|split]].
    + intros id Hid. by rewrite R2, R1.
    + by transitivity (ly_cache y).
    + congruence.
    + intros i Hi. by rewrite O2, O1.
Qed.

Lemma layer_frame_mono ids ids' blocks blocks' lo hi lo' hi' ly ly' :
  ids ⊆ ids' → blocks ⊆ blocks' → (lo' ≤ lo)%Z → (hi ≤ hi')%Z →
  layer_frame ids blocks lo hi ly ly' → layer_frame ids' blocks' lo' hi' ly ly'.
Proof.
  intros Hi Hb Hl Hh (R & C & L & O). split; [|split; [|split; [done|]]].
  - intros id Hid. apply R. set_solver.
  - by eapply cache_frame_mono.
  - intros i Hr. apply O. lia.
Qed.

Lemma write_rows_length a b rows (out : list (list B)) : length (write_rows a b rows out) = length out.
Proof. unfold write_rows. by rewrite length_map, length_seq. Qed.

Lemma write_rows_lookup a b rows (out : list (list B)) i :
  (0 ≤ a)%Z → (0 ≤ b)%Z → (i < length out)%nat →
  write_rows a b rows out !! i
  = Some (if (a <=? Z.of_nat i)%Z && (Z.of_nat i <? b)%Z then nth (i - Z.to_nat a) rows [] else nth i out []).
Proof.
  intros Ha Hb Hi. unfold write_rows.
  change (map ?f ?l) with (f <$> l). rewrite list_lookup_fmap, lookup_seq_lt by done.
  unfold fmap, option_fmap, option_map. rewrite Nat.add_0_l. f_equal.
  unfold py_index. destruct (Z.ltb_spec a 0); [lia|]. destruct (Z.ltb_spec b 0); [lia|].
  destruct (Z.leb_spec a (Z.of_nat i)), (Z.ltb_spec (Z.of_nat i) b),
    (Nat.leb_spec (Z.to_nat (Z.min a (Z.of_nat (length out)))) i),
    (Nat.ltb_spec i (Z.to_nat (Z.min b (Z.of_nat (length out))))); try lia; try done.
  cbn [andb]. f_equal. lia.
Qed.

Section Layer.
Variables (ids : list string) (blocks : list nat) (lo hi : Z).
Hypothesis Hlo : (0 ≤ lo)%Z.
Let R := layer_frame ids blocks lo hi.

Lemma write_rows_at a b rows ly :
  (lo ≤ a)%Z → (b ≤ hi)%Z → (0 ≤ b)%Z → R ly (ly_set_out (write_rows a b rows (ly_out ly)) ly).
Proof.
  intros Ha Hb Hb0. split; [done|]. split; [reflexivity|]. cbn [ly_out ly_set_out].
  split; [apply write_rows_length|]. intros i Hi.
  destruct (decide (i < length (ly_out ly))%nat) as [Hl|Hl].
  - rewrite write_rows_lookup by (done || lia).
    destruct (Z.leb_spec a (Z.of_nat i)), (Z.ltb_spec (Z.of_nat i) b); try lia; cbn [andb];
      destruct (lookup_lt_is_Some_2 _ _ Hl) as [r Hr]; rewrite Hr; f_equal; by apply nth_lookup_Some.
  - rewrite !lookup_ge_None_2; [done|lia|]. rewrite write_rows_length. lia.
Qed.

Lemma store_at id s ly :
  id ∈ ids → cache_frame blocks (ly_cache ly) (rs_cache (fs_rt s)) → R ly (ly_store id s ly).
Proof.
  intros Hid Hc. split; [|split; [done|split; [done|done]]]. intros id' Hne. cbn [ly_store ly_runtimes].
  rewrite lookup_insert_ne; [done|]. by intros ->.
Qed.

Lemma on_object_at {A} id (m : ST FastState A) ly :
  id ∈ ids → (∀ s, st_at (fast_frame blocks) s m) → st_at R ly (on_object id m).
Proof.
  intros Hid Hm. unfold st_at, on_object. destruct (ly_runtimes ly !! id) as [o|]; [|apply PreOrder_Reflexive].
  specialize (Hm (ly_object ly o)). unfold st_at in Hm. destruct (m (ly_object ly o)) as [r s].
  by apply store_at.
Qed.

Lemma keep_plan_at {P} (m : ST LayerState unit) ly (p : P) :
  st_at R ly m → R ly (keep_plan m (p, ly)).2.2.
Proof. unfold st_at, keep_plan. by destruct (m ly). Qed.

Section Call.
Variable impl : AttnImpl.
Variable context_attention_fwd : list (list B) → dev_tensor → dev_tensor → f32 → list (list B).

Lemma bind_runtime_at id ctx ly : id ∈ ids → st_at R ly (bind_runtime impl id ctx).
Proof.
  intros Hid. unfold bind_runtime. apply (at_get _). destruct (ctx =? 0)%Z.
  - apply (at_lift_bind _). intros r _. apply at_put. split; [|by repeat split].
    intros id' Hne. cbn. rewrite lookup_insert_ne; [done|]. by intros ->.
  - destruct (ly_runtimes ly !! id); apply (at_lift _).
Qed.

Lemma attend_at id bt q row ly :
  (lo ≤ row)%Z → (row + 1 ≤ hi)%Z → st_at R ly (attend impl id bt q row).
Proof.
  intros Ha Hb. unfold attend. apply (at_bind _).
  - unfold st_at, decode_request. destruct (ly_runtimes ly !! id); [|apply PreOrder_Reflexive].
    destruct (decode_in_force _ _ _ _ _ _ _ _) as [res ws]. by repeat split.
  - intros out s' _. apply at_modify, write_rows_at; lia.
Qed.

Lemma advance_at id bt k v i plan ly :
  id ∈ ids → bt ⊆ blocks → R ly (advance impl id bt k v i (plan, ly)).2.2.
Proof.
  intros Hid Hbt. unfold advance. destruct plan as [p|].
  - unfold on_plan. destruct (ly_runtimes ly !! id) as [o|]; [|apply PreOrder_Reflexive].
    pose proof (apply_step_cache (Z.of_nat i) p (mkRt (ob_rt o) (ly_cache ly))) as Hc.
    destruct (apply_step _ _) as [res [p' s]]. cbn [fst snd] in *. apply store_at; [done|].
    cbn [fs_rt]. rewrite Hc. reflexivity.
  - apply keep_plan_at, on_object_at; [done|]. intros s. pose proof (fast_append_at (ai_cuda impl) bt
      (sx_dev (sx_slice (Z.of_nat i) (Z.of_nat i + 1) k)) (sx_dev (sx_slice (Z.of_nat i) (Z.of_nat i + 1) v)) s) as H.
    by eapply cache_frame_mono.
Qed.

Lemma forward_tokens_at x id bt q k v q0 q_len ly :
  id ∈ ids → bt ⊆ blocks → (lo ≤ q0)%Z → (q0 + q_len ≤ hi)%Z →
  st_at R ly (forward_tokens impl x id bt q k v q0 q_len).
Proof.
  intros Hid Hbt Ha Hb. unfold st_at, forward_tokens.
  assert (st_at R ly (make_plan id bt k v q_len)) as Hp.
  { unfold make_plan. destruct (1 <? q_len)%Z; [|apply (at_ret _)]. apply (at_bind _); [|intros; apply (at_ret _)].
    apply on_object_at; [done|]. intros s. pose proof (on_rt_at bt _ s (plan_init_at _ bt (as_f32 (sx_dev k))
      (as_f32 (sx_dev v)) (fs_rt s) stage4b4_writer_frame)) as H. by eapply cache_frame_mono. }
  unfold st_at in Hp. destruct (make_plan id bt k v q_len ly) as [[plan|e] ly1]; [|done]. cbn [snd] in Hp.
  assert (∀ l plan ly2, (∀ i, In i l → (Z.of_nat i < q_len)%Z) →
            R ly2 (st_for l (forward_token impl x id bt q k v q0) (plan, ly2)).2.2) as Hfor.
  { clear - Hid Hbt Ha Hb Hlo. induction l as [|i l IH]; intros plan ly2 Hl; [apply PreOrder_Reflexive|].
    cbn [st_for]. rewrite st_bind_eq. unfold forward_token at 1. rewrite st_bind_eq.
    pose proof (advance_at id bt k v i plan ly2 Hid Hbt) as H1.
    destruct (advance impl id bt k v i (plan, ly2)) as [[[]|e] [plan1 ly3]]; cbn [fst snd] in *; [|done].
    pose proof (keep_plan_at (attend impl id bt (one_query x q i) (q0 + Z.of_nat i)) ly3 plan1) as H2.
    specialize (Hl i (or_introl eq_refl)) as Hi. specialize (H2 ltac:(apply attend_at; lia)).
    destruct (keep_plan _ _) as [[[]|e] [plan2 ly4]]; cbn [fst snd] in *; [|by etrans].
    etrans; [by etrans|]. apply IH. intros j Hj. apply Hl. by right. }
  specialize (Hfor (seq 0 (Z.to_nat q_len)) plan ly1). destruct (st_for _ _ _) as [res [p' ly2]]. cbn [fst snd] in *.
  etrans; [done|]. apply Hfor. intros i [_ Hi]%in_seq. lia.
Qed.

(** The same for a computation beside the plan. *)
Definition plan_frame (s s' : Rabit2CausalChunkPlan * LayerState (B := B)) : Prop := R s.2 s'.2.

#[local] Instance plan_frame_preorder : PreOrder plan_frame.
Proof. split; [intros s; unfold plan_frame; reflexivity|intros a b c H1 H2; unfold plan_frame in *; by transitivity b.2]. Qed.

Lemma on_plan_at id i s : id ∈ ids → st_at plan_frame s (on_plan id (apply_step i)).
Proof.
  intros Hid. destruct s as [p ly]. unfold st_at, plan_frame, on_plan. destruct (ly_runtimes ly !! id) as [o|]; [|cbn; reflexivity].
  pose proof (apply_step_cache i p (mkRt (ob_rt o) (ly_cache ly))) as Hc.
  destruct (apply_step _ _) as [res [p' s]]. cbn [fst snd] in *. apply store_at; [done|]. cbn [fs_rt]. rewrite Hc. reflexivity.
Qed.

Lemma on_workspaces_at {A} (m : ST Workspaces A) s : st_at plan_frame s (on_workspaces m).
Proof.
  destruct s as [p ly]. unfold st_at, plan_frame, on_workspaces. destruct (m (ly_ws ly)) as [r ws]. by repeat split.
Qed.

Lemma tile_queries_at x id q i0 closed js mem s :
  id ∈ ids → st_at plan_frame s (tile_queries impl x id q i0 closed js mem).
Proof.
  intros Hid. revert mem s. induction js as [|j js IH]; intros mem s; [apply (at_ret _)|]. cbn [tile_queries].
  apply (at_bind _); [by apply on_plan_at|]. intros _ s1 _. apply (at_get _), (at_lift_bind _). intros r _.
  apply (at_raise_bind _), (at_bind _); [apply on_workspaces_at|]. intros view s2 _. apply IH.
Qed.

Lemma forward_tile_at scan x id q q0 tile s :
  id ∈ ids → (lo ≤ q0)%Z → (q0 + Z.of_nat tile.1.2 ≤ hi)%Z → st_at plan_frame s (forward_tile impl scan x id q q0 tile).
Proof.
  intros Hid Ha Hb. destruct tile as [[i0 i1] closed]. cbn [fst snd] in Hb. unfold forward_tile.
  apply (at_get _), (at_lift_bind _). intros r _. apply (at_bind _); [by apply tile_queries_at|].
  intros mem [p ly] _. unfold st_at, plan_frame, keep_plan, st_modify. cbn [fst snd]. apply write_rows_at; lia.
Qed.

Lemma forward_tiles_at scan x id bt q k v q0 q_len ly :
  id ∈ ids → bt ⊆ blocks → (lo ≤ q0)%Z → (q0 + q_len ≤ hi)%Z → (Z.of_nat (length q) ≤ q_len)%Z →
  st_at R ly (forward_tiles impl scan x id bt q k v q0).
Proof.
  intros Hid Hbt Ha Hb Hl. unfold forward_tiles. apply (at_bind _).
  - apply on_object_at; [done|]. intros s. pose proof (on_rt_at bt _ s (plan_init_at _ bt (as_f32 (sx_dev k))
      (as_f32 (sx_dev v)) (fs_rt s) stage4b4_writer_frame)) as H. by eapply cache_frame_mono.
  - intros plan ly1 _. unfold st_at, run_tiles. set (closed_after := map _ _).
    destruct (tiles_upto_all closed_after) as (Hok & _).
    assert (length closed_after = length q) as Hc by (unfold closed_after; by rewrite length_map, length_seq).
    assert (∀ l s, Forall (tile_ok closed_after) l → st_at plan_frame s (st_for l (forward_tile impl scan x id q q0))) as G.
    { induction l as [|t l IH]; intros s Hl'; [apply (at_ret _)|]. apply Forall_cons_iff in Hl' as [Ht Hl'].
      cbn [st_for]. apply (at_bind _); [|intros; by apply IH]. destruct t as [[i0 i1] closed], Ht as (Hi & _).
      apply forward_tile_at; [done|done|]. cbn [fst snd]. lia. }
    specialize (G _ (plan, ly1) Hok). unfold rabit2_tile32_tiles, st_at, plan_frame in *.
    destruct (st_for _ _ _) as [r [p' ly2]]. exact G.
Qed.

Lemma opt_in_at q_len name run ly : st_at R ly run → st_at R ly (opt_in q_len name run).
Proof.
  intros H. unfold opt_in. destruct (1 <? q_len)%Z; [|apply (at_ret _)]. apply (at_lift_bind _). intros s _.
  destruct (decide _); [done|apply (at_ret _)].
Qed.

Lemma forward_chunk_at x id bt q k v q0 q_len ly :
  id ∈ ids → bt ⊆ blocks → (lo ≤ q0)%Z → (q0 + q_len ≤ hi)%Z → (Z.of_nat (length q) ≤ q_len)%Z →
  st_at R ly (forward_chunk impl x id bt q k v q0 q_len).
Proof.
  intros Hid Hbt Ha Hb Hl. unfold forward_chunk. apply (at_lift_bind _). intros _ _. apply (at_bind _).
  { apply opt_in_at. unfold rabit2_stage3c_forward_tile32. apply (at_get _), (at_lift_bind _). intros r _.
    destruct (negb _); [apply (at_ret _)|]. apply (at_bind _); [by eapply forward_tiles_at|intros; apply (at_ret _)]. }
  intros [] ly1 _; [apply (at_ret _)|]. apply (at_bind _).
  { apply opt_in_at. unfold rabit2_stage3c_forward_shared_decode. apply (at_get _), (at_lift_bind _). intros r _.
    destruct (negb _); [apply (at_ret _)|]. apply (at_lift_bind _). intros qb _.
    apply (at_bind _); [by eapply forward_tiles_at|intros; apply (at_ret _)]. }
  intros [] ly2 _; [apply (at_ret _)|]. by apply forward_tokens_at.
Qed.

Lemma py_slice_length_le {A} a b (l : list A) : (0 ≤ a)%Z → (a ≤ b)%Z → (Z.of_nat (length (py_slice a b l)) ≤ b - a)%Z.
Proof.
  intros Ha Hb. unfold py_slice. rewrite slice_length. unfold py_index.
  destruct (Z.ltb_spec a 0); [lia|]. destruct (Z.ltb_spec b 0); lia.
Qed.

Lemma forward_request_at x seq_idx q0 item ly :
  item.1.1 ∈ ids → (∀ row, si_block_table x !! seq_idx = Some row → row ⊆ blocks) →
  (lo ≤ q0)%Z → (q0 + item.1.2 ≤ hi)%Z →
  st_at R ly (forward_request impl context_attention_fwd x seq_idx q0 item).
Proof.
  destruct item as [[id q_len] ctx]. cbn [fst snd]. intros Hid Hrow Ha Hb. unfold forward_request.
  destruct (Z.leb_spec q_len 0) as [?|Hq]; [apply (at_ret _)|]. apply (at_raise_bind _), (at_lift_bind _).
  intros bt Hbt. assert (bt ⊆ blocks) as Hs.
  { apply Hrow. destruct (si_block_table x !! seq_idx); by simplify_eq. }
  apply (at_bind _); [by apply bind_runtime_at|]. intros _ ly1 _.
  destruct (_ && _).
  2: { apply forward_chunk_at; try done. pose proof (py_slice_length_le q0 (q0 + q_len) (si_query x)). lia. }
  unfold forward_prompt. apply (at_bind _).
  - apply on_object_at; [done|]. intros s. pose proof (on_rt_at bt _ s (bulk_append_at _ bt
      (as_f32 (sx_dev (sx_slice q0 (q0 + q_len) (si_key x)))) (as_f32 (sx_dev (sx_slice q0 (q0 + q_len) (si_value x))))
      (fs_rt s) stage4d2_writer_frame)) as H. by eapply cache_frame_mono.
  - intros _ ly2 _. apply at_modify, write_rows_at; lia.
Qed.

Lemma forward_batch_at x batch seq_idx q0 ly :
  Forall (λ it : BatchItem, (0 < it.1.2)%Z ∧ it.1.1 ∈ ids) batch →
  (∀ i row, si_block_table x !! i = Some row → row ⊆ blocks) →
  (lo ≤ q0)%Z → (q0 + query_total batch ≤ hi)%Z →
  st_at R ly (forward_batch impl context_attention_fwd x seq_idx q0 batch).
Proof.
  intros HF Hrow. revert seq_idx q0 ly. induction HF as [|it batch [Hq Hid] HF IH]; intros i q0 ly Ha Hb;
    [apply (at_ret _)|].
  assert (0 ≤ query_total batch)%Z as Ht.
  { clear - HF. induction HF as [|it batch [Hq _] HF IH]; [done|]. unfold query_total in *. cbn. lia. }
  assert (query_total (it :: batch) = it.1.2 + query_total batch)%Z as E by done. rewrite E in Hb.
  cbn [forward_batch]. apply (at_bind _).
  - apply forward_request_at; [done|apply Hrow|done|lia].
  - intros _ ly1 _. apply IH; lia.
Qed.
End Call.
End Layer.

(** ** Properties *)

(** The requests of a batch. *)
Definition batch_ids (batch : list BatchItem) : list string := map (λ it : BatchItem, it.1.1) batch.

(** The calls the layer supports. *)
Definition call_supported (impl : AttnImpl) (x : StepInput (B := B)) : bool :=
  ai_decoder impl && negb (ai_alibi impl || ai_sinks impl || ai_soft_cap impl)
  && bool_decide (ai_sliding_window impl = (-1, -1)%Z) && (ai_chunk_lookback impl <? 0)%Z
  && negb (si_mm_prefix x || si_rswa x).

(** C13: requests are isolated.  For every batch the scheduler may publish and
    every outcome of the forward pass, an exception anywhere in it included, the
    runtime objects of requests outside the batch, the cache blocks outside the
    batch's block tables, and the output rows beyond the scheduled tokens are the
    ones before the call; the cache keeps its shape and the output its length. *)
Theorem forward_isolates_requests (impl : AttnImpl)
    (context_attention_fwd : list (list B) → dev_tensor → dev_tensor → f32 → list (list B))
    (batch : list BatchItem) (x : StepInput) (ly : LayerState) :
  batch ≠ [] → Forall (λ it : BatchItem, 0 < it.1.2)%Z batch →
  let ly' := (_forward_rabit_kv2 impl context_attention_fwd batch x ly).2 in
  (∀ id, id ∉ batch_ids batch → ly_runtimes ly' !! id = ly_runtimes ly !! id)
  ∧ (∀ b, b ∉ concat (si_block_table x) → pc_pages (ly_cache ly') !! b = pc_pages (ly_cache ly) !! b)
  ∧ pc_width (ly_cache ly') = pc_width (ly_cache ly)
  ∧ length (pc_pages (ly_cache ly')) = length (pc_pages (ly_cache ly))
  ∧ length (ly_out ly') = length (ly_out ly)
  ∧ (∀ i, (si_num_actual_tokens x ≤ Z.of_nat i)%Z → ly_out ly' !! i = ly_out ly !! i).
Proof.
  intros Hne HF ly'.
  assert (layer_frame (batch_ids batch) (concat (si_block_table x)) 0 (si_num_actual_tokens x) ly ly')
    as (H1 & (H2 & H3 & H4) & H5 & H6).
  2: { split; [done|]. split; [done|]. split; [done|]. split; [done|]. split; [done|]. intros i Hi. apply H6. by right. }
  set (R := layer_frame _ _ _ _). change (st_at R ly (_forward_rabit_kv2 impl context_attention_fwd batch x)).
  unfold _forward_rabit_kv2. apply (at_lift_bind R). intros _ _.
  destruct (si_num_actual_tokens x <=? 0)%Z; [apply (at_ret R)|]. apply (at_lift_bind R). intros batch' Hb.
  unfold checked_batch in Hb. destruct batch as [|it batch]; [done|]. set (l := it :: batch) in *.
  destruct (length (si_query_start_loc x) =? length l + 1)%nat; [|done].
  destruct (Z.eqb_spec (query_total l) (si_num_actual_tokens x)) as [E|?]; [|done].
  cbn [negb raise_if] in Hb. rewrite !result_bind_ok in Hb. injection Hb as <-. apply forward_batch_at; [lia| | |lia|lia].
  - apply List.Forall_forall. intros it' Hin. rewrite List.Forall_forall in HF. split; [by apply HF|].
    apply list_elem_of_In, in_map_iff. by exists it'.
  - intros i row Hrow b Hb. apply list_elem_of_In, in_concat. exists row. split; [|by apply list_elem_of_In].
    apply list_elem_of_In. by eapply list_elem_of_lookup_2.
Qed.

(** C34: what a forward pass refuses before it touches anything.  An unsupported
    layer or call raises [NotImplementedError]; an empty call returns; a published
    batch of another size or length than the attention metadata raises
    [RuntimeError]; a request with a negative context raises [RuntimeError], one
    with a computed context and no local sidecar [NotImplementedError], one whose
    sidecar has another length [RuntimeError]. *)
Theorem forward_refusals (impl : AttnImpl)
    (context_attention_fwd : list (list B) → dev_tensor → dev_tensor → f32 → list (list B))
    (batch : list BatchItem) (x : StepInput) (ly : LayerState) :
  let forward := _forward_rabit_kv2 impl context_attention_fwd in
  let supported := call_supported impl x in
  (supported = false → forward batch x ly = (Err NotImplementedError, ly))
  ∧ (supported = true → (si_num_actual_tokens x ≤ 0)%Z → forward batch x ly = (Ok tt, ly))
  ∧ (supported = true → (0 < si_num_actual_tokens x)%Z → batch ≠ [] →
     length (si_query_start_loc x) ≠ (length batch + 1)%nat ∨ query_total batch ≠ si_num_actual_tokens x →
     forward batch x ly = (Err RuntimeError, ly))
  ∧ (∀ i q0 id q ctx row, (0 < q)%Z → si_block_table x !! i = Some row →
     let request := forward_request impl context_attention_fwd x i q0 (id, q, ctx) ly in
     ((ctx < 0)%Z → request = (Err RuntimeError, ly))
     ∧ ((0 < ctx)%Z → ly_runtimes ly !! id = None → request = (Err NotImplementedError, ly))
     ∧ (∀ o, (0 < ctx)%Z → ly_runtimes ly !! id = Some o → Z.of_nat (runtime_total_tokens (ob_rt o)) ≠ ctx →
        request = (Err RuntimeError, ly))).
Proof.
  intros forward supported.
  assert (forward_guards impl x = if supported then Ok tt else Err NotImplementedError) as Hg.
  { unfold forward_guards, supported, call_supported. destruct (ai_decoder impl); [|done]. cbn [negb andb raise_if].
    rewrite result_bind_ok. destruct (ai_alibi impl || ai_sinks impl || ai_soft_cap impl); [done|].
    cbn [negb andb raise_if]. rewrite result_bind_ok. destruct (ai_sliding_window impl) as [w1 w2]. cbn [fst snd].
    destruct (Z.eqb_spec w1 (-1)) as [->|?].
    2: { by rewrite bool_decide_eq_false_2 by congruence. }
    destruct (Z.eqb_spec w2 (-1)) as [->|?].
    2: { by rewrite bool_decide_eq_false_2 by congruence. }
    rewrite bool_decide_eq_true_2 by done. cbn [negb orb andb].
    destruct (Z.leb_spec 0 (ai_chunk_lookback impl)), (Z.ltb_spec (ai_chunk_lookback impl) 0); try lia; [done|].
    cbn [raise_if andb]. rewrite result_bind_ok. by destruct (_ || _). }
  unfold forward, _forward_rabit_kv2, st_lift. split; [|split; [|split]].
  - intros E. rewrite st_bind_eq, Hg, E. done.
  - intros E Hn. rewrite st_bind_eq, Hg, E. by destruct (Z.leb_spec (si_num_actual_tokens x) 0); [|lia].
  - intros E Hn Hb Hm. rewrite st_bind_eq, Hg, E. destruct (Z.leb_spec (si_num_actual_tokens x) 0); [lia|].
    rewrite st_bind_eq. unfold checked_batch. destruct batch as [|it batch]; [done|].
    destruct (Nat.eqb_spec (length (si_query_start_loc x)) (length (it :: batch) + 1)); [|done].
    cbn [negb raise_if]. rewrite result_bind_ok.
    destruct (Z.eqb_spec (query_total (it :: batch)) (si_num_actual_tokens x)); [tauto|done].
  - intros i q0 id q ctx row Hq Hrow. unfold forward_request.
    destruct (Z.leb_spec q 0); [lia|]. rewrite st_bind_eq. unfold st_raise_if, st_lift. split; [|split].
    + intros Hc. by destruct (Z.ltb_spec ctx 0); [|lia].
    + intros Hc Ho. destruct (Z.ltb_spec ctx 0); [lia|]. cbn [raise_if]. rewrite st_bind_eq, Hrow, st_bind_eq.
      unfold bind_runtime. rewrite st_bind_eq. cbn [st_get]. destruct (Z.eqb_spec ctx 0); [lia|]. by rewrite Ho.
    + intros o Hc Ho Ht. destruct (Z.ltb_spec ctx 0); [lia|]. cbn [raise_if]. rewrite st_bind_eq, Hrow, st_bind_eq.
      unfold bind_runtime. rewrite st_bind_eq. cbn [st_get]. destruct (Z.eqb_spec ctx 0); [lia|]. rewrite Ho.
      unfold st_raise_if, st_lift. by destruct (Z.eqb_spec (Z.of_nat (runtime_total_tokens (ob_rt o))) ctx).
Qed.
End Frame.

(** ** A concrete layer *)

Section Concrete.
#[local] Existing Instance FixedTorch.
#[local] Existing Instance FixedTriton.
#[local] Existing Instance zero_memory.
#[local] Existing Instance FixedReduce.
#[local] Existing Instance bf16_type.

(** One KV head of 64 channels. *)
Definition fixed_impl : AttnImpl := mkImpl true false false false (-1, -1)%Z (-1)%Z 1 64 UNIT true (0, 0)%Z.

Definition fixed_keys (n : nat) (v : Z) : StepTensor := mkStepTensor true true true (TFloat (fixed_chunk n v).1).

(** A step of [n] tokens of one request, four query heads. *)
Definition fixed_step (n : nat) (v : Z) (table : list nat) : StepInput :=
  mkStep true 4 64 (replicate n (replicate 256 7%Z)) (fixed_keys n v) (fixed_keys n v) (Z.of_nat n)
    [0%Z; Z.of_nat n] [Z.of_nat n] [table] false false.

Definition fixed_layer (table : gmap string RtObject) (rows : nat) : LayerState :=
  mkLayer table (zero_cache 5) ∅ (replicate rows (replicate 256 0%Z)).

(** No variable is set. *)
Definition default_environ : Environ := λ _, None.
#[local] Existing Instance default_environ.

(** A dense attention that copies the queries. *)
Definition copy_attention (q : list (list Z)) (k v : dev_tensor) (scale : f32) : list (list Z) := q.

Definition idle_object : RtObject := mkObj (rs_runtime (rt_of 1 64 [] (zero_cache 5) [] [])) false None.

(** C13 for a prompt of two tokens of ["a"] while ["b"] is idle. *)
Lemma forward_isolates_requests_witness :
  let ly := fixed_layer {["b" := idle_object]} 3 in
  let ly' := (_forward_rabit_kv2 fixed_impl copy_attention [("a", 2, 0)%Z] (fixed_step 2 3 [3; 0]%nat) ly).2 in
  ly_runtimes ly' !! "b" = Some idle_object ∧ pc_pages (ly_cache ly') !! 1%nat = Some (replicate 1552 0%Z)
  ∧ ly_out ly' !! 2%nat = Some (replicate 256 0%Z).
Proof.
  intros ly ly'.
  destruct (forward_isolates_requests fixed_impl copy_attention [("a", 2, 0)%Z] (fixed_step 2 3 [3; 0]%nat) ly)
    as (H1 & H2 & _ & _ & _ & H6); [done|by repeat constructor|]. fold ly' in H1, H2, H6.
  split; [rewrite H1; [done|]|split; [rewrite H2; [done|]|rewrite H6; [done|]]].
  - apply (bool_decide_unpack _). by vm_compute.
  - apply (bool_decide_unpack _). by vm_compute.
  - done.
Defined.

(** C34: a layer with sinks, an empty call, a batch of two requests for one row of
    metadata, and a decode step without a sidecar. *)
Lemma forward_refusals_witness :
  let ly := fixed_layer ∅ 3 in
  let sinks := mkImpl true false true false (-1, -1)%Z (-1)%Z 1 64 UNIT true (0, 0)%Z in
  _forward_rabit_kv2 sinks copy_attention [("a", 2, 0)%Z] (fixed_step 2 3 [3; 0]%nat) ly = (Err NotImplementedError, ly)
  ∧ _forward_rabit_kv2 fixed_impl copy_attention [] (fixed_step 0 3 [3; 0]%nat) ly = (Ok tt, ly)
  ∧ _forward_rabit_kv2 fixed_impl copy_attention [("a", 1, 0); ("b", 1, 0)]%Z (fixed_step 2 3 [3; 0]%nat) ly
    = (Err RuntimeError, ly)
  ∧ forward_request fixed_impl copy_attention (fixed_step 1 3 [3; 0]%nat) 0 0%Z ("a", 1, 70)%Z ly
    = (Err NotImplementedError, ly).
Proof.
  intros ly sinks. split; [|split; [|split]].
  - by refine (proj1 (forward_refusals sinks copy_attention _ _ _) _).
  - by refine (proj1 (proj2 (forward_refusals fixed_impl copy_attention _ _ _)) _ _).
  - refine (proj1 (proj2 (proj2 (forward_refusals fixed_impl copy_attention _ _ _))) _ _ _ _); [done|done|done|].
    by left.
  - by refine (proj1 (proj2 (proj2 (proj2 (proj2 (forward_refusals fixed_impl copy_attention
      [] (fixed_step 1 3 [3; 0]%nat) ly))) 0%nat 0%Z "a" 1%Z 70%Z [3; 0]%nat _ _)) _ _).
Defined.
End Concrete.
