(* ===== verification/TileState.v ===== *)
(** * A tile over token streams

    The batched scans of [Forward] on a cache that holds the pages of a stream:
    the part of each query is the closed-page segments of the decode attention of
    that query, whichever scan ran, and the reduction over the tile is the rows the
    decode attention returns. *)

From Stdlib Require Import ZArith Lia.
From stdpp Require Import gmap strings base tactics numbers list option.
From S2P Require Import Prelude Layout Torch BitPack Meta Quant Tab Triton Decoded Page Sidecar Tail OnlineRef Runtime.
From S2P Require Import Bulk ChunkPlan FastAppend PageKernel EncodeKernel Attention PageAttention TailAttention TailPrep.
From S2P Require Import DecodeAttention DecodeState TileSchedule TileKernels Lifecycle Forward.

Section TileState.
Context `{TF : TorchFloat} {TR : TritonFloat} {TE : TorchEmpty} {TA : TritonReduce}.
Context {TFL : TorchFloatLaws TF} {TL : TritonLaws TR} {TZ : TritonZero}.
Context {B : Type} {FT : FloatType B}.
Variables (h g NQ : nat).
Let d := (g * 32)%nat.
Hypotheses (Hh : (0 < h)%nat) (Hg : (0 < g)%nat) (HQ : (0 < NQ)%nat ∧ (h | NQ)%nat) (H64 : (64 | h * d)%nat)
  (H4 : rabit2_tile32_supported NQ h = true).

Lemma scan_groups : ∃ groups, (0 < groups)%nat ∧ NQ = (h * (groups * 4))%nat ∧ (NQ / h / 4 = groups)%nat.
Proof.
  apply andb_true_iff in H4 as [_ H]. apply Nat.eqb_eq in H. destruct HQ as [Hpos [k Hk]].
  assert (NQ / h = k)%nat as E by (rewrite Hk; apply Nat.div_mul; lia). rewrite E in H |- *.
  apply Nat.Lcm0.mod_divide in H as [m Hm]. exists m. assert (k / 4 = m)%nat as -> by (rewrite Hm; apply Nat.div_mul; lia).
  split; [|split; [|done]]; nia.
Qed.

Variables (bt : list nat) (cache : PageCache) (scale : f32) (runtime : Rabit2SingleSequenceRuntime).
Hypotheses (Eh : rt_num_kv_heads runtime = h) (Ev : rt_head_size_v runtime = d)
  (El : rt_layout runtime = layout_of GROUP h d d).

(** What the layer relies on: each query's part is scanned as the query alone. *)
Definition scan_spec (scan : nat → list B → nat → Partials → Partials) : Prop :=
  ∀ rows closed mem, let n := length rows in let S := ((closed + 1) * NQ)%nat in
  Forall (λ r, length r = (NQ * d)%nat) rows → partials_room n S d mem →
  partials_room n S d (scan n (concat rows) closed mem)
  ∧ ∀ j row, rows !! j = Some row →
      tile_view j S d (scan n (concat rows) closed mem)
      = _rabit2_stage4b3_gqa4_closed_page_partial_kernel (scan_consts runtime NQ d) closed (h * (NQ / h / 4)) row
          (concat (pc_pages cache)) bt scale (tile_view j S d mem).

Lemma scan_consts_fields :
  let c := scan_consts runtime NQ d in
  NUM_KV_HEADS c = h ∧ NUM_Q_HEADS c = NQ ∧ HEAD_SIZE c = d ∧ (d ≤ BLOCK_D c)%nat.
Proof.
  cbv zeta. unfold scan_consts. rewrite El, Ev.
  destruct (page_consts_fields h g NQ [] Hh Hg) as (E1 & E2 & _ & _ & _ & _ & _ & _ & _ & E10 & E11).
  split; [exact E1|]. split; [exact E10|]. split; [exact E2|]. apply next_power_of_2_ge.
Qed.

Lemma tile32_scan_spec :
  scan_spec (λ n q closed, tile32_closed_pages runtime n NQ d q cache bt closed scale).
Proof.
  intros rows closed mem n S HF Hm. destruct scan_groups as (groups & Hgr & HN & EG).
  destruct scan_consts_fields as (E1 & E2 & E3 & E4). unfold tile32_closed_pages. rewrite Eh, EG.
  set (c := scan_consts runtime NQ d) in *.
  assert (closed * NUM_Q_HEADS c ≤ S)%nat as HS by (unfold S; lia). fold S.
  pose proof (tile32_room c groups closed n S (NQ * d) (concat rows) (concat (pc_pages cache)) bt scale) as HR.
  pose proof (tile32_view c groups closed n S (NQ * d) (concat rows) (concat (pc_pages cache)) bt scale) as HV.
  rewrite E1, E2, E3 in HR, HV. split.
  - apply HR; try done; lia.
  - intros j row Hj. apply (HV ltac:(done) Hgr HN E4 HS rows); done.
Qed.

Lemma shared_scan_spec qb :
  (0 < qb)%nat →
  scan_spec (λ n q closed mem, (rabit2_shared_decode_closed_pages runtime n NQ d q cache bt closed scale qb None mem).1).
Proof.
  intros Hqb rows closed mem n S HF Hm. destruct scan_groups as (groups & Hgr & HN & EG).
  destruct scan_consts_fields as (E1 & E2 & E3 & E4).
  assert ((rabit2_shared_decode_closed_pages runtime n NQ d (concat rows) cache bt closed scale qb None mem).1
          = tile32_closed_pages runtime n NQ d (concat rows) cache bt closed scale mem) as ->.
  2: by apply (tile32_scan_spec rows closed mem).
  unfold rabit2_shared_decode_closed_pages, tile32_closed_pages. rewrite Eh, EG. fold S.
  set (c := scan_consts runtime NQ d) in *. cbn [default].
  pose proof (shared_is_tile32 c groups closed n S (NQ * d) (concat rows) (concat (pc_pages cache)) bt scale) as HE.
  rewrite E1, E2, E3 in HE. rewrite HE; try done. unfold S. lia.
Qed.

(** The scanned part of a query over the pages of its own prefix. *)
Lemma scan_view_segs scan rows closed mem j row P BLOCK_T tail (S := ((closed + 1) * NQ)%nat)
    (pages := map (λ p, decoded_pair h g p (λ x, x)) P)
    (R := decode_segment NQ h d BLOCK_T pages tail (q_load row d) scale) :
  scan_spec scan → Forall (λ r, length r = (NQ * d)%nat) rows → rows !! j = Some row → length P = closed →
  partials_room (length rows) S d mem →
  cache_ok cache → pc_width cache = page_bytes (layout_of GROUP h d d) →
  Forall2 (λ b p, pc_pages cache !! b = Some p) (take (length P) bt) P →
  tile_view j S d (if (closed =? 0)%nat then mem else scan (length rows) (concat rows) closed mem)
  = segs_mem d R (closed * NQ) (tile_view j S d mem).
Proof.
  intros Hscan HF Hj HP Hm Hc Hw H2. destruct (Nat.eqb_spec closed 0) as [->|Hne]; [symmetry; apply segs_mem_0|].
  destruct (Hscan rows closed mem HF Hm) as [_ Hv]. fold S in Hv. rewrite (Hv j row Hj). clear Hv.
  destruct scan_groups as (groups & Hgr & HN & EG). destruct scan_consts_fields as (E1 & E2 & E3 & E4). rewrite EG.
  pose proof (gqa4_kernel_eq (scan_consts runtime NQ d) row (concat (pc_pages cache)) bt scale groups closed
                (tile_view j S d mem)) as HK.
  rewrite E1, E2 in HK. rewrite HK by done. unfold scan_consts. rewrite El, Ev.
  assert (closed = length pages) as Ec by (unfold pages; by rewrite length_map).
  rewrite Ec. assert (Forall (wf_row h d) [replicate h (replicate d 0%Z)]) as W.
  { constructor; [|constructor]. split; [apply length_replicate|]. apply Forall_replicate, length_replicate. }
  apply (closed_pages_ok h g NQ [] [] [replicate h (replicate d 0%Z)] [replicate h (replicate d 0%Z)])
    with (P := P) (r := runtime); try done; [by split; [cbn; lia|constructor]|by split; [cbn; lia|]|].
  assert (j < length rows)%nat as Hlt by (by eapply lookup_lt_Some).
  pose proof (tile_view_room (length rows) S d j mem Hlt Hm) as HR. unfold S in HR at 1. rewrite Ec in HR.
  unfold partials_room in *. rewrite !Nat.mul_1_r in HR. done.
Qed.

(** The reduced tile is the rows of the decode attention. *)
Lemma tile_reduce_rows n (mem : Partials) closed (base : nat → Partials)
    (pages : nat → list (list (list (list f32)) * list (list (list f32)))) (BLOCK_T : nat → nat)
    (tail : nat → list (list (list f32)) * list (list (list f32))) (row : nat → list B) (S := ((closed + 1) * NQ)%nat) :
  (∀ j, (j < n)%nat → length (pages j) = closed ∧ partials_room S 1 d (base j) ∧
     tile_view j S d mem
     = segs_mem d (decode_segment NQ h d (BLOCK_T j) (pages j) (tail j) (q_load (row j) d) scale) ((closed + 1) * NQ) (base j)) →
  view2 n (NQ * d) (_rabit2_tile32_reduce_partials_kernel mem n (closed + 1) S (NQ * d) NQ d
    (next_power_of_2 (closed + 1)) (next_power_of_2 d) (ft_empty (n * (NQ * d))))
  = tab n (λ j, map ft_cast (concat (split_attention NQ h d (BLOCK_T j) (pages j) (tail j) (q_load (row j) d) scale))).
Proof.
  intros Hv. rewrite (tile32_reduce n S d NQ (closed + 1) _ _ mem _ (ft_empty (NQ * d)));
    [|apply next_power_of_2_ge|done|apply ft_empty_length|apply ft_empty_length].
  rewrite (tab_ext n _ (λ j, map ft_cast (concat (tab NQ (λ qh, tab d (combine_segments (next_power_of_2 (closed + 1))
      (tab (closed + 1) (λ s, decode_segment NQ h d (BLOCK_T j) (pages j) (tail j) (q_load (row j) d) scale (s * NQ + qh)))))))))
    at 1.
  2: { intros j Hj. destruct (Hv j Hj) as (_ & (B1 & B2 & B3) & ->). unfold S in B1, B2, B3. rewrite Nat.mul_1_r in B1, B2, B3.
       apply reduce_kernel_tab; [apply next_power_of_2_ge|done..|apply ft_empty_length]. }
  rewrite view2_concat; [|apply tab_length|].
  - apply tab_ext. intros j Hj. destruct (Hv j Hj) as (<- & _). apply decode_segments_split.
  - unfold tab at 1. rewrite Forall_map. apply List.Forall_forall. intros j _. rewrite length_map.
    apply concat_tab_length.
Qed.
End TileState.
