(* ===== verification/ForwardStream.v ===== *)
(** * One request over a token stream

    A request of [_forward_rabit_kv2] whose runtime object, pages and buffers are
    those of a token stream: the initial prompt, the decode step and the later
    chunk, through the token loop or through the tiles of a batched path, leave the
    object, pages and buffers of the grown stream, and write the rows of the dense
    attention or of the decode attention of that stream. *)

From Stdlib Require Import ZArith Lia.
From stdpp Require Import gmap strings pretty base tactics numbers list option.
From S2P Require Import Prelude Layout Torch SpecFloatTorch BitPack Meta Quant Tab Triton Decoded Page Sidecar Tail OnlineRef Runtime.
From S2P Require Import FixedTorch Bulk ChunkPlan FastAppend Attention PageAttention TailAttention TailPrep DecodeAttention.
From S2P Require Import DecodeState TileSchedule TileKernels Lifecycle Forward ForwardFrame TileState.

Lemma write_pages_idem bt pages c :
  Forall2 (λ b p, pc_pages c !! b = Some p) (take (length pages) bt) pages → write_pages bt pages c = c.
Proof.
  intros H. unfold write_pages. rewrite zip_take_l. destruct c as [w ps]. cbn [pc_width pc_pages] in *. f_equal.
  induction H as [|b p bs pages Hb H IH]; [done|]. cbn [zip_with fold_left fst snd]. by rewrite list_insert_id.
Qed.

(** A counted loop that establishes an indexed predicate. *)
Lemma st_for_inv {S} (body : nat → ST S unit) (I : nat → S → Prop) n s :
  (∀ i s, (i < n)%nat → I i s → ∃ s', body i s = (Ok tt, s') ∧ I (i + 1)%nat s') →
  I 0%nat s → ∃ s', st_for (seq 0 n) body s = (Ok tt, s') ∧ I n s'.
Proof.
  intros Hb.
  assert (∀ m k s, (k + m ≤ n)%nat → I k s → ∃ s', st_for (seq k m) body s = (Ok tt, s') ∧ I (k + m)%nat s') as G.
  { induction m as [|m IH]; intros k s0 Hk H0; cbn [seq st_for].
    - exists s0. by rewrite Nat.add_0_r.
    - destruct (Hb k s0 ltac:(lia) H0) as (s1 & E & H1). rewrite st_bind_eq, E.
      rewrite Nat.add_1_r in H1. destruct (IH (Datatypes.S k) s1 ltac:(lia) H1) as (s2 & E2 & H2).
      exists s2. split; [done|]. by rewrite Nat.add_succ_r, <-Nat.add_succ_l. }
  intros H0. apply (G n 0%nat s); [lia|done].
Qed.

Lemma py_slice_nat {A} (a b : nat) (l : list A) :
  (b ≤ length l)%nat → (a ≤ b)%nat → py_slice (Z.of_nat a) (Z.of_nat b) l = slice a b l.
Proof.
  intros Hb Ha. unfold py_slice, py_index. destruct (Z.ltb_spec (Z.of_nat a) 0); [lia|].
  destruct (Z.ltb_spec (Z.of_nat b) 0); [lia|]. f_equal; lia.
Qed.

Lemma slice_one {A} i (l : list A) x : (i < length l)%nat → slice i (i + 1) l = [nth i l x].
Proof.
  intros Hi. unfold slice. replace (i + 1 - i)%nat with 1%nat by lia.
  destruct (lookup_lt_is_Some_2 l i Hi) as [y Hy]. rewrite (drop_S _ y) by done. cbn.
  by rewrite (nth_lookup_Some _ _ x y Hy).
Qed.

Lemma slice_within {A} a b i j (l : list A) :
  (j ≤ b - a)%nat → slice i j (slice a b l) = slice (a + i) (a + j) l.
Proof.
  intros H. unfold slice. rewrite skipn_firstn_comm, drop_drop, take_take. f_equal. lia.
Qed.

Lemma take_slice {A} a b n (l : list A) : (n ≤ b - a)%nat → take n (slice a b l) = slice a (a + n) l.
Proof. intros H. unfold slice. rewrite take_take. f_equal. lia. Qed.

Section ForwardStream.
Context `{TF : TorchFloat} {TR : TritonFloat} {TE : TorchEmpty} {TA : TritonReduce}.
Context {TFL : TorchFloatLaws TF} {TL : TritonLaws TR} {TZ : TritonZero}.
Context {B : Type} {FT : FloatType B}.
Context {EN : Environ}.
Variables (h g NQ : nat).
Let d := (g * 32)%nat.
Hypotheses (Hgeo : runtime_geometry h d) (HQ : (0 < NQ)%nat ∧ (h | NQ)%nat).

(** ** A stream in a cache *)

Definition tokens : Type := list (list (list f32)).

(** The runtime of a stream. *)
Definition runtime_of (kx vx : tokens) : Rabit2SingleSequenceRuntime :=
  rs_runtime (rt_of h d [] (mkCache 0 []) (stored kx) (stored vx)).

Definition stream_pages (kx vx : tokens) : list (list Z) :=
  pages_of h d d (closed_rows (stored kx)) (closed_rows (stored vx)).

(** The pages of the stream lie under its block table. *)
Definition pages_in (bt : list nat) (kx vx : tokens) (c : PageCache) : Prop :=
  Forall2 (λ b p, pc_pages c !! b = Some p) (take (closed_count (length kx)) bt) (stream_pages kx vx).

Definition stream_ok (kx vx : tokens) : Prop :=
  length kx = length vx ∧ Forall (wf_row h d) kx ∧ Forall (wf_row h d) vx.

Lemma stream_pages_length kx vx :
  length kx = length vx → length (stream_pages kx vx) = closed_count (length kx).
Proof.
  intros Hl. unfold stream_pages. rewrite pages_of_length by (by rewrite !closed_rows_length, !stored_length, Hl).
  rewrite closed_rows_length, stored_length. apply Nat.div_mul. unfold GROUP. lia.
Qed.

(** The state of [Runtime] over a cache that already holds the pages. *)
Lemma rt_of_stream bt kx vx c :
  length kx = length vx → pages_in bt kx vx c →
  rt_of h d bt c (stored kx) (stored vx) = mkRt (runtime_of kx vx) c.
Proof.
  intros Hl Hp.
  change (mkRt (runtime_of kx vx) (write_pages bt (stream_pages kx vx) c) = mkRt (runtime_of kx vx) c).
  f_equal. apply write_pages_idem. by rewrite stream_pages_length.
Qed.

Lemma rt_of_grown bt kx vx c :
  rt_of h d bt c (stored kx) (stored vx) = mkRt (runtime_of kx vx) (write_pages bt (stream_pages kx vx) c).
Proof. done. Qed.

Lemma grown_pages_in bt kx vx c :
  length kx = length vx → table_ok h d (length kx) bt c →
  pages_in bt kx vx (write_pages bt (stream_pages kx vx) c).
Proof.
  intros Hl Ht. destruct (rt_pages_stored h d bt c (stored kx) (stored vx)) as (HF & _).
  - by rewrite !stored_length.
  - by rewrite stored_length.
  - rewrite stored_length in HF. exact HF.
Qed.

(** Writing the pages of another stream elsewhere. *)
Lemma pages_in_frame bt bt' kx vx kx' vx' c :
  length kx' = length vx' → take (closed_count (length kx')) bt' ## take (closed_count (length kx)) bt →
  pages_in bt kx vx c → pages_in bt kx vx (write_pages bt' (stream_pages kx' vx') c).
Proof.
  intros Hl Hd Hp. unfold pages_in in *. rewrite <-(stream_pages_length kx' vx' Hl) in Hd.
  apply Forall2_same_length_lookup. split; [by eapply Forall2_length|]. intros i b pg Hb Hpg.
  rewrite write_pages_frame.
  - exact (Forall2_lookup_lr _ _ _ i b pg Hp Hb Hpg).
  - intros Hin. apply (Hd b Hin). by eapply list_elem_of_lookup_2.
Qed.

(** A prefix of a stream whose pages are in the cache. *)
Lemma prefix_pages_in n bt kx vx c :
  length kx = length vx → (n ≤ length kx)%nat → pages_in bt kx vx c → pages_in bt (take n kx) (take n vx) c.
Proof.
  intros Hl Hn Hp. unfold pages_in, stream_pages in *. rewrite length_take, Nat.min_l by done.
  assert (∀ rows : tokens, stored (take n rows) = take n (stored rows)) as E
    by (intros; unfold stored, map3; by rewrite firstn_map).
  rewrite !E, (pages_of_prefix h d) by (rewrite !stored_length; done).
  apply (Forall2_take _ _ _ (closed_count n)) in Hp. rewrite take_take, Nat.min_l in Hp; [done|].
  by apply closed_count_mono.
Qed.

Lemma stream_take n kx vx : stream_ok kx vx → stream_ok (take n kx) (take n vx).
Proof.
  intros (Hl & Hk & Hv). split; [rewrite !length_take; lia|]. split; by apply Forall_take.
Qed.

Lemma table_ok_shape n bt c c' :
  pc_width c' = pc_width c → length (pc_pages c') = length (pc_pages c) → table_ok h d n bt c → table_ok h d n bt c'.
Proof.
  intros Hw Hl (H1 & H2 & H3 & H4). split; [done|]. split; [done|]. split; [by rewrite Hl|congruence].
Qed.

(** ** The runtime object of a stream *)

(** Its runtime is the stream's, and its buffers mirror it while the flag is up. *)
Definition object_ok (kx vx : tokens) (o : RtObject) : Prop :=
  ob_rt o = runtime_of kx vx
  ∧ (ob_ready o = true → h = FAST_H ∧ d = FAST_D ∧ coherent (stored kx) (stored vx) true (ob_buf o)).

Lemma runtime_of_tokens kx vx : length kx = length vx → runtime_total_tokens (runtime_of kx vx) = length kx.
Proof.
  intros Hl. unfold runtime_total_tokens, runtime_of. rewrite rt_closed_of.
  change (rt_sidecar (rs_runtime (rt_of h d [] (mkCache 0 []) (stored kx) (stored vx))))
    with (sidecar_of h d d (stored kx) (stored vx)).
  unfold sidecar_of, sidecar_with. cbn [open_k recent_k].
  rewrite !tensor_len_when, open_rows_length, recent_rows_length, stored_length.
  pose proof (closed_count_bound (length kx)). pose proof (old_count_bound (length kx)). lia.
Qed.

Lemma fresh_object r : runtime_init h d d = Ok r → object_ok [] [] (mkObj r false None).
Proof.
  intros Hr. destruct (runtime_init_of h d [] (mkCache 0 []) Hgeo) as [E _]. rewrite Hr in E. injection E as ->.
  by split.
Qed.

(** ** One token through the append in force *)

(** Ordinary numbers in the V groups, which the buffered append quantizes on the
    device. *)
Definition values_regular (vx : tokens) : Prop := h = FAST_H → d = FAST_D → v_regular (stored vx).

(** Other geometries never take the buffered path. *)
Lemma fast_append_old cuda bt key value s :
  fast_shape key value (rs_runtime (fs_rt s)) = None → fs_ready s = false →
  _rabit2_final_fast_decode_append cuda bt key value s = on_rt (runtime_append bt (as_f32 key) (as_f32 value)) s.
Proof.
  intros Hs Hr. unfold _rabit2_final_fast_decode_append. rewrite st_bind_eq. cbn [st_get]. by rewrite Hs, Hr.
Qed.

Lemma append_token cuda bt kx vx c (key value : dev_tensor) ready buf :
  stream_ok kx vx → chunk_ok h d (as_f32 key, as_f32 value) → bf16_data key → bf16_data value →
  table_ok h d (length kx + t_tokens (as_f32 key)) bt c → pages_in bt kx vx c → values_regular vx →
  object_ok kx vx (mkObj (runtime_of kx vx) ready buf) →
  let kx' := kx ++ t_rows (as_f32 key) in
  let vx' := vx ++ t_rows (as_f32 value) in
  ∃ ready' buf',
    _rabit2_final_fast_decode_append cuda bt key value (mkFast (mkRt (runtime_of kx vx) c) ready buf)
    = (Ok tt, mkFast (mkRt (runtime_of kx' vx') (write_pages bt (stream_pages kx' vx') c)) ready' buf')
    ∧ object_ok kx' vx' (mkObj (runtime_of kx' vx') ready' buf').
Proof.
  intros (Hl & Wk & Wv) Hc Hbk Hbv Ht Hp Hreg [_ Hco] kx' vx'. cbn [ob_ready ob_buf] in Hco.
  apply (stored_wf h d) in Wk as Wk'. apply (stored_wf h d) in Wv as Wv'.
  assert (length (stored kx) = length (stored vx)) as Hl' by (by rewrite !stored_length).
  assert (mkFast (mkRt (runtime_of kx vx) c) ready buf = mkFast (rt_of h d bt c (stored kx) (stored vx)) ready buf) as ->
    by (by rewrite rt_of_stream).
  assert (∀ r b, mkFast (rt_of h d bt c (stored kx ++ stored (t_rows (as_f32 key)))
                                    (stored vx ++ stored (t_rows (as_f32 value)))) r b
            = mkFast (mkRt (runtime_of kx' vx') (write_pages bt (stream_pages kx' vx') c)) r b) as Eout.
  { intros r b. unfold kx', vx'. by rewrite <-rt_of_grown, !stored_app. }
  destruct (decide (h = FAST_H ∧ d = FAST_D)) as [[Eh Ed]|Hne].
  - destruct (fast_append_step bt c cuda (stored kx) (stored vx) (key, value) ready buf) as (r' & b' & Hrun & Hco').
    + done.
    + by rewrite <-Eh, <-Ed.
    + by rewrite <-Eh, <-Ed.
    + by rewrite <-Eh, <-Ed.
    + done.
    + done.
    + rewrite <-Eh, <-Ed, stored_length. done.
    + by apply Hreg.
    + intros Hr. by apply Hco.
    + unfold fast_of in Hrun. rewrite <-Eh, <-Ed in Hrun. cbn [fst snd] in Hrun. exists r', b'.
      rewrite Hrun. split; [by rewrite Eout|]. split; [done|]. intros Hr. split; [done|]. split; [done|].
      unfold kx', vx'. rewrite !stored_app. intros _. by apply Hco'.
  - assert (ready = false) as -> by (destruct ready; [destruct Hne; by destruct Hco as (? & ? & _)|done]).
    exists false, buf. split; [|by split].
    rewrite fast_append_old; [|cbn [fs_rt]|done].
    + unfold on_rt. cbn [fs_rt]. destruct Hc as (H1 & H2 & H3 & H4 & H5). cbn [fst snd] in *.
      rewrite runtime_append_of; try done.
      * by rewrite <-Eout.
      * intros i Hi. rewrite stored_length in Hi. by eapply table_ok_can_close.
    + destruct (fast_shape key value _) as [[k v]|] eqn:Ef; [|done]. destruct Hne.
      destruct (fast_shape_spec _ _ _ _ _ Ef) as (Edk & _ & _ & _ & Eh & Ed).
      destruct Hc as (_ & _ & _ & H4 & H5). cbn [fst snd] in H4, H5. unfold as_f32 in H4, H5. rewrite Edk in H4, H5.
      cbn [t_heads t_dim t_map] in H4, H5. by split; congruence.
Qed.

(** ** One decode *)

(** Ordinary numbers in the open group, which the decode quantizes on the
    device. *)
Definition open_ok (kx vx : tokens) : Prop :=
  open_rows (stored kx) ≠ [] → open_regular h g (open_rows (stored kx)) (open_rows (stored vx)).

(** The output row of a query against a stream: softmax attention over its decoded
    pages and its tail. *)
Definition decode_row (scale : f32) (kx vx : tokens) (q : list B) : list B :=
  map ft_cast (concat (split_attention NQ h d (tail_block (open_rows (stored kx))) (state_pages h g kx vx)
    (tail_pair h g (open_rows (stored kx)) (open_rows (stored vx)) (recent_rows (stored kx)) (recent_rows (stored vx)))
    (q_load q d) scale)).

Lemma decode_stream dev bt kx vx c q scale wss :
  stream_ok kx vx → (0 < length kx)%nat → table_ok h d (length kx) bt c → cache_ok c → pages_in bt kx vx c →
  open_ok kx vx → workspaces_ok wss →
  ∃ wss', workspaces_ok wss'
  ∧ decode_in_force dev true c bt (runtime_of kx vx) (mkQuery true [1%nat; NQ; d] q) (Some scale) wss
    = (Ok (mkQuery true [1%nat; NQ; d] (decode_row scale kx vx q)), wss').
Proof.
  intros (Hl & Wk & Wv) Hne Ht Hc Hp Hreg Hws.
  destruct (state_facts h g NQ _ _ Hgeo Hl Hne Wk Wv HQ) as (Hh & Hg & _).
  destruct (state_tail_shape h g NQ _ _ Hgeo Hl Hne Wk Wv HQ) as (T1 & T2 & T3 & T4).
  destruct (emit_in_force_ok h g NQ (open_rows (stored kx)) (open_rows (stored vx)) (recent_rows (stored kx))
              (recent_rows (stored vx)) Hh Hg HQ T1 T2 T3 T4 q scale (state_pages h g kx vx)
              (rs_runtime (rt_of h d bt c (stored kx) (stored vx)))
              eq_refl eq_refl eq_refl eq_refl dev wss Hws Hreg) as (wss' & Hws' & _ & He).
  exists wss'. split; [done|].
  destruct (entries_state h g NQ bt c kx vx Hgeo Hl Hne Wk Wv Ht Hc HQ q (Some scale)
              (_rabit2_stage4d3_4_emit_tail_partial dev) wss wss' He) as [_ E].
  fold d in E. rewrite rt_of_stream in E by done. exact E.
Qed.

(** The pages of a stream have the width of the cache. *)
Lemma grown_cache_ok bt kx vx c :
  stream_ok kx vx → (0 < length kx)%nat → table_ok h d (length kx) bt c → cache_ok c →
  cache_ok (write_pages bt (stream_pages kx vx) c).
Proof.
  intros (Hl & Wk & Wv) Hne (_ & _ & _ & Hw) Hc. apply write_pages_ok; [done|]. rewrite Hw.
  by apply (page_lengths h g NQ).
Qed.

(** ** One iteration of the token loop *)

Variable impl : AttnImpl.
Hypotheses (Ecuda : ai_cuda impl = true).
Let scale := ai_scale impl.

Lemma attend_stream id bt kx vx c q row ws out rts o :
  stream_ok kx vx → (0 < length kx)%nat → table_ok h d (length kx) bt c → cache_ok c → pages_in bt kx vx c →
  open_ok kx vx → workspaces_ok ws → rts !! id = Some o → ob_rt o = runtime_of kx vx →
  ∃ ws', workspaces_ok ws'
  ∧ attend impl id bt (mkQuery true [1%nat; NQ; d] q) row (mkLayer rts c ws out)
    = (Ok tt, mkLayer rts c ws' (write_rows row (row + 1) [decode_row scale kx vx q] out)).
Proof.
  intros Hs Hne Ht Hc Hp Hreg Hws Ho Er.
  destruct (decode_stream (ai_device_stream impl) bt kx vx c q scale ws Hs Hne Ht Hc Hp Hreg Hws) as (ws' & Hws' & E).
  exists ws'. split; [done|]. unfold attend. rewrite st_bind_eq. unfold decode_request.
  cbn [ly_runtimes ly_cache ly_ws ly_out]. rewrite Ho, Ecuda, Er.
  fold scale. by rewrite E.
Qed.

(** ** The inputs of a request *)

(** The key or value tensor holds [rows]. *)
Definition input_ok (x : StepTensor) (rows : tokens) : Prop :=
  as_f32 (sx_dev x) = mkTensor3 h d rows ∧ Forall (wf_row h d) rows ∧ bf16_data (sx_dev x).

Lemma map3_py_slice {X Y} (f : X → Y) a b (l : list (list (list X))) : map3 f (py_slice a b l) = py_slice a b (map3 f l).
Proof. unfold py_slice, map3. rewrite length_map. unfold slice. by rewrite skipn_map, firstn_map. Qed.

Lemma input_slice x rows a b :
  input_ok x rows → (a ≤ b)%nat → (b ≤ length rows)%nat →
  input_ok (sx_slice (Z.of_nat a) (Z.of_nat b) x) (slice a b rows).
Proof.
  intros (E & W & Hb) Ha Hbl. rewrite <-(py_slice_nat a b rows) by done. split; [|split].
  - unfold as_f32, sx_dev, sx_slice in *. cbn [dt_data sx_data] in *. destruct (sx_data x) as [[h' d' t]|[h' d' t]];
      cbn [on_rows t_map t_rows t_heads t_dim] in *; injection E as -> -> E; [|by rewrite E].
    unfold t_map. cbn [t_heads t_dim t_rows]. by rewrite map3_py_slice, E.
  - unfold py_slice. by apply Forall_take, Forall_drop.
  - unfold bf16_data, sx_dev, sx_slice in *. cbn [dt_data sx_data] in *. destruct (sx_data x) as [t|t]; [|done].
    cbn [on_rows t_rows] in *. by rewrite !map3_py_slice, Hb.
Qed.

Lemma inputs_chunk k v K V :
  input_ok k K → input_ok v V → length K = length V → chunk_ok h d (as_f32 (sx_dev k), as_f32 (sx_dev v)).
Proof.
  intros (Ek & Wk & _) (Ev & Wv & _) Hl. rewrite Ek, Ev. split; [done|]. split; [done|]. split; [|done].
  apply shape_eqb_spec. done.
Qed.

(** One token never takes a batched path. *)
Lemma forward_chunk_one x id bt q k v q0 ly :
  forward_chunk impl x id bt q k v q0 1 ly = forward_tokens (B := B) impl x id bt q k v q0 1 ly.
Proof. reflexivity. Qed.

Section Request.
Variable x : StepInput (B := B).
Variables (id : string) (bt : list nat) (kx vx K V : tokens) (p : nat).
Let m := length K.
Let kx' := kx ++ K.
Let vx' := vx ++ V.
Variables (rts : gmap string RtObject) (c : PageCache) (out : list (list B)).

Hypotheses (Hs : stream_ok kx vx) (Hs' : stream_ok kx' vx') (Hm : (0 < m)%nat)
  (Ht : table_ok h d (length kx') bt c) (Hc : cache_ok c) (Hp : pages_in bt kx vx c)
  (Hval : values_regular vx') (Hopen : ∀ n, (n ≤ m)%nat → open_ok (kx ++ take n K) (vx ++ take n V))
  (Hq : si_q_cuda x = true ∧ si_q_heads x = NQ ∧ si_q_dim x = d)
  (Hrows : (p + m ≤ length (si_query x))%nat ∧ (p + m ≤ length out)%nat).
Variables (k_seq v_seq : StepTensor).
Hypotheses (Hk : input_ok k_seq K) (Hv : input_ok v_seq V).
Let q_seq := slice p (p + m) (si_query x).
Let cF := write_pages bt (stream_pages kx' vx') c.

(** The row of token [j]. *)
Definition token_row (j : nat) : list B :=
  decode_row scale (kx ++ take (j + 1) K) (vx ++ take (j + 1) V) (nth (p + j) (si_query x) []).

Lemma lengths : length kx = length vx ∧ length V = m ∧ length kx' = (length kx + m)%nat.
Proof.
  destruct Hs as (Hl & _). destruct Hs' as (Hl' & _). unfold kx', vx' in Hl' |- *. rewrite !length_app in *.
  unfold m. lia.
Qed.

Lemma one_query_row i :
  (i < m)%nat → one_query x q_seq i = mkQuery true [1%nat; NQ; d] (nth (p + i) (si_query x) []).
Proof.
  intros Hi. unfold one_query. destruct Hq as (-> & -> & ->). destruct Hrows as [Hr _].
  assert (length q_seq = m) as Hl by (unfold q_seq; rewrite slice_length; lia).
  replace (Z.of_nat i + 1)%Z with (Z.of_nat (i + 1)) by lia. rewrite py_slice_nat by lia.
  unfold q_seq. rewrite slice_within by lia. rewrite Nat.add_assoc, (slice_one (p + i) _ []) by lia.
  cbn [length concat]. by rewrite app_nil_r.
Qed.

(** The prefix of the stream after [i] tokens of the request. *)
Lemma prefix_stream i :
  (i ≤ m)%nat →
  kx ++ take i K = take (length kx + i) kx' ∧ vx ++ take i V = take (length kx + i) vx'
  ∧ stream_ok (kx ++ take i K) (vx ++ take i V) ∧ length (kx ++ take i K) = (length kx + i)%nat.
Proof.
  intros Hi. destruct lengths as (L1 & L2 & L3). unfold kx', vx'. rewrite take_app_add, L1, take_app_add.
  split; [done|]. split; [done|]. split.
  - rewrite <-(take_app_add vx), <-L1, <-(take_app_add kx). by apply stream_take.
  - rewrite length_app, length_take. unfold m in Hi. lia.
Qed.

Lemma final_cache :
  pages_in bt kx' vx' cF ∧ cache_ok cF ∧ table_ok h d (length kx') bt cF.
Proof.
  pose proof Hs' as (Hl & _). destruct lengths as (_ & _ & L3). split; [by apply grown_pages_in|].
  split; [apply grown_cache_ok; [done|lia|done|done]|]. eapply table_ok_shape; [| |exact Ht]; [done|].
  apply write_pages_length.
Qed.

(** The decode of token [i] over a cache that holds its prefix. *)
Lemma token_attend i o rts' c' ws out' :
  (i < m)%nat → table_ok h d (length kx') bt c' → cache_ok c' →
  pages_in bt (kx ++ take (i + 1) K) (vx ++ take (i + 1) V) c' → workspaces_ok ws →
  rts' !! id = Some o → ob_rt o = runtime_of (kx ++ take (i + 1) K) (vx ++ take (i + 1) V) →
  length out' = length out → (∀ j, (j < i)%nat → out' !! (p + j)%nat = Some (token_row j)) →
  ∃ ws' out'', workspaces_ok ws' ∧ length out'' = length out
  ∧ (∀ j, (j < i + 1)%nat → out'' !! (p + j)%nat = Some (token_row j))
  ∧ attend impl id bt (one_query x q_seq i) (Z.of_nat p + Z.of_nat i) (mkLayer rts' c' ws out')
    = (Ok tt, mkLayer rts' c' ws' out'').
Proof.
  intros Hi Htc Hcc Hpc Hws Ho Er Hlo Hout. destruct (prefix_stream (i + 1) ltac:(lia)) as (_ & _ & Hsi & Hli).
  destruct lengths as (_ & _ & L3). rewrite one_query_row by done.
  destruct (attend_stream id bt _ _ c' (nth (p + i) (si_query x) []) (Z.of_nat p + Z.of_nat i) ws out' rts' o
              Hsi ltac:(lia)) as (ws' & Hws' & E); try done.
  - eapply table_ok_mono; [|exact Htc]. lia.
  - apply Hopen. lia.
  - exists ws'. eexists. split; [done|]. split; [|split; [|exact E]].
    + by rewrite write_rows_length.
    + intros j Hj. destruct Hrows as [_ Hr]. rewrite write_rows_lookup by lia.
      destruct (decide (j = i)) as [->|Hne].
      * destruct (Z.leb_spec (Z.of_nat p + Z.of_nat i) (Z.of_nat (p + i))); [|lia].
        destruct (Z.ltb_spec (Z.of_nat (p + i)) (Z.of_nat p + Z.of_nat i + 1)); [|lia]. cbn [andb].
        by replace (p + i - Z.to_nat (Z.of_nat p + Z.of_nat i))%nat with 0%nat by lia.
      * destruct (Z.leb_spec (Z.of_nat p + Z.of_nat i) (Z.of_nat (p + j))); [lia|]. cbn [andb]. f_equal.
        apply nth_lookup_Some. apply Hout. lia.
Qed.

(** What a request leaves; a request of several tokens leaves the buffered append
    switched off. *)
Definition request_result (row : nat → list B) (ly' : LayerState) : Prop :=
  ∃ o ws' out', ly' = mkLayer (<[id := o]> rts) cF ws' out' ∧ object_ok kx' vx' o ∧ workspaces_ok ws'
    ∧ length out' = length out ∧ (∀ j, (j < m)%nat → out' !! (p + j)%nat = Some (row j))
    ∧ ((1 < m)%nat → ob_ready o = false).

Lemma values_prefix : values_regular vx.
Proof.
  intros E1 E2. specialize (Hval E1 E2). unfold v_regular in *. unfold vx' in Hval.
  rewrite stored_app, Forall_app in Hval. apply Hval.
Qed.

(** A decode step: one buffered append, one decode. *)
Lemma single_token o ws :
  m = 1%nat → rts !! id = Some o → object_ok kx vx o → workspaces_ok ws →
  ∃ ly', forward_tokens impl x id bt q_seq k_seq v_seq (Z.of_nat p) 1 (mkLayer rts c ws out) = (Ok tt, ly')
    ∧ request_result token_row ly'.
Proof.
  intros H1 Ho Hobj Hws. destruct lengths as (L1 & L2 & L3).
  assert (length K = 1 ∧ length V = 1)%nat as [LK LV] by (split; [exact H1|by rewrite L2]).
  pose proof (input_slice k_seq K 0 1 Hk ltac:(lia) ltac:(lia)) as Hk1.
  pose proof (input_slice v_seq V 0 1 Hv ltac:(lia) ltac:(lia)) as Hv1.
  assert (slice 0 1 K = K ∧ slice 0 1 V = V) as [EK EV] by (rewrite !slice_0, !take_ge by lia; done).
  rewrite EK in Hk1. rewrite EV in Hv1.
  pose proof Hk1 as (Ek & _ & Bk). pose proof Hv1 as (Ev & _ & Bv).
  set (k1 := sx_dev _) in Ek, Bk. set (v1 := sx_dev _) in Ev, Bv.
  destruct o as [r ready buf]. pose proof Hobj as [Er _]. cbn [ob_rt] in Er. subst r.
  destruct (append_token true bt kx vx c k1 v1 ready buf) as (ready' & buf' & E & Hobj').
  - done.
  - by apply (inputs_chunk _ _ K V).
  - done.
  - done.
  - rewrite Ek. unfold t_tokens. cbn [t_rows]. fold m. by rewrite <-L3.
  - done.
  - apply values_prefix.
  - done.
  - rewrite Ek, Ev in E, Hobj'. cbn [t_rows] in E, Hobj'. fold kx' vx' cF in E, Hobj'.
    unfold forward_tokens, make_plan. cbn [Z.ltb Z.compare Pos.compare Pos.compare_cont]. unfold mret, ST_ret.
    change (Z.to_nat 1) with 1%nat. cbn [seq st_for]. rewrite st_bind_eq. unfold forward_token. rewrite st_bind_eq.
    unfold advance, keep_plan at 1, on_object. cbn [ly_runtimes]. rewrite Ho, Ecuda.
    change (sx_dev (sx_slice (Z.of_nat 0) (Z.of_nat 0 + 1) k_seq)) with k1.
    change (sx_dev (sx_slice (Z.of_nat 0) (Z.of_nat 0 + 1) v_seq)) with v1.
    unfold ly_object. cbn [ob_rt ob_ready ob_buf ly_cache]. rewrite E. unfold ly_store.
    cbn [fs_rt fs_ready fs_buf rs_runtime rs_cache ly_runtimes ly_ws ly_out]. set (o' := mkObj _ ready' buf').
    assert (kx ++ take (0 + 1) K = kx' ∧ vx ++ take (0 + 1) V = vx') as [EK' EV'] by (rewrite !take_ge by lia; done).
    destruct final_cache as (F1 & F2 & F3).
    destruct (token_attend 0 o' (<[id := o']> rts) cF ws out) as (ws' & out' & Hws' & Hlo & Hrow & Ea).
    + lia.
    + done.
    + done.
    + by rewrite EK', EV'.
    + done.
    + apply lookup_insert_eq.
    + by rewrite EK', EV'.
    + done.
    + intros j Hj. lia.
    + unfold keep_plan. change (Z.of_nat p + Z.of_nat 0)%Z with (Z.of_nat p + Z.of_nat 0)%Z. rewrite Ea.
      eexists. split; [reflexivity|]. exists o', ws', out'. split; [done|]. split; [exact Hobj'|]. split; [done|].
      split; [done|]. split; [|lia]. intros j Hj. apply Hrow. lia.
Qed.

(** ** A later chunk *)

(** The plan after step [i], and the object after [i] tokens. *)
Definition chunk_plan (i : Z) : Rabit2CausalChunkPlan := plan_of h d (stored kx) (stored vx) (stored K) (stored V) i.
Definition chunk_object (o : RtObject) (i : nat) : RtObject :=
  mkObj (runtime_of (kx ++ take i K) (vx ++ take i V)) false (ob_buf o).

Lemma stored_lengths : length (stored kx) = length (stored vx) ∧ length (stored K) = length (stored V) ∧ length (stored K) = m.
Proof. destruct lengths as (L1 & L2 & _). rewrite !stored_length, L2. done. Qed.

Lemma plan_made o ws :
  rts !! id = Some o → object_ok kx vx o →
  on_object id (on_rt (chunkplan_init bt (as_f32 (sx_dev k_seq)) (as_f32 (sx_dev v_seq)))) (mkLayer rts c ws out)
  = (Ok (chunk_plan (-1)), mkLayer (<[id := o]> rts) cF ws out).
Proof.
  intros Ho [Er _]. destruct lengths as (L1 & L2 & L3). pose proof Hs as (_ & Wk & Wv).
  destruct Hk as (Ek & WK & _). destruct Hv as (Ev & WV & _).
  assert (length K = length V) as HKV by (rewrite L2; done).
  assert (table_ok h d (length (stored kx) + m) bt c) as Ht' by (rewrite stored_length, <-L3; done).
  unfold on_object. cbn [ly_runtimes]. rewrite Ho. unfold on_rt, ly_object. cbn [fs_rt ly_cache].
  rewrite Er, <-(rt_of_stream bt) by done. unfold chunkplan_init.
  pose proof (inputs_chunk _ _ K V Hk Hv HKV) as (C1 & C2 & C3 & C4 & C5). cbn [fst snd] in *.
  rewrite plan_init_of; try done.
  - rewrite Ek, Ev. cbn [t_rows]. rewrite <-!stored_app. fold kx' vx'. rewrite (rt_of_grown bt kx vx), (rt_of_grown bt kx' vx').
    unfold ly_store. cbn [fs_rt fs_ready fs_buf rs_runtime rs_cache ly_runtimes ly_ws ly_out]. rewrite <-Er.
    fold cF. by destruct o.
  - by apply stage4b4_writer_spec.
  - apply stored_lengths.
  - by apply stored_wf.
  - by apply stored_wf.
  - rewrite Ek. exact Hm.
  - rewrite Ek. exact Ht'.
Qed.

Lemma plan_step i o ws' (out' : list (list B)) :
  (i < m)%nat →
  on_plan id (apply_step (Z.of_nat i)) (chunk_plan (Z.of_nat i - 1), mkLayer (<[id := chunk_object o i]> rts) cF ws' out')
  = (Ok tt, (chunk_plan (Z.of_nat i), mkLayer (<[id := chunk_object o (i + 1)]> rts) cF ws' out')).
Proof.
  intros Hi. destruct stored_lengths as (S1 & S2 & S3). unfold on_plan. cbn [ly_runtimes ly_cache]. rewrite lookup_insert_eq.
  unfold chunk_plan. rewrite (apply_step_of h d bt c) by (done || lia).
  assert (rs_runtime (rt_of h d bt c (stored kx ++ take (i + 1) (stored K)) (stored vx ++ take (i + 1) (stored V)))
          = runtime_of (kx ++ take (i + 1) K) (vx ++ take (i + 1) V)) as ->.
  { assert (∀ rows : tokens, take (i + 1) (stored rows) = stored (take (i + 1) rows)) as Et
      by (intros; unfold stored, map3; by rewrite firstn_map).
    by rewrite !Et, <-!stored_app. }
  unfold ly_store. cbn [fs_rt fs_ready fs_buf rs_runtime rs_cache ly_runtimes ly_ws ly_out ob_ready ob_buf chunk_object].
  by rewrite insert_insert_eq.
Qed.

Lemma chunk_object_0 o : object_ok kx vx o → ob_ready o = false → chunk_object o 0 = o.
Proof. intros [Er _] Hr. unfold chunk_object. rewrite !take_0, !app_nil_r, <-Er, <-Hr. by destruct o. Qed.

(** The layer after [i] tokens of the chunk. *)
Definition chunk_state (o : RtObject) (i : nat) (s : Rabit2CausalChunkPlan * LayerState) : Prop :=
  ∃ ws' out', s = (chunk_plan (Z.of_nat i - 1), mkLayer (<[id := chunk_object o i]> rts) cF ws' out')
    ∧ workspaces_ok ws' ∧ length out' = length out ∧ (∀ j, (j < i)%nat → out' !! (p + j)%nat = Some (token_row j)).

Lemma chunk_state_0 o ws :
  object_ok kx vx o → ob_ready o = false → workspaces_ok ws →
  chunk_state o 0 (chunk_plan (-1), mkLayer (<[id := o]> rts) cF ws out).
Proof.
  intros Hobj Hr Hws. exists ws, out. rewrite chunk_object_0 by done. split; [done|]. split; [done|]. split; [done|].
  intros j Hj. lia.
Qed.

Lemma chunk_state_end o s : chunk_state o m s → request_result token_row s.2.
Proof.
  intros (ws' & out' & -> & Hws' & Hlo & Hout). exists (chunk_object o m), ws', out'. split; [done|]. split; [|by repeat split].
  unfold chunk_object. rewrite !take_ge by (unfold m; destruct lengths as (_ & L2 & _); unfold m in L2; lia). by split.
Qed.

(** The reference path: a causal plan, then one step and one decode per token. *)
Lemma chunk_tokens o ws :
  (1 < m)%nat → rts !! id = Some o → object_ok kx vx o → ob_ready o = false → workspaces_ok ws →
  ∃ ly', forward_tokens impl x id bt q_seq k_seq v_seq (Z.of_nat p) (Z.of_nat m) (mkLayer rts c ws out) = (Ok tt, ly')
    ∧ request_result token_row ly'.
Proof.
  intros H1 Ho Hobj Hready Hws. destruct final_cache as (F1 & F2 & F3). pose proof Hs' as (Hl' & _).
  destruct lengths as (_ & _ & L3).
  assert (make_plan id bt k_seq v_seq (Z.of_nat m) (mkLayer rts c ws out)
          = (Ok (Some (chunk_plan (-1))), mkLayer (<[id := o]> rts) cF ws out)) as Hplan.
  { unfold make_plan. destruct (Z.ltb_spec 1 (Z.of_nat m)) as [_|?]; [|lia]. by rewrite st_bind_eq, (plan_made o ws) by done. }
  unfold forward_tokens. rewrite Hplan, Nat2Z.id.
  pose (I i (s : option Rabit2CausalChunkPlan * LayerState) := ∃ pl, s.1 = Some pl ∧ chunk_state o i (pl, s.2)).
  destruct (st_for_inv (forward_token impl x id bt q_seq k_seq v_seq (Z.of_nat p)) I m
    (Some (chunk_plan (-1)), mkLayer (<[id := o]> rts) cF ws out)) as ([pl' ly'] & E & pl & _ & Hend).
  - intros i [pl ly] Hi (pl1 & Epl & ws1 & out1 & [= -> ->] & Hws1 & Hlo1 & Hout1). cbn [fst] in Epl. subst pl.
    unfold forward_token. rewrite st_bind_eq.
    unfold advance. rewrite plan_step by done. destruct (prefix_stream (i + 1) ltac:(lia)) as (P1 & P2 & P3 & P4).
    destruct (token_attend i (chunk_object o (i + 1)) (<[id := chunk_object o (i + 1)]> rts) cF ws1 out1)
      as (ws2 & out2 & Hws2 & Hlo2 & Hout2 & Ea); try done.
    + rewrite P1, P2. apply prefix_pages_in; [done|lia|done].
    + apply lookup_insert_eq.
    + unfold keep_plan. rewrite Ea. eexists. split; [reflexivity|]. exists (chunk_plan (Z.of_nat i)). split; [done|].
      exists ws2, out2. split; [|done]. cbn [snd]. do 2 f_equal. lia.
  - exists (chunk_plan (-1)). split; [done|]. by apply chunk_state_0.
  - rewrite E. eexists. split; [reflexivity|]. by apply chunk_state_end in Hend.
Qed.

(** ** The batched paths *)

Lemma closed_after_plan i s : (i < m)%nat → rabit2_chunk_closed_pages_after (chunk_plan s) i = closed_count (length kx + (i + 1)).
Proof.
  intros Hi. destruct stored_lengths as (S1 & S2 & S3). destruct (plan_windows (stored kx) (stored K) i) as (W1 & _); [lia|].
  rewrite length_app, length_take, stored_length, S3, Nat.min_l in W1 by lia. rewrite <-W1.
  unfold rabit2_chunk_closed_pages_after, chunk_plan, plan_of. cbn [cp_init_recent_len cp_init_open_len cp_init_closed].
  by rewrite stored_length.
Qed.

(** The segments of the query [row] of token [i]. *)
Definition query_segments (i : nat) (row : list B) : nat → f32 * f32 * (nat → f32) :=
  let kxi := stored (kx ++ take (i + 1) K) in
  let vxi := stored (vx ++ take (i + 1) V) in
  decode_segment NQ h d (tail_block (open_rows kxi)) (state_pages h g (kx ++ take (i + 1) K) (vx ++ take (i + 1) V))
    (tail_pair h g (open_rows kxi) (open_rows vxi) (recent_rows kxi) (recent_rows vxi)) (q_load row d) scale.

Lemma segs_mem_room n D' R k mem :
  (k ≤ n)%nat → partials_room n 1 D' mem → partials_room n 1 D' (segs_mem D' R k mem).
Proof.
  intros Hkn (H1 & H2 & H3). unfold partials_room, segs_mem. cbn [pm pl pacc].
  rewrite !store_block_length by (rewrite ?tab_length, ?concat_tab_length; nia). done.
Qed.

Lemma chunk_runtime_closed i :
  (i < m)%nat →
  rt_closed_pages (runtime_of (kx ++ take (i + 1) K) (vx ++ take (i + 1) V)) = closed_count (length kx + (i + 1))
  ∧ length (state_pages h g (kx ++ take (i + 1) K) (vx ++ take (i + 1) V)) = closed_count (length kx + (i + 1)).
Proof.
  intros Hi. destruct (prefix_stream (i + 1) ltac:(lia)) as (_ & _ & (Hl & _) & P4). split.
  - unfold runtime_of. by rewrite rt_closed_of, stored_length, P4.
  - unfold state_pages. rewrite length_map, <-P4. by apply stream_pages_length.
Qed.

(** The tail of token [i] behind its closed pages, whatever the memory around. *)
Lemma chunk_emit i row ws' (closed := closed_count (length kx + (i + 1))) :
  (i < m)%nat → workspaces_ok ws' →
  ∃ ws'', workspaces_ok ws'' ∧ ∀ mem, partials_room (closed + 1) NQ d mem →
    _rabit2_stage4d3_4_emit_tail_partial (ai_device_stream impl) row NQ d
      (runtime_of (kx ++ take (i + 1) K) (vx ++ take (i + 1) V)) closed scale
      (segs_mem d (query_segments i row) (closed * NQ) mem) ws'
    = (Ok (segs_mem d (query_segments i row) ((closed + 1) * NQ) mem), ws'').
Proof.
  intros Hi Hws'. destruct (prefix_stream (i + 1) ltac:(lia)) as (_ & _ & (Hl & Wk & Wv) & P4).
  assert (0 < length (kx ++ take (i + 1) K))%nat as Hne by lia.
  destruct (state_facts h g NQ _ _ Hgeo Hl Hne Wk Wv HQ) as (Hh & Hg & _).
  destruct (state_tail_shape h g NQ _ _ Hgeo Hl Hne Wk Wv HQ) as (T1 & T2 & T3 & T4).
  destruct (chunk_runtime_closed i Hi) as [_ Ep].
  destruct (emit_in_force_ok h g NQ _ _ _ _ Hh Hg HQ T1 T2 T3 T4 row scale
    (state_pages h g (kx ++ take (i + 1) K) (vx ++ take (i + 1) V))
    (runtime_of (kx ++ take (i + 1) K) (vx ++ take (i + 1) V)) eq_refl eq_refl eq_refl eq_refl (ai_device_stream impl) ws' Hws')
    as (ws'' & Hws'' & _ & He); [apply Hopen; lia|].
  rewrite Ep in He. exists ws''. split; [exact Hws''|]. exact He.
Qed.

Section Tile.
Variables (o : RtObject) (i0 n closed : nat) (q_tile : list (list B)) (base : nat → Partials) (out' : list (list B)).
Let S := ((closed + 1) * NQ)%nat.
Hypotheses (Hn : (i0 + n ≤ m)%nat) (Hclosed : ∀ j, (j < n)%nat → closed_count (length kx + (i0 + j + 1)) = closed)
  (Hbase : ∀ j, (j < n)%nat → partials_room S 1 d (base j)).

(** Query [j] has its closed pages, or all its segments. *)
Definition view_upto (j0 j : nat) (mem : Partials) : Prop :=
  tile_view j S d mem
  = segs_mem d (query_segments (i0 + j) (nth j q_tile [])) ((if (j <? j0)%nat then closed + 1 else closed) * NQ) (base j).

Lemma tile_queries_ok k : ∀ j0 mem ws',
  (j0 + k = n)%nat → workspaces_ok ws' → partials_room n S d mem → (∀ j, (j < n)%nat → view_upto j0 j mem) →
  ∃ mem' ws'', tile_queries impl x id q_tile i0 closed (seq j0 k) mem
      (chunk_plan (Z.of_nat (i0 + j0) - 1), mkLayer (<[id := chunk_object o (i0 + j0)]> rts) cF ws' out')
    = (Ok mem', (chunk_plan (Z.of_nat (i0 + n) - 1), mkLayer (<[id := chunk_object o (i0 + n)]> rts) cF ws'' out'))
    ∧ workspaces_ok ws'' ∧ partials_room n S d mem' ∧ (∀ j, (j < n)%nat → view_upto n j mem').
Proof.
  induction k as [|k IH]; intros j0 mem ws' Hj0 Hws' Hm' Hv'.
  - replace j0 with n in * by lia. exists mem, ws'. by split.
  - cbn [seq tile_queries]. rewrite st_bind_eq, plan_step by lia. rewrite st_bind_eq. cbn [st_get].
    rewrite st_bind_eq. unfold st_lift, get_runtime. cbn [snd ly_runtimes]. rewrite lookup_insert_eq.
    cbn [chunk_object ob_rt]. destruct (chunk_runtime_closed (i0 + j0) ltac:(lia)) as [-> _].
    rewrite (Hclosed j0) by lia. rewrite st_bind_eq. unfold st_raise_if, st_lift. rewrite Nat.eqb_refl. cbn [negb raise_if].
    destruct (chunk_emit (i0 + j0) (nth j0 q_tile []) ws' ltac:(lia) Hws') as (ws1 & Hws1 & He).
    rewrite (Hclosed j0) in He by lia. destruct Hq as (_ & -> & ->). fold S.
    pose proof (Hv' j0 ltac:(lia)) as Hvj. unfold view_upto in Hvj. rewrite Nat.ltb_irrefl in Hvj.
    rewrite st_bind_eq. unfold on_workspaces. cbn [ly_ws]. rewrite Hvj, He.
    2: { specialize (Hbase j0 ltac:(lia)). unfold partials_room, S in *. rewrite !Nat.mul_1_r in Hbase. done. }
    cbn [ly_runtimes ly_cache ly_out]. set (v := segs_mem _ _ _ (base j0)).
    destruct (set_view_ok n S d j0 v mem) as (R1 & R2 & R3); [lia|done|apply segs_mem_room; [done|apply Hbase; lia]|].
    replace (Z.of_nat (i0 + j0)) with (Z.of_nat (i0 + Datatypes.S j0) - 1)%Z by lia.
    replace (i0 + j0 + 1)%nat with (i0 + Datatypes.S j0)%nat by lia.
    apply IH; [lia|done|done|]. intros j Hj. unfold view_upto. destruct (decide (j = j0)) as [->|Hne].
    + rewrite R2, (proj2 (Nat.ltb_lt j0 (Datatypes.S j0))) by lia. done.
    + rewrite R3 by done. rewrite (Hv' j Hj). destruct (Nat.ltb_spec j j0), (Nat.ltb_spec j (Datatypes.S j0)); (done || lia).
Qed.
End Tile.

(** Every row of the queries has the width of the heads. *)
Hypothesis (Hqw : Forall (λ r, length r = (NQ * d)%nat) (si_query x)).

Section Tiles.
Variable scan : Rabit2SingleSequenceRuntime → nat → list B → PageCache → nat → Partials → Partials.
Hypotheses (H4 : rabit2_tile32_supported NQ h = true)
  (Hscan : ∀ runtime, rt_num_kv_heads runtime = h → rt_head_size_v runtime = d → rt_layout runtime = layout_of GROUP h d d →
     scan_spec h g NQ bt cF scale runtime (λ n q closed, scan runtime n q cF closed)).

Lemma forward_tile_ok o closed_after start stop closed s :
  (∀ i, (i < m)%nat → nth i closed_after 0%nat = closed_count (length kx + (i + 1))) → length closed_after = m →
  tile_ok closed_after (start, stop, closed) → chunk_state o start s →
  ∃ s', forward_tile impl scan x id q_seq (Z.of_nat p) (start, stop, closed) s = (Ok tt, s') ∧ chunk_state o stop s'.
Proof.
  intros Hca Hlen ((Hss & Hsm) & _ & Hnth & _) (ws1 & out1 & -> & Hws1 & Hlo1 & Hout1). rewrite Hlen in Hsm.
  destruct final_cache as (F1 & F2 & F3). pose proof Hgeo as (_ & _ & H64). destruct Hrows as [Hr1 Hr2].
  set (n := (stop - start)%nat). set (q_tile := slice start stop q_seq).
  assert (length q_tile = n) as Hqt by (unfold q_tile, q_seq; rewrite !slice_length; lia).
  assert (∀ j, (j < n)%nat → nth j q_tile [] = nth (p + (start + j)) (si_query x) []) as Hqn.
  { intros j Hj. unfold q_tile, q_seq. rewrite nth_slice by (unfold n in Hj; lia). by rewrite nth_slice by (unfold n in Hj; lia). }
  assert (Forall (λ r : list B, length r = (NQ * d)%nat) q_tile) as Hqf
    by (unfold q_tile, q_seq, slice; by do 4 (apply Forall_take || apply Forall_drop)).
  assert (∀ j, (j < n)%nat → closed_count (length kx + (start + j + 1)) = closed) as Hcl.
  { intros j Hj. rewrite <-(Hnth (start + j)%nat) by (unfold n in Hj; lia). symmetry. apply Hca. unfold n in Hj. lia. }
  unfold forward_tile. fold n q_tile. rewrite st_bind_eq. cbn [st_get]. rewrite st_bind_eq.
  unfold st_lift, get_runtime. cbn [snd ly_runtimes ly_cache]. rewrite lookup_insert_eq. cbn [chunk_object ob_rt].
  set (runtime := runtime_of (kx ++ take start K) (vx ++ take start V)).
  pose proof Hq as (_ & Eq1 & Eq2). rewrite Eq1, Eq2. set (S := ((closed + 1) * NQ)%nat).
  rewrite <-(Nat.mul_assoc n (closed + 1) NQ). fold S. set (mem0 := mkPartials _ _ _).
  assert (partials_room n S d mem0) as Hm0.
  { unfold partials_room, mem0. cbn [pm pl pacc]. by rewrite !empty_float_length. }
  set (mem1 := if (closed =? 0)%nat then mem0 else scan runtime n (concat q_tile) cF closed mem0).
  assert (partials_room n S d mem1) as Hm1.
  { unfold mem1. destruct (closed =? 0)%nat; [done|]. rewrite <-Hqt.
    apply (Hscan runtime eq_refl eq_refl eq_refl q_tile closed mem0); [done|]. by rewrite Hqt. }
  assert (∀ j, (j < n)%nat → view_upto start closed q_tile (λ j, tile_view j S d mem0) 0 j mem1) as Hv1.
  { intros j Hj. unfold view_upto. cbn [Nat.ltb Nat.leb]. destruct (prefix_stream (start + j + 1)) as (P1 & P2 & (Pl & _) & P4); [unfold n in Hj; lia|].
    unfold mem1, query_segments. rewrite <-Hqt.
    apply (scan_view_segs h g NQ) with (runtime := runtime) (bt := bt) (cache := cF)
      (scan := λ n q closed, scan runtime n q cF closed)
      (P := stream_pages (kx ++ take (start + j + 1) K) (vx ++ take (start + j + 1) V)); try done.
    - apply (state_facts h g NQ kx' vx' Hgeo); [apply Hs'|destruct lengths; lia|apply Hs'|apply Hs'|done].
    - apply (state_facts h g NQ kx' vx' Hgeo); [apply Hs'|destruct lengths; lia|apply Hs'|apply Hs'|done].
    - by apply Hscan.
    - destruct (lookup_lt_is_Some_2 q_tile j) as [r Hr]; [lia|]. rewrite Hr. by rewrite (nth_lookup_Some _ _ [] r Hr).
    - rewrite <-(Hcl j Hj), <-P4. by apply stream_pages_length.
    - by rewrite Hqt.
    - destruct F3 as (_ & _ & _ & Hw). exact Hw.
    - rewrite P1, P2. destruct lengths as (_ & _ & L3).
      rewrite stream_pages_length; [|by rewrite <-P1, <-P2].
      apply prefix_pages_in; [apply Hs'|rewrite L3; unfold n in Hj; lia|done]. }
  destruct (tile_queries_ok o start n closed q_tile (λ j, tile_view j S d mem0) out1 ltac:(unfold n; lia) Hcl
    (λ j Hj, tile_view_room n S d j mem0 Hj Hm0) n 0 mem1 ws1 eq_refl Hws1 Hm1 Hv1) as (mem2 & ws2 & E & Hws2 & Hm2 & Hv2).
  rewrite Nat.add_0_r in E. rewrite st_bind_eq, E. clear E.
  replace (start + n)%nat with stop by (unfold n; lia).
  unfold keep_plan, st_modify. eexists. split; [reflexivity|]. cbn [ly_runtimes ly_cache ly_ws ly_out ly_set_out].
  exists ws2. eexists. split; [reflexivity|]. split; [done|]. split; [by rewrite write_rows_length|].
  unfold S. rewrite (tile_reduce_rows h g NQ scale n mem2 closed (λ j, tile_view j S d mem0)
    (λ j, state_pages h g (kx ++ take (start + j + 1) K) (vx ++ take (start + j + 1) V))
    (λ j, tail_block (open_rows (stored (kx ++ take (start + j + 1) K))))
    (λ j, tail_pair h g (open_rows (stored (kx ++ take (start + j + 1) K))) (open_rows (stored (vx ++ take (start + j + 1) V)))
            (recent_rows (stored (kx ++ take (start + j + 1) K))) (recent_rows (stored (vx ++ take (start + j + 1) V))))
    (λ j, nth j q_tile [])).
  - intros j Hj. rewrite write_rows_lookup by lia.
    destruct (Z.leb_spec (Z.of_nat p + Z.of_nat start) (Z.of_nat (p + j))); cbn [andb].
    + destruct (Z.ltb_spec (Z.of_nat (p + j)) (Z.of_nat p + Z.of_nat stop)); [|lia]. f_equal.
      rewrite tab_nth by (unfold n; lia). rewrite Hqn by (unfold n; lia).
      replace (start + (p + j - Z.to_nat (Z.of_nat p + Z.of_nat start)))%nat with j by lia. done.
    + f_equal. apply nth_lookup_Some. apply Hout1. lia.
  - intros j Hj. split; [|split].
    + destruct (chunk_runtime_closed (start + j)) as [_ ->]; [unfold n in Hj; lia|]. by apply Hcl.
    + by apply (tile_view_room n).
    + specialize (Hv2 j Hj). unfold view_upto in Hv2. rewrite (proj2 (Nat.ltb_lt j n) Hj) in Hv2. exact Hv2.
Qed.

Lemma forward_tiles_ok o ws :
  rts !! id = Some o → object_ok kx vx o → ob_ready o = false → workspaces_ok ws →
  ∃ ly', forward_tiles impl scan x id bt q_seq k_seq v_seq (Z.of_nat p) (mkLayer rts c ws out) = (Ok tt, ly')
    ∧ request_result token_row ly'.
Proof.
  intros Ho Hobj Hready Hws. unfold forward_tiles. rewrite st_bind_eq, (plan_made o ws) by done.
  unfold run_tiles. destruct Hrows as [Hr1 Hr2].
  assert (length q_seq = m) as -> by (unfold q_seq; rewrite slice_length; lia).
  set (closed_after := map _ (seq 0 m)).
  assert (length closed_after = m) as Hlen by (unfold closed_after; by rewrite length_map, length_seq).
  destruct (tiles_loop (forward_tile impl scan x id q_seq (Z.of_nat p)) (chunk_state o) closed_after
              (chunk_plan (-1), mkLayer (<[id := o]> rts) cF ws out)) as ([pl ly'] & E & Hend).
  - intros start stop closed s Ht' Hst. apply (forward_tile_ok o closed_after); try done.
    intros i Hi. unfold closed_after. rewrite nth_tabulate by done. by apply closed_after_plan.
  - by apply chunk_state_0.
  - rewrite E. exists ly'. split; [done|]. rewrite Hlen in Hend. by apply chunk_state_end in Hend.
Qed.
End Tiles.

(** The environment selects an implementation, with a query block if it needs
    one, and the profiler accepts it. *)
Definition environ_ok : Prop :=
  (∃ name, rabit2_stage3c_impl = Ok name ∧ (name = "shared_decode" → ∃ qb, rabit2_shared_decode_query_block = Ok qb))
  ∧ ∀ q_len, ∃ r, rabit2_stage3c_profile_scope q_len = Ok r.

(** A batched path serves the chunk, or does not apply and touches nothing. *)
Definition batched_result (ly : LayerState) (res : result bool * LayerState) : Prop :=
  ∃ handled ly', res = (Ok handled, ly') ∧ if handled : bool then request_result token_row ly' else ly' = ly.

Lemma batched_applies_heads o : object_ok kx vx o → batched_applies x (ob_rt o) q_seq = true → rabit2_tile32_supported NQ h = true.
Proof.
  intros [-> _] H. unfold batched_applies in H. destruct Hq as (_ & Eq & _). rewrite Eq in H.
  apply negb_true_iff, orb_false_iff in H as [_ H]. by apply negb_false_iff in H.
Qed.

Lemma tile32_serves o ws :
  rts !! id = Some o → object_ok kx vx o → ob_ready o = false → workspaces_ok ws →
  let ly := mkLayer rts c ws out in
  batched_result ly (rabit2_stage3c_forward_tile32 impl x id bt q_seq k_seq v_seq (Z.of_nat p) ly).
Proof.
  intros Ho Hobj Hready Hws ly. unfold rabit2_stage3c_forward_tile32. rewrite st_bind_eq. cbn [st_get].
  rewrite st_bind_eq. unfold st_lift, get_runtime. subst ly. cbn [ly_runtimes]. rewrite Ho.
  destruct (batched_applies x (ob_rt o) q_seq) eqn:Eb; cbn [negb]; [|by eexists false, _].
  pose proof (batched_applies_heads o Hobj Eb) as H4. pose proof Hq as (_ & Eq1 & Eq2). rewrite Eq1, Eq2.
  destruct (state_facts h g NQ kx' vx' Hgeo) as (Hh & Hg & _); [apply Hs'|destruct lengths; lia|apply Hs'|apply Hs'|done|].
  pose (scan := λ runtime n (q_tile : list B) kv_cache closed,
    tile32_closed_pages runtime n NQ d q_tile kv_cache bt closed (ai_scale impl)).
  destruct (forward_tiles_ok scan H4
    (λ r E1 E2 E3, tile32_scan_spec h g NQ Hh Hg HQ H4 bt cF (ai_scale impl) r E1 E2 E3) o ws Ho Hobj Hready Hws)
    as (ly' & E & Hres).
  exists true, ly'. split; [|exact Hres]. rewrite st_bind_eq. fold scan. by rewrite E.
Qed.

Lemma shared_serves qb o ws :
  rabit2_shared_decode_query_block = Ok qb →
  rts !! id = Some o → object_ok kx vx o → ob_ready o = false → workspaces_ok ws →
  let ly := mkLayer rts c ws out in
  batched_result ly (rabit2_stage3c_forward_shared_decode impl x id bt q_seq k_seq v_seq (Z.of_nat p) ly).
Proof.
  intros Hqb Ho Hobj Hready Hws ly. unfold rabit2_stage3c_forward_shared_decode. rewrite st_bind_eq. cbn [st_get].
  rewrite st_bind_eq. unfold st_lift, get_runtime. subst ly. cbn [ly_runtimes]. rewrite Ho.
  destruct (batched_applies x (ob_rt o) q_seq) eqn:Eb; cbn [negb]; [|by eexists false, _].
  pose proof (batched_applies_heads o Hobj Eb) as H4. pose proof Hq as (_ & Eq1 & Eq2). rewrite Eq1, Eq2.
  destruct (state_facts h g NQ kx' vx' Hgeo) as (Hh & Hg & _); [apply Hs'|destruct lengths; lia|apply Hs'|apply Hs'|done|].
  apply query_block_positive in Hqb as Hpos.
  pose (scan := λ runtime n (q_tile : list B) kv_cache closed mem,
    (rabit2_shared_decode_closed_pages runtime n NQ d q_tile kv_cache bt closed (ai_scale impl) (Z.to_nat qb) None mem).1).
  destruct (forward_tiles_ok scan H4
    (λ r E1 E2 E3, shared_scan_spec h g NQ Hh Hg HQ H4 bt cF (ai_scale impl) r E1 E2 E3 (Z.to_nat qb) Hpos)
    o ws Ho Hobj Hready Hws) as (ly' & E & Hres).
  exists true, ly'. split; [|exact Hres]. rewrite st_bind_eq, Hqb, st_bind_eq. fold scan. by rewrite E.
Qed.

(** Whatever implementation the environment selects. *)
Lemma chunk_selected o ws :
  environ_ok → (1 < m)%nat → rts !! id = Some o → object_ok kx vx o → ob_ready o = false → workspaces_ok ws →
  ∃ ly', forward_chunk impl x id bt q_seq k_seq v_seq (Z.of_nat p) (Z.of_nat m) (mkLayer rts c ws out) = (Ok tt, ly')
    ∧ request_result token_row ly'.
Proof.
  intros [(name & En & Hqb) Hprof] H1 Ho Hobj Hready Hws. set (ly := mkLayer rts c ws out).
  unfold forward_chunk. destruct (Hprof (Z.of_nat m)) as [r Epr]. rewrite st_bind_eq. unfold st_lift. rewrite Epr.
  assert (∀ other run, batched_result ly (run ly) ∨ name ≠ other → batched_result ly (opt_in (Z.of_nat m) other run ly)) as Hopt.
  { intros other run H. unfold opt_in. destruct (Z.ltb_spec 1 (Z.of_nat m)); [|lia]. rewrite st_bind_eq. unfold st_lift.
    rewrite En. destruct (decide (name = other)); [by destruct H|by exists false, ly]. }
  rewrite st_bind_eq.
  destruct (Hopt "tile32" (rabit2_stage3c_forward_tile32 impl x id bt q_seq k_seq v_seq (Z.of_nat p)))
    as ([|] & ly1 & -> & Hres); [by left; apply (tile32_serves o)|by exists ly1|]. subst ly1.
  rewrite st_bind_eq.
  destruct (Hopt "shared_decode" (rabit2_stage3c_forward_shared_decode impl x id bt q_seq k_seq v_seq (Z.of_nat p)))
    as ([|] & ly1 & -> & Hres); [|by exists ly1|].
  - destruct (decide (name = "shared_decode")) as [E|E]; [left|by right]. destruct (Hqb E) as [qb Eqb].
    by apply (shared_serves qb o).
  - subst ly1. by apply (chunk_tokens o).
Qed.

(** The initial prompt: a bulk append, the rows of the dense attention. *)
Lemma prompt_tokens context_attention_fwd o ws :
  rts !! id = Some o → object_ok kx vx o → ob_ready o = false → workspaces_ok ws →
  ∃ ly', forward_prompt impl context_attention_fwd id bt q_seq k_seq v_seq (Z.of_nat p) (Z.of_nat (p + m))
           (mkLayer rts c ws out) = (Ok tt, ly')
    ∧ request_result (λ j, nth j (context_attention_fwd q_seq (sx_dev k_seq) (sx_dev v_seq) scale) []) ly'.
Proof.
  intros Ho [Er _] Hready Hws. destruct lengths as (L1 & L2 & L3). pose proof Hs as (_ & Wk & Wv).
  destruct Hk as (Ek & _). destruct Hv as (Ev & _).
  assert (length K = length V) as HKV by (rewrite L2; done).
  pose proof (inputs_chunk _ _ K V Hk Hv HKV) as (C1 & C2 & C3 & C4 & C5). cbn [fst snd] in *.
  unfold forward_prompt. rewrite st_bind_eq. unfold on_object. cbn [ly_runtimes]. rewrite Ho.
  unfold on_rt, ly_object. cbn [fs_rt ly_cache]. rewrite Er, <-(rt_of_stream bt) by done.
  unfold rabit2_bulk_append_exact. rewrite (bulk_append_of h d); try done.
  - rewrite Ek, Ev. cbn [t_rows]. rewrite <-!stored_app. fold kx' vx'. rewrite rt_of_grown.
    unfold ly_store, st_modify, ly_set_out. cbn [fs_rt fs_ready fs_buf rs_runtime rs_cache ly_runtimes ly_cache ly_ws ly_out].
    fold cF. eexists. split; [reflexivity|]. eexists _, ws, _. split; [reflexivity|].
    split; [split; [done|]; cbn; rewrite Hready; done|]. split; [done|]. split; [apply write_rows_length|].
    split; [|by intros _]. intros j Hj. destruct Hrows as [_ Hr]. rewrite write_rows_lookup by lia.
    destruct (Z.leb_spec (Z.of_nat p) (Z.of_nat (p + j))); [|lia].
    destruct (Z.ltb_spec (Z.of_nat (p + j)) (Z.of_nat (p + m))); [|lia]. cbn [andb].
    by replace (p + j - Z.to_nat (Z.of_nat p))%nat with j by lia.
  - by apply stage4d2_writer_spec.
  - by rewrite !stored_length.
  - by apply stored_wf.
  - by apply stored_wf.
  - rewrite Ek, stored_length. unfold t_tokens. cbn [t_rows]. fold m. by rewrite <-L3.
Qed.
End Request.
End ForwardStream.
