(* ===== verification/ForwardState.v ===== *)
(** * A forward pass over token streams

    What [_forward_rabit_kv2] computes when the scheduler's schedule is consistent:
    every request is a stream of tokens ([ForwardStream]); the runtime objects, the
    pages under the block tables and every output row are functions of the streams
    alone, whichever implementation of a later chunk the environment selects. *)

From Stdlib Require Import ZArith Lia.
From stdpp Require Import gmap strings pretty base tactics numbers list option.
From S2P Require Import Prelude Layout Torch SpecFloatTorch BitPack Meta Quant Tab Triton Decoded Page Sidecar Tail OnlineRef Runtime.
From S2P Require Import FixedTorch Bulk ChunkPlan FastAppend Attention PageAttention TailAttention TailPrep DecodeAttention.
From S2P Require Import DecodeState TileSchedule TileKernels Lifecycle Forward ForwardFrame TileState ForwardStream.

Section ForwardState.
Context `{TF : TorchFloat} {TR : TritonFloat} {TE : TorchEmpty} {TA : TritonReduce}.
Context {TFL : TorchFloatLaws TF} {TL : TritonLaws TR} {TZ : TritonZero}.
Context {B : Type} {FT : FloatType B}.
Context {EN : Environ}.
Variables (h g NQ : nat).
Let d := (g * 32)%nat.
Hypotheses (Hgeo : runtime_geometry h d) (HQ : (0 < NQ)%nat ∧ (h | NQ)%nat).
Variable impl : AttnImpl.
Hypotheses (Ecuda : ai_cuda impl = true).
Let scale := ai_scale impl.

#[local] Abbreviation stream_ok := (stream_ok h g).
#[local] Abbreviation stream_pages := (stream_pages h g).
#[local] Abbreviation pages_in := (pages_in h g).
#[local] Abbreviation object_ok := (object_ok h g).
#[local] Abbreviation values_regular := (values_regular h g).
#[local] Abbreviation open_ok := (open_ok h g).
#[local] Abbreviation input_ok := (input_ok h g).
#[local] Abbreviation token_row := (token_row h g NQ impl).
#[local] Abbreviation request_result := (request_result h g).

(** ** The streams of a layer *)

(** The tokens of each request. *)
Abbreviation Streams := (gmap string (tokens * tokens)).

(** The block table row of each request. *)
Variable tables : string → list nat.

Definition owned (id : string) (n : nat) : list nat := take (closed_count n) (tables id).

(** The layer holds the streams: for each a mirroring runtime object, and its
    pages under its block table. *)
Definition layer_ok (streams : Streams) (ly : LayerState (B := B)) : Prop :=
  cache_ok (ly_cache ly) ∧ workspaces_ok (ly_ws ly)
  ∧ ∀ id kx vx, streams !! id = Some (kx, vx) →
      stream_ok kx vx ∧ pages_in (tables id) kx vx (ly_cache ly)
      ∧ ∃ o, ly_runtimes ly !! id = Some o ∧ object_ok kx vx o.

(** The keys and values of the scheduled tokens. *)
Variables (x : StepInput (B := B)) (KEY VAL : tokens).
Variable context_attention_fwd : list (list B) → dev_tensor → dev_tensor → f32 → list (list B).

Definition stream_of (streams : Streams) (id : string) : tokens * tokens := default ([], []) (streams !! id).

(** A request of [m] tokens from row [p] appends them to its stream. *)
Definition grow (p : nat) (item : BatchItem) (streams : Streams) : Streams :=
  let '(id, q_len, _) := item in
  let m := Z.to_nat q_len in
  <[id := ((stream_of streams id).1 ++ slice p (p + m) KEY, (stream_of streams id).2 ++ slice p (p + m) VAL)]> streams.

(** Output row [p + j]: dense attention over the prompt for a first chunk, decode
    attention against the stream up to its own token otherwise. *)
Definition expected_row (p : nat) (item : BatchItem) (streams : Streams) (j : nat) : list B :=
  let '(id, q_len, context_len) := item in
  let m := Z.to_nat q_len in
  if (context_len =? 0)%Z && (1 <? q_len)%Z then
    nth j (context_attention_fwd (slice p (p + m) (si_query x))
             (sx_dev (sx_slice (Z.of_nat p) (Z.of_nat (p + m)) (si_key x)))
             (sx_dev (sx_slice (Z.of_nat p) (Z.of_nat (p + m)) (si_value x))) scale) []
  else
    token_row x (stream_of streams id).1 (stream_of streams id).2 (slice p (p + m) KEY) (slice p (p + m) VAL) p j.

(** A request the scheduler may place at index [i] and row [p] of the batch. *)
Definition item_ok (i p : nat) (streams : Streams) (c : PageCache) (item : BatchItem) : Prop :=
  let '(id, q_len, context_len) := item in
  let m := Z.to_nat q_len in
  let n := (Z.to_nat context_len + m)%nat in
  (0 < q_len)%Z ∧ (0 ≤ context_len)%Z
  ∧ length (stream_of streams id).1 = Z.to_nat context_len ∧ ((0 < context_len)%Z → is_Some (streams !! id))
  ∧ si_block_table x !! i = Some (tables id) ∧ table_ok h d n (tables id) c
  ∧ (∀ id' kx' vx', id' ≠ id → streams !! id' = Some (kx', vx') → owned id n ## owned id' (length kx'))
  ∧ (p + m ≤ length KEY)%nat
  ∧ values_regular ((stream_of streams id).2 ++ slice p (p + m) VAL)
  ∧ ∀ j, (j ≤ m)%nat → open_ok ((stream_of streams id).1 ++ take j (slice p (p + m) KEY))
                          ((stream_of streams id).2 ++ take j (slice p (p + m) VAL)).

(** A chunk after the first finds the buffered append switched off. *)
Definition flag_ok (ly : LayerState (B := B)) (item : BatchItem) : Prop :=
  (1 < item.1.2)%Z → (0 < item.2)%Z → ∀ o, ly_runtimes ly !! item.1.1 = Some o → ob_ready o = false.

(** A request of several tokens leaves it off. *)
Definition switched_off (ly : LayerState (B := B)) (item : BatchItem) : Prop :=
  (1 < item.1.2)%Z → ∀ o, ly_runtimes ly !! item.1.1 = Some o → ob_ready o = false.

Hypotheses (Hin : input_ok (si_key x) KEY ∧ input_ok (si_value x) VAL ∧ length KEY = length VAL)
  (Hqx : si_q_cuda x = true ∧ si_q_heads x = NQ ∧ si_q_dim x = d)
  (Hqrows : (length KEY ≤ length (si_query x))%nat ∧ Forall (λ r, length r = (NQ * d)%nat) (si_query x))
  (Henv : environ_ok)
  (Eimpl : ai_num_kv_heads impl = h ∧ ai_head_size impl = d).

(** A new request gets a fresh runtime, a known one keeps the runtime of its
    stream. *)
Lemma bind_stream streams ly id q_len ctx kx vx :
  layer_ok streams ly → stream_of streams id = (kx, vx) → (0 ≤ ctx)%Z →
  length kx = Z.to_nat ctx → ((0 < ctx)%Z → is_Some (streams !! id)) → flag_ok ly (id, q_len, ctx) →
  ∃ o, bind_runtime impl id ctx ly = (Ok tt, ly_set_runtimes (<[id := o]> (ly_runtimes ly)) ly)
    ∧ object_ok kx vx o ∧ stream_ok kx vx ∧ pages_in (tables id) kx vx (ly_cache ly)
    ∧ ((1 < q_len)%Z → ob_ready o = false).
Proof.
  intros (_ & _ & Hst) Es Hctx Hlen Hsome Hflag. unfold flag_ok in Hflag. cbn [fst snd] in Hflag.
  unfold bind_runtime. rewrite st_bind_eq. cbn [st_get]. destruct (Z.eqb_spec ctx 0) as [E0|E0].
  - destruct Eimpl as [-> ->]. destruct (runtime_init_of h d [] (mkCache 0 []) Hgeo) as [Ei _].
      rewrite st_bind_eq. unfold st_lift. rewrite Ei.
      eexists (mkObj _ false None). split; [reflexivity|].
      assert (kx = []) as -> by (apply nil_length_inv; rewrite Hlen, E0; done).
      assert (vx = []) as ->.
      { unfold stream_of in Es. destruct (streams !! id) as [[a b]|] eqn:Ed; cbn in Es; [|by simplify_eq].
        injection Es as -> ->. destruct (Hst id _ _ Ed) as ((Hl & _) & _). by apply nil_length_inv. }
      split; [by apply fresh_object|]. split; [by repeat split|]. split; [|done]. unfold pages_in. constructor.
  - unfold stream_of in Es. destruct (streams !! id) as [[a b]|] eqn:Ed.
      2: { by destruct (Hsome ltac:(lia)) as [? [=]]. }
      cbn in Es.
      injection Es as -> ->. destruct (Hst id _ _ Ed) as (Hs & Hp & o & Ho & Hobj). rewrite Ho. exists o.
      assert (Z.of_nat (runtime_total_tokens (ob_rt o)) = ctx) as ->.
      { destruct Hobj as [-> _]. rewrite (runtime_of_tokens h g NQ HQ) by apply Hs. lia. }
      rewrite Z.eqb_refl. split; [|split; [done|split; [done|split; [done|]]]].
    + unfold st_raise_if, st_lift. cbn [negb raise_if]. rewrite insert_id by done. by destruct ly.
    + intros H1. by apply Hflag; [|lia|].
Qed.

(** The layer after a request: its stream grew, the others are as they were. *)
Lemma grown_layer p streams ly id q_len ctx kx vx K V o ws out (m := Z.to_nat q_len) :
  layer_ok streams ly → stream_of streams id = (kx, vx) → stream_ok (kx ++ K) (vx ++ V) → (0 < length K)%nat →
  K = slice p (p + m) KEY → V = slice p (p + m) VAL →
  table_ok h d (length (kx ++ K)) (tables id) (ly_cache ly) →
  (∀ id' kx' vx', id' ≠ id → streams !! id' = Some (kx', vx') → owned id (length (kx ++ K)) ## owned id' (length kx')) →
  object_ok (kx ++ K) (vx ++ V) o → workspaces_ok ws →
  layer_ok (grow p (id, q_len, ctx) streams)
    (mkLayer (<[id := o]> (ly_runtimes ly)) (write_pages (tables id) (stream_pages (kx ++ K) (vx ++ V)) (ly_cache ly)) ws out).
Proof.
  intros (Hc & _ & Hst) Es Hs' Hm EK EV Ht Hdis Hobj Hws.
  split; [apply (grown_cache_ok h g NQ); try done; rewrite length_app; lia|]. split; [done|].
  intros id' kx' vx' Hid'. unfold grow in Hid'. fold m in Hid'. rewrite Es in Hid'. cbn [fst snd] in Hid'.
  rewrite <-EK, <-EV in Hid'. cbn [ly_runtimes ly_cache]. destruct (decide (id' = id)) as [->|Hne].
  - rewrite lookup_insert_eq in Hid'. injection Hid' as <- <-. split; [done|].
    split; [by apply grown_pages_in; [apply Hs'|]|]. exists o. by rewrite lookup_insert_eq.
  - rewrite lookup_insert_ne in Hid' by done. destruct (Hst id' _ _ Hid') as (Hs2 & Hp2 & Ho2).
    split; [done|]. split; [|by rewrite lookup_insert_ne]. apply (pages_in_frame h g NQ HQ); [apply Hs'| |done].
    by apply (Hdis id' kx' vx').
Qed.

(** One request of the batch. *)
Lemma forward_request_ok i p streams item ly :
  layer_ok streams ly → item_ok i p streams (ly_cache ly) item → flag_ok ly item →
  (p + Z.to_nat item.1.2 ≤ length (ly_out ly))%nat →
  ∃ ly', forward_request impl context_attention_fwd x i (Z.of_nat p) item ly = (Ok tt, ly')
  ∧ layer_ok (grow p item streams) ly'
  ∧ (∀ id, id ≠ item.1.1 → ly_runtimes ly' !! id = ly_runtimes ly !! id)
  ∧ pc_width (ly_cache ly') = pc_width (ly_cache ly)
  ∧ length (pc_pages (ly_cache ly')) = length (pc_pages (ly_cache ly))
  ∧ length (ly_out ly') = length (ly_out ly)
  ∧ (∀ j, (j < Z.to_nat item.1.2)%nat → ly_out ly' !! (p + j)%nat = Some (expected_row p item streams j))
  ∧ switched_off ly' item.
Proof.
  destruct item as [[id q_len] ctx]. intros (Hc & Hws & Hst) Hit Hflag Hout. cbn [fst snd] in *.
  destruct Hit as (Hq & Hctx & Hlen & Hsome & Hrow & Ht & Hdis & HpK & Hval & Hopen).
  set (m := Z.to_nat q_len) in *. set (K := slice p (p + m) KEY) in *. set (V := slice p (p + m) VAL) in *.
  destruct Hin as (HK & HV & HKV).
  assert (length K = m) as LK by (unfold K; rewrite slice_length; lia).
  assert (length V = m) as LV by (unfold V; rewrite slice_length; lia).
  assert (q_len = Z.of_nat m) as Eq by (unfold m; lia).
  destruct (stream_of streams id) as [kx vx] eqn:Es. cbn [fst snd] in *.
  pose proof (input_slice h g (si_key x) KEY p (p + m) HK ltac:(lia) ltac:(lia)) as HKs.
  pose proof (input_slice h g (si_value x) VAL p (p + m) HV ltac:(lia) ltac:(lia)) as HVs. fold K in HKs. fold V in HVs.
  set (k_seq := sx_slice _ _ (si_key x)) in *. set (v_seq := sx_slice _ _ (si_value x)) in *.
  destruct (bind_stream streams ly id q_len ctx kx vx (conj Hc (conj Hws Hst)) Es Hctx Hlen Hsome Hflag)
    as (o & Hbind & Hobj & Hs & Hp & Hready).
  assert (stream_ok (kx ++ K) (vx ++ V)) as Hs'.
  { destruct Hs as (Hl & W1 & W2), HKs as (_ & W3 & _), HVs as (_ & W4 & _).
    split; [rewrite !length_app; lia|]. by rewrite !Forall_app. }
  assert (table_ok h d (length (kx ++ K)) (tables id) (ly_cache ly)) as Ht' by (by rewrite length_app, Hlen, LK).
  assert (∃ ly', forward_request impl context_attention_fwd x i (Z.of_nat p) (id, q_len, ctx) ly = (Ok tt, ly')
    ∧ request_result id (tables id) kx vx K V p (<[id := o]> (ly_runtimes ly)) (ly_cache ly) (ly_out ly)
        (expected_row p (id, q_len, ctx) streams) ly') as (ly' & E & Hres).
  { unfold forward_request. destruct (Z.leb_spec q_len 0) as [?|_]; [lia|]. rewrite st_bind_eq.
    unfold st_raise_if, st_lift. destruct (Z.ltb_spec ctx 0) as [?|_]; [lia|]. cbn [raise_if].
    rewrite st_bind_eq, Hrow, st_bind_eq, Hbind. replace (Z.of_nat p + q_len)%Z with (Z.of_nat (p + m)) by lia.
    rewrite py_slice_nat by lia. fold k_seq v_seq. unfold ly_set_runtimes, expected_row. fold m. rewrite Es.
    cbn [fst snd]. fold K V k_seq v_seq. clearbody k_seq v_seq.
    assert (∀ j, (j ≤ length K)%nat → open_ok (kx ++ take j K) (vx ++ take j V)) as Hopen' by (by rewrite LK).
    assert (p + length K ≤ length (si_query x) ∧ p + length K ≤ length (ly_out ly))%nat as Hroom
      by (destruct Hqrows; rewrite LK; lia).
    pose proof (proj2 Hqrows) as Hwid.
    rewrite <-LK. destruct (Z.eqb_spec ctx 0) as [E0|E0], (Z.ltb_spec 1 q_len) as [E1|E1]; cbn [andb].
    - apply (prompt_tokens h g NQ Hgeo HQ impl x id (tables id) kx vx K V p) with (o := o); try done; try lia; [apply lookup_insert_eq|by apply Hready].
    - assert (q_len = 1%Z) as -> by lia. rewrite forward_chunk_one. apply (single_token h g NQ Hgeo HQ impl Ecuda x id (tables id) kx vx K V p) with (o := o);
        try done; try lia; apply lookup_insert_eq.
    - rewrite Eq, <-LK. apply (chunk_selected h g NQ Hgeo HQ impl Ecuda x id (tables id) kx vx K V p) with (o := o);
        try done; try lia; [apply lookup_insert_eq|by apply Hready].
    - assert (q_len = 1%Z) as -> by lia. rewrite forward_chunk_one. apply (single_token h g NQ Hgeo HQ impl Ecuda x id (tables id) kx vx K V p) with (o := o);
        try done; try lia; apply lookup_insert_eq. }
  exists ly'. split; [exact E|]. destruct Hres as (o' & ws' & out' & -> & Hobj' & Hws' & Hlo & Hrows & Hoff).
  cbn [ly_runtimes ly_cache ly_ws ly_out] in *. rewrite insert_insert_eq.
  split; [|split; [|split; [done|split; [apply write_pages_length|split; [done|split; [by rewrite <-LK|]]]]]].
  - apply grown_layer; try done; [lia|]. intros id' kx' vx' Hne Hid'.
    specialize (Hdis id' kx' vx' Hne Hid'). by rewrite length_app, Hlen, LK.
  - intros id' Hne. by rewrite lookup_insert_ne.
  - intros H1 o1. cbn [fst snd ly_runtimes] in *. rewrite lookup_insert_eq. intros [= <-]. apply Hoff. lia.
Qed.

(** ** The batch *)

Fixpoint grow_all (p : nat) (batch : list BatchItem) (streams : Streams) : Streams :=
  match batch with
  | [] => streams
  | item :: batch => grow_all (p + Z.to_nat item.1.2) batch (grow p item streams)
  end.

(** The requests of the batch, in order, each against the streams the previous ones
    left. *)
Fixpoint batch_ok (i p : nat) (streams : Streams) (c : PageCache) (batch : list BatchItem) : Prop :=
  match batch with
  | [] => True
  | item :: batch =>
      item_ok i p streams c item ∧ (item.1.1 ∉ batch_ids batch)
      ∧ batch_ok (S i) (p + Z.to_nat item.1.2) (grow p item streams) c batch
  end.

Fixpoint rows_ok (p : nat) (batch : list BatchItem) (streams : Streams) (out : list (list B)) : Prop :=
  match batch with
  | [] => True
  | item :: batch =>
      (∀ j, (j < Z.to_nat item.1.2)%nat → out !! (p + j)%nat = Some (expected_row p item streams j))
      ∧ rows_ok (p + Z.to_nat item.1.2) batch (grow p item streams) out
  end.

Lemma item_ok_shape i p streams c c' item :
  pc_width c' = pc_width c → length (pc_pages c') = length (pc_pages c) →
  item_ok i p streams c item → item_ok i p streams c' item.
Proof.
  destruct item as [[id q] ctx]. intros Hw Hl (H1 & H2 & H3 & H4 & H5 & H6 & H7).
  split; [done|]. split; [done|]. split; [done|]. split; [done|]. split; [done|]. split; [|done].
  by eapply table_ok_shape.
Qed.

Lemma batch_ok_shape batch i p streams c c' :
  pc_width c' = pc_width c → length (pc_pages c') = length (pc_pages c) →
  batch_ok i p streams c batch → batch_ok i p streams c' batch.
Proof.
  intros Hw Hl. revert i p streams. induction batch as [|item batch IH]; intros i p streams; [done|].
  intros (H1 & H2 & H3). split; [by eapply item_ok_shape|]. split; [done|]. by apply IH.
Qed.

Lemma batch_ok_positive batch i p streams c :
  batch_ok i p streams c batch → Forall (λ it : BatchItem, (0 < it.1.2)%Z) batch.
Proof.
  revert i p streams. induction batch as [|[[id q] ctx] batch IH]; intros i p streams; [constructor|].
  intros ((Hq & _) & _ & H). constructor; [done|]. by eapply IH.
Qed.

Lemma rows_ok_ext batch p streams out out' :
  (∀ i, (p ≤ i)%nat → out' !! i = out !! i) → rows_ok p batch streams out → rows_ok p batch streams out'.
Proof.
  revert p streams. induction batch as [|item batch IH]; intros p streams He; [done|].
  intros [H1 H2]. split; [intros j Hj; rewrite He by lia; by apply H1|]. apply IH; [|done]. intros i Hi. apply He. lia.
Qed.

Lemma query_total_nat batch :
  Forall (λ it : BatchItem, (0 < it.1.2)%Z) batch → (0 ≤ query_total batch)%Z.
Proof. induction 1 as [|it batch H _ IH]; [done|]. unfold query_total in *. cbn. lia. Qed.

Lemma forward_batch_ok batch i p streams ly :
  layer_ok streams ly → batch_ok i p streams (ly_cache ly) batch → Forall (flag_ok ly) batch →
  (Z.of_nat p + query_total batch ≤ Z.of_nat (length (ly_out ly)))%Z →
  ∃ ly', forward_batch impl context_attention_fwd x i (Z.of_nat p) batch ly = (Ok tt, ly')
  ∧ layer_ok (grow_all p batch streams) ly' ∧ rows_ok p batch streams (ly_out ly')
  ∧ (∀ id, id ∉ batch_ids batch → ly_runtimes ly' !! id = ly_runtimes ly !! id)
  ∧ pc_width (ly_cache ly') = pc_width (ly_cache ly)
  ∧ length (pc_pages (ly_cache ly')) = length (pc_pages (ly_cache ly))
  ∧ Forall (switched_off ly') batch.
Proof.
  revert i p streams ly. induction batch as [|item batch IH]; intros i p streams ly Hly Hb Hf Hout.
  { exists ly. split; [done|]. split; [done|]. split; [done|]. split; [done|]. split; [done|]. by split; [|constructor]. }
  pose proof (batch_ok_positive _ _ _ _ _ Hb) as Hpos. apply Forall_cons_iff in Hpos as [Hq Hpos].
  destruct Hb as (Hit & Hnin & Hb). apply Forall_cons_iff in Hf as [Hf1 Hf].
  assert (query_total (item :: batch) = item.1.2 + query_total batch)%Z as E by done. rewrite E in Hout.
  pose proof (query_total_nat batch Hpos) as Ht.
  destruct (forward_request_ok i p streams item ly Hly Hit Hf1 ltac:(lia))
    as (ly1 & E1 & Hly1 & Hrt & Hw & Hl & Hlo & Hrows & Hoff).
  set (p' := (p + Z.to_nat item.1.2)%nat).
  assert (Z.of_nat p + item.1.2 = Z.of_nat p')%Z as Ep by (unfold p'; lia).
  destruct (IH (S i) p' (grow p item streams) ly1) as (ly2 & E2 & Hly2 & Hrows2 & Hrt2 & Hw2 & Hl2 & Hoff2).
  - done.
  - by eapply batch_ok_shape; [| |exact Hb].
  - apply List.Forall_forall. intros it Hit' H1 H2 o Ho. rewrite List.Forall_forall in Hf.
    apply (Hf it Hit' H1 H2). rewrite <-Hrt; [done|]. intros Heq. apply Hnin.
    rewrite <-Heq. apply list_elem_of_In, in_map_iff. by exists it.
  - rewrite Hlo. lia.
  - exists ly2. cbn [forward_batch]. rewrite st_bind_eq, E1, Ep. split; [done|]. split; [done|].
    split; [|split; [|split; [congruence|split; [congruence|]]]].
    2: { intros id Hid. unfold batch_ids in Hid. cbn [map] in Hid. apply not_elem_of_cons in Hid as [H1 H2].
         rewrite Hrt2 by done. by apply Hrt. }
    2: { constructor; [|done]. intros H1 o. rewrite Hrt2 by done. by apply Hoff. }
    split; [|done]. intros j Hj. rewrite <-Hrows by done.
    pose proof (forward_batch_at (batch_ids batch) (concat (si_block_table x)) (Z.of_nat p')
      (Z.of_nat p' + query_total batch) ltac:(lia) impl context_attention_fwd x batch (S i) (Z.of_nat p') ly1)
      as (_ & _ & _ & Ho).
    + apply List.Forall_forall. intros it Hit'. rewrite List.Forall_forall in Hpos. split; [by apply Hpos|].
      apply list_elem_of_In, in_map_iff. by exists it.
    + intros k row Hrow b Hbr. apply list_elem_of_In, in_concat. exists row. split; [|by apply list_elem_of_In].
      apply list_elem_of_In. by eapply list_elem_of_lookup_2.
    + lia.
    + lia.
    + rewrite E2 in Ho. apply Ho. lia.
Qed.

(** The schedule is consistent with the layer. *)
Definition schedule_ok (batch : list BatchItem) (streams : Streams) (ly : LayerState) : Prop :=
  forward_guards impl x = Ok tt ∧ batch ≠ []
  ∧ length (si_query_start_loc x) = (length batch + 1)%nat ∧ query_total batch = si_num_actual_tokens x
  ∧ (si_num_actual_tokens x ≤ Z.of_nat (length (ly_out ly)))%Z
  ∧ layer_ok streams ly ∧ batch_ok 0 0 streams (ly_cache ly) batch ∧ Forall (flag_ok ly) batch.

Lemma schedule_served batch streams ly (streams' := grow_all 0 batch streams) :
  schedule_ok batch streams ly →
  ∃ ly', _forward_rabit_kv2 impl context_attention_fwd batch x ly = (Ok tt, ly')
  ∧ layer_ok streams' ly' ∧ rows_ok 0 batch streams (ly_out ly')
  ∧ (∀ id kx vx, streams' !! id = Some (kx, vx) →
       ∃ o, ly_runtimes ly' !! id = Some o ∧ runtime_total_tokens (ob_rt o) = length kx)
  ∧ (∀ id, id ∉ batch_ids batch → ly_runtimes ly' !! id = ly_runtimes ly !! id)
  ∧ pc_width (ly_cache ly') = pc_width (ly_cache ly)
  ∧ length (pc_pages (ly_cache ly')) = length (pc_pages (ly_cache ly))
  ∧ Forall (switched_off ly') batch.
Proof.
  intros (Hg & Hne & Hqs & Htot & Hout & Hly & Hb & Hf).
  destruct (forward_batch_ok batch 0 0 streams ly Hly Hb Hf) as (ly' & E & Hly' & Hrows & Hrest); [lia|].
  exists ly'. split; [|split; [done|split; [done|split; [|exact Hrest]]]].
  - unfold _forward_rabit_kv2. rewrite st_bind_eq. unfold st_lift. rewrite Hg.
    pose proof (batch_ok_positive _ _ _ _ _ Hb) as Hpos. destruct batch as [|item batch]; [done|].
    apply Forall_cons_iff in Hpos as [Hq Hpos]. pose proof (query_total_nat batch Hpos) as Ht.
    assert (query_total (item :: batch) = item.1.2 + query_total batch)%Z as Eq by done.
    destruct (Z.leb_spec (si_num_actual_tokens x) 0) as [?|_]; [lia|]. rewrite st_bind_eq. unfold checked_batch.
    by rewrite Hqs, Nat.eqb_refl, Htot, Z.eqb_refl.
  - intros id kx vx Hid. destruct Hly' as (_ & _ & H). destruct (H id kx vx Hid) as ((Hl & _) & _ & o & Ho & Er & _).
    exists o. split; [done|]. rewrite Er. by apply (runtime_of_tokens h g NQ HQ).
Qed.

(** Two outputs with the expected rows agree on the scheduled tokens. *)
Lemma rows_ok_agree batch p streams out out' :
  rows_ok p batch streams out → rows_ok p batch streams out' → Forall (λ it : BatchItem, (0 < it.1.2)%Z) batch →
  ∀ i, (p ≤ i)%nat → (Z.of_nat i < Z.of_nat p + query_total batch)%Z → out !! i = out' !! i.
Proof.
  revert p streams. induction batch as [|item batch IH]; intros p streams.
  - intros _ _ _ i Hi. unfold query_total. cbn. lia.
  - intros [H1 H2] [H1' H2'] [Hq Hpos]%Forall_cons_iff i Hi Ht.
    assert (query_total (item :: batch) = item.1.2 + query_total batch)%Z as E by done. rewrite E in Ht.
    destruct (decide (i < p + Z.to_nat item.1.2)%nat) as [Hlt|Hge].
    + replace i with (p + (i - p))%nat by lia. rewrite H1, H1' by lia. done.
    + eapply IH; [exact H2|exact H2'|done|lia|lia].
Qed.

(** ** Property *)

(** C6: a consistent schedule is served.  For every supported layer, every batch
    whose contexts are the lengths of the streams and whose block tables own
    disjoint blocks, the forward pass returns without error; afterwards every
    runtime object, every cache page and every buffer is the one of the grown
    streams, so that each sidecar has the length the scheduler will announce next,
    whichever implementation of a later chunk the environment selects (the token
    loop, tile32 or shared_decode); and every output row is dense attention over its own prompt, or decode
    attention over the pages and the tail of its own stream up to its own token,
    whatever shares the batch. *)
Theorem forward_serves_streams (batch : list BatchItem) (streams : Streams) (ly : LayerState) :
  forward_guards impl x = Ok tt → batch ≠ [] →
  length (si_query_start_loc x) = (length batch + 1)%nat → query_total batch = si_num_actual_tokens x →
  (si_num_actual_tokens x ≤ Z.of_nat (length (ly_out ly)))%Z →
  layer_ok streams ly → batch_ok 0 0 streams (ly_cache ly) batch → Forall (flag_ok ly) batch →
  let streams' := grow_all 0 batch streams in
  ∃ ly', _forward_rabit_kv2 impl context_attention_fwd batch x ly = (Ok tt, ly')
  ∧ layer_ok streams' ly' ∧ rows_ok 0 batch streams (ly_out ly')
  ∧ (∀ id kx vx, streams' !! id = Some (kx, vx) →
       ∃ o, ly_runtimes ly' !! id = Some o ∧ runtime_total_tokens (ob_rt o) = length kx).
Proof.
  intros Hg Hne Hqs Htot Hout Hly Hb Hf.
  destruct (schedule_served batch streams ly) as (ly' & E & Hly' & Hrows & Hlen & _); [|by exists ly'].
  by split_and!.
Qed.
End ForwardState.

(** ** Agreement of the implementations *)

Section Agreement.
Context `{TF : TorchFloat} {TR : TritonFloat} {TE : TorchEmpty} {TA : TritonReduce}.
Context {TFL : TorchFloatLaws TF} {TL : TritonLaws TR} {TZ : TritonZero}.
Context {B : Type} {FT : FloatType B}.

(** C8: the batched implementations are the reference implementation.  Two
    processes whose environments select any two of the three implementations serve
    the same consistent schedule without error, return the same bits in every
    scheduled output row, and leave the same runtime and the same pages for every
    request. *)
Theorem stage3c_impls_agree (E1 E2 : Environ) (h g NQ : nat) (d := (g * 32)%nat) (impl : AttnImpl)
    (tables : string → list nat) (x : StepInput (B := B)) (KEY VAL : tokens)
    (context_attention_fwd : list (list B) → dev_tensor → dev_tensor → f32 → list (list B))
    (batch : list BatchItem) (streams : gmap string (tokens * tokens)) (ly : LayerState) :
  runtime_geometry h d → (0 < NQ)%nat ∧ (h | NQ)%nat → ai_cuda impl = true →
  input_ok h g (si_key x) KEY ∧ input_ok h g (si_value x) VAL ∧ length KEY = length VAL →
  si_q_cuda x = true ∧ si_q_heads x = NQ ∧ si_q_dim x = d →
  (length KEY ≤ length (si_query x))%nat ∧ Forall (λ r, length r = (NQ * d)%nat) (si_query x) →
  ai_num_kv_heads impl = h ∧ ai_head_size impl = d →
  environ_ok (EN := E1) → environ_ok (EN := E2) → schedule_ok h g impl tables x KEY VAL batch streams ly →
  ∃ ly1 ly2,
    _forward_rabit_kv2 (EN := E1) impl context_attention_fwd batch x ly = (Ok tt, ly1)
    ∧ _forward_rabit_kv2 (EN := E2) impl context_attention_fwd batch x ly = (Ok tt, ly2)
    ∧ (∀ i, (Z.of_nat i < si_num_actual_tokens x)%Z → ly_out ly1 !! i = ly_out ly2 !! i)
    ∧ ∀ id kx vx, grow_all KEY VAL 0 batch streams !! id = Some (kx, vx) →
        ob_rt <$> ly_runtimes ly1 !! id = ob_rt <$> ly_runtimes ly2 !! id
        ∧ ∀ b, b ∈ owned tables id (length kx) → pc_pages (ly_cache ly1) !! b = pc_pages (ly_cache ly2) !! b.
Proof.
  intros Hgeo HQ Hcuda Hin Hqx Hqr Hi V1 V2 Hok.
  destruct (schedule_served (EN := E1) h g NQ Hgeo HQ impl Hcuda tables x KEY VAL context_attention_fwd Hin Hqx Hqr V1 Hi
              batch streams ly Hok) as (ly1 & F1 & (_ & _ & L1) & R1 & _).
  destruct (schedule_served (EN := E2) h g NQ Hgeo HQ impl Hcuda tables x KEY VAL context_attention_fwd Hin Hqx Hqr V2 Hi
              batch streams ly Hok) as (ly2 & F2 & (_ & _ & L2) & R2 & _).
  exists ly1, ly2. split; [done|]. split; [done|]. split.
  - destruct Hok as (_ & _ & _ & Ht & _ & _ & Hb & _). intros i Hlt.
    eapply rows_ok_agree; [..|exact R1|exact R2|by eapply batch_ok_positive|lia|lia]; done.
  - intros id kx vx Hid. destruct (L1 id kx vx Hid) as (_ & P1 & o1 & O1 & Er1 & _).
    destruct (L2 id kx vx Hid) as (_ & P2 & o2 & O2 & Er2 & _). rewrite O1, O2. cbn. rewrite Er1, Er2. split; [done|].
    intros b [i Hb]%list_elem_of_lookup_1. destruct (Forall2_lookup_l _ _ _ _ _ P1 Hb) as (pg & Hpg & ->).
    symmetry. exact (Forall2_lookup_lr _ _ _ i b pg P2 Hb Hpg).
Qed.
End Agreement.

(** ** A concrete batch *)

Section Concrete.
#[local] Existing Instance FixedTorch.
#[local] Existing Instance FixedTriton.
#[local] Existing Instance zero_memory.
#[local] Existing Instance FixedReduce.
#[local] Existing Instance bf16_type.
#[local] Existing Instance FixedTorch_laws.
#[local] Existing Instance FixedTriton_laws.
#[local] Existing Instance FixedZero.

(** A stream of 36 tokens: one closed page under block 3. *)
Definition stream_36 : tokens := t_rows (fixed_chunk 36 5).1.

Definition two_requests : StepInput :=
  mkStep true 4 64 (replicate 4 (replicate 256 7%Z)) (fixed_keys 4 2) (fixed_keys 4 2) 4
    [0; 2; 4]%Z [38; 2]%Z [[3]; [0]]%nat false false.

Definition two_tables (id : string) : list nat := if decide (id = "a") then [3%nat] else [0%nat].

Definition served_layer : LayerState :=
  mkLayer {["a" := mkObj (runtime_of 1 2 stream_36 stream_36) false None]}
    (write_pages [3%nat] (stream_pages 1 2 stream_36 stream_36) (zero_cache 5)) ∅ (replicate 4 (replicate 256 0%Z)).

Lemma fixed_rows_wf n v : Forall (wf_row 1 64) (t_rows (fixed_chunk n v).1).
Proof. exact (proj1 (fixed_chunk_ok n v)). Qed.

Lemma fixed_rows_length n v : length (t_rows (fixed_chunk n v).1) = n.
Proof. apply length_replicate. Qed.

Lemma fixed_open kx vx : open_ok 1 2 kx vx.
Proof. intros _. split; [done|]. unfold blocks_regular. repeat split; apply List.Forall_forall; done. Qed.

Lemma zero_cache_ok n : cache_ok (zero_cache n).
Proof. unfold cache_ok. cbn [pc_pages zero_cache pc_width]. apply Forall_replicate. by rewrite length_replicate. Qed.

Lemma small_table n b : (closed_count n ≤ 1)%nat → (b < 5)%nat → table_ok 1 64 n [b] (zero_cache 5).
Proof.
  intros Hn Hb. assert (NoDup (take (closed_count n) [b]) ∧ Forall (λ b, b < 5)%nat (take (closed_count n) [b])) as [H1 H2].
  { destruct (closed_count n) as [|[|?]]; [| |lia]; (split; [apply NoDup_nil_2 || apply NoDup_singleton|]).
    - apply Forall_nil_2.
    - apply Forall_cons_iff. split; [done|apply Forall_nil_2]. }
  split; [done|]. split; [done|]. split; [done|]. by vm_compute.
Qed.

Lemma four_heads : (0 < 4)%nat ∧ (1 | 4)%nat.
Proof. split; [lia|by exists 4%nat]. Qed.

Lemma served_layer_ok : layer_ok 1 2 two_tables {["a" := (stream_36, stream_36)]} served_layer.
Proof.
  assert (stream_ok 1 2 stream_36 stream_36) as Hs by (split; [done|split; apply fixed_rows_wf]).
  assert (length stream_36 = 36%nat) as Hl by apply fixed_rows_length.
  assert (table_ok 1 64 (length stream_36) [3%nat] (zero_cache 5)) as Ht by (rewrite Hl; apply small_table; [by vm_compute; lia|lia]).
  split; [|split; [apply no_workspaces_ok|]].
  - apply (grown_cache_ok 1 2 4); try done; [apply one_head_runtime|apply four_heads|rewrite Hl; lia|apply zero_cache_ok].
  - intros id kx vx [<- [= <- <-]]%lookup_singleton_Some. split; [done|].
    split; [by apply (grown_pages_in 1 2)|]. by eexists.
Qed.

Lemma served_tables :
  table_ok 1 64 38 [3%nat] (ly_cache served_layer) ∧ table_ok 1 64 2 [0%nat] (ly_cache served_layer).
Proof.
  unfold served_layer. cbn [ly_cache]. generalize (stream_pages 1 2 stream_36 stream_36). intros pages.
  split; (eapply (table_ok_shape 1 2 _ _ (zero_cache 5)); [reflexivity|apply write_pages_length|]).
  - apply small_table; [by vm_compute; lia|lia].
  - apply small_table; [by vm_compute; lia|lia].
Qed.

(** An environment that selects an implementation and leaves the profiler off. *)
Lemma environ_ok_of (EN : Environ) name :
  rabit2_stage3c_impl = Ok name → (name = "shared_decode" → ∃ qb, rabit2_shared_decode_query_block = Ok qb) →
  rabit2_stage3c_component_profiling = false → environ_ok.
Proof.
  intros Hn Hqb Hp. split; [by exists name|]. intros q_len. exists None. unfold rabit2_stage3c_profile_scope.
  rewrite Hp. cbn [negb]. by rewrite orb_true_r.
Qed.

#[local] Instance tile32_environ : Environ := only STAGE3C_IMPL_ENV "tile32".

Lemma tile32_environ_ok : environ_ok.
Proof. by apply (environ_ok_of _ "tile32"); [vm_compute| |vm_compute]. Qed.

Lemma default_environ_ok : environ_ok (EN := default_environ).
Proof. by apply (environ_ok_of _ "reference"); [vm_compute| |vm_compute]. Qed.

Lemma shared_environ_ok : environ_ok (EN := only STAGE3C_IMPL_ENV "shared_decode").
Proof. apply (environ_ok_of _ "shared_decode"); [by vm_compute|by exists 8%Z|by vm_compute]. Qed.

Definition two_items : list BatchItem := [("a", 2, 36); ("b", 2, 0)]%Z.
Definition two_rows : tokens := t_rows (fixed_chunk 4 2).1.
Definition one_stream : gmap string (tokens * tokens) := {["a" := (stream_36, stream_36)]}.

Lemma two_inputs_ok :
  input_ok 1 2 (si_key two_requests) two_rows ∧ input_ok 1 2 (si_value two_requests) two_rows ∧ length two_rows = length two_rows.
Proof. split; [|split; [|reflexivity]]; (split; [reflexivity|split; [apply fixed_rows_wf|exact I]]). Qed.

Lemma two_queries_ok :
  (length two_rows ≤ length (si_query two_requests))%nat
  ∧ Forall (λ r : list Z, length r = (4 * (2 * 32))%nat) (si_query two_requests).
Proof. split; [unfold two_rows; rewrite fixed_rows_length; cbn; lia|by repeat constructor]. Qed.

Lemma two_batch_ok : batch_ok 1 2 two_tables two_requests two_rows two_rows 0 0 one_stream (ly_cache served_layer) two_items.
Proof.
  assert (length stream_36 = 36%nat) as Hl by apply fixed_rows_length. destruct served_tables as [HA HB].
  split; [|split; [apply (bool_decide_unpack _); by vm_compute|split; [|split; [apply not_elem_of_nil|exact I]]]].
  - split; [lia|]. split; [lia|]. unfold stream_of, one_stream. rewrite lookup_singleton_eq. cbn [default fst snd].
    split; [exact Hl|]. split; [by eexists|]. split; [done|]. split; [exact HA|]. split; [|split; [|split]].
    + intros id' kx' vx' Hne [<- _]%lookup_singleton_Some. done.
    + unfold two_rows. rewrite fixed_rows_length. cbn. lia.
    + intros [=].
    + intros j _. apply fixed_open.
  - split; [lia|]. split; [lia|]. unfold grow, stream_of, one_stream. rewrite lookup_insert_ne, lookup_singleton_ne by done.
    cbn [default fst snd]. split; [done|]. split; [lia|]. split; [done|]. split; [exact HB|]. split; [|split; [|split]].
    + intros id' kx' vx' Hne _ b Hb. vm_compute in Hb. by apply not_elem_of_nil in Hb.
    + unfold two_rows. rewrite fixed_rows_length. cbn. lia.
    + intros [=].
    + intros j _. apply fixed_open.
Qed.

Lemma two_flags_ok : Forall (flag_ok served_layer) two_items.
Proof.
  constructor; [|constructor; [|constructor]].
  - intros _ _ o Ho. unfold served_layer in Ho. cbn [ly_runtimes fst snd] in Ho.
    apply (lookup_singleton_Some (M := gmap string) "a") in Ho as [_ <-]. reflexivity.
  - intros _ H. cbn in H. lia.
Qed.

(** C6: a later chunk of ["a"] through the batched path, with a prompt of ["b"]. *)
Lemma forward_serves_streams_witness :
  ∃ ly', _forward_rabit_kv2 fixed_impl copy_attention two_items two_requests served_layer = (Ok tt, ly')
  ∧ rows_ok 1 2 4 fixed_impl two_requests two_rows two_rows copy_attention 0 two_items one_stream (ly_out ly').
Proof.
  destruct (forward_serves_streams 1 2 4 one_head_runtime four_heads fixed_impl eq_refl two_tables two_requests
    two_rows two_rows copy_attention two_inputs_ok ltac:(repeat split) two_queries_ok tile32_environ_ok ltac:(by split)
    two_items one_stream served_layer eq_refl ltac:(done) eq_refl eq_refl) as (ly' & E & _ & Hr & _).
  - cbn. lia.
  - apply served_layer_ok.
  - exact two_batch_ok.
  - exact two_flags_ok.
  - exists ly'. split; [exact E|exact Hr].
Defined.

(** C8: the same under the reference and under the shared decode. *)
Lemma stage3c_impls_agree_witness :
  ∃ ly1 ly2,
    _forward_rabit_kv2 (EN := default_environ) fixed_impl copy_attention two_items two_requests served_layer = (Ok tt, ly1)
    ∧ _forward_rabit_kv2 (EN := only STAGE3C_IMPL_ENV "shared_decode") fixed_impl copy_attention two_items two_requests
        served_layer = (Ok tt, ly2)
    ∧ ly_out ly1 !! 1%nat = ly_out ly2 !! 1%nat.
Proof.
  destruct (stage3c_impls_agree default_environ (only STAGE3C_IMPL_ENV "shared_decode") 1 2 4 fixed_impl two_tables
    two_requests two_rows two_rows copy_attention two_items one_stream served_layer one_head_runtime four_heads eq_refl
    two_inputs_ok ltac:(repeat split) two_queries_ok ltac:(by split)) as (ly1 & ly2 & E1 & E2 & Ho & _).
  - apply default_environ_ok.
  - apply shared_environ_ok.
  - split; [done|]. split; [done|]. split; [done|]. split; [done|]. split; [cbn; lia|]. split; [apply served_layer_ok|].
    split; [exact two_batch_ok|exact two_flags_ok].
  - exists ly1, ly2. split; [exact E1|]. split; [exact E2|]. apply Ho. cbn. lia.
Defined.
End Concrete.
