(* ===== verification/Engine.v ===== *)
(** * Runs of the serving engine

    The worker as a whole: the bridge ([Lifecycle]) owns the tables of runtimes of
    the attention layers, every layer has its cache, the layers share the
    workspaces, and a step of the model runner releases the finished requests,
    publishes the batch and runs the forward pass of every layer in turn
    ([Forward]).  An abstract scheduler says what the requests are: their tokens in
    every layer, their block tables, and which of them have begun to decode.  Every
    run with consistent counts and tables is served in which no request gets several tokens
    after it began to decode ([run_ok]). *)

From Stdlib Require Import ZArith Lia.
From stdpp Require Import gmap strings pretty base tactics numbers list option.
From S2P Require Import Prelude Layout Torch SpecFloatTorch BitPack Meta Quant Tab Triton Decoded Page Sidecar Tail OnlineRef Runtime.
From S2P Require Import FixedTorch Bulk ChunkPlan FastAppend Attention PageAttention TailAttention TailPrep DecodeAttention.
From S2P Require Import DecodeState TileSchedule TileKernels Lifecycle Forward ForwardFrame TileState ForwardStream ForwardState.

Section Engine.
Context `{TF : TorchFloat} {TR : TritonFloat} {TE : TorchEmpty} {TA : TritonReduce}.
Context {B : Type} {FT : FloatType B}.
Context {EN : Environ}.
Variable context_attention_fwd : list (list B) → dev_tensor → dev_tensor → f32 → list (list B).

(** ** The engine *)

(** The state of a worker.  The dictionary of runtimes of a layer is the one the
    bridge reaches through the registered layer: one object, kept here once. *)
Record Engine := mkEngine {
  en_bridge : Bridge (Obj := RtObject);
  en_caches : gmap nat PageCache;
  en_ws : Workspaces
}.

(** The construction of the layers of the model, each registered with its empty
    dictionary. *)
Definition register_layer (l : nat) : ST (Bridge (Obj := RtObject)) unit := rabit2_register_attention_impl l (Some ∅).

Definition engine_init (caches : list PageCache) : Engine :=
  mkEngine (st_for (seq 0 (length caches)) register_layer (mkBridge [] ∅)).2
    (list_to_map (zip (seq 0 (length caches)) caches)) ∅.

Definition on_bridge {A} (run : ST (Bridge (Obj := RtObject)) A) : ST Engine A := λ s,
  let '(r, b) := run (en_bridge s) in (r, mkEngine b (en_caches s) (en_ws s)).

(** The call of a layer: its metadata and tensors, and the output buffer, which it
    returns. *)
Definition LayerCall : Type := StepInput (B := B) * list (list B).

Definition forward_layer (l : nat) (impl : AttnImpl) (call : LayerCall) : ST Engine (list (list B)) := λ s,
  match br_impls (en_bridge s) !! l, en_caches s !! l with
  | Some (Some table), Some cache =>
      let batch := rabit2_get_active_batch (en_bridge s) in
      let '(r, ly) := _forward_rabit_kv2 impl context_attention_fwd batch call.1 (mkLayer table cache (en_ws s) call.2) in
      (match r with Ok _ => Ok (ly_out ly) | Err e => Err e end,
       mkEngine (mkBridge batch (<[l := Some (ly_runtimes ly)]> (br_impls (en_bridge s))))
         (<[l := ly_cache ly]> (en_caches s)) (ly_ws ly))
  | _, _ => (Err AttributeError, s)
  end.

(** The layers of the model, in order. *)
Fixpoint forward_layers (l : nat) (work : list (AttnImpl * LayerCall)) : ST Engine (list (list (list B))) :=
  match work with
  | [] => mret []
  | (impl, call) :: work =>
      out ← forward_layer l impl call;
      outs ← forward_layers (S l) work;
      mret (out :: outs)
  end.

(** What the scheduler hands to a step: the finished and the preempted requests (the
    second are ignored by the code), the batch with its counts, its block table,
    and the call of every layer. *)
Record EngineStep := mkEngineStep {
  es_finished : list string;
  es_preempted : list string;
  es_ids : list string;
  es_scheduled : gmap string Z;
  es_computed : gmap string Z;
  es_block_table : list (list nat);
  es_calls : list LayerCall
}.

Definition total_scheduled (st : EngineStep) : Z := foldr Z.add 0%Z (map (λ id, es_scheduled st !!! id) (es_ids st)).

(** [execute_model]: a step without tokens runs no layer. *)
Definition engine_step (impls : list AttnImpl) (st : EngineStep) : ST Engine (list (list (list B))) :=
  on_bridge (runner_step (es_finished st) (es_ids st) (es_scheduled st) (es_computed st));;
  if (total_scheduled st =? 0)%Z then mret [] else forward_layers 0 (zip impls (es_calls st)).

Fixpoint engine_run (impls : list AttnImpl) (steps : list EngineStep) : ST Engine (list (list (list (list B)))) :=
  match steps with
  | [] => mret []
  | st :: steps =>
      outs ← engine_step impls st;
      rest ← engine_run impls steps;
      mret (outs :: rest)
  end.
End Engine.

(** ** The scheduler *)

Section Scheduler.
Context `{TF : TorchFloat}.
Context {B : Type}.

(** Its view of the requests: their block tables, their tokens in every layer, and
    the requests that took a one-token step since their first chunk while four tokens
    or more were held: the buffered append starts with such a step. *)
Record Sched := mkSched {
  sd_tables : string → list nat;
  sd_streams : nat → gmap string (tokens * tokens);
  sd_decoded : gset string
}.

Definition sched_init : Sched := mkSched (λ _, []) (λ _, ∅) ∅.

Definition es_batch (st : EngineStep (B := B)) : list BatchItem :=
  counted_batch (es_scheduled st) (es_computed st) (es_ids st).

Definition call_keys (call : LayerCall (B := B)) : tokens := t_rows (as_f32 (sx_dev (si_key call.1))).
Definition call_values (call : LayerCall (B := B)) : tokens := t_rows (as_f32 (sx_dev (si_value call.1))).

(** The rows of the step replace the tables of its requests. *)
Definition step_tables (st : EngineStep (B := B)) (sd : Sched) (id : string) : list nat :=
  default (sd_tables sd id) ((list_to_map (zip (es_ids st) (es_block_table st)) : gmap string (list nat)) !! id).

(** Finished and preempted requests lose their tokens. *)
Definition live (st : EngineStep (B := B)) (streams : gmap string (tokens * tokens)) : gmap string (tokens * tokens) :=
  filter (λ it, (it.1 ∉ es_finished st) ∧ (it.1 ∉ es_preempted st)) streams.

Definition step_streams (st : EngineStep (B := B)) (sd : Sched) (l : nat) : gmap string (tokens * tokens) :=
  match es_calls st !! l with
  | Some call => grow_all (call_keys call) (call_values call) 0 (es_batch st) (live st (sd_streams sd l))
  | None => live st (sd_streams sd l)
  end.

Definition ids_where (P : BatchItem → bool) (batch : list BatchItem) : gset string :=
  list_to_set (batch_ids (List.filter P batch)).

Definition step_decoded (st : EngineStep (B := B)) (sd : Sched) : gset string :=
  ids_where (λ it, (it.1.2 =? 1) && (4 <=? it.2))%Z (es_batch st) ∪ (sd_decoded sd ∖ ids_where (λ it, (it.2 =? 0)%Z) (es_batch st)).

Definition sched_step (sd : Sched) (st : EngineStep (B := B)) : Sched :=
  mkSched (step_tables st sd) (step_streams st sd) (step_decoded st sd).
End Scheduler.

(** ** What holds between steps *)

Section Serving.
Context `{TF : TorchFloat} {TR : TritonFloat} {TE : TorchEmpty} {TA : TritonReduce}.
Context {TFL : TorchFloatLaws TF} {TL : TritonLaws TR} {TZ : TritonZero}.
Context {B : Type} {FT : FloatType B}.
Context {EN : Environ}.
Variables (h g NQ : nat).
Let d := (g * 32)%nat.
Hypotheses (Hgeo : runtime_geometry h d) (HQ : (0 < NQ)%nat ∧ (h | NQ)%nat).
Variable context_attention_fwd : list (list B) → dev_tensor → dev_tensor → f32 → list (list B).
Hypothesis (Henv : environ_ok).

(** The layers of the model and the caches they start with. *)
Definition impl_ok (impl : AttnImpl) : Prop :=
  ai_cuda impl = true ∧ ai_num_kv_heads impl = h ∧ ai_head_size impl = d.

Variables (impls : list AttnImpl) (caches : list PageCache).

(** A layer mirrors the scheduler's streams; the buffered append is off for every
    request that has not begun to decode. *)
Definition layer_holds (sd : Sched) (l : nat) (s : Engine) : Prop :=
  ∃ c0 table cache,
    caches !! l = Some c0 ∧ br_impls (en_bridge s) !! l = Some (Some table) ∧ en_caches s !! l = Some cache
    ∧ pc_width cache = pc_width c0 ∧ length (pc_pages cache) = length (pc_pages c0)
    ∧ (∀ ws (out : list (list B)), workspaces_ok ws → layer_ok h g (sd_tables sd) (sd_streams sd l) (mkLayer table cache ws out))
    ∧ (∀ id o, table !! id = Some o → id ∉ sd_decoded sd → ob_ready o = false)
    ∧ (∀ id, is_Some (sd_streams sd l !! id) → is_profile_key id = false).

Definition engine_ok (sd : Sched) (s : Engine) : Prop :=
  workspaces_ok (en_ws s) ∧ ∀ l, (l < length caches)%nat → layer_holds sd l s.

(** What a scheduler may ask a layer: tensors of the layer's geometry that agree with
    the batch, a block table with room for the new tokens that shares no page with
    another live request and keeps the pages already written, and ordinary numbers
    where the device quantizes ([batch_ok]). *)
Definition call_ok (sd : Sched) (st : EngineStep (B := B)) (l : nat) (impl : AttnImpl) (call : LayerCall (B := B)) : Prop :=
  let x := call.1 in
  let K := call_keys call in
  let V := call_values call in
  let streams := live st (sd_streams sd l) in
  forward_guards impl x = Ok tt
  ∧ (input_ok h g (si_key x) K ∧ input_ok h g (si_value x) V ∧ length K = length V)
  ∧ (si_q_cuda x = true ∧ si_q_heads x = NQ ∧ si_q_dim x = d)
  ∧ ((length K ≤ length (si_query x))%nat ∧ Forall (λ r, length r = (NQ * d)%nat) (si_query x))
  ∧ length (si_query_start_loc x) = (length (es_batch st) + 1)%nat
  ∧ query_total (es_batch st) = si_num_actual_tokens x
  ∧ (si_num_actual_tokens x ≤ Z.of_nat (length call.2))%Z
  ∧ ∃ c0, caches !! l = Some c0 ∧ batch_ok h g (step_tables st sd) x K V 0 0 streams c0 (es_batch st).

(** A live request keeps the blocks its pages lie in. *)
Definition tables_kept (sd : Sched) (st : EngineStep (B := B)) : Prop :=
  ∀ l id kx vx, (l < length caches)%nat → live st (sd_streams sd l) !! id = Some (kx, vx) →
    owned (step_tables st sd) id (length kx) = owned (sd_tables sd) id (length kx).

(** A step the scheduler may ask for. *)
Definition step_ok (sd : Sched) (st : EngineStep (B := B)) : Prop :=
  counted (es_scheduled st) (es_computed st) (es_ids st)
  ∧ Forall (λ id, is_profile_key id = false) (es_ids st)
  ∧ length (es_calls st) = length impls
  ∧ tables_kept sd st
  ∧ Forall (λ it : BatchItem, (1 < it.1.2)%Z → (0 < it.2)%Z → it.1.1 ∉ sd_decoded sd) (es_batch st)
  ∧ (es_ids st ≠ [] → ∀ l impl call, impls !! l = Some impl → es_calls st !! l = Some call → call_ok sd st l impl call).

(** The output rows of a step. *)
Definition step_rows (sd : Sched) (st : EngineStep (B := B)) (outs : list (list (list B))) : Prop :=
  es_ids st ≠ [] → ∀ l impl call, impls !! l = Some impl → es_calls st !! l = Some call →
    ∃ out, outs !! l = Some out
      ∧ rows_ok h g NQ impl call.1 (call_keys call) (call_values call) context_attention_fwd 0 (es_batch st)
          (live st (sd_streams sd l)) out.

Fixpoint run_ok (sd : Sched) (steps : list (EngineStep (B := B))) : Prop :=
  match steps with
  | [] => True
  | st :: steps => step_ok sd st ∧ run_ok (sched_step sd st) steps
  end.

Fixpoint run_rows (sd : Sched) (steps : list (EngineStep (B := B))) (outs : list (list (list (list B)))) : Prop :=
  match steps, outs with
  | [], [] => True
  | st :: steps, o :: outs => step_rows sd st o ∧ run_rows (sched_step sd st) steps outs
  | _, _ => False
  end.

(** ** Lemmas *)

(** The scheduler's view after the head of a step: the requests gone, the new
    tables in force. *)
Definition sched_head (sd : Sched) (st : EngineStep (B := B)) : Sched :=
  mkSched (step_tables st sd) (λ l, live st (sd_streams sd l)) (sd_decoded sd).

Lemma live_lookup (st : EngineStep (B := B)) streams id s :
  live st streams !! id = Some s ↔ streams !! id = Some s ∧ (id ∉ es_finished st) ∧ (id ∉ es_preempted st).
Proof. unfold live. by rewrite map_lookup_filter_Some. Qed.

(** Fewer streams, the same blocks, and a dictionary that keeps their objects. *)
Lemma layer_ok_shrink tables tables' streams streams' rts rts' c ws (out : list (list B)) :
  (∀ id kx vx, streams' !! id = Some (kx, vx) →
     streams !! id = Some (kx, vx) ∧ owned tables' id (length kx) = owned tables id (length kx) ∧ rts' !! id = rts !! id) →
  layer_ok h g tables streams (mkLayer rts c ws out) → layer_ok h g tables' streams' (mkLayer rts' c ws out).
Proof.
  intros Hs (Hc & Hws & Hst). split; [done|]. split; [done|]. intros id kx vx Hid.
  destruct (Hs id kx vx Hid) as (Hid' & Ho & Hr). destruct (Hst id kx vx Hid') as (H1 & H2 & o & H3 & H4).
  split; [done|]. cbn [ly_cache ly_runtimes] in *. split; [|exists o; by rewrite Hr].
  unfold pages_in. unfold owned in Ho. by rewrite Ho.
Qed.

(** The head of a step. *)
Lemma head_ok sd s (st : EngineStep (B := B)) :
  engine_ok sd s → step_ok sd st →
  ∃ s', on_bridge (runner_step (es_finished st) (es_ids st) (es_scheduled st) (es_computed st)) s = (Ok tt, s')
  ∧ engine_ok (sched_head sd st) s' ∧ rabit2_get_active_batch (en_bridge s') = es_batch st.
Proof.
  intros [Hws Hl] (Hc & _ & _ & Ht & _). eexists. unfold on_bridge. rewrite runner_step_state by done.
  split; [reflexivity|]. split; [|apply published_batch]. split; [done|]. cbn [en_bridge en_caches en_ws].
  intros l Hlt. destruct (Hl l Hlt) as (c0 & table & cache & H1 & H2 & H3 & H4 & H5 & H6 & H7 & H8).
  destruct (released_table (es_finished st) _ l table H2) as (t1 & T1 & L1).
  destruct (published_table (es_ids st) (map (λ id, es_scheduled st !!! id) (es_ids st))
              (map (λ id, es_computed st !!! id) (es_ids st)) _ l t1 T1) as (t2 & T2 & L2).
  exists c0, t2, cache. do 5 (split; [done|]). split; [|split].
  - intros ws out Hws'. apply (layer_ok_shrink (sd_tables sd) _ (sd_streams sd l) _ table); [|by apply H6].
    intros id kx vx Hid. cbn [sched_head sd_streams sd_tables] in *. pose proof (Ht l id kx vx Hlt Hid) as Ho.
    apply live_lookup in Hid as (Hid & Hf & _). split; [done|]. split; [done|]. rewrite L2, L1.
    rewrite (H8 id) by done. rewrite andb_false_r. by destruct (decide (id ∈ es_finished st)).
  - intros id o Ho. rewrite L2, L1 in Ho. cbn [sched_head sd_decoded]. apply H7.
    destruct (negb _ && _); [done|]. by destruct (decide (id ∈ es_finished st)).
  - intros id [v Hid]. cbn [sched_head sd_streams] in Hid. apply live_lookup in Hid as (Hid & _). by apply H8.
Qed.

(** The identifiers of the grown streams. *)
Lemma grow_all_dom K V batch p streams id :
  is_Some (grow_all K V p batch streams !! id) → id ∈ batch_ids batch ∨ is_Some (streams !! id).
Proof.
  revert p streams. induction batch as [|[[id' q] ctx] batch IH]; intros p streams H; [by right|].
  cbn [grow_all] in H. apply IH in H as [H|H]; [by left; right|]. unfold grow in H.
  destruct (decide (id = id')) as [->|Hne]; [by left; left|]. right. by rewrite lookup_insert_ne in H.
Qed.

Lemma elem_of_ids_where P batch id : id ∈ ids_where P batch ↔ ∃ it : BatchItem, it ∈ batch ∧ P it = true ∧ it.1.1 = id.
Proof.
  unfold ids_where, batch_ids. rewrite elem_of_list_to_set, list_elem_of_In, in_map_iff. split.
  - intros (it & <- & [H1 H2]%filter_In). exists it. by rewrite list_elem_of_In.
  - intros (it & H1 & H2 & <-). exists it. split; [done|]. apply filter_In. by rewrite <-list_elem_of_In.
Qed.

(** A request that is not in the set after the step was switched off by it, or was
    off before. *)
Lemma not_decoded sd (st : EngineStep (B := B)) id :
  id ∉ step_decoded st sd →
  (∀ it, it ∈ es_batch st → it.1.1 = id → it.1.2 ≠ 1%Z ∨ (it.2 < 4)%Z) ∧ (id ∉ batch_ids (es_batch st) → id ∉ sd_decoded sd).
Proof.
  unfold step_decoded. rewrite not_elem_of_union, not_elem_of_difference, !elem_of_ids_where. intros [H1 H2]. split.
  - intros it Hit E. destruct (Z.eqb_spec it.1.2 1) as [Eq|]; [right|by left]. destruct (Z.leb_spec 4 it.2) as [Hle|]; [|lia].
    exfalso. apply H1. exists it. split; [done|]. split; [|done]. apply andb_true_iff. split; [by apply Z.eqb_eq|by apply Z.leb_le].
  - intros Hn Hd. destruct H2 as [H2|(it & Hit & _ & E)]; [done|]. apply Hn. unfold batch_ids.
    apply list_elem_of_In, in_map_iff. exists it. by rewrite <-list_elem_of_In.
Qed.

Lemma in_batch_ids (batch : list BatchItem) id : id ∈ batch_ids batch ↔ ∃ it, it ∈ batch ∧ it.1.1 = id.
Proof.
  unfold batch_ids. rewrite list_elem_of_In, in_map_iff. split; intros (it & H1 & H2); exists it;
    rewrite list_elem_of_In in *; done.
Qed.

(** The streams after a batch: those of its requests have their new length, the
    others are as they were. *)
Lemma grow_all_other K V p streams batch id :
  id ∉ batch_ids batch → grow_all K V p batch streams !! id = streams !! id.
Proof.
  revert p streams. induction batch as [|[[id' q] ctx] batch IH]; intros p streams Hid; [done|].
  cbn [batch_ids map fst] in Hid. apply not_elem_of_cons in Hid as [Hne Hid]. cbn [grow_all]. rewrite IH by done.
  unfold grow. by rewrite lookup_insert_ne.
Qed.

Lemma batch_ok_grown tables (x : StepInput (B := B)) K V c batch it : ∀ i p streams,
  batch_ok h g tables x K V i p streams c batch → it ∈ batch →
  ∃ s, grow_all K V p batch streams !! it.1.1 = Some s ∧ length s.1 = (Z.to_nat it.2 + Z.to_nat it.1.2)%nat.
Proof.
  induction batch as [|[[id q] ctx] batch IH]; intros i p streams Hb Hit; [by apply not_elem_of_nil in Hit|].
  destruct Hb as ((Hq & Hctx & Hl & _ & _ & _ & _ & Hp & _) & Hnot & Hb). apply elem_of_cons in Hit as [->|Hit]; [|by eapply IH].
  cbn [fst snd grow_all] in *. rewrite grow_all_other by done. eexists. split; [apply lookup_insert_eq|].
  cbn [fst]. rewrite length_app, Hl, slice_length; lia.
Qed.

(** A stream of at most four tokens has no buffers yet. *)
Lemma short_not_ready kx vx o : object_ok h g kx vx o → (length kx ≤ 4)%nat → ob_ready o = false.
Proof.
  intros [_ Hr] Hk. destruct (ob_ready o); [|done]. destruct (Hr eq_refl) as (_ & _ & Hc). destruct (Hc eq_refl) as [H4 _].
  rewrite stored_length in H4. lia.
Qed.

(** The forward pass of one layer. *)
Lemma forward_layer_ok sd (st : EngineStep (B := B)) l impl call s :
  step_ok sd st → es_ids st ≠ [] → impls !! l = Some impl → es_calls st !! l = Some call → impl_ok impl →
  workspaces_ok (en_ws s) → rabit2_get_active_batch (en_bridge s) = es_batch st → layer_holds (sched_head sd st) l s →
  ∃ out s', forward_layer context_attention_fwd l impl call s = (Ok out, s')
  ∧ workspaces_ok (en_ws s') ∧ rabit2_get_active_batch (en_bridge s') = es_batch st ∧ layer_holds (sched_step sd st) l s'
  ∧ (∀ j, j ≠ l → br_impls (en_bridge s') !! j = br_impls (en_bridge s) !! j ∧ en_caches s' !! j = en_caches s !! j)
  ∧ rows_ok h g NQ impl call.1 (call_keys call) (call_values call) context_attention_fwd 0 (es_batch st)
      (live st (sd_streams sd l)) out.
Proof.
  intros (Hcount & Hprof & _ & _ & Hchunk & Hcalls) Hne Hi Hcall (Icuda & Ihd) Hws Hbatch
    (c0 & table & cache & H1 & H2 & H3 & H4 & H5 & H6 & H7 & H8).
  destruct (Hcalls Hne l impl call Hi Hcall) as (Hg & Hin & Hqx & Hqr & Hqs & Htot & Hout & c1 & Hc1 & Hb).
  rewrite H1 in Hc1. injection Hc1 as <-.
  set (ly := mkLayer table cache (en_ws s) call.2).
  assert (schedule_ok h g impl (step_tables st sd) call.1 (call_keys call) (call_values call) (es_batch st)
            (live st (sd_streams sd l)) ly) as Hok.
  { split; [done|]. split.
    { intros E. apply Hne. unfold es_batch, counted_batch in E. by apply map_eq_nil in E. }
    split; [done|]. split; [done|]. split; [done|]. split; [by apply H6|]. split.
    - by eapply batch_ok_shape; [| |exact Hb].
    - apply List.Forall_forall. intros it Hit Hq Hctx o Ho. apply (H7 it.1.1 o Ho).
      rewrite List.Forall_forall in Hchunk. by apply Hchunk. }
  destruct (schedule_served h g NQ Hgeo HQ impl Icuda (step_tables st sd) call.1 (call_keys call) (call_values call)
              context_attention_fwd Hin Hqx Hqr Henv Ihd (es_batch st) (live st (sd_streams sd l)) ly Hok)
    as (ly' & E & Hly' & Hrows & _ & Hrt & Hw & Hlen & Hoff).
  unfold forward_layer. rewrite H2, H3, Hbatch. fold ly. rewrite E. eexists _, _. split; [reflexivity|].
  cbn [en_ws en_bridge en_caches br_active_batch br_impls rabit2_get_active_batch]. split; [apply Hly'|]. split; [done|].
  split; [|split; [|exact Hrows]].
  2: { intros j Hj. by rewrite !lookup_insert_ne. }
  assert (sd_streams (sched_step sd st) l
          = grow_all (call_keys call) (call_values call) 0 (es_batch st) (live st (sd_streams sd l))) as Estr
    by (cbn [sched_step sd_streams]; unfold step_streams; by rewrite Hcall).
  exists c0, (ly_runtimes ly'), (ly_cache ly'). split; [done|]. cbn [en_bridge br_impls en_caches].
  split; [apply lookup_insert_eq|]. split; [apply lookup_insert_eq|]. split; [rewrite Hw; exact H4|].
  split; [rewrite Hlen; exact H5|]. split; [|split].
  - intros ws out Hws'. rewrite Estr. destruct Hly' as (L1 & _ & L3). by split_and!.
  - intros id o Ho Hd. cbn [sched_step sd_decoded] in Hd. apply not_decoded in Hd as [D1 D2].
    destruct (decide (id ∈ batch_ids (es_batch st))) as [Hin'|Hnin].
    + apply in_batch_ids in Hin' as (it & Hit & <-). rewrite List.Forall_forall in Hoff.
      assert (In it (es_batch st)) as Hit' by (by apply list_elem_of_In).
      pose proof (batch_ok_positive h g _ _ _ _ _ _ _ _ _ Hb) as Hpos. rewrite List.Forall_forall in Hpos.
      specialize (Hpos it Hit'). cbn beta in Hpos. destruct (decide (it.1.2 = 1)%Z) as [Eq|Hne1]; [|apply (Hoff it Hit'); [lia|done]].
      destruct (D1 it Hit eq_refl) as [|Hctx]; [done|].
      destruct (batch_ok_grown _ _ _ _ _ _ it _ _ _ Hb Hit) as ([kx vx] & Hs & Hl). destruct Hly' as (_ & _ & Hst).
      destruct (Hst _ _ _ Hs) as (_ & _ & o' & Ho' & Hobj). rewrite Ho in Ho'. injection Ho' as <-.
      apply (short_not_ready kx vx); [done|]. cbn [fst] in Hl. rewrite Hl, Eq. lia.
    + rewrite Hrt in Ho by done. by apply (H7 id o Ho), D2.
  - intros id Hid. rewrite Estr in Hid. apply grow_all_dom in Hid as [Hid|Hid]; [|by apply H8].
    apply in_batch_ids in Hid as (it & Hit & <-). unfold es_batch, counted_batch in Hit.
    apply list_elem_of_In, in_map_iff in Hit as (id & <- & Hid). rewrite List.Forall_forall in Hprof. by apply Hprof.
Qed.

Lemma layer_holds_frame sd l s s' :
  br_impls (en_bridge s') !! l = br_impls (en_bridge s) !! l → en_caches s' !! l = en_caches s !! l →
  layer_holds sd l s → layer_holds sd l s'.
Proof. intros E1 E2 (c0 & table & cache & H). exists c0, table, cache. by rewrite E1, E2. Qed.

Lemma forward_layers_ok sd (st : EngineStep (B := B)) work l s :
  step_ok sd st → es_ids st ≠ [] → Forall impl_ok impls →
  (∀ i impl call, work !! i = Some (impl, call) → impls !! (l + i)%nat = Some impl ∧ es_calls st !! (l + i)%nat = Some call) →
  (∀ i, (i < length work)%nat → layer_holds (sched_head sd st) (l + i) s) →
  workspaces_ok (en_ws s) → rabit2_get_active_batch (en_bridge s) = es_batch st →
  ∃ outs s', forward_layers context_attention_fwd l work s = (Ok outs, s')
  ∧ workspaces_ok (en_ws s') ∧ rabit2_get_active_batch (en_bridge s') = es_batch st
  ∧ (∀ j, (j < l)%nat → br_impls (en_bridge s') !! j = br_impls (en_bridge s) !! j ∧ en_caches s' !! j = en_caches s !! j)
  ∧ (∀ i, (i < length work)%nat → layer_holds (sched_step sd st) (l + i) s')
  ∧ (∀ i impl call, work !! i = Some (impl, call) → ∃ out, outs !! i = Some out
       ∧ rows_ok h g NQ impl call.1 (call_keys call) (call_values call) context_attention_fwd 0 (es_batch st)
           (live st (sd_streams sd (l + i))) out).
Proof.
  intros Hst Hne Himpl. revert l s. induction work as [|[impl call] work IH]; intros l s Hwork Hholds Hws Hbatch.
  { exists [], s. split_and!; try done. intros i Hi. cbn in Hi. lia. }
  destruct (Hwork 0%nat impl call eq_refl) as [Ei Ec]. rewrite Nat.add_0_r in Ei, Ec.
  pose proof (Hholds 0%nat ltac:(cbn; lia)) as H0. rewrite Nat.add_0_r in H0.
  assert (impl_ok impl) as Hi by (rewrite Forall_lookup in Himpl; by eapply Himpl).
  destruct (forward_layer_ok sd st l impl call s Hst Hne Ei Ec Hi Hws Hbatch H0)
    as (out & s1 & E1 & Hws1 & Hb1 & Hh1 & Hf1 & Hr1).
  destruct (IH (S l) s1) as (outs & s2 & E2 & Hws2 & Hb2 & Hf2 & Hh2 & Hr2).
  - intros i im ca Hic. specialize (Hwork (S i) im ca Hic). by rewrite Nat.add_succ_r in Hwork.
  - intros i Hlt. specialize (Hholds (S i) ltac:(cbn; lia)). rewrite Nat.add_succ_r in Hholds.
    destruct (Hf1 (S l + i)%nat) as [F1 F2]; [lia|]. by eapply layer_holds_frame.
  - done.
  - done.
  - exists (out :: outs), s2. cbn [forward_layers]. rewrite st_bind_eq, E1, st_bind_eq, E2.
    split; [done|]. split; [done|]. split; [done|]. split; [|split].
    + intros j Hj. destruct (Hf1 j) as [F1 F2]; [lia|]. destruct (Hf2 j) as [F3 F4]; [lia|]. by rewrite F3, F4.
    + intros [|i] Hlt; [|rewrite Nat.add_succ_r; apply (Hh2 i); cbn in Hlt; lia].
      rewrite Nat.add_0_r. destruct (Hf2 l) as [F1 F2]; [lia|]. by eapply layer_holds_frame.
    + intros [|i] im ca Hic.
      * injection Hic as <- <-. exists out. split; [done|]. by rewrite Nat.add_0_r.
      * destruct (Hr2 i im ca Hic) as (o & Ho & Hr). exists o. split; [done|]. by rewrite Nat.add_succ_r.
Qed.

Hypotheses (Hlen : length impls = length caches) (Himpl : Forall impl_ok impls).

(** The number of scheduled tokens is zero exactly when the batch is empty. *)
Lemma total_scheduled_zero (st : EngineStep (B := B)) :
  counted (es_scheduled st) (es_computed st) (es_ids st) → (total_scheduled st =? 0)%Z = bool_decide (es_ids st = []).
Proof.
  unfold total_scheduled. intros Hc. destruct Hc as [|id ids (q & c & Eq & _ & Hq & _) Hc]; [done|].
  rewrite bool_decide_eq_false_2 by done. apply Z.eqb_neq. cbn [map foldr].
  rewrite lookup_total_alt, Eq. cbn [default]. unfold Datatypes.id.
  enough (0 ≤ foldr Z.add 0 (map (λ id, es_scheduled st !!! id) ids))%Z by lia.
  clear -Hc. induction Hc as [|id ids (q & c & Eq & _ & Hq & _) Hc IH]; [done|]. cbn [map foldr].
  rewrite lookup_total_alt, Eq. cbn [default]. unfold Datatypes.id. lia.
Qed.

Lemma grow_nothing sd (st : EngineStep (B := B)) : es_ids st = [] →
  (∀ l, step_streams st sd l = live st (sd_streams sd l)) ∧ step_decoded st sd = sd_decoded sd.
Proof.
  intros E. unfold step_streams, step_decoded, es_batch, ids_where. rewrite E. cbn. split.
  - intros l. by destruct (es_calls st !! l).
  - by rewrite (left_id_L ∅ (∪)), difference_empty_L.
Qed.

(** A step of the engine. *)
Lemma engine_step_ok sd (st : EngineStep (B := B)) s :
  engine_ok sd s → step_ok sd st →
  ∃ outs s', engine_step context_attention_fwd impls st s = (Ok outs, s')
  ∧ engine_ok (sched_step sd st) s' ∧ step_rows sd st outs.
Proof.
  intros Hs Hst. destruct (head_ok sd s st Hs Hst) as (s1 & E1 & [Hws1 Hh1] & Hb1).
  pose proof Hst as (Hcount & _ & Hcalls & _). unfold engine_step. rewrite st_bind_eq, E1, total_scheduled_zero by done.
  case_bool_decide as Hne.
  - destruct (grow_nothing sd st Hne) as [G1 G2]. exists [], s1. split; [done|]. split; [|by intros ?]. split; [done|].
    intros l Hl. destruct (Hh1 l Hl) as (c0 & table & cache & H). exists c0, table, cache.
    cbn [sched_step sched_head sd_streams sd_tables sd_decoded] in *. by rewrite G1, G2.
  - assert (length (zip impls (es_calls st)) = length caches) as Lz by (rewrite length_zip_with; lia).
    destruct (forward_layers_ok sd st (zip impls (es_calls st)) 0 s1 Hst Hne Himpl) as (outs & s2 & E2 & Hws2 & _ & _ & Hh2 & Hr2).
    + intros i impl call Hic. apply lookup_zip_with_Some in Hic as (a & b & [= -> ->] & Ha & Hb'). done.
    + intros i Hi. apply Hh1. lia.
    + done.
    + done.
    + exists outs, s2. split; [done|]. split; [split; [done|]|].
      * intros l Hl. apply (Hh2 l). lia.
      * intros _ l impl call Hi Hc. apply (Hr2 l impl call). apply lookup_zip_with_Some. by exists impl, call.
Qed.

Lemma engine_run_ok steps : ∀ sd s,
  engine_ok sd s → run_ok sd steps →
  ∃ outs s', engine_run context_attention_fwd impls steps s = (Ok outs, s')
  ∧ engine_ok (fold_left sched_step steps sd) s' ∧ run_rows sd steps outs.
Proof.
  induction steps as [|st steps IH]; intros sd s Hs Hrun; [by exists [], s|]. destruct Hrun as [Hst Hrun].
  destruct (engine_step_ok sd st s Hs Hst) as (o & s1 & E1 & Hs1 & Hr1).
  destruct (IH _ _ Hs1 Hrun) as (outs & s2 & E2 & Hs2 & Hr2). exists (o :: outs), s2.
  cbn [engine_run]. by rewrite st_bind_eq, E1, st_bind_eq, E2.
Qed.

(** The worker before the first request. *)
Lemma register_layers n k (b : Bridge (Obj := RtObject)) :
  br_impls (st_for (seq k n) register_layer b).2 = list_to_map (map (λ l, (l, Some ∅)) (seq k n)) ∪ br_impls b.
Proof.
  revert k b. induction n as [|n IH]; intros k b; [symmetry; apply (left_id_L ∅ (∪))|].
  cbn [seq st_for]. rewrite st_bind_eq. unfold register_layer at 1, rabit2_register_attention_impl, st_modify.
  cbn [snd]. rewrite IH. cbn [br_impls map]. rewrite list_to_map_cons, <-insert_union_l, <-insert_union_r; [done|].
  apply not_elem_of_list_to_map_1. rewrite <-list_fmap_compose. intros Hin. apply list_elem_of_In, in_map_iff in Hin.
  destruct Hin as (j & <- & Hj%in_seq). cbn in Hj. lia.
Qed.

Lemma engine_init_ok : Forall cache_ok caches → engine_ok sched_init (engine_init caches).
Proof.
  intros Hc. split; [unfold engine_init; cbn [en_ws]; apply no_workspaces_ok|]. intros l Hl. destruct (lookup_lt_is_Some_2 caches l Hl) as [c0 Hc0].
  exists c0, ∅, c0. unfold engine_init. cbn [en_bridge en_caches]. split; [done|]. split.
  { rewrite register_layers. cbn [br_impls]. rewrite (right_id_L ∅ (∪)). apply elem_of_list_to_map_1.
    - rewrite <-list_fmap_compose. apply NoDup_fmap; [by intros ? ? [=]|]. apply NoDup_ListNoDup, seq_NoDup.
    - apply list_elem_of_In, in_map_iff. exists l. split; [done|]. apply in_seq. lia. }
  split.
  { apply elem_of_list_to_map_1.
    - rewrite fst_zip by (rewrite length_seq; lia). apply NoDup_ListNoDup, seq_NoDup.
    - apply list_elem_of_lookup. exists l. apply lookup_zip_with_Some. exists l, c0. split; [done|]. split; [|done].
      by apply lookup_seq. }
  split; [done|]. split; [done|]. split; [|split].
  - intros ws out Hws. split; [rewrite Forall_lookup in Hc; by eapply Hc|]. split; [done|]. intros id kx vx [=].
  - intros id o [=].
  - intros id [v [=]].
Qed.

(** ** Property *)

(** Runs of the worker are served.  From a freshly constructed worker, over any sequence
    of steps that finish, preempt, start, continue and decode requests, under the conditions
    of [run_ok]: counts that are the lengths of the streams, tables that keep the pages
    written and share none, and no several tokens at once for a request after a step that
    gave it a single one while it held four or more.  Then no step raises; every output row
    of every layer is the attention of its request's own stream; and at the end every
    live request has in every layer the sidecar of its stream, with the length the
    scheduler counts. *)
Theorem engine_serves_runs (steps : list (EngineStep (B := B))) :
  Forall cache_ok caches → run_ok sched_init steps →
  let sd := fold_left sched_step steps sched_init in
  ∃ outs s', engine_run context_attention_fwd impls steps (engine_init caches) = (Ok outs, s')
  ∧ run_rows sched_init steps outs
  ∧ (∀ l id kx vx, (l < length caches)%nat → sd_streams sd l !! id = Some (kx, vx) →
       ∃ o, sidecar_of_request (en_bridge s') l id = Some o ∧ ob_rt o = runtime_of h g kx vx
         ∧ runtime_total_tokens (ob_rt o) = length kx
         ∧ ∃ c, en_caches s' !! l = Some c ∧ pages_in h g (sd_tables sd id) kx vx c).
Proof.
  intros Hc Hrun sd. destruct (engine_run_ok steps _ _ (engine_init_ok Hc) Hrun) as (outs & s' & E & [Hws Hh] & Hr).
  exists outs, s'. split; [done|]. split; [done|]. intros l id kx vx Hl Hid.
  destruct (Hh l Hl) as (c0 & table & cache & _ & H2 & H3 & _ & _ & H6 & _).
  destruct (H6 (en_ws s') [] Hws) as (_ & _ & Hst). destruct (Hst id kx vx Hid) as (Hs & Hp & o & Ho & Er & _).
  exists o. unfold sidecar_of_request. rewrite H2. split; [done|]. split; [done|].
  split; [rewrite Er; apply (runtime_of_tokens h g NQ HQ), Hs|]. by exists cache.
Qed.
End Serving.

(** ** A concrete run *)

Section Concrete.
#[local] Existing Instance FixedTorch.
#[local] Existing Instance FixedTriton.
#[local] Existing Instance zero_memory.
#[local] Existing Instance FixedReduce.
#[local] Existing Instance bf16_type.
#[local] Existing Instance FixedTorch_laws.
#[local] Existing Instance FixedTriton_laws.
#[local] Existing Instance FixedZero.
#[local] Existing Instance default_environ.

Definition run_call (n : nat) (starts : list Z) (rows : list (list nat)) : LayerCall :=
  (mkStep true 4 64 (replicate n (replicate 256 7%Z)) (fixed_keys n 2) (fixed_keys n 2) (Z.of_nat n) starts [] rows false false,
   replicate n (replicate 256 0%Z)).

(** A prompt of 36 tokens; a decode beside another prompt; a release. *)
Definition run_steps : list (EngineStep (B := Z)) :=
  [mkEngineStep [] [] ["a"] {["a" := 36%Z]} {["a" := 0%Z]} [[3%nat]] [run_call 36 [0; 36]%Z [[3%nat]]];
   mkEngineStep [] [] ["a"; "b"] {["a" := 1%Z; "b" := 2%Z]} {["a" := 36%Z; "b" := 0%Z]} [[3]; [0]]%nat
     [run_call 3 [0; 1; 3]%Z [[3]; [0]]%nat];
   mkEngineStep ["a"] [] [] ∅ ∅ [] [run_call 0 [0%Z] []]].

Definition no_step : EngineStep (B := Z) := mkEngineStep [] [] [] ∅ ∅ [] [].

Lemma run_inputs n starts rows (call := run_call n starts rows) :
  (input_ok 1 2 (si_key call.1) (call_keys call) ∧ input_ok 1 2 (si_value call.1) (call_values call)
   ∧ length (call_keys call) = length (call_values call))
  ∧ (si_q_cuda call.1 = true ∧ si_q_heads call.1 = 4%nat ∧ si_q_dim call.1 = 64%nat)
  ∧ ((length (call_keys call) ≤ length (si_query call.1))%nat
     ∧ Forall (λ r : list Z, length r = (4 * 64)%nat) (si_query call.1)).
Proof.
  assert (length (call_keys call) = n) as Hk by apply fixed_rows_length.
  split; [|split; [done|split]].
  - split; [|split; [|done]]; (split; [reflexivity|split; [apply fixed_rows_wf|exact I]]).
  - rewrite Hk. cbn [call run_call fst si_query]. by rewrite length_replicate.
  - cbn [call run_call fst si_query]. apply Forall_replicate. by rewrite length_replicate.
Qed.

Lemma fixed_item tables (x : StepInput (B := Z)) KEY VAL i p streams c id q_len ctx :
  (0 < q_len)%Z → (0 ≤ ctx)%Z → length (stream_of streams id).1 = Z.to_nat ctx → ((0 < ctx)%Z → is_Some (streams !! id)) →
  si_block_table x !! i = Some (tables id) → table_ok 1 64 (Z.to_nat ctx + Z.to_nat q_len) (tables id) c →
  (∀ id' kx' vx', id' ≠ id → streams !! id' = Some (kx', vx') →
     owned tables id (Z.to_nat ctx + Z.to_nat q_len) ## owned tables id' (length kx')) →
  (p + Z.to_nat q_len ≤ length KEY)%nat →
  item_ok 1 2 tables x KEY VAL i p streams c (id, q_len, ctx).
Proof. intros. split_and!; try done. intros j _. apply fixed_open. Qed.

Lemma run_steps_1 : step_ok 1 2 4 [fixed_impl] [zero_cache 5] sched_init (nth 0 run_steps no_step).
Proof.
  cbn [nth run_steps]. set (st := mkEngineStep _ _ _ _ _ _ _). destruct (run_inputs 36 [0; 36]%Z [[3%nat]]) as (I1 & I2 & I3).
  split; [by constructor; [exists 36%Z, 0%Z|]|]. split; [by constructor|]. split; [done|]. split; [|split].
  - intros l id kx vx _ Hid. apply live_lookup in Hid as ([=] & _).
  - constructor; [|done]. intros _ H. by vm_compute in H.
  - intros _ [|l] impl call Hi Hc; [|done]. injection Hi as <-. injection Hc as <-.
    split; [done|]. split; [exact I1|]. split; [exact I2|]. split; [exact I3|]. split; [done|]. split; [done|]. split; [done|].
    exists (zero_cache 5). split; [done|]. split; [|split; [apply not_elem_of_nil|exact I]].
    apply (fixed_item _ _ _ _ 0 0 _ _ "a" 36 0); try done.
    apply small_table; [by vm_compute; lia|lia].
Qed.

(** After the first step only ["a"] has tokens, 36 of them. *)
Lemma run_streams_1 (st : EngineStep (B := Z)) id kx vx :
  live st (sd_streams (sched_step sched_init (nth 0 run_steps no_step)) 0) !! id = Some (kx, vx) →
  id = "a" ∧ length kx = 36%nat.
Proof.
  intros [Hid _]%live_lookup. assert (id = "a") as ->.
  { apply mk_is_Some, grow_all_dom in Hid as [H|[s [[=] _]%live_lookup]]. by apply list_elem_of_singleton in H. }
  split; [done|]. injection Hid as <- _. reflexivity.
Qed.

Lemma run_steps_2 :
  step_ok 1 2 4 [fixed_impl] [zero_cache 5] (sched_step sched_init (nth 0 run_steps no_step)) (nth 1 run_steps no_step).
Proof.
  pose proof (run_streams_1 (nth 1 run_steps no_step)) as Hs. set (sd := sched_step _ _) in *.
  change (nth 1 run_steps no_step) with (mkEngineStep [] [] ["a"; "b"] {["a" := 1%Z; "b" := 2%Z]} {["a" := 36%Z; "b" := 0%Z]}
    [[3]; [0]]%nat [run_call 3 [0; 1; 3]%Z [[3]; [0]]%nat]) in *.
  destruct (run_inputs 3 [0; 1; 3]%Z [[3]; [0]]%nat) as (I1 & I2 & I3). set (call := run_call _ _ _) in *.
  set (st := mkEngineStep _ _ _ _ _ _ _) in *.
  split; [by constructor; [exists 1%Z, 36%Z|constructor; [exists 2%Z, 0%Z|]]|]. split; [by repeat constructor|].
  split; [done|]. split; [|split].
  - intros [|l] id kx vx Hl Hid; [|cbn in Hl; lia]. destruct (Hs id kx vx Hid) as [-> ->]. reflexivity.
  - constructor; [|constructor; [|done]]; intros H1 H2; by vm_compute in H1, H2.
  - intros _ [|l] impl ca Hi Hc; [|done]. injection Hi as <-. injection Hc as <-.
    split; [done|]. split; [exact I1|]. split; [exact I2|]. split; [exact I3|]. split; [done|]. split; [done|]. split; [done|].
    exists (zero_cache 5). split; [done|].
    split; [|split; [apply (bool_decide_unpack _); by vm_compute|split; [|split; [apply not_elem_of_nil|exact I]]]].
    + apply (fixed_item _ _ _ _ 0 0 _ _ "a" 1 36); try done.
      * apply small_table; [by vm_compute; lia|lia].
      * intros id' kx' vx' Hne Hid. by destruct (Hs id' kx' vx' Hid).
      * by apply Nat.leb_le.
    + apply (fixed_item _ _ _ _ 1 1 _ _ "b" 2 0); try done.
      * apply small_table; [by vm_compute; lia|lia].
      * intros id' kx' vx' _ _ b Hb. vm_compute in Hb. by apply not_elem_of_nil in Hb.
Qed.

Lemma run_steps_3 :
  step_ok 1 2 4 [fixed_impl] [zero_cache 5] (sched_step (sched_step sched_init (nth 0 run_steps no_step)) (nth 1 run_steps no_step))
    (nth 2 run_steps no_step).
Proof. split; [constructor|]. split; [constructor|]. split; [done|]. split; [done|]. split; [constructor|done]. Qed.

(** The three steps over one layer. *)
Lemma engine_serves_runs_witness :
  ∃ outs s', engine_run copy_attention [fixed_impl] run_steps (engine_init [zero_cache 5]) = (Ok outs, s')
  ∧ run_rows 1 2 4 copy_attention [fixed_impl] sched_init run_steps outs.
Proof.
  destruct (engine_serves_runs 1 2 4 one_head_runtime four_heads copy_attention default_environ_ok [fixed_impl] [zero_cache 5]
    eq_refl ltac:(by repeat constructor) run_steps) as (outs & s' & E & Hr & _).
  - constructor; [apply zero_cache_ok|constructor].
  - exact (conj run_steps_1 (conj run_steps_2 (conj run_steps_3 I))).
  - exists outs, s'. by split.
Defined.
End Concrete.
