(* ===== verification/FreeQueue.v ===== *)
(** * The free queue of cache blocks

    [v1/core/kv_cache_utils.py]: the metadata of a cache block and
    [FreeKVCacheBlockQueue], a doubly linked list threaded through the blocks, with
    a fake head and a fake tail.  Blocks are objects shared with the pool and the
    requests, so the heap of all blocks is the state; an object is named by where it
    was created.  [queue_of] is the heap that links a given list, and every
    operation is proved to take it to the heap of the list it means. *)

From Stdlib Require Import ZArith Lia.
From stdpp Require Import base tactics numbers list option functions gmap.
From S2P Require Import Prelude.

(** ** Blocks *)

Inductive Ref :=
  | Block (i : nat)
  | FakeHead
  | FakeTail.

#[export] Instance ref_eq_dec : EqDecision Ref.
Proof. solve_decision. Defined.

#[export] Instance ref_countable : Countable Ref.
Proof.
  apply (inj_countable' (λ r, match r with Block i => inl i | FakeHead => inr true | FakeTail => inr false end)
    (λ x, match x with inl i => Block i | inr true => FakeHead | inr false => FakeTail end)).
  by intros [].
Defined.

(** [BlockHash] and [BlockHashWithGroupId] are byte strings. *)
Definition BlockHash : Type := list Z.
Definition BlockHashWithGroupId : Type := list Z.

Record KVCacheBlock := mkBlock {
  block_id : Z;
  ref_cnt : Z;
  block_hash : option BlockHashWithGroupId;
  block_hash_num_tokens : option Z;
  prev_free_block : option Ref;
  next_free_block : option Ref;
  is_null : bool
}.

(** [KVCacheBlock(block_id)] *)
Definition new_block (id : Z) : KVCacheBlock := mkBlock id 0 None None None None false.

Definition set_prev (p : option Ref) (b : KVCacheBlock) : KVCacheBlock :=
  mkBlock (block_id b) (ref_cnt b) (block_hash b) (block_hash_num_tokens b) p (next_free_block b) (is_null b).
Definition set_next (n : option Ref) (b : KVCacheBlock) : KVCacheBlock :=
  mkBlock (block_id b) (ref_cnt b) (block_hash b) (block_hash_num_tokens b) (prev_free_block b) n (is_null b).
Definition set_ref_cnt (c : Z) (b : KVCacheBlock) : KVCacheBlock :=
  mkBlock (block_id b) c (block_hash b) (block_hash_num_tokens b) (prev_free_block b) (next_free_block b) (is_null b).
Definition set_null (b : KVCacheBlock) : KVCacheBlock :=
  mkBlock (block_id b) (ref_cnt b) (block_hash b) (block_hash_num_tokens b) (prev_free_block b) (next_free_block b) true.
Definition with_hash (h : option BlockHashWithGroupId) (n : option Z) (b : KVCacheBlock) : KVCacheBlock :=
  mkBlock (block_id b) (ref_cnt b) h n (prev_free_block b) (next_free_block b) (is_null b).

(** [reset_hash] *)
Definition reset_hash (b : KVCacheBlock) : KVCacheBlock := with_hash None None b.

(** The heap of the blocks, with the queue's counter. *)
Record Queue := mkQueue {
  q_heap : gmap Ref KVCacheBlock;
  num_free_blocks : Z
}.

Definition load (r : Ref) : ST Queue KVCacheBlock := λ s,
  match q_heap s !! r with Some b => (Ok b, s) | None => (Err AttributeError, s) end.

Definition update (r : Ref) (f : KVCacheBlock → KVCacheBlock) : ST Queue unit := λ s,
  match q_heap s !! r with
  | Some b => (Ok tt, mkQueue (<[r := f b]> (q_heap s)) (num_free_blocks s))
  | None => (Err AttributeError, s)
  end.

Definition create (r : Ref) (b : KVCacheBlock) : ST Queue unit :=
  st_modify (λ s, mkQueue (<[r := b]> (q_heap s)) (num_free_blocks s)).

Definition add_free (n : Z) : ST Queue unit :=
  st_modify (λ s, mkQueue (q_heap s) (num_free_blocks s + n)).

(** An attribute of [None], and [assert x is not None]. *)
Definition deref (o : option Ref) : ST Queue Ref :=
  st_lift (match o with Some r => Ok r | None => Err AttributeError end).
Definition assert_some (o : option Ref) : ST Queue Ref :=
  st_lift (match o with Some r => Ok r | None => Err AssertionError end).

(** [set_block_hash] *)
Definition set_block_hash (r : Ref) (h : BlockHashWithGroupId) (num_tokens : option Z) : ST Queue unit :=
  b ← load r;
  st_raise_if (negb (bool_decide (block_hash b = None) && bool_decide (block_hash_num_tokens b = None))) AssertionError;;
  update r (with_hash (Some h) num_tokens).

(** ** The queue *)

Module FreeKVCacheBlockQueue.

(** The links between consecutive blocks. *)
Definition init_links (blocks : list Ref) (i : nat) : ST Queue unit :=
  match blocks !! i with
  | Some b =>
      (if (0 <? i)%nat then update b (set_prev (blocks !! (i - 1)%nat)) else mret tt);;
      (if (i <? length blocks - 1)%nat then update b (set_next (blocks !! (i + 1)%nat)) else mret tt)
  | None => st_lift (Err IndexError)
  end.

Definition init (blocks : list Ref) : ST Queue unit :=
  st_modify (λ s, mkQueue (q_heap s) (Z.of_nat (length blocks)));;
  st_for (seq 0 (length blocks)) (init_links blocks);;
  create FakeHead (new_block (-1));;
  create FakeTail (new_block (-1));;
  match blocks with
  | first :: _ =>
      update FakeHead (set_next (Some first));;
      update first (set_prev (Some FakeHead));;
      update FakeTail (set_prev (Some (List.last blocks first)));;
      update (List.last blocks first) (set_next (Some FakeTail))
  | [] =>
      update FakeHead (set_next (Some FakeTail));;
      update FakeTail (set_prev (Some FakeHead))
  end.

Definition popleft : ST Queue Ref :=
  hd ← load FakeHead;
  if bool_decide (next_free_block hd = Some FakeTail) || bool_decide (next_free_block hd = None) then
    s ← st_get;
    st_raise_if (negb (num_free_blocks s =? 0)%Z) AssertionError;;
    st_lift (Err ValueError)
  else
    first_block ← deref (next_free_block hd);
    fb ← load first_block;
    match next_free_block fb with
    | None => st_lift (Err RuntimeError)
    | Some second =>
        update FakeHead (set_next (Some second));;
        update second (set_prev (Some FakeHead));;
        update first_block (set_prev None);;
        update first_block (set_next None);;
        add_free (-1);;
        mret first_block
    end.

(** The loop of [popleft_n]: the blocks popped and the block reached. *)
Fixpoint pop_loop (n : nat) (curr_block : option Ref) (ret : list Ref) : ST Queue (list Ref * option Ref) :=
  match n with
  | 0%nat => mret (ret, curr_block)
  | S n =>
      r ← assert_some curr_block;
      b ← load r;
      update r (set_prev None);;
      update r (set_next None);;
      pop_loop n (next_free_block b) (ret ++ [r])
  end.

Definition popleft_n (n : Z) : ST Queue (list Ref) :=
  if (n =? 0)%Z then mret [] else
  s ← st_get;
  st_raise_if (num_free_blocks s <? n)%Z AssertionError;;
  add_free (- n);;
  hd ← load FakeHead;
  '(ret, curr_block) ← pop_loop (Z.to_nat n) (next_free_block hd) [];
  match curr_block with
  | Some c =>
      update FakeHead (set_next (Some c));;
      update c (set_prev (Some FakeHead));;
      mret ret
  | None => mret ret
  end.

Definition remove (block : Ref) : ST Queue unit :=
  b ← load block;
  match prev_free_block b, next_free_block b with
  | Some p, Some n =>
      update p (set_next (Some n));;
      update n (set_prev (Some p));;
      update block (set_prev None);;
      update block (set_next None);;
      add_free (-1)
  | _, _ => st_lift (Err RuntimeError)
  end.

Definition append (block : Ref) : ST Queue unit :=
  tl ← load FakeTail;
  match prev_free_block tl with
  | None => st_lift (Err RuntimeError)
  | Some last_block =>
      update last_block (set_next (Some block));;
      update block (set_prev (Some last_block));;
      update block (set_next (Some FakeTail));;
      update FakeTail (set_prev (Some block));;
      add_free 1
  end.

(** The loops of [prepend_n] and [append_n] link their blocks behind [prev_block]
    and return the last one. *)
Fixpoint prepend_links (prev_block : Ref) (blocks : list Ref) : ST Queue Ref :=
  match blocks with
  | [] => mret prev_block
  | block :: blocks =>
      update block (set_prev (Some prev_block));;
      update prev_block (set_next (Some block));;
      prepend_links block blocks
  end.

Definition prepend_n (blocks : list Ref) : ST Queue unit :=
  if (length blocks =? 0)%nat then mret tt else
  hd ← load FakeHead;
  first_block ← assert_some (next_free_block hd);
  prev_block ← prepend_links FakeHead blocks;
  update prev_block (set_next (Some first_block));;
  update first_block (set_prev (Some prev_block));;
  add_free (Z.of_nat (length blocks)).

Definition append_n (blocks : list Ref) : ST Queue unit :=
  if (length blocks =? 0)%nat then mret tt else
  tl ← load FakeTail;
  last_block ← assert_some (prev_free_block tl);
  last_block ← prepend_links last_block blocks;
  update last_block (set_next (Some FakeTail));;
  update FakeTail (set_prev (Some last_block));;
  add_free (Z.of_nat (length blocks)).

(** The walk of [get_all_free_blocks], with the number of steps it may take; [None]
    when they do not suffice. *)
Fixpoint walk (fuel : nat) (curr_block : Ref) (ret : list Ref) : ST Queue (option (list Ref)) :=
  match fuel with
  | 0%nat => mret None
  | S fuel =>
      b ← load curr_block;
      match next_free_block b with
      | Some next => walk fuel next (ret ++ [curr_block])
      | None => mret (Some ret)
      end
  end.

Definition get_all_free_blocks (fuel : nat) : ST Queue (option (list Ref)) :=
  hd ← load FakeHead;
  match next_free_block hd with
  | None => st_lift (Err RuntimeError)
  | Some first => walk fuel first []
  end.

End FreeKVCacheBlockQueue.

(** ** Chains *)

(** The neighbours of a block in a chain of blocks. *)
Fixpoint next_in (c : list Ref) (r : Ref) : option Ref :=
  match c with
  | [] => None
  | a :: c' =>
      match c' with
      | [] => None
      | b :: _ => if decide (a = r) then Some b else next_in c' r
      end
  end.

Fixpoint prev_in (c : list Ref) (r : Ref) : option Ref :=
  match c with
  | [] => None
  | a :: c' =>
      match c' with
      | [] => None
      | b :: _ => if decide (b = r) then Some a else prev_in c' r
      end
  end.

Lemma next_in_cons a b c r : next_in (a :: b :: c) r = if decide (a = r) then Some b else next_in (b :: c) r.
Proof. done. Qed.
Lemma prev_in_cons a b c r : prev_in (a :: b :: c) r = if decide (b = r) then Some a else prev_in (b :: c) r.
Proof. done. Qed.

Lemma next_in_not c r : r ∉ c → next_in c r = None.
Proof.
  induction c as [|a [|b c] IH]; intros H; [done|done|]. rewrite next_in_cons.
  apply not_elem_of_cons in H as [Hn H]. rewrite decide_False by done. by apply IH.
Qed.

Lemma prev_in_not a c r : r ∉ c → prev_in (a :: c) r = None.
Proof.
  revert a. induction c as [|b c IH]; intros a H; [done|]. rewrite prev_in_cons.
  apply not_elem_of_cons in H as [Hn H]. rewrite decide_False by done. by apply IH.
Qed.

(** A chain cut at one of its blocks. *)
Lemma next_in_mid A a c r :
  NoDup (A ++ a :: c) → next_in (A ++ a :: c) r = if decide (r ∈ A) then next_in (A ++ [a]) r else next_in (a :: c) r.
Proof.
  induction A as [|x A IH]; intros Hn.
  { by rewrite decide_False by apply not_elem_of_nil. }
  apply NoDup_cons in Hn as [Hx Hn]. specialize (IH Hn). cbn [app].
  assert (∀ t, next_in (x :: A ++ a :: t) r = if decide (x = r) then head (A ++ [a]) else next_in (A ++ a :: t) r) as E.
  { intros t. by destruct A. }
  rewrite E, E, IH. destruct (decide (x = r)) as [->|Hne].
  { by rewrite decide_True by left. }
  destruct (decide (r ∈ A)) as [Hin|Hin]; [by rewrite decide_True by (by right)|].
  rewrite decide_False; [done|]. by apply not_elem_of_cons.
Qed.

Lemma prev_in_mid A a c r :
  NoDup (A ++ a :: c) → prev_in (A ++ a :: c) r = if decide (r ∈ c) then prev_in (a :: c) r else prev_in (A ++ [a]) r.
Proof.
  induction A as [|x A IH]; intros Hn.
  { cbn [app]. destruct (decide (r ∈ c)); [done|]. by apply prev_in_not. }
  apply NoDup_cons in Hn as [Hx Hn]. specialize (IH Hn). cbn [app].
  assert (∀ t, prev_in (x :: A ++ a :: t) r = if decide (head (A ++ [a]) = Some r) then Some x else prev_in (A ++ a :: t) r) as E.
  { intros t. destruct A as [|y A]; cbn [app head]; rewrite prev_in_cons;
      by destruct (decide (_ = r)), (decide (Some _ = Some r)); simplify_eq. }
  rewrite E, E, IH. destruct (decide (head (A ++ [a]) = Some r)) as [Hh|Hh]; [|by destruct (decide (r ∈ c))].
  rewrite decide_False; [done|]. apply NoDup_app in Hn as (_ & H1 & H2). apply NoDup_cons in H2 as [H2 _].
  destruct A as [|y A]; cbn in Hh; simplify_eq; [done|]. intros Hc. apply (H1 r); [by left|by right].
Qed.

Lemma next_in_here A a b C : NoDup (A ++ a :: b :: C) → next_in (A ++ a :: b :: C) a = Some b.
Proof.
  intros Hn. rewrite next_in_mid, decide_False, next_in_cons, decide_True; [done|done| |done].
  apply NoDup_app in Hn as (_ & Hn & _). intros Ha. apply (Hn a Ha). by left.
Qed.

Lemma prev_in_here A a b C : NoDup (A ++ a :: b :: C) → prev_in (A ++ a :: b :: C) b = Some a.
Proof. intros Hn. rewrite prev_in_mid, decide_True, prev_in_cons, decide_True; [done|done|by left|done]. Qed.

Lemma prev_in_out c r : r ∉ c → prev_in c r = None.
Proof. destruct c as [|a c]; [done|]. intros H. apply prev_in_not. by apply not_elem_of_cons in H as [_ ?]. Qed.

(** The chain of a queue. *)
Definition chain (l : list Ref) : list Ref := FakeHead :: l ++ [FakeTail].

(** The heap [D] with the links of a chain; its own links do not matter. *)
Definition relink (D : gmap Ref KVCacheBlock) (nx px : Ref → option Ref) : gmap Ref KVCacheBlock :=
  map_imap (λ r b, Some (set_prev (px r) (set_next (nx r) b))) D.

Definition queue_of (D : gmap Ref KVCacheBlock) (l : list Ref) : Queue :=
  mkQueue (relink D (next_in (chain l)) (prev_in (chain l))) (Z.of_nat (length l)).

(** A queue of distinct blocks of the heap. *)
Definition queue_ok (D : gmap Ref KVCacheBlock) (l : list Ref) : Prop :=
  NoDup (chain l) ∧ ∀ r, r ∈ chain l → is_Some (D !! r).

Lemma relink_lookup D nx px r : relink D nx px !! r = (λ b, set_prev (px r) (set_next (nx r) b)) <$> D !! r.
Proof. unfold relink. rewrite map_lookup_imap. by destruct (D !! r). Qed.

Lemma relink_ext D nx px nx' px' :
  (∀ r, is_Some (D !! r) → nx r = nx' r ∧ px r = px' r) → relink D nx px = relink D nx' px'.
Proof.
  intros H. apply map_eq. intros r. rewrite !relink_lookup. destruct (D !! r) as [b|] eqn:E; [|done].
  cbn. destruct (H r) as [-> ->]; [by eexists|done].
Qed.

(** Steps on a relinked heap. *)
Lemma load_relink D nx px k r b :
  D !! r = Some b → load r (mkQueue (relink D nx px) k) = (Ok (set_prev (px r) (set_next (nx r) b)), mkQueue (relink D nx px) k).
Proof. intros H. unfold load. cbn [q_heap]. by rewrite relink_lookup, H. Qed.

Lemma update_next D nx px k r n :
  is_Some (D !! r) → update r (set_next n) (mkQueue (relink D nx px) k) = (Ok tt, mkQueue (relink D (<[r := n]> nx) px) k).
Proof.
  intros [b H]. unfold update. cbn [q_heap num_free_blocks]. rewrite relink_lookup, H. cbn [fmap option_fmap option_map].
  do 2 f_equal. apply map_eq. intros r'. rewrite relink_lookup. destruct (decide (r = r')) as [<-|Hne].
  - by rewrite lookup_insert_eq, H, fn_lookup_insert.
  - by rewrite lookup_insert_ne, relink_lookup, fn_lookup_insert_ne.
Qed.

Lemma update_prev D nx px k r p :
  is_Some (D !! r) → update r (set_prev p) (mkQueue (relink D nx px) k) = (Ok tt, mkQueue (relink D nx (<[r := p]> px)) k).
Proof.
  intros [b H]. unfold update. cbn [q_heap num_free_blocks]. rewrite relink_lookup, H. cbn [fmap option_fmap option_map].
  do 2 f_equal. apply map_eq. intros r'. rewrite relink_lookup. destruct (decide (r = r')) as [<-|Hne].
  - by rewrite lookup_insert_eq, H, fn_lookup_insert.
  - by rewrite lookup_insert_ne, relink_lookup, fn_lookup_insert_ne.
Qed.

Lemma queue_ok_elem D l r : queue_ok D l → r ∈ chain l → is_Some (D !! r).
Proof. intros [_ H]. apply H. Qed.

(** A link set at the end of a walk over the chain. *)
Definition or_else (o d : option Ref) : option Ref := match o with Some x => Some x | None => d end.

Lemma fn_at (f : Ref → option Ref) a t r : <[a := t]> f r = if decide (a = r) then t else f r.
Proof. done. Qed.

Lemma queue_of_relink D nx px l k :
  k = Z.of_nat (length l) →
  (∀ r, is_Some (D !! r) → nx r = next_in (chain l) r ∧ px r = prev_in (chain l) r) →
  mkQueue (relink D nx px) k = queue_of D l.
Proof. intros -> H. unfold queue_of. f_equal. by apply relink_ext. Qed.

Lemma next_in_snoc A a b r : NoDup (A ++ [a; b]) → next_in (A ++ [a; b]) r = if decide (a = r) then Some b else next_in (A ++ [a]) r.
Proof.
  intros Hn. rewrite next_in_mid by done. cbn [next_in]. destruct (decide (a = r)) as [->|Hne].
  - rewrite decide_False; [done|]. apply NoDup_app in Hn as (_ & Hn & _). intros Hr. apply (Hn r Hr). by left.
  - destruct (decide (r ∈ A)) as [Hr|Hr]; [done|]. symmetry. apply next_in_not.
    rewrite not_elem_of_app, list_elem_of_singleton. naive_solver.
Qed.

Lemma prev_in_snoc A a b r : NoDup (A ++ [a; b]) → prev_in (A ++ [a; b]) r = if decide (b = r) then Some a else prev_in (A ++ [a]) r.
Proof.
  intros Hn. rewrite prev_in_mid by done. cbn [prev_in]. destruct (decide (b = r)) as [->|Hne].
  - by rewrite decide_True by (by left).
  - rewrite decide_False; [done|]. by rewrite list_elem_of_singleton.
Qed.

(** The two ends of a chain. *)
Lemma chain_first l : ∃ f R, chain l = FakeHead :: f :: R ∧ l ++ [FakeTail] = f :: R.
Proof. destruct l as [|x l]; [by exists FakeTail, []|by exists x, (l ++ [FakeTail])]. Qed.

Lemma chain_last l : ∃ A z, chain l = A ++ [z; FakeTail] ∧ FakeHead :: l = A ++ [z].
Proof.
  destruct (exists_last (l := FakeHead :: l)) as (A & z & E); [done|]. exists A, z. split; [|done].
  unfold chain. change (FakeHead :: l ++ [FakeTail]) with ((FakeHead :: l) ++ [FakeTail]). by rewrite E, <-app_assoc.
Qed.

Lemma add_free_eq n h k : add_free n (mkQueue h k) = (Ok tt, mkQueue h (k + n)).
Proof. done. Qed.
Lemma st_ret_eq {S A} (a : A) (s : S) : (mret a : ST S A) s = (Ok a, s).
Proof. done. Qed.

(** Run the assignments of links of a relinked heap. *)
Ltac run_links :=
  repeat first [ rewrite st_bind_eq, update_next by (done || by eexists)
               | rewrite st_bind_eq, update_prev by (done || by eexists)
               | rewrite st_bind_eq, add_free_eq
               | rewrite update_next by (done || by eexists)
               | rewrite update_prev by (done || by eexists)
               | rewrite add_free_eq ];
  rewrite ?st_ret_eq.

Ltac fn_cases :=
  repeat first [ rewrite fn_at | rewrite next_in_cons | rewrite prev_in_cons ]; repeat case_decide; simplify_eq; try done.

#[global] Arguments next_in : simpl never.
#[global] Arguments prev_in : simpl never.

Module FreeQueueSpec.
Import FreeKVCacheBlockQueue.

(** [popleft]. *)
Lemma popleft_ok D x l : queue_ok D (x :: l) → popleft (queue_of D (x :: l)) = (Ok x, queue_of D l).
Proof.
  intros [Hn Hd]. destruct (chain_first l) as (f & R & Ec & El).
  assert (chain (x :: l) = FakeHead :: x :: f :: R) as E by (unfold chain; cbn [app]; by rewrite El).
  unfold queue_of at 1. rewrite E in Hn, Hd |- *. apply NoDup_cons in Hn as [N1 Hn]. apply NoDup_cons in Hn as [N2 Hn].
  destruct (Hd FakeHead) as [hd Hhd]; [by left|]. destruct (Hd x) as [bx Hx]; [by right; left|].
  assert (is_Some (D !! f)) as Hf by (apply Hd; do 2 right; by left).
  unfold popleft. rewrite st_bind_eq, (load_relink _ _ _ _ _ _ Hhd).
  cbn [next_free_block set_next set_prev]. rewrite next_in_cons, decide_True by done.
  rewrite bool_decide_eq_false_2 by (intros ?; simplify_eq; apply N2; rewrite <-El; set_solver).
  rewrite bool_decide_eq_false_2 by done. cbn [orb]. rewrite st_bind_eq. cbn [deref st_lift].
  rewrite st_bind_eq, (load_relink _ _ _ _ _ _ Hx). cbn [next_free_block set_next set_prev].
  apply not_elem_of_cons in N1 as [N1 N3].
  rewrite next_in_cons, decide_False, next_in_cons, decide_True by done.
  run_links. f_equal. apply queue_of_relink; [cbn [length]; lia|]. intros r _. rewrite Ec.
  apply not_elem_of_cons in N2 as [N2 N4]. split; fn_cases.
  - by rewrite next_in_not by (by apply not_elem_of_cons).
  - by rewrite prev_in_not.
Qed.

Lemma popleft_empty D : queue_ok D [] → popleft (queue_of D []) = (Err ValueError, queue_of D []).
Proof.
  intros [_ Hd]. destruct (Hd FakeHead) as [hd Hhd]; [by left|]. unfold popleft, queue_of.
  by rewrite st_bind_eq, (load_relink _ _ _ _ _ _ Hhd).
Qed.

(** Linking a path of new blocks behind a block. *)
Lemma next_in_some c a r : r ∈ c → is_Some (next_in (c ++ [a]) r).
Proof.
  induction c as [|x c IH]; intros H; [by apply not_elem_of_nil in H|].
  assert (next_in ((x :: c) ++ [a]) r = if decide (x = r) then head (c ++ [a]) else next_in (c ++ [a]) r) as ->
    by (by destruct c).
  destruct (decide (x = r)) as [_|Hne]; [by destruct c; eexists|]. apply IH.
  apply elem_of_cons in H as [->|H]; done.
Qed.

Lemma prev_in_some a c r : r ∈ c → is_Some (prev_in (a :: c) r).
Proof.
  revert a. induction c as [|x c IH]; intros a H; [by apply not_elem_of_nil in H|].
  rewrite prev_in_cons. destruct (decide (x = r)) as [_|Hne]; [by eexists|]. apply IH.
  apply elem_of_cons in H as [->|H]; done.
Qed.

Lemma prepend_links_ok D bs p nx px k :
  NoDup (p :: bs) → (∀ r, r ∈ p :: bs → is_Some (D !! r)) →
  prepend_links p bs (mkQueue (relink D nx px) k)
  = (Ok (List.last bs p), mkQueue (relink D (λ r, or_else (next_in (p :: bs) r) (nx r)) (λ r, or_else (prev_in (p :: bs) r) (px r))) k).
Proof.
  revert p nx px. induction bs as [|b bs IH]; intros p nx px Hn Hd.
  { cbn [prepend_links]. rewrite st_ret_eq. do 2 f_equal. }
  apply NoDup_cons in Hn as [Hp Hn]. cbn [prepend_links].
  assert (is_Some (D !! p)) by (apply Hd; by left). assert (is_Some (D !! b)) by (apply Hd; right; by left).
  run_links. rewrite IH by (done || by (intros r Hr; apply Hd; by right)).
  assert (List.last bs b = List.last (b :: bs) p) as -> by (clear; revert b; induction bs as [|c bs IH]; intros b;
    [done|cbn; destruct bs; [done|apply (IH b)]]).
  do 2 f_equal. apply relink_ext. intros r _. rewrite !fn_at, next_in_cons, prev_in_cons. split.
  - destruct (decide (p = r)) as [->|_]; [|done]. by rewrite next_in_not.
  - destruct (decide (b = r)) as [->|_]; [|done]. rewrite prev_in_not; [done|]. by apply NoDup_cons in Hn as [? _].
Qed.

(** The same path closed at the block that follows. *)
Lemma close_path D bs p t nx px k :
  NoDup (p :: bs ++ [t]) →
  mkQueue (relink D (<[List.last bs p := Some t]> (λ r, or_else (next_in (p :: bs) r) (nx r)))
    (<[t := Some (List.last bs p)]> (λ r, or_else (prev_in (p :: bs) r) (px r)))) k
  = mkQueue (relink D (λ r, or_else (next_in (p :: bs ++ [t]) r) (nx r)) (λ r, or_else (prev_in (p :: bs ++ [t]) r) (px r))) k.
Proof.
  intros Hn. f_equal. destruct (exists_last (l := p :: bs)) as (A & z & E); [done|].
  assert (List.last bs p = z) as ->.
  { transitivity (List.last (p :: bs) p); [by destruct bs|]. by rewrite E, List.last_last. }
  change (p :: bs ++ [t]) with ((p :: bs) ++ [t]) in *. rewrite E, <-app_assoc in *. cbn [app] in *.
  apply relink_ext. intros r _. rewrite !fn_at, next_in_snoc, prev_in_snoc by done.
  by destruct (decide (z = r)), (decide (t = r)).
Qed.

Lemma NoDup_prefix (z t : Ref) (bs A C : list Ref) : NoDup ((z :: bs) ++ A ++ t :: C) → NoDup ((z :: bs) ++ A ++ [t]).
Proof.
  replace ((z :: bs) ++ A ++ t :: C) with (((z :: bs) ++ A ++ [t]) ++ C) by (by rewrite <-!app_assoc).
  by intros [? _]%NoDup_app.
Qed.

Lemma NoDup_path (p t : Ref) (bs : list Ref) : NoDup (p :: bs ++ [t]) → NoDup (p :: bs).
Proof. intros H. change (NoDup ((p :: bs) ++ [t])) in H. by apply NoDup_app in H as [H _]. Qed.

(** New blocks between two neighbours of a chain. *)
Lemma next_splice A z t C bs r :
  NoDup (A ++ z :: bs ++ t :: C) →
  or_else (next_in (z :: bs ++ [t]) r) (next_in (A ++ z :: t :: C) r) = next_in (A ++ z :: bs ++ t :: C) r.
Proof.
  intros Hn. assert (NoDup (A ++ z :: t :: C)) as Ho.
  { apply NoDup_app in Hn as (? & Hd & Hn). apply NoDup_cons in Hn as [? Hn]. apply NoDup_app in Hn as (? & ? & ?).
    rewrite NoDup_app, NoDup_cons. set_solver. }
  rewrite (next_in_mid A z (t :: C)), (next_in_mid A z (bs ++ t :: C)) by done.
  pose proof Hn as (_ & Hd & Hn')%NoDup_app.
  change (z :: bs ++ [t]) with ((z :: bs) ++ [t]). change (z :: bs ++ t :: C) with ((z :: bs) ++ t :: C) in *.
  destruct (decide (r ∈ A)) as [Hr|Hr].
  - rewrite (next_in_not ((z :: bs) ++ [t])); [done|]. specialize (Hd r Hr). set_solver.
  - rewrite (next_in_mid (z :: bs) t C) by done. destruct (decide (r ∈ z :: bs)) as [Hb|Hb].
    + by destruct (next_in_some _ t _ Hb) as [n ->].
    + assert (next_in ((z :: bs) ++ [t]) r = None) as ->; cbn [or_else].
      { rewrite next_in_mid, decide_False; [done|done|]. by apply (NoDup_prefix z t bs [] C). }
      rewrite next_in_cons, decide_False; [done|]. set_solver.
Qed.

Lemma prev_splice A z t C bs r :
  NoDup (A ++ z :: bs ++ t :: C) →
  or_else (prev_in (z :: bs ++ [t]) r) (prev_in (A ++ z :: t :: C) r) = prev_in (A ++ z :: bs ++ t :: C) r.
Proof.
  intros Hn. assert (NoDup (A ++ z :: t :: C)) as Ho.
  { apply NoDup_app in Hn as (? & Hd & Hn). apply NoDup_cons in Hn as [? Hn]. apply NoDup_app in Hn as (? & ? & ?).
    rewrite NoDup_app, NoDup_cons. set_solver. }
  rewrite (prev_in_mid A z (t :: C)), (prev_in_mid A z (bs ++ t :: C)) by done.
  pose proof Hn as (_ & Hd & Hn')%NoDup_app.
  change (z :: bs ++ t :: C) with ((z :: bs) ++ t :: C) in *.
  rewrite (prev_in_mid (z :: bs) t C) by done. pose proof Hn' as (_ & Hc & Ht)%NoDup_app.
  apply NoDup_cons in Ht as [Ht _]. destruct (decide (r ∈ bs ++ [t])) as [Hr|Hr].
  - destruct (prev_in_some z _ _ Hr) as [n En]. rewrite En. cbn [or_else].
    rewrite (decide_True (P := r ∈ bs ++ t :: C)), (decide_False (P := r ∈ C)) by set_solver. symmetry. exact En.
  - rewrite prev_in_not by done. cbn [or_else]. rewrite prev_in_cons, (decide_False (P := t = r)) by set_solver.
    destruct (decide (r ∈ C)) as [Hc'|Hc'].
    + by rewrite !decide_True by set_solver.
    + by rewrite !decide_False by set_solver.
Qed.

(** [append_n], [append] and [prepend_n]. *)
Lemma queue_ok_splice D l1 l2 bs :
  queue_ok D (l1 ++ l2) → NoDup bs → (∀ r, r ∈ bs → is_Some (D !! r) ∧ r ∉ chain (l1 ++ l2)) →
  queue_ok D (l1 ++ bs ++ l2).
Proof.
  unfold queue_ok, chain. intros [Hn Hd] Hb Hs. split.
  - assert (FakeHead :: (l1 ++ bs ++ l2) ++ [FakeTail] ≡ₚ bs ++ (FakeHead :: (l1 ++ l2) ++ [FakeTail])) as -> by solve_Permutation.
    apply NoDup_app. split; [done|]. split; [|done]. intros r Hr. by apply Hs.
  - intros r Hr. destruct (decide (r ∈ bs)); [by apply Hs|]. apply Hd. set_solver.
Qed.

Lemma append_n_ok D l bs :
  queue_ok D l → NoDup bs → (∀ r, r ∈ bs → is_Some (D !! r) ∧ r ∉ chain l) →
  append_n bs (queue_of D l) = (Ok tt, queue_of D (l ++ bs)).
Proof.
  intros Hq Hb Hs. assert (queue_ok D (l ++ bs)) as Hq'.
  { rewrite <-(app_nil_r bs). apply queue_ok_splice; rewrite ?app_nil_r; done. }
  destruct bs as [|b bs]; [by rewrite app_nil_r|]. remember (b :: bs) as B eqn:EB.
  destruct (chain_last l) as (A & z & Ec & El).
  assert (chain (l ++ B) = A ++ z :: B ++ [FakeTail]) as Ec'.
  { unfold chain. rewrite <-app_assoc. change (FakeHead :: l ++ B ++ [FakeTail]) with ((FakeHead :: l) ++ B ++ [FakeTail]).
    by rewrite El, <-app_assoc. }
  destruct Hq as [Hn Hd], Hq' as [Hn' Hd']. unfold queue_of at 1. rewrite Ec in *. rewrite Ec' in *.
  destruct (Hd FakeTail) as [tl Htl]; [set_solver|]. pose proof Hn' as (_ & _ & Hp)%NoDup_app.
  pose proof (NoDup_path _ _ _ Hp).
  assert (is_Some (D !! List.last B z)).
  { apply Hd'. apply elem_of_app. right. destruct (exists_last (l := B)) as (B' & y & E); [by subst|].
    rewrite E, List.last_last. set_solver. }
  unfold append_n. replace (length B =? 0)%nat with false by (by subst). rewrite st_bind_eq, (load_relink _ _ _ _ _ _ Htl).
  cbn [prev_free_block set_next set_prev]. rewrite prev_in_snoc, decide_True by done.
  rewrite st_bind_eq. cbn [assert_some st_lift].
  rewrite st_bind_eq, prepend_links_ok by (done || intros r Hr; apply Hd'; set_solver).
  run_links. rewrite close_path by done. f_equal. apply queue_of_relink; [rewrite length_app; lia|].
  intros r _. rewrite Ec', next_splice, prev_splice by done. done.
Qed.

Lemma prepend_n_ok D l bs :
  queue_ok D l → NoDup bs → (∀ r, r ∈ bs → is_Some (D !! r) ∧ r ∉ chain l) →
  prepend_n bs (queue_of D l) = (Ok tt, queue_of D (bs ++ l)).
Proof.
  intros Hq Hb Hs. pose proof (queue_ok_splice D [] l bs Hq Hb Hs) as Hq'. cbn [app] in Hq'.
  destruct bs as [|b bs]; [done|]. remember (b :: bs) as B eqn:EB.
  destruct (chain_first l) as (f & R & Ec & El).
  assert (chain (B ++ l) = FakeHead :: B ++ f :: R) as Ec' by (unfold chain; by rewrite <-app_assoc, El).
  destruct Hq as [Hn Hd], Hq' as [Hn' Hd']. unfold queue_of at 1. rewrite Ec in *. rewrite Ec' in *.
  destruct (Hd FakeHead) as [hd Hhd]; [set_solver|].
  pose proof (NoDup_prefix FakeHead f [] B R Hn') as Hp. cbn [app] in Hp.
  pose proof (NoDup_path _ _ _ Hp).
  assert (is_Some (D !! List.last B FakeHead)).
  { apply Hd'. right. destruct (exists_last (l := B)) as (B' & y & E); [by subst|].
    rewrite E, List.last_last. set_solver. }
  unfold prepend_n. replace (length B =? 0)%nat with false by (by subst). rewrite st_bind_eq, (load_relink _ _ _ _ _ _ Hhd).
  cbn [next_free_block set_next set_prev]. rewrite next_in_cons, decide_True by done.
  rewrite st_bind_eq. cbn [assert_some st_lift].
  rewrite st_bind_eq, prepend_links_ok by (done || intros r Hr; apply Hd'; set_solver).
  assert (is_Some (D !! f)) by (apply Hd; set_solver).
  run_links. rewrite close_path by done. f_equal. apply queue_of_relink; [rewrite length_app; lia|].
  intros r _. rewrite Ec'. split; [apply (next_splice [])|apply (prev_splice [])]; done.
Qed.

Lemma append_ok D l b :
  queue_ok D l → is_Some (D !! b) → b ∉ chain l → append b (queue_of D l) = (Ok tt, queue_of D (l ++ [b])).
Proof.
  intros Hq Hb Hs. pose proof (queue_ok_splice D l [] [b]) as Hq'. rewrite !app_nil_r in Hq'.
  destruct Hq' as [Hn' Hd']; [done|apply NoDup_singleton|intros r ->%list_elem_of_singleton; done|].
  destruct (chain_last l) as (A & z & Ec & El).
  assert (chain (l ++ [b]) = A ++ [z; b; FakeTail]) as Ec'.
  { unfold chain. rewrite <-app_assoc. change (FakeHead :: l ++ [b] ++ [FakeTail]) with ((FakeHead :: l) ++ [b] ++ [FakeTail]).
    by rewrite El, <-app_assoc. }
  destruct Hq as [Hn Hd]. unfold queue_of at 1. rewrite Ec in *. rewrite Ec' in *.
  destruct (Hd FakeTail) as [tl Htl]; [set_solver|]. assert (is_Some (D !! z)) by (apply Hd; set_solver).
  unfold append. rewrite st_bind_eq, (load_relink _ _ _ _ _ _ Htl).
  cbn [prev_free_block set_next set_prev]. rewrite prev_in_snoc, decide_True by done.
  run_links. f_equal. apply queue_of_relink; [rewrite length_app; cbn [length]; lia|].
  assert (b ≠ z ∧ b ≠ FakeTail) as [? ?] by set_solver. intros r _. rewrite Ec'. change [z; b; FakeTail] with (z :: [b] ++ [FakeTail]). pose proof (next_splice A z FakeTail [] [b] r Hn') as <-.
  pose proof (prev_splice A z FakeTail [] [b] r Hn') as <-. cbn [app]. split; fn_cases.
Qed.

(** [remove]. *)
Lemma remove_ok D l1 l2 x :
  queue_ok D (l1 ++ x :: l2) → remove x (queue_of D (l1 ++ x :: l2)) = (Ok tt, queue_of D (l1 ++ l2)).
Proof.
  intros [Hn Hd]. destruct (exists_last (l := FakeHead :: l1)) as (A & a & EA); [done|].
  destruct (chain_first l2) as (b & C & _ & EC).
  assert (∀ m, chain (l1 ++ m) = A ++ a :: m ++ [FakeTail]) as Ec.
  { intros m. unfold chain. rewrite <-app_assoc. change (FakeHead :: l1 ++ m ++ [FakeTail]) with ((FakeHead :: l1) ++ m ++ [FakeTail]).
    by rewrite EA, <-app_assoc. }
  unfold queue_of at 1. rewrite Ec in *. cbn [app] in *. rewrite EC in *.
  destruct (Hd x) as [bx Hx]; [set_solver|].
  assert (is_Some (D !! a)) by (apply Hd; set_solver). assert (is_Some (D !! b)) by (apply Hd; set_solver).
  pose proof (next_splice A a b C [x]) as En. pose proof (prev_splice A a b C [x]) as Ep. cbn [app] in En, Ep.
  assert (x ≠ a ∧ x ≠ b ∧ x ∉ A ++ [a] ∧ x ∉ b :: C ∧ x ∉ A ++ a :: b :: C) as (? & ? & Hxa & Hxb & Hxo).
  { apply NoDup_app in Hn as (_ & H1 & H2). apply NoDup_cons in H2 as [H2 H3]. apply NoDup_cons in H3 as [H3 _]. set_solver. }
  unfold remove. rewrite st_bind_eq, (load_relink _ _ _ _ _ _ Hx).
  cbn [prev_free_block next_free_block set_next set_prev]. rewrite <-En, <-Ep by done.
  rewrite !next_in_cons, !prev_in_cons, (decide_False (P := a = x)), !(decide_True (P := x = x)) by done. cbn [or_else].
  run_links. f_equal. apply queue_of_relink; [rewrite !length_app; cbn [length]; lia|].
  intros r _. rewrite Ec, EC. rewrite !fn_at. rewrite <-En, <-Ep by done. rewrite !next_in_cons, !prev_in_cons.
  assert (NoDup (A ++ a :: b :: C)) as Ho.
  { apply NoDup_app in Hn as (? & H1' & H2'). apply NoDup_cons in H2' as [? H2']. apply NoDup_cons in H2' as [_ ?].
    rewrite NoDup_app, NoDup_cons. set_solver. }
  split; repeat case_decide; simplify_eq; cbn [or_else]; try done; symmetry;
    [by apply next_in_not|by apply next_in_here|by apply prev_in_out|by apply prev_in_here].
Qed.

(** A block outside the queue has no links and cannot be removed. *)
Lemma remove_outside D l x : is_Some (D !! x) → x ∉ chain l → remove x (queue_of D l) = (Err RuntimeError, queue_of D l).
Proof.
  intros [bx Hx] Hn. unfold remove, queue_of. rewrite st_bind_eq, (load_relink _ _ _ _ _ _ Hx).
  cbn [prev_free_block next_free_block set_next set_prev]. by rewrite prev_in_out.
Qed.

(** [popleft_n]: the loop resets the blocks it pops and stops at the one after. *)
Lemma pop_loop_ok D xs y nx px k acc :
  NoDup (xs ++ [y]) → (∀ r, r ∈ xs → is_Some (D !! r) ∧ nx r = next_in (xs ++ [y]) r) →
  pop_loop (length xs) (Some (hd y xs)) acc (mkQueue (relink D nx px) k)
  = (Ok (acc ++ xs, Some y), mkQueue (relink D (λ r, if decide (r ∈ xs) then None else nx r)
      (λ r, if decide (r ∈ xs) then None else px r)) k).
Proof.
  revert nx px acc. induction xs as [|x xs IH]; intros nx px acc Hn Hs.
  { cbn [length pop_loop hd]. rewrite st_ret_eq, app_nil_r. do 2 f_equal. }
  cbn [length pop_loop hd]. pose proof Hn as [Hx Hn']%NoDup_cons.
  destruct (Hs x) as [[bx Hbx] En]; [by left|].
  assert (next_in ((x :: xs) ++ [y]) x = Some (hd y xs)) as E1.
  { destruct xs; cbn [app hd]; by rewrite next_in_cons, decide_True. }
  rewrite st_bind_eq. cbn [assert_some st_lift]. rewrite st_bind_eq, (load_relink _ _ _ _ _ _ Hbx).
  cbn [next_free_block set_next set_prev]. rewrite En, E1. run_links. rewrite IH.
  - rewrite <-app_assoc. cbn [app]. do 2 f_equal. apply relink_ext. intros r _. rewrite !fn_at.
    split; repeat case_decide; simplify_eq; try done; set_solver.
  - done.
  - intros r Hr. destruct (Hs r) as [Hd Hnx]; [by right|]. split; [done|].
    assert (x ≠ r) by (intros ->; apply Hx; set_solver). rewrite fn_at, decide_False, Hnx by done.
    destruct xs; cbn [app]; by rewrite next_in_cons, decide_False.
Qed.

Lemma popleft_n_ok D l n :
  queue_ok D l → (n ≤ length l)%nat →
  popleft_n (Z.of_nat n) (queue_of D l) = (Ok (take n l), queue_of D (drop n l)).
Proof.
  intros [Hn Hd] Hle. unfold popleft_n. destruct (decide (n = 0%nat)) as [->|Hn0]; [by rewrite take_0, drop_0|].
  rewrite (proj2 (Z.eqb_neq _ _)) by lia. rewrite st_bind_eq. cbn [st_get].
  unfold queue_of at 1. cbn [num_free_blocks queue_of]. rewrite (proj2 (Z.ltb_ge _ _)) by lia.
  rewrite st_bind_eq. cbn [st_raise_if st_lift raise_if]. unfold queue_of at 1. run_links.
  destruct (chain_first (drop n l)) as (y & R & Ec & El).
  assert (chain l = FakeHead :: take n l ++ y :: R) as E.
  { unfold chain. by rewrite <-El, app_assoc, take_drop. }
  rewrite E in *. pose proof Hn as [Hh Hn']%NoDup_cons.
  destruct (Hd FakeHead) as [hb Hhb]; [by left|]. rewrite st_bind_eq, (load_relink _ _ _ _ _ _ Hhb).
  cbn [next_free_block set_next set_prev].
  assert (next_in (FakeHead :: take n l ++ y :: R) FakeHead = Some (hd y (take n l))) as ->
    by (destruct (take n l); cbn [app hd]; by rewrite next_in_cons, decide_True).
  assert (length (take n l) = n) as Hlen by (by apply length_take_le).
  assert (NoDup (take n l ++ [y])) as Hp.
  { replace (take n l ++ y :: R) with ((take n l ++ [y]) ++ R) in Hn' by (by rewrite <-app_assoc). by apply NoDup_app in Hn' as [? _]. }
  pose proof Hn' as (_ & Hdis & Hy)%NoDup_app. apply NoDup_cons in Hy as [Hy _].
  pose proof (pop_loop_ok D (take n l) y (next_in (FakeHead :: take n l ++ y :: R))
                (prev_in (FakeHead :: take n l ++ y :: R)) (Z.of_nat (length l) + - Z.of_nat n) [] Hp) as Hpop.
  rewrite Hlen in Hpop. rewrite Nat2Z.id, st_bind_eq, Hpop; clear Hpop.
  2: { intros r Hr. split; [apply Hd; set_solver|]. change (FakeHead :: take n l ++ y :: R) with ((FakeHead :: take n l) ++ y :: R) in *.
       rewrite next_in_mid, decide_True by (done || by right). cbn [app]. destruct (take n l); [by apply not_elem_of_nil in Hr|].
       cbn [app]. rewrite next_in_cons, decide_False; [done|]. set_solver. }
  assert (is_Some (D !! y)) by (apply Hd; set_solver).
  run_links. f_equal. apply queue_of_relink; [rewrite length_drop; lia|]. intros r _. rewrite Ec, !fn_at.
  change (FakeHead :: take n l ++ y :: R) with ((FakeHead :: take n l) ++ y :: R) in *.
  rewrite (next_in_mid (FakeHead :: take n l)), (prev_in_mid (FakeHead :: take n l)) by done.
  rewrite next_in_cons, prev_in_cons. cbn [app]. split.
  - destruct (decide (FakeHead = r)) as [<-|Hh']; [done|]. destruct (decide (r ∈ take n l)) as [Hr|Hr].
    + symmetry. apply next_in_not. by apply Hdis.
    + rewrite decide_False; [done|]. set_solver.
  - destruct (decide (y = r)) as [<-|Hy']; [done|]. destruct (decide (r ∈ take n l)) as [Hr|Hr].
    + symmetry. apply prev_in_not. specialize (Hdis r Hr). set_solver.
    + destruct (decide (r ∈ R)) as [HR|HR]; [done|]. rewrite !prev_in_not by set_solver. done.
Qed.

Lemma popleft_n_short D l n :
  (Z.of_nat (length l) < n)%Z → popleft_n n (queue_of D l) = (Err AssertionError, queue_of D l).
Proof.
  intros Hlt. unfold popleft_n. rewrite (proj2 (Z.eqb_neq _ _)) by lia. rewrite st_bind_eq. cbn [st_get].
  unfold queue_of at 1. cbn [num_free_blocks]. by rewrite (proj2 (Z.ltb_lt _ _)) by lia.
Qed.

(** [get_all_free_blocks] ends within one step per block and the fake tail. *)
Lemma walk_ok D A x l acc fuel k nx px :
  NoDup (A ++ x :: l) → (∀ r, r ∈ x :: l → is_Some (D !! r) ∧ nx r = next_in (A ++ x :: l) r) → (length l < fuel)%nat →
  walk fuel x acc (mkQueue (relink D nx px) k) = (Ok (Some (acc ++ removelast (x :: l))), mkQueue (relink D nx px) k).
Proof.
  revert A x acc fuel. induction l as [|y l IH]; intros A x acc fuel Hn Hs Hf; (destruct fuel as [|fuel]; [lia|]).
  - destruct (Hs x) as [[bx Hbx] En]; [by left|]. cbn [walk]. rewrite st_bind_eq, (load_relink _ _ _ _ _ _ Hbx).
    cbn [next_free_block set_next set_prev removelast]. rewrite En, next_in_mid, decide_False by
      (done || (apply NoDup_app in Hn as (_ & Hn & _); intros Hx; apply (Hn x Hx); by left)).
    by rewrite app_nil_r.
  - destruct (Hs x) as [[bx Hbx] En]; [by left|]. cbn [walk]. rewrite st_bind_eq, (load_relink _ _ _ _ _ _ Hbx).
    cbn [next_free_block set_next set_prev]. rewrite En, next_in_here by done.
    rewrite (IH (A ++ [x])).
    + by rewrite <-app_assoc.
    + by rewrite <-app_assoc.
    + intros r Hr. rewrite <-app_assoc. apply Hs. by right.
    + cbn [length] in Hf. lia.
Qed.

Lemma get_all_free_blocks_ok D l fuel :
  queue_ok D l → (length l < fuel)%nat → get_all_free_blocks fuel (queue_of D l) = (Ok (Some l), queue_of D l).
Proof.
  intros [Hn Hd] Hf. destruct (chain_first l) as (f & R & Ec & El). unfold queue_of, get_all_free_blocks. rewrite Ec in *.
  destruct (Hd FakeHead) as [hb Hhb]; [by left|]. rewrite st_bind_eq, (load_relink _ _ _ _ _ _ Hhb).
  cbn [next_free_block set_next set_prev]. rewrite next_in_cons, decide_True by done.
  rewrite (walk_ok D [FakeHead] f R).
  - cbn [app]. by rewrite <-El, removelast_last.
  - done.
  - intros r Hr. split; [apply Hd; by right|done].
  - apply (f_equal length) in El. rewrite length_app in El. cbn [length] in El. lia.
Qed.

(** The constructor, on unlinked blocks. *)
Definition with_fakes (D : gmap Ref KVCacheBlock) : gmap Ref KVCacheBlock :=
  <[FakeTail := new_block (-1)]> (<[FakeHead := new_block (-1)]> D).

Definition unlinked (D : gmap Ref KVCacheBlock) : gmap Ref KVCacheBlock := relink D (λ _, None) (λ _, None).

Lemma init_links_ok D blocks k i :
  NoDup blocks → (∀ r, r ∈ blocks → is_Some (D !! r)) → (i < length blocks)%nat →
  init_links blocks i (mkQueue (relink D (next_in (take (i + 1) blocks)) (prev_in (take i blocks))) k)
  = (Ok tt, mkQueue (relink D (next_in (take (i + 1 + 1) blocks)) (prev_in (take (i + 1) blocks))) k).
Proof.
  intros Hn Hd Hi. unfold init_links. destruct (lookup_lt_is_Some_2 blocks i Hi) as [b Hb]. rewrite Hb.
  assert (is_Some (D !! b)) as HD by (apply Hd; by eapply list_elem_of_lookup_2).
  assert (∀ m, (m ≤ length blocks)%nat → NoDup (take m blocks)) as Ht.
  { intros m _. rewrite <-(take_drop m blocks) in Hn. by apply NoDup_app in Hn as [? _]. }
  rewrite st_bind_eq.
  assert ((if (0 <? i)%nat then update b (set_prev (blocks !! (i - 1)%nat)) else mret tt)
    (mkQueue (relink D (next_in (take (i + 1) blocks)) (prev_in (take i blocks))) k)
    = (Ok tt, mkQueue (relink D (next_in (take (i + 1) blocks)) (prev_in (take (i + 1) blocks))) k)) as ->.
  { destruct i as [|i]; cbn [Nat.ltb Nat.leb].
    - rewrite st_ret_eq. do 2 f_equal. apply relink_ext. intros r _. split; [done|]. by destruct blocks.
    - rewrite update_prev by done. do 2 f_equal. apply relink_ext. intros r _. split; [done|].
      replace (S i - 1)%nat with i by lia. destruct (lookup_lt_is_Some_2 blocks i) as [a Ha]; [lia|].
      rewrite Ha, fn_at. replace (S i + 1)%nat with (S (S i)) by lia.
      rewrite (take_S_r _ (S i) b), (take_S_r _ i a), <-app_assoc by done. cbn [app].
      rewrite prev_in_snoc; [done|]. specialize (Ht (S (S i))).
      rewrite (take_S_r _ (S i) b), (take_S_r _ i a), <-app_assoc in Ht by done. apply Ht. lia. }
  destruct (i <? length blocks - 1)%nat eqn:El.
  - apply Nat.ltb_lt in El. rewrite update_next by done. do 2 f_equal. apply relink_ext. intros r _. split; [|done].
    destruct (lookup_lt_is_Some_2 blocks (i + 1)) as [c Hc]; [lia|]. rewrite Hc, fn_at.
    replace (i + 1 + 1)%nat with (S (S i)) by lia. replace (i + 1)%nat with (S i) in * by lia.
    rewrite (take_S_r _ (S i) c), (take_S_r _ i b), <-app_assoc by done. cbn [app].
    rewrite next_in_snoc; [done|]. specialize (Ht (S (S i))).
    rewrite (take_S_r _ (S i) c), (take_S_r _ i b), <-app_assoc in Ht by done. apply Ht. lia.
  - apply Nat.ltb_ge in El. rewrite st_ret_eq. do 2 f_equal. rewrite !take_ge by lia. done.
Qed.

Lemma create_relink D nx px k r b :
  nx r = None → px r = None → prev_free_block b = None → next_free_block b = None →
  create r b (mkQueue (relink D nx px) k) = (Ok tt, mkQueue (relink (<[r := b]> D) nx px) k).
Proof.
  intros Hx Hp Hbp Hbn. unfold create, st_modify. cbn [q_heap num_free_blocks]. do 2 f_equal.
  apply map_eq. intros r'. rewrite relink_lookup. destruct (decide (r = r')) as [<-|Hne].
  - rewrite !lookup_insert_eq. cbn. rewrite Hx, Hp. destruct b; cbn in *; by subst.
  - by rewrite !lookup_insert_ne, relink_lookup.
Qed.

Lemma init_ok D blocks k :
  NoDup blocks → (∀ r, r ∈ blocks → is_Some (D !! r) ∧ r ≠ FakeHead ∧ r ≠ FakeTail) →
  init blocks (mkQueue (unlinked D) k) = (Ok tt, queue_of (with_fakes D) blocks) ∧ queue_ok (with_fakes D) blocks.
Proof.
  intros Hn Hd.
  assert (queue_ok (with_fakes D) blocks) as Hq.
  { unfold queue_ok, chain, with_fakes. split.
    - apply NoDup_cons. split.
      + intros H%elem_of_app. destruct H as [H|H%list_elem_of_singleton]; [by apply Hd in H as (_ & ? & _)|done].
      + apply NoDup_app. split; [done|]. split; [|apply NoDup_singleton].
        intros r H H'%list_elem_of_singleton. by apply Hd in H as (_ & _ & ?).
    - intros r Hr. rewrite !lookup_insert_is_Some'.
      apply elem_of_cons in Hr as [->|[Hr| ->%list_elem_of_singleton]%elem_of_app]; [by right; left| |by left].
      do 2 right. by apply Hd. }
  split; [|done]. destruct Hq as [Hc Hd'].
  assert (FakeHead ∉ blocks ∧ FakeTail ∉ blocks) as [Hh Ht] by (split; intros H; by apply Hd in H as (_ & ? & ?)).
  assert (unlinked D = relink D (next_in (take (0 + 1) blocks)) (prev_in (take 0 blocks))) as ->.
  { apply relink_ext. intros r _. by destruct blocks. }
  unfold init. rewrite st_bind_eq. cbn [st_modify q_heap].
  pose proof (st_for_seq (init_links blocks) (λ i, mkQueue (relink D (next_in (take (i + 1) blocks)) (prev_in (take i blocks)))
    (Z.of_nat (length blocks))) (length blocks)) as Hf. cbn beta in Hf.
  rewrite st_bind_eq, Hf by (intros i Hi; apply init_links_ok; [done|intros r Hr; by apply Hd|done]). clear Hf.
  rewrite (take_ge blocks (length blocks + 1)), (take_ge blocks (length blocks)) by lia.
  rewrite st_bind_eq, create_relink, st_bind_eq, create_relink by (done || by apply next_in_not || by apply prev_in_out).
  change (<[FakeTail := new_block (-1)]> (<[FakeHead := new_block (-1)]> D)) with (with_fakes D).
  assert (is_Some (with_fakes D !! FakeHead) ∧ is_Some (with_fakes D !! FakeTail)) as [? ?] by (split; apply Hd'; set_solver).
  destruct blocks as [|x bs]; [by run_links|].
  destruct (exists_last (l := x :: bs)) as (B & z & E); [done|].
  assert (List.last (x :: bs) x = z) as -> by (by rewrite E, List.last_last).
  assert (is_Some (with_fakes D !! x)) by (apply Hd'; set_solver).
  assert (is_Some (with_fakes D !! z)) by (apply Hd'; unfold chain; rewrite E; set_solver).
  run_links. f_equal. apply queue_of_relink; [done|]. intros r _. unfold chain in *.
  change (FakeHead :: (x :: bs) ++ [FakeTail]) with (FakeHead :: x :: (bs ++ [FakeTail])). rewrite !fn_at, next_in_cons, prev_in_cons.
  change (x :: (bs ++ [FakeTail])) with ((x :: bs) ++ [FakeTail]). apply NoDup_cons in Hc as [_ Hc].
  rewrite E, <-app_assoc in Hc |- *. cbn [app] in *. rewrite next_in_snoc, prev_in_snoc by done.
  assert (FakeHead ≠ z ∧ FakeTail ≠ x) as [? ?] by (rewrite E in Hh; set_solver).
  split; repeat case_decide; simplify_eq; done.
Qed.
End FreeQueueSpec.

(** ** The queue refines a list *)

Section Refinement.
Import FreeKVCacheBlockQueue FreeQueueSpec.

Inductive QueueOp :=
  | PopLeft
  | PopLeftN (n : nat)
  | Remove (b : Ref)
  | Append (b : Ref)
  | PrependN (bs : list Ref)
  | AppendN (bs : list Ref)
  | GetAll.

Definition queue_op (fuel : nat) (op : QueueOp) : ST Queue (list Ref) :=
  match op with
  | PopLeft => b ← popleft; mret [b]
  | PopLeftN n => popleft_n (Z.of_nat n)
  | Remove b => remove b;; mret []
  | Append b => append b;; mret []
  | PrependN bs => prepend_n bs;; mret []
  | AppendN bs => append_n bs;; mret []
  | GetAll => o ← get_all_free_blocks fuel; mret (default [] o)
  end.

(** What the operation means on the list of free blocks. *)
Definition list_op (op : QueueOp) (l : list Ref) : result (list Ref) * list Ref :=
  match op with
  | PopLeft => match l with [] => (Err ValueError, []) | b :: l => (Ok [b], l) end
  | PopLeftN n => if (n <=? length l)%nat then (Ok (take n l), drop n l) else (Err AssertionError, l)
  | Remove b => if decide (b ∈ l) then (Ok [], filter (.≠ b) l) else (Err RuntimeError, l)
  | Append b => (Ok [], l ++ [b])
  | PrependN bs => (Ok [], bs ++ l)
  | AppendN bs => (Ok [], l ++ bs)
  | GetAll => (Ok l, l)
  end.

(** Blocks put into the queue are blocks of the heap that are not in it. *)
Definition fresh_blocks (D : gmap Ref KVCacheBlock) (l bs : list Ref) : Prop :=
  NoDup bs ∧ ∀ b, b ∈ bs → is_Some (D !! b) ∧ b ∉ chain l.

Definition queue_op_ok (D : gmap Ref KVCacheBlock) (l : list Ref) (op : QueueOp) : Prop :=
  match op with
  | PopLeft | PopLeftN _ | GetAll => True
  | Remove b => is_Some (D !! b) ∧ b ≠ FakeHead ∧ b ≠ FakeTail
  | Append b => fresh_blocks D l [b]
  | PrependN bs | AppendN bs => fresh_blocks D l bs
  end.

(** An exception ends an operation, not the program. *)
Fixpoint queue_ops (fuel : nat) (ops : list QueueOp) (q : Queue) : list (result (list Ref)) * Queue :=
  match ops with
  | [] => ([], q)
  | op :: ops => let '(r, q) := queue_op fuel op q in let '(rs, q) := queue_ops fuel ops q in (r :: rs, q)
  end.

Fixpoint list_ops (ops : list QueueOp) (l : list Ref) : list (result (list Ref)) * list Ref :=
  match ops with
  | [] => ([], l)
  | op :: ops => let '(r, l) := list_op op l in let '(rs, l) := list_ops ops l in (r :: rs, l)
  end.

Fixpoint queue_ops_ok (D : gmap Ref KVCacheBlock) (l : list Ref) (ops : list QueueOp) : Prop :=
  match ops with
  | [] => True
  | op :: ops => queue_op_ok D l op ∧ queue_ops_ok D (list_op op l).2 ops
  end.

Lemma queue_ok_nodup D l : queue_ok D l → NoDup l.
Proof. intros [Hn _]. apply NoDup_cons in Hn as [_ Hn]. by apply NoDup_app in Hn as [? _]. Qed.

Lemma queue_ok_sub D l l' : queue_ok D l → NoDup l' → (∀ r, r ∈ l' → r ∈ l) → queue_ok D l'.
Proof.
  intros [Hn Hd] Hl Hs. unfold queue_ok, chain in *. split.
  - apply NoDup_cons in Hn as [Hh Hn]. apply NoDup_app in Hn as (_ & Ht & _).
    rewrite NoDup_cons, NoDup_app. split; [set_solver|]. split; [done|]. split; [|apply NoDup_singleton]. intros r Hr. by apply Ht, Hs.
  - intros r Hr. apply Hd. set_solver.
Qed.

Lemma queue_length_le D l : queue_ok D l → (length l ≤ size D)%nat.
Proof.
  intros Hq. pose proof (queue_ok_nodup _ _ Hq) as Hl. destruct Hq as [_ Hd].
  rewrite <-(size_dom (D := gset Ref)), <-(size_list_to_set (C := gset Ref) l Hl). apply subseteq_size. intros r Hr%elem_of_list_to_set.
  apply elem_of_dom, Hd. unfold chain. set_solver.
Qed.

Lemma filter_ne_id (x : Ref) (l : list Ref) : x ∉ l → filter (.≠ x) l = l.
Proof.
  induction l as [|y l IH]; intros H; [done|]. apply not_elem_of_cons in H as [? H].
  rewrite filter_cons_True by done. by rewrite IH.
Qed.

Lemma filter_out (x : Ref) (l1 l2 : list Ref) : NoDup (l1 ++ x :: l2) → filter (.≠ x) (l1 ++ x :: l2) = l1 ++ l2.
Proof.
  intros (_ & Hd & Hn)%NoDup_app. apply NoDup_cons in Hn as [Hx _]. rewrite filter_app, filter_cons_False by (by intros ?).
  rewrite !filter_ne_id; [done|done|]. intros H. apply (Hd x H). by left.
Qed.

Lemma queue_op_refines D l op fuel :
  queue_ok D l → queue_op_ok D l op → (size D < fuel)%nat →
  queue_op fuel op (queue_of D l) = ((list_op op l).1, queue_of D (list_op op l).2) ∧ queue_ok D (list_op op l).2.
Proof.
  intros Hq Ho Hf. destruct op as [|n|b|b|bs|bs|]; cbn [queue_op list_op queue_op_ok] in *.
  - destruct l as [|x l].
    + by rewrite st_bind_eq, popleft_empty.
    + rewrite st_bind_eq, popleft_ok by done. split; [done|]. pose proof (queue_ok_nodup _ _ Hq) as [_ ?]%NoDup_cons. eapply queue_ok_sub; [done|done|]. by right.
  - destruct (n <=? length l)%nat eqn:E.
    + apply Nat.leb_le in E. rewrite popleft_n_ok by done. split; [done|].
      pose proof (queue_ok_nodup _ _ Hq) as Hn. rewrite <-(take_drop n l) in Hn. apply NoDup_app in Hn as (_ & _ & Hn).
      eapply queue_ok_sub; [done|done|]. intros r Hr. rewrite <-(take_drop n l). apply elem_of_app. by right.
    + apply Nat.leb_gt in E. by rewrite popleft_n_short by lia.
  - destruct Ho as (Hb & Hh & Ht). destruct (decide (b ∈ l)) as [Hin|Hout].
    + apply list_elem_of_split in Hin as (l1 & l2 & ->). rewrite st_bind_eq, remove_ok by done. cbn [fst snd].
      pose proof (queue_ok_nodup _ _ Hq) as Hn. rewrite filter_out by done. split; [done|].
      eapply queue_ok_sub; [done| |set_solver]. apply NoDup_app in Hn as (? & Hd & Hn). apply NoDup_cons in Hn as [? ?].
      rewrite NoDup_app. set_solver.
    + rewrite st_bind_eq, remove_outside; [done|done|]. unfold chain. set_solver.
  - destruct Ho as [_ Ho]. destruct (Ho b) as [H1 H2]; [by left|]. rewrite st_bind_eq, append_ok by done. split; [done|].
    pose proof (queue_ok_splice D l [] [b]) as Hs. rewrite !app_nil_r in Hs. apply Hs; [done|apply NoDup_singleton|done].
  - destruct Ho as [Hn Ho]. rewrite st_bind_eq, prepend_n_ok by done. split; [done|]. by apply (queue_ok_splice D []).
  - destruct Ho as [Hn Ho]. rewrite st_bind_eq, append_n_ok by done. split; [done|].
    rewrite <-(app_nil_r bs). apply queue_ok_splice; rewrite ?app_nil_r; done.
  - pose proof (queue_length_le _ _ Hq). by rewrite st_bind_eq, get_all_free_blocks_ok by (done || lia).
Qed.

Lemma queue_ops_refine D l ops fuel :
  queue_ok D l → queue_ops_ok D l ops → (size D < fuel)%nat →
  queue_ops fuel ops (queue_of D l) = ((list_ops ops l).1, queue_of D (list_ops ops l).2).
Proof.
  revert l. induction ops as [|op ops IH]; intros l Hq Ho Hf; [done|]. destruct Ho as [Ho Hos].
  destruct (queue_op_refines D l op fuel Hq Ho Hf) as [E Hq']. cbn [queue_ops list_ops]. rewrite E.
  destruct (list_op op l) as [r l']. cbn [fst snd] in *. rewrite IH by done. by destruct (list_ops ops l').
Qed.

(** C25: the doubly linked queue is a list.  Constructed on any blocks and driven by
    any sequence of its operations, it returns block by block and exception by
    exception what the operations mean on a list, its links are those of that list,
    and the walk over all free blocks ends. *)
Theorem queue_refines_list D blocks ops fuel k :
  NoDup blocks → (∀ r, r ∈ blocks → is_Some (D !! r) ∧ r ≠ FakeHead ∧ r ≠ FakeTail) →
  queue_ops_ok (with_fakes D) blocks ops → (size D + 2 < fuel)%nat →
  ∃ q, init blocks (mkQueue (unlinked D) k) = (Ok tt, q)
    ∧ queue_ops fuel ops q = ((list_ops ops blocks).1, queue_of (with_fakes D) (list_ops ops blocks).2).
Proof.
  intros Hn Hd Ho Hf. destruct (init_ok D blocks k Hn Hd) as [E Hq]. eexists. split; [exact E|].
  apply queue_ops_refine; [done|done|]. unfold with_fakes.
  rewrite !map_size_insert. repeat case_match; unfold id; lia.
Qed.
End Refinement.

(** ** A concrete run *)

Section ThreeBlocks.
Import FreeQueueSpec.

Definition three_blocks : gmap Ref KVCacheBlock :=
  {[Block 0 := new_block 0; Block 1 := new_block 1; Block 2 := new_block 2]}.

Definition three_ops : list QueueOp :=
  [PopLeft; Remove (Block 2); Remove (Block 2); Append (Block 0); PopLeftN 5; PrependN [Block 2]; GetAll].

Lemma three_fresh l b : is_Some (with_fakes three_blocks !! b) → b ∉ chain l → fresh_blocks (with_fakes three_blocks) l [b].
Proof. intros Hs Hn. split; [apply NoDup_singleton|]. by intros b' ->%list_elem_of_singleton. Qed.

Lemma three_ops_ok : queue_ops_ok (with_fakes three_blocks) [Block 0; Block 1; Block 2] three_ops.
Proof.
  repeat (split; [first [exact I | by split; [vm_compute; eexists|split]
    | apply three_fresh; [vm_compute; by eexists|apply (bool_decide_unpack _); by vm_compute]]|]).
  exact I.
Qed.

(** C25: seven operations on a queue of three blocks. *)
Lemma queue_refines_list_witness :
  ∃ q q', FreeKVCacheBlockQueue.init [Block 0; Block 1; Block 2] (mkQueue (unlinked three_blocks) 0) = (Ok tt, q)
    ∧ queue_ops 9 three_ops q = ([Ok [Block 0]; Ok []; Err RuntimeError; Ok []; Err AssertionError; Ok []; Ok [Block 2; Block 1; Block 0]], q').
Proof.
  destruct (queue_refines_list three_blocks [Block 0; Block 1; Block 2] three_ops 9 0) as (q & E & Ho).
  - apply (bool_decide_unpack _); by vm_compute.
  - intros r Hr. apply list_elem_of_In in Hr. cbn in Hr.
    destruct Hr as [<-|[<-|[<-|[]]]]; (split; [vm_compute; by eexists|by split]).
  - apply three_ops_ok.
  - by vm_compute; lia.
  - exists q. eexists. split; [exact E|]. rewrite Ho. reflexivity.
Defined.
End ThreeBlocks.
