(* ===== verification/BlockPool.v ===== *)
(** * The block pool

    [v1/core/block_pool.py]: the map from block hashes to cached blocks and the pool
    that hands out, shares, frees and evicts cache blocks.  The pool is modelled
    without the two observers it can be given ([enable_kv_cache_events] off, no
    metrics collector), which record what happens and change nothing else.
    [pool_ok] says what holds of a pool whose clients hold a given list of blocks. *)

From Stdlib Require Import ZArith Lia.
From stdpp Require Import base tactics numbers list option functions gmap.
From S2P Require Import Prelude FreeQueue.

(** ** Keys *)

(** [group_id.to_bytes(4, big)] *)
Definition be_bytes4 (n : Z) : list Z := map (λ i, Z.land (Z.shiftr n (8 * i)) 255) [3; 2; 1; 0]%Z.

Definition make_block_hash_with_group_id (block_hash : BlockHash) (group_id : Z) : result BlockHashWithGroupId :=
  _ ← raise_if (negb ((0 <=? group_id) && (group_id <? 2 ^ 32)))%Z OverflowError;
  Ok (block_hash ++ be_bytes4 group_id).

(** [key[:-4]] and [key[-4:]] *)
Definition get_block_hash (key : BlockHashWithGroupId) : BlockHash := take (length key - 4) key.

Definition get_group_id (key : BlockHashWithGroupId) : Z :=
  fold_left (λ acc b, 256 * acc + b)%Z (drop (length key - 4) key) 0%Z.

(** ** The map from hashes to blocks *)

(** A key maps to one block, or to a dictionary of blocks by their identifiers, in
    the order of insertion. *)
Inductive Cached :=
  | One (r : Ref)
  | Many (d : list (Z * Ref)).

(** [d[k] = v], [d.pop(k, None)] *)
Fixpoint dict_set (d : list (Z * Ref)) (k : Z) (v : Ref) : list (Z * Ref) :=
  match d with
  | [] => [(k, v)]
  | (k', v') :: d => if (k' =? k)%Z then (k, v) :: d else (k', v') :: dict_set d k v
  end.

Fixpoint dict_pop (d : list (Z * Ref)) (k : Z) : option Ref * list (Z * Ref) :=
  match d with
  | [] => (None, [])
  | (k', v') :: d => if (k' =? k)%Z then (Some v', d) else let '(o, d) := dict_pop d k in (o, (k', v') :: d)
  end.

Definition dict_has (d : list (Z * Ref)) (k : Z) : bool := existsb (λ it, it.1 =? k)%Z d.

Abbreviation BlockMap := (gmap BlockHashWithGroupId Cached).

(** ** The pool *)

Record BlockPool := mkPool {
  bp_queue : Queue;
  blocks : list Ref;
  num_gpu_blocks : Z;
  enable_caching : bool;
  hash_block_size : Z;
  cached_block_hash_to_block : BlockMap;
  cached_block_hashes_by_block : gmap Z (gset BlockHashWithGroupId);
  null_block : Ref
}.

Definition on_queue {A} (m : ST Queue A) : ST BlockPool A := λ s,
  let '(r, q) := m (bp_queue s) in
  (r, mkPool q (blocks s) (num_gpu_blocks s) (enable_caching s) (hash_block_size s)
        (cached_block_hash_to_block s) (cached_block_hashes_by_block s) (null_block s)).

Definition set_cached (f : BlockMap → BlockMap) : ST BlockPool unit :=
  st_modify (λ s, mkPool (bp_queue s) (blocks s) (num_gpu_blocks s) (enable_caching s) (hash_block_size s)
    (f (cached_block_hash_to_block s)) (cached_block_hashes_by_block s) (null_block s)).

Definition set_by_block (f : gmap Z (gset BlockHashWithGroupId) → gmap Z (gset BlockHashWithGroupId)) : ST BlockPool unit :=
  st_modify (λ s, mkPool (bp_queue s) (blocks s) (num_gpu_blocks s) (enable_caching s) (hash_block_size s)
    (cached_block_hash_to_block s) (f (cached_block_hashes_by_block s)) (null_block s)).

(** The attributes of a block. *)
Definition load_block (r : Ref) : ST BlockPool KVCacheBlock := on_queue (load r).
Definition update_block (r : Ref) (f : KVCacheBlock → KVCacheBlock) : ST BlockPool unit := on_queue (update r f).
Definition add_ref (r : Ref) (n : Z) : ST BlockPool unit := update_block r (λ b, set_ref_cnt (ref_cnt b + n) b).

Module BlockHashToBlockMap.

Definition get_one_block (key : BlockHashWithGroupId) : ST BlockPool (option Ref) :=
  s ← st_get;
  match cached_block_hash_to_block s !! key with
  | None => mret None
  | Some (One r) => mret (Some r)
  | Some (Many ((_, r) :: _)) => mret (Some r)
  | Some (Many []) => st_lift (Err StopIteration)
  end.

Definition contain (key : BlockHashWithGroupId) (id : Z) : ST BlockPool bool :=
  s ← st_get;
  match cached_block_hash_to_block s !! key with
  | None => mret false
  | Some (One r) => b ← load_block r; mret (block_id b =? id)%Z
  | Some (Many d) => mret (dict_has d id)
  end.

Definition insert (key : BlockHashWithGroupId) (block : Ref) : ST BlockPool unit :=
  s ← st_get;
  match cached_block_hash_to_block s !! key with
  | None => set_cached (<[key := One block]>)
  | Some (One r) =>
      b1 ← load_block r;
      b2 ← load_block block;
      set_cached (<[key := Many (dict_set [(block_id b1, r)] (block_id b2) block)]>)
  | Some (Many d) =>
      b ← load_block block;
      set_cached (<[key := Many (dict_set d (block_id b) block)]>)
  end.

Definition pop (key : BlockHashWithGroupId) (id : Z) : ST BlockPool (option Ref) :=
  s ← st_get;
  set_cached (delete key);;
  match cached_block_hash_to_block s !! key with
  | None => mret None
  | Some (One r) =>
      b ← load_block r;
      if (block_id b =? id)%Z then mret (Some r)
      else set_cached (<[key := One r]>);; mret None
  | Some (Many d) =>
      let '(block, d) := dict_pop d id in
      (if (0 <? length d)%nat then set_cached (<[key := Many d]>) else mret tt);;
      mret block
  end.

End BlockHashToBlockMap.

Module Pool.
Import BlockHashToBlockMap.

(** The construction: the blocks, the queue over them, and the null block, popped
    from the queue for good. *)
Definition init_queue (n : nat) : ST Queue Ref :=
  st_for (seq 0 n) (λ i, create (Block i) (new_block (Z.of_nat i)));;
  FreeKVCacheBlockQueue.init (map Block (seq 0 n));;
  null ← FreeKVCacheBlockQueue.popleft;
  update null set_null;;
  mret null.

Definition init (num_gpu_blocks : Z) (enable_caching : bool) (hash_block_size : Z) : result BlockPool :=
  _ ← raise_if (negb (0 <? num_gpu_blocks))%Z AssertionError;
  let n := Z.to_nat num_gpu_blocks in
  let '(r, q) := init_queue n (mkQueue ∅ 0) in
  null ← r;
  Ok (mkPool q (map Block (seq 0 n)) num_gpu_blocks enable_caching hash_block_size ∅ ∅ null).

Definition get_num_free_blocks (s : BlockPool) : Z := num_free_blocks (bp_queue s).

Fixpoint get_cached_block (block_hash : BlockHash) (kv_cache_group_ids : list Z) : ST BlockPool (option (list Ref)) :=
  match kv_cache_group_ids with
  | [] => mret (Some [])
  | group_id :: kv_cache_group_ids =>
      key ← st_lift (make_block_hash_with_group_id block_hash group_id);
      block ← get_one_block key;
      match block with
      | None => mret None
      | Some r => rest ← get_cached_block block_hash kv_cache_group_ids; mret (cons r <$> rest)
      end
  end.

(** The loop of [_remove_cached_block_hashes]. *)
Fixpoint pop_hashes (hashes : list BlockHashWithGroupId) (id : Z) : ST BlockPool (list BlockHashWithGroupId) :=
  match hashes with
  | [] => mret []
  | key :: hashes =>
      o ← pop key id;
      removed ← pop_hashes hashes id;
      mret (match o with Some _ => key :: removed | None => removed end)
  end.

Definition _remove_cached_block_hashes (block : Ref) : ST BlockPool (list BlockHashWithGroupId) :=
  b ← load_block block;
  s ← st_get;
  let aliases := default ∅ (cached_block_hashes_by_block s !! block_id b) in
  let block_hashes := option_list (block_hash b) ++ elements aliases in
  set_by_block (delete (block_id b));;
  match block_hashes with
  | [] => mret []
  | _ =>
      removed ← pop_hashes block_hashes (block_id b);
      update_block block reset_hash;;
      mret removed
  end.

Definition _insert_block_hash (key : BlockHashWithGroupId) (block : Ref) (num_tokens : option Z) : ST BlockPool unit :=
  b ← load_block block;
  if bool_decide (block_hash b = Some key) then mret tt else
  present ← contain key (block_id b);
  if (present : bool) then mret tt else
  (match block_hash b with
   | None => on_queue (set_block_hash block key num_tokens)
   | Some _ => set_by_block (λ m, <[block_id b := {[key]} ∪ default ∅ (m !! block_id b)]> m)
   end);;
  insert key block.

(** The hashes at the granularity of the group ([BlockHashListWithBlockSize]). *)
Definition block_hash_list (block_hashes : list BlockHash) (hash_size block_size : Z) : result (list BlockHash) :=
  if (block_size =? hash_size)%Z then Ok block_hashes else
  _ ← raise_if (negb (block_size mod hash_size =? 0))%Z AssertionError;
  let scale := Z.to_nat (block_size / hash_size) in
  Ok (map (λ i, nth ((i + 1) * scale - 1) block_hashes []) (seq 0 (length block_hashes / scale))).

Definition list_get {A} (l : list A) (i : nat) : result A :=
  match l !! i with Some x => Ok x | None => Err IndexError end.

(** One block of [cache_full_blocks]: the [i]-th new one. *)
Definition cache_full_block (new_block_hashes : list BlockHash) (num_cached_blocks : nat) (block_size kv_cache_group_id : Z)
    (block_mask : option (list bool)) (it : nat * Ref) : ST BlockPool unit :=
  let '(i, blk) := it in
  b ← load_block blk;
  masked ← (match block_mask with
            | Some m => if is_null b then mret true else keep ← st_lift (list_get m i); mret (negb keep)
            | None => mret false
            end);
  if is_null b || masked then mret tt else
  hash ← st_lift (list_get new_block_hashes i);
  let num_hash_tokens := (Z.of_nat (num_cached_blocks + i + 1) * block_size)%Z in
  key ← st_lift (make_block_hash_with_group_id hash kv_cache_group_id);
  (match block_hash b with
   | Some _ =>
       st_raise_if (match block_hash_num_tokens b with Some n => negb (n <? num_hash_tokens)%Z | None => true end) AssertionError;;
       _ ← _remove_cached_block_hashes blk; mret tt
   | None => mret tt
   end);;
  _insert_block_hash key blk (Some num_hash_tokens).

Definition cache_full_blocks (block_hashes : list BlockHash) (blks : list Ref) (num_cached_blocks num_full_blocks : nat)
    (block_size kv_cache_group_id : Z) (block_mask : option (list bool)) : ST BlockPool unit :=
  if (num_full_blocks <=? num_cached_blocks)%nat then mret tt else
  let new_full_blocks := slice num_cached_blocks num_full_blocks blks in
  st_raise_if (match block_mask with Some m => negb (length m =? length new_full_blocks)%nat | None => false end) AssertionError;;
  s ← st_get;
  hashes ← st_lift (block_hash_list block_hashes (hash_block_size s) block_size);
  st_raise_if (length hashes <? num_full_blocks)%nat AssertionError;;
  st_for (zip (seq 0 (length new_full_blocks)) new_full_blocks)
    (cache_full_block (drop num_cached_blocks hashes) num_cached_blocks block_size kv_cache_group_id block_mask).

Definition _get_partial_block_hash (block_hashes : list BlockHash) (num_tokens : Z) : ST BlockPool BlockHash :=
  s ← st_get;
  st_raise_if (negb (num_tokens mod hash_block_size s =? 0))%Z AssertionError;;
  let num_hash_blocks := (num_tokens / hash_block_size s)%Z in
  st_raise_if (negb ((0 <? num_hash_blocks) && (num_hash_blocks <=? Z.of_nat (length block_hashes))))%Z AssertionError;;
  st_lift (list_get block_hashes (Z.to_nat (num_hash_blocks - 1))).

Definition cache_partial_block (block_hashes : list BlockHash) (block : Ref) (num_tokens kv_cache_group_id block_size : Z) :
    ST BlockPool (option BlockHashWithGroupId) :=
  b ← load_block block;
  if is_null b then mret None else
  s ← st_get;
  st_raise_if (block_size <=? hash_block_size s)%Z AssertionError;;
  st_raise_if (negb (block_size mod hash_block_size s =? 0))%Z AssertionError;;
  st_raise_if (num_tokens mod block_size =? 0)%Z AssertionError;;
  hash ← _get_partial_block_hash block_hashes num_tokens;
  let hash_tokens := (num_tokens / hash_block_size s * hash_block_size s)%Z in
  key ← st_lift (make_block_hash_with_group_id hash kv_cache_group_id);
  already_cached ← (if bool_decide (block_hash b = Some key) then mret true else contain key (block_id b));
  (match block_hash b, block_hash_num_tokens b with
   | Some _, Some n =>
       if negb already_cached && (n <? hash_tokens)%Z then _ ← _remove_cached_block_hashes block; mret tt else mret tt
   | _, _ => mret tt
   end);;
  _insert_block_hash key block (Some hash_tokens);;
  mret (Some key).

Definition _maybe_evict_cached_block (block : Ref) : ST BlockPool bool :=
  evicted_hashes ← _remove_cached_block_hashes block;
  mret (negb (length evicted_hashes =? 0)%nat).

Definition take_block (caching : bool) (block : Ref) : ST BlockPool unit :=
  (if caching then _ ← _maybe_evict_cached_block block; mret tt else mret tt);;
  b ← load_block block;
  st_raise_if (negb (ref_cnt b =? 0))%Z AssertionError;;
  add_ref block 1.

Definition get_new_blocks (num_blocks : Z) : ST BlockPool (list Ref) :=
  s ← st_get;
  st_raise_if (get_num_free_blocks s <? num_blocks)%Z ValueError;;
  ret ← on_queue (FreeKVCacheBlockQueue.popleft_n num_blocks);
  st_for ret (take_block (enable_caching s));;
  mret ret.

Definition touch_block (block : Ref) : ST BlockPool unit :=
  b ← load_block block;
  (if (ref_cnt b =? 0)%Z && negb (is_null b) then on_queue (FreeKVCacheBlockQueue.remove block) else mret tt);;
  add_ref block 1.

Definition touch (blks : list Ref) : ST BlockPool unit := st_for blks touch_block.

(** The loop of [free_blocks]: the blocks to free with and without a hash. *)
Fixpoint release_refs (ordered_blocks with_hash without_hash : list Ref) : ST BlockPool (list Ref * list Ref) :=
  match ordered_blocks with
  | [] => mret (with_hash, without_hash)
  | block :: ordered_blocks =>
      add_ref block (-1);;
      b ← load_block block;
      if (ref_cnt b =? 0)%Z && negb (is_null b) then
        if bool_decide (block_hash b = None) then release_refs ordered_blocks with_hash (without_hash ++ [block])
        else release_refs ordered_blocks (with_hash ++ [block]) without_hash
      else release_refs ordered_blocks with_hash without_hash
  end.

Definition free_blocks (ordered_blocks : list Ref) : ST BlockPool unit :=
  '(blocks_with_hash, blocks_without_hash) ← release_refs ordered_blocks [] [];
  on_queue (FreeKVCacheBlockQueue.prepend_n blocks_without_hash);;
  on_queue (FreeKVCacheBlockQueue.append_n blocks_with_hash).

(** A negative identifier counts from the end. *)
Definition evict_block (id : Z) : ST BlockPool unit :=
  s ← st_get;
  st_raise_if (Z.of_nat (length (blocks s)) <=? id)%Z AssertionError;;
  block ← st_lift (if (0 <=? id)%Z then list_get (blocks s) (Z.to_nat id)
                   else if (0 <=? Z.of_nat (length (blocks s)) + id)%Z then list_get (blocks s) (Z.to_nat (Z.of_nat (length (blocks s)) + id))
                   else Err IndexError);
  _ ← _maybe_evict_cached_block block; mret tt.

Definition evict_blocks (block_ids : list Z) : ST BlockPool unit := st_for block_ids evict_block.

Definition reset_prefix_cache : ST BlockPool bool :=
  s ← st_get;
  if negb (num_gpu_blocks s - get_num_free_blocks s =? 1)%Z then mret false else
  set_cached (λ _, ∅);;
  set_by_block (λ _, ∅);;
  st_for (blocks s) (λ block, update_block block reset_hash);;
  mret true.

End Pool.

(** ** The map from hashes to blocks is a relation *)

Definition with_queue (q : Queue) (s : BlockPool) : BlockPool :=
  mkPool q (blocks s) (num_gpu_blocks s) (enable_caching s) (hash_block_size s)
    (cached_block_hash_to_block s) (cached_block_hashes_by_block s) (null_block s).
Definition with_map (m : BlockMap) (s : BlockPool) : BlockPool :=
  mkPool (bp_queue s) (blocks s) (num_gpu_blocks s) (enable_caching s) (hash_block_size s)
    m (cached_block_hashes_by_block s) (null_block s).
Definition with_aliases (a : gmap Z (gset BlockHashWithGroupId)) (s : BlockPool) : BlockPool :=
  mkPool (bp_queue s) (blocks s) (num_gpu_blocks s) (enable_caching s) (hash_block_size s)
    (cached_block_hash_to_block s) a (null_block s).

(** The map leads from the key to the block. *)
Definition knows (m : BlockMap) (key : BlockHashWithGroupId) (i : nat) : Prop :=
  match m !! key with
  | None => False
  | Some (One r) => r = Block i
  | Some (Many d) => (Z.of_nat i, Block i) ∈ d
  end.

(** An entry leads to blocks of the pool; a dictionary is not empty and indexes each
    block by its identifier. *)
Definition entry_ok (n : nat) (e : Cached) : Prop :=
  match e with
  | One r => ∃ i, (i < n)%nat ∧ r = Block i
  | Many d => d ≠ [] ∧ NoDup d.*1 ∧ ∀ k r, (k, r) ∈ d → ∃ i, (i < n)%nat ∧ k = Z.of_nat i ∧ r = Block i
  end.

Definition map_ok (n : nat) (m : BlockMap) : Prop := ∀ key e, m !! key = Some e → entry_ok n e.

Definition ids_ok (n : nat) (s : BlockPool) : Prop :=
  ∀ i, (i < n)%nat → ∃ b, q_heap (bp_queue s) !! Block i = Some b ∧ block_id b = Z.of_nat i.

Lemma dict_pop_ok d k :
  NoDup d.*1 →
  (∀ k' r, (k', r) ∈ (dict_pop d k).2 ↔ (k', r) ∈ d ∧ k' ≠ k) ∧ NoDup (dict_pop d k).2.*1
  ∧ ∀ r, (dict_pop d k).1 = Some r ↔ (k, r) ∈ d.
Proof.
  induction d as [|[k1 r1] d IH]; intros Hn.
  { cbn. split; [|split]; [set_solver|constructor|set_solver]. }
  cbn [fmap list_fmap fst] in Hn. apply NoDup_cons in Hn as [Hk Hn]. destruct (IH Hn) as (I1 & I2 & I3). cbn [dict_pop].
  assert (∀ r, (k1, r) ∈ d → False) as Hk'.
  { intros r Hr. apply Hk. apply list_elem_of_fmap. by exists (k1, r). }
  destruct (k1 =? k)%Z eqn:E.
  - apply Z.eqb_eq in E as ->. cbn [fst snd]. split; [|split].
    + intros k' r. rewrite elem_of_cons. split.
      * intros H. split; [by right|]. intros ->. by eapply Hk'.
      * intros [[?|?] ?]; [by simplify_eq|done].
    + done.
    + intros r. rewrite elem_of_cons. split; [intros ?; simplify_eq; by left|]. intros [?|?]; [by simplify_eq|by exfalso; eapply Hk'].
  - apply Z.eqb_neq in E. destruct (dict_pop d k) as [o d'] eqn:Ed. cbn [fst snd] in *. split; [|split].
    + intros k' r. rewrite !elem_of_cons, I1. split; [intros [?|[? ?]]; simplify_eq; auto|]. intros [[?|?] ?]; auto.
    + cbn [fmap list_fmap fst]. apply NoDup_cons. split; [|done]. intros ([k' r'] & -> & H)%list_elem_of_fmap.
      apply I1 in H as [H _]. by eapply Hk'.
    + intros r. rewrite elem_of_cons, I3. split; [by right|]. intros [?|?]; [by simplify_eq|done].
Qed.

Lemma dict_set_new d k v : k ∉ d.*1 → dict_set d k v = d ++ [(k, v)].
Proof.
  induction d as [|[k1 r1] d IH]; intros H; [done|]. cbn [fmap list_fmap fst] in H. apply not_elem_of_cons in H as [H1 H2].
  cbn [dict_set app]. rewrite (proj2 (Z.eqb_neq _ _)) by done. by rewrite IH.
Qed.

Lemma dict_has_ok d k : dict_has d k = true ↔ k ∈ d.*1.
Proof.
  unfold dict_has. rewrite existsb_exists, list_elem_of_fmap. split.
  - intros (it & H1 & H2%Z.eqb_eq). exists it. by rewrite list_elem_of_In.
  - intros (it & -> & H). exists it. rewrite <-list_elem_of_In. split; [done|]. apply Z.eqb_refl.
Qed.

Module MapSpec.
Import BlockHashToBlockMap.

Lemma load_block_at r b s : q_heap (bp_queue s) !! r = Some b → load_block r s = (Ok b, s).
Proof. intros H. unfold load_block, on_queue, load. rewrite H. by destruct s. Qed.

Lemma load_block_ok n s i : ids_ok n s → (i < n)%nat → ∃ b, load_block (Block i) s = (Ok b, s) ∧ block_id b = Z.of_nat i.
Proof. intros Hs Hi. destruct (Hs i Hi) as (b & Hb & E). exists b. split; [by apply load_block_at|done]. Qed.

Lemma many_lookup d i n :
  entry_ok n (Many d) → (Z.of_nat i ∈ d.*1 ↔ (Z.of_nat i, Block i) ∈ d).
Proof.
  intros (_ & _ & H). rewrite list_elem_of_fmap. split.
  - intros ([k r] & E & Hd). cbn [fst] in E. subst k. destruct (H _ _ Hd) as (j & _ & E1 & ->). by apply Nat2Z.inj in E1 as ->.
  - intros Hd. by exists (Z.of_nat i, Block i).
Qed.

Lemma contain_ok n s key i :
  ids_ok n s → map_ok n (cached_block_hash_to_block s) → (i < n)%nat →
  ∃ b, contain key (Z.of_nat i) s = (Ok b, s) ∧ (b = true ↔ knows (cached_block_hash_to_block s) key i).
Proof.
  intros Hs Hm Hi. unfold contain, knows. rewrite st_bind_eq. cbn [st_get].
  destruct (cached_block_hash_to_block s !! key) as [[r|d]|] eqn:E.
  - destruct (Hm _ _ E) as (j & Hj & ->). destruct (load_block_ok n s j Hs Hj) as (b & Hb & Eb).
    rewrite st_bind_eq, Hb, Eb. eexists. split; [reflexivity|]. rewrite Z.eqb_eq. split; [|by intros [= ->]].
    by intros ->%Nat2Z.inj.
  - eexists. split; [reflexivity|]. rewrite dict_has_ok. eapply many_lookup, Hm, E.
  - by eexists.
Qed.

Lemma get_one_block_ok n s key :
  map_ok n (cached_block_hash_to_block s) →
  ∃ o, get_one_block key s = (Ok o, s)
  ∧ match o with
    | None => ∀ i, ¬ knows (cached_block_hash_to_block s) key i
    | Some r => ∃ i, (i < n)%nat ∧ r = Block i ∧ knows (cached_block_hash_to_block s) key i
    end.
Proof.
  intros Hm. unfold get_one_block, knows. rewrite st_bind_eq. cbn [st_get].
  destruct (cached_block_hash_to_block s !! key) as [[r|[|[k r] d]]|] eqn:E.
  - destruct (Hm _ _ E) as (j & Hj & ->). eexists. split; [reflexivity|]. by exists j.
  - by destruct (Hm _ _ E) as (? & _).
  - destruct (Hm _ _ E) as (_ & _ & H). destruct (H k r) as (j & Hj & -> & ->); [by left|].
    eexists. split; [reflexivity|]. exists j. split; [done|]. split; [done|]. by left.
  - eexists. split; [reflexivity|]. by intros i [].
Qed.

Lemma pop_ok n s key i :
  ids_ok n s → map_ok n (cached_block_hash_to_block s) → (i < n)%nat →
  ∃ o m, pop key (Z.of_nat i) s = (Ok o, with_map m s) ∧ map_ok n m
  ∧ (∀ key' j, (j < n)%nat → knows m key' j ↔ knows (cached_block_hash_to_block s) key' j ∧ (key' ≠ key ∨ j ≠ i))
  ∧ (is_Some o ↔ knows (cached_block_hash_to_block s) key i).
Proof.
  intros Hs Hm Hi. unfold pop. rewrite st_bind_eq. cbn [st_get]. set (m0 := cached_block_hash_to_block s) in *.
  rewrite st_bind_eq. cbn [set_cached st_modify].
  assert (∀ key' j, knows (delete key m0) key' j ↔ key' ≠ key ∧ knows m0 key' j) as Hkd.
  { intros key' j. unfold knows. rewrite lookup_delete. case_decide; naive_solver. }
  assert (∀ key' j e, knows (<[key := e]> m0) key' j
    ↔ if decide (key' = key) then match e with One r => r = Block j | Many d => (Z.of_nat j, Block j) ∈ d end
      else knows m0 key' j) as Hk.
  { intros key' j e. unfold knows. rewrite lookup_insert. repeat case_decide; naive_solver. }
  assert (∀ e, entry_ok n e → map_ok n (<[key := e]> m0)) as Hins.
  { intros e He key' e' H. rewrite lookup_insert in H. case_decide; [by simplify_eq|by eapply Hm]. }
  assert (map_ok n (delete key m0)) as Hdel.
  { intros key' e' H. rewrite lookup_delete in H. case_decide; [done|by eapply Hm]. }
  destruct (m0 !! key) as [[r|d]|] eqn:E.
  - destruct (Hm _ _ E) as (j & Hj & ->). destruct (load_block_ok n (with_map (delete key m0) s) j Hs Hj) as (b & Hb & Eb).
    rewrite st_bind_eq. change (mkPool _ _ _ _ _ _ _ _) with (with_map (delete key m0) s). rewrite Hb, Eb.
    destruct (Z.of_nat j =? Z.of_nat i)%Z eqn:Ej.
    + apply Z.eqb_eq, Nat2Z.inj in Ej as ->. exists (Some (Block i)), (delete key m0). split; [done|]. split; [done|].
      split; [|unfold knows; rewrite E; split; [done|by eexists]].
      intros key' j' _. rewrite Hkd. destruct (decide (key' = key)) as [->|Hne]; [|tauto].
      unfold knows. rewrite E. naive_solver.
    + apply Z.eqb_neq in Ej. rewrite st_bind_eq. exists None, (<[key := One (Block j)]> m0). split; [|split; [|split]].
      * cbn. unfold with_map. cbn. by rewrite insert_delete_eq.
      * apply Hins. by exists j.
      * intros key' j' _. rewrite Hk. destruct (decide (key' = key)) as [->|Hne]; [|tauto].
        unfold knows. rewrite E. split; [|tauto]. intros [= ->]. split; [done|]. right. by intros ->.
      * unfold knows. rewrite E. split; [by intros []|]. by intros [= ->].
  - destruct (Hm _ _ E) as (Hne & Hnd & Hd). destruct (dict_pop_ok d (Z.of_nat i) Hnd) as (D1 & D2 & D3).
    destruct (dict_pop d (Z.of_nat i)) as [o d'] eqn:Ed. cbn [fst snd] in *.
    assert (∀ j, (Z.of_nat j, Block j) ∈ d' ↔ (Z.of_nat j, Block j) ∈ d ∧ j ≠ i) as Hd'.
    { intros j. rewrite D1. naive_solver lia. }
    assert (is_Some o ↔ (Z.of_nat i, Block i) ∈ d) as Ho.
    { split; [|intros H; exists (Block i); by apply D3]. intros [r Hr]. apply D3 in Hr. destruct (Hd _ _ Hr) as (j & _ & E1 & ->).
      by apply Nat2Z.inj in E1 as ->. }
    exists o. rewrite st_bind_eq. destruct d' as [|x d'].
    + exists (delete key m0). split; [done|]. split; [done|]. split; [|unfold knows; by rewrite E].
      intros key' j _. rewrite Hkd. destruct (decide (key' = key)) as [->|?]; [|tauto]. specialize (Hd' j).
      unfold knows. rewrite E. rewrite elem_of_nil in Hd'. tauto.
    + exists (<[key := Many (x :: d')]> m0). split; [|split; [|split]].
      * cbn. unfold with_map. cbn. by rewrite insert_delete_eq.
      * apply Hins. split; [done|]. split; [done|]. intros k r H. apply (Hd k r). by apply D1.
      * intros key' j _. rewrite Hk. destruct (decide (key' = key)) as [->|?]; [|tauto]. rewrite Hd'.
        unfold knows. rewrite E. tauto.
      * unfold knows. by rewrite E.
  - exists None, (delete key m0). split; [done|]. split; [done|]. split; [|unfold knows; rewrite E; split; [by intros []|done]].
    intros key' j _. rewrite Hkd. destruct (decide (key' = key)) as [->|Hne]; [|tauto].
    unfold knows. rewrite E. tauto.
Qed.

Lemma insert_ok n s key i :
  ids_ok n s → map_ok n (cached_block_hash_to_block s) → (i < n)%nat → ¬ knows (cached_block_hash_to_block s) key i →
  ∃ m, insert key (Block i) s = (Ok tt, with_map m s) ∧ map_ok n m
  ∧ ∀ key' j, knows m key' j ↔ knows (cached_block_hash_to_block s) key' j ∨ (key' = key ∧ j = i).
Proof.
  intros Hs Hm Hi Hk. unfold insert. rewrite st_bind_eq. cbn [st_get]. set (m0 := cached_block_hash_to_block s) in *.
  destruct (load_block_ok n s i Hs Hi) as (bi & Hbi & Ei).
  assert (∀ e, entry_ok n e → (∀ j, match e with One r => r = Block j | Many d => (Z.of_nat j, Block j) ∈ d end ↔ knows m0 key j ∨ j = i) →
    map_ok n (<[key := e]> m0) ∧ ∀ key' j, knows (<[key := e]> m0) key' j ↔ knows m0 key' j ∨ (key' = key ∧ j = i)) as Hins.
  { intros e He Hj. split.
    - intros key' e' H'. rewrite lookup_insert in H'. case_decide; [by simplify_eq|by eapply Hm].
    - intros key' j. unfold knows at 1. rewrite lookup_insert. destruct (decide (key = key')) as [<-|Hne].
      + specialize (Hj j). destruct e; rewrite Hj; naive_solver.
      + unfold knows. naive_solver. }
  unfold knows in Hk. destruct (m0 !! key) as [[r|d]|] eqn:E.
  - destruct (Hm _ _ E) as (j & Hj & ->). destruct (load_block_ok n s j Hs Hj) as (bj & Hbj & Ej).
    rewrite st_bind_eq, Hbj, st_bind_eq, Hbi. eexists. split; [reflexivity|]. fold m0. rewrite Ei, Ej.
    assert (j ≠ i) as Hji by (intros ->; done).
    rewrite dict_set_new by (cbn; rewrite list_elem_of_singleton; lia). cbn [app]. apply Hins.
    + split; [done|]. split; [cbn; apply NoDup_cons; rewrite list_elem_of_singleton; split; [lia|apply NoDup_singleton]|].
      intros k r Hkr. apply elem_of_cons in Hkr as [?|?%list_elem_of_singleton]; simplify_eq; [by exists j|by exists i].
    + intros j'. unfold knows. rewrite E, elem_of_cons, list_elem_of_singleton. naive_solver.
  - destruct (Hm _ _ E) as (Hne & Hnd & Hd). rewrite st_bind_eq, Hbi. eexists. split; [reflexivity|]. fold m0. rewrite Ei.
    assert (Z.of_nat i ∉ d.*1) as Hfr by (rewrite many_lookup by (by eapply Hm); done).
    rewrite dict_set_new by done. apply Hins.
    + split; [by destruct d|]. split.
      * rewrite fmap_app. apply NoDup_app. split; [done|]. split; [|apply NoDup_singleton].
        intros k H1 H2%list_elem_of_singleton. cbn in H2. by subst.
      * intros k r [H|H%list_elem_of_singleton]%elem_of_app; [by apply Hd|]. simplify_eq. by exists i.
    + intros j. unfold knows. rewrite E, elem_of_app, list_elem_of_singleton. naive_solver.
  - eexists. split; [reflexivity|]. fold m0. apply Hins; [by exists i|]. intros j. unfold knows. rewrite E. naive_solver.
Qed.
End MapSpec.

(** ** What holds of a pool *)

(** The blocks [0..n-1] exist, know their numbers, and block 0 is the null block. *)
Definition heap_ok (n : nat) (D : gmap Ref KVCacheBlock) : Prop :=
  (∀ i, is_Some (D !! Block i) ↔ (i < n)%nat)
  ∧ ∀ i b, D !! Block i = Some b → block_id b = Z.of_nat i ∧ is_null b = bool_decide (i = 0%nat).

(** The keys of a block: its hash and its aliases. *)
Definition owns (D : gmap Ref KVCacheBlock) (a : gmap Z (gset BlockHashWithGroupId)) (key : BlockHashWithGroupId) (i : nat) : Prop :=
  ∃ b, D !! Block i = Some b ∧ (block_hash b = Some key ∨ ∃ ks, a !! Z.of_nat i = Some ks ∧ key ∈ ks).

(** The map leads from every key to the blocks that own it, and a block without a
    hash owns nothing. *)
Definition hashes_ok (n : nat) (D : gmap Ref KVCacheBlock) (m : BlockMap) (a : gmap Z (gset BlockHashWithGroupId)) : Prop :=
  map_ok n m
  ∧ (∀ key i, (i < n)%nat → knows m key i ↔ owns D a key i)
  ∧ ∀ i b, D !! Block i = Some b → block_hash b = None → block_hash_num_tokens b = None ∧ a !! Z.of_nat i = None.

(** The blocks are [D], the free queue is [l]. *)
Definition pool_state (n : nat) (D : gmap Ref KVCacheBlock) (l : list Ref) (s : BlockPool) : Prop :=
  bp_queue s = queue_of D l ∧ queue_ok D l ∧ heap_ok n D
  ∧ hashes_ok n D (cached_block_hash_to_block s) (cached_block_hashes_by_block s)
  ∧ blocks s = map Block (seq 0 n) ∧ num_gpu_blocks s = Z.of_nat n ∧ (0 < n)%nat ∧ null_block s = Block 0.

Definition same_config (s s' : BlockPool) : Prop :=
  enable_caching s' = enable_caching s ∧ hash_block_size s' = hash_block_size s.

#[export] Instance same_config_preorder : PreOrder same_config.
Proof. split; [by intros s|]. intros s1 s2 s3 [? ?] [? ?]. split; congruence. Qed.

(** A change of a block that leaves its links alone. *)
Definition data_only (f : KVCacheBlock → KVCacheBlock) : Prop :=
  ∀ p n b, f (set_prev p (set_next n b)) = set_prev p (set_next n (f b)).

Lemma update_data f r D l :
  data_only f → is_Some (D !! r) → update r f (queue_of D l) = (Ok tt, queue_of (alter f r D) l).
Proof.
  intros Hf [b Hb]. unfold update, queue_of. cbn [q_heap num_free_blocks]. rewrite relink_lookup, Hb.
  cbn [fmap option_fmap option_map]. do 2 f_equal. apply map_eq. intros r'. rewrite relink_lookup.
  destruct (decide (r = r')) as [<-|Hne].
  - rewrite lookup_insert_eq, lookup_alter_eq, Hb. cbn. by rewrite Hf.
  - by rewrite lookup_insert_ne, relink_lookup, lookup_alter_ne.
Qed.

Lemma load_data r b D l :
  D !! r = Some b → ∃ p n, load r (queue_of D l) = (Ok (set_prev p (set_next n b)), queue_of D l).
Proof. intros Hb. do 2 eexists. unfold queue_of. by erewrite load_relink. Qed.

Lemma queue_ok_alter f r D l : queue_ok D l → queue_ok (alter f r D) l.
Proof. intros [Hn Hd]. split; [done|]. intros r' Hr'. rewrite lookup_alter_is_Some. by apply Hd. Qed.

Lemma data_only_ref c : data_only (set_ref_cnt c). Proof. by intros p n []. Qed.
Lemma data_only_hash h k : data_only (with_hash h k). Proof. by intros p n []. Qed.
Lemma data_only_add k : data_only (λ b, set_ref_cnt (ref_cnt b + k) b). Proof. by intros p n []. Qed.

Lemma in_option_list {A} (o : option A) x : x ∈ option_list o ↔ o = Some x.
Proof. destruct o as [y|]; cbn; [rewrite list_elem_of_singleton; naive_solver|]. rewrite elem_of_nil. naive_solver. Qed.

(** What a change of hashes leaves alone. *)
Definition refs_of (D : gmap Ref KVCacheBlock) : gmap Ref (Z * Z * bool) :=
  (λ b, (block_id b, ref_cnt b, is_null b)) <$> D.

Lemma refs_of_alter f r D :
  (∀ b, block_id (f b) = block_id b ∧ ref_cnt (f b) = ref_cnt b ∧ is_null (f b) = is_null b) → refs_of (alter f r D) = refs_of D.
Proof.
  intros Hf. apply map_eq. intros r'. unfold refs_of. rewrite !lookup_fmap. destruct (decide (r = r')) as [<-|Hne].
  - rewrite lookup_alter_eq. destruct (D !! r) as [b|]; [|done]. cbn. destruct (Hf b) as (-> & -> & ->). done.
  - by rewrite lookup_alter_ne.
Qed.

Module PoolSpec.
Import BlockHashToBlockMap Pool MapSpec.

(** Reading and changing a block of a pool. *)
Lemma pool_load n D l s i :
  pool_state n D l s → (i < n)%nat →
  ∃ b b', D !! Block i = Some b ∧ load_block (Block i) s = (Ok b', s) ∧ block_id b' = Z.of_nat i
  ∧ is_null b' = bool_decide (i = 0%nat) ∧ ref_cnt b' = ref_cnt b ∧ block_hash b' = block_hash b
  ∧ block_hash_num_tokens b' = block_hash_num_tokens b.
Proof.
  intros (Hq & _ & [Hh1 Hh2] & _) Hi. destruct (proj2 (Hh1 i) Hi) as [b Hb]. destruct (Hh2 i b Hb) as [E1 E2].
  destruct (load_data (Block i) b D l Hb) as (p & nx & E). exists b. eexists. split; [done|]. unfold load_block, on_queue.
  rewrite Hq, E. split; [destruct s; cbn in Hq; by subst|]. by destruct b.
Qed.

Lemma pool_update n D l s i f :
  pool_state n D l s → (i < n)%nat → data_only f →
  update_block (Block i) f s = (Ok tt, with_queue (queue_of (alter f (Block i) D) l) s).
Proof.
  intros (Hq & _ & [Hh1 _] & _) Hi Hf. unfold update_block, on_queue. rewrite Hq, update_data; [done|done|]. by apply Hh1.
Qed.

Lemma pool_ids n D l s : pool_state n D l s → ids_ok n s.
Proof.
  intros (Hq & _ & [Hh1 Hh2] & _) i Hi. destruct (proj2 (Hh1 i) Hi) as [b Hb]. rewrite Hq. unfold queue_of. cbn [q_heap].
  rewrite relink_lookup, Hb. eexists. split; [reflexivity|]. apply Hh2 in Hb as [E _]. by destruct b.
Qed.

Lemma heap_ok_alter n D r f :
  heap_ok n D → (∀ b, block_id (f b) = block_id b ∧ is_null (f b) = is_null b) → heap_ok n (alter f r D).
Proof.
  intros [H1 H2] Hf. split.
  - intros i. rewrite lookup_alter_is_Some. apply H1.
  - intros i b Hb. rewrite lookup_alter in Hb. case_decide as E; [|by apply H2].
    apply fmap_Some in Hb as (b0 & Hb0 & ->). destruct (Hf b0) as [-> ->]. subst r. by apply H2.
Qed.

(** Popping the keys of a block. *)
Lemma pop_hashes_ok n s keys i :
  ids_ok n s → map_ok n (cached_block_hash_to_block s) → (i < n)%nat →
  ∃ removed m, pop_hashes keys (Z.of_nat i) s = (Ok removed, with_map m s) ∧ map_ok n m
  ∧ ∀ key j, (j < n)%nat → knows m key j ↔ knows (cached_block_hash_to_block s) key j ∧ (key ∉ keys ∨ j ≠ i).
Proof.
  revert s. induction keys as [|k keys IH]; intros s Hs Hm Hi.
  { exists [], (cached_block_hash_to_block s). split; [by destruct s|]. split; [done|]. intros key j _. set_solver. }
  cbn [pop_hashes]. destruct (pop_ok n s k i Hs Hm Hi) as (o & m1 & E1 & Hm1 & Hk1 & _).
  destruct (IH (with_map m1 s) Hs Hm1 Hi) as (rm & m2 & E2 & Hm2 & Hk2).
  exists (match o with Some _ => k :: rm | None => rm end), m2. rewrite st_bind_eq, E1, st_bind_eq, E2.
  split; [done|]. split; [done|]. intros key j Hj. rewrite Hk2, Hk1 by done. rewrite not_elem_of_cons. destruct (decide (key = k)); naive_solver.
Qed.

(** The blocks of the pool without the keys of block [i]. *)
Lemma remove_hashes_ok n D l s i :
  pool_state n D l s → (i < n)%nat →
  ∃ removed s', _remove_cached_block_hashes (Block i) s = (Ok removed, s')
  ∧ pool_state n (alter reset_hash (Block i) D) l s' ∧ same_config s s'
  ∧ (∀ key j, (j < n)%nat → knows (cached_block_hash_to_block s') key j ↔ knows (cached_block_hash_to_block s) key j ∧ j ≠ i).
Proof.
  intros Hp Hi. destruct (pool_load n D l s i Hp Hi) as (b & b' & Hb & El & Eid & _ & _ & Eh & Et).
  pose proof Hp as (Hq & Hqok & Hh & (Hm & Hko & Hn) & Hbl & Hnum & Hpos & Hnull).
  unfold _remove_cached_block_hashes. rewrite st_bind_eq, El, st_bind_eq. cbn [st_get]. rewrite Eid, Eh.
  rewrite st_bind_eq. cbn [set_by_block st_modify].
  set (a := cached_block_hashes_by_block s) in *. set (m := cached_block_hash_to_block s) in *.
  set (keys := option_list (block_hash b) ++ elements (default ∅ (a !! Z.of_nat i))).
  assert (∀ key, key ∈ keys ↔ owns D a key i) as Hkeys.
  { intros key. unfold keys, owns. rewrite elem_of_app, elem_of_elements, in_option_list. split.
    - intros [H|H]; exists b; (split; [done|]); [by left|]. right. destruct (a !! Z.of_nat i) as [ks|]; [by exists ks|set_solver].
    - intros (b0 & Hb0 & H). rewrite Hb in Hb0. injection Hb0 as <-. destruct H as [H|(ks & -> & H)]; [by left|by right]. }
  assert (heap_ok n (alter reset_hash (Block i) D)) as Hh' by (apply heap_ok_alter; [done|by intros []]).
  assert (∀ m', map_ok n m' → (∀ key j, (j < n)%nat → knows m' key j ↔ knows m key j ∧ j ≠ i) →
    hashes_ok n (alter reset_hash (Block i) D) m' (delete (Z.of_nat i) a)) as Hnew.
  { intros m' Hm' Hk'. split; [done|]. split.
    - intros key j Hj. rewrite Hk', Hko by done. unfold owns. destruct (decide (j = i)) as [->|Hne].
      + rewrite lookup_alter_eq, lookup_delete_eq. split; [naive_solver|].
        intros (b0 & (b1 & _ & ->)%fmap_Some & [?|(? & ? & _)]); done.
      + rewrite lookup_alter_ne, lookup_delete_ne by (intros ?; simplify_eq; lia). naive_solver.
    - intros j b0 Hb0 Hn0. destruct (decide (j = i)) as [->|Hne].
      + rewrite lookup_alter_eq in Hb0. apply fmap_Some in Hb0 as (b1 & _ & ->). by rewrite lookup_delete_eq.
      + rewrite lookup_alter_ne in Hb0 by (intros ?; simplify_eq). rewrite lookup_delete_ne by lia. by apply Hn. }
  destruct keys as [|k0 keys0] eqn:Ekeys.
  - eexists _, _. split; [reflexivity|]. split; [|split; [done|]].
    + assert (alter reset_hash (Block i) D = D) as ED.
      { apply map_eq. intros r. destruct (decide (Block i = r)) as [<-|Hne]; [|by rewrite lookup_alter_ne].
        rewrite lookup_alter_eq, Hb. cbn [fmap option_fmap option_map]. f_equal.
        unfold keys in Ekeys. destruct (block_hash b) eqn:Ebh; [by rewrite ?Ebh in Ekeys|]. destruct (Hn i b Hb Ebh) as [Et' _].
        clear -Ebh Et'. unfold reset_hash, with_hash. destruct b. cbn in *. by subst. }
      assert (∀ key, ¬ owns D a key i) as Hno by (intros key Hk; apply Hkeys in Hk; by apply not_elem_of_nil in Hk).
      split; [rewrite ED; done|]. split; [by apply queue_ok_alter|]. split; [done|]. split; [|done].
      apply Hnew; [done|]. intros key j Hj. split; [|by intros [? _]]. intros H. split; [done|]. intros ->.
      by apply (Hno key), Hko.
    + cbn. intros key j Hj. split; [|by intros [? _]]. intros H. split; [done|]. intros ->.
      apply Hko, Hkeys in H; [|done]. by apply not_elem_of_nil in H.
  - rewrite <-Ekeys in *. clear k0 keys0 Ekeys.
    set (s1 := mkPool _ _ _ _ _ _ _ _).
    destruct (pop_hashes_ok n s1 keys i) as (rm & m' & E & Hm' & Hk'); [exact (pool_ids _ _ _ _ Hp)|done|done|].
    rewrite st_bind_eq, E, st_bind_eq. unfold update_block, on_queue.
    change (bp_queue (with_map m' s1)) with (bp_queue s). rewrite Hq, update_data by (apply data_only_hash || by apply Hh).
    eexists _, _. split; [reflexivity|].
    assert (∀ key j, (j < n)%nat → knows m' key j ↔ knows m key j ∧ j ≠ i) as Hk2.
    { intros key j Hj. rewrite (Hk' key j Hj). cbn [s1 cached_block_hash_to_block]. split.
      - intros [H [Hne|Hne]]; (split; [done|]); [|done]. intros ->. apply Hne, Hkeys, Hko; done.
      - intros [H Hne]. split; [done|by right]. }
    split; [|split; [done|exact Hk2]].
    split; [done|]. split; [by apply queue_ok_alter|]. split; [done|]. split; [|done]. by apply Hnew.
Qed.

(** The key leads to block [i] afterwards, and nothing else changed. *)
Lemma insert_hash_ok n D l s key i nt :
  pool_state n D l s → (i < n)%nat →
  ∃ s' D', _insert_block_hash key (Block i) nt s = (Ok tt, s')
  ∧ pool_state n D' l s' ∧ same_config s s' ∧ refs_of D' = refs_of D
  ∧ ∀ key' j, (j < n)%nat →
      knows (cached_block_hash_to_block s') key' j ↔ knows (cached_block_hash_to_block s) key' j ∨ (key' = key ∧ j = i).
Proof.
  intros Hp Hi. destruct (pool_load n D l s i Hp Hi) as (b & b' & Hb & El & Eid & _ & _ & Eh & Et).
  pose proof Hp as (Hq & Hqok & Hh & (Hm & Hko & Hn) & Hrest).
  unfold _insert_block_hash. rewrite st_bind_eq, El, Eid, Eh.
  assert (knows (cached_block_hash_to_block s) key i → ∃ s' D', (Ok tt, s) = (Ok tt, s')
    ∧ pool_state n D' l s' ∧ same_config s s' ∧ refs_of D' = refs_of D
    ∧ ∀ key' j, (j < n)%nat →
      knows (cached_block_hash_to_block s') key' j ↔ knows (cached_block_hash_to_block s) key' j ∨ (key' = key ∧ j = i)) as Hskip.
  { intros Hk. exists s, D. split; [done|]. split; [done|]. split; [done|]. split; [done|]. intros key' j _.
    split; [by left|]. by intros [?|[-> ->]]. }
  case_bool_decide as Ehb; [apply Hskip, Hko; [done|]; exists b; by split; [|left]|].
  destruct (contain_ok n s key i (pool_ids _ _ _ _ Hp) Hm Hi) as (present & Ec & Hpres).
  rewrite st_bind_eq, Ec. destruct present; [apply Hskip; by apply Hpres|].
  assert (¬ knows (cached_block_hash_to_block s) key i) as Hnk by (intros H; by apply Hpres in H).
  clear Hskip Hpres Ec. rewrite st_bind_eq.
  assert (∃ s1 D1, (match block_hash b with
     | None => on_queue (set_block_hash (Block i) key nt)
     | Some _ => set_by_block (λ m, <[Z.of_nat i := {[key]} ∪ default ∅ (m !! Z.of_nat i)]> m)
     end) s = (Ok tt, s1)
     ∧ bp_queue s1 = queue_of D1 l ∧ queue_ok D1 l ∧ heap_ok n D1 ∧ refs_of D1 = refs_of D ∧ same_config s s1
     ∧ cached_block_hash_to_block s1 = cached_block_hash_to_block s
     ∧ (∀ key' j, (j < n)%nat → owns D1 (cached_block_hashes_by_block s1) key' j
         ↔ owns D (cached_block_hashes_by_block s) key' j ∨ (key' = key ∧ j = i))
     ∧ (∀ j b, D1 !! Block j = Some b → block_hash b = None → block_hash_num_tokens b = None ∧ cached_block_hashes_by_block s1 !! Z.of_nat j = None)
     ∧ blocks s1 = blocks s ∧ num_gpu_blocks s1 = num_gpu_blocks s ∧ null_block s1 = null_block s)
    as (s1 & D1 & E1 & Hq1 & Hqok1 & Hh1 & Hr1 & Hc1 & Hm1 & Ho1 & Hn1 & B1 & B2 & B3).
  { destruct (block_hash b) as [hb|] eqn:Ehb'.
    - eexists _, D. split; [reflexivity|]. do 6 (split; [done|]). cbn [cached_block_hashes_by_block]. split; [|split; [|done]].
      + intros key' j Hj. unfold owns. destruct (decide (j = i)) as [->|Hne].
        * rewrite lookup_insert_eq. split.
          -- intros (b0 & Hb0 & [H|(ks & [= <-] & H)]); [left; by exists b0; split; [|left]|].
             apply elem_of_union in H as [->%elem_of_singleton|H]; [by right|]. left. exists b0. split; [done|]. right.
             destruct (cached_block_hashes_by_block s !! Z.of_nat i) as [ks|]; [by exists ks|set_solver].
          -- intros [(b0 & Hb0 & [H|(ks & E & H)])|[-> _]].
             ++ exists b0. split; [done|by left].
             ++ exists b0. split; [done|]. right. rewrite E. eexists. split; [done|]. set_solver.
             ++ exists b. split; [done|]. right. eexists. split; [done|]. set_solver.
        * rewrite lookup_insert_ne by lia. naive_solver.
      + intros j b0 Hb0 Hn0. destruct (decide (j = i)) as [->|Hne]; [rewrite Hb in Hb0; by simplify_eq|].
        rewrite lookup_insert_ne by lia. by apply Hn.
    - destruct (Hn i b Hb Ehb') as [Ent Ea]. unfold on_queue, set_block_hash. rewrite Hq, st_bind_eq.
      destruct (load_data (Block i) b D l Hb) as (p & nx & ->).
      replace (block_hash (set_prev p (set_next nx b))) with (block_hash b) by (by destruct b).
      replace (block_hash_num_tokens (set_prev p (set_next nx b))) with (block_hash_num_tokens b) by (by destruct b).
      rewrite Ehb', Ent. cbn [bool_decide negb andb]. rewrite st_bind_eq. cbn [st_raise_if st_lift raise_if].
      rewrite !bool_decide_eq_true_2 by done. cbn [negb andb raise_if].
      rewrite update_data by (apply data_only_hash || by eexists).
      eexists _, _. split; [reflexivity|]. split; [done|]. split; [by apply queue_ok_alter|].
      split; [apply heap_ok_alter; [done|by intros []]|]. split; [apply refs_of_alter; by intros []|]. split; [done|]. split; [done|].
      cbn [cached_block_hashes_by_block]. split; [|split; [|done]].
      + intros key' j Hj. unfold owns. destruct (decide (j = i)) as [->|Hne].
        * rewrite lookup_alter_eq, Hb, Ea. cbn. split.
          -- intros (b0 & [= <-] & [[= ->]|(? & ? & _)]); [by right|done].
          -- intros [(b0 & [= <-] & [H|(? & ? & _)])|[-> _]]; [congruence|done|]. eexists. split; [done|by left].
        * rewrite lookup_alter_ne by (intros ?; simplify_eq). naive_solver.
      + intros j b0 Hb0 Hn0. destruct (decide (j = i)) as [->|Hne].
        * rewrite lookup_alter_eq, Hb in Hb0. cbn in Hb0. injection Hb0 as <-. done.
        * rewrite lookup_alter_ne in Hb0 by (intros ?; simplify_eq). by apply Hn. }
  rewrite E1. assert (ids_ok n s1) as Hids.
  { intros j Hj. destruct (proj2 (proj1 Hh1 j) Hj) as [b0 Hb0]. rewrite Hq1. unfold queue_of. cbn [q_heap].
    rewrite relink_lookup, Hb0. eexists. split; [reflexivity|]. apply Hh1 in Hb0 as [E _]. by destruct b0. }
  destruct (insert_ok n s1 key i) as (m & E2 & Hm2 & Hk2); [done|by rewrite Hm1|done|by rewrite Hm1|].
  exists (with_map m s1), D1. split; [exact E2|]. split; [|split; [done|split; [done|]]].
  - split; [done|]. split; [done|]. split; [done|]. split; [|cbn; by rewrite B1, B2, B3].
    split; [done|]. split; [|done]. intros key' j Hj. cbn [with_map cached_block_hashes_by_block cached_block_hash_to_block].
    rewrite Hk2, Ho1, Hm1, Hko by done. done.
  - intros key' j _. cbn [with_map cached_block_hash_to_block]. by rewrite Hk2, Hm1.
Qed.
End PoolSpec.
