(* ===== verification/PoolState.v ===== *)
(** * The references of the block pool

    What holds of a pool whose clients hold a list of blocks, with repetitions: each
    block counts its holders, and is in the free queue exactly when it has none.
    Taking, touching and freeing blocks change the list of held blocks and keep the
    rest; caching and evicting keep the list. *)

From Stdlib Require Import ZArith Lia.
From stdpp Require Import base tactics numbers list option functions gmap.
From S2P Require Import Prelude FreeQueue BlockPool.

(** How often a block is held. *)
Definition holders (held : list Ref) (r : Ref) : nat := length (filter (.= r) held).

Lemma holders_app h1 h2 r : holders (h1 ++ h2) r = (holders h1 r + holders h2 r)%nat.
Proof. unfold holders. by rewrite filter_app, length_app. Qed.

Lemma holders_cons x h r : holders (x :: h) r = ((if decide (x = r) then 1 else 0) + holders h r)%nat.
Proof.
  unfold holders. destruct (decide (x = r)) as [E|E]; [by rewrite filter_cons_True|by rewrite filter_cons_False].
Qed.

Lemma holders_perm h1 h2 r : h1 ≡ₚ h2 → holders h1 r = holders h2 r.
Proof. intros H. unfold holders. by rewrite H. Qed.

Lemma holders_zero h r : holders h r = 0%nat ↔ r ∉ h.
Proof.
  induction h as [|x h IH]; [unfold holders; cbn; rewrite elem_of_nil; naive_solver|].
  rewrite holders_cons, not_elem_of_cons. destruct (decide (x = r)) as [->|]; naive_solver lia.
Qed.

(** The counters, the free queue [l] and the held blocks agree.  The counter of the
    null block means nothing. *)
Definition refs_ok (n : nat) (D : gmap Ref KVCacheBlock) (l held : list Ref) : Prop :=
  (∀ i b, D !! Block i = Some b → i ≠ 0%nat →
     ref_cnt b = Z.of_nat (holders held (Block i)) ∧ (Block i ∈ l ↔ Block i ∉ held))
  ∧ (∀ r, r ∈ l → ∃ i, r = Block i ∧ (0 < i < n)%nat)
  ∧ (∀ r, r ∈ held → ∃ i, r = Block i ∧ (i < n)%nat).

Definition pool_ok (n : nat) (held : list Ref) (s : BlockPool) : Prop :=
  ∃ D l, pool_state n D l s ∧ refs_ok n D l held.

Lemma refs_lookup D D' r :
  refs_of D' = refs_of D →
  ∀ b', D' !! r = Some b' → ∃ b, D !! r = Some b ∧ block_id b' = block_id b ∧ ref_cnt b' = ref_cnt b ∧ is_null b' = is_null b.
Proof.
  intros E b' Hb'. assert (refs_of D' !! r = refs_of D !! r) as H by (by rewrite E).
  unfold refs_of in H. rewrite !lookup_fmap, Hb' in H. destruct (D !! r) as [b|]; [|done]. cbn in H.
  exists b. by injection H as <- <- <-.
Qed.

Lemma refs_ok_ext n D D' l held : refs_of D' = refs_of D → refs_ok n D l held → refs_ok n D' l held.
Proof.
  intros E (H1 & H2 & H3). split; [|done]. intros i b' Hb' Hi. destruct (refs_lookup D D' (Block i) E b' Hb') as (b & Hb & _ & -> & _).
  by apply H1.
Qed.

(** The order of the queue and of the held blocks does not matter. *)
Lemma refs_ok_perm n D l l' held held' : l ≡ₚ l' → held ≡ₚ held' → refs_ok n D l held → refs_ok n D l' held'.
Proof.
  intros El Eh (H1 & H2 & H3). split; [|split].
  - intros i b Hb Hi. destruct (H1 i b Hb Hi) as [E1 E2]. rewrite <-(holders_perm held held') by done. split; [done|]. by rewrite <-El, <-Eh.
  - intros r. rewrite <-El. apply H2.
  - intros r. rewrite <-Eh. apply H3.
Qed.

Module RefSpec.
Import FreeQueueSpec Pool PoolSpec.

Lemma pool_state_queue n D l l' s :
  pool_state n D l s → queue_ok D l' → pool_state n D l' (with_queue (queue_of D l') s).
Proof. intros (Hq & _ & Hrest) Hl'. by split. Qed.

(** A change of a counter. *)
Definition add_cnt (r : Ref) (k : Z) (D : gmap Ref KVCacheBlock) : gmap Ref KVCacheBlock :=
  alter (λ b, set_ref_cnt (ref_cnt b + k) b) r D.

Lemma add_ref_ok n D l s i k :
  pool_state n D l s → (i < n)%nat →
  add_ref (Block i) k s = (Ok tt, with_queue (queue_of (add_cnt (Block i) k D) l) s)
  ∧ pool_state n (add_cnt (Block i) k D) l (with_queue (queue_of (add_cnt (Block i) k D) l) s).
Proof.
  intros Hp Hi. unfold add_ref. rewrite (pool_update n D l) by (done || apply data_only_add). split; [done|].
  destruct Hp as (Hq & Hqok & Hh & (Hm & Hk & Hn) & Hrest). split; [done|]. split; [by apply queue_ok_alter|].
  split; [apply heap_ok_alter; [done|by intros []]|]. split; [|done]. cbn [with_queue cached_block_hash_to_block cached_block_hashes_by_block].
  assert (∀ r, ∃ f, (∀ b, block_hash (f b) = block_hash b ∧ block_hash_num_tokens (f b) = block_hash_num_tokens b)
    ∧ add_cnt (Block i) k D !! r = f <$> D !! r) as Hf.
  { intros r. unfold add_cnt. destruct (decide (Block i = r)) as [<-|Hne].
    - rewrite lookup_alter_eq. eexists. split; [|done]. by intros [].
    - rewrite lookup_alter_ne by done. exists id. split; [done|]. by destruct (D !! r). }
  split; [done|]. split.
  - intros key j Hj. rewrite Hk by done. unfold owns. destruct (Hf (Block j)) as (f & Hf1 & ->). split.
    + intros (b & -> & H). exists (f b). destruct (Hf1 b) as [-> _]. by split.
    + intros (b' & (b & Hb & ->)%fmap_Some & H). exists b. destruct (Hf1 b) as [E _]. rewrite E in H. by split.
  - intros j b' Hb'. destruct (Hf (Block j)) as (f & Hf1 & E). rewrite E in Hb'. apply fmap_Some in Hb' as (b & Hb & ->).
    destruct (Hf1 b) as [-> ->]. by apply Hn.
Qed.

Lemma add_cnt_lookup r k D r' b' :
  add_cnt r k D !! r' = Some b' → ∃ b, D !! r' = Some b ∧ ref_cnt b' = (ref_cnt b + if decide (r = r') then k else 0)%Z.
Proof.
  unfold add_cnt. destruct (decide (r = r')) as [<-|Hne].
  - rewrite lookup_alter_eq. intros (b & Hb & ->)%fmap_Some. by exists b.
  - rewrite lookup_alter_ne by done. intros Hb. exists b'. split; [done|]. lia.
Qed.

(** Taking a block that has just left the queue. *)
Lemma take_blocks_ok n D l s caching xs :
  pool_state n D l s → NoDup xs →
  (∀ r, r ∈ xs → ∃ i b, r = Block i ∧ D !! r = Some b ∧ ref_cnt b = 0%Z) →
  ∃ s' D', st_for xs (take_block caching) s = (Ok tt, s') ∧ pool_state n D' l s' ∧ same_config s s'
  ∧ (∀ i b', D' !! Block i = Some b' → ∃ b, D !! Block i = Some b ∧ ref_cnt b' = (ref_cnt b + if decide (Block i ∈ xs) then 1 else 0)%Z)
  ∧ (∀ key j, (j < n)%nat → knows (cached_block_hash_to_block s') key j
       ↔ knows (cached_block_hash_to_block s) key j ∧ (caching = true → Block j ∉ xs)).
Proof.
  revert D s. induction xs as [|x xs IH]; intros D s Hp Hn Hx.
  { exists s, D. split; [done|]. split; [done|]. split; [done|]. split; [|set_solver].
    intros i b' Hb'. exists b'. split; [done|]. rewrite decide_False by apply not_elem_of_nil. lia. }
  apply NoDup_cons in Hn as [Hxn Hn]. destruct (Hx x) as (i & b & -> & Hb & Hc); [by left|].
  assert (i < n)%nat as Hi by (apply (proj1 (proj1 (proj2 (proj2 Hp))) i); by eexists).
  assert (∃ s1 D1, (if caching then _ ← _maybe_evict_cached_block (Block i); mret tt else mret tt) s = (Ok tt, s1)
    ∧ pool_state n D1 l s1 ∧ same_config s s1 ∧ refs_of D1 = refs_of D
    ∧ (∀ key j, (j < n)%nat → knows (cached_block_hash_to_block s1) key j
       ↔ knows (cached_block_hash_to_block s) key j ∧ (caching = true → j ≠ i))) as (s1 & D1 & E1 & Hp1 & Hc1 & Hr1 & Hk1).
  { destruct caching.
    - destruct (remove_hashes_ok n D l s i Hp Hi) as (rm & s1 & E & Hp1 & Hc1 & Hk1). exists s1, (alter reset_hash (Block i) D).
      unfold _maybe_evict_cached_block. rewrite !st_bind_eq, E. split; [done|]. split; [done|]. split; [done|].
      split; [apply refs_of_alter; by intros []|]. intros key j Hj. rewrite Hk1 by done. naive_solver.
    - exists s, D. split; [done|]. split; [done|]. split; [done|]. split; [done|]. naive_solver. }
  destruct (pool_load n D1 l s1 i Hp1 Hi) as (b1 & b1' & Hb1 & El & _ & _ & Ec & _).
  destruct (refs_lookup D D1 (Block i) Hr1 b1 Hb1) as (b0 & Hb0 & _ & Ec0 & _). rewrite Hb in Hb0. injection Hb0 as <-.
  destruct (add_ref_ok n D1 l s1 i 1 Hp1 Hi) as [Ea Hp2].
  set (s2 := with_queue _ s1) in *. set (D2 := add_cnt (Block i) 1 D1) in *.
  destruct (IH D2 s2 Hp2 Hn) as (s3 & D3 & E3 & Hp3 & Hc3 & Hr3 & Hk3).
  { intros r Hr. destruct (Hx r) as (j & bj & -> & Hbj & Hcj); [by right|].
    destruct (proj2 (proj1 (proj1 (proj2 (proj2 Hp2))) j)) as [b2 Hb2];
      [apply (proj1 (proj1 (proj2 (proj2 Hp))) j); by eexists|].
    exists j, b2. split; [done|]. split; [done|]. destruct (add_cnt_lookup _ _ _ _ _ Hb2) as (b3 & Hb3 & ->).
    destruct (refs_lookup D D1 _ Hr1 _ Hb3) as (b4 & Hb4 & _ & -> & _). rewrite Hbj in Hb4. injection Hb4 as <-.
    rewrite decide_False; [lia|]. by intros [= ->]. }
  exists s3, D3. split; [|split; [done|split; [by transitivity s1; [|transitivity s2]|split]]].
  - cbn [st_for]. rewrite st_bind_eq. unfold take_block at 1. rewrite st_bind_eq, E1, st_bind_eq, El, st_bind_eq.
    rewrite Ec, Ec0, Hc. cbn [Z.eqb negb st_raise_if st_lift raise_if]. rewrite Ea. exact E3.
  - intros j b' Hb'. destruct (Hr3 j b' Hb') as (b2 & Hb2 & ->). destruct (add_cnt_lookup _ _ _ _ _ Hb2) as (b3 & Hb3 & ->).
    destruct (refs_lookup D D1 _ Hr1 _ Hb3) as (b4 & Hb4 & _ & -> & _). exists b4. split; [done|].
    repeat case_decide; simplify_eq; try lia; set_solver.
  - intros key j Hj. rewrite Hk3 by done. change (cached_block_hash_to_block s2) with (cached_block_hash_to_block s1).
    rewrite Hk1, not_elem_of_cons by done. naive_solver.
Qed.
(** [get_new_blocks] gives the first free blocks; none of them was held, and with
    caching on none is reachable by a hash any more. *)
Lemma get_new_blocks_ok n D l s held k :
  pool_state n D l s → refs_ok n D l held → (k ≤ length l)%nat →
  ∃ s' D', get_new_blocks (Z.of_nat k) s = (Ok (take k l), s')
  ∧ pool_state n D' (drop k l) s' ∧ refs_ok n D' (drop k l) (held ++ take k l) ∧ same_config s s'
  ∧ (∀ key j, (j < n)%nat → knows (cached_block_hash_to_block s') key j
       ↔ knows (cached_block_hash_to_block s) key j ∧ (enable_caching s = true → Block j ∉ take k l)).
Proof.
  intros Hp (R1 & R2 & R3) Hk. pose proof Hp as (Hq & Hqok & Hh & _). pose proof (queue_ok_nodup _ _ Hqok) as Hn.
  assert (NoDup (take k l) ∧ NoDup (drop k l) ∧ ∀ r, r ∈ take k l → r ∉ drop k l) as (Hnt & Hnd & Hdis).
  { rewrite <-(take_drop k l) in Hn. apply NoDup_app in Hn. naive_solver. }
  assert (∀ r, r ∈ take k l → r ∈ l) as Ht by (intros r Hr; rewrite <-(take_drop k l), elem_of_app; by left).
  assert (∀ r, r ∈ drop k l → r ∈ l) as Hd by (intros r Hr; rewrite <-(take_drop k l), elem_of_app; by right).
  assert (queue_ok D (drop k l)) as Hqd by (by eapply queue_ok_sub).
  destruct (take_blocks_ok n D (drop k l) (with_queue (queue_of D (drop k l)) s) (enable_caching s) (take k l))
    as (s' & D' & E & Hp' & Hc & Hr & Hkn); [by eapply pool_state_queue|done| |].
  { intros r Hr. destruct (R2 r (Ht r Hr)) as (i & -> & Hi1 & Hi2). destruct (proj2 (proj1 Hh i) Hi2) as [b Hb].
    exists i, b. split; [done|]. split; [done|]. destruct (R1 i b Hb) as [-> Hm]; [lia|].
    rewrite (proj2 (holders_zero held (Block i))); [done|]. by apply Hm, Ht. }
  exists s', D'. split; [|split; [done|split; [|split; [done|exact Hkn]]]].
  - unfold get_new_blocks. rewrite st_bind_eq. cbn [st_get]. rewrite st_bind_eq.
    assert (get_num_free_blocks s = Z.of_nat (length l)) as -> by (unfold get_num_free_blocks; by rewrite Hq).
    rewrite (proj2 (Z.ltb_ge _ _)) by lia. cbn [st_raise_if st_lift raise_if]. rewrite st_bind_eq.
    unfold on_queue. rewrite Hq, FreeQueueSpec.popleft_n_ok by done.
    rewrite st_bind_eq. change (mkPool _ _ _ _ _ _ _ _) with (with_queue (queue_of D (drop k l)) s). by rewrite E.
  - split; [|split].
    + intros i b' Hb' Hi. destruct (Hr i b' Hb') as (b & Hb & ->). destruct (R1 i b Hb Hi) as [-> Hm].
      rewrite holders_app. split.
      * destruct (decide (Block i ∈ take k l)) as [Hin|Hout].
        -- assert (holders (take k l) (Block i) = 1%nat) as ->; [|lia].
           clear -Hin Hnt. induction (take k l) as [|x t IH]; [by apply not_elem_of_nil in Hin|].
           apply NoDup_cons in Hnt as [Hx Hnt]. rewrite holders_cons. destruct (decide (x = Block i)) as [->|Hne].
           ++ by rewrite (proj2 (holders_zero _ _)).
           ++ rewrite IH; [done|done|]. by apply elem_of_cons in Hin as [?|?].
        -- rewrite (proj2 (holders_zero (take k l) (Block i))) by done. lia.
      * rewrite elem_of_app. split; [intros H [?|?]; [apply Hd in H; by apply Hm in H|by eapply Hdis]|].
        intros H. destruct (decide (Block i ∈ take k l)); [naive_solver|].
        assert (Block i ∈ l) as Hl by naive_solver. rewrite <-(take_drop k l), elem_of_app in Hl. naive_solver.
    + intros r Hr'. by apply R2, Hd.
    + intros r [Hr'|Hr']%elem_of_app; [by apply R3|]. destruct (R2 r (Ht r Hr')) as (i & -> & _ & ?). by exists i.
Qed.

Lemma get_new_blocks_short n D l s k :
  pool_state n D l s → (Z.of_nat (length l) < k)%Z → get_new_blocks k s = (Err ValueError, s).
Proof.
  intros (Hq & _) Hk. unfold get_new_blocks. rewrite st_bind_eq. cbn [st_get]. rewrite st_bind_eq.
  assert (get_num_free_blocks s = Z.of_nat (length l)) as -> by (unfold get_num_free_blocks; by rewrite Hq).
  by rewrite (proj2 (Z.ltb_lt _ _)) by lia.
Qed.

(** [touch] adds a holder to each block and takes the free ones out of the queue. *)
Lemma touch_block_ok n D l s held i :
  pool_state n D l s → refs_ok n D l held → (i < n)%nat →
  ∃ s' D' l', touch_block (Block i) s = (Ok tt, s') ∧ pool_state n D' l' s' ∧ refs_ok n D' l' (held ++ [Block i])
  ∧ same_config s s' ∧ cached_block_hash_to_block s' = cached_block_hash_to_block s.
Proof.
  intros Hp (R1 & R2 & R3) Hi. destruct (pool_load n D l s i Hp Hi) as (b & b' & Hb & El & _ & Enull & Ec & _).
  pose proof Hp as (Hq & Hqok & Hh & _).
  assert (∃ l' s1, (if (ref_cnt b =? 0)%Z && negb (is_null b') then on_queue (FreeKVCacheBlockQueue.remove (Block i)) else mret tt) s
    = (Ok tt, s1) ∧ pool_state n D l' s1 ∧ same_config s s1 ∧ cached_block_hash_to_block s1 = cached_block_hash_to_block s
    ∧ ∀ r, r ∈ l' ↔ r ∈ l ∧ r ≠ Block i) as (l' & s1 & E1 & Hp1 & Hc1 & Hm1 & Hl').
  { rewrite Enull. destruct (decide (i = 0%nat)) as [->|Hi0].
    - rewrite bool_decide_eq_true_2, andb_false_r by done. exists l, s. do 4 (split; [done|]).
      intros r. split; [|by intros [? _]]. intros Hr. split; [done|]. intros ->. destruct (R2 _ Hr) as (j & [= <-] & ? & _). lia.
    - rewrite bool_decide_eq_false_2, andb_true_r by done. destruct (R1 i b Hb Hi0) as [Eb Hm]. rewrite Eb.
      destruct (Z.of_nat (holders held (Block i)) =? 0)%Z eqn:E0.
      + apply Z.eqb_eq in E0. assert (Block i ∈ l) as Hin by (apply Hm, holders_zero; lia).
        apply list_elem_of_split in Hin as (l1 & l2 & ->).
        pose proof (queue_ok_nodup _ _ Hqok) as (Hn1 & Hn2 & Hn3)%NoDup_app. apply NoDup_cons in Hn3 as [Hn3 Hn4].
        assert (queue_ok D (l1 ++ l2)) as Hqo.
        { eapply queue_ok_sub; [done| |set_solver]. rewrite NoDup_app. set_solver. }
        exists (l1 ++ l2). eexists. unfold on_queue. rewrite Hq, FreeQueueSpec.remove_ok by done. split; [reflexivity|].
        split; [by eapply (pool_state_queue n D (l1 ++ Block i :: l2))|]. split; [done|]. split; [done|].
        intros r. rewrite !elem_of_app, elem_of_cons. split; [|naive_solver]. intros H. split; [naive_solver|].
        intros ->. destruct H as [H|H]; [|done]. apply (Hn2 _ H). by left.
      + apply Z.eqb_neq in E0. exists l, s. do 4 (split; [done|]). intros r. split; [|by intros [? _]].
        intros Hr. split; [done|]. intros ->. apply Hm, holders_zero in Hr. lia. }
  destruct (add_ref_ok n D l' s1 i 1 Hp1 Hi) as [Ea Hp2].
  eexists _, _, l'. split; [|split; [exact Hp2|split; [|split; [by transitivity s1|exact Hm1]]]].
  - unfold touch_block. rewrite st_bind_eq, El, st_bind_eq, Ec, E1. exact Ea.
  - split; [|split].
    + intros j c Hc Hj. destruct (add_cnt_lookup _ _ _ _ _ Hc) as (c0 & Hc0 & ->). destruct (R1 j c0 Hc0 Hj) as [-> Hm].
      rewrite holders_app, holders_cons, Hl', Hm. unfold holders at 3. cbn [filter list_filter length].
      split; [repeat case_decide; simplify_eq; lia|]. rewrite elem_of_app, list_elem_of_singleton. tauto.
    + intros r [Hr _]%Hl'. by apply R2.
    + intros r [Hr|Hr%list_elem_of_singleton]%elem_of_app; [by apply R3|]. by exists i.
Qed.

Lemma touch_ok n D l s held bs :
  pool_state n D l s → refs_ok n D l held → (∀ r, r ∈ bs → ∃ i, r = Block i ∧ (i < n)%nat) →
  ∃ s' D' l', touch bs s = (Ok tt, s') ∧ pool_state n D' l' s' ∧ refs_ok n D' l' (held ++ bs)
  ∧ same_config s s' ∧ cached_block_hash_to_block s' = cached_block_hash_to_block s.
Proof.
  revert D l s held. induction bs as [|x bs IH]; intros D l s held Hp Hr Hb.
  { exists s, D, l. rewrite app_nil_r. done. }
  destruct (Hb x) as (i & -> & Hi); [by left|].
  destruct (touch_block_ok n D l s held i Hp Hr Hi) as (s1 & D1 & l1 & E1 & Hp1 & Hr1 & Hc1 & Hm1).
  destruct (IH D1 l1 s1 _ Hp1 Hr1) as (s2 & D2 & l2 & E2 & Hp2 & Hr2 & Hc2 & Hm2); [intros r Hr'; apply Hb; by right|].
  exists s2, D2, l2. split; [|split; [done|split; [by rewrite <-app_assoc in Hr2|split; [by transitivity s1|congruence]]]].
  unfold touch. cbn [st_for]. by rewrite st_bind_eq, E1.
Qed.
(** The loop of [free_blocks] drops one holder per block and sets aside those that
    lost their last one. *)
Lemma release_refs_ok n D l s rest held wh woh :
  pool_state n D l s → refs_ok n D (l ++ wh ++ woh) (rest ++ held) → NoDup (l ++ wh ++ woh) →
  ∃ s' D' wh' woh', release_refs rest wh woh s = (Ok (wh', woh'), s') ∧ pool_state n D' l s'
  ∧ refs_ok n D' (l ++ wh' ++ woh') held ∧ NoDup (l ++ wh' ++ woh')
  ∧ same_config s s' ∧ cached_block_hash_to_block s' = cached_block_hash_to_block s.
Proof.
  revert D s wh woh. induction rest as [|x rest IH]; intros D s wh woh Hp Hr Hn.
  { by exists s, D, wh, woh. }
  pose proof Hr as (R1 & R2 & R3). destruct (R3 x) as (i & -> & Hi); [by left|].
  destruct (add_ref_ok n D l s i (-1) Hp Hi) as [Ea Hp1].
  set (D1 := add_cnt (Block i) (-1) D) in *. set (s1 := with_queue _ s) in *.
  destruct (pool_load n D1 l s1 i Hp1 Hi) as (b & b' & Hb & El & _ & Enull & Ec & Eh & _).
  assert (∀ j c, D1 !! Block j = Some c → j ≠ 0%nat → ref_cnt c = Z.of_nat (holders (rest ++ held) (Block j))) as Hcnt.
  { intros j c Hc Hj. destruct (add_cnt_lookup _ _ _ _ _ Hc) as (c0 & Hc0 & ->). destruct (R1 j c0 Hc0 Hj) as [-> _].
    cbn [app]. rewrite holders_cons. repeat case_decide; simplify_eq; lia. }
  assert (∀ r, r ∈ rest ++ held → ∃ i, r = Block i ∧ (i < n)%nat) as R3' by (intros r Hr'; apply R3; by right).
  assert (∀ wh woh, refs_ok n D1 (l ++ wh ++ woh) (rest ++ held) → NoDup (l ++ wh ++ woh) →
    ∃ s' D' wh' woh', release_refs rest wh woh s1 = (Ok (wh', woh'), s') ∧ pool_state n D' l s'
    ∧ refs_ok n D' (l ++ wh' ++ woh') held ∧ NoDup (l ++ wh' ++ woh')
    ∧ same_config s s' ∧ cached_block_hash_to_block s' = cached_block_hash_to_block s) as Hgo.
  { intros wh0 woh0 H1 H2. destruct (IH D1 s1 wh0 woh0 Hp1 H1 H2) as (s' & D' & wh' & woh' & ? & ? & ? & ? & ? & ?).
    by exists s', D', wh', woh'. }
  cbn [release_refs]. rewrite st_bind_eq, Ea, st_bind_eq, El, Enull, Ec, Eh.
  destruct (decide (i = 0%nat)) as [->|Hi0].
  { rewrite bool_decide_eq_true_2, andb_false_r by done. apply Hgo; [|done]. split; [|done].
    intros j c Hc Hj. split; [by apply Hcnt|]. destruct (add_cnt_lookup _ _ _ _ _ Hc) as (c0 & Hc0 & _).
    destruct (R1 j c0 Hc0 Hj) as [_ ->]. cbn [app]. rewrite not_elem_of_cons. split; [by intros [_ ?]|].
    intros ?. split; [|done]. by intros [= ->]. }
  rewrite bool_decide_eq_false_2, andb_true_r by done. rewrite (Hcnt i b Hb Hi0).
  assert (Block i ∉ l ++ wh ++ woh) as Hout.
  { destruct (add_cnt_lookup _ _ _ _ _ Hb) as (c0 & Hc0 & _). destruct (R1 i c0 Hc0 Hi0) as [_ Hm].
    intros H. apply Hm in H. apply H. by left. }
  destruct (Z.of_nat (holders (rest ++ held) (Block i)) =? 0)%Z eqn:E0.
  - apply Z.eqb_eq in E0. assert (Block i ∉ rest ++ held) as Hfree by (apply holders_zero; lia).
    assert (∀ L, L ≡ₚ Block i :: l ++ wh ++ woh → refs_ok n D1 L (rest ++ held) ∧ NoDup L) as HL.
    { intros L EL. split; [|rewrite EL; by apply NoDup_cons]. apply (refs_ok_perm n D1 (Block i :: l ++ wh ++ woh) L (rest ++ held) (rest ++ held)); [done|done|].
      split; [|split; [|done]].
      - intros j c Hc Hj. split; [by apply Hcnt|]. destruct (add_cnt_lookup _ _ _ _ _ Hc) as (c0 & Hc0 & _).
        destruct (R1 j c0 Hc0 Hj) as [_ Hm]. rewrite elem_of_cons, Hm. cbn [app]. rewrite not_elem_of_cons.
        destruct (decide (Block j = Block i)) as [->|Hne]; [tauto|]. tauto.
      - intros r [->|Hr']%elem_of_cons; [exists i; split; [done|lia]|by apply R2]. }
    destruct (bool_decide (block_hash b = None)).
    + destruct (HL (l ++ wh ++ woh ++ [Block i])) as [H1 H2]; [solve_Permutation|].
      by apply Hgo.
    + destruct (HL (l ++ (wh ++ [Block i]) ++ woh)) as [H1 H2]; [solve_Permutation|].
      by apply Hgo.
  - apply Z.eqb_neq in E0. apply Hgo; [|done]. split; [|done].
    intros j c Hc Hj. split; [by apply Hcnt|]. destruct (add_cnt_lookup _ _ _ _ _ Hc) as (c0 & Hc0 & _).
    destruct (R1 j c0 Hc0 Hj) as [_ Hm]. rewrite Hm. cbn [app]. rewrite not_elem_of_cons.
    destruct (decide (Block j = Block i)) as [Eji|Hne]; [|tauto]. injection Eji as ->. split; [tauto|].
    intros H. exfalso. apply E0. by rewrite (proj2 (holders_zero _ _) H).
Qed.

(** [free_blocks] takes the blocks away from the held ones. *)
Lemma free_blocks_ok n D l s held held' bs :
  pool_state n D l s → refs_ok n D l held → held ≡ₚ bs ++ held' →
  ∃ s' D' wh woh, free_blocks bs s = (Ok tt, s') ∧ pool_state n D' (woh ++ l ++ wh) s' ∧ refs_ok n D' (woh ++ l ++ wh) held'
  ∧ same_config s s' ∧ cached_block_hash_to_block s' = cached_block_hash_to_block s.
Proof.
  intros Hp Hr Eh. pose proof (queue_ok_nodup _ _ (proj1 (proj2 Hp))) as Hn.
  destruct (release_refs_ok n D l s bs held' [] []) as (s1 & D1 & wh & woh & E & Hp1 & Hr1 & Hn1 & Hc1 & Hm1);
    [done|by apply (refs_ok_perm n D l _ held); [rewrite app_nil_r| |]|by rewrite app_nil_r|].
  pose proof Hp1 as (Hq & Hqok & Hh & _). pose proof Hr1 as (R1 & R2 & _).
  assert (∀ bs, bs ⊆+ wh ++ woh → ∀ r, r ∈ bs → is_Some (D1 !! r) ∧ r ≠ FakeHead ∧ r ≠ FakeTail) as Hin.
  { intros bs' Hs r Hr'. destruct (R2 r) as (i & -> & _ & Hi).
    - apply elem_of_app. right. by eapply elem_of_submseteq.
    - split; [by apply Hh|done]. }
  apply NoDup_app in Hn1 as (Hnl & Hd1 & Hn1). apply NoDup_app in Hn1 as (Hnw & Hd2 & Hnwo).
  assert (∀ r, r ∈ woh → is_Some (D1 !! r) ∧ r ∉ chain l) as Hw.
  { intros r Hr'. destruct (Hin woh) with r as (Hx1 & ? & ?); [by apply submseteq_inserts_l|done|]. split; [exact Hx1|].
    unfold chain. rewrite elem_of_cons, elem_of_app, list_elem_of_singleton. intros [?|[Hrl|?]]; [done| |done].
    apply (Hd1 r Hrl), elem_of_app. by right. }
  assert (queue_ok D1 (woh ++ l)) as Hq2 by (apply (FreeQueueSpec.queue_ok_splice D1 [] l woh); done).
  assert (∀ r, r ∈ wh → is_Some (D1 !! r) ∧ r ∉ chain (woh ++ l)) as Hwh.
  { intros r Hr'. destruct (Hin wh) with r as (Hx1 & ? & ?); [by apply submseteq_inserts_r|done|]. split; [exact Hx1|].
    unfold chain. rewrite elem_of_cons, !elem_of_app, list_elem_of_singleton. intros [?|[[Hrl|Hrl]|?]]; [done| | |done].
    - by apply (Hd2 r Hr').
    - apply (Hd1 r Hrl), elem_of_app. by left. }
  exists (with_queue (queue_of D1 (woh ++ l ++ wh)) s1), D1, wh, woh.
  split; [|split; [|split; [|split; [by transitivity s1|exact Hm1]]]].
  - unfold free_blocks. rewrite st_bind_eq, E, st_bind_eq. unfold on_queue. rewrite Hq, FreeQueueSpec.prepend_n_ok by done.
    cbn [bp_queue]. rewrite FreeQueueSpec.append_n_ok by done. by rewrite <-app_assoc.
  - eapply pool_state_queue; [done|]. rewrite app_assoc. rewrite <-(app_nil_r wh). apply FreeQueueSpec.queue_ok_splice; rewrite ?app_nil_r; done.
  - apply (refs_ok_perm n D1 (l ++ wh ++ woh) _ held' held'); [solve_Permutation|done|done].
Qed.
(** Caching and evicting keep the counters, the queue and the agreement of the map
    with the blocks, whatever the outcome. *)
Definition pool_move (n : nat) (s s' : BlockPool) : Prop :=
  ∀ D l, pool_state n D l s → ∃ D', pool_state n D' l s' ∧ refs_of D' = refs_of D ∧ same_config s s'.

#[local] Instance pool_move_preorder n : PreOrder (pool_move n).
Proof.
  split; [intros s D l Hp; by exists D|]. intros s1 s2 s3 H12 H23 D l Hp.
  destruct (H12 D l Hp) as (D2 & Hp2 & E2 & C2). destruct (H23 D2 l Hp2) as (D3 & Hp3 & E3 & C3).
  exists D3. split; [done|]. split; [congruence|]. by transitivity s2.
Qed.

Lemma load_block_state r s : (load_block r s).2 = s.
Proof. unfold load_block, on_queue, load. destruct (q_heap (bp_queue s) !! r); by destruct s. Qed.

Lemma at_load_bind {B} n r s (f : KVCacheBlock → ST BlockPool B) :
  (∀ b, st_at (pool_move n) s (f b)) → st_at (pool_move n) s (load_block r ≫= f).
Proof.
  intros H. apply at_bind; [apply _|unfold st_at; by rewrite load_block_state|].
  intros b s' E. pose proof (load_block_state r s) as Es. rewrite E in Es. cbn in Es. subst s'. apply H.
Qed.

Lemma at_remove n i s : (i < n)%nat → st_at (pool_move n) s (_remove_cached_block_hashes (Block i)).
Proof.
  intros Hi D l Hp. destruct (remove_hashes_ok n D l s i Hp Hi) as (rm & s' & E & Hp' & Hc & _). rewrite E.
  exists (alter reset_hash (Block i) D). split; [done|]. split; [|done]. apply refs_of_alter. by intros [].
Qed.

Lemma at_insert n i key nt s : (i < n)%nat → st_at (pool_move n) s (_insert_block_hash key (Block i) nt).
Proof.
  intros Hi D l Hp. destruct (insert_hash_ok n D l s key i nt Hp Hi) as (s' & D' & E & Hp' & Hc & Hr & _). rewrite E.
  by exists D'.
Qed.

Lemma at_contain n key id s : st_at (pool_move n) s (BlockHashToBlockMap.contain key id).
Proof.
  apply at_get. destruct (cached_block_hash_to_block s !! key) as [[r|d]|]; try apply at_ret; try apply _.
  apply at_load_bind. intros b. apply at_ret, _.
Qed.

Definition of_pool (n : nat) (bs : list Ref) : Prop := ∀ r, r ∈ bs → ∃ i, r = Block i ∧ (i < n)%nat.

Lemma at_cache_full n s hashes blks nc nf bsz gid mask :
  of_pool n blks → st_at (pool_move n) s (cache_full_blocks hashes blks nc nf bsz gid mask).
Proof.
  intros Hb. unfold cache_full_blocks. case_match; [apply at_ret, _|].
  apply at_raise_bind; [apply _|]. apply at_get. apply at_lift_bind; [apply _|]. intros hs _. apply at_raise_bind; [apply _|].
  apply at_for_in; [apply _|]. intros [k blk] s' Hin. apply in_combine_r in Hin.
  destruct (Hb blk) as (i & -> & Hi).
  { apply list_elem_of_In in Hin. unfold slice in Hin. by eapply subseteq_drop, subseteq_take. }
  unfold cache_full_block. apply at_load_bind. intros b. apply at_bind; [apply _| |].
  { destruct mask; [|apply at_ret, _]. destruct (is_null b); [apply at_ret, _|]. apply at_lift_bind; [apply _|]. intros keep _. apply at_ret, _. }
  intros masked s1 _. case_match; [apply at_ret, _|]. apply at_lift_bind; [apply _|]. intros h _.
  apply at_lift_bind; [apply _|]. intros key _. apply at_bind; [apply _| |].
  { destruct (block_hash b); [|apply at_ret, _]. apply at_raise_bind; [apply _|]. apply at_bind; [apply _|by apply at_remove|].
    intros rm s2 _. apply at_ret, _. }
  intros _ s2 _. by apply at_insert.
Qed.

Lemma at_cache_partial n s hashes i nt gid bsz :
  (i < n)%nat → st_at (pool_move n) s (cache_partial_block hashes (Block i) nt gid bsz).
Proof.
  intros Hi. unfold cache_partial_block. apply at_load_bind. intros b. case_match; [apply at_ret, _|].
  apply at_get. do 3 (apply at_raise_bind; [apply _|]). apply at_bind; [apply _| |].
  { unfold _get_partial_block_hash. apply at_get. do 2 (apply at_raise_bind; [apply _|]). apply at_lift, _. }
  intros h s1 _. apply at_lift_bind; [apply _|]. intros key _. apply at_bind; [apply _| |].
  { case_match; [apply at_ret, _|apply at_contain]. }
  intros cached s2 _. apply at_bind; [apply _| |].
  { repeat case_match; try (apply at_ret, _). apply at_bind; [apply _|by apply at_remove|]. intros rm s3 _. apply at_ret, _. }
  intros _ s3 _. apply at_bind; [apply _|by apply at_insert|]. intros _ s4 _. apply at_ret, _.
Qed.

Lemma at_evict n s ids : st_at (pool_move n) s (evict_blocks ids).
Proof.
  apply at_for; [apply _|]. intros id s'. unfold evict_block.
  assert (∀ r : result Ref, (∀ b, r = Ok b → b ∈ blocks s') →
    st_at (pool_move n) s' (block ← st_lift r; _ ← _maybe_evict_cached_block block; mret tt)) as H.
  { intros r Hr. unfold st_at. intros D l Hp. destruct r as [b|e].
    - specialize (Hr b eq_refl). destruct Hp as (Hq & Hqok & Hh & Hm & Hbl & Hrest).
      rewrite Hbl in Hr. apply list_elem_of_fmap in Hr as (i & -> & Hi%elem_of_seq).
      assert (i < n)%nat as Hi' by lia.
      pose proof (at_remove n i s' Hi') as Hat.
      assert (st_at (pool_move n) s' (_ ← _maybe_evict_cached_block (Block i); mret tt)) as Hat'.
      { unfold _maybe_evict_cached_block. apply at_bind; [apply _| |intros; apply at_ret, _].
        apply at_bind; [apply _|done|]. intros; apply at_ret, _. }
      by apply (Hat' D l).
    - by exists D. }
  apply at_get. apply at_raise_bind; [apply _|]. apply H. intros b. unfold list_get. repeat case_match; intros [= <-];
    by eapply list_elem_of_lookup_2.
Qed.
(** [reset_prefix_cache]: only with every block free, and then no hash is left. *)
Lemma reset_blocks_ok D l s rs :
  bp_queue s = queue_of D l → (∀ r, r ∈ rs → is_Some (D !! r)) →
  ∃ D', st_for rs (λ block, update_block block reset_hash) s = (Ok tt, with_queue (queue_of D' l) s)
  ∧ ∀ r, D' !! r = (if decide (r ∈ rs) then reset_hash else id) <$> D !! r.
Proof.
  revert D s. induction rs as [|x rs IH]; intros D s Hq Hd.
  { exists D. split; [cbn; rewrite st_ret_eq; f_equal; destruct s; cbn in *; by subst|].
    intros r. rewrite decide_False by apply not_elem_of_nil. by destruct (D !! r). }
  assert (update_block x reset_hash s = (Ok tt, with_queue (queue_of (alter reset_hash x D) l) s)) as E.
  { unfold update_block, on_queue. rewrite Hq, update_data; [done|apply data_only_hash|]. apply Hd. by left. }
  destruct (IH (alter reset_hash x D) (with_queue (queue_of (alter reset_hash x D) l) s)) as (D' & E' & HD').
  { done. }
  { intros r Hr. rewrite lookup_alter_is_Some. apply Hd. by right. }
  exists D'. split; [cbn [st_for]; by rewrite st_bind_eq, E, E'|]. intros r. rewrite HD'.
  destruct (decide (x = r)) as [->|Hne].
  - rewrite lookup_alter_eq, (decide_True (P := r ∈ r :: rs)) by (by left).
    destruct (D !! r); [|done]. cbn. by case_decide.
  - rewrite lookup_alter_ne by done. destruct (decide (r ∈ rs)) as [Hin|Hout].
    + by rewrite decide_True by (by right).
    + rewrite decide_False; [done|]. rewrite not_elem_of_cons. by split; [intros ->|].
Qed.

Lemma reset_prefix_cache_ok n D l s :
  pool_state n D l s → Z.of_nat n = (Z.of_nat (length l) + 1)%Z →
  ∃ s' D', reset_prefix_cache s = (Ok true, s') ∧ pool_state n D' l s' ∧ refs_of D' = refs_of D ∧ same_config s s'
  ∧ cached_block_hash_to_block s' = ∅.
Proof.
  intros (Hq & Hqok & Hh & (Hm & Hk & Hn) & Hbl & Hnum & Hpos & Hnull) Hlen.
  unfold reset_prefix_cache. rewrite st_bind_eq. cbn [st_get].
  assert (get_num_free_blocks s = Z.of_nat (length l)) as -> by (unfold get_num_free_blocks; by rewrite Hq).
  rewrite Hnum, (proj2 (Z.eqb_eq _ _)) by lia. cbn [negb]. rewrite st_bind_eq. cbn [set_cached st_modify].
  rewrite st_bind_eq. cbn [set_by_block st_modify]. set (s1 := mkPool _ _ _ _ _ _ _ _).
  assert (∀ r, r ∈ map Block (seq 0 n) → is_Some (D !! r)) as Hdom.
  { intros r (i & -> & Hi%elem_of_seq)%list_elem_of_fmap. apply Hh. lia. }
  destruct (reset_blocks_ok D l s1 (blocks s)) as (D' & E & HD'); [done|by rewrite Hbl|].
  rewrite st_bind_eq, E. exists (with_queue (queue_of D' l) s1), D'. split; [done|].
  assert (∀ r b', D' !! r = Some b' → ∃ b, D !! r = Some b ∧ (b' = b ∨ b' = reset_hash b)) as Hb.
  { intros r b'. rewrite HD'. intros (b & Hb & ->)%fmap_Some. exists b. split; [done|]. case_decide; [by right|by left]. }
  assert (∀ i b', D' !! Block i = Some b' → block_hash b' = None ∧ block_hash_num_tokens b' = None) as Hnone.
  { intros i b' Hb'. rewrite HD', decide_True in Hb'.
    - apply fmap_Some in Hb' as (b & _ & ->). done.
    - rewrite Hbl. apply list_elem_of_fmap. exists i. split; [done|]. apply elem_of_seq. split; [lia|]. apply Hh.
      destruct (D !! Block i); [by eexists|done]. }
  split; [|split; [|split; [done|done]]].
  - split; [done|]. split.
    { split; [apply Hqok|]. intros r Hr. apply Hqok in Hr as [b Hr]. rewrite HD', Hr. by eexists. }
    split.
    { split.
      - intros i. rewrite <-(proj1 Hh i), HD'. split; intros [b H]; [destruct (D !! Block i); [by eexists|done]|rewrite H; by eexists].
      - intros i b' Hb'. destruct (Hb _ _ Hb') as (b & Hb0 & [->| ->]); [by apply Hh|]. destruct (proj2 Hh i b Hb0) as [? ?]. by destruct b. }
    split; [|done]. split; [intros key e; cbn; by rewrite lookup_empty|]. split.
    + intros key i Hi. unfold knows, owns. cbn [cached_block_hash_to_block with_queue s1]. rewrite lookup_empty. split; [done|].
      intros (b' & Hb' & [H|(ks & H & _)]); [by destruct (Hnone i b' Hb') as [? _]; congruence|].
      cbn [cached_block_hashes_by_block with_queue s1] in H. by rewrite lookup_empty in H.
    + intros i b' Hb' _. split; [by apply (Hnone i)|]. apply lookup_empty.
  - apply map_eq. intros r. unfold refs_of. rewrite !lookup_fmap, HD'. destruct (D !! r) as [b|]; [|done].
    cbn. by case_decide.
Qed.

Lemma reset_prefix_cache_busy n D l s :
  pool_state n D l s → Z.of_nat n ≠ (Z.of_nat (length l) + 1)%Z → reset_prefix_cache s = (Ok false, s).
Proof.
  intros (Hq & _ & _ & _ & _ & Hnum & _) Hlen. unfold reset_prefix_cache. rewrite st_bind_eq. cbn [st_get].
  assert (get_num_free_blocks s = Z.of_nat (length l)) as -> by (unfold get_num_free_blocks; by rewrite Hq).
  by rewrite Hnum, (proj2 (Z.eqb_neq _ _)) by lia.
Qed.

(** The constructor. *)
Fixpoint new_heap (n : nat) : gmap Ref KVCacheBlock :=
  match n with 0%nat => ∅ | S n => <[Block n := new_block (Z.of_nat n)]> (new_heap n) end.

Lemma new_heap_lookup n r :
  new_heap n !! r = match r with Block i => if decide (i < n)%nat then Some (new_block (Z.of_nat i)) else None | _ => None end.
Proof.
  induction n as [|n IH]; cbn [new_heap].
  { rewrite lookup_empty. destruct r; [|done|done]. by rewrite decide_False by lia. }
  rewrite lookup_insert. destruct r as [i| |]; [|by rewrite decide_False by done..].
  destruct (decide (Block n = Block i)) as [[= <-]|Hne]; [by rewrite decide_True by lia|].
  assert (n ≠ i) by (by intros ->). rewrite IH. repeat case_decide; (done || lia).
Qed.

Definition fresh_pool (n : nat) : gmap Ref KVCacheBlock := alter set_null (Block 0) (with_fakes (new_heap n)).

Lemma null_heap_ok n : (0 < n)%nat → heap_ok n (fresh_pool n).
Proof.
  intros Hn. unfold fresh_pool, with_fakes. split.
  - intros i. rewrite lookup_alter_is_Some, !lookup_insert_ne, new_heap_lookup by done.
    case_decide; split; intros Hs; first [done|by eexists|by destruct Hs].
  - intros i b. destruct (decide (i = 0%nat)) as [->|Hi].
    + rewrite lookup_alter_eq, !lookup_insert_ne, new_heap_lookup, decide_True by done. by intros [= <-].
    + rewrite lookup_alter_ne, !lookup_insert_ne, new_heap_lookup by (done || intros [=]; lia).
      case_decide; intros [= <-]. by rewrite bool_decide_eq_false_2.
Qed.

Lemma fresh_lookup n i b :
  fresh_pool n !! Block i = Some b → ref_cnt b = 0%Z ∧ block_hash b = None ∧ block_hash_num_tokens b = None.
Proof.
  unfold fresh_pool, with_fakes. destruct (decide (i = 0%nat)) as [->|Hi].
  - rewrite lookup_alter_eq, !lookup_insert_ne, new_heap_lookup by done. case_decide; by intros [= <-].
  - rewrite lookup_alter_ne, !lookup_insert_ne, new_heap_lookup by (done || intros [=]; lia). case_decide; by intros [= <-].
Qed.

Lemma init_queue_ok n :
  (0 < n)%nat →
  init_queue n (mkQueue ∅ 0) = (Ok (Block 0), queue_of (fresh_pool n) (map Block (seq 1 (n - 1))))
  ∧ queue_ok (fresh_pool n) (map Block (seq 1 (n - 1))).
Proof.
  intros Hn. assert (NoDup (map Block (seq 0 n))) as Hnd by (apply NoDup_fmap_2; [by intros ?? [=]|apply NoDup_seq]).
  assert (unlinked (new_heap n) = new_heap n) as Hul.
  { apply map_eq. intros r. unfold unlinked. rewrite relink_lookup, new_heap_lookup. destruct r; [|done|done]. by case_decide. }
  destruct (FreeQueueSpec.init_ok (new_heap n) (map Block (seq 0 n)) 0 Hnd) as [E Hq].
  { intros r (i & -> & Hi%elem_of_seq)%list_elem_of_fmap. split; [|done]. rewrite new_heap_lookup, decide_True by lia. by eexists. }
  assert (map Block (seq 0 n) = Block 0 :: map Block (seq 1 (n - 1))) as Em by (destruct n; [lia|cbn; by rewrite Nat.sub_0_r]).
  rewrite Em in E, Hq.
  unfold init_queue. rewrite st_bind_eq.
  pose proof (st_for_seq (λ i, create (Block i) (new_block (Z.of_nat i))) (λ i, mkQueue (new_heap i) 0) n) as Hf. cbn beta in Hf.
  change (mkQueue ∅ 0) with (mkQueue (new_heap 0) 0). rewrite Hf by (intros i _; by rewrite Nat.add_1_r). clear Hf.
  rewrite st_bind_eq. rewrite Hul in E. rewrite Em, E, st_bind_eq, FreeQueueSpec.popleft_ok by done.
  assert (queue_ok (with_fakes (new_heap n)) (map Block (seq 1 (n - 1)))) as Hq'.
  { pose proof (queue_ok_nodup _ _ Hq) as [_ ?]%NoDup_cons. eapply queue_ok_sub; [done|done|]. by right. }
  rewrite st_bind_eq, update_data, st_ret_eq.
  - split; [done|]. by apply queue_ok_alter.
  - by intros p nx [].
  - apply Hq. unfold chain. right. by left.
Qed.

Lemma pool_init_ok n caching hbs :
  (0 < n)%nat →
  ∃ s, Pool.init (Z.of_nat n) caching hbs = Ok s ∧ enable_caching s = caching ∧ hash_block_size s = hbs
  ∧ cached_block_hash_to_block s = ∅
  ∧ pool_state n (fresh_pool n) (map Block (seq 1 (n - 1))) s ∧ refs_ok n (fresh_pool n) (map Block (seq 1 (n - 1))) [].
Proof.
  intros Hn. destruct (init_queue_ok n Hn) as [E Hq]. pose proof (null_heap_ok n Hn) as Hh. eexists. split; [|split; [|split; [|split; [|split]]]].
  - unfold Pool.init. rewrite (proj2 (Z.ltb_lt _ _)) by lia. cbn [negb raise_if]. rewrite result_bind_ok, Nat2Z.id, E. reflexivity.
  - done.
  - done.
  - done.
  - split; [done|]. split; [done|]. split; [done|]. split; [|done]. split; [intros key e; cbn; by rewrite lookup_empty|]. split.
    + intros key i Hi. unfold knows, owns. cbn. rewrite lookup_empty. split; [done|].
      intros (b & Hb & [H|(ks & H & _)]); [destruct (fresh_lookup n i b Hb) as (_ & ? & _); congruence|by rewrite lookup_empty in H].
    + intros i b Hb _. split; [by eapply fresh_lookup|]. apply lookup_empty.
  - split; [|split].
    + intros i b Hb Hi. destruct (fresh_lookup n i b Hb) as [-> _]. split; [done|]. rewrite list_elem_of_fmap.
      split; [intros _; apply not_elem_of_nil|]. intros _. exists i. split; [done|]. apply elem_of_seq.
      assert (i < n)%nat by (apply Hh; by eexists). lia.
    + intros r (i & -> & Hi%elem_of_seq)%list_elem_of_fmap. exists i. split; [done|]. lia.
    + intros r Hr. by apply not_elem_of_nil in Hr.
Qed.

(** [get_cached_block]: a hit for every group, or a group without one. *)
Lemma get_cached_block_ok n s hash gids :
  map_ok n (cached_block_hash_to_block s) → Forall (λ g, 0 ≤ g < 2 ^ 32)%Z gids →
  ∃ o, get_cached_block hash gids s = (Ok o, s)
  ∧ match o with
    | Some rs => Forall2 (λ g r, ∃ i, (i < n)%nat ∧ r = Block i ∧ knows (cached_block_hash_to_block s) (hash ++ be_bytes4 g) i) gids rs
    | None => Exists (λ g, ∀ i, ¬ knows (cached_block_hash_to_block s) (hash ++ be_bytes4 g) i) gids
    end.
Proof.
  intros Hm. induction 1 as [|g gids Hg Hgs IH]; [by exists (Some [])|]. cbn [get_cached_block].
  destruct (MapSpec.get_one_block_ok n s (hash ++ be_bytes4 g) Hm) as (o & E & Ho).
  rewrite st_bind_eq. unfold make_block_hash_with_group_id.
  rewrite (proj2 (Z.leb_le _ _)), (proj2 (Z.ltb_lt _ _)) by lia. cbn [andb negb raise_if]. rewrite result_bind_ok.
  cbn [st_lift]. rewrite st_bind_eq, E. destruct o as [r|].
  - destruct IH as (o & E' & Ho'). rewrite st_bind_eq, E'. exists (cons r <$> o). split; [done|].
    destruct o; cbn; [by constructor|by right].
  - exists None. split; [done|]. by left.
Qed.
End RefSpec.

(** ** Clients of a pool *)

Section Clients.
Import Pool PoolSpec RefSpec.

(** A client may ask for blocks, touch blocks of the pool, give back blocks it
    holds, and cache, evict or reset, in any order and whatever the outcome. *)
Inductive pool_step (n : nat) : list Ref * BlockPool → list Ref * BlockPool → Prop :=
  | step_get held s k r s' :
      (0 ≤ k)%Z → get_new_blocks k s = (r, s') →
      pool_step n (held, s) (match r with Ok bs => held ++ bs | Err _ => held end, s')
  | step_touch held s bs r s' :
      of_pool n bs → touch bs s = (r, s') → pool_step n (held, s) (held ++ bs, s')
  | step_free held held' s bs r s' :
      held ≡ₚ bs ++ held' → free_blocks bs s = (r, s') → pool_step n (held, s) (held', s')
  | step_cache held s hashes bs nc nf bsz gid bm r s' :
      of_pool n bs → cache_full_blocks hashes bs nc nf bsz gid bm s = (r, s') → pool_step n (held, s) (held, s')
  | step_partial held s hashes i nt gid bsz r s' :
      (i < n)%nat → cache_partial_block hashes (Block i) nt gid bsz s = (r, s') → pool_step n (held, s) (held, s')
  | step_evict held s ids r s' :
      evict_blocks ids s = (r, s') → pool_step n (held, s) (held, s')
  | step_reset held s r s' :
      reset_prefix_cache s = (r, s') → pool_step n (held, s) (held, s').

Lemma get_new_blocks_cases n held s k :
  pool_ok n held s → (0 ≤ k)%Z →
  ∃ r s', get_new_blocks k s = (r, s') ∧ pool_ok n (match r with Ok bs => held ++ bs | Err _ => held end) s'.
Proof.
  intros (D & l & Hp & Hr) Hk. destruct (decide (k ≤ Z.of_nat (length l))%Z) as [Hle|Hgt].
  - destruct (get_new_blocks_ok n D l s held (Z.to_nat k) Hp Hr) as (s' & D' & E & Hp' & Hr' & _); [lia|].
    rewrite Z2Nat.id in E by done. do 2 eexists. split; [exact E|]. by exists D', (drop (Z.to_nat k) l).
  - do 2 eexists. split; [apply (get_new_blocks_short n D l); [done|lia]|]. by exists D, l.
Qed.

Lemma pool_move_ok n held s s' : pool_move n s s' → pool_ok n held s → pool_ok n held s'.
Proof.
  intros Hm (D & l & Hp & Hr). destruct (Hm D l Hp) as (D' & Hp' & E & _). exists D', l. split; [done|]. by eapply refs_ok_ext.
Qed.

Lemma pool_step_ok n held s held' s' :
  pool_step n (held, s) (held', s') → pool_ok n held s → pool_ok n held' s'.
Proof.
  intros H Hok. pose proof Hok as (D & l & Hp & Hr). inversion H; subst.
  - destruct (get_new_blocks_cases n held s k Hok) as (r' & s1 & E & H1); [done|]. by assert ((r, s') = (r', s1)) as [= -> ->] by congruence.
  - destruct (touch_ok n D l s held bs Hp Hr) as (s1 & D' & l' & E & Hp' & Hr' & _); [done|].
    assert (s' = s1) as -> by congruence. by exists D', l'.
  - destruct (free_blocks_ok n D l s held held' bs Hp Hr) as (s1 & D' & wh & woh & E & Hp' & Hr' & _); [done|].
    assert (s' = s1) as -> by congruence. by exists D', (woh ++ l ++ wh).
  - pose proof (at_cache_full n s hashes bs nc nf bsz gid bm) as Hm. unfold st_at in Hm. eapply pool_move_ok; [|done].
    match goal with E : cache_full_blocks _ _ _ _ _ _ _ _ = _ |- _ => rewrite E in Hm end. by apply Hm.
  - pose proof (at_cache_partial n s hashes i nt gid bsz) as Hm. unfold st_at in Hm. eapply pool_move_ok; [|done].
    match goal with E : cache_partial_block _ _ _ _ _ _ = _ |- _ => rewrite E in Hm end. by apply Hm.
  - pose proof (at_evict n s ids) as Hm. unfold st_at in Hm. eapply pool_move_ok; [|done].
    match goal with E : evict_blocks _ _ = _ |- _ => by rewrite E in Hm end.
  - destruct (decide (Z.of_nat n = (Z.of_nat (length l) + 1)%Z)) as [He|He].
    + destruct (reset_prefix_cache_ok n D l s Hp He) as (s1 & D' & E & Hp' & Er & _). assert (s' = s1) as -> by congruence. exists D', l.
      split; [done|]. by eapply refs_ok_ext.
    + pose proof (reset_prefix_cache_busy n D l s Hp He). assert (s' = s) as -> by congruence. by exists D, l.
Qed.

Lemma pool_reachable n caching hbs s0 c :
  (0 < n)%nat → Pool.init (Z.of_nat n) caching hbs = Ok s0 → rtc (pool_step n) ([], s0) c → pool_ok n c.1 c.2.
Proof.
  intros Hn Hi Hc. destruct (pool_init_ok n caching hbs Hn) as (s & E & _ & _ & _ & Hp & Hr). rewrite Hi in E. injection E as <-.
  assert (pool_ok n (@nil Ref, s0).1 (@nil Ref, s0).2) as H0 by (by exists (fresh_pool n), (map Block (seq 1 (n - 1)))).
  clear Hp Hr. revert H0. induction Hc as [[held s]|[held s] [held' s'] c Hs Hc IH]; [done|].
  intros H. apply IH. by eapply pool_step_ok.
Qed.

(** The free blocks of a pool. *)
Lemma free_list_ok n held s fuel :
  pool_ok n held s → (n + 2 < fuel)%nat →
  ∃ l, FreeKVCacheBlockQueue.get_all_free_blocks fuel (bp_queue s) = (Ok (Some l), bp_queue s)
  ∧ get_num_free_blocks s = Z.of_nat (length l) ∧ NoDup l
  ∧ (∀ r, r ∈ l ↔ ∃ i, r = Block i ∧ (0 < i < n)%nat ∧ r ∉ held)
  ∧ ∀ k, (0 ≤ k)%Z → (get_new_blocks k s).1 = if (Z.of_nat (length l) <? k)%Z then Err ValueError else Ok (take (Z.to_nat k) l).
Proof.
  intros (D & l & Hp & Hr) Hf. pose proof Hp as (Hq & Hqok & Hh & _). pose proof Hr as (R1 & R2 & _).
  pose proof (queue_ok_nodup _ _ Hqok) as Hn.
  assert (∀ r, r ∈ l ↔ ∃ i, r = Block i ∧ (0 < i < n)%nat ∧ r ∉ held) as Hl.
  { intros r. split.
    - intros Hin. destruct (R2 r Hin) as (i & -> & Hi). exists i. split; [done|]. split; [done|].
      destruct (proj2 (proj1 Hh i)) as [b Hb]; [lia|]. destruct (R1 i b Hb) as [_ Hm]; [lia|]. by apply Hm.
    - intros (i & -> & Hi & Hout). destruct (proj2 (proj1 Hh i)) as [b Hb]; [lia|]. destruct (R1 i b Hb) as [_ Hm]; [lia|]. by apply Hm. }
  assert (length l < n)%nat as Hlen.
  { assert (l ⊆ map Block (seq 1 (n - 1))) as Hs.
    { intros r Hin. apply Hl in Hin as (i & -> & Hi & _). apply list_elem_of_fmap. exists i. split; [done|]. apply elem_of_seq. lia. }
    assert (l ⊆+ map Block (seq 1 (n - 1))) as Hsub by (by apply NoDup_submseteq).
    apply submseteq_length in Hsub. rewrite length_map, length_seq in Hsub. destruct Hp as (_ & _ & _ & _ & _ & _ & ? & _). lia. }
  exists l. split; [rewrite Hq; apply FreeQueueSpec.get_all_free_blocks_ok; [done|lia]|].
  split; [unfold get_num_free_blocks; by rewrite Hq|]. split; [done|]. split; [done|].
  intros k Hk. destruct (Z.of_nat (length l) <? k)%Z eqn:E.
  - apply Z.ltb_lt in E. by rewrite (get_new_blocks_short n D l) by done.
  - apply Z.ltb_ge in E. destruct (get_new_blocks_ok n D l s held (Z.to_nat k) Hp Hr) as (s' & D' & E' & _); [lia|].
    rewrite Z2Nat.id in E' by done. by rewrite E'.
Qed.

(** C24: the pool counts its holders.  After any run of client calls, whatever their
    outcomes, each block but the null block counts exactly the clients' references to
    it; the walk over the free queue ends and finds, once each, exactly the blocks
    nobody holds, as many as the counter says; a request for new blocks gets the first
    of them, or ValueError when there are too few; giving back and touching blocks
    never raises; and a block found by a hash carries that hash. *)
Theorem pool_counts_holders n caching hbs s0 held s fuel :
  (0 < n)%nat → Pool.init (Z.of_nat n) caching hbs = Ok s0 → rtc (pool_step n) ([], s0) (held, s) → (n + 2 < fuel)%nat →
  (∀ i b, q_heap (bp_queue s) !! Block i = Some b → i ≠ 0%nat → ref_cnt b = Z.of_nat (holders held (Block i)))
  ∧ (∃ l, FreeKVCacheBlockQueue.get_all_free_blocks fuel (bp_queue s) = (Ok (Some l), bp_queue s)
     ∧ get_num_free_blocks s = Z.of_nat (length l) ∧ NoDup l
     ∧ (∀ r, r ∈ l ↔ ∃ i, r = Block i ∧ (0 < i < n)%nat ∧ r ∉ held)
     ∧ ∀ k, (0 ≤ k)%Z → (get_new_blocks k s).1 = if (Z.of_nat (length l) <? k)%Z then Err ValueError else Ok (take (Z.to_nat k) l))
  ∧ (∀ bs held', held ≡ₚ bs ++ held' → (free_blocks bs s).1 = Ok tt)
  ∧ (∀ bs, of_pool n bs → (touch bs s).1 = Ok tt)
  ∧ ∀ hash gid rs, (0 ≤ gid < 2 ^ 32)%Z → (get_cached_block hash [gid] s).1 = Ok (Some rs) →
      ∃ i, rs = [Block i] ∧ owns (q_heap (bp_queue s)) (cached_block_hashes_by_block s) (hash ++ be_bytes4 gid) i.
Proof.
  intros Hn Hi Hc Hf. pose proof (pool_reachable n caching hbs s0 _ Hn Hi Hc) as Hok. cbn [fst snd] in Hok.
  pose proof Hok as (D & l & Hp & Hr). pose proof Hp as (Hq & _ & _ & (Hm & Hk & _) & _).
  assert (∀ i b, q_heap (bp_queue s) !! Block i = Some b → ∃ b0, D !! Block i = Some b0 ∧ ref_cnt b = ref_cnt b0 ∧ block_hash b = block_hash b0) as Hb.
  { intros i b. rewrite Hq. unfold queue_of. cbn [q_heap]. rewrite relink_lookup. intros (b0 & Hb0 & ->)%fmap_Some. exists b0. by destruct b0. }
  split; [|split; [by apply free_list_ok|split; [|split]]].
  - intros i b Hbi Hi0. destruct (Hb i b Hbi) as (b0 & Hb0 & -> & _). by apply (proj1 Hr).
  - intros bs held' Hperm. by destruct (free_blocks_ok n D l s held held' bs Hp Hr Hperm) as (? & ? & ? & ? & -> & _).
  - intros bs Hbs. by destruct (touch_ok n D l s held bs Hp Hr Hbs) as (? & ? & ? & -> & _).
  - intros hash gid rs Hg E. destruct (get_cached_block_ok n s hash [gid] Hm) as (o & E' & Ho); [by constructor|].
    rewrite E' in E. cbn [fst] in E. injection E as ->. inversion Ho as [|? r ? rs' (i & Hin & -> & Hkn) Hrs]; subst. inversion Hrs; subst.
    exists i. split; [done|]. apply Hk in Hkn as (b & Hbi & Hown); [|done]. rewrite Hq. unfold owns, queue_of. cbn [q_heap].
    rewrite relink_lookup, Hbi. eexists. split; [reflexivity|]. by destruct b.
Qed.

(** ** A concrete run *)

(** A pool of five blocks; two are taken, one of them is cached under a hash, a prefix
    hit touches it, and the first holder gives both back. *)
Definition demo_start : BlockPool :=
  match init 5 true 16 with Ok s => s | Err _ => mkPool (mkQueue ∅ 0) [] 0 true 16 ∅ ∅ FakeHead end.
Definition demo_taken : BlockPool := (get_new_blocks 2 demo_start).2.
Definition demo_cached : BlockPool := (cache_full_blocks [[7%Z]] [Block 1] 0 1 16 0 None demo_taken).2.
Definition demo_touched : BlockPool := (touch [Block 1] demo_cached).2.
Definition demo_end : BlockPool := (free_blocks [Block 2; Block 1] demo_touched).2.

Lemma demo_run : rtc (pool_step 5) ([], demo_start) ([Block 1], demo_end).
Proof.
  assert ((get_new_blocks 2 demo_start).1 = Ok [Block 1; Block 2]) as E1 by by vm_compute.
  assert (of_pool 5 [Block 1]) as H1 by (intros r ->%list_elem_of_singleton; exists 1%nat; split; [done|lia]).
  apply (rtc_l _ _ ([Block 1; Block 2], demo_taken)).
  { pose proof (step_get 5 [] demo_start 2 _ _ ltac:(done) (surjective_pairing _)) as H. by rewrite E1 in H. }
  apply (rtc_l _ _ ([Block 1; Block 2], demo_cached)); [by eapply step_cache; [|apply surjective_pairing]|].
  apply (rtc_l _ _ ([Block 1; Block 2; Block 1], demo_touched)).
  { exact (step_touch 5 [Block 1; Block 2] demo_cached [Block 1] _ _ H1 (surjective_pairing _)). }
  apply (rtc_l _ _ ([Block 1], demo_end)); [|apply rtc_refl].
  eapply step_free; [|apply surjective_pairing]. cbn [app]. apply perm_swap.
Qed.

(** C24: the run, the free blocks it leaves, and the cached block. *)
Lemma pool_counts_holders_witness :
  (∀ b, q_heap (bp_queue demo_end) !! Block 1 = Some b → ref_cnt b = 1%Z)
  ∧ (get_new_blocks 4 demo_end).1 = Err ValueError ∧ (get_new_blocks 3 demo_end).1 = Ok [Block 2; Block 3; Block 4]
  ∧ ∃ i, Some [Block 1] = Some [Block i].
Proof.
  destruct (pool_counts_holders 5 true 16 demo_start [Block 1] demo_end 8) as (H1 & (l & E & Hc & Hn & Hl & Hg) & _ & _ & Hh);
    [lia|reflexivity|apply demo_run|lia|].
  assert (l = [Block 2; Block 3; Block 4]) as ->.
  { assert ((FreeKVCacheBlockQueue.get_all_free_blocks 8 (bp_queue demo_end)).1 = Ok (Some [Block 2; Block 3; Block 4]))
      as E' by by vm_compute. rewrite E in E'. by injection E'. }
  split; [intros b Hb; by rewrite (H1 1%nat b Hb)|]. split; [by rewrite Hg|]. split; [by rewrite Hg|].
  destruct (Hh [7%Z] 0%Z [Block 1]) as (i & -> & _); [lia|by vm_compute|]. by exists i.
Defined.
End Clients.
