(* ===== verification/KVManager.v ===== *)
(** * The KV cache manager

    [v1/core/single_type_kv_cache_manager.py] ([FullAttentionManager] over
    [SingleTypeKVCacheManager]), [kv_cache_coordinator.py] and [kv_cache_manager.py]:
    which blocks a request holds, and how the scheduler gets and returns them.  The
    model has one KV cache group of full attention, the group of a cache of mode
    rabit_kv2 (every layer has the same [FullAttentionSpec]): the loops over the
    groups have one round, context parallelism is off, no token is ever skipped and
    no admission cap is set.  A [KVCacheBlocks] is compared by identity with the
    manager's empty one, so that object is a constructor of its own. *)

From Stdlib Require Import ZArith Lia.
From stdpp Require Import base tactics numbers list option functions gmap strings.
From S2P Require Import Prelude FreeQueue BlockPool PoolState.

Inductive RequestStatus :=
  | WAITING
  | WAITING_FOR_STRUCTURED_OUTPUT_GRAMMAR
  | WAITING_FOR_REMOTE_KVS
  | WAITING_FOR_STREAMING_REQ
  | RUNNING
  | PREEMPTED
  | FINISHED_STOPPED
  | FINISHED_LENGTH_CAPPED
  | FINISHED_ABORTED
  | FINISHED_IGNORED
  | FINISHED_ERROR
  | FINISHED_REPETITION.

(** The fields of a request the manager reads. *)
Record Request := mkRequest {
  request_id : string;
  num_tokens : Z;
  num_computed_tokens : Z;
  status : RequestStatus;
  block_hashes : list BlockHash;
  skip_reading_prefix_cache : bool
}.

Inductive KVCacheBlocks :=
  | empty_kv_cache_blocks
  | NewKVCacheBlocks (blocks : list Ref).

Definition kv_blocks (b : KVCacheBlocks) : list Ref := match b with empty_kv_cache_blocks => [] | NewKVCacheBlocks l => l end.

(** [create_kv_cache_blocks] *)
Definition create_kv_cache_blocks (blocks : list Ref) : KVCacheBlocks :=
  match blocks with [] => empty_kv_cache_blocks | _ => NewKVCacheBlocks blocks end.

(** ** State *)

(** The manager of the group, with the pool it shares. *)
Record Manager := mkManager {
  mg_pool : BlockPool;
  req_to_blocks : gmap string (list Ref);
  num_cached_block : gmap string Z;
  new_block_ids : list Z
}.

(** The configuration of the manager. *)
Record KVConfig := mkKVConfig {
  kv_block_size : Z;
  max_model_len : Z;
  watermark_blocks : Z;
  drop_eagle_block : bool
}.

Definition on_pool {A} (m : ST BlockPool A) : ST Manager A := λ s,
  let '(r, p) := m (mg_pool s) in (r, mkManager p (req_to_blocks s) (num_cached_block s) (new_block_ids s)).

Definition set_blocks (id : string) (l : list Ref) : ST Manager unit :=
  st_modify (λ s, mkManager (mg_pool s) (<[id := l]> (req_to_blocks s)) (num_cached_block s) (new_block_ids s)).
Definition set_cached_count (id : string) (n : Z) : ST Manager unit :=
  st_modify (λ s, mkManager (mg_pool s) (req_to_blocks s) (<[id := n]> (num_cached_block s)) (new_block_ids s)).

(** [self.req_to_blocks[request_id]] of a defaultdict, which inserts an empty list. *)
Definition req_blocks_of (id : string) : ST Manager (list Ref) :=
  s ← st_get;
  match req_to_blocks s !! id with
  | Some l => mret l
  | None => set_blocks id [];; mret []
  end.

Definition load_of (r : Ref) : ST Manager KVCacheBlock := on_pool (load_block r).

(** [self.new_block_ids.extend(b.block_id for b in blocks)] *)
Fixpoint ids_of (bs : list Ref) : ST Manager (list Z) :=
  match bs with
  | [] => mret []
  | r :: bs => b ← load_of r; ids ← ids_of bs; mret (block_id b :: ids)
  end.

Definition extend_new_ids (bs : list Ref) : ST Manager unit :=
  ids ← ids_of bs;
  st_modify (λ s, mkManager (mg_pool s) (req_to_blocks s) (num_cached_block s) (new_block_ids s ++ ids)).

Section KVCacheManager.
Variable cfg : KVConfig.

(** ** The manager of the group *)

(** [_get_num_evictable_blocks] *)
Fixpoint _get_num_evictable_blocks (bs : list Ref) : ST Manager Z :=
  match bs with
  | [] => mret 0%Z
  | r :: bs =>
      b ← load_of r;
      n ← _get_num_evictable_blocks bs;
      mret ((if (ref_cnt b =? 0)%Z && negb (is_null b) then 1 else 0) + n)%Z
  end.

Definition get_num_blocks_to_allocate (id : string) (tokens : Z) (new_computed_blocks : list Ref) : ST Manager Z :=
  s ← st_get;
  let num_required_blocks := cdiv tokens (kv_block_size cfg) in
  let num_req_blocks := Z.of_nat (length (default [] (req_to_blocks s !! id))) in
  match num_cached_block s !! id with
  | Some _ =>
      st_raise_if (negb (length new_computed_blocks =? 0)%nat) AssertionError;;
      mret (Z.max (num_required_blocks - num_req_blocks) 0)
  | None =>
      let num_local_computed_blocks := (Z.of_nat (length new_computed_blocks) + num_req_blocks)%Z in
      let num_new_blocks := Z.max (num_required_blocks - Z.max 0 num_local_computed_blocks) 0 in
      num_evictable_blocks ← _get_num_evictable_blocks new_computed_blocks;
      mret (num_new_blocks + num_evictable_blocks)%Z
  end.

Definition add_local_computed_blocks (id : string) (new_computed_blocks : list Ref) : ST Manager unit :=
  req_blocks ← req_blocks_of id;
  st_raise_if (negb (length req_blocks =? 0)%nat) AssertionError;;
  s ← st_get;
  (if enable_caching (mg_pool s) then on_pool (Pool.touch new_computed_blocks)
   else st_raise_if (negb (length new_computed_blocks =? 0)%nat) AssertionError);;
  set_blocks id (req_blocks ++ new_computed_blocks);;
  set_cached_count id (Z.of_nat (length (req_blocks ++ new_computed_blocks))).

Definition allocate_external_computed_blocks (id : string) (num_local_computed_tokens num_external_computed_tokens : Z) : ST Manager unit :=
  if (num_external_computed_tokens <=? 0)%Z then mret tt else
  req_blocks ← req_blocks_of id;
  allocated_blocks ← on_pool (Pool.get_new_blocks
    (cdiv (num_local_computed_tokens + num_external_computed_tokens) (kv_block_size cfg) - Z.of_nat (length req_blocks)));
  set_blocks id (req_blocks ++ allocated_blocks);;
  extend_new_ids allocated_blocks.

Definition allocate_new_blocks (id : string) (tokens : Z) : ST Manager (list Ref) :=
  req_blocks ← req_blocks_of id;
  let num_new_blocks := (cdiv tokens (kv_block_size cfg) - Z.of_nat (length req_blocks))%Z in
  if (num_new_blocks <=? 0)%Z then mret [] else
  new_blocks ← on_pool (Pool.get_new_blocks num_new_blocks);
  set_blocks id (req_blocks ++ new_blocks);;
  extend_new_ids new_blocks;;
  mret new_blocks.

Definition take_new_block_ids : ST Manager (list Z) := λ s,
  (Ok (new_block_ids s), mkManager (mg_pool s) (req_to_blocks s) (num_cached_block s) []).

Definition cache_blocks (request : Request) (tokens : Z) : ST Manager unit :=
  s ← st_get;
  let num_cached_blocks := default 0%Z (num_cached_block s !! request_id request) in
  let num_full_blocks := (tokens / kv_block_size cfg)%Z in
  if (num_full_blocks <=? num_cached_blocks)%Z then mret tt else
  blks ← req_blocks_of (request_id request);
  on_pool (Pool.cache_full_blocks (block_hashes request) blks (Z.to_nat num_cached_blocks) (Z.to_nat num_full_blocks)
    (kv_block_size cfg) 0 None);;
  set_cached_count (request_id request) num_full_blocks.

Definition pop_blocks_for_free (id : string) : ST Manager (list Ref) := λ s,
  (Ok (default [] (req_to_blocks s !! id)),
   mkManager (mg_pool s) (delete id (req_to_blocks s)) (delete id (num_cached_block s)) (new_block_ids s)).

Definition free_request (id : string) : ST Manager unit :=
  req_blocks ← pop_blocks_for_free id;
  on_pool (Pool.free_blocks (reverse req_blocks)).

(** [get_num_common_prefix_blocks]: how many blocks from the front every request
    shares.  Without prefix caching the coordinator answers 0 itself. *)
Fixpoint common_prefix (n : Z) (blks : list Ref) : ST Manager Z :=
  match blks with
  | [] => mret 0%Z
  | r :: blks => b ← load_of r; if (ref_cnt b =? n)%Z then k ← common_prefix n blks; mret (k + 1)%Z else mret 0%Z
  end.

Definition get_num_common_prefix_blocks (id : string) : ST Manager Z :=
  s ← st_get;
  if enable_caching (mg_pool s) then
    blks ← req_blocks_of id;
    s ← st_get;
    common_prefix (Z.of_nat (size (req_to_blocks s))) blks
  else mret 0%Z.

(** [find_longest_cache_hit] of full attention, at the block size of the group;
    [itertools.islice] refuses a negative length. *)
Fixpoint cache_hits (hashes : list BlockHash) (group_ids : list Z) : ST Manager (list Ref) :=
  match hashes with
  | [] => mret []
  | h :: hashes =>
      cached ← on_pool (Pool.get_cached_block h group_ids);
      match cached with
      | Some (b :: _) => rest ← cache_hits hashes group_ids; mret (b :: rest)
      | _ => mret []
      end
  end.

Definition find_longest_cache_hit (hashes : list BlockHash) (max_cache_hit_length : Z) : ST Manager (list Ref * Z) :=
  s ← st_get;
  if enable_caching (mg_pool s) then
    st_raise_if (max_cache_hit_length / kv_block_size cfg <? 0)%Z ValueError;;
    computed ← cache_hits (take (Z.to_nat (max_cache_hit_length / kv_block_size cfg)) hashes) [0%Z];
    let computed := if drop_eagle_block cfg then removelast computed else computed in
    mret (computed, Z.of_nat (length computed) * kv_block_size cfg)%Z
  else mret ([], 0%Z).

(** ** The manager of the scheduler *)

Definition get_computed_blocks (request : Request) : ST Manager (KVCacheBlocks * Z) :=
  s ← st_get;
  if negb (enable_caching (mg_pool s)) || skip_reading_prefix_cache request then mret (empty_kv_cache_blocks, 0%Z) else
  '(computed_blocks, num_new_computed_tokens) ← find_longest_cache_hit (block_hashes request) (num_tokens request - 1);
  mret (create_kv_cache_blocks computed_blocks, num_new_computed_tokens).

(** The coordinator's [allocate_new_computed_blocks]. *)
Definition allocate_new_computed_blocks (id : string) (new_computed_blocks : list Ref)
    (num_local_computed_tokens num_external_computed_tokens : Z) : ST Manager unit :=
  s ← st_get;
  match num_cached_block s !! id with
  | Some _ => st_raise_if (negb (length new_computed_blocks =? 0)%nat) AssertionError
  | None =>
      add_local_computed_blocks id new_computed_blocks;;
      if (0 <? num_external_computed_tokens)%Z
      then allocate_external_computed_blocks id num_local_computed_tokens num_external_computed_tokens else mret tt
  end.

Definition is_waiting (st : RequestStatus) : bool := match st with WAITING | PREEMPTED => true | _ => false end.

(** The arguments of [allocate_slots] with their defaults. *)
Record SlotArgs := mkSlotArgs {
  num_new_computed_tokens : Z;
  new_computed_blocks : option KVCacheBlocks;
  num_lookahead_tokens : Z;
  num_external_computed_tokens : Z;
  delay_cache_blocks : bool;
  full_sequence_must_fit : bool;
  reserved_blocks : Z;
  has_scheduled_reqs : bool
}.

Definition default_args : SlotArgs := mkSlotArgs 0 None 0 0 false false 0 true.

Definition free_block_count : ST Manager Z := s ← st_get; mret (Pool.get_num_free_blocks (mg_pool s)).

Definition allocate_slots (request : Request) (num_new_tokens : Z) (a : SlotArgs) : ST Manager (option KVCacheBlocks) :=
  st_raise_if ((num_new_tokens =? 0) && (num_external_computed_tokens a =? 0))%Z ValueError;;
  let computed := default empty_kv_cache_blocks (new_computed_blocks a) in
  let num_local_computed_tokens := (num_computed_tokens request + num_new_computed_tokens a)%Z in
  let total_computed_tokens := Z.min (num_local_computed_tokens + num_external_computed_tokens a) (max_model_len cfg) in
  let watermark := if has_scheduled_reqs a && is_waiting (status request) then watermark_blocks cfg else 0%Z in
  fits ← (if full_sequence_must_fit a then
            n ← get_num_blocks_to_allocate (request_id request) (Z.min (num_tokens request) (max_model_len cfg)) (kv_blocks computed);
            free ← free_block_count;
            mret (negb (free <? n + watermark)%Z)
          else mret true);
  if negb (fits : bool) then mret None else
  let num_tokens_need_slot := Z.min (total_computed_tokens + num_new_tokens + num_lookahead_tokens a) (max_model_len cfg) in
  num_blocks_to_allocate ← get_num_blocks_to_allocate (request_id request) num_tokens_need_slot (kv_blocks computed);
  free ← free_block_count;
  if (free - reserved_blocks a <? num_blocks_to_allocate + watermark)%Z then mret None else
  (match computed with
   | empty_kv_cache_blocks =>
       if (0 <? num_external_computed_tokens a)%Z
       then allocate_new_computed_blocks (request_id request) [] num_local_computed_tokens (num_external_computed_tokens a) else mret tt
   | NewKVCacheBlocks l => allocate_new_computed_blocks (request_id request) l num_local_computed_tokens (num_external_computed_tokens a)
   end);;
  new_blocks ← allocate_new_blocks (request_id request) num_tokens_need_slot;
  s ← st_get;
  if negb (enable_caching (mg_pool s)) || delay_cache_blocks a then mret (Some (create_kv_cache_blocks new_blocks)) else
  cache_blocks request (Z.min (total_computed_tokens + num_new_tokens) (num_tokens request));;
  mret (Some (create_kv_cache_blocks new_blocks)).

Definition free (request : Request) : ST Manager unit := free_request (request_id request).

Definition get_blocks (id : string) : ST Manager KVCacheBlocks :=
  s ← st_get; mret (create_kv_cache_blocks (default [] (req_to_blocks s !! id))).

Definition get_block_ids (id : string) : ST Manager (list Z) :=
  b ← get_blocks id; ids_of (kv_blocks b).

End KVCacheManager.

(** [KVCacheManager.__init__] on a cache of [num_blocks] blocks. *)
Definition kv_init (num_blocks : Z) (enable_caching : bool) (hash_block_size : Z) : result Manager :=
  p ← Pool.init num_blocks enable_caching hash_block_size;
  Ok (mkManager p ∅ ∅ []).
