(* ===== verification/KVTables.v ===== *)
(** * The tables of the KV cache manager

    The manager keeps on its tables the conditions that an engine with a paged
    cache requires: the blocks of the requests are distinct, none is the null block,
    a request keeps the blocks it has until it is freed, and a request is refused
    exactly when the free blocks do not suffice. *)

From Stdlib Require Import ZArith Lia.
From stdpp Require Import base tactics numbers list option functions gmap strings.
From S2P Require Import Prelude FreeQueue BlockPool PoolState KVManager.
Import RefSpec.

(** ** The blocks held by the requests *)

Definition held_blocks (m : gmap string (list Ref)) : list Ref := concat (map snd (map_to_list m)).

Lemma concat_perm {A} (l1 l2 : list (list A)) : l1 ≡ₚ l2 → concat l1 ≡ₚ concat l2.
Proof.
  induction 1 as [|x l1 l2 _ IH|x y l|l1 l2 l3 _ IH1 _ IH2]; cbn; [done| | |by transitivity (concat l2)].
  - by rewrite IH.
  - by rewrite !app_assoc, (Permutation_app_comm x y).
Qed.

Lemma held_insert m id l : m !! id = None → held_blocks (<[id := l]> m) ≡ₚ l ++ held_blocks m.
Proof.
  intros H. unfold held_blocks. rewrite (concat_perm _ (map snd ((id, l) :: map_to_list m))); [done|].
  apply Permutation_map. by apply map_to_list_insert.
Qed.

Lemma held_split m id l : m !! id = Some l → held_blocks m ≡ₚ l ++ held_blocks (delete id m).
Proof. intros H. rewrite <-(insert_delete_id m id l H) at 1. apply held_insert. apply lookup_delete_eq. Qed.

Lemma held_update m id l : held_blocks (<[id := l]> m) ≡ₚ l ++ held_blocks (delete id m).
Proof. rewrite <-(insert_delete_eq m id l). apply held_insert. apply lookup_delete_eq. Qed.

Lemma held_elem m r : r ∈ held_blocks m ↔ ∃ id l, m !! id = Some l ∧ r ∈ l.
Proof.
  unfold held_blocks. rewrite list_elem_of_In, in_concat. split.
  - intros (l & Hl & Hr). apply in_map_iff in Hl as ([id l'] & <- & Hl). exists id, l'. rewrite <-elem_of_map_to_list.
    split; [by apply list_elem_of_In|by apply list_elem_of_In].
  - intros (id & l & Hl & Hr). exists l. split; [|by apply list_elem_of_In]. apply in_map_iff. exists (id, l). split; [done|].
    by apply list_elem_of_In, elem_of_map_to_list.
Qed.

Lemma held_default m id : held_blocks m ≡ₚ default [] (m !! id) ++ held_blocks (delete id m).
Proof. destruct (m !! id) as [l|] eqn:E; cbn; [by apply held_split|]. by rewrite delete_id. Qed.

(** ** What holds between the calls *)

Definition kv_ok (n : nat) (s : Manager) : Prop :=
  pool_ok n (held_blocks (req_to_blocks s)) (mg_pool s) ∧ enable_caching (mg_pool s) = false
  ∧ NoDup (held_blocks (req_to_blocks s)) ∧ Block 0 ∉ held_blocks (req_to_blocks s).

(** The table of a request. *)
Definition table_of (s : Manager) (id : string) : list Ref := default [] (req_to_blocks s !! id).

(** A permutation of the held blocks is as good. *)
Lemma pool_ok_perm n held held' p : held ≡ₚ held' → pool_ok n held p → pool_ok n held' p.
Proof. intros E (D & l & Hp & Hr). exists D, l. split; [done|]. by apply (refs_ok_perm n D l l held held'). Qed.

#[export] Instance pool_ok_proper n : Proper (Permutation ==> eq ==> iff) (pool_ok n).
Proof. intros h1 h2 E p1 p2 <-. split; apply pool_ok_perm; [done|by symmetry]. Qed.

Lemma held_in_pool n s r : kv_ok n s → r ∈ held_blocks (req_to_blocks s) → ∃ i, r = Block i ∧ (0 < i < n)%nat.
Proof.
  intros ((D & l & _ & _ & _ & R3) & _ & _ & H0) Hr. destruct (R3 r Hr) as (i & -> & Hi). exists i. split; [done|].
  split; [|done]. destruct i; [done|lia].
Qed.

(** As many blocks are free as nobody holds. *)
Lemma free_count n s :
  kv_ok n s → Pool.get_num_free_blocks (mg_pool s) = (Z.of_nat n - 1 - Z.of_nat (length (held_blocks (req_to_blocks s))))%Z.
Proof.
  intros Hok. pose proof Hok as (Hp & _ & Hn & H0). set (held := held_blocks (req_to_blocks s)) in *.
  destruct (free_list_ok n held (mg_pool s) (n + 3) Hp) as (l & _ & -> & Hl & Hin & _); [lia|].
  assert (0 < n)%nat as Hpos by (destruct Hp as (D & l' & (_ & _ & _ & _ & _ & _ & ? & _) & _); done).
  assert (l ++ held ≡ₚ map Block (seq 1 (n - 1))) as Hall.
  { apply NoDup_Permutation.
    - apply NoDup_app. split; [done|]. split; [|done]. intros r Hr. apply Hin in Hr as (i & _ & _ & ?). done.
    - apply NoDup_fmap_2; [by intros ?? [=]|apply NoDup_seq].
    - intros r. rewrite elem_of_app, Hin, list_elem_of_fmap. split.
      + intros [(i & -> & Hi & _)|Hr].
        * exists i. split; [done|]. apply elem_of_seq. lia.
        * destruct (held_in_pool n s r Hok Hr) as (i & -> & Hi). exists i. split; [done|]. apply elem_of_seq. lia.
      + intros (i & -> & Hi%elem_of_seq). destruct (decide (Block i ∈ held)); [by right|]. left. exists i.
        split; [done|]. split; [lia|done]. }
  apply Permutation_length in Hall. rewrite length_app, length_map, length_seq in Hall. lia.
Qed.

Lemma fresh_manager n hbs s :
  (0 < n)%nat → kv_init (Z.of_nat n) false hbs = Ok s → kv_ok n s ∧ req_to_blocks s = ∅.
Proof.
  intros Hn. destruct (RefSpec.pool_init_ok n false hbs Hn) as (p & E & Ec & _ & _ & Hp & Hr). unfold kv_init. rewrite E, result_bind_ok.
  intros [= <-]. split; [|done]. unfold kv_ok, held_blocks. cbn [req_to_blocks mg_pool]. rewrite map_to_list_empty. cbn.
  split; [by exists (RefSpec.fresh_pool n), (map Block (seq 1 (n - 1)))|]. split; [done|]. split; [constructor|apply not_elem_of_nil].
Qed.

(** ** Steps *)

Definition number (r : Ref) : Z := match r with Block i => Z.of_nat i | _ => -1 end.

(** The entry of a request, made if it was missing. *)
Definition opened (id : string) (s : Manager) : Manager :=
  mkManager (mg_pool s) (<[id := table_of s id]> (req_to_blocks s)) (num_cached_block s) (new_block_ids s).

Lemma req_blocks_of_eq id s : req_blocks_of id s = (Ok (table_of s id), opened id s).
Proof.
  unfold req_blocks_of, opened, table_of. rewrite st_bind_eq. cbn [st_get].
  destruct (req_to_blocks s !! id) as [l|] eqn:E; [|done]. cbn [default]. rewrite st_ret_eq, insert_id by done. by destruct s.
Qed.

Lemma held_opened id s : held_blocks (req_to_blocks (opened id s)) ≡ₚ held_blocks (req_to_blocks s).
Proof. unfold opened. cbn [req_to_blocks]. rewrite held_update. symmetry. apply held_default. Qed.

Lemma kv_ok_perm n s s' :
  held_blocks (req_to_blocks s) ≡ₚ held_blocks (req_to_blocks s') → mg_pool s' = mg_pool s → kv_ok n s → kv_ok n s'.
Proof.
  intros E Ep (H1 & H2 & H3 & H4). unfold kv_ok. by rewrite Ep, <-E.
Qed.

Lemma load_of_ok n held s i :
  pool_ok n held (mg_pool s) → (i < n)%nat → ∃ b, load_of (Block i) s = (Ok b, s) ∧ block_id b = Z.of_nat i.
Proof.
  intros (D & l & Hp & _) Hi. destruct (PoolSpec.pool_load n D l _ i Hp Hi) as (b & b' & _ & E & Eid & _).
  exists b'. split; [|done]. unfold load_of, on_pool. rewrite E. by destruct s.
Qed.

Lemma ids_of_ok n held s bs :
  pool_ok n held (mg_pool s) → of_pool n bs → ids_of bs s = (Ok (map number bs), s).
Proof.
  intros Hp. induction bs as [|r bs IH]; intros Hb; [done|]. destruct (Hb r) as (i & -> & Hi); [by left|].
  destruct (load_of_ok n held s i Hp Hi) as (b & E & Eid). cbn [ids_of]. rewrite st_bind_eq, E, st_bind_eq, IH by
    (intros r' Hr'; apply Hb; by right). by rewrite Eid.
Qed.

(** New blocks of a request: distinct ones nobody held, behind those it has. *)
Lemma allocate_new_blocks_ok cfg n s id tokens :
  kv_ok n s →
  let need := (cdiv tokens (kv_block_size cfg) - Z.of_nat (length (table_of s id)))%Z in
  (need ≤ Pool.get_num_free_blocks (mg_pool s))%Z →
  ∃ bs s', allocate_new_blocks cfg id tokens s = (Ok bs, s')
  ∧ Z.of_nat (length bs) = Z.max need 0 ∧ req_to_blocks s' = <[id := table_of s id ++ bs]> (req_to_blocks s)
  ∧ new_block_ids s' = new_block_ids s ++ map number bs ∧ kv_ok n s'
  ∧ num_cached_block s' = num_cached_block s.
Proof.
  intros Hok need Hle. unfold allocate_new_blocks. rewrite st_bind_eq, req_blocks_of_eq. fold need.
  destruct (need <=? 0)%Z eqn:E.
  { apply Z.leb_le in E. exists [], (opened id s). rewrite st_ret_eq, app_nil_r. split; [done|]. split; [cbn; lia|].
    split; [done|]. split; [cbn; by rewrite app_nil_r|]. split; [|done].
    apply (kv_ok_perm n s); [symmetry; apply held_opened|done|done]. }
  apply Z.leb_gt in E. pose proof Hok as ((D & l & Hp & Hr) & Hcache & Hn & H0).
  assert (Pool.get_num_free_blocks (mg_pool s) = Z.of_nat (length l)) as Hfree
    by (unfold Pool.get_num_free_blocks; by rewrite (proj1 Hp)).
  destruct (RefSpec.get_new_blocks_ok n D l (mg_pool s) _ (Z.to_nat need) Hp Hr) as (p' & D' & Eg & Hp' & Hr' & [Hc' _] & _); [lia|].
  rewrite Z2Nat.id in Eg by lia. set (bs := take (Z.to_nat need) l) in *.
  rewrite st_bind_eq. unfold on_pool. cbn [mg_pool opened]. rewrite Eg. cbn [req_to_blocks num_cached_block new_block_ids opened].
  rewrite st_bind_eq. cbn [set_blocks st_modify mg_pool req_to_blocks num_cached_block new_block_ids]. rewrite insert_insert_eq.
  set (s1 := mkManager _ _ _ _).
  assert (held_blocks (req_to_blocks s1) ≡ₚ held_blocks (req_to_blocks s) ++ bs) as Eh.
  { cbn [s1 req_to_blocks]. rewrite held_update, (held_default (req_to_blocks s) id). fold (table_of s id).
    rewrite <-!app_assoc. apply Permutation_app_head, Permutation_app_comm. }
  assert (pool_ok n (held_blocks (req_to_blocks s1)) p') as Hp1.
  { eapply pool_ok_perm; [symmetry; exact Eh|]. by exists D', (drop (Z.to_nat need) l). }
  assert (∀ r, r ∈ bs → r ∈ l) as Hsub by (intros r Hin; rewrite <-(take_drop (Z.to_nat need) l), elem_of_app; by left).
  pose proof Hr as (R1 & R2 & R3). pose proof Hp as (_ & Hqok & Hh & _).
  unfold extend_new_ids. rewrite st_bind_eq, st_bind_eq, (ids_of_ok n (held_blocks (req_to_blocks s1)) s1 bs).
  2: exact Hp1.
  2: { intros r Hin. destruct (R2 r (Hsub r Hin)) as (i & -> & _ & Hi). by exists i. }
  eexists bs, _. split; [reflexivity|].
  split; [unfold bs; rewrite length_take; lia|]. split; [done|]. split; [done|]. split; [|done].
  split; [exact Hp1|]. split; [cbn; congruence|]. cbn [req_to_blocks s1] in Eh |- *. rewrite Eh.
  assert (NoDup bs) as Hnb.
  { pose proof (queue_ok_nodup _ _ Hqok) as Hnl. rewrite <-(take_drop (Z.to_nat need) l) in Hnl. by apply NoDup_app in Hnl as [? _]. }
  split.
  - apply NoDup_app. split; [done|]. split; [|done]. intros r Hr1 Hr2. destruct (R2 r (Hsub r Hr2)) as (i & -> & Hi).
    destruct (proj2 (proj1 Hh i)) as [b Hb]; [lia|]. destruct (R1 i b Hb) as [_ Hm]; [lia|]. by apply Hm in Hr1; [|apply Hsub].
  - rewrite elem_of_app. intros [?|Hin]; [done|]. destruct (R2 _ (Hsub _ Hin)) as (i & [= <-] & Hi). lia.
Qed.

(** What [allocate_slots] needs of a request that hits no cache. *)
Definition blocks_needed (cfg : KVConfig) (s : Manager) (id : string) (tokens : Z) : Z :=
  Z.max (cdiv tokens (kv_block_size cfg) - Z.of_nat (length (table_of s id))) 0.

Lemma num_blocks_ok cfg s id tokens :
  get_num_blocks_to_allocate cfg id tokens [] s = (Ok (blocks_needed cfg s id tokens), s).
Proof.
  unfold get_num_blocks_to_allocate, blocks_needed, table_of. rewrite st_bind_eq. cbn [st_get].
  destruct (num_cached_block s !! id); [done|]. cbn [_get_num_evictable_blocks length].
  rewrite st_bind_eq, !st_ret_eq. do 2 f_equal. lia.
Qed.

(** A call without prefix hits and without tokens from a connector: what the
    scheduler makes when both are off. *)
Definition no_hits (a : SlotArgs) : Prop :=
  (new_computed_blocks a = None ∨ new_computed_blocks a = Some empty_kv_cache_blocks) ∧ num_external_computed_tokens a = 0%Z.

Definition slot_tokens (cfg : KVConfig) (request : Request) (num_new_tokens : Z) (a : SlotArgs) : Z :=
  Z.min (Z.min (num_computed_tokens request + num_new_computed_tokens a) (max_model_len cfg) + num_new_tokens + num_lookahead_tokens a)
    (max_model_len cfg).

(** The call is refused. *)
Definition slots_refused (cfg : KVConfig) (s : Manager) (request : Request) (num_new_tokens : Z) (a : SlotArgs) : bool :=
  let free := Pool.get_num_free_blocks (mg_pool s) in
  let watermark := if has_scheduled_reqs a && is_waiting (status request) then watermark_blocks cfg else 0%Z in
  let id := request_id request in
  (full_sequence_must_fit a && (free <? blocks_needed cfg s id (Z.min (num_tokens request) (max_model_len cfg)) + watermark)%Z)
  || (free - reserved_blocks a <? blocks_needed cfg s id (slot_tokens cfg request num_new_tokens a) + watermark)%Z.

Lemma allocate_slots_ok cfg n s request num_new_tokens a :
  kv_ok n s → num_new_tokens ≠ 0%Z → no_hits a → (0 ≤ watermark_blocks cfg)%Z → (0 ≤ reserved_blocks a)%Z →
  if slots_refused cfg s request num_new_tokens a
  then allocate_slots cfg request num_new_tokens a s = (Ok None, s)
  else ∃ bs s', allocate_slots cfg request num_new_tokens a s = (Ok (Some (create_kv_cache_blocks bs)), s')
    ∧ Z.of_nat (length bs) = blocks_needed cfg s (request_id request) (slot_tokens cfg request num_new_tokens a)
    ∧ req_to_blocks s' = <[request_id request := table_of s (request_id request) ++ bs]> (req_to_blocks s)
    ∧ new_block_ids s' = new_block_ids s ++ map number bs ∧ kv_ok n s'.
Proof.
  intros Hok Hnew [Hc He] Hw Hr. unfold allocate_slots, slots_refused, slot_tokens. rewrite He, !Z.add_0_r.
  rewrite (proj2 (Z.eqb_neq num_new_tokens 0)) by done. cbn [andb]. rewrite st_bind_eq. cbn [st_raise_if st_lift raise_if].
  assert (default empty_kv_cache_blocks (new_computed_blocks a) = empty_kv_cache_blocks) as -> by (by destruct Hc as [->| ->]).
  cbn [kv_blocks]. set (id := request_id request). set (free := Pool.get_num_free_blocks (mg_pool s)).
  set (wm := if has_scheduled_reqs a && is_waiting (status request) then watermark_blocks cfg else 0%Z).
  set (tokens := Z.min (_ + num_lookahead_tokens a) _).
  assert ((if full_sequence_must_fit a then
      n0 ← get_num_blocks_to_allocate cfg id (Z.min (num_tokens request) (max_model_len cfg)) [];
      free0 ← free_block_count; mret (negb (free0 <? n0 + wm)%Z)
    else mret true) s
    = (Ok (negb (full_sequence_must_fit a && (free <? blocks_needed cfg s id (Z.min (num_tokens request) (max_model_len cfg)) + wm)%Z)), s)) as E1.
  { destruct (full_sequence_must_fit a); [|done]. by rewrite st_bind_eq, num_blocks_ok. }
  rewrite st_bind_eq, E1, negb_involutive. clear E1. destruct (full_sequence_must_fit a && _); cbn [orb]; [done|].
  rewrite st_bind_eq, num_blocks_ok, st_bind_eq. unfold free_block_count. rewrite st_bind_eq. cbn [st_get]. rewrite st_ret_eq. fold free.
  destruct (free - reserved_blocks a <? blocks_needed cfg s id tokens + wm)%Z eqn:E2; [done|]. apply Z.ltb_ge in E2.
  rewrite st_bind_eq. cbn [Z.ltb Z.compare]. rewrite st_ret_eq.
  assert (0 ≤ wm)%Z by (unfold wm; destruct (_ && _); lia).
  destruct (allocate_new_blocks_ok cfg n s id tokens Hok) as (bs & s' & E & Hlen & Hreq & Hids & Hok' & _);
    [unfold blocks_needed in E2; fold free; lia|].
  rewrite st_bind_eq, E, st_bind_eq. cbn [st_get]. destruct Hok' as (Hp' & Hcache' & Hrest).
  rewrite Hcache'. cbn [negb orb]. exists bs, s'. done.
Qed.

Lemma free_request_ok n s id :
  kv_ok n s →
  ∃ s', free_request id s = (Ok tt, s') ∧ req_to_blocks s' = delete id (req_to_blocks s) ∧ new_block_ids s' = new_block_ids s ∧ kv_ok n s'.
Proof.
  intros ((D & l & Hp & Hr) & Hc & Hn & H0). pose proof (held_default (req_to_blocks s) id) as Eh. fold (table_of s id) in Eh.
  destruct (free_blocks_ok n D l (mg_pool s) _ (held_blocks (delete id (req_to_blocks s))) (reverse (table_of s id)) Hp Hr)
    as (p' & D' & wh & woh & E & Hp' & Hr' & [Hc' _] & _).
  { rewrite Eh. by rewrite reverse_Permutation. }
  eexists. unfold free_request. rewrite st_bind_eq. cbn [pop_blocks_for_free]. unfold on_pool. cbn [mg_pool].
  fold (table_of s id). rewrite E. split; [reflexivity|]. split; [done|]. split; [done|].
  rewrite Eh in Hn, H0. apply NoDup_app in Hn as (_ & _ & Hn). rewrite not_elem_of_app in H0.
  split; [by exists D', (woh ++ l ++ wh)|]. cbn. split; [congruence|]. split; [done|]. apply H0.
Qed.

Lemma get_block_ids_ok n s id :
  kv_ok n s → get_block_ids id s = (Ok (map number (table_of s id)), s).
Proof.
  intros Hok. unfold get_block_ids, get_blocks. rewrite st_bind_eq, st_bind_eq. cbn [st_get]. rewrite st_ret_eq.
  fold (table_of s id). assert (kv_blocks (create_kv_cache_blocks (table_of s id)) = table_of s id) as -> by (by destruct (table_of s id)).
  apply (ids_of_ok n (held_blocks (req_to_blocks s))); [apply Hok|]. intros r Hr.
  destruct (held_in_pool n s r Hok) as (i & -> & Hi); [|by exists i; split; [|lia]].
  apply held_elem. unfold table_of in Hr. destruct (req_to_blocks s !! id) as [t|] eqn:E; [|by apply not_elem_of_nil in Hr].
  by exists id, t.
Qed.

(** ** Runs of the manager *)

(** What the scheduler calls with prefix caching off. *)
Inductive kv_step (cfg : KVConfig) : Manager → Manager → Prop :=
  | step_allocate s request num_new_tokens a r s' :
      num_new_tokens ≠ 0%Z → no_hits a → (0 ≤ reserved_blocks a)%Z →
      allocate_slots cfg request num_new_tokens a s = (r, s') → kv_step cfg s s'
  | step_free_request s request r s' : free request s = (r, s') → kv_step cfg s s'
  | step_take_ids s r s' : take_new_block_ids s = (r, s') → kv_step cfg s s'.

Lemma kv_step_ok cfg n s s' : (0 ≤ watermark_blocks cfg)%Z → kv_step cfg s s' → kv_ok n s → kv_ok n s'.
Proof.
  intros Hw [s0 request k a r s1 Hk Ha Hr E|s0 request r s1 E|s0 r s1 E] Hok.
  - pose proof (allocate_slots_ok cfg n s0 request k a Hok Hk Ha Hw Hr) as H. rewrite E in H.
    destruct (slots_refused cfg s0 request k a); [by injection H as -> ->|].
    destruct H as (bs & s2 & H & _ & _ & _ & ?). by injection H as -> ->.
  - destruct (free_request_ok n s0 (request_id request) Hok) as (s2 & E2 & _ & _ & ?). unfold free in E.
    by assert (s1 = s2) as -> by congruence.
  - by injection E as <- <-.
Qed.

Lemma kv_reachable cfg n hbs s0 s :
  (0 < n)%nat → kv_init (Z.of_nat n) false hbs = Ok s0 → (0 ≤ watermark_blocks cfg)%Z → rtc (kv_step cfg) s0 s → kv_ok n s.
Proof.
  intros Hn Hi Hw Hrun. destruct (fresh_manager n hbs s0 Hn Hi) as [H0 _]. clear Hi.
  induction Hrun as [|s0 s1 s2 H01 _ IH]; [done|]. apply IH. by eapply kv_step_ok.
Qed.

(** The table of a request among the held blocks. *)
Lemma table_held s id r : r ∈ table_of s id → r ∈ held_blocks (req_to_blocks s).
Proof. rewrite held_default. rewrite elem_of_app. by left. Qed.

Lemma request_table_ok n s id :
  kv_ok n s → NoDup (table_of s id) ∧ Forall (λ r, ∃ i, r = Block i ∧ (0 < i < n)%nat) (table_of s id)
  ∧ get_block_ids id s = (Ok (map number (table_of s id)), s).
Proof.
  intros Hok. split; [|split; [|by eapply get_block_ids_ok]].
  - destruct Hok as (_ & _ & Hn & _). rewrite (held_default _ id) in Hn. by apply NoDup_app in Hn as [? _].
  - apply Forall_forall. intros r Hr%table_held. by eapply held_in_pool.
Qed.

Lemma tables_disjoint n s id id' : kv_ok n s → id ≠ id' → table_of s id ## table_of s id'.
Proof.
  intros (_ & _ & Hn & _) Hne r H1 H2. rewrite (held_default _ id) in Hn. apply NoDup_app in Hn as (_ & Hd & _).
  apply (Hd r H1). apply held_elem. exists id'. unfold table_of in H2. destruct (req_to_blocks s !! id') as [l|] eqn:E;
    [|by apply not_elem_of_nil in H2]. exists l. by rewrite lookup_delete_ne.
Qed.

(** C7: the tables of the requests.  After any run of the scheduler's calls on a
    manager without prefix caching: the table of a request names distinct blocks of
    the cache, never the null block, and no block of another request; a call for
    slots returns without an exception, is refused exactly when the free blocks, less
    the reserve, do not cover what is needed and the watermark (and then changes
    nothing), and otherwise puts exactly the missing blocks behind the table of its
    request and leaves the other tables alone; freeing a request returns its blocks
    and no other. *)
Theorem manager_tables_disjoint cfg n hbs s0 s :
  (0 < n)%nat → kv_init (Z.of_nat n) false hbs = Ok s0 → (0 ≤ watermark_blocks cfg)%Z → rtc (kv_step cfg) s0 s →
  (∀ id, NoDup (table_of s id) ∧ Forall (λ r, ∃ i, r = Block i ∧ (0 < i < n)%nat) (table_of s id)
         ∧ get_block_ids id s = (Ok (map number (table_of s id)), s))
  ∧ (∀ id id', id ≠ id' → table_of s id ## table_of s id')
  ∧ (∀ request k a, k ≠ 0%Z → no_hits a → (0 ≤ reserved_blocks a)%Z →
      if slots_refused cfg s request k a then allocate_slots cfg request k a s = (Ok None, s)
      else ∃ bs s', allocate_slots cfg request k a s = (Ok (Some (create_kv_cache_blocks bs)), s')
        ∧ Z.of_nat (length bs) = blocks_needed cfg s (request_id request) (slot_tokens cfg request k a)
        ∧ table_of s' (request_id request) = table_of s (request_id request) ++ bs
        ∧ ∀ id, id ≠ request_id request → table_of s' id = table_of s id)
  ∧ ∀ request, ∃ s', free request s = (Ok tt, s') ∧ table_of s' (request_id request) = []
      ∧ (∀ id, id ≠ request_id request → table_of s' id = table_of s id)
      ∧ Pool.get_num_free_blocks (mg_pool s')
        = (Pool.get_num_free_blocks (mg_pool s) + Z.of_nat (length (table_of s (request_id request))))%Z.
Proof.
  intros Hn Hi Hw Hrun. pose proof (kv_reachable cfg n hbs s0 s Hn Hi Hw Hrun) as Hok. split; [|split; [|split]].
  - intros id. by apply request_table_ok.
  - intros id id'. by apply (tables_disjoint n).
  - intros request k a Hk Ha Hr. pose proof (allocate_slots_ok cfg n s request k a Hok Hk Ha Hw Hr) as H.
    destruct (slots_refused cfg s request k a); [done|]. destruct H as (bs & s' & E & Hlen & Hreq & _ & _).
    exists bs, s'. split; [done|]. split; [done|]. unfold table_of at 1 3. rewrite Hreq.
    split; [by rewrite lookup_insert_eq|]. intros id Hne. by rewrite lookup_insert_ne.
  - intros request. destruct (free_request_ok n s (request_id request) Hok) as (s' & E & Hreq & _ & Hok').
    exists s'. split; [done|]. unfold table_of at 1 2. rewrite Hreq, lookup_delete_eq. split; [done|]. split.
    + intros id Hne. by rewrite lookup_delete_ne.
    + rewrite (free_count n s'), (free_count n s), Hreq by done. rewrite (held_default (req_to_blocks s) (request_id request)).
      rewrite length_app. fold (table_of s (request_id request)). lia.
Qed.

(** ** A concrete run *)

(** Five blocks of 32 tokens; a prompt of 36 tokens, then one of two. *)
Definition demo_config : KVConfig := mkKVConfig 32 4096 0 false.
Definition demo_request (id : string) (tokens computed : Z) : Request := mkRequest id tokens computed WAITING [] false.
Definition demo_manager : Manager :=
  match kv_init 5 false 32 with Ok s => s | Err _ => mkManager (mkPool (mkQueue ∅ 0) [] 0 false 32 ∅ ∅ FakeHead) ∅ ∅ [] end.
Definition demo_manager_1 : Manager := (allocate_slots demo_config (demo_request "a" 36 0) 36 default_args demo_manager).2.
Definition demo_manager_2 : Manager := (allocate_slots demo_config (demo_request "b" 2 0) 2 default_args demo_manager_1).2.

Lemma demo_args : no_hits default_args.
Proof. split; [by left|done]. Qed.

Lemma demo_manager_run : rtc (kv_step demo_config) demo_manager demo_manager_2.
Proof.
  apply (rtc_l _ _ demo_manager_1); [|apply (rtc_l _ _ demo_manager_2); [|apply rtc_refl]];
    by eapply step_allocate; [|apply demo_args| |apply surjective_pairing].
Qed.

(** C7: the tables of the two requests, a call that is refused, and a release. *)
Lemma manager_tables_disjoint_witness :
  table_of demo_manager_2 "a" ## table_of demo_manager_2 "b"
  ∧ get_block_ids "a" demo_manager_2 = (Ok [1; 2]%Z, demo_manager_2)
  ∧ allocate_slots demo_config (demo_request "b" 72 2) 70 default_args demo_manager_2 = (Ok None, demo_manager_2)
  ∧ ∃ s', free (demo_request "a" 36 36) demo_manager_2 = (Ok tt, s') ∧ Pool.get_num_free_blocks (mg_pool s') = 3%Z.
Proof.
  destruct (manager_tables_disjoint demo_config 5 32 demo_manager demo_manager_2) as (H1 & H2 & H3 & H4);
    [lia|reflexivity|done|apply demo_manager_run|].
  split; [by apply H2|]. split; [destruct (H1 "a") as (_ & _ & ->); by vm_compute|]. split.
  - exact (H3 (demo_request "b" 72 2) 70%Z default_args ltac:(done) demo_args ltac:(done)).
  - destruct (H4 (demo_request "a" 36 36)) as (s' & E & _ & _ & Hc). exists s'. split; [exact E|]. rewrite Hc. by vm_compute.
Defined.
