(* ===== verification/ManagedEngine.v ===== *)
(** * The worker under the KV cache manager

    [Engine] serves every run whose block tables keep the pages written and share
    none.  Here the tables come from the manager of [KVManager]: in every step the
    scheduler frees the requests that finished or were preempted, gets slots for the
    ones it schedules, and the rows of the worker start with their block numbers.  The
    conditions on the tables then hold by themselves; those on the counts, the tensors and
    the chunks remain ([run_fit]; [EngineFit] derives the counts and [SchedulerFair] the
    chunks of the usual configuration). *)

From Stdlib Require Import ZArith Lia.
From stdpp Require Import gmap strings pretty base tactics numbers list option.
From S2P Require Import Prelude Layout Torch SpecFloatTorch BitPack Meta Quant Tab Triton Decoded Page Sidecar Tail OnlineRef Runtime.
From S2P Require Import FixedTorch Bulk ChunkPlan FastAppend Attention PageAttention TailAttention TailPrep DecodeAttention.
From S2P Require Import DecodeState TileSchedule TileKernels Lifecycle Forward ForwardFrame TileState ForwardStream ForwardState.
From S2P Require Import Engine FreeQueue BlockPool PoolState KVManager KVTables.

(** ** The calls of a scheduling step *)

Inductive SchedCall :=
  | CallSlots (request : Request) (num_new_tokens : Z) (a : SlotArgs)
  | CallFree (request : Request).

(** The calls of a step, in order, with the slots each request was granted. *)
Fixpoint sched_calls (cfg : KVConfig) (calls : list SchedCall) (s : Manager) (granted : gmap string Z) : Manager * gmap string Z :=
  match calls with
  | [] => (s, granted)
  | CallSlots request k a :: calls =>
      match allocate_slots cfg request k a s with
      | (Ok (Some _), s') => sched_calls cfg calls s' (<[request_id request := slot_tokens cfg request k a]> granted)
      | (_, s') => sched_calls cfg calls s' granted
      end
  | CallFree request :: calls => sched_calls cfg calls (free request s).2 (delete (request_id request) granted)
  end.

Definition call_valid (c : SchedCall) : Prop :=
  match c with
  | CallSlots request k a => k ≠ 0%Z ∧ no_hits a ∧ (0 ≤ reserved_blocks a)%Z
  | CallFree request => True
  end.

Definition freed (calls : list SchedCall) (id : string) : Prop :=
  Exists (λ c, match c with CallFree request => request_id request = id | _ => False end) calls.

(** The row of block numbers of a request. *)
Definition row (t : list Ref) : list nat := map (λ r, Z.to_nat (number r)) t.

(** Blocks stay behind the table they were granted to until it is freed. *)
Lemma sched_calls_ok cfg n calls s granted :
  (0 ≤ watermark_blocks cfg)%Z → kv_ok n s → Forall call_valid calls →
  (∀ id tokens, granted !! id = Some tokens → (cdiv tokens (kv_block_size cfg) ≤ Z.of_nat (length (table_of s id)))%Z) →
  kv_ok n (sched_calls cfg calls s granted).1
  ∧ (∀ id, ¬ freed calls id → table_of s id `prefix_of` table_of (sched_calls cfg calls s granted).1 id)
  ∧ ∀ id tokens, (sched_calls cfg calls s granted).2 !! id = Some tokens →
      (cdiv tokens (kv_block_size cfg) ≤ Z.of_nat (length (table_of (sched_calls cfg calls s granted).1 id)))%Z.
Proof.
  intros Hw. revert s granted. induction calls as [|c calls IH]; intros s granted Hok Hv Hg.
  { split; [done|]. by split. }
  apply List.Forall_cons_iff in Hv as [Hc Hv]. destruct c as [request k a|request]; cbn [sched_calls].
  - destruct Hc as (Hk & Ha & Hr). pose proof (allocate_slots_ok cfg n s request k a Hok Hk Ha Hw Hr) as H.
    assert (∀ id, ¬ freed (CallSlots request k a :: calls) id ↔ ¬ freed calls id) as Hf
      by (intros id; unfold freed; rewrite Exists_cons; tauto).
    destruct (slots_refused cfg s request k a).
    + rewrite H. destruct (IH s granted Hok Hv Hg) as (I1 & I2 & I3). split; [done|]. split; [|done].
      intros id Hn. by apply I2, Hf.
    + destruct H as (bs & s' & E & Hlen & Hreq & _ & Hok'). rewrite E. set (id0 := request_id request) in *.
      assert (∀ id, table_of s' id = if decide (id = id0) then table_of s id0 ++ bs else table_of s id) as Ht.
      { intros id. unfold table_of at 1. rewrite Hreq. destruct (decide (id = id0)) as [->|Hne];
          [by rewrite lookup_insert_eq|by rewrite lookup_insert_ne]. }
      destruct (IH s' (<[id0 := slot_tokens cfg request k a]> granted) Hok' Hv) as (I1 & I2 & I3).
      { intros id tokens. rewrite lookup_insert, Ht. destruct (decide (id0 = id)) as [<-|Hne].
        - intros [= <-]. rewrite decide_True, length_app by done. unfold blocks_needed in Hlen. lia.
        - rewrite decide_False by done. apply Hg. }
      split; [done|]. split; [|done]. intros id Hn. transitivity (table_of s' id); [|by apply I2, Hf].
      rewrite Ht. case_decide as Eid; [|done]. subst id. by apply prefix_app_r.
  - unfold free. destruct (free_request_ok n s (request_id request) Hok) as (s' & E & Hreq & _ & Hok'). rewrite E. cbn [snd].
    destruct (IH s' (delete (request_id request) granted) Hok' Hv) as (I1 & I2 & I3).
    { intros id tokens H. rewrite lookup_delete in H. case_decide; [done|]. unfold table_of. rewrite Hreq, lookup_delete_ne by done. by apply Hg. }
    split; [done|]. split; [|done]. intros id Hn.
    assert (id ≠ request_id request ∧ ¬ freed calls id) as [Hne Hn'].
    { split; [intros ->; apply Hn; by constructor|]. intros H. apply Hn. by constructor 2. }
    transitivity (table_of s' id); [|by apply I2]. unfold table_of. by rewrite Hreq, lookup_delete_ne.
Qed.

(** Rows of distinct blocks. *)
Lemma row_elem (t : list Ref) m i : Forall (λ r, ∃ i, r = Block i ∧ (0 < i < m)%nat) t → i ∈ row t ↔ Block i ∈ t.
Proof.
  intros Ht. unfold row. rewrite list_elem_of_In, in_map_iff. split.
  - intros (r & <- & Hr). rewrite List.Forall_forall in Ht. destruct (Ht r Hr) as (j & -> & _). cbn [number].
    rewrite Nat2Z.id. by apply list_elem_of_In.
  - intros Hi. exists (Block i). cbn [number]. rewrite Nat2Z.id. split; [done|]. by apply list_elem_of_In.
Qed.

Lemma row_nodup (t : list Ref) m : Forall (λ r, ∃ i, r = Block i ∧ (0 < i < m)%nat) t → NoDup t → NoDup (row t).
Proof.
  intros Ht Hn. unfold row. induction Hn as [|r t Hr Hn IH]; [constructor|].
  apply List.Forall_cons_iff in Ht as [(i & -> & Hi) Ht]. cbn [map]. constructor; [|by apply IH].
  cbn [number]. rewrite Nat2Z.id. fold (row t). by rewrite row_elem.
Qed.

Lemma row_prefix t1 t2 : t1 `prefix_of` t2 → row t1 `prefix_of` row t2.
Proof. intros [k ->]. exists (row k). unfold row. by rewrite map_app. Qed.

Lemma cdiv_le a b : (0 < b)%Z → (a ≤ b * cdiv a b)%Z.
Proof.
  intros Hb. unfold cdiv. pose proof (Z.div_mod a (- b)) as H. pose proof (Z.mod_neg_bound a (- b)). lia.
Qed.

(** The slots of a request cover its closed pages. *)
Lemma closed_covered tokens m k :
  (cdiv tokens 32 ≤ Z.of_nat k)%Z → (Z.of_nat m ≤ tokens)%Z → (closed_count m ≤ k)%nat.
Proof.
  intros Hc Hm. pose proof (cdiv_le tokens 32). unfold closed_count, GROUP, old_count.
  apply Nat.Div0.div_le_upper_bound. lia.
Qed.

Lemma zip_rows_lookup (P : string → list nat → Prop) (ids : list string) (tables : list (list nat)) id :
  Forall2 P ids tables →
  match (list_to_map (zip ids tables) : gmap string (list nat)) !! id with Some t => id ∈ ids ∧ P id t | None => id ∉ ids end.
Proof.
  intros H. induction H as [|a t ids tables Ha H IH]; [apply not_elem_of_nil|].
  cbn [zip zip_with list_to_map foldr]. cbn. rewrite lookup_insert. destruct (decide (a = id)) as [->|Hne]; [by split; [left|]|].
  match goal with |- match ?m with _ => _ end => change m with ((list_to_map (zip ids tables) : gmap string (list nat)) !! id) end.
  destruct ((list_to_map (zip ids tables) : gmap string (list nat)) !! id) as [t'|].
  - destruct IH. split; [by right|done].
  - rewrite not_elem_of_cons. by split; [intros ->|].
Qed.

Lemma take_elem a b (t : list nat) x : (a ≤ b)%nat → x ∈ take a t → x ∈ take b t.
Proof. intros H Hx. replace (take a t) with (take a (take b t)) in Hx by (rewrite take_take; f_equal; lia). by eapply subseteq_take. Qed.

Section Managed.
Context `{TF : TorchFloat} {TR : TritonFloat} {TE : TorchEmpty} {TA : TritonReduce}.
Context {TFL : TorchFloatLaws TF} {TL : TritonLaws TR} {TZ : TritonZero}.
Context {B : Type} {FT : FloatType B}.
Context {EN : Environ}.
Variables (h g NQ : nat).
Let d := (g * 32)%nat.
Hypotheses (Hgeo : runtime_geometry h d) (HQ : (0 < NQ)%nat ∧ (h | NQ)%nat).
Variable context_attention_fwd : list (list B) → dev_tensor → dev_tensor → f32 → list (list B).
Hypothesis (Henv : environ_ok).
Variables (impls : list AttnImpl) (caches : list PageCache).
Variables (cfg : KVConfig) (n : nat).

(** ** What is left to ask of a step *)

(** A scheduled request: its counts are those of its stream, its tokens are in the
    tensors of the step, and they are ordinary numbers. *)
Definition item_fit (KEY VAL : tokens) (p : nat) (streams : gmap string (tokens * tokens)) (item : BatchItem) : Prop :=
  let '(id, q_len, context_len) := item in
  let m := Z.to_nat q_len in
  (0 < q_len)%Z ∧ (0 ≤ context_len)%Z
  ∧ length (stream_of streams id).1 = Z.to_nat context_len ∧ ((0 < context_len)%Z → is_Some (streams !! id))
  ∧ (p + m ≤ length KEY)%nat
  ∧ values_regular h g ((stream_of streams id).2 ++ slice p (p + m) VAL)
  ∧ ∀ j, (j ≤ m)%nat → open_ok h g ((stream_of streams id).1 ++ take j (slice p (p + m) KEY))
                          ((stream_of streams id).2 ++ take j (slice p (p + m) VAL)).

Fixpoint batch_fit (KEY VAL : tokens) (p : nat) (streams : gmap string (tokens * tokens)) (batch : list BatchItem) : Prop :=
  match batch with
  | [] => True
  | item :: batch =>
      item_fit KEY VAL p streams item ∧ (item.1.1 ∉ batch_ids batch)
      ∧ batch_fit KEY VAL (p + Z.to_nat item.1.2) (grow KEY VAL p item streams) batch
  end.

(** [call_ok] without its conditions on the tables. *)
Definition call_fit (sd : Sched) (st : EngineStep (B := B)) (l : nat) (impl : AttnImpl) (call : LayerCall (B := B)) : Prop :=
  let x := call.1 in
  let K := call_keys call in
  let V := call_values call in
  forward_guards impl x = Ok tt
  ∧ (input_ok h g (si_key x) K ∧ input_ok h g (si_value x) V ∧ length K = length V)
  ∧ (si_q_cuda x = true ∧ si_q_heads x = NQ ∧ si_q_dim x = d)
  ∧ ((length K ≤ length (si_query x))%nat ∧ Forall (λ r, length r = (NQ * d)%nat) (si_query x))
  ∧ length (si_query_start_loc x) = (length (es_batch st) + 1)%nat
  ∧ query_total (es_batch st) = si_num_actual_tokens x
  ∧ (si_num_actual_tokens x ≤ Z.of_nat (length call.2))%Z
  ∧ si_block_table x = es_block_table st
  ∧ batch_fit K V 0 (live st (sd_streams sd l)) (es_batch st).

(** [step_ok] without its conditions on the tables. *)
Definition step_fit (sd : Sched) (st : EngineStep (B := B)) : Prop :=
  counted (es_scheduled st) (es_computed st) (es_ids st)
  ∧ Forall (λ id, is_profile_key id = false) (es_ids st)
  ∧ length (es_calls st) = length impls
  ∧ Forall (λ it : BatchItem, (1 < it.1.2)%Z → (0 < it.2)%Z → it.1.1 ∉ sd_decoded sd) (es_batch st)
  ∧ (es_ids st ≠ [] → ∀ l impl call, impls !! l = Some impl → es_calls st !! l = Some call → call_fit sd st l impl call).

Fixpoint run_fit (sd : Sched) (steps : list (EngineStep (B := B))) : Prop :=
  match steps with
  | [] => True
  | st :: steps => step_fit sd st ∧ run_fit (sched_step sd st) steps
  end.

(** The step the scheduler makes of its calls: it frees finished and preempted
    requests only, every scheduled request was granted the slots of its tokens, and
    the rows of the worker start with those of the manager. *)
Definition managed_step (s : Manager) (st : EngineStep (B := B)) (s' : Manager) : Prop :=
  ∃ calls granted, Forall call_valid calls ∧ sched_calls cfg calls s ∅ = (s', granted)
  ∧ (∀ id, freed calls id → id ∈ es_finished st ∨ id ∈ es_preempted st)
  ∧ Forall (λ it : BatchItem, ∃ tokens, granted !! it.1.1 = Some tokens ∧ (it.2 + it.1.2 ≤ tokens)%Z) (es_batch st)
  ∧ Forall2 (λ id t, row (table_of s' id) `prefix_of` t) (es_ids st) (es_block_table st).

Fixpoint managed_run (s : Manager) (steps : list (EngineStep (B := B))) (s' : Manager) : Prop :=
  match steps with
  | [] => s' = s
  | st :: steps => ∃ s1, managed_step s st s1 ∧ managed_run s1 steps s'
  end.

(** The worker's tables cover the closed pages, with blocks of the manager's. *)
Definition synced (sd : Sched) (s : Manager) : Prop :=
  ∀ l id kx vx, (l < length caches)%nat → sd_streams sd l !! id = Some (kx, vx) →
    take (closed_count (length kx)) (sd_tables sd id) `prefix_of` row (table_of s id)
    ∧ (closed_count (length kx) ≤ length (sd_tables sd id))%nat.

(** ** The tables follow *)

(** A batch whose tables are distinct, up to the blocks its requests may need, is one
    the layer accepts. *)
Lemma batch_fit_ok tables (cover : string → nat) (x : StepInput (B := B)) KEY VAL c (P : string → Prop) batch i p streams :
  (∀ id id', P id → P id' → id ≠ id' → take (cover id) (tables id) ## take (cover id') (tables id')) →
  (∀ id kx vx, streams !! id = Some (kx, vx) → P id ∧ (closed_count (length kx) ≤ cover id)%nat) →
  (∀ k it, batch !! k = Some it → P it.1.1 ∧ si_block_table x !! (i + k)%nat = Some (tables it.1.1)
     ∧ table_ok h d (Z.to_nat it.2 + Z.to_nat it.1.2) (tables it.1.1) c
     ∧ (closed_count (Z.to_nat it.2 + Z.to_nat it.1.2) ≤ cover it.1.1)%nat) →
  batch_fit KEY VAL p streams batch → batch_ok h g tables x KEY VAL i p streams c batch.
Proof.
  intros Hdis. revert i p streams. induction batch as [|[[id q] ctx] batch IH]; intros i p streams Hs Hb Hfit; [done|].
  destruct Hfit as ((Hq & Hctx & Hlen & Hsome & Hp & Hv & Ho) & Hnot & Hfit).
  destruct (Hb 0%nat (id, q, ctx)) as (HP & Hx & Ht & Hc); [done|]. rewrite Nat.add_0_r in Hx. cbn [fst snd] in *.
  split; [|split; [done|]].
  - split; [done|]. split; [done|]. split; [done|]. split; [done|]. split; [done|]. split; [done|]. split; [|done].
    intros id' kx' vx' Hne Hid' b Hb1 Hb2. unfold owned in Hb1, Hb2. destruct (Hs id' kx' vx' Hid') as [HP' Hc'].
    apply (Hdis id id') with b; [done|done|done|by eapply take_elem|by eapply take_elem].
  - apply IH; [| |exact Hfit].
    + intros id' kx' vx' Hid'. unfold grow in Hid'. rewrite lookup_insert in Hid'. case_decide as E; [|by eapply Hs].
      subst id'. injection Hid' as <- _. split; [done|]. by rewrite length_app, Hlen, slice_length, Nat.min_l, Nat.add_sub_swap, Nat.sub_diag by lia.
    + intros k it Hk. destruct (Hb (S k) it Hk) as (? & Hx' & ?). split; [done|]. split; [|done].
      by rewrite <-Nat.add_succ_comm in Hx'.
Qed.

Hypotheses (Hblock : kv_block_size cfg = 32%Z) (Hwm : (0 ≤ watermark_blocks cfg)%Z).
Hypothesis Hcaches : Forall (λ c, pc_width c = page_bytes (layout_of GROUP h d d) ∧ length (pc_pages c) = n) caches.

Lemma live_some (st : EngineStep (B := B)) streams id :
  is_Some (live st streams !! id) → is_Some (streams !! id) ∧ (id ∉ es_finished st) ∧ (id ∉ es_preempted st).
Proof. intros [s H]. apply live_lookup in H as (H & ? & ?). split; [by eexists|done]. Qed.

(** The tables of a managed step: rows that start with the manager's for the scheduled
    requests, the old ones for the rest. *)
Lemma managed_tables sd (st : EngineStep (B := B)) s s' :
  kv_ok n s → managed_step s st s' →
  kv_ok n s'
  ∧ (∀ id, if decide (id ∈ es_ids st) then row (table_of s' id) `prefix_of` step_tables st sd id else step_tables st sd id = sd_tables sd id)
  ∧ (∀ id, id ∉ es_finished st → id ∉ es_preempted st → table_of s id `prefix_of` table_of s' id)
  ∧ ∀ it, it ∈ es_batch st → (0 ≤ it.2)%Z → (0 ≤ it.1.2)%Z →
      (closed_count (Z.to_nat it.2 + Z.to_nat it.1.2) ≤ length (table_of s' it.1.1))%nat.
Proof.
  intros Hok (calls & granted & Hv & E & Hfr & Hgr & Hrows).
  destruct (sched_calls_ok cfg n calls s ∅ Hwm Hok Hv) as (H1 & H2 & H3); [by intros id tokens; rewrite lookup_empty|].
  rewrite E in H1, H2, H3. cbn [fst snd] in *. split; [done|]. split; [|split].
  - intros id. unfold step_tables. pose proof (zip_rows_lookup _ _ _ id Hrows) as Hz.
    destruct (_ !! id) as [t|]; [destruct Hz as [Hin Ht]; by rewrite decide_True|by rewrite decide_False].
  - intros id Hf Hp. apply H2. intros H. by destruct (Hfr id H).
  - intros it Hit Hc Hq. rewrite List.Forall_forall in Hgr. destruct (Hgr it) as (tokens & Htok & Hle); [by apply list_elem_of_In|].
    apply (closed_covered tokens); [rewrite <-Hblock; by apply H3|lia].
Qed.

(** The blocks a request may need: those of its row, or those of its closed pages. *)
Definition cover (st : EngineStep (B := B)) (s' : Manager) (streams : gmap string (tokens * tokens)) (id : string) : nat :=
  if decide (id ∈ es_ids st) then length (table_of s' id) else closed_count (length (stream_of streams id).1).

Lemma stream_of_some (streams : gmap string (tokens * tokens)) id s : streams !! id = Some s → stream_of streams id = s.
Proof. intros H. unfold stream_of. by setoid_rewrite H. Qed.

(** The blocks of a stream's pages lie in the manager's table. *)
Lemma synced_covers sd (st : EngineStep (B := B)) s s' l id kx vx :
  synced sd s → (l < length caches)%nat → (∀ id, id ∉ es_finished st → id ∉ es_preempted st → table_of s id `prefix_of` table_of s' id) →
  live st (sd_streams sd l) !! id = Some (kx, vx) →
  take (closed_count (length kx)) (sd_tables sd id) `prefix_of` row (table_of s' id) ∧ (closed_count (length kx) ≤ length (table_of s' id))%nat.
Proof.
  intros Hsy Hl Hpre Hid. apply live_lookup in Hid as (Hs & Hf & Hp). destruct (Hsy l id kx vx Hl Hs) as [H1 H2].
  assert (take (closed_count (length kx)) (sd_tables sd id) `prefix_of` row (table_of s' id)) as H
    by (transitivity (row (table_of s id)); [done|by apply row_prefix, Hpre]).
  split; [done|]. apply prefix_length in H. unfold row in H. rewrite length_map, length_take_le in H; done.
Qed.

(** Every live or scheduled request has blocks of the manager's there. *)
Lemma step_table_front sd (st : EngineStep (B := B)) s s' l id :
  synced sd s → kv_ok n s → managed_step s st s' → (l < length caches)%nat →
  id ∈ es_ids st ∨ is_Some (live st (sd_streams sd l) !! id) →
  take (cover st s' (live st (sd_streams sd l)) id) (step_tables st sd id) `prefix_of` row (table_of s' id).
Proof.
  intros Hsy Hok Hm Hl Hid. destruct (managed_tables sd st s s' Hok Hm) as (_ & Ht & Hpre & _). specialize (Ht id). unfold cover.
  case_decide as Hin.
  - destruct Ht as [k ->]. rewrite take_app_le, take_ge by (unfold row; by rewrite length_map). done.
  - rewrite Ht. destruct Hid as [?|[[kx vx] Hid]]; [done|]. rewrite (stream_of_some _ _ _ Hid). by eapply synced_covers.
Qed.

Lemma front_elem t t' b : t `prefix_of` t' → b ∈ t → (b : nat) ∈ t'.
Proof. intros [k ->] H. apply elem_of_app. by left. Qed.

(** The batch lists the requests of the step. *)
Lemma batch_lookup (st : EngineStep (B := B)) k it : es_batch st !! k = Some it → es_ids st !! k = Some it.1.1.
Proof.
  unfold es_batch, counted_batch. intros H. rewrite lookup_map in H. destruct (es_ids st !! k); [by injection H as <-|done].
Qed.

(** The streams of the batch have their new length. *)
Lemma grow_all_length KEY VAL p streams batch it :
  batch_fit KEY VAL p streams batch → it ∈ batch →
  length (stream_of (grow_all KEY VAL p batch streams) it.1.1).1 = (Z.to_nat it.2 + Z.to_nat it.1.2)%nat
  ∧ (0 ≤ it.2)%Z ∧ (0 ≤ it.1.2)%Z.
Proof.
  revert p streams. induction batch as [|[[id q] ctx] batch IH]; intros p streams Hfit Hit; [by apply not_elem_of_nil in Hit|].
  destruct Hfit as ((Hq & Hctx & Hlen & _ & Hp & _) & Hnot & Hfit). apply elem_of_cons in Hit as [->|Hit]; [|by apply IH].
  cbn [fst snd grow_all] in *. split; [|lia]. unfold stream_of at 1. setoid_rewrite grow_all_other; [|done]. cbn [grow].
  rewrite lookup_insert_eq. cbn [from_option fst]. unfold Datatypes.id. cbn [fst]. rewrite length_app, Hlen, slice_length; lia.
Qed.
Lemma batch_fit_nodup KEY VAL p streams batch : batch_fit KEY VAL p streams batch → NoDup (batch_ids batch).
Proof.
  revert p streams. induction batch as [|it batch IH]; intros p streams Hfit; [constructor|]. destruct Hfit as (_ & Hnot & Hfit).
  constructor; [done|by eapply IH].
Qed.

Lemma batch_ids_es (st : EngineStep (B := B)) : batch_ids (es_batch st) = es_ids st.
Proof. unfold batch_ids, es_batch, counted_batch. rewrite List.map_map. apply List.map_id. Qed.

(** The table of a scheduled request is its row, which holds its pages. *)
Lemma step_row sd (st : EngineStep (B := B)) k id t :
  NoDup (es_ids st) → (length (es_ids st) ≤ length (es_block_table st))%nat →
  es_ids st !! k = Some id → es_block_table st !! k = Some t → step_tables st sd id = t.
Proof.
  intros Hnd Hlen Hid Ht. unfold step_tables. rewrite (elem_of_list_to_map_1 (zip (es_ids st) (es_block_table st)) id t); [done| |].
  - by rewrite fst_zip.
  - apply list_elem_of_lookup. exists k. apply lookup_zip_with_Some. by exists id, t.
Qed.

Lemma scheduled_table sd (st : EngineStep (B := B)) s s' l (call : LayerCall (B := B)) c0 k it :
  kv_ok n s → managed_step s st s' → pc_width c0 = page_bytes (layout_of GROUP h d d) → length (pc_pages c0) = n →
  si_block_table call.1 = es_block_table st → batch_fit (call_keys call) (call_values call) 0 (live st (sd_streams sd l)) (es_batch st) →
  es_batch st !! k = Some it →
  (it.1.1 ∈ es_ids st ∨ is_Some (live st (sd_streams sd l) !! it.1.1))
  ∧ si_block_table call.1 !! k = Some (step_tables st sd it.1.1)
  ∧ table_ok h d (Z.to_nat it.2 + Z.to_nat it.1.2) (step_tables st sd it.1.1) c0
  ∧ (closed_count (Z.to_nat it.2 + Z.to_nat it.1.2) ≤ cover st s' (live st (sd_streams sd l)) it.1.1)%nat.
Proof.
  intros Hok Hm Hwid Hpages Hx Hfit Hk. pose proof (batch_lookup st k it Hk) as Hid.
  destruct (managed_tables sd st s s' Hok Hm) as (Hok' & Ht & _ & Hcov). specialize (Ht it.1.1).
  assert (it.1.1 ∈ es_ids st) as Hin by (by eapply list_elem_of_lookup_2). rewrite decide_True in Ht by done.
  pose proof (grow_all_length _ _ _ _ _ it Hfit ltac:(by eapply list_elem_of_lookup_2)) as (_ & H1 & H2).
  assert (closed_count (Z.to_nat it.2 + Z.to_nat it.1.2) ≤ length (row (table_of s' it.1.1)))%nat as Hc.
  { unfold row. rewrite length_map. apply Hcov; [|done|done]. by eapply list_elem_of_lookup_2. }
  split; [by left|]. split; [|split].
  - destruct Hm as (calls & granted & _ & _ & _ & _ & Hrows). destruct (Forall2_lookup_l _ _ _ _ _ Hrows Hid) as (t & Et & _).
    rewrite Hx, Et. f_equal. symmetry. apply (step_row sd st k); [|by rewrite (Forall2_length Hrows)|done|done].
    rewrite <-batch_ids_es. by eapply batch_fit_nodup.
  - destruct (request_table_ok n s' it.1.1 Hok') as (Hnd & Hall & _). destruct Ht as [t ->].
    unfold table_ok. rewrite take_app_le by done. split; [|split; [|split; [|done]]].
    + apply (sublist_NoDup _ (row (table_of s' it.1.1))); [by apply (row_nodup _ n)|apply sublist_take].
    + rewrite length_app. lia.
    + apply List.Forall_forall. intros b Hb%list_elem_of_In. apply subseteq_take in Hb. rewrite (row_elem _ n) in Hb by done.
      rewrite List.Forall_forall in Hall. destruct (Hall (Block b)) as (j & [= ->] & Hj); [by apply list_elem_of_In|]. lia.
  - unfold cover. rewrite decide_True by done. unfold row in Hc. by rewrite length_map in Hc.
Qed.

Lemma managed_step_ok sd (st : EngineStep (B := B)) s s' :
  synced sd s → kv_ok n s → managed_step s st s' → length impls = length caches →
  step_fit sd st → step_ok h g NQ impls caches sd st.
Proof.
  intros Hsy Hok Hm Hlen (Hcount & Hprof & Hcalls & Hchunk & Hfit).
  pose proof (managed_tables sd st s s' Hok Hm) as (Hok' & Ht & Hpre & Hcov).
  pose proof Hm as (calls & granted & _ & _ & _ & _ & Hrows).
  split; [done|]. split; [done|]. split; [done|]. split; [|split; [done|]].
  - intros l id kx vx Hl Hid. destruct (synced_covers sd st s s' l id kx vx Hsy Hl Hpre Hid) as [H1 H2].
    specialize (Ht id). unfold owned. case_decide; [|by rewrite Ht]. destruct Ht as [k ->].
    rewrite take_app_le by (unfold row; by rewrite length_map). destruct H1 as [k' ->]. apply live_lookup in Hid as (Hs & _).
    rewrite take_app_le by (rewrite length_take_le; [done|by apply (Hsy l id kx vx Hl Hs)]). by rewrite take_take, Nat.min_id.
  - intros Hne l impl call Hi Hc. destruct (Hfit Hne l impl call Hi Hc) as (F1 & F2 & F3 & F4 & F5 & F6 & F7 & F8 & F9).
    do 7 (split; [done|]).
    assert (l < length caches)%nat as Hl by (rewrite <-Hlen; by eapply lookup_lt_Some).
    destruct (lookup_lt_is_Some_2 caches l Hl) as [c0 Hc0]. exists c0. split; [done|].
    rewrite Forall_lookup in Hcaches. destruct (Hcaches l c0 Hc0) as [Hwid Hpages].
    apply (batch_fit_ok _ (cover st s' (live st (sd_streams sd l))) _ _ _ _ (λ id, id ∈ es_ids st ∨ is_Some (live st (sd_streams sd l) !! id)));
      [| | |done].
    + intros id id' H1 H2 Hne' b Hb1 Hb2.
      pose proof (step_table_front sd st s s' l id Hsy Hok Hm Hl H1) as P1.
      pose proof (step_table_front sd st s s' l id' Hsy Hok Hm Hl H2) as P2.
      apply (front_elem _ _ _ P1) in Hb1. apply (front_elem _ _ _ P2) in Hb2.
      destruct (request_table_ok n s' id Hok') as (_ & T1 & _). destruct (request_table_ok n s' id' Hok') as (_ & T2 & _).
      apply (row_elem _ n) in Hb1; [|done]. apply (row_elem _ n) in Hb2; [|done]. by apply (tables_disjoint n s' id id' Hok' Hne' (Block b)).
    + intros id kx vx Hid. split; [right; by eexists|]. unfold cover. case_decide; [|by rewrite (stream_of_some _ _ _ Hid)].
      by eapply synced_covers.
    + intros k it Hk. by apply (scheduled_table sd st s s' l call c0 k it).
Qed.

(** A stream after a managed step: the old one of a live request, or a new one of a
    scheduled request. *)
Lemma step_streams_cases sd (st : EngineStep (B := B)) l id kx vx :
  length impls = length caches → (l < length caches)%nat → step_fit sd st → step_streams st sd l !! id = Some (kx, vx) →
  if decide (id ∈ es_ids st) then ∃ it, it ∈ es_batch st ∧ it.1.1 = id ∧ length kx = (Z.to_nat it.2 + Z.to_nat it.1.2)%nat
                                   ∧ (0 ≤ it.2)%Z ∧ (0 ≤ it.1.2)%Z
  else live st (sd_streams sd l) !! id = Some (kx, vx).
Proof.
  intros Hlen Hl (_ & _ & Hcalls & _ & Hfit) Hid.
  assert (∃ call, es_calls st !! l = Some call) as [call Hcall] by (apply lookup_lt_is_Some; lia).
  assert (∃ impl, impls !! l = Some impl) as [impl Himpl] by (apply lookup_lt_is_Some; lia).
  unfold step_streams in Hid. rewrite Hcall in Hid. case_decide as Hin.
  - destruct (Hfit ltac:(intros E; rewrite E in Hin; by apply not_elem_of_nil in Hin) l impl call Himpl Hcall)
      as (_ & _ & _ & _ & _ & _ & _ & _ & Hf).
    rewrite <-batch_ids_es in Hin. apply list_elem_of_In, in_map_iff in Hin as (it & <- & Hit%list_elem_of_In).
    destruct (grow_all_length _ _ _ _ _ it Hf Hit) as (Hk & ? & ?). exists it.
    do 2 (split; [done|]). split; [|done]. rewrite <-Hk. unfold stream_of. by setoid_rewrite Hid.
  - refine (eq_trans (eq_sym (grow_all_other _ _ _ _ _ id _)) Hid). by rewrite batch_ids_es.
Qed.

Lemma managed_synced sd (st : EngineStep (B := B)) s s' :
  synced sd s → kv_ok n s → managed_step s st s' → length impls = length caches → step_fit sd st →
  synced (sched_step sd st) s'.
Proof.
  intros Hsy Hok Hm Hlen Hfit l id kx vx Hl Hid. cbn [sched_step sd_streams sd_tables] in *.
  destruct (managed_tables sd st s s' Hok Hm) as (_ & Ht & Hpre & Hcov).
  pose proof (step_streams_cases sd st l id kx vx Hlen Hl Hfit Hid) as Hc. specialize (Ht id). case_decide.
  - destruct Hc as (it & Hit & <- & -> & ? & ?). destruct Ht as [k ->]. pose proof (Hcov it Hit ltac:(done) ltac:(done)) as Hle.
    rewrite take_app_le, length_app by (unfold row; rewrite length_map; lia). split; [eexists; symmetry; apply take_drop|].
    unfold row. rewrite length_map. lia.
  - rewrite Ht. split; [by eapply synced_covers|]. apply live_lookup in Hc as (Hs & _). by apply (Hsy l id kx vx Hl Hs).
Qed.

Lemma managed_run_ok steps : ∀ sd s s',
  synced sd s → kv_ok n s → length impls = length caches → managed_run s steps s' → run_fit sd steps →
  run_ok h g NQ impls caches sd steps ∧ synced (fold_left sched_step steps sd) s' ∧ kv_ok n s'.
Proof.
  induction steps as [|st steps IH]; intros sd s s' Hsy Hok Hlen Hm Hfit; [cbn in Hm; subst; split; [exact I|]; by split|].
  destruct Hm as (s1 & H1 & Hm), Hfit as [Hfit1 Hfit]. cbn [run_ok fold_left].
  destruct (IH (sched_step sd st) s1 s') as (I1 & I2); try done.
  - by eapply managed_synced.
  - by apply (managed_tables sd st s s1 Hok H1).
  - split; [|done]. split; [|done]. by apply (managed_step_ok sd st s s1).
Qed.

(** What the worker holds for every live request, and where its pages lie. *)
Definition serves (sd : Sched) (e : Engine) (s : Manager) : Prop :=
  ∀ l id kx vx, (l < length caches)%nat → sd_streams sd l !! id = Some (kx, vx) →
    (∃ o, sidecar_of_request (en_bridge e) l id = Some o ∧ ob_rt o = runtime_of h g kx vx)
    ∧ ∃ c, en_caches e !! l = Some c ∧ pages_in h g (row (table_of s id)) kx vx c.

Lemma synced_serves sd e s : engine_ok (B := B) h g caches sd e → synced sd s → serves sd e s.
Proof.
  intros [Hws Hh] Hend l id kx vx Hl Hid. destruct (Hh l Hl) as (c0 & table & cache & _ & H2 & H3 & _ & _ & H6 & _).
  destruct (H6 (en_ws e) [] Hws) as (_ & _ & Hst). destruct (Hst id kx vx Hid) as (_ & Hp & o & Ho & Er & _).
  destruct (Hend l id kx vx Hl Hid) as [[k Hk] Hcl]. split.
  - exists o. unfold sidecar_of_request. by rewrite H2.
  - exists cache. split; [done|]. unfold pages_in. rewrite Hk, take_app_le, take_take, Nat.min_id by (rewrite length_take_le; done). exact Hp.
Qed.

(** The worker under the manager.  The scheduler of a manager without prefix
    caching frees finished and preempted requests, gets slots for the requests of the
    step and the rows of the worker start with the manager's block numbers (behind them
    a row may hold anything); caches and manager have the same number of blocks and the block size is the group of 32 tokens.  Then, over
    any steps that fit ([run_fit]: counts that are the lengths of the streams, tensors of the
    model, and no several tokens at once for a request after a step that gave it a single one
    while it held four or more), no step of the worker raises, every
    output row is the attention of its request's own stream, and at the end the pages
    of every live request lie in the blocks the manager holds for it: no condition on
    the tables of block numbers is left to ask. *)
Theorem managed_runs_served hbs s0 s steps :
  (0 < n)%nat → kv_init (Z.of_nat n) false hbs = Ok s0 →
  length impls = length caches → Forall (impl_ok h g) impls → Forall cache_ok caches →
  managed_run s0 steps s → run_fit sched_init steps →
  let sd := fold_left sched_step steps sched_init in
  ∃ outs e, engine_run context_attention_fwd impls steps (engine_init caches) = (Ok outs, e)
  ∧ run_rows h g NQ context_attention_fwd impls sched_init steps outs
  ∧ serves sd e s.
Proof.
  intros Hn Hi Hlen Himpl Hc Hm Hfit sd. destruct (fresh_manager n hbs s0 Hn Hi) as [H0 _].
  assert (synced sched_init s0) as Hsy by (intros l id kx vx _ [=]).
  destruct (managed_run_ok steps sched_init s0 s Hsy H0 Hlen Hm Hfit) as (Hrun & Hend & _).
  destruct (engine_run_ok h g NQ Hgeo HQ context_attention_fwd Henv impls caches Hlen Himpl steps _ _
              (engine_init_ok h g NQ HQ impls caches Hlen Hc) Hrun) as (outs & e & E & He & Hr).
  exists outs, e. split; [done|]. split; [done|]. by apply synced_serves.
Qed.
End Managed.

(** ** A concrete run *)

Section Concrete.
#[local] Existing Instance FixedTorch.
#[local] Existing Instance FixedTriton.
#[local] Existing Instance zero_memory.
#[local] Existing Instance FixedReduce.
#[local] Existing Instance bf16_type.
#[local] Existing Instance FixedTorch_laws.
#[local] Existing Instance FixedTriton_laws.
#[local] Existing Instance FixedZero.
#[local] Existing Instance default_environ.

(** The calls of three steps: slots for a prompt of 36 tokens; slots for its first
    decode token and for another prompt; a release. *)
Definition demo_calls : list (list SchedCall) :=
  [[CallSlots (demo_request "a" 36 0) 36 default_args];
   [CallSlots (mkRequest "a" 37 36 RUNNING [] false) 1 default_args; CallSlots (demo_request "b" 2 0) 2 default_args];
   [CallFree (mkRequest "a" 37 37 FINISHED_STOPPED [] false)]].

Definition managed_steps : list (EngineStep (B := Z)) :=
  [mkEngineStep [] [] ["a"] {["a" := 36%Z]} {["a" := 0%Z]} [[1; 2]%nat] [run_call 36 [0; 36]%Z [[1; 2]%nat]];
   mkEngineStep [] [] ["a"; "b"] {["a" := 1%Z; "b" := 2%Z]} {["a" := 36%Z; "b" := 0%Z]} [[1; 2]; [3]]%nat
     [run_call 3 [0; 1; 3]%Z [[1; 2]; [3]]%nat];
   mkEngineStep ["a"] [] [] ∅ ∅ [] [run_call 0 [0%Z] []]].

Definition managed_end : Manager := fold_left (λ s calls, (sched_calls demo_config calls s ∅).1) demo_calls demo_manager.

Lemma demo_rows s' ids tables : tables = map (λ id, row (table_of s' id)) ids → Forall2 (λ id t, row (table_of s' id) `prefix_of` t) ids tables.
Proof. intros ->. induction ids as [|id ids IH]; by constructor. Qed.

Lemma managed_steps_ok : managed_run demo_config demo_manager managed_steps managed_end.
Proof.
  assert (∀ calls s, sched_calls demo_config calls s ∅ = ((sched_calls demo_config calls s ∅).1, (sched_calls demo_config calls s ∅).2))
    as Hp by (intros; apply surjective_pairing).
  eexists. split; [|eexists; split; [|eexists; split; [|reflexivity]]]; eexists; eexists.
  - split; [|split; [exact (Hp (nth 0 demo_calls []) _)|]].
    + constructor; [|constructor]. split; [done|]. by split; [apply demo_args|].
    + split; [by intros id [[]|[]%Exists_nil]%Exists_cons|].
      split; [|by apply demo_rows; vm_compute]. constructor; [|constructor]. exists 36%Z. by split; vm_compute.
  - split; [|split; [exact (Hp (nth 1 demo_calls []) _)|]].
    + constructor; [|constructor; [|constructor]]; (split; [done|]; by split; [apply demo_args|]).
    + split; [by intros id [[]|[[]|[]%Exists_nil]%Exists_cons]%Exists_cons|].
      split; [|by apply demo_rows; vm_compute]. constructor; [|constructor; [|constructor]]; [exists 37%Z|exists 2%Z]; by split; vm_compute.
  - split; [|split; [exact (Hp (nth 2 demo_calls []) _)|]].
    + by constructor.
    + split; [intros id [<-|[]%Exists_nil]%Exists_cons; left; apply list_elem_of_here|].
      split; constructor.
Qed.

Lemma fit_item KEY VAL p streams id q_len ctx :
  (0 < q_len)%Z → (0 ≤ ctx)%Z → length (stream_of streams id).1 = Z.to_nat ctx → ((0 < ctx)%Z → is_Some (streams !! id)) →
  (p + Z.to_nat q_len ≤ length KEY)%nat → item_fit 1 2 KEY VAL p streams (id, q_len, ctx).
Proof. intros. split_and!; try done. intros j _. apply fixed_open. Qed.

Lemma managed_fit_1 : step_fit 1 2 4 [fixed_impl] sched_init (nth 0 managed_steps no_step).
Proof.
  cbn [nth managed_steps]. destruct (run_inputs 36 [0; 36]%Z [[1; 2]%nat]) as (I1 & I2 & I3).
  set (call := run_call _ _ _) in *. set (st := mkEngineStep _ _ _ _ _ _ _).
  split; [by constructor; [exists 36%Z, 0%Z|]|]. split; [by constructor|]. split; [done|]. split.
  - constructor; [|done]. intros _ H. by vm_compute in H.
  - intros _ [|l] impl ca Hi Hc; [|done]. injection Hi as <-. injection Hc as <-.
    split; [done|]. split; [exact I1|]. split; [exact I2|]. split; [exact I3|]. do 4 (split; [done|]).
    split; [|split; [apply not_elem_of_nil|exact I]]. by apply (fit_item _ _ 0 _ "a" 36 0).
Qed.

Lemma managed_fit_2 :
  step_fit 1 2 4 [fixed_impl] (sched_step sched_init (nth 0 managed_steps no_step)) (nth 1 managed_steps no_step).
Proof.
  change (nth 1 managed_steps no_step) with (mkEngineStep [] [] ["a"; "b"] {["a" := 1%Z; "b" := 2%Z]} {["a" := 36%Z; "b" := 0%Z]}
    [[1; 2]; [3]]%nat [run_call 3 [0; 1; 3]%Z [[1; 2]; [3]]%nat]).
  set (sd := sched_step _ _) in *. destruct (run_inputs 3 [0; 1; 3]%Z [[1; 2]; [3]]%nat) as (I1 & I2 & I3).
  set (call := run_call _ _ _) in *. set (st := mkEngineStep _ _ _ _ _ _ _) in *.
  split; [by constructor; [exists 1%Z, 36%Z|constructor; [exists 2%Z, 0%Z|]]|]. split; [by repeat constructor|].
  split; [done|]. split.
  - constructor; [|constructor; [|done]]; intros H1 H2; by vm_compute in H1, H2.
  - intros _ [|l] impl ca Hi Hc; [|done]. injection Hi as <-. injection Hc as <-.
    split; [done|]. split; [exact I1|]. split; [exact I2|]. split; [exact I3|]. do 4 (split; [done|]).
    split; [|split; [apply (bool_decide_unpack _); by vm_compute|split; [|split; [apply not_elem_of_nil|exact I]]]].
    + apply (fit_item _ _ 0 _ "a" 1 36); try done. by apply Nat.leb_le.
    + by apply (fit_item _ _ 1 _ "b" 2 0).
Qed.

Lemma managed_fit_3 :
  step_fit 1 2 4 [fixed_impl] (sched_step (sched_step sched_init (nth 0 managed_steps no_step)) (nth 1 managed_steps no_step))
    (nth 2 managed_steps no_step).
Proof. split; [constructor|]. split; [constructor|]. split; [done|]. split; [constructor|done]. Qed.

(** The three steps of a layer of five pages under a manager of five blocks. *)
Lemma managed_runs_served_witness :
  ∃ outs e, engine_run copy_attention [fixed_impl] managed_steps (engine_init [zero_cache 5]) = (Ok outs, e)
  ∧ run_rows 1 2 4 copy_attention [fixed_impl] sched_init managed_steps outs.
Proof.
  destruct (managed_runs_served 1 2 4 one_head_runtime four_heads copy_attention default_environ_ok [fixed_impl] [zero_cache 5]
    demo_config 5 eq_refl ltac:(done)) with (hbs := 32%Z) (s0 := demo_manager) (s := managed_end) (steps := managed_steps)
    as (outs & e & E & Hr & _).
  - constructor; [|constructor]. by split; vm_compute.
  - lia.
  - reflexivity.
  - reflexivity.
  - by repeat constructor.
  - constructor; [apply zero_cache_ok|constructor].
  - apply managed_steps_ok.
  - exact (conj managed_fit_1 (conj managed_fit_2 (conj managed_fit_3 I))).
  - exists outs, e. by split.
Defined.
End Concrete.
