(* ===== verification/StagedTensor.v ===== *)
(** * Writes collected on the host

    [v1/worker/gpu/buffer_utils.py] [StagedWriteTensor]: the writes to a device tensor
    that are collected on the host and applied by one kernel.  A device tensor is its
    flat memory; the round-robin host buffers behind [copy_to_uva] are the values they
    hold.  What a client relies on is [tensor_rows]: the rows the tensor holds once the
    writes collected so far are applied. *)

From Stdlib Require Import ZArith Lia.
From stdpp Require Import base tactics numbers list option gmap.
From S2P Require Import Prelude Torch Quant Tab Triton Stores.

(** ** Kernels over a run of elements *)

(** The offsets a program visits in steps of [BLOCK] lanes under the mask
    [offset < n]. *)
Definition lanes (BLOCK n : nat) : list nat :=
  flat_map (λ c, List.filter (λ o, (o <? n)%nat) (seq (c * BLOCK) BLOCK)) (seq 0 ((n + (BLOCK - 1)) / BLOCK)).

Lemma filter_lt_seq a m n : List.filter (λ o, (o <? n)%nat) (seq a m) = seq a (Nat.min m (n - a)).
Proof.
  revert a. induction m as [|m IH]; intros a; [done|]. cbn [seq List.filter]. rewrite IH.
  destruct (Nat.ltb_spec a n) as [H|H].
  - replace (S m `min` (n - a))%nat with (S (m `min` (n - S a)))%nat by lia. done.
  - replace (S m `min` (n - a))%nat with 0%nat by lia. by replace (m `min` (n - S a))%nat with 0%nat by lia.
Qed.

Lemma lanes_seq BLOCK n : (0 < BLOCK)%nat → lanes BLOCK n = seq 0 n.
Proof.
  intros HB. unfold lanes. set (c := ((n + (BLOCK - 1)) / BLOCK)%nat).
  assert (n ≤ c * BLOCK)%nat as Hc.
  { pose proof (Nat.div_mod_eq (n + (BLOCK - 1)) BLOCK) as H. pose proof (Nat.mod_upper_bound (n + (BLOCK - 1)) BLOCK ltac:(lia)). fold c in H. lia. }
  assert (∀ k, flat_map (λ c, List.filter (λ o, (o <? n)%nat) (seq (c * BLOCK) BLOCK)) (seq 0 k) = seq 0 (Nat.min (k * BLOCK) n)) as G.
  { induction k as [|k IH]; [done|]. rewrite seq_S, flat_map_app, IH. cbn [flat_map Nat.add]. rewrite app_nil_r, filter_lt_seq.
    assert (S k * BLOCK = k * BLOCK + BLOCK)%nat as -> by lia.
    destruct (Nat.le_gt_cases n (k * BLOCK)) as [H|H].
    - replace (BLOCK `min` (n - k * BLOCK))%nat with 0%nat by lia. rewrite app_nil_r. f_equal. lia.
    - replace ((k * BLOCK + BLOCK) `min` n)%nat with (k * BLOCK + (BLOCK `min` (n - k * BLOCK)))%nat by lia.
      rewrite seq_app. by replace ((k * BLOCK) `min` n)%nat with (k * BLOCK)%nat by lia. }
  rewrite G. f_equal. lia.
Qed.

(** Storing a run element by element. *)
Definition lane_stores (addr : nat) (val : nat → Z) (offsets : list nat) : list (Store Z) :=
  map (λ o, ((addr + o)%nat, [val o])) offsets.

Lemma lane_stores_block addr val n mem :
  (addr + n ≤ length mem)%nat →
  apply_stores (lane_stores addr val (seq 0 n)) mem = store_block addr (map val (seq 0 n)) mem.
Proof.
  revert mem. induction n as [|n IH]; intros mem H.
  - unfold store_block. cbn. by rewrite Nat.add_0_r, take_drop.
  - unfold lane_stores in *. rewrite seq_S, !map_app. etransitivity; [apply apply_stores_app|]. rewrite IH by lia. cbn [map Nat.add apply_stores fold_left fst snd].
    pose proof (store_block_app addr (map val (seq 0 n)) [val n] mem) as E. rewrite length_map, length_seq in E.
    apply E. cbn. lia.
Qed.

(** ** Staged writes *)

Record StagedWriteTensor := mkStaged {
  sw_gpu : list Z;                     (* num_rows rows of stride elements *)
  sw_num_rows : nat;
  sw_stride : nat;
  sw_indices : list nat;
  sw_starts : list nat;
  sw_contents : list Z;
  sw_cu_lens : list nat
}.

Module StagedWrite.

Definition init (num_rows stride : nat) : StagedWriteTensor :=
  mkStaged (replicate (num_rows * stride) 0%Z) num_rows stride [] [] [] [].

(** The assertions on the index and the start hold of natural numbers;
    [stage_write_elem] on an index is a write of one element. *)
Definition stage_write (index start : nat) (x : list Z) : ST StagedWriteTensor unit :=
  match x with
  | [] => mret tt
  | _ => st_modify (λ t, mkStaged (sw_gpu t) (sw_num_rows t) (sw_stride t)
           (sw_indices t ++ [index]) (sw_starts t ++ [start]) (sw_contents t ++ x)
           (sw_cu_lens t ++ [length (sw_contents t ++ x)]))
  end.

Definition stage_write_elem (index : nat) (x : Z) : ST StagedWriteTensor unit :=
  st_modify (λ t, mkStaged (sw_gpu t) (sw_num_rows t) (sw_stride t)
    (sw_indices t ++ [index]) (sw_starts t ++ [0%nat]) (sw_contents t ++ [x]) (sw_cu_lens t ++ [length (sw_contents t ++ [x])])).

Definition clear_staged_writes (t : StagedWriteTensor) : StagedWriteTensor :=
  mkStaged (sw_gpu t) (sw_num_rows t) (sw_stride t) [] [] [] [].

(** A program of [_apply_write_kernel] for one tensor: the stores of write [pid]. *)
Definition _apply_write_kernel (BLOCK_SIZE : nat) (t : StagedWriteTensor) (pid : nat) (mem : list Z) : list Z :=
  let row_idx := nth pid (sw_indices t) 0%nat in
  let start_idx := nth pid (sw_starts t) 0%nat in
  let cu_start := if (0 <? pid)%nat then nth (pid - 1) (sw_cu_lens t) 0%nat else 0%nat in
  let cu_end := nth pid (sw_cu_lens t) 0%nat in
  let row_ptr := (row_idx * sw_stride t + start_idx)%nat in
  apply_stores (lane_stores row_ptr (λ o, nth (cu_start + o) (sw_contents t) 0%Z) (lanes BLOCK_SIZE (cu_end - cu_start))) mem.

(** The index buffers hold a write per row: more do not fit in them. *)
Definition apply_write : ST StagedWriteTensor unit :=
  t ← st_get;
  let n := length (sw_indices t) in
  if (n =? 0)%nat then mret tt else
  st_raise_if (sw_num_rows t <? n)%nat ValueError;;
  st_put (clear_staged_writes (mkStaged (launch n (_apply_write_kernel 1024 t) (sw_gpu t)) (sw_num_rows t) (sw_stride t)
    (sw_indices t) (sw_starts t) (sw_contents t) (sw_cu_lens t))).

End StagedWrite.

(** A write: its row, its start and its contents. *)
Definition Write : Type := nat * nat * list Z.

Definition write_store (stride : nat) (w : Write) : Store Z := ((w.1.1 * stride + w.1.2)%nat, w.2).

(** The staged lists are the columns of the writes. *)
Definition staged (t : StagedWriteTensor) (ws : list Write) : Prop :=
  sw_indices t = map (λ w, w.1.1) ws ∧ sw_starts t = map (λ w, w.1.2) ws ∧ sw_contents t = concat (map snd ws)
  ∧ sw_cu_lens t = map (λ k, length (concat (map snd (take (S k) ws)))) (seq 0 (length ws)).

Definition same_shape (t t' : StagedWriteTensor) : Prop := sw_num_rows t' = sw_num_rows t ∧ sw_stride t' = sw_stride t.

Lemma stage_write_ok t ws i start x :
  staged t ws →
  ∃ t', StagedWrite.stage_write i start x t = (Ok tt, t') ∧ sw_gpu t' = sw_gpu t ∧ same_shape t t'
    ∧ staged t' (if decide (x = []) then ws else ws ++ [(i, start, x)]).
Proof.
  intros (E1 & E2 & E3 & E4). destruct x as [|a x]; [by exists t|]. eexists. split; [done|]. split; [done|]. split; [done|].
  case_decide; [done|]. unfold staged. cbn [sw_indices sw_starts sw_contents sw_cu_lens]. rewrite E1, E2, E3, E4, !map_app, concat_app.
  cbn [map fst snd concat]. rewrite app_nil_r. do 3 (split; [done|]).
  replace (length (ws ++ [(i, start, a :: x)])) with (S (length ws)) by (rewrite length_app; cbn; lia). rewrite seq_S, map_app.
  cbn [map Nat.add]. f_equal.
  - apply map_ext_in. intros k Hk%in_seq. f_equal. f_equal. f_equal. rewrite take_app_le by lia. done.
  - rewrite take_ge by (rewrite length_app; cbn; lia). rewrite map_app, concat_app. cbn [map snd concat]. by rewrite app_nil_r.
Qed.

(** A program of the kernel performs its write. *)
Lemma apply_write_program t ws pid w mem :
  staged t ws → ws !! pid = Some w → (w.1.1 * sw_stride t + w.1.2 + length w.2 ≤ length mem)%nat →
  StagedWrite._apply_write_kernel 1024 t pid mem = apply_stores [write_store (sw_stride t) w] mem.
Proof.
  intros (E1 & E2 & E3 & E4) Hw Hin. assert (pid < length ws)%nat as Hlt by (by eapply lookup_lt_Some).
  unfold StagedWrite._apply_write_kernel. rewrite E1, E2, E3, E4.
  assert ((if (0 <? pid)%nat then nth (pid - 1) (map (λ k, length (concat (map snd (take (S k) ws)))) (seq 0 (length ws))) 0%nat else 0%nat)
          = length (concat (map snd (take pid ws)))) as ->.
  { destruct pid as [|pid]; [done|]. cbn [Nat.ltb Nat.leb]. rewrite nth_tabulate by lia. by replace (S (S pid - 1)) with (S pid) by lia. }
  rewrite nth_tabulate by done. assert (take (S pid) ws = take pid ws ++ [w]) as -> by (by apply take_S_r).
  assert (ws = take pid ws ++ w :: drop (S pid) ws) as Ews by (by rewrite take_drop_middle).
  rewrite map_app, concat_app, length_app. cbn [map snd concat]. rewrite app_nil_r.
  rewrite (nth_map_lt _ ws _ _ w), (nth_map_lt _ ws _ _ w) by done.
  assert (nth pid ws w = w) as -> by (by apply nth_lookup_Some).
  rewrite lanes_seq by lia. cbn beta. assert (∀ a b, a + b - a = b)%nat as -> by lia. rewrite lane_stores_block by exact Hin. unfold write_store. cbn [apply_stores fold_left fst snd]. f_equal.
  transitivity (map (λ o, nth o w.2 0%Z) (seq 0 (length w.2))); [|apply map_nth_seq].
  apply map_ext_in. intros o Ho%in_seq. rewrite Ews at 2. rewrite map_app, concat_app. cbn [map snd concat].
  rewrite app_nth2_plus. by rewrite app_nth1 by lia.
Qed.

Definition write_stores (t : StagedWriteTensor) (ws : list Write) : list (Store Z) := map (write_store (sw_stride t)) ws.

(** The tensor once its staged writes are applied. *)
Definition written (t : StagedWriteTensor) (ws : list Write) : list Z := apply_stores (write_stores t ws) (sw_gpu t).

Lemma apply_write_ok t ws :
  staged t ws → (length ws ≤ sw_num_rows t)%nat → inside (length (sw_gpu t)) (write_stores t ws) →
  ∃ t', StagedWrite.apply_write t = (Ok tt, t') ∧ sw_gpu t' = written t ws ∧ same_shape t t' ∧ staged t' [].
Proof.
  intros Hs Hn Hin. pose proof Hs as (E1 & _ & E3 & _). unfold StagedWrite.apply_write. rewrite st_bind_eq. cbn [st_get].
  assert (length (sw_indices t) = length ws) as El by (by rewrite E1, length_map).
  destruct (Nat.eqb_spec (length (sw_indices t)) 0) as [H0|H0].
  { rewrite El in H0. apply nil_length_inv in H0 as ->. by exists t. }
  rewrite st_bind_eq. unfold st_raise_if, st_lift. rewrite El. destruct (Nat.ltb_spec (sw_num_rows t) (length ws)) as [?|_]; [lia|].
  cbn [raise_if]. eexists. split; [reflexivity|]. split; [|by split]. cbn [StagedWrite.clear_staged_writes sw_gpu].
  enough (launch (length ws) (StagedWrite._apply_write_kernel 1024 t) (sw_gpu t) = apply_stores (write_stores t (take (length ws) ws)) (sw_gpu t)) as E
    by (by rewrite take_ge in E by done).
  apply (launch_ind (λ k m, m = apply_stores (write_stores t (take k ws)) (sw_gpu t))); [done|].
  intros p m Hp ->. destruct (lookup_lt_is_Some_2 ws p Hp) as [w Hw].
  assert (inside (length (sw_gpu t)) (write_stores t (take p ws)) ∧ (w.1.1 * sw_stride t + w.1.2 + length w.2 ≤ length (sw_gpu t))%nat) as [I1 I2].
  { unfold inside, write_stores in *. rewrite <-(take_drop_middle ws p w Hw), map_app, Forall_app in Hin. destruct Hin as [I1 I2].
    split; [done|]. by apply List.Forall_cons_iff in I2 as [I2 _]. }
  rewrite (apply_write_program t ws p w) by (done || by rewrite apply_stores_length).
  rewrite (take_S_r ws p w) by done. unfold write_stores. rewrite map_app. symmetry. apply apply_stores_app.
Qed.

(** ** What a tensor holds *)

(** The memory holds [r] from [a] on. *)
Definition holds_at (mem : list Z) (a : nat) (r : list Z) : Prop := ∀ k, (k < length r)%nat → nth (a + k) mem 0%Z = nth k r 0%Z.

Lemma holds_store mem a x : (a + length x ≤ length mem)%nat → holds_at (store_block a x mem) a x.
Proof.
  intros H k Hk. rewrite store_block_nth by done. rewrite (proj2 (Nat.leb_le _ _)), (proj2 (Nat.ltb_lt _ _)) by lia.
  cbn [andb]. f_equal. lia.
Qed.

Lemma holds_frame mem a x b r :
  (a + length x ≤ length mem)%nat → (b + length r ≤ a ∨ a + length x ≤ b)%nat →
  holds_at mem b r → holds_at (store_block a x mem) b r.
Proof.
  intros H Hd Hr k Hk. rewrite store_block_nth by done.
  destruct (Nat.leb_spec a (b + k)), (Nat.ltb_spec (b + k) (a + length x)); cbn [andb]; try lia; by apply Hr.
Qed.

Lemma holds_app mem a r x : holds_at mem a r → holds_at mem (a + length r) x → holds_at mem a (r ++ x).
Proof.
  intros H1 H2 k Hk. rewrite length_app in Hk. destruct (Nat.lt_ge_cases k (length r)) as [H|H].
  - rewrite app_nth1 by done. by apply H1.
  - rewrite app_nth2 by done. rewrite <-(H2 (k - length r)%nat) by lia. f_equal. lia.
Qed.

Lemma row_in_table i n stride : (i < n)%nat → (i * stride + stride ≤ n * stride)%nat.
Proof. intros H. nia. Qed.

Lemma rows_apart i j stride a b c :
  i ≠ j → (a + b ≤ stride)%nat → (c ≤ stride)%nat → (j * stride + c ≤ i * stride + a ∨ i * stride + a + b ≤ j * stride)%nat.
Proof. intros. destruct (Nat.lt_ge_cases i j); [right|left]; nia. Qed.

Lemma holds_load mem a n r : (length r ≤ n)%nat → (a + n ≤ length mem)%nat → holds_at mem a r → r `prefix_of` load_block n a mem.
Proof.
  intros Hn Hm H. assert (take (length r) (load_block n a mem) = r) as E.
  { assert (length (take (length r) (load_block n a mem)) = length r) as El
      by (rewrite length_take; unfold load_block; rewrite slice_length; lia).
    apply nth_ext with 0%Z 0%Z; [done|]. intros k Hk. rewrite El in Hk. rewrite <-H by done.
    rewrite nth_firstn, (proj2 (Nat.ltb_lt _ _)) by done. unfold load_block, slice. rewrite nth_firstn, nth_skipn.
    by rewrite (proj2 (Nat.ltb_lt _ _)) by lia. }
  exists (drop (length r) (load_block n a mem)). rewrite <-E at 1. by rewrite take_drop.
Qed.


(** A memory of [n] rows of [stride] elements in which some rows start with known
    contents. *)
Definition rows_in (n stride : nat) (mem : list Z) (rows : gmap nat (list Z)) : Prop :=
  length mem = (n * stride)%nat
  ∧ ∀ i r, rows !! i = Some r → (i < n)%nat ∧ (length r ≤ stride)%nat ∧ holds_at mem (i * stride) r.

Lemma rows_in_empty n stride mem : length mem = (n * stride)%nat → rows_in n stride mem ∅.
Proof. intros H. split; [done|]. by intros i r. Qed.

Lemma rows_in_forget n stride mem rows rows' : rows' ⊆ rows → rows_in n stride mem rows → rows_in n stride mem rows'.
Proof. intros Hs [H1 H2]. split; [done|]. intros i r Hi. apply H2. by eapply lookup_weaken. Qed.

(** Storing a row anew, or its next elements. *)
Lemma rows_in_store n stride mem rows i r0 x :
  rows_in n stride mem rows → (i < n)%nat → (r0 = [] ∨ rows !! i = Some r0) → (length r0 + length x ≤ stride)%nat →
  (i * stride + length r0 + length x ≤ length mem)%nat
  ∧ rows_in n stride (store_block (i * stride + length r0) x mem) (<[i := r0 ++ x]> rows).
Proof.
  intros [Hm Hr] Hi H0 Hl. pose proof (row_in_table i n stride Hi).
  assert (i * stride + length r0 + length x ≤ length mem)%nat as Hfit by lia. split; [done|]. split; [by rewrite store_block_length|].
  intros j rj Hj. destruct (decide (i = j)) as [<-|Hne].
  - rewrite lookup_insert_eq in Hj. injection Hj as <-. split; [done|]. split; [by rewrite length_app|]. apply holds_app.
    + apply holds_frame; [done|lia|]. destruct H0 as [->|H0]; [intros k Hk; cbn in Hk; lia|]. by apply Hr.
    + by apply holds_store.
  - rewrite lookup_insert_ne in Hj by done. destruct (Hr j rj Hj) as (H1 & H2 & H3). split; [done|]. split; [done|].
    apply holds_frame; [done| |done]. pose proof (rows_apart i j stride (length r0) (length x) (length rj) Hne). lia.
Qed.

(** A tensor whose rows are known up to the writes [ws] still collected. *)
Definition tensor_rows (t : StagedWriteTensor) (ws : list Write) (rows : gmap nat (list Z)) : Prop :=
  staged t ws ∧ inside (length (sw_gpu t)) (write_stores t ws) ∧ rows_in (sw_num_rows t) (sw_stride t) (written t ws) rows.

Lemma tensor_rows_init n stride : tensor_rows (StagedWrite.init n stride) [] ∅.
Proof. split; [done|]. split; [constructor|]. apply rows_in_empty. apply length_replicate. Qed.

Lemma tensor_rows_forget t ws rows rows' : rows' ⊆ rows → tensor_rows t ws rows → tensor_rows t ws rows'.
Proof. intros Hs (H1 & H2 & H3). split; [done|]. split; [done|]. by eapply rows_in_forget. Qed.

Lemma written_length t ws : inside (length (sw_gpu t)) (write_stores t ws) → length (written t ws) = length (sw_gpu t).
Proof. apply apply_stores_length. Qed.

Lemma stage_rows t ws rows i r0 x :
  tensor_rows t ws rows → (i < sw_num_rows t)%nat → (r0 = [] ∨ rows !! i = Some r0) →
  (length r0 + length x ≤ sw_stride t)%nat →
  ∃ t' ws', StagedWrite.stage_write i (length r0) x t = (Ok tt, t') ∧ tensor_rows t' ws' (<[i := r0 ++ x]> rows)
    ∧ sw_gpu t' = sw_gpu t ∧ same_shape t t' ∧ (length ws' ≤ S (length ws))%nat.
Proof.
  intros (Hs & Hin & Hr) Hi H0 Hl. destruct (stage_write_ok t ws i (length r0) x Hs) as (t' & E & Egpu & [Esh1 Esh2] & Hs').
  set (ws' := if decide (x = []) then ws else ws ++ [(i, length r0, x)]) in *. exists t', ws'.
  destruct (rows_in_store _ _ _ _ i r0 x Hr Hi H0 Hl) as [Hfit Hr']. rewrite written_length in Hfit by done.
  assert (written t' ws' = store_block (i * sw_stride t + length r0) x (written t ws) ∧ inside (length (sw_gpu t)) (write_stores t ws')) as [Ew Hin'].
  { unfold ws', written, write_stores in *. rewrite Egpu, Esh2. case_decide as He; [rewrite He; by rewrite store_block_nil|].
    rewrite map_app. split; [etransitivity; [apply apply_stores_app|done]|].
    unfold inside. rewrite Forall_app. split; [done|]. by constructor. }
  split; [done|]. split; [|split; [done|split; [done|]]].
  - unfold tensor_rows. rewrite Ew, Esh1, Esh2, Egpu. unfold write_stores in *. rewrite Esh2. by split_and!.
  - unfold ws'. case_decide; [lia|]. rewrite length_app. cbn. lia.
Qed.

Lemma stage_write_elem_eq i x : StagedWrite.stage_write_elem i x = StagedWrite.stage_write i 0 [x].
Proof. done. Qed.

Lemma apply_rows t ws rows :
  tensor_rows t ws rows → (length ws ≤ sw_num_rows t)%nat →
  ∃ t', StagedWrite.apply_write t = (Ok tt, t') ∧ tensor_rows t' [] rows ∧ same_shape t t'.
Proof.
  intros (Hs & Hin & Hr) Hn. destruct (apply_write_ok t ws Hs Hn Hin) as (t' & E & Egpu & [Esh1 Esh2] & Hs').
  exists t'. split; [done|]. split; [|done]. split; [done|]. split; [constructor|]. unfold written. cbn. by rewrite Egpu, Esh1, Esh2.
Qed.

(** The rows of a tensor with nothing staged are in its device memory. *)
Lemma applied_rows t rows : tensor_rows t [] rows → rows_in (sw_num_rows t) (sw_stride t) (sw_gpu t) rows.
Proof. by intros (_ & _ & H). Qed.

(** ** Grids that store a block a program *)

(** The programs store disjoint blocks in one of their memories: it holds them all,
    and what it held elsewhere. *)
Lemma launch_holds {M} (proj : M → list Z) n (prog : nat → M → M) (mem : M) (addr : nat → nat) (blk : nat → list Z) :
  (∀ p m, (p < n)%nat → length (proj m) = length (proj mem) → proj (prog p m) = store_block (addr p) (blk p) (proj m)) →
  (∀ p, (p < n)%nat → (addr p + length (blk p) ≤ length (proj mem))%nat) →
  (∀ p q, (p < q < n)%nat → (addr p + length (blk p) ≤ addr q ∨ addr q + length (blk q) ≤ addr p)%nat) →
  length (proj (launch n prog mem)) = length (proj mem)
  ∧ (∀ p, (p < n)%nat → holds_at (proj (launch n prog mem)) (addr p) (blk p))
  ∧ ∀ a r, (∀ p, (p < n)%nat → (a + length r ≤ addr p ∨ addr p + length (blk p) ≤ a)%nat) →
      holds_at (proj mem) a r → holds_at (proj (launch n prog mem)) a r.
Proof.
  intros Hp Hin Hdis. induction n as [|n IH]; [split; [done|]; split; [lia|done]|].
  destruct IH as (I1 & I2 & I3); [intros; apply Hp; [lia|done]|intros; apply Hin; lia|intros; apply Hdis; lia|].
  rewrite launch_S, Hp by (lia || done). specialize (Hin n ltac:(lia)). split; [by rewrite store_block_length; rewrite I1|]. split.
  - intros p Hlt. destruct (decide (p = n)) as [->|Hne]; [apply holds_store; by rewrite I1|].
    apply holds_frame; [by rewrite I1|apply Hdis; lia|apply I2; lia].
  - intros a r Ha Hr. apply holds_frame; [by rewrite I1|apply Ha; lia|]. apply I3; [|done]. intros p Hlt. apply Ha. lia.
Qed.

Lemma holds_nth mem a r k x : holds_at mem a r → r !! k = Some x → nth (a + k) mem 0%Z = x.
Proof. intros H Hk. rewrite H by (by eapply lookup_lt_Some). by apply nth_lookup_Some. Qed.

Lemma holds_one mem a x : holds_at mem a [x] ↔ nth a mem 0%Z = x.
Proof.
  split; [intros H; pose proof (H 0%nat ltac:(cbn; lia)) as H0; by rewrite Nat.add_0_r in H0|].
  intros <- k Hk. cbn in Hk. assert (k = 0%nat) as -> by lia. by rewrite Nat.add_0_r.
Qed.
