(* ===== verification/InputBatch.v ===== *)
(** * The inputs of a batch

    The kernels of [v1/worker/gpu/input_batch.py] that build the inputs of the model
    for a batch and take the sampled tokens back: [_prepare_prefill_inputs_kernel],
    [_prepare_pos_seq_lens_kernel], [_combine_sampled_and_draft_tokens_kernel],
    [_get_num_sampled_and_rejected_kernel] and [_post_update_kernel].  Slots of
    requests are natural numbers; tokens, counts and locations are the [Z] of a device
    tensor.  Batch entry [b] occupies the tokens from [query_start_loc[b]] on. *)

From Stdlib Require Import ZArith Lia.
From stdpp Require Import base tactics numbers list option gmap.
From S2P Require Import Prelude Torch Quant Tab Triton Stores StagedTensor.

(** ** Prefill tokens *)

(** The input ids and the tensor of next prefill tokens. *)
Definition _prepare_prefill_inputs_kernel (BLOCK_SIZE : nat) (idx_mapping : list nat) (query_start_loc all_token_ids : list Z)
    (stride : nat) (prefill_lens num_computed_tokens : list Z) (batch_idx : nat) (mem : list Z * list Z) : list Z * list Z :=
  let req_state_idx := nth batch_idx idx_mapping 0%nat in
  let prefill_len := nth req_state_idx prefill_lens 0%Z in
  let num_computed := nth req_state_idx num_computed_tokens 0%Z in
  if (prefill_len <=? num_computed)%Z then mem else
  let query_start := nth batch_idx query_start_loc 0%Z in
  let query_end := nth (batch_idx + 1) query_start_loc 0%Z in
  let query_len := (query_end - query_start)%Z in
  let request_ptr := (req_state_idx * stride)%nat in
  let input_ids := apply_stores
    (lane_stores (Z.to_nat query_start) (λ o, nth (request_ptr + Z.to_nat num_computed + o) all_token_ids 0%Z)
       (lanes BLOCK_SIZE (Z.to_nat query_len))) mem.1 in
  let next_pos := (num_computed + query_len)%Z in
  (input_ids,
   if (next_pos <? prefill_len)%Z
   then store_block req_state_idx [nth (request_ptr + Z.to_nat next_pos) all_token_ids 0%Z] mem.2 else mem.2).

Definition prepare_prefill_inputs (input_ids next_prefill_tokens : list Z) (idx_mapping : list nat)
    (query_start_loc all_token_ids : list Z) (stride : nat) (prefill_len num_computed_tokens : list Z) : list Z * list Z :=
  launch (length idx_mapping)
    (_prepare_prefill_inputs_kernel 1024 idx_mapping query_start_loc all_token_ids stride prefill_len num_computed_tokens)
    (input_ids, next_prefill_tokens).

(** ** Positions and lengths *)

(** The positions and the lengths of the sequences; the last program clears the
    lengths behind the batch. *)
Definition _prepare_pos_seq_lens_kernel (BLOCK_SIZE : nat) (idx_mapping : list nat) (query_start_loc num_computed_tokens : list Z)
    (max_num_reqs num_reqs req_id : nat) (mem : list Z * list Z) : list Z * list Z :=
  if (req_id =? num_reqs)%nat then
    (mem.1, apply_stores (lane_stores num_reqs (λ _, 0%Z) (lanes BLOCK_SIZE (max_num_reqs - num_reqs))) mem.2)
  else
    let req_state_idx := nth req_id idx_mapping 0%nat in
    let num_computed := nth req_state_idx num_computed_tokens 0%Z in
    let start := nth req_id query_start_loc 0%Z in
    let query_end := nth (req_id + 1) query_start_loc 0%Z in
    let query_len := (query_end - start)%Z in
    (apply_stores (lane_stores (Z.to_nat start) (λ o, num_computed + Z.of_nat o)%Z (lanes BLOCK_SIZE (Z.to_nat query_len))) mem.1,
     store_block req_id [(num_computed + query_len)%Z] mem.2).

Definition prepare_pos_seq_lens (idx_mapping : list nat) (query_start_loc num_computed_tokens pos seq_lens : list Z) : list Z * list Z :=
  let num_reqs := length idx_mapping in
  launch (num_reqs + 1)
    (_prepare_pos_seq_lens_kernel 1024 idx_mapping query_start_loc num_computed_tokens (length seq_lens) num_reqs) (pos, seq_lens).

(** ** Sampled and draft tokens *)

(** The input ids and the indices of the logits.  [tl.arange(0, BLOCK_SIZE)] under a
    mask is the lanes below its bound. *)
Definition _combine_sampled_and_draft_tokens_kernel (BLOCK_SIZE NUM_NEW_SAMPLED_TOKENS : nat) (idx_mapping : list nat)
    (last_sampled_tokens query_start_loc seq_lens prefill_len draft_tokens : list Z) (draft_tokens_stride : nat) (cu_num_logits : list Z)
    (batch_idx : nat) (mem : list Z * list Z) : list Z * list Z :=
  let req_state_idx := nth batch_idx idx_mapping 0%nat in
  let masked := λ n : Z, List.filter (λ o, (Z.of_nat o <? n)%Z) (seq 0 BLOCK_SIZE) in
  let cu_num_logits_start := nth batch_idx cu_num_logits 0%Z in
  let cu_num_logits_end := nth (batch_idx + 1) cu_num_logits 0%Z in
  let num_logits := (cu_num_logits_end - cu_num_logits_start)%Z in
  let num_draft_tokens := (num_logits - Z.of_nat NUM_NEW_SAMPLED_TOKENS)%Z in
  let query_end := nth (batch_idx + 1) query_start_loc 0%Z in
  let logits_start := (query_end - num_logits)%Z in
  let logits_indices := apply_stores
    (lane_stores (Z.to_nat cu_num_logits_start) (λ o, logits_start + Z.of_nat o)%Z (masked num_logits)) mem.2 in
  let seq_len := nth batch_idx seq_lens 0%Z in
  if (seq_len <=? nth req_state_idx prefill_len 0%Z)%Z then (mem.1, logits_indices) else
  let input_ids :=
    if (0 <? NUM_NEW_SAMPLED_TOKENS)%nat
    then store_block (Z.to_nat (query_end - num_logits)) [nth req_state_idx last_sampled_tokens 0%Z] mem.1 else mem.1 in
  (if (0 <? num_draft_tokens)%Z
   then apply_stores (lane_stores (Z.to_nat (query_end - num_draft_tokens))
          (λ o, nth (req_state_idx * draft_tokens_stride + o) draft_tokens 0%Z) (masked num_draft_tokens)) input_ids
   else input_ids,
   logits_indices).

(** The indices are the elements of a fresh tensor. *)
Definition combine_sampled_and_draft_tokens (input_ids : list Z) (idx_mapping : list nat)
    (last_sampled_tokens query_start_loc seq_lens prefill_len draft_tokens : list Z) (num_speculative_steps : nat)
    (cu_num_logits logits_indices : list Z) (num_new_sampled_tokens : nat) : result (list Z * list Z) :=
  _ ← raise_if (negb ((num_new_sampled_tokens =? 0)%nat || (num_new_sampled_tokens =? 1)%nat)) AssertionError;
  Ok (launch (length idx_mapping)
    (_combine_sampled_and_draft_tokens_kernel (next_power_of_2 (num_speculative_steps + num_new_sampled_tokens)) num_new_sampled_tokens
       idx_mapping last_sampled_tokens query_start_loc seq_lens prefill_len draft_tokens num_speculative_steps cu_num_logits)
    (input_ids, logits_indices)).

(** ** The sampled tokens *)

(** The numbers of sampled and of rejected tokens. *)
Definition _get_num_sampled_and_rejected_kernel (seq_lens cu_num_logits : list Z) (idx_mapping : list nat) (prefill_lens : list Z)
    (batch_idx : nat) (mem : list Z * list Z) : list Z * list Z :=
  let req_state_idx := nth batch_idx idx_mapping 0%nat in
  let is_chunked_prefilling := (nth batch_idx seq_lens 0 <? nth req_state_idx prefill_lens 0)%Z in
  let num_sampled := if is_chunked_prefilling then 0%Z else nth batch_idx mem.1 0%Z in
  let num_logits := (nth (batch_idx + 1) cu_num_logits 0 - nth batch_idx cu_num_logits 0)%Z in
  let num_rejected := if is_chunked_prefilling then 0%Z else (num_logits - num_sampled)%Z in
  (store_block batch_idx [num_sampled] mem.1, store_block batch_idx [num_rejected] mem.2).

Definition get_num_sampled_and_rejected (num_sampled num_rejected seq_lens cu_num_logits : list Z) (idx_mapping : list nat)
    (prefill_len : list Z) : list Z * list Z :=
  launch (length idx_mapping) (_get_num_sampled_and_rejected_kernel seq_lens cu_num_logits idx_mapping prefill_len)
    (num_sampled, num_rejected).

(** The tensors a sampled batch changes. *)
Record PostMem := mkPost {
  pm_num_computed_tokens : list Z;
  pm_last_sampled_tokens : list Z;
  pm_output_bin_counts : option (list Z * nat);   (* with its stride *)
  pm_all_token_ids : list Z;
  pm_total_len : list Z
}.

(** The batch of the worker's own rank: no index is negative and the batch has its
    query locations.  The loop over the sampled tokens stores each behind the
    request's tokens and counts it. *)
Definition _post_update_kernel (idx_mapping : list nat) (sampled_tokens : list Z) (sampled_tokens_stride : nat)
    (num_sampled num_rejected query_start_loc : list Z) (all_token_ids_stride req_id : nat) (m : PostMem) : PostMem :=
  let req_state_idx := nth req_id idx_mapping 0%nat in
  let total_len := nth req_state_idx (pm_total_len m) 0%Z in
  let num_sampled := Z.to_nat (nth req_id num_sampled 0%Z) in
  let token := λ i, nth (req_id * sampled_tokens_stride + i) sampled_tokens 0%Z in
  let m := if (0 <? num_sampled)%nat
    then mkPost (pm_num_computed_tokens m) (store_block req_state_idx [token (num_sampled - 1)%nat] (pm_last_sampled_tokens m))
           (pm_output_bin_counts m) (pm_all_token_ids m) (store_block req_state_idx [(total_len + Z.of_nat num_sampled)%Z] (pm_total_len m))
    else m in
  let m := fold_left (λ m i,
      mkPost (pm_num_computed_tokens m) (pm_last_sampled_tokens m)
        (match pm_output_bin_counts m with
         | Some (counts, s) =>
             let token_ptr := (req_state_idx * s + Z.to_nat (token i))%nat in
             Some (store_block token_ptr [(nth token_ptr counts 0 + 1)%Z] counts, s)
         | None => None
         end)
        (store_block (req_state_idx * all_token_ids_stride + Z.to_nat total_len + i) [token i] (pm_all_token_ids m)) (pm_total_len m))
    (seq 0 num_sampled) m in
  let query_len := (nth (req_id + 1) query_start_loc 0 - nth req_id query_start_loc 0)%Z in
  let computed_delta := (query_len - nth req_id num_rejected 0)%Z in
  if (computed_delta =? 0)%Z then m
  else mkPost (store_block req_state_idx [(nth req_state_idx (pm_num_computed_tokens m) 0 + computed_delta)%Z] (pm_num_computed_tokens m))
         (pm_last_sampled_tokens m) (pm_output_bin_counts m) (pm_all_token_ids m) (pm_total_len m).

Definition post_update (idx_mapping : list nat) (sampled_tokens : list Z) (sampled_tokens_stride : nat)
    (num_sampled num_rejected query_start_loc : list Z) (all_token_ids_stride : nat) (m : PostMem) : PostMem :=
  launch (length idx_mapping)
    (_post_update_kernel idx_mapping sampled_tokens sampled_tokens_stride num_sampled num_rejected query_start_loc all_token_ids_stride) m.

(** ** What a slot holds *)

(** The tokens of a request, how many of them its prefill has, and how many are
    computed. *)
Record Slot := mkSlot { sl_tokens : list Z; sl_prefill : nat; sl_computed : Z }.

(** The last token was sampled when there are more than the prefill has. *)
Definition sl_last (s : Slot) : option (list Z) :=
  if (sl_prefill s <? length (sl_tokens s))%nat then Some [nth (length (sl_tokens s) - 1) (sl_tokens s) 0%Z] else None.

Definition token_rows (S : gmap nat Slot) : gmap nat (list Z) := sl_tokens <$> S.
Definition computed_rows (S : gmap nat Slot) : gmap nat (list Z) := (λ s, [sl_computed s]) <$> S.
Definition length_rows (S : gmap nat Slot) : gmap nat (list Z) := (λ s, [Z.of_nat (length (sl_tokens s))]) <$> S.
Definition last_rows (S : gmap nat Slot) : gmap nat (list Z) := omap sl_last S.

(** The tensors of [n] slots of at most [stride] tokens. *)
Definition post_ok (n stride : nat) (m : PostMem) (S : gmap nat Slot) : Prop :=
  rows_in n stride (pm_all_token_ids m) (token_rows S) ∧ rows_in n 1 (pm_num_computed_tokens m) (computed_rows S)
  ∧ rows_in n 1 (pm_total_len m) (length_rows S) ∧ rows_in n 1 (pm_last_sampled_tokens m) (last_rows S)
  ∧ ∀ i s, S !! i = Some s → (sl_prefill s ≤ length (sl_tokens s))%nat.

(** The slot after a step of [q] tokens that sampled [toks]. *)
Definition slot_step (q : nat) (toks : list Z) (s : Slot) : Slot :=
  mkSlot (sl_tokens s ++ toks) (sl_prefill s) (sl_computed s + Z.of_nat q).

(** ** What they compute *)

Lemma rows_in_one n mem rows i x : rows_in n 1 mem rows → rows !! i = Some [x] → nth i mem 0%Z = x ∧ (i < n)%nat.
Proof. intros [_ H] Hi. destruct (H i _ Hi) as (H1 & _ & H2). rewrite Nat.mul_1_r in H2. by apply holds_one in H2. Qed.

Lemma rows_in_set n mem rows i x :
  rows_in n 1 mem rows → (i < n)%nat → rows_in n 1 (store_block i [x] mem) (<[i := [x]]> rows).
Proof.
  intros H Hi. destruct (rows_in_store n 1 mem rows i [] [x] H Hi (or_introl eq_refl) ltac:(done)) as [_ H'].
  cbn [length] in H'. by rewrite Nat.mul_1_r, Nat.add_0_r in H'.
Qed.

Lemma lane_block addr val n mem BLOCK :
  (0 < BLOCK)%nat → (addr + n ≤ length mem)%nat →
  apply_stores (lane_stores addr val (lanes BLOCK n)) mem = store_block addr (map val (seq 0 n)) mem.
Proof. intros HB H. rewrite lanes_seq by done. by apply lane_stores_block. Qed.

(** Where the tokens of an entry start. *)
Definition start (counts : list nat) (b : nat) : nat := sum_list (take b counts).

Section Starts.
Variable counts : list nat.
Notation start := (start counts).

Lemma start_S b : (b < length counts)%nat → start (S b) = (start b + nth b counts 0)%nat.
Proof.
  intros Hb. unfold start. destruct (lookup_lt_is_Some_2 counts b Hb) as [q Hq].
  rewrite (take_S_r _ _ q), sum_list_with_app by done. rewrite (nth_lookup_Some _ _ _ _ Hq). cbn. lia.
Qed.

Lemma start_le b b' : (b ≤ b')%nat → (start b ≤ start b')%nat.
Proof.
  intros H. unfold start. replace b' with (b + (b' - b))%nat by lia. rewrite <-take_take_drop, sum_list_with_app. lia.
Qed.

Lemma start_next b b' : (b < b')%nat → (b < length counts)%nat → (start b + nth b counts 0 ≤ start b')%nat.
Proof. intros H Hb. rewrite <-start_S by done. apply start_le. lia. Qed.

Lemma starts_apart b b' k k' :
  (b < b' < length counts)%nat → (k ≤ nth b counts 0)%nat → (start b + k ≤ start b' ∨ start b' + k' ≤ start b)%nat.
Proof. intros H Hk. left. pose proof (start_next b b'). lia. Qed.

Variable query_start_loc : list Z.
Hypothesis Hloc : ∀ b, (b ≤ length counts)%nat → nth b query_start_loc 0%Z = Z.of_nat (start b).

Lemma entry_locs b : (b < length counts)%nat →
  nth b query_start_loc 0%Z = Z.of_nat (start b) ∧ nth (b + 1) query_start_loc 0%Z = (Z.of_nat (start b) + Z.of_nat (nth b counts 0%nat))%Z.
Proof. intros Hb. rewrite !Hloc by lia. rewrite Nat.add_1_r, start_S by done. lia. Qed.

End Starts.

(** As many counts as there were. *)
Lemma num_sampled_length ns nr seq_lens cu_num_logits idx prefill :
  (length idx ≤ length ns)%nat → length (get_num_sampled_and_rejected ns nr seq_lens cu_num_logits idx prefill).1 = length ns.
Proof.
  intros Hle. unfold get_num_sampled_and_rejected. set (P := λ (k : nat) (m : list Z * list Z), length m.1 = length ns).
  assert (P (length idx) (launch (length idx) (_get_num_sampled_and_rejected_kernel seq_lens cu_num_logits idx prefill) (ns, nr))); [|done].
  apply launch_ind; unfold P; [done|]. intros k m Hk Hm. unfold _get_num_sampled_and_rejected_kernel. cbn [fst].
  rewrite store_block_length; [done|cbn; lia].
Qed.

Section Batch.
(** The slot and the number of tokens of every entry. *)
Variables (idx counts : list nat) (query_start_loc : list Z).
Notation start := (start counts).
Hypotheses (Hlen : length idx = length counts)
  (Hloc : ∀ b, (b ≤ length counts)%nat → nth b query_start_loc 0%Z = Z.of_nat (start b)).

(** A prefilling entry gets its own tokens from the computed ones on. *)
Lemma prefill_inputs_ok n stride all rows prefill computed input_ids next_prefill :
  rows_in n stride all rows → (start (length counts) ≤ length input_ids)%nat →
  (∀ b i, idx !! b = Some i → (nth i computed 0 < nth i prefill 0)%Z →
     ∃ r, rows !! i = Some r ∧ (0 ≤ nth i computed 0)%Z ∧ (Z.to_nat (nth i computed 0%Z) + nth b counts 0 ≤ length r)%nat) →
  let out := (prepare_prefill_inputs input_ids next_prefill idx query_start_loc all stride prefill computed).1 in
  length out = length input_ids
  ∧ ∀ b i r, idx !! b = Some i → (nth i computed 0 < nth i prefill 0)%Z → rows !! i = Some r →
      holds_at out (start b) (slice (Z.to_nat (nth i computed 0%Z)) (Z.to_nat (nth i computed 0%Z) + nth b counts 0%nat) r).
Proof.
  intros [_ Hr] Hfit Hb out. unfold out, prepare_prefill_inputs. clear out. rewrite Hlen.
  set (c := λ b, nth (nth b idx 0%nat) computed 0%Z). set (pre := λ b, (nth (nth b idx 0%nat) prefill 0 <=? c b)%Z).
  set (row := λ b, default [] (rows !! nth b idx 0%nat)).
  set (blk := λ b, if pre b then [] else slice (Z.to_nat (c b)) (Z.to_nat (c b) + nth b counts 0%nat) (row b)).
  assert (∀ b, (b < length counts)%nat → pre b = false →
            rows !! nth b idx 0%nat = Some (row b) ∧ (0 ≤ c b)%Z ∧ (Z.to_nat (c b) + nth b counts 0 ≤ length (row b))%nat) as Hrow.
  { intros b Hlt Hp. destruct (lookup_lt_is_Some_2 idx b ltac:(lia)) as [i Hi]. unfold row, pre, c in *.
    rewrite (nth_lookup_Some _ _ _ _ Hi) in *. apply Z.leb_gt in Hp. destruct (Hb b i Hi Hp) as (r & E & ? & ?). by rewrite E. }
  assert (∀ b, (b < length counts)%nat → (length (blk b) ≤ nth b counts 0)%nat) as Hblk.
  { intros b Hlt. unfold blk. destruct (pre b); [cbn; lia|]. rewrite slice_length. lia. }
  destruct (launch_holds fst (length counts)
    (_prepare_prefill_inputs_kernel 1024 idx query_start_loc all stride prefill computed) (input_ids, next_prefill) start blk)
    as (L1 & L2 & _).
  - intros b m Hlt Hm. cbn [fst] in Hm. unfold _prepare_prefill_inputs_kernel. fold (c b). change (nth (nth b idx 0%nat) prefill 0 <=? c b)%Z with (pre b).
    unfold blk. destruct (pre b) eqn:Ep; [by rewrite store_block_nil|]. cbn [fst]. destruct (entry_locs counts query_start_loc Hloc b Hlt) as [-> ->].
    destruct (Hrow b Hlt Ep) as (Er & Hc & Hl). rewrite Z.add_simpl_l, !Nat2Z.id. pose proof (start_next counts b (length counts) Hlt Hlt).
    rewrite lane_block by lia. f_equal. apply nth_ext with 0%Z 0%Z; [rewrite length_map, length_seq, slice_length; lia|].
    intros o Ho. rewrite length_map, length_seq in Ho. rewrite nth_tabulate by done. destruct (Hr _ _ Er) as (_ & _ & Hh).
    unfold slice. rewrite nth_firstn, nth_skipn, (proj2 (Nat.ltb_lt _ _)) by lia. rewrite <-Hh by lia. f_equal. lia.
  - intros b Hlt. cbn [fst]. pose proof (Hblk b Hlt). pose proof (start_next counts b (length counts) Hlt Hlt). lia.
  - intros p q Hpq. apply (starts_apart counts); [done|]. apply Hblk. lia.
  - split; [done|]. intros b i r Hi Hc Er. assert (b < length counts)%nat as Hlt by (rewrite <-Hlen; by eapply lookup_lt_Some).
    specialize (L2 b Hlt). unfold blk, pre, row, c in L2. rewrite (nth_lookup_Some _ _ _ _ Hi), Er in L2. by rewrite (proj2 (Z.leb_gt _ _)) in L2.
Qed.

(** Every entry gets its positions and its length. *)
Lemma pos_seq_lens_ok computed pos seq_lens :
  (start (length counts) ≤ length pos)%nat → (length counts ≤ length seq_lens)%nat →
  let out := prepare_pos_seq_lens idx query_start_loc computed pos seq_lens in
  length out.1 = length pos ∧ length out.2 = length seq_lens
  ∧ ∀ b i, idx !! b = Some i →
      holds_at out.1 (start b) (map (λ o, nth i computed 0 + Z.of_nat o)%Z (seq 0 (nth b counts 0%nat)))
      ∧ nth b out.2 0%Z = (nth i computed 0 + Z.of_nat (nth b counts 0%nat))%Z.
Proof.
  intros Hp Hs out. unfold out, prepare_pos_seq_lens. clear out. rewrite Hlen. set (n := length counts) in *.
  set (prog := _prepare_pos_seq_lens_kernel _ _ _ _ _ _). set (c := λ b, nth (nth b idx 0%nat) computed 0%Z).
  set (blk1 := λ b, if (b =? n)%nat then [] else map (λ o, c b + Z.of_nat o)%Z (seq 0 (nth b counts 0%nat))).
  set (blk2 := λ b, if (b =? n)%nat then map (λ _, 0%Z) (seq 0 (length seq_lens - n)) else [(c b + Z.of_nat (nth b counts 0%nat))%Z]).
  assert (∀ b, (b < n)%nat → (b =? n)%nat = false) as Hne by (intros; apply Nat.eqb_neq; lia).
  destruct (launch_holds fst (n + 1) prog (pos, seq_lens) start blk1) as (L1 & L2 & _).
  - intros b m Hlt Hm. cbn [fst] in Hm. unfold prog, _prepare_pos_seq_lens_kernel, blk1. destruct (Nat.eqb_spec b n) as [->|Hb]; cbn [fst]; [by rewrite store_block_nil|].
    assert (b < n)%nat as Hb' by lia. destruct (entry_locs counts query_start_loc Hloc b Hb') as [-> ->]. rewrite Z.add_simpl_l, !Nat2Z.id.
    pose proof (start_next counts b n Hb' Hb'). by rewrite lane_block by lia.
  - intros b Hlt. cbn [fst]. unfold blk1. destruct (Nat.eqb_spec b n) as [->|Hb]; [cbn; lia|]. rewrite length_map, length_seq.
    pose proof (start_next counts b n). lia.
  - intros p q Hpq. unfold blk1. rewrite Hne by lia. rewrite length_map, length_seq. destruct (Nat.eqb_spec q n) as [->|Hq].
    + left. apply start_next; lia.
    + apply (starts_apart counts); [unfold n in *; lia|done].
  - destruct (launch_holds snd (n + 1) prog (pos, seq_lens) Datatypes.id blk2) as (M1 & M2 & _).
    + intros b m Hlt Hm. cbn [snd] in Hm. unfold prog, _prepare_pos_seq_lens_kernel, blk2, Datatypes.id. destruct (Nat.eqb_spec b n) as [->|Hb]; cbn [snd].
      * by rewrite lane_block by lia.
      * assert (b < n)%nat as Hb' by lia. destruct (entry_locs counts query_start_loc Hloc b Hb') as [-> ->]. by rewrite Z.add_simpl_l.
    + intros b Hlt. cbn [snd]. unfold blk2, Datatypes.id. destruct (Nat.eqb_spec b n) as [->|Hb]; [rewrite length_map, length_seq|cbn]; lia.
    + intros p q Hpq. unfold blk2, Datatypes.id. rewrite (Hne p) by lia. cbn. lia.
    + split; [done|]. split; [done|]. intros b i Hi. assert (b < n)%nat as Hlt by (rewrite <-Hlen; by eapply lookup_lt_Some).
      specialize (L2 b ltac:(lia)). specialize (M2 b ltac:(lia)). unfold blk1, blk2, c, Datatypes.id in *. rewrite Hne in * by done.
      rewrite (nth_lookup_Some _ _ _ _ Hi) in *. split; [done|]. by apply holds_one.
Qed.

Section Logits.
(** Without draft tokens every entry has one logit. *)
Variable cu_num_logits : list Z.
Hypothesis Hcu : ∀ b, (b ≤ length counts)%nat → nth b cu_num_logits 0%Z = Z.of_nat b.

(** An entry whose sequence goes past its prefill tokens gets its last sampled token
    at the end; the tokens of the others stay. *)
Lemma combine_ok last_sampled seq_lens prefill draft input_ids logits :
  Forall (λ q, 0 < q)%nat counts → (start (length counts) ≤ length input_ids)%nat → (length counts ≤ length logits)%nat →
  ∃ out, combine_sampled_and_draft_tokens input_ids idx last_sampled query_start_loc seq_lens prefill draft 0 cu_num_logits logits 1 = Ok out
  ∧ length out.1 = length input_ids ∧ length out.2 = length logits
  ∧ ∀ b i, idx !! b = Some i →
      nth b out.2 0%Z = (Z.of_nat (start b + nth b counts 0%nat) - 1)%Z
      ∧ if (nth b seq_lens 0 <=? nth i prefill 0)%Z
        then ∀ r, (length r ≤ nth b counts 0)%nat → holds_at input_ids (start b) r → holds_at out.1 (start b) r
        else nth (start b + (nth b counts 0%nat - 1)) out.1 0%Z = nth i last_sampled 0%Z.
Proof.
  intros Hpos Hfit Hlog. eexists. split; [reflexivity|]. rewrite Hlen. set (n := length counts) in *.
  set (prog := _combine_sampled_and_draft_tokens_kernel _ _ _ _ _ _ _ _ _ _).
  set (past := λ b, negb (nth b seq_lens 0 <=? nth (nth b idx 0%nat) prefill 0)%Z).
  set (addr := λ b, (start b + (if past b then nth b counts 0 - 1 else 0))%nat).
  set (blk := λ b, if past b then [nth (nth b idx 0%nat) last_sampled 0%Z] else []).
  assert (∀ b, (b < n)%nat → (0 < nth b counts 0)%nat) as Hq.
  { intros b Hb. rewrite Forall_lookup in Hpos. destruct (lookup_lt_is_Some_2 counts b Hb) as [q Eq].
    rewrite (nth_lookup_Some _ _ _ _ Eq). by eapply Hpos. }
  assert (∀ b m, (b < n)%nat → prog b m = (store_block (addr b) (blk b) m.1, store_block b [(Z.of_nat (start b + nth b counts 0%nat) - 1)%Z] m.2)) as Hprog.
  { intros b m Hb. unfold prog, _combine_sampled_and_draft_tokens_kernel, blk, past. destruct (entry_locs counts query_start_loc Hloc b Hb) as [_ ->].
    rewrite !Hcu by (fold n; lia). specialize (Hq b Hb). replace (Z.of_nat (b + 1) - Z.of_nat b)%Z with 1%Z by lia.
    change (next_power_of_2 (0 + 1)) with 1%nat. cbn [seq List.filter]. change (0 <? 1 - Z.of_nat 1)%Z with false.
    change (Z.of_nat 0 <? 1)%Z with true. cbn [Nat.ltb Nat.leb lane_stores map apply_stores fold_left fst snd]. rewrite Nat2Z.id, Nat.add_0_r.
    replace (Z.of_nat (start b) + Z.of_nat (nth b counts 0%nat) - 1 + Z.of_nat 0)%Z with (Z.of_nat (start b + nth b counts 0%nat) - 1)%Z by lia.
    destruct (nth b seq_lens 0 <=? _)%Z eqn:Ep; cbn [negb]; [by rewrite store_block_nil|]. unfold addr, past. rewrite Ep. do 2 f_equal.
    cbn [negb]. lia. }
  assert (∀ b, (b < n)%nat → (start b ≤ addr b)%nat ∧ (addr b + length (blk b) ≤ start b + nth b counts 0)%nat) as Hblk.
  { intros b Hb. pose proof (Hq b Hb). unfold addr, blk. destruct (past b); cbn; lia. }
  destruct (launch_holds fst n prog (input_ids, logits) addr blk) as (L1 & L2 & L3).
  { intros b m Hb _. by rewrite Hprog. }
  { intros b Hb. cbn [fst]. pose proof (Hblk b Hb). pose proof (start_next counts b n Hb Hb). lia. }
  { intros a b Hab. pose proof (Hblk a ltac:(lia)). pose proof (Hblk b ltac:(lia)). pose proof (start_next counts a b). unfold n in *. lia. }
  destruct (launch_holds snd n prog (input_ids, logits) Datatypes.id (λ b, [(Z.of_nat (start b + nth b counts 0%nat) - 1)%Z])) as (M1 & M2 & _).
  { intros b m Hb _. by rewrite Hprog. }
  { intros b Hb. cbn. unfold Datatypes.id. lia. }
  { intros a b Hab. cbn. unfold Datatypes.id. lia. }
  split; [done|]. split; [done|]. intros b i Hi. assert (b < n)%nat as Hb by (rewrite <-Hlen; by eapply lookup_lt_Some).
  split; [apply holds_one, (M2 b Hb)|]. specialize (L2 b Hb).
  destruct (nth b seq_lens 0 <=? nth i prefill 0)%Z eqn:Ep.
  - intros r Hr Hold. apply L3; [|done]. intros b' Hb'. pose proof (Hblk b' Hb'). destruct (Nat.lt_trichotomy b b') as [H'|[<-|H']].
    + left. pose proof (start_next counts b b' H' Hb). lia.
    + right. unfold addr, blk, past. rewrite (nth_lookup_Some _ _ _ _ Hi), Ep. cbn. lia.
    + right. pose proof (start_next counts b' b H' Hb'). lia.
  - unfold blk, addr, past in L2. rewrite (nth_lookup_Some _ _ _ _ Hi), Ep in L2. by apply holds_one.
Qed.

(** A chunk that leaves prefill tokens samples nothing; nothing is ever rejected. *)
Lemma num_sampled_ok seq_lens prefill num_rejected :
  (length counts ≤ length num_rejected)%nat →
  let out := get_num_sampled_and_rejected (replicate (length counts) 1%Z) num_rejected seq_lens cu_num_logits idx prefill in
  ∀ b i, idx !! b = Some i →
    nth b out.1 0%Z = (if (nth b seq_lens 0 <? nth i prefill 0)%Z then 0%Z else 1%Z) ∧ nth b out.2 0%Z = 0%Z.
Proof.
  intros Hrej out b i Hi. unfold out, get_num_sampled_and_rejected. clear out. rewrite Hlen. set (n := length counts) in *.
  assert (b < n)%nat as Hb by (rewrite <-Hlen; by eapply lookup_lt_Some).
  set (v := λ b, if (nth b seq_lens 0 <? nth (nth b idx 0%nat) prefill 0)%Z then 0%Z else 1%Z).
  assert (v b = if (nth b seq_lens 0 <? nth i prefill 0)%Z then 0%Z else 1%Z) as <- by (unfold v; by rewrite (nth_lookup_Some _ _ _ _ Hi)).
  assert (∀ k m, nth k m.1 0%Z = 1%Z → (k < n)%nat →
            _get_num_sampled_and_rejected_kernel seq_lens cu_num_logits idx prefill k m = (store_block k [v k] m.1, store_block k [0%Z] m.2)) as Hprog.
  { intros k m H1 Hk. unfold _get_num_sampled_and_rejected_kernel, v. rewrite H1, !Hcu by (fold n; lia). destruct (_ <? _)%Z; [done|]. do 3 f_equal. lia. }
  set (P := λ k (m : list Z * list Z), length m.1 = n ∧ length m.2 = length num_rejected ∧ (∀ b, (k ≤ b < n)%nat → nth b m.1 0%Z = 1%Z)
                ∧ ∀ b, (b < k)%nat → nth b m.1 0%Z = v b ∧ nth b m.2 0%Z = 0%Z).
  assert (P n (launch n (_get_num_sampled_and_rejected_kernel seq_lens cu_num_logits idx prefill) (replicate n 1%Z, num_rejected))) as (_ & _ & _ & Hd); [|by apply Hd].
  apply launch_ind; unfold P; cbn [fst snd].
  - rewrite length_replicate. split_and!; [done|done| |lia]. intros k Hk. rewrite nth_lookup, lookup_replicate_2 by lia. done.
  - intros k m Hk (P1 & P2 & P3 & P4). rewrite Hprog by (try apply P3; lia). cbn [fst snd]. rewrite !store_block_length by (cbn; lia).
    split; [done|]. split; [done|]. split; intros j Hj; rewrite !store_block_nth by (cbn; lia); cbn [length].
    + destruct (Nat.leb_spec k j), (Nat.ltb_spec j (k + 1)); cbn [andb]; try lia. apply P3. lia.
    + destruct (Nat.leb_spec k j), (Nat.ltb_spec j (k + 1)); cbn [andb]; try lia; [|apply P4; lia].
      assert (j = k) as -> by lia. by rewrite Nat.sub_diag.
Qed.
End Logits.

(** A program of the update takes its slot to its next contents. *)
Lemma post_update_program n stride m S b i s sampled num_sampled num_rejected :
  post_ok n stride m S → idx !! b = Some i → S !! i = Some s → nth b num_rejected 0%Z = 0%Z →
  (nth b num_sampled 0 = 0 ∨ nth b num_sampled 0 = 1)%Z → (length (sl_tokens s) + Z.to_nat (nth b num_sampled 0%Z) ≤ stride)%nat →
  post_ok n stride (_post_update_kernel idx sampled 1 num_sampled num_rejected query_start_loc stride b m)
    (<[i := slot_step (nth b counts 0%nat) (if (nth b num_sampled 0 =? 1)%Z then [nth b sampled 0%Z] else []) s]> S).
Proof.
  intros (HA & HC & HT & HL & HP) Hi Hs Hrej Hnum Hfit.
  assert (b < length counts)%nat as Hb by (rewrite <-Hlen; by eapply lookup_lt_Some).
  assert (token_rows S !! i = Some (sl_tokens s) ∧ computed_rows S !! i = Some [sl_computed s]
          ∧ length_rows S !! i = Some [Z.of_nat (length (sl_tokens s))]) as (EA & EC & ET)
    by (unfold token_rows, computed_rows, length_rows; by rewrite !lookup_fmap, Hs).
  destruct (rows_in_one _ _ _ _ _ HC EC) as [Ec Hin]. destruct (rows_in_one _ _ _ _ _ HT ET) as [Et _]. pose proof (HP i s Hs) as Hpre.
  unfold _post_update_kernel. rewrite (nth_lookup_Some _ _ _ _ Hi), Et, Hrej. destruct (entry_locs counts query_start_loc Hloc b Hb) as [-> ->].
  rewrite Z.add_simpl_l, Z.sub_0_r. set (q := nth b counts 0%nat).
  assert (∀ m' toks, post_ok n stride m' (<[i := slot_step 0 toks s]> S) → nth i (pm_num_computed_tokens m') 0%Z = sl_computed s →
            post_ok n stride (if (Z.of_nat q =? 0)%Z then m'
              else mkPost (store_block i [(nth i (pm_num_computed_tokens m') 0 + Z.of_nat q)%Z] (pm_num_computed_tokens m'))
                     (pm_last_sampled_tokens m') (pm_output_bin_counts m') (pm_all_token_ids m') (pm_total_len m'))
              (<[i := slot_step q toks s]> S)) as Hcomp.
  { intros m' toks (A & C & T & L & P) Ec'. destruct (Z.eqb_spec (Z.of_nat q) 0) as [E0|_]; [replace q with 0%nat by lia; by split_and!|].
    unfold post_ok, token_rows, computed_rows, length_rows, last_rows in *. cbn [pm_all_token_ids pm_num_computed_tokens pm_total_len pm_last_sampled_tokens].
    rewrite !fmap_insert in *. split; [done|]. split.
    - rewrite Ec'. cbn [sl_computed slot_step] in *. apply (rows_in_set _ _ _ i (sl_computed s + Z.of_nat q)) in C; [|done]. by rewrite insert_insert_eq in C.
    - split; [done|]. split; [|intros j sj Hj; apply lookup_insert_Some in Hj as [[<- <-]|[? Hj]]; [apply (P i (slot_step 0 toks s)), lookup_insert_eq|by eapply HP]].
      rewrite omap_insert in *. exact L. }
  destruct Hnum as [En|En]; rewrite En in *; cbn [Z.eqb Pos.eqb].
  - change (Z.to_nat 0) with 0%nat. cbn [Nat.ltb Nat.leb seq fold_left]. apply Hcomp; [|exact Ec].
    assert (slot_step 0 [] s = s) as -> by (destruct s; unfold slot_step; cbn; by rewrite app_nil_r, Z.add_0_r).
    rewrite insert_id by done. by split_and!.
  - change (Z.to_nat 1) with 1%nat in *. cbn [Nat.ltb Nat.leb Nat.sub seq fold_left pm_num_computed_tokens pm_last_sampled_tokens pm_output_bin_counts pm_all_token_ids pm_total_len].
    rewrite Nat2Z.id, ?Nat.add_0_r, Nat.mul_1_r. apply Hcomp; [|exact Ec].
    unfold post_ok, token_rows, computed_rows, length_rows, last_rows in *. cbn [pm_all_token_ids pm_num_computed_tokens pm_total_len pm_last_sampled_tokens].
    rewrite !fmap_insert, omap_insert. cbn [slot_step sl_tokens sl_computed].
    assert (sl_last (slot_step 0 [nth b sampled 0%Z] s) = Some [nth b sampled 0%Z]) as ->.
    { unfold sl_last, slot_step. cbn [sl_tokens sl_prefill]. rewrite length_app. cbn [length]. rewrite (proj2 (Nat.ltb_lt _ _)) by lia.
      rewrite Nat.add_sub, app_nth2, Nat.sub_diag by lia. done. }
    split; [|split; [|split; [|split]]].
    + by apply rows_in_store; [..|by right|].
    + rewrite Z.add_0_r, insert_id by done. done.
    + rewrite length_app, Nat2Z.inj_add. by apply rows_in_set.
    + by apply rows_in_set.
    + intros j sj [[<- <-]|[? Hj]]%lookup_insert_Some; [unfold slot_step; cbn [sl_prefill sl_tokens]; rewrite length_app; lia|by eapply HP].
Qed.

(** The update takes the slots of the batch to their next contents, and no other. *)
Lemma post_update_ok n stride m S sampled num_sampled num_rejected :
  NoDup idx → post_ok n stride m S →
  (∀ b i, idx !! b = Some i → nth b num_rejected 0%Z = 0%Z ∧ (nth b num_sampled 0 = 0 ∨ nth b num_sampled 0 = 1)%Z
     ∧ ∃ s, S !! i = Some s ∧ (length (sl_tokens s) + Z.to_nat (nth b num_sampled 0%Z) ≤ stride)%nat) →
  ∃ S', post_ok n stride (post_update idx sampled 1 num_sampled num_rejected query_start_loc stride m) S'
  ∧ (∀ b i, idx !! b = Some i →
       S' !! i = slot_step (nth b counts 0%nat) (if (nth b num_sampled 0 =? 1)%Z then [nth b sampled 0%Z] else []) <$> S !! i)
  ∧ ∀ i, i ∉ idx → S' !! i = S !! i.
Proof.
  intros Hnd Hm Hb. unfold post_update. 
  set (step := λ b, slot_step (nth b counts 0%nat) (if (nth b num_sampled 0 =? 1)%Z then [nth b sampled 0%Z] else [])).
  enough (∃ S', post_ok n stride (launch (length idx)
              (_post_update_kernel idx sampled 1 num_sampled num_rejected query_start_loc stride) m) S'
    ∧ (∀ b i, idx !! b = Some i → S' !! i = if (b <? length idx)%nat then step b <$> S !! i else S !! i) ∧ ∀ i, i ∉ idx → S' !! i = S !! i)
    as (S' & H1 & H2 & H3).
  { exists S'. split; [done|]. split; [|done]. intros b i Hi. rewrite (H2 b i Hi), (proj2 (Nat.ltb_lt _ _)); [done|by eapply lookup_lt_Some]. }
  apply (launch_ind (λ k m, ∃ S', post_ok n stride m S'
    ∧ (∀ b i, idx !! b = Some i → S' !! i = if (b <? k)%nat then step b <$> S !! i else S !! i) ∧ ∀ i, i ∉ idx → S' !! i = S !! i)).
  { by exists S. }
  intros k m' Hk (S' & H1 & H2 & H3). destruct (lookup_lt_is_Some_2 idx k Hk) as [i Hi].
  destruct (Hb k i Hi) as (Hrej & Hnum & s & Hs & Hfit).
  assert (S' !! i = Some s) as Hs' by (rewrite (H2 k i Hi), Nat.ltb_irrefl; done).
  eexists. split; [by apply (post_update_program n stride m' S' k i s)|]. split.
  - intros b j Hj. destruct (decide (b = k)) as [->|Hne].
    + rewrite Hj in Hi. injection Hi as ->. rewrite lookup_insert_eq, (proj2 (Nat.ltb_lt _ _)), Hs by lia. done.
    + rewrite lookup_insert_ne by (intros <-; apply Hne; by eapply NoDup_lookup). rewrite (H2 b j Hj).
      destruct (Nat.ltb_spec b k), (Nat.ltb_spec b (Datatypes.S k)); done || lia.
  - intros j Hj. rewrite lookup_insert_ne; [by apply H3|]. intros <-. apply Hj. by eapply list_elem_of_lookup_2.
Qed.
End Batch.
