(* ===== verification/BlockTables.v ===== *)
(** * The block tables of the worker

    [v1/worker/gpu/block_table.py] [BlockTables] for one group of the cache: the table
    of block numbers of every request slot, written through [StagedTensor], the kernel
    that copies the rows of a batch, in its order, to the tensor the attention reads,
    and the kernel that computes the slots of the batch's tokens. *)

From Stdlib Require Import ZArith Lia.
From stdpp Require Import base tactics numbers list option gmap.
From S2P Require Import Prelude Torch Quant Tab Triton Stores StagedTensor InputBatch.

(** ** The tables *)

Record BlockTables := mkTables {
  bt_table : StagedWriteTensor;        (* block_tables[0] *)
  bt_num_blocks : list nat;            (* num_blocks.np[0] *)
  bt_num_blocks_gpu : list nat;        (* num_blocks.gpu[0] *)
  bt_input : list Z;                   (* input_block_tables[0] *)
  bt_max_num_reqs : nat;
  bt_blocks_per_kv_block : nat;
  bt_kernel_block_size : Z;
  bt_slot_mappings : list Z;           (* slot_mappings[0] *)
  bt_cp_size : Z;
  bt_cp_rank : Z;
  bt_cp_interleave : Z
}.

(** The same tables with another device tensor, host and device counts, or input. *)
Definition with_tables (s : BlockTables) (t : StagedWriteTensor) (num_blocks num_blocks_gpu : list nat) (input slots : list Z) : BlockTables :=
  mkTables t num_blocks num_blocks_gpu input (bt_max_num_reqs s) (bt_blocks_per_kv_block s) (bt_kernel_block_size s) slots
    (bt_cp_size s) (bt_cp_rank s) (bt_cp_interleave s).

(** The table of the blocks of the kernel: [kernel_block_size] divides the block. *)
Definition kernel_blocks (bpk : nat) (block_ids : list Z) : list Z :=
  if (1 <? bpk)%nat then flat_map (λ b, map (λ k, b * Z.of_nat bpk + Z.of_nat k)%Z (seq 0 bpk)) block_ids else block_ids.

Module Tables.

Definition init (block_size kernel_block_size max_num_reqs max_num_batched_tokens max_num_blocks_per_group : nat)
    (cp_size cp_rank cp_interleave : Z) : BlockTables :=
  let bpk := (block_size / kernel_block_size)%nat in
  let t := StagedWrite.init max_num_reqs (max_num_blocks_per_group * bpk) in
  mkTables t (replicate max_num_reqs 0%nat) (replicate max_num_reqs 0%nat) (sw_gpu t) max_num_reqs bpk (Z.of_nat kernel_block_size)
    (replicate max_num_batched_tokens 0%Z) cp_size cp_rank cp_interleave.

Definition on_table (m : ST StagedWriteTensor unit) : ST BlockTables unit := λ s,
  let '(r, t) := m (bt_table s) in
  (r, with_tables s t (bt_num_blocks s) (bt_num_blocks_gpu s) (bt_input s) (bt_slot_mappings s)).

Definition append_block_ids (req_index : nat) (new_block_ids : list Z) (overwrite : bool) : ST BlockTables unit :=
  s ← st_get;
  let start := if negb overwrite then nth req_index (bt_num_blocks s) 0%nat else 0%nat in
  let block_ids := kernel_blocks (bt_blocks_per_kv_block s) new_block_ids in
  on_table (StagedWrite.stage_write req_index start block_ids);;
  st_modify (λ s, with_tables s (bt_table s) (<[req_index := (start + length block_ids)%nat]> (bt_num_blocks s)) (bt_num_blocks_gpu s)
    (bt_input s) (bt_slot_mappings s)).

Definition apply_staged_writes : ST BlockTables unit :=
  on_table StagedWrite.apply_write;;
  st_modify (λ s, with_tables s (bt_table s) (bt_num_blocks s) (bt_num_blocks s) (bt_input s) (bt_slot_mappings s)).

(** A program of [_gather_block_tables_kernel]: a row of the batch, or a padded row. *)
Definition _gather_block_tables_kernel (BLOCK_SIZE : nat) (idx_mapping : list nat) (src : list Z) (stride : nat) (num_blocks : list nat)
    (num_reqs : nat) (batch_idx : nat) (mem : list Z) : list Z :=
  let dst_row := (batch_idx * stride)%nat in
  if (num_reqs <=? batch_idx)%nat then apply_stores (lane_stores dst_row (λ _, 0%Z) (lanes BLOCK_SIZE stride)) mem
  else
    let req_idx := nth batch_idx idx_mapping 0%nat in
    apply_stores (lane_stores dst_row (λ o, nth (req_idx * stride + o) src 0%Z) (lanes BLOCK_SIZE (nth req_idx num_blocks 0%nat))) mem.

Definition gather_block_tables (idx_mapping : list nat) (num_reqs_padded : nat) : ST BlockTables (list (list Z)) := λ s,
  let t := bt_table s in
  let input := launch num_reqs_padded
    (_gather_block_tables_kernel 1024 idx_mapping (sw_gpu t) (sw_stride t) (bt_num_blocks_gpu s) (length idx_mapping)) (bt_input s) in
  (Ok (map (λ b, load_block (sw_stride t) (b * sw_stride t) input) (seq 0 num_reqs_padded)),
   with_tables s t (bt_num_blocks s) (bt_num_blocks_gpu s) input (bt_slot_mappings s)).

(** The slot of a token; [PAD_SLOT_ID] is minus one.  Positions are not negative, so
    the kernel's division is the floor. *)
Definition slot_of (block_size cp_rank CP_SIZE CP_INTERLEAVE : Z) (block_number : Z → Z) (position : Z) : Z :=
  let block_offsets := (position `mod` (block_size * CP_SIZE))%Z in
  let block_numbers := block_number (position `div` (block_size * CP_SIZE))%Z in
  if (CP_SIZE =? 1)%Z then (block_numbers * block_size + block_offsets)%Z
  else
    let is_local := (block_offsets `div` CP_INTERLEAVE `mod` CP_SIZE =? cp_rank)%Z in
    let rounds := (block_offsets `div` (CP_INTERLEAVE * CP_SIZE))%Z in
    let remainder := (block_offsets `mod` CP_INTERLEAVE)%Z in
    let local_offsets := (rounds * CP_INTERLEAVE + remainder)%Z in
    if is_local then (block_numbers * block_size + local_offsets)%Z else (-1)%Z.

(** A program of [_compute_slot_mappings_kernel]; the last one pads behind the batch. *)
Definition _compute_slot_mappings_kernel (TRITON_BLOCK_SIZE max_num_tokens : nat) (idx_mapping : list nat) (query_start_loc pos : list Z)
    (block_table : list Z) (stride : nat) (block_size cp_rank CP_SIZE CP_INTERLEAVE : Z) (num_reqs batch_idx : nat) (mem : list Z) : list Z :=
  if (batch_idx =? num_reqs)%nat then
    let actual_num_tokens := Z.to_nat (nth batch_idx query_start_loc 0%Z) in
    apply_stores (lane_stores actual_num_tokens (λ _, (-1)%Z) (lanes TRITON_BLOCK_SIZE (max_num_tokens - actual_num_tokens))) mem
  else
    let req_state_idx := nth batch_idx idx_mapping 0%nat in
    let start_idx := Z.to_nat (nth batch_idx query_start_loc 0%Z) in
    let end_idx := Z.to_nat (nth (batch_idx + 1) query_start_loc 0%Z) in
    apply_stores (lane_stores start_idx
      (λ o, slot_of block_size cp_rank CP_SIZE CP_INTERLEAVE
              (λ block_indices, nth (req_state_idx * stride + Z.to_nat block_indices) block_table 0%Z) (nth (start_idx + o) pos 0%Z))
      (lanes TRITON_BLOCK_SIZE (end_idx - start_idx))) mem.

Definition compute_slot_mappings (idx_mapping : list nat) (query_start_loc positions : list Z) (num_tokens_padded : nat) :
    ST BlockTables (list Z) := λ s,
  let slots := launch (length idx_mapping + 1)
    (_compute_slot_mappings_kernel 1024 (length (bt_slot_mappings s)) idx_mapping query_start_loc positions (sw_gpu (bt_table s))
       (sw_stride (bt_table s)) (bt_kernel_block_size s) (bt_cp_rank s) (bt_cp_size s) (bt_cp_interleave s) (length idx_mapping))
    (bt_slot_mappings s) in
  (Ok (take num_tokens_padded slots),
   with_tables s (bt_table s) (bt_num_blocks s) (bt_num_blocks_gpu s) (bt_input s) slots).

End Tables.

(** ** What the tables hold *)

(** Every slot in use has its row: the staged writes included, its length is the
    count of the host. *)
Definition tables_ok (bt : BlockTables) (ws : list Write) (rows : gmap nat (list Z)) : Prop :=
  tensor_rows (bt_table bt) ws rows ∧ sw_num_rows (bt_table bt) = bt_max_num_reqs bt
  ∧ length (bt_num_blocks bt) = bt_max_num_reqs bt ∧ length (bt_input bt) = (bt_max_num_reqs bt * sw_stride (bt_table bt))%nat
  ∧ ∀ i r, rows !! i = Some r → nth i (bt_num_blocks bt) 0%nat = length r.

Definition same_layout (bt bt' : BlockTables) : Prop :=
  bt_max_num_reqs bt' = bt_max_num_reqs bt ∧ bt_blocks_per_kv_block bt' = bt_blocks_per_kv_block bt
  ∧ sw_stride (bt_table bt') = sw_stride (bt_table bt) ∧ length (bt_slot_mappings bt') = length (bt_slot_mappings bt)
  ∧ (bt_kernel_block_size bt', bt_cp_size bt', bt_cp_rank bt', bt_cp_interleave bt')
    = (bt_kernel_block_size bt, bt_cp_size bt, bt_cp_rank bt, bt_cp_interleave bt).

#[export] Instance same_layout_preorder : PreOrder same_layout.
Proof. split; [done|]. intros a b c (H1 & H2 & H3 & H4 & H5) (K1 & K2 & K3 & K4 & K5). unfold same_layout. by rewrite K1, K2, K3, K4, K5. Qed.

Lemma tables_init_ok bs kbs max_num_reqs tokens blocks cp rank inter : tables_ok (Tables.init bs kbs max_num_reqs tokens blocks cp rank inter) [] ∅.
Proof. split_and!; [apply tensor_rows_init|done|apply length_replicate|apply length_replicate|done]. Qed.

Lemma tables_ok_forget bt ws rows rows' : rows' ⊆ rows → tables_ok bt ws rows → tables_ok bt ws rows'.
Proof.
  intros Hs (H1 & H2 & H3 & H4 & H5). split; [by eapply tensor_rows_forget|]. split_and!; try done.
  intros i r Hi. apply H5. by eapply lookup_weaken.
Qed.

Lemma append_block_ids_ok bt ws rows i ids (overwrite : bool) :
  let r0 : list Z := if overwrite then [] else default [] (rows !! i) in
  let r := r0 ++ kernel_blocks (bt_blocks_per_kv_block bt) ids in
  tables_ok bt ws rows → (i < bt_max_num_reqs bt)%nat → (overwrite = false → is_Some (rows !! i)) →
  (length r ≤ sw_stride (bt_table bt))%nat →
  ∃ bt' ws', Tables.append_block_ids i ids overwrite bt = (Ok tt, bt') ∧ tables_ok bt' ws' (<[i := r]> rows)
    ∧ same_layout bt bt' ∧ (length ws' ≤ S (length ws))%nat.
Proof.
  intros r0 r (Ht & Hrows & Hnb & Hinp & Hcnt) Hi Hover Hfit. unfold Tables.append_block_ids. rewrite st_bind_eq. cbn [st_get].
  set (e := kernel_blocks _ ids) in *. set (start := if negb overwrite then nth i (bt_num_blocks bt) 0%nat else 0%nat).
  assert (r0 = [] ∨ rows !! i = Some r0) as H0.
  { unfold r0. destruct overwrite; [by left|]. destruct (Hover eq_refl) as [r1 Hr1]. rewrite Hr1. by right. }
  assert (start = length r0) as Estart.
  { unfold start, r0. destruct overwrite; [done|]. destruct (Hover eq_refl) as [r1 Hr1]. rewrite Hr1. by apply Hcnt. }
  unfold r in Hfit. rewrite length_app in Hfit.
  destruct (stage_rows (bt_table bt) ws rows i r0 e Ht ltac:(lia) H0 Hfit) as (t' & ws' & E & Ht' & _ & [Esh1 Esh2] & Hws).
  rewrite <-Estart in E. eexists _, ws'. rewrite st_bind_eq. unfold Tables.on_table. rewrite E. split; [reflexivity|].
  split; [|by split]. unfold tables_ok. cbn [with_tables bt_table bt_num_blocks bt_input bt_max_num_reqs]. rewrite Esh1, Esh2, length_insert.
  split_and!; try done. intros j rj Hj. destruct (decide (i = j)) as [<-|Hne].
  - rewrite lookup_insert_eq in Hj. injection Hj as <-. rewrite nth_lookup, list_lookup_insert_eq by lia. cbn. unfold r. by rewrite length_app, Estart.
  - rewrite lookup_insert_ne in Hj by done. rewrite nth_lookup, list_lookup_insert_ne by done. rewrite <-nth_lookup. by apply Hcnt.
Qed.

(** Applying the staged writes: the rows are in the device tensor, with their counts. *)
Lemma apply_staged_ok bt ws rows :
  tables_ok bt ws rows → (length ws ≤ bt_max_num_reqs bt)%nat →
  ∃ bt', Tables.apply_staged_writes bt = (Ok tt, bt') ∧ tables_ok bt' [] rows ∧ same_layout bt bt'
    ∧ bt_num_blocks_gpu bt' = bt_num_blocks bt'.
Proof.
  intros (Ht & Hrows & Hnb & Hinp & Hcnt) Hn.
  destruct (apply_rows (bt_table bt) ws rows Ht ltac:(lia)) as (t' & E & Ht' & [Esh1 Esh2]).
  eexists. unfold Tables.apply_staged_writes. rewrite st_bind_eq. unfold Tables.on_table. rewrite E. split; [reflexivity|].
  split; [|by split]. unfold tables_ok. cbn [with_tables bt_table bt_num_blocks bt_input bt_max_num_reqs]. rewrite Esh1, Esh2. by split_and!.
Qed.

(** A program of the gather writes its row and no other. *)
Lemma gather_program idx_mapping src stride num_blocks num_reqs b mem r :
  (b * stride + stride ≤ length mem)%nat → (length r ≤ stride)%nat →
  (if (num_reqs <=? b)%nat then r = []
   else nth (nth b idx_mapping 0%nat) num_blocks 0%nat = length r ∧ holds_at src (nth b idx_mapping 0%nat * stride) r) →
  ∃ x, Tables._gather_block_tables_kernel 1024 idx_mapping src stride num_blocks num_reqs b mem = store_block (b * stride) x mem
    ∧ (length x ≤ stride)%nat ∧ holds_at (store_block (b * stride) x mem) (b * stride) r.
Proof.
  intros Hm Hl H. unfold Tables._gather_block_tables_kernel. rewrite !lanes_seq by lia. destruct (num_reqs <=? b)%nat.
  - subst r. rewrite lane_stores_block by lia. eexists. split; [done|]. rewrite length_map, length_seq. split; [done|].
    intros k Hk. cbn in Hk. lia.
  - destruct H as [-> Hr]. rewrite lane_stores_block by lia.
    assert (map (λ o, nth (nth b idx_mapping 0%nat * stride + o) src 0%Z) (seq 0 (length r)) = r) as ->.
    { transitivity (map (λ o, nth o r 0%Z) (seq 0 (length r))); [|apply map_nth_seq]. apply map_ext_in.
      intros o Ho%in_seq. apply Hr. lia. }
    exists r. split; [done|]. split; [done|]. apply holds_store. lia.
Qed.

(** Row [b] of the result starts with the row of the [b]-th request of the batch. *)
Lemma gather_block_tables_ok bt rows idx_mapping padded :
  tables_ok bt [] rows → bt_num_blocks_gpu bt = bt_num_blocks bt → (length idx_mapping ≤ padded ≤ bt_max_num_reqs bt)%nat →
  Forall (λ i, is_Some (rows !! i)) idx_mapping →
  ∃ out bt', Tables.gather_block_tables idx_mapping padded bt = (Ok out, bt') ∧ length out = padded
    ∧ (∀ b i r, idx_mapping !! b = Some i → rows !! i = Some r → ∃ row, out !! b = Some row ∧ r `prefix_of` row)
    ∧ tables_ok bt' [] rows ∧ same_layout bt bt' ∧ bt_num_blocks_gpu bt' = bt_num_blocks bt'.
Proof.
  intros (Ht & Hrows & Hnb & Hinp & Hcnt) Egpu Hpad Hidx. set (t := bt_table bt) in *. set (stride := sw_stride t) in *.
  destruct (applied_rows _ _ Ht) as [_ Hr].
  set (prog := Tables._gather_block_tables_kernel 1024 idx_mapping (sw_gpu t) stride (bt_num_blocks_gpu bt) (length idx_mapping)).
  set (row_of := λ b, if (length idx_mapping <=? b)%nat then [] else default [] (rows !! nth b idx_mapping 0%nat)).
  assert (∀ b, (b < padded)%nat → (length (row_of b) ≤ stride)%nat
            ∧ if (length idx_mapping <=? b)%nat then row_of b = []
              else nth (nth b idx_mapping 0%nat) (bt_num_blocks_gpu bt) 0%nat = length (row_of b)
                   ∧ holds_at (sw_gpu t) (nth b idx_mapping 0%nat * stride) (row_of b)) as Hrow.
  { intros b Hb. unfold row_of. destruct (Nat.leb_spec (length idx_mapping) b) as [H|H]; [split; [cbn; lia|done]|].
    destruct (lookup_lt_is_Some_2 idx_mapping b H) as [i Hi]. rewrite (nth_lookup_Some _ _ _ _ Hi).
    rewrite Forall_lookup in Hidx. destruct (Hidx b i Hi) as [r Hri]. rewrite Hri, Egpu. cbn.
    destruct (Hr i r Hri) as (_ & ? & ?). split_and!; [done|by apply Hcnt|done]. }
  assert (length (launch padded prog (bt_input bt)) = (bt_max_num_reqs bt * stride)%nat
          ∧ ∀ b, (b < padded)%nat → holds_at (launch padded prog (bt_input bt)) (b * stride) (row_of b)) as [Ll Hl].
  { enough (∀ k, (k ≤ padded)%nat → length (launch k prog (bt_input bt)) = (bt_max_num_reqs bt * stride)%nat
              ∧ ∀ b, (b < k)%nat → holds_at (launch k prog (bt_input bt)) (b * stride) (row_of b)) as G by (by apply G).
    induction k as [|k IH]; intros Hk; [split; [done|lia]|]. destruct IH as [I1 I2]; [lia|]. rewrite launch_S.
    set (m := launch k prog (bt_input bt)) in *. pose proof (row_in_table k (bt_max_num_reqs bt) stride ltac:(lia)) as Hfit.
    destruct (Hrow k ltac:(lia)) as [R1 R2].
    destruct (gather_program idx_mapping (sw_gpu t) stride (bt_num_blocks_gpu bt) (length idx_mapping) k m (row_of k) ltac:(lia) R1 R2)
      as (x & Ex & Lx & Hx).
    unfold prog at 1 2. rewrite Ex. split; [by rewrite store_block_length by lia|]. intros b Hb. destruct (decide (b = k)) as [->|Hne]; [done|].
    apply holds_frame; [lia| |apply I2; lia].
    pose proof (rows_apart k b stride 0 (length x) (length (row_of b))). destruct (Hrow b ltac:(lia)). lia. }
  eexists _, _. split; [reflexivity|]. fold t stride prog. split; [by rewrite length_map, length_seq|]. split; [|split; [|by split]].
  - intros b i r Hb Hri. assert (b < length idx_mapping)%nat as Hlt by (by eapply lookup_lt_Some).
    eexists. split; [rewrite lookup_map, (lookup_seq_lt 0 padded b) by lia; reflexivity|].
    assert (row_of b = r) as <-.
    { unfold row_of. destruct (Nat.leb_spec (length idx_mapping) b); [lia|]. by rewrite (nth_lookup_Some _ _ _ _ Hb), Hri. }
    pose proof (row_in_table b (bt_max_num_reqs bt) stride). apply holds_load; [|lia|]; apply Hrow || apply Hl; lia.
  - unfold tables_ok. cbn [with_tables bt_table bt_num_blocks bt_input bt_max_num_reqs]. by split_and!.
Qed.

(** The slots of the batch: token [o] of an entry lies in the block that the entry's row
    names for its position. *)
Lemma slot_mappings_ok bt rows idx counts query_start_loc positions padded (ctx : nat → Z) :
  tables_ok bt [] rows → bt_cp_size bt = 1%Z → (0 < bt_kernel_block_size bt)%Z → length idx = length counts →
  (∀ b, (b ≤ length counts)%nat → nth b query_start_loc 0%Z = Z.of_nat (start counts b)) →
  (start counts (length counts) ≤ length (bt_slot_mappings bt))%nat →
  (∀ b i, idx !! b = Some i → ∃ r, rows !! i = Some r ∧ (0 ≤ ctx b)%Z
     ∧ holds_at positions (start counts b) (map (λ o, ctx b + Z.of_nat o)%Z (seq 0 (nth b counts 0%nat)))
     ∧ (ctx b + Z.of_nat (nth b counts 0%nat) ≤ bt_kernel_block_size bt * Z.of_nat (length r))%Z) →
  ∃ bt', Tables.compute_slot_mappings idx query_start_loc positions padded bt = (Ok (take padded (bt_slot_mappings bt')), bt')
  ∧ tables_ok bt' [] rows ∧ same_layout bt bt' ∧ bt_num_blocks_gpu bt' = bt_num_blocks_gpu bt ∧ bt_num_blocks bt' = bt_num_blocks bt
  ∧ ∀ b i r, idx !! b = Some i → rows !! i = Some r →
      holds_at (bt_slot_mappings bt') (start counts b)
        (map (λ o, let p := (ctx b + Z.of_nat o)%Z in
                   (nth (Z.to_nat (p `div` bt_kernel_block_size bt)) r 0 * bt_kernel_block_size bt + p `mod` bt_kernel_block_size bt)%Z)
           (seq 0 (nth b counts 0%nat))).
Proof.
  intros Ht Hcp Hbs Hlen Hloc Hfit Hb. set (bs := bt_kernel_block_size bt) in *. set (n := length counts) in *.
  pose proof Ht as (Hrows & Hr & Hnb & Hinp & Hcnt). destruct (applied_rows _ _ Hrows) as [_ Hrow].
  set (mem := bt_slot_mappings bt) in *. exists (Tables.compute_slot_mappings idx query_start_loc positions padded bt).2. split; [done|].
  unfold Tables.compute_slot_mappings. cbn [snd with_tables bt_table bt_num_blocks bt_num_blocks_gpu bt_input bt_slot_mappings].
  set (prog := Tables._compute_slot_mappings_kernel _ _ _ _ _ _ _ _ _ _ _ _).
  set (val := λ b o, let p := (ctx b + Z.of_nat o)%Z in
     (nth (Z.to_nat (p `div` bs)) (default [] (rows !! nth b idx 0%nat)) 0 * bs + p `mod` bs)%Z).
  set (blk := λ b, if (b =? n)%nat then map (λ _, (-1)%Z) (seq 0 (length mem - start counts n)) else map (val b) (seq 0 (nth b counts 0%nat))).
  assert (∀ b, (b < n)%nat → (b =? n)%nat = false) as Hne by (intros; apply Nat.eqb_neq; lia).
  rewrite Hlen. destruct (launch_holds (λ m, m) (n + 1) prog mem (start counts) blk) as (L1 & L2 & _).
  - intros b m Hlt Hm. cbn beta in Hm. unfold prog, Tables._compute_slot_mappings_kernel, blk. rewrite Hlen. fold n mem bs. destruct (Nat.eqb_spec b n) as [->|Hbn].
    + rewrite Hloc by (unfold n; lia). rewrite Nat2Z.id. by rewrite lane_block by lia.
    + assert (b < n)%nat as Hb' by lia. destruct (entry_locs counts query_start_loc Hloc b Hb') as [-> ->].
      rewrite Nat2Z.id. replace (Z.to_nat (Z.of_nat (start counts b) + Z.of_nat (nth b counts 0%nat)) - start counts b)%nat with (nth b counts 0%nat) by lia.
      pose proof (start_next counts b n Hb' Hb'). rewrite lane_block by lia. f_equal. apply map_ext_in. intros o Ho%in_seq.
      destruct (lookup_lt_is_Some_2 idx b ltac:(lia)) as [i Hi]. destruct (Hb b i Hi) as (r & Er & Hc & Hp & Hcov).
      rewrite Hp by (rewrite length_map, length_seq; lia). rewrite nth_tabulate by lia. unfold Tables.slot_of, val. rewrite Hcp. cbn [Z.eqb Pos.eqb].
      rewrite Z.mul_1_r. fold bs. rewrite (nth_lookup_Some _ _ _ _ Hi), Er. cbn [default]. unfold Datatypes.id. do 2 f_equal.
      destruct (Hrow i r Er) as (_ & _ & Hh). apply Hh. set (p := (ctx b + Z.of_nat o)%Z) in *.
      assert (p `div` bs < Z.of_nat (length r))%Z by (apply Z.div_lt_upper_bound; lia). assert (0 ≤ p `div` bs)%Z by (apply Z.div_pos; lia). lia.
  - intros b Hlt. unfold blk. destruct (Nat.eqb_spec b n) as [->|Hbn]; rewrite length_map, length_seq; [lia|].
    pose proof (start_next counts b n). lia.
  - intros p q Hpq. unfold blk. rewrite (Hne p) by lia. rewrite length_map, length_seq. left. apply start_next; lia.
  - split; [unfold tables_ok in *; by split_and!|]. split; [by split_and!|]. split; [done|]. split; [done|]. intros b i r Hi Er.
    assert (b < n)%nat as Hlt by (rewrite <-Hlen; by eapply lookup_lt_Some). specialize (L2 b ltac:(lia)). unfold blk, val in L2.
    rewrite Hne in L2 by done. by rewrite (nth_lookup_Some _ _ _ _ Hi), Er in L2.
Qed.
