(* ===== verification/RequestStates.v ===== *)
(** * The request slots of the worker

    [v1/worker/gpu/states.py] [RequestState]: the slot of every request the worker
    knows, the free slots, and what the worker keeps of a request in host arrays and in
    device tensors.  The invariant [states_ok] says that the slots are a bijection with
    the free ones left over, and that arrays and tensors hold the request of their
    slot. *)

From Stdlib Require Import ZArith Lia.
From stdpp Require Import base tactics numbers list option gmap strings.
From S2P Require Import Prelude Torch Quant Tab Triton Stores StagedTensor InputBatch.

(** The dictionaries and the host arrays. *)
Record HostState := mkHost {
  hs_req_id_to_index : gmap string nat;
  hs_index_to_req_id : gmap nat string;
  hs_free_indices : list nat;
  hs_prompt_len : list Z;                  (* prompt_len.np *)
  hs_prefill_len : list Z;                 (* prefill_len.np *)
  hs_num_computed_prefill_tokens : list Z;
  hs_num_computed_tokens : list Z;         (* num_computed_tokens_np *)
  hs_max_seq_len : list Z
}.

(** The device tensors; [prompt_len] and [prefill_len] are the copies of the host's. *)
Record DeviceState := mkDevice {
  dv_prompt_len : list Z;
  dv_prefill_len : list Z;
  dv_all_token_ids : StagedWriteTensor;
  dv_total_len : StagedWriteTensor;
  dv_num_computed_tokens : StagedWriteTensor;
  dv_last_sampled_tokens : list Z;
  dv_draft_tokens : list Z;
  dv_next_prefill_tokens : list Z
}.

Record RequestState := mkStates {
  rs_max_num_reqs : nat;
  rs_num_speculative_steps : nat;
  rs_host : HostState;
  rs_device : DeviceState
}.

Module States.

Definition init (max_num_reqs max_model_len num_speculative_steps : nat) : RequestState :=
  let zeros := replicate max_num_reqs 0%Z in
  mkStates max_num_reqs num_speculative_steps
    (mkHost ∅ ∅ (seq 0 max_num_reqs) zeros zeros zeros zeros zeros)
    (mkDevice zeros zeros (StagedWrite.init max_num_reqs max_model_len) (StagedWrite.init max_num_reqs 1)
       (StagedWrite.init max_num_reqs 1) zeros (replicate (max_num_reqs * num_speculative_steps) 0%Z) zeros).

Definition on_host (f : HostState → HostState) : ST RequestState unit :=
  st_modify (λ s, mkStates (rs_max_num_reqs s) (rs_num_speculative_steps s) (f (rs_host s)) (rs_device s)).

Definition on_device (m : ST DeviceState unit) : ST RequestState unit := λ s,
  let '(r, d) := m (rs_device s) in (r, mkStates (rs_max_num_reqs s) (rs_num_speculative_steps s) (rs_host s) d).

Definition on_all_token_ids (m : ST StagedWriteTensor unit) : ST DeviceState unit := λ d,
  let '(r, t) := m (dv_all_token_ids d) in
  (r, mkDevice (dv_prompt_len d) (dv_prefill_len d) t (dv_total_len d) (dv_num_computed_tokens d) (dv_last_sampled_tokens d)
        (dv_draft_tokens d) (dv_next_prefill_tokens d)).

Definition on_total_len (m : ST StagedWriteTensor unit) : ST DeviceState unit := λ d,
  let '(r, t) := m (dv_total_len d) in
  (r, mkDevice (dv_prompt_len d) (dv_prefill_len d) (dv_all_token_ids d) t (dv_num_computed_tokens d) (dv_last_sampled_tokens d)
        (dv_draft_tokens d) (dv_next_prefill_tokens d)).

Definition on_num_computed_tokens (m : ST StagedWriteTensor unit) : ST DeviceState unit := λ d,
  let '(r, t) := m (dv_num_computed_tokens d) in
  (r, mkDevice (dv_prompt_len d) (dv_prefill_len d) (dv_all_token_ids d) (dv_total_len d) t (dv_last_sampled_tokens d)
        (dv_draft_tokens d) (dv_next_prefill_tokens d)).

(** [free_indices.pop()] takes the last one. *)
Definition add_request (req_id : string) (prompt_len : Z) (all_token_ids : list Z) (num_computed_tokens max_tokens : Z) :
    ST RequestState unit :=
  s ← st_get;
  st_raise_if (length (hs_free_indices (rs_host s)) =? 0)%nat AssertionError;;
  let req_idx := List.last (hs_free_indices (rs_host s)) 0%nat in
  on_host (λ h, mkHost (<[req_id := req_idx]> (hs_req_id_to_index h)) (<[req_idx := req_id]> (hs_index_to_req_id h))
    (List.removelast (hs_free_indices h)) (<[req_idx := prompt_len]> (hs_prompt_len h)) (hs_prefill_len h)
    (hs_num_computed_prefill_tokens h) (hs_num_computed_tokens h) (<[req_idx := (prompt_len + max_tokens)%Z]> (hs_max_seq_len h)));;
  let prefill_len := Z.of_nat (length all_token_ids) in
  st_raise_if (prefill_len <? prompt_len)%Z AssertionError;;
  on_host (λ h, mkHost (hs_req_id_to_index h) (hs_index_to_req_id h) (hs_free_indices h) (hs_prompt_len h)
    (<[req_idx := prefill_len]> (hs_prefill_len h)) (hs_num_computed_prefill_tokens h) (hs_num_computed_tokens h) (hs_max_seq_len h));;
  on_device (on_total_len (StagedWrite.stage_write_elem req_idx prefill_len));;
  on_device (on_all_token_ids (StagedWrite.stage_write req_idx 0 all_token_ids));;
  on_host (λ h, mkHost (hs_req_id_to_index h) (hs_index_to_req_id h) (hs_free_indices h) (hs_prompt_len h) (hs_prefill_len h)
    (<[req_idx := num_computed_tokens]> (hs_num_computed_prefill_tokens h))
    (<[req_idx := num_computed_tokens]> (hs_num_computed_tokens h)) (hs_max_seq_len h));;
  on_device (on_num_computed_tokens (StagedWrite.stage_write_elem req_idx num_computed_tokens));;
  on_device (st_modify (λ d, mkDevice (dv_prompt_len d) (dv_prefill_len d) (dv_all_token_ids d) (dv_total_len d) (dv_num_computed_tokens d)
    (if (0 <? num_computed_tokens)%Z && (num_computed_tokens <=? prefill_len)%Z
     then <[req_idx := nth (Z.to_nat (num_computed_tokens - 1)) all_token_ids 0%Z]> (dv_last_sampled_tokens d)
     else dv_last_sampled_tokens d)
    (store_block (req_idx * rs_num_speculative_steps s) (replicate (rs_num_speculative_steps s) 0%Z) (dv_draft_tokens d))
    (dv_next_prefill_tokens d))).

Definition apply_staged_writes : ST RequestState unit :=
  s ← st_get;
  on_device (st_modify (λ d, mkDevice (hs_prompt_len (rs_host s)) (hs_prefill_len (rs_host s)) (dv_all_token_ids d) (dv_total_len d)
    (dv_num_computed_tokens d) (dv_last_sampled_tokens d) (dv_draft_tokens d) (dv_next_prefill_tokens d)));;
  on_device (on_total_len StagedWrite.apply_write);;
  on_device (on_all_token_ids StagedWrite.apply_write);;
  on_device (on_num_computed_tokens StagedWrite.apply_write).

(** Returns the freed slot. *)
Definition remove_request (req_id : string) : ST RequestState (option nat) :=
  s ← st_get;
  match hs_req_id_to_index (rs_host s) !! req_id with
  | None => mret None
  | Some req_idx =>
      on_host (λ h, mkHost (delete req_id (hs_req_id_to_index h)) (delete req_idx (hs_index_to_req_id h)) (hs_free_indices h ++ [req_idx])
        (hs_prompt_len h) (hs_prefill_len h) (hs_num_computed_prefill_tokens h) (hs_num_computed_tokens h) (hs_max_seq_len h));;
      mret (Some req_idx)
  end.

End States.

(** ** What the states hold *)

(** What a worker knows of a request; the blocks are in its block table. *)
Record ReqView := mkReq {
  rq_slot : Slot;
  rq_blocks : list Z;
  rq_prompt_len : Z;
  rq_max_seq_len : Z
}.

Abbreviation Requests := (gmap string ReqView).

(** A field of the requests, slot by slot. *)
Definition by_slot {A} (f : ReqView → A) (index_to_req_id : gmap nat string) (reqs : Requests) : gmap nat A :=
  omap (λ id, f <$> reqs !! id) index_to_req_id.

(** The slots: the dictionaries are inverse to each other and the free slots are the
    others. *)
Definition index_ok (n : nat) (r2i : gmap string nat) (i2r : gmap nat string) (free : list nat) : Prop :=
  (∀ id i, r2i !! id = Some i ↔ i2r !! i = Some id) ∧ NoDup free
  ∧ (∀ i, i ∈ free ↔ (i < n)%nat ∧ i2r !! i = None) ∧ (∀ i, is_Some (i2r !! i) → (i < n)%nat)
  ∧ (size r2i + length free)%nat = n.

Definition host_ok (n : nat) (h : HostState) (reqs : Requests) : Prop :=
  index_ok n (hs_req_id_to_index h) (hs_index_to_req_id h) (hs_free_indices h)
  ∧ (∀ id, is_Some (hs_req_id_to_index h !! id) ↔ is_Some (reqs !! id))
  ∧ (length (hs_prompt_len h) = n ∧ length (hs_prefill_len h) = n ∧ length (hs_num_computed_prefill_tokens h) = n
     ∧ length (hs_num_computed_tokens h) = n ∧ length (hs_max_seq_len h) = n)
  ∧ ∀ id i r, hs_req_id_to_index h !! id = Some i → reqs !! id = Some r →
      nth i (hs_prompt_len h) 0%Z = rq_prompt_len r ∧ nth i (hs_prefill_len h) 0%Z = Z.of_nat (sl_prefill (rq_slot r))
      ∧ nth i (hs_max_seq_len h) 0%Z = rq_max_seq_len r.

(** The tensors, with at most [k] writes collected for each. *)
Definition device_ok (n model_len k : nat) (d : DeviceState) (S : gmap nat Slot) : Prop :=
  (∃ ws, tensor_rows (dv_all_token_ids d) ws (token_rows S) ∧ (length ws ≤ k)%nat)
  ∧ (∃ ws, tensor_rows (dv_total_len d) ws (length_rows S) ∧ (length ws ≤ k)%nat)
  ∧ (∃ ws, tensor_rows (dv_num_computed_tokens d) ws (computed_rows S) ∧ (length ws ≤ k)%nat)
  ∧ rows_in n 1 (dv_last_sampled_tokens d) (last_rows S)
  ∧ (∀ i s, S !! i = Some s → (sl_prefill s ≤ length (sl_tokens s))%nat)
  ∧ Forall (λ t, sw_num_rows t = n) [dv_all_token_ids d; dv_total_len d; dv_num_computed_tokens d]
  ∧ (sw_stride (dv_all_token_ids d) = model_len ∧ sw_stride (dv_total_len d) = 1%nat ∧ sw_stride (dv_num_computed_tokens d) = 1%nat).

Definition slots_of (rs : RequestState) (reqs : Requests) : gmap nat Slot :=
  by_slot rq_slot (hs_index_to_req_id (rs_host rs)) reqs.

Definition states_ok (n model_len k : nat) (rs : RequestState) (reqs : Requests) : Prop :=
  rs_max_num_reqs rs = n ∧ rs_num_speculative_steps rs = 0%nat
  ∧ host_ok n (rs_host rs) reqs ∧ device_ok n model_len k (rs_device rs) (slots_of rs reqs).

(** Nothing is staged and the device has the host's lengths. *)
Definition states_applied (rs : RequestState) : Prop :=
  dv_prompt_len (rs_device rs) = hs_prompt_len (rs_host rs) ∧ dv_prefill_len (rs_device rs) = hs_prefill_len (rs_host rs).

(** ** Slots *)

Section Slots.
Context {A : Type} (f : ReqView → A).

Lemma by_slot_lookup i2r reqs i : by_slot f i2r reqs !! i = (id ← i2r !! i; f <$> reqs !! id).
Proof. unfold by_slot. by rewrite lookup_omap. Qed.

Lemma by_slot_insert i2r reqs i id r :
  (∀ j, i2r !! j = Some id → j = i) → by_slot f (<[i := id]> i2r) (<[id := r]> reqs) = <[i := f r]> (by_slot f i2r reqs).
Proof.
  intros Hu. apply map_eq. intros j. rewrite by_slot_lookup. destruct (decide (i = j)) as [<-|Hne].
  - rewrite !lookup_insert_eq. cbn. by rewrite lookup_insert_eq.
  - rewrite !lookup_insert_ne, by_slot_lookup by done. destruct (i2r !! j) as [id'|] eqn:E; [|done]. cbn.
    rewrite lookup_insert_ne; [done|]. intros <-. by apply Hne, eq_sym, Hu.
Qed.

Lemma by_slot_delete i2r reqs i id :
  (∀ j, i2r !! j = Some id → j = i) → by_slot f (delete i i2r) (delete id reqs) = delete i (by_slot f i2r reqs).
Proof.
  intros Hu. apply map_eq. intros j. rewrite by_slot_lookup. destruct (decide (i = j)) as [<-|Hne].
  - by rewrite !lookup_delete_eq.
  - rewrite !lookup_delete_ne, by_slot_lookup by done. destruct (i2r !! j) as [id'|] eqn:E; [|done]. cbn.
    rewrite lookup_delete_ne; [done|]. intros <-. by apply Hne, eq_sym, Hu.
Qed.

Lemma by_slot_update i2r reqs i id r :
  i2r !! i = Some id → (∀ j, i2r !! j = Some id → j = i) → by_slot f i2r (<[id := r]> reqs) = <[i := f r]> (by_slot f i2r reqs).
Proof. intros Hi Hu. rewrite <-(by_slot_insert i2r reqs i id r) by done. by rewrite (insert_id i2r). Qed.

Lemma by_slot_alter i2r reqs (g : ReqView → ReqView) id :
  (∀ r, f (g r) = f r) → by_slot f i2r (alter g id reqs) = by_slot f i2r reqs.
Proof.
  intros Hg. apply map_eq. intros j. rewrite !by_slot_lookup. destruct (i2r !! j) as [id'|]; [|done]. cbn.
  rewrite lookup_alter. destruct (decide (id = id')) as [->|]; [|done]. destruct (reqs !! id') as [r|]; [|done]. cbn. by rewrite Hg.
Qed.
End Slots.

Section Index.
Context {n : nat} {r2i : gmap string nat} {i2r : gmap nat string} {free : list nat}.
Hypothesis Hix : index_ok n r2i i2r free.

Lemma index_unique id i j : r2i !! id = Some i → i2r !! j = Some id → j = i.
Proof. destruct Hix as (H & _). intros Hi Hj%H. congruence. Qed.

Lemma index_add id :
  free ≠ [] → r2i !! id = None → let i := List.last free 0%nat in
  (i < n)%nat ∧ i2r !! i = None ∧ (∀ j, i2r !! j = Some id → j = i)
  ∧ index_ok n (<[id := i]> r2i) (<[i := id]> i2r) (List.removelast free).
Proof.
  intros Hf Hid i. pose proof Hix as (H1 & H2 & H3 & H4 & H5). pose proof (app_removelast_last 0%nat Hf) as Ef. fold i in Ef.
  assert (i ∈ free) as Hin by (rewrite Ef; apply elem_of_app; right; by left). apply H3 in Hin as [Hlt Hnone].
  split; [done|]. split; [done|]. assert (∀ j, i2r !! j ≠ Some id) as Hno by (intros j Hj%H1; congruence).
  split; [intros j Hj; by destruct (Hno j)|]. rewrite Ef in H2. apply NoDup_app in H2 as (N1 & N2 & _). split; [|split; [done|split; [|split]]].
  - intros id' j. rewrite !lookup_insert. destruct (decide (id = id')) as [<-|Hne], (decide (i = j)) as [<-|Hne']; try done.
    + split; [by intros [=]|by intros ?%Hno].
    + split; [|by intros [=]]. intros Hj%H1. congruence.
  - intros j. specialize (H3 j). rewrite Ef, elem_of_app, list_elem_of_singleton in H3. rewrite lookup_insert.
    destruct (decide (i = j)) as [<-|Hne].
    + split; [intros Hj; destruct (N2 i Hj); by left|by intros [_ [=]]].
    + rewrite <-H3. split; [by left|]. by intros [?| ->].
  - intros j. rewrite lookup_insert. case_decide as E; [by subst|apply H4].
  - rewrite map_size_insert_None by done. rewrite Ef, length_app in H5. cbn in H5. lia.
Qed.

Lemma index_remove id i :
  r2i !! id = Some i → index_ok n (delete id r2i) (delete i i2r) (free ++ [i]).
Proof.
  intros Hi. pose proof Hix as (H1 & H2 & H3 & H4 & H5). pose proof Hi as Hi'. apply H1 in Hi'.
  split; [|split; [|split; [|split]]].
  - intros id' j. rewrite !lookup_delete. destruct (decide (id = id')) as [<-|Hne], (decide (i = j)) as [<-|Hne']; try done.
    + split; [done|]. intros Hj%H1. congruence.
    + split; [|done]. intros Hj%H1. congruence.
  - apply NoDup_app. split; [done|]. split; [|apply NoDup_singleton]. intros j Hj. apply H3 in Hj as [_ Hj].
    rewrite list_elem_of_singleton. intros ->. congruence.
  - intros j. rewrite elem_of_app, list_elem_of_singleton, H3, lookup_delete. destruct (decide (i = j)) as [<-|Hne].
    + split; [|by right]. intros _. split; [apply H4; by eexists|done].
    + split; [by intros [?| ->]|by left].
  - intros j. rewrite lookup_delete. case_decide; [by intros []|apply H4].
  - rewrite length_app. cbn. rewrite map_size_delete_Some by (by eexists).
    assert (size r2i ≠ 0%nat) by (intros E; apply map_size_empty_inv in E; subst; done). lia.
Qed.
End Index.

Lemma nodup_size {A} (m : gmap string A) (l : list string) :
  NoDup l → Forall (λ id, is_Some (m !! id)) l → (length l ≤ size m)%nat.
Proof.
  intros Hn Hl. rewrite <-size_dom, <-(size_list_to_set (C := gset string) l) by done. apply subseteq_size.
  intros id Hid%elem_of_list_to_set. apply elem_of_dom. rewrite List.Forall_forall in Hl. by apply Hl, list_elem_of_In.
Qed.

(** ** Tensors of slots *)

Lemma slots_mono (S S' : gmap nat Slot) :
  S' ⊆ S → token_rows S' ⊆ token_rows S ∧ length_rows S' ⊆ length_rows S ∧ computed_rows S' ⊆ computed_rows S ∧ last_rows S' ⊆ last_rows S.
Proof. intros H. split_and!; [by apply map_fmap_mono..|by apply map_omap_mono]. Qed.

Lemma device_ok_forget n model_len k k' d S S' :
  S' ⊆ S → (k ≤ k')%nat → device_ok n model_len k d S → device_ok n model_len k' d S'.
Proof.
  intros HS Hk ((w1 & A1 & A2) & (w2 & B1 & B2) & (w3 & C1 & C2) & L & P & Sh). destruct (slots_mono S S' HS) as (M1 & M2 & M3 & M4).
  split_and!; [exists w1; split; [by eapply tensor_rows_forget|lia]|exists w2; split; [by eapply tensor_rows_forget|lia]
    |exists w3; split; [by eapply tensor_rows_forget|lia]|by eapply rows_in_forget| |apply Sh..].
  intros i s Hi. apply P with i. by eapply lookup_weaken.
Qed.

Lemma rows_in_poke n mem rows i x : rows_in n 1 mem rows → rows_in n 1 (<[i := x]> mem) (delete i rows).
Proof.
  intros [H1 H2]. split; [by rewrite length_insert|]. intros j r Hj. apply lookup_delete_Some in Hj as [Hne Hj].
  destruct (H2 j r Hj) as (A & B & C). split; [done|]. split; [done|]. intros o Ho. rewrite <-C by done. rewrite Nat.mul_1_r.
  assert (o = 0%nat) as -> by lia. rewrite Nat.add_0_r, !nth_lookup. by rewrite list_lookup_insert_ne.
Qed.

(** The parts of the states an operation on one slot leaves alone. *)
Lemma nth_insert_eq (l : list Z) i x : (i < length l)%nat → nth i (<[i := x]> l) 0%Z = x.
Proof. intros H. by rewrite nth_lookup, list_lookup_insert_eq. Qed.
Lemma nth_insert_ne (l : list Z) i j x : i ≠ j → nth j (<[i := x]> l) 0%Z = nth j l 0%Z.
Proof. intros H. by rewrite !nth_lookup, list_lookup_insert_ne. Qed.

Lemma states_room n model_len k rs reqs :
  states_ok n model_len k rs reqs → (size reqs + length (hs_free_indices (rs_host rs)))%nat = n.
Proof.
  intros (_ & _ & ((_ & _ & _ & _ & H) & Hd & _) & _). rewrite <-H. f_equal. rewrite <-!size_dom. apply set_size_proper.
  intros id. by rewrite !elem_of_dom, Hd.
Qed.

(** Adding a request to a free slot. *)
Lemma add_request_ok n model_len k rs reqs id prompt_len toks computed max_tokens blocks :
  states_ok n model_len k rs reqs → reqs !! id = None → (size reqs < n)%nat →
  (prompt_len ≤ Z.of_nat (length toks))%Z → (length toks ≤ model_len)%nat →
  let r := mkReq (mkSlot toks (length toks) computed) blocks prompt_len (prompt_len + max_tokens) in
  ∃ i rs', States.add_request id prompt_len toks computed max_tokens rs = (Ok tt, rs')
  ∧ states_ok n model_len (S k) rs' (<[id := r]> reqs)
  ∧ hs_req_id_to_index (rs_host rs') = <[id := i]> (hs_req_id_to_index (rs_host rs))
  ∧ hs_index_to_req_id (rs_host rs') = <[i := id]> (hs_index_to_req_id (rs_host rs))
  ∧ hs_index_to_req_id (rs_host rs) !! i = None
  ∧ hs_num_computed_tokens (rs_host rs') = <[i := computed]> (hs_num_computed_tokens (rs_host rs)).
Proof.
  intros Hok Hid Hroom Hp Hl r. pose proof (states_room _ _ _ _ _ Hok) as Hsz. pose proof Hok as (En & Es & (Hix & Hdom & Harr & Hval) & Hd).
  set (h := rs_host rs) in *. set (i := List.last (hs_free_indices h) 0%nat).
  assert (hs_free_indices h ≠ []) as Hf by (intros E; rewrite E in Hsz; cbn in Hsz; lia).
  assert (hs_req_id_to_index h !! id = None) as Hnone.
  { apply eq_None_not_Some. intros H. apply Hdom in H. rewrite Hid in H. by destruct H. }
  destruct (index_add Hix id Hf Hnone) as (Hi & Hfree & Huniq & Hix'). fold i in Hi, Hfree, Huniq, Hix'.
  destruct Hd as ((w1 & A1 & A2) & (w2 & B1 & B2) & (w3 & C1 & C2) & L & P & Sh & T1 & T2 & T3).
  set (d := rs_device rs) in *. apply List.Forall_cons_iff in Sh as [S1 Sh]. apply List.Forall_cons_iff in Sh as [S2 Sh].
  apply List.Forall_cons_iff in Sh as [S3 _].
  destruct (stage_rows _ _ _ i [] [Z.of_nat (length toks)] B1 ltac:(lia) (or_introl eq_refl) ltac:(by rewrite T2)) as (t2 & w2' & E2 & R2 & _ & [X2 Y2] & K2).
  destruct (stage_rows _ _ _ i [] toks A1 ltac:(lia) (or_introl eq_refl) ltac:(by rewrite T1)) as (t1 & w1' & E1 & R1 & _ & [X1 Y1] & K1).
  destruct (stage_rows _ _ _ i [] [computed] C1 ltac:(lia) (or_introl eq_refl) ltac:(by rewrite T3)) as (t3 & w3' & E3 & R3 & _ & [X3 Y3] & K3).
  set (h' := mkHost (<[id := i]> (hs_req_id_to_index h)) (<[i := id]> (hs_index_to_req_id h)) (List.removelast (hs_free_indices h))
      (<[i := prompt_len]> (hs_prompt_len h)) (<[i := Z.of_nat (length toks)]> (hs_prefill_len h)) (<[i := computed]> (hs_num_computed_prefill_tokens h))
      (<[i := computed]> (hs_num_computed_tokens h)) (<[i := (prompt_len + max_tokens)%Z]> (hs_max_seq_len h))).
    set (d' := mkDevice (dv_prompt_len d) (dv_prefill_len d) t1 t2 t3
      (if (0 <? computed)%Z && (computed <=? Z.of_nat (length toks))%Z
       then <[i := nth (Z.to_nat (computed - 1)) toks 0%Z]> (dv_last_sampled_tokens d) else dv_last_sampled_tokens d)
      (store_block (i * rs_num_speculative_steps rs) (replicate (rs_num_speculative_steps rs) 0%Z) (dv_draft_tokens d)) (dv_next_prefill_tokens d)).
    exists i, (mkStates (rs_max_num_reqs rs) (rs_num_speculative_steps rs) h' d'). split.
    { unfold States.add_request. rewrite st_bind_eq. cbn [st_get]. fold h i. rewrite st_bind_eq.
    destruct (Nat.eqb_spec (length (hs_free_indices h)) 0) as [H0|_]; [apply nil_length_inv in H0; done|].
    unfold st_raise_if, st_lift. cbn [raise_if]. rewrite st_bind_eq. unfold States.on_host, st_modify. cbn [rs_host]. rewrite st_bind_eq.
    rewrite (proj2 (Z.ltb_ge _ _) Hp). cbn [raise_if]. rewrite !st_bind_eq. cbn [rs_host hs_req_id_to_index hs_index_to_req_id hs_free_indices
      hs_prompt_len hs_prefill_len hs_num_computed_prefill_tokens hs_num_computed_tokens hs_max_seq_len].
    unfold States.on_device, States.on_total_len, States.on_all_token_ids, States.on_num_computed_tokens. cbn [rs_device]. fold d.
    rewrite !stage_write_elem_eq. cbn [length] in E1, E2, E3. rewrite E2. rewrite st_bind_eq. cbn [rs_device dv_all_token_ids]. rewrite E1.
    rewrite !st_bind_eq. cbn [rs_device rs_host dv_num_computed_tokens]. rewrite E3. reflexivity. }
  split; [|done]. split; [done|]. split; [done|]. cbn [rs_host rs_device]. split.
  - split; [exact Hix'|]. split; [intros id'; cbn [h' hs_req_id_to_index]; rewrite !lookup_insert; destruct (decide (id = id')); [done|apply Hdom]|].
    destruct Harr as (L1 & L2 & L3 & L4 & L5). cbn [h' hs_req_id_to_index hs_prompt_len hs_prefill_len hs_num_computed_prefill_tokens hs_num_computed_tokens hs_max_seq_len].
    rewrite !length_insert. split; [by split_and!|]. intros id' j rj Hj Hrj. destruct (decide (id = id')) as [<-|Hne].
    + rewrite lookup_insert_eq in Hj. rewrite lookup_insert_eq in Hrj. injection Hj as <-. injection Hrj as <-. by rewrite !nth_insert_eq by lia.
    + rewrite lookup_insert_ne in Hj by done. rewrite lookup_insert_ne in Hrj by done. rewrite !nth_insert_ne; [by apply Hval with id'|..];
        intros <-; apply Hix in Hj; congruence.
  - unfold slots_of. cbn [rs_host h' hs_index_to_req_id]. rewrite by_slot_insert by done. fold h. fold (slots_of rs reqs). cbn [rq_slot r].
    unfold device_ok, token_rows, length_rows, computed_rows, last_rows. cbn [d' dv_all_token_ids dv_total_len dv_num_computed_tokens dv_last_sampled_tokens].
    rewrite !fmap_insert. split; [exists w1'; split; [done|lia]|]. split; [exists w2'; split; [done|lia]|]. split; [exists w3'; split; [done|lia]|]. split.
    + rewrite omap_insert_None by (unfold sl_last; cbn [sl_prefill sl_tokens]; by rewrite Nat.ltb_irrefl). destruct (_ && _); [by apply rows_in_poke|].
      eapply rows_in_forget; [|exact L]. apply delete_subseteq.
    + split; [|split; [|by rewrite Y1, Y2, Y3]].
      * intros j s [[<- <-]|[_ Hj]]%lookup_insert_Some; [done|by eapply P].
      * repeat constructor; by rewrite ?X1, ?X2, ?X3.
Qed.

(** The staged lengths, tokens and counts reach the device. *)
Lemma states_apply_ok n model_len k rs reqs :
  states_ok n model_len k rs reqs → (k ≤ n)%nat →
  ∃ rs', States.apply_staged_writes rs = (Ok tt, rs') ∧ states_ok n model_len 0 rs' reqs ∧ states_applied rs' ∧ rs_host rs' = rs_host rs.
Proof.
  intros (En & Es & Hh & (w1 & A1 & A2) & (w2 & B1 & B2) & (w3 & C1 & C2) & L & P & Sh & T) Hk.
  set (d := rs_device rs) in *. apply List.Forall_cons_iff in Sh as [S1 Sh]. apply List.Forall_cons_iff in Sh as [S2 Sh].
  apply List.Forall_cons_iff in Sh as [S3 _].
  destruct (apply_rows _ _ _ B1 ltac:(lia)) as (t2 & E2 & R2 & [X2 Y2]). destruct (apply_rows _ _ _ A1 ltac:(lia)) as (t1 & E1 & R1 & [X1 Y1]).
  destruct (apply_rows _ _ _ C1 ltac:(lia)) as (t3 & E3 & R3 & [X3 Y3]).
  exists (mkStates (rs_max_num_reqs rs) (rs_num_speculative_steps rs) (rs_host rs)
    (mkDevice (hs_prompt_len (rs_host rs)) (hs_prefill_len (rs_host rs)) t1 t2 t3 (dv_last_sampled_tokens d) (dv_draft_tokens d) (dv_next_prefill_tokens d))).
  split.
  { unfold States.apply_staged_writes, States.on_device, States.on_total_len, States.on_all_token_ids, States.on_num_computed_tokens, st_modify.
    rewrite st_bind_eq. cbn [st_get]. rewrite !st_bind_eq. cbn [rs_device dv_total_len]. fold d. rewrite E2, !st_bind_eq. cbn [rs_device dv_all_token_ids].
    rewrite E1. cbn [rs_device dv_num_computed_tokens]. by rewrite E3. }
  split; [|by split]. split; [done|]. split; [done|]. split; [done|]. unfold slots_of. cbn [rs_host rs_device].
  split; [by exists []|]. split; [by exists []|]. split; [by exists []|]. split; [done|]. split; [done|]. cbn [dv_all_token_ids dv_total_len dv_num_computed_tokens].
  split; [repeat constructor; by rewrite ?X1, ?X2, ?X3|by rewrite Y1, Y2, Y3].
Qed.

(** Removing a request frees its slot; an unknown one is left. *)
Lemma remove_request_ok n model_len k rs reqs id :
  states_ok n model_len k rs reqs →
  ∃ o rs', States.remove_request id rs = (Ok o, rs') ∧ states_ok n model_len k rs' (delete id reqs)
  ∧ o = hs_req_id_to_index (rs_host rs) !! id
  ∧ hs_req_id_to_index (rs_host rs') = delete id (hs_req_id_to_index (rs_host rs))
  ∧ (∀ j, hs_index_to_req_id (rs_host rs') !! j = if decide (hs_index_to_req_id (rs_host rs) !! j = Some id) then None else hs_index_to_req_id (rs_host rs) !! j)
  ∧ hs_num_computed_tokens (rs_host rs') = hs_num_computed_tokens (rs_host rs)
  ∧ (states_applied rs → states_applied rs').
Proof.
  intros (En & Es & (Hix & Hdom & Harr & Hval) & Hd). set (h := rs_host rs) in *. unfold States.remove_request.
  rewrite st_bind_eq. cbn [st_get]. fold h. destruct (hs_req_id_to_index h !! id) as [i|] eqn:Ei.
  - exists (Some i). eexists. rewrite st_bind_eq. unfold States.on_host, st_modify. split; [reflexivity|]. cbn [rs_host hs_req_id_to_index hs_index_to_req_id hs_num_computed_tokens]. fold h.
    pose proof (index_unique Hix id i) as Hu. split; [|split; [done|split; [done|split; [|split; [done|by intros [? ?]]]]]].
    + split; [done|]. split; [done|]. cbn [rs_host rs_device]. split.
      * split; [by apply index_remove|]. cbn [hs_req_id_to_index]. split; [|split; [exact Harr|]].
        -- intros id'. rewrite !lookup_delete. case_decide; [by split; intros []|apply Hdom].
        -- intros id' j r Hj Hr. apply lookup_delete_Some in Hj as [_ Hj]. apply lookup_delete_Some in Hr as [_ Hr]. by apply (Hval id').
      * unfold slots_of. cbn [rs_host hs_index_to_req_id]. rewrite by_slot_delete by (intros j; by apply Hu).
        eapply device_ok_forget; [apply delete_subseteq|reflexivity|exact Hd].
    + intros j. rewrite lookup_delete. pose proof Ei as Ei'. apply Hix in Ei'. destruct (decide (i = j)) as [<-|Hne]; [by rewrite decide_True|].
      rewrite decide_False; [done|]. intros Hj. apply Hne. symmetry. by apply Hu.
  - exists None, rs. split; [done|]. assert (reqs !! id = None) as Hn.
    { apply eq_None_not_Some. intros H. apply Hdom in H. rewrite Ei in H. by destruct H. }
    rewrite !delete_id by done. split; [by split_and!|]. split; [done|]. split; [done|]. split; [|by split].
    intros j. fold h. rewrite decide_False; [done|]. intros Hj. apply Hix in Hj. congruence.
Qed.

Lemma states_init_ok n model_len : states_ok n model_len 0 (States.init n model_len 0) ∅.
Proof.
  assert (slots_of (States.init n model_len 0) ∅ = ∅) as E by done.
  split; [done|]. split; [done|]. rewrite E. split.
  - split; [|split; [by intros id; split; intros []|split; [cbn; by rewrite !length_replicate|done]]]. split; [done|]. split; [apply NoDup_ListNoDup, seq_NoDup|].
    split; [|split; [by intros i []|cbn; by rewrite length_seq]]. intros i. cbn. rewrite list_elem_of_In, in_seq. split; [intros; split; [lia|done]|lia].
  - split; [exists []; split; [apply tensor_rows_init|done]|]. split; [exists []; split; [apply tensor_rows_init|done]|].
    split; [exists []; split; [apply tensor_rows_init|done]|]. split; [apply rows_in_empty; cbn; by rewrite length_replicate, Nat.mul_1_r|].
    split; [done|]. split; [by repeat constructor|done].
Qed.

(** Other host counts, and requests that differ in nothing the states hold. *)
Definition with_counts (rs : RequestState) (prefill_tokens tokens : list Z) : RequestState :=
  let h := rs_host rs in
  mkStates (rs_max_num_reqs rs) (rs_num_speculative_steps rs)
    (mkHost (hs_req_id_to_index h) (hs_index_to_req_id h) (hs_free_indices h) (hs_prompt_len h) (hs_prefill_len h) prefill_tokens tokens (hs_max_seq_len h))
    (rs_device rs).

Lemma states_counts_ok n model_len k rs reqs p t :
  states_ok n model_len k rs reqs → length p = n → length t = n → states_ok n model_len k (with_counts rs p t) reqs.
Proof.
  intros (H1 & H2 & (H3 & H4 & (L1 & L2 & L3 & L4 & L5) & H5) & H6) Hp Ht. by split_and!.
Qed.

Lemma host_alter_ok n h reqs (f : ReqView → ReqView) id :
  (∀ r, sl_prefill (rq_slot (f r)) = sl_prefill (rq_slot r) ∧ rq_prompt_len (f r) = rq_prompt_len r ∧ rq_max_seq_len (f r) = rq_max_seq_len r) →
  host_ok n h reqs → host_ok n h (alter f id reqs).
Proof.
  intros Hf (H3 & H4 & H5 & H6).
  assert (∀ id' r', alter f id reqs !! id' = Some r' → ∃ r, reqs !! id' = Some r ∧ sl_prefill (rq_slot r') = sl_prefill (rq_slot r)
            ∧ rq_prompt_len r' = rq_prompt_len r ∧ rq_max_seq_len r' = rq_max_seq_len r) as Ha.
  { intros id' r' Hr. rewrite lookup_alter in Hr. destruct (decide (id = id')) as [->|Hne]; [|by exists r'].
    destruct (reqs !! id') as [r|]; [|done]. injection Hr as <-. exists r. by split; [|apply Hf]. }
  split; [done|split; [|split; [done|]]].
  - intros id'. rewrite H4. destruct (alter f id reqs !! id') as [r'|] eqn:E.
    + destruct (Ha _ _ E) as (r & -> & _). by split; intros _; eexists.
    + rewrite lookup_alter in E. destruct (decide (id = id')) as [->|]; [|by rewrite E]. by destruct (reqs !! id').
  - intros id' i r' Hi Hr. destruct (Ha _ _ Hr) as (r & Hr0 & -> & -> & ->). by apply (H6 id').
Qed.

Lemma states_alter_ok n model_len k rs reqs f id :
  (∀ r, rq_slot (f r) = rq_slot r ∧ rq_prompt_len (f r) = rq_prompt_len r ∧ rq_max_seq_len (f r) = rq_max_seq_len r) →
  states_ok n model_len k rs reqs → states_ok n model_len k rs (alter f id reqs).
Proof.
  intros Hf (H1 & H2 & H3 & H4). split; [done|]. split; [done|]. split.
  - apply host_alter_ok; [|done]. intros r. by destruct (Hf r) as (-> & -> & ->).
  - unfold slots_of. rewrite by_slot_alter; [done|]. intros r. apply Hf.
Qed.
