(* ===== verification/RunnerV2.v ===== *)
(** * The model runner of the worker

    [v1/worker/gpu/model_runner.py], the runner that serves a [rabit_kv2] cache: how a
    step of the scheduler updates the request slots ([RequestStates]) and the block
    tables ([BlockTables]), releases and publishes requests through the bridge
    ([Lifecycle]), builds the inputs of the model ([InputBatch]) and the rows of block
    numbers the attention reads, and takes the sampled tokens back.  One rank, no LoRA,
    encoder, pooling, connector or draft tokens; no graph is captured, so a batch is not
    padded.  The sampler's choice is an argument. *)

From Stdlib Require Import ZArith Lia.
From stdpp Require Import base tactics numbers list option gmap strings.
From S2P Require Import Prelude Torch Quant Tab Triton Stores StagedTensor InputBatch BlockTables RequestStates Lifecycle.

(** ** What the scheduler sends *)

Record NewRequestData := mkNew {
  nr_req_id : string;
  nr_prompt_token_ids : option (list Z);
  nr_prefill_token_ids : option (list Z);
  nr_block_ids : list Z;
  nr_num_computed_tokens : Z;
  nr_max_tokens : option Z                (* sampling_params.max_tokens *)
}.

Record CachedRequestData := mkCached {
  cr_req_ids : list string;
  cr_num_computed_tokens : list Z;
  cr_new_block_ids : list (option (list Z))
}.

(** A set is the list of its elements, in the order it is visited; a dictionary the
    list of its items. *)
Record SchedulerOutput := mkOutput {
  so_scheduled_new_reqs : list NewRequestData;
  so_scheduled_cached_reqs : CachedRequestData;
  so_num_scheduled_tokens : list (string * Z);
  so_total_num_scheduled_tokens : Z;
  so_finished_req_ids : list string;
  so_preempted_req_ids : option (list string)
}.

(** [BatchExecutionDescriptor]. *)
Record BatchDesc := mkDesc { bd_num_tokens : nat; bd_num_reqs : option nat }.

(** What [dispatch] returns when no graph was captured. *)
Definition eager_desc (so : SchedulerOutput) : BatchDesc :=
  mkDesc (Z.to_nat (so_total_num_scheduled_tokens so)) (Some (length (so_num_scheduled_tokens so))).

(** ** The runner *)

Record InputBuffers := mkBuffers {
  bf_input_ids : list Z;
  bf_positions : list Z;
  bf_query_start_loc : list Z;
  bf_seq_lens : list Z
}.

Record Runner := mkRunner {
  rn_states : RequestState;
  rn_tables : BlockTables;
  rn_buffers : InputBuffers;
  rn_output_bin_counts : option (list Z * nat)     (* of the sampler, with its stride *)
}.

Record InputBatch := mkBatch {
  ib_req_ids : list string;
  ib_num_reqs : nat;
  ib_num_reqs_after_padding : nat;
  ib_idx_mapping : list nat;
  ib_num_scheduled_tokens : list Z;
  ib_num_tokens : Z;
  ib_num_tokens_after_padding : nat;
  ib_query_start_loc : list Z;
  ib_seq_lens : list Z;
  ib_seq_lens_cpu_upper_bound : list Z;
  ib_num_computed_tokens_np : list Z;
  ib_prefill_len_np : list Z;
  ib_num_computed_prefill_tokens_np : list Z;
  ib_is_prefilling_np : list bool;
  ib_input_ids : list Z;
  ib_positions : list Z;
  ib_logits_indices : list Z;
  ib_cu_num_logits : list Z
}.

(** [sorted(num_tokens_per_req, key=num_tokens_per_req.get)]: a stable sort. *)
Fixpoint insert_by_count (x : string * Z) (l : list (string * Z)) : list (string * Z) :=
  match l with
  | [] => [x]
  | y :: l' => if (x.2 <=? y.2)%Z then x :: l else y :: insert_by_count x l'
  end.
Definition sort_by_count (l : list (string * Z)) : list (string * Z) := foldr insert_by_count [] l.

(** [np.cumsum]. *)
Fixpoint cumsum (acc : Z) (l : list Z) : list Z :=
  match l with
  | [] => []
  | x :: l => (acc + x)%Z :: cumsum (acc + x) l
  end.

Section Runner.
Context {Obj : Type}.
(** Fresh device memory. *)
Variable torch_empty : nat → list Z.

Abbreviation Worker := (Runner * Bridge (Obj := Obj))%type.

Definition on_runner {A} (m : ST Runner A) : ST Worker A := λ w, let '(r, s) := m w.1 in (r, (s, w.2)).
Definition on_bridge {A} (m : ST (Bridge (Obj := Obj)) A) : ST Worker A := λ w, let '(r, b) := m w.2 in (r, (w.1, b)).

Definition on_states {A} (m : ST RequestState A) : ST Runner A := λ s,
  let '(r, t) := m (rn_states s) in (r, mkRunner t (rn_tables s) (rn_buffers s) (rn_output_bin_counts s)).
Definition on_tables {A} (m : ST BlockTables A) : ST Runner A := λ s,
  let '(r, t) := m (rn_tables s) in (r, mkRunner (rn_states s) t (rn_buffers s) (rn_output_bin_counts s)).

Definition _remove_request (req_id : string) : ST Runner bool :=
  req_idx ← on_states (States.remove_request req_id);
  mret (match req_idx with None => false | Some _ => true end).

(** The finished requests with the preempted ones that are not among them. *)
Definition released_ids (so : SchedulerOutput) : list string :=
  match so_preempted_req_ids so with
  | Some ((_ :: _) as preempted) =>
      so_finished_req_ids so ++ List.filter (λ id, bool_decide (id ∉ so_finished_req_ids so)) preempted
  | _ => so_finished_req_ids so
  end.

Definition finish_requests (rabit : bool) (so : SchedulerOutput) : ST Worker unit :=
  let finished_req_ids := released_ids so in
  (if rabit && negb (length finished_req_ids =? 0)%nat
   then _ ← on_bridge (rabit2_finish_requests finished_req_ids); mret tt else mret tt);;
  st_for finished_req_ids (λ req_id, _ ← on_runner (_remove_request req_id); mret tt).

Definition req_index (req_id : string) : ST Runner nat :=
  s ← st_get;
  st_lift (match hs_req_id_to_index (rs_host (rn_states s)) !! req_id with Some i => Ok i | None => Err KeyError end).

Definition add_request (new_req_data : NewRequestData) : ST Runner unit :=
  match nr_prompt_token_ids new_req_data, nr_prefill_token_ids new_req_data with
  | Some prompt_token_ids, Some prefill_token_ids =>
      let req_id := nr_req_id new_req_data in
      _remove_request req_id;;
      on_states (States.add_request req_id (Z.of_nat (length prompt_token_ids)) prefill_token_ids
        (nr_num_computed_tokens new_req_data) (default 1%Z (nr_max_tokens new_req_data)));;
      req_index ← req_index req_id;
      on_tables (Tables.append_block_ids req_index (nr_block_ids new_req_data) true)
  | _, _ => st_raise_if true AssertionError
  end.

Definition add_requests (so : SchedulerOutput) : ST Runner unit :=
  st_for (so_scheduled_new_reqs so) add_request;;
  match so_scheduled_new_reqs so with
  | [] => mret tt
  | _ => on_states States.apply_staged_writes
  end.

Definition update_request (item : string * Z * option (list Z)) : ST Runner unit :=
  let '(req_id, num_computed_tokens, req_new_block_ids) := item in
  req_index ← req_index req_id;
  on_states (States.on_host (λ h, mkHost (hs_req_id_to_index h) (hs_index_to_req_id h) (hs_free_indices h) (hs_prompt_len h) (hs_prefill_len h)
    (hs_num_computed_prefill_tokens h) (<[req_index := num_computed_tokens]> (hs_num_computed_tokens h)) (hs_max_seq_len h)));;
  match req_new_block_ids with
  | Some block_ids => on_tables (Tables.append_block_ids req_index block_ids false)
  | None => mret tt
  end.

Definition update_requests (so : SchedulerOutput) : ST Runner unit :=
  let reqs := so_scheduled_cached_reqs so in
  st_for (zip (zip (cr_req_ids reqs) (cr_num_computed_tokens reqs)) (cr_new_block_ids reqs)) update_request;;
  on_states (States.on_host (λ h, mkHost (hs_req_id_to_index h) (hs_index_to_req_id h) (hs_free_indices h) (hs_prompt_len h) (hs_prefill_len h)
    (zip_with Z.min (hs_num_computed_tokens h) (hs_prefill_len h)) (hs_num_computed_tokens h) (hs_max_seq_len h))).

Definition set_buffers (f : InputBuffers → InputBuffers) : ST Runner unit :=
  st_modify (λ s, mkRunner (rn_states s) (rn_tables s) (f (rn_buffers s)) (rn_output_bin_counts s)).

(** The next prefill tokens, the buffers and the logits of a batch. *)
Definition prepare_tokens (idx_mapping : list nat) (query_start_loc cu_num_logits : list Z) (num_logits : nat) (any_prefilling : bool) :
    ST Runner (list Z) :=
  s ← st_get;
  let dv := rs_device (rn_states s) in
  let prefill := if any_prefilling
    then prepare_prefill_inputs (bf_input_ids (rn_buffers s)) (dv_next_prefill_tokens dv) idx_mapping query_start_loc
           (sw_gpu (dv_all_token_ids dv)) (sw_stride (dv_all_token_ids dv)) (dv_prefill_len dv) (sw_gpu (dv_num_computed_tokens dv))
    else (bf_input_ids (rn_buffers s), dv_next_prefill_tokens dv) in
  on_states (States.on_device (st_modify (λ d, mkDevice (dv_prompt_len d) (dv_prefill_len d) (dv_all_token_ids d) (dv_total_len d)
    (dv_num_computed_tokens d) (dv_last_sampled_tokens d) (dv_draft_tokens d) prefill.2)));;
  let pos := prepare_pos_seq_lens idx_mapping query_start_loc (sw_gpu (dv_num_computed_tokens dv)) (bf_positions (rn_buffers s))
    (bf_seq_lens (rn_buffers s)) in
  set_buffers (λ b, mkBuffers prefill.1 pos.1 (bf_query_start_loc b) pos.2);;
  out ← st_lift (combine_sampled_and_draft_tokens prefill.1 idx_mapping (dv_last_sampled_tokens dv) query_start_loc pos.2
    (dv_prefill_len dv) (dv_draft_tokens dv) (rs_num_speculative_steps (rn_states s)) cu_num_logits (torch_empty num_logits) 1);
  set_buffers (λ b, mkBuffers out.1 (bf_positions b) (bf_query_start_loc b) (bf_seq_lens b));;
  mret out.2.

(** [batch_desc.num_reqs or num_reqs]. *)
Definition padded_reqs (desc : BatchDesc) (num_reqs : nat) : nat :=
  match bd_num_reqs desc with Some (S _ as n) => n | _ => num_reqs end.

(** [query_start_loc_np], padded behind the batch. *)
Definition query_starts (max_num_reqs : nat) (num_scheduled_tokens : list Z) (num_tokens : Z) : list Z :=
  0%Z :: cumsum 0 num_scheduled_tokens ++ replicate (max_num_reqs - length num_scheduled_tokens) num_tokens.

(** [l[idx_mapping_np]]. *)
Definition at_batch (idx_mapping : list nat) (l : list Z) : list Z := map (λ i, nth i l 0%Z) idx_mapping.

Definition is_prefilling (idx_mapping : list nat) (h : HostState) : list bool :=
  zip_with Z.ltb (at_batch idx_mapping (hs_num_computed_prefill_tokens h)) (at_batch idx_mapping (hs_prefill_len h)).

(** The fields of the batch, from the host's arrays and the buffers. *)
Definition make_batch (desc : BatchDesc) (batch : list (string * Z)) (num_tokens : Z) (idx_mapping : list nat)
    (query_start_loc cu_num_logits logits_indices : list Z) (h : HostState) (b : InputBuffers) : InputBatch :=
  let num_reqs := length batch in
  let padded := padded_reqs desc num_reqs in
  let num_computed_tokens_np := at_batch idx_mapping (hs_num_computed_tokens h) in
  mkBatch (map fst batch) num_reqs padded idx_mapping (map snd batch) num_tokens (bd_num_tokens desc) query_start_loc
    (take padded (bf_seq_lens b)) (zip_with Z.add num_computed_tokens_np (map snd batch) ++ replicate (padded - num_reqs) 0%Z)
    num_computed_tokens_np (at_batch idx_mapping (hs_prefill_len h)) (at_batch idx_mapping (hs_num_computed_prefill_tokens h))
    (is_prefilling idx_mapping h) (take (bd_num_tokens desc) (bf_input_ids b)) (take (bd_num_tokens desc) (bf_positions b))
    logits_indices cu_num_logits.

Definition prepare_inputs (so : SchedulerOutput) (desc : BatchDesc) : ST Runner InputBatch :=
  let num_tokens := so_total_num_scheduled_tokens so in
  st_raise_if (num_tokens <=? 0)%Z AssertionError;;
  let batch := sort_by_count (so_num_scheduled_tokens so) in
  let num_reqs := length batch in
  s ← st_get;
  let h := rs_host (rn_states s) in
  let max_num_reqs := rs_max_num_reqs (rn_states s) in
  idx_mapping ← st_lift (result_map (λ id, match hs_req_id_to_index h !! id with Some i => Ok i | None => Err TypeError end) (map fst batch));
  let cu_num_logits := map Z.of_nat (seq 0 (num_reqs + 1)) in
  st_raise_if (max_num_reqs <? num_reqs)%nat ValueError;;
  let query_start_loc_np := query_starts max_num_reqs (map snd batch) num_tokens in
  set_buffers (λ b, mkBuffers (bf_input_ids b) (bf_positions b) query_start_loc_np (bf_seq_lens b));;
  let query_start_loc := take (padded_reqs desc num_reqs + 1) query_start_loc_np in
  logits_indices ← prepare_tokens idx_mapping query_start_loc cu_num_logits num_reqs (existsb (λ x, x) (is_prefilling idx_mapping h));
  s ← st_get;
  mret (make_batch desc batch num_tokens idx_mapping query_start_loc cu_num_logits logits_indices h (rn_buffers s)).

(** The rows of block numbers and the slots. *)
Definition prepare_attn (b : InputBatch) : ST Runner (list (list Z) * list Z) :=
  block_tables ← on_tables (Tables.gather_block_tables (ib_idx_mapping b) (ib_num_reqs_after_padding b));
  slot_mappings ← on_tables (Tables.compute_slot_mappings (ib_idx_mapping b) (ib_query_start_loc b) (ib_positions b)
    (ib_num_tokens_after_padding b));
  mret (block_tables, slot_mappings).

(** [execute_model] up to the forward pass: nothing for a step without tokens. *)
Definition execute_model (rabit : bool) (so : SchedulerOutput) (desc : BatchDesc) : ST Worker (option (InputBatch * (list (list Z) * list Z))) :=
  finish_requests rabit so;;
  on_runner (add_requests so);;
  on_runner (update_requests so);;
  on_runner (on_tables Tables.apply_staged_writes);;
  if (so_total_num_scheduled_tokens so =? 0)%Z then mret None
  else
    st_raise_if (length (so_num_scheduled_tokens so) =? 0)%nat ValueError;;
    if (bd_num_tokens desc =? 0)%nat then mret None
    else
      input_batch ← on_runner (prepare_inputs so desc);
      (if rabit
       then on_bridge (rabit2_set_active_batch (ib_req_ids input_batch) (ib_num_scheduled_tokens input_batch) (ib_num_computed_tokens_np input_batch))
       else mret tt);;
      attn ← on_runner (prepare_attn input_batch);
      mret (Some (input_batch, attn)).

Definition postprocess_sampled (idx_mapping : list nat) (sampled_tokens num_sampled num_rejected query_start_loc : list Z) : ST Runner unit :=
  st_modify (λ s,
    let d := rs_device (rn_states s) in
    let with_gpu := λ (t : StagedWriteTensor) gpu,
      mkStaged gpu (sw_num_rows t) (sw_stride t) (sw_indices t) (sw_starts t) (sw_contents t) (sw_cu_lens t) in
    let m := post_update idx_mapping sampled_tokens 1 num_sampled num_rejected query_start_loc (sw_stride (dv_all_token_ids d))
      (mkPost (sw_gpu (dv_num_computed_tokens d)) (dv_last_sampled_tokens d) (rn_output_bin_counts s) (sw_gpu (dv_all_token_ids d))
         (sw_gpu (dv_total_len d))) in
    mkRunner (mkStates (rs_max_num_reqs (rn_states s)) (rs_num_speculative_steps (rn_states s)) (rs_host (rn_states s))
        (mkDevice (dv_prompt_len d) (dv_prefill_len d) (with_gpu (dv_all_token_ids d) (pm_all_token_ids m))
           (with_gpu (dv_total_len d) (pm_total_len m)) (with_gpu (dv_num_computed_tokens d) (pm_num_computed_tokens m))
           (pm_last_sampled_tokens m) (dv_draft_tokens d) (dv_next_prefill_tokens d)))
      (rn_tables s) (rn_buffers s) (pm_output_bin_counts m)).

(** [sample_tokens] for the tokens [sampled] that the sampler chose, one for each
    request: the counts of [Sampler.__call__] and the update. *)
Definition sample_tokens (b : InputBatch) (sampled : list Z) : ST Runner unit :=
  s ← st_get;
  let counts := get_num_sampled_and_rejected (replicate (ib_num_reqs b) 1%Z) (torch_empty (ib_num_reqs b)) (ib_seq_lens b) (ib_cu_num_logits b)
    (ib_idx_mapping b) (dv_prefill_len (rs_device (rn_states s))) in
  postprocess_sampled (ib_idx_mapping b) sampled counts.1 counts.2 (ib_query_start_loc b).
End Runner.

(** The constructor: its guards, the slots and the buffers; the tables are made with
    the cache. *)
Definition runner_init (rabit enable_prefix_caching speculative : bool)
    (max_num_reqs max_model_len max_num_tokens num_speculative_steps : nat) (tables : BlockTables) (bin_counts : option (list Z * nat)) : result Runner :=
  _ ← runner_init_guards rabit enable_prefix_caching speculative;
  Ok (mkRunner (States.init max_num_reqs max_model_len num_speculative_steps) tables
    (mkBuffers (replicate max_num_tokens 0%Z) (replicate max_num_tokens 0%Z) (replicate (max_num_reqs + 1) 0%Z) (replicate max_num_reqs 0%Z))
    bin_counts).
