(* ===== verification/RunnerView.v ===== *)
(** * What the model runner does to its requests

    The abstract state of the runner is a map from requests to what the worker knows of
    them: their tokens, how many are computed, and their blocks.  A step of the
    scheduler changes the map by [step_view]; [runner_ok] relates the map to the slots,
    tensors and tables of the runner, and every method keeps it. *)

From Stdlib Require Import ZArith Lia.
From stdpp Require Import base tactics numbers list option gmap strings.
From S2P Require Import Prelude Torch Quant Tab Triton Stores StagedTensor InputBatch BlockTables RequestStates Lifecycle RunnerV2.

(** The sizes the runner was made with. *)
Record Sizes := mkSizes {
  z_reqs : nat;            (* max_num_reqs *)
  z_model_len : nat;       (* max_model_len *)
  z_tokens : nat;          (* max_num_batched_tokens *)
  z_row : nat;             (* block numbers in a row of the table *)
  z_bpk : nat;             (* blocks of the kernel in a block *)
  z_block : Z              (* tokens in a block of the kernel *)
}.

(** ** The abstract step *)

Definition without (ids : list string) (reqs : Requests) : Requests := filter (λ it, it.1 ∉ ids) reqs.

Section View.
Variable z : Sizes.

(** A request the scheduler sends for the first time, or again after a preemption. *)
Definition new_view (nr : NewRequestData) : ReqView :=
  let toks := default [] (nr_prefill_token_ids nr) in
  let prompt_len := Z.of_nat (length (default [] (nr_prompt_token_ids nr))) in
  mkReq (mkSlot toks (length toks) (nr_num_computed_tokens nr)) (kernel_blocks (z_bpk z) (nr_block_ids nr)) prompt_len
    (prompt_len + default 1 (nr_max_tokens nr))%Z.

Definition add_view (reqs : Requests) (nr : NewRequestData) : Requests := <[nr_req_id nr := new_view nr]> reqs.

Abbreviation CachedItem := (string * Z * option (list Z))%type.
Definition cached_items (so : SchedulerOutput) : list CachedItem :=
  zip (zip (cr_req_ids (so_scheduled_cached_reqs so)) (cr_num_computed_tokens (so_scheduled_cached_reqs so)))
    (cr_new_block_ids (so_scheduled_cached_reqs so)).

Definition grow_blocks (ids : option (list Z)) (r : ReqView) : ReqView :=
  mkReq (rq_slot r) (rq_blocks r ++ kernel_blocks (z_bpk z) (default [] ids)) (rq_prompt_len r) (rq_max_seq_len r).

Definition update_view (reqs : Requests) (it : CachedItem) : Requests := alter (grow_blocks it.2) it.1.1 reqs.

(** The requests once the slots and the tables are updated. *)
Definition updated_view (reqs : Requests) (so : SchedulerOutput) : Requests :=
  fold_left update_view (cached_items so) (fold_left add_view (so_scheduled_new_reqs so) (without (released_ids so) reqs)).

(** The batch: requests with their counts, the small ones first. *)
Definition batch_of (so : SchedulerOutput) : list (string * Z) := sort_by_count (so_num_scheduled_tokens so).

(** A request of [q] tokens computes them, and gets its sampled token unless prefill
    tokens are left. *)
Definition sampled_tokens (q : Z) (token : Z) (s : Slot) : list Z :=
  if (sl_computed s + q <? Z.of_nat (sl_prefill s))%Z then [] else [token].

Definition sample_one (q token : Z) (r : ReqView) : ReqView :=
  mkReq (slot_step (Z.to_nat q) (sampled_tokens q token (rq_slot r)) (rq_slot r)) (rq_blocks r) (rq_prompt_len r) (rq_max_seq_len r).

Definition sample_view (reqs : Requests) (it : string * Z * Z) : Requests := alter (sample_one it.1.2 it.2) it.1.1 reqs.

Definition step_view (reqs : Requests) (so : SchedulerOutput) (sampled : list Z) : Requests :=
  fold_left sample_view (zip (batch_of so) sampled) (updated_view reqs so).

(** ** What the scheduler may ask *)

Definition new_ok (reqs : Requests) (nr : NewRequestData) : Prop :=
  (∃ prompt toks, nr_prompt_token_ids nr = Some prompt ∧ nr_prefill_token_ids nr = Some toks
     ∧ (length prompt ≤ length toks ≤ z_model_len z)%nat)
  ∧ (length (kernel_blocks (z_bpk z) (nr_block_ids nr)) ≤ z_row z)%nat
  ∧ (size (delete (nr_req_id nr) reqs) < z_reqs z)%nat.

Fixpoint adds_ok (reqs : Requests) (news : list NewRequestData) : Prop :=
  match news with
  | [] => True
  | nr :: news => new_ok reqs nr ∧ adds_ok (add_view reqs nr) news
  end.

(** A running request comes with the count the worker has. *)
Definition cached_ok (reqs : Requests) (it : CachedItem) : Prop :=
  ∃ r, reqs !! it.1.1 = Some r ∧ it.1.2 = sl_computed (rq_slot r) ∧ (length (rq_blocks (grow_blocks it.2 r)) ≤ z_row z)%nat.

Fixpoint updates_ok (reqs : Requests) (its : list CachedItem) : Prop :=
  match its with
  | [] => True
  | it :: its => cached_ok reqs it ∧ updates_ok (update_view reqs it) its
  end.

(** A chunk of a prefill, or the one token after the last computed one; there is room
    for the sampled token, and the blocks cover the chunk. *)
Definition entry_ok (q : nat) (s : Slot) : Prop :=
  (0 < q)%nat ∧ (0 ≤ sl_computed s)%Z ∧ (sl_prefill s ≤ length (sl_tokens s))%nat
  ∧ ((sl_computed s + Z.of_nat q ≤ Z.of_nat (sl_prefill s))%Z
     ∨ q = 1%nat ∧ (Z.of_nat (sl_prefill s) ≤ sl_computed s)%Z ∧ (sl_computed s + 1 = Z.of_nat (length (sl_tokens s)))%Z)
  ∧ ((Z.of_nat (sl_prefill s) ≤ sl_computed s + Z.of_nat q)%Z → (length (sl_tokens s) < z_model_len z)%nat).

Definition scheduled_ok (reqs : Requests) (it : string * Z) : Prop :=
  ∃ r, reqs !! it.1 = Some r ∧ (0 < it.2)%Z ∧ entry_ok (Z.to_nat it.2) (rq_slot r)
    ∧ (sl_computed (rq_slot r) + it.2 ≤ z_block z * Z.of_nat (length (rq_blocks r)))%Z.

Definition step_ids (so : SchedulerOutput) : list string :=
  map nr_req_id (so_scheduled_new_reqs so) ++ cr_req_ids (so_scheduled_cached_reqs so).

Definition output_ok (reqs : Requests) (so : SchedulerOutput) : Prop :=
  let news := so_scheduled_new_reqs so in
  let cached := so_scheduled_cached_reqs so in
  let reqs0 := without (released_ids so) reqs in
  NoDup (step_ids so)
  ∧ length (cr_num_computed_tokens cached) = length (cr_req_ids cached) ∧ length (cr_new_block_ids cached) = length (cr_req_ids cached)
  ∧ adds_ok reqs0 news ∧ updates_ok (fold_left add_view news reqs0) (cached_items so)
  ∧ NoDup (map fst (so_num_scheduled_tokens so))
  ∧ Forall (λ it, it.1 ∈ step_ids so ∧ scheduled_ok (updated_view reqs so) it) (so_num_scheduled_tokens so)
  ∧ so_total_num_scheduled_tokens so = foldr Z.add 0%Z (map snd (so_num_scheduled_tokens so))
  ∧ (so_total_num_scheduled_tokens so ≤ Z.of_nat (z_tokens z))%Z.

(** ** The invariant *)

Definition table_rows (rn : Runner) (reqs : Requests) : gmap nat (list Z) :=
  by_slot rq_blocks (hs_index_to_req_id (rs_host (rn_states rn))) reqs.

Definition tables_sized (bt : BlockTables) : Prop :=
  bt_max_num_reqs bt = z_reqs z ∧ sw_stride (bt_table bt) = z_row z ∧ bt_blocks_per_kv_block bt = z_bpk z
  ∧ length (bt_slot_mappings bt) = z_tokens z ∧ bt_kernel_block_size bt = z_block z ∧ bt_cp_size bt = 1%Z.

Definition buffers_sized (b : InputBuffers) : Prop :=
  length (bf_input_ids b) = z_tokens z ∧ length (bf_positions b) = z_tokens z ∧ length (bf_seq_lens b) = z_reqs z.

(** At most [k] requests and [kt] rows are staged. *)
Definition runner_ok (k kt : nat) (rn : Runner) (reqs : Requests) : Prop :=
  states_ok (z_reqs z) (z_model_len z) k (rn_states rn) reqs
  ∧ (∃ ws, tables_ok (rn_tables rn) ws (table_rows rn reqs) ∧ (length ws ≤ kt)%nat)
  ∧ tables_sized (rn_tables rn) ∧ buffers_sized (rn_buffers rn).

(** Between steps nothing is staged, and the device has the host's lengths. *)
Definition runner_idle (rn : Runner) (reqs : Requests) : Prop := runner_ok 0 0 rn reqs ∧ states_applied (rn_states rn).

(** The counts of the host are those of the requests [ids]. *)
Definition mirrored (rn : Runner) (reqs : Requests) (ids : list string) : Prop :=
  ∀ id, id ∈ ids → ∃ i r, hs_req_id_to_index (rs_host (rn_states rn)) !! id = Some i ∧ reqs !! id = Some r
    ∧ nth i (hs_num_computed_tokens (rs_host (rn_states rn))) 0%Z = sl_computed (rq_slot r).
End View.
