(* ===== verification/RunnerSteps.v ===== *)
(** * The methods of the model runner keep the view

    Every method of [RunnerV2], on what the scheduler may ask: it returns, and takes a
    runner that holds the requests of a view to one that holds the next view
    ([RunnerView]). *)

From Stdlib Require Import ZArith Lia.
From stdpp Require Import base tactics numbers list option gmap strings.
From S2P Require Import Prelude Torch Quant Tab Triton Stores StagedTensor InputBatch BlockTables RequestStates Lifecycle RunnerV2 RunnerView.

(** ** Views *)

Lemma without_lookup ids reqs id : without ids reqs !! id = if decide (id ∈ ids) then None else reqs !! id.
Proof.
  unfold without. apply option_eq. intros r. rewrite map_lookup_filter_Some. cbn.
  destruct (decide (id ∈ ids)); [by split; [intros []|]|tauto].
Qed.

Lemma without_cons id ids reqs : without (id :: ids) reqs = without ids (delete id reqs).
Proof.
  apply map_eq. intros j. rewrite !without_lookup, lookup_delete. destruct (decide (id = j)) as [<-|Hne].
  - rewrite decide_True by (by left). by case_decide.
  - destruct (decide (j ∈ ids)); [by rewrite decide_True by (by right)|]. rewrite decide_False; [done|]. rewrite elem_of_cons. by intros [->|].
Qed.

Lemma without_nil reqs : without [] reqs = reqs.
Proof. apply map_eq. intros j. rewrite without_lookup. by rewrite decide_False by apply not_elem_of_nil. Qed.

Lemma by_slot_sub {A} (f : ReqView → A) i2r i2r' reqs reqs' :
  (∀ j id, i2r' !! j = Some id → i2r !! j = Some id) → reqs' ⊆ reqs → by_slot f i2r' reqs' ⊆ by_slot f i2r reqs.
Proof.
  intros Hi Hr. apply map_subseteq_spec. intros j x. rewrite !by_slot_lookup. destruct (i2r' !! j) as [id|] eqn:E; [|done]. cbn.
  rewrite (Hi j id E). cbn. destruct (reqs' !! id) as [r|] eqn:Er; [|done]. by rewrite (lookup_weaken _ _ _ _ Er Hr).
Qed.

Section Steps.
Variable z : Sizes.
Context {Obj : Type}.

Abbreviation n := (z_reqs z).

(** The parts of a runner the operations on slots leave alone. *)
Definition same_rest (rn rn' : Runner) : Prop :=
  rn_buffers rn' = rn_buffers rn ∧ rn_output_bin_counts rn' = rn_output_bin_counts rn.

#[local] Instance same_rest_preorder : PreOrder same_rest.
Proof. split; [done|]. intros a b c [H1 H2] [H3 H4]. split; congruence. Qed.

Lemma runner_ok_weaken k kt k' kt' rn reqs : (k ≤ k')%nat → (kt ≤ kt')%nat → runner_ok z k kt rn reqs → runner_ok z k' kt' rn reqs.
Proof.
  intros H1 H2 ((E1 & E2 & E3 & E4) & (ws & T1 & T2) & T3 & T4). split; [|split; [exists ws; split; [done|lia]|done]].
  split; [done|]. split; [done|]. split; [done|]. by eapply device_ok_forget.
Qed.

(** The slot of a known request. *)
Lemma runner_slot k kt rn reqs id r :
  runner_ok z k kt rn reqs → reqs !! id = Some r →
  ∃ i, hs_req_id_to_index (rs_host (rn_states rn)) !! id = Some i ∧ hs_index_to_req_id (rs_host (rn_states rn)) !! i = Some id
    ∧ (i < n)%nat ∧ slots_of (rn_states rn) reqs !! i = Some (rq_slot r) ∧ table_rows rn reqs !! i = Some (rq_blocks r).
Proof.
  intros ((_ & _ & ((H1 & _ & _ & H2 & _) & Hd & _) & _) & _) Hr. destruct (proj2 (Hd id) ltac:(by eexists)) as [i Hi].
  exists i. split; [done|]. pose proof Hi as Hi'. apply H1 in Hi'. split; [done|]. split; [apply H2; by eexists|].
  unfold slots_of, table_rows. rewrite !by_slot_lookup, Hi'. cbn. by rewrite Hr.
Qed.

Lemma slot_unique k kt rn reqs id i j :
  runner_ok z k kt rn reqs → hs_req_id_to_index (rs_host (rn_states rn)) !! id = Some i →
  hs_index_to_req_id (rs_host (rn_states rn)) !! j = Some id → j = i.
Proof. intros ((_ & _ & (Hix & _) & _) & _). apply (index_unique Hix). Qed.

Lemma drop_request_ok k kt rn reqs id :
  runner_ok z k kt rn reqs →
  ∃ b rn', _remove_request id rn = (Ok b, rn') ∧ runner_ok z k kt rn' (delete id reqs) ∧ same_rest rn rn'
  ∧ (states_applied (rn_states rn) → states_applied (rn_states rn'))
  ∧ ∀ ids, id ∉ ids → mirrored rn reqs ids → mirrored rn' (delete id reqs) ids.
Proof.
  intros (Hs & (ws & T1 & T2) & T3 & T4).
  destruct (remove_request_ok _ _ _ _ _ id Hs) as (o & rs' & E & Hs' & -> & Hr2i & Hi2r & Hnp & Happ).
  eexists _, _. unfold _remove_request. rewrite st_bind_eq. unfold on_states. rewrite E. split; [reflexivity|]. cbn [rn_states rn_tables rn_buffers].
  split; [|split; [done|split; [done|]]].
  - split; [done|]. split; [|done]. exists ws. split; [|done]. eapply tables_ok_forget; [|exact T1]. apply by_slot_sub; [|apply delete_subseteq].
    cbn [rn_states]. intros j id' Hj. rewrite Hi2r in Hj. by case_decide.
  - intros ids Hid Hm id' Hin. destruct (Hm id' Hin) as (i & r & H1 & H2 & H3). assert (id ≠ id') by (by intros ->).
    exists i, r. cbn [rn_states]. rewrite Hr2i, Hnp, !lookup_delete_ne by done. done.
Qed.

(** Removing the requests that finished or were preempted. *)
Lemma remove_all_ok ids rn reqs (b : Bridge (Obj := Obj)) :
  runner_idle z rn reqs →
  ∃ rn', st_for ids (λ id, _ ← on_runner (_remove_request id); mret tt) (rn, b) = (Ok tt, (rn', b))
  ∧ runner_idle z rn' (without ids reqs) ∧ same_rest rn rn'.
Proof.
  revert rn reqs. induction ids as [|id ids IH]; intros rn reqs [Hok Happ].
  { exists rn. rewrite without_nil. by split. }
  destruct (drop_request_ok 0 0 rn reqs id Hok) as (o & rn1 & E & Hok1 & Hr1 & Ha1 & _).
  destruct (IH rn1 (delete id reqs)) as (rn2 & E2 & H2 & Hr2); [by split; [|apply Ha1]|].
  exists rn2. rewrite without_cons. split; [|split; [done|by transitivity rn1]].
  cbn [st_for]. rewrite st_bind_eq. unfold on_runner at 1. rewrite st_bind_eq. cbn [fst]. rewrite E. exact E2.
Qed.

(** The release at the head of a step. *)
Lemma finish_ok so rn reqs (b : Bridge (Obj := Obj)) :
  runner_idle z rn reqs →
  ∃ rn', finish_requests true so (rn, b) = (Ok tt, (rn', released (released_ids so) b))
  ∧ runner_idle z rn' (without (released_ids so) reqs) ∧ same_rest rn rn'.
Proof.
  intros H. destruct (remove_all_ok (released_ids so) rn reqs (released (released_ids so) b) H) as (rn' & E & H' & Hr).
  exists rn'. split; [|done]. unfold finish_requests. rewrite st_bind_eq.
  destruct (released_ids so) as [|id ids] eqn:Ei; [exact E|]. cbn [andb negb length Nat.eqb]. rewrite st_bind_eq.
  unfold on_bridge. exact E.
Qed.

(** Adding a request: a slot of its own, its tokens, its blocks. *)
Lemma add_ok k kt rn reqs nr ids :
  runner_ok z k kt rn reqs → new_ok z reqs nr → (nr_req_id nr ∉ ids) → mirrored rn reqs ids →
  ∃ rn', add_request nr rn = (Ok tt, rn') ∧ runner_ok z (S k) (S kt) rn' (add_view z reqs nr) ∧ same_rest rn rn'
  ∧ mirrored rn' (add_view z reqs nr) (ids ++ [nr_req_id nr]).
Proof.
  intros Hok ((prompt & toks & Ep & Et & Hlen) & Hblk & Hroom) Hid Hm. set (id := nr_req_id nr) in *.
  destruct (drop_request_ok k kt rn reqs id Hok) as (b & rn1 & E1 & Hok1 & Hr1 & _ & Hm1). specialize (Hm1 ids Hid Hm).
  pose proof Hok1 as (Hs1 & (ws & T1 & T2) & (Z1 & Z2 & Z3 & Z4 & Z5) & T4). set (view := new_view z nr).
  assert (view = mkReq (mkSlot toks (length toks) (nr_num_computed_tokens nr)) (kernel_blocks (z_bpk z) (nr_block_ids nr)) (Z.of_nat (length prompt))
                   (Z.of_nat (length prompt) + default 1%Z (nr_max_tokens nr))) as Ev by (unfold view, new_view; by rewrite Ep, Et).
  destruct (add_request_ok _ _ _ _ _ id (Z.of_nat (length prompt)) toks (nr_num_computed_tokens nr) (default 1%Z (nr_max_tokens nr))
              (kernel_blocks (z_bpk z) (nr_block_ids nr)) Hs1) as (i & rs2 & E2 & Hs2 & R2 & I2 & F2 & N2);
    [by rewrite lookup_delete_eq|done|lia|lia|]. rewrite <-Ev in Hs2.
  assert (i < n)%nat as Hi.
  { destruct Hs2 as (_ & _ & ((_ & _ & _ & H & _) & _) & _). apply H. rewrite I2, lookup_insert_eq. by eexists. }
  destruct (append_block_ids_ok (rn_tables rn1) ws (table_rows rn1 (delete id reqs)) i (nr_block_ids nr) true T1) as (bt & ws' & E3 & T3 & (L1 & L2 & L3 & L4 & L5) & L6);
    [by rewrite Z1|done|cbn [app]; by rewrite Z2, Z3|].
  set (rn2 := mkRunner rs2 (rn_tables rn1) (rn_buffers rn1) (rn_output_bin_counts rn1)).
  exists (mkRunner rs2 bt (rn_buffers rn1) (rn_output_bin_counts rn1)). split.
  { unfold add_request. rewrite Ep, Et. fold id. rewrite st_bind_eq, E1, st_bind_eq. unfold on_states at 1. rewrite E2, st_bind_eq.
    unfold req_index at 1. rewrite st_bind_eq. cbn [st_get rn_states]. unfold st_lift. rewrite R2, lookup_insert_eq. unfold on_tables. cbn [rn_tables].
    by rewrite E3. }
  assert (hs_index_to_req_id (rs_host rs2) !! i = Some id) as Hii by (by rewrite I2, lookup_insert_eq).
  assert (add_view z reqs nr = <[id := view]> (delete id reqs)) as Ea by (unfold add_view; by rewrite insert_delete_eq).
  rewrite Ea. split; [|split; [exact Hr1|]].
  - split; [done|]. split; [|split; [|done]]; cbn [rn_tables].
    + exists ws'. split; [|lia]. unfold table_rows. cbn [rn_states]. rewrite I2, by_slot_insert.
      * rewrite Z3 in T3. by rewrite Ev.
      * intros j Hj. destruct Hs1 as (_ & _ & ((H1 & _) & Hd & _) & _). apply H1 in Hj. destruct (proj1 (Hd id) ltac:(by eexists)) as [r Hr].
        by rewrite lookup_delete_eq in Hr.
    + injection L5 as L5 L7 L8 L9. unfold tables_sized. by rewrite L1, L2, L3, L4, L5, L7.
  - intros id' [Hin| ->%list_elem_of_singleton]%elem_of_app.
    + destruct (Hm1 id' Hin) as (j & r & J1 & J2 & J3). assert (id ≠ id') by (by intros ->).
      exists j, r. cbn [rn_states]. rewrite R2, N2, !lookup_insert_ne by done. split; [done|]. split; [done|].
      rewrite nth_insert_ne; [done|]. intros <-. destruct Hs1 as (_ & _ & ((H1 & _) & _) & _). apply H1 in J1. congruence.
    + exists i, view. cbn [rn_states]. rewrite R2, N2, !lookup_insert_eq. split; [done|]. split; [done|].
      rewrite nth_insert_eq; [by rewrite Ev|]. destruct Hs1 as (_ & _ & (_ & _ & (_ & _ & _ & -> & _) & _) & _). done.
Qed.

Lemma adds_loop_ok news k kt rn reqs ids :
  runner_ok z k kt rn reqs → adds_ok z reqs news → NoDup (ids ++ map nr_req_id news) → mirrored rn reqs ids →
  ∃ rn', st_for news add_request rn = (Ok tt, rn') ∧ runner_ok z (length news + k) (length news + kt) rn' (fold_left (add_view z) news reqs)
  ∧ same_rest rn rn' ∧ mirrored rn' (fold_left (add_view z) news reqs) (ids ++ map nr_req_id news).
Proof.
  revert k kt rn reqs ids. induction news as [|nr news IH]; intros k kt rn reqs ids Hok Ha Hn Hm.
  { exists rn. cbn. by rewrite app_nil_r. }
  destruct Ha as [H1 H2]. cbn [map] in *. pose proof Hn as Hn'. apply NoDup_app in Hn as (_ & Hd & _).
  destruct (add_ok k kt rn reqs nr ids Hok H1) as (rn1 & E1 & Hok1 & Hr1 & Hm1); [intros H; apply (Hd _ H); by left|done|].
  destruct (IH (S k) (S kt) rn1 _ (ids ++ [nr_req_id nr]) Hok1 H2) as (rn2 & E2 & Hok2 & Hr2 & Hm2); [by rewrite <-app_assoc|done|].
  exists rn2. cbn [st_for fold_left length]. rewrite st_bind_eq, E1. split; [done|]. rewrite <-!Nat.add_succ_comm in Hok2.
  split; [by eapply runner_ok_weaken; [| |exact Hok2]; lia|]. split; [by transitivity rn1|]. by rewrite <-app_assoc in Hm2.
Qed.

Lemma mirrored_room k kt rn reqs ids : runner_ok z k kt rn reqs → mirrored rn reqs ids → NoDup ids → (length ids ≤ n)%nat.
Proof.
  intros [Hs _] Hm Hn. pose proof (states_room _ _ _ _ _ Hs). assert (length ids ≤ size reqs)%nat; [|lia].
  apply nodup_size; [done|]. apply List.Forall_forall. intros id Hid%list_elem_of_In. destruct (Hm id Hid) as (_ & r & _ & Hrr & _). by eexists.
Qed.

Lemma add_requests_ok so rn reqs :
  runner_idle z rn reqs → adds_ok z reqs (so_scheduled_new_reqs so) → NoDup (map nr_req_id (so_scheduled_new_reqs so)) →
  let reqs' := fold_left (add_view z) (so_scheduled_new_reqs so) reqs in
  ∃ rn', add_requests so rn = (Ok tt, rn') ∧ runner_ok z 0 (length (so_scheduled_new_reqs so)) rn' reqs' ∧ states_applied (rn_states rn')
  ∧ same_rest rn rn' ∧ mirrored rn' reqs' (map nr_req_id (so_scheduled_new_reqs so)).
Proof.
  intros [Hok Happ] Ha Hn. cbv zeta. set (news := so_scheduled_new_reqs so) in *.
  destruct (adds_loop_ok news 0 0 rn reqs [] Hok Ha Hn) as (rn1 & E1 & Hok1 & Hr1 & Hm1); [by intros id ?%elem_of_nil|].
  rewrite !Nat.add_0_r in Hok1. cbn [app] in Hm1. unfold add_requests. fold news. rewrite st_bind_eq, E1.
  assert (length news ≤ n)%nat as Hroom by (rewrite <-(length_map nr_req_id); by eapply mirrored_room).
  destruct (decide (news = [])) as [En|En].
  { rewrite En in *. injection E1 as <-. by exists rn. }
  destruct Hok1 as (Hs & T1 & T2 & T3). destruct (states_apply_ok _ _ _ _ _ Hs Hroom) as (rs2 & E2 & Hs2 & Happ2 & Eh).
  exists (mkRunner rs2 (rn_tables rn1) (rn_buffers rn1) (rn_output_bin_counts rn1)).
  split; [destruct news; [done|]; unfold on_states; by rewrite E2|]. split; [|split; [done|split; [done|]]].
  - split; [done|]. split; [|done]. unfold table_rows in *. cbn [rn_states rn_tables]. by rewrite Eh.
  - intros id Hid. destruct (Hm1 id Hid) as (i & r & H). exists i, r. cbn [rn_states]. by rewrite Eh.
Qed.

Lemma alter_some (f : ReqView → ReqView) (id : string) (reqs : Requests) r : reqs !! id = Some r → alter f id reqs = <[id := f r]> reqs.
Proof.
  intros Hr. apply map_eq. intros j. rewrite lookup_alter, lookup_insert. destruct (decide (id = j)) as [<-|]; [by rewrite Hr|done].
Qed.

(** Updating a running request: its count, its new blocks. *)
Lemma update_ok kt rn reqs it ids :
  runner_ok z 0 kt rn reqs → cached_ok z reqs it → (it.1.1 ∉ ids) → mirrored rn reqs ids → states_applied (rn_states rn) →
  ∃ rn', update_request it rn = (Ok tt, rn') ∧ runner_ok z 0 (S kt) rn' (update_view z reqs it) ∧ same_rest rn rn'
  ∧ states_applied (rn_states rn') ∧ mirrored rn' (update_view z reqs it) (ids ++ [it.1.1]).
Proof.
  destruct it as [[id c] new]. intros Hok (r & Hr & Hc & Hfit) Hid Hm Happ. cbn [fst snd] in *.
  destruct (runner_slot _ _ _ _ _ _ Hok Hr) as (i & Hi & Hii & Hlt & Hslot & Hrow).
  pose proof (λ j, slot_unique _ _ _ _ id i j Hok Hi) as Huniq. pose proof Hok as (Hs & (ws & T1 & T2) & (Z1 & Z2 & Z3 & Z4 & Z5) & T4).
  set (h := rs_host (rn_states rn)) in *. set (np := <[i := c]> (hs_num_computed_tokens h)).
  set (rs' := with_counts (rn_states rn) (hs_num_computed_prefill_tokens h) np).
  assert (states_ok n (z_model_len z) 0 rs' (update_view z reqs (id, c, new))) as Hs'.
  { pose proof Hs as (_ & _ & (_ & _ & (L1 & L2 & L3 & L4 & L5) & _) & _).
    apply states_alter_ok; [done|]. apply states_counts_ok; [done|done|unfold np; by rewrite length_insert]. }
  assert (∃ bt ws', match new with Some b => Tables.append_block_ids i b false (rn_tables rn) | None => (Ok tt, rn_tables rn) end = (Ok tt, bt)
            ∧ tables_ok bt ws' (<[i := rq_blocks (grow_blocks z new r)]> (table_rows rn reqs)) ∧ tables_sized z bt ∧ (length ws' ≤ S kt)%nat)
    as (bt & ws' & Eb & Tb & Zb & Lb).
  { destruct new as [b|].
    - destruct (append_block_ids_ok (rn_tables rn) ws (table_rows rn reqs) i b false T1) as (bt & ws' & Eb & Tb & (L1 & L2 & L3 & L4 & L5) & Lb);
        [by rewrite Z1|by intros _; eexists| |].
      + rewrite Hrow, Z2, Z3. exact Hfit.
      + exists bt, ws'. rewrite Hrow in Tb. cbn [default] in Tb. rewrite Z3 in Tb. split; [done|]. split; [done|]. split; [|lia].
        injection L5 as L5 L7 L8 L9. unfold tables_sized. by rewrite L1, L2, L3, L4, L5, L7.
    - exists (rn_tables rn), ws. split; [done|]. split; [|split; [done|lia]]. unfold grow_blocks. cbn [rq_blocks default].
      assert (kernel_blocks (z_bpk z) [] = []) as -> by (unfold kernel_blocks; by destruct (_ <? _)%nat).
      rewrite app_nil_r, insert_id; done. }
  exists (mkRunner rs' bt (rn_buffers rn) (rn_output_bin_counts rn)). split.
  { unfold update_request. rewrite st_bind_eq. unfold req_index at 1. rewrite st_bind_eq. cbn [st_get]. fold h. unfold st_lift. rewrite Hi.
    rewrite st_bind_eq. unfold on_states at 1, States.on_host, st_modify. change (mkStates _ _ _ _) with rs'.
    destruct new as [b|]; [unfold on_tables; cbn [rn_tables]; by rewrite Eb|]. by injection Eb as <-. }
  assert (update_view z reqs (id, c, new) = <[id := grow_blocks z new r]> reqs) as Eu by (by apply alter_some).
  split; [|split; [done|split; [done|]]].
  - split; [done|]. split; [|done]. exists ws'. split; [|done]. unfold table_rows. cbn [rn_states rs' with_counts rs_host hs_index_to_req_id rn_tables].
    rewrite Eu, (by_slot_update rq_blocks _ _ i) by done. exact Tb.
  - rewrite Eu. assert (length (hs_num_computed_tokens h) = n) as Ln by (by destruct Hs as (_ & _ & (_ & _ & (_ & _ & _ & Ln & _) & _) & _)).
    intros id' [Hin| ->%list_elem_of_singleton]%elem_of_app; cbn [rn_states rs' with_counts rs_host hs_req_id_to_index hs_num_computed_tokens].
    + destruct (Hm id' Hin) as (j & r' & J1 & J2 & J3). assert (id ≠ id') by (by intros ->). exists j, r'. rewrite lookup_insert_ne by done.
      split; [done|]. split; [done|]. unfold np. rewrite nth_insert_ne; [done|]. intros <-.
      destruct Hs as (_ & _ & ((H1 & _) & _) & _). apply H1 in J1. fold h in J1. congruence.
    + exists i, (grow_blocks z new r). rewrite lookup_insert_eq. split; [done|]. split; [done|]. unfold np. by rewrite nth_insert_eq by lia.
Qed.

Lemma updates_loop_ok its kt rn reqs ids :
  runner_ok z 0 kt rn reqs → updates_ok z reqs its → NoDup (ids ++ map (λ it, it.1.1) its) → mirrored rn reqs ids → states_applied (rn_states rn) →
  let reqs' := fold_left (update_view z) its reqs in
  ∃ rn', st_for its update_request rn = (Ok tt, rn') ∧ runner_ok z 0 (length its + kt) rn' reqs' ∧ same_rest rn rn'
  ∧ states_applied (rn_states rn') ∧ mirrored rn' reqs' (ids ++ map (λ it, it.1.1) its).
Proof.
  revert kt rn reqs ids. induction its as [|it its IH]; intros kt rn reqs ids Hok Ha Hn Hm Happ.
  { exists rn. cbn. by rewrite app_nil_r. }
  destruct Ha as [H1 H2]. cbn [map] in *. pose proof Hn as Hn'. apply NoDup_app in Hn as (_ & Hd & _).
  destruct (update_ok kt rn reqs it ids Hok H1) as (rn1 & E1 & Hok1 & Hr1 & Ha1 & Hm1); [intros Hx; apply (Hd _ Hx); by left|done|done|].
  destruct (IH (S kt) rn1 _ (ids ++ [it.1.1]) Hok1 H2) as (rn2 & E2 & Hok2 & Hr2 & Ha2 & Hm2); [by rewrite <-app_assoc|done|done|].
  exists rn2. cbn [st_for fold_left length]. rewrite st_bind_eq, E1. split; [done|]. rewrite <-Nat.add_succ_comm in Hok2.
  split; [by eapply runner_ok_weaken; [| |exact Hok2]; lia|]. split; [by transitivity rn1|]. split; [done|]. by rewrite <-app_assoc in Hm2.
Qed.

(** The host's counts of computed prefill tokens. *)
Definition capped (rn : Runner) : Prop :=
  let h := rs_host (rn_states rn) in hs_num_computed_prefill_tokens h = zip_with Z.min (hs_num_computed_tokens h) (hs_prefill_len h).

Lemma update_requests_ok so kt rn reqs ids :
  runner_ok z 0 kt rn reqs → updates_ok z reqs (cached_items so) → NoDup (ids ++ map (λ it, it.1.1) (cached_items so)) →
  mirrored rn reqs ids → states_applied (rn_states rn) →
  let reqs' := fold_left (update_view z) (cached_items so) reqs in
  ∃ rn', update_requests so rn = (Ok tt, rn') ∧ runner_ok z 0 (length (cached_items so) + kt) rn' reqs' ∧ same_rest rn rn'
  ∧ states_applied (rn_states rn') ∧ mirrored rn' reqs' (ids ++ map (λ it, it.1.1) (cached_items so)) ∧ capped rn'.
Proof.
  intros Hok Hu Hn Hm Happ. cbv zeta. destruct (updates_loop_ok (cached_items so) kt rn reqs ids Hok Hu Hn Hm Happ) as (rn1 & E1 & Hok1 & Hr1 & Ha1 & Hm1).
  eexists. unfold update_requests. cbv zeta. fold (cached_items so). rewrite st_bind_eq, E1. split; [reflexivity|].
  split; [|split; [exact Hr1|split; [exact Ha1|split; [exact Hm1|done]]]]. destruct Hok1 as (Hs & T).
  split; [|exact T]. pose proof Hs as (_ & _ & (_ & _ & (L1 & L2 & L3 & L4 & L5) & _) & _).
  apply states_counts_ok; [done| |done]. rewrite length_zip_with. lia.
Qed.

(** The slots, the tables and the bridge of a step. *)
Definition update_all (so : SchedulerOutput) : ST (Runner * Bridge (Obj := Obj)) unit :=
  finish_requests true so;;
  on_runner (add_requests so);;
  on_runner (update_requests so);;
  on_runner (on_tables Tables.apply_staged_writes).

Lemma cached_ids so : let cached := so_scheduled_cached_reqs so in
  length (cr_num_computed_tokens cached) = length (cr_req_ids cached) → length (cr_new_block_ids cached) = length (cr_req_ids cached) →
  map (λ it, it.1.1) (cached_items so) = cr_req_ids cached ∧ length (cached_items so) = length (cr_req_ids cached).
Proof.
  intros cached H1 H2. unfold cached_items. fold cached. split; [|rewrite !length_zip_with; lia].
  revert H1 H2. generalize (cr_num_computed_tokens cached), (cr_new_block_ids cached). induction (cr_req_ids cached) as [|id l IH];
    intros [|c cs] [|b bs] H1 H2; try done. cbn in *. f_equal. apply IH; lia.
Qed.

Lemma update_all_ok so rn reqs b :
  runner_idle z rn reqs → output_ok z reqs so →
  ∃ rn', update_all so (rn, b) = (Ok tt, (rn', released (released_ids so) b))
  ∧ runner_idle z rn' (updated_view z reqs so) ∧ same_rest rn rn' ∧ mirrored rn' (updated_view z reqs so) (step_ids so) ∧ capped rn'
  ∧ bt_num_blocks_gpu (rn_tables rn') = bt_num_blocks (rn_tables rn').
Proof.
  intros Hok (Hn & C1 & C2 & Ha & Hu & _). destruct (cached_ids so C1 C2) as [Ec Lc]. unfold step_ids in *.
  destruct (finish_ok so rn reqs b Hok) as (rn1 & E1 & H1 & R1).
  pose proof Hn as Hn'. apply NoDup_app in Hn' as (Hn' & _).
  destruct (add_requests_ok so rn1 _ H1 Ha Hn') as (rn2 & E2 & H2 & A2 & R2 & M2).
  destruct (update_requests_ok so _ rn2 _ _ H2 Hu ltac:(by rewrite Ec) M2 A2) as (rn3 & E3 & H3 & R3 & A3 & M3 & K3).
  rewrite Ec in M3. fold (updated_view z reqs so) in H3, M3.
  pose proof (mirrored_room _ _ _ _ _ H3 M3 Hn) as Hroom. rewrite length_app, length_map in Hroom. rewrite Lc in H3.
  pose proof H3 as (Hs & (ws & T1 & T2) & (Z1 & Z2 & Z3 & Z4 & Z5 & Z6) & T4).
  destruct (apply_staged_ok (rn_tables rn3) ws (table_rows rn3 (updated_view z reqs so)) T1) as (bt & E4 & T5 & (L1 & L2 & L3 & L4 & L5) & G); [rewrite Z1; lia|].
  exists (mkRunner (rn_states rn3) bt (rn_buffers rn3) (rn_output_bin_counts rn3)). split.
  { unfold update_all. rewrite st_bind_eq, E1, st_bind_eq. unfold on_runner at 1. cbn [fst snd]. rewrite E2, st_bind_eq. unfold on_runner at 1. cbn [fst snd].
    rewrite E3. unfold on_runner, on_tables. cbn [fst snd]. by rewrite E4. }
  split; [|split; [transitivity rn2; [by transitivity rn1|exact R3]|split; [exact M3|split; [exact K3|exact G]]]].
  split; [|exact A3]. split; [done|]. split; [by exists []|]. split; [|done]. cbn [rn_tables].
  injection L5 as L5 L7 L8 L9. unfold tables_sized. by rewrite L1, L2, L3, L4, L5, L7.
Qed.
End Steps.
