(* ===== verification/RunnerBatch.v ===== *)
(** * The batch the model runner builds

    The batch of a step, from slots that hold the requests of a view: every request's
    own tokens at its own positions, the length of its sequence, its row of blocks and
    the slots of its tokens; and the update of the requests with the sampled tokens. *)

From Stdlib Require Import ZArith Lia Permutation Sorted.
From stdpp Require Import base tactics numbers list option gmap strings.
From S2P Require Import Prelude Torch Quant Tab Triton Stores StagedTensor InputBatch BlockTables RequestStates Lifecycle RunnerV2 RunnerView RunnerSteps.

(** ** The order of the batch *)

Lemma insert_perm x l : Permutation (insert_by_count x l) (x :: l).
Proof.
  induction l as [|y l IH]; [done|]. cbn. destruct (x.2 <=? y.2)%Z; [done|].
  etransitivity; [apply Permutation.perm_skip, IH|apply Permutation.perm_swap].
Qed.

Lemma sort_perm l : Permutation (sort_by_count l) l.
Proof.
  induction l as [|x l IH]; [done|]. cbn. etransitivity; [apply insert_perm|]. by apply Permutation.perm_skip.
Qed.

(** The counts never fall, and requests with the same count keep their order. *)
Lemma sort_sorted l : StronglySorted (λ x y : string * Z, x.2 ≤ y.2)%Z (sort_by_count l).
Proof.
  induction l as [|x l IH]; [constructor|]. cbn. change (foldr insert_by_count [] l) with (sort_by_count l).
  generalize dependent (sort_by_count l). clear l. intros l IH. induction IH as [|y l' Hl' IH' Hy]; [by repeat constructor|].
  cbn. destruct (Z.leb_spec x.2 y.2).
  - constructor; [by constructor|]. constructor; [done|]. eapply Forall_impl; [exact Hy|]. cbn beta. lia.
  - constructor; [done|]. apply List.Forall_forall. intros w Hw. apply (Permutation_in w (insert_perm x l')) in Hw as [<-|Hw]; [lia|].
    rewrite List.Forall_forall in Hy. by apply Hy.
Qed.

Lemma sort_stable l c : List.filter (λ it : string * Z, it.2 =? c)%Z (sort_by_count l) = List.filter (λ it : string * Z, it.2 =? c)%Z l.
Proof.
  assert (∀ x l, List.filter (λ it : string * Z, it.2 =? c)%Z (insert_by_count x l) = List.filter (λ it : string * Z, it.2 =? c)%Z (x :: l)) as Hi.
  { clear. intros x l. induction l as [|y l IH]; [done|]. cbn [insert_by_count]. destruct (Z.leb_spec x.2 y.2) as [H|H]; [done|].
    cbn [List.filter] in *. rewrite IH. destruct (Z.eqb_spec x.2 c), (Z.eqb_spec y.2 c); try done. lia. }
  induction l as [|x l IH]; [done|]. change (sort_by_count (x :: l)) with (insert_by_count x (sort_by_count l)).
  rewrite Hi. cbn [List.filter]. by rewrite IH.
Qed.

(** The query locations are the sums of the counts. *)
Lemma cumsum_nth acc l b : (b ≤ length l)%nat → nth b (acc :: cumsum acc l) 0%Z = (acc + foldr Z.add 0 (take b l))%Z.
Proof.
  revert acc b. induction l as [|x l IH]; intros acc [|b] Hb; cbn [take foldr cumsum] in *; try (cbn [nth length] in *; lia).
  change (nth (S b) (acc :: (acc + x)%Z :: cumsum (acc + x) l) 0%Z) with (nth b ((acc + x)%Z :: cumsum (acc + x) l) 0%Z).
  rewrite IH by (cbn in Hb; lia). lia.
Qed.

Lemma cumsum_length acc l : length (cumsum acc l) = length l.
Proof. revert acc. induction l as [|x l IH]; intros acc; [done|]. cbn. by rewrite IH. Qed.

Definition counts_of (batch : list (string * Z)) : list nat := map (λ it, Z.to_nat it.2) batch.

Lemma counts_sum batch b :
  Forall (λ it : string * Z, 0 < it.2)%Z batch → foldr Z.add 0%Z (take b (map snd batch)) = Z.of_nat (start (counts_of batch) b).
Proof.
  intros Hp. revert b. induction Hp as [|it batch Hit Hp IH]; intros [|b]; try done. cbn [map take foldr]. rewrite IH.
  unfold start, counts_of. cbn [map take sum_list_with]. unfold Datatypes.id. lia.
Qed.

Lemma total_perm (l l' : list (string * Z)) : Permutation l l' → foldr Z.add 0%Z (map snd l) = foldr Z.add 0%Z (map snd l').
Proof. intros H. induction H; cbn; lia. Qed.

Lemma holds_take mem a r m : (a + length r ≤ m)%nat → holds_at mem a r → holds_at (take m mem) a r.
Proof. intros Hm H k Hk. rewrite nth_firstn, (proj2 (Nat.ltb_lt _ _)) by lia. by apply H. Qed.

Lemma nth_zip_with {A B C} (f : A → B → C) l k i a b c :
  (i < length l)%nat → (i < length k)%nat → nth i (zip_with f l k) c = f (nth i l a) (nth i k b).
Proof.
  revert k i. induction l as [|x l IH]; intros [|y k] [|i] H1 H2; cbn in *; try lia; [done|]. apply IH; lia.
Qed.

Section Batch.
Variable z : Sizes.
Context {Obj : Type}.
Variable torch_empty : nat → list Z.
Hypothesis Hempty : ∀ m, length (torch_empty m) = m.

Abbreviation n := (z_reqs z).

Lemma slot_prefill rn reqs i s :
  runner_idle z rn reqs → slots_of (rn_states rn) reqs !! i = Some s →
  nth i (dv_prefill_len (rs_device (rn_states rn))) 0%Z = Z.of_nat (sl_prefill s).
Proof.
  intros [[(_ & _ & ((H1 & _) & _ & _ & Hv) & _) _] [_ ->]] Hs. unfold slots_of in Hs. rewrite by_slot_lookup in Hs.
  destruct (_ !! i) as [id|] eqn:Ei; [|done]. cbn in Hs. destruct (reqs !! id) as [r|] eqn:Er; [|done]. injection Hs as <-.
  apply H1 in Ei. by apply (Hv id i r).
Qed.

(** The device tensors of an idle runner. *)
Lemma idle_rows rn reqs :
  runner_idle z rn reqs → let d := rs_device (rn_states rn) in let S := slots_of (rn_states rn) reqs in
  rows_in n (z_model_len z) (sw_gpu (dv_all_token_ids d)) (token_rows S) ∧ rows_in n 1 (sw_gpu (dv_num_computed_tokens d)) (computed_rows S)
  ∧ rows_in n 1 (sw_gpu (dv_total_len d)) (length_rows S) ∧ rows_in n 1 (dv_last_sampled_tokens d) (last_rows S)
  ∧ sw_stride (dv_all_token_ids d) = z_model_len z.
Proof.
  intros [[(_ & _ & _ & (w1 & A1 & A2) & (w2 & B1 & B2) & (w3 & C1 & C2) & L & _ & Sh & T1 & T2 & T3) _] _].
  destruct w1; [|cbn in *; lia]. destruct w2; [|cbn in *; lia]. destruct w3; [|cbn in *; lia].
  apply applied_rows in A1, B1, C1. apply List.Forall_cons_iff in Sh as [S1 Sh]. apply List.Forall_cons_iff in Sh as [S2 Sh].
  apply List.Forall_cons_iff in Sh as [S3 _]. rewrite S1, T1 in A1. rewrite S2, T2 in B1. rewrite S3, T3 in C1. by split_and!.
Qed.

(** The slice of its tokens that an entry computes. *)
Definition chunk (s : Slot) (q : nat) : list Z := slice (Z.to_nat (sl_computed s)) (Z.to_nat (sl_computed s) + q) (sl_tokens s).

Lemma chunk_length s q : entry_ok z q s → length (chunk s q) = q ∧ (Z.to_nat (sl_computed s) + q ≤ length (sl_tokens s))%nat.
Proof. intros (H1 & H2 & H3 & H4 & _). unfold chunk. rewrite slice_length. lia. Qed.

Lemma chunk_decode s q : entry_ok z q s → (Z.of_nat (sl_prefill s) ≤ sl_computed s)%Z →
  q = 1%nat ∧ chunk s q = [nth (length (sl_tokens s) - 1) (sl_tokens s) 0%Z] ∧ sl_last s = Some (chunk s q).
Proof.
  intros (H1 & H2 & H3 & H4 & _) Hd. assert (q = 1%nat ∧ sl_computed s + 1 = Z.of_nat (length (sl_tokens s)))%Z as [-> Hc] by lia.
  split; [done|]. replace (Z.to_nat (sl_computed s)) with (length (sl_tokens s) - 1)%nat in * by lia.
  assert (chunk s 1 = [nth (length (sl_tokens s) - 1) (sl_tokens s) 0%Z]) as E.
  { unfold chunk, slice. replace (Z.to_nat (sl_computed s)) with (length (sl_tokens s) - 1)%nat by lia.
    destruct (lookup_lt_is_Some_2 (sl_tokens s) (length (sl_tokens s) - 1)%nat ltac:(lia)) as [x Hx].
    rewrite (drop_S _ x _ Hx), (nth_lookup_Some _ _ _ _ Hx). by replace (length (sl_tokens s) - 1 + 1 - (length (sl_tokens s) - 1))%nat with 1%nat by lia. }
  split; [done|]. rewrite E. unfold sl_last. by rewrite (proj2 (Nat.ltb_lt _ _)) by lia.
Qed.

(** What the buffers hold for the entries of the batch. *)
Definition entry_inputs (buf : InputBuffers) (logits : list Z) (first : nat) (b q : nat) (s : Slot) : Prop :=
  holds_at (bf_input_ids buf) first (chunk s q)
  ∧ holds_at (bf_positions buf) first (map (λ o, sl_computed s + Z.of_nat o)%Z (seq 0 q))
  ∧ nth b (bf_seq_lens buf) 0%Z = (sl_computed s + Z.of_nat q)%Z
  ∧ nth b logits 0%Z = (Z.of_nat (first + q) - 1)%Z.

Lemma prepare_tokens_ok rn reqs idx counts qsl cu any :
  let S := slots_of (rn_states rn) reqs in
  runner_idle z rn reqs → length idx = length counts →
  (∀ b, (b ≤ length counts)%nat → nth b qsl 0%Z = Z.of_nat (start counts b)) → (∀ b, (b ≤ length counts)%nat → nth b cu 0%Z = Z.of_nat b) →
  (start counts (length counts) ≤ z_tokens z)%nat → (length counts ≤ n)%nat →
  (∀ b i, idx !! b = Some i → ∃ s, S !! i = Some s ∧ entry_ok z (nth b counts 0%nat) s ∧ ((sl_computed s < Z.of_nat (sl_prefill s))%Z → any = true)) →
  ∃ logits rn', prepare_tokens torch_empty idx qsl cu (length counts) any rn = (Ok logits, rn')
  ∧ runner_idle z rn' reqs ∧ rs_host (rn_states rn') = rs_host (rn_states rn) ∧ rn_tables rn' = rn_tables rn
  ∧ ∀ b i s, idx !! b = Some i → S !! i = Some s → entry_inputs (rn_buffers rn') logits (start counts b) b (nth b counts 0%nat) s.
Proof.
  intros S Hidle Hlen Hloc Hcu Hfit Hn Hb. pose proof (idle_rows rn reqs Hidle) as (RA & RC & _ & RL & Estr). fold S in RA, RC, RL.
  pose proof Hidle as [(Hs & HT & HZ & (B1 & B2 & B3)) Happ]. set (d := rs_device (rn_states rn)) in *.
  assert (∀ i s, S !! i = Some s → nth i (sw_gpu (dv_num_computed_tokens d)) 0%Z = sl_computed s) as Hcomp.
  { intros i s Hi. apply (rows_in_one _ _ _ i _ RC). unfold computed_rows. by rewrite lookup_fmap, Hi. }
  assert (∀ i s, S !! i = Some s → nth i (dv_prefill_len d) 0%Z = Z.of_nat (sl_prefill s)) as Hpre by (intros; by apply (slot_prefill rn reqs)).
  set (pre := prepare_prefill_inputs (bf_input_ids (rn_buffers rn)) (dv_next_prefill_tokens d) idx qsl (sw_gpu (dv_all_token_ids d))
    (sw_stride (dv_all_token_ids d)) (dv_prefill_len d) (sw_gpu (dv_num_computed_tokens d))).
  destruct (prefill_inputs_ok idx counts qsl Hlen Hloc n (z_model_len z) (sw_gpu (dv_all_token_ids d)) (token_rows S) (dv_prefill_len d)
    (sw_gpu (dv_num_computed_tokens d)) (bf_input_ids (rn_buffers rn)) (dv_next_prefill_tokens d) RA ltac:(lia)) as [P1 P2].
  { intros b i Hi Hlt. destruct (Hb b i Hi) as (s & Es & He & _). exists (sl_tokens s). rewrite (Hcomp i s Es) in *.
    split; [unfold token_rows; by rewrite lookup_fmap, Es|]. destruct He as (? & ? & ? & ? & _). rewrite (Hpre i s Es) in Hlt. lia. }
  rewrite <-Estr in P1, P2. fold pre in P1, P2. set (prefill := if any then pre else (bf_input_ids (rn_buffers rn), dv_next_prefill_tokens d)).
  assert (length prefill.1 = z_tokens z) as Lp by (unfold prefill; destruct any; [by rewrite P1|done]).
  set (pos := prepare_pos_seq_lens idx qsl (sw_gpu (dv_num_computed_tokens d)) (bf_positions (rn_buffers rn)) (bf_seq_lens (rn_buffers rn))).
  destruct (pos_seq_lens_ok idx counts qsl Hlen Hloc (sw_gpu (dv_num_computed_tokens d)) (bf_positions (rn_buffers rn)) (bf_seq_lens (rn_buffers rn)))
    as (Q1 & Q2 & Q3); [lia|lia|]. fold pos in Q1, Q2, Q3.
  assert (Forall (λ q, 0 < q)%nat counts) as Hpos.
  { apply Forall_lookup. intros b q Hq. assert (b < length idx)%nat as Hlt by (rewrite Hlen; by eapply lookup_lt_Some).
    destruct (lookup_lt_is_Some_2 idx b Hlt) as [i Hi]. destruct (Hb b i Hi) as (s & _ & He & _). rewrite (nth_lookup_Some _ _ _ _ Hq) in He. apply He. }
  destruct (combine_ok idx counts qsl Hlen Hloc cu Hcu (dv_last_sampled_tokens d) pos.2 (dv_prefill_len d) (dv_draft_tokens d) prefill.1
              (torch_empty (length counts)) Hpos) as (out & Eo & O1 & O2 & O3); [lia|by rewrite Hempty|].
  set (buf := mkBuffers out.1 pos.1 (bf_query_start_loc (rn_buffers rn)) pos.2).
  set (rs' := mkStates (rs_max_num_reqs (rn_states rn)) (rs_num_speculative_steps (rn_states rn)) (rs_host (rn_states rn))
    (mkDevice (dv_prompt_len d) (dv_prefill_len d) (dv_all_token_ids d) (dv_total_len d) (dv_num_computed_tokens d) (dv_last_sampled_tokens d)
       (dv_draft_tokens d) prefill.2)).
  exists out.2, (mkRunner rs' (rn_tables rn) buf (rn_output_bin_counts rn)). split.
  { unfold prepare_tokens. rewrite st_bind_eq. cbn [st_get]. rewrite st_bind_eq. unfold on_states at 1, States.on_device, st_modify.
    fold d. fold pre. fold prefill. rewrite st_bind_eq. fold pos. unfold set_buffers at 1, st_modify. rewrite st_bind_eq. unfold st_lift.
    pose proof Hs as (_ & Espec & _). rewrite <-Espec in Eo at 1. rewrite Eo. reflexivity. }
  split; [|split; [done|split; [done|]]].
  { split; [|exact Happ]. split; [exact Hs|]. split; [exact HT|]. split; [exact HZ|]. unfold buffers_sized. cbn [rn_buffers buf bf_input_ids bf_positions bf_seq_lens].
    by rewrite O1, Lp, Q1, Q2. }
  intros b i s Hi Es. destruct (Hb b i Hi) as (s' & Es' & He & Hany). rewrite Es in Es'. injection Es' as <-.
  destruct (O3 b i Hi) as [Hlog Hids]. destruct (Q3 b i Hi) as [Hp Hl]. rewrite Hl, (Hcomp i s Es), (Hpre i s Es) in Hids. rewrite (Hcomp i s Es) in Hp, Hl.
  destruct (chunk_length s _ He) as [Lc _]. split; [|split; [exact Hp|split; [exact Hl|exact Hlog]]]. cbn [rn_buffers buf bf_input_ids].
  destruct (Z.lt_ge_cases (sl_computed s) (Z.of_nat (sl_prefill s))) as [Hc|Hc].
  - rewrite (proj2 (Z.leb_le _ _)) in Hids by (destruct He as (_ & _ & _ & He & _); lia).
    apply Hids; [lia|]. unfold prefill. rewrite (Hany Hc). unfold chunk. rewrite <-(Hcomp i s Es). apply (P2 b i); [done| |].
    + by rewrite (Hcomp i s Es), (Hpre i s Es).
    + unfold token_rows. by rewrite lookup_fmap, Es.
  - destruct (chunk_decode s _ He Hc) as (Eq & Ech & Elast). rewrite (proj2 (Z.leb_gt _ _)) in Hids by (destruct He as (He & _); lia).
    rewrite Ech. apply holds_one. rewrite Eq, Nat.sub_diag, Nat.add_0_r in Hids. rewrite Hids.
    apply (rows_in_one _ _ _ i _ RL). unfold last_rows. rewrite lookup_omap, Es. cbn. by rewrite Elast, Ech.
Qed.

Definition computed_of (reqs : Requests) (id : string) : Z :=
  match reqs !! id with Some r => sl_computed (rq_slot r) | None => 0%Z end.

(** The batch of a step on the requests of a view, whose slots are [r2i]. *)
Definition batch_built (r2i : gmap string nat) (reqs : Requests) (so : SchedulerOutput) (ib : InputBatch) : Prop :=
  let batch := batch_of so in
  let counts := counts_of batch in
  let m := length batch in
  (ib_req_ids ib = map fst batch ∧ ib_num_scheduled_tokens ib = map snd batch ∧ ib_num_computed_tokens_np ib = map (λ it, computed_of reqs it.1) batch
   ∧ ib_num_tokens ib = Z.of_nat (start counts m) ∧ length (ib_query_start_loc ib) = (m + 1)%nat ∧ length (ib_seq_lens ib) = m)
  ∧ (ib_num_reqs ib = m ∧ ib_num_reqs_after_padding ib = m ∧ ib_num_tokens_after_padding ib = start counts m)
  ∧ (∀ b, (b ≤ m)%nat → nth b (ib_query_start_loc ib) 0%Z = Z.of_nat (start counts b)) ∧ (∀ b, (b ≤ m)%nat → nth b (ib_cu_num_logits ib) 0%Z = Z.of_nat b)
  ∧ (length (ib_idx_mapping ib) = m ∧ NoDup (ib_idx_mapping ib))
  ∧ ∀ b it, batch !! b = Some it → ∃ i r, ib_idx_mapping ib !! b = Some i ∧ r2i !! it.1 = Some i ∧ reqs !! it.1 = Some r ∧ (0 < it.2)%Z
      ∧ entry_inputs (mkBuffers (ib_input_ids ib) (ib_positions ib) [] (ib_seq_lens ib)) (ib_logits_indices ib) (start counts b) b (Z.to_nat it.2) (rq_slot r).

(** The slots of a batch. *)
Lemma batch_slots k kt so rn reqs :
  runner_ok z k kt rn reqs → mirrored rn reqs (step_ids so) → NoDup (map fst (so_num_scheduled_tokens so)) →
  Forall (λ it, it.1 ∈ step_ids so ∧ scheduled_ok z reqs it) (so_num_scheduled_tokens so) →
  let batch := batch_of so in
  let h := rs_host (rn_states rn) in
  ∃ idx, result_map (λ id, match hs_req_id_to_index h !! id with Some i => Ok i | None => Err TypeError end) (map fst batch) = Ok idx
  ∧ length idx = length batch ∧ NoDup idx ∧ (length batch ≤ n)%nat
  ∧ ∀ b it, batch !! b = Some it → ∃ i r, idx !! b = Some i ∧ hs_req_id_to_index h !! it.1 = Some i ∧ reqs !! it.1 = Some r ∧ (0 < it.2)%Z
      ∧ scheduled_ok z reqs it ∧ nth i (hs_num_computed_tokens h) 0%Z = sl_computed (rq_slot r) ∧ (i < n)%nat
      ∧ slots_of (rn_states rn) reqs !! i = Some (rq_slot r) ∧ table_rows rn reqs !! i = Some (rq_blocks r).
Proof.
  intros Hok Hm Hnd Hsch batch h. pose proof (sort_perm (so_num_scheduled_tokens so)) as Hperm. fold (batch_of so) in Hperm. fold batch in Hperm.
  assert (NoDup (map fst batch)) as Hndb by (by rewrite (Permutation_map fst Hperm)).
  assert (∀ it, it ∈ batch → ∃ i r, hs_req_id_to_index h !! it.1 = Some i ∧ reqs !! it.1 = Some r ∧ scheduled_ok z reqs it
            ∧ nth i (hs_num_computed_tokens h) 0%Z = sl_computed (rq_slot r)) as Hit.
  { intros it Hit. rewrite List.Forall_forall in Hsch. destruct (Hsch it) as [Hin Hs]; [apply (Permutation_in it Hperm); by apply list_elem_of_In|].
    destruct (Hm _ Hin) as (i & r & H1 & H2 & H3). by exists i, r. }
  set (f := λ id, default 0%nat (hs_req_id_to_index h !! id)). exists (map f (map fst batch)). split.
  { apply result_map_ok. intros id (it & <- & Hin%list_elem_of_In)%in_map_iff. destruct (Hit it Hin) as (i & r & E & _). unfold f. by rewrite E. }
  split; [by rewrite !length_map|]. split; [|split].
  - apply NoDup_fmap_2_strong; [|done]. intros id1 id2 H1 H2 E. apply list_elem_of_fmap in H1 as (it1 & -> & H1), H2 as (it2 & -> & H2).
    destruct (Hit it1 H1) as (i1 & _ & E1 & _), (Hit it2 H2) as (i2 & _ & E2 & _). unfold f in E. rewrite E1, E2 in E. cbn in E. unfold Datatypes.id in E. subst i2.
    destruct Hok as ((_ & _ & ((Hix & _) & _) & _) & _). apply Hix in E1, E2. congruence.
  - assert (length (map fst batch) ≤ n)%nat; [|by rewrite length_map in *]. apply (mirrored_room z k kt rn reqs); [done| |done].
    intros id (it & -> & Hin)%list_elem_of_fmap. destruct (Hit it Hin) as (i & r & E1 & E2 & _ & E3). by exists i, r.
  - intros b it Hb. destruct (Hit it) as (i & r & E1 & E2 & E3 & E4); [by eapply list_elem_of_lookup_2|]. exists i, r.
    rewrite !lookup_map, Hb. cbn. unfold f. rewrite E1. split; [done|]. split; [done|]. split; [done|]. split; [by destruct E3 as (? & _ & ? & _)|].
    split; [done|]. split; [done|]. destruct (runner_slot z k kt rn reqs it.1 r Hok E2) as (j & J1 & _ & J2 & J3 & J4).
    fold h in J1. rewrite E1 in J1. by injection J1 as <-.
Qed.

Lemma counts_nth batch b (it : string * Z) : batch !! b = Some it → nth b (counts_of batch) 0%nat = Z.to_nat it.2.
Proof. intros H. apply nth_lookup_Some. unfold counts_of. by rewrite lookup_map, H. Qed.

(** Some entry of the batch is prefilling. *)
Lemma any_prefilling (idx : list nat) (computed prefill : list Z) b i :
  idx !! b = Some i → (nth i computed 0 < nth i prefill 0)%Z →
  existsb (λ x, x) (zip_with Z.ltb (at_batch idx computed) (at_batch idx prefill)) = true.
Proof.
  unfold at_batch.
  intros Hb Hlt. apply existsb_exists. exists true. split; [|done]. apply list_elem_of_In. apply list_elem_of_lookup. exists b.
  apply lookup_zip_with_Some. rewrite !lookup_map, Hb. eexists _, _. split; [|by split]. symmetry. by apply Z.ltb_lt.
Qed.

Lemma batch_positive reqs so :
  Forall (λ it, it.1 ∈ step_ids so ∧ scheduled_ok z reqs it) (so_num_scheduled_tokens so) → Forall (λ it : string * Z, 0 < it.2)%Z (batch_of so).
Proof.
  intros H. eapply Permutation_Forall; [symmetry; apply sort_perm|]. eapply Forall_impl; [exact H|]. cbn beta. by intros it (_ & r & _ & ? & _).
Qed.

Lemma prepare_inputs_ok so rn reqs :
  runner_idle z rn reqs → mirrored rn reqs (step_ids so) → capped rn → NoDup (map fst (so_num_scheduled_tokens so)) →
  Forall (λ it, it.1 ∈ step_ids so ∧ scheduled_ok z reqs it) (so_num_scheduled_tokens so) →
  so_total_num_scheduled_tokens so = foldr Z.add 0%Z (map snd (so_num_scheduled_tokens so)) →
  (so_total_num_scheduled_tokens so ≤ Z.of_nat (z_tokens z))%Z → so_total_num_scheduled_tokens so ≠ 0%Z →
  ∃ ib rn', prepare_inputs torch_empty so (eager_desc so) rn = (Ok ib, rn') ∧ runner_idle z rn' reqs
  ∧ rs_host (rn_states rn') = rs_host (rn_states rn) ∧ rn_tables rn' = rn_tables rn
  ∧ batch_built (hs_req_id_to_index (rs_host (rn_states rn))) reqs so ib.
Proof.
  intros Hidle Hm Hcap Hnd Hsch Etot Htot Hne. set (batch := batch_of so). set (h := rs_host (rn_states rn)).
  assert (hs_num_computed_prefill_tokens h = zip_with Z.min (hs_num_computed_tokens h) (hs_prefill_len h)) as Ecap by exact Hcap.
  destruct (batch_slots 0 0 so rn reqs (proj1 Hidle) Hm Hnd Hsch) as (idx & Eidx & Lidx & Nidx & Hn & Hslots). fold batch h in Eidx, Lidx, Hn, Hslots.
  pose proof (batch_positive reqs so Hsch) as Hpos. fold batch in Hpos. set (m := length batch) in *. set (counts := counts_of batch).
  assert (length counts = m) as Lcounts by (unfold counts, counts_of; by rewrite length_map).
  assert (so_total_num_scheduled_tokens so = Z.of_nat (start counts m)) as Etot'.
  { rewrite Etot, <-(total_perm _ _ (sort_perm _)). fold (batch_of so). fold batch. unfold counts. rewrite <-(counts_sum batch m Hpos), take_ge; [done|].
    rewrite length_map. done. }
  assert (length (so_num_scheduled_tokens so) = m) as Lso by (symmetry; apply Permutation_length, sort_perm).
  set (qsl := query_starts n (map snd batch) (so_total_num_scheduled_tokens so)).
  assert (∀ b, (b ≤ m)%nat → nth b (take (m + 1) qsl) 0%Z = Z.of_nat (start counts b)) as Hloc.
  { intros b Hb. rewrite nth_firstn, (proj2 (Nat.ltb_lt _ _)) by lia. unfold qsl, query_starts. rewrite app_comm_cons, app_nth1 by (cbn; rewrite cumsum_length, length_map; fold m; lia).
    rewrite cumsum_nth by (rewrite length_map; done). rewrite Z.add_0_l. by apply counts_sum. }
  set (cu := map Z.of_nat (seq 0 (m + 1))).
  assert (∀ b, (b ≤ m)%nat → nth b cu 0%Z = Z.of_nat b) as Hcu by (intros b Hb; unfold cu; by rewrite nth_tabulate by lia).
  set (any := existsb (λ x, x) (is_prefilling idx h)).
  set (rn1 := mkRunner (rn_states rn) (rn_tables rn)
    (mkBuffers (bf_input_ids (rn_buffers rn)) (bf_positions (rn_buffers rn)) qsl (bf_seq_lens (rn_buffers rn))) (rn_output_bin_counts rn)).
  destruct (prepare_tokens_ok rn1 reqs idx counts (take (m + 1) qsl) cu any) as (logits & rn2 & E2 & H2 & Eh2 & Et2 & Hent);
    [exact Hidle|by rewrite Lcounts|by rewrite Lcounts|by rewrite Lcounts|rewrite Lcounts; lia|by rewrite Lcounts| |].
  { intros b i Hi. assert (b < m)%nat as Hb by (rewrite <-Lidx; by eapply lookup_lt_Some).
    destruct (lookup_lt_is_Some_2 batch b Hb) as [it Hit]. destruct (Hslots b it Hit) as (j & r & J1 & J2 & J3 & J4 & (r' & R1 & _ & R2 & _) & J6 & J7 & J8 & _).
    rewrite Hi in J1. injection J1 as <-. rewrite J3 in R1. injection R1 as <-. exists (rq_slot r). split; [done|]. unfold counts. rewrite (counts_nth batch b it Hit).
    split; [done|]. intros Hlt. apply (any_prefilling idx _ _ b i Hi). pose proof Hidle as [((_ & _ & (_ & _ & (L1 & L2 & L3 & L4 & L5) & Hv) & _) & _) _]. fold h in L2, L4, Hv.
    destruct (Hv it.1 i r J2 J3) as (_ & Ep & _). rewrite Ecap, Ep. rewrite (nth_zip_with _ _ _ _ 0%Z 0%Z) by lia. rewrite J6, Ep. lia. }
  exists (make_batch (eager_desc so) batch (so_total_num_scheduled_tokens so) idx (take (m + 1) qsl) cu logits h (rn_buffers rn2)), rn2.
  pose proof Hidle as [((En & _ & (_ & _ & _ & _) & _) & _) _].
  assert (padded_reqs (eager_desc so) m = m) as Epad by (unfold padded_reqs, eager_desc; cbn [bd_num_reqs]; rewrite Lso; by destruct m).
  split.
  { unfold prepare_inputs. cbv zeta. fold (batch_of so). fold batch. fold m. rewrite st_bind_eq. unfold st_raise_if, st_lift.
    rewrite (proj2 (Z.leb_gt _ _)) by lia. cbn [raise_if]. rewrite st_bind_eq. cbn [st_get]. fold h. rewrite st_bind_eq, Eidx, st_bind_eq, En.
    rewrite (proj2 (Nat.ltb_ge _ _)) by lia. cbn [raise_if]. rewrite st_bind_eq. unfold set_buffers at 1, st_modify. rewrite st_bind_eq.
    rewrite Epad. rewrite Lcounts in E2. fold qsl. fold rn1. fold cu. fold any. rewrite E2. done. }
  split; [done|]. split; [done|]. split; [done|].
  assert (Z.to_nat (so_total_num_scheduled_tokens so) = start counts m) as Eto by lia.
  unfold batch_built, make_batch. cbn [ib_req_ids ib_num_scheduled_tokens ib_num_computed_tokens_np ib_num_reqs ib_num_reqs_after_padding
    ib_num_tokens ib_num_tokens_after_padding ib_query_start_loc ib_cu_num_logits ib_idx_mapping ib_input_ids ib_positions ib_seq_lens ib_logits_indices].
  change (bd_num_tokens (eager_desc so)) with (Z.to_nat (so_total_num_scheduled_tokens so)). rewrite Eto. fold batch m. rewrite Epad. fold counts.
  split; [split; [done|split; [done|split; [|split; [done|]]]]|split; [by split_and!|split; [done|split; [done|split; [by split|]]]]].
  - apply list_eq. intros b. unfold at_batch. rewrite !lookup_map. destruct (batch !! b) as [it|] eqn:Hit.
    + destruct (Hslots b it Hit) as (i & r & J1 & _ & J3 & _ & _ & J6 & _). rewrite J1. cbn. unfold computed_of. by rewrite J6, J3.
    + rewrite (proj2 (lookup_ge_None idx b)); [done|]. apply lookup_ge_None in Hit. unfold m in Lidx. lia.
  - destruct H2 as [(_ & _ & _ & _ & _ & L2) _]. rewrite !length_take, L2. unfold qsl, query_starts. cbn [length].
    rewrite length_app, cumsum_length, length_replicate, length_map. fold m. lia.
  - intros b it Hit. assert (b < m)%nat as Hb by (by eapply lookup_lt_Some).
    destruct (Hslots b it Hit) as (i & r & J1 & J2 & J3 & J4 & (r' & R1 & _ & R2 & _) & _ & _ & J8 & _).
    rewrite J3 in R1. injection R1 as <-. exists i, r. do 4 (split; [done|]). destruct (Hent b i (rq_slot r) J1 J8) as (X1 & X2 & X3 & X4).
    unfold counts in X1, X2, X3, X4 at 2. rewrite (counts_nth batch b it Hit) in *. destruct (chunk_length _ _ R2) as [Lch _].
    pose proof (start_next counts b m Hb ltac:(lia)) as Hst. unfold counts in Hst at 2. rewrite (counts_nth batch b it Hit) in Hst.
    split; [apply holds_take; [rewrite Lch; lia|exact X1]|]. split; [apply holds_take; [rewrite length_map, length_seq; lia|exact X2]|].
    cbn [bf_seq_lens]. split; [|exact X4]. by rewrite nth_firstn, (proj2 (Nat.ltb_lt _ _)) by done.
Qed.
End Batch.
