(* ===== verification/RunnerRun.v ===== *)
(** * Steps and runs of the model runner

    A whole step of the runner refines the abstract step of [RunnerView]: what it
    publishes, the batch it builds, the rows of blocks and the slots are those of the
    requests of the view, and after sampling it holds the next view. *)

From Stdlib Require Import ZArith Lia Permutation Sorted.
From stdpp Require Import base tactics numbers list option gmap strings.
From S2P Require Import Prelude Torch Quant Tab Triton Stores StagedTensor InputBatch BlockTables RequestStates Lifecycle RunnerV2 RunnerView RunnerSteps RunnerBatch.

Section Run.
Variable z : Sizes.
Context {Obj : Type}.
Variable torch_empty : nat → list Z.
Hypotheses (Hempty : ∀ m, length (torch_empty m) = m) (Hblock : (0 < z_block z)%Z).

Abbreviation n := (z_reqs z).

(** ** Rows and slots *)

(** The slot of position [p] of a request. *)
Definition token_slot (blocks : list Z) (p : Z) : Z :=
  (nth (Z.to_nat (p `div` z_block z)) blocks 0 * z_block z + p `mod` z_block z)%Z.

Definition attn_built (reqs : Requests) (so : SchedulerOutput) (attn : list (list Z) * list Z) : Prop :=
  let batch := batch_of so in
  length attn.1 = length batch
  ∧ ∀ b it r, batch !! b = Some it → reqs !! it.1 = Some r →
      (∃ row, attn.1 !! b = Some row ∧ rq_blocks r `prefix_of` row)
      ∧ holds_at attn.2 (start (counts_of batch) b)
          (map (λ o, token_slot (rq_blocks r) (sl_computed (rq_slot r) + Z.of_nat o)) (seq 0 (Z.to_nat it.2))).

Lemma prepare_attn_ok so rn reqs ib :
  runner_idle z rn reqs → bt_num_blocks_gpu (rn_tables rn) = bt_num_blocks (rn_tables rn) →
  Forall (λ it, it.1 ∈ step_ids so ∧ scheduled_ok z reqs it) (so_num_scheduled_tokens so) →
  batch_built (hs_req_id_to_index (rs_host (rn_states rn))) reqs so ib →
  (start (counts_of (batch_of so)) (length (batch_of so)) ≤ z_tokens z)%nat → (length (batch_of so) ≤ n)%nat →
  ∃ attn rn', prepare_attn ib rn = (Ok attn, rn') ∧ runner_idle z rn' reqs ∧ rn_states rn' = rn_states rn ∧ attn_built reqs so attn.
Proof.
  intros Hidle Hgpu Hsch (_ & (_ & Epad & Etok) & Hloc & _ & (Lidx & Nidx) & Hent) Htot Hn.
  set (batch := batch_of so) in *. set (counts := counts_of batch) in *. set (m := length batch) in *. set (idx := ib_idx_mapping ib) in *.
  pose proof Hidle as [(Hs & (ws & T1 & T2) & (Z1 & Z2 & Z3 & Z4 & Z5 & Z6) & T4) Happ].
  destruct ws; [|cbn in T2; lia]. set (rows := table_rows rn reqs) in *.
  assert (∀ b it, batch !! b = Some it → ∃ i r, idx !! b = Some i ∧ reqs !! it.1 = Some r ∧ rows !! i = Some (rq_blocks r) ∧ entry_ok z (Z.to_nat it.2) (rq_slot r)
            ∧ (sl_computed (rq_slot r) + it.2 ≤ z_block z * Z.of_nat (length (rq_blocks r)))%Z ∧ (0 < it.2)%Z) as Hrow.
  { intros b it Hit. destruct (Hent b it Hit) as (i & r & J1 & J2 & J3 & J4 & _). exists i, r. split; [done|]. split; [done|].
    destruct (runner_slot z 0 0 rn reqs it.1 r (proj1 Hidle) J3) as (j & K1 & _ & _ & _ & K2). rewrite J2 in K1. injection K1 as <-. split; [done|].
    rewrite List.Forall_forall in Hsch. destruct (Hsch it) as [_ (r' & R1 & R2 & R3 & R4)].
    { apply (Permutation_in it (sort_perm _)). apply list_elem_of_In. by eapply list_elem_of_lookup_2. }
    rewrite J3 in R1. by injection R1 as <-. }
  assert (∀ b i, idx !! b = Some i → ∃ it, batch !! b = Some it) as Hback.
  { intros b i Hi. apply lookup_lt_is_Some_2. fold m. rewrite <-Lidx. by eapply lookup_lt_Some. }
  assert (Forall (λ i, is_Some (rows !! i)) idx) as Hidx.
  { apply Forall_lookup. intros b i Hi. destruct (Hback b i Hi) as [it Hit]. destruct (Hrow b it Hit) as (j & r & J1 & _ & J2 & _).
    rewrite Hi in J1. injection J1 as <-. by eexists. }
  destruct (gather_block_tables_ok (rn_tables rn) rows idx m T1 Hgpu) as (out & bt1 & E1 & Lout & Hout & T1' & (L1 & L2 & L3 & L4 & L5) & G1); [rewrite Z1; lia|done|].
  injection L5 as L5 L6 L7 L8.
  set (ctx := λ b, match batch !! b with Some it => computed_of reqs it.1 | None => 0%Z end).
  assert (length counts = m) as Lc by (unfold counts, counts_of; by rewrite length_map).
  destruct (slot_mappings_ok bt1 rows idx counts (ib_query_start_loc ib) (ib_positions ib) (start counts m) ctx T1') as (bt2 & E2 & T2' & (M1 & M2 & M3 & M4 & M5) & G2 & G3 & Hsl);
    [by rewrite L6|by rewrite L5, Z5|by rewrite Lc|by rewrite Lc|by rewrite Lc, L4, Z4| |].
  { intros b i Hi. destruct (Hback b i Hi) as [it Hit]. destruct (Hrow b it Hit) as (j & r & J1 & J2 & J3 & (_ & Hc & _) & Hcov & Hpos).
    rewrite Hi in J1. injection J1 as <-. exists (rq_blocks r). split; [done|]. destruct (Hent b it Hit) as (i' & r' & _ & _ & K & _ & (_ & X2 & _)).
    rewrite J2 in K. injection K as <-. unfold ctx. rewrite Hit. unfold computed_of. rewrite J2. split; [done|]. unfold counts.
    rewrite (counts_nth batch b it Hit). split; [exact X2|]. rewrite L5, Z5. lia. }
  injection M5 as M5 M6 M7 M8.
  exists (out, take (start counts m) (bt_slot_mappings bt2)), (mkRunner (rn_states rn) bt2 (rn_buffers rn) (rn_output_bin_counts rn)). split.
  { unfold prepare_attn. fold idx. rewrite Epad, Etok. rewrite st_bind_eq. unfold on_tables at 1. fold m. rewrite E1, st_bind_eq. unfold on_tables. cbn [rn_tables].
    fold counts. by rewrite E2. }
  split; [|split; [done|]].
  - split; [|done]. split; [done|]. split; [by exists []|]. split; [|done]. unfold tables_sized. cbn [rn_tables].
    by rewrite M1, M2, M3, M4, M5, M6, L1, L2, L3, L4, L5, L6.
  - split; [done|]. intros b it r Hit Hr. destruct (Hrow b it Hit) as (i & r' & J1 & J2 & J3 & _). rewrite Hr in J2. injection J2 as <-.
    split; [by apply (Hout b i)|]. cbn [snd]. assert (b < m)%nat as Hb by (by eapply lookup_lt_Some).
    pose proof (start_next counts b m Hb ltac:(lia)) as Hst. unfold counts in Hst at 2. rewrite (counts_nth batch b it Hit) in Hst.
    fold batch counts. apply holds_take; [rewrite length_map, length_seq; lia|].
    specialize (Hsl b i _ J1 J3). unfold counts in Hsl at 2. rewrite (counts_nth batch b it Hit) in Hsl. unfold ctx in Hsl. fold batch in Hit; rewrite Hit in Hsl.
    unfold computed_of in Hsl. rewrite Hr, L5, Z5 in Hsl. exact Hsl.
Qed.

(** ** The step *)

(** What follows the update of the slots and tables. *)
Definition build_all (so : SchedulerOutput) (desc : BatchDesc) :
    ST (Runner * Bridge (Obj := Obj)) (option (InputBatch * (list (list Z) * list Z))) :=
  if (so_total_num_scheduled_tokens so =? 0)%Z then mret None
  else
    st_raise_if (length (so_num_scheduled_tokens so) =? 0)%nat ValueError;;
    if (bd_num_tokens desc =? 0)%nat then mret None
    else
      input_batch ← on_runner (prepare_inputs torch_empty so desc);
      on_bridge (rabit2_set_active_batch (ib_req_ids input_batch) (ib_num_scheduled_tokens input_batch) (ib_num_computed_tokens_np input_batch));;
      attn ← on_runner (prepare_attn input_batch);
      mret (Some (input_batch, attn)).

Lemma execute_split so desc w : execute_model torch_empty true so desc w = (update_all so ≫= λ _, build_all so desc) w.
Proof.
  unfold execute_model, update_all, build_all. rewrite !st_bind_eq. destruct (finish_requests true so w) as [[[]|e] w1]; [|done].
  rewrite !st_bind_eq. destruct (on_runner (add_requests so) w1) as [[[]|e] w2]; [|done].
  rewrite !st_bind_eq. destruct (on_runner (update_requests so) w2) as [[[]|e] w3]; [|done].
  rewrite !st_bind_eq. by destruct (on_runner (on_tables Tables.apply_staged_writes) w3) as [[[]|e] w4].
Qed.

Lemma batch_published reqs so (b : Bridge (Obj := Obj)) :
  Forall (λ it, it.1 ∈ step_ids so ∧ scheduled_ok z reqs it) (so_num_scheduled_tokens so) →
  let batch := batch_of so in let ids := map fst batch in let qs := map snd batch in let cs := map (λ it, computed_of reqs it.1) batch in
  rabit2_set_active_batch ids qs cs b = (Ok tt, published ids qs cs b).
Proof.
  intros Hsch batch ids qs cs. rewrite set_active_batch_state.
  assert (batch_valid ids qs cs = true) as ->; [|done]. unfold batch_valid, ids, qs, cs. rewrite !length_map, !Nat.eqb_refl. cbn [andb].
  assert (Forall (λ it, it.1 ∈ step_ids so ∧ scheduled_ok z reqs it) batch) as Hb by (eapply Permutation_Forall; [symmetry; apply sort_perm|exact Hsch]).
  induction Hb as [|it l (_ & r & Er & Hq & (_ & Hc & _) & _) Hb IH]; [done|]. cbn [map existsb]. unfold computed_of at 1. rewrite Er.
  apply andb_true_iff in IH as [I1%negb_true_iff I2%negb_true_iff].
  rewrite I1, I2. destruct (Z.leb_spec it.2 0), (Z.ltb_spec (sl_computed (rq_slot r)) 0); done || lia.
Qed.

(** What a step publishes and builds. *)
Definition step_built (reqs : Requests) (so : SchedulerOutput) (rn' : Runner) (b b' : Bridge (Obj := Obj))
    (out : option (InputBatch * (list (list Z) * list Z))) : Prop :=
  let batch := batch_of so in
  if (so_total_num_scheduled_tokens so =? 0)%Z then out = None ∧ b' = released (released_ids so) b
  else ∃ ib attn, out = Some (ib, attn)
    ∧ b' = published (map fst batch) (map snd batch) (map (λ it, computed_of reqs it.1) batch) (released (released_ids so) b)
    ∧ batch_built (hs_req_id_to_index (rs_host (rn_states rn'))) reqs so ib ∧ attn_built reqs so attn.

Lemma execute_model_ok so rn reqs b :
  runner_idle z rn reqs → output_ok z reqs so →
  ∃ out rn' b', execute_model torch_empty true so (eager_desc so) (rn, b) = (Ok out, (rn', b'))
  ∧ runner_idle z rn' (updated_view z reqs so) ∧ step_built (updated_view z reqs so) so rn' b b' out.
Proof.
  intros Hidle Hso. destruct (update_all_ok z so rn reqs b Hidle Hso) as (rn1 & E1 & H1 & _ & M1 & K1 & G1).
  destruct Hso as (_ & _ & _ & _ & _ & Hnd & Hsch & Etot & Htot). set (reqs' := updated_view z reqs so) in *.
  unfold step_built. rewrite execute_split, st_bind_eq, E1. unfold build_all.
  destruct (Z.eqb_spec (so_total_num_scheduled_tokens so) 0) as [E0|Hne]; [by eexists _, _, _|].
  destruct (prepare_inputs_ok z torch_empty Hempty so rn1 reqs' H1 M1 K1 Hnd Hsch Etot Htot Hne) as (ib & rn2 & E2 & H2 & Eh2 & Et2 & Hib).
  destruct (batch_slots z 0 0 so rn1 reqs' (proj1 H1) M1 Hnd Hsch) as (_ & _ & _ & _ & Hroom & _).
  pose proof (batch_positive z reqs' so Hsch) as Hpos.
  assert (so_total_num_scheduled_tokens so = Z.of_nat (start (counts_of (batch_of so)) (length (batch_of so)))) as Etot'.
  { rewrite Etot, <-(total_perm _ _ (sort_perm _)). fold (batch_of so). rewrite <-(counts_sum _ _ Hpos), take_ge; [done|]. by rewrite length_map. }
  destruct (prepare_attn_ok so rn2 reqs' ib H2) as (attn & rn3 & E3 & H3 & Es3 & Hattn);
    [by rewrite Et2|done|by rewrite Eh2|lia|done|].
  pose proof Hib as ((F1 & F2 & F3 & _) & _). rewrite st_bind_eq. unfold st_raise_if, st_lift.
  assert ((length (so_num_scheduled_tokens so) =? 0)%nat = false) as ->.
  { apply Nat.eqb_neq. intros E0%nil_length_inv. rewrite E0 in Etot. done. }
  cbn [raise_if]. assert ((bd_num_tokens (eager_desc so) =? 0)%nat = false) as -> by (apply Nat.eqb_neq; cbn; lia).
  rewrite st_bind_eq. unfold on_runner at 1. cbn [fst snd]. rewrite E2, st_bind_eq. unfold on_bridge. cbn [fst snd]. rewrite F1, F2, F3, batch_published by done.
  rewrite st_bind_eq. unfold on_runner. cbn [fst snd]. rewrite E3. eexists _, _, _. split; [reflexivity|]. split; [done|].
  exists ib, attn. split; [done|]. split; [done|]. split; [|done]. by rewrite Es3, Eh2.
Qed.

(** ** The sampled tokens *)

Lemma samples_lookup batch sampled reqs :
  NoDup (map fst batch) →
  (∀ b it tok, batch !! b = Some it → sampled !! b = Some tok →
     fold_left sample_view (zip batch sampled) reqs !! it.1 = sample_one it.2 tok <$> reqs !! it.1)
  ∧ ∀ id, id ∉ map fst batch → fold_left sample_view (zip batch sampled) reqs !! id = reqs !! id.
Proof.
  revert sampled reqs. induction batch as [|it batch IH]; intros [|tok sampled] reqs Hn; try (split; [by intros [|b]|done]).
  cbn [map] in Hn. apply NoDup_cons in Hn as [Hnot Hn]. destruct (IH sampled (sample_view reqs (it, tok)) Hn) as [I1 I2].
  cbn [zip zip_with fold_left] in *. split.
  - intros [|b] it' tok' Hb Ht.
    + injection Hb as <-. injection Ht as <-. rewrite I2 by done. unfold sample_view. cbn. by rewrite lookup_alter_eq.
    + rewrite (I1 b it' tok' Hb Ht). f_equal. unfold sample_view. cbn. apply lookup_alter_ne. intros E. apply Hnot. rewrite E.
      apply list_elem_of_fmap. exists it'. split; [done|]. by eapply list_elem_of_lookup_2.
  - intros id [Hne Hid]%not_elem_of_cons. rewrite I2 by done. unfold sample_view. cbn. by apply lookup_alter_ne.
Qed.

Lemma samples_host h reqs its : host_ok n h reqs → host_ok n h (fold_left sample_view its reqs).
Proof.
  revert reqs. induction its as [|it its IH]; intros reqs H; [done|]. cbn [fold_left]. apply IH. by apply host_alter_ok.
Qed.

Lemma samples_rows i2r reqs its : by_slot rq_blocks i2r (fold_left sample_view its reqs) = by_slot rq_blocks i2r reqs.
Proof.
  revert reqs. induction its as [|it its IH]; intros reqs; [done|]. cbn [fold_left]. rewrite IH. by apply by_slot_alter.
Qed.

Definition with_gpu (t : StagedWriteTensor) (gpu : list Z) : StagedWriteTensor :=
  mkStaged gpu (sw_num_rows t) (sw_stride t) (sw_indices t) (sw_starts t) (sw_contents t) (sw_cu_lens t).

Lemma tensor_gpu t rows gpu rows' :
  tensor_rows t [] rows → rows_in (sw_num_rows t) (sw_stride t) gpu rows' → tensor_rows (with_gpu t gpu) [] rows'.
Proof. intros (H1 & _ & _) H. split; [exact H1|]. split; [constructor|exact H]. Qed.

(** How many tokens are sampled for each entry of a batch. *)
Lemma sample_entry so rn reqs ib (batch := batch_of so) (m := length batch) :
  runner_idle z rn reqs → Forall (λ it, it.1 ∈ step_ids so ∧ scheduled_ok z reqs it) (so_num_scheduled_tokens so) →
  batch_built (hs_req_id_to_index (rs_host (rn_states rn))) reqs so ib →
  let nums := get_num_sampled_and_rejected (replicate m 1%Z) (torch_empty m) (ib_seq_lens ib) (ib_cu_num_logits ib) (ib_idx_mapping ib)
                (dv_prefill_len (rs_device (rn_states rn))) in
  ∀ b i, ib_idx_mapping ib !! b = Some i →
    ∃ it r, batch !! b = Some it ∧ reqs !! it.1 = Some r ∧ slots_of (rn_states rn) reqs !! i = Some (rq_slot r) ∧ entry_ok z (Z.to_nat it.2) (rq_slot r)
      ∧ (0 < it.2)%Z ∧ hs_index_to_req_id (rs_host (rn_states rn)) !! i = Some it.1
      ∧ nth b nums.1 0%Z = (if (sl_computed (rq_slot r) + it.2 <? Z.of_nat (sl_prefill (rq_slot r)))%Z then 0%Z else 1%Z) ∧ nth b nums.2 0%Z = 0%Z.
Proof.
  intros Hidle Hsch (_ & (Ereqs & _ & _) & Hloc & Hcu & (Lidx & Nidx) & Hent) nums b i Hi.
  set (counts := counts_of batch) in *. set (idx := ib_idx_mapping ib) in *.
  assert (length counts = m) as Lc by (unfold counts, counts_of; by rewrite length_map).
  pose proof (num_sampled_ok idx counts ltac:(rewrite Lc; exact Lidx) (ib_cu_num_logits ib) ltac:(rewrite Lc; exact Hcu) (ib_seq_lens ib)
    (dv_prefill_len (rs_device (rn_states rn))) (torch_empty m) ltac:(rewrite Hempty; lia)) as Hnums. rewrite Lc in Hnums. fold nums in Hnums.
  destruct (lookup_lt_is_Some_2 batch b) as [it Hit]; [apply lookup_lt_Some in Hi; rewrite Lidx in Hi; exact Hi|].
  destruct (Hent b it Hit) as (j & r & J1 & J2 & J3 & J4 & (_ & _ & X3 & _)). fold idx in J1. rewrite Hi in J1. injection J1 as <-.
  destruct (runner_slot z 0 0 rn reqs it.1 r (proj1 Hidle) J3) as (j & K1 & K2 & _ & K3 & _). rewrite J2 in K1. injection K1 as <-.
  exists it, r. split; [done|]. split; [done|]. split; [done|]. split.
  { rewrite List.Forall_forall in Hsch. destruct (Hsch it) as [_ (r' & R1 & _ & R3 & _)]; [|rewrite J3 in R1; by injection R1 as <-].
    apply (Permutation_in it (sort_perm _)). apply list_elem_of_In. by eapply list_elem_of_lookup_2. }
  split; [done|]. split; [done|]. destruct (Hnums b i Hi) as [N1 N2]. split; [|exact N2]. rewrite N1. cbn [bf_seq_lens] in X3. rewrite X3.
  pose proof (slot_prefill z rn reqs i (rq_slot r) Hidle K3) as Ep. rewrite Ep, Z2Nat.id by lia. done.
Qed.

Lemma sample_tokens_ok so rn reqs ib sampled :
  runner_idle z rn reqs → NoDup (map fst (so_num_scheduled_tokens so)) →
  Forall (λ it, it.1 ∈ step_ids so ∧ scheduled_ok z reqs it) (so_num_scheduled_tokens so) →
  batch_built (hs_req_id_to_index (rs_host (rn_states rn))) reqs so ib → length sampled = length (batch_of so) →
  ∃ rn', sample_tokens torch_empty ib sampled rn = (Ok tt, rn') ∧ runner_idle z rn' (fold_left sample_view (zip (batch_of so) sampled) reqs).
Proof.
  intros Hidle Hnd Hsch Hib Hsam. pose proof Hib as (_ & (Ereqs & _ & _) & Hloc & Hcu & (Lidx & Nidx) & Hent).
  set (batch := batch_of so) in *. set (counts := counts_of batch) in *. set (m := length batch) in *. set (idx := ib_idx_mapping ib) in *.
  assert (length counts = m) as Lc by (unfold counts, counts_of; by rewrite length_map).
  assert (Permutation batch (so_num_scheduled_tokens so)) as Hperm by apply sort_perm.
  assert (NoDup (map fst batch)) as Hndb by (by rewrite (Permutation_map fst Hperm)).
  destruct (samples_lookup batch sampled reqs Hndb) as [V1 V2]. set (reqs' := fold_left sample_view (zip batch sampled) reqs) in *.
  pose proof (idle_rows z rn reqs Hidle) as (RA & RC & RT & RL & Estr). set (S := slots_of (rn_states rn) reqs) in *.
  pose proof Hidle as [((En & Es & Hh & ((w1 & A1 & A2) & (w2 & B1 & B2) & (w3 & C1 & C2) & _ & P & Sh & St)) & (ws & T1 & T2) & HZ & HB) Happ].
  set (d := rs_device (rn_states rn)) in *. fold S in P.
  set (nums := get_num_sampled_and_rejected (replicate m 1%Z) (torch_empty m) (ib_seq_lens ib) (ib_cu_num_logits ib) idx (dv_prefill_len d)).
  set (mem := mkPost (sw_gpu (dv_num_computed_tokens d)) (dv_last_sampled_tokens d) (rn_output_bin_counts rn) (sw_gpu (dv_all_token_ids d)) (sw_gpu (dv_total_len d))).
  assert (post_ok n (z_model_len z) mem S) as Hpost by (by split_and!).
  pose proof (sample_entry so rn reqs ib Hidle Hsch Hib) as Hitem. cbn zeta in Hitem. fold batch m d idx nums S in Hitem.
  destruct (post_update_ok idx counts (ib_query_start_loc ib) ltac:(by rewrite Lc) ltac:(by rewrite Lc) n (z_model_len z) mem S sampled nums.1 nums.2 Nidx Hpost)
    as (S' & Hpost' & U1 & U2).
  { intros b i Hi. destruct (Hitem b i Hi) as (it & r & Hit & Hr & HS & He & Hq & _ & -> & ->). split; [done|]. split; [destruct (_ <? _)%Z; [by left|by right]|].
    exists (rq_slot r). split; [done|]. destruct He as (E1 & E2 & E3 & E4 & E5). destruct (Z.ltb_spec (sl_computed (rq_slot r) + it.2) (Z.of_nat (sl_prefill (rq_slot r)))).
    - pose proof (proj2 RA i (sl_tokens (rq_slot r))) as HA. unfold token_rows in HA. rewrite lookup_fmap, HS in HA. destruct (HA eq_refl) as (_ & HA' & _). cbn. lia.
    - change (Z.to_nat 1) with 1%nat. lia. }
  set (m' := post_update idx sampled 1 nums.1 nums.2 (ib_query_start_loc ib) (z_model_len z) mem) in *.
  assert (by_slot rq_slot (hs_index_to_req_id (rs_host (rn_states rn))) reqs' = S') as ES'.
  { apply map_eq. intros i. rewrite by_slot_lookup. destruct (decide (i ∈ idx)) as [Hin|Hnin].
    - apply list_elem_of_lookup in Hin as [b Hb]. destruct (Hitem b i Hb) as (it & r & Hit & Hr & HS & He & Hq & Hi & Hnum & _).
      rewrite Hi. cbn. destruct (lookup_lt_is_Some_2 sampled b) as [tok Htok]; [rewrite Hsam; by eapply lookup_lt_Some|].
      rewrite (V1 b it tok Hit Htok), Hr, (U1 b i Hb), HS, Hnum. cbn. unfold counts. rewrite (counts_nth batch b it Hit), (nth_lookup_Some _ _ _ _ Htok).
      do 2 f_equal. unfold sampled_tokens. by destruct (_ <? _)%Z.
    - rewrite U2 by done. unfold S, slots_of. rewrite by_slot_lookup. destruct (_ !! i) as [id|] eqn:Ei; [|done]. cbn. f_equal. apply V2.
      intros (it & -> & Hit)%list_elem_of_fmap. apply Hnin. apply list_elem_of_lookup in Hit as [b Hb].
      destruct (Hent b it Hb) as (j & r & J1 & J2 & _). destruct Hh as ((H1 & _) & _). apply H1 in J2.
      destruct (Hitem b j J1) as (it' & r' & Hit' & _ & _ & _ & _ & K & _). fold batch in Hb. rewrite Hb in Hit'. injection Hit' as <-.
      destruct Hidle as [((_ & _ & ((H1' & _) & _) & _) & _) _]. apply H1' in Ei, J2. rewrite Ei in J2. injection J2 as ->. by eapply list_elem_of_lookup_2. }
  destruct Hpost' as (PA & PC & PT & PL & PP).
  destruct w1; [|cbn in A2; lia]. destruct w2; [|cbn in B2; lia]. destruct w3; [|cbn in C2; lia].
  pose proof Sh as Sh'. apply List.Forall_cons_iff in Sh' as [S1 Sh']. apply List.Forall_cons_iff in Sh' as [S2 Sh']. apply List.Forall_cons_iff in Sh' as [S3 _].
  destruct St as (St1 & St2 & St3).
  eexists. unfold sample_tokens. rewrite st_bind_eq. cbn [st_get]. rewrite Ereqs. fold m d idx. fold nums. unfold postprocess_sampled, st_modify.
  fold d mem.
  replace (post_update idx sampled 1 nums.1 nums.2 (ib_query_start_loc ib) (sw_stride (dv_all_token_ids d)) mem) with m' by (unfold m'; by rewrite Estr).
  split; [reflexivity|]. split; [|exact Happ]. split; [|split; [|split; [exact HZ|exact HB]]].
  - split; [done|]. split; [done|]. split; [by apply samples_host|]. unfold slots_of. cbn [rs_host rs_device rn_states]. fold reqs'. rewrite ES'.
    split; [exists []; split; [|done]; apply (tensor_gpu (dv_all_token_ids d) _ _ _ A1); by rewrite S1, St1|].
    split; [exists []; split; [|done]; apply (tensor_gpu (dv_total_len d) _ _ _ B1); by rewrite S2, St2|].
    split; [exists []; split; [|done]; apply (tensor_gpu (dv_num_computed_tokens d) _ _ _ C1); by rewrite S3, St3|]. 
    split; [exact PL|]. split; [exact PP|]. split; [by repeat constructor|exact (conj St1 (conj St2 St3))].
  - exists ws. split; [|done]. unfold table_rows. cbn [rn_states rs_host rn_tables]. unfold reqs'. by rewrite samples_rows.
Qed.

(** ** Runs *)

Definition Built : Type := option (InputBatch * (list (list Z) * list Z)).

(** A step of the worker without the model: [execute_model], then [sample_tokens] for
    the tokens the sampler chose. *)
Definition worker_step (step : SchedulerOutput * list Z) : ST (Runner * Bridge (Obj := Obj)) Built :=
  out ← execute_model torch_empty true step.1 (eager_desc step.1);
  (match out with Some (ib, _) => on_runner (sample_tokens torch_empty ib step.2) | None => mret tt end);;
  mret out.

Fixpoint worker_run (steps : list (SchedulerOutput * list Z)) : ST (Runner * Bridge (Obj := Obj)) (list Built) :=
  match steps with
  | [] => mret []
  | step :: steps =>
      out ← worker_step step;
      outs ← worker_run steps;
      mret (out :: outs)
  end.

(** What the scheduler and the sampler may ask of a run. *)
Definition step_asked (reqs : Requests) (step : SchedulerOutput * list Z) : Prop :=
  output_ok z reqs step.1 ∧ length step.2 = length (batch_of step.1).

Fixpoint run_asked (reqs : Requests) (steps : list (SchedulerOutput * list Z)) : Prop :=
  match steps with
  | [] => True
  | step :: steps => step_asked reqs step ∧ run_asked (step_view z reqs step.1 step.2) steps
  end.

(** The batches, rows and slots of a run are those of the view of its step; the slots
    [r2i] that the view is kept in are distinct. *)
Definition injective (r2i : gmap string nat) : Prop := ∀ id id' i, r2i !! id = Some i → r2i !! id' = Some i → id = id'.

Definition step_out (reqs : Requests) (so : SchedulerOutput) (out : Built) : Prop :=
  if (so_total_num_scheduled_tokens so =? 0)%Z then out = None
  else ∃ ib attn r2i, out = Some (ib, attn) ∧ injective r2i ∧ batch_built r2i (updated_view z reqs so) so ib ∧ attn_built (updated_view z reqs so) so attn.

Fixpoint run_out (reqs : Requests) (steps : list (SchedulerOutput * list Z)) (outs : list Built) : Prop :=
  match steps, outs with
  | [], [] => True
  | step :: steps, out :: outs => step_out reqs step.1 out ∧ run_out (step_view z reqs step.1 step.2) steps outs
  | _, _ => False
  end.

Lemma idle_injective rn reqs : runner_idle z rn reqs → injective (hs_req_id_to_index (rs_host (rn_states rn))).
Proof. intros [((_ & _ & ((H1 & _) & _) & _) & _) _] id id' i Hi Hi'. apply H1 in Hi, Hi'. congruence. Qed.

Lemma no_tokens_no_batch reqs so :
  output_ok z reqs so → so_total_num_scheduled_tokens so = 0%Z → so_num_scheduled_tokens so = [].
Proof.
  intros (_ & _ & _ & _ & _ & _ & Hsch & Etot & _) E0. rewrite E0 in Etot. destruct Hsch as [|it l (_ & r & _ & Hq & _) Hl]; [done|].
  cbn in Etot. enough (0 ≤ foldr Z.add 0 (map snd l))%Z by lia. clear -Hl. induction Hl as [|it l (_ & r & _ & Hq & _) Hl IH]; cbn; lia.
Qed.

Lemma worker_step_ok step rn reqs b :
  runner_idle z rn reqs → step_asked reqs step →
  ∃ out rn' b', worker_step step (rn, b) = (Ok out, (rn', b')) ∧ runner_idle z rn' (step_view z reqs step.1 step.2) ∧ step_out reqs step.1 out.
Proof.
  destruct step as [so sampled]. intros Hidle [Hso Hsam]. cbn [fst snd] in *.
  destruct (execute_model_ok so rn reqs b Hidle Hso) as (out & rn1 & b1 & E1 & H1 & Hb). unfold step_built in Hb. unfold step_out, worker_step. cbn [fst snd].
  rewrite st_bind_eq, E1. destruct (Z.eqb_spec (so_total_num_scheduled_tokens so) 0) as [E0|Hne].
  - destruct Hb as [-> _]. eexists _, _, _. split; [reflexivity|]. split; [|done]. unfold step_view, batch_of.
    by rewrite (no_tokens_no_batch reqs so Hso E0).
  - destruct Hb as (ib & attn & -> & _ & Hib & Hattn). pose proof Hso as (_ & _ & _ & _ & _ & Hnd & Hsch & _).
    destruct (sample_tokens_ok so rn1 (updated_view z reqs so) ib sampled H1 Hnd Hsch Hib Hsam) as (rn2 & E2 & H2).
    rewrite st_bind_eq. unfold on_runner. cbn [fst snd]. rewrite E2. eexists _, _, _. split; [reflexivity|]. split; [done|].
    exists ib, attn, (hs_req_id_to_index (rs_host (rn_states rn1))). split; [done|]. split; [by eapply idle_injective|done].
Qed.

Lemma worker_run_ok steps rn reqs b :
  runner_idle z rn reqs → run_asked reqs steps →
  ∃ outs rn' b', worker_run steps (rn, b) = (Ok outs, (rn', b'))
  ∧ runner_idle z rn' (fold_left (λ v s, step_view z v s.1 s.2) steps reqs) ∧ run_out reqs steps outs.
Proof.
  revert rn reqs b. induction steps as [|step steps IH]; intros rn reqs b H Ha; [by exists [], rn, b|]. destruct Ha as [Ha1 Ha2].
  destruct (worker_step_ok step rn reqs b H Ha1) as (out & rn1 & b1 & E1 & H1 & O1).
  destruct (IH rn1 _ b1 H1 Ha2) as (outs & rn2 & b2 & E2 & H2 & O2). exists (out :: outs), rn2, b2. split; [|by split].
  cbn [worker_run]. by rewrite st_bind_eq, E1, st_bind_eq, E2.
Qed.

(** A worker before its first request. *)
Lemma runner_init_ok block_size kernel_block_size row_blocks bins rn :
  z_bpk z = (block_size / kernel_block_size)%nat → z_row z = (row_blocks * z_bpk z)%nat → z_block z = Z.of_nat kernel_block_size →
  runner_init true false false (z_reqs z) (z_model_len z) (z_tokens z) 0
    (Tables.init block_size kernel_block_size (z_reqs z) (z_tokens z) row_blocks 1 0 1) bins = Ok rn →
  runner_idle z rn ∅.
Proof.
  intros H1 H2 H3 [= <-]. split; [|done]. split; [apply states_init_ok|]. split; [exists []; split; [apply tables_init_ok|done]|].
  split; [by split_and!; cbn; rewrite ?length_replicate, ?H2, ?H1|]. by split_and!; cbn; rewrite length_replicate.
Qed.
End Run.

(** ** Property *)

(** C5: whole runs of the model runner refine the view.  From a fresh worker, whatever the
    scheduler may ask and whatever the sampler chooses, no step raises; in every step the batch
    lists the scheduled requests, the small ones first, each in a slot of its own with its own
    tokens at its own positions from the computed ones on, the row of the block table of each
    starts with the blocks the scheduler sent for it, and the slot of each token lies in the
    block of its position; and at the end slots, tensors and tables hold the requests that are
    left, with the tokens they sampled. *)
Theorem worker_run_refines {Obj} (z : Sizes) (torch_empty : nat → list Z) block_size kernel_block_size row_blocks bins rn
    (b : Bridge (Obj := Obj)) steps :
  (∀ m, length (torch_empty m) = m) → (0 < z_block z)%Z →
  z_bpk z = (block_size / kernel_block_size)%nat → z_row z = (row_blocks * z_bpk z)%nat → z_block z = Z.of_nat kernel_block_size →
  runner_init true false false (z_reqs z) (z_model_len z) (z_tokens z) 0
    (Tables.init block_size kernel_block_size (z_reqs z) (z_tokens z) row_blocks 1 0 1) bins = Ok rn →
  run_asked z ∅ steps →
  ∃ outs rn' b', worker_run torch_empty steps (rn, b) = (Ok outs, (rn', b'))
  ∧ runner_idle z rn' (fold_left (λ v s, step_view z v s.1 s.2) steps ∅) ∧ run_out z ∅ steps outs.
Proof.
  intros He Hb H1 H2 H3 Hi Ha. apply (worker_run_ok z torch_empty He Hb); [|done]. by eapply runner_init_ok.
Qed.

(** Three steps of two requests: a prompt; its first decode token beside another prompt; a
    decode token with a new block after the other request finished. *)
Definition demo_sizes : Sizes := mkSizes 2 8 8 4 1 4.

Definition no_cached : CachedRequestData := mkCached [] [] [].

Definition demo_steps : list (SchedulerOutput * list Z) :=
  [(mkOutput [mkNew "a" (Some [5; 6; 7]%Z) (Some [5; 6; 7]%Z) [1%Z] 0 (Some 4%Z)] no_cached [("a", 3%Z)] 3 [] None, [9%Z]);
   (mkOutput [mkNew "b" (Some [1; 2]%Z) (Some [1; 2]%Z) [2%Z] 0 (Some 4%Z)] (mkCached ["a"] [3%Z] [None]) [("b", 2%Z); ("a", 1%Z)] 3 [] None,
    [4; 3]%Z);
   (mkOutput [] (mkCached ["a"] [4%Z] [Some [3%Z]]) [("a", 1%Z)] 1 ["b"] (Some []), [2%Z])].

Lemma demo_scheduled reqs id q r :
  reqs !! id = Some r → (0 < q)%Z → entry_ok demo_sizes (Z.to_nat q) (rq_slot r) →
  (sl_computed (rq_slot r) + q ≤ 4 * Z.of_nat (length (rq_blocks r)))%Z → scheduled_ok demo_sizes reqs (id, q).
Proof. intros. by exists r. Qed.

Lemma demo_asked : run_asked demo_sizes ∅ demo_steps.
Proof.
  split; [|split; [|split; [|done]]].
  - split; [|done]. split; [by apply (bool_decide_unpack _); vm_compute|]. split; [done|]. split; [done|]. split.
    { split; [|done]. split; [eexists _, _; split; [done|split; [done|]]; cbn; lia|]. split; [cbn; lia|]. vm_compute. lia. }
    split; [done|]. split; [by apply (bool_decide_unpack _); vm_compute|]. split; [|by split].
    constructor; [|done]. split; [by left|]. eapply demo_scheduled; [by vm_compute|done| |cbn; lia].
    split_and!; cbn; lia.
  - split; [|done]. split; [by apply (bool_decide_unpack _); vm_compute|]. split; [done|]. split; [done|]. split.
    { split; [|done]. split; [eexists _, _; split; [done|split; [done|]]; cbn; lia|]. split; [cbn; lia|]. vm_compute. lia. }
    split; [split; [|done]; eexists; split; [by vm_compute|]; split; [done|cbn; lia]|].
    split; [by apply (bool_decide_unpack _); vm_compute|]. split; [|by split].
    constructor; [|constructor; [|done]]; (split; [by apply (bool_decide_unpack _); vm_compute|]).
    + eapply demo_scheduled; [by vm_compute|done| |cbn; lia]. split_and!; cbn; lia.
    + eapply demo_scheduled; [by vm_compute|done| |cbn; lia]. split_and!; cbn; lia.
  - split; [|done]. split; [by apply (bool_decide_unpack _); vm_compute|]. split; [done|]. split; [done|]. split; [done|].
    split; [split; [|done]; eexists; split; [by vm_compute|]; split; [done|cbn; lia]|].
    split; [by apply (bool_decide_unpack _); vm_compute|]. split; [|by split].
    constructor; [|done]. split; [by left|]. eapply demo_scheduled; [by vm_compute|done| |cbn; lia]. split_and!; cbn; lia.
Qed.

(** C5: the three steps. *)
Lemma worker_run_refines_witness :
  ∃ outs rn' b', worker_run (λ m, replicate m 7%Z) demo_steps
      (mkRunner (States.init 2 8 0) (Tables.init 4 4 2 8 4 1 0 1)
         (mkBuffers (replicate 8 0%Z) (replicate 8 0%Z) (replicate 3 0%Z) (replicate 2 0%Z)) None, mkBridge (Obj := nat) [] ∅) = (Ok outs, (rn', b'))
  ∧ run_out demo_sizes ∅ demo_steps outs.
Proof.
  destruct (worker_run_refines demo_sizes (λ m, replicate m 7%Z) 4 4 4 None
    (mkRunner (States.init 2 8 0) (Tables.init 4 4 2 8 4 1 0 1)
         (mkBuffers (replicate 8 0%Z) (replicate 8 0%Z) (replicate 3 0%Z) (replicate 2 0%Z)) None) (mkBridge (Obj := nat) [] ∅) demo_steps)
    as (outs & rn' & b' & E & _ & Ho); [intros m; apply length_replicate|done|done|done|done|done|apply demo_asked|].
  exists outs, rn', b'. split; [exact E|exact Ho].
Defined.
