(* ===== verification/ServedV2.v ===== *)
(** * The V2 model runner serving attention

    The worker as it runs by default: [execute_model] of [v1/worker/gpu/model_runner.py]
    ([RunnerV2]) builds the batch, the metadata of the attention layers is built from
    it, every layer runs its forward pass ([Engine]), and the sampled tokens come back.
    Under a scheduler whose blocks are those of the KV cache manager ([ManagedEngine]),
    whole runs that fit are served ([served_run_ok]); [EngineFit] states the property with
    what is left of the conditions. *)

From Stdlib Require Import ZArith Lia Permutation.
From stdpp Require Import gmap strings pretty base tactics numbers list option.
From S2P Require Import Prelude Layout Torch SpecFloatTorch BitPack Meta Quant Tab Triton Decoded Page Sidecar Tail OnlineRef Runtime.
From S2P Require Import FixedTorch Bulk ChunkPlan FastAppend Attention PageAttention TailAttention TailPrep DecodeAttention.
From S2P Require Import DecodeState TileSchedule TileKernels Lifecycle Forward ForwardFrame TileState ForwardStream ForwardState.
From S2P Require Import Engine FreeQueue BlockPool PoolState KVManager KVTables ManagedEngine.
From S2P Require Import Stores StagedTensor InputBatch BlockTables RequestStates RunnerV2 RunnerView RunnerSteps RunnerBatch RunnerRun.

Section Worker.
Context `{TF : TorchFloat} {TR : TritonFloat} {TE : TorchEmpty} {TA : TritonReduce}.
Context {B : Type} {FT : FloatType B}.
Context {EN : Environ}.
Variable context_attention_fwd : list (list B) → dev_tensor → dev_tensor → f32 → list (list B).
Variable torch_empty : nat → list Z.

(** ** The worker *)

(** What the model passes to a layer besides the metadata. *)
Record LayerTensors := mkTensors {
  lt_q_cuda : bool;
  lt_q_heads : nat;
  lt_q_dim : nat;
  lt_query : list (list B);
  lt_key : StepTensor;
  lt_value : StepTensor;
  lt_output : list (list B)
}.

(** The fields of the metadata of a batch that the layers read. *)
Record CommonAttentionMetadata := mkCommon {
  cm_query_start_loc : list Z;
  cm_seq_lens : list Z;
  cm_num_reqs : nat;
  cm_num_actual_tokens : Z;
  cm_block_table_tensor : list (list Z)
}.

Definition build_attn_metadata (num_reqs : nat) (num_tokens : Z) (query_start_loc_gpu seq_lens : list Z) (block_table : list (list Z)) :
    CommonAttentionMetadata :=
  mkCommon query_start_loc_gpu (take num_reqs seq_lens) num_reqs num_tokens block_table.

(** [DefaultModelState.prepare_attn] on a batch that no graph pads. *)
Definition prepare_attn_metadata (input_batch : InputBatch) (block_tables : list (list Z)) : CommonAttentionMetadata :=
  build_attn_metadata (ib_num_reqs input_batch) (ib_num_tokens input_batch) (ib_query_start_loc input_batch) (ib_seq_lens input_batch) block_tables.

(** [TritonAttentionMetadataBuilder.build], with no multimodal prefix and no reference
    window, beside the tensors of the layer. *)
Definition build (m : CommonAttentionMetadata) (t : LayerTensors) : LayerCall (B := B) :=
  (mkStep (lt_q_cuda t) (lt_q_heads t) (lt_q_dim t) (lt_query t) (lt_key t) (lt_value t)
     (cm_num_actual_tokens m) (cm_query_start_loc m) (cm_seq_lens m) (map (map Z.to_nat) (cm_block_table_tensor m)) false false,
   lt_output t).

Definition layer_call (input_batch : InputBatch) (block_tables : list (list Z)) (t : LayerTensors) : LayerCall (B := B) :=
  build (prepare_attn_metadata input_batch block_tables) t.

(** The runner and the layers share the bridge. *)
Abbreviation Worker := (Runner * Engine)%type.

Definition on_worker {A} (m : ST (Runner * Bridge (Obj := RtObject)) A) : ST Worker A := λ w,
  let '(r, (rn, b)) := m (w.1, en_bridge w.2) in (r, (rn, mkEngine b (en_caches w.2) (en_ws w.2))).
Definition on_layers {A} (m : ST Engine A) : ST Worker A := λ w, let '(r, e) := m w.2 in (r, (w.1, e)).
Definition on_slots {A} (m : ST Runner A) : ST Worker A := λ w, let '(r, rn) := m w.1 in (r, (rn, w.2)).

(** A step: the output of the scheduler, the tensors the model passes to each layer,
    and the tokens the sampler chooses. *)
Definition WorkerStep : Type := SchedulerOutput * list LayerTensors * list Z.

Definition served_step (impls : list AttnImpl) (step : WorkerStep) : ST Worker (list (list (list B))) :=
  let '(so, tensors, sampled) := step in
  out ← on_worker (execute_model torch_empty true so (eager_desc so));
  match out with
  | None => mret []
  | Some (input_batch, attn) =>
      outs ← on_layers (forward_layers context_attention_fwd 0 (zip impls (map (layer_call input_batch attn.1) tensors)));
      on_slots (sample_tokens torch_empty input_batch sampled);;
      mret outs
  end.

Fixpoint served_run (impls : list AttnImpl) (steps : list WorkerStep) : ST Worker (list (list (list (list B)))) :=
  match steps with
  | [] => mret []
  | step :: steps =>
      outs ← served_step impls step;
      rest ← served_run impls steps;
      mret (outs :: rest)
  end.
End Worker.

(** ** The step of the engine a worker makes *)

Section Spec.
Context `{TF : TorchFloat}.
Context {B : Type}.

Definition spec_call (reqs : Requests) (so : SchedulerOutput) (rows : list (list nat)) (t : LayerTensors (B := B)) : LayerCall (B := B) :=
  let batch := batch_of so in
  (mkStep (lt_q_cuda t) (lt_q_heads t) (lt_q_dim t) (lt_query t) (lt_key t) (lt_value t)
     (Z.of_nat (start (counts_of batch) (length batch))) (map (λ b, Z.of_nat (start (counts_of batch) b)) (seq 0 (length batch + 1)))
     (map (λ it, computed_of reqs it.1 + it.2)%Z batch) rows false false,
   lt_output t).

(** The requests [reqs] in the order of their counts, with [rows] of block numbers. *)
Definition spec_step (reqs : Requests) (so : SchedulerOutput) (rows : list (list nat)) (tensors : list LayerTensors) : EngineStep (B := B) :=
  let batch := batch_of so in
  mkEngineStep (released_ids so) [] (map fst batch) (list_to_map batch) (list_to_map (map (λ it, (it.1, computed_of reqs it.1)) batch))
    rows (map (spec_call reqs so rows) tensors).

(** The blocks the scheduler has sent for each request of the batch. *)
Definition sent_rows (reqs : Requests) (so : SchedulerOutput) : list (list nat) :=
  map (λ it, match reqs !! it.1 with Some r => map Z.to_nat (rq_blocks r) | None => [] end) (batch_of so).

Fixpoint spec_steps (z : Sizes) (reqs : Requests) (steps : list (WorkerStep (B := B))) : list (EngineStep (B := B)) :=
  match steps with
  | [] => []
  | (so, tensors, sampled) :: steps =>
      let reqs' := updated_view z reqs so in
      spec_step reqs' so (sent_rows reqs' so) tensors :: spec_steps z (step_view z reqs so sampled) steps
  end.

Definition final_view (z : Sizes) (reqs : Requests) (steps : list (WorkerStep (B := B))) : Requests :=
  fold_left (λ v step, step_view z v step.1.1 step.2) steps reqs.

(** What the scheduler and the sampler may ask of the runner. *)
Fixpoint outputs_asked (z : Sizes) (reqs : Requests) (steps : list (WorkerStep (B := B))) : Prop :=
  match steps with
  | [] => True
  | (so, _, sampled) :: steps => step_asked z reqs (so, sampled) ∧ outputs_asked z (step_view z reqs so sampled) steps
  end.
End Spec.

(** ** The metadata is that of the batch *)

Section Metadata.
Context `{TF : TorchFloat}.
Context {B : Type}.
Variable z : Sizes.

Lemma built_call r2i reqs so ib rows (t : LayerTensors (B := B)) :
  batch_built r2i reqs so ib → layer_call ib rows t = spec_call reqs so (map (map Z.to_nat) rows) t.
Proof.
  intros ((_ & _ & _ & Etok & Lloc & Llen) & (Ereqs & _) & Hloc & _ & _ & Hent). unfold layer_call, build, prepare_attn_metadata, build_attn_metadata, spec_call.
  cbn [cm_num_actual_tokens cm_query_start_loc cm_seq_lens cm_block_table_tensor]. rewrite Etok, Ereqs.
  f_equal. f_equal.
  - apply nth_ext with 0%Z 0%Z; [by rewrite length_map, length_seq|]. intros b Hb. rewrite nth_tabulate by lia. apply Hloc. lia.
  - rewrite take_ge by lia. apply nth_ext with 0%Z 0%Z; [by rewrite length_map|]. intros b Hb.
    destruct (lookup_lt_is_Some_2 (batch_of so) b ltac:(lia)) as [it Hit]. destruct (Hent b it Hit) as (i & r & _ & _ & Hr & Hq & (_ & _ & X & _)).
    cbn [bf_seq_lens] in X. rewrite X. symmetry. apply nth_lookup_Some. rewrite lookup_map, Hit. cbn. unfold computed_of. rewrite Hr. f_equal. lia.
Qed.

(** Its counts. *)
Lemma batch_counts reqs so rows tensors (st := spec_step (B := B) reqs so rows tensors) :
  NoDup (map fst (so_num_scheduled_tokens so)) →
  map (λ id, es_scheduled st !!! id) (es_ids st) = map snd (batch_of so)
  ∧ map (λ id, es_computed st !!! id) (es_ids st) = map (λ it, computed_of reqs it.1) (batch_of so).
Proof.
  intros Hnd. assert (NoDup (batch_of so).*1) as Hb by (rewrite (Permutation_map fst (sort_perm (so_num_scheduled_tokens so))); exact Hnd).
  unfold st. cbn [spec_step es_scheduled es_computed es_ids]. rewrite !List.map_map. split; apply map_ext_in; intros it Hit%list_elem_of_In; apply lookup_total_correct.
  - apply elem_of_list_to_map_1; [done|]. by destruct it.
  - apply elem_of_list_to_map_1; [by rewrite <-list_fmap_compose|]. apply list_elem_of_fmap. by exists it.
Qed.

(** The rows that are gathered start with those that were sent. *)
Lemma gathered_rows reqs so (P : string → list nat → Prop) attn :
  attn_built z reqs so attn → Forall (λ it, is_Some (reqs !! it.1)) (batch_of so) →
  (∀ id t t', P id t → t `prefix_of` t' → P id t') →
  Forall2 P (map fst (batch_of so)) (sent_rows reqs so) → Forall2 P (map fst (batch_of so)) (map (map Z.to_nat) attn.1).
Proof.
  intros [L Hrow] Hreqs Hpre H. apply Forall2_same_length_lookup. split; [by rewrite !length_map|]. intros b id t Hid Ht.
  rewrite lookup_map in Hid. rewrite lookup_map in Ht. destruct (batch_of so !! b) as [it|] eqn:Hit; [|done]. injection Hid as <-.
  rewrite Forall_lookup in Hreqs. destruct (Hreqs b it Hit) as [r Hr]. destruct (Hrow b it r Hit Hr) as [(rw & Erw & k & Ek) _].
  rewrite Erw in Ht. injection Ht as <-. rewrite Forall2_lookup in H. specialize (H b). unfold sent_rows in H.
  rewrite !lookup_map, Hit in H. cbn in H. rewrite Hr in H. inversion H as [? ? HP|]; subst. eapply Hpre; [exact HP|].
  exists (map Z.to_nat k). by rewrite map_app.
Qed.
End Metadata.

(** ** Steps and runs *)

Section Served.
Context `{TF : TorchFloat} {TR : TritonFloat} {TE : TorchEmpty} {TA : TritonReduce}.
Context {TFL : TorchFloatLaws TF} {TL : TritonLaws TR} {TZ : TritonZero}.
Context {B : Type} {FT : FloatType B}.
Context {EN : Environ}.
Variables (h g NQ : nat).
Let d := (g * 32)%nat.
Hypotheses (Hgeo : runtime_geometry h d) (HQ : (0 < NQ)%nat ∧ (h | NQ)%nat).
Variable context_attention_fwd : list (list B) → dev_tensor → dev_tensor → f32 → list (list B).
Hypothesis (Henv : environ_ok).
Variables (impls : list AttnImpl) (caches : list PageCache).
Hypotheses (Hlen : length impls = length caches) (Himpl : Forall (impl_ok h g) impls).
Variables (cfg : KVConfig) (blocks : nat).
Hypotheses (Hblock : kv_block_size cfg = 32%Z) (Hwm : (0 ≤ watermark_blocks cfg)%Z).
Hypothesis Hcaches : Forall (λ c, pc_width c = page_bytes (layout_of GROUP h d d) ∧ length (pc_pages c) = blocks) caches.
Variables (z : Sizes) (torch_empty : nat → list Z).
Hypotheses (Hempty : ∀ m, length (torch_empty m) = m) (Hz : (0 < z_block z)%Z).

(** The rows of a step matter to nothing but the tables. *)
Definition same_streams (sd sd' : Sched) : Prop := (∀ l, sd_streams sd l = sd_streams sd' l) ∧ sd_decoded sd = sd_decoded sd'.

Lemma spec_call_lookup reqs so rows (tensors : list (LayerTensors (B := B))) l call :
  map (spec_call reqs so rows) tensors !! l = Some call → ∃ t, tensors !! l = Some t ∧ call = spec_call reqs so rows t.
Proof. rewrite lookup_map. destruct (tensors !! l) as [t|]; [|done]. intros [= <-]. by exists t. Qed.

Lemma same_streams_step reqs so rows rows' (tensors : list (LayerTensors (B := B))) sd sd' :
  same_streams sd sd' → same_streams (sched_step sd (spec_step reqs so rows tensors)) (sched_step sd' (spec_step reqs so rows' tensors)).
Proof.
  intros [H1 H2]. split; [|unfold sched_step, step_decoded; cbn [sd_decoded]; by rewrite H2]. intros l. unfold sched_step, step_streams. cbn [sd_streams].
  unfold spec_step at 1 5. cbn [es_calls]. rewrite !lookup_map, H1. by destruct (tensors !! l).
Qed.

Lemma step_fit_rows reqs so rows rows' (tensors : list (LayerTensors (B := B))) sd sd' :
  same_streams sd sd' → step_fit h g NQ impls sd' (spec_step reqs so rows' tensors) → step_fit h g NQ impls sd (spec_step reqs so rows tensors).
Proof.
  intros [H1 H2] (F1 & F2 & F3 & F4 & F5). split; [exact F1|]. split; [exact F2|]. split; [rewrite <-F3; cbn [spec_step es_calls]; by rewrite !length_map|].
  split; [rewrite H2; exact F4|]. intros Hne l impl call Hi Hc. destruct (spec_call_lookup _ _ _ _ _ _ Hc) as (t & Ht & ->).
  assert (map (spec_call reqs so rows') tensors !! l = Some (spec_call reqs so rows' t)) as Hc' by (by rewrite lookup_map, Ht).
  specialize (F5 Hne l impl _ Hi Hc'). unfold call_fit in *. rewrite H1.
  destruct F5 as (G1 & G2 & G3 & G4 & G5 & G6 & G7 & _ & G9). do 7 (split; [assumption|]). split; [reflexivity|exact G9].
Qed.

Lemma step_rows_rows reqs so rows rows' (tensors : list (LayerTensors (B := B))) sd sd' outs :
  same_streams sd sd' → step_rows h g NQ context_attention_fwd impls sd (spec_step reqs so rows tensors) outs →
  step_rows h g NQ context_attention_fwd impls sd' (spec_step reqs so rows' tensors) outs.
Proof.
  intros [H1 _] H Hne l impl call Hi Hc. destruct (spec_call_lookup _ _ _ _ _ _ Hc) as (t & Ht & ->).
  assert (map (spec_call reqs so rows) tensors !! l = Some (spec_call reqs so rows t)) as Hc' by (by rewrite lookup_map, Ht).
  specialize (H Hne l impl _ Hi Hc'). rewrite <-H1. exact H.
Qed.

(** Publishing a batch changes nothing the streams are kept in. *)
Lemma engine_ok_bridge sd (e e' : Engine) :
  br_impls (en_bridge e') = br_impls (en_bridge e) → en_caches e' = en_caches e → en_ws e' = en_ws e →
  engine_ok (B := B) h g caches sd e → engine_ok (B := B) h g caches sd e'.
Proof.
  intros E1 E2 E3 [Hws Hl]. split; [by rewrite E3|]. intros l Hlt. destruct (Hl l Hlt) as (c0 & table & cache & H). exists c0, table, cache.
  by rewrite E1, E2.
Qed.

(** The step of the engine on some rows, taken apart. *)
Lemma engine_spec_step reqs so rows (tensors : list (LayerTensors (B := B))) e sd s s' (st := spec_step reqs so rows tensors) :
  NoDup (map fst (so_num_scheduled_tokens so)) → engine_ok (B := B) h g caches sd e → synced caches sd s → kv_ok blocks s →
  managed_step cfg s st s' → step_fit h g NQ impls sd st →
  let b := published (map fst (batch_of so)) (map snd (batch_of so)) (map (λ it, computed_of reqs it.1) (batch_of so)) (released (released_ids so) (en_bridge e)) in
  ∃ outs e', (if bool_decide (batch_of so = []) then mret [] else forward_layers context_attention_fwd 0 (zip impls (es_calls st)))
               (mkEngine b (en_caches e) (en_ws e)) = (Ok outs, e')
  ∧ engine_ok (B := B) h g caches (sched_step sd st) e' ∧ step_rows h g NQ context_attention_fwd impls sd st outs.
Proof.
  intros Hnd He Hsy Hok Hm Hfit b.
  assert (step_ok h g NQ impls caches sd st) as Hst by (by eapply managed_step_ok).
  destruct (engine_step_ok h g NQ Hgeo HQ context_attention_fwd Henv impls caches Hlen Himpl sd st e He Hst) as (outs & e' & E & He' & Hr).
  exists outs, e'. split; [|done]. destruct Hfit as (Hc & _). revert E. unfold engine_step. rewrite st_bind_eq. unfold Engine.on_bridge.
  rewrite runner_step_state by done. destruct (batch_counts reqs so rows tensors Hnd) as [E1 E2]. fold st in E1, E2.
  rewrite E1, E2, (total_scheduled_zero h g NQ HQ impls caches Hlen st Hc).
  intros <-. f_equal. rewrite !bool_decide_decide. cbn [st spec_step es_ids]. by destruct (batch_of so).
Qed.

(** A step of the worker is the step of the engine on the rows it gathered. *)
Lemma served_step_ok so (tensors : list (LayerTensors (B := B))) sampled rn e reqs sd s s' (reqs' := updated_view z reqs so) :
  runner_idle z rn reqs → engine_ok (B := B) h g caches sd e → synced caches sd s → kv_ok blocks s →
  step_asked z reqs (so, sampled) → managed_step cfg s (spec_step reqs' so (sent_rows reqs' so) tensors) s' →
  step_fit h g NQ impls sd (spec_step reqs' so (sent_rows reqs' so) tensors) →
  ∃ outs rn' e' rows, served_step context_attention_fwd torch_empty impls (so, tensors, sampled) (rn, e) = (Ok outs, (rn', e'))
  ∧ runner_idle z rn' (step_view z reqs so sampled) ∧ engine_ok (B := B) h g caches (sched_step sd (spec_step reqs' so rows tensors)) e'
  ∧ step_rows h g NQ context_attention_fwd impls sd (spec_step reqs' so rows tensors) outs
  ∧ managed_step cfg s (spec_step reqs' so rows tensors) s'.
Proof.
  intros Hrn He Hsy Hok [Hso Hsam] Hm Hfit. cbn [fst snd] in Hso, Hsam.
  destruct (execute_model_ok z torch_empty Hempty Hz so rn reqs (en_bridge e) Hrn Hso) as (out & rn1 & b1 & E1 & H1 & Hb).
  pose proof Hso as (_ & _ & _ & _ & _ & Hnd & Hsch & _). unfold served_step. unfold step_built in Hb. fold reqs' in Hb, H1.
  destruct (Z.eqb_spec (so_total_num_scheduled_tokens so) 0) as [E0|Hne].
  - destruct Hb as [-> ->]. pose proof (no_tokens_no_batch z reqs so Hso E0) as Enil.
    assert (batch_of so = []) as Eb by (unfold batch_of; by rewrite Enil).
    destruct (engine_spec_step reqs' so (sent_rows reqs' so) tensors e sd s s' Hnd He Hsy Hok Hm Hfit) as (outs & e1 & E & He1 & Hr).
    rewrite Eb in E. cbn [map] in E. injection E as <- <-.
    exists [], rn1, (mkEngine (released (released_ids so) (en_bridge e)) (en_caches e) (en_ws e)), (sent_rows reqs' so).
    rewrite st_bind_eq. unfold on_worker. cbn [fst snd]. rewrite E1. split; [done|]. split; [unfold step_view; by rewrite Eb|].
    split; [|done]. by apply (engine_ok_bridge _ (mkEngine (published [] [] [] (released (released_ids so) (en_bridge e))) (en_caches e) (en_ws e))).
  - destruct Hb as (ib & attn & -> & -> & Hib & Hattn). set (rows := map (map Z.to_nat) attn.1).
    assert (managed_step cfg s (spec_step reqs' so rows tensors) s') as Hm'.
    { destruct Hm as (calls & granted & M1 & M2 & M3 & M4 & M5). exists calls, granted. do 4 (split; [assumption|]).
      apply (gathered_rows z reqs' so (λ id t, row (table_of s' id) `prefix_of` t) attn Hattn); [|intros id t t' H1' H2'; by transitivity t|exact M5].
      eapply Permutation_Forall; [symmetry; apply sort_perm|]. eapply Forall_impl; [|exact Hsch]. cbn beta. intros it (_ & r & Hr & _). by exists r. }
    assert (step_fit h g NQ impls sd (spec_step reqs' so rows tensors)) as Hfit' by (by eapply step_fit_rows).
    destruct (engine_spec_step reqs' so rows tensors e sd s s' Hnd He Hsy Hok Hm' Hfit') as (outs & e1 & E & He1 & Hr).
    rewrite bool_decide_eq_false_2 in E.
    2: { intros Eb. pose proof (sort_perm (so_num_scheduled_tokens so)) as Hp. fold (batch_of so) in Hp. rewrite Eb in Hp.
         apply Permutation_nil in Hp. destruct Hso as (_ & _ & _ & _ & _ & _ & _ & Etot & _). rewrite Hp in Etot. done. }
    destruct (sample_tokens_ok z torch_empty Hempty so rn1 reqs' ib sampled H1 Hnd Hsch Hib Hsam) as (rn2 & E2 & H2).
    exists outs, rn2, e1, rows. split; [|done]. rewrite st_bind_eq. unfold on_worker. cbn [fst snd]. rewrite E1, st_bind_eq.
    assert (map (layer_call ib attn.1) tensors = es_calls (spec_step reqs' so rows tensors)) as ->
      by (apply map_ext; intros t; by eapply built_call).
    unfold on_layers. cbn [fst snd]. rewrite E, st_bind_eq. unfold on_slots. cbn [fst snd]. by rewrite E2.
Qed.

Lemma served_run_ok (steps : list (WorkerStep (B := B))) : ∀ rn e reqs sd sd0 s s',
  runner_idle z rn reqs → engine_ok (B := B) h g caches sd e → same_streams sd sd0 → synced caches sd s → kv_ok blocks s →
  outputs_asked z reqs steps → managed_run cfg s (spec_steps z reqs steps) s' → run_fit h g NQ impls sd0 (spec_steps z reqs steps) →
  ∃ outs rn' e' sd', served_run context_attention_fwd torch_empty impls steps (rn, e) = (Ok outs, (rn', e'))
  ∧ runner_idle z rn' (final_view z reqs steps) ∧ engine_ok (B := B) h g caches sd' e' ∧ synced caches sd' s'
  ∧ same_streams sd' (fold_left sched_step (spec_steps z reqs steps) sd0)
  ∧ run_rows h g NQ context_attention_fwd impls sd0 (spec_steps z reqs steps) outs.
Proof.
  induction steps as [|[[so tensors] sampled] steps IH]; intros rn e reqs sd sd0 s s' Hrn He Hsame Hsy Hok Ho Hm Hfit.
  { cbn in Hm. subst. by exists [], rn, e, sd. }
  destruct Ho as [Ho1 Ho], Hm as (s1 & Hm1 & Hm), Hfit as [Hfit1 Hfit]. set (reqs' := updated_view z reqs so) in *.
  destruct (served_step_ok so tensors sampled rn e reqs sd s s1 Hrn He Hsy Hok Ho1 Hm1 (step_fit_rows _ _ _ _ _ _ _ Hsame Hfit1))
    as (outs & rn1 & e1 & rows & E1 & Hrn1 & He1 & Hr1 & Hm1'). fold reqs' in He1, Hr1, Hm1'.
  pose proof (step_fit_rows reqs' so rows _ tensors sd sd0 Hsame Hfit1) as Hfit1'.
  destruct (IH rn1 e1 _ _ (sched_step sd0 (spec_step reqs' so (sent_rows reqs' so) tensors)) s1 s' Hrn1 He1) as (rest & rn2 & e2 & sd2 & E2 & H2 & H3 & H4 & H5 & H6);
    [by apply same_streams_step|by eapply managed_synced|by eapply managed_tables|done|done|done|].
  exists (outs :: rest), rn2, e2, sd2. cbn [served_run spec_steps fold_left final_view run_rows]. rewrite st_bind_eq, E1, st_bind_eq, E2.
  do 5 (split; [done|]). split; [by eapply step_rows_rows|done].
Qed.

End Served.

(** ** A concrete run *)

Section Demo.
Context `{TF : TorchFloat}.
Context {B : Type}.

Definition served_sizes : Sizes := mkSizes 2 64 64 4 1 32.

(** The outputs of the scheduler behind [managed_steps]: a prompt of 36 tokens, its
    first decode token beside another prompt, a release. *)
Definition served_outputs : list (SchedulerOutput * list Z) :=
  [(mkOutput [mkNew "a" (Some (replicate 36 5%Z)) (Some (replicate 36 5%Z)) [1; 2]%Z 0 (Some 4%Z)] no_cached [("a", 36%Z)] 36 [] None, [9%Z]);
   (mkOutput [mkNew "b" (Some [1; 2]%Z) (Some [1; 2]%Z) [3%Z] 0 (Some 4%Z)] (mkCached ["a"] [36%Z] [None]) [("b", 2%Z); ("a", 1%Z)] 3 [] None,
    [4; 3]%Z);
   (mkOutput [] no_cached [] 0 ["a"] None, [])].

Definition served_demo (t1 t2 t3 : LayerTensors (B := B)) : list (WorkerStep (B := B)) :=
  zip_with (λ so t, (so.1, [t], so.2)) served_outputs [t1; t2; t3].

Definition demo_step (finished ids : list string) (scheduled computed : gmap string Z) (rows : list (list nat)) (n : nat)
    (starts lens : list Z) (t : LayerTensors (B := B)) : EngineStep (B := B) :=
  mkEngineStep finished [] ids scheduled computed rows
    [(mkStep (lt_q_cuda t) (lt_q_heads t) (lt_q_dim t) (lt_query t) (lt_key t) (lt_value t) (Z.of_nat n) starts lens rows false false, lt_output t)].

Lemma served_spec t1 t2 t3 :
  spec_steps served_sizes ∅ (served_demo t1 t2 t3)
  = [demo_step [] ["a"] {["a" := 36%Z]} {["a" := 0%Z]} [[1; 2]%nat] 36 [0; 36]%Z [36%Z] t1;
     demo_step [] ["a"; "b"] {["a" := 1%Z; "b" := 2%Z]} {["a" := 36%Z; "b" := 0%Z]} [[1; 2]; [3]]%nat 3 [0; 1; 3]%Z [37; 2]%Z t2;
     demo_step ["a"] [] ∅ ∅ [] 0 [0%Z] [] t3].
Proof. by vm_compute. Qed.

Lemma served_scheduled reqs id q r :
  reqs !! id = Some r → (0 < q)%Z → entry_ok served_sizes (Z.to_nat q) (rq_slot r) →
  (sl_computed (rq_slot r) + q ≤ 32 * Z.of_nat (length (rq_blocks r)))%Z → scheduled_ok served_sizes reqs (id, q).
Proof. intros. by exists r. Qed.

Ltac demo_entry := eapply served_scheduled; [by vm_compute|done|split_and!; cbn; lia|cbn; lia].

Lemma served_asked t1 t2 t3 : outputs_asked served_sizes ∅ (served_demo t1 t2 t3).
Proof.
  split; [|split; [|split; [|done]]].
  - split; [|done]. split; [by apply (bool_decide_unpack _); vm_compute|]. split; [done|]. split; [done|]. split.
    { split; [|done]. split; [eexists _, _; split; [done|split; [done|]]; cbn; lia|]. split; [cbn; lia|]. vm_compute. lia. }
    split; [done|]. split; [by apply (bool_decide_unpack _); vm_compute|]. split; [|by split].
    constructor; [|done]. split; [by left|]. demo_entry.
  - split; [|done]. split; [by apply (bool_decide_unpack _); vm_compute|]. split; [done|]. split; [done|]. split.
    { split; [|done]. split; [eexists _, _; split; [done|split; [done|]]; cbn; lia|]. split; [cbn; lia|]. vm_compute. lia. }
    split; [split; [|done]; eexists; split; [by vm_compute|]; split; [done|cbn; lia]|].
    split; [by apply (bool_decide_unpack _); vm_compute|]. split; [|by split].
    constructor; [|constructor; [|done]]; (split; [by apply (bool_decide_unpack _); vm_compute|]); demo_entry.
  - split; [|done]. split_and!; try done; by constructor.
Qed.
End Demo.

Section Concrete.
#[local] Existing Instance FixedTorch.
#[local] Existing Instance FixedTriton.
#[local] Existing Instance zero_memory.
#[local] Existing Instance FixedReduce.
#[local] Existing Instance bf16_type.
#[local] Existing Instance FixedTorch_laws.
#[local] Existing Instance FixedTriton_laws.
#[local] Existing Instance FixedZero.
#[local] Existing Instance default_environ.

Definition demo_tensors (n : nat) : LayerTensors (B := Z) :=
  mkTensors true 4 64 (replicate n (replicate 256 7%Z)) (fixed_keys n 2) (fixed_keys n 2) (replicate n (replicate 256 0%Z)).

Lemma served_managed t1 t2 t3 : managed_run (B := Z) demo_config demo_manager (spec_steps served_sizes ∅ (served_demo t1 t2 t3)) managed_end.
Proof. rewrite served_spec. exact managed_steps_ok. Qed.

(** The steps are [managed_steps] with the lengths of the sequences, which no
    condition reads. *)
Definition call_lens (lens : list Z) (call : LayerCall (B := Z)) : LayerCall (B := Z) :=
  let x := call.1 in
  (mkStep (si_q_cuda x) (si_q_heads x) (si_q_dim x) (si_query x) (si_key x) (si_value x) (si_num_actual_tokens x) (si_query_start_loc x)
     lens (si_block_table x) (si_mm_prefix x) (si_rswa x), call.2).

Definition with_lens (lens : list Z) (st : EngineStep (B := Z)) : EngineStep (B := Z) :=
  mkEngineStep (es_finished st) (es_preempted st) (es_ids st) (es_scheduled st) (es_computed st) (es_block_table st)
    (map (call_lens lens) (es_calls st)).

Lemma same_streams_lens lens (st : EngineStep (B := Z)) sd sd' :
  same_streams sd sd' → same_streams (sched_step sd (with_lens lens st)) (sched_step sd' st).
Proof.
  intros [H1 H2]. split; [|unfold sched_step, step_decoded; cbn [sd_decoded]; by rewrite H2]. intros l. unfold sched_step, step_streams. cbn [sd_streams].
  unfold with_lens at 1. cbn [es_calls]. rewrite lookup_map, H1. by destruct (es_calls st !! l).
Qed.

Lemma run_fit_lens lenss (steps : list (EngineStep (B := Z))) : ∀ sd sd',
  same_streams sd sd' → run_fit 1 2 4 [fixed_impl] sd' steps → run_fit 1 2 4 [fixed_impl] sd (zip_with with_lens lenss steps).
Proof.
  revert steps. induction lenss as [|lens lenss IH]; intros [|st steps] sd sd' Hs; try done. intros [(F1 & F2 & F3 & F4 & F5) Hfit].
  split; [|eapply IH; [|exact Hfit]; by apply same_streams_lens]. destruct Hs as [H1 H2]. split; [exact F1|]. split; [exact F2|].
  split; [rewrite <-F3; apply length_map|]. split; [rewrite H2; exact F4|]. intros Hne l impl call Hi Hc.
  unfold with_lens in Hc. cbn [es_calls] in Hc. rewrite lookup_map in Hc. destruct (es_calls st !! l) as [call'|] eqn:Hc'; [|done].
  injection Hc as <-. specialize (F5 Hne l impl call' Hi Hc'). unfold call_fit in *. rewrite H1. exact F5.
Qed.

Abbreviation demo_run := (served_demo (demo_tensors 36) (demo_tensors 3) (demo_tensors 0)).

Lemma served_fit : run_fit 1 2 4 [fixed_impl] sched_init (spec_steps served_sizes ∅ demo_run).
Proof.
  rewrite served_spec. apply (run_fit_lens [[36]; [37; 2]; []]%Z managed_steps sched_init sched_init); [done|].
  exact (conj managed_fit_1 (conj managed_fit_2 (conj managed_fit_3 I))).
Qed.

End Concrete.
