(* ===== verification/EngineFit.v ===== *)
(** * What the worker asks of the model

    The conditions of [ManagedEngine] on a run of the worker ([run_fit]) have three parts.
    The counts: those of the view of the worker are the lengths of the streams the layers
    keep, so nothing has to be assumed of them ([run_fits]).  The tensors: what the model
    passes to each layer ([run_inputs]).  And the chunks: a request that took one token
    while it held four or more gets its later tokens one at a time ([run_uncut]); the
    schedule of [SchedulerFair] has it so, and [FastAppend] shows what is lost where it
    does not. *)

From Stdlib Require Import ZArith Lia Permutation.
From stdpp Require Import gmap strings pretty base tactics numbers list option.
From S2P Require Import Prelude Layout Torch SpecFloatTorch BitPack Meta Quant Tab Triton Decoded Page Sidecar Tail OnlineRef Runtime.
From S2P Require Import FixedTorch Bulk ChunkPlan FastAppend Attention PageAttention TailAttention TailPrep DecodeAttention.
From S2P Require Import DecodeState TileSchedule TileKernels Lifecycle Forward ForwardFrame TileState ForwardStream ForwardState.
From S2P Require Import Engine FreeQueue BlockPool PoolState KVManager KVTables ManagedEngine.
From S2P Require Import Stores StagedTensor InputBatch BlockTables RequestStates RunnerV2 RunnerView RunnerSteps RunnerBatch RunnerRun ServedV2.

Section Fit.
Context `{TF : TorchFloat} {TR : TritonFloat} {TE : TorchEmpty} {TA : TritonReduce} {TL : TritonLaws TR}.
Context {B : Type} {FT : FloatType B}.
Context {EN : Environ}.
Variables (h g NQ : nat) (impls : list AttnImpl) (z : Sizes).
Hypothesis HQ : (0 < NQ)%nat ∧ (h | NQ)%nat.
Let d := (g * 32)%nat.

(** ** The tensors of the model *)

(** The tokens of a request, with those it held, are ordinary numbers where the device
    quantizes them. *)
Definition item_inputs (KEY VAL : tokens) (p : nat) (streams : gmap string (tokens * tokens)) (item : BatchItem) : Prop :=
  let '(id, q_len, _) := item in
  let m := Z.to_nat q_len in
  values_regular h g ((stream_of streams id).2 ++ slice p (p + m) VAL)
  ∧ ∀ j, (j ≤ m)%nat → open_ok h g ((stream_of streams id).1 ++ take j (slice p (p + m) KEY))
                          ((stream_of streams id).2 ++ take j (slice p (p + m) VAL)).

Fixpoint batch_inputs (KEY VAL : tokens) (p : nat) (streams : gmap string (tokens * tokens)) (batch : list BatchItem) : Prop :=
  match batch with
  | [] => True
  | item :: batch =>
      item_inputs KEY VAL p streams item ∧ batch_inputs KEY VAL (p + Z.to_nat item.1.2) (grow KEY VAL p item streams) batch
  end.

(** Tensors of the layer's geometry, with a row for every token of the step. *)
Definition call_inputs (sd : Sched) (st : EngineStep (B := B)) (l : nat) (impl : AttnImpl) (call : LayerCall (B := B)) : Prop :=
  let x := call.1 in
  let K := call_keys call in
  let V := call_values call in
  forward_guards impl x = Ok tt
  ∧ (input_ok h g (si_key x) K ∧ input_ok h g (si_value x) V ∧ length K = length V)
  ∧ (si_q_cuda x = true ∧ si_q_heads x = NQ ∧ si_q_dim x = d)
  ∧ ((length K ≤ length (si_query x))%nat ∧ Forall (λ r, length r = (NQ * d)%nat) (si_query x))
  ∧ (si_num_actual_tokens x ≤ Z.of_nat (length call.2))%Z
  ∧ (si_num_actual_tokens x ≤ Z.of_nat (length K))%Z
  ∧ batch_inputs K V 0 (live st (sd_streams sd l)) (es_batch st).

(** A call for every layer, for requests that are not named like a profile run. *)
Definition step_inputs (sd : Sched) (st : EngineStep (B := B)) : Prop :=
  Forall (λ id, is_profile_key id = false) (es_ids st)
  ∧ length (es_calls st) = length impls
  ∧ (es_ids st ≠ [] → ∀ l impl call, impls !! l = Some impl → es_calls st !! l = Some call → call_inputs sd st l impl call).

Fixpoint run_inputs (sd : Sched) (steps : list (EngineStep (B := B))) : Prop :=
  match steps with
  | [] => True
  | st :: steps => step_inputs sd st ∧ run_inputs (sched_step sd st) steps
  end.

(** ** The chunks *)

(** No request gets several tokens after a step of one token with four tokens held. *)
Definition step_uncut (sd : Sched) (st : EngineStep (B := B)) : Prop :=
  Forall (λ it : BatchItem, (1 < it.1.2)%Z → (0 < it.2)%Z → it.1.1 ∉ sd_decoded sd) (es_batch st).

Fixpoint run_uncut (sd : Sched) (steps : list (EngineStep (B := B))) : Prop :=
  match steps with
  | [] => True
  | st :: steps => step_uncut sd st ∧ run_uncut (sched_step sd st) steps
  end.

(** ** The counts *)

(** A request the scheduler sends starts at its first token, and the worker has none of it. *)
Definition starts_fresh (reqs : Requests) (so : SchedulerOutput) : Prop :=
  Forall (λ nr, nr_num_computed_tokens nr = 0%Z ∧ without (released_ids so) reqs !! nr_req_id nr = None) (so_scheduled_new_reqs so).

Fixpoint outputs_fresh (reqs : Requests) (steps : list (WorkerStep (B := B))) : Prop :=
  match steps with
  | [] => True
  | (so, _, sampled) :: steps => starts_fresh reqs so ∧ outputs_fresh (step_view z reqs so sampled) steps
  end.

Lemma outputs_fresh_snoc steps step : ∀ reqs,
  outputs_fresh reqs steps → starts_fresh (final_view z reqs steps) step.1.1 → outputs_fresh reqs (steps ++ [step]).
Proof.
  induction steps as [|[[so t] sam] steps IH]; intros reqs; [by destruct step as [[so t] sam]|]. intros [H1 H2] H. split; [done|]. by apply IH.
Qed.

(** The streams of a layer are those of the requests, as long as their counts. *)
Definition stream_counts (reqs : Requests) (streams : gmap string (tokens * tokens)) : Prop :=
  (∀ id r, reqs !! id = Some r → length (stream_of streams id).1 = Z.to_nat (sl_computed (rq_slot r))
     ∧ ((0 < sl_computed (rq_slot r))%Z → is_Some (streams !! id)))
  ∧ ∀ id, is_Some (streams !! id) → is_Some (reqs !! id).

Definition view_streams (reqs : Requests) (sd : Sched) : Prop := ∀ l, (l < length impls)%nat → stream_counts reqs (sd_streams sd l).

(** *** The view of a step *)

Lemma updates_slot its : ∀ v id r', fold_left (update_view z) its v !! id = Some r' → ∃ r, v !! id = Some r ∧ rq_slot r' = rq_slot r.
Proof.
  induction its as [|it its IH]; intros v id r' H; [by exists r'|]. destruct (IH _ _ _ H) as (r1 & H1 & E1). unfold update_view in H1.
  destruct (decide (it.1.1 = id)) as [<-|Hne].
  - rewrite lookup_alter_eq in H1. apply fmap_Some in H1 as (r & Hr & ->). by exists r.
  - rewrite lookup_alter_ne in H1 by done. by exists r1.
Qed.

Lemma updates_dom its : ∀ v id, is_Some (v !! id) → is_Some (fold_left (update_view z) its v !! id).
Proof.
  induction its as [|it its IH]; intros v id H; [done|]. apply IH. unfold update_view.
  destruct (decide (it.1.1 = id)) as [<-|Hne]; [rewrite lookup_alter_eq; by apply fmap_is_Some|by rewrite lookup_alter_ne].
Qed.

Lemma adds_slot news : ∀ v id r, fold_left (add_view z) news v !! id = Some r →
  (∃ nr, nr ∈ news ∧ nr_req_id nr = id ∧ r = new_view z nr) ∨ v !! id = Some r.
Proof.
  induction news as [|nr news IH]; intros v id r H; [by right|]. destruct (IH _ _ _ H) as [(nr' & Hin & E)|H1].
  - left. exists nr'. split; [by right|done].
  - unfold add_view in H1. rewrite lookup_insert in H1. case_decide as E; [|by right]. injection H1 as <-.
    left. exists nr. split; [by left|done].
Qed.

Lemma adds_dom news : ∀ v id, is_Some (v !! id) → is_Some (fold_left (add_view z) news v !! id).
Proof.
  induction news as [|nr news IH]; intros v id H; [done|]. apply IH. unfold add_view. rewrite lookup_insert. case_decide; [by eexists|done].
Qed.

Lemma live_counts reqs so rows tensors sd l (reqs' := updated_view z reqs so) (st := spec_step (B := B) reqs' so rows tensors) :
  starts_fresh reqs so → stream_counts reqs (sd_streams sd l) → stream_counts reqs' (live st (sd_streams sd l)).
Proof.
  intros Hf [H1 H2].
  assert (∀ id, id ∉ released_ids so → live st (sd_streams sd l) !! id = sd_streams sd l !! id) as Hlive.
  { intros id Hid. destruct (sd_streams sd l !! id) as [s|] eqn:E.
    - apply live_lookup. split; [done|]. split; [done|apply not_elem_of_nil].
    - apply eq_None_not_Some. intros [s Hs]. apply live_lookup in Hs as [Hs _]. congruence. }
  assert (∀ id, is_Some (live st (sd_streams sd l) !! id) → is_Some (without (released_ids so) reqs !! id)) as Hdom.
  { intros id [s Hs]. apply live_lookup in Hs as (Hs & Hr & _). rewrite without_lookup, decide_False by done. apply H2. by exists s. }
  split.
  - intros id r Hr. unfold reqs', updated_view in Hr. apply updates_slot in Hr as (r1 & Hr & ->). apply adds_slot in Hr as [(nr & Hin & <- & ->)|Hr].
    + unfold starts_fresh in Hf. rewrite List.Forall_forall in Hf. destruct (Hf nr ltac:(by apply list_elem_of_In)) as [E0 En]. unfold new_view. cbn [rq_slot sl_computed]. rewrite E0. split; [|lia].
      assert (live st (sd_streams sd l) !! nr_req_id nr = None) as Es.
      { apply eq_None_not_Some. intros Hs. destruct (Hdom _ Hs) as [r' Hr']. congruence. }
      unfold stream_of. by setoid_rewrite Es.
    + rewrite without_lookup in Hr. case_decide as Hid; [done|]. destruct (H1 id r1 Hr) as [L1 L2]. unfold stream_of. rewrite !Hlive by done. done.
  - intros id Hs. apply updates_dom, adds_dom. by apply Hdom.
Qed.

Lemma spec_batch reqs so rows (tensors : list (LayerTensors (B := B))) :
  NoDup (map fst (so_num_scheduled_tokens so)) →
  es_batch (spec_step reqs so rows tensors) = map (λ it, (it.1, it.2, computed_of reqs it.1)) (batch_of so).
Proof.
  intros Hnd. destruct (batch_counts reqs so rows tensors Hnd) as [E1 E2]. unfold es_batch, counted_batch.
  cbn [spec_step es_ids] in *. rewrite !List.map_map in *. apply map_ext_in. intros it Hit.
  pose proof (ext_in_map E1 it Hit) as Eq. pose proof (ext_in_map E2 it Hit) as Ec. cbn beta in Eq, Ec. cbn [spec_step es_scheduled es_computed] in *. by rewrite Eq, Ec.
Qed.

(** *** A step *)

Lemma total_nonneg (batch : list BatchItem) : (∀ it, it ∈ batch → (0 < it.1.2)%Z) → (0 ≤ query_total batch)%Z.
Proof.
  induction batch as [|it batch IH]; intros H; [done|]. change (query_total (it :: batch)) with (it.1.2 + query_total batch)%Z.
  pose proof (H it ltac:(by left)). specialize (IH ltac:(intros x Hx; apply H; by right)). lia.
Qed.

(** With the counts and the tensors a batch fits. *)
Lemma batch_inputs_fit KEY VAL batch : ∀ p streams,
  NoDup (batch_ids batch) →
  (∀ it : BatchItem, it ∈ batch → (0 < it.1.2)%Z ∧ (0 ≤ it.2)%Z ∧ length (stream_of streams it.1.1).1 = Z.to_nat it.2
     ∧ ((0 < it.2)%Z → is_Some (streams !! it.1.1))) →
  (Z.of_nat p + query_total batch ≤ Z.of_nat (length KEY))%Z → batch_inputs KEY VAL p streams batch → batch_fit h g KEY VAL p streams batch.
Proof.
  induction batch as [|[[id q] ctx] batch IH]; intros p streams Hnd Hit Hlen Hm; [done|].
  destruct Hm as ((M1 & M2) & Hm). destruct (Hit (id, q, ctx) ltac:(by left)) as (Hq & Hc & Hl & Hs). cbn [fst snd] in *.
  cbn [batch_ids map fst] in Hnd. apply list.NoDup_cons in Hnd as [Hnot Hnd].
  change (query_total ((id, q, ctx) :: batch)) with (q + query_total batch)%Z in Hlen.
  assert (0 ≤ query_total batch)%Z as Hpos.
  { apply total_nonneg. intros it Hin. apply Hit. by right. }
  split; [|split; [done|]].
  - split_and!; try done. lia.
  - apply IH; [done| |cbn [fst snd]; lia|done]. intros it Hin. destruct (Hit it ltac:(by right)) as (A1 & A2 & A3 & A4).
    assert (id ≠ it.1.1) as Hne by (intros ->; apply Hnot, in_batch_ids; by exists it).
    assert (grow KEY VAL p (id, q, ctx) streams !! it.1.1 = streams !! it.1.1) as Eg by (by apply lookup_insert_ne).
    rewrite Eg. unfold stream_of in A3 |- *. setoid_rewrite Eg. done.
Qed.

Lemma spec_total reqs so rows (tensors : list (LayerTensors (B := B))) :
  NoDup (map fst (so_num_scheduled_tokens so)) → Forall (λ it : string * Z, (0 < it.2)%Z) (batch_of so) →
  query_total (es_batch (spec_step reqs so rows tensors)) = Z.of_nat (start (counts_of (batch_of so)) (length (batch_of so))).
Proof.
  intros Hnd Hp. rewrite <-counts_sum by done. rewrite take_ge by (by rewrite length_map). rewrite spec_batch by done.
  unfold query_total. by rewrite !List.map_map.
Qed.

(** The requests a step may ask for, with their counts. *)
Lemma asked_items reqs so : output_ok z reqs so →
  NoDup (map fst (batch_of so)) ∧ Forall (λ it : string * Z, (0 < it.2)%Z) (batch_of so)
  ∧ ∀ it, it ∈ batch_of so → ∃ r, updated_view z reqs so !! it.1 = Some r ∧ (0 < it.2)%Z ∧ (0 ≤ sl_computed (rq_slot r))%Z.
Proof.
  intros (_ & _ & _ & _ & _ & Hnd & Hsch & _). pose proof (sort_perm (so_num_scheduled_tokens so)) as Hperm. fold (batch_of so) in Hperm.
  assert (∀ it, it ∈ batch_of so → ∃ r, updated_view z reqs so !! it.1 = Some r ∧ (0 < it.2)%Z ∧ (0 ≤ sl_computed (rq_slot r))%Z) as Hit.
  { intros it Hin. rewrite Hperm in Hin. rewrite List.Forall_forall in Hsch. destruct (Hsch it) as (_ & r & Hr & Hq & He & _); [by apply list_elem_of_In|].
    exists r. split; [done|]. split; [done|]. apply He. }
  split; [by rewrite Hperm|]. split; [|done]. apply List.Forall_forall. intros it Hin%list_elem_of_In. by destruct (Hit it Hin) as (_ & _ & ? & _).
Qed.

Lemma spec_item reqs so rows (tensors : list (LayerTensors (B := B))) (it : BatchItem) :
  NoDup (map fst (so_num_scheduled_tokens so)) → it ∈ es_batch (spec_step reqs so rows tensors) →
  (it.1.1, it.1.2) ∈ batch_of so ∧ it.2 = computed_of reqs it.1.1.
Proof.
  intros Hnd. rewrite spec_batch by done. intros Hin%list_elem_of_In. apply in_map_iff in Hin as ([id q] & <- & Hin). cbn. by rewrite list_elem_of_In.
Qed.

Lemma asked_step_fit reqs so rows tensors sampled sd (reqs' := updated_view z reqs so) (st := spec_step (B := B) reqs' so rows tensors) :
  step_asked z reqs (so, sampled) → starts_fresh reqs so → view_streams reqs sd → step_inputs sd st → step_uncut sd st →
  step_fit h g NQ impls sd st.
Proof.
  intros [Hso _] Hf Hv (M1 & M2 & M3) Hcut. cbn [fst snd] in Hso. destruct (asked_items reqs so Hso) as (Hnd & Hpos & Hit). fold reqs' in Hit.
  pose proof Hso as (_ & _ & _ & _ & _ & Hnd0 & _).
  assert (∀ it : BatchItem, it ∈ es_batch st → ∃ r, reqs' !! it.1.1 = Some r ∧ (0 < it.1.2)%Z ∧ it.2 = sl_computed (rq_slot r) ∧ (0 ≤ it.2)%Z) as Hitem.
  { intros it Hin. destruct (spec_item _ _ _ _ it Hnd0 Hin) as [Hb Ec]. destruct (Hit _ Hb) as (r & Hr & Hq & Hc). cbn [fst snd] in *.
    exists r. unfold computed_of in Ec. rewrite Hr in Ec. rewrite Ec. done. }
  split; [|split; [exact M1|split; [exact M2|split; [exact Hcut|]]]].
  - apply List.Forall_forall. intros id Hid%list_elem_of_In. rewrite <-batch_ids_es in Hid. apply in_batch_ids in Hid as (it & Hin & <-).
    destruct (Hitem it Hin) as (r & Hr & Hq & _ & Hc). unfold es_batch, counted_batch in Hin. apply list_elem_of_In, in_map_iff in Hin as (id & <- & Hid).
    cbn [fst snd] in *. apply in_map_iff in Hid as ([id' q] & <- & Hin). cbn [fst] in *. exists q, (computed_of reqs' id').
    destruct (batch_counts reqs' so rows tensors Hnd0) as [E1 E2]. fold st in E1, E2. cbn [st spec_step es_ids] in E1, E2. rewrite !List.map_map in E1, E2.
    pose proof (ext_in_map E1 (id', q) Hin) as Eq. pose proof (ext_in_map E2 (id', q) Hin) as Ec. cbn [fst snd] in Eq, Ec. rewrite Eq in Hq. rewrite Ec in Hc.
    split; [|split; [|done]]; apply elem_of_list_to_map_1.
    + done.
    + apply list_elem_of_In. exact Hin.
    + rewrite <-list_fmap_compose. done.
    + apply list_elem_of_In, in_map_iff. by exists (id', q).
  - intros Hne l impl call Hi Hc. destruct (M3 Hne l impl call Hi Hc) as (C1 & C2 & C3 & C4 & C5 & C6 & C7).
    assert (l < length impls)%nat as Hl by (by eapply lookup_lt_Some). destruct (spec_call_lookup _ _ _ _ _ _ Hc) as (t & Ht & ->).
    assert (query_total (es_batch st) = si_num_actual_tokens (spec_call reqs' so rows t).1) as Etot by (by apply spec_total).
    split; [exact C1|]. split; [exact C2|]. split; [exact C3|]. split; [exact C4|]. split.
    { unfold st. rewrite spec_batch by done. cbn. by rewrite !length_map, length_seq. }
    split; [exact Etot|]. split; [exact C5|]. split; [done|].
    destruct (live_counts reqs so rows tensors sd l Hf (Hv l Hl)) as [L1 _]. fold reqs' st in L1.
    apply batch_inputs_fit; [| |rewrite Etot; lia|exact C7].
    + by rewrite batch_ids_es.
    + intros it Hin. destruct (Hitem it Hin) as (r & Hr & Hq & Ec & Hc0). destruct (L1 _ _ Hr) as [A1 A2]. rewrite <-Ec in A1, A2. done.
Qed.

Lemma step_view_streams reqs so rows tensors sampled sd (reqs' := updated_view z reqs so) (st := spec_step (B := B) reqs' so rows tensors) :
  step_asked z reqs (so, sampled) → starts_fresh reqs so → view_streams reqs sd → step_fit h g NQ impls sd st →
  view_streams (step_view z reqs so sampled) (sched_step sd st).
Proof.
  intros [Hso Hsam] Hf Hv (_ & _ & F3 & _ & F5) l Hl. cbn [fst snd] in Hso, Hsam. destruct (asked_items reqs so Hso) as (Hnd & Hpos & Hit).
  pose proof Hso as (_ & _ & _ & _ & _ & Hnd0 & _). fold reqs' in Hit.
  destruct (live_counts reqs so rows tensors sd l Hf (Hv l Hl)) as [L1 L2]. fold reqs' st in L1, L2.
  destruct (samples_lookup (batch_of so) sampled reqs' Hnd) as [S1 S2]. change (fold_left sample_view (zip (batch_of so) sampled) reqs') with (step_view z reqs so sampled) in S1, S2.
  assert (∃ call, es_calls st !! l = Some call) as [call Hcall] by (apply lookup_lt_is_Some; rewrite F3; exact Hl).
  destruct (lookup_lt_is_Some_2 impls l Hl) as [impl Himpl].
  assert (sd_streams (sched_step sd st) l = grow_all (call_keys call) (call_values call) 0 (es_batch st) (live st (sd_streams sd l))) as ->
    by (cbn [sched_step sd_streams]; unfold step_streams; by rewrite Hcall).
  assert (∀ id, id ∈ map fst (batch_of so) ↔ id ∈ batch_ids (es_batch st)) as Hids by (intros id; by rewrite batch_ids_es).
  assert (∀ it, it ∈ es_batch st →
    length (stream_of (grow_all (call_keys call) (call_values call) 0 (es_batch st) (live st (sd_streams sd l))) it.1.1).1 = (Z.to_nat it.2 + Z.to_nat it.1.2)%nat) as Hgrow.
  { intros it Hin. destruct (F5 ltac:(intros E; unfold es_batch, counted_batch in Hin; rewrite E in Hin; by apply not_elem_of_nil in Hin) l impl call Himpl Hcall)
      as (_ & _ & _ & _ & _ & _ & _ & _ & Hfit). by apply (grow_all_length h g NQ HQ (call_keys call) (call_values call) 0 _ _ it Hfit). }
  split.
  - intros id r Hr. destruct (decide (id ∈ map fst (batch_of so))) as [Hin|Hnin].
    + apply list_elem_of_In, in_map_iff in Hin as (it & <- & Hin%list_elem_of_In). apply list_elem_of_lookup in Hin as [b Hb].
      destruct (lookup_lt_is_Some_2 sampled b) as [tok Htok]; [rewrite Hsam; by eapply lookup_lt_Some|]. rewrite (S1 b it tok Hb Htok) in Hr.
      apply fmap_Some in Hr as (r0 & Hr0 & ->). destruct (Hit it) as (r1 & Hr1 & Hq & Hc); [by eapply list_elem_of_lookup_2|]. assert (r1 = r0) as -> by congruence.
      pose proof (Hgrow (it.1, it.2, computed_of reqs' it.1)) as Hg. cbn [fst snd] in Hg. unfold computed_of in Hg. rewrite Hr0 in Hg. rewrite Hg.
      * cbn [sample_one rq_slot slot_step sl_computed]. split; [lia|]. intros _.
        destruct (grow_all _ _ _ _ _ !! it.1) as [s|] eqn:Es; [by eexists|]. exfalso. unfold stream_of in Hg. setoid_rewrite Es in Hg.
        specialize (Hg ltac:(unfold st; rewrite spec_batch by done; apply list_elem_of_In, in_map_iff; exists it; unfold computed_of; rewrite Hr0;
          split; [done|apply list_elem_of_In; by eapply list_elem_of_lookup_2])). cbn in Hg. lia.
      * unfold st. rewrite spec_batch by done. apply list_elem_of_In, in_map_iff. exists it. unfold computed_of. rewrite Hr0.
        split; [done|apply list_elem_of_In; by eapply list_elem_of_lookup_2].
    + rewrite S2 in Hr by done. rewrite Hids in Hnin.
      pose proof (grow_all_other (call_keys call) (call_values call) 0 (live st (sd_streams sd l)) _ id Hnin) as Eg.
      destruct (L1 id r Hr) as [A1 A2]. unfold stream_of in *. setoid_rewrite Eg. done.
  - intros id Hs. apply grow_all_dom in Hs. destruct (decide (id ∈ map fst (batch_of so))) as [Hin|Hnin].
    + apply list_elem_of_In, in_map_iff in Hin as (it & <- & Hin%list_elem_of_In). destruct (Hit it Hin) as (r1 & Hr1 & _).
      apply list_elem_of_lookup in Hin as [b Hb]. destruct (lookup_lt_is_Some_2 sampled b) as [tok Htok]; [rewrite Hsam; by eapply lookup_lt_Some|].
      rewrite (S1 b it tok Hb Htok), Hr1. by eexists.
    + rewrite S2 by done. destruct Hs as [Hs|Hs]; [by rewrite Hids in Hnin|by apply L2].
Qed.

(** ** Runs *)

(** What the scheduler asks of the worker fits, with tensors of the model and no chunk
    after a single token. *)
Lemma run_fits (steps : list (WorkerStep (B := B))) : ∀ reqs sd,
  outputs_asked z reqs steps → outputs_fresh reqs steps → view_streams reqs sd →
  run_inputs sd (spec_steps z reqs steps) → run_uncut sd (spec_steps z reqs steps) → run_fit h g NQ impls sd (spec_steps z reqs steps).
Proof.
  induction steps as [|[[so tensors] sampled] steps IH]; intros reqs sd Ho Hf Hv Hm Hc; [done|].
  destruct Ho as [Ho1 Ho], Hf as [Hf1 Hf], Hm as [Hm1 Hm], Hc as [Hc1 Hc]. cbn [spec_steps run_fit].
  pose proof (asked_step_fit reqs so _ tensors sampled sd Ho1 Hf1 Hv Hm1 Hc1) as Hfit. split; [exact Hfit|].
  apply IH; try done. by apply step_view_streams.
Qed.

Lemma view_streams_start sd : (∀ l, sd_streams sd l = ∅) → view_streams ∅ sd.
Proof.
  intros H l _. rewrite H. split; [intros id r Hr; by rewrite lookup_empty in Hr|]. intros id Hs. rewrite lookup_empty in Hs. by destruct Hs.
Qed.

(** A run that fits has the tensors and the chunks. *)
Lemma batch_fit_inputs KEY VAL batch : ∀ p streams, batch_fit h g KEY VAL p streams batch → batch_inputs KEY VAL p streams batch.
Proof.
  induction batch as [|[[id q] ctx] batch IH]; intros p streams; [done|]. intros ((_ & _ & _ & _ & _ & Hv & Ho) & _ & Hfit). split; [by split|by apply IH].
Qed.

Lemma batch_fit_length KEY VAL batch : ∀ p streams, batch_fit h g KEY VAL p streams batch → batch ≠ [] →
  (Z.of_nat p + query_total batch ≤ Z.of_nat (length KEY))%Z.
Proof.
  induction batch as [|[[id q] ctx] batch IH]; intros p streams; [done|]. intros ((Hq & _ & _ & _ & Hp & _) & _ & Hfit) _.
  change (query_total ((id, q, ctx) :: batch)) with (q + query_total batch)%Z. cbn [fst snd] in Hfit. destruct batch as [|it batch].
  - cbn. lia.
  - specialize (IH _ _ Hfit ltac:(done)). lia.
Qed.

Lemma run_fit_inputs steps : ∀ sd, run_fit h g NQ impls sd steps → run_inputs sd steps ∧ run_uncut sd steps.
Proof.
  induction steps as [|st steps IH]; intros sd; [done|]. intros [(F1 & F2 & F3 & F4 & F5) Hfit]. destruct (IH _ Hfit) as [H1 H2].
  split; [split; [|done]|by split]. split; [done|]. split; [done|]. intros Hne l impl call Hi Hc.
  destruct (F5 Hne l impl call Hi Hc) as (C1 & C2 & C3 & C4 & _ & C6 & C7 & _ & C9). do 4 (split; [done|]). split; [done|]. split; [|by apply batch_fit_inputs].
  rewrite <-C6. apply (batch_fit_length _ _ _ 0 _ C9). intros E. apply Hne. by rewrite <-batch_ids_es, E.
Qed.
End Fit.

Section Served.
Context `{TF : TorchFloat} {TR : TritonFloat} {TE : TorchEmpty} {TA : TritonReduce}.
Context {TFL : TorchFloatLaws TF} {TL : TritonLaws TR} {TZ : TritonZero}.
Context {B : Type} {FT : FloatType B}.
Context {EN : Environ}.
Variables (h g NQ : nat).
Let d := (g * 32)%nat.
Hypotheses (Hgeo : runtime_geometry h d) (HQ : (0 < NQ)%nat ∧ (h | NQ)%nat).
Variable context_attention_fwd : list (list B) → dev_tensor → dev_tensor → f32 → list (list B).
Hypothesis (Henv : environ_ok).
Variables (impls : list AttnImpl) (caches : list PageCache).
Hypotheses (Hlen : length impls = length caches) (Himpl : Forall (impl_ok h g) impls).
Variables (cfg : KVConfig) (blocks : nat).
Hypotheses (Hblock : kv_block_size cfg = 32%Z) (Hwm : (0 ≤ watermark_blocks cfg)%Z).
Hypothesis Hcaches : Forall (λ c, pc_width c = page_bytes (layout_of GROUP h d d) ∧ length (pc_pages c) = blocks) caches.
Variables (z : Sizes) (torch_empty : nat → list Z).
Hypotheses (Hempty : ∀ m, length (torch_empty m) = m) (Hz : (0 < z_block z)%Z).

(** ** Property *)

(** C3: the worker as it runs.  From a fresh worker and a fresh manager without prefix
    caching, over any steps in which the scheduler frees finished and preempted requests only, gets
    slots for the requests it schedules, sends their blocks and starts them at their first token, the
    model passes tensors of its geometry with ordinary numbers, and the sampler chooses any tokens:
    if no request that was given a single token while it held four or more is later given
    several at once, the model runner and every attention layer
    raise nothing; every output row of every layer is the attention of its request's own
    stream, in the order in which the runner sorted the batch; and at the end the runner's slots hold
    the requests that are left with their sampled tokens, every live request has in every
    layer the sidecar of its stream, and its pages lie in the blocks the manager holds for it.
    The condition on the chunks is needed ([FastAppend.stale_fast_buffers_lose_chunk]). *)
Theorem served_runs hbs s0 s block_size kernel_block_size row_blocks bins rn steps :
  (0 < blocks)%nat → kv_init (Z.of_nat blocks) false hbs = Ok s0 → Forall cache_ok caches →
  z_bpk z = (block_size / kernel_block_size)%nat → z_row z = (row_blocks * z_bpk z)%nat → z_block z = Z.of_nat kernel_block_size →
  runner_init true false false (z_reqs z) (z_model_len z) (z_tokens z) 0
    (Tables.init block_size kernel_block_size (z_reqs z) (z_tokens z) row_blocks 1 0 1) bins = Ok rn →
  outputs_asked z ∅ steps → outputs_fresh z ∅ steps → managed_run cfg s0 (spec_steps z ∅ steps) s →
  run_inputs h g NQ impls sched_init (spec_steps z ∅ steps) → run_uncut sched_init (spec_steps z ∅ steps) →
  ∃ outs rn' e', served_run context_attention_fwd torch_empty impls steps (rn, engine_init caches) = (Ok outs, (rn', e'))
  ∧ run_rows h g NQ context_attention_fwd impls sched_init (spec_steps z ∅ steps) outs
  ∧ runner_idle z rn' (final_view z ∅ steps)
  ∧ serves h g caches (fold_left sched_step (spec_steps z ∅ steps) sched_init) e' s.
Proof.
  intros Hn Hi Hc Z1 Z2 Z3 Hrn Ho Hf Hm Hmodel Hcut. destruct (fresh_manager blocks hbs s0 Hn Hi) as [H0 _].
  assert (run_fit h g NQ impls sched_init (spec_steps z ∅ steps)) as Hfit
    by (apply (run_fits h g NQ impls z HQ); try done; by apply view_streams_start).
  destruct (served_run_ok h g NQ Hgeo HQ context_attention_fwd Henv impls caches Hlen Himpl cfg blocks Hblock Hwm Hcaches z torch_empty Hempty Hz
    steps rn (engine_init caches) ∅ sched_init sched_init s0 s) as (outs & rn' & e' & sd' & E & H1 & H2 & H3 & H4 & H5); try done.
  - by eapply runner_init_ok.
  - by apply (engine_init_ok h g NQ HQ impls).
  - exists outs, rn', e'. do 3 (split; [done|]). intros l id kx vx Hl Hid. destruct H4 as [H4 _]. rewrite <-H4 in Hid.
    by eapply (synced_serves h g).
Qed.
End Served.

(** ** A concrete run *)

Lemma served_fresh `{TF : TorchFloat} {B : Type} t1 t2 t3 : outputs_fresh served_sizes ∅ (served_demo (B := B) t1 t2 t3).
Proof. split; [|split; [|split; [|done]]]; repeat constructor. Qed.

Section Concrete.
#[local] Existing Instance FixedTorch.
#[local] Existing Instance FixedTriton.
#[local] Existing Instance zero_memory.
#[local] Existing Instance FixedReduce.
#[local] Existing Instance bf16_type.
#[local] Existing Instance FixedTorch_laws.
#[local] Existing Instance FixedTriton_laws.
#[local] Existing Instance FixedZero.
#[local] Existing Instance default_environ.

Abbreviation demo_run := (served_demo (demo_tensors 36) (demo_tensors 3) (demo_tensors 0)).

Lemma demo_inputs : run_inputs 1 2 4 [fixed_impl] sched_init (spec_steps served_sizes ∅ demo_run) ∧ run_uncut sched_init (spec_steps served_sizes ∅ demo_run).
Proof. exact (run_fit_inputs 1 2 4 [fixed_impl] four_heads _ _ served_fit). Qed.

(** C3: the three steps of one layer of five pages. *)
Lemma served_runs_witness :
  ∃ outs rn' e', served_run copy_attention (λ m, replicate m 7%Z) [fixed_impl] demo_run
      (mkRunner (States.init 2 64 0) (Tables.init 32 32 2 64 4 1 0 1)
         (mkBuffers (replicate 64 0%Z) (replicate 64 0%Z) (replicate 3 0%Z) (replicate 2 0%Z)) None, engine_init [zero_cache 5]) = (Ok outs, (rn', e'))
  ∧ run_rows 1 2 4 copy_attention [fixed_impl] sched_init (spec_steps served_sizes ∅ demo_run) outs.
Proof.
  destruct (served_runs 1 2 4 one_head_runtime four_heads copy_attention default_environ_ok [fixed_impl] [zero_cache 5] eq_refl ltac:(by repeat constructor)
    demo_config 5 eq_refl ltac:(done)) with (z := served_sizes) (torch_empty := λ m, replicate m 7%Z) (hbs := 32%Z) (s0 := demo_manager) (s := managed_end)
    (block_size := 32%nat) (kernel_block_size := 32%nat) (row_blocks := 4%nat) (bins := @None (list Z * nat)) (steps := demo_run)
    (rn := mkRunner (States.init 2 64 0) (Tables.init 32 32 2 64 4 1 0 1)
         (mkBuffers (replicate 64 0%Z) (replicate 64 0%Z) (replicate 3 0%Z) (replicate 2 0%Z)) None)
    as (outs & rn' & e' & E & Hr & _).
  - constructor; [|constructor]. by split; vm_compute.
  - intros m. apply length_replicate.
  - reflexivity.
  - lia.
  - reflexivity.
  - constructor; [apply zero_cache_ok|constructor].
  - reflexivity.
  - reflexivity.
  - reflexivity.
  - reflexivity.
  - apply served_asked.
  - apply served_fresh.
  - apply served_managed.
  - exact (proj1 demo_inputs).
  - exact (proj2 demo_inputs).
  - exists outs, rn', e'. by split.
Defined.
End Concrete.
