(* ===== verification/SchedRequest.v ===== *)
(** * A request of the scheduler

    [v1/request.py], [v1/core/sched/utils.py] and the parts of [sampling_params.py] they
    read: what the scheduler keeps of a generative request, when a request stops, the
    detection of repetitions among its output tokens, and the removal of requests
    from a queue.  A request is text only: no pooling, structured output, encoder input,
    LoRA, streaming input or draft token. *)

From Stdlib Require Import ZArith Lia.
From stdpp Require Import base tactics numbers list option gmap strings.
From S2P Require Import Prelude FreeQueue BlockPool PoolState KVManager.

(** ** Data *)

Record RepetitionDetectionParams := mkRepetition {
  max_pattern_size : Z;
  min_pattern_size : Z;
  min_count : Z
}.

Record SamplingParams := mkSampling {
  sp_max_tokens : Z;
  sp_min_tokens : Z;
  sp_eos_token_id : option Z;
  sp_stop_token_ids : list Z;
  sp_repetition_detection : option RepetitionDetectionParams
}.

Inductive FinishReason := STOP | LENGTH | ABORT | ERROR | REPETITION.

(** [request.stop_reason]. *)
Inductive StopReason := StopToken (token_id : Z) | RepetitionDetected.

(** [Request]; [_all_token_ids] grows with [_output_token_ids] behind the prompt. *)
Record SchedRequest := mkSched {
  sr_request_id : string;
  sr_prompt_token_ids : list Z;
  sr_output_token_ids : list Z;
  sr_sampling_params : SamplingParams;
  sr_status : RequestStatus;
  sr_stop_reason : option StopReason;
  sr_num_computed_tokens : Z;
  sr_num_output_placeholders : Z;
  sr_async_tokens_to_discard : Z;
  sr_is_prefill_chunk : bool;
  sr_next_decode_eligible_step : Z;
  sr_num_preemptions : Z
}.

Definition sr_all_token_ids (r : SchedRequest) : list Z := sr_prompt_token_ids r ++ sr_output_token_ids r.
Definition sr_num_tokens (r : SchedRequest) : Z := Z.of_nat (length (sr_all_token_ids r)).
Definition sr_num_output_tokens (r : SchedRequest) : Z := Z.of_nat (length (sr_output_token_ids r)).
Definition sr_num_prompt_tokens (r : SchedRequest) : Z := Z.of_nat (length (sr_prompt_token_ids r)).

(** [Request.__init__] of a prompt of tokens. *)
Definition new_request (request_id : string) (prompt_token_ids : list Z) (sampling_params : SamplingParams) : SchedRequest :=
  mkSched request_id prompt_token_ids [] sampling_params WAITING None 0 0 0 false 0 0.

(** What the manager of the cache reads of a request; without prefix caching no block
    is hashed. *)
Definition kv_request (r : SchedRequest) : Request :=
  mkRequest (sr_request_id r) (sr_num_tokens r) (sr_num_computed_tokens r) (sr_status r) [] false.

(** ** Updates of a field *)

Definition set_status (st : RequestStatus) (r : SchedRequest) : SchedRequest :=
  mkSched (sr_request_id r) (sr_prompt_token_ids r) (sr_output_token_ids r) (sr_sampling_params r) st (sr_stop_reason r)
    (sr_num_computed_tokens r) (sr_num_output_placeholders r) (sr_async_tokens_to_discard r) (sr_is_prefill_chunk r)
    (sr_next_decode_eligible_step r) (sr_num_preemptions r).

Definition set_stop (st : RequestStatus) (reason : option StopReason) (r : SchedRequest) : SchedRequest :=
  mkSched (sr_request_id r) (sr_prompt_token_ids r) (sr_output_token_ids r) (sr_sampling_params r) st reason
    (sr_num_computed_tokens r) (sr_num_output_placeholders r) (sr_async_tokens_to_discard r) (sr_is_prefill_chunk r)
    (sr_next_decode_eligible_step r) (sr_num_preemptions r).

Definition set_progress (computed placeholders : Z) (chunk : bool) (step : Z) (r : SchedRequest) : SchedRequest :=
  mkSched (sr_request_id r) (sr_prompt_token_ids r) (sr_output_token_ids r) (sr_sampling_params r) (sr_status r) (sr_stop_reason r)
    computed placeholders (sr_async_tokens_to_discard r) chunk step (sr_num_preemptions r).

Definition set_async (placeholders discard : Z) (r : SchedRequest) : SchedRequest :=
  mkSched (sr_request_id r) (sr_prompt_token_ids r) (sr_output_token_ids r) (sr_sampling_params r) (sr_status r) (sr_stop_reason r)
    (sr_num_computed_tokens r) placeholders discard (sr_is_prefill_chunk r) (sr_next_decode_eligible_step r) (sr_num_preemptions r).

Definition append_output_token_ids (token_id : Z) (r : SchedRequest) : SchedRequest :=
  mkSched (sr_request_id r) (sr_prompt_token_ids r) (sr_output_token_ids r ++ [token_id]) (sr_sampling_params r) (sr_status r)
    (sr_stop_reason r) (sr_num_computed_tokens r) (sr_num_output_placeholders r) (sr_async_tokens_to_discard r) (sr_is_prefill_chunk r)
    (sr_next_decode_eligible_step r) (sr_num_preemptions r).

(** ** Statuses *)

(** [enum.auto()] numbers the members from one. *)
Definition status_value (st : RequestStatus) : Z :=
  match st with
  | WAITING => 1
  | WAITING_FOR_STRUCTURED_OUTPUT_GRAMMAR => 2
  | WAITING_FOR_REMOTE_KVS => 3
  | WAITING_FOR_STREAMING_REQ => 4
  | RUNNING => 5
  | PREEMPTED => 6
  | FINISHED_STOPPED => 7
  | FINISHED_LENGTH_CAPPED => 8
  | FINISHED_ABORTED => 9
  | FINISHED_IGNORED => 10
  | FINISHED_ERROR => 11
  | FINISHED_REPETITION => 12
  end.

#[export] Instance RequestStatus_eq_dec : EqDecision RequestStatus.
Proof. solve_decision. Defined.

Definition is_finished (st : RequestStatus) : bool := (status_value PREEMPTED <? status_value st)%Z.

(** [_FINISHED_REASON_MAP.get(status)] *)
Definition get_finished_reason (st : RequestStatus) : option FinishReason :=
  match st with
  | FINISHED_STOPPED => Some STOP
  | FINISHED_LENGTH_CAPPED => Some LENGTH
  | FINISHED_ABORTED => Some ABORT
  | FINISHED_IGNORED => Some LENGTH
  | FINISHED_ERROR => Some ERROR
  | WAITING_FOR_STREAMING_REQ => Some STOP
  | FINISHED_REPETITION => Some REPETITION
  | _ => None
  end.

(** ** Repetitions *)

(** [l[i]] of a Python list: a negative index counts from the end. *)
Definition py_item {A} (l : list A) (i : Z) : result A :=
  let j := if (i <? 0)%Z then (Z.of_nat (length l) + i)%Z else i in
  if (j <? 0)%Z then Err IndexError
  else match l !! Z.to_nat j with Some x => Ok x | None => Err IndexError end.

(** [for x in l: if not f(x): return False], then [return True]. *)
Fixpoint all_of {A} (f : A → result bool) (l : list A) : result bool :=
  match l with
  | [] => Ok true
  | x :: l => b ← f x; if (b : bool) then all_of f l else Ok false
  end.

Definition _has_repeating_pattern (token_ids : list Z) (pattern_len repetition_min_count : Z) : result bool :=
  all_of (λ n,
    target_token ← py_item token_ids (- n);
    all_of (λ m,
      token ← py_item token_ids (- (pattern_len * m + n));
      Ok (token =? target_token)%Z) (seqZ 1 (repetition_min_count - 1))) (seqZ 1 pattern_len).

(** The loop over the pattern lengths. *)
Fixpoint find_repetition (token_ids : list Z) (min_count : Z) (pattern_lens : list Z) : result bool :=
  match pattern_lens with
  | [] => Ok false
  | pattern_len :: pattern_lens =>
      if (Z.of_nat (length token_ids) <? pattern_len * min_count)%Z then Ok false else
      found ← _has_repeating_pattern token_ids pattern_len min_count;
      if (found : bool) then Ok true else find_repetition token_ids min_count pattern_lens
  end.

Definition check_sequence_repetition (token_ids : list Z) (params : RepetitionDetectionParams) : result bool :=
  let max_size := max_pattern_size params in
  let min_size := if (min_pattern_size params <=? 0)%Z then 1%Z else min_pattern_size params in
  if ((max_size <=? 0) || (min_count params <? 2) || (max_size <? min_size))%Z then Ok false
  else find_repetition token_ids (min_count params) (seqZ min_size (max_size + 1 - min_size)).

(** ** Stopping *)

(** [check_stop]: whether the request stops, and the request with its new status. *)
Definition check_stop (max_model_len : Z) (r : SchedRequest) : result (bool * SchedRequest) :=
  let p := sr_sampling_params r in
  if (sr_num_output_tokens r <? sp_min_tokens p)%Z then Ok (false, r) else
  last_token_id ← py_item (sr_output_token_ids r) (-1);
  if bool_decide (Some last_token_id = sp_eos_token_id p) then Ok (true, set_status FINISHED_STOPPED r) else
  if bool_decide (last_token_id ∈ sp_stop_token_ids p) then Ok (true, set_stop FINISHED_STOPPED (Some (StopToken last_token_id)) r) else
  if ((max_model_len <=? sr_num_tokens r) || (sp_max_tokens p <=? sr_num_output_tokens r))%Z
  then Ok (true, set_status FINISHED_LENGTH_CAPPED r) else
  repeated ← (match sp_repetition_detection p with
              | Some params => check_sequence_repetition (sr_output_token_ids r) params
              | None => Ok false
              end);
  if (repeated : bool) then Ok (true, set_stop FINISHED_REPETITION (Some RepetitionDetected) r) else Ok (false, r).

(** ** Queues *)

(** [lst.remove(item)] when the item is there, the list itself otherwise. *)
Fixpoint remove_first (x : string) (l : list string) : list string :=
  match l with
  | [] => []
  | y :: l => if bool_decide (y = x) then l else y :: remove_first x l
  end.

Definition remove_all (l items_to_remove : list string) : list string :=
  match items_to_remove with
  | [] => l
  | [item] => remove_first item l
  | _ => List.filter (λ x, bool_decide (x ∉ items_to_remove)) l
  end.

(** [remove_requests] of a queue. *)
Definition remove_requests (l requests : list string) : list string := List.filter (λ x, bool_decide (x ∉ requests)) l.

(** ** The detection of repetitions is right *)

Lemma all_of_ok {A} (f : A → result bool) (g : A → bool) l :
  (∀ x, x ∈ l → f x = Ok (g x)) → all_of f l = Ok (forallb g l).
Proof.
  induction l as [|x l IH]; intros H; [done|]. cbn [all_of forallb]. rewrite H, result_bind_ok by (by left).
  destruct (g x); [|done]. apply IH. intros y Hy. apply H. by right.
Qed.

Lemma py_item_end {A} (l : list A) n x :
  (0 < n)%Z → reverse l !! Z.to_nat (n - 1) = Some x → py_item l (- n) = Ok x.
Proof.
  intros Hn Hx. pose proof (lookup_lt_Some _ _ _ Hx) as Hlt. rewrite length_reverse in Hlt. unfold py_item.
  destruct (Z.ltb_spec (- n) 0); [|lia]. destruct (Z.ltb_spec (Z.of_nat (length l) + - n) 0); [lia|].
  rewrite reverse_lookup in Hx by done. replace (Z.to_nat (Z.of_nat (length l) + - n)) with (length l - S (Z.to_nat (n - 1)))%nat by lia.
  by rewrite Hx.
Qed.

(** A pattern over and over. *)
Lemma lookup_repeated {A} (p : list A) c m j :
  (m < c)%nat → (j < length p)%nat → concat (replicate c p) !! (length p * m + j)%nat = p !! j.
Proof.
  revert m. induction c as [|c IH]; intros m Hm Hj; [lia|]. cbn [replicate concat]. destruct m as [|m].
  - rewrite Nat.mul_0_r. by rewrite lookup_app_l.
  - rewrite lookup_app_r by lia. replace (length p * S m + j - length p)%nat with (length p * m + j)%nat by lia. apply IH; lia.
Qed.

Lemma length_repeated {A} (p : list A) c : length (concat (replicate c p)) = (c * length p)%nat.
Proof. induction c as [|c IH]; [done|]. cbn [replicate concat]. rewrite length_app, IH. lia. Qed.

Lemma reverse_repeated {A} (p : list A) c : reverse (concat (replicate c p)) = concat (replicate c (reverse p)).
Proof.
  induction c as [|c IH]; [done|]. rewrite replicate_S_end at 1. rewrite concat_app. cbn [concat]. rewrite app_nil_r, reverse_app, IH.
  by cbn [replicate concat].
Qed.

(** A list ends with [c] times some block of [n] tokens. *)
Definition repeats (n c : nat) (l : list Z) : Prop :=
  ∃ front block, length block = n ∧ l = front ++ concat (replicate c block).

Lemma repeats_reverse n c l :
  repeats n (S c) l ↔ (n * S c ≤ length l)%nat ∧ take (n * S c) (reverse l) = concat (replicate (S c) (take n (reverse l))).
Proof.
  split.
  - intros (front & block & Hb & ->). rewrite length_app, length_repeated, Hb. split; [lia|].
    rewrite reverse_app, reverse_repeated. rewrite take_app_length' by (rewrite length_repeated, length_reverse, Hb; lia).
    do 2 f_equal. cbn [replicate concat]. rewrite <-app_assoc, take_app_length'; [done|by rewrite length_reverse].
  - intros [Hl H]. exists (reverse (drop (n * S c) (reverse l))), (reverse (take n (reverse l))).
    rewrite length_reverse, length_take, length_reverse. split; [lia|].
    rewrite <-reverse_repeated, <-H, <-reverse_app, take_drop. by rewrite reverse_involutive.
Qed.

(** The tokens at the end repeat when those [n] apart agree. *)
Lemma repeats_pointwise n c l :
  (n * S c ≤ length l)%nat →
  repeats n (S c) l ↔ ∀ m j, (m < S c)%nat → (j < n)%nat → reverse l !! (n * m + j)%nat = reverse l !! j.
Proof.
  intros Hl. rewrite repeats_reverse. assert (length (take n (reverse l)) = n) as Hn by (rewrite length_take, length_reverse; lia). split.
  - intros [_ H] m j Hm Hj. rewrite <-(lookup_take_lt _ (n * S c)) by nia. rewrite H.
    pose proof (lookup_repeated (take n (reverse l)) (S c) m j Hm) as L. rewrite Hn in L. rewrite L by done. by rewrite lookup_take_lt.
  - intros H. split; [done|]. apply list_eq_same_length with (n * S c)%nat;
      [rewrite length_repeated; lia|rewrite length_take, length_reverse; lia|].
    intros i x y Hi Hx Hy. assert (n ≠ 0)%nat as H0 by lia. pose proof (Nat.div_mod i n H0) as Hd. pose proof (Nat.mod_upper_bound i n H0) as Hm.
    assert (i / n < S c)%nat as Hq by (apply Nat.Div0.div_lt_upper_bound; lia).
    rewrite lookup_take_lt in Hx by lia. rewrite Hd in Hx. rewrite H in Hx by (try done; lia).
    pose proof (lookup_repeated (take n (reverse l)) (S c) (i / n) (i mod n)) as L. rewrite Hn, <-Hd in L.
    rewrite L, lookup_take_lt in Hy by lia. congruence.
Qed.

Lemma has_repeating_pattern_ok l n c :
  (0 < n)%nat → (0 < c)%nat → (n * c ≤ length l)%nat →
  ∃ b, _has_repeating_pattern l (Z.of_nat n) (Z.of_nat c) = Ok b ∧ (b = true ↔ repeats n c l).
Proof.
  intros Hn Hc Hl. destruct c as [|c]; [lia|]. set (at_end := λ i, default 0%Z (reverse l !! Z.to_nat (i - 1))).
  assert (∀ i, (0 < i ≤ Z.of_nat (n * S c))%Z → py_item l (- i) = Ok (at_end i)) as Hitem.
  { intros i Hi. apply py_item_end; [lia|]. unfold at_end. destruct (lookup_lt_is_Some_2 (reverse l) (Z.to_nat (i - 1))) as [x ->]; [|done].
    rewrite length_reverse. lia. }
  set (g := λ i, forallb (λ m, at_end (Z.of_nat n * m + i) =? at_end i)%Z (seqZ 1 (Z.of_nat (S c) - 1))).
  exists (forallb g (seqZ 1 (Z.of_nat n))). split.
  - unfold _has_repeating_pattern. apply all_of_ok. intros i Hi%elem_of_seqZ. rewrite Hitem, result_bind_ok by nia. apply all_of_ok.
    intros m Hm%elem_of_seqZ. by rewrite Hitem, result_bind_ok by nia.
  - rewrite repeats_pointwise by done. rewrite forallb_forall. split.
    + intros H m j Hm Hj. destruct m as [|m]; [by rewrite Nat.mul_0_r|].
      specialize (H (Z.of_nat j + 1)%Z). rewrite <-list_elem_of_In, elem_of_seqZ in H. specialize (H ltac:(lia)). unfold g in H.
      rewrite forallb_forall in H. specialize (H (Z.of_nat (S m))). rewrite <-list_elem_of_In, elem_of_seqZ in H. specialize (H ltac:(lia)).
      apply Z.eqb_eq in H. unfold at_end in H. replace (Z.to_nat (Z.of_nat j + 1 - 1)) with j in H by lia.
      replace (Z.to_nat (Z.of_nat n * Z.of_nat (S m) + (Z.of_nat j + 1) - 1)) with (n * S m + j)%nat in H by nia.
      destruct (lookup_lt_is_Some_2 (reverse l) j) as [x Ex]; [rewrite length_reverse; nia|].
      destruct (lookup_lt_is_Some_2 (reverse l) (n * S m + j)) as [y Ey]; [rewrite length_reverse; nia|].
      rewrite Ex, Ey in *. cbn in H. by subst.
    + intros H i. rewrite <-list_elem_of_In, elem_of_seqZ. intros Hi. apply forallb_forall. intros m. rewrite <-list_elem_of_In, elem_of_seqZ.
      intros Hm. apply Z.eqb_eq. unfold at_end. f_equal.
      replace (Z.to_nat (Z.of_nat n * m + i - 1)) with (n * Z.to_nat m + Z.to_nat (i - 1))%nat by nia. apply H; lia.
Qed.

Lemma find_repetition_ok l c len a :
  (0 < a)%Z → (0 < c)%nat →
  ∃ b, find_repetition l (Z.of_nat c) (seqZ a len) = Ok b ∧ (b = true ↔ ∃ n, (a ≤ n < a + len)%Z ∧ repeats (Z.to_nat n) c l).
Proof.
  intros Ha Hc. destruct (Z.le_gt_cases len 0) as [|Hpos].
  { exists false. rewrite seqZ_nil by done. split; [done|]. split; [done|]. intros (n & Hn & _). lia. }
  rewrite <-(Z2Nat.id len) by lia. generalize (Z.to_nat len) as k. clear Hpos len. intros k. revert a Ha.
  induction k as [|k IH]; intros a Ha.
  { exists false. split; [done|]. split; [done|]. intros (n & Hn & _). lia. }
  rewrite seqZ_cons by lia. cbn [find_repetition]. replace (Z.pred (Z.of_nat (S k))) with (Z.of_nat k) by lia.
  assert (∀ n, repeats n c l → (n * c ≤ length l)%nat) as Hfit by (intros n (f & p & <- & ->); rewrite length_app, length_repeated; lia).
  destruct (Z.ltb_spec (Z.of_nat (length l)) (a * Z.of_nat c)) as [Hlong|Hshort].
  { exists false. split; [done|]. split; [done|]. intros (n & Hn & Hr%Hfit). nia. }
  destruct (has_repeating_pattern_ok l (Z.to_nat a) c) as (b & E & Hb); [lia|lia|nia|]. rewrite Z2Nat.id in E by lia. rewrite E, result_bind_ok.
  destruct b.
  - exists true. split; [done|]. split; [|done]. intros _. exists a. split; [lia|]. by apply Hb.
  - destruct (IH (Z.succ a)) as (b & -> & Hb'); [lia|]. exists b. split; [done|]. rewrite Hb'. split.
    + intros (n & Hn & Hr). exists n. split; [lia|done].
    + intros (n & Hn & Hr). exists n. split; [|done]. destruct (decide (n = a)) as [->|]; [|lia]. by apply Hb in Hr.
Qed.

Lemma check_sequence_repetition_ok l p :
  ∃ b, check_sequence_repetition l p = Ok b
  ∧ (b = true ↔ (2 ≤ min_count p)%Z ∧ ∃ n, (Z.max 1 (min_pattern_size p) ≤ n ≤ max_pattern_size p)%Z ∧ repeats (Z.to_nat n) (Z.to_nat (min_count p)) l).
Proof.
  unfold check_sequence_repetition. set (lo := if (min_pattern_size p <=? 0)%Z then 1%Z else min_pattern_size p).
  assert (lo = Z.max 1 (min_pattern_size p)) as -> by (unfold lo; destruct (Z.leb_spec (min_pattern_size p) 0); lia).
  destruct (Z.leb_spec (max_pattern_size p) 0) as [|H1]; cbn [orb].
  { exists false. split; [done|]. split; [done|]. intros (_ & n & Hn & _). lia. }
  destruct (Z.ltb_spec (min_count p) 2) as [|H2]; cbn [orb].
  { exists false. split; [done|]. split; [done|]. intros (? & _). lia. }
  destruct (Z.ltb_spec (max_pattern_size p) (Z.max 1 (min_pattern_size p))) as [|H3].
  { exists false. split; [done|]. split; [done|]. intros (_ & n & Hn & _). lia. }
  destruct (find_repetition_ok l (Z.to_nat (min_count p)) (max_pattern_size p + 1 - Z.max 1 (min_pattern_size p)) (Z.max 1 (min_pattern_size p)))
    as (b & E & Hb); [lia|lia|]. rewrite Z2Nat.id in E by lia. exists b. split; [done|]. rewrite Hb. split.
  - intros (n & Hn & Hr). split; [lia|]. exists n. split; [lia|done].
  - intros (_ & n & Hn & Hr). exists n. split; [lia|done].
Qed.

(** ** When a request stops *)

(** The repetition the parameters of a request ask to detect. *)
Definition repetitive (p : SamplingParams) (l : list Z) : Prop :=
  ∃ params n, sp_repetition_detection p = Some params ∧ (2 ≤ min_count params)%Z
    ∧ (Z.max 1 (min_pattern_size params) ≤ n ≤ max_pattern_size params)%Z ∧ repeats (Z.to_nat n) (Z.to_nat (min_count params)) l.

(** The reason a request has to stop, in the order in which the code tries them. *)
Definition stop_spec (max_model_len : Z) (r : SchedRequest) (token : Z) (stopped : bool) (r' : SchedRequest) : Prop :=
  let p := sr_sampling_params r in
  if (sr_num_output_tokens r <? sp_min_tokens p)%Z then stopped = false ∧ r' = r
  else if decide (sp_eos_token_id p = Some token) then stopped = true ∧ r' = set_status FINISHED_STOPPED r
  else if decide (token ∈ sp_stop_token_ids p) then stopped = true ∧ r' = set_stop FINISHED_STOPPED (Some (StopToken token)) r
  else if decide (max_model_len ≤ sr_num_tokens r ∨ sp_max_tokens p ≤ sr_num_output_tokens r)%Z
    then stopped = true ∧ r' = set_status FINISHED_LENGTH_CAPPED r
  else (repetitive p (sr_output_token_ids r) ∧ stopped = true ∧ r' = set_stop FINISHED_REPETITION (Some RepetitionDetected) r)
    ∨ (¬ repetitive p (sr_output_token_ids r) ∧ stopped = false ∧ r' = r).

Lemma check_stop_ok max_model_len r token front :
  sr_output_token_ids r = front ++ [token] →
  ∃ stopped r', check_stop max_model_len r = Ok (stopped, r') ∧ stop_spec max_model_len r token stopped r'.
Proof.
  intros Hout. unfold check_stop, stop_spec. destruct (sr_num_output_tokens r <? sp_min_tokens (sr_sampling_params r))%Z; [by eauto|].
  rewrite (py_item_end _ 1 token), result_bind_ok by (try lia; rewrite Hout, reverse_snoc; done).
  destruct (decide (sp_eos_token_id (sr_sampling_params r) = Some token)) as [E|E].
  { rewrite bool_decide_eq_true_2 by done. by eauto. }
  rewrite bool_decide_eq_false_2 by (intros E'; by apply E). rewrite bool_decide_decide.
  destruct (decide (token ∈ sp_stop_token_ids (sr_sampling_params r))); [by eauto|].
  destruct (decide (max_model_len ≤ sr_num_tokens r ∨ sp_max_tokens (sr_sampling_params r) ≤ sr_num_output_tokens r)%Z) as [Hcap|Hcap].
  { assert ((max_model_len <=? sr_num_tokens r) || (sp_max_tokens (sr_sampling_params r) <=? sr_num_output_tokens r) = true)%Z as ->
      by (rewrite orb_true_iff, !Z.leb_le; exact Hcap). by eauto. }
  assert ((max_model_len <=? sr_num_tokens r) || (sp_max_tokens (sr_sampling_params r) <=? sr_num_output_tokens r) = false)%Z as ->
    by (rewrite orb_false_iff, !Z.leb_gt; lia).
  unfold repetitive. destruct (sp_repetition_detection (sr_sampling_params r)) as [params|].
  2: { exists false, r. split; [done|]. right. split; [|done]. by intros (? & ? & ? & _). }
  destruct (check_sequence_repetition_ok (sr_output_token_ids r) params) as (b & -> & Hb). rewrite result_bind_ok. destruct b.
  - eexists _, _. split; [done|]. left. split; [|done]. destruct (proj1 Hb) as (H1 & k & H2 & H3); [done|]. by exists params, k.
  - exists false, r. split; [done|]. right. split; [|done]. intros (params' & k & [= <-] & H1 & H2 & H3).
    discriminate (proj2 Hb (conj H1 (ex_intro _ k (conj H2 H3)))).
Qed.
