(* ===== verification/Scheduler.v ===== *)
(** * The scheduler

    [v1/core/sched/scheduler.py] and [async_scheduler.py], under the policy
    first-come-first-served and the V2 model runner: which requests a step runs and
    with how many tokens, who is preempted when the blocks run out, what is sent to the
    worker, and what its output does to the requests.  The manager of the cache is that
    of [KVManager].  A [Request] object is the entry of [requests] under its identifier, and
    the queues hold identifiers: two live requests never share one.  Left out are what a
    request of [SchedRequest] never takes: the queue of skipped requests, connectors,
    encoder inputs, draft tokens, LoRA, streaming sessions, and the statistics. *)

From Stdlib Require Import ZArith Lia.
From stdpp Require Import base tactics numbers list option gmap strings.
From S2P Require Import Prelude FreeQueue BlockPool PoolState KVManager SchedRequest.
From S2P Require Import Torch Quant Tab Triton Stores StagedTensor InputBatch BlockTables RequestStates Lifecycle RunnerV2.

Inductive PauseState := UNPAUSED | PAUSED_NEW | PAUSED_ALL.

(** ** Configuration and state *)

Record SchedConfig := mkSchedConfig {
  sg_max_num_running_reqs : Z;
  sg_max_num_scheduled_tokens : Z;
  sg_long_prefill_token_threshold : Z;
  sg_enable_chunked_prefill : bool;
  sg_reserve_full_isl : bool;
  sg_async_scheduling : bool;              (* the class is AsyncScheduler *)
  sg_pp_size : Z;
  sg_kv : KVConfig
}.

Record Scheduler := mkScheduler {
  sc_requests : gmap string SchedRequest;
  sc_waiting : list string;
  sc_running : list string;
  sc_finished_req_ids : list string;
  sc_preempted_req_ids : list string;
  sc_current_step : Z;
  sc_prefill_capacity_bound : bool;
  sc_pause_state : PauseState;
  sc_manager : Manager
}.

(** What [EngineCore] sends to the front end for a request. *)
Record EngineCoreOutput := mkEngineOutput {
  eo_request_id : string;
  eo_new_token_ids : list Z;
  eo_finish_reason : option FinishReason;
  eo_stop_reason : option StopReason
}.

(** What the worker returns; [req_id_to_index] is the enumeration of [req_ids]. *)
Record ModelRunnerOutput := mkRunnerOutput {
  mr_req_ids : list string;
  mr_sampled_token_ids : list (list Z)
}.

(** The variables of a run of [schedule]. *)
Record Pass := mkPass {
  ps_new_reqs : list string;
  ps_resumed_reqs : list string;
  ps_running_reqs : list string;
  ps_preempted_reqs : list string;
  ps_new_blocks : gmap string KVCacheBlocks;
  ps_num_scheduled_tokens : list (string * Z);
  ps_token_budget : Z
}.

(** [d[key] = value] of a dictionary, the list of its items. *)
Fixpoint dict_set {A} (key : string) (value : A) (d : list (string * A)) : list (string * A) :=
  match d with
  | [] => [(key, value)]
  | (k, v) :: d => if bool_decide (k = key) then (k, value) :: d else (k, v) :: dict_set key value d
  end.

(** [s.add(x)] of a set, the list of its elements. *)
Definition set_add (x : string) (s : list string) : list string := if bool_decide (x ∈ s) then s else s ++ [x].

(** [[f(x) for x in l]] in the state monad. *)
Fixpoint st_map {S A B} (f : A → ST S B) (l : list A) : ST S (list B) :=
  match l with
  | [] => mret []
  | x :: l => y ← f x; ys ← st_map f l; mret (y :: ys)
  end.

(** ** Access *)

Definition on_manager {A} (m : ST Manager A) : ST Scheduler A := λ s,
  let '(r, k) := m (sc_manager s) in
  (r, mkScheduler (sc_requests s) (sc_waiting s) (sc_running s) (sc_finished_req_ids s) (sc_preempted_req_ids s) (sc_current_step s)
        (sc_prefill_capacity_bound s) (sc_pause_state s) k).

Definition set_requests (f : gmap string SchedRequest → gmap string SchedRequest) : ST Scheduler unit :=
  st_modify (λ s, mkScheduler (f (sc_requests s)) (sc_waiting s) (sc_running s) (sc_finished_req_ids s) (sc_preempted_req_ids s) (sc_current_step s)
    (sc_prefill_capacity_bound s) (sc_pause_state s) (sc_manager s)).

Definition set_queues (waiting running : list string → list string) : ST Scheduler unit :=
  st_modify (λ s, mkScheduler (sc_requests s) (waiting (sc_waiting s)) (running (sc_running s)) (sc_finished_req_ids s) (sc_preempted_req_ids s)
    (sc_current_step s) (sc_prefill_capacity_bound s) (sc_pause_state s) (sc_manager s)).

Definition set_gone (finished preempted : list string → list string) : ST Scheduler unit :=
  st_modify (λ s, mkScheduler (sc_requests s) (sc_waiting s) (sc_running s) (finished (sc_finished_req_ids s)) (preempted (sc_preempted_req_ids s))
    (sc_current_step s) (sc_prefill_capacity_bound s) (sc_pause_state s) (sc_manager s)).

Definition set_clock (step : Z → Z) (bound : bool → bool) : ST Scheduler unit :=
  st_modify (λ s, mkScheduler (sc_requests s) (sc_waiting s) (sc_running s) (sc_finished_req_ids s) (sc_preempted_req_ids s)
    (step (sc_current_step s)) (bound (sc_prefill_capacity_bound s)) (sc_pause_state s) (sc_manager s)).

Definition set_pause_state (pause : PauseState) : ST Scheduler unit :=
  st_modify (λ s, mkScheduler (sc_requests s) (sc_waiting s) (sc_running s) (sc_finished_req_ids s) (sc_preempted_req_ids s)
    (sc_current_step s) (sc_prefill_capacity_bound s) pause (sc_manager s)).

Definition get_request (id : string) : ST Scheduler SchedRequest :=
  s ← st_get;
  st_lift (match sc_requests s !! id with Some r => Ok r | None => Err KeyError end).

(** A change of the object of a request. *)
Definition put_request (r : SchedRequest) : ST Scheduler unit := set_requests (<[sr_request_id r := r]>).

(** [KVCacheManager.cache_blocks] *)
Definition cache_blocks_if_enabled (cfg : KVConfig) (request : Request) (tokens : Z) : ST Manager unit :=
  s ← st_get;
  if enable_caching (mg_pool s) then cache_blocks cfg request tokens else mret tt.

(** [KVCacheBlocks.get_block_ids]: of the blocks of the one group. *)
Definition block_ids_of (b : KVCacheBlocks) : ST Scheduler (list Z) := on_manager (ids_of (kv_blocks b)).
Definition block_ids_or_none (b : KVCacheBlocks) : ST Scheduler (option (list Z)) :=
  match kv_blocks b with
  | [] => mret None
  | _ => ids ← block_ids_of b; mret (Some ids)
  end.

Section Scheduler.
Variable cfg : SchedConfig.
(** The order in which a set of strings is visited. *)
Variable visit : list string → list string.

Abbreviation kv := (sg_kv cfg).

(** ** Releasing requests *)

(** Without a connector no block is kept for a step in flight ([defer_block_free]). *)
Definition _free_request_blocks (r : SchedRequest) : ST Scheduler unit := on_manager (free (kv_request r)).

Definition _free_blocks (r : SchedRequest) : ST Scheduler unit :=
  st_raise_if (negb (is_finished (sr_status r))) AssertionError;;
  _free_request_blocks r;;
  set_requests (delete (sr_request_id r)).

Definition _free_request (r : SchedRequest) : ST Scheduler unit :=
  st_raise_if (negb (is_finished (sr_status r))) AssertionError;;
  set_gone (set_add (sr_request_id r)) (λ l, l);;
  _free_blocks r.

(** What a preemption does to the object of the request. *)
Definition preempted (r : SchedRequest) : SchedRequest :=
  mkSched (sr_request_id r) (sr_prompt_token_ids r) (sr_output_token_ids r) (sr_sampling_params r) PREEMPTED (sr_stop_reason r)
    0 (sr_num_output_placeholders r) (sr_async_tokens_to_discard r) (sr_is_prefill_chunk r) (sr_next_decode_eligible_step r)
    (sr_num_preemptions r + 1).

Definition _preempt_request (id : string) : ST Scheduler unit :=
  r ← get_request id;
  st_raise_if (negb (bool_decide (sr_status r = RUNNING))) AssertionError;;
  _free_request_blocks r;;
  put_request (preempted r);;
  set_queues (cons id) (λ l, l);;
  set_gone (λ l, l) (set_add id).

(** ** The running requests *)

(** The request has all its tokens already, may not run yet, or its prefill waits. *)
Definition passes_over (step : Z) (defer_prefills : bool) (r : SchedRequest) : bool :=
  (0 <? sr_num_output_placeholders r)%Z
    && (sr_num_prompt_tokens r + sp_max_tokens (sr_sampling_params r) <=? sr_num_computed_tokens r + 2 - sr_num_output_placeholders r)%Z
  || (step <? sr_next_decode_eligible_step r)%Z
  || defer_prefills && sr_is_prefill_chunk r.

(** A long prefill runs in chunks. *)
Definition cap_prefill (num_new_tokens : Z) : Z :=
  let threshold := sg_long_prefill_token_threshold cfg in
  if ((0 <? threshold) && (threshold <? num_new_tokens))%Z then threshold else num_new_tokens.

Definition running_tokens (token_budget : Z) (r : SchedRequest) : Z :=
  let num_new_tokens := cap_prefill (sr_num_tokens r + sr_num_output_placeholders r - sr_num_computed_tokens r) in
  Z.min (Z.min num_new_tokens token_budget) (max_model_len kv - sr_num_computed_tokens r - 1).

(** [self.running.pop()] *)
Definition pop_running : ST Scheduler string :=
  s ← st_get;
  match last (sc_running s) with
  | None => st_lift (Err IndexError)
  | Some id => set_queues (λ l, l) (λ l, take (length l - 1) l);; mret id
  end.

(** [while True]: slots for a running request, for which the last ones are preempted;
    the fuel is one more than the number of running requests. *)
Fixpoint allocate_running (fuel : nat) (id : string) (num_new_tokens : Z) (preempted_reqs : list string) :
    ST Scheduler (option KVCacheBlocks * list string) :=
  match fuel with
  | O => st_lift (Err IndexError)
  | S fuel =>
      request ← get_request id;
      new_blocks ← on_manager (allocate_slots kv (kv_request request) num_new_tokens default_args);
      match new_blocks with
      | Some blocks => mret (Some blocks, preempted_reqs)
      | None =>
          preempted_req ← pop_running;
          _preempt_request preempted_req;;
          let preempted_reqs := preempted_reqs ++ [preempted_req] in
          if bool_decide (preempted_req = id) then mret (None, preempted_reqs)
          else allocate_running fuel id num_new_tokens preempted_reqs
      end
  end.

Definition run_scheduled (id : string) (num_new_tokens : Z) (blocks : KVCacheBlocks) (preempted_reqs : list string) (p : Pass) : Pass :=
  mkPass (ps_new_reqs p) (ps_resumed_reqs p) (ps_running_reqs p ++ [id]) preempted_reqs (<[id := blocks]> (ps_new_blocks p))
    (dict_set id num_new_tokens (ps_num_scheduled_tokens p)) (ps_token_budget p - num_new_tokens).

Definition pass_preempted (preempted_reqs : list string) (p : Pass) : Pass :=
  mkPass (ps_new_reqs p) (ps_resumed_reqs p) (ps_running_reqs p) preempted_reqs (ps_new_blocks p) (ps_num_scheduled_tokens p) (ps_token_budget p).

(** The loop over the running requests; the fuel is their number. *)
Fixpoint schedule_running (fuel : nat) (defer_prefills : bool) (req_index : nat) (p : Pass) : ST Scheduler Pass :=
  match fuel with
  | O => mret p
  | S fuel =>
      s ← st_get;
      match sc_running s !! req_index with
      | None => mret p
      | Some id =>
          if (ps_token_budget p <=? 0)%Z then mret p else
          request ← get_request id;
          if passes_over (sc_current_step s) defer_prefills request then schedule_running fuel defer_prefills (S req_index) p else
          let num_new_tokens := running_tokens (ps_token_budget p) request in
          if (num_new_tokens =? 0)%Z then schedule_running fuel defer_prefills (S req_index) p else
          '(new_blocks, preempted_reqs) ← allocate_running (S (length (sc_running s))) id num_new_tokens (ps_preempted_reqs p);
          match new_blocks with
          | None => mret (pass_preempted preempted_reqs p)
          | Some blocks => schedule_running fuel defer_prefills (S req_index) (run_scheduled id num_new_tokens blocks preempted_reqs p)
          end
      end
  end.

(** ** The waiting requests *)

(** The tokens of a waiting request; [None] breaks the loop. *)
Definition waiting_tokens (token_budget : Z) (r : SchedRequest) (num_computed_tokens : Z) : option Z :=
  let num_new_tokens := cap_prefill (sr_num_tokens r - num_computed_tokens) in
  if negb (sg_enable_chunked_prefill cfg) && (token_budget <? num_new_tokens)%Z then None else Some (Z.min num_new_tokens token_budget).

(** Cached tokens of a waiting request. *)
Definition computed_blocks_of (r : SchedRequest) : ST Scheduler (KVCacheBlocks * Z * Z) :=
  if (sr_num_computed_tokens r =? 0)%Z then
    '(new_computed_blocks, num_new_local_computed_tokens) ← on_manager (get_computed_blocks kv (kv_request r));
    st_raise_if (sr_num_tokens r <? num_new_local_computed_tokens)%Z AssertionError;;
    mret (new_computed_blocks, num_new_local_computed_tokens, num_new_local_computed_tokens)
  else mret (empty_kv_cache_blocks, 0%Z, sr_num_computed_tokens r).

Definition admit_request (r : SchedRequest) (num_computed_tokens num_new_tokens : Z) (p : Pass) : ST Scheduler Pass :=
  let id := sr_request_id r in
  set_queues (λ l, drop 1 l) (λ l, l ++ [id]);;
  '(news, resumed) ← st_lift (match sr_status r with
                              | WAITING => Ok (ps_new_reqs p ++ [id], ps_resumed_reqs p)
                              | PREEMPTED => Ok (ps_new_reqs p, ps_resumed_reqs p ++ [id])
                              | _ => Err RuntimeError
                              end);
  blocks ← on_manager (get_blocks id);
  put_request (set_progress num_computed_tokens (sr_num_output_placeholders r) (sr_is_prefill_chunk r) (sr_next_decode_eligible_step r)
                 (set_status RUNNING r));;
  mret (mkPass news resumed (ps_running_reqs p) (ps_preempted_reqs p) (<[id := blocks]> (ps_new_blocks p))
          (dict_set id num_new_tokens (ps_num_scheduled_tokens p)) (ps_token_budget p - num_new_tokens)).

(** The loop over the waiting requests; the fuel is their number. *)
Fixpoint schedule_waiting (fuel : nat) (defer_prefills : bool) (p : Pass) : ST Scheduler Pass :=
  match fuel with
  | O => mret p
  | S fuel =>
      s ← st_get;
      match sc_waiting s with
      | [] => mret p
      | id :: _ =>
          if (ps_token_budget p <=? 0)%Z then mret p else
          if (sg_max_num_running_reqs cfg <=? Z.of_nat (length (sc_running s)))%Z then mret p else
          request ← get_request id;
          '(new_computed_blocks, num_new_local_computed_tokens, num_computed_tokens) ← computed_blocks_of request;
          if defer_prefills && (num_computed_tokens <? sr_num_tokens request - 1)%Z then mret p else
          match waiting_tokens (ps_token_budget p) request num_computed_tokens with
          | None => mret p
          | Some num_new_tokens =>
              st_raise_if (num_new_tokens <=? 0)%Z AssertionError;;
              new_blocks ← on_manager (allocate_slots kv (kv_request request) num_new_tokens
                (mkSlotArgs num_new_local_computed_tokens (Some new_computed_blocks) 0 0 false (sg_reserve_full_isl cfg) 0
                   (negb (length (sc_running s) =? 0)%nat)));
              match new_blocks with
              | None => mret p
              | Some _ =>
                  p ← admit_request request num_computed_tokens num_new_tokens p;
                  schedule_waiting fuel defer_prefills p
              end
          end
      end
  end.

(** ** A step *)

(** Whether some running request decodes while prefills are throttled. *)
Definition defers_prefills (throttle_prefills : bool) (s : Scheduler) : bool :=
  throttle_prefills && negb (sc_prefill_capacity_bound s)
  && existsb (λ id, match sc_requests s !! id with Some r => negb (sr_is_prefill_chunk r) | None => false end) (sc_running s).

Definition fresh_pass (s : Scheduler) : Pass :=
  mkPass [] [] [] [] ∅ [] (match sc_pause_state s with PAUSED_ALL => 0 | _ => sg_max_num_scheduled_tokens cfg end).

Definition schedule_requests (throttle_prefills : bool) : ST Scheduler Pass :=
  s ← st_get;
  let defer_prefills := defers_prefills throttle_prefills s in
  p ← schedule_running (length (sc_running s)) defer_prefills 0 (fresh_pass s);
  match ps_preempted_reqs p, sc_pause_state s with
  | [], UNPAUSED =>
      s ← st_get;
      p ← schedule_waiting (length (sc_waiting s)) defer_prefills p;
      s ← st_get;
      (if defer_prefills then mret tt else set_clock (λ n, n) (λ _, negb (length (sc_waiting s) =? 0)%nat));;
      mret p
  | _, _ => mret p
  end.

Definition total_scheduled (p : Pass) : Z := foldr Z.add 0%Z (map snd (ps_num_scheduled_tokens p)).

(** The assertions on the outcome. *)
Definition check_pass (p : Pass) : ST Scheduler unit :=
  s ← st_get;
  st_raise_if (sg_max_num_scheduled_tokens cfg <? total_scheduled p)%Z AssertionError;;
  st_raise_if (ps_token_budget p <? 0)%Z AssertionError;;
  st_raise_if (sg_max_num_running_reqs cfg <? Z.of_nat (length (sc_running s)))%Z AssertionError;;
  st_raise_if (length (sc_running s) <? length (ps_new_reqs p) + length (ps_resumed_reqs p) + length (ps_running_reqs p))%nat AssertionError.

Definition common_prefix_of_running : ST Scheduler unit :=
  s ← st_get;
  match sc_running s with
  | [] => mret tt
  | id :: _ => _ ← on_manager (get_num_common_prefix_blocks id); mret tt
  end.

(** [req_to_new_blocks[req_id]] *)
Definition new_blocks_of (p : Pass) (id : string) : ST Scheduler KVCacheBlocks :=
  st_lift (match ps_new_blocks p !! id with Some b => Ok b | None => Err KeyError end).

(** [NewRequestData.from_request] *)
Definition new_request_data (p : Pass) (id : string) : ST Scheduler NewRequestData :=
  r ← get_request id;
  blocks ← new_blocks_of p id;
  block_ids ← block_ids_of blocks;
  mret (mkNew (sr_request_id r) (Some (sr_prompt_token_ids r)) (Some (sr_all_token_ids r)) block_ids (sr_num_computed_tokens r)
          (Some (sp_max_tokens (sr_sampling_params r)))).

(** An entry of [_make_cached_request_data]. *)
Definition cached_request_data (p : Pass) (id : string) : ST Scheduler (string * option (list Z) * Z) :=
  r ← get_request id;
  blocks ← new_blocks_of p id;
  block_ids ← block_ids_or_none blocks;
  mret (sr_request_id r, block_ids, sr_num_computed_tokens r).

Definition _make_cached_request_data (p : Pass) (running_reqs : list string) : ST Scheduler CachedRequestData :=
  l ← st_map (cached_request_data p) running_reqs;
  mret (mkCached (map (λ x, x.1.1) l) (map snd l) (map (λ x, x.1.2) l)).

(** A resumed request is sent like a new one. *)
Definition make_output (p : Pass) : ST Scheduler SchedulerOutput :=
  new_reqs_data ← st_map (new_request_data p) (ps_new_reqs p ++ ps_resumed_reqs p);
  cached_reqs_data ← _make_cached_request_data p (ps_running_reqs p);
  s ← st_get;
  mret (mkOutput new_reqs_data cached_reqs_data (ps_num_scheduled_tokens p) (total_scheduled p) (visit (sc_finished_req_ids s))
          (Some (visit (sc_preempted_req_ids s)))).

(** [Scheduler._update_after_schedule] *)
Definition advance_request (it : string * Z) : ST Scheduler unit :=
  r ← get_request it.1;
  let computed := (sr_num_computed_tokens r + it.2)%Z in
  put_request (set_progress computed (sr_num_output_placeholders r)
    (computed <? sr_num_tokens r + sr_num_output_placeholders r)%Z (sr_next_decode_eligible_step r) r).

(** [AsyncScheduler._update_after_schedule]: a placeholder for the token to come. *)
Definition hold_place (it : string * Z) : ST Scheduler unit :=
  r ← get_request it.1;
  s ← st_get;
  if sr_is_prefill_chunk r then mret tt
  else put_request (set_progress (sr_num_computed_tokens r) (sr_num_output_placeholders r + 1) (sr_is_prefill_chunk r)
                      (sc_current_step s + sg_pp_size cfg) r).

Definition _update_after_schedule (so : SchedulerOutput) : ST Scheduler unit :=
  st_for (so_num_scheduled_tokens so) advance_request;;
  set_gone (λ _, []) (λ _, []);;
  if sg_async_scheduling cfg then st_for (so_num_scheduled_tokens so) hold_place else mret tt.

Definition schedule (throttle_prefills : bool) : ST Scheduler SchedulerOutput :=
  set_clock (λ n, n + 1)%Z (λ b, b);;
  p ← schedule_requests throttle_prefills;
  check_pass p;;
  common_prefix_of_running;;
  so ← make_output p;
  _update_after_schedule so;;
  mret so.

(** ** The output of the worker *)

(** Appending the new tokens until one stops the request, with the tokens kept. *)
Fixpoint append_until_stop (tokens : list Z) (r : SchedRequest) : result (list Z * bool * SchedRequest) :=
  match tokens with
  | [] => Ok ([], false, r)
  | token :: tokens =>
      '(stopped, r) ← check_stop (max_model_len kv) (append_output_token_ids token r);
      if (stopped : bool) then Ok ([token], true, r)
      else '(kept, stopped, r) ← append_until_stop tokens r; Ok (token :: kept, stopped, r)
  end.

(** [_update_request_with_output], of the class that is used. *)
Definition _update_request_with_output (r : SchedRequest) (new_token_ids : list Z) : ST Scheduler (list Z * bool) :=
  if sg_async_scheduling cfg && (0 <? sr_async_tokens_to_discard r)%Z then
    put_request (set_async (sr_num_output_placeholders r) (sr_async_tokens_to_discard r - 1) r);; mret ([], false)
  else
    '(kept, stopped, r') ← st_lift (append_until_stop new_token_ids r);
    if sg_async_scheduling cfg then
      let placeholders := (sr_num_output_placeholders r' - Z.of_nat (length kept))%Z in
      let r' := set_async placeholders (sr_async_tokens_to_discard r') r' in
      put_request r';;
      st_raise_if (placeholders <? 0)%Z AssertionError;;
      (if bool_decide (sr_status r = RUNNING)
       then on_manager (cache_blocks_if_enabled kv (kv_request r') (sr_num_computed_tokens r' - placeholders)) else mret tt);;
      mret (kept, stopped)
    else put_request r';; mret (kept, stopped).

(** What the worker generated for a request. *)
Definition generated_tokens (mro : ModelRunnerOutput) (id : string) : ST Scheduler (list Z) :=
  match list_find (eq id) (mr_req_ids mro) with
  | None => st_lift (Err KeyError)
  | Some (req_index, _) =>
      match mr_sampled_token_ids mro with
      | [] => mret []
      | _ => st_lift (match mr_sampled_token_ids mro !! req_index with Some l => Ok l | None => Err IndexError end)
      end
  end.

(** The outputs so far, with the requests that stopped while running and while
    preempted. *)
Definition Outcome : Type := list EngineCoreOutput * list string * list string.

(** A round of the loop of [update_from_output]. *)
Definition update_request_from_output (mro : ModelRunnerOutput) (it : string * Z) (acc : Outcome) : ST Scheduler Outcome :=
  let '(outputs, stopped_running_reqs, stopped_preempted_reqs) := acc in
  st_raise_if (it.2 <=? 0)%Z AssertionError;;
  s ← st_get;
  match sc_requests s !! it.1 with
  | None => mret acc
  | Some request =>
      if is_finished (sr_status request) then mret acc else
      generated_token_ids ← generated_tokens mro it.1;
      '(new_token_ids, stopped) ← (match generated_token_ids with
                                   | [] => mret ([], false)
                                   | _ => _update_request_with_output request generated_token_ids
                                   end);
      r ← get_request it.1;
      (if (stopped : bool) then _free_request r else mret tt);;
      let outputs' := match new_token_ids, stopped with
        | [], false => outputs
        | _, _ => outputs ++ [mkEngineOutput it.1 new_token_ids (if (stopped : bool) then get_finished_reason (sr_status r) else None) (sr_stop_reason r)]
        end in
      mret (if (stopped : bool)
            then if bool_decide (sr_status request = RUNNING) then (outputs', set_add it.1 stopped_running_reqs, stopped_preempted_reqs)
                 else (outputs', stopped_running_reqs, set_add it.1 stopped_preempted_reqs)
            else (outputs', stopped_running_reqs, stopped_preempted_reqs))
  end.

Fixpoint update_requests_from_output (mro : ModelRunnerOutput) (items : list (string * Z)) (acc : Outcome) : ST Scheduler Outcome :=
  match items with
  | [] => mret acc
  | it :: items => acc ← update_request_from_output mro it acc; update_requests_from_output mro items acc
  end.

Definition update_from_output (so : SchedulerOutput) (mro : ModelRunnerOutput) : ST Scheduler (list EngineCoreOutput) :=
  '(outputs, stopped_running_reqs, stopped_preempted_reqs) ← update_requests_from_output mro (so_num_scheduled_tokens so) ([], [], []);
  set_queues (λ l, remove_requests l stopped_preempted_reqs) (λ l, remove_all l stopped_running_reqs);;
  mret outputs.

(** ** Requests from outside *)

(** [add_request]: without streaming sessions a live identifier may not come again. *)
Definition add_request (r : SchedRequest) : ST Scheduler unit :=
  s ← st_get;
  st_raise_if (bool_decide (is_Some (sc_requests s !! sr_request_id r))) AssertionError;;
  set_queues (λ l, l ++ [sr_request_id r]) (λ l, l);;
  put_request r.

(** The requests that are live, in the order the set is visited. *)
Definition valid_requests (ids : list string) (s : Scheduler) : list SchedRequest :=
  omap (λ id, match sc_requests s !! id with Some r => if is_finished (sr_status r) then None else Some r | None => None end) ids.

Definition is_running (r : SchedRequest) : bool := bool_decide (sr_status r = RUNNING).

(** [finish_requests]: [None] stands for all requests. *)
Definition finish_requests (request_ids : option (list string)) (finished_status : RequestStatus) : ST Scheduler (list string) :=
  st_raise_if (negb (is_finished finished_status)) AssertionError;;
  s ← st_get;
  let ids := match request_ids with Some ids => visit (remove_dups ids) | None => visit (map fst (map_to_list (sc_requests s))) end in
  let valid := valid_requests ids s in
  set_queues (λ l, remove_requests l (map sr_request_id (List.filter (λ r, negb (is_running r)) valid)))
    (λ l, remove_all l (map sr_request_id (List.filter is_running valid)));;
  st_for valid (λ r, put_request (set_status finished_status r);; _free_request (set_status finished_status r));;
  mret (map sr_request_id valid).

(** ** Counts *)

Definition get_num_unfinished_requests (s : Scheduler) : Z :=
  match sc_pause_state s with
  | PAUSED_ALL => 0
  | PAUSED_NEW => Z.of_nat (length (sc_running s))
  | UNPAUSED => Z.of_nat (length (sc_waiting s)) + Z.of_nat (length (sc_running s))
  end.

Definition has_requests (s : Scheduler) : bool :=
  (0 <? get_num_unfinished_requests s)%Z || negb (length (sc_finished_req_ids s) =? 0)%nat.
End Scheduler.

(** [Scheduler.__init__] over the manager of the cache. *)
Definition scheduler_init (k : Manager) : Scheduler := mkScheduler ∅ [] [] [] [] 0 false UNPAUSED k.
