(* ===== verification/SchedCalls.v ===== *)
(** * The calls the scheduler makes of its manager

    The state of the manager between two steps comes from the last step by a list of
    calls ([ManagedEngine.sched_calls]): [called] keeps them while the scheduler makes them,
    with the slots granted so far and the requests that were freed. *)

From Stdlib Require Import ZArith Lia.
From stdpp Require Import gmap strings pretty base tactics numbers list option.
From S2P Require Import Prelude FreeQueue BlockPool PoolState KVManager KVTables ManagedEngine.

Lemma sched_calls_app cfg c1 c2 k granted :
  sched_calls cfg (c1 ++ c2) k granted = sched_calls cfg c2 (sched_calls cfg c1 k granted).1 (sched_calls cfg c1 k granted).2.
Proof.
  revert k granted. induction c1 as [|c c1 IH]; intros k granted; [done|]. cbn [app sched_calls]. destruct c as [request m a|request]; [|apply IH].
  destruct (allocate_slots cfg request m a k) as [[[b|]|e] k']; apply IH.
Qed.

Section Calls.
Variables (cfg : KVConfig) (n : nat).
Hypotheses (Hwm : (0 ≤ watermark_blocks cfg)%Z) (Hbs : (0 < kv_block_size cfg)%Z).

(** The manager [k], reached from [k0] by calls that free requests of [gone] only. *)
Definition called (k0 : Manager) (gone : list string) (k : Manager) (granted : gmap string Z) : Prop :=
  ∃ calls, Forall call_valid calls ∧ sched_calls cfg calls k0 ∅ = (k, granted) ∧ ∀ id, freed calls id → id ∈ gone.

(** Tables of the length of the model, for requests of [run] only. *)
Definition tables_within (run : list string) (k : Manager) : Prop :=
  kv_ok n k ∧ ∀ id, (Z.of_nat (length (table_of k id)) ≤ Z.max 0 (cdiv (max_model_len cfg) (kv_block_size cfg)))%Z ∧ (id ∉ run → table_of k id = []).

Lemma called_start k : called k [] k ∅.
Proof. exists []. split; [done|]. split; [done|]. by intros id ?%Exists_nil. Qed.

Lemma called_mono k0 gone gone' k granted : (∀ id, id ∈ gone → id ∈ gone') → called k0 gone k granted → called k0 gone' k granted.
Proof. intros H (calls & H1 & H2 & H3). exists calls. split; [done|]. split; [done|]. intros id Hid. by apply H, H3. Qed.

Lemma called_slots k0 gone k granted request m a b k' :
  called k0 gone k granted → m ≠ 0%Z → no_hits a → (0 ≤ reserved_blocks a)%Z → allocate_slots cfg request m a k = (Ok (Some b), k') →
  called k0 gone k' (<[request_id request := slot_tokens cfg request m a]> granted).
Proof.
  intros (calls & H1 & H2 & H3) Hm Ha Hr E. exists (calls ++ [CallSlots request m a]). split; [|split].
  - apply Forall_app. split; [done|]. by constructor.
  - rewrite sched_calls_app, H2. cbn [fst snd sched_calls]. by rewrite E.
  - intros id [Hid|[[]|?%Exists_nil]%Exists_cons]%Exists_app; [by apply H3|done].
Qed.

Lemma called_free k0 gone k granted request :
  called k0 gone k granted → called k0 (request_id request :: gone) (free request k).2 (delete (request_id request) granted).
Proof.
  intros (calls & H1 & H2 & H3). exists (calls ++ [CallFree request]). split; [|split].
  - apply Forall_app. split; [done|]. by constructor.
  - by rewrite sched_calls_app, H2.
  - intros id [Hid|[<-|?%Exists_nil]%Exists_cons]%Exists_app; [right; by apply H3|by left|done].
Qed.

Lemma cdiv_mono a b c : (0 < c)%Z → (a ≤ b)%Z → (cdiv a c ≤ cdiv b c)%Z.
Proof.
  intros Hc Hab. unfold cdiv. pose proof (Z.div_mod a (- c)). pose proof (Z.mod_neg_bound a (- c)).
  pose proof (Z.div_mod b (- c)). pose proof (Z.mod_neg_bound b (- c)). nia.
Qed.

(** Slots: refused with nothing changed, or granted behind the table. *)
Lemma slots_within k0 gone run k granted request m a :
  tables_within run k → called k0 gone k granted → m ≠ 0%Z → no_hits a → reserved_blocks a = 0%Z →
  allocate_slots cfg request m a k = (Ok None, k)
  ∨ ∃ bs k', allocate_slots cfg request m a k = (Ok (Some (create_kv_cache_blocks bs)), k')
    ∧ (∀ run', (∀ id, id ∈ run → id ∈ run') → request_id request ∈ run' → tables_within run' k')
    ∧ called k0 gone k' (<[request_id request := slot_tokens cfg request m a]> granted)
    ∧ table_of k' (request_id request) = table_of k (request_id request) ++ bs
    ∧ (∀ id, id ≠ request_id request → table_of k' id = table_of k id)
    ∧ (cdiv (slot_tokens cfg request m a) (kv_block_size cfg) ≤ Z.of_nat (length (table_of k' (request_id request))))%Z.
Proof.
  intros [Hok Ht] Hc Hm Ha Hr. pose proof (allocate_slots_ok cfg n k request m a Hok Hm Ha Hwm ltac:(lia)) as H.
  destruct (slots_refused cfg k request m a); [by left|]. right. destruct H as (bs & k' & E & Hlen & Hreq & _ & Hok').
  set (id0 := request_id request) in *. exists bs, k'. split; [done|].
  assert (table_of k' id0 = table_of k id0 ++ bs) as T0 by (unfold table_of at 1; by rewrite Hreq, lookup_insert_eq).
  assert (∀ id, id ≠ id0 → table_of k' id = table_of k id) as T1 by (intros id Hne; unfold table_of; by rewrite Hreq, lookup_insert_ne).
  split; [|split; [by eapply called_slots; try done; lia|split; [done|split; [done|]]]].
  - intros run' Hsub Hin. split; [done|]. intros id. destruct (decide (id = id0)) as [->|Hne].
    + rewrite T0, length_app. split; [|done]. destruct (Ht id0) as [Hl _]. unfold blocks_needed in Hlen.
      assert (cdiv (slot_tokens cfg request m a) (kv_block_size cfg) ≤ cdiv (max_model_len cfg) (kv_block_size cfg))%Z
        by (apply cdiv_mono; [done|unfold slot_tokens; lia]). lia.
    + rewrite T1 by done. destruct (Ht id) as [? Hn]. split; [done|]. intros Hid. apply Hn. auto.
  - rewrite T0, length_app. unfold blocks_needed in Hlen. lia.
Qed.

(** Freeing empties the table of one request. *)
Lemma free_within k0 gone run k granted request :
  tables_within run k → called k0 gone k granted →
  ∃ k', free request k = (Ok tt, k')
  ∧ (∀ run', (∀ id, id ∈ run → id ∈ run' ∨ id = request_id request) → tables_within run' k')
  ∧ called k0 (request_id request :: gone) k' (delete (request_id request) granted)
  ∧ table_of k' (request_id request) = [] ∧ ∀ id, id ≠ request_id request → table_of k' id = table_of k id.
Proof.
  intros [Hok Ht] Hc. destruct (free_request_ok n k (request_id request) Hok) as (k' & E & Hreq & _ & Hok').
  pose proof (called_free k0 gone k granted request Hc) as Hc'. unfold free in *. rewrite E in Hc'. exists k'.
  assert (table_of k' (request_id request) = []) as T0 by (unfold table_of; by rewrite Hreq, lookup_delete_eq).
  assert (∀ id, id ≠ request_id request → table_of k' id = table_of k id) as T1 by (intros id Hne; unfold table_of; by rewrite Hreq, lookup_delete_ne).
  split; [done|]. split; [|done]. intros run' Hsub. split; [done|]. intros id. destruct (decide (id = request_id request)) as [->|Hne].
  - rewrite T0. split; [cbn; lia|done].
  - rewrite T1 by done. destruct (Ht id) as [? Hn]. split; [done|]. intros Hid. apply Hn. intros Hin. by destruct (Hsub id Hin).
Qed.
End Calls.
