(* ===== verification/SchedulerPass.v ===== *)
(** * The loops of the scheduler

    What [Scheduler.schedule] does to its requests: [pass_inv] relates the state the step
    started from, the state reached, and the variables of the pass.  Preempted requests
    move from the end of the running queue to the front of the waiting queue, admitted
    ones from its front to the end of the running queue; every count is positive, within
    the tokens the request has and the length of the model, and was granted its slots. *)

From Stdlib Require Import ZArith Lia.
From stdpp Require Import base tactics numbers list option gmap strings.
From S2P Require Import Prelude FreeQueue BlockPool PoolState KVManager KVTables SchedRequest.
From S2P Require Import Torch Quant Tab Triton Stores StagedTensor InputBatch BlockTables RequestStates Lifecycle RunnerV2 Scheduler SchedCalls.

(** ** Dictionaries and sets *)

Lemma dict_set_fresh {A} key (v : A) d : key ∉ map fst d → dict_set key v d = d ++ [(key, v)].
Proof.
  induction d as [|[k w] d IH]; intros H; [done|]. cbn [map fst] in H. apply not_elem_of_cons in H as [H1 H2].
  cbn [dict_set app]. rewrite bool_decide_eq_false_2 by done. by rewrite IH.
Qed.

Lemma set_add_fresh x l : x ∉ l → set_add x l = l ++ [x].
Proof. intros H. unfold set_add. by rewrite bool_decide_eq_false_2. Qed.

Lemma set_add_elem x y l : y ∈ set_add x l ↔ y = x ∨ y ∈ l.
Proof. unfold set_add. case_bool_decide; [set_solver|]. rewrite elem_of_app, list_elem_of_singleton. tauto. Qed.

Lemma set_add_nodup x l : NoDup l → NoDup (set_add x l).
Proof.
  intros H. unfold set_add. case_bool_decide; [done|]. apply NoDup_app. split; [done|]. split; [|by apply NoDup_singleton].
  intros y Hy ->%list_elem_of_singleton. done.
Qed.

Section Pass.
Variables (cfg : SchedConfig) (n : nat).
Abbreviation kv := (sg_kv cfg).
Hypotheses (Hwm : (0 ≤ watermark_blocks kv)%Z) (Hbs : (0 < kv_block_size kv)%Z).

(** ** The objects of the requests *)

Definition object_ok (id : string) (r : SchedRequest) : Prop :=
  sr_request_id r = id ∧ sr_async_tokens_to_discard r = 0%Z ∧ (0 ≤ sr_num_output_placeholders r)%Z
  ∧ (0 < sr_num_tokens r < max_model_len kv)%Z
  ∧ (0 ≤ sr_num_computed_tokens r ≤ sr_num_tokens r + sr_num_output_placeholders r)%Z
  ∧ (sr_num_computed_tokens r < max_model_len kv)%Z
  ∧ (sr_num_prompt_tokens r + sp_min_tokens (sr_sampling_params r) ≤ max_model_len kv)%Z.

Definition waits (r : SchedRequest) : Prop := (sr_status r = WAITING ∨ sr_status r = PREEMPTED) ∧ sr_num_computed_tokens r = 0%Z.

(** The scheduler between its methods. *)
Record sched_ok (s : Scheduler) : Prop := {
  so_nodup : NoDup (sc_running s ++ sc_waiting s);
  so_known : ∀ id, is_Some (sc_requests s !! id) ↔ id ∈ sc_running s ++ sc_waiting s;
  so_object : ∀ id r, sc_requests s !! id = Some r → object_ok id r;
  so_runs : ∀ id r, id ∈ sc_running s → sc_requests s !! id = Some r → sr_status r = RUNNING;
  so_waits : ∀ id r, id ∈ sc_waiting s → sc_requests s !! id = Some r → waits r;
  so_tables : tables_within kv n (sc_running s) (sc_manager s);
  so_room : (Z.of_nat (length (sc_running s)) ≤ sg_max_num_running_reqs cfg)%Z;
  so_finished : ∀ id, id ∈ sc_finished_req_ids s → id ∉ sc_running s;
  so_no_preempted : sc_preempted_req_ids s = []
}.

(** ** The invariant of the loops *)

Definition admitted (r : SchedRequest) : SchedRequest :=
  set_progress 0 (sr_num_output_placeholders r) (sr_is_prefill_chunk r) (sr_next_decode_eligible_step r) (set_status RUNNING r).

Definition moved (dropped new : list string) (id : string) (r : SchedRequest) : SchedRequest :=
  if decide (id ∈ dropped) then preempted r else if decide (id ∈ new) then admitted r else r.

(** A count of the step. *)
Definition count_ok (s : Scheduler) (granted : gmap string Z) (id : string) (k : Z) : Prop :=
  ∃ r t, sc_requests s !! id = Some r ∧ (0 < k)%Z ∧ (k ≤ sr_num_tokens r + sr_num_output_placeholders r - sr_num_computed_tokens r)%Z
    ∧ (sr_num_computed_tokens r + k < max_model_len kv)%Z
    ∧ granted !! id = Some t ∧ (sr_num_computed_tokens r + k ≤ t)%Z
    ∧ (cdiv t (kv_block_size kv) ≤ Z.of_nat (length (table_of (sc_manager s) id)))%Z.

Record pass_inv (k0 : Manager) (s0 : Scheduler) (kept dropped new rest : list string) (s : Scheduler) (p : Pass) (granted : gmap string Z) : Prop := {
  pi_run0 : sc_running s0 = kept ++ dropped;
  pi_wait0 : sc_waiting s0 = new ++ rest;
  pi_run : sc_running s = kept ++ new;
  pi_wait : sc_waiting s = dropped ++ rest;
  pi_requests : ∀ id, sc_requests s !! id = moved dropped new id <$> sc_requests s0 !! id;
  pi_finished : sc_finished_req_ids s = sc_finished_req_ids s0;
  pi_step : sc_current_step s = sc_current_step s0;
  pi_pause : sc_pause_state s = sc_pause_state s0;
  pi_gone : sc_preempted_req_ids s = reverse dropped;
  pi_preempted : ps_preempted_reqs p = reverse dropped;
  pi_tables : tables_within kv n (sc_running s) (sc_manager s);
  pi_calls : called kv k0 (sc_finished_req_ids s0 ++ dropped) (sc_manager s) granted;
  pi_old : NoDup (ps_running_reqs p) ∧ ∀ id, id ∈ ps_running_reqs p → id ∈ kept;
  pi_new : ps_new_reqs p ++ ps_resumed_reqs p ≡ₚ new;
  pi_keys : map fst (ps_num_scheduled_tokens p) = ps_running_reqs p ++ new;
  pi_budget : (total_scheduled p + ps_token_budget p = ps_token_budget (fresh_pass cfg s0))%Z ∧ (0 ≤ ps_token_budget p)%Z;
  pi_counts : ∀ it, it ∈ ps_num_scheduled_tokens p → count_ok s granted it.1 it.2;
  pi_table_old : ∀ id, id ∈ ps_running_reqs p →
    ∃ b, ps_new_blocks p !! id = Some b ∧ table_of (sc_manager s) id = table_of (sc_manager s0) id ++ kv_blocks b;
  pi_table_new : ∀ id, id ∈ new → ∃ b, ps_new_blocks p !! id = Some b ∧ table_of (sc_manager s) id = kv_blocks b;
  pi_table_rest : ∀ id, id ∈ kept → id ∉ ps_running_reqs p → table_of (sc_manager s) id = table_of (sc_manager s0) id
}.

Lemma pass_start k0 s granted :
  sched_ok s → (0 ≤ sg_max_num_scheduled_tokens cfg)%Z → called kv k0 (sc_finished_req_ids s) (sc_manager s) granted →
  pass_inv k0 s (sc_running s) [] [] (sc_waiting s) s (fresh_pass cfg s) granted.
Proof.
  intros Hs Hmax Hc. split; try done; try (intros; by rewrite ?app_nil_r); try (by intros ? ?%not_elem_of_nil).
  - intros id. by destruct (sc_requests s !! id).
  - by destruct Hs.
  - by destruct Hs.
  - split; [constructor|by intros ? ?%not_elem_of_nil].
  - split; [done|]. cbn. by destruct (sc_pause_state s).
Qed.

Section Base.
Variables (k0 : Manager) (s0 : Scheduler).
Hypothesis Hs0 : sched_ok s0.

(** The queues hold a request once. *)
Lemma pass_nodup kept dropped new rest s p granted :
  pass_inv k0 s0 kept dropped new rest s p granted → NoDup (kept ++ dropped ++ new ++ rest).
Proof. intros H. pose proof (so_nodup _ Hs0) as Hn. by rewrite (pi_run0 _ _ _ _ _ _ _ _ _ H), (pi_wait0 _ _ _ _ _ _ _ _ _ H), <-app_assoc in Hn. Qed.

(** A running request of the base that was not dropped is untouched. *)
Lemma pass_kept kept dropped new rest s p granted id :
  pass_inv k0 s0 kept dropped new rest s p granted → id ∈ kept →
  ∃ r, sc_requests s0 !! id = Some r ∧ sc_requests s !! id = Some r ∧ object_ok id r ∧ sr_status r = RUNNING.
Proof.
  intros H Hid. pose proof (pass_nodup _ _ _ _ _ _ _ H) as Hn. pose proof (pi_run0 _ _ _ _ _ _ _ _ _ H) as E.
  assert (id ∈ sc_running s0) as Hrun by (rewrite E; set_solver).
  destruct (proj2 (so_known _ Hs0 id)) as [r Hr]; [set_solver|]. exists r. split; [done|].
  rewrite (pi_requests _ _ _ _ _ _ _ _ _ H), Hr. apply NoDup_app in Hn as (_ & Hd & _). specialize (Hd id Hid).
  unfold moved. cbn. rewrite !decide_False by set_solver. split; [done|]. split; [by apply (so_object _ Hs0)|by apply (so_runs _ Hs0 id)].
Qed.

(** ** Preemption *)

Lemma take_snoc {A} (l : list A) x : take (length (l ++ [x]) - 1) (l ++ [x]) = l.
Proof. rewrite length_app, Nat.add_sub. by rewrite take_app_length. Qed.

Lemma count_ok_delete s s' granted id k v :
  count_ok s granted id k → id ≠ v → sc_requests s' !! id = sc_requests s !! id →
  table_of (sc_manager s') id = table_of (sc_manager s) id → count_ok s' (delete v granted) id k.
Proof. intros (r & t & H1 & H2 & H3 & H4 & H5 & H6 & H7) Hne Er Et. exists r, t. rewrite Er, Et, lookup_delete_ne by done. done. Qed.

Lemma preempt_ok kept v dropped rest s p granted :
  pass_inv k0 s0 (kept ++ [v]) dropped [] rest s p granted → v ∉ ps_running_reqs p →
  ∃ s1 s2, pop_running s = (Ok v, s1) ∧ _preempt_request v s1 = (Ok tt, s2)
  ∧ pass_inv k0 s0 kept (v :: dropped) [] rest s2 (pass_preempted (ps_preempted_reqs p ++ [v]) p) (delete v granted).
Proof.
  intros H Hv. pose proof (pass_nodup _ _ _ _ _ _ _ H) as Hn. destruct (pass_kept _ _ _ _ _ _ _ v H) as (r & Hr0 & Hr & Hobj & Hst); [set_solver|].
  assert (v ∉ kept ∧ v ∉ dropped) as [Hvk Hvd].
  { rewrite <-app_assoc in Hn. apply NoDup_app in Hn as (_ & H1 & Hn). apply NoDup_app in Hn as (_ & H2 & _). set_solver. }
  destruct (free_within kv n k0 _ _ _ _ (kv_request r) (pi_tables _ _ _ _ _ _ _ _ _ H) (pi_calls _ _ _ _ _ _ _ _ _ H)) as (k' & Ef & Hw & Hc & T0 & T1).
  destruct H as [F1 F2 F3 F4 F5 F6 F7 F8 F9 F9' F10 F11 F12 F13 F14 F15 F16 F17 F18 F19]. destruct Hobj as (Eid & Hobj). cbn [kv_request request_id] in *. rewrite Eid in *.
  rewrite app_nil_r in F3. eexists _, _. split; [|split].
  - unfold pop_running. rewrite st_bind_eq. cbn [st_get]. rewrite F3, last_snoc. reflexivity.
  - unfold _preempt_request, get_request. rewrite st_bind_eq. cbn [st_get st_bind_eq]. rewrite st_bind_eq. cbn [st_get st_lift sc_requests]. rewrite Hr.
    rewrite bool_decide_eq_true_2 by done. cbn [negb]. rewrite st_bind_eq. cbn [st_raise_if st_lift raise_if]. unfold _free_request_blocks, on_manager.
    rewrite st_bind_eq. cbn [sc_manager]. rewrite Ef. reflexivity.
  - assert (∀ id r, id ≠ v → moved (v :: dropped) [] id r = moved dropped [] id r) as Hmove.
    { intros id r' Hne. unfold moved. destruct (decide (id ∈ dropped)); [by rewrite decide_True by (by right)|].
      rewrite decide_False by (rewrite not_elem_of_cons; done). done. }
    assert (∀ id, id ∈ ps_running_reqs p → id ≠ v) as Hneq by (intros id Hid ->; done).
    split; cbn [pass_preempted ps_new_reqs ps_resumed_reqs ps_running_reqs ps_preempted_reqs ps_new_blocks ps_num_scheduled_tokens ps_token_budget];
      cbn [sc_requests sc_waiting sc_running sc_finished_req_ids sc_preempted_req_ids sc_current_step sc_pause_state sc_manager]; try done.
    + by rewrite F1, <-app_assoc.
    + by rewrite F3, take_snoc, app_nil_r.
    + by rewrite F4.
    + intros id. cbn. rewrite Eid. destruct (decide (id = v)) as [->|Hne].
      * rewrite lookup_insert_eq, Hr0. cbn [fmap option_fmap option_map]. unfold moved. rewrite decide_True by (by left). done.
      * rewrite lookup_insert_ne, F5 by done. destruct (sc_requests s0 !! id); cbn; [by rewrite Hmove|done].
    + rewrite F9, set_add_fresh; [by rewrite reverse_cons|by rewrite elem_of_reverse].
    + by rewrite F9', reverse_cons.
    + apply Hw. intros id. rewrite F3, take_snoc. set_solver.
    + eapply called_mono; [|exact Hc]. set_solver.
    + split; [apply F12|]. intros id Hid. apply F12 in Hid as Hid'. set_solver.
    + intros it Hit. assert (it.1 ∈ ps_running_reqs p) as Hin by (rewrite <-(app_nil_r (ps_running_reqs p)), <-F14; apply list_elem_of_In, in_map, list_elem_of_In, Hit).
      eapply count_ok_delete; [by apply F16|by apply Hneq| |by apply T1, Hneq]. cbn. rewrite Eid. by rewrite lookup_insert_ne by (symmetry; by apply Hneq).
    + intros id Hid. destruct (F17 id Hid) as (b & Hb & Ht). exists b. split; [done|]. by rewrite T1 by (by apply Hneq).
    + intros id Hid. by apply not_elem_of_nil in Hid.
    + intros id Hid Hnid. rewrite T1 by set_solver. apply F19; [set_solver|done].
Qed.

(** ** Slots for a running request *)

Lemma on_manager_eq {A} (m : ST Manager A) s r k :
  m (sc_manager s) = (r, k) →
  on_manager m s = (r, mkScheduler (sc_requests s) (sc_waiting s) (sc_running s) (sc_finished_req_ids s) (sc_preempted_req_ids s)
                         (sc_current_step s) (sc_prefill_capacity_bound s) (sc_pause_state s) k).
Proof. intros E. unfold on_manager. by rewrite E. Qed.

Lemma on_manager_same {A} (m : ST Manager A) s r : m (sc_manager s) = (r, sc_manager s) → on_manager m s = (r, s).
Proof. intros E. rewrite (on_manager_eq _ _ _ _ E). by destruct s. Qed.

Lemma kv_default_args : no_hits default_args ∧ reserved_blocks default_args = 0%Z.
Proof. split; [split; [by left|done]|done]. Qed.

(** The tokens a request of the model's length asks slots for. *)
Lemma slot_tokens_ge r k a :
  (sr_num_computed_tokens r + k < max_model_len kv)%Z → (0 < k)%Z → num_new_computed_tokens a = 0%Z → num_lookahead_tokens a = 0%Z →
  (sr_num_computed_tokens r + k ≤ slot_tokens kv (kv_request r) k a)%Z.
Proof. unfold slot_tokens. cbn. lia. Qed.

Lemma total_dict_set id k p : id ∉ map fst (ps_num_scheduled_tokens p) →
  foldr Z.add 0%Z (map snd (dict_set id k (ps_num_scheduled_tokens p))) = (total_scheduled p + k)%Z.
Proof.
  intros H. rewrite dict_set_fresh by done. unfold total_scheduled. rewrite map_app, foldr_app. cbn [map snd foldr].
  generalize (map snd (ps_num_scheduled_tokens p)) as l. induction l as [|x l IH]; cbn; lia.
Qed.

(** A count stays good while its request keeps its table and what it was granted. *)
Lemma count_ok_other s k' granted id k v t :
  count_ok s granted id k → id ≠ v → table_of k' id = table_of (sc_manager s) id →
  count_ok (mkScheduler (sc_requests s) (sc_waiting s) (sc_running s) (sc_finished_req_ids s) (sc_preempted_req_ids s)
              (sc_current_step s) (sc_prefill_capacity_bound s) (sc_pause_state s) k') (<[v := t]> granted) id k.
Proof. intros (r & u & H1 & H2 & H3 & H4 & H5 & H6 & H7) Hne Et. exists r, u. cbn. rewrite Et, lookup_insert_ne by done. done. Qed.

Lemma grant_running_ok front id back dropped rest s p granted r k bs k' :
  pass_inv k0 s0 (front ++ id :: back) dropped [] rest s p granted → (∀ x, x ∈ ps_running_reqs p → x ∈ front) →
  sc_requests s !! id = Some r →
  (0 < k ≤ sr_num_tokens r + sr_num_output_placeholders r - sr_num_computed_tokens r)%Z → (sr_num_computed_tokens r + k < max_model_len kv)%Z →
  (k ≤ ps_token_budget p)%Z →
  (∀ run', (∀ x, x ∈ sc_running s → x ∈ run') → id ∈ run' → tables_within kv n run' k') →
  called kv k0 (sc_finished_req_ids s0 ++ dropped) k' (<[id := slot_tokens kv (kv_request r) k default_args]> granted) →
  table_of k' id = table_of (sc_manager s) id ++ bs → (∀ x, x ≠ id → table_of k' x = table_of (sc_manager s) x) →
  (cdiv (slot_tokens kv (kv_request r) k default_args) (kv_block_size kv) ≤ Z.of_nat (length (table_of k' id)))%Z →
  pass_inv k0 s0 (front ++ id :: back) dropped [] rest
    (mkScheduler (sc_requests s) (sc_waiting s) (sc_running s) (sc_finished_req_ids s) (sc_preempted_req_ids s)
       (sc_current_step s) (sc_prefill_capacity_bound s) (sc_pause_state s) k')
    (run_scheduled id k (create_kv_cache_blocks bs) (reverse dropped) p) (<[id := slot_tokens kv (kv_request r) k default_args]> granted).
Proof.
  intros H Hfront Hr Hk Hlen Hbudget Hw Hc T0 T1 Hcov. pose proof (pass_nodup _ _ _ _ _ _ _ H) as Hn.
  assert (id ∉ front) as Hid by (rewrite <-app_assoc in Hn; apply NoDup_app in Hn as (_ & Hd & _); set_solver).
  assert (id ∉ ps_running_reqs p) as Hnew by (intros Hin; by apply Hid, Hfront).
  destruct H as [F1 F2 F3 F4 F5 F6 F7 F8 F9 F9' F10 F11 F12 F13 F14 F15 F16 F17 F18 F19].
  assert (id ∉ map fst (ps_num_scheduled_tokens p)) as Hkey by (by rewrite F14, app_nil_r).
  assert (∀ x, x ∈ ps_running_reqs p → x ≠ id) as Hneq by (intros x Hx ->; done).
  split; cbn [run_scheduled ps_new_reqs ps_resumed_reqs ps_running_reqs ps_preempted_reqs ps_new_blocks ps_num_scheduled_tokens ps_token_budget];
    cbn [sc_requests sc_waiting sc_running sc_finished_req_ids sc_preempted_req_ids sc_current_step sc_pause_state sc_manager]; try done.
  - apply Hw; [done|]. rewrite F3. set_solver.
  - split; [|set_solver]. apply NoDup_app. split; [apply F12|]. split; [|by apply NoDup_singleton]. intros x Hx ->%list_elem_of_singleton. done.
  - rewrite dict_set_fresh, map_app, F14, !app_nil_r by done. done.
  - unfold total_scheduled at 1. cbn [run_scheduled ps_num_scheduled_tokens]. rewrite total_dict_set by done. lia.
  - intros it. rewrite dict_set_fresh by done. intros [Hit| ->%list_elem_of_singleton]%elem_of_app.
    + assert (it.1 ∈ ps_running_reqs p) as Hin
        by (rewrite <-(app_nil_r (ps_running_reqs p)), <-F14; apply list_elem_of_In, in_map, list_elem_of_In, Hit).
      apply count_ok_other; [by apply F16|by apply Hneq|by apply T1, Hneq].
    + exists r, (slot_tokens kv (kv_request r) k default_args). cbn. split; [done|]. split; [lia|]. split; [lia|]. split; [done|].
      rewrite lookup_insert_eq. split; [done|]. split; [|done]. apply slot_tokens_ge; [done|lia|done|done].
  - intros x [Hx| ->%list_elem_of_singleton]%elem_of_app.
    + rewrite lookup_insert_ne by (symmetry; by apply Hneq). rewrite T1 by (by apply Hneq). by apply F17.
    + rewrite lookup_insert_eq. eexists. split; [done|]. rewrite T0, F19 by (try done; set_solver). by destruct bs.
  - intros x Hx. by apply not_elem_of_nil in Hx.
  - intros x Hx Hnx. rewrite not_elem_of_app, list_elem_of_singleton in Hnx. rewrite T1 by (intros ->; tauto). apply F19; tauto.
Qed.

Lemma allocate_running_ok fuel : ∀ front id back dropped rest s p granted r k,
  pass_inv k0 s0 (front ++ id :: back) dropped [] rest s p granted → (length back < fuel)%nat → (∀ x, x ∈ ps_running_reqs p → x ∈ front) →
  sc_requests s0 !! id = Some r →
  (0 < k ≤ sr_num_tokens r + sr_num_output_placeholders r - sr_num_computed_tokens r)%Z → (sr_num_computed_tokens r + k < max_model_len kv)%Z →
  (k ≤ ps_token_budget p)%Z →
  ∃ res s' dropped' granted', allocate_running cfg fuel id k (ps_preempted_reqs p) s = (Ok (res, reverse dropped'), s')
  ∧ match res with
    | None => pass_inv k0 s0 front dropped' [] rest s' (pass_preempted (reverse dropped') p) granted'
        ∧ ∃ m, tables_within kv n (front ++ [id]) m ∧ allocate_slots kv (kv_request r) k default_args m = (Ok None, m)
    | Some b => ∃ back', (length back' ≤ length back)%nat
        ∧ pass_inv k0 s0 (front ++ id :: back') dropped' [] rest s' (run_scheduled id k b (reverse dropped') p) granted'
    end.
Proof.
  induction fuel as [|fuel IH]; intros front id back dropped rest s p granted r k H Hfuel Hfront Hr0 Hk Hlen Hbudget; [lia|].
  destruct (pass_kept _ _ _ _ _ _ _ id H) as (r' & Hr0' & Hr & Hobj & Hst); [set_solver|].
  assert (r' = r) as -> by congruence. clear Hr0'. cbn [allocate_running]. unfold get_request. rewrite !st_bind_eq. cbn [st_get]. unfold st_lift. rewrite Hr.
  pose proof (slots_within kv n Hwm Hbs k0 _ _ _ _ (kv_request r) k default_args (pi_tables _ _ _ _ _ _ _ _ _ H) (pi_calls _ _ _ _ _ _ _ _ _ H)
    ltac:(lia) (proj1 kv_default_args) (proj2 kv_default_args)) as Hslots.
  assert (request_id (kv_request r) = id) as Eid by apply Hobj. rewrite Eid in Hslots.
  destruct Hslots as [E|(bs & k' & E & Hw & Hc & T0 & T1 & Hcov)]; rewrite st_bind_eq.
  - rewrite (on_manager_same _ _ _ E).
    destruct back as [|v back _] using rev_ind.
    + destruct (preempt_ok _ _ _ _ _ _ _ H) as (s1 & s2 & E1 & E2 & H2); [intros Hin; apply Hfront in Hin; pose proof (pass_nodup _ _ _ _ _ _ _ H) as Hn;
        rewrite <-app_assoc in Hn; apply NoDup_app in Hn as (_ & Hd & _); set_solver|].
      rewrite st_bind_eq, E1, st_bind_eq, E2. rewrite bool_decide_eq_true_2 by done.
      eexists None, _, (id :: dropped), _. rewrite reverse_cons, (pi_preempted _ _ _ _ _ _ _ _ _ H) in *. split; [reflexivity|].
      split; [exact H2|]. exists (sc_manager s). split; [|exact E]. pose proof (pi_tables _ _ _ _ _ _ _ _ _ H) as Htab.
      by rewrite (pi_run _ _ _ _ _ _ _ _ _ H), app_nil_r in Htab.
    + assert (front ++ id :: back ++ [v] = (front ++ id :: back) ++ [v]) as Ek by (by rewrite <-app_assoc). rewrite Ek in H.
      assert (v ≠ id ∧ v ∉ front) as [Hne Hvf].
      { pose proof (pass_nodup _ _ _ _ _ _ _ H) as Hn. apply NoDup_app in Hn as (Hn & _). apply NoDup_app in Hn as (Hn & Hd & _). set_solver. }
      destruct (preempt_ok _ _ _ _ _ _ _ H) as (s1 & s2 & E1 & E2 & H2); [auto|].
      rewrite st_bind_eq, E1, st_bind_eq, E2. rewrite bool_decide_eq_false_2 by done.
      destruct (IH front id back _ _ _ _ _ r k H2) as (res & s' & dropped' & granted' & E3 & H3); try done.
      { rewrite length_app in Hfuel. cbn in Hfuel. lia. }
      exists res, s', dropped', granted'. split; [exact E3|]. destruct res as [b|]; [|exact H3].
      destruct H3 as (back' & Hb & H3). exists back'. split; [rewrite length_app; lia|exact H3].
  - rewrite (on_manager_eq _ _ _ _ E). eexists (Some _), _, dropped, _. rewrite <-(pi_preempted _ _ _ _ _ _ _ _ _ H) at 1. split; [reflexivity|].
    exists back. split; [done|]. by eapply grant_running_ok.
Qed.

Lemma running_tokens_ok id r budget :
  object_ok id r → (0 < budget)%Z → running_tokens cfg budget r ≠ 0%Z →
  let k := running_tokens cfg budget r in
  (0 < k ≤ sr_num_tokens r + sr_num_output_placeholders r - sr_num_computed_tokens r)%Z
  ∧ (sr_num_computed_tokens r + k < max_model_len kv)%Z ∧ (k ≤ budget)%Z.
Proof.
  intros (_ & _ & _ & _ & H1 & H2 & _) Hb. unfold running_tokens, cap_prefill.
  destruct (Z.ltb_spec 0 (sg_long_prefill_token_threshold cfg)); cbn [andb]; [|lia].
  destruct (Z.ltb_spec (sg_long_prefill_token_threshold cfg) (sr_num_tokens r + sr_num_output_placeholders r - sr_num_computed_tokens r)); lia.
Qed.

(** The loop over the running requests ends with the invariant.  [J] is any property of
    the requests passed, the ones dropped, the counts and the budget that every round
    keeps. *)
Section RunningLoop.
Variables (defer : bool) (J : list string → list string → list (string * Z) → Z → Prop).
Hypothesis Hskip : ∀ front id dropped counts budget r,
  J front dropped counts budget → id ∉ front → id ∈ sc_running s0 → (length front < length (sc_running s0))%nat →
  sc_requests s0 !! id = Some r → object_ok id r → (0 < budget)%Z →
  passes_over (sc_current_step s0) defer r = true ∨ running_tokens cfg budget r = 0%Z → J (front ++ [id]) dropped counts budget.
Hypothesis Hcount : ∀ front id dropped dropped' counts budget r (k := running_tokens cfg budget r),
  J front dropped counts budget → id ∉ front → id ∈ sc_running s0 → (length front < length (sc_running s0))%nat →
  sc_requests s0 !! id = Some r → object_ok id r → (0 < budget)%Z → passes_over (sc_current_step s0) defer r = false →
  (0 < k ≤ budget)%Z → (dropped ≠ [] → dropped' ≠ []) → J (front ++ [id]) dropped' (counts ++ [(id, k)]) (budget - k).
Hypothesis Hdrop : ∀ front dropped dropped' counts budget, J front dropped counts budget → dropped' ≠ [] → J front dropped' counts budget.

Lemma schedule_running_with fuel : ∀ front back dropped rest s p granted,
  pass_inv k0 s0 (front ++ back) dropped [] rest s p granted → (∀ x, x ∈ ps_running_reqs p → x ∈ front) → (length back ≤ fuel)%nat →
  J front dropped (ps_num_scheduled_tokens p) (ps_token_budget p) →
  ∃ s' p' kept' dropped' granted' front', schedule_running cfg fuel defer (length front) p s = (Ok p', s')
  ∧ pass_inv k0 s0 kept' dropped' [] rest s' p' granted' ∧ front `prefix_of` kept'
  ∧ J front' dropped' (ps_num_scheduled_tokens p') (ps_token_budget p') ∧ (kept' = front' ∨ (ps_token_budget p' ≤ 0)%Z ∨ dropped' ≠ []).
Proof.
  induction fuel as [|fuel IH]; intros front back dropped rest s p granted H Hfront Hfuel HJ.
  { destruct back; [|cbn in Hfuel; lia]. rewrite app_nil_r in H. exists s, p, front, dropped, granted, front. split; [done|]. split; [done|]. split; [done|]. split; [done|by left]. }
  cbn [schedule_running]. rewrite st_bind_eq. cbn [st_get]. pose proof (pi_run _ _ _ _ _ _ _ _ _ H) as Erun. rewrite app_nil_r in Erun.
  destruct back as [|id back].
  { rewrite app_nil_r in Erun, H. rewrite Erun, lookup_ge_None_2 by done. exists s, p, front, dropped, granted, front. split; [done|]. split; [done|]. split; [done|]. split; [done|by left]. }
  rewrite Erun, list_lookup_middle by done. destruct (Z.leb_spec (ps_token_budget p) 0) as [|Hpos].
  { exists s, p, (front ++ id :: back), dropped, granted, front. split; [done|]. split; [done|]. split; [by apply prefix_app_r|]. split; [done|by right; left]. }
  destruct (pass_kept _ _ _ _ _ _ _ id H) as (r & Hr0 & Hr & Hobj & Hst); [set_solver|].
  pose proof (pi_run0 _ _ _ _ _ _ _ _ _ H) as Erun0. pose proof (pass_nodup _ _ _ _ _ _ _ H) as Hnd.
  assert (id ∉ front) as Hnew by (rewrite <-app_assoc in Hnd; apply NoDup_app in Hnd as (_ & Hd & _); intros Hin; apply (Hd id Hin); by left).
  assert (id ∈ sc_running s0) as Hin0 by (rewrite Erun0; set_solver).
  assert (length front < length (sc_running s0))%nat as Hlt by (rewrite Erun0, !length_app; cbn; lia).
  unfold get_request. rewrite st_bind_eq, st_bind_eq. cbn [st_get]. unfold st_lift. rewrite Hr.
  assert (∀ p' s' dropped' back' granted', pass_inv k0 s0 (front ++ id :: back') dropped' [] rest s' p' granted' →
            (∀ x, x ∈ ps_running_reqs p' → x ∈ front ++ [id]) → (length back' ≤ length back)%nat →
            J (front ++ [id]) dropped' (ps_num_scheduled_tokens p') (ps_token_budget p') →
            ∃ s'' p'' kept' dropped'' granted'' front', schedule_running cfg fuel defer (S (length front)) p' s' = (Ok p'', s'')
            ∧ pass_inv k0 s0 kept' dropped'' [] rest s'' p'' granted'' ∧ front `prefix_of` kept'
            ∧ J front' dropped'' (ps_num_scheduled_tokens p'') (ps_token_budget p'') ∧ (kept' = front' ∨ (ps_token_budget p'' ≤ 0)%Z ∨ dropped'' ≠ [])) as Hnext.
  { intros p' s' dropped' back' granted' H' Hfront' Hle HJ'. destruct (IH (front ++ [id]) back' dropped' rest s' p' granted') as (s'' & p'' & kept' & d & g & f & E & H2 & Hpre & H3).
    - by rewrite <-app_assoc.
    - done.
    - cbn in Hfuel. lia.
    - done.
    - rewrite length_app, Nat.add_1_r in E. exists s'', p'', kept', d, g, f. split; [done|]. split; [done|]. split; [|done]. transitivity (front ++ [id]); [by apply prefix_app_r|done]. }
  assert (∀ x, x ∈ ps_running_reqs p → x ∈ front ++ [id]) as Hfront' by (intros x Hx; apply elem_of_app; left; by apply Hfront).
  rewrite (pi_step _ _ _ _ _ _ _ _ _ H). destruct (passes_over (sc_current_step s0) defer r) eqn:Eover; [eapply Hnext; eauto|].
  destruct (Z.eqb_spec (running_tokens cfg (ps_token_budget p) r) 0) as [|Hnz]; [eapply Hnext; eauto|].
  destruct (running_tokens_ok id r _ Hobj Hpos Hnz) as (Hk & Hlen & Hbudget).
  destruct (allocate_running_ok (S (length (front ++ id :: back))) front id back dropped rest s p granted r _ H
              ltac:(rewrite length_app; cbn; lia) Hfront Hr0 Hk Hlen Hbudget)
    as (res & s' & dropped' & granted' & E & H').
  rewrite st_bind_eq, E. destruct res as [b|].
  - destruct H' as (back' & Hb & H'). eapply Hnext; [exact H'| |exact Hb|].
    + intros x [Hx| ->%list_elem_of_singleton]%elem_of_app; [by apply Hfront'|set_solver].
    + cbn [run_scheduled ps_num_scheduled_tokens ps_token_budget]. rewrite dict_set_fresh.
      2:{ rewrite (pi_keys _ _ _ _ _ _ _ _ _ H), app_nil_r. intros Hin. by apply Hnew, Hfront. }
      apply (Hcount front id dropped dropped' _ _ r); try done; [lia|]. intros Hd Hd'. apply Hd.
      pose proof (pi_run0 _ _ _ _ _ _ _ _ _ H') as Erun1. rewrite Erun0, Hd' in Erun1. apply (f_equal length) in Erun1.
      rewrite !length_app in Erun1. cbn [length] in Erun1. apply length_zero_iff_nil. lia.
  - destruct H' as [H' _]. assert (dropped' ≠ []) as Hd'.
    { intros ->. pose proof (pi_run0 _ _ _ _ _ _ _ _ _ H') as Erun1. rewrite Erun0 in Erun1. apply (f_equal length) in Erun1.
      rewrite !length_app in Erun1. cbn [length] in Erun1. lia. }
    exists s', (pass_preempted (reverse dropped') p), front, dropped', granted', front. split; [done|]. split; [done|]. split; [done|]. split; [|by left].
    by apply (Hdrop front dropped).
Qed.
End RunningLoop.

Lemma schedule_running_ok defer fuel front back dropped rest s p granted :
  pass_inv k0 s0 (front ++ back) dropped [] rest s p granted → (∀ x, x ∈ ps_running_reqs p → x ∈ front) → (length back ≤ fuel)%nat →
  ∃ s' p' kept' dropped' granted', schedule_running cfg fuel defer (length front) p s = (Ok p', s')
  ∧ pass_inv k0 s0 kept' dropped' [] rest s' p' granted' ∧ front `prefix_of` kept'.
Proof.
  intros H Hfront Hfuel. destruct (schedule_running_with defer (λ _ _ _ _, True) ltac:(done) ltac:(done) ltac:(done) fuel front back dropped rest s p granted H Hfront Hfuel I)
    as (s' & p' & kept' & dropped' & granted' & _ & E & H' & Hpre & _). by eauto 10.
Qed.

(** ** Admission *)

Lemma pass_waiting kept new id rest s p granted :
  pass_inv k0 s0 kept [] new (id :: rest) s p granted →
  ∃ r, sc_requests s0 !! id = Some r ∧ sc_requests s !! id = Some r ∧ object_ok id r ∧ waits r
  ∧ id ∉ kept ∧ id ∉ new ∧ id ∉ rest ∧ table_of (sc_manager s) id = [].
Proof.
  intros H. pose proof (pass_nodup _ _ _ _ _ _ _ H) as Hn. pose proof (pi_wait0 _ _ _ _ _ _ _ _ _ H) as E.
  destruct (proj2 (so_known _ Hs0 id)) as [r Hr]; [rewrite E; set_solver|].
  rewrite app_nil_l in Hn. apply NoDup_app in Hn as (_ & H1 & Hn). apply NoDup_app in Hn as (_ & H2 & Hn). apply NoDup_cons in Hn as [H3 _].
  assert (id ∉ kept) by (intros Hin; apply (H1 id Hin); set_solver). assert (id ∉ new) by (intros Hin; apply (H2 id Hin); set_solver).
  exists r. split; [done|]. split.
  { rewrite (pi_requests _ _ _ _ _ _ _ _ _ H), Hr. cbn. unfold moved. by rewrite !decide_False by (try done; apply not_elem_of_nil). }
  split; [by apply (so_object _ Hs0)|]. split; [apply (so_waits _ Hs0 id); [rewrite E; set_solver|done]|].
  do 3 (split; [done|]). apply (pi_tables _ _ _ _ _ _ _ _ _ H). rewrite (pi_run _ _ _ _ _ _ _ _ _ H). set_solver.
Qed.

Lemma computed_blocks_ok n' s r :
  kv_ok n' (sc_manager s) → sr_num_computed_tokens r = 0%Z → (0 < sr_num_tokens r)%Z →
  computed_blocks_of cfg r s = (Ok (empty_kv_cache_blocks, 0%Z, 0%Z), s).
Proof.
  intros Hok Hc Hn. unfold computed_blocks_of. rewrite Hc. cbn [Z.eqb]. rewrite st_bind_eq.
  rewrite (on_manager_same _ s (Ok (empty_kv_cache_blocks, 0%Z))).
  - rewrite st_bind_eq. destruct (Z.ltb_spec (sr_num_tokens r) 0); [lia|]. reflexivity.
  - unfold get_computed_blocks. rewrite st_bind_eq. cbn [st_get]. destruct Hok as (_ & -> & _). reflexivity.
Qed.

Lemma waiting_tokens_ok budget r k :
  (0 < budget)%Z → (0 < sr_num_tokens r)%Z → waiting_tokens cfg budget r 0 = Some k → (0 < k ≤ sr_num_tokens r)%Z ∧ (k ≤ budget)%Z.
Proof.
  intros Hb Hn. unfold waiting_tokens. destruct (negb _ && _); [done|]. intros [= <-]. unfold cap_prefill. rewrite Z.sub_0_r.
  destruct (Z.ltb_spec 0 (sg_long_prefill_token_threshold cfg)); cbn [andb]; [|lia].
  destruct (Z.ltb_spec (sg_long_prefill_token_threshold cfg) (sr_num_tokens r)); lia.
Qed.

Lemma admit_ok kept new id rest s p granted r k a bs k' :
  pass_inv k0 s0 kept [] new (id :: rest) s p granted → sc_requests s !! id = Some r →
  (0 < k ≤ sr_num_tokens r)%Z → (k ≤ ps_token_budget p)%Z → num_new_computed_tokens a = 0%Z → num_lookahead_tokens a = 0%Z →
  (∀ run', (∀ x, x ∈ sc_running s → x ∈ run') → id ∈ run' → tables_within kv n run' k') →
  called kv k0 (sc_finished_req_ids s0 ++ []) k' (<[id := slot_tokens kv (kv_request r) k a]> granted) →
  table_of k' id = bs → (∀ x, x ≠ id → table_of k' x = table_of (sc_manager s) x) →
  (cdiv (slot_tokens kv (kv_request r) k a) (kv_block_size kv) ≤ Z.of_nat (length (table_of k' id)))%Z →
  ∃ s' p', admit_request r 0 k p
    (mkScheduler (sc_requests s) (sc_waiting s) (sc_running s) (sc_finished_req_ids s) (sc_preempted_req_ids s)
       (sc_current_step s) (sc_prefill_capacity_bound s) (sc_pause_state s) k') = (Ok p', s')
  ∧ pass_inv k0 s0 kept [] (new ++ [id]) rest s' p' (<[id := slot_tokens kv (kv_request r) k a]> granted)
  ∧ ps_num_scheduled_tokens p' = ps_num_scheduled_tokens p ++ [(id, k)] ∧ ps_token_budget p' = (ps_token_budget p - k)%Z.
Proof.
  intros H Hr Hk Hbudget A1 A2 Hw Hc T0 T1 Hcov. destruct (pass_waiting _ _ _ _ _ _ _ H) as (r' & Hr0 & Hr' & Hobj & [Hst Hcomp] & Hid1 & Hid2 & Hid3 & Ht0).
  assert (r' = r) as -> by congruence. destruct H as [F1 F2 F3 F4 F5 F6 F7 F8 F9 F9' F10 F11 F12 F13 F14 F15 F16 F17 F18 F19]. pose proof Hobj as (Eid & _ & Hph & Hlen & _).
  assert (∃ news resumed, (match sr_status r with
      | WAITING => Ok (ps_new_reqs p ++ [id], ps_resumed_reqs p) | PREEMPTED => Ok (ps_new_reqs p, ps_resumed_reqs p ++ [id]) | _ => Err RuntimeError end) = Ok (news, resumed)
      ∧ news ++ resumed ≡ₚ new ++ [id]) as (news & resumed & Enew & Hnew).
  { destruct Hst as [->| ->]; eexists _, _; (split; [reflexivity|]); rewrite <-F13.
    - rewrite <-!app_assoc. apply Permutation_app_head, Permutation_app_comm.
    - by rewrite app_assoc. }
  assert (id ∉ map fst (ps_num_scheduled_tokens p)) as Hkey by (rewrite F14; set_solver).
  assert (∀ x, x ∈ ps_running_reqs p ++ new → x ≠ id) as Hneq by (intros x Hx ->; set_solver).
  eexists _, _. split.
  { unfold admit_request. rewrite Eid, st_bind_eq. cbn [set_queues st_modify sc_requests sc_waiting sc_running sc_finished_req_ids sc_preempted_req_ids sc_current_step sc_prefill_capacity_bound sc_pause_state sc_manager].
    rewrite st_bind_eq. unfold st_lift. rewrite Enew, st_bind_eq. reflexivity. }
  split; [|split; [by apply dict_set_fresh|done]].
  split; cbn [ps_new_reqs ps_resumed_reqs ps_running_reqs ps_preempted_reqs ps_new_blocks ps_num_scheduled_tokens ps_token_budget];
    cbn [sc_requests sc_waiting sc_running sc_finished_req_ids sc_preempted_req_ids sc_current_step sc_pause_state sc_manager]; try done.
  - by rewrite F2, <-app_assoc.
  - by rewrite F3, <-app_assoc.
  - by rewrite F4.
  - intros x. cbn. rewrite Eid. destruct (decide (x = id)) as [->|Hne].
    + rewrite lookup_insert_eq, Hr0. cbn. unfold moved. rewrite decide_False by apply not_elem_of_nil. rewrite decide_True by set_solver. done.
    + rewrite lookup_insert_ne, F5 by done. destruct (sc_requests s0 !! x); [|done]. cbn. f_equal. unfold moved.
      destruct (decide (x ∈ ([] : list string))); [done|]. apply decide_ext. set_solver.
  - apply Hw; set_solver.
  - by rewrite dict_set_fresh, map_app, F14, app_assoc.
  - unfold total_scheduled at 1. cbn [ps_num_scheduled_tokens]. rewrite total_dict_set by done. lia.
  - intros it. rewrite dict_set_fresh by done. intros [Hit| ->%list_elem_of_singleton]%elem_of_app.
    + assert (it.1 ∈ ps_running_reqs p ++ new) as Hin%Hneq by (rewrite <-F14; apply list_elem_of_In, in_map, list_elem_of_In, Hit).
      destruct (F16 it Hit) as (r1 & t & G1 & G2 & G3 & G4 & G5 & G6 & G7). exists r1, t. cbn [sc_requests sc_manager set_progress set_status sr_request_id].
      rewrite Eid, T1, !lookup_insert_ne by done. done.
    + exists (admitted r), (slot_tokens kv (kv_request r) k a). cbn [fst snd sc_requests sc_manager set_progress set_status sr_request_id]. rewrite Eid, !lookup_insert_eq.
      change (sr_num_tokens (admitted r)) with (sr_num_tokens r). change (sr_num_computed_tokens (admitted r)) with 0%Z.
      change (sr_num_output_placeholders (admitted r)) with (sr_num_output_placeholders r).
      split; [done|]. split; [lia|]. split; [lia|]. split; [lia|]. split; [done|]. split; [|done].
      pose proof (slot_tokens_ge r k a) as G. rewrite Hcomp in G. apply G; try done; lia.
  - intros x Hx. assert (x ≠ id) by (apply Hneq; set_solver). rewrite lookup_insert_ne, T1 by done. by apply F17.
  - intros x [Hx| ->%list_elem_of_singleton]%elem_of_app.
    + assert (x ≠ id) by (apply Hneq; set_solver). rewrite lookup_insert_ne, T1 by done. by apply F18.
    + rewrite lookup_insert_eq. eexists. split; [done|]. fold (table_of k' id). by destruct (table_of k' id).
  - intros x Hx Hnx. rewrite T1 by (intros ->; done). by apply F19.
Qed.

(** The loop over the waiting requests ends with the invariant, and with what every
    admission keeps. *)
Section WaitingLoop.
Variables (defer : bool) (K : list string → list (string * Z) → Z → Prop).
Hypothesis Hadmit : ∀ new id counts budget r k,
  K new counts budget → id ∈ sc_waiting s0 → sc_requests s0 !! id = Some r → object_ok id r → waits r → (0 < budget)%Z →
  defer && (0 <? sr_num_tokens r - 1)%Z = false → waiting_tokens cfg budget r 0 = Some k → K (new ++ [id]) (counts ++ [(id, k)]) (budget - k).

Lemma schedule_waiting_with fuel : ∀ kept new rest s p granted,
  pass_inv k0 s0 kept [] new rest s p granted → (length rest ≤ fuel)%nat → (Z.of_nat (length (sc_running s)) ≤ sg_max_num_running_reqs cfg)%Z →
  K new (ps_num_scheduled_tokens p) (ps_token_budget p) →
  ∃ s' p' new' rest' granted', schedule_waiting cfg fuel defer p s = (Ok p', s')
  ∧ pass_inv k0 s0 kept [] new' rest' s' p' granted' ∧ (Z.of_nat (length (sc_running s')) ≤ sg_max_num_running_reqs cfg)%Z
  ∧ K new' (ps_num_scheduled_tokens p') (ps_token_budget p').
Proof.
  induction fuel as [|fuel IH]; intros kept new rest s p granted H Hfuel Hroom HK; [by eauto 10|].
  cbn [schedule_waiting]. rewrite st_bind_eq. cbn [st_get]. pose proof (pi_wait _ _ _ _ _ _ _ _ _ H) as Ewait. cbn [app] in Ewait.
  destruct rest as [|id rest]; [rewrite Ewait; by eauto 10|]. rewrite Ewait.
  destruct (Z.leb_spec (ps_token_budget p) 0) as [|Hpos]; [by eauto 10|].
  destruct (Z.leb_spec (sg_max_num_running_reqs cfg) (Z.of_nat (length (sc_running s)))) as [|Hmore]; [by eauto 10|].
  destruct (pass_waiting _ _ _ _ _ _ _ H) as (r & Hr0 & Hr & Hobj & [Hst Hcomp] & Hid1 & Hid2 & Hid3 & Ht0).
  pose proof Hobj as (Eid & _ & _ & [Hlen _] & _).
  unfold get_request. rewrite st_bind_eq, st_bind_eq. cbn [st_get]. unfold st_lift. rewrite Hr, st_bind_eq.
  pose proof (pi_tables _ _ _ _ _ _ _ _ _ H) as Htab. rewrite (computed_blocks_ok n s r (proj1 Htab) Hcomp Hlen).
  destruct (defer && (0 <? sr_num_tokens r - 1)%Z) eqn:Edefer; [by eauto 10|].
  destruct (waiting_tokens cfg (ps_token_budget p) r 0) as [k|] eqn:Ek; [|by eauto 10].
  destruct (waiting_tokens_ok _ _ _ Hpos Hlen Ek) as [Hk Hbudget]. rewrite st_bind_eq. destruct (Z.leb_spec k 0); [lia|]. cbn [st_raise_if st_lift raise_if].
  set (a := mkSlotArgs _ _ _ _ _ _ _ _). unfold st_raise_if, st_lift, raise_if. rewrite st_bind_eq.
  destruct (slots_within kv n Hwm Hbs k0 _ _ _ _ (kv_request r) k a Htab (pi_calls _ _ _ _ _ _ _ _ _ H)) as [E|(bs & k' & E & Hw & Hc & T0 & T1 & Hcov)];
    [lia|split; [by right|done]|done|rewrite (on_manager_same _ _ _ E); by eauto 10|].
  rewrite (on_manager_eq _ _ _ _ E). cbn [kv_request request_id] in *. rewrite Eid in *. rewrite st_bind_eq.
  destruct (admit_ok kept new id rest s p granted r k a (table_of k' id) k' H Hr Hk Hbudget) as (s' & p' & E' & H' & Ec & Eb); try done.
  rewrite E'. apply (IH _ _ _ _ _ _ H'); [cbn in Hfuel; lia| |].
  2:{ rewrite Ec, Eb. apply (Hadmit new id _ _ r k); try done. rewrite (pi_wait0 _ _ _ _ _ _ _ _ _ H). apply elem_of_app. right. by left. }
  rewrite (pi_run _ _ _ _ _ _ _ _ _ H'), length_app, length_app.
  rewrite (pi_run _ _ _ _ _ _ _ _ _ H), length_app in Hmore. cbn. lia.
Qed.

End WaitingLoop.

Lemma schedule_waiting_ok defer fuel kept new rest s p granted :
  pass_inv k0 s0 kept [] new rest s p granted → (length rest ≤ fuel)%nat → (Z.of_nat (length (sc_running s)) ≤ sg_max_num_running_reqs cfg)%Z →
  ∃ s' p' new' rest' granted', schedule_waiting cfg fuel defer p s = (Ok p', s')
  ∧ pass_inv k0 s0 kept [] new' rest' s' p' granted' ∧ (Z.of_nat (length (sc_running s')) ≤ sg_max_num_running_reqs cfg)%Z.
Proof.
  intros H Hfuel Hroom. destruct (schedule_waiting_with defer (λ _ _ _, True) ltac:(done) fuel kept new rest s p granted H Hfuel Hroom I)
    as (s' & p' & new' & rest' & granted' & E & H' & Hroom' & _). by eauto 10.
Qed.

(** ** Both loops *)

Lemma pass_clock kept dropped new rest s p granted step bound :
  pass_inv k0 s0 kept dropped new rest s p granted → step (sc_current_step s) = sc_current_step s →
  pass_inv k0 s0 kept dropped new rest (set_clock step bound s).2 p granted.
Proof. intros [] E. split; try done. by rewrite <-pi_step0. Qed.

(** Both loops, with what their rounds keep. *)
Section Requests.
Variables (throttle_prefills : bool) (J : list string → list string → list (string * Z) → Z → Prop) (K : list string → list (string * Z) → Z → Prop).
Abbreviation defer := (defers_prefills throttle_prefills s0).
Hypothesis Hskip : ∀ front id dropped counts budget r,
  J front dropped counts budget → id ∉ front → id ∈ sc_running s0 → (length front < length (sc_running s0))%nat →
  sc_requests s0 !! id = Some r → object_ok id r → (0 < budget)%Z →
  passes_over (sc_current_step s0) defer r = true ∨ running_tokens cfg budget r = 0%Z → J (front ++ [id]) dropped counts budget.
Hypothesis Hcount : ∀ front id dropped dropped' counts budget r (k := running_tokens cfg budget r),
  J front dropped counts budget → id ∉ front → id ∈ sc_running s0 → (length front < length (sc_running s0))%nat →
  sc_requests s0 !! id = Some r → object_ok id r → (0 < budget)%Z → passes_over (sc_current_step s0) defer r = false →
  (0 < k ≤ budget)%Z → (dropped ≠ [] → dropped' ≠ []) → J (front ++ [id]) dropped' (counts ++ [(id, k)]) (budget - k).
Hypothesis Hdrop : ∀ front dropped dropped' counts budget, J front dropped counts budget → dropped' ≠ [] → J front dropped' counts budget.
Hypothesis Hturn : ∀ front counts budget, J front [] counts budget → sc_running s0 = front ∨ (budget ≤ 0)%Z → K [] counts budget.
Hypothesis Hadmit : ∀ new id counts budget r k,
  K new counts budget → id ∈ sc_waiting s0 → sc_requests s0 !! id = Some r → object_ok id r → waits r → (0 < budget)%Z →
  defer && (0 <? sr_num_tokens r - 1)%Z = false → waiting_tokens cfg budget r 0 = Some k → K (new ++ [id]) (counts ++ [(id, k)]) (budget - k).

Lemma schedule_requests_with granted :
  (0 ≤ sg_max_num_scheduled_tokens cfg)%Z → called kv k0 (sc_finished_req_ids s0) (sc_manager s0) granted →
  J [] [] [] (ps_token_budget (fresh_pass cfg s0)) →
  ∃ s p kept dropped new rest granted', schedule_requests cfg throttle_prefills s0 = (Ok p, s)
  ∧ pass_inv k0 s0 kept dropped new rest s p granted' ∧ (Z.of_nat (length (sc_running s)) ≤ sg_max_num_running_reqs cfg)%Z
  ∧ (new ≠ [] → dropped = [])
  ∧ ((new = [] ∧ ∃ front, J front dropped (ps_num_scheduled_tokens p) (ps_token_budget p))
     ∨ (dropped = [] ∧ K new (ps_num_scheduled_tokens p) (ps_token_budget p))).
Proof.
  intros Hmax Hc HJ. pose proof (pass_start k0 s0 granted Hs0 Hmax Hc) as H0.
  unfold schedule_requests. rewrite st_bind_eq. cbn [st_get].
  destruct (schedule_running_with defer J Hskip Hcount Hdrop (length (sc_running s0)) [] (sc_running s0) [] (sc_waiting s0) s0 _ granted H0)
    as (s1 & p1 & kept & dropped & g1 & front & E1 & H1 & _ & HJ1 & Hend); [by intros ? ?%not_elem_of_nil|done|done|].
  cbn [length] in E1. rewrite st_bind_eq, E1.
  assert (Z.of_nat (length (sc_running s1)) ≤ sg_max_num_running_reqs cfg)%Z as Hroom.
  { pose proof (so_room _ Hs0) as Hr. rewrite (pi_run0 _ _ _ _ _ _ _ _ _ H1), length_app in Hr.
    rewrite (pi_run _ _ _ _ _ _ _ _ _ H1), app_nil_r. lia. }
  assert (∀ m : result Pass * Scheduler, m = (Ok p1, s1) → ∃ s p kept dropped new rest granted', m = (Ok p, s)
    ∧ pass_inv k0 s0 kept dropped new rest s p granted' ∧ (Z.of_nat (length (sc_running s)) ≤ sg_max_num_running_reqs cfg)%Z
    ∧ (new ≠ [] → dropped = [])
    ∧ ((new = [] ∧ ∃ front, J front dropped (ps_num_scheduled_tokens p) (ps_token_budget p))
       ∨ (dropped = [] ∧ K new (ps_num_scheduled_tokens p) (ps_token_budget p)))) as Hstop.
  { intros m ->. exists s1, p1, kept, dropped, [], (sc_waiting s0), g1. split_and!; try done. left. split; [done|]. by exists front. }
  destruct (ps_preempted_reqs p1) as [|x l] eqn:Ep; [|by apply Hstop].
  destruct (sc_pause_state s0); [|by apply Hstop|by apply Hstop].
  rewrite (pi_preempted _ _ _ _ _ _ _ _ _ H1) in Ep. assert (dropped = []) as ->.
  { apply (f_equal reverse) in Ep. by rewrite reverse_involutive in Ep. }
  assert (sc_running s0 = front ∨ (ps_token_budget p1 ≤ 0)%Z) as Hend'.
  { destruct Hend as [<-|[?|?]]; [left|by right|done]. by rewrite (pi_run0 _ _ _ _ _ _ _ _ _ H1), app_nil_r. }
  rewrite st_bind_eq. cbn [st_get]. rewrite (pi_wait _ _ _ _ _ _ _ _ _ H1).
  destruct (schedule_waiting_with defer K Hadmit (length ([] ++ sc_waiting s0)) kept [] (sc_waiting s0) s1 p1 g1 H1 ltac:(done) Hroom)
    as (s2 & p2 & new & rest & g2 & E2 & H2 & Hroom2 & HK); [by eapply Hturn|].
  rewrite st_bind_eq, E2, st_bind_eq. cbn [st_get]. rewrite st_bind_eq. destruct defer.
  - exists s2, p2, kept, [], new, rest, g2. split_and!; try done. by right.
  - eexists _, p2, kept, [], new, rest, g2. split; [reflexivity|]. split; [|split; [done|split; [done|by right]]].
    apply (pass_clock kept [] new rest s2 p2 g2 (λ n, n) (λ _, negb (length (sc_waiting s2) =? 0)%nat) H2). done.
Qed.
End Requests.

Lemma schedule_requests_ok throttle_prefills granted :
  (0 ≤ sg_max_num_scheduled_tokens cfg)%Z → called kv k0 (sc_finished_req_ids s0) (sc_manager s0) granted →
  ∃ s p kept dropped new rest granted', schedule_requests cfg throttle_prefills s0 = (Ok p, s)
  ∧ pass_inv k0 s0 kept dropped new rest s p granted' ∧ (Z.of_nat (length (sc_running s)) ≤ sg_max_num_running_reqs cfg)%Z
  ∧ (new ≠ [] → dropped = []).
Proof.
  intros Hmax Hc.
  destruct (schedule_requests_with throttle_prefills (λ _ _ _ _, True) (λ _ _ _, True) ltac:(done) ltac:(done) ltac:(done) ltac:(done) ltac:(done) granted Hmax Hc I)
    as (s & p & kept & dropped & new & rest & g & E & H & Hroom & Heither & _). by eauto 12.
Qed.

(** The assertions hold. *)
Lemma check_pass_ok kept dropped new rest s p granted :
  pass_inv k0 s0 kept dropped new rest s p granted → (Z.of_nat (length (sc_running s)) ≤ sg_max_num_running_reqs cfg)%Z →
  (0 ≤ sg_max_num_scheduled_tokens cfg)%Z →
  check_pass cfg p s = (Ok tt, s) ∧ (total_scheduled p ≤ sg_max_num_scheduled_tokens cfg)%Z.
Proof.
  intros H Hroom Hmax. destruct (pi_budget _ _ _ _ _ _ _ _ _ H) as [Hb1 Hb2]. destruct (pi_old _ _ _ _ _ _ _ _ _ H) as [Hn Hin].
  assert (total_scheduled p ≤ sg_max_num_scheduled_tokens cfg)%Z as Htot by (cbn in Hb1; destruct (sc_pause_state s0); lia).
  split; [|done]. unfold check_pass, st_raise_if, st_lift, raise_if. rewrite st_bind_eq. cbn [st_get].
  rewrite (proj2 (Z.ltb_ge _ _)) by done. rewrite st_bind_eq. rewrite (proj2 (Z.ltb_ge _ _)) by done. rewrite st_bind_eq.
  rewrite (proj2 (Z.ltb_ge _ _)) by done. rewrite st_bind_eq. rewrite (proj2 (Nat.ltb_ge _ _)); [done|].
  rewrite (pi_run _ _ _ _ _ _ _ _ _ H), length_app, <-(pi_new _ _ _ _ _ _ _ _ _ H), length_app.
  assert (length (ps_running_reqs p) ≤ length kept)%nat; [|lia]. apply submseteq_length. by apply NoDup_submseteq.
Qed.

Lemma common_prefix_ok kept dropped new rest s p granted :
  pass_inv k0 s0 kept dropped new rest s p granted → common_prefix_of_running s = (Ok tt, s).
Proof.
  intros H. pose proof (proj1 (pi_tables _ _ _ _ _ _ _ _ _ H)) as (_ & Hc & _). unfold common_prefix_of_running. rewrite st_bind_eq.
  cbn [st_get]. destruct (sc_running s) as [|id l]; [done|]. rewrite st_bind_eq. erewrite (on_manager_same _ s (Ok 0%Z)); [done|].
  unfold get_num_common_prefix_blocks. rewrite st_bind_eq. cbn [st_get]. by rewrite Hc.
Qed.
End Base.
End Pass.
