(* ===== verification/SchedulerStep.v ===== *)
(** * A step of the scheduler

    [Scheduler.schedule] as a whole: on a well-formed scheduler it returns; its output is
    read off the pass ([SchedulerPass]), and the requests of the step have advanced. *)

From Stdlib Require Import ZArith Lia.
From stdpp Require Import base tactics numbers list option gmap strings.
From S2P Require Import Prelude FreeQueue BlockPool PoolState KVManager KVTables SchedRequest.
From S2P Require Import Torch Quant Tab Triton Stores StagedTensor InputBatch BlockTables RequestStates Lifecycle RunnerV2 Scheduler SchedCalls SchedulerPass.

(** ** Loops over requests *)

Lemma st_map_ok {S A B} (f : A → ST S B) (g : A → B) l s : (∀ x, x ∈ l → f x s = (Ok (g x), s)) → st_map f l s = (Ok (map g l), s).
Proof.
  induction l as [|x l IH]; intros H; [done|]. cbn [st_map map]. rewrite st_bind_eq, H by (by left).
  rewrite st_bind_eq, IH by (intros y Hy; apply H; by right). done.
Qed.

Definition with_requests (m : gmap string SchedRequest) (s : Scheduler) : Scheduler :=
  mkScheduler m (sc_waiting s) (sc_running s) (sc_finished_req_ids s) (sc_preempted_req_ids s) (sc_current_step s)
    (sc_prefill_capacity_bound s) (sc_pause_state s) (sc_manager s).

Definition named (m : gmap string SchedRequest) : Prop := ∀ id r, m !! id = Some r → sr_request_id r = id.

Lemma put_request_eq r s : put_request r s = (Ok tt, with_requests (<[sr_request_id r := r]> (sc_requests s)) s).
Proof. done. Qed.

Lemma get_request_eq id r s : sc_requests s !! id = Some r → get_request id s = (Ok r, s).
Proof. intros H. unfold get_request. rewrite st_bind_eq. cbn [st_get]. unfold st_lift. by rewrite H. Qed.

(** A loop that changes the object of every request of [items]. *)
Lemma st_for_requests (body : string * Z → ST Scheduler unit) (f : Scheduler → Z → SchedRequest → SchedRequest) items : ∀ s,
  named (sc_requests s) → NoDup (map fst items) → (∀ it, it ∈ items → is_Some (sc_requests s !! it.1)) →
  (∀ s' k r, sr_request_id (f s' k r) = sr_request_id r) →
  (∀ s' id k r, sc_requests s' !! id = Some r → sr_request_id r = id → body (id, k) s' = (Ok tt, with_requests (<[id := f s' k r]> (sc_requests s')) s')) →
  (∀ m s' k r, f (with_requests m s') k r = f s' k r) →
  ∃ m, st_for items body s = (Ok tt, with_requests m s)
  ∧ (∀ id, m !! id = (λ r, match (list_to_map items : gmap string Z) !! id with Some k => f s k r | None => r end) <$> sc_requests s !! id).
Proof.
  induction items as [|[id k] items IH]; intros s Hnamed Hnd Hin Hid Hbody Hf.
  { exists (sc_requests s). split; [by destruct s|]. intros id. by destruct (sc_requests s !! id). }
  cbn [map fst] in Hnd. apply NoDup_cons in Hnd as [Hnew Hnd]. destruct (Hin (id, k) ltac:(by left)) as [r Hr]. cbn [fst] in Hr.
  cbn [st_for]. rewrite st_bind_eq, (Hbody s id k r) by (by try apply Hnamed).
  set (s1 := with_requests (<[id := f s k r]> (sc_requests s)) s).
  destruct (IH s1) as (m & E & Hm); try done.
  - intros j x. cbn. rewrite lookup_insert. case_decide as Ej; [|apply Hnamed]. intros [= <-]. rewrite Hid, <-Ej. by apply Hnamed.
  - intros it Hit. cbn. destruct (decide (id = it.1)) as [<-|Hne]; [rewrite lookup_insert_eq; by eexists|].
    rewrite lookup_insert_ne by done. apply Hin. by right.
  - exists m. split; [exact E|]. intros j. rewrite Hm. cbn [sc_requests s1 with_requests list_to_map foldr uncurry fst snd].
    destruct (decide (j = id)) as [->|Hne].
    + rewrite !lookup_insert_eq, Hr. cbn. by rewrite not_elem_of_list_to_map_1.
    + rewrite !lookup_insert_ne by done. destruct (sc_requests s !! j); [|done]. cbn. destruct (list_to_map items !! j); [|done]. unfold s1. by rewrite Hf.
Qed.

(** ** The output of a pass *)

Definition dummy_request (id : string) : SchedRequest := new_request id [] (mkSampling 0 0 None [] None).
Definition request_of (s : Scheduler) (id : string) : SchedRequest := default (dummy_request id) (sc_requests s !! id).

Definition new_data (s : Scheduler) (id : string) : NewRequestData :=
  let r := request_of s id in
  mkNew id (Some (sr_prompt_token_ids r)) (Some (sr_all_token_ids r)) (map number (table_of (sc_manager s) id)) (sr_num_computed_tokens r)
    (Some (sp_max_tokens (sr_sampling_params r))).

(** The blocks granted to a running request in this step. *)
Definition granted_blocks (p : Pass) (id : string) : list Z := map number (kv_blocks (default empty_kv_cache_blocks (ps_new_blocks p !! id))).
Definition some_blocks (l : list Z) : option (list Z) := match l with [] => None | _ => Some l end.

Section Step.
Variables (cfg : SchedConfig) (n : nat) (visit : list string → list string).
Abbreviation kv := (sg_kv cfg).
Hypotheses (Hwm : (0 ≤ watermark_blocks kv)%Z) (Hbs : (0 < kv_block_size kv)%Z) (Hmax : (0 ≤ sg_max_num_scheduled_tokens cfg)%Z).

Definition output_of (s : Scheduler) (p : Pass) : SchedulerOutput :=
  let olds := ps_running_reqs p in
  mkOutput (map (new_data s) (ps_new_reqs p ++ ps_resumed_reqs p))
    (mkCached olds (map (λ id, sr_num_computed_tokens (request_of s id)) olds) (map (λ id, some_blocks (granted_blocks p id)) olds))
    (ps_num_scheduled_tokens p) (total_scheduled p) (visit (sc_finished_req_ids s)) (Some (visit (sc_preempted_req_ids s))).

Lemma ids_of_eq s bs : kv_ok n (sc_manager s) → (∀ r, r ∈ bs → r ∈ held_blocks (req_to_blocks (sc_manager s))) →
  on_manager (ids_of bs) s = (Ok (map number bs), s).
Proof.
  intros Hok Hin. apply on_manager_same. apply (ids_of_ok n (held_blocks (req_to_blocks (sc_manager s)))); [apply Hok|].
  intros r Hr. destruct (held_in_pool n _ r Hok (Hin r Hr)) as (i & -> & Hi). exists i. split; [done|lia].
Qed.

Lemma make_output_ok k0 s0 kept dropped new rest s p granted :
  sched_ok cfg n s0 → pass_inv cfg n k0 s0 kept dropped new rest s p granted → make_output visit p s = (Ok (output_of s p), s).
Proof.
  intros Hs0 H. pose proof (proj1 (pi_tables _ _ _ _ _ _ _ _ _ _ _ H)) as Hok.
  assert (∀ id, id ∈ new ++ ps_running_reqs p → ∃ r, sc_requests s !! id = Some r ∧ sr_request_id r = id) as Hreq.
  { intros id Hid. assert (∃ r, sc_requests s0 !! id = Some r ∧ sr_request_id r = id) as (r & Hr & Er).
    { destruct (proj2 (so_known _ _ _ Hs0 id)) as [r Hr].
      - rewrite (pi_run0 _ _ _ _ _ _ _ _ _ _ _ H), (pi_wait0 _ _ _ _ _ _ _ _ _ _ _ H). pose proof (pi_old _ _ _ _ _ _ _ _ _ _ _ H) as [_ Ho]. set_solver.
      - exists r. split; [done|]. by apply (so_object _ _ _ Hs0). }
    rewrite (pi_requests _ _ _ _ _ _ _ _ _ _ _ H), Hr. eexists. split; [reflexivity|]. unfold moved. by destruct (decide (id ∈ dropped)), (decide (id ∈ new)). }
  unfold make_output. rewrite st_bind_eq, (st_map_ok _ (new_data s)).
  - rewrite st_bind_eq. unfold _make_cached_request_data.
    rewrite st_bind_eq, (st_map_ok _ (λ id, (id, some_blocks (granted_blocks p id), sr_num_computed_tokens (request_of s id)))).
    + rewrite st_ret_eq, st_bind_eq. cbn [st_get]. rewrite st_ret_eq. unfold output_of. do 3 f_equal.
      rewrite !List.map_map. cbn. by rewrite map_id.
    + intros id Hid. destruct (Hreq id ltac:(set_solver)) as (r & Hr & Er). unfold cached_request_data.
      rewrite st_bind_eq, (get_request_eq id r) by done. destruct (pi_table_old _ _ _ _ _ _ _ _ _ _ _ H id Hid) as (b & Hb & Ht).
      rewrite st_bind_eq. unfold new_blocks_of, st_lift. rewrite Hb, st_bind_eq. unfold block_ids_or_none, block_ids_of, granted_blocks, request_of.
      rewrite Hb, Hr. change (default ?x (Some b)) with b. change (default ?x (Some r)) with r.
      destruct (kv_blocks b) as [|x l] eqn:Eb; [by rewrite st_ret_eq, Er|].
      rewrite <-Eb, st_bind_eq, ids_of_eq, !st_ret_eq, Er; [by rewrite Eb|done|].
      rewrite Eb. intros y Hy. apply table_held with id. rewrite Ht. apply elem_of_app; by right.
  - intros id Hid. rewrite (pi_new _ _ _ _ _ _ _ _ _ _ _ H) in Hid. destruct (Hreq id ltac:(set_solver)) as (r & Hr & Er). unfold new_request_data.
    rewrite st_bind_eq, (get_request_eq id r) by done. destruct (pi_table_new _ _ _ _ _ _ _ _ _ _ _ H id Hid) as (b & Hb & Ht).
    rewrite st_bind_eq. unfold new_blocks_of, st_lift. rewrite Hb, st_bind_eq. unfold block_ids_of. rewrite <-Ht, ids_of_eq, st_ret_eq, Er.
    + unfold new_data, request_of. by rewrite Hr.
    + done.
    + intros y Hy. by apply table_held with id.
Qed.

(** ** After the step *)

(** A request after [k] tokens were scheduled. *)
Definition advance (k : Z) (r : SchedRequest) : SchedRequest :=
  let computed := (sr_num_computed_tokens r + k)%Z in
  set_progress computed (sr_num_output_placeholders r) (computed <? sr_num_tokens r + sr_num_output_placeholders r)%Z
    (sr_next_decode_eligible_step r) r.

Definition hold (step : Z) (r : SchedRequest) : SchedRequest :=
  if sr_is_prefill_chunk r then r
  else set_progress (sr_num_computed_tokens r) (sr_num_output_placeholders r + 1) (sr_is_prefill_chunk r) (step + sg_pp_size cfg) r.

Definition after_step (step k : Z) (r : SchedRequest) : SchedRequest :=
  if sg_async_scheduling cfg then hold step (advance k r) else advance k r.

Definition after_counts (step : Z) (counts : list (string * Z)) (id : string) (r : SchedRequest) : SchedRequest :=
  match (list_to_map counts : gmap string Z) !! id with Some k => after_step step k r | None => r end.

Lemma update_after_schedule_ok s so :
  named (sc_requests s) → NoDup (map fst (so_num_scheduled_tokens so)) → (∀ it, it ∈ so_num_scheduled_tokens so → is_Some (sc_requests s !! it.1)) →
  ∃ m, _update_after_schedule cfg so s
     = (Ok tt, mkScheduler m (sc_waiting s) (sc_running s) [] [] (sc_current_step s) (sc_prefill_capacity_bound s) (sc_pause_state s) (sc_manager s))
  ∧ ∀ id, m !! id = after_counts (sc_current_step s) (so_num_scheduled_tokens so) id <$> sc_requests s !! id.
Proof.
  intros Hnamed Hnd Hin. unfold _update_after_schedule. set (items := so_num_scheduled_tokens so) in *.
  destruct (st_for_requests advance_request (λ _, advance) items s Hnamed Hnd Hin) as (m1 & E1 & Hm1); try done.
  { intros s' id k r Hr Er. unfold advance_request. cbn [fst snd].
    rewrite st_bind_eq, (get_request_eq id r), put_request_eq by done. cbn [set_progress sr_request_id]. by rewrite Er. }
  rewrite st_bind_eq, E1, st_bind_eq. cbn [set_gone st_modify]. unfold after_counts, after_step. destruct (sg_async_scheduling cfg).
  2: { exists m1. split; [done|]. exact Hm1. }
  set (s1 := mkScheduler _ _ _ _ _ _ _ _ _).
  destruct (st_for_requests (hold_place cfg) (λ s _, hold (sc_current_step s)) items s1) as (m2 & E2 & Hm2); try done.
  - intros id r. cbn. rewrite Hm1. destruct (sc_requests s !! id) as [r0|] eqn:Er; [|done]. cbn. intros [= <-].
    destruct (list_to_map items !! id); [change (sr_request_id r0 = id)|]; by apply Hnamed.
  - intros it Hit. cbn. rewrite Hm1. destruct (Hin it Hit) as [r ->]. by eexists.
  - intros s' k r. unfold hold. by destruct (sr_is_prefill_chunk r).
  - intros s' id k r Hr Er. unfold hold_place, hold. cbn [fst]. rewrite st_bind_eq, (get_request_eq id r), st_bind_eq by done. cbn [st_get].
    destruct (sr_is_prefill_chunk r); [|by rewrite put_request_eq; cbn; rewrite Er].
    rewrite insert_id by done. by destruct s'.
  - exists m2. split; [exact E2|]. intros id. rewrite Hm2. cbn [s1 sc_requests with_requests sc_current_step]. rewrite Hm1.
    destruct (sc_requests s !! id); [|done]. cbn. by destruct (list_to_map items !! id).
Qed.

(** ** The whole step *)

Definition tick (s : Scheduler) : Scheduler :=
  mkScheduler (sc_requests s) (sc_waiting s) (sc_running s) (sc_finished_req_ids s) (sc_preempted_req_ids s) (sc_current_step s + 1)
    (sc_prefill_capacity_bound s) (sc_pause_state s) (sc_manager s).

Lemma tick_ok s : sched_ok cfg n s → sched_ok cfg n (tick s).
Proof. by intros []. Qed.

(** What a request of the step is after it. *)
Lemma after_step_ok id step k r t :
  object_ok cfg id r → (0 < k ≤ sr_num_tokens r + sr_num_output_placeholders r - sr_num_computed_tokens r)%Z →
  (sr_num_computed_tokens r + k < max_model_len kv)%Z → t = after_step step k r → object_ok cfg id t ∧ sr_status t = sr_status r.
Proof.
  intros (O1 & O2 & O3 & O4 & O5 & O6 & O7) Hk Hlen ->. unfold after_step, hold, advance. set (computed := (sr_num_computed_tokens r + k)%Z).
  unfold object_ok. destruct (sg_async_scheduling cfg); cbn; [destruct (Z.ltb_spec computed (sr_num_tokens r + sr_num_output_placeholders r))|];
    cbn; unfold sr_num_tokens, sr_all_token_ids, sr_num_prompt_tokens in *; cbn in *; split_and!; try done; lia.
Qed.

(** The facts about the state after a step. *)
Record step_result (k0 : Manager) (s0 s s' : Scheduler) (p : Pass) (kept dropped new rest : list string) (granted : gmap string Z) : Prop := {
  re_pass : pass_inv cfg n k0 (tick s0) kept dropped new rest s p granted;
  re_total : (total_scheduled p ≤ sg_max_num_scheduled_tokens cfg)%Z;
  re_either : new ≠ [] → dropped = [];
  re_keys : NoDup (map fst (ps_num_scheduled_tokens p));
  re_running : sc_running s' = kept ++ new;
  re_waiting : sc_waiting s' = dropped ++ rest;
  re_finished : sc_finished_req_ids s' = [];
  re_manager : sc_manager s' = sc_manager s;
  re_step : sc_current_step s' = sc_current_step s;
  re_pause : sc_pause_state s' = sc_pause_state s;
  re_requests : ∀ id, sc_requests s' !! id = after_counts (sc_current_step s) (ps_num_scheduled_tokens p) id <$> sc_requests s !! id;
  re_ok : sched_ok cfg n s'
}.

Lemma pass_keys k0 s0 kept dropped new rest s p granted :
  sched_ok cfg n s0 → pass_inv cfg n k0 s0 kept dropped new rest s p granted → NoDup (map fst (ps_num_scheduled_tokens p)).
Proof.
  intros Hs0 H. pose proof (pass_nodup _ _ _ _ Hs0 _ _ _ _ _ _ _ H) as Hn. rewrite (pi_keys _ _ _ _ _ _ _ _ _ _ _ H).
  destruct (pi_old _ _ _ _ _ _ _ _ _ _ _ H) as [Ho Hin]. apply NoDup_app in Hn as (_ & Hd & Hn). apply NoDup_app in Hn as (_ & _ & Hn).
  apply NoDup_app in Hn as (Hn & _). apply NoDup_app. split; [done|]. split; [|done]. intros x Hx Hx'. apply (Hd x); [by apply Hin|set_solver].
Qed.

(** The request a pass leaves, from the one it found. *)
Lemma pass_object k0 s0 kept dropped new rest s p granted id r :
  sched_ok cfg n s0 → pass_inv cfg n k0 s0 kept dropped new rest s p granted → sc_requests s !! id = Some r →
  object_ok cfg id r ∧ (id ∈ kept ++ new → sr_status r = RUNNING) ∧ (id ∈ dropped ++ rest → waits r).
Proof.
  intros Hs0 H. pose proof (pass_nodup _ _ _ _ Hs0 _ _ _ _ _ _ _ H) as Hn. apply NoDup_app in Hn as (_ & N1 & Hn).
  apply NoDup_app in Hn as (_ & N2 & Hn). apply NoDup_app in Hn as (_ & N3 & _).
  rewrite (pi_requests _ _ _ _ _ _ _ _ _ _ _ H). destruct (sc_requests s0 !! id) as [r0|] eqn:Er; [|done]. cbn. intros [= <-].
  pose proof (so_object _ _ _ Hs0 id r0 Er) as Hobj. pose proof (so_runs _ _ _ Hs0 id r0) as Hruns. pose proof (so_waits _ _ _ Hs0 id r0) as Hwaits.
  rewrite (pi_run0 _ _ _ _ _ _ _ _ _ _ _ H) in Hruns. rewrite (pi_wait0 _ _ _ _ _ _ _ _ _ _ _ H) in Hwaits.
  pose proof Hobj as (O1 & O2 & O3 & O4 & O5 & O6 & O7). unfold moved. case_decide as Hd; [|case_decide as Hnew].
  - split; [unfold object_ok; cbn; unfold sr_num_tokens, sr_all_token_ids, sr_num_prompt_tokens in *; cbn in *; split_and!; try done; lia|].
    split; [|split; [by right|done]]. intros [Hk|Hk]%elem_of_app; [exfalso; apply (N1 id Hk); set_solver|exfalso; apply (N2 id Hd); set_solver].
  - split; [unfold object_ok; cbn; unfold sr_num_tokens, sr_all_token_ids, sr_num_prompt_tokens in *; cbn in *; split_and!; try done; lia|].
    split; [done|]. intros [Hk|Hk]%elem_of_app; [done|exfalso; by apply (N3 id Hnew)].
  - split; [done|]. split; intros [Hk|Hk]%elem_of_app; try done.
    + apply Hruns; [|done]. apply elem_of_app. by left.
    + apply Hwaits; [|done]. apply elem_of_app. by right.
Qed.

Lemma schedule_ok throttle_prefills k0 s0 granted :
  sched_ok cfg n s0 → called kv k0 (sc_finished_req_ids s0) (sc_manager s0) granted →
  ∃ s' s p kept dropped new rest granted', schedule cfg visit throttle_prefills s0 = (Ok (output_of s p), s')
  ∧ schedule_requests cfg throttle_prefills (tick s0) = (Ok p, s)
  ∧ step_result k0 s0 s s' p kept dropped new rest granted'.
Proof.
  intros Hs0 Hc. pose proof (tick_ok _ Hs0) as Ht.
  destruct (schedule_requests_ok cfg n Hwm Hbs k0 (tick s0) Ht throttle_prefills granted Hmax Hc)
    as (s & p & kept & dropped & new & rest & g & E1 & H & Hroom & Heither).
  destruct (check_pass_ok cfg n k0 (tick s0) kept dropped new rest s p g H Hroom Hmax) as [E2 Htot].
  pose proof (common_prefix_ok cfg n k0 (tick s0) kept dropped new rest s p g H) as E3.
  pose proof (make_output_ok k0 (tick s0) kept dropped new rest s p g Ht H) as E4.
  pose proof (pass_keys k0 (tick s0) kept dropped new rest s p g Ht H) as Hkeys.
  destruct (update_after_schedule_ok s (output_of s p)) as (m & E5 & Hm); [|exact Hkeys|..].
  { intros id r Hr. by apply (pass_object _ _ _ _ _ _ _ _ _ _ _ Ht H). }
  { intros it Hit. destruct (pi_counts _ _ _ _ _ _ _ _ _ _ _ H it Hit) as (r & _ & Hr & _). by exists r. }
  eexists _, s, p, kept, dropped, new, rest, g. split.
  { unfold schedule. rewrite st_bind_eq. cbn [set_clock st_modify]. fold (tick s0). rewrite st_bind_eq, E1, st_bind_eq, E2, st_bind_eq, E3, st_bind_eq, E4.
    rewrite st_bind_eq, E5. reflexivity. }
  split; [done|]. cbn [output_of so_num_scheduled_tokens] in Hm. split; cbn [sc_requests sc_waiting sc_running sc_finished_req_ids sc_manager sc_current_step sc_pause_state]; try done;
    try apply H.
  assert (∀ id r, m !! id = Some r → object_ok cfg id r ∧ (id ∈ kept ++ new → sr_status r = RUNNING) ∧ (id ∈ dropped ++ rest → waits r)) as Hobj.
  { intros id r. rewrite Hm. destruct (sc_requests s !! id) as [r0|] eqn:Er; [|done]. cbn. intros [= <-].
    destruct (pass_object _ _ _ _ _ _ _ _ _ _ _ Ht H Er) as (Ho & Hr & Hw). unfold after_counts.
    destruct (list_to_map (ps_num_scheduled_tokens p) !! id) as [k|] eqn:Ek; [|done]. apply elem_of_list_to_map_2 in Ek.
    destruct (pi_counts _ _ _ _ _ _ _ _ _ _ _ H _ Ek) as (r1 & t & Hr1 & K1 & K2 & K3 & _). cbn [fst snd] in *. assert (r1 = r0) as -> by congruence.
    destruct (after_step_ok id (sc_current_step s) k r0 _ Ho ltac:(lia) K3 eq_refl) as [Ho' Est]. split; [done|]. rewrite Est. split; [done|].
    intros Hin. exfalso. pose proof (pass_nodup _ _ _ _ Ht _ _ _ _ _ _ _ H) as Hn. rewrite app_assoc in Hn.
    assert (id ∈ kept ++ new) as Hin'.
    { assert (id ∈ map fst (ps_num_scheduled_tokens p)) as Hkey by (apply list_elem_of_In, in_map_iff; exists (id, k); split; [done|by apply list_elem_of_In]).
      rewrite (pi_keys _ _ _ _ _ _ _ _ _ _ _ H) in Hkey. pose proof (pi_old _ _ _ _ _ _ _ _ _ _ _ H) as [_ Ho2]. set_solver. }
    apply NoDup_app in Hn as (Hn1 & Hn2 & Hn3). apply NoDup_app in Hn1 as (_ & Hn1 & _). apply NoDup_app in Hn3 as (_ & Hn3 & _). set_solver. }
  split; cbn [sc_requests sc_waiting sc_running sc_finished_req_ids sc_preempted_req_ids sc_manager].
  - rewrite (pi_run _ _ _ _ _ _ _ _ _ _ _ H), (pi_wait _ _ _ _ _ _ _ _ _ _ _ H).
    pose proof (pass_nodup _ _ _ _ Ht _ _ _ _ _ _ _ H) as Hn. rewrite <-app_assoc.
    eapply NoDup_Permutation_proper; [|exact Hn]. apply Permutation_app_head. rewrite !app_assoc. apply Permutation_app_tail, Permutation_app_comm.
  - intros id. rewrite Hm, fmap_is_Some, (pi_requests _ _ _ _ _ _ _ _ _ _ _ H), fmap_is_Some, (so_known _ _ _ Ht).
    rewrite (pi_run _ _ _ _ _ _ _ _ _ _ _ H), (pi_wait _ _ _ _ _ _ _ _ _ _ _ H), (pi_run0 _ _ _ _ _ _ _ _ _ _ _ H), (pi_wait0 _ _ _ _ _ _ _ _ _ _ _ H).
    rewrite !elem_of_app. tauto.
  - intros id r Hr. by apply Hobj.
  - intros id r Hin Hr. apply (Hobj id r Hr). by rewrite (pi_run _ _ _ _ _ _ _ _ _ _ _ H) in Hin.
  - intros id r Hin Hr. apply (Hobj id r Hr). by rewrite (pi_wait _ _ _ _ _ _ _ _ _ _ _ H) in Hin.
  - apply H.
  - done.
  - by intros id ?%not_elem_of_nil.
  - done.
Qed.
End Step.
