(* ===== verification/SchedulerEvents.v ===== *)
(** * What happens between the steps

    [Scheduler.add_request], [finish_requests] and [update_from_output]: on a well-formed
    scheduler they return and keep it well formed.  A request that leaves ([discharge])
    leaves both queues, its object and its blocks, and its identifier is kept for the worker;
    [trim] is the scheduler once requests have left the queues. *)

From Stdlib Require Import ZArith Lia.
From stdpp Require Import base tactics numbers list option gmap strings.
From S2P Require Import Prelude FreeQueue BlockPool PoolState KVManager KVTables SchedRequest.
From S2P Require Import Torch Quant Tab Triton Stores StagedTensor InputBatch BlockTables RequestStates Lifecycle RunnerV2 Scheduler SchedCalls SchedulerPass SchedulerStep.

(** ** Queues *)

Lemma elem_of_remove x l ids : x ∈ remove_requests l ids ↔ x ∈ l ∧ x ∉ ids.
Proof. unfold remove_requests. rewrite !list_elem_of_In, filter_In. by rewrite bool_decide_eq_true, list_elem_of_In. Qed.

Lemma remove_nil l : remove_requests l [] = l.
Proof.
  unfold remove_requests. induction l as [|x l IH]; [done|]. cbn [List.filter]. rewrite bool_decide_eq_true_2 by apply not_elem_of_nil. by rewrite IH.
Qed.

Lemma remove_app l ids1 ids2 : remove_requests (remove_requests l ids1) ids2 = remove_requests l (ids1 ++ ids2).
Proof.
  unfold remove_requests. induction l as [|x l IH]; [done|]. cbn [List.filter]. rewrite !bool_decide_decide.
  destruct (decide (x ∉ ids1)) as [H1|H1]; cbn [List.filter].
  - rewrite bool_decide_decide. destruct (decide (x ∉ ids2)) as [H2|H2].
    + rewrite decide_True by (rewrite not_elem_of_app; done). by rewrite IH.
    + rewrite decide_False by (rewrite not_elem_of_app; tauto). done.
  - rewrite decide_False by (rewrite not_elem_of_app; tauto). done.
Qed.

Lemma remove_same l ids ids' : (∀ x, x ∈ l → x ∈ ids ↔ x ∈ ids') → remove_requests l ids = remove_requests l ids'.
Proof.
  unfold remove_requests. induction l as [|x l IH]; intros H; [done|]. cbn [List.filter]. rewrite IH by (intros y Hy; apply H; by right).
  assert (x ∈ ids ↔ x ∈ ids') as Hx by (apply H; by left). rewrite (bool_decide_ext (x ∉ ids) (x ∉ ids')) by (by rewrite Hx). done.
Qed.

Lemma remove_none l ids : (∀ x, x ∈ l → x ∉ ids) → remove_requests l ids = l.
Proof. intros H. rewrite <-(remove_nil l) at 2. apply remove_same. intros x Hx. split; [|by intros ?%not_elem_of_nil]. intros Hi. by destruct (H x Hx). Qed.

Lemma remove_nodup l ids : NoDup l → NoDup (remove_requests l ids).
Proof.
  unfold remove_requests. induction 1 as [|x l Hx Hl IH]; [constructor|]. cbn [List.filter]. case_bool_decide; [|done].
  constructor; [|done]. fold (remove_requests l ids). rewrite elem_of_remove. tauto.
Qed.

Lemma remove_first_eq x l : NoDup l → remove_first x l = remove_requests l [x].
Proof.
  unfold remove_requests. induction 1 as [|y l Hy Hl IH]; [done|]. cbn [remove_first List.filter]. case_bool_decide as E.
  - subst y. rewrite bool_decide_eq_false_2 by set_solver. symmetry. apply remove_none. set_solver.
  - rewrite bool_decide_eq_true_2 by set_solver. by rewrite IH.
Qed.

Lemma remove_all_eq l ids : NoDup l → remove_all l ids = remove_requests l ids.
Proof. intros H. destruct ids as [|x [|y ids]]; cbn [remove_all]; [by rewrite remove_nil|by apply remove_first_eq|done]. Qed.

Lemma remove_length l ids : (length (remove_requests l ids) ≤ length l)%nat.
Proof. unfold remove_requests. induction l as [|x l IH]; [done|]. cbn [List.filter]. case_bool_decide; cbn; lia. Qed.

(** ** Leaving *)

Definition trim (ids : list string) (s : Scheduler) : Scheduler :=
  mkScheduler (sc_requests s) (remove_requests (sc_waiting s) ids) (remove_requests (sc_running s) ids) (sc_finished_req_ids s)
    (sc_preempted_req_ids s) (sc_current_step s) (sc_prefill_capacity_bound s) (sc_pause_state s) (sc_manager s).

(** The object and the blocks of [id] are gone. *)
Definition released_object (id : string) (k : Manager) (s : Scheduler) : Scheduler :=
  mkScheduler (delete id (sc_requests s)) (sc_waiting s) (sc_running s) (set_add id (sc_finished_req_ids s))
    (sc_preempted_req_ids s) (sc_current_step s) (sc_prefill_capacity_bound s) (sc_pause_state s) k.

Definition discharge (id : string) (k : Manager) (s : Scheduler) : Scheduler := trim [id] (released_object id k s).

Lemma trim_discharge id k ids s : discharge id k (trim ids s) = trim (ids ++ [id]) (released_object id k s).
Proof. unfold discharge, trim, released_object. cbn [sc_requests sc_waiting sc_running sc_finished_req_ids sc_preempted_req_ids sc_current_step sc_prefill_capacity_bound sc_pause_state]. by rewrite !remove_app. Qed.

Lemma trim_nil s : trim [] s = s.
Proof. unfold trim. rewrite !remove_nil. by destruct s. Qed.

Section Events.
Variables (cfg : SchedConfig) (n : nat).
Abbreviation kv := (sg_kv cfg).

(** The manager after the blocks of [id] were freed. *)
Definition freed_manager (k0 : Manager) (s : Scheduler) (granted : gmap string Z) (id : string) (k : Manager) : Prop :=
  (∀ run', (∀ x, x ∈ sc_running s → x ∈ run' ∨ x = id) → tables_within kv n run' k)
  ∧ called kv k0 (id :: sc_finished_req_ids s) k (delete id granted)
  ∧ table_of k id = [] ∧ ∀ x, x ≠ id → table_of k x = table_of (sc_manager s) x.

Lemma free_request_eq r s : is_finished (sr_status r) = true →
  ∀ k', free (kv_request r) (sc_manager s) = (Ok tt, k') → _free_request r s = (Ok tt, released_object (sr_request_id r) k' s).
Proof.
  intros Hf k' Ef. unfold _free_request, _free_blocks, _free_request_blocks, st_raise_if, st_lift, raise_if. rewrite Hf. cbn [negb].
  rewrite !st_bind_eq. cbn [set_gone st_modify]. rewrite st_bind_eq. rewrite st_bind_eq. rewrite (on_manager_eq _ _ (Ok tt) k'); [|exact Ef]. reflexivity.
Qed.

Lemma discharge_ok k0 s granted id r r' :
  sched_ok cfg n s → called kv k0 (sc_finished_req_ids s) (sc_manager s) granted →
  sc_requests s !! id = Some r → sr_request_id r' = id → is_finished (sr_status r') = true →
  ∃ k', free (kv_request r') (sc_manager s) = (Ok tt, k') ∧ freed_manager k0 s granted id k' ∧ sched_ok cfg n (discharge id k' s)
  ∧ called kv k0 (sc_finished_req_ids (discharge id k' s)) k' (delete id granted).
Proof.
  intros Hs Hc Hr Hid Hf. destruct (free_within kv n k0 _ _ _ _ (kv_request r') (so_tables _ _ _ Hs) Hc) as (k' & Ef & Hw & Hc' & T0 & T1).
  cbn [kv_request request_id] in *. rewrite Hid in *. exists k'. split; [exact Ef|]. split; [by split_and!|].
  destruct Hs as [Q1 Q2 Q3 Q4 Q5 Q6 Q7 Q8 Q9]. split.
  - split; cbn [discharge trim released_object sc_requests sc_waiting sc_running sc_finished_req_ids sc_preempted_req_ids sc_manager].
    + apply NoDup_app in Q1 as (N1 & N2 & N3). apply NoDup_app. split; [by apply remove_nodup|]. split; [|by apply remove_nodup].
      intros x [Hx _]%elem_of_remove [Hx' _]%elem_of_remove. by apply (N2 x).
    + intros x. rewrite elem_of_app, !elem_of_remove, list_elem_of_singleton. destruct (decide (x = id)) as [->|Hne].
      * rewrite lookup_delete_eq. split; [by intros []|tauto].
      * rewrite lookup_delete_ne by done. rewrite Q2, elem_of_app. tauto.
    + intros x rx. rewrite lookup_delete_Some. intros [_ Hx]. by apply Q3.
    + intros x rx [Hx _]%elem_of_remove. rewrite lookup_delete_Some. intros [_ Hrx]. by apply (Q4 x).
    + intros x rx [Hx _]%elem_of_remove. rewrite lookup_delete_Some. intros [_ Hrx]. by apply (Q5 x).
    + apply Hw. intros x Hx. rewrite elem_of_remove, list_elem_of_singleton. destruct (decide (x = id)); tauto.
    + pose proof (remove_length (sc_running s) [id]). lia.
    + intros x [->|Hx]%set_add_elem; rewrite elem_of_remove, list_elem_of_singleton; [tauto|]. intros [Hx' _]. by apply (Q8 x).
    + done.
  - eapply called_mono; [|exact Hc']. cbn. intros x Hx. apply set_add_elem. by apply elem_of_cons in Hx.
Qed.

(** ** The fresh scheduler *)

Lemma scheduler_init_ok k :
  kv_ok n k → (∀ id, table_of k id = []) → (0 ≤ sg_max_num_running_reqs cfg)%Z → sched_ok cfg n (scheduler_init k).
Proof.
  intros Hok Ht Hmax. split; cbn; try done.
  - constructor.
  - intros id. split; [intros Hid; rewrite lookup_empty in Hid; by destruct Hid|by intros ?%not_elem_of_nil].
  - split; [done|]. intros id. rewrite Ht. split; [cbn; lia|done].
  - intros id Hid. by apply not_elem_of_nil in Hid.
Qed.

(** ** Adding a request *)

Definition prompt_ok (prompt : list Z) (params : SamplingParams) : Prop :=
  (0 < Z.of_nat (length prompt) < max_model_len kv)%Z ∧ (Z.of_nat (length prompt) + sp_min_tokens params ≤ max_model_len kv)%Z.

Lemma sched_add_ok s id prompt params :
  sched_ok cfg n s → sc_requests s !! id = None → prompt_ok prompt params →
  ∃ s', add_request (new_request id prompt params) s = (Ok tt, s') ∧ sched_ok cfg n s'
  ∧ sc_requests s' = <[id := new_request id prompt params]> (sc_requests s) ∧ sc_waiting s' = sc_waiting s ++ [id]
  ∧ sc_running s' = sc_running s ∧ sc_finished_req_ids s' = sc_finished_req_ids s ∧ sc_manager s' = sc_manager s.
Proof.
  intros Hs Hnew [Hp Hmin]. unfold add_request, st_raise_if, st_lift, raise_if. cbn [new_request sr_request_id]. rewrite st_bind_eq. cbn [st_get]. rewrite st_bind_eq.
  rewrite bool_decide_eq_false_2 by (rewrite Hnew; by intros []). eexists. split; [reflexivity|].
  assert (id ∉ sc_running s ++ sc_waiting s) as Hout by (rewrite <-(so_known _ _ _ Hs id), Hnew; by intros []).
  split; [|done]. destruct Hs as [Q1 Q2 Q3 Q4 Q5 Q6 Q7 Q8 Q9]. split; cbn [sc_requests sc_waiting sc_running sc_finished_req_ids sc_preempted_req_ids sc_manager]; try done.
  - rewrite app_assoc. apply NoDup_app. split; [done|]. split; [|by apply NoDup_singleton]. intros x Hx ->%list_elem_of_singleton. done.
  - intros x. rewrite app_assoc, elem_of_app, <-Q2, list_elem_of_singleton, lookup_insert. case_decide as E.
    + split; [by right|by eexists].
    + split; [by left|]. by intros [?| ->].
  - intros x r. rewrite lookup_insert. case_decide as E; [|by apply Q3]. intros [= <-]. subst x.
    unfold object_ok, sr_num_tokens, sr_all_token_ids, sr_num_prompt_tokens. cbn. rewrite app_nil_r. split_and!; try done; lia.
  - intros x r Hx. rewrite lookup_insert. case_decide as E; [|by apply Q4]. subst x. exfalso. apply Hout, elem_of_app. by left.
  - intros x r [Hx| ->%list_elem_of_singleton]%elem_of_app; rewrite lookup_insert.
    + case_decide as E; [|by apply Q5]. subst x. exfalso. apply Hout, elem_of_app. by right.
    + rewrite decide_True by done. intros [= <-]. split; [by left|done].
Qed.

(** ** The output of the worker *)

Definition extended (toks : list Z) (r : SchedRequest) : SchedRequest :=
  mkSched (sr_request_id r) (sr_prompt_token_ids r) (sr_output_token_ids r ++ toks) (sr_sampling_params r) (sr_status r)
    (sr_stop_reason r) (sr_num_computed_tokens r) (sr_num_output_placeholders r) (sr_async_tokens_to_discard r) (sr_is_prefill_chunk r)
    (sr_next_decode_eligible_step r) (sr_num_preemptions r).

Lemma extended_nil r : extended [] r = r.
Proof. unfold extended. rewrite app_nil_r. by destruct r. Qed.

Lemma extended_app l1 l2 r : extended l2 (extended l1 r) = extended (l1 ++ l2) r.
Proof. unfold extended. cbn. by rewrite <-app_assoc. Qed.

Lemma extended_tokens toks r : sr_num_tokens (extended toks r) = (sr_num_tokens r + Z.of_nat (length toks))%Z.
Proof. unfold sr_num_tokens, sr_all_token_ids. cbn. rewrite !length_app. lia. Qed.

(** The code stops a request in time: one that goes on is short of the length of the
    model. *)
Lemma check_stop_cases r token :
  (sr_num_prompt_tokens r + sp_min_tokens (sr_sampling_params r) ≤ max_model_len kv)%Z →
  ∃ stopped r', check_stop (max_model_len kv) (append_output_token_ids token r) = Ok (stopped, r')
  ∧ if stopped : bool then ∃ st reason, r' = set_stop st reason (extended [token] r) ∧ is_finished st = true
    else r' = extended [token] r ∧ (sr_num_tokens r' < max_model_len kv)%Z.
Proof.
  intros Hmin. destruct (check_stop_ok (max_model_len kv) (append_output_token_ids token r) token (sr_output_token_ids r) eq_refl)
    as (stopped & r' & E & H). exists stopped, r'. split; [done|]. unfold stop_spec in H.
  change (append_output_token_ids token r) with (extended [token] r) in *. change (sr_sampling_params (extended [token] r)) with (sr_sampling_params r) in H.
  assert (sr_num_tokens (extended [token] r) = sr_num_prompt_tokens r + sr_num_output_tokens (extended [token] r))%Z as Etok
    by (unfold sr_num_tokens, sr_all_token_ids, sr_num_prompt_tokens, sr_num_output_tokens; cbn; rewrite length_app; lia).
  destruct (Z.ltb_spec (sr_num_output_tokens (extended [token] r)) (sp_min_tokens (sr_sampling_params r))).
  { destruct H as [-> ->]. split; [done|]. lia. }
  case_decide; [destruct H as [-> ->]; by exists FINISHED_STOPPED, (sr_stop_reason r)|].
  case_decide; [destruct H as [-> ->]; by eexists FINISHED_STOPPED, _|].
  case_decide as Hcap; [destruct H as [-> ->]; by exists FINISHED_LENGTH_CAPPED, (sr_stop_reason r)|].
  destruct H as [(_ & -> & ->)|(_ & -> & ->)]; [by eexists FINISHED_REPETITION, _|]. split; [done|]. lia.
Qed.

Lemma append_until_stop_ok toks : ∀ r,
  (sr_num_prompt_tokens r + sp_min_tokens (sr_sampling_params r) ≤ max_model_len kv)%Z → (sr_num_tokens r < max_model_len kv)%Z →
  ∃ kept stopped r', append_until_stop cfg toks r = Ok (kept, stopped, r') ∧ kept `prefix_of` toks
  ∧ if stopped : bool then (∃ st reason, r' = set_stop st reason (extended kept r) ∧ is_finished st = true) ∧ kept ≠ []
    else kept = toks ∧ r' = extended toks r ∧ (sr_num_tokens r' < max_model_len kv)%Z.
Proof.
  induction toks as [|token toks IH]; intros r Hmin Hlen.
  { exists [], false, r. split; [done|]. split; [done|]. by rewrite extended_nil. }
  destruct (check_stop_cases r token Hmin) as (stopped & r1 & E & H). cbn [append_until_stop]. rewrite E, result_bind_ok. destruct stopped.
  { exists [token], true, r1. split; [done|]. split; [apply prefix_cons, prefix_nil|]. split; [exact H|done]. }
  destruct H as [-> Hlen1]. destruct (IH (extended [token] r)) as (kept & stopped & r' & E' & Hpre & H); [done|done|].
  exists (token :: kept), stopped, r'. rewrite E', result_bind_ok. split; [done|]. split; [by apply prefix_cons|]. destruct stopped.
  - destruct H as [(st & reason & -> & Hf) _]. split; [|done]. exists st, reason. split; [|done]. by rewrite extended_app.
  - destruct H as (-> & -> & H). split; [done|]. split; [by rewrite extended_app|done].
Qed.

(** The object of a request after its tokens came, if it goes on. *)
Definition settled (gen : list Z) (r : SchedRequest) : option SchedRequest :=
  match append_until_stop cfg gen r with
  | Ok (kept, false, r') =>
      Some (if sg_async_scheduling cfg
            then set_async (sr_num_output_placeholders r' - Z.of_nat (length kept)) (sr_async_tokens_to_discard r') r' else r')
  | _ => None
  end.

(** What the front end hears of it. *)
Definition output_for (id : string) (gen : list Z) (r : SchedRequest) : list EngineCoreOutput :=
  match append_until_stop cfg gen r with
  | Ok ([], false, _) | Err _ => []
  | Ok (kept, stopped, r') =>
      [mkEngineOutput id kept (if (stopped : bool) then get_finished_reason (sr_status r') else None) (sr_stop_reason r')]
  end.

Lemma settled_nil r : settled [] r = Some r.
Proof. unfold settled. cbn [append_until_stop]. destruct (sg_async_scheduling cfg); [|done]. f_equal. destruct r. unfold set_async. cbn. f_equal. lia. Qed.

(** A request that goes on is well formed, with all its tokens. *)
Lemma settled_ok id gen r r' :
  object_ok cfg id r → (sg_async_scheduling cfg = true → Z.of_nat (length gen) ≤ sr_num_output_placeholders r)%Z → settled gen r = Some r' →
  object_ok cfg id r' ∧ sr_status r' = sr_status r ∧ sr_all_token_ids r' = sr_all_token_ids r ++ gen
  ∧ sr_num_computed_tokens r' = sr_num_computed_tokens r ∧ sr_prompt_token_ids r' = sr_prompt_token_ids r
  ∧ sr_sampling_params r' = sr_sampling_params r ∧ sr_is_prefill_chunk r' = sr_is_prefill_chunk r
  ∧ sr_num_output_placeholders r' = (if sg_async_scheduling cfg then sr_num_output_placeholders r - Z.of_nat (length gen) else sr_num_output_placeholders r)%Z.
Proof.
  intros (O1 & O2 & O3 & O4 & O5 & O6 & O7) Hph. unfold settled.
  destruct (append_until_stop_ok gen r O7 ltac:(lia)) as (kept & stopped & r1 & -> & _ & H). destruct stopped; [done|].
  destruct H as (-> & -> & Hlen). intros [= <-]. pose proof (extended_tokens gen r) as Etok.
  destruct (sg_async_scheduling cfg); [specialize (Hph eq_refl)|]; unfold object_ok, set_async in *;
    unfold sr_num_tokens, sr_all_token_ids, sr_num_prompt_tokens in *; cbn in *; rewrite ?app_assoc in *; split_and!; try done; lia.
Qed.

Lemma cache_blocks_off s r k : kv_ok n (sc_manager s) → on_manager (cache_blocks_if_enabled kv r k) s = (Ok tt, s).
Proof. intros (_ & Hc & _). apply on_manager_same. unfold cache_blocks_if_enabled. rewrite st_bind_eq. cbn [st_get]. by rewrite Hc. Qed.

(** [_update_request_with_output] *)
Lemma update_with_output_ok id gen r s :
  sched_ok cfg n s ∨ kv_ok n (sc_manager s) → object_ok cfg id r → (sg_async_scheduling cfg = true → Z.of_nat (length gen) ≤ sr_num_output_placeholders r)%Z →
  ∃ kept stopped r' r1, append_until_stop cfg gen r = Ok (kept, stopped, r')
  ∧ _update_request_with_output cfg r gen s = (Ok (kept, stopped), with_requests (<[id := r1]> (sc_requests s)) s)
  ∧ sr_request_id r1 = id ∧ sr_status r1 = sr_status r' ∧ sr_stop_reason r1 = sr_stop_reason r'
  ∧ (if stopped : bool then is_finished (sr_status r1) = true else settled gen r = Some r1).
Proof.
  intros Hs Hobj Hph. pose proof Hobj as (O1 & O2 & O3 & O4 & O5 & O6 & O7).
  assert (kv_ok n (sc_manager s)) as Hok by (destruct Hs as [Hs|Hs]; [by destruct (so_tables _ _ _ Hs)|done]).
  destruct (append_until_stop_ok gen r O7 ltac:(lia)) as (kept & stopped & r' & E & Hpre & H). exists kept, stopped, r'.
  assert (sr_request_id r' = id ∧ sr_num_output_placeholders r' = sr_num_output_placeholders r) as [Eid Eph]
    by (destruct stopped; [destruct H as [(st & re & -> & _) _]|destruct H as (_ & -> & _)]; done).
  assert (length kept ≤ length gen)%nat as Hle by (by apply prefix_length).
  assert (stopped = true → is_finished (sr_status r') = true) as Hfin by (intros ->; by destruct H as [(st & re & -> & Hf) _]).
  unfold _update_request_with_output, settled. rewrite O2, E. rewrite Z.ltb_irrefl, andb_false_r. unfold st_lift. rewrite st_bind_eq.
  destruct (sg_async_scheduling cfg) eqn:Ea.
  - specialize (Hph eq_refl). eexists. split; [done|]. rewrite st_bind_eq, put_request_eq, st_bind_eq. unfold st_raise_if, st_lift, raise_if.
    rewrite (proj2 (Z.ltb_ge _ _)) by lia. rewrite st_bind_eq.
    set (s1 := with_requests _ s).
    assert (∀ b : bool, (if b then on_manager (cache_blocks_if_enabled kv (kv_request (set_async (sr_num_output_placeholders r' - Z.of_nat (length kept)) (sr_async_tokens_to_discard r') r'))
              (sr_num_computed_tokens (set_async (sr_num_output_placeholders r' - Z.of_nat (length kept)) (sr_async_tokens_to_discard r') r') - (sr_num_output_placeholders r' - Z.of_nat (length kept)))) else mret tt) s1 = (Ok tt, s1)) as Hcache
      by (intros [|]; [by apply cache_blocks_off|done]).
    rewrite Hcache, st_ret_eq. unfold s1. cbn [set_async sr_request_id]. rewrite Eid. split; [reflexivity|]. split; [done|]. split; [done|]. split; [done|].
    destruct stopped; [by apply Hfin|done].
  - exists r'. split; [done|]. rewrite st_bind_eq, put_request_eq, Eid, st_ret_eq. split; [done|]. split; [done|]. split; [done|]. split; [done|].
    destruct stopped; [by apply Hfin|done].
Qed.

(** Who has left by [s']. *)
Definition gone_by (s s' : Scheduler) (id : string) : Prop := is_Some (sc_requests s !! id) ∧ sc_requests s' !! id = None.

(** What rounds change, with the identifiers [ids] of the requests that stopped. *)
Record progressed (s s' : Scheduler) (ids : list string) : Prop := {
  pg_waiting : sc_waiting s' = sc_waiting s;
  pg_running : sc_running s' = sc_running s;
  pg_gone : ∀ id, id ∈ ids ↔ gone_by s s' id;
  pg_finished : ∀ id, id ∈ sc_finished_req_ids s' ↔ id ∈ sc_finished_req_ids s ∨ gone_by s s' id;
  pg_left : ∀ id, sc_requests s !! id = None → sc_requests s' !! id = None;
  pg_tables : ∀ id, is_Some (sc_requests s' !! id) → table_of (sc_manager s') id = table_of (sc_manager s) id
}.

Lemma progressed_same s : progressed s s [].
Proof.
  assert (∀ x, ¬ gone_by s s x) as Hg by (intros x [[y Hy] Hn]; congruence). split; try done.
  - intros x. split; [by intros ?%not_elem_of_nil|by intros ?%Hg].
  - intros x. specialize (Hg x). tauto.
Qed.

(** Another object for a request that goes on. *)
Lemma replace_ok s id r r1 :
  sched_ok cfg n s → sc_requests s !! id = Some r → object_ok cfg id r1 → sr_status r1 = sr_status r →
  sr_num_computed_tokens r1 = sr_num_computed_tokens r → sched_ok cfg n (with_requests (<[id := r1]> (sc_requests s)) s).
Proof.
  intros [Q1 Q2 Q3 Q4 Q5 Q6 Q7 Q8 Q9] Hr Hobj Hst Hc. split; cbn [with_requests sc_requests sc_waiting sc_running sc_finished_req_ids sc_preempted_req_ids sc_manager]; try done.
  - intros x. rewrite <-Q2, lookup_insert. case_decide as E; [|done]. subst x. rewrite Hr. split; by eexists.
  - intros x rx. rewrite lookup_insert. case_decide as E; [|by apply Q3]. by intros [= <-]; subst x.
  - intros x rx Hx. rewrite lookup_insert. case_decide as E; [|by apply Q4]. intros [= <-]. subst x. rewrite Hst. by apply (Q4 id).
  - intros x rx Hx. rewrite lookup_insert. case_decide as E; [|by apply Q5]. intros [= <-]. subst x. unfold waits. rewrite Hst, Hc. by apply (Q5 id).
Qed.

Lemma progressed_replace s id r r1 : sc_requests s !! id = Some r → progressed s (with_requests (<[id := r1]> (sc_requests s)) s) [].
Proof.
  intros Hr. assert (∀ x, ¬ gone_by s (with_requests (<[id := r1]> (sc_requests s)) s) x) as Hg.
  { intros x [[y Hy] Hn]. cbn in Hn. rewrite lookup_insert in Hn. case_decide; [done|congruence]. }
  split; try done.
  - intros x. split; [by intros ?%not_elem_of_nil|by intros ?%Hg].
  - intros x. specialize (Hg x). cbn. tauto.
  - intros x Hx. cbn. rewrite lookup_insert_ne; [done|]. intros ->. congruence.
Qed.

Lemma progressed_release k0 s granted ids id r k' :
  sc_requests s !! id = Some r → freed_manager k0 (trim ids s) granted id k' → progressed s (released_object id k' s) [id].
Proof.
  intros Hr (_ & _ & _ & T1). assert (∀ x, gone_by s (released_object id k' s) x ↔ x = id) as Hg.
  { intros x. unfold gone_by. cbn. rewrite lookup_delete. case_decide as E; [subst x|]; [split; [done|]; intros _; split; [by eexists|done]|].
    split; [|by intros ->]. intros [[y Hy] Hn]. congruence. }
  split; try done.
  - intros x. by rewrite Hg, list_elem_of_singleton.
  - intros x. cbn. rewrite Hg, set_add_elem. tauto.
  - intros x Hx. cbn. rewrite lookup_delete. by case_decide.
  - intros x Hx. cbn in Hx |- *. rewrite lookup_delete in Hx. case_decide; [by destruct Hx|]. by apply T1.
Qed.

(** Where a live request of a trimmed scheduler is. *)
Lemma live_queue ids s id r :
  sched_ok cfg n (trim ids s) → sc_requests s !! id = Some r →
  is_finished (sr_status r) = false ∧ (sr_status r = RUNNING ∧ id ∈ sc_running s ∨ sr_status r ≠ RUNNING ∧ id ∈ sc_waiting s).
Proof.
  intros Hs Hr. pose proof (proj1 (so_known _ _ _ Hs id) ltac:(by eexists)) as H. cbn in H. apply elem_of_app in H as [H|H].
  - pose proof (so_runs _ _ _ Hs id r H Hr) as ->. split; [done|]. left. apply elem_of_remove in H. tauto.
  - destruct (so_waits _ _ _ Hs id r H Hr) as [Hst _]. apply elem_of_remove in H. split; [by destruct Hst as [->| ->]|]. right.
    split; [by destruct Hst as [->| ->]|tauto].
Qed.

(** One round, on a scheduler whose queues are trimmed of those that stopped before. *)
Definition round_output (s : Scheduler) (id : string) (gen : list Z) : list EngineCoreOutput :=
  match sc_requests s !! id with Some r => output_for id gen r | None => [] end.

Definition round_ok (k0 : Manager) (s : Scheduler) (ids : list string) (R1 R2 : list string) (id : string) (gen : list Z)
    (s' : Scheduler) (ids' R1' R2' : list string) : Prop :=
  sched_ok cfg n (trim (ids ++ ids') s') ∧ (∃ granted', called kv k0 (sc_finished_req_ids s') (sc_manager s') granted')
  ∧ progressed s s' ids'
  ∧ (∀ x, sc_requests s' !! x = if decide (x = id) then sc_requests s !! id ≫= settled gen else sc_requests s !! x)
  ∧ (∀ x, x ∈ R1' → x ∈ R1 ∨ x ∈ ids' ∧ x ∈ sc_running s) ∧ (∀ x, x ∈ R2' → x ∈ R2 ∨ x ∈ ids' ∧ x ∈ sc_waiting s)
  ∧ (∀ x, x ∈ R1 ++ R2 ++ ids' → x ∈ R1' ++ R2').

Lemma update_live_ok k0 s granted ids id k gen mro outs R1 R2 r :
  sched_ok cfg n (trim ids s) → called kv k0 (sc_finished_req_ids s) (sc_manager s) granted → (0 < k)%Z →
  (∀ s', generated_tokens mro id s' = (Ok gen, s')) → gen ≠ [] → sc_requests s !! id = Some r →
  (sg_async_scheduling cfg = true → Z.of_nat (length gen) ≤ sr_num_output_placeholders r)%Z →
  ∃ s' ids' R1' R2', update_request_from_output cfg mro (id, k) (outs, R1, R2) s = (Ok (outs ++ output_for id gen r, R1', R2'), s')
  ∧ round_ok k0 s ids R1 R2 id gen s' ids' R1' R2'.
Proof.
  intros Hs Hc Hk Hgen Hne Er Hph. unfold update_request_from_output, st_raise_if, st_lift, raise_if. cbn [fst snd]. rewrite st_bind_eq.
  destruct (Z.leb_spec k 0); [lia|]. rewrite st_bind_eq. cbn [st_get]. rewrite Er.
  pose proof (so_object _ _ _ Hs id r Er) as Hobj. destruct (live_queue ids s id r Hs Er) as [-> Hq].
  rewrite st_bind_eq, Hgen.
  destruct (update_with_output_ok id gen r s (or_intror (proj1 (so_tables _ _ _ Hs))) Hobj Hph) as (kept & stopped & r' & r1 & Ea & E & Eid & Est & Ere & Hres).
  set (s1 := with_requests _ s) in E. set (outs' := outs ++ output_for id gen r).
  assert ((match kept, stopped with [], false => outs | _, _ => outs ++ [mkEngineOutput id kept (if stopped then get_finished_reason (sr_status r1) else None) (sr_stop_reason r1)] end) = outs') as Eout.
  { unfold outs', output_for. rewrite Ea, Est, Ere. destruct kept, stopped; by rewrite ?app_nil_r. }
  rewrite st_bind_eq. destruct gen as [|token gen]; [done|]. rewrite E, st_bind_eq, (get_request_eq id r1) by (cbn; by rewrite lookup_insert_eq).
  destruct stopped.
  - destruct (discharge_ok k0 (trim ids s) granted id r r1 Hs Hc Er Eid Hres) as (k' & Ef & Hfree & Hs' & Hc').
    pose proof (free_request_eq r1 s1 Hres k' Ef) as Efree. rewrite Eid in Efree.
    assert (released_object id k' s1 = released_object id k' s) as Erel by (unfold released_object, s1; cbn; by rewrite delete_insert_eq).
    rewrite Erel in Efree. rewrite st_bind_eq, Efree, st_ret_eq. rewrite trim_discharge in Hs'.
    assert (∀ x R, x ∈ R ++ [id] ↔ x ∈ R ∨ x = id) as Hel by (intros x R; by rewrite elem_of_app, list_elem_of_singleton).
    destruct Hq as [[Hrun Hin]|[Hnr Hin]].
    + rewrite (bool_decide_eq_true_2 _ Hrun). eexists _, [id], (set_add id R1), R2. split; [rewrite <-Eout; by destruct kept|].
      split; [exact Hs'|]. split; [by eexists|]. split; [by eapply progressed_release|]. split; [|split; [|split; [by left|]]].
      * intros x. cbn. rewrite lookup_delete, Er. destruct (decide (id = x)) as [->|Hx]; [rewrite decide_True by done; cbn; unfold settled; by rewrite Ea|].
        by rewrite decide_False by (by intros ->).
      * intros x [->|]%set_add_elem; [right; by split; [left|]|by left].
      * intros x. rewrite !elem_of_app, set_add_elem, list_elem_of_singleton. tauto.
    + rewrite (bool_decide_eq_false_2 _ Hnr). eexists _, [id], R1, (set_add id R2). split; [rewrite <-Eout; by destruct kept|].
      split; [exact Hs'|]. split; [by eexists|]. split; [by eapply progressed_release|]. split; [|split; [by left|split]].
      * intros x. cbn. rewrite lookup_delete, Er. destruct (decide (id = x)) as [->|Hx]; [rewrite decide_True by done; cbn; unfold settled; by rewrite Ea|].
        by rewrite decide_False by (by intros ->).
      * intros x [->|]%set_add_elem; [right; by split; [left|]|by left].
      * intros x. rewrite !elem_of_app, set_add_elem, list_elem_of_singleton. tauto.
  - destruct (settled_ok id _ r r1 Hobj Hph Hres) as (Hobj1 & Hst1 & _ & Hcomp & _).
    rewrite st_bind_eq, !st_ret_eq. eexists s1, [], R1, R2. split; [rewrite <-Eout; by destruct kept|].
    split; [rewrite app_nil_r; by apply (replace_ok (trim ids s) id r r1)|]. split; [by exists granted|]. split; [by eapply progressed_replace|].
    split; [|split; [by left|split; [by left|intros x; by rewrite app_nil_r]]].
    intros x. cbn. rewrite lookup_insert, Er. destruct (decide (id = x)) as [->|Hx]; [rewrite decide_True by done; cbn; by rewrite Hres|].
    by rewrite decide_False by (by intros ->).
Qed.

Lemma update_request_ok k0 s granted ids id k gen mro outs R1 R2 :
  sched_ok cfg n (trim ids s) → called kv k0 (sc_finished_req_ids s) (sc_manager s) granted → (0 < k)%Z →
  (∀ s', generated_tokens mro id s' = (Ok gen, s')) →
  (sg_async_scheduling cfg = true → ∀ r, sc_requests s !! id = Some r → Z.of_nat (length gen) ≤ sr_num_output_placeholders r)%Z →
  ∃ s' ids' R1' R2', update_request_from_output cfg mro (id, k) (outs, R1, R2) s = (Ok (outs ++ round_output s id gen, R1', R2'), s')
  ∧ round_ok k0 s ids R1 R2 id gen s' ids' R1' R2'.
Proof.
  intros Hs Hc Hk Hgen Hph. unfold round_output. destruct (sc_requests s !! id) as [r|] eqn:Er.
  - destruct gen as [|token gen]; [|by eapply update_live_ok; eauto].
    exists s, [], R1, R2. unfold update_request_from_output, st_raise_if, st_lift, raise_if. cbn [fst snd]. rewrite st_bind_eq.
    destruct (Z.leb_spec k 0); [lia|]. rewrite st_bind_eq. cbn [st_get]. rewrite Er. destruct (live_queue ids s id r Hs Er) as [-> _].
    rewrite st_bind_eq, Hgen, st_bind_eq, st_ret_eq, st_bind_eq, (get_request_eq id r) by done. rewrite st_bind_eq, !st_ret_eq.
    split; [cbn; by rewrite app_nil_r|]. split; [by rewrite app_nil_r|]. split; [by exists granted|]. split; [apply progressed_same|].
    split; [|split; [by left|split; [by left|intros x; by rewrite app_nil_r]]].
    intros x. case_decide; [|done]. subst. rewrite Er. change (Some r ≫= settled []) with (settled [] r). by rewrite settled_nil.
  - exists s, [], R1, R2. unfold update_request_from_output, st_raise_if, st_lift, raise_if. cbn [fst snd]. rewrite st_bind_eq.
    destruct (Z.leb_spec k 0); [lia|]. rewrite st_bind_eq. cbn [st_get]. rewrite Er.
    split; [cbn; by rewrite app_nil_r|]. split; [by rewrite app_nil_r|]. split; [by exists granted|]. split; [apply progressed_same|].
    split; [|split; [by left|split; [by left|intros x; by rewrite app_nil_r]]]. intros x. by case_decide; [subst; rewrite Er|].
Qed.

Lemma progressed_trans s s1 s2 i1 i2 : progressed s s1 i1 → progressed s1 s2 i2 → progressed s s2 (i1 ++ i2).
Proof.
  intros [A1 A2 A3 A4 A5 A6] [B1 B2 B3 B4 B5 B6].
  assert (∀ x, gone_by s s2 x ↔ gone_by s s1 x ∨ gone_by s1 s2 x) as Hg.
  { intros x. unfold gone_by. split.
    - intros [H1 H2]. destruct (sc_requests s1 !! x) as [r|] eqn:E; [right; by split; [eexists|]|by left].
    - intros [[H1 H2]|[H1 H2]]; [split; [done|by apply B5]|]. split; [|done]. destruct (sc_requests s !! x) as [r|] eqn:E; [by eexists|].
      rewrite (A5 x E) in H1. by destruct H1. }
  split.
  - congruence.
  - congruence.
  - intros x. by rewrite elem_of_app, A3, B3, Hg.
  - intros x. rewrite B4, A4, Hg. tauto.
  - intros x Hx. by apply B5, A5.
  - intros x Hx. rewrite B6 by done. apply A6. destruct (sc_requests s1 !! x) as [r|] eqn:E; [by eexists|]. rewrite (B5 x E) in Hx. by destruct Hx.
Qed.

(** All rounds of the loop. *)
Lemma update_rounds_ok k0 (gen : string → list Z) mro items : ∀ s granted ids outs R1 R2,
  sched_ok cfg n (trim ids s) → called kv k0 (sc_finished_req_ids s) (sc_manager s) granted → NoDup (map fst items) →
  (∀ it, it ∈ items → (0 < it.2)%Z ∧ ∀ s', generated_tokens mro it.1 s' = (Ok (gen it.1), s')) →
  (sg_async_scheduling cfg = true → ∀ it r, it ∈ items → sc_requests s !! it.1 = Some r →
     Z.of_nat (length (gen it.1)) ≤ sr_num_output_placeholders r)%Z →
  ∃ s' ids' R1' R2' granted', update_requests_from_output cfg mro items (outs, R1, R2) s
     = (Ok (outs ++ concat (map (λ it, round_output s it.1 (gen it.1)) items), R1', R2'), s')
  ∧ sched_ok cfg n (trim (ids ++ ids') s') ∧ called kv k0 (sc_finished_req_ids s') (sc_manager s') granted'
  ∧ progressed s s' ids'
  ∧ (∀ x, sc_requests s' !! x = if decide (x ∈ map fst items) then sc_requests s !! x ≫= settled (gen x) else sc_requests s !! x)
  ∧ (∀ x, x ∈ R1' → x ∈ R1 ∨ x ∈ ids' ∧ x ∈ sc_running s) ∧ (∀ x, x ∈ R2' → x ∈ R2 ∨ x ∈ ids' ∧ x ∈ sc_waiting s)
  ∧ (∀ x, x ∈ R1 ++ R2 ++ ids' → x ∈ R1' ++ R2').
Proof.
  induction items as [|[id k] items IH]; intros s granted ids outs R1 R2 Hs Hc Hnd Hit Hph.
  { exists s, [], R1, R2, granted. cbn [update_requests_from_output map concat]. rewrite !app_nil_r. split; [done|]. split; [done|]. split; [done|].
    split; [apply progressed_same|]. split; [|split; [by left|split; [by left|done]]].
    intros x. by rewrite decide_False by apply not_elem_of_nil. }
  cbn [map fst] in Hnd. apply NoDup_cons in Hnd as [Hnew Hnd].
  destruct (Hit (id, k) ltac:(by left)) as [Hk Hgen]. cbn [fst snd] in Hk, Hgen.
  destruct (update_request_ok k0 s granted ids id k (gen id) mro outs R1 R2 Hs Hc Hk Hgen) as (s1 & i1 & P1 & P2 & E1 & Hs1 & (g1 & Hc1) & Hp1 & Hr1 & Q1 & Q2 & Q3).
  { intros Ha r Hr. apply (Hph Ha (id, k) r); [by left|done]. }
  assert (∀ it, it ∈ items → it.1 ≠ id) as Hne by (intros it Hi <-; by apply Hnew, list_elem_of_In, in_map, list_elem_of_In).
  destruct (IH s1 g1 (ids ++ i1) (outs ++ round_output s id (gen id)) P1 P2 Hs1 Hc1 Hnd) as (s2 & i2 & P1' & P2' & g2 & E2 & Hs2 & Hc2 & Hp2 & Hr2 & Q1' & Q2' & Q3').
  { intros it Hi. apply Hit. by right. }
  { intros Ha it r Hi Hr. rewrite Hr1, decide_False in Hr by (by apply Hne). apply (Hph Ha it r); [by right|done]. }
  exists s2, (i1 ++ i2), P1', P2', g2. cbn [update_requests_from_output]. rewrite st_bind_eq, E1, E2. split; [|split; [|split; [done|split; [|split; [|split; [|split]]]]]].
  - cbn [map concat fst]. rewrite <-app_assoc. erewrite map_ext_in; [reflexivity|]. intros it Hi%list_elem_of_In. unfold round_output.
    rewrite Hr1, decide_False; [done|]. by apply Hne.
  - by rewrite app_assoc.
  - by eapply progressed_trans.
  - intros x. rewrite Hr2, Hr1. cbn [map fst]. destruct (decide (x = id)) as [->|Hx].
    + rewrite decide_False by done. by rewrite decide_True by (by left).
    + destruct (decide (x ∈ map fst items)); [by rewrite decide_True by (by right)|]. rewrite decide_False; [done|]. rewrite elem_of_cons. tauto.
  - intros x Hx. destruct (Q1' x Hx) as [Hx'|[Hx' Hq]]; [destruct (Q1 x Hx') as [?|[? ?]]; [by left|right; split; [set_solver|done]]|].
    right. split; [set_solver|]. by rewrite <-(pg_running _ _ _ Hp1).
  - intros x Hx. destruct (Q2' x Hx) as [Hx'|[Hx' Hq]]; [destruct (Q2 x Hx') as [?|[? ?]]; [by left|right; split; [set_solver|done]]|].
    right. split; [set_solver|]. by rewrite <-(pg_waiting _ _ _ Hp1).
  - intros x Hx. apply Q3'. rewrite !elem_of_app in Hx. rewrite !elem_of_app.
    assert (x ∈ R1 ++ R2 ++ i1 → x ∈ P1 ∨ x ∈ P2) as Hx' by (intros ?; by apply elem_of_app, Q3). rewrite !elem_of_app in Hx'. tauto.
Qed.

(** [update_from_output] returns, and keeps the scheduler well formed: every live request
    of the step has the tokens generated for it, or has left. *)
Lemma update_from_output_ok k0 (gen : string → list Z) mro so s granted :
  sched_ok cfg n s → called kv k0 (sc_finished_req_ids s) (sc_manager s) granted → NoDup (map fst (so_num_scheduled_tokens so)) →
  (∀ it, it ∈ so_num_scheduled_tokens so → (0 < it.2)%Z ∧ ∀ s', generated_tokens mro it.1 s' = (Ok (gen it.1), s')) →
  (sg_async_scheduling cfg = true → ∀ it r, it ∈ so_num_scheduled_tokens so → sc_requests s !! it.1 = Some r →
     Z.of_nat (length (gen it.1)) ≤ sr_num_output_placeholders r)%Z →
  ∃ s' granted', update_from_output cfg so mro s
     = (Ok (concat (map (λ it, round_output s it.1 (gen it.1)) (so_num_scheduled_tokens so))), s')
  ∧ sched_ok cfg n s' ∧ called kv k0 (sc_finished_req_ids s') (sc_manager s') granted'
  ∧ (∀ x, sc_requests s' !! x
       = if decide (x ∈ map fst (so_num_scheduled_tokens so)) then sc_requests s !! x ≫= settled (gen x) else sc_requests s !! x)
  ∧ (∀ x, x ∈ sc_running s' ↔ x ∈ sc_running s ∧ is_Some (sc_requests s' !! x))
  ∧ (∀ x, x ∈ sc_waiting s' ↔ x ∈ sc_waiting s ∧ is_Some (sc_requests s' !! x))
  ∧ (∀ x, x ∈ sc_finished_req_ids s' ↔ x ∈ sc_finished_req_ids s ∨ gone_by s s' x)
  ∧ ∀ x, is_Some (sc_requests s' !! x) → table_of (sc_manager s') x = table_of (sc_manager s) x.
Proof.
  intros Hs Hc Hnd Hit Hph.
  destruct (update_rounds_ok k0 gen mro (so_num_scheduled_tokens so) s granted [] [] [] [] ltac:(by rewrite trim_nil) Hc Hnd Hit Hph)
    as (s1 & ids & R1 & R2 & g & E & Hs1 & Hc1 & [P1 P2 P3 P4 P5 P6] & Hr & Q1 & Q2 & Q3). cbn [app] in Hs1, Q3.
  assert (∀ x, x ∈ R1 → x ∈ ids ∧ x ∈ sc_running s) as Q1' by (intros x Hx; by destruct (Q1 x Hx) as [?%not_elem_of_nil|]).
  assert (∀ x, x ∈ R2 → x ∈ ids ∧ x ∈ sc_waiting s) as Q2' by (intros x Hx; by destruct (Q2 x Hx) as [?%not_elem_of_nil|]).
  pose proof (so_nodup _ _ _ Hs) as Hn. apply NoDup_app in Hn as (Hn1 & Hn2 & _).
  assert (remove_all (sc_running s1) R1 = remove_requests (sc_running s1) ids) as E1.
  { rewrite P2, remove_all_eq by done. apply remove_same. intros x Hx. split; [by intros [? _]%Q1'|]. intros Hi. destruct (proj1 (elem_of_app _ _ _) (Q3 x Hi)) as [|Hw]; [done|].
    apply Q2' in Hw as [_ Hw]. by destruct (Hn2 x Hx). }
  assert (remove_requests (sc_waiting s1) R2 = remove_requests (sc_waiting s1) ids) as E2.
  { rewrite P1. apply remove_same. intros x Hx. split; [by intros [? _]%Q2'|]. intros Hi. destruct (proj1 (elem_of_app _ _ _) (Q3 x Hi)) as [Hw|]; [|done].
    apply Q1' in Hw as [_ Hw]. by destruct (Hn2 x Hw). }
  exists (trim ids s1), g. split.
  { unfold update_from_output. rewrite st_bind_eq, E, st_bind_eq. cbn [set_queues st_modify]. rewrite E1, E2. reflexivity. }
  split; [done|]. split; [done|]. split; [exact Hr|].
  assert (∀ x, x ∈ sc_running s ++ sc_waiting s → x ∉ ids ↔ is_Some (sc_requests s1 !! x)) as Hlive.
  { intros x Hx%(so_known _ _ _ Hs). rewrite P3. unfold gone_by. destruct (sc_requests s1 !! x).
    - split; [by eexists|]. by intros _ [_ ?].
    - split; [|by intros []]. intros Hg. by destruct Hg. }
  split; [|split; [|split; [exact P4|exact P6]]]; intros x; cbn [trim sc_running sc_waiting]; rewrite elem_of_remove, ?P1, ?P2; split; intros [Hx Hi];
    (split; [done|]); apply Hlive; try done; apply elem_of_app; auto.
Qed.

(** ** Finishing requests from outside *)

Lemma live_unfinished s id r : sched_ok cfg n s → sc_requests s !! id = Some r → sr_request_id r = id ∧ is_finished (sr_status r) = false.
Proof.
  intros Hs Hr. split; [by apply (so_object _ _ _ Hs)|]. apply (live_queue [] s id r); [by rewrite trim_nil|done].
Qed.

Lemma valid_requests_elem ids s r :
  sched_ok cfg n s → r ∈ valid_requests ids s ↔ sr_request_id r ∈ ids ∧ sc_requests s !! sr_request_id r = Some r.
Proof.
  intros Hs. unfold valid_requests. rewrite list_elem_of_omap. split.
  - intros (id & Hid & H). destruct (sc_requests s !! id) as [r0|] eqn:Er; [|done]. destruct (live_unfinished s id r0 Hs Er) as [E Ef]. rewrite Ef in H.
    injection H as ->. by rewrite E.
  - intros [Hin Hr]. exists (sr_request_id r). split; [done|]. rewrite Hr. by destruct (live_unfinished s _ r Hs Hr) as [_ ->].
Qed.

Lemma valid_requests_nodup ids s : sched_ok cfg n s → NoDup ids → NoDup (map sr_request_id (valid_requests ids s)).
Proof.
  intros Hs. unfold valid_requests. induction 1 as [|id ids Hid Hn IH]; [constructor|]. cbn [omap list_omap].
  destruct (sc_requests s !! id) as [r|] eqn:Er; [|done]. destruct (live_unfinished s id r Hs Er) as [E ->]. cbn [map]. constructor; [|done].
  rewrite E. intros Hin. apply list_elem_of_In, in_map_iff in Hin as (r' & E' & Hr'%list_elem_of_In).
  fold (valid_requests ids s) in Hr'. apply valid_requests_elem in Hr' as [Hr' _]; [|done]. by rewrite E' in Hr'.
Qed.

Lemma is_running_queue s id r : sched_ok cfg n s → sc_requests s !! id = Some r → is_running r = true ↔ id ∈ sc_running s.
Proof.
  intros Hs Hr. unfold is_running. rewrite bool_decide_eq_true. split.
  - intros Hst. destruct (live_queue [] s id r ltac:(by rewrite trim_nil) Hr) as [_ [[_ H]|[H _]]]; done.
  - intros Hin. by apply (so_runs _ _ _ Hs id).
Qed.

(** The loop that frees the requests, whose queues are trimmed of them before. *)
Lemma finish_loop_ok k0 st V vs : ∀ D granted,
  is_finished st = true → sched_ok cfg n D → called kv k0 (sc_finished_req_ids D) (sc_manager D) granted →
  NoDup (map sr_request_id vs) → (∀ r, r ∈ vs → sr_request_id r ∈ V ∧ sc_requests D !! sr_request_id r = Some r) →
  ∃ D' granted', st_for vs (λ r, put_request (set_status st r);; _free_request (set_status st r)) (trim V D) = (Ok tt, trim V D')
  ∧ sched_ok cfg n D' ∧ called kv k0 (sc_finished_req_ids D') (sc_manager D') granted'
  ∧ (∀ x, sc_requests D' !! x = if decide (x ∈ map sr_request_id vs) then None else sc_requests D !! x)
  ∧ (∀ x, x ∈ sc_running D' ↔ x ∈ sc_running D ∧ x ∉ map sr_request_id vs)
  ∧ (∀ x, x ∈ sc_waiting D' ↔ x ∈ sc_waiting D ∧ x ∉ map sr_request_id vs)
  ∧ (∀ x, x ∈ sc_finished_req_ids D' ↔ x ∈ sc_finished_req_ids D ∨ x ∈ map sr_request_id vs)
  ∧ ∀ x, x ∉ map sr_request_id vs → table_of (sc_manager D') x = table_of (sc_manager D) x.
Proof.
  induction vs as [|r vs IH]; intros D granted Hf Hs Hc Hnd Hvs.
  { exists D, granted. split; [done|]. do 2 (split; [done|]). split; [intros x; by rewrite decide_False by apply not_elem_of_nil|].
    split_and!; intros x; rewrite ?elem_of_nil; tauto. }
  cbn [map] in Hnd. apply NoDup_cons in Hnd as [Hnew Hnd]. destruct (Hvs r ltac:(by left)) as [HV Hr]. set (id := sr_request_id r) in *.
  destruct (discharge_ok k0 D granted id r (set_status st r) Hs Hc Hr eq_refl Hf) as (k' & Ef & (_ & _ & _ & T1) & Hs1 & Hc1).
  set (D1 := discharge id k' D) in *.
  assert (released_object id k' (with_requests (<[id := set_status st r]> (sc_requests (trim V D))) (trim V D)) = trim V D1) as Estate.
  { unfold D1, discharge, trim, released_object, with_requests. cbn [sc_requests sc_waiting sc_running sc_finished_req_ids sc_preempted_req_ids sc_current_step sc_prefill_capacity_bound sc_pause_state].
    rewrite delete_insert_eq, !remove_app. f_equal; apply remove_same; intros x _; cbn; rewrite elem_of_cons; split; [by right|intros [->|]; done|by right|intros [->|]; done]. }
  destruct (IH D1 (delete id granted) Hf Hs1 Hc1 Hnd) as (D' & g & E & HD & HcD & R1 & R2 & R3 & R4 & R5).
  { intros r' Hr'. destruct (Hvs r' ltac:(by right)) as [HV' Hl]. split; [done|]. cbn. rewrite lookup_delete_ne; [done|].
    intros Eid. apply Hnew. rewrite Eid. by apply list_elem_of_In, in_map, list_elem_of_In. }
  exists D', g. split.
  { cbn [st_for]. rewrite st_bind_eq, st_bind_eq, put_request_eq. cbn [set_status sr_request_id]. fold id.
    rewrite (free_request_eq (set_status st r) (with_requests (<[id := set_status st r]> (sc_requests (trim V D))) (trim V D)) Hf k' Ef). cbn [set_status sr_request_id]. fold id. rewrite Estate. exact E. }
  split; [done|]. split; [done|]. cbn [map]. fold id. split_and!; intros x.
  - rewrite R1. cbn. rewrite lookup_delete. destruct (decide (x ∈ map sr_request_id vs)); [by rewrite decide_True by (by right)|].
    destruct (decide (id = x)) as [->|]; [by rewrite decide_True by (by left)|]. rewrite decide_False; [done|]. rewrite elem_of_cons. by intros [->|].
  - rewrite R2. unfold D1. cbn [discharge trim released_object sc_running]. rewrite elem_of_remove, list_elem_of_singleton, elem_of_cons. tauto.
  - rewrite R3. unfold D1. cbn [discharge trim released_object sc_waiting]. rewrite elem_of_remove, list_elem_of_singleton, elem_of_cons. tauto.
  - rewrite R4. unfold D1. cbn [discharge trim released_object sc_finished_req_ids]. rewrite set_add_elem, elem_of_cons. tauto.
  - rewrite elem_of_cons. intros Hx. rewrite R5 by tauto. cbn. apply T1. tauto.
Qed.

(** [finish_requests] returns the live requests it was asked to finish; they leave. *)
Lemma finish_requests_ok visit k0 ids st s granted :
  (∀ l, visit l ≡ₚ l) → is_finished st = true → sched_ok cfg n s → called kv k0 (sc_finished_req_ids s) (sc_manager s) granted →
  ∃ gone s' granted', finish_requests visit ids st s = (Ok gone, s')
  ∧ sched_ok cfg n s' ∧ called kv k0 (sc_finished_req_ids s') (sc_manager s') granted'
  ∧ NoDup gone
  ∧ (∀ x, x ∈ gone ↔ (match ids with Some l => x ∈ l | None => True end) ∧ is_Some (sc_requests s !! x))
  ∧ (∀ x, sc_requests s' !! x = if decide (x ∈ gone) then None else sc_requests s !! x)
  ∧ (∀ x, x ∈ sc_running s' ↔ x ∈ sc_running s ∧ x ∉ gone) ∧ (∀ x, x ∈ sc_waiting s' ↔ x ∈ sc_waiting s ∧ x ∉ gone)
  ∧ (∀ x, x ∈ sc_finished_req_ids s' ↔ x ∈ sc_finished_req_ids s ∨ x ∈ gone)
  ∧ ∀ x, x ∉ gone → table_of (sc_manager s') x = table_of (sc_manager s) x.
Proof.
  intros Hvisit Hf Hs Hc. unfold finish_requests, st_raise_if, st_lift, raise_if. rewrite Hf. cbn [negb]. rewrite st_bind_eq, st_bind_eq. cbn [st_get].
  set (l := match ids with Some ids => visit (remove_dups ids) | None => visit (map fst (map_to_list (sc_requests s))) end).
  assert (NoDup l) as Hl by (unfold l; destruct ids; rewrite Hvisit; [apply NoDup_remove_dups|apply (NoDup_fst_map_to_list (sc_requests s))]).
  set (valid := valid_requests l s). set (V := map sr_request_id valid).
  assert (∀ r, r ∈ valid → sc_requests s !! sr_request_id r = Some r) as Hvalid by (intros r Hr; apply valid_requests_elem in Hr; [by destruct Hr|done]).
  pose proof (so_nodup _ _ _ Hs) as Hn. apply NoDup_app in Hn as (Hn1 & Hn2 & _).
  assert (∀ x b, x ∈ map sr_request_id (List.filter (λ r, eqb (is_running r) b) valid) ↔ x ∈ V ∧ (x ∈ sc_running s ↔ b = true)) as Hpart.
  { intros x b. unfold V. rewrite (list_elem_of_In (map _ (List.filter _ _))), (list_elem_of_In (map _ valid)), !in_map_iff. split.
    - intros (r & <- & [Hr Hb]%filter_In). apply eqb_prop in Hb as <-. split; [by exists r|]. apply list_elem_of_In in Hr.
      by rewrite (is_running_queue s _ r Hs (Hvalid r Hr)).
    - intros [(r & <- & Hr) Hb]. exists r. split; [done|]. apply filter_In. split; [done|]. apply list_elem_of_In in Hr.
      rewrite <-(is_running_queue s _ r Hs (Hvalid r Hr)) in Hb. apply eqb_true_iff, eq_true_iff_eq. exact Hb. }
  assert (remove_all (sc_running s) (map sr_request_id (List.filter is_running valid)) = remove_requests (sc_running s) V) as E1.
  { rewrite remove_all_eq by done. apply remove_same. intros x Hx. specialize (Hpart x true).
    rewrite (filter_ext _ (λ r, eqb (is_running r) true)) by (intros r; by destruct (is_running r)). rewrite Hpart. tauto. }
  assert (remove_requests (sc_waiting s) (map sr_request_id (List.filter (λ r, negb (is_running r)) valid)) = remove_requests (sc_waiting s) V) as E2.
  { apply remove_same. intros x Hx. specialize (Hpart x false).
    rewrite (filter_ext _ (λ r, eqb (is_running r) false)) by (intros r; by destruct (is_running r)). rewrite Hpart.
    assert (x ∉ sc_running s) as Hnr by (intros Hr; by apply (Hn2 x Hr)). split; [tauto|]. intros ?. split; [done|]. by split. }
  destruct (finish_loop_ok k0 st V valid s granted Hf Hs Hc (valid_requests_nodup l s Hs Hl)) as (D' & g & E & HD & HcD & R1 & R2 & R3 & R4 & R5).
  { intros r Hr. split; [by apply list_elem_of_In, in_map, list_elem_of_In|by apply Hvalid]. }
  fold V in R1, R2, R3, R4, R5. exists V, D', g. split.
  - rewrite st_bind_eq. cbn [set_queues st_modify]. rewrite E1, E2. fold (trim V s). rewrite st_bind_eq, E, st_ret_eq. do 2 f_equal.
    assert (∀ x, x ∈ sc_running D' ++ sc_waiting D' → x ∉ V) as Hout.
    { intros x Hx. apply (so_known _ _ _ HD) in Hx. rewrite R1 in Hx. case_decide; [by destruct Hx|done]. }
    unfold trim. rewrite !remove_none; [by destruct D'|..]; intros x Hx; apply Hout, elem_of_app; auto.
  - split; [done|]. split; [done|]. split; [by apply valid_requests_nodup|]. split; [|done]. intros x. unfold V. rewrite list_elem_of_In, in_map_iff. split.
    + intros (r & <- & Hr%list_elem_of_In). apply valid_requests_elem in Hr as [Hr1 Hr2]; [|done]. split; [|by eexists].
      unfold l in Hr1. destruct ids; [|done]. rewrite Hvisit in Hr1. by apply elem_of_remove_dups.
    + intros [H1 [r Hr]]. destruct (live_unfinished s x r Hs Hr) as [E' _]. exists r. split; [done|]. apply list_elem_of_In, valid_requests_elem; [done|].
      rewrite E'. split; [|done]. unfold l. destruct ids; rewrite Hvisit; [by apply elem_of_remove_dups|].
      apply list_elem_of_In, in_map_iff. exists (x, r). split; [done|]. by apply list_elem_of_In, elem_of_map_to_list.
Qed.
End Events.
