(* ===== verification/SchedulerView.v ===== *)
(** * The scheduler and the worker's view

    A step of the scheduler ([SchedulerStep]) and the worker's view of its requests
    ([RunnerView]): the output of a step is one the worker may be asked for, the view
    after it is the scheduler's requests with the tokens still in flight, and the blocks
    are those of the manager. *)

From Stdlib Require Import ZArith Lia Permutation.
From stdpp Require Import base tactics numbers list option gmap strings.
From S2P Require Import Prelude FreeQueue BlockPool PoolState KVManager KVTables SchedRequest.
From S2P Require Import Torch Quant Tab Triton Stores StagedTensor InputBatch BlockTables RequestStates Lifecycle RunnerV2.
From S2P Require Import RunnerView RunnerSteps RunnerBatch RunnerRun.
From S2P Require Import ManagedEngine Scheduler SchedCalls SchedulerPass SchedulerStep.

(** ** The sizes agree *)

Record sizes_fit (cfg : SchedConfig) (z : Sizes) : Prop := {
  sf_bpk : z_bpk z = 1%nat;
  sf_block : z_block z = kv_block_size (sg_kv cfg);
  sf_positive : (0 < kv_block_size (sg_kv cfg))%Z;
  sf_model : Z.of_nat (z_model_len z) = max_model_len (sg_kv cfg);
  sf_reqs : (sg_max_num_running_reqs cfg ≤ Z.of_nat (z_reqs z))%Z;
  sf_tokens : (0 ≤ sg_max_num_scheduled_tokens cfg ≤ Z.of_nat (z_tokens z))%Z;
  sf_row : (cdiv (max_model_len (sg_kv cfg)) (kv_block_size (sg_kv cfg)) ≤ Z.of_nat (z_row z))%Z;
  sf_watermark : (0 ≤ watermark_blocks (sg_kv cfg))%Z
}.

(** ** The view a step updates *)

Section Lookup.
Variable z : Sizes.
Hypothesis Hbpk : z_bpk z = 1%nat.

Lemma kernel_blocks_one ids : kernel_blocks (z_bpk z) ids = ids.
Proof. by rewrite Hbpk. Qed.

Lemma adds_lookup (f : string → NewRequestData) ids : (∀ id, nr_req_id (f id) = id) → NoDup ids → ∀ v id,
  fold_left (add_view z) (map f ids) v !! id = if decide (id ∈ ids) then Some (new_view z (f id)) else v !! id.
Proof.
  intros Hf. induction 1 as [|x ids Hx Hn IH]; intros v id; [done|]. cbn [map fold_left]. rewrite IH. unfold add_view. rewrite Hf, lookup_insert.
  destruct (decide (id ∈ ids)) as [Hin|Hin]; [by rewrite decide_True by (by right)|]. destruct (decide (x = id)) as [->|Hne].
  - by rewrite decide_True by (by left).
  - rewrite decide_False; [done|]. rewrite elem_of_cons. by intros [->|].
Qed.

Lemma updates_lookup (f : string → string * Z * option (list Z)) ids : (∀ id, (f id).1.1 = id) → NoDup ids → ∀ v id,
  fold_left (update_view z) (map f ids) v !! id = if decide (id ∈ ids) then grow_blocks z (f id).2 <$> v !! id else v !! id.
Proof.
  intros Hf. induction 1 as [|x ids Hx Hn IH]; intros v id; [done|]. cbn [map fold_left]. rewrite IH. unfold update_view. rewrite Hf.
  destruct (decide (id = x)) as [->|Hne].
  - rewrite decide_False by done. rewrite decide_True by (by left). by rewrite lookup_alter_eq.
  - rewrite lookup_alter_ne by done. destruct (decide (id ∈ ids)); [by rewrite decide_True by (by right)|].
    rewrite decide_False; [done|]. rewrite elem_of_cons. tauto.
Qed.

Lemma zip_maps {A B C} (f : A → B) (g : A → C) l : zip (zip l (map f l)) (map g l) = map (λ x, (x, f x, g x)) l.
Proof. induction l as [|x l IH]; [done|]. cbn [map zip zip_with]. by rewrite <-IH. Qed.

Variable visit : list string → list string.
Hypothesis Hvisit : ∀ l, visit l ≡ₚ l.

Lemma cached_output s p :
  cached_items (output_of visit s p)
  = map (λ id, (id, sr_num_computed_tokens (request_of s id), some_blocks (granted_blocks p id))) (ps_running_reqs p).
Proof. apply zip_maps. Qed.

Lemma released_output s p id :
  id ∈ released_ids (output_of visit s p) ↔ id ∈ sc_finished_req_ids s ∨ id ∈ sc_preempted_req_ids s.
Proof.
  unfold released_ids. cbn [output_of so_finished_req_ids so_preempted_req_ids].
  assert (∀ l x, x ∈ visit l ↔ x ∈ l) as Hv by (intros l x; by rewrite Hvisit).
  destruct (visit (sc_preempted_req_ids s)) as [|y l] eqn:E.
  - rewrite Hv. split; [by left|]. intros [|Hin]; [done|]. apply Hv in Hin. rewrite E in Hin. by apply not_elem_of_nil in Hin.
  - rewrite elem_of_app, Hv, <-(Hv (sc_preempted_req_ids s)), E, (list_elem_of_In (List.filter _ _)), filter_In, bool_decide_eq_true, <-list_elem_of_In, Hv.
    destruct (decide (id ∈ sc_finished_req_ids s)); tauto.
Qed.

Lemma updated_output s p v id :
  NoDup (ps_new_reqs p ++ ps_resumed_reqs p) → NoDup (ps_running_reqs p) → (∀ x, x ∈ ps_running_reqs p → x ∉ ps_new_reqs p ++ ps_resumed_reqs p) →
  updated_view z v (output_of visit s p) !! id
  = if decide (id ∈ ps_new_reqs p ++ ps_resumed_reqs p) then Some (new_view z (new_data s id))
    else if decide (id ∈ ps_running_reqs p) then grow_blocks z (some_blocks (granted_blocks p id)) <$> without (released_ids (output_of visit s p)) v !! id
    else without (released_ids (output_of visit s p)) v !! id.
Proof.
  intros Hn1 Hn2 Hd. unfold updated_view. rewrite cached_output, updates_lookup by done. cbn [output_of so_scheduled_new_reqs].
  rewrite adds_lookup by done. cbn [snd].
  destruct (decide (id ∈ ps_running_reqs p)) as [Hr|Hr]; [rewrite !(decide_False (P := id ∈ ps_new_reqs p ++ ps_resumed_reqs p)) by (by apply Hd); done|].
  done.
Qed.

(** The tokens a sampler chooses for the requests of a batch. *)
Definition sampled_for (tok : string → Z) (so : SchedulerOutput) : list Z := map (λ it : string * Z, tok it.1) (batch_of so).

Lemma batch_keys so : NoDup (map fst (so_num_scheduled_tokens so)) → NoDup (map fst (batch_of so)).
Proof. intros H. unfold batch_of. eapply NoDup_Permutation_proper; [|exact H]. apply Permutation_map, sort_perm. Qed.

Lemma step_view_lookup v so tok id : NoDup (map fst (so_num_scheduled_tokens so)) →
  step_view z v so (sampled_for tok so) !! id
  = match (list_to_map (so_num_scheduled_tokens so) : gmap string Z) !! id with
    | Some q => sample_one q (tok id) <$> updated_view z v so !! id
    | None => updated_view z v so !! id
    end.
Proof.
  intros Hn. pose proof (batch_keys so Hn) as Hb. destruct (samples_lookup (batch_of so) (sampled_for tok so) (updated_view z v so) Hb) as [H1 H2].
  unfold step_view. destruct (list_to_map (so_num_scheduled_tokens so) !! id) as [q|] eqn:E.
  - apply elem_of_list_to_map_2 in E. assert ((id, q) ∈ batch_of so) as Hin by (unfold batch_of; by rewrite sort_perm).
    apply list_elem_of_lookup in Hin as [b Hb']. apply (H1 b (id, q) (tok id) Hb'). unfold sampled_for. by rewrite lookup_map, Hb'.
  - apply not_elem_of_list_to_map_2 in E. apply H2. intros Hin. apply E. unfold batch_of in Hin.
    eapply elem_of_Permutation_proper in Hin; [exact Hin|]. symmetry. apply Permutation_map, sort_perm.
Qed.
End Lookup.

(** ** The tokens in flight *)

(** A step whose output is still to come: what was sent, and what will come back. *)
Abbreviation Flight := (list (SchedulerOutput * ModelRunnerOutput)).

Definition tokens_for (mro : ModelRunnerOutput) (id : string) : list Z :=
  default [] ((list_to_map (zip (mr_req_ids mro) (mr_sampled_token_ids mro)) : gmap string (list Z)) !! id).

Definition pending (flight : Flight) (id : string) : list Z := concat (map (λ e, tokens_for e.2 id) flight).

(** The output of the worker on the view [reqs] of a step. *)
Definition view_output (reqs : Requests) (so : SchedulerOutput) (tok : string → Z) : ModelRunnerOutput :=
  mkRunnerOutput (map fst (batch_of so))
    (map (λ it, match reqs !! it.1 with Some r => sampled_tokens it.2 (tok it.1) (rq_slot r) | None => [] end) (batch_of so)).

Definition flight_ok (e : SchedulerOutput * ModelRunnerOutput) : Prop :=
  NoDup (map fst (so_num_scheduled_tokens e.1)) ∧ (∀ it, it ∈ so_num_scheduled_tokens e.1 → (0 < it.2)%Z)
  ∧ mr_req_ids e.2 = map fst (batch_of e.1) ∧ length (mr_sampled_token_ids e.2) = length (mr_req_ids e.2).

Lemma zip_map_pair {A B C} (f : A → B) (g : A → C) l : zip (map f l) (map g l) = map (λ x, (f x, g x)) l.
Proof. induction l as [|x l IH]; [done|]. cbn. by rewrite <-IH. Qed.

Lemma batch_elem so it : it ∈ batch_of so ↔ it ∈ so_num_scheduled_tokens so.
Proof. unfold batch_of. by rewrite sort_perm. Qed.

Lemma view_output_tokens reqs so tok id :
  NoDup (map fst (so_num_scheduled_tokens so)) →
  tokens_for (view_output reqs so tok) id
  = match (list_to_map (so_num_scheduled_tokens so) : gmap string Z) !! id, reqs !! id with
    | Some q, Some r => sampled_tokens q (tok id) (rq_slot r)
    | _, _ => []
    end.
Proof.
  intros Hn. unfold tokens_for, view_output. cbn [mr_req_ids mr_sampled_token_ids]. rewrite zip_map_pair. set (f := λ it : string * Z, (it.1, _)).
  destruct (list_to_map (so_num_scheduled_tokens so) !! id) as [q|] eqn:E.
  - apply elem_of_list_to_map_2 in E. rewrite (elem_of_list_to_map_1 _ id (match reqs !! id with Some r => sampled_tokens q (tok id) (rq_slot r) | None => [] end)); [done|..].
    + rewrite <-list_fmap_compose. exact (batch_keys so Hn).
    + apply list_elem_of_fmap. exists (id, q). split; [done|]. by apply batch_elem.
  - apply not_elem_of_list_to_map_2 in E. rewrite not_elem_of_list_to_map_1; [done|]. intros Hin. apply E.
    apply list_elem_of_fmap in Hin as (x & -> & Hx). apply list_elem_of_fmap in Hx as (it & -> & Hit). apply list_elem_of_fmap. exists it. split; [done|].
    by apply batch_elem.
Qed.

Lemma flight_tokens e id : flight_ok e → id ∉ map fst (so_num_scheduled_tokens e.1) → tokens_for e.2 id = [].
Proof.
  intros (Hn & _ & Hids & Hlen) Hid. unfold tokens_for. rewrite not_elem_of_list_to_map_1; [done|].
  rewrite fst_zip by lia. rewrite Hids. intros Hin. apply Hid. apply list_elem_of_fmap in Hin as (it & -> & Hit). apply list_elem_of_fmap.
  exists it. split; [done|]. by apply batch_elem.
Qed.

Lemma list_find_eq (l : list string) id i : NoDup l → l !! i = Some id → list_find (eq id) l = Some (i, id).
Proof.
  intros Hn Hi. apply list_find_Some. split; [done|]. split; [done|]. intros j y Hj Hlt <-. pose proof (NoDup_lookup l i j id Hn Hi Hj). lia.
Qed.

(** The scheduler reads the tokens of its request. *)
Lemma flight_generated e id s : flight_ok e → id ∈ map fst (so_num_scheduled_tokens e.1) →
  generated_tokens e.2 id s = (Ok (tokens_for e.2 id), s).
Proof.
  intros (Hn & _ & Hids & Hlen) Hid. assert (NoDup (mr_req_ids e.2)) as Hn' by (rewrite Hids; by apply batch_keys).
  assert (id ∈ mr_req_ids e.2) as Hin.
  { rewrite Hids. apply list_elem_of_fmap in Hid as (it & -> & Hit). apply list_elem_of_fmap. exists it. split; [done|]. by apply batch_elem. }
  apply list_elem_of_lookup in Hin as [i Hi]. unfold generated_tokens. rewrite (list_find_eq _ _ i Hn' Hi).
  destruct (lookup_lt_is_Some_2 (mr_sampled_token_ids e.2) i) as [t Ht]; [rewrite Hlen; by eapply lookup_lt_Some|].
  assert (tokens_for e.2 id = t) as ->.
  { unfold tokens_for. rewrite (elem_of_list_to_map_1 _ id t); [done|by rewrite fst_zip by lia|].
    apply list_elem_of_lookup. exists i. apply lookup_zip_with_Some. by exists id, t. }
  destruct (mr_sampled_token_ids e.2) as [|x l] eqn:E; [done|]. unfold st_lift. by rewrite Ht.
Qed.

Lemma size_within {A} (w : gmap string A) l : (∀ x, is_Some (w !! x) → x ∈ l) → (size w ≤ length l)%nat.
Proof.
  intros H. rewrite <-length_map_to_list, <-(length_map fst). apply submseteq_length, NoDup_submseteq; [apply NoDup_fst_map_to_list|].
  intros x Hx. apply list_elem_of_fmap in Hx as ([y a] & -> & Hx). apply elem_of_map_to_list in Hx. apply H. by exists a.
Qed.

Lemma size_delete_within {A} (w : gmap string A) l id (a : A) :
  (∀ x, is_Some (w !! x) → x ∈ l) → id ∈ l → (size (delete id w) < length l)%nat.
Proof.
  intros H Hid. pose proof (size_within (<[id := a]> (delete id w)) l) as Hs. rewrite map_size_insert, lookup_delete_eq in Hs. apply Hs.
  intros x. rewrite lookup_insert. case_decide; [by subst|]. rewrite lookup_delete_ne by done. apply H.
Qed.

(** ** The relation *)

Section Relation.
Variables (cfg : SchedConfig) (n : nat) (z : Sizes) (visit : list string → list string).
Abbreviation kv := (sg_kv cfg).
Hypotheses (Hz : sizes_fit cfg z) (Hvisit : ∀ l, visit l ≡ₚ l).

(** The tokens still to compute: the rest of the prefill, or the one sampled last. *)
Definition phase (s : Slot) : Prop :=
  (sl_computed s < Z.of_nat (sl_prefill s))%Z ∧ sl_prefill s = length (sl_tokens s)
  ∨ (Z.of_nat (sl_prefill s) ≤ sl_computed s)%Z ∧ (sl_computed s + 1 = Z.of_nat (length (sl_tokens s)))%Z.

(** The worker has the request's tokens with those in flight, its count and its blocks. *)
Definition slot_matches (r : SchedRequest) (ahead : list Z) (s : Slot) : Prop :=
  sl_computed s = sr_num_computed_tokens r ∧ sl_tokens s = sr_all_token_ids r ++ ahead ∧ phase s.

Definition view_matches (k : Manager) (id : string) (r : SchedRequest) (ahead : list Z) (v : ReqView) : Prop :=
  slot_matches r ahead (rq_slot v) ∧ rq_blocks v = map number (table_of k id).

(** A placeholder stands for every token in flight when the scheduling is asynchronous. *)
Definition places (ahead : list Z) : Z := if sg_async_scheduling cfg then Z.of_nat (length ahead) else 0%Z.

Record system_ok (k0 : Manager) (s : Scheduler) (view : Requests) (flight : Flight) : Prop := {
  sy_sched : sched_ok cfg n s;
  sy_calls : ∃ granted, called kv k0 (sc_finished_req_ids s) (sc_manager s) granted;
  sy_live : ∀ id r, id ∈ sc_running s → sc_requests s !! id = Some r →
    ∃ v, view !! id = Some v ∧ view_matches (sc_manager s) id r (pending flight id) v;
  sy_known : ∀ id, is_Some (view !! id) → id ∈ sc_running s ∨ id ∈ sc_finished_req_ids s;
  sy_places : ∀ id r, sc_requests s !! id = Some r → sr_num_output_placeholders r = places (pending flight id);
  sy_waits : ∀ id e, id ∈ sc_waiting s → last flight = Some e → id ∉ map fst (so_num_scheduled_tokens e.1);
  sy_flight : Forall flight_ok flight
}.

(** A step is scheduled when at most one is in flight, and none without asynchronous
    scheduling. *)
Definition may_schedule (flight : Flight) : Prop := (length flight ≤ if sg_async_scheduling cfg then 1 else 0)%nat.

Lemma waiting_settled k0 s view flight id :
  system_ok k0 s view flight → may_schedule flight → id ∈ sc_waiting s → pending flight id = [].
Proof.
  intros H Hm Hid. destruct flight as [|e [|e' flight]]; [done| |unfold may_schedule in Hm; cbn in Hm; destruct (sg_async_scheduling cfg); lia].
  unfold pending. cbn. rewrite app_nil_r. apply flight_tokens; [exact (Forall_inv (sy_flight _ _ _ _ H))|].
  by apply (sy_waits _ _ _ _ H id e).
Qed.

(** Before a step a request has as many tokens to come as the worker has not computed. *)
Lemma live_tokens k0 s view flight id r v :
  system_ok k0 s view flight → may_schedule flight → sc_requests s !! id = Some r → view_matches (sc_manager s) id r (pending flight id) v →
  (sr_num_tokens r + sr_num_output_placeholders r)%Z = Z.of_nat (length (sl_tokens (rq_slot v))).
Proof.
  intros H Hm Hr ((_ & E & _) & _). rewrite E, (sy_places _ _ _ _ H id r Hr), length_app. unfold sr_num_tokens, places, may_schedule in *.
  destruct (sg_async_scheduling cfg); [lia|]. assert (flight = []) as -> by (destruct flight; [done|cbn in Hm; lia]). cbn. lia.
Qed.

(** *** One step *)

Section OneStep.
Variables (k0 : Manager) (s0 s s' : Scheduler) (view : Requests) (flight : Flight).
Variables (p : Pass) (kept dropped new rest : list string) (granted : gmap string Z).
Hypotheses (H0 : system_ok k0 s0 view flight) (Hm : may_schedule flight).
Hypothesis (Hstep : step_result cfg n k0 s0 s s' p kept dropped new rest granted).

Let so := output_of visit s p.
Let news := ps_new_reqs p ++ ps_resumed_reqs p.
Let olds := ps_running_reqs p.
Let counts := ps_num_scheduled_tokens p.
Let view' := updated_view z view so.

Let Hpass : pass_inv cfg n k0 (tick s0) kept dropped new rest s p granted := re_pass _ _ _ _ _ _ _ _ _ _ _ _ Hstep.
Let Hs0 : sched_ok cfg n (tick s0) := tick_ok cfg n s0 (sy_sched _ _ _ _ H0).

Lemma step_queues : NoDup news ∧ NoDup olds ∧ (∀ x, x ∈ olds → x ∉ news) ∧ (∀ x, x ∈ news ↔ x ∈ new) ∧ (∀ x, x ∈ olds → x ∈ kept)
  ∧ (∀ x, x ∈ kept → x ∈ sc_running s0 ∧ x ∉ dropped ∧ x ∉ new) ∧ (∀ x, x ∈ new → x ∈ sc_waiting s0 ∧ x ∉ dropped)
  ∧ (∀ x, x ∈ dropped → x ∈ sc_running s0) ∧ NoDup (kept ++ new).
Proof.
  pose proof (pass_nodup cfg n k0 (tick s0) Hs0 _ _ _ _ _ _ _ Hpass) as Hn. apply NoDup_app in Hn as (N0 & N1 & Hn). apply NoDup_app in Hn as (_ & N2 & Hn).
  apply NoDup_app in Hn as (N3 & N4 & _). destruct (pi_old _ _ _ _ _ _ _ _ _ _ _ Hpass) as [O1 O2].
  pose proof (pi_new _ _ _ _ _ _ _ _ _ _ _ Hpass) as Hnew. pose proof (pi_run0 _ _ _ _ _ _ _ _ _ _ _ Hpass) as E0. pose proof (pi_wait0 _ _ _ _ _ _ _ _ _ _ _ Hpass) as E1.
  cbn in E0, E1. assert (∀ x, x ∈ news ↔ x ∈ new) as Hnews by (intros x; unfold news; by rewrite Hnew).
  assert (∀ x, x ∈ kept → x ∈ sc_running s0 ∧ x ∉ dropped ∧ x ∉ new) as Hkept.
  { intros x Hx. specialize (N1 x Hx). rewrite !elem_of_app in N1. rewrite E0, elem_of_app. tauto. }
  split; [unfold news; by rewrite Hnew|]. split; [done|]. split; [intros x Hx; rewrite Hnews; by apply Hkept, O2|].
  split; [done|]. split; [done|]. split; [done|]. split; [|split].
  - intros x Hx. rewrite E1, elem_of_app. split; [by left|]. intros Hd. apply (N2 x Hd), elem_of_app. by left.
  - intros x Hx. rewrite E0, elem_of_app. by right.
  - apply NoDup_app. split; [done|]. split; [|done]. intros x Hx. by apply Hkept.
Qed.

Lemma step_released id : id ∈ released_ids so ↔ id ∈ sc_finished_req_ids s0 ∨ id ∈ dropped.
Proof.
  unfold so. rewrite released_output by done. rewrite (pi_finished _ _ _ _ _ _ _ _ _ _ _ Hpass), (pi_gone _ _ _ _ _ _ _ _ _ _ _ Hpass).
  by rewrite elem_of_reverse.
Qed.

(** A kept request is not released. *)
Lemma kept_view id : id ∈ kept → without (released_ids so) view !! id = view !! id.
Proof.
  intros Hid. rewrite without_lookup, decide_False; [done|]. rewrite step_released.
  destruct step_queues as (_ & _ & _ & _ & _ & Hk & _). destruct (Hk id Hid) as (Hrun & Hd & _). intros [Hf|]; [|done].
  by apply (so_finished _ _ _ (sy_sched _ _ _ _ H0) id Hf).
Qed.

Lemma step_view_eq id :
  view' !! id = if decide (id ∈ new) then Some (new_view z (new_data s id))
    else if decide (id ∈ olds) then grow_blocks z (some_blocks (granted_blocks p id)) <$> view !! id
    else without (released_ids so) view !! id.
Proof.
  destruct step_queues as (N1 & N2 & N3 & N4 & N5 & Hk & _). unfold view', so. rewrite updated_output by done. fold news olds so.
  rewrite (decide_ext (id ∈ news) (id ∈ new)) by done. destruct (decide (id ∈ new)); [done|].
  destruct (decide (id ∈ olds)) as [Ho|Ho]; [|done]. by rewrite kept_view by (by apply N5).
Qed.

(** A kept request of the pass is that of the scheduler before. *)
Lemma kept_object id : id ∈ kept → ∃ r v, sc_requests s0 !! id = Some r ∧ sc_requests s !! id = Some r ∧ view !! id = Some v
  ∧ view_matches (sc_manager s0) id r (pending flight id) v.
Proof.
  intros Hid. destruct (pass_kept cfg n (sf_watermark _ _ Hz) (sf_positive _ _ Hz) k0 (tick s0) Hs0 _ _ _ _ _ _ _ id Hpass Hid) as (r & Hr0 & Hr & _).
  destruct step_queues as (_ & _ & _ & _ & _ & Hk & _). destruct (sy_live _ _ _ _ H0 id r) as (v & Hv & Hmatch); [by apply Hk|done|].
  by exists r, v.
Qed.

(** An admitted one starts over. *)
Lemma new_object id : id ∈ new → ∃ r, sc_requests s0 !! id = Some r ∧ sc_requests s !! id = Some (admitted r) ∧ pending flight id = []
  ∧ sr_num_output_placeholders r = 0%Z ∧ object_ok cfg id r.
Proof.
  intros Hid. destruct step_queues as (_ & _ & _ & _ & _ & Hk & Hnew & _). destruct (Hnew id Hid) as [Hw Hd].
  destruct (proj2 (so_known _ _ _ Hs0 id)) as [r Hr]; [cbn; apply elem_of_app; by right|]. exists r. split; [done|].
  split; [rewrite (pi_requests _ _ _ _ _ _ _ _ _ _ _ Hpass), Hr; cbn; unfold moved; by rewrite decide_False, decide_True|].
  assert (pending flight id = []) as Hp by (by eapply waiting_settled). split; [done|].
  split; [rewrite (sy_places _ _ _ _ H0 id r Hr), Hp; unfold places; by destruct (sg_async_scheduling cfg)|]. by apply (so_object _ _ _ Hs0).
Qed.

(** The slot of a scheduled request before its tokens run, with what runs. *)
Lemma some_blocks_default l : default [] (some_blocks l) = l.
Proof. by destruct l. Qed.

Lemma view_step_slot id : id ∈ kept ++ new →
  ∃ r v, sc_requests s !! id = Some r ∧ view' !! id = Some v ∧ slot_matches r (pending flight id) (rq_slot v)
  ∧ rq_blocks v = map number (table_of (sc_manager s) id)
  ∧ (sr_num_tokens r + sr_num_output_placeholders r)%Z = Z.of_nat (length (sl_tokens (rq_slot v))).
Proof.
  destruct step_queues as (_ & _ & _ & _ & N5 & Hk & _). intros [Hid|Hid]%elem_of_app.
  - destruct (kept_object id Hid) as (r & v & Hr0 & Hr & Hv & Hmatch). pose proof (live_tokens _ _ _ _ id r v H0 Hm Hr0 Hmatch) as Htok.
    destruct Hmatch as [Hslot Hblk]. rewrite step_view_eq, decide_False by (by apply Hk). destruct (decide (id ∈ olds)) as [Ho|Ho].
    + rewrite Hv. exists r, (grow_blocks z (some_blocks (granted_blocks p id)) v). do 3 (split; [done|]). split; [|done]. cbn.
      rewrite some_blocks_default, kernel_blocks_one by apply Hz. destruct (pi_table_old _ _ _ _ _ _ _ _ _ _ _ Hpass id Ho) as (b & Hb & Ht).
      rewrite Hblk, Ht, map_app. unfold granted_blocks. by rewrite Hb.
    + rewrite kept_view by done. exists r, v. do 3 (split; [done|]). split; [|done]. rewrite Hblk.
      by rewrite (pi_table_rest _ _ _ _ _ _ _ _ _ _ _ Hpass id Hid Ho).
  - destruct (new_object id Hid) as (r & Hr0 & Hr & Hp & Hph & Hobj). rewrite step_view_eq, decide_True by done.
    assert (request_of s id = admitted r) as Er by (unfold request_of; by rewrite Hr).
    exists (admitted r), (new_view z (new_data s id)). split; [done|]. split; [done|]. rewrite Hp.
    unfold new_view, new_data. rewrite Er. cbn [nr_prefill_token_ids nr_prompt_token_ids nr_num_computed_tokens nr_block_ids nr_max_tokens rq_slot rq_blocks default].
    change (sr_all_token_ids (admitted r)) with (sr_all_token_ids r). change (sr_num_computed_tokens (admitted r)) with 0%Z.
    destruct Hobj as (_ & _ & _ & [Hpos _] & _). split; [|split; [by rewrite kernel_blocks_one by apply Hz|]].
    + split; [done|]. cbn. rewrite app_nil_r. split; [done|]. left. cbn. split; [exact Hpos|done].
    + cbn. change (sr_num_tokens (admitted r)) with (sr_num_tokens r). change (sr_num_output_placeholders (admitted r)) with (sr_num_output_placeholders r).
      rewrite Hph. unfold sr_num_tokens. lia.
Qed.

(** The counts of the step. *)
Lemma step_count id q : (id, q) ∈ counts → id ∈ olds ++ new ∧ count_ok cfg s granted id q.
Proof.
  intros Hin. split; [|by apply (pi_counts _ _ _ _ _ _ _ _ _ _ _ Hpass (id, q))]. unfold olds. rewrite <-(pi_keys _ _ _ _ _ _ _ _ _ _ _ Hpass).
  apply list_elem_of_fmap. by exists (id, q).
Qed.

Lemma olds_kept id : id ∈ olds ++ new → id ∈ kept ++ new.
Proof. destruct step_queues as (_ & _ & _ & _ & N5 & _). intros [H|H]%elem_of_app; apply elem_of_app; [left; by apply N5|by right]. Qed.

Lemma count_entry id q : (id, q) ∈ counts →
  ∃ r v, sc_requests s !! id = Some r ∧ view' !! id = Some v ∧ slot_matches r (pending flight id) (rq_slot v) ∧ (0 < q)%Z
  ∧ entry_ok z (Z.to_nat q) (rq_slot v) ∧ (sl_computed (rq_slot v) + q ≤ z_block z * Z.of_nat (length (rq_blocks v)))%Z
  ∧ (sr_num_tokens r + sr_num_output_placeholders r)%Z = Z.of_nat (length (sl_tokens (rq_slot v))).
Proof.
  intros Hin. destruct (step_count id q Hin) as [Hid%olds_kept (r & t & Hr & Hq & Hle & Hlen & Ht & Hcov & Hblk)].
  destruct (view_step_slot id Hid) as (r' & v & Hr' & Hv & Hslot & Hrows & Htok). assert (r' = r) as -> by congruence. clear Hr'.
  exists r, v. do 3 (split; [done|]). split; [done|]. pose proof Hslot as (Hc & Etok & Hphase). destruct Hz as [Z1 Z2 Z3 Z4 Z5 Z6 Z7].
  destruct (pass_object cfg n visit (sf_watermark _ _ Hz) (sf_positive _ _ Hz) (proj1 (sf_tokens _ _ Hz)) k0 (tick s0) kept dropped new rest s p granted id r Hs0 Hpass Hr) as ((_ & _ & _ & _ & [O5 _] & _) & _).
  split; [|split; [|done]].
  - unfold entry_ok. rewrite Hc, Z2Nat.id by lia. rewrite Htok in Hle. destruct Hphase as [[P1 P2]|[P1 P2]]; rewrite Hc in P1, P2 || rewrite Hc in P1; split_and!; lia.
  - rewrite Hc, Hrows, length_map, Z2. pose proof (cdiv_le t (kv_block_size kv) Z3). nia.
Qed.

Lemma row_fits id : (length (map number (table_of (sc_manager s) id)) ≤ z_row z)%nat.
Proof.
  rewrite length_map. destruct (pi_tables _ _ _ _ _ _ _ _ _ _ _ Hpass) as [_ Ht]. destruct (Ht id) as [Hl _]. pose proof (sf_row _ _ Hz). lia.
Qed.

Lemma room_fits : (Z.of_nat (length (kept ++ new)) ≤ Z.of_nat (z_reqs z))%Z.
Proof.
  pose proof (so_room _ _ _ (re_ok _ _ _ _ _ _ _ _ _ _ _ _ Hstep)) as Hr. rewrite (re_running _ _ _ _ _ _ _ _ _ _ _ _ Hstep) in Hr.
  pose proof (sf_reqs _ _ Hz). lia.
Qed.

Lemma step_adds_ok ids w :
  (∀ x, is_Some (w !! x) → x ∈ kept ++ new) → (∀ x, x ∈ ids → x ∈ new) → adds_ok z w (map (new_data s) ids).
Proof.
  revert w. induction ids as [|id ids IH]; intros w Hw Hids; [done|]. cbn [map adds_ok]. assert (id ∈ new) as Hid by (apply Hids; by left). split.
  - destruct (new_object id Hid) as (r & _ & Hr & _ & _ & (_ & _ & _ & [_ Hlen] & _)).
    assert (request_of s id = admitted r) as Er by (unfold request_of; by rewrite Hr). unfold new_ok, new_data. rewrite Er.
    cbn [nr_prompt_token_ids nr_prefill_token_ids nr_block_ids nr_req_id]. split; [|split].
    + eexists _, _. split; [done|]. split; [done|]. change (sr_prompt_token_ids (admitted r)) with (sr_prompt_token_ids r).
      change (sr_all_token_ids (admitted r)) with (sr_all_token_ids r). unfold sr_num_tokens, sr_all_token_ids in *. rewrite length_app in *.
      pose proof (sf_model _ _ Hz). lia.
    + rewrite kernel_blocks_one by apply Hz. apply row_fits.
    + pose proof (size_delete_within w (kept ++ new) id (new_view z (new_data s id)) Hw ltac:(apply elem_of_app; by right)) as Hs.
      pose proof room_fits. lia.
  - apply IH; [|intros x Hx; apply Hids; by right]. intros x [y Hy]. unfold add_view in Hy. cbn [new_data nr_req_id] in Hy. rewrite lookup_insert in Hy.
    case_decide; [subst; apply elem_of_app; by right|]. apply Hw. by exists y.
Qed.

Lemma step_updates_ok ids w :
  NoDup ids → (∀ x, x ∈ ids → x ∈ olds ∧ w !! x = view !! x) →
  updates_ok z w (map (λ id, (id, sr_num_computed_tokens (request_of s id), some_blocks (granted_blocks p id))) ids).
Proof.
  intros Hn. revert w. induction Hn as [|id ids Hid Hn IH]; intros w Hw; [done|]. cbn [map updates_ok]. destruct (Hw id ltac:(by left)) as [Ho Hv]. split.
  - destruct step_queues as (_ & _ & _ & _ & N5 & Hk & _). destruct (kept_object id (N5 id Ho)) as (r & v & _ & Hr & Hview & ((Hc & _) & Hblk)).
    exists v. cbn [fst snd]. split; [congruence|]. split; [unfold request_of; by rewrite Hr|].
    destruct (view_step_slot id ltac:(apply elem_of_app; left; by apply N5)) as (r' & v' & _ & Hv' & _ & Hrows & _).
    rewrite step_view_eq, decide_False, decide_True in Hv' by (try done; by apply Hk, N5). rewrite Hview in Hv'. injection Hv' as <-.
    rewrite Hrows. apply row_fits.
  - apply IH. intros x Hx. split; [apply Hw; by right|]. unfold update_view. cbn [fst snd]. rewrite lookup_alter_ne by (by intros ->). apply Hw. by right.
Qed.

(** The worker may be asked for the step. *)
Lemma step_asked_ok : output_ok z view so.
Proof.
  destruct step_queues as (N1 & N2 & N3 & N4 & N5 & Hk & Hnew & Hdrop & Hn). pose proof (re_keys _ _ _ _ _ _ _ _ _ _ _ _ Hstep) as Hkeys.
  assert (map nr_req_id (so_scheduled_new_reqs so) = news) as Enews by (cbn; rewrite List.map_map; cbn; apply map_id).
  split; [|split; [|split; [|split; [|split; [|split; [|split; [|split]]]]]]].
  - unfold step_ids. rewrite Enews. cbn [so output_of so_scheduled_cached_reqs cr_req_ids]. apply NoDup_app. split; [done|]. split; [|done].
    intros x Hx Ho. by apply (N3 x Ho).
  - cbn. by rewrite length_map.
  - cbn. by rewrite length_map.
  - apply step_adds_ok; [|intros x Hx; by apply N4]. intros x. rewrite without_lookup. case_decide as Hr; [by intros []|]. rewrite step_released in Hr.
    intros Hx. apply elem_of_app. left. destruct (sy_known _ _ _ _ H0 x Hx) as [Hrun|]; [|tauto].
    rewrite (pi_run0 _ _ _ _ _ _ _ _ _ _ _ Hpass : sc_running s0 = _), elem_of_app in Hrun. tauto.
  - unfold so. rewrite cached_output. apply step_updates_ok; [done|]. intros x Hx. split; [done|]. cbn [output_of so_scheduled_new_reqs].
    rewrite adds_lookup by done. rewrite decide_False by (by apply N3). by rewrite kept_view by (by apply N5).
  - exact Hkeys.
  - apply Forall_forall. intros [id q] Hin. cbn [fst snd]. destruct (count_entry id q Hin) as (r & v & Hr & Hv & Hslot & Hq & Hentry & Hblk & _).
    split; [|by exists v]. destruct (step_count id q Hin) as [Hid _]. unfold step_ids. rewrite Enews. cbn [so output_of so_scheduled_cached_reqs cr_req_ids].
    apply elem_of_app. rewrite N4. apply elem_of_app in Hid. tauto.
  - done.
  - pose proof (re_total _ _ _ _ _ _ _ _ _ _ _ _ Hstep). pose proof (sf_tokens _ _ Hz). cbn. lia.
Qed.

(** A request that is sent starts over, and the worker has nothing of it. *)
Lemma step_starts : Forall (λ nr, nr_num_computed_tokens nr = 0%Z ∧ without (released_ids so) view !! nr_req_id nr = None) (so_scheduled_new_reqs so).
Proof.
  destruct step_queues as (_ & _ & _ & N4 & _ & _ & Hnew & _). apply Forall_forall. intros nr Hnr. cbn [so output_of so_scheduled_new_reqs] in Hnr.
  apply list_elem_of_fmap in Hnr as (id & -> & Hid). apply N4 in Hid. destruct (new_object id Hid) as (r & _ & Hr & _).
  cbn [new_data nr_num_computed_tokens nr_req_id]. split; [unfold request_of; by rewrite Hr|]. rewrite without_lookup. case_decide as Hrel; [done|].
  apply eq_None_not_Some. intros Hv. rewrite step_released in Hrel. destruct (sy_known _ _ _ _ H0 id Hv) as [Hrun|]; [|tauto].
  destruct (Hnew id Hid) as [Hw _]. pose proof (so_nodup _ _ _ (sy_sched _ _ _ _ H0)) as Hnd. apply NoDup_app in Hnd as (_ & Hd & _). by apply (Hd id).
Qed.

(** *** After the step *)

Section After.
Variable tok : string → Z.
Let view1 := step_view z view so (sampled_for tok so).
Let flight1 := flight ++ [(so, view_output view' so tok)].

Lemma step_counts_map id q : (list_to_map counts : gmap string Z) !! id = Some q → (id, q) ∈ counts.
Proof. apply elem_of_list_to_map_2. Qed.

Lemma pending_after id : pending flight1 id = pending flight id ++ tokens_for (view_output view' so tok) id.
Proof. unfold pending, flight1. rewrite map_app, concat_app. cbn. by rewrite app_nil_r. Qed.

(** The tokens of a slot that ran, and what comes back for it. *)
Lemma sampled_phase r ahead q (v : Slot) :
  slot_matches r ahead v → (0 < q)%Z → entry_ok z (Z.to_nat q) v →
  (sr_num_tokens r + sr_num_output_placeholders r)%Z = Z.of_nat (length (sl_tokens v)) →
  let toks := sampled_tokens q (tok (sr_request_id r)) v in
  slot_matches (set_progress (sr_num_computed_tokens r + q) (sr_num_output_placeholders r) false 0 r) (ahead ++ toks) (slot_step (Z.to_nat q) toks v)
  ∧ (sr_num_computed_tokens r + q <? sr_num_tokens r + sr_num_output_placeholders r)%Z = bool_decide (toks = []).
Proof.
  intros (Hc & Et & Hp) Hq (E1 & E2 & E3 & E4 & E5) Htok toks. rewrite Z2Nat.id in * by lia. unfold toks, sampled_tokens. rewrite <-Hc, Htok.
  destruct (Z.ltb_spec (sl_computed v + q) (Z.of_nat (sl_prefill v))) as [Hlt|Hge].
  - assert (sl_prefill v = length (sl_tokens v)) as Epre by (destruct Hp as [[_ ?]|[? _]]; [done|lia]). rewrite app_nil_r. split.
    + unfold slot_matches. cbn. rewrite Z2Nat.id, app_nil_r, Hc by lia. split; [done|]. split; [done|]. left. cbn. rewrite app_nil_r, Z2Nat.id by lia. by split.
    + rewrite bool_decide_eq_true_2 by done. apply Z.ltb_lt. lia.
  - assert (sl_computed v + q = Z.of_nat (length (sl_tokens v)))%Z as Eend by (destruct E4 as [?|(? & ? & ?)], Hp as [[? ?]|[? ?]]; lia). split.
    + unfold slot_matches. cbn. rewrite Z2Nat.id, Hc by lia. split; [done|]. split; [rewrite Et; unfold sr_all_token_ids; cbn; by rewrite <-!app_assoc|].
      right. cbn. rewrite length_app, Z2Nat.id by lia. cbn. lia.
    + rewrite bool_decide_eq_false_2 by done. apply Z.ltb_ge. lia.
Qed.

Lemma slot_matches_progress r c ph chunk step ph' chunk' step' ahead v :
  slot_matches (set_progress c ph chunk step r) ahead v → slot_matches (set_progress c ph' chunk' step' r) ahead v.
Proof. done. Qed.

Lemma sampled_short q t v : (length (sampled_tokens q t v) ≤ 1)%nat.
Proof. unfold sampled_tokens. destruct (_ <? _)%Z; cbn; lia. Qed.

(** The object after the step is the one before with other counters. *)
Lemma after_step_progress step q r : ∃ ph chunk e, after_step cfg step q r = set_progress (sr_num_computed_tokens r + q) ph chunk e r.
Proof. unfold after_step, hold, advance. destruct (sg_async_scheduling cfg); [|by eauto]. cbn. destruct (_ <? _)%Z; by eauto. Qed.

Lemma after_live id r1 : id ∈ kept ++ new → sc_requests s' !! id = Some r1 →
  ∃ v1, view1 !! id = Some v1 ∧ view_matches (sc_manager s') id r1 (pending flight1 id) v1.
Proof.
  intros Hid Hr1. pose proof (re_keys _ _ _ _ _ _ _ _ _ _ _ _ Hstep) as Hkeys.
  rewrite (re_requests _ _ _ _ _ _ _ _ _ _ _ _ Hstep) in Hr1. destruct (view_step_slot id Hid) as (r & v & Hr & Hv & Hslot & Hrows & _).
  rewrite Hr in Hr1. cbn in Hr1. injection Hr1 as <-. unfold view1. rewrite step_view_lookup by exact Hkeys. fold view'.
  rewrite pending_after, view_output_tokens by exact Hkeys. cbn [so output_of so_num_scheduled_tokens]. fold counts. unfold after_counts.
  rewrite (re_manager _ _ _ _ _ _ _ _ _ _ _ _ Hstep), Hv.
  destruct (list_to_map counts !! id) as [q|] eqn:Eq.
  - apply step_counts_map in Eq. destruct (count_entry id q Eq) as (r' & v' & Hr' & Hv' & Hslot' & Hq & Hentry & _ & Htok).
    assert (r' = r) as -> by congruence. assert (v' = v) as -> by congruence. clear Hr' Hv' Hslot'.
    destruct (pass_object cfg n visit (sf_watermark _ _ Hz) (sf_positive _ _ Hz) (proj1 (sf_tokens _ _ Hz)) k0 (tick s0) kept dropped new rest s p granted id r Hs0 Hpass Hr)
      as ((Eid & _) & _).
    eexists. split; [reflexivity|]. split; [|exact Hrows]. cbn [sample_one rq_slot].
    destruct (after_step_progress (sc_current_step s) q r) as (ph & chunk & e & ->).
    destruct (sampled_phase r (pending flight id) q (rq_slot v) Hslot Hq Hentry Htok) as [Hsl _]. rewrite Eid in Hsl.
    by eapply slot_matches_progress.
  - exists v. split; [done|]. rewrite app_nil_r. by split.
Qed.

Lemma after_places id r1 : sc_requests s' !! id = Some r1 → sr_num_output_placeholders r1 = places (pending flight1 id).
Proof.
  intros Hr1. pose proof (re_keys _ _ _ _ _ _ _ _ _ _ _ _ Hstep) as Hkeys. rewrite (re_requests _ _ _ _ _ _ _ _ _ _ _ _ Hstep) in Hr1.
  destruct (sc_requests s !! id) as [r|] eqn:Er; [|done]. cbn in Hr1. injection Hr1 as <-.
  rewrite pending_after, view_output_tokens by exact Hkeys. cbn [so output_of so_num_scheduled_tokens]. fold counts. unfold after_counts.
  assert (sr_num_output_placeholders r = places (pending flight id)) as Hph.
  { rewrite (pi_requests _ _ _ _ _ _ _ _ _ _ _ Hpass) in Er. destruct (sc_requests (tick s0) !! id) as [r0|] eqn:Er0; [|done]. cbn in Er. injection Er as <-.
    rewrite <-(sy_places _ _ _ _ H0 id r0 Er0). unfold moved. by destruct (decide (id ∈ dropped)), (decide (id ∈ new)). }
  destruct (list_to_map counts !! id) as [q|] eqn:Eq; [|by rewrite app_nil_r].
  apply step_counts_map in Eq. destruct (count_entry id q Eq) as (r' & v & Hr' & Hv & Hslot & Hq & Hentry & _ & Htok).
  assert (r' = r) as -> by congruence. rewrite Hv. destruct (sampled_phase r (pending flight id) q (rq_slot v) Hslot Hq Hentry Htok) as [_ Hchunk].
  destruct (pass_object cfg n visit (sf_watermark _ _ Hz) (sf_positive _ _ Hz) (proj1 (sf_tokens _ _ Hz)) k0 (tick s0) kept dropped new rest s p granted id r Hs0 Hpass Er)
    as ((Eid & _) & _). rewrite Eid in Hchunk. set (toks := sampled_tokens q (tok id) (rq_slot v)) in *.
  assert (length toks ≤ 1)%nat as Hone by apply sampled_short.
  unfold after_step, hold, advance, places in *. destruct (sg_async_scheduling cfg); [|cbn; exact Hph]. cbn [set_progress sr_is_prefill_chunk]. rewrite Hchunk, length_app.
  case_bool_decide as E; cbn [set_progress sr_num_output_placeholders]; rewrite Hph; [by rewrite E; cbn; lia|]. destruct toks as [|t [|t' ts]]; cbn in *; lia || done.
Qed.

(** The next state of the system. *)
Lemma step_system_ok : system_ok (sc_manager s') s' view1 flight1.
Proof.
  destruct step_queues as (N1 & N2 & N3 & N4 & N5 & Hk & Hnew & Hdrop & Hn). pose proof (re_keys _ _ _ _ _ _ _ _ _ _ _ _ Hstep) as Hkeys.
  pose proof (pass_nodup cfg n k0 (tick s0) Hs0 _ _ _ _ _ _ _ Hpass) as Hnd. split.
  - by apply (re_ok _ _ _ _ _ _ _ _ _ _ _ _ Hstep).
  - rewrite (re_finished _ _ _ _ _ _ _ _ _ _ _ _ Hstep). eexists. apply called_start.
  - intros id r. rewrite (re_running _ _ _ _ _ _ _ _ _ _ _ _ Hstep). apply after_live.
  - intros id Hv. left. rewrite (re_running _ _ _ _ _ _ _ _ _ _ _ _ Hstep). apply elem_of_app.
    assert (is_Some (view' !! id)) as Hv'.
    { unfold view1 in Hv. rewrite step_view_lookup in Hv by exact Hkeys. fold view' in Hv.
      destruct (list_to_map (so_num_scheduled_tokens so) !! id); [by apply fmap_is_Some in Hv|done]. }
    rewrite step_view_eq in Hv'. destruct (decide (id ∈ new)) as [|_]; [by right|]. left. destruct (decide (id ∈ olds)); [by apply N5|].
    rewrite without_lookup in Hv'. case_decide as Hr; [by destruct Hv'|]. rewrite step_released in Hr.
    destruct (sy_known _ _ _ _ H0 id Hv') as [Hrun|]; [|tauto]. rewrite (pi_run0 _ _ _ _ _ _ _ _ _ _ _ Hpass : sc_running s0 = _), elem_of_app in Hrun. tauto.
  - apply after_places.
  - intros id e Hid. unfold flight1. rewrite last_snoc. intros [= <-]. cbn [fst so output_of so_num_scheduled_tokens].
    rewrite (re_waiting _ _ _ _ _ _ _ _ _ _ _ _ Hstep) in Hid. rewrite (pi_keys _ _ _ _ _ _ _ _ _ _ _ Hpass), elem_of_app.
    apply NoDup_app in Hnd as (_ & D1 & Hnd). apply NoDup_app in Hnd as (_ & D2 & Hnd). apply NoDup_app in Hnd as (_ & D3 & _).
    apply elem_of_app in Hid as [Hid|Hid]; intros [Ho|Ho].
    + apply N5, D1 in Ho. rewrite elem_of_app in Ho. tauto.
    + apply D2 in Hid. rewrite elem_of_app in Hid. tauto.
    + apply N5, D1 in Ho. rewrite !elem_of_app in Ho. tauto.
    + by apply (D3 id).
  - apply Forall_app. split; [by apply (sy_flight _ _ _ _ H0)|]. apply Forall_singleton. split; [exact Hkeys|]. split.
    + intros [id q] Hin. destruct (count_entry id q Hin) as (_ & _ & _ & _ & _ & Hq & _). done.
    + cbn. by rewrite !length_map.
Qed.

(** What the step did to the manager. *)
Lemma step_managed : called kv k0 (released_ids so) (sc_manager s') granted
  ∧ ∀ it, it ∈ batch_of so → ∃ v t, view' !! it.1 = Some v ∧ granted !! it.1 = Some t ∧ (sl_computed (rq_slot v) + it.2 ≤ t)%Z
      ∧ (0 ≤ sl_computed (rq_slot v))%Z ∧ (0 < it.2)%Z ∧ map Z.to_nat (rq_blocks v) = row (table_of (sc_manager s') it.1).
Proof.
  rewrite (re_manager _ _ _ _ _ _ _ _ _ _ _ _ Hstep). split.
  - eapply called_mono; [|exact (pi_calls _ _ _ _ _ _ _ _ _ _ _ Hpass)]. intros x Hx. apply step_released. by apply elem_of_app in Hx.
  - intros [id q] Hin%batch_elem. cbn [fst snd]. destruct (step_count id q Hin) as [Hid%olds_kept (r & t & Hr & Hq & Hle & Hlen & Ht & Hcov & _)].
    destruct (view_step_slot id Hid) as (r' & v & Hr' & Hv & (Hc & _) & Hrows & _). assert (r' = r) as -> by congruence.
    destruct (count_entry id q Hin) as (_ & v' & _ & Hv' & _ & _ & Hentry & _). assert (v' = v) as -> by congruence.
    exists v, t. rewrite Hc in *. do 3 (split; [done|]). split; [rewrite <-Hc; apply Hentry|]. split; [done|].
    rewrite Hrows. unfold row. by rewrite List.map_map.
Qed.
End After.
End OneStep.
End Relation.
