(* ===== verification/SchedulerHead.v ===== *)
(** * The request at the head of the queues

    The queues of the scheduler, running before waiting, keep their order through a step
    ([step_queue]).  When the cache holds the blocks of one request of the model's length,
    the request at their head is never preempted, and every step schedules it unless its
    last token is in flight ([head_scheduled]).  The fuel of the three loops of
    [Scheduler.schedule] is enough: from any scheduler and any pass, more of it changes
    nothing ([scheduling_loops_end]). *)

From Stdlib Require Import ZArith Lia.
From stdpp Require Import base tactics numbers list option gmap strings.
From S2P Require Import Prelude FreeQueue BlockPool PoolState KVManager KVTables SchedRequest.
From S2P Require Import Torch Quant Tab Triton Stores StagedTensor InputBatch BlockTables RequestStates Lifecycle RunnerV2.
From S2P Require Import RunnerView RunnerSteps RunnerBatch RunnerRun ManagedEngine.
From S2P Require Import Scheduler SchedCalls SchedulerPass SchedulerStep SchedulerEvents SchedulerView.

(** ** Counts are never dropped *)

Lemma dict_set_keys {A} key (v : A) d x : x ∈ map fst d ∨ x = key → x ∈ map fst (dict_set key v d).
Proof.
  induction d as [|[k w] d IH]; cbn [dict_set map fst].
  - intros [?%not_elem_of_nil| ->]; [done|by left].
  - case_bool_decide as E; cbn [map fst].
    + subst k. intros [H| ->]; [done|by left].
    + intros [[->|H]%elem_of_cons| ->]; [by left|right; apply IH; by left|right; apply IH; by right].
Qed.

(** The keys of a pass. *)
Definition counted (p : Pass) : list string := map fst (ps_num_scheduled_tokens p).

Section Counts.
Variable cfg : SchedConfig.

Lemma schedule_running_counts defer fuel : ∀ i p s p' s' x,
  schedule_running cfg fuel defer i p s = (Ok p', s') → x ∈ counted p → x ∈ counted p'.
Proof.
  induction fuel as [|fuel IH]; intros i p s p' s' x; cbn [schedule_running]; [by intros [= -> _]|].
  rewrite st_bind_eq. cbn [st_get]. destruct (sc_running s !! i) as [id|]; [|by intros [= -> _]].
  destruct (ps_token_budget p <=? 0)%Z; [by intros [= -> _]|]. intros (r & s1 & _ & H)%st_bind_ok.
  destruct (passes_over _ _ _); [by apply (IH _ _ _ _ _ x H)|]. destruct (running_tokens cfg _ r =? 0)%Z; [by apply (IH _ _ _ _ _ x H)|].
  apply st_bind_ok in H as ([[b|] l] & s2 & _ & H); cbv beta iota zeta in H; [|by injection H as <- _].
  intros Hx. apply (IH _ _ _ _ _ x H). apply dict_set_keys. by left.
Qed.

Lemma schedule_waiting_counts defer fuel : ∀ p s p' s' x,
  schedule_waiting cfg fuel defer p s = (Ok p', s') → x ∈ counted p → x ∈ counted p'.
Proof.
  induction fuel as [|fuel IH]; intros p s p' s' x; cbn [schedule_waiting]; [by intros [= -> _]|].
  rewrite st_bind_eq. cbn [st_get]. destruct (sc_waiting s) as [|id l]; [by intros [= -> _]|].
  destruct (ps_token_budget p <=? 0)%Z; [by intros [= -> _]|]. destruct (_ <=? _)%Z; [by intros [= -> _]|].
  intros (r & s1 & _ & H)%st_bind_ok. apply st_bind_ok in H as ([[b m] c] & s2 & _ & H). cbv beta iota zeta in H.
  destruct (defer && _); [by injection H as <- _|]. destruct (waiting_tokens _ _ _ _) as [k|]; [|by injection H as <- _].
  apply st_bind_ok in H as ([] & s3 & _ & H). apply st_bind_ok in H as ([b'|] & s4 & _ & H); [|by injection H as <- _].
  apply st_bind_ok in H as (p1 & s5 & Ha & H). intros Hx. apply (IH _ _ _ _ x H). unfold admit_request in Ha.
  apply st_bind_ok in Ha as (? & ? & _ & Ha). apply st_bind_ok in Ha as ([? ?] & ? & _ & Ha). cbv beta iota zeta in Ha.
  apply st_bind_ok in Ha as (? & ? & _ & Ha). apply st_bind_ok in Ha as (? & ? & _ & [= <- _]). apply dict_set_keys. by left.
Qed.
End Counts.

(** ** One request alone *)

Section Head.
Variables (cfg : SchedConfig) (n : nat).
Abbreviation kv := (sg_kv cfg).
Hypotheses (Hwm : (0 ≤ watermark_blocks kv)%Z) (Hbs : (0 < kv_block_size kv)%Z).

(** Every step may run tokens of some request, and the blocks other than the null block
    hold a request of the model's length. *)
Record may_drain : Prop := {
  md_tokens : (0 < sg_max_num_scheduled_tokens cfg)%Z;
  md_reqs : (0 < sg_max_num_running_reqs cfg)%Z;
  md_chunked : sg_enable_chunked_prefill cfg = true;
  md_blocks : (cdiv (max_model_len kv) (kv_block_size kv) < Z.of_nat n)%Z
}.

Lemma held_alone k id : (∀ x, x ≠ id → table_of k x = []) → length (held_blocks (req_to_blocks k)) = length (table_of k id).
Proof.
  intros H. rewrite (held_default (req_to_blocks k) id), length_app. fold (table_of k id).
  destruct (held_blocks (delete id (req_to_blocks k))) as [|r l] eqn:E; [cbn; lia|]. exfalso.
  assert (r ∈ held_blocks (delete id (req_to_blocks k))) as Hr by (rewrite E; by left).
  apply held_elem in Hr as (x & t & Ht & Hr). apply lookup_delete_Some in Ht as [Hne Ht]. specialize (H x ltac:(done)).
  unfold table_of in H. rewrite Ht in H. cbn in H. subst t. by apply not_elem_of_nil in Hr.
Qed.

(** No call for a request is refused while no other holds a block. *)
Lemma slots_alone run k request m a :
  (cdiv (max_model_len kv) (kv_block_size kv) < Z.of_nat n)%Z → tables_within kv n run k → (∀ x, x ∈ run → x = request_id request) → reserved_blocks a = 0%Z →
  has_scheduled_reqs a && is_waiting (status request) = false → slots_refused kv k request m a = false.
Proof.
  intros Hfit [Hok Ht] Hrun Hres Hw. unfold slots_refused. rewrite Hw, Hres, Z.add_0_r, Z.sub_0_r, Z.add_0_r. set (id := request_id request) in *.
  assert (∀ x, x ≠ id → table_of k x = []) as Halone by (intros x Hne; apply Ht; intros Hx; by apply Hne, Hrun).
  rewrite (free_count n k Hok), (held_alone k id Halone). destruct (Ht id) as [Hlen _].
  assert (0 < n)%nat as Hn by (destruct Hok as ((D & l & (_ & _ & _ & _ & _ & _ & ? & _) & _) & _); done).
  assert (∀ t, (t ≤ max_model_len kv)%Z → blocks_needed kv k id t ≤ Z.of_nat n - 1 - Z.of_nat (length (table_of k id)))%Z as Hneed.
  { intros t Htm. unfold blocks_needed. pose proof (cdiv_mono t (max_model_len kv) (kv_block_size kv) Hbs Htm). lia. }
  apply orb_false_iff. split; [apply andb_false_iff; right|]; apply Z.ltb_ge, Hneed; [lia|]. unfold slot_tokens. lia.
Qed.
(** ** The head runs *)

(** A running request takes tokens in a step. *)
Definition takes (s : Scheduler) (r : SchedRequest) : Prop :=
  passes_over (sc_current_step s) false r = false ∧ running_tokens cfg (sg_max_num_scheduled_tokens cfg) r ≠ 0%Z.

Section Pass.
Variables (k0 : Manager) (s0 : Scheduler) (granted : gmap string Z).
Hypotheses (Hs0 : sched_ok cfg n s0) (Hd : may_drain) (Hc : called kv k0 (sc_finished_req_ids s0) (sc_manager s0) granted).

Lemma head_running id back r :
  sc_running s0 = id :: back → sc_requests s0 !! id = Some r → sc_pause_state s0 ≠ PAUSED_ALL →
  ∃ s p kept dropped g, schedule_running cfg (length (sc_running s0)) false 0 (fresh_pass cfg s0) s0 = (Ok p, s)
  ∧ pass_inv cfg n k0 s0 kept dropped [] (sc_waiting s0) s p g ∧ [id] `prefix_of` kept ∧ (takes s0 r → id ∈ counted p).
Proof.
  intros Erun Hr Hpause. pose proof (md_tokens Hd) as Hmax.
  pose proof (pass_start cfg n k0 s0 granted Hs0 ltac:(lia) Hc) as H0. rewrite Erun in H0. change (id :: back) with ([] ++ id :: back) in H0.
  assert (ps_token_budget (fresh_pass cfg s0) = sg_max_num_scheduled_tokens cfg) as Ebudget by (cbn; by destruct (sc_pause_state s0)).
  assert (∀ x, x ∈ ps_running_reqs (fresh_pass cfg s0) → x ∈ [id]) as Hnone by (by intros x ?%not_elem_of_nil).
  assert (∀ p s dropped back' g, pass_inv cfg n k0 s0 ([id] ++ back') dropped [] (sc_waiting s0) s p g → (∀ x, x ∈ ps_running_reqs p → x ∈ [id]) →
     (length back' ≤ length back)%nat → (takes s0 r → id ∈ counted p) → ∃ s' p' kept dropped' g', schedule_running cfg (length back) false 1 p s = (Ok p', s')
     ∧ pass_inv cfg n k0 s0 kept dropped' [] (sc_waiting s0) s' p' g' ∧ [id] `prefix_of` kept ∧ (takes s0 r → id ∈ counted p')) as Hnext.
  { intros p s dropped back' g H Hin Hle Ht. destruct (schedule_running_ok cfg n Hwm Hbs k0 s0 Hs0 false (length back) [id] back' dropped (sc_waiting s0) s p g H Hin Hle)
      as (s' & p' & kept & d & g' & E & H' & Hpre). exists s', p', kept, d, g'. split; [exact E|]. split; [done|]. split; [done|].
    intros Htakes. eapply schedule_running_counts; [exact E|by apply Ht]. }
  rewrite Erun. cbn [length schedule_running]. rewrite st_bind_eq. cbn [st_get]. rewrite Erun. cbn [lookup list_lookup]. rewrite Ebudget.
  destruct (Z.leb_spec (sg_max_num_scheduled_tokens cfg) 0); [lia|]. rewrite st_bind_eq, (get_request_eq id r) by done.
  destruct (passes_over (sc_current_step s0) false r) eqn:Epass.
  { eapply Hnext; [exact H0|done|done|]. intros [? _]. congruence. }
  destruct (Z.eqb_spec (running_tokens cfg (sg_max_num_scheduled_tokens cfg) r) 0) as [|Hnz].
  { eapply Hnext; [exact H0|done|done|]. by intros [_ ?]. }
  pose proof (so_object _ _ _ Hs0 id r Hr) as Hobj. destruct (running_tokens_ok cfg id r _ Hobj Hmax Hnz) as (Hk & Hlen & Hbudget).
  destruct (allocate_running_ok cfg n Hwm Hbs k0 s0 Hs0 (S (length (id :: back))) [] id back [] (sc_waiting s0) s0 (fresh_pass cfg s0) granted r _ H0
              ltac:(cbn; lia) ltac:(by intros x ?%not_elem_of_nil) Hr Hk Hlen ltac:(lia)) as (res & s' & dropped & g & E & H').
  rewrite st_bind_eq, E. destruct res as [b|].
  - destruct H' as (back' & Hb & H'). eapply Hnext; [exact H'| |exact Hb|].
    + cbn. intros x Hx. exact Hx.
    + intros _. apply dict_set_keys. by right.
  - destruct H' as [_ (m & Htab & Eref)]. exfalso. cbn [app] in Htab.
    pose proof (allocate_slots_ok kv n m (kv_request r) _ default_args (proj1 Htab) ltac:(exact Hnz) (proj1 kv_default_args) Hwm ltac:(done)) as Hslots.
    rewrite (slots_alone [id]) in Hslots; try done.
    + destruct Hslots as (bs & k' & Hslots & _). by rewrite Eref in Hslots.
    + apply (md_blocks Hd).
    + intros x ->%list_elem_of_singleton. symmetry. apply Hobj.
    + cbn. rewrite (so_runs _ _ _ Hs0 id r); [done|rewrite Erun; by left|done].
Qed.

(** ** The head is admitted *)

Lemma head_waiting id rest r :
  sc_running s0 = [] → sc_waiting s0 = id :: rest → sc_requests s0 !! id = Some r → sc_pause_state s0 ≠ PAUSED_ALL →
  ∃ s p new rest' g, schedule_waiting cfg (length (sc_waiting s0)) false (fresh_pass cfg s0) s0 = (Ok p, s)
  ∧ pass_inv cfg n k0 s0 [] [] new rest' s p g ∧ id ∈ counted p.
Proof.
  intros Erun Ewait Hr Hpause. pose proof (md_tokens Hd) as Hmax. pose proof (md_reqs Hd) as Hreqs.
  pose proof (pass_start cfg n k0 s0 granted Hs0 ltac:(lia) Hc) as H0. rewrite Erun, Ewait in H0.
  assert (ps_token_budget (fresh_pass cfg s0) = sg_max_num_scheduled_tokens cfg) as Ebudget by (cbn; by destruct (sc_pause_state s0)).
  destruct (schedule_waiting_ok cfg n Hwm Hbs k0 s0 Hs0 false (length (sc_waiting s0)) [] [] (id :: rest) s0 (fresh_pass cfg s0) granted H0
     ltac:(by rewrite Ewait) ltac:(rewrite Erun; cbn; lia)) as (s & p & new & rest' & g & E & H & _).
  exists s, p, new, rest', g. split; [done|]. split; [done|]. rewrite Ewait in E. cbn [length schedule_waiting] in E. rewrite st_bind_eq in E. cbn [st_get] in E.
  rewrite Ewait, Erun, Ebudget in E. destruct (Z.leb_spec (sg_max_num_scheduled_tokens cfg) 0); [lia|].
  destruct (Z.leb_spec (sg_max_num_running_reqs cfg) (Z.of_nat (length (A := string) []))); [cbn in *; lia|].
  destruct (pass_waiting cfg n Hwm Hbs k0 s0 Hs0 _ _ _ _ _ _ _ H0) as (r' & Hr' & _ & Hobj & [Hst Hcomp] & _ & _ & _ & Ht0).
  assert (r' = r) as -> by congruence. pose proof Hobj as (Eid & _ & _ & [Hlen Hlen'] & _).
  rewrite st_bind_eq, (get_request_eq id r), st_bind_eq in E by done. pose proof (so_tables _ _ _ Hs0) as Htab.
  rewrite (computed_blocks_ok cfg n s0 r (proj1 Htab) Hcomp Hlen) in E. cbn [andb] in E.
  assert (∃ k, waiting_tokens cfg (sg_max_num_scheduled_tokens cfg) r 0 = Some k) as [k Ek] by (unfold waiting_tokens; rewrite (md_chunked Hd); by eexists).
  rewrite Ek in E. destruct (waiting_tokens_ok _ _ _ _ Hmax Hlen Ek) as [Hk _].
  rewrite st_bind_eq in E. destruct (Z.leb_spec k 0); [lia|]. cbn [st_raise_if st_lift raise_if] in E. unfold st_raise_if, st_lift, raise_if in E. rewrite st_bind_eq in E.
  set (a := mkSlotArgs _ _ _ _ _ _ _ _) in E.
  pose proof (allocate_slots_ok kv n (sc_manager s0) (kv_request r) k a (proj1 Htab) ltac:(lia) ltac:(split; [by right|done]) Hwm ltac:(done)) as Hslots.
  rewrite (slots_alone (sc_running s0)) in Hslots; try done; [|apply (md_blocks Hd)|by rewrite Erun; intros x ?%not_elem_of_nil].
  destruct Hslots as (bs & k' & Es & _). rewrite (on_manager_eq _ _ _ _ Es) in E. apply st_bind_ok in E as (p1 & s1 & Ea & E).
  eapply schedule_waiting_counts; [exact E|]. unfold admit_request in Ea.
  apply st_bind_ok in Ea as (? & ? & _ & Ea). apply st_bind_ok in Ea as ([? ?] & ? & _ & Ea). cbv beta iota zeta in Ea.
  apply st_bind_ok in Ea as (? & ? & _ & Ea). apply st_bind_ok in Ea as (? & ? & _ & [= <- _]). unfold counted. cbn. rewrite Eid. by left.
Qed.

(** ** A step *)

(** The queue in the order it is served. *)
Definition queue_of (s : Scheduler) : list string := sc_running s ++ sc_waiting s.

Lemma head_scheduled id tl r s p :
  queue_of s0 = id :: tl → sc_requests s0 !! id = Some r → sc_pause_state s0 = UNPAUSED → schedule_requests cfg false s0 = (Ok p, s) →
  id ∈ sc_running s ∧ (takes s0 r ∨ id ∉ sc_running s0 → id ∈ counted p).
Proof.
  intros Eq Hr Hpause E. unfold schedule_requests in E. rewrite st_bind_eq in E. cbn [st_get] in E.
  assert (defers_prefills false s0 = false) as Edefer by done. rewrite Edefer, Hpause in E. clear Edefer. cbn zeta in E.
  assert (sc_pause_state s0 ≠ PAUSED_ALL) as Hnp by (by rewrite Hpause). unfold queue_of in Eq.
  destruct (sc_running s0) as [|x back] eqn:Erun; cbn [app] in Eq.
  - destruct (head_waiting id tl r Erun Eq Hr Hnp) as (s1 & p1 & new & rest & g & E1 & H1 & Hin).
    cbn [length schedule_running] in E. rewrite st_bind_eq in E. cbn [mret] in E. rewrite st_ret_eq in E. cbn [fresh_pass ps_preempted_reqs] in E.
    rewrite st_bind_eq in E. cbn [st_get] in E. rewrite st_bind_eq, E1, st_bind_eq in E. cbn [st_get] in E.
    rewrite st_bind_eq in E. injection E as -> <-. split; [|by intros _]. cbn.
    rewrite (pi_run _ _ _ _ _ _ _ _ _ _ _ H1). cbn [app]. unfold counted in Hin. rewrite (pi_keys _ _ _ _ _ _ _ _ _ _ _ H1) in Hin.
    apply elem_of_app in Hin as [Hin|Hin]; [|done]. apply (pi_old _ _ _ _ _ _ _ _ _ _ _ H1) in Hin. by apply not_elem_of_nil in Hin.
  - injection Eq as -> <-. destruct (head_running id back r Erun Hr Hnp) as (s1 & p1 & kept & dropped & g & E1 & H1 & Hpre & Ht).
    rewrite <-Erun, st_bind_eq, E1 in E. assert (id ∈ kept) as Hkept by (destruct Hpre as [l ->]; by left).
    assert (id ∈ sc_running s ∧ (id ∈ counted p1 → id ∈ counted p)) as [H2 H3].
    { destruct (ps_preempted_reqs p1) as [|y l] eqn:Ep.
      2:{ injection E as <- <-. split; [|done]. rewrite (pi_run _ _ _ _ _ _ _ _ _ _ _ H1), app_nil_r. done. }
      rewrite (pi_preempted _ _ _ _ _ _ _ _ _ _ _ H1) in Ep. assert (dropped = []) as ->.
      { apply (f_equal reverse) in Ep. by rewrite reverse_involutive in Ep. }
      rewrite st_bind_eq in E. cbn [st_get] in E. apply st_bind_ok in E as (p2 & s2 & E2 & E). rewrite st_bind_eq in E. cbn [st_get] in E.
      rewrite st_bind_eq in E. injection E as <- <-. cbn [sc_running].
      destruct (schedule_waiting_ok cfg n Hwm Hbs k0 s0 Hs0 false (length (sc_waiting s1)) kept [] (sc_waiting s0) s1 p1 g H1) as (s3 & p3 & new & rest & g3 & E3 & H3 & _).
      { by rewrite (pi_wait _ _ _ _ _ _ _ _ _ _ _ H1). }
      { rewrite (pi_run _ _ _ _ _ _ _ _ _ _ _ H1), app_nil_r. pose proof (so_room _ _ _ Hs0) as Hroom.
        rewrite (pi_run0 _ _ _ _ _ _ _ _ _ _ _ H1), app_nil_r in Hroom. done. }
      rewrite E2 in E3. injection E3 as <- <-. split; [|by eapply schedule_waiting_counts].
      rewrite (pi_run _ _ _ _ _ _ _ _ _ _ _ H3), elem_of_app. by left. }
    split; [done|]. intros [Htk|Hn]; [by apply H3, Ht|]. exfalso. apply Hn. by left.
Qed.
End Pass.

(** The clock of the asynchronous scheduler: every live request may run in the next step. *)
Definition clock_ok (s : Scheduler) : Prop :=
  (0 ≤ sc_current_step s)%Z ∧ ∀ id r, sc_requests s !! id = Some r → (sr_next_decode_eligible_step r ≤ sc_current_step s + 1)%Z.

(** A request that takes no tokens waits for one in flight. *)
Lemma takes_or_waits id s r :
  may_drain → object_ok cfg id r → (sr_next_decode_eligible_step r ≤ sc_current_step s)%Z →
  (sr_num_computed_tokens r < sr_num_tokens r + sr_num_output_placeholders r)%Z → takes s r ∨ (0 < sr_num_output_placeholders r)%Z.
Proof.
  intros Hd (_ & _ & Hph & Hlen & _ & Hcomp & _) Hclock Hmore. destruct (Z.ltb_spec 0 (sr_num_output_placeholders r)) as [|Hz]; [by right|]. left.
  pose proof (md_tokens Hd). split.
  - unfold passes_over. rewrite (proj2 (Z.ltb_ge 0 _)) by lia. rewrite (proj2 (Z.ltb_ge _ _)) by lia. done.
  - unfold running_tokens, cap_prefill. destruct (Z.ltb_spec 0 (sg_long_prefill_token_threshold cfg)); cbn [andb]; [|lia].
    destruct (Z.ltb_spec (sg_long_prefill_token_threshold cfg) (sr_num_tokens r + sr_num_output_placeholders r - sr_num_computed_tokens r)); lia.
Qed.

Section Step.
Variables (k0 : Manager) (s0 s s' : Scheduler) (p : Pass) (kept dropped new rest : list string) (granted : gmap string Z).
Hypotheses (Hs0 : sched_ok cfg n s0) (Hstep : step_result cfg n k0 s0 s s' p kept dropped new rest granted).

Let Hpass : pass_inv cfg n k0 (tick s0) kept dropped new rest s p granted := re_pass _ _ _ _ _ _ _ _ _ _ _ _ Hstep.

(** A step keeps the order of the queue. *)
Lemma step_queue : queue_of s' = queue_of s0.
Proof.
  unfold queue_of. rewrite (re_running _ _ _ _ _ _ _ _ _ _ _ _ Hstep), (re_waiting _ _ _ _ _ _ _ _ _ _ _ _ Hstep).
  pose proof (pi_run0 _ _ _ _ _ _ _ _ _ _ _ Hpass) as E1. pose proof (pi_wait0 _ _ _ _ _ _ _ _ _ _ _ Hpass) as E2. cbn in E1, E2. rewrite E1, E2.
  pose proof (re_either _ _ _ _ _ _ _ _ _ _ _ _ Hstep) as H. destruct new as [|x l]; [by rewrite app_nil_r, <-app_assoc|].
  rewrite H by done. by rewrite app_nil_r, <-app_assoc.
Qed.

(** The objects keep their tokens; the count of one that was not dropped rises by its entry. *)
Lemma step_object id r :
  sc_requests s0 !! id = Some r →
  ∃ r', sc_requests s' !! id = Some r' ∧ sr_all_token_ids r' = sr_all_token_ids r
  ∧ (sr_next_decode_eligible_step r' = sr_next_decode_eligible_step r ∨ sr_next_decode_eligible_step r' = sc_current_step s' + sg_pp_size cfg)%Z
  ∧ (id ∈ sc_running s → (sr_num_computed_tokens r ≤ sr_num_computed_tokens r')%Z
     ∧ (id ∈ counted p → sr_num_computed_tokens r < sr_num_computed_tokens r')%Z).
Proof.
  intros Hr. pose proof (pass_nodup cfg n k0 (tick s0) (tick_ok cfg n s0 Hs0) _ _ _ _ _ _ _ Hpass) as Hn.
  rewrite (re_requests _ _ _ _ _ _ _ _ _ _ _ _ Hstep), (pi_requests _ _ _ _ _ _ _ _ _ _ _ Hpass).
  change (sc_requests (tick s0)) with (sc_requests s0). rewrite Hr. cbn [fmap option_fmap option_map]. eexists. split; [reflexivity|].
  set (m := moved dropped new id r). assert (sr_all_token_ids m = sr_all_token_ids r ∧ sr_next_decode_eligible_step m = sr_next_decode_eligible_step r) as [M1 M2]
    by (unfold m, moved; by destruct (decide (id ∈ dropped)), (decide (id ∈ new))).
  assert (id ∈ sc_running s → sr_num_computed_tokens m = sr_num_computed_tokens r) as M3.
  { rewrite (pi_run _ _ _ _ _ _ _ _ _ _ _ Hpass). intros Hin. unfold m, moved. rewrite decide_False; [destruct (decide (id ∈ new)) as [Hnew|]; [|done]|].
    - destruct (so_waits _ _ _ Hs0 id r) as [_ Hc]; [|done|by rewrite Hc]. pose proof (pi_wait0 _ _ _ _ _ _ _ _ _ _ _ Hpass) as E. cbn in E. rewrite E.
      apply elem_of_app. by left.
    - intros Hdr. apply NoDup_app in Hn as (_ & Hd1 & Hn). apply NoDup_app in Hn as (_ & Hd2 & _).
      apply elem_of_app in Hin as [Hin|Hin]; [apply (Hd1 id Hin)|apply (Hd2 id Hdr)]; rewrite !elem_of_app; auto. }
  rewrite (re_step _ _ _ _ _ _ _ _ _ _ _ _ Hstep). unfold after_counts. destruct (list_to_map (ps_num_scheduled_tokens p) !! id) as [q|] eqn:Eq.
  - apply elem_of_list_to_map_2 in Eq. destruct (pi_counts _ _ _ _ _ _ _ _ _ _ _ Hpass _ Eq) as (_ & _ & _ & Hq & _). cbn [snd] in Hq.
    assert (sr_all_token_ids (after_step cfg (sc_current_step s) q m) = sr_all_token_ids m
      ∧ (sr_next_decode_eligible_step (after_step cfg (sc_current_step s) q m) = sr_next_decode_eligible_step m
         ∨ sr_next_decode_eligible_step (after_step cfg (sc_current_step s) q m) = sc_current_step s + sg_pp_size cfg)%Z
      ∧ sr_num_computed_tokens (after_step cfg (sc_current_step s) q m) = (sr_num_computed_tokens m + q)%Z) as (A1 & A2 & A3).
    { unfold after_step, hold, advance. destruct (sg_async_scheduling cfg); [|by split; [|split; [left|]]]. cbn [set_progress sr_is_prefill_chunk].
      destruct (_ <? _)%Z; (split; [done|split; [|done]]); [by left|by right]. }
    rewrite A1, A3, <-M1, <-M2. split; [done|]. split; [done|]. intros Hin. rewrite (M3 Hin). split; [lia|]. intros _. lia.
  - split; [done|]. split; [by left|]. intros Hin. rewrite (M3 Hin). split; [lia|]. intros Hc. exfalso. apply not_elem_of_list_to_map_2 in Eq. by apply Eq.
Qed.

Lemma step_clock : sg_pp_size cfg = 1%Z → clock_ok s0 → clock_ok s'.
Proof.
  intros Hpp [Hpos Hclock]. assert (sc_current_step s' = sc_current_step s0 + 1)%Z as Estep.
  { rewrite (re_step _ _ _ _ _ _ _ _ _ _ _ _ Hstep). exact (pi_step _ _ _ _ _ _ _ _ _ _ _ Hpass). }
  split; [lia|]. intros id r' Hr'. destruct (sc_requests s0 !! id) as [r|] eqn:Er.
  - destruct (step_object id r Er) as (r'' & Hr'' & _ & He & _). assert (r'' = r') as -> by congruence. specialize (Hclock id r Er). rewrite Hpp in He. lia.
  - rewrite (re_requests _ _ _ _ _ _ _ _ _ _ _ _ Hstep), (pi_requests _ _ _ _ _ _ _ _ _ _ _ Hpass) in Hr'.
    change (sc_requests (tick s0)) with (sc_requests s0) in Hr'. by rewrite Er in Hr'.
Qed.

(** The head stays, and advances unless a token of it is in flight. *)
Lemma head_step id tl r g :
  may_drain → called kv k0 (sc_finished_req_ids s0) (sc_manager s0) g → clock_ok s0 → sc_pause_state s0 = UNPAUSED →
  schedule_requests cfg false (tick s0) = (Ok p, s) → queue_of s0 = id :: tl → sc_requests s0 !! id = Some r →
  (sr_num_computed_tokens r < sr_num_tokens r + sr_num_output_placeholders r)%Z →
  ∃ r', sc_requests s' !! id = Some r' ∧ sr_all_token_ids r' = sr_all_token_ids r
  ∧ (sr_num_computed_tokens r ≤ sr_num_computed_tokens r')%Z
  ∧ ((sr_num_computed_tokens r < sr_num_computed_tokens r')%Z ∨ (0 < sr_num_output_placeholders r)%Z).
Proof.
  intros Hd Hc Hclock Hpause E Hq Hr Hmore. pose proof (so_object _ _ _ Hs0 id r Hr) as Hobj.
  destruct (step_object id r Hr) as (r' & Hr' & Htok & _ & Hcomp). exists r'. split; [done|]. split; [done|].
  destruct (head_scheduled k0 (tick s0) g (tick_ok cfg n s0 Hs0) Hd Hc id tl r s p Hq Hr Hpause E) as [Hrun Hcount].
  destruct (Hcomp Hrun) as [C1 C2]. split; [done|]. destruct Hclock as [_ Hclock].
  destruct (takes_or_waits id (tick s0) r Hd Hobj (Hclock id r Hr) Hmore) as [Ht|]; [|by right]. left. apply C2, Hcount. by left.
Qed.
End Step.
End Head.

(** ** Between the steps *)

(** Queues only lose requests; the clock and the pause stay. *)
Record shrinks (s s' : Scheduler) : Prop := {
  sh_running : sc_running s' `sublist_of` sc_running s;
  sh_waiting : sc_waiting s' `sublist_of` sc_waiting s;
  sh_step : sc_current_step s' = sc_current_step s;
  sh_pause : sc_pause_state s' = sc_pause_state s
}.

#[export] Instance shrinks_preorder : PreOrder shrinks.
Proof. split; [by split|]. intros s1 s2 s3 [] []. split; by etransitivity. Qed.

Lemma remove_requests_sublist l ids : remove_requests l ids `sublist_of` l.
Proof. unfold remove_requests. induction l as [|x l IH]; [done|]. cbn [List.filter]. case_bool_decide; [by apply sublist_skip|by apply sublist_cons]. Qed.

Lemma remove_first_sublist x l : remove_first x l `sublist_of` l.
Proof. induction l as [|y l IH]; [done|]. cbn [remove_first]. case_bool_decide; [by apply sublist_cons|by apply sublist_skip]. Qed.

Lemma remove_all_sublist l ids : remove_all l ids `sublist_of` l.
Proof. destruct ids as [|x [|y ids]]; [done|apply remove_first_sublist|apply remove_requests_sublist]. Qed.

(** A method that changes objects, blocks and the identifiers of finished requests only. *)
Lemma put_request_shrinks r s : st_at shrinks s (put_request r).
Proof. by apply at_modify. Qed.

Lemma on_manager_shrinks {A} (m : ST Manager A) s : st_at shrinks s (on_manager m).
Proof. unfold st_at, on_manager. by destruct (m (sc_manager s)). Qed.

Lemma free_request_shrinks r s : st_at shrinks s (_free_request r).
Proof.
  unfold _free_request. apply at_raise_bind; [apply _|]. apply at_bind; [apply _|by apply at_modify|]. intros _ s1 _.
  unfold _free_blocks. apply at_raise_bind; [apply _|]. apply at_bind; [apply _|apply on_manager_shrinks|]. intros _ s2 _. by apply at_modify.
Qed.

Section Frame.
Variable cfg : SchedConfig.

Lemma generated_shrinks mro id s : st_at shrinks s (generated_tokens mro id).
Proof. unfold generated_tokens. destruct (list_find _ _) as [[i x]|]; [|apply at_lift, _]. destruct (mr_sampled_token_ids mro); [apply at_ret, _|apply at_lift, _]. Qed.

Lemma update_with_output_shrinks r toks s : st_at shrinks s (_update_request_with_output cfg r toks).
Proof.
  unfold _update_request_with_output. destruct (_ && _).
  - apply at_bind; [apply _|apply put_request_shrinks|]. intros _ s1 _. apply at_ret, _.
  - apply at_lift_bind; [apply _|]. intros [[kept stopped] r'] _. destruct (sg_async_scheduling cfg).
    + apply at_bind; [apply _|apply put_request_shrinks|]. intros _ s1 _. apply at_raise_bind; [apply _|].
      apply at_bind; [apply _| |intros _ s2 _; apply at_ret, _]. case_bool_decide; [apply on_manager_shrinks|apply at_ret, _].
    + apply at_bind; [apply _|apply put_request_shrinks|]. intros _ s1 _. apply at_ret, _.
Qed.

Lemma update_round_shrinks mro it acc s : st_at shrinks s (update_request_from_output cfg mro it acc).
Proof.
  unfold update_request_from_output. destruct acc as [[o l1] l2]. apply at_raise_bind; [apply _|]. apply at_get.
  destruct (sc_requests s !! it.1) as [r|]; [|apply at_ret, _]. destruct (is_finished (sr_status r)); [apply at_ret, _|].
  apply at_bind; [apply _|apply generated_shrinks|]. intros gen s1 _. apply at_bind; [apply _|destruct gen; [apply at_ret, _|apply update_with_output_shrinks]|].
  intros [toks stopped] s2 _. apply at_bind; [apply _|unfold get_request; apply at_get, at_lift, _|]. intros r' s3 _.
  apply at_bind; [apply _|destruct stopped; [apply free_request_shrinks|apply at_ret, _]|]. intros _ s4 _. apply at_ret, _.
Qed.

Lemma update_rounds_shrinks mro items : ∀ acc s, st_at shrinks s (update_requests_from_output cfg mro items acc).
Proof.
  induction items as [|it items IH]; intros acc s; [apply at_ret, _|]. apply at_bind; [apply _|apply update_round_shrinks|]. intros acc' s' _. apply IH.
Qed.

Lemma update_from_output_shrinks so mro s : st_at shrinks s (update_from_output cfg so mro).
Proof.
  apply at_bind; [apply _|apply update_rounds_shrinks|]. intros [[o l1] l2] s1 _. apply at_bind; [apply _| |intros _ s2 _; apply at_ret, _].
  apply at_modify. split; cbn; [apply remove_all_sublist|apply remove_requests_sublist|done|done].
Qed.
End Frame.

Lemma finish_requests_shrinks visit ids st s : st_at shrinks s (finish_requests visit ids st).
Proof.
  unfold finish_requests. apply at_raise_bind; [apply _|]. apply at_get. apply at_bind; [apply _| |].
  - apply at_modify. split; cbn; [apply remove_all_sublist|apply remove_requests_sublist|done|done].
  - intros _ s1 _. apply at_bind; [apply _| |intros _ s2 _; apply at_ret, _]. apply at_for; [apply _|]. intros r s2.
    apply at_bind; [apply _|apply put_request_shrinks|]. intros _ s3 _. apply free_request_shrinks.
Qed.

(** The head of a queue that shrinks is still its head, if it is there. *)
Lemma sublist_head (l l' : list string) x tl : NoDup l → l = x :: tl → l' `sublist_of` l → x ∈ l' → ∃ tl', l' = x :: tl'.
Proof.
  intros Hn -> Hs Hx. inversion Hs as [|y l1 l2 H|y l1 l2 H]; subst; [by eexists|]. exfalso. apply NoDup_cons in Hn as [Hn _].
  apply Hn. by eapply elem_of_sublist.
Qed.

(** ** The loops end *)

Lemma st_bind_ext {S A B} (m : ST S A) (f g : A → ST S B) s :
  (∀ a s1, m s = (Ok a, s1) → f a s1 = g a s1) → (m ≫= f) s = (m ≫= g) s.
Proof. intros H. rewrite !st_bind_eq. destruct (m s) as [[a|e] s1]; [by apply H|done]. Qed.

(** ** What the bodies leave of the queues *)

Definition fewer_running (s s' : Scheduler) : Prop := (length (sc_running s') ≤ length (sc_running s))%nat.
#[local] Instance fewer_running_preorder : PreOrder fewer_running.
Proof. split; [intros s; unfold fewer_running; lia|]. intros s1 s2 s3. unfold fewer_running. lia. Qed.

Definition same_waiting (s s' : Scheduler) : Prop := sc_waiting s' = sc_waiting s.
#[local] Instance same_waiting_preorder : PreOrder same_waiting.
Proof. split; [by intros s|]. intros s1 s2 s3. unfold same_waiting. congruence. Qed.

Lemma st_at_out {S A} (R : S → S → Prop) s (m : ST S A) a s' : st_at R s m → m s = (Ok a, s') → R s s'.
Proof. unfold st_at. intros H E. by rewrite E in H. Qed.

Lemma on_manager_running {A} (m : ST Manager A) s : st_at fewer_running s (on_manager m).
Proof. unfold st_at, on_manager, fewer_running. by destruct (m (sc_manager s)). Qed.

Lemma on_manager_waiting {A} (m : ST Manager A) s : st_at same_waiting s (on_manager m).
Proof. unfold st_at, on_manager. by destruct (m (sc_manager s)). Qed.

Lemma get_request_same id s r s' : get_request id s = (Ok r, s') → s' = s.
Proof. unfold get_request. rewrite st_bind_eq. cbn [st_get]. unfold st_lift. by intros [= _ ->]. Qed.

Lemma pop_running_fewer s id s' : pop_running s = (Ok id, s') → (length (sc_running s') < length (sc_running s))%nat.
Proof.
  unfold pop_running. rewrite st_bind_eq. cbn [st_get]. destruct (last (sc_running s)) eqn:E; [|done]. rewrite st_bind_eq. intros [= _ <-]. cbn.
  destruct (sc_running s); [done|]. rewrite length_take. cbn. lia.
Qed.

Lemma preempt_running id s : st_at fewer_running s (_preempt_request id).
Proof.
  unfold _preempt_request. apply at_bind; [apply _|unfold get_request; apply at_get, at_lift, _|]. intros r s1 _. apply at_raise_bind; [apply _|].
  apply at_bind; [apply _|apply on_manager_running|]. intros _ s2 _. apply at_bind; [apply _|apply at_modify, Nat.le_refl|]. intros _ s3 _.
  apply at_bind; [apply _|apply at_modify, Nat.le_refl|]. intros _ s4 _. apply at_modify, Nat.le_refl.
Qed.

Section Loops.
Variable cfg : SchedConfig.

Lemma allocate_running_fewer fuel : ∀ id k l s, st_at fewer_running s (allocate_running cfg fuel id k l).
Proof.
  induction fuel as [|fuel IH]; intros id k l s; cbn [allocate_running]; [apply at_lift, _|].
  apply at_bind; [apply _|unfold get_request; apply at_get, at_lift, _|]. intros r s1 _. apply at_bind; [apply _|apply on_manager_running|].
  intros [b|] s2 _; [apply at_ret, _|]. apply at_bind; [apply _| |intros v s3 _; apply at_bind; [apply _|apply preempt_running|]; intros _ s4 _].
  - unfold st_at, fewer_running. destruct (pop_running s2) as [[v|e] s3] eqn:E; [apply pop_running_fewer in E; cbn; lia|].
    unfold pop_running in E. rewrite st_bind_eq in E. cbn [st_get] in E. destruct (last (sc_running s2)); [by rewrite st_bind_eq in E|by injection E as _ <-].
  - case_bool_decide; [apply at_ret, _|apply IH].
Qed.

Lemma allocate_running_fuel fuel more : ∀ id k l s,
  (length (sc_running s) < fuel)%nat → allocate_running cfg (fuel + more) id k l s = allocate_running cfg fuel id k l s.
Proof.
  induction fuel as [|fuel IH]; intros id k l s Hf; [lia|]. cbn [Nat.add allocate_running]. apply st_bind_ext. intros r s1 E1. apply get_request_same in E1 as ->.
  apply st_bind_ext. intros [b|] s2 E2; [done|]. apply (st_at_out fewer_running) in E2; [|apply on_manager_running]. apply st_bind_ext. intros v s3 E3.
  apply pop_running_fewer in E3. apply st_bind_ext. intros [] s4 E4. apply (st_at_out fewer_running) in E4; [|apply preempt_running].
  case_bool_decide; [done|]. unfold fewer_running in *. apply IH. lia.
Qed.

Lemma schedule_running_fuel defer fuel more : ∀ i p s,
  (length (sc_running s) ≤ i + fuel)%nat → schedule_running cfg (fuel + more) defer i p s = schedule_running cfg fuel defer i p s.
Proof.
  induction fuel as [|fuel IH]; intros i p s Hf.
  - rewrite Nat.add_0_r in Hf. destruct more as [|more]; [done|]. cbn [Nat.add schedule_running]. rewrite st_bind_eq. cbn [st_get].
    by rewrite lookup_ge_None_2.
  - cbn [Nat.add schedule_running]. rewrite !st_bind_eq. cbn [st_get]. destruct (sc_running s !! i) as [id|]; [|done]. destruct (_ <=? _)%Z; [done|].
    apply st_bind_ext. intros r s1 E1. apply get_request_same in E1 as ->. destruct (passes_over _ _ _); [apply IH; lia|]. destruct (_ =? _)%Z; [apply IH; lia|].
    apply st_bind_ext. intros [[b|] l] s2 E2; [|done]. apply (st_at_out fewer_running) in E2; [|apply allocate_running_fewer]. unfold fewer_running in E2. apply IH. lia.
Qed.

Lemma computed_blocks_waiting r s : st_at same_waiting s (computed_blocks_of cfg r).
Proof.
  unfold computed_blocks_of. destruct (_ =? _)%Z; [|apply at_ret, _]. apply at_bind; [apply _|apply on_manager_waiting|]. intros [b m] s1 _.
  apply at_raise_bind; [apply _|]. apply at_ret, _.
Qed.

Lemma admit_waiting r c k p s p' s' : admit_request r c k p s = (Ok p', s') → sc_waiting s' = drop 1 (sc_waiting s).
Proof.
  unfold admit_request. intros ([] & s1 & [= <-] & E)%st_bind_ok. apply st_bind_ok in E as ([news resumed] & s2 & E2 & E).
  unfold st_lift in E2. injection E2 as _ <-. cbv beta iota zeta in E.
  apply st_bind_ok in E as (b & s3 & E3 & E). apply (st_at_out same_waiting) in E3; [|apply on_manager_waiting].
  apply st_bind_ok in E as ([] & s4 & [= <-] & [= _ <-]). exact E3.
Qed.

Lemma schedule_waiting_fuel defer fuel more : ∀ p s,
  (length (sc_waiting s) ≤ fuel)%nat → schedule_waiting cfg (fuel + more) defer p s = schedule_waiting cfg fuel defer p s.
Proof.
  induction fuel as [|fuel IH]; intros p s Hf.
  - destruct more as [|more]; [done|]. cbn [Nat.add schedule_waiting]. rewrite st_bind_eq. cbn [st_get]. by destruct (sc_waiting s); [|cbn in Hf; lia].
  - cbn [Nat.add schedule_waiting]. rewrite !st_bind_eq. cbn [st_get]. destruct (sc_waiting s) as [|id l] eqn:Ew; [done|]. destruct (_ <=? _)%Z; [done|].
    destruct (_ <=? _)%Z; [done|]. apply st_bind_ext. intros r s1 E1. apply get_request_same in E1 as ->. apply st_bind_ext. intros [[b m] c] s2 E2.
    apply (st_at_out same_waiting) in E2; [|apply computed_blocks_waiting]. destruct (defer && _); [done|]. destruct (waiting_tokens _ _ _ _) as [k|]; [|done].
    apply st_bind_ext. intros [] s3 E3. assert (s3 = s2) as -> by (unfold st_raise_if, st_lift in E3; by injection E3). apply st_bind_ext. intros [b'|] s4 E4; [|done].
    apply (st_at_out same_waiting) in E4; [|apply on_manager_waiting]. apply st_bind_ext. intros p' s5 E5. apply admit_waiting in E5. apply IH.
    unfold same_waiting in *. rewrite E5, E4, E2, Ew. cbn in *. rewrite drop_0. lia.
Qed.

(** The loops of [schedule] end.  The loop over the running requests takes one of
    them each turn; the loop that makes room for one preempts another each turn, and raises
    when none is left; the loop over the waiting requests admits one each turn.  So from any
    scheduler the fuel they are given, the number of running requests, one more than it, and
    the number of waiting requests, is enough: with more they do the same. *)
Theorem scheduling_loops_end more defer id k l p s :
  schedule_running cfg (length (sc_running s) + more) defer 0 p s = schedule_running cfg (length (sc_running s)) defer 0 p s
  ∧ allocate_running cfg (S (length (sc_running s)) + more) id k l s = allocate_running cfg (S (length (sc_running s))) id k l s
  ∧ schedule_waiting cfg (length (sc_waiting s) + more) defer p s = schedule_waiting cfg (length (sc_waiting s)) defer p s.
Proof.
  split; [by apply schedule_running_fuel|]. split; [apply allocate_running_fuel; lia|by apply schedule_waiting_fuel].
Qed.
End Loops.
