(* ===== verification/SchedulerProps.v ===== *)
(** * What the scheduler promises

    [step_within_limits]: a step of the scheduler, stated on the scheduler alone.
    [append_stops_first]: which of the tokens that come back a request keeps. *)

From Stdlib Require Import ZArith Lia.
From stdpp Require Import base tactics numbers list option gmap strings.
From S2P Require Import Prelude FreeQueue BlockPool PoolState KVManager KVTables SchedRequest.
From S2P Require Import Torch Quant Tab Triton Stores StagedTensor InputBatch BlockTables RequestStates Lifecycle RunnerV2.
From S2P Require Import RunnerView RunnerSteps RunnerBatch RunnerRun ManagedEngine.
From S2P Require Import Scheduler SchedCalls SchedulerPass SchedulerStep SchedulerEvents SchedulerView SchedulerHead.

(** ** The tokens a request keeps *)

(** The request should stop at its last output token. *)
Definition stops (max_model_len : Z) (r : SchedRequest) : Prop :=
  let p := sr_sampling_params r in
  (sp_min_tokens p ≤ sr_num_output_tokens r)%Z
  ∧ (sp_eos_token_id p = last (sr_output_token_ids r) ∨ (∃ t, last (sr_output_token_ids r) = Some t ∧ t ∈ sp_stop_token_ids p)
     ∨ (max_model_len ≤ sr_num_tokens r ∨ sp_max_tokens p ≤ sr_num_output_tokens r)%Z ∨ repetitive p (sr_output_token_ids r)).

Lemma stop_spec_stops M r token front stopped r' :
  sr_output_token_ids r = front ++ [token] → stop_spec M r token stopped r' →
  (stopped = true ↔ stops M r) ∧ (stopped = false → r' = r).
Proof.
  intros E. unfold stop_spec, stops. rewrite E, last_snoc. destruct (Z.ltb_spec (sr_num_output_tokens r) (sp_min_tokens (sr_sampling_params r))).
  { intros [-> ->]. split; [|done]. split; [done|]. intros [? _]. lia. }
  case_decide as H1; [intros [-> ->]; split; [|done]; split; [|done]; intros _; split; [lia|by left]|].
  case_decide as H2; [intros [-> ->]; split; [|done]; split; [|done]; intros _; split; [lia|right; left; by exists token]|].
  case_decide as H3; [intros [-> ->]; split; [|done]; split; [|done]; intros _; split; [lia|tauto]|].
  intros [(H4 & -> & ->)|(H4 & -> & ->)].
  - split; [|done]. split; [|done]. intros _. split; [lia|tauto].
  - split; [|done]. split; [done|]. intros [_ [?|[(t & [= ->] & ?)|[?|?]]]]; tauto.
Qed.

(** C20: a request keeps the tokens that come back up to the first at which it should
    stop, and no other.  It should stop when it has its minimum of tokens and the last one
    is its end token or one of its stop tokens, or it has the length of the model or its
    maximum of tokens, or its output ends in a block repeated as often as its detection of
    repetitions asks; status and reason are those of the first of these that holds. *)
Theorem append_stops_first cfg toks r (M := max_model_len (sg_kv cfg)) :
  ∃ kept stopped r', append_until_stop cfg toks r = Ok (kept, stopped, r') ∧ kept `prefix_of` toks
  ∧ (∀ l t l', kept = l ++ t :: l' → l' ≠ [] ∨ stopped = false → ¬ stops M (extended (l ++ [t]) r))
  ∧ if stopped : bool then ∃ l t, kept = l ++ [t] ∧ stops M (extended kept r) ∧ stop_spec M (extended kept r) t true r'
    else kept = toks ∧ r' = extended toks r.
Proof.
  revert r. induction toks as [|token toks IH]; intros r.
  { exists [], false, r. split; [done|]. split; [done|]. split; [by intros [|] ? ? ?|]. by rewrite extended_nil. }
  destruct (check_stop_ok M (extended [token] r) token (sr_output_token_ids r) eq_refl) as (stopped & r1 & E & Hspec).
  destruct (stop_spec_stops M (extended [token] r) token (sr_output_token_ids r) stopped r1 eq_refl Hspec) as [Hst Hsame].
  cbn [append_until_stop]. change (append_output_token_ids token r) with (extended [token] r). fold M. rewrite E, result_bind_ok. destruct stopped.
  - exists [token], true, r1. split; [done|]. split; [apply prefix_cons, prefix_nil|]. split; [|exists [], token; split; [done|]; split; [by apply Hst|done]].
    intros [|x l] t l' [= <- E'] [Hne|]; [by subst|done|by destruct l|done].
  - rewrite (Hsame eq_refl). destruct (IH (extended [token] r)) as (kept & stopped & r' & E' & Hpre & Hno & H).
    exists (token :: kept), stopped, r'. rewrite E', result_bind_ok. split; [done|]. split; [by apply prefix_cons|]. split.
    + intros [|x l] t l' [= <- El] Hor.
      * intros Hs. by apply Hst in Hs.
      * specialize (Hno l t l' El Hor). by rewrite extended_app in Hno.
    + destruct stopped; [|destruct H as [-> ->]; split; [done|by rewrite extended_app]].
      destruct H as (l & t & -> & H). exists (token :: l), t. rewrite extended_app in H. done.
Qed.

(** ** A step *)

Section Step.
Variables (cfg : SchedConfig) (n : nat) (visit : list string → list string).
Abbreviation kv := (sg_kv cfg).
Hypotheses (Hwm : (0 ≤ watermark_blocks kv)%Z) (Hbs : (0 < kv_block_size kv)%Z) (Hmax : (0 ≤ sg_max_num_scheduled_tokens cfg)%Z).

Lemma positive_sum (l : list (string * Z)) : (∀ it, it ∈ l → (0 < it.2)%Z) → (0 ≤ foldr Z.add 0 (map snd l))%Z ∧ (foldr Z.add 0 (map snd l) = 0 → l = [])%Z.
Proof.
  induction l as [|it l IH]; intros H; [done|]. destruct IH as [IH _]; [intros x Hx; apply H; by right|].
  specialize (H it ltac:(by left)). cbn. lia.
Qed.

(** A scheduler that is paused admits nothing. *)
Lemma paused_running k0 throttle s0 p s1 granted :
  sched_ok cfg n s0 → called kv k0 (sc_finished_req_ids s0) (sc_manager s0) granted → sc_pause_state s0 ≠ UNPAUSED →
  schedule_requests cfg throttle s0 = (Ok p, s1) → ∀ id, id ∈ sc_running s1 → id ∈ sc_running s0.
Proof.
  intros Hs Hc Hp E id Hid. unfold schedule_requests in E. rewrite st_bind_eq in E. cbn [st_get] in E.
  destruct (schedule_running_ok cfg n Hwm Hbs k0 s0 Hs (defers_prefills throttle s0) (length (sc_running s0)) [] (sc_running s0) [] (sc_waiting s0) s0 _ granted
    (pass_start cfg n k0 s0 granted Hs Hmax Hc)) as (s2 & p2 & kept & dropped & g & E2 & H & _); [by intros ? ?%not_elem_of_nil|done|].
  cbn [length] in E2. rewrite st_bind_eq, E2 in E. assert ((Ok p2, s2) = (Ok p, s1)) as [= -> ->] by (destruct (ps_preempted_reqs p2), (sc_pause_state s0); done).
  rewrite (pi_run _ _ _ _ _ _ _ _ _ _ _ H), app_nil_r in Hid. rewrite (pi_run0 _ _ _ _ _ _ _ _ _ _ _ H), elem_of_app. by left.
Qed.

(** The counts of a step, on the requests before and after it. *)
Lemma step_counts k0 s0 s s' p kept dropped new rest granted id k :
  sched_ok cfg n s0 → step_result cfg n k0 s0 s s' p kept dropped new rest granted → (id, k) ∈ ps_num_scheduled_tokens p →
  id ∈ sc_running s' ∧ (0 < k)%Z
  ∧ ∃ r r', sc_requests s0 !! id = Some r ∧ sc_requests s' !! id = Some r' ∧ sr_all_token_ids r' = sr_all_token_ids r
    ∧ sr_num_computed_tokens r' = ((if decide (id ∈ sc_running s0) then sr_num_computed_tokens r else 0) + k)%Z
    ∧ (sr_num_computed_tokens r' ≤ sr_num_tokens r + sr_num_output_placeholders r)%Z
    ∧ (sr_num_computed_tokens r' < max_model_len kv)%Z
    ∧ (cdiv (sr_num_computed_tokens r') (kv_block_size kv) ≤ Z.of_nat (length (table_of (sc_manager s') id)))%Z.
Proof.
  intros Hs Hstep Hin. pose proof (re_pass _ _ _ _ _ _ _ _ _ _ _ _ Hstep) as Hpass.
  pose proof (pass_nodup cfg n _ (tick s0) (tick_ok cfg n s0 Hs) _ _ _ _ _ _ _ Hpass) as Hn.
  destruct (pi_counts _ _ _ _ _ _ _ _ _ _ _ Hpass _ Hin) as (r1 & t & Hr1 & Hk & Hle & Hlen & _ & Ht & Hcov). cbn [fst snd] in *.
  assert (id ∈ kept ∨ id ∈ new) as Hkeys.
  { assert (id ∈ map fst (ps_num_scheduled_tokens p)) as Hkey by (apply list_elem_of_fmap; by exists (id, k)).
    rewrite (pi_keys _ _ _ _ _ _ _ _ _ _ _ Hpass), elem_of_app in Hkey. destruct Hkey as [Hkey|]; [left; by apply (pi_old _ _ _ _ _ _ _ _ _ _ _ Hpass)|by right]. }
  split; [rewrite (re_running _ _ _ _ _ _ _ _ _ _ _ _ Hstep), elem_of_app; tauto|]. split; [done|].
  rewrite (pi_requests _ _ _ _ _ _ _ _ _ _ _ Hpass) in Hr1. change (sc_requests (tick s0)) with (sc_requests s0) in Hr1.
  destruct (sc_requests s0 !! id) as [r|] eqn:Hr; [|done]. cbn in Hr1. injection Hr1 as <-. exists r.
  destruct (step_object cfg n k0 s0 s s' p kept dropped new rest granted Hs Hstep id r Hr) as (r' & Hr' & Etok & _). exists r'. split; [done|]. split; [done|]. split; [done|].
  rewrite (re_requests _ _ _ _ _ _ _ _ _ _ _ _ Hstep), (pi_requests _ _ _ _ _ _ _ _ _ _ _ Hpass) in Hr'. change (sc_requests (tick s0)) with (sc_requests s0) in Hr'.
  rewrite Hr in Hr'. cbn in Hr'. injection Hr' as <-.
  assert (sr_num_computed_tokens (after_counts cfg (sc_current_step s) (ps_num_scheduled_tokens p) id (moved dropped new id r))
    = sr_num_computed_tokens (moved dropped new id r) + k)%Z as Ecomp.
  { unfold after_counts. rewrite (elem_of_list_to_map_1 _ id k); [|apply (re_keys _ _ _ _ _ _ _ _ _ _ _ _ Hstep)|exact Hin].
    by destruct (after_step_progress cfg (sc_current_step s) k (moved dropped new id r)) as (ph & ch & e & ->). }
  assert (sr_num_computed_tokens (moved dropped new id r) = if decide (id ∈ sc_running s0) then sr_num_computed_tokens r else 0%Z) as Em.
  { apply NoDup_app in Hn as (_ & N1 & Hn). apply NoDup_app in Hn as (_ & N2 & Hn). apply NoDup_app in Hn as (_ & N3 & _).
    pose proof (pi_run0 _ _ _ _ _ _ _ _ _ _ _ Hpass) as Erun. cbn in Erun. rewrite Erun. unfold moved. destruct Hkeys as [Hkept|Hnew].
    - specialize (N1 id Hkept). rewrite !elem_of_app in N1. rewrite !decide_False by tauto. by rewrite decide_True by set_solver.
    - assert (id ∉ kept) by (intros Hk'; apply (N1 id Hk'); rewrite !elem_of_app; tauto).
      assert (id ∉ dropped) by (intros Hd'; apply (N2 id Hd'); rewrite !elem_of_app; tauto).
      rewrite decide_False, decide_True, decide_False by (by rewrite ?elem_of_app; tauto). done. }
  rewrite Ecomp, (re_manager _ _ _ _ _ _ _ _ _ _ _ _ Hstep). split; [by rewrite Em|]. split; [|split; [done|]].
  - unfold moved in *. destruct (decide (id ∈ dropped)), (decide (id ∈ new)); unfold sr_num_tokens, sr_all_token_ids in *; cbn in *; lia.
  - etransitivity; [|exact Hcov]. by apply cdiv_mono.
Qed.

(** C11: a step of the scheduler.  On a well-formed scheduler [schedule] raises nothing
    and leaves it well formed, running as many requests as it may and no more.  The queue,
    running before waiting, keeps its order whoever is preempted or admitted.  The counts
    are positive and within the budget of tokens, each for another request, which runs; none
    exceeds the tokens the request has or is promised, nor the length of the model, and the
    blocks of the request hold them.  A paused scheduler admits nothing, and one that is
    paused for all schedules nothing. *)
Theorem step_within_limits throttle s :
  sched_ok cfg n s →
  ∃ so s', schedule cfg visit throttle s = (Ok so, s') ∧ sched_ok cfg n s'
  ∧ queue_of s' = queue_of s ∧ (Z.of_nat (length (sc_running s')) ≤ sg_max_num_running_reqs cfg)%Z
  ∧ so_total_num_scheduled_tokens so = foldr Z.add 0%Z (map snd (so_num_scheduled_tokens so))
  ∧ (so_total_num_scheduled_tokens so ≤ sg_max_num_scheduled_tokens cfg)%Z ∧ NoDup (map fst (so_num_scheduled_tokens so))
  ∧ (∀ id k, (id, k) ∈ so_num_scheduled_tokens so → id ∈ sc_running s' ∧ (0 < k)%Z
      ∧ ∃ r r', sc_requests s !! id = Some r ∧ sc_requests s' !! id = Some r' ∧ sr_all_token_ids r' = sr_all_token_ids r
        ∧ sr_num_computed_tokens r' = ((if decide (id ∈ sc_running s) then sr_num_computed_tokens r else 0) + k)%Z
        ∧ (sr_num_computed_tokens r' ≤ sr_num_tokens r + sr_num_output_placeholders r)%Z
        ∧ (sr_num_computed_tokens r' < max_model_len kv)%Z
        ∧ (cdiv (sr_num_computed_tokens r') (kv_block_size kv) ≤ Z.of_nat (length (table_of (sc_manager s') id)))%Z)
  ∧ (sc_pause_state s ≠ UNPAUSED → ∀ id, id ∈ sc_running s' → id ∈ sc_running s)
  ∧ (sc_pause_state s = PAUSED_ALL → so_num_scheduled_tokens so = []).
Proof.
  intros Hs. assert (called kv (sc_manager s) (sc_finished_req_ids s) (sc_manager s) ∅) as Hc.
  { eapply called_mono; [|apply called_start]. by intros id ?%not_elem_of_nil. }
  destruct (schedule_ok cfg n visit Hwm Hbs Hmax throttle _ s ∅ Hs Hc) as (s' & s1 & p & kept & dropped & new & rest & g & E & Er & Hstep).
  pose proof (re_pass _ _ _ _ _ _ _ _ _ _ _ _ Hstep) as Hpass. pose proof (re_ok _ _ _ _ _ _ _ _ _ _ _ _ Hstep) as Hs'.
  exists (output_of visit s1 p), s'. split; [exact E|]. split; [done|]. split; [by eapply step_queue|]. split; [apply (so_room _ _ _ Hs')|].
  split; [done|]. split; [apply (re_total _ _ _ _ _ _ _ _ _ _ _ _ Hstep)|]. split; [apply (re_keys _ _ _ _ _ _ _ _ _ _ _ _ Hstep)|]. split; [|split].
  - intros id k Hin. by apply (step_counts (sc_manager s) s s1 s' p kept dropped new rest g).
  - intros Hp id Hid. rewrite (re_running _ _ _ _ _ _ _ _ _ _ _ _ Hstep), <-(pi_run _ _ _ _ _ _ _ _ _ _ _ Hpass) in Hid.
    by apply (paused_running (sc_manager s) throttle (tick s) p s1 ∅ (tick_ok cfg n s Hs) Hc Hp Er).
  - intros Hp. destruct (pi_budget _ _ _ _ _ _ _ _ _ _ _ Hpass) as [B1 B2]. cbn in B1. rewrite Hp in B1.
    destruct (positive_sum (ps_num_scheduled_tokens p)) as [S1 S2].
    { intros it Hin. by destruct (pi_counts _ _ _ _ _ _ _ _ _ _ _ Hpass it Hin) as (r1 & t & _ & Hk & _). }
    apply S2. unfold total_scheduled in B1. lia.
Qed.
End Step.

(** ** A concrete step *)

Definition demo_scheduling : SchedConfig := mkSchedConfig 2 64 0 true true false 1 (mkKVConfig 32 64 0 false).
Definition demo_scheduler : Scheduler := (add_request (new_request "a" (replicate 36 5%Z) (mkSampling 4 0 None [] None)) (scheduler_init demo_manager)).2.

Lemma demo_scheduler_ok : sched_ok demo_scheduling 5 demo_scheduler.
Proof.
  destruct (fresh_manager 5 32 demo_manager ltac:(lia) eq_refl) as [Hok Ht].
  destruct (sched_add_ok demo_scheduling 5 (scheduler_init demo_manager) "a" (replicate 36 5%Z) (mkSampling 4 0 None [] None)) as (s' & E & Hs' & _).
  - apply scheduler_init_ok; [done| |done]. intros id. unfold table_of. by rewrite Ht.
  - done.
  - done.
  - unfold demo_scheduler. by rewrite E.
Qed.

(** C11: a prompt of 36 tokens is admitted. *)
Lemma step_within_limits_witness :
  ∃ so s', schedule demo_scheduling (λ l, l) false demo_scheduler = (Ok so, s') ∧ queue_of s' = ["a"] ∧ (so_total_num_scheduled_tokens so ≤ 64)%Z.
Proof.
  destruct (step_within_limits demo_scheduling 5 (λ l, l) ltac:(done) ltac:(done) ltac:(done) false demo_scheduler demo_scheduler_ok)
    as (so & s' & E & _ & Eq & _ & _ & Hle & _).
  exists so, s'. split; [exact E|]. split; [rewrite Eq; reflexivity|exact Hle].
Defined.
