(* ===== verification/SchedulerFair.v ===== *)
(** * Long prefills one at a time

    Without a threshold for long prefills, and with a budget of tokens larger than the
    number of requests that may run, at most one running request at a time has several
    tokens to compute: every other one takes the single token it has, so that the budget
    leaves it at least two, and a prompt is admitted only when nothing is left to cut.
    A count of one token is then either all a request has, or the first chunk of a
    prompt ([schedule_requests_fair]). *)

From Stdlib Require Import ZArith Lia.
From stdpp Require Import base tactics numbers list option gmap strings.
From S2P Require Import Prelude FreeQueue BlockPool PoolState KVManager KVTables SchedRequest.
From S2P Require Import Torch Quant Tab Triton Stores StagedTensor InputBatch BlockTables RequestStates Lifecycle RunnerV2 Scheduler SchedCalls SchedulerPass.

(** The tokens a request has still to compute. *)
Definition todo (r : SchedRequest) : Z := (sr_num_tokens r + sr_num_output_placeholders r - sr_num_computed_tokens r)%Z.
Definition todo_of (s : Scheduler) (id : string) : Z := match sc_requests s !! id with Some r => todo r | None => 0%Z end.

(** A budget that leaves a long prefill two tokens, whatever else runs. *)
Record fair_config (cfg : SchedConfig) : Prop := {
  fc_threshold : (sg_long_prefill_token_threshold cfg ≤ 0)%Z;
  fc_budget : (sg_max_num_running_reqs cfg < sg_max_num_scheduled_tokens cfg)%Z
}.

(** Only [x] has several tokens to compute, and then it may run. *)
Record one_prefill (s : Scheduler) (x : string) : Prop := {
  op_others : ∀ id, id ∈ sc_running s → id ≠ x → (todo_of s id ≤ 1)%Z;
  op_ready : ∀ r, sc_requests s !! x = Some r → x ∈ sc_running s → (1 < todo r)%Z →
    sr_num_output_placeholders r = 0%Z ∧ (sr_next_decode_eligible_step r ≤ sc_current_step s)%Z;
  op_waiting : ∀ id r, id ∈ sc_waiting s → sc_requests s !! id = Some r → sr_num_output_placeholders r = 0%Z
}.

(** A request that the counts leave one token at most. *)
Definition settles (s : Scheduler) (counts : list (string * Z)) (id : string) : Prop := (todo_of s id ≤ 1)%Z ∨ (id, todo_of s id) ∈ counts.

Definition count_sum (counts : list (string * Z)) : Z := foldr Z.add 0%Z (map snd counts).

Lemma count_sum_snoc counts it : count_sum (counts ++ [it]) = (count_sum counts + it.2)%Z.
Proof. unfold count_sum. rewrite map_app, foldr_app. cbn. induction (map snd counts) as [|k l IH]; cbn; lia. Qed.

Lemma settles_more s counts it id : settles s counts id → settles s (counts ++ [it]) id.
Proof. intros [H|H]; [by left|right]. apply elem_of_app. by left. Qed.

Section Fair.
Variables (cfg : SchedConfig) (n : nat).
Abbreviation kv := (sg_kv cfg).
Hypotheses (Hwm : (0 ≤ watermark_blocks kv)%Z) (Hbs : (0 < kv_block_size kv)%Z) (Hfair : fair_config cfg).
Variables (k0 : Manager) (s0 : Scheduler) (x : string) (defer : bool).
Hypotheses (Hs0 : sched_ok cfg n s0) (Hone : one_prefill s0 x).

Lemma todo_of_eq id r : sc_requests s0 !! id = Some r → todo_of s0 id = todo r.
Proof. intros H. unfold todo_of. by rewrite H. Qed.

Lemma no_cap k : cap_prefill cfg k = k.
Proof. unfold cap_prefill. pose proof (fc_threshold _ Hfair). destruct (Z.ltb_spec 0 (sg_long_prefill_token_threshold cfg)); [lia|done]. Qed.

Lemma fresh_budget : (ps_token_budget (fresh_pass cfg s0) ≤ 0 ∨ ps_token_budget (fresh_pass cfg s0) = sg_max_num_scheduled_tokens cfg)%Z.
Proof. cbn. destruct (sc_pause_state s0); [by right|by right|by left]. Qed.

(** What the rounds over the running requests keep: a count is all of a request or
    several tokens, the requests before [x] take a token each, and once [x] was cut the
    budget is gone. *)
Definition running_kept (front dropped : list string) (counts : list (string * Z)) (budget : Z) : Prop :=
  (∀ it, it ∈ counts → it.2 = todo_of s0 it.1 ∨ (2 ≤ it.2)%Z)
  ∧ (0 ≤ count_sum counts)%Z ∧ (count_sum counts + budget = ps_token_budget (fresh_pass cfg s0))%Z
  ∧ (x ∉ front → (count_sum counts ≤ Z.of_nat (length front))%Z)
  ∧ (x ∈ front → defer = true ∨ settles s0 counts x ∨ (budget ≤ 0)%Z ∨ dropped ≠ []).

(** What admissions keep: all but one request are settled, and one is left only once the
    budget is gone or prefills are deferred. *)
Definition waiting_kept (new : list string) (counts : list (string * Z)) (budget : Z) : Prop :=
  (∀ it, it ∈ counts → it.2 = todo_of s0 it.1 ∨ (2 ≤ it.2)%Z ∨ it.1 ∈ sc_waiting s0)
  ∧ (∃ y, ∀ id, id ∈ sc_running s0 ++ new → id ≠ y → settles s0 counts id)
  ∧ (defer = true ∨ (budget ≤ 0)%Z ∨ ∀ id, id ∈ sc_running s0 ++ new → settles s0 counts id).

Lemma running_start : running_kept [] [] [] (ps_token_budget (fresh_pass cfg s0)).
Proof.
  split; [by intros it ?%not_elem_of_nil|]. split; [done|]. split; [done|]. split; [done|]. by intros ?%not_elem_of_nil.
Qed.

Lemma running_skip front id dropped counts budget r :
  running_kept front dropped counts budget → id ∉ front → id ∈ sc_running s0 → (length front < length (sc_running s0))%nat →
  sc_requests s0 !! id = Some r → object_ok cfg id r → (0 < budget)%Z →
  passes_over (sc_current_step s0) defer r = true ∨ running_tokens cfg budget r = 0%Z → running_kept (front ++ [id]) dropped counts budget.
Proof.
  intros (R1 & R2 & R3 & R4 & R5) Hid Hin _ Hr Hobj Hpos Hskip. split; [done|]. split; [done|]. split; [done|]. split.
  - rewrite not_elem_of_app, length_app. intros [Hx _]. specialize (R4 Hx). cbn. lia.
  - intros [Hx|Hx]%elem_of_app; [by apply R5|]. apply list_elem_of_singleton in Hx as <-.
    destruct (decide (1 < todo r)%Z) as [Hmore|Hle]; [|right; left; left; rewrite (todo_of_eq x r Hr); lia].
    destruct (op_ready _ _ Hone r Hr Hin Hmore) as [Hph Hel]. left. destruct Hobj as (_ & _ & _ & [O1 O2] & _).
    destruct Hskip as [Hover|Hzero].
    + unfold passes_over in Hover. rewrite Hph in Hover. cbn [Z.ltb Z.compare andb orb] in Hover.
      destruct (Z.ltb_spec (sc_current_step s0) (sr_next_decode_eligible_step r)); [lia|]. by destruct defer.
    + unfold running_tokens in Hzero. rewrite no_cap in Hzero. unfold todo in Hmore. lia.
Qed.

Lemma running_count front id dropped dropped' counts budget r (k := running_tokens cfg budget r) :
  running_kept front dropped counts budget → id ∉ front → id ∈ sc_running s0 → (length front < length (sc_running s0))%nat →
  sc_requests s0 !! id = Some r → object_ok cfg id r → (0 < budget)%Z → passes_over (sc_current_step s0) defer r = false →
  (0 < k ≤ budget)%Z → (dropped ≠ [] → dropped' ≠ []) → running_kept (front ++ [id]) dropped' (counts ++ [(id, k)]) (budget - k).
Proof.
  intros (R1 & R2 & R3 & R4 & R5) Hid Hin Hlt Hr Hobj Hpos _ Hk Hd.
  pose proof (so_room _ _ _ Hs0) as Hroom. pose proof (fc_budget _ Hfair) as Hbig. pose proof Hobj as (_ & _ & _ & [O1 O2] & _).
  assert (k ≤ todo r)%Z as Hle by (apply (running_tokens_ok cfg id r budget Hobj Hpos); fold k; lia).
  assert (id ≠ x → k = 1 ∧ todo r = 1)%Z as Hother.
  { intros Hne. pose proof (op_others _ _ Hone id Hin Hne) as H1. rewrite (todo_of_eq id r Hr) in H1. lia. }
  assert (id = x → k = todo r ∨ k = budget ∧ 2 ≤ k)%Z as Hx.
  { intros ->. destruct (decide (1 < todo r)%Z) as [Hmore|]; [|lia]. destruct (op_ready _ _ Hone r Hr Hin Hmore) as [Hph _].
    unfold k, running_tokens in *. rewrite no_cap in *. unfold todo in *. specialize (R4 Hid). destruct fresh_budget as [Hf|Hf]; lia. }
  split; [|split; [|split; [|split]]].
  - intros it [Hit| ->%list_elem_of_singleton]%elem_of_app; [by apply R1|]. cbn [fst snd]. rewrite (todo_of_eq id r Hr).
    destruct (decide (id = x)) as [E|Hne]; [destruct (Hx E); lia|left; specialize (Hother Hne); lia].
  - rewrite count_sum_snoc. cbn [snd]. lia.
  - rewrite count_sum_snoc. cbn [snd]. lia.
  - rewrite not_elem_of_app, not_elem_of_cons, count_sum_snoc, length_app. cbn [snd length]. intros [Hx1 [Hne _]]. specialize (R4 Hx1).
    destruct (Hother ltac:(congruence)) as [-> _]. lia.
  - intros [Hxf|Hxf]%elem_of_app.
    + destruct (R5 Hxf) as [?|[?|[?|?]]]; [by left|right; left; by apply settles_more|lia|right; right; right; by apply Hd].
    + apply list_elem_of_singleton in Hxf as E. destruct (Hx (eq_sym E)) as [Ek|[Ek _]]; [|right; right; left; lia].
      right. left. right. rewrite <-E in *. rewrite (todo_of_eq x r Hr), <-Ek. apply elem_of_app. right. subst. by left.
Qed.

Lemma running_drop front dropped dropped' counts budget :
  running_kept front dropped counts budget → dropped' ≠ [] → running_kept front dropped' counts budget.
Proof. intros (R1 & R2 & R3 & R4 & R5) Hd. split; [done|]. split; [done|]. split; [done|]. split; [done|]. intros _. by right; right; right. Qed.

Lemma running_turn front counts budget :
  running_kept front [] counts budget → sc_running s0 = front ∨ (budget ≤ 0)%Z → waiting_kept [] counts budget.
Proof.
  intros (R1 & _ & _ & _ & R5) Hend.
  assert (∀ id, id ∈ sc_running s0 ++ [] → id ≠ x → settles s0 counts id) as Hothers.
  { intros id Hin Hne. rewrite app_nil_r in Hin. left. by apply (op_others _ _ Hone). }
  split; [|split].
  - intros it Hit. destruct (R1 it Hit); tauto.
  - by exists x.
  - destruct Hend as [<-|]; [|by right; left]. destruct (decide (x ∈ sc_running s0)) as [Hx|Hx].
    + destruct (R5 Hx) as [?|[Hs|[?|?]]]; [by left| |by right; left|done]. right. right. intros id Hin.
      destruct (decide (id = x)) as [->|Hne]; [done|by apply Hothers].
    + right. right. intros id Hin. apply Hothers; [done|]. rewrite app_nil_r in Hin. by intros ->.
Qed.

Lemma waiting_admit new id counts budget r k :
  waiting_kept new counts budget → id ∈ sc_waiting s0 → sc_requests s0 !! id = Some r → object_ok cfg id r → waits r → (0 < budget)%Z →
  defer && (0 <? sr_num_tokens r - 1)%Z = false → waiting_tokens cfg budget r 0 = Some k → waiting_kept (new ++ [id]) (counts ++ [(id, k)]) (budget - k).
Proof.
  intros (W1 & (y & W2) & W3) Hin Hr Hobj [_ Hcomp] Hpos Hdefer Hk. pose proof Hobj as (_ & _ & _ & [O1 _] & _).
  assert (todo_of s0 id = sr_num_tokens r) as Et.
  { rewrite (todo_of_eq id r Hr). unfold todo. rewrite (op_waiting _ _ Hone id r Hin Hr), Hcomp. lia. }
  assert (k = Z.min (sr_num_tokens r) budget) as Ek.
  { unfold waiting_tokens in Hk. rewrite no_cap, Z.sub_0_r in Hk. destruct (negb _ && _); [done|]. by injection Hk. }
  assert (∀ id', id' ∈ sc_running s0 ++ new ++ [id] → id' ∈ sc_running s0 ++ new ∨ id' = id) as Hsplit
    by (intros id'; rewrite !elem_of_app, list_elem_of_singleton; tauto).
  split; [|split].
  - intros it [Hit| ->%list_elem_of_singleton]%elem_of_app; [by apply W1|]. right. by right.
  - destruct W3 as [Hd|[?|Hall]]; [|lia|].
    + exists y. intros id' [Hid'| ->]%Hsplit Hne; [by apply settles_more, W2|]. left. rewrite Hd in Hdefer. cbn in Hdefer.
      apply Z.ltb_ge in Hdefer. lia.
    + exists id. intros id' [Hid'| ->]%Hsplit Hne; [by apply settles_more, Hall|done].
  - destruct W3 as [Hd|[?|Hall]]; [by left|lia|]. right. destruct (Z.le_gt_cases budget (sr_num_tokens r)) as [Hle|Hgt]; [left; lia|right].
    intros id' [Hid'| ->]%Hsplit; [by apply settles_more, Hall|]. right. apply elem_of_app. right. rewrite Et.
    replace (sr_num_tokens r) with k by lia. by left.
Qed.
End Fair.

(** A step gives one token to a request only as its last or as its first, and leaves all
    running requests but one a single token. *)
Lemma schedule_requests_fair cfg n k0 s0 x throttle granted p s :
  (0 ≤ watermark_blocks (sg_kv cfg))%Z → (0 < kv_block_size (sg_kv cfg))%Z → (0 ≤ sg_max_num_scheduled_tokens cfg)%Z → fair_config cfg →
  sched_ok cfg n s0 → one_prefill s0 x → called (sg_kv cfg) k0 (sc_finished_req_ids s0) (sc_manager s0) granted →
  schedule_requests cfg throttle s0 = (Ok p, s) →
  (∀ it, it ∈ ps_num_scheduled_tokens p → it.2 = todo_of s0 it.1 ∨ (2 ≤ it.2)%Z ∨ it.1 ∈ sc_waiting s0)
  ∧ ∃ y, ∀ id, id ∈ sc_running s → id ≠ y → settles s0 (ps_num_scheduled_tokens p) id.
Proof.
  intros Hwm Hbs Hmax Hfair Hs0 Hone Hc E. set (defer := defers_prefills throttle s0).
  destruct (schedule_requests_with cfg n Hwm Hbs k0 s0 Hs0 throttle (running_kept cfg s0 x defer) (waiting_kept s0 defer)) with (granted := granted)
    as (s' & p' & kept & dropped & new & rest & g & E' & H & _ & _ & Hend).
  - intros. by eapply running_skip.
  - intros. by eapply running_count.
  - intros. by eapply running_drop.
  - intros. by eapply running_turn.
  - intros. by eapply waiting_admit.
  - done.
  - done.
  - apply running_start.
  - rewrite E in E'. injection E' as <- <-. rewrite (pi_run _ _ _ _ _ _ _ _ _ _ _ H).
    destruct Hend as [(-> & front & R1 & _)|(-> & W1 & (y & W2) & _)].
    + split; [intros it Hit; destruct (R1 it Hit); tauto|]. exists x. intros id Hid Hne. rewrite app_nil_r in Hid. left.
      apply (op_others _ _ Hone); [|done]. rewrite (pi_run0 _ _ _ _ _ _ _ _ _ _ _ H). apply elem_of_app. by left.
    + split; [exact W1|]. exists y. intros id Hid Hne. apply W2; [|done]. by rewrite (pi_run0 _ _ _ _ _ _ _ _ _ _ _ H), app_nil_r.
Qed.
