(* ===== verification/EngineCore.v ===== *)
(** * The core of the engine

    [v1/engine/core.py]: the loop that joins the scheduler ([Scheduler]) and the worker.
    Without asynchronous scheduling a step runs [step]; with it [step_with_batch_queue],
    which schedules a batch while the one before is still computed.  The worker behind
    the executor is any that computes a step and returns the sampled tokens. *)

From Stdlib Require Import ZArith Lia Permutation.
From stdpp Require Import base tactics numbers list option gmap strings.
From S2P Require Import Prelude FreeQueue BlockPool PoolState KVManager SchedRequest.
From S2P Require Import Torch Quant Tab Triton Stores StagedTensor InputBatch BlockTables RequestStates Lifecycle RunnerV2.
From S2P Require Import Scheduler.

(** The worker as the executor reaches it: its state, what the model is run with besides
    the step, and the run of a step in which the sampler chooses the tokens [tok]. *)
Class ModelWorker (W T : Type) : Type := run_model : SchedulerOutput → T → (string → Z) → ST W ModelRunnerOutput.

(** The queue of batches holds the oldest first: [appendleft] adds at the end of the
    list, and [pop] takes its head. *)
Record Core (W : Type) := mkCore {
  co_sched : Scheduler;
  co_worker : W;
  co_batch_queue : list (SchedulerOutput * ModelRunnerOutput)
}.
Arguments mkCore {W}.
Arguments co_sched {W}.
Arguments co_worker {W}.
Arguments co_batch_queue {W}.

Inductive PauseMode := PauseAbort | PauseWait | PauseKeep.

(** What clients ask, and the turns of the busy loop. *)
Inductive Event (T : Type) :=
| AddRequest (id : string) (prompt : list Z) (params : SamplingParams)
| AbortRequests (ids : list string)
| PauseScheduler (mode : PauseMode)
| ResumeScheduler
| CoreStep (throttle : bool) (aborts_queue : list (list string)) (tensors : T) (tok : string → Z).
Arguments AddRequest {T}.
Arguments AbortRequests {T}.
Arguments PauseScheduler {T}.
Arguments ResumeScheduler {T}.
Arguments CoreStep {T}.

Section Core.
Context {W T : Type} {MW : ModelWorker W T}.
Variables (cfg : SchedConfig) (visit : list string → list string).
Abbreviation Core := (Core W).

Definition on_sched {A} (m : ST Scheduler A) : ST Core A := λ c,
  let '(r, s) := m (co_sched c) in (r, mkCore s (co_worker c) (co_batch_queue c)).

Definition on_model {A} (m : ST W A) : ST Core A := λ c,
  let '(r, w) := m (co_worker c) in (r, mkCore (co_sched c) w (co_batch_queue c)).

Definition set_batch_queue (f : list (SchedulerOutput * ModelRunnerOutput) → list (SchedulerOutput * ModelRunnerOutput)) : ST Core unit :=
  st_modify (λ c, mkCore (co_sched c) (co_worker c) (f (co_batch_queue c))).

Definition max_concurrent_batches : Z := if sg_async_scheduling cfg then sg_pp_size cfg + 1 else sg_pp_size cfg.

(** ** Requests of clients *)

Definition abort_requests (request_ids : list string) : ST Core unit :=
  on_sched (finish_requests visit (Some request_ids) FINISHED_ABORTED);;
  mret tt.

(** What waits in the queue of aborts is aborted as one batch. *)
Definition _process_aborts_queue (aborts_queue : list (list string)) : ST Core unit :=
  match aborts_queue with
  | [] => mret tt
  | _ => abort_requests (concat aborts_queue)
  end.

(** [EngineCoreProc.pause_scheduler] that clears no cache; the set of aborted requests is
    of one client. *)
Definition pause_scheduler (mode : PauseMode) : ST Core (list EngineCoreOutput) :=
  aborted ← (match mode with
             | PauseAbort => on_sched (finish_requests visit None FINISHED_ABORTED)
             | _ => mret []
             end);
  on_sched (set_pause_state (match mode with PauseKeep => PAUSED_ALL | _ => PAUSED_NEW end));;
  mret (map (λ id, mkEngineOutput id [] (Some ABORT) None) (visit aborted)).

Definition resume_scheduler : ST Core unit := on_sched (set_pause_state UNPAUSED).

(** ** Steps *)

(** [step] *)
Definition core_step (throttle : bool) (aborts_queue : list (list string)) (tensors : T) (tok : string → Z) :
    ST Core (list EngineCoreOutput * bool) :=
  c ← st_get;
  if negb (has_requests (co_sched c)) then mret ([], false) else
  scheduler_output ← on_sched (schedule cfg visit throttle);
  model_output ← on_model (run_model scheduler_output tensors tok);
  _process_aborts_queue aborts_queue;;
  engine_core_outputs ← on_sched (update_from_output cfg scheduler_output model_output);
  mret (engine_core_outputs, 0 <? so_total_num_scheduled_tokens scheduler_output)%Z.

(** The end of [step_with_batch_queue], which takes the oldest batch. *)
Definition finish_oldest_batch (aborts_queue : list (list string)) (model_executed : bool) : ST Core (option (list EngineCoreOutput) * bool) :=
  c ← st_get;
  '(scheduler_output, model_output) ← st_lift (match co_batch_queue c with e :: _ => Ok e | [] => Err IndexError end);
  set_batch_queue (drop 1);;
  _process_aborts_queue aborts_queue;;
  engine_core_outputs ← on_sched (update_from_output cfg scheduler_output model_output);
  mret (Some engine_core_outputs, model_executed).

(** Without structured outputs sampling is never deferred. *)
Definition step_with_batch_queue (throttle : bool) (aborts_queue : list (list string)) (tensors : T) (tok : string → Z) :
    ST Core (option (list EngineCoreOutput) * bool) :=
  c ← st_get;
  st_raise_if (negb (Z.of_nat (length (co_batch_queue c)) <? max_concurrent_batches)%Z) AssertionError;;
  if has_requests (co_sched c) then
    scheduler_output ← on_sched (schedule cfg visit throttle);
    model_output ← on_model (run_model scheduler_output tensors tok);
    set_batch_queue (λ q, q ++ [(scheduler_output, model_output)]);;
    c ← st_get;
    let model_executed := (0 <? so_total_num_scheduled_tokens scheduler_output)%Z in
    if (Z.of_nat (length (co_batch_queue c)) <? max_concurrent_batches)%Z && (model_executed || has_requests (co_sched c))
    then mret (None, model_executed)
    else finish_oldest_batch aborts_queue model_executed
  else match co_batch_queue c with
       | [] => mret (None, false)
       | _ => finish_oldest_batch aborts_queue false
       end.

(** [step_fn], and the outputs [_process_engine_step] sends on. *)
Definition step_fn (throttle : bool) (aborts_queue : list (list string)) (tensors : T) (tok : string → Z) :
    ST Core (list EngineCoreOutput) :=
  if (1 <? max_concurrent_batches)%Z
  then '(outputs, _) ← step_with_batch_queue throttle aborts_queue tensors tok; mret (default [] outputs)
  else '(outputs, _) ← core_step throttle aborts_queue tensors tok; mret outputs.

(** ** Events *)

Definition handle (ev : Event T) : ST Core (list EngineCoreOutput) :=
  match ev with
  | AddRequest id prompt params => on_sched (add_request (new_request id prompt params));; mret []
  | AbortRequests ids => abort_requests ids;; mret []
  | PauseScheduler mode => pause_scheduler mode
  | ResumeScheduler => resume_scheduler;; mret []
  | CoreStep throttle aborts_queue tensors tok => step_fn throttle aborts_queue tensors tok
  end.

Fixpoint handle_all (events : list (Event T)) : ST Core (list EngineCoreOutput) :=
  match events with
  | [] => mret []
  | ev :: events => outs ← handle ev; rest ← handle_all events; mret (outs ++ rest)
  end.

Definition core_init (k : Manager) (w : W) : Core := mkCore (scheduler_init k) w [].
End Core.
