(* ===== verification/WorkerModel.v ===== *)
(** * The worker behind the core

    The worker of [ServedV2] as the executor reaches it ([EngineCore.ModelWorker]):
    [sample_tokens] of the V2 model runner returns an [AsyncOutput], whose [get_output]
    ([v1/worker/gpu/async_utils.py]) leaves of each row of sampled tokens the ones that
    count.  Beside it the worker known by its view of the requests only, which logs the
    steps it is asked for.  A step of the one returns what a step of the other returns.
    The core ([EngineCore]) reaches its worker only through [run_model]: when the steps of
    one worker are those of another, in related states and with the same outputs, the core
    over the one runs as over the other ([sim_handle_all]). *)

From Stdlib Require Import ZArith Lia Permutation.
From stdpp Require Import gmap strings pretty base tactics numbers list option.
From S2P Require Import Prelude Layout Torch SpecFloatTorch BitPack Meta Quant Tab Triton Decoded Page Sidecar Tail OnlineRef Runtime.
From S2P Require Import Bulk ChunkPlan FastAppend Attention PageAttention TailAttention TailPrep DecodeAttention.
From S2P Require Import DecodeState TileSchedule TileKernels Lifecycle Forward ForwardFrame TileState ForwardStream ForwardState.
From S2P Require Import Engine FreeQueue BlockPool PoolState KVManager KVTables ManagedEngine.
From S2P Require Import Stores StagedTensor InputBatch BlockTables RequestStates RunnerV2 RunnerView RunnerSteps RunnerBatch RunnerRun ServedV2.
From S2P Require Import Scheduler SchedulerView EngineCore.

(** ** What comes back *)

(** [del token_ids[num_tokens:]]: a negative number counts from the end. *)
Definition del_from (num_tokens : Z) (token_ids : list Z) : list Z :=
  take (Z.to_nat (if num_tokens <? 0 then Z.of_nat (length token_ids) + num_tokens else num_tokens))%Z token_ids.

(** The loop of [get_output], which shortens the lists in place. *)
Fixpoint trim_sampled (sampled_token_ids : list (list Z)) (num_sampled_tokens : list Z) : list (list Z) :=
  match sampled_token_ids, num_sampled_tokens with
  | token_ids :: rows, num_tokens :: nums => del_from num_tokens token_ids :: trim_sampled rows nums
  | _, _ => sampled_token_ids
  end.

Definition get_output (req_ids : list string) (sampled_token_ids : list (list Z)) (num_sampled_tokens : list Z) : ModelRunnerOutput :=
  mkRunnerOutput req_ids (trim_sampled sampled_token_ids num_sampled_tokens).

Section Output.
Variable torch_empty : nat → list Z.

(** The output of [sample_tokens] is made before the states are updated; each row of the
    sampler's tensor holds one token. *)
Definition async_output (b : InputBatch) (sampled : list Z) (rn : Runner) : ModelRunnerOutput :=
  let counts := get_num_sampled_and_rejected (replicate (ib_num_reqs b) 1%Z) (torch_empty (ib_num_reqs b)) (ib_seq_lens b) (ib_cu_num_logits b)
    (ib_idx_mapping b) (dv_prefill_len (rs_device (rn_states rn))) in
  get_output (ib_req_ids b) (map (λ t, [t]) sampled) counts.1.

Lemma trim_lookup rows nums b row num :
  rows !! b = Some row → nums !! b = Some num → trim_sampled rows nums !! b = Some (del_from num row).
Proof. revert nums b. induction rows as [|r rows IH]; intros [|k nums] [|b]; cbn; try done; [by intros [= <-] [= <-]|apply IH]. Qed.

Lemma trim_length rows nums : length (trim_sampled rows nums) = length rows.
Proof. revert nums. induction rows as [|r rows IH]; intros [|k nums]; cbn; by rewrite ?IH. Qed.

(** The output of a batch is the one the view tells. *)
Lemma async_output_ok z (Hempty : ∀ m, length (torch_empty m) = m) so rn reqs ib tok :
  runner_idle z rn reqs → Forall (λ it, it.1 ∈ step_ids so ∧ scheduled_ok z reqs it) (so_num_scheduled_tokens so) →
  batch_built (hs_req_id_to_index (rs_host (rn_states rn))) reqs so ib →
  async_output ib (sampled_for tok so) rn = view_output reqs so tok.
Proof.
  intros Hidle Hsch Hib. pose proof (sample_entry z torch_empty Hempty so rn reqs ib Hidle Hsch Hib) as Hitem. cbn zeta in Hitem.
  pose proof Hib as ((Eids & _) & (Ereqs & _) & _ & Hcu & (Lidx & _) & _). unfold async_output, get_output, view_output, sampled_for. rewrite Eids, Ereqs.
  set (m := length (batch_of so)) in *. set (out := get_num_sampled_and_rejected _ _ _ _ _ _) in *.
  assert (length out.1 = m) as Lout by (unfold out; rewrite num_sampled_length; rewrite length_replicate; lia).
  f_equal. apply list_eq_same_length with m; [by rewrite length_map|by rewrite trim_length, !length_map|].
  intros b x y Hb Hx Hy. destruct (lookup_lt_is_Some_2 (ib_idx_mapping ib) b ltac:(lia)) as [i Hi].
  destruct (Hitem b i Hi) as (it & r & Hit & Hr & _ & _ & _ & _ & Hnum & _). destruct (lookup_lt_is_Some_2 out.1 b ltac:(lia)) as [k Hk].
  rewrite (nth_lookup_Some _ _ _ _ Hk) in Hnum. rewrite lookup_map, Hit in Hy. cbn in Hy. rewrite Hr in Hy. injection Hy as <-.
  rewrite (trim_lookup _ _ b [tok it.1] k) in Hx; [|by rewrite !lookup_map, Hit|done]. injection Hx as <-. rewrite Hnum.
  unfold sampled_tokens, del_from. by destruct (_ <? _)%Z.
Qed.
End Output.

(** ** The worker with its layers *)

Section Worker.
Context `{TF : TorchFloat} {TR : TritonFloat} {TE : TorchEmpty} {TA : TritonReduce}.
Context {B : Type} {FT : FloatType B}.
Context {EN : Environ}.
Variable context_attention_fwd : list (list B) → dev_tensor → dev_tensor → f32 → list (list B).
Variable torch_empty : nat → list Z.
Abbreviation Worker := (Runner * Engine)%type.

(** [execute_model] and [sample_tokens]; a step without tokens returns
    [EMPTY_MODEL_RUNNER_OUTPUT]. *)
Definition model_step (impls : list AttnImpl) (so : SchedulerOutput) (tensors : list (LayerTensors (B := B))) (tok : string → Z) :
    ST Worker ModelRunnerOutput :=
  let sampled := sampled_for tok so in
  out ← on_worker (execute_model torch_empty true so (eager_desc so));
  match out with
  | None => mret (mkRunnerOutput [] [])
  | Some (input_batch, attn) =>
      _ ← on_layers (forward_layers context_attention_fwd 0 (zip impls (map (layer_call input_batch attn.1) tensors)));
      w ← st_get;
      on_slots (sample_tokens torch_empty input_batch sampled);;
      mret (async_output torch_empty input_batch sampled w.1)
  end.

#[export] Instance served_worker (impls : list AttnImpl) : ModelWorker Worker (list (LayerTensors (B := B))) := model_step impls.
End Worker.

(** ** The worker known by its view *)

Section View.
Context `{TF : TorchFloat} {B : Type}.

(** The requests of the worker, and the steps it was asked for. *)
Definition ViewState : Type := Requests * list (WorkerStep (B := B)).

#[export] Instance view_worker (z : Sizes) : ModelWorker ViewState (list (LayerTensors (B := B))) := λ so tensors tok w,
  let sampled := sampled_for tok so in
  let step : WorkerStep (B := B) := (so, tensors, sampled) in
  (Ok (view_output (updated_view z w.1 so) so tok), (step_view z w.1 so sampled, w.2 ++ [step])).
End View.
Arguments ViewState {TF} B.

(** ** A step of the worker returns what its view tells *)

Section Step.
Context `{TF : TorchFloat} {TR : TritonFloat} {TE : TorchEmpty} {TA : TritonReduce}.
Context {B : Type} {FT : FloatType B}.
Context {EN : Environ}.
Variable context_attention_fwd : list (list B) → dev_tensor → dev_tensor → f32 → list (list B).
Variables (z : Sizes) (torch_empty : nat → list Z).
Hypotheses (Hempty : ∀ m, length (torch_empty m) = m) (Hz : (0 < z_block z)%Z).

Lemma model_step_ok impls so (tensors : list (LayerTensors (B := B))) tok rn e reqs outs w' :
  runner_idle z rn reqs → step_asked z reqs (so, sampled_for tok so) →
  served_step context_attention_fwd torch_empty impls (so, tensors, sampled_for tok so) (rn, e) = (Ok outs, w') →
  model_step context_attention_fwd torch_empty impls so tensors tok (rn, e) = (Ok (view_output (updated_view z reqs so) so tok), w').
Proof.
  intros Hrn [Hso Hsam] E. cbn [fst snd] in Hso, Hsam. unfold model_step. unfold served_step in E. cbv beta iota zeta in E |- *.
  destruct (execute_model_ok z torch_empty Hempty Hz so rn reqs (en_bridge e) Hrn Hso) as (out & rn1 & b1 & E1 & H1 & Hb).
  rewrite st_bind_eq in E. rewrite st_bind_eq. unfold on_worker in E |- *. cbn [fst snd] in E |- *. rewrite E1 in E |- *. unfold step_built in Hb.
  pose proof Hso as (_ & _ & _ & _ & _ & Hnd & Hsch & _). destruct (Z.eqb_spec (so_total_num_scheduled_tokens so) 0) as [E0|Hne].
  - destruct Hb as [-> ->]. injection E as _ <-. unfold view_output. pose proof (no_tokens_no_batch z reqs so Hso E0) as Enil.
    assert (batch_of so = []) as -> by (unfold batch_of; by rewrite Enil). done.
  - destruct Hb as (ib & attn & -> & -> & Hib & Hattn). rewrite st_bind_eq in E. rewrite st_bind_eq. unfold on_layers in E |- *. cbn [fst snd] in E |- *.
    destruct (forward_layers _ _ _ _) as [[l|ex] e1]; [|done]. rewrite st_bind_eq in E. rewrite !st_bind_eq. cbn [st_get fst].
    rewrite st_bind_eq. destruct (on_slots _ _) as [[u|ex] w1]; [|done]. injection E as _ <-. cbn [fst snd].
    by rewrite <-(async_output_ok torch_empty z Hempty so rn1 _ ib tok H1 Hsch Hib).
Qed.
End Step.

(** ** Workers the core cannot tell apart *)

Section Simulation.
Context {W1 W2 T : Type} {MW1 : ModelWorker W1 T} {MW2 : ModelWorker W2 T}.
Variables (R : W1 → W2 → Prop) (P : W1 → Prop) (w0 : W2).

(** The states the other worker can follow to are closed under going back. *)
Hypothesis Hback : ∀ so t tok w mro w', run_model so t tok w = (Ok mro, w') → P w' → P w.
Hypothesis Hstep : ∀ so t tok w1 w2 mro w1', R w1 w2 → P w1 → run_model so t tok w1 = (Ok mro, w1') → P w1' →
  ∃ w2', run_model so t tok w2 = (Ok mro, w2') ∧ R w1' w2'.

Definition same_core (c1 : Core W1) (c2 : Core W2) : Prop :=
  co_sched c1 = co_sched c2 ∧ co_batch_queue c1 = co_batch_queue c2 ∧ R (co_worker c1) (co_worker c2).

(** [m2] follows [m1] wherever it ends in a state it can follow to. *)
Record simulates {A} (m1 : ST (Core W1) A) (m2 : ST (Core W2) A) : Prop := {
  si_back : ∀ c a c', m1 c = (Ok a, c') → P (co_worker c') → P (co_worker c);
  si_ok : ∀ c1 c2 a c1', same_core c1 c2 → m1 c1 = (Ok a, c1') → P (co_worker c1') → ∃ c2', m2 c2 = (Ok a, c2') ∧ same_core c1' c2'
}.

Lemma sim_ret {A} (a : A) : simulates (mret a) (mret a).
Proof. split; [by intros c a' c' [= <- <-]|]. intros c1 c2 a' c1' Hc [= <- <-] _. by exists c2. Qed.

Lemma sim_lift {A} (r : result A) : simulates (st_lift r) (st_lift r).
Proof. split; unfold st_lift; [by intros c a' c' [= -> <-]|]. intros c1 c2 a' c1' Hc [= -> <-] _. by exists c2. Qed.

Lemma sim_bind {A A'} (m1 : ST (Core W1) A) (m2 : ST (Core W2) A) (f1 : A → ST (Core W1) A') (f2 : A → ST (Core W2) A') :
  simulates m1 m2 → (∀ a, simulates (f1 a) (f2 a)) → simulates (m1 ≫= f1) (m2 ≫= f2).
Proof.
  intros [B1 H1] Hf. split.
  - intros c b c' E Hp. rewrite st_bind_eq in E. destruct (m1 c) as [[a|e] c1] eqn:E1; [|done]. eapply B1; [exact E1|]. by eapply (Hf a).
  - intros c1 c2 b c1'' Hc E Hp. rewrite st_bind_eq in E. destruct (m1 c1) as [[a|e] c1'] eqn:E1; [|done]. destruct (Hf a) as [B2 H2].
    destruct (H1 c1 c2 a c1' Hc E1) as (c2' & E1' & Hc'); [by eapply B2|]. destruct (H2 c1' c2' b c1'' Hc' E Hp) as (c2'' & E2 & Hc'').
    exists c2''. by rewrite st_bind_eq, E1'.
Qed.

(** What is read of the core is the same. *)
Lemma sim_get {A} (g : Core W1 → ST (Core W1) A) (g' : Core W2 → ST (Core W2) A) :
  (∀ c1 c2, co_sched c1 = co_sched c2 → co_batch_queue c1 = co_batch_queue c2 → simulates (g c1) (g' c2)) →
  simulates (st_get ≫= g) (st_get ≫= g').
Proof.
  intros Hg. split.
  - intros c a c' E. rewrite st_bind_eq in E. by eapply (si_back _ _ (Hg c (mkCore (co_sched c) w0 (co_batch_queue c)) eq_refl eq_refl)).
  - intros c1 c2 a c1' Hc E Hp. rewrite st_bind_eq in E. pose proof Hc as (Es & Eq & _).
    destruct (si_ok _ _ (Hg c1 c2 Es Eq) c1 c2 a c1' Hc E Hp) as (c2' & E' & H'). exists c2'. by rewrite st_bind_eq.
Qed.

Lemma sim_sched {A} (m : ST Scheduler A) : simulates (on_sched m) (on_sched m).
Proof.
  unfold on_sched. split.
  - intros c a c' E. destruct (m (co_sched c)) as [r s']. by injection E as -> <-.
  - intros c1 c2 a c1' (Hs & Hq & HR) E _. rewrite <-Hs. destruct (m (co_sched c1)) as [r s']. injection E as -> <-. eexists. split; [done|]. by split.
Qed.

Lemma sim_queue f : simulates (set_batch_queue f) (set_batch_queue f).
Proof.
  split; [by intros c a c' [= <- <-]|]. intros c1 c2 a c1' (Hs & Hq & HR) [= <- <-] _. eexists. split; [done|]. split; [done|]. cbn. by rewrite Hq.
Qed.

Lemma sim_model so t tok : simulates (on_model (run_model so t tok)) (on_model (run_model so t tok)).
Proof.
  unfold on_model. split.
  - intros c a c' E Hp. destruct (run_model so t tok (co_worker c)) as [r w'] eqn:Er. injection E as -> <-. by eapply Hback.
  - intros c1 c2 a c1' (Hs & Hq & HR) E Hp. destruct (run_model so t tok (co_worker c1)) as [r w'] eqn:Er. injection E as -> <-. cbn in Hp.
    destruct (Hstep so t tok _ _ a w' HR ltac:(by eapply Hback) Er Hp) as (w2' & E2 & HR'). rewrite E2. eexists. split; [done|]. by split.
Qed.

(** ** The core *)

Variables (cfg : SchedConfig) (visit : list string → list string).

Ltac sim := repeat first
  [apply sim_ret|apply sim_lift|apply sim_sched|apply sim_queue|apply sim_model|apply sim_bind; [|intros ?]|progress cbv beta iota].

Lemma sim_abort ids : simulates (abort_requests visit ids) (abort_requests visit ids).
Proof. unfold abort_requests. sim. Qed.

Lemma sim_aborts q : simulates (_process_aborts_queue visit q) (_process_aborts_queue visit q).
Proof. destruct q; [apply sim_ret|apply sim_abort]. Qed.

Lemma sim_pause mode : simulates (pause_scheduler visit mode) (pause_scheduler visit mode).
Proof. unfold pause_scheduler. destruct mode; sim. Qed.

Lemma sim_resume : simulates resume_scheduler resume_scheduler.
Proof. apply sim_sched. Qed.

Lemma sim_step throttle q tensors tok : simulates (core_step cfg visit throttle q tensors tok) (core_step cfg visit throttle q tensors tok).
Proof. unfold core_step. apply sim_get. intros c1 c2 -> _. destruct (negb _); [apply sim_ret|]. sim. apply sim_aborts. Qed.

Lemma sim_oldest q b : simulates (finish_oldest_batch cfg visit q b) (finish_oldest_batch cfg visit q b).
Proof.
  unfold finish_oldest_batch. apply sim_get. intros c1 c2 _ ->. apply sim_bind; [apply sim_lift|]. intros [so mro]. sim. apply sim_aborts.
Qed.

Lemma sim_queued throttle q tensors tok :
  simulates (step_with_batch_queue cfg visit throttle q tensors tok) (step_with_batch_queue cfg visit throttle q tensors tok).
Proof.
  unfold step_with_batch_queue. apply sim_get. intros c1 c2 -> ->. apply sim_bind; [apply sim_lift|]. intros _.
  destruct (has_requests _); [|destruct (co_batch_queue c2); [apply sim_ret|apply sim_oldest]].
  apply sim_bind; [apply sim_sched|]. intros so. apply sim_bind; [apply sim_model|]. intros mro. apply sim_bind; [apply sim_queue|]. intros _.
  apply sim_get. intros d1 d2 -> ->. cbv zeta. destruct (_ && _); [apply sim_ret|apply sim_oldest].
Qed.

Lemma sim_handle ev : simulates (handle cfg visit ev) (handle cfg visit ev).
Proof.
  destruct ev as [id prompt params|ids|mode| |throttle q tensors tok]; cbn [handle].
  - sim.
  - sim.
  - apply sim_pause.
  - sim.
  - unfold step_fn. destruct (_ <? _)%Z; (apply sim_bind; [first [apply sim_queued|apply sim_step]|]); intros [o b]; apply sim_ret.
Qed.

Lemma sim_handle_all events : simulates (handle_all cfg visit events) (handle_all cfg visit events).
Proof. induction events as [|ev events IH]; cbn [handle_all]; [apply sim_ret|]. sim; [apply sim_handle|exact IH]. Qed.
End Simulation.
