(* ===== verification/CoreServed.v ===== *)
(** * The core of the engine serves

    Whatever clients ask and whenever the engine steps ([EngineCore]): the scheduler and
    the worker's view stay related, the worker is asked for steps it can make, over a
    manager whose blocks are those that were granted, and the front end hears every token
    of every request. *)

From Stdlib Require Import ZArith Lia Permutation.
From stdpp Require Import base tactics numbers list option gmap strings.
From S2P Require Import Prelude FreeQueue BlockPool PoolState KVManager KVTables SchedRequest.
From S2P Require Import Torch Quant Tab Triton Stores StagedTensor InputBatch BlockTables RequestStates Lifecycle RunnerV2.
From S2P Require Import RunnerView RunnerSteps RunnerBatch RunnerRun Engine ManagedEngine ServedV2.
From S2P Require Import Scheduler SchedCalls SchedulerPass SchedulerStep SchedulerEvents SchedulerView EngineCore WorkerModel.

(** ** The system between steps *)

Section System.
Variables (cfg : SchedConfig) (n : nat).
Abbreviation kv := (sg_kv cfg).
Abbreviation system_ok := (system_ok cfg n).

Lemma pending_absent flight id :
  Forall flight_ok flight → Forall (λ e, id ∉ map fst (so_num_scheduled_tokens e.1)) flight → pending flight id = [].
Proof.
  intros Hf Ha. unfold pending. induction flight as [|e flight IH]; [done|]. apply Forall_cons in Hf as [He Hf], Ha as [Hid Ha].
  cbn [map concat]. by rewrite flight_tokens, IH.
Qed.

Lemma system_add k0 s view flight id prompt params :
  system_ok k0 s view flight → sc_requests s !! id = None → Forall (λ e, id ∉ map fst (so_num_scheduled_tokens e.1)) flight →
  prompt_ok cfg prompt params →
  ∃ s', add_request (new_request id prompt params) s = (Ok tt, s') ∧ system_ok k0 s' view flight
  ∧ sc_requests s' = <[id := new_request id prompt params]> (sc_requests s).
Proof.
  intros H Hnew Hfresh Hp. destruct (sched_add_ok cfg n s id prompt params (sy_sched _ _ _ _ _ _ H) Hnew Hp) as (s' & E & Hs' & R & W & U & G & M).
  exists s'. split; [done|]. split; [|done]. split; rewrite ?R, ?W, ?U, ?G, ?M; try apply H; try done.
  - intros x r Hx. rewrite lookup_insert_ne; [by apply H|]. intros ->. pose proof (so_known _ _ _ (sy_sched _ _ _ _ _ _ H) x) as Hk.
    rewrite Hnew, elem_of_app in Hk. by destruct (proj2 Hk (or_introl Hx)).
  - intros x r. rewrite lookup_insert. case_decide as E'; [|by apply H]. intros [= <-]. subst x. rewrite pending_absent by (try done; apply H).
    cbn. by unfold places; destruct (sg_async_scheduling cfg).
  - intros x e [Hx| ->%list_elem_of_singleton]%elem_of_app Hl; [by apply (sy_waits _ _ _ _ _ _ H x e)|].
    rewrite Forall_forall in Hfresh. apply Hfresh. apply last_Some in Hl as [l ->]. apply elem_of_app. right. by left.
Qed.

(** Requests leave; the tables of the others stay. *)
Lemma system_leave k0 s s' view flight granted' :
  system_ok k0 s view flight → sched_ok cfg n s' → called kv k0 (sc_finished_req_ids s') (sc_manager s') granted' →
  (∀ x r', sc_requests s' !! x = Some r' → sc_requests s !! x = Some r' ∧ table_of (sc_manager s') x = table_of (sc_manager s) x) →
  (∀ x, x ∈ sc_running s' → x ∈ sc_running s) → (∀ x, x ∈ sc_waiting s' → x ∈ sc_waiting s) →
  (∀ x, x ∈ sc_running s → x ∈ sc_running s' ∨ x ∈ sc_finished_req_ids s') →
  (∀ x, x ∈ sc_finished_req_ids s → x ∈ sc_finished_req_ids s') → system_ok k0 s' view flight.
Proof.
  intros H Hs' Hc Hr Hrun Hwait Hleft Hfin. split; [done|by eexists|..|by apply H].
  - intros x r' Hx Hx'. destruct (Hr x r' Hx') as [Hr0 Ht]. destruct (sy_live _ _ _ _ _ _ H x r' (Hrun x Hx) Hr0) as (v & Hv & Hm & Hb).
    exists v. split; [done|]. split; [done|]. by rewrite Ht.
  - intros x Hx. destruct (sy_known _ _ _ _ _ _ H x Hx) as [Hx'|Hx']; [by apply Hleft|right; by apply Hfin].
  - intros x r' Hx. by apply (sy_places _ _ _ _ _ _ H), Hr.
  - intros x e Hx. by apply (sy_waits _ _ _ _ _ _ H), Hwait.
Qed.

Lemma system_finish visit k0 s view flight ids st :
  (∀ l, visit l ≡ₚ l) → is_finished st = true → system_ok k0 s view flight →
  ∃ gone s', finish_requests visit ids st s = (Ok gone, s') ∧ system_ok k0 s' view flight
  ∧ (∀ x, sc_requests s' !! x = if decide (x ∈ gone) then None else sc_requests s !! x)
  ∧ NoDup gone ∧ ∀ x, x ∈ gone → is_Some (sc_requests s !! x).
Proof.
  intros Hvisit Hf H. destruct (sy_calls _ _ _ _ _ _ H) as [granted Hc].
  destruct (finish_requests_ok cfg n visit k0 ids st s granted Hvisit Hf (sy_sched _ _ _ _ _ _ H) Hc)
    as (gone & s' & g & E & Hs' & Hc' & Hnd & Hgone & Hr & Hrun & Hwait & Hfin & Ht).
  exists gone, s'. split; [done|]. split; [|split; [done|split; [done|by intros x [_ ?]%Hgone]]]. eapply system_leave; try done.
  - intros x r'. rewrite Hr. case_decide; [done|]. intros ?. split; [done|by apply Ht].
  - by intros x [? _]%Hrun.
  - by intros x [? _]%Hwait.
  - intros x Hx. destruct (decide (x ∈ gone)); [right; apply Hfin; by right|left; by apply Hrun].
  - intros x Hx. apply Hfin. by left.
Qed.

(** *** The output of the oldest step *)

Lemma places_take e flight id r k0 s view :
  system_ok k0 s view (e :: flight) → sc_requests s !! id = Some r → sg_async_scheduling cfg = true →
  (Z.of_nat (length (tokens_for e.2 id)) ≤ sr_num_output_placeholders r)%Z.
Proof.
  intros H Hr Ha. rewrite (sy_places _ _ _ _ _ _ H id r Hr). unfold places, pending. rewrite Ha. cbn [map concat]. rewrite length_app. lia.
Qed.

Lemma settled_all k0 s view e flight x :
  system_ok k0 s view (e :: flight) →
  (if decide (x ∈ map fst (so_num_scheduled_tokens e.1)) then sc_requests s !! x ≫= settled cfg (tokens_for e.2 x) else sc_requests s !! x)
  = sc_requests s !! x ≫= settled cfg (tokens_for e.2 x).
Proof.
  intros H. case_decide as Hx; [done|]. pose proof (Forall_inv (sy_flight _ _ _ _ _ _ H)) as He. rewrite flight_tokens by done.
  destruct (sc_requests s !! x) as [r|]; [|done].
  change (Some r ≫= settled cfg []) with (settled cfg [] r). by rewrite settled_nil.
Qed.

Lemma system_output k0 s view e flight :
  system_ok k0 s view (e :: flight) →
  ∃ s', update_from_output cfg e.1 e.2 s
    = (Ok (concat (map (λ it, round_output cfg s it.1 (tokens_for e.2 it.1)) (so_num_scheduled_tokens e.1))), s')
  ∧ system_ok k0 s' view flight ∧ ∀ x, sc_requests s' !! x = sc_requests s !! x ≫= settled cfg (tokens_for e.2 x).
Proof.
  intros H. pose proof (sy_sched _ _ _ _ _ _ H) as Hs. destruct (sy_calls _ _ _ _ _ _ H) as [granted Hc].
  pose proof (Forall_inv (sy_flight _ _ _ _ _ _ H)) as He. pose proof (Forall_inv_tail (sy_flight _ _ _ _ _ _ H)) as Hfl.
  destruct (update_from_output_ok cfg n k0 (tokens_for e.2) e.2 e.1 s granted Hs Hc) as (s' & g & E & Hs' & Hc' & Hr & Hrun & Hwait & Hfin & Ht).
  { apply He. }
  { intros it Hit. split; [by apply He|]. intros s''. apply flight_generated; [done|]. apply list_elem_of_fmap. by exists it. }
  { intros Ha it r _ Hr. by eapply places_take. }
  assert (∀ x, sc_requests s' !! x = sc_requests s !! x ≫= settled cfg (tokens_for e.2 x)) as Hr' by (intros x; rewrite Hr; by eapply settled_all).
  exists s'. split; [done|]. split; [|done].
  assert (∀ x r', sc_requests s' !! x = Some r' → ∃ r, sc_requests s !! x = Some r ∧ settled cfg (tokens_for e.2 x) r = Some r') as Hback
    by (intros x r'; rewrite Hr'; apply bind_Some).
  assert (∀ x r r', sc_requests s !! x = Some r → settled cfg (tokens_for e.2 x) r = Some r' →
            sr_all_token_ids r' = sr_all_token_ids r ++ tokens_for e.2 x ∧ sr_num_computed_tokens r' = sr_num_computed_tokens r
            ∧ sr_num_output_placeholders r' = (if sg_async_scheduling cfg then sr_num_output_placeholders r - Z.of_nat (length (tokens_for e.2 x)) else sr_num_output_placeholders r)%Z) as Hset.
  { intros x r r' Hx Hst. destruct (settled_ok cfg x (tokens_for e.2 x) r r' (so_object _ _ _ Hs x r Hx)) with (2 := Hst) as (_ & _ & A1 & A2 & _ & _ & _ & A3); [|done].
    intros Ha. by eapply places_take. }
  split; [done|by eexists|..|done].
  - intros x r' Hx Hx'. destruct (Hback x r' Hx') as (r & Hx0 & Hst). destruct (Hset x r r' Hx0 Hst) as (A1 & A2 & _).
    destruct (sy_live _ _ _ _ _ _ H x r) as (v & Hv & (M1 & M2 & M3) & Hb); [by apply Hrun|done|]. exists v. split; [done|].
    split; [|rewrite Ht by (by eexists); done]. unfold slot_matches. rewrite A1, A2, <-app_assoc. done.
  - intros x Hx. destruct (sy_known _ _ _ _ _ _ H x Hx) as [Hx'|Hx']; [|right; apply Hfin; by left].
    destruct (sc_requests s' !! x) eqn:E'; [left; apply Hrun; split; [done|by rewrite E']|]. right. apply Hfin. right. split; [|done].
    apply (so_known _ _ _ Hs), elem_of_app. by left.
  - intros x r' Hx'. destruct (Hback x r' Hx') as (r & Hx0 & Hst). destruct (Hset x r r' Hx0 Hst) as (_ & _ & ->).
    rewrite (sy_places _ _ _ _ _ _ H x r Hx0). unfold places, pending. cbn [map concat]. rewrite length_app. destruct (sg_async_scheduling cfg); lia.
  - intros x e' [Hx _]%Hwait Hl. apply (sy_waits _ _ _ _ _ _ H x e'); [done|]. destruct flight; [done|]. exact Hl.
Qed.
End System.

(** ** Logs of steps *)

Section Log.
Context `{TF : TorchFloat} {B : Type}.
Variables (cfg : KVConfig) (z : Sizes).

(** The engine's step behind a step of the worker. *)
Definition spec_of (reqs : Requests) (step : WorkerStep (B := B)) : EngineStep (B := B) :=
  let reqs' := updated_view z reqs step.1.1 in spec_step reqs' step.1.1 (sent_rows reqs' step.1.1) step.1.2.

Lemma outputs_asked_snoc steps step : ∀ reqs,
  outputs_asked z reqs steps → step_asked z (final_view z reqs steps) (step.1.1, step.2) → outputs_asked (B := B) z reqs (steps ++ [step]).
Proof.
  induction steps as [|[[so t] sam] steps IH]; intros reqs; [by destruct step as [[so t] sam]|]. intros [H1 H2] H. split; [done|]. by apply IH.
Qed.

Lemma spec_steps_snoc steps step : ∀ reqs, spec_steps (B := B) z reqs (steps ++ [step]) = spec_steps z reqs steps ++ [spec_of (final_view z reqs steps) step].
Proof.
  induction steps as [|[[so t] sam] steps IH]; intros reqs; [by destruct step as [[so t] sam]|]. cbn [app spec_steps]. by rewrite IH.
Qed.

Lemma managed_run_snoc steps step : ∀ s s1 s',
  managed_run cfg s steps s1 → managed_step cfg s1 step s' → managed_run (B := B) cfg s (steps ++ [step]) s'.
Proof.
  induction steps as [|st steps IH]; intros s s1 s'; cbn [app managed_run].
  - intros -> H. by exists s'.
  - intros (s2 & H2 & H) Hst. exists s2. split; [done|]. by eapply IH.
Qed.

Lemma final_view_snoc steps step reqs : final_view (B := B) z reqs (steps ++ [step]) = step_view z (final_view z reqs steps) step.1.1 step.2.
Proof. unfold final_view. by rewrite fold_left_app. Qed.

(** Calls of the manager that cover the batch make a managed step. *)
Lemma called_managed reqs so sampled (tensors : list (LayerTensors (B := B))) k0 k granted (reqs' := updated_view z reqs so) :
  called cfg k0 (released_ids so) k granted → NoDup (map fst (so_num_scheduled_tokens so)) →
  (∀ it, it ∈ batch_of so → ∃ v t, reqs' !! it.1 = Some v ∧ granted !! it.1 = Some t ∧ (sl_computed (rq_slot v) + it.2 ≤ t)%Z
     ∧ (0 ≤ sl_computed (rq_slot v))%Z ∧ (0 < it.2)%Z ∧ map Z.to_nat (rq_blocks v) = row (table_of k it.1)) →
  managed_step cfg k0 (spec_of reqs (so, tensors, sampled)) k.
Proof.
  intros (calls & C1 & C2 & C3) Hnd Hb. exists calls, granted. split; [done|]. split; [done|]. split; [by left; apply C3|].
  unfold spec_of. cbn [fst snd]. fold reqs'. split.
  - destruct (batch_counts reqs' so (sent_rows reqs' so) tensors Hnd) as [E1 E2]. unfold es_batch, counted_batch.
    apply List.Forall_forall. intros x Hx. apply in_map_iff in Hx as (id & <- & Hid). cbn [spec_step es_ids] in Hid, E1, E2. rewrite !List.map_map in E1, E2.
    apply in_map_iff in Hid as (it & <- & Hit). pose proof (ext_in_map E1 it Hit) as Eq. pose proof (ext_in_map E2 it Hit) as Ec.
    cbn [spec_step] in *. apply list_elem_of_In in Hit. destruct (Hb it Hit) as (v & t & Hv & Ht & Hle & _). cbn [fst snd]. exists t. split; [done|].
    rewrite Eq, Ec. unfold computed_of. rewrite Hv. exact Hle.
  - cbn [spec_step es_ids es_block_table]. unfold sent_rows. apply Forall2_fmap, Forall_Forall2_diag, List.Forall_forall. intros it Hit%list_elem_of_In.
    destruct (Hb it Hit) as (v & t & Hv & _ & _ & _ & _ & Hrow). rewrite Hv, Hrow. done.
Qed.
End Log.

(** ** What the front end hears *)

Definition told (id : string) (outs : list EngineCoreOutput) : list EngineCoreOutput := List.filter (λ o, bool_decide (eo_request_id o = id)) outs.

Definition unfinished (outs : list EngineCoreOutput) : Prop := Forall (λ o, eo_finish_reason o = None) outs.

(** Of a live request all its tokens; of another nothing after a reason to finish. *)
Definition talk_ok (r : option SchedRequest) (outs : list EngineCoreOutput) : Prop :=
  match r with
  | Some r => unfinished outs ∧ concat (map eo_new_token_ids outs) = sr_output_token_ids r
  | None => ∃ before final, outs = before ++ final ∧ unfinished before ∧ (length final ≤ 1)%nat
  end.

(** What may follow, when the object [r] becomes [r']. *)
Definition talk_step (r r' : option SchedRequest) (outs : list EngineCoreOutput) : Prop :=
  match r, r' with
  | None, None => outs = []
  | Some r, Some r' => unfinished outs ∧ sr_output_token_ids r' = sr_output_token_ids r ++ concat (map eo_new_token_ids outs)
  | Some _, None => (length outs ≤ 1)%nat
  | None, Some _ => False
  end.

Lemma talk_extend r r' before outs : talk_ok r before → talk_step r r' outs → talk_ok r' (before ++ outs).
Proof.
  destruct r as [r|], r' as [r'|]; cbn; intros H Hs; try done.
  - destruct H as [H1 E], Hs as [H2 ->]. split; [by apply Forall_app|]. by rewrite map_app, concat_app, E.
  - destruct H as [H1 _]. by exists before, outs.
  - subst. by rewrite app_nil_r.
Qed.

Lemma told_app id l1 l2 : told id (l1 ++ l2) = told id l1 ++ told id l2.
Proof. apply List.filter_app. Qed.

Lemma told_all id outs : Forall (λ o, eo_request_id o = id) outs → told id outs = outs.
Proof. induction 1 as [|o outs Ho _ IH]; [done|]. unfold told in *. cbn. by rewrite bool_decide_eq_true_2, IH. Qed.

Lemma told_none id outs : Forall (λ o, eo_request_id o ≠ id) outs → told id outs = [].
Proof. induction 1 as [|o outs Ho _ IH]; [done|]. unfold told in *. cbn. by rewrite bool_decide_eq_false_2. Qed.

Section Told.
Variables (cfg : SchedConfig) (n : nat).

Lemma output_for_named id gen r : Forall (λ o, eo_request_id o = id) (output_for cfg id gen r).
Proof. unfold output_for. destruct (append_until_stop cfg gen r) as [[[kept [|]] r']|]; [destruct kept; by constructor|destruct kept; by repeat constructor|done]. Qed.

(** What is told of a request in the round of its output. *)
Lemma told_rounds s gen counts id :
  NoDup (map fst counts) →
  told id (concat (map (λ it : string * Z, round_output cfg s it.1 (gen it.1)) counts))
  = if decide (id ∈ map fst counts) then round_output cfg s id (gen id) else [].
Proof.
  assert (∀ x, Forall (λ o, eo_request_id o = x) (round_output cfg s x (gen x))) as Hn
    by (intros x; unfold round_output; destruct (sc_requests s !! x); [apply output_for_named|done]).
  induction counts as [|[x q] counts IH]; [done|]. intros [Hx Hnd]%NoDup_cons. cbn [map concat fst]. rewrite told_app, IH by done.
  destruct (decide (id = x)) as [->|Hne].
  - rewrite told_all by done. rewrite decide_False by done. rewrite decide_True by (by left). by rewrite app_nil_r.
  - rewrite told_none by (eapply Forall_impl; [apply Hn|]; by intros o ->). cbn [app].
    destruct (decide (id ∈ map fst counts)); [by rewrite decide_True by (by right)|]. rewrite decide_False; [done|]. rewrite elem_of_cons. tauto.
Qed.

(** A round tells the tokens of the object it leaves. *)
Lemma round_talk id r gen : object_ok cfg id r → talk_step (Some r) (settled cfg gen r) (output_for cfg id gen r).
Proof.
  intros (_ & _ & _ & O4 & _ & _ & O7). unfold settled, output_for.
  destruct (append_until_stop_ok cfg gen r O7 ltac:(lia)) as (kept & stopped & r' & -> & _ & H). destruct stopped; cbn.
  - by destruct kept.
  - destruct H as (-> & -> & _). assert (∀ p d, sr_output_token_ids (set_async p d (extended gen r)) = sr_output_token_ids r ++ gen) as Ha by done.
    split; [destruct gen; by repeat constructor|]. destruct (sg_async_scheduling cfg); rewrite ?Ha; destruct gen; cbn; by rewrite ?app_nil_r.
Qed.
End Told.
