(* ===== verification/CoreRun.v ===== *)
(** * Runs of the core of the engine

    Any events, from a fresh engine: the core raises nothing, the worker is asked for
    steps it can make ([CoreServed]), and so every layer serves them ([ServedV2]). *)

From Stdlib Require Import ZArith Lia Permutation.
From stdpp Require Import base tactics numbers list option gmap strings.
From S2P Require Import Prelude FreeQueue BlockPool PoolState KVManager KVTables SchedRequest.
From S2P Require Import Torch Quant Tab Triton Stores StagedTensor InputBatch BlockTables RequestStates Lifecycle RunnerV2.
From S2P Require Import RunnerView RunnerSteps RunnerBatch RunnerRun Engine ManagedEngine ServedV2 EngineFit.
From S2P Require Import Scheduler SchedCalls SchedulerPass SchedulerStep SchedulerEvents SchedulerView EngineCore WorkerModel CoreServed.

Section Runs.
Context `{TF : TorchFloat} {B : Type}.
Variables (cfg : SchedConfig) (n : nat) (z : Sizes) (visit : list string → list string).
Abbreviation kv := (sg_kv cfg).
Hypotheses (Hz : sizes_fit cfg z) (Hvisit : ∀ l, visit l ≡ₚ l) (Hpp : sg_pp_size cfg = 1%Z).
Variable m0 : Manager.

(** The core over the worker's view. *)
Abbreviation ViewCore := (Core (ViewState B)).
Abbreviation ViewEvent := (Event (list (LayerTensors (B := B)))).
#[local] Hint Extern 0 (ModelWorker _ _) => exact (view_worker z) : typeclass_instances.

(** ** The invariant *)

(** The identifiers [used] so far, the outputs sent and the batches in flight. *)
Record core_ok (used : list string) (outs : list EngineCoreOutput) (flight : Flight) (c : ViewCore) : Prop := {
  ck_system : ∃ k0, system_ok cfg n k0 (co_sched c) (co_worker c).1 flight ∧ managed_run kv m0 (spec_steps z ∅ (co_worker c).2) k0;
  ck_asked : outputs_asked z ∅ (co_worker c).2;
  ck_view : (co_worker c).1 = final_view z ∅ (co_worker c).2;
  ck_fresh : ∀ id, id ∉ used → sc_requests (co_sched c) !! id = None ∧ Forall (λ e, id ∉ map fst (so_num_scheduled_tokens e.1)) flight
    ∧ told id outs = [];
  ck_talk : ∀ id, talk_ok (sc_requests (co_sched c) !! id) (told id outs);
  ck_starts : outputs_fresh z ∅ (co_worker c).2
}.

Lemma on_sched_eq {A} (m : ST Scheduler A) (c : ViewCore) r s' :
  m (co_sched c) = (r, s') → on_sched m c = (r, mkCore s' (co_worker c) (co_batch_queue c)).
Proof. intros E. unfold on_sched. by rewrite E. Qed.

(** The queue of batches is only what [flight] is read from. *)
Lemma core_queue used outs flight c q : core_ok used outs flight c → core_ok used outs flight (mkCore (co_sched c) (co_worker c) q).
Proof. by intros []. Qed.

(** The scheduler moves on while the worker waits. *)
Lemma core_moves used outs flight flight' c s' o :
  core_ok used outs flight c → (∀ k0, system_ok cfg n k0 (co_sched c) (co_worker c).1 flight → system_ok cfg n k0 s' (co_worker c).1 flight') →
  (∀ e, e ∈ flight' → e ∈ flight) → (∀ id, talk_step (sc_requests (co_sched c) !! id) (sc_requests s' !! id) (told id o)) →
  core_ok used (outs ++ o) flight' (mkCore s' (co_worker c) (co_batch_queue c)).
Proof.
  intros [(k0 & H & Hm) Ha Hv Hf Ht] Hs Hin Htalk. split; cbn [co_sched co_worker fst snd]; try done.
  - exists k0. split; [by apply Hs|done].
  - intros id Hid. destruct (Hf id Hid) as (F1 & F2 & F3). specialize (Htalk id). rewrite F1 in Htalk.
    destruct (sc_requests s' !! id); [done|]. cbn in Htalk. split; [done|]. rewrite told_app, F3, Htalk. split; [|done].
    rewrite Forall_forall in F2 |- *. intros e He. by apply F2, Hin.
  - intros id. rewrite told_app. by eapply talk_extend.
Qed.

(** ** Events *)

Lemma core_add used outs flight c id prompt params :
  core_ok used outs flight c → id ∉ used → prompt_ok cfg prompt params →
  ∃ c', on_sched (add_request (new_request id prompt params)) c = (Ok tt, c') ∧ core_ok (id :: used) outs flight c'
  ∧ co_batch_queue c' = co_batch_queue c.
Proof.
  intros [(k0 & H & Hm) Ha Hv Hf Ht] Hid Hp. destruct (Hf id Hid) as (F1 & F2 & F3).
  destruct (system_add cfg n k0 _ _ _ id prompt params H F1 F2 Hp) as (s' & E & H' & R).
  exists (mkCore s' (co_worker c) (co_batch_queue c)). split; [by apply on_sched_eq|]. split; [|done].
  split; cbn [co_sched co_worker fst snd]; try done; [by exists k0|..]; intros x; rewrite R, lookup_insert.
  - intros [Hne Hx]%not_elem_of_cons. rewrite decide_False by done. by apply Hf.
  - case_decide as Ex; [subst x; by rewrite F3; split; [constructor|]|apply Ht].
Qed.

(** The requests [gone] are finished from outside, and told so by [note]. *)
Lemma core_finish used outs flight c ids st :
  is_finished st = true → core_ok used outs flight c →
  ∃ gone c', on_sched (finish_requests visit ids st) c = (Ok gone, c') ∧ NoDup gone
  ∧ (∀ o, (∀ id, told id o = [] ∨ id ∈ gone ∧ length (told id o) = 1%nat) → core_ok used (outs ++ o) flight c')
  ∧ co_batch_queue c' = co_batch_queue c.
Proof.
  intros Hst Hok. destruct (ck_system _ _ _ _ Hok) as (k0 & H & _).
  destruct (system_finish cfg n visit k0 _ _ _ ids st Hvisit Hst H) as (gone & s' & E & _ & R & Hnd & Hg).
  exists gone, (mkCore s' (co_worker c) (co_batch_queue c)). split; [by apply on_sched_eq|]. split; [done|]. split; [|done]. intros o Ho.
  apply (core_moves used outs flight flight); [done| |done|].
  - intros k H'. destruct (system_finish cfg n visit k _ _ _ ids st Hvisit Hst H') as (gone' & s'' & E' & H'' & _). rewrite E in E'. by injection E' as -> ->.
  - intros id. rewrite R. case_decide as Hid.
    + destruct (Hg id Hid) as [r ->]. cbn. destruct (Ho id) as [->|[_ ->]]; cbn; lia.
    + destruct (Ho id) as [->|[? _]]; [|done]. destruct (sc_requests (co_sched c) !! id); cbn; [|done]. split; [constructor|by rewrite app_nil_r].
Qed.

Lemma core_abort used outs flight c ids :
  core_ok used outs flight c → ∃ c', abort_requests visit ids c = (Ok tt, c') ∧ core_ok used outs flight c' ∧ co_batch_queue c' = co_batch_queue c.
Proof.
  intros Hok. destruct (core_finish used outs flight c (Some ids) FINISHED_ABORTED eq_refl Hok) as (gone & c' & E & _ & H & Hq).
  exists c'. unfold abort_requests. rewrite st_bind_eq, E. split; [done|]. split; [|done]. rewrite <-(app_nil_r outs). apply H. by left.
Qed.

Lemma core_aborts used outs flight c q :
  core_ok used outs flight c → ∃ c', _process_aborts_queue visit q c = (Ok tt, c') ∧ core_ok used outs flight c' ∧ co_batch_queue c' = co_batch_queue c.
Proof. intros Hok. destruct q as [|ids q]; [by exists c|]. unfold _process_aborts_queue. by apply core_abort. Qed.

Lemma told_aborts id gone :
  told id (map (λ id, mkEngineOutput id [] (Some ABORT) None) gone)
  = map (λ id, mkEngineOutput id [] (Some ABORT) None) (List.filter (λ x, bool_decide (x = id)) gone).
Proof. induction gone as [|x gone IH]; [done|]. unfold told in *. cbn. rewrite IH. by case_bool_decide. Qed.

Lemma filter_same (l : list string) x : NoDup l → List.filter (λ y, bool_decide (y = x)) l = if decide (x ∈ l) then [x] else [].
Proof.
  induction 1 as [|y l Hy Hn IH]; [done|]. cbn [List.filter]. rewrite IH. destruct (decide (y = x)) as [->|Hne].
  - rewrite bool_decide_eq_true_2 by done. rewrite decide_False by done. by rewrite decide_True by (by left).
  - rewrite bool_decide_eq_false_2 by done. destruct (decide (x ∈ l)); [by rewrite decide_True by (by right)|].
    rewrite decide_False; [done|]. rewrite elem_of_cons. by intros [->|].
Qed.

Lemma core_pause used outs flight c mode :
  core_ok used outs flight c →
  ∃ o c', pause_scheduler visit mode c = (Ok o, c') ∧ core_ok used (outs ++ o) flight c' ∧ co_batch_queue c' = co_batch_queue c.
Proof.
  intros Hok.
  assert (∃ gone c1, (match mode with PauseAbort => on_sched (finish_requests visit None FINISHED_ABORTED) | _ => mret [] end) c = (Ok gone, c1) ∧ NoDup gone
    ∧ (∀ o, (∀ id, told id o = [] ∨ id ∈ gone ∧ length (told id o) = 1%nat) → core_ok used (outs ++ o) flight c1)
    ∧ co_batch_queue c1 = co_batch_queue c) as (gone & c1 & E & Hnd & H & Hq).
  { destruct mode; [by eapply core_finish|..]; exists [], c; (split; [done|]; split; [constructor|]; split; [|done]); intros o Ho;
      (replace c with (mkCore (co_sched c) (co_worker c) (co_batch_queue c)) by (by destruct c));
      apply (core_moves used outs flight flight); try done; intros id;
      (destruct (Ho id) as [->|[?%not_elem_of_nil _]]; [|done]); destruct (sc_requests _ !! id); cbn; try done;
      (split; [constructor|by rewrite app_nil_r]). }
  set (o := map (λ id, mkEngineOutput id [] (Some ABORT) None) (visit gone)).
  unfold pause_scheduler. rewrite st_bind_eq, E, st_bind_eq. set (p := match mode with PauseKeep => _ | _ => _ end).
  set (s' := (set_pause_state p (co_sched c1)).2). exists o, (mkCore s' (co_worker c1) (co_batch_queue c1)).
  rewrite (on_sched_eq _ _ (Ok tt) s') by done. split; [done|]. split; [|done]. rewrite <-(app_nil_r (outs ++ o)).
  apply (core_moves used (outs ++ o) flight flight); [|by intros k0 [[] ? ? ? ? ? ?]; split|done|].
  - apply H. intros id. unfold o. rewrite told_aborts, filter_same by (by rewrite Hvisit). case_decide as Hid; [right|by left].
    split; [by rewrite <-(Hvisit gone)|done].
  - intros id. destruct (sc_requests (co_sched c1) !! id) eqn:Ei; cbn; rewrite Ei; [split; [constructor|by rewrite app_nil_r]|done].
Qed.

Lemma core_resume used outs flight c :
  core_ok used outs flight c → ∃ c', resume_scheduler c = (Ok tt, c') ∧ core_ok used outs flight c' ∧ co_batch_queue c' = co_batch_queue c.
Proof.
  intros Hok. set (s' := (set_pause_state UNPAUSED (co_sched c)).2). exists (mkCore s' (co_worker c) (co_batch_queue c)).
  unfold resume_scheduler. rewrite (on_sched_eq _ _ (Ok tt) s') by done. split; [done|]. split; [|done]. rewrite <-(app_nil_r outs).
  apply (core_moves used outs flight flight); [done|by intros k0 [[] ? ? ? ? ? ?]; split|done|].
  intros id. destruct (sc_requests (co_sched c) !! id) eqn:Ei; cbn; rewrite Ei; [split; [constructor|by rewrite app_nil_r]|done].
Qed.

(** ** Steps *)

Lemma outputs_kept s0 s p kept dropped new rest k0 s' granted id r' :
  step_result cfg n k0 s0 s s' p kept dropped new rest granted → sc_requests s' !! id = Some r' →
  ∃ r, sc_requests s0 !! id = Some r ∧ sr_output_token_ids r' = sr_output_token_ids r.
Proof.
  intros H. rewrite (re_requests _ _ _ _ _ _ _ _ _ _ _ _ H), (pi_requests _ _ _ _ _ _ _ _ _ _ _ (re_pass _ _ _ _ _ _ _ _ _ _ _ _ H)).
  change (sc_requests (tick s0)) with (sc_requests s0). destruct (sc_requests s0 !! id) as [r|]; [|done]. cbn. intros [= <-]. exists r. split; [done|].
  transitivity (sr_output_token_ids (moved dropped new id r)).
  - unfold after_counts. destruct (list_to_map _ !! id) as [k|]; [|done]. destruct (after_step_progress cfg (sc_current_step s) k (moved dropped new id r)) as (ph & ch & e & ->). done.
  - unfold moved. by destruct (decide (id ∈ dropped)), (decide (id ∈ new)).
Qed.

Lemma requests_kept s0 s p kept dropped new rest k0 s' granted id :
  step_result cfg n k0 s0 s s' p kept dropped new rest granted → sc_requests s' !! id = None ↔ sc_requests s0 !! id = None.
Proof.
  intros H. rewrite (re_requests _ _ _ _ _ _ _ _ _ _ _ _ H), (pi_requests _ _ _ _ _ _ _ _ _ _ _ (re_pass _ _ _ _ _ _ _ _ _ _ _ _ H)).
  by rewrite !fmap_None.
Qed.

(** A step is scheduled, and the worker asked for it. *)
Lemma core_schedule used outs flight c throttle tensors tok :
  core_ok used outs flight c → may_schedule cfg flight →
  ∃ so mro c1 c', on_sched (schedule cfg visit throttle) c = (Ok so, c1) ∧ on_model (run_model so tensors tok) c1 = (Ok mro, c')
  ∧ core_ok used outs (flight ++ [(so, mro)]) c' ∧ co_batch_queue c' = co_batch_queue c.
Proof.
  intros [(k0 & H & Hm) Ha Hv Hf Ht Hst] Hmay. destruct (sy_calls _ _ _ _ _ _ H) as [granted Hc].
  destruct (schedule_ok cfg n visit (sf_watermark _ _ Hz) (sf_positive _ _ Hz) (proj1 (sf_tokens _ _ Hz)) throttle k0 _ granted (sy_sched _ _ _ _ _ _ H) Hc)
    as (s' & s & p & kept & dropped & new & rest & g & E & _ & Hstep).
  pose proof (step_system_ok cfg n z visit Hz Hvisit k0 _ s s' _ _ p kept dropped new rest g H Hmay Hstep tok) as Hs'.
  pose proof (step_asked_ok cfg n z visit Hz Hvisit k0 _ s s' _ _ p kept dropped new rest g H Hmay Hstep) as Hasked.
  destruct (step_managed cfg n z visit Hz Hvisit k0 _ s s' _ _ p kept dropped new rest g H Hmay Hstep) as [Hcalled Hbatch].
  set (so := output_of visit s p) in *. set (mro := view_output _ so tok) in Hs'. set (sampled := sampled_for tok so) in *.
  pose (step := (so, tensors, sampled) : WorkerStep (B := B)).
  exists so, mro, (mkCore s' (co_worker c) (co_batch_queue c)),
    (mkCore s' (step_view z (co_worker c).1 so sampled, (co_worker c).2 ++ [step]) (co_batch_queue c)).
  split; [by apply on_sched_eq|]. split; [done|]. split; [|done].
  split; cbn [co_sched co_worker fst snd].
  - exists (sc_manager s'). split; [done|]. rewrite spec_steps_snoc. eapply managed_run_snoc; [exact Hm|]. rewrite <-Hv.
    apply (called_managed kv z _ so sampled tensors k0 _ g); [done|by apply (re_keys _ _ _ _ _ _ _ _ _ _ _ _ Hstep)|done].
  - apply outputs_asked_snoc; [done|]. rewrite <-Hv. split; [done|]. cbn. apply length_map.
  - rewrite final_view_snoc, <-Hv. done.
  - intros id Hid. destruct (Hf id Hid) as (F1 & F2 & F3). pose proof (requests_kept _ _ _ _ _ _ _ _ _ _ id Hstep) as Hkeep.
    split; [by apply Hkeep|]. split; [|done]. apply Forall_app. split; [done|]. apply Forall_singleton. cbn. intros Hin.
    apply list_elem_of_In, in_map_iff in Hin as (it & <- & Hit%list_elem_of_In).
    destruct (pi_counts _ _ _ _ _ _ _ _ _ _ _ (re_pass _ _ _ _ _ _ _ _ _ _ _ _ Hstep) it Hit) as (r & _ & Hr & _).
    pose proof (re_requests _ _ _ _ _ _ _ _ _ _ _ _ Hstep it.1) as Hr'. rewrite (proj2 Hkeep F1), Hr in Hr'. done.
  - intros id. specialize (Ht id). pose proof (requests_kept _ _ _ _ _ _ _ _ _ _ id Hstep) as Hkeep.
    destruct (sc_requests s' !! id) as [r'|] eqn:Er'.
    + destruct (outputs_kept _ _ _ _ _ _ _ _ _ _ id r' Hstep Er') as (r & Hr & Eo). rewrite Hr in Ht. cbn in *. by rewrite Eo.
    + by rewrite (proj1 Hkeep eq_refl) in Ht.
  - apply outputs_fresh_snoc; [done|]. rewrite <-Hv. exact (step_starts cfg n visit Hvisit k0 _ s s' _ _ p kept dropped new rest g H Hmay Hstep).
Qed.

(** The output of the oldest step comes back. *)
Lemma core_output used outs flight e c :
  core_ok used outs (e :: flight) c →
  ∃ o c', on_sched (update_from_output cfg e.1 e.2) c = (Ok o, c') ∧ core_ok used (outs ++ o) flight c' ∧ co_batch_queue c' = co_batch_queue c.
Proof.
  intros Hok. destruct (ck_system _ _ _ _ Hok) as (k0 & H & _). destruct (system_output cfg n k0 _ _ e flight H) as (s' & E & _ & R).
  eexists _, (mkCore s' (co_worker c) (co_batch_queue c)). split; [by apply on_sched_eq|]. split; [|done].
  apply (core_moves used outs (e :: flight) flight); [done| |by intros e' He; right|].
  - intros k H'. destruct (system_output cfg n k _ _ e flight H') as (s'' & E' & H'' & _). rewrite E in E'. by injection E' as ->.
  - intros id. pose proof (Forall_inv (sy_flight _ _ _ _ _ _ H)) as He.
    rewrite (told_rounds cfg (co_sched c) (tokens_for e.2)), R by apply He. unfold round_output.
    destruct (sc_requests (co_sched c) !! id) as [r|] eqn:Er; [|by case_decide].
    change (Some r ≫= settled cfg (tokens_for e.2 id)) with (settled cfg (tokens_for e.2 id) r).
    pose proof (round_talk cfg id r (tokens_for e.2 id) (so_object _ _ _ (sy_sched _ _ _ _ _ _ H) id r Er)) as Hr.
    case_decide as Hid; [done|]. rewrite flight_tokens by done. rewrite settled_nil. split; [constructor|by rewrite app_nil_r].
Qed.

(** Between events at most one batch is in flight, and none without asynchronous scheduling. *)
Definition core_idle (used : list string) (outs : list EngineCoreOutput) (c : ViewCore) : Prop :=
  core_ok used outs (co_batch_queue c) c ∧ may_schedule cfg (co_batch_queue c).

Lemma core_idle_none used outs c : core_idle used outs c → core_idle used (outs ++ []) c.
Proof. by rewrite app_nil_r. Qed.

(** The rest of a step: aborts, then the output of the oldest batch. *)
Lemma core_finish_batch used outs flight e c q :
  core_ok used outs (e :: flight) c →
  ∃ c1 o c', _process_aborts_queue visit q c = (Ok tt, c1) ∧ on_sched (update_from_output cfg e.1 e.2) c1 = (Ok o, c')
  ∧ core_ok used (outs ++ o) flight c' ∧ co_batch_queue c' = co_batch_queue c.
Proof.
  intros Hok. destruct (core_aborts _ _ _ c q Hok) as (c1 & E1 & H1 & Q1). destruct (core_output _ _ _ e c1 H1) as (o & c' & E2 & H2 & Q2).
  exists c1, o, c'. split; [done|]. split; [done|]. split; [done|]. by rewrite Q2.
Qed.

Lemma core_step_ok used outs c throttle q tensors tok :
  core_idle used outs c → co_batch_queue c = [] →
  ∃ o b c', core_step cfg visit throttle q tensors tok c = (Ok (o, b), c') ∧ core_idle used (outs ++ o) c'.
Proof.
  intros [Hok Hmay] Hq. unfold core_step. rewrite st_bind_eq. cbn [st_get]. destruct (has_requests (co_sched c)); cbn [negb].
  2:{ exists [], false, c. split; [done|]. by apply core_idle_none. }
  destruct (core_schedule _ _ _ c throttle tensors tok Hok Hmay) as (so & mro & c1 & c2 & E1 & E2 & H2 & Q2). rewrite Hq in H2. cbn [app] in H2.
  destruct (core_finish_batch _ _ _ _ c2 q H2) as (c3 & o & c' & E3 & E4 & H4 & Q4). cbn [fst snd] in E4.
  exists o, (0 <? so_total_num_scheduled_tokens so)%Z, c'. rewrite st_bind_eq, E1, st_bind_eq, E2, st_bind_eq, E3, st_bind_eq, E4. split; [done|].
  unfold core_idle. rewrite Q4, Q2, Hq. split; [done|]. unfold may_schedule. cbn. lia.
Qed.

Lemma finish_oldest_ok used outs c e flight q b :
  core_ok used outs (e :: flight) c → co_batch_queue c = e :: flight → may_schedule cfg flight →
  ∃ o c', finish_oldest_batch cfg visit q b c = (Ok (Some o, b), c') ∧ core_idle used (outs ++ o) c'.
Proof.
  intros Hok Hq Hmay. pose proof (core_queue _ _ _ _ flight Hok) as Hok'.
  destruct (core_finish_batch _ _ _ _ _ q Hok') as (c3 & o & c' & E3 & E4 & H4 & Q4). exists o, c'.
  unfold finish_oldest_batch. rewrite st_bind_eq. cbn [st_get]. rewrite Hq. unfold st_lift at 1. rewrite st_bind_eq. destruct e as [so mro]. cbn [fst snd] in E4.
  assert (set_batch_queue (drop 1) c = (Ok tt, mkCore (co_sched c) (co_worker c) flight)) as Ed by (unfold set_batch_queue, st_modify; by rewrite Hq).
  rewrite st_bind_eq, Ed, st_bind_eq, E3, st_bind_eq, E4. split; [done|].
  cbn in Q4. unfold core_idle. by rewrite Q4.
Qed.

Lemma step_with_batch_queue_ok used outs c throttle q tensors tok :
  core_idle used outs c → sg_async_scheduling cfg = true →
  ∃ o b c', step_with_batch_queue cfg visit throttle q tensors tok c = (Ok (o, b), c') ∧ core_idle used (outs ++ default [] o) c'.
Proof.
  intros [Hok Hmay] Ha. pose proof Hmay as Hone. unfold may_schedule in Hone. rewrite Ha in Hone.
  assert (max_concurrent_batches cfg = 2%Z) as Hmax by (unfold max_concurrent_batches; rewrite Ha, Hpp; done).
  unfold step_with_batch_queue, st_raise_if. rewrite st_bind_eq. cbn [st_get]. rewrite st_bind_eq, Hmax. rewrite (proj2 (Z.ltb_lt _ _)) by lia.
  unfold st_lift at 1. cbn [negb raise_if]. destruct (has_requests (co_sched c)).
  - destruct (core_schedule _ _ _ c throttle tensors tok Hok Hmay) as (so & mro & c1 & c2 & E1 & E2 & H2 & Q2).
    rewrite st_bind_eq, E1, st_bind_eq, E2, st_bind_eq. unfold set_batch_queue, st_modify. rewrite Q2. set (q' := co_batch_queue c ++ [(so, mro)]) in *.
    set (c3 := mkCore (co_sched c2) (co_worker c2) q'). pose proof (core_queue _ _ _ _ q' H2 : core_ok used outs q' c3) as H3.
    rewrite st_bind_eq. cbn [st_get]. change (co_batch_queue c3) with q'.
    destruct (Z.ltb_spec (Z.of_nat (length q')) 2) as [Hlt|Hge]; cbn [andb]; [destruct (_ || _)|].
    + exists None, (0 <? so_total_num_scheduled_tokens so)%Z, c3. split; [done|]. apply core_idle_none. split; [done|]. unfold may_schedule. rewrite Ha. cbn. lia.
    + destruct q' as [|e l] eqn:Eq; [by destruct (co_batch_queue c)|].
      destruct (finish_oldest_ok used outs c3 e l q (0 <? so_total_num_scheduled_tokens so)%Z H3 eq_refl) as (o & c' & E & H').
      { unfold may_schedule. rewrite Ha. cbn in Hlt. lia. }
      exists (Some o), (0 <? so_total_num_scheduled_tokens so)%Z, c'. by split.
    + assert (length q' ≤ 2)%nat as Hle by (unfold q'; rewrite length_app; cbn; lia).
      destruct q' as [|e l] eqn:Eq; [by destruct (co_batch_queue c)|].
      destruct (finish_oldest_ok used outs c3 e l q (0 <? so_total_num_scheduled_tokens so)%Z H3 eq_refl) as (o & c' & E & H').
      { unfold may_schedule. rewrite Ha. cbn in Hle. lia. }
      exists (Some o), (0 <? so_total_num_scheduled_tokens so)%Z, c'. by split.
  - destruct (co_batch_queue c) as [|e l] eqn:Eq.
    + exists None, false, c. split; [done|]. apply core_idle_none. by split; rewrite Eq.
    + destruct (finish_oldest_ok used outs c e l q false Hok Eq) as (o & c' & E & H').
      { unfold may_schedule. rewrite Ha. cbn in Hone. lia. }
      exists (Some o), false, c'. by split.
Qed.

Lemma step_fn_ok used outs c throttle q tensors tok :
  core_idle used outs c → ∃ o c', step_fn cfg visit throttle q tensors tok c = (Ok o, c') ∧ core_idle used (outs ++ o) c'.
Proof.
  intros Hc. unfold step_fn, max_concurrent_batches. rewrite Hpp. destruct (sg_async_scheduling cfg) eqn:Ha; [change (1 <? 1 + 1)%Z with true|change (1 <? 1)%Z with false]; cbv iota.
  - destruct (step_with_batch_queue_ok used outs c throttle q tensors tok Hc Ha) as (o & b & c' & E & H). exists (default [] o), c'.
    by rewrite st_bind_eq, E.
  - assert (co_batch_queue c = []) as Hq by (destruct Hc as [_ Hm]; unfold may_schedule in Hm; rewrite Ha in Hm; destruct (co_batch_queue c); [done|cbn in Hm; lia]).
    destruct (core_step_ok used outs c throttle q tensors tok Hc Hq) as (o & b & c' & E & H). exists o, c'. by rewrite st_bind_eq, E.
Qed.

(** ** Events *)

Definition added (ev : ViewEvent) : list string := match ev with AddRequest id _ _ => [id] | _ => [] end.
Definition event_ok (ev : ViewEvent) : Prop := match ev with AddRequest _ prompt params => prompt_ok cfg prompt params | _ => True end.

(** Every request comes once, with a prompt the model takes. *)
Definition events_ok (events : list (ViewEvent)) : Prop := NoDup (concat (map added events)) ∧ Forall event_ok events.

Lemma handle_ok used outs c ev :
  core_idle used outs c → event_ok ev → (∀ id, id ∈ added ev → id ∉ used) →
  ∃ o c', handle cfg visit ev c = (Ok o, c') ∧ core_idle (added ev ++ used) (outs ++ o) c'.
Proof.
  intros [Hok Hmay] Hev Hnew. destruct ev as [id prompt params|ids|mode| |throttle q tensors tok]; cbn [handle added app] in *.
  - destruct (core_add _ _ _ c id prompt params Hok (Hnew id ltac:(by left)) Hev) as (c' & E & H & Q). exists [], c'. rewrite st_bind_eq, E.
    split; [done|]. apply core_idle_none. unfold core_idle. by rewrite Q.
  - destruct (core_abort _ _ _ c ids Hok) as (c' & E & H & Q). exists [], c'. rewrite st_bind_eq, E. split; [done|]. apply core_idle_none. unfold core_idle. by rewrite Q.
  - destruct (core_pause _ _ _ c mode Hok) as (o & c' & E & H & Q). exists o, c'. split; [done|]. unfold core_idle. by rewrite Q.
  - destruct (core_resume _ _ _ c Hok) as (c' & E & H & Q). exists [], c'. rewrite st_bind_eq, E. split; [done|]. apply core_idle_none. unfold core_idle. by rewrite Q.
  - by apply step_fn_ok.
Qed.

Lemma handle_all_ok events : ∀ used outs c,
  core_idle used outs c → events_ok events → (∀ id, id ∈ concat (map added events) → id ∉ used) →
  ∃ o used' c', handle_all cfg visit events c = (Ok o, c') ∧ core_idle used' (outs ++ o) c'.
Proof.
  induction events as [|ev events IH]; intros used outs c Hc [Hnd Hev] Hnew.
  { exists [], used, c. split; [done|]. by apply core_idle_none. }
  apply Forall_cons in Hev as [Hev Hevs]. cbn [map concat] in Hnd, Hnew. apply NoDup_app in Hnd as (_ & Hd & Hnd).
  destruct (handle_ok used outs c ev Hc Hev) as (o1 & c1 & E1 & H1); [intros id Hid; apply Hnew, elem_of_app; by left|].
  destruct (IH _ _ c1 H1) as (o2 & used' & c' & E2 & H2); [by split|..].
  { intros id Hid [Ha|Hu]%elem_of_app; [by apply (Hd id)|]. apply (Hnew id); [apply elem_of_app; by right|done]. }
  exists (o1 ++ o2), used', c'. cbn [handle_all]. rewrite st_bind_eq, E1, st_bind_eq, E2. split; [done|]. by rewrite app_assoc.
Qed.
End Runs.

Lemma core_fresh `{TF : TorchFloat} {B : Type} cfg n z m0 :
  kv_ok n m0 → (∀ id, table_of m0 id = []) → sizes_fit cfg z → (0 ≤ sg_max_num_running_reqs cfg)%Z →
  core_idle (B := B) cfg n z m0 [] [] (core_init m0 (∅, [])).
Proof.
  intros Hok Ht Hz Hmax. split; [|unfold may_schedule; cbn; lia]. split; cbn; try done.
  - exists m0. split; [|done]. split; cbn; try done.
    + by apply scheduler_init_ok.
    + exists ∅. apply called_start.
    + intros id Hid. rewrite lookup_empty in Hid. by destruct Hid.
  - intros id. change (talk_ok None []). exists [], []. split; [done|]. split; [constructor|cbn; lia].
Qed.
