(* ===== verification/CoreDrains.v ===== *)
(** * The core of the engine drains

    Left to step, the core finishes its requests: each step the request at the head of the
    queues computes tokens or receives one ([SchedulerHead]), so that the steps until no
    request is left are bounded ([core_drains]). *)

From Stdlib Require Import ZArith Lia Permutation.
From stdpp Require Import base tactics numbers list option gmap strings.
From S2P Require Import Prelude FreeQueue BlockPool PoolState KVManager KVTables SchedRequest.
From S2P Require Import Torch Quant Tab Triton Stores StagedTensor InputBatch BlockTables RequestStates Lifecycle RunnerV2.
From S2P Require Import RunnerView RunnerSteps RunnerBatch RunnerRun Engine ManagedEngine ServedV2.
From S2P Require Import Scheduler SchedCalls SchedulerPass SchedulerStep SchedulerEvents SchedulerView SchedulerHead EngineCore WorkerModel CoreServed CoreRun.

(** ** Objects whose tokens came *)

Section Settled.
Variables (cfg : SchedConfig) (n : nat).

Lemma settled_clock id gen r r' :
  object_ok cfg id r → settled cfg gen r = Some r' → sr_next_decode_eligible_step r' = sr_next_decode_eligible_step r.
Proof.
  intros (_ & _ & _ & Hlen & _ & _ & Hmin). unfold settled. destruct (append_until_stop_ok cfg gen r Hmin ltac:(lia)) as (kept & stopped & r1 & -> & _ & H).
  destruct stopped; [done|]. destruct H as (_ & -> & _). intros [= <-]. by destruct (sg_async_scheduling cfg).
Qed.

(** How much of a request is done: it never reaches twice the length of the model. *)
Definition progress (r : SchedRequest) : Z := (sr_num_computed_tokens r + sr_num_tokens r)%Z.
Definition span : Z := (2 * max_model_len (sg_kv cfg))%Z.

Lemma progress_bound id r : object_ok cfg id r → (0 < progress r < span)%Z.
Proof. intros (_ & _ & _ & H1 & H2 & H3 & _). unfold progress, span. lia. Qed.

(** What is left to do for the requests of a scheduler, in steps. *)
Definition remaining (s : Scheduler) : Z :=
  match queue_of s with
  | [] => 0
  | id :: _ => Z.of_nat (length (queue_of s)) * span - progress (request_of s id)
  end.

Lemma remaining_bound s : sched_ok cfg n s → (0 ≤ remaining s ≤ Z.of_nat (length (queue_of s)) * span)%Z ∧ (queue_of s ≠ [] → 0 < remaining s)%Z.
Proof.
  intros Hs. unfold remaining. destruct (queue_of s) as [|id tl] eqn:E; [done|]. destruct (proj2 (so_known _ _ _ Hs id)) as [r Hr].
  { fold (queue_of s). rewrite E. by left. }
  pose proof (progress_bound id r (so_object _ _ _ Hs id r Hr)). unfold request_of. rewrite Hr.
  change (default (dummy_request id) (Some r)) with r. cbn [length]. split; [|intros _]; nia.
Qed.

(** A step in which the queue only loses requests and its head, if it stays, advances. *)
Lemma remaining_falls s s' id tl r :
  sched_ok cfg n s → sched_ok cfg n s' → queue_of s = id :: tl → sc_requests s !! id = Some r → queue_of s' `sublist_of` queue_of s →
  (∀ r', sc_requests s' !! id = Some r' → progress r < progress r')%Z → (remaining s' < remaining s)%Z.
Proof.
  intros Hs Hs' Eq Hr Hsub Hadv. pose proof (progress_bound id r (so_object _ _ _ Hs id r Hr)) as Hb.
  destruct (remaining_bound s' Hs') as [Hb' _]. unfold remaining at 2. unfold request_of. rewrite Eq, Hr.
  change (default (dummy_request id) (Some r)) with r. destruct (decide (id ∈ queue_of s')) as [Hin|Hout].
  - destruct (sublist_head (queue_of s) (queue_of s') id tl (so_nodup _ _ _ Hs) Eq Hsub Hin) as [tl' Eq'].
    destruct (proj2 (so_known _ _ _ Hs' id) Hin) as [r' Hr']. specialize (Hadv r' Hr').
    unfold remaining, request_of. rewrite Eq', Hr'. change (default (dummy_request id) (Some r')) with r'.
    apply sublist_length in Hsub. rewrite Eq, Eq' in Hsub. nia.
  - assert (queue_of s' `sublist_of` tl) as Hsub'.
    { rewrite Eq in Hsub. inversion Hsub as [|y l1 l2 H E1 E2|y l1 l2 H E1 E2]; subst; [|done]. exfalso. apply Hout. rewrite <-E1. by left. }
    apply sublist_length in Hsub'. cbn [length]. nia.
Qed.
End Settled.

Section Runs.
Context `{TF : TorchFloat} {B : Type}.
Variables (cfg : SchedConfig) (n : nat) (z : Sizes) (visit : list string → list string).
Abbreviation kv := (sg_kv cfg).
Hypotheses (Hz : sizes_fit cfg z) (Hvisit : ∀ l, visit l ≡ₚ l) (Hpp : sg_pp_size cfg = 1%Z).
Variable m0 : Manager.

Abbreviation ViewCore := (Core (ViewState B)).
Abbreviation ViewEvent := (Event (list (LayerTensors (B := B)))).
#[local] Hint Extern 0 (ModelWorker _ _) => exact (view_worker z) : typeclass_instances.
Abbreviation core_ok := (core_ok cfg n z m0).
Abbreviation core_idle := (core_idle cfg n z m0).

(** ** What a turn of the core does *)

(** A batch is finished: aborts, then its output. *)
Definition finishes (q : list (list string)) (e : SchedulerOutput * ModelRunnerOutput) (c : ViewCore) (o : list EngineCoreOutput) (c' : ViewCore) : Prop :=
  ∃ c1, _process_aborts_queue visit q c = (Ok tt, c1) ∧ on_sched (update_from_output cfg e.1 e.2) c1 = (Ok o, c').

(** The turns of the core, by what reaches the scheduler. *)
Inductive turn (throttle : bool) (q : list (list string)) (tensors : list (LayerTensors (B := B))) (tok : string → Z) (c : ViewCore) :
    list EngineCoreOutput → ViewCore → Prop :=
| turn_nothing : has_requests (co_sched c) = false → turn throttle q tensors tok c [] c
| turn_oldest e rest o c' : has_requests (co_sched c) = false → co_batch_queue c = e :: rest →
    finishes q e (mkCore (co_sched c) (co_worker c) rest) o c' → turn throttle q tensors tok c o c'
| turn_scheduled so c1 mro c2 : on_sched (schedule cfg visit throttle) c = (Ok so, c1) → on_model (run_model so tensors tok) c1 = (Ok mro, c2) →
    co_batch_queue c = [] → turn throttle q tensors tok c [] (mkCore (co_sched c2) (co_worker c2) (co_batch_queue c ++ [(so, mro)]))
| turn_both so c1 mro c2 e rest o c' : on_sched (schedule cfg visit throttle) c = (Ok so, c1) → on_model (run_model so tensors tok) c1 = (Ok mro, c2) →
    co_batch_queue c ++ [(so, mro)] = e :: rest → finishes q e (mkCore (co_sched c2) (co_worker c2) rest) o c' → turn throttle q tensors tok c o c'.

Lemma on_sched_queue {A} (m : ST Scheduler A) (c : ViewCore) r c' : on_sched m c = (r, c') → co_batch_queue c' = co_batch_queue c.
Proof. unfold on_sched. destruct (m (co_sched c)). by intros [= _ <-]. Qed.

Lemma on_model_queue {A} (m : ST (ViewState B) A) (c : ViewCore) r c' :
  on_model m c = (r, c') → co_batch_queue c' = co_batch_queue c ∧ co_sched c' = co_sched c.
Proof. unfold on_model. destruct (m (co_worker c)). by intros [= _ <-]. Qed.

Lemma finish_oldest_turn q b (c c' : ViewCore) r :
  finish_oldest_batch cfg visit q b c = (Ok r, c') →
  ∃ e rest o, co_batch_queue c = e :: rest ∧ r.1 = Some o ∧ finishes q e (mkCore (co_sched c) (co_worker c) rest) o c'.
Proof.
  unfold finish_oldest_batch. rewrite st_bind_eq. cbn [st_get]. destruct (co_batch_queue c) as [|[so mro] rest] eqn:Eq; [done|].
  unfold st_lift at 1. rewrite st_bind_eq, st_bind_eq. cbn [set_batch_queue st_modify]. rewrite Eq. cbn [drop].
  intros ([] & c1 & E1 & E)%st_bind_ok. apply st_bind_ok in E as (out & c2 & E2 & [= <- <-]). exists (so, mro), rest, out. split; [done|].
  split; [done|]. by exists c1.
Qed.

Lemma core_step_turn throttle q tensors tok (c c' : ViewCore) o b :
  co_batch_queue c = [] → core_step cfg visit throttle q tensors tok c = (Ok (o, b), c') → turn throttle q tensors tok c o c'.
Proof.
  intros Hq. unfold core_step. rewrite st_bind_eq. cbn [st_get].
  destruct (has_requests (co_sched c)) eqn:Eh; cbn [negb]; [|intros [= <- _ <-]; by apply turn_nothing].
  intros (so & c1 & E1 & E)%st_bind_ok. apply st_bind_ok in E as (mro & c2 & E2 & E). apply st_bind_ok in E as ([] & c3 & E3 & E).
  apply st_bind_ok in E as (o' & c4 & E4 & [= <- _ <-]). apply (turn_both _ _ _ _ _ so c1 mro c2 (so, mro) []); try done; [by rewrite Hq|].
  apply on_model_queue in E2 as [Q2 _]. apply on_sched_queue in E1. assert (co_batch_queue c2 = []) as Q by congruence. exists c3.
  split; [|done]. rewrite <-E3. f_equal. destruct c2. cbn in *. by rewrite Q.
Qed.

Lemma step_with_batch_queue_turn throttle q tensors tok (c c' : ViewCore) r :
  max_concurrent_batches cfg = 2%Z → step_with_batch_queue cfg visit throttle q tensors tok c = (Ok r, c') →
  turn throttle q tensors tok c (default [] r.1) c'.
Proof.
  intros Hm E. unfold step_with_batch_queue in E. rewrite st_bind_eq in E. cbn [st_get] in E.
  apply st_bind_ok in E as ([] & cr & Er & E). assert (cr = c) as -> by (unfold st_raise_if, st_lift in Er; by injection Er).
  destruct (has_requests (co_sched c)) eqn:Eh.
  - apply st_bind_ok in E as (so & c1 & E1 & E). apply st_bind_ok in E as (mro & c2 & E2 & E). rewrite st_bind_eq in E. cbn [set_batch_queue st_modify] in E.
    rewrite st_bind_eq in E. cbn [st_get co_batch_queue co_sched] in E. pose proof (on_model_queue _ _ _ _ E2) as [Q2 S2]. pose proof (on_sched_queue _ _ _ _ E1) as Q1.
    rewrite Q2, Q1 in E. destruct (_ && _) eqn:Ew.
    + injection E as <- <-. apply (turn_scheduled _ _ _ _ _ so c1 mro c2); try done. apply andb_true_iff in Ew as [Ew%Z.ltb_lt _].
      destruct (co_batch_queue c); [done|]. rewrite length_app in Ew. cbn [length] in Ew. lia.
    + apply finish_oldest_turn in E as (e & rest & o & Eq & -> & Hf). by apply (turn_both _ _ _ _ _ so c1 mro c2 e rest).
  - destruct (co_batch_queue c) as [|e rest] eqn:Eq; [injection E as <- <-; by apply turn_nothing|].
    apply finish_oldest_turn in E as (e' & rest' & o & Eq' & -> & Hf). by apply (turn_oldest _ _ _ _ _ e' rest').
Qed.

Lemma step_fn_turn throttle q tensors tok (c c' : ViewCore) o :
  max_concurrent_batches cfg = 1%Z ∧ co_batch_queue c = [] ∨ max_concurrent_batches cfg = 2%Z →
  step_fn cfg visit throttle q tensors tok c = (Ok o, c') → turn throttle q tensors tok c o c'.
Proof.
  intros Hmax. unfold step_fn. destruct Hmax as [[Hm Hq]|Hm]; rewrite Hm; [change (1 <? 1)%Z with false|change (1 <? 2)%Z with true]; cbv iota.
  - intros ([out b] & c0 & E & [= <- <-])%st_bind_ok. by eapply core_step_turn.
  - intros ([out b] & c0 & E & [= <- <-])%st_bind_ok. by apply step_with_batch_queue_turn in E.
Qed.

(** ** The parts of a turn *)

Lemma on_sched_ok {A} (m : ST Scheduler A) (c c' : ViewCore) a :
  on_sched m c = (Ok a, c') → m (co_sched c) = (Ok a, co_sched c').
Proof. unfold on_sched. destruct (m (co_sched c)) as [r s]. by intros [= -> <-]. Qed.

(** A request before a step has tokens to compute, or to come. *)
Lemma more_to_come used outs (c : ViewCore) id r :
  core_idle used outs c → sc_requests (co_sched c) !! id = Some r → (sr_num_computed_tokens r < sr_num_tokens r + sr_num_output_placeholders r)%Z.
Proof.
  intros [Hok Hmay] Hr. destruct (ck_system _ _ _ _ _ _ _ _ Hok) as (k0 & H & _). pose proof (sy_sched _ _ _ _ _ _ H) as Hs.
  pose proof (so_object _ _ _ Hs id r Hr) as (_ & _ & Hph & Hlen & _).
  assert (id ∈ queue_of (co_sched c)) as Hin by (apply (so_known _ _ _ Hs); by eexists). apply elem_of_app in Hin as [Hin|Hin].
  - destruct (sy_live _ _ _ _ _ _ H id r Hin Hr) as (v & _ & Hv). rewrite (live_tokens cfg n k0 _ _ _ id r v H Hmay Hr Hv).
    destruct Hv as ((<- & _ & [[H1 H2]|[H1 H2]]) & _); lia.
  - destruct (so_waits _ _ _ Hs id r Hin Hr) as [_ ->]. lia.
Qed.

(** A request whose token is in flight is of the batch whose output comes next. *)
Lemma in_flight used outs (c : ViewCore) id r :
  core_idle used outs c → sc_requests (co_sched c) !! id = Some r → (0 < sr_num_output_placeholders r)%Z →
  ∃ e, co_batch_queue c = [e] ∧ tokens_for e.2 id ≠ [].
Proof.
  intros [Hok Hmay] Hr Hph. destruct (ck_system _ _ _ _ _ _ _ _ Hok) as (k0 & H & _). rewrite (sy_places _ _ _ _ _ _ H id r Hr) in Hph.
  unfold places, may_schedule in *. destruct (sg_async_scheduling cfg); [|lia]. destruct (co_batch_queue c) as [|e [|e' l]]; [cbn in Hph; lia| |cbn in Hmay; lia].
  exists e. split; [done|]. unfold pending in Hph. cbn in Hph. rewrite app_nil_r in Hph. by destruct (tokens_for e.2 id).
Qed.

Lemma scheduled_ok used outs flight (c : ViewCore) throttle so c1 mro c2 tensors tok :
  core_ok used outs flight c → may_schedule cfg flight → on_sched (schedule cfg visit throttle) c = (Ok so, c1) →
  on_model (run_model so tensors tok) c1 = (Ok mro, c2) →
  core_ok used outs (flight ++ [(so, mro)]) c2 ∧ queue_of (co_sched c2) = queue_of (co_sched c)
  ∧ sc_pause_state (co_sched c2) = sc_pause_state (co_sched c) ∧ (clock_ok (co_sched c) → clock_ok (co_sched c2))
  ∧ (∀ id r tl, throttle = false → may_drain cfg n → clock_ok (co_sched c) → sc_pause_state (co_sched c) = UNPAUSED → queue_of (co_sched c) = id :: tl →
      sc_requests (co_sched c) !! id = Some r → (sr_num_computed_tokens r < sr_num_tokens r + sr_num_output_placeholders r)%Z →
      ∃ r', sc_requests (co_sched c2) !! id = Some r' ∧ sr_all_token_ids r' = sr_all_token_ids r
      ∧ (sr_num_computed_tokens r ≤ sr_num_computed_tokens r')%Z
      ∧ ((sr_num_computed_tokens r < sr_num_computed_tokens r')%Z ∨ (0 < sr_num_output_placeholders r)%Z)).
Proof.
  intros Hok Hmay E1 E2. destruct (core_schedule cfg n z visit Hz Hvisit m0 used outs flight c throttle tensors tok Hok Hmay) as (so' & mro' & c1' & c2' & E1' & E2' & Hok' & _).
  rewrite E1 in E1'. injection E1' as <- <-. rewrite E2 in E2'. injection E2' as <- <-. split; [done|].
  destruct (ck_system _ _ _ _ _ _ _ _ Hok) as (k0 & H & _). destruct (sy_calls _ _ _ _ _ _ H) as [granted Hc]. pose proof (sy_sched _ _ _ _ _ _ H) as Hs.
  destruct (schedule_ok cfg n visit (sf_watermark _ _ Hz) (sf_positive _ _ Hz) (proj1 (sf_tokens _ _ Hz)) throttle k0 _ granted Hs Hc)
    as (s' & s & p & kept & dropped & new & rest & g & E & Er & Hstep).
  apply on_sched_ok in E1. rewrite E in E1. injection E1 as _ Es. apply on_model_queue in E2 as [_ ->]. rewrite <-Es.
  split; [by eapply step_queue|]. split; [by rewrite (re_pause _ _ _ _ _ _ _ _ _ _ _ _ Hstep); apply (re_pass _ _ _ _ _ _ _ _ _ _ _ _ Hstep)|].
  split; [by eapply step_clock|]. intros id r tl -> Hd Hclock Hpause Hq Hr Hmore.
  by eapply (head_step cfg n (sf_watermark _ _ Hz) (sf_positive _ _ Hz) k0).
Qed.

Lemma finishes_ok used outs flight e q (c : ViewCore) o c' :
  core_ok used outs (e :: flight) c → finishes q e c o c' →
  shrinks (co_sched c) (co_sched c') ∧ (clock_ok (co_sched c) → clock_ok (co_sched c'))
  ∧ ∀ id r', sc_requests (co_sched c') !! id = Some r' →
      ∃ r, sc_requests (co_sched c) !! id = Some r ∧ object_ok cfg id r
      ∧ settled cfg (tokens_for e.2 id) r = Some r' ∧ sr_all_token_ids r' = sr_all_token_ids r ++ tokens_for e.2 id
      ∧ sr_num_computed_tokens r' = sr_num_computed_tokens r.
Proof.
  intros Hok (c1 & E1 & E2).
  assert (core_ok used outs (e :: flight) c1 ∧ shrinks (co_sched c) (co_sched c1)
    ∧ ∀ id r, sc_requests (co_sched c1) !! id = Some r → sc_requests (co_sched c) !! id = Some r) as (Hok1 & Hsh1 & Hr1).
  { destruct (core_aborts cfg n z visit Hvisit m0 used outs (e :: flight) c q Hok) as (c1' & E1' & Hok1 & _). rewrite E1 in E1'. injection E1' as <-.
    split; [done|]. destruct q as [|ids q]; [injection E1 as <-; by split|]. unfold _process_aborts_queue, abort_requests in E1.
    apply st_bind_ok in E1 as (gone & c1' & E & [= <-]). apply on_sched_ok in E.
    pose proof (finish_requests_shrinks visit (Some (concat (ids :: q))) FINISHED_ABORTED (co_sched c)) as Hsh. unfold st_at in Hsh. rewrite E in Hsh. split; [done|].
    destruct (ck_system _ _ _ _ _ _ _ _ Hok) as (k0 & H & _).
    destruct (system_finish cfg n visit k0 _ _ _ (Some (concat (ids :: q))) FINISHED_ABORTED Hvisit eq_refl H) as (gone' & s' & E' & _ & R & _).
    rewrite E in E'. injection E' as <- <-. intros id r. rewrite R. by case_decide. }
  destruct (ck_system _ _ _ _ _ _ _ _ Hok1) as (k0 & H & _). pose proof (sy_sched _ _ _ _ _ _ H) as Hs1.
  destruct (system_output cfg n k0 _ _ e flight H) as (s' & E' & _ & R). apply on_sched_ok in E2. rewrite E2 in E'. injection E' as _ <-.
  pose proof (update_from_output_shrinks cfg e.1 e.2 (co_sched c1)) as Hsh2. unfold st_at in Hsh2. rewrite E2 in Hsh2. cbn [snd] in Hsh2.
  assert (shrinks (co_sched c) (co_sched c')) as Hsh by (by etransitivity).
  assert (∀ id r', sc_requests (co_sched c') !! id = Some r' → ∃ r, sc_requests (co_sched c) !! id = Some r ∧ object_ok cfg id r
      ∧ settled cfg (tokens_for e.2 id) r = Some r' ∧ sr_all_token_ids r' = sr_all_token_ids r ++ tokens_for e.2 id
      ∧ sr_num_computed_tokens r' = sr_num_computed_tokens r) as Hobj.
  { intros id r'. rewrite R. intros (r & Hr & Hset)%bind_Some. pose proof (so_object _ _ _ Hs1 id r Hr) as Ho. exists r. split; [by apply Hr1|]. split; [done|]. split; [done|].
    destruct (settled_ok cfg id (tokens_for e.2 id) r r' Ho) with (2 := Hset) as (_ & _ & A1 & A2 & _); [|done]. intros Ha. by eapply places_take. }
  split; [done|]. split; [|done]. intros [Hpos Hclock]. split; [by rewrite (sh_step _ _ Hsh)|]. intros id r' Hr'. rewrite (sh_step _ _ Hsh).
  destruct (Hobj id r' Hr') as (r & Hr & Ho & Hset & _). rewrite (settled_clock cfg id _ r r' Ho Hset). by eapply Hclock.
Qed.

(** ** Turns that count *)

(** The core between turns of an engine that is not paused. *)
Definition core_ready (used : list string) (outs : list EngineCoreOutput) (c : ViewCore) : Prop :=
  core_idle used outs c ∧ clock_ok (co_sched c) ∧ sc_pause_state (co_sched c) = UNPAUSED.

Lemma ready_sched used outs (c : ViewCore) : core_ready used outs c → sched_ok cfg n (co_sched c).
Proof. intros [[Hok _] _]. destruct (ck_system _ _ _ _ _ _ _ _ Hok) as (k0 & H & _). by apply (sy_sched _ _ _ _ _ _ H). Qed.

Lemma ready_has_requests used outs (c : ViewCore) : core_ready used outs c → queue_of (co_sched c) ≠ [] → has_requests (co_sched c) = true.
Proof.
  intros (_ & _ & Hp) Hq. unfold has_requests, get_num_unfinished_requests. rewrite Hp. unfold queue_of in Hq. apply orb_true_iff. left. apply Z.ltb_lt.
  destruct (sc_running (co_sched c)); [|cbn; lia]. destruct (sc_waiting (co_sched c)); [done|]. cbn. lia.
Qed.

Lemma shrinks_queue s s' : shrinks s s' → queue_of s' `sublist_of` queue_of s.
Proof. intros []. by apply sublist_app. Qed.

(** A turn only takes requests from the queue; the clock and the pause allow the next. *)
Lemma turn_shrinks used outs throttle q tensors tok (c : ViewCore) o c' :
  core_idle used outs c → turn throttle q tensors tok c o c' →
  queue_of (co_sched c') `sublist_of` queue_of (co_sched c) ∧ sc_pause_state (co_sched c') = sc_pause_state (co_sched c)
  ∧ (clock_ok (co_sched c) → clock_ok (co_sched c')).
Proof.
  intros [Hok Hmay] [_|e rest o' c1' _ Eq Hf|so c1 mro c2 E1 E2 Eq|so c1 mro c2 e rest o' c1' E1 E2 Eq Hf].
  - done.
  - rewrite Eq in Hok. destruct (finishes_ok used outs rest e q _ _ c1' (core_queue _ _ _ _ _ _ _ _ rest Hok) Hf) as (Hsh & Hck & _). cbn [co_sched] in *.
    split; [by apply shrinks_queue|]. split; [by rewrite (sh_pause _ _ Hsh)|done].
  - destruct (scheduled_ok used outs _ c throttle so c1 mro c2 tensors tok Hok Hmay E1 E2) as (_ & Eqq & Ep & Hck & _). cbn [co_sched]. by rewrite Eqq, Ep.
  - destruct (scheduled_ok used outs _ c throttle so c1 mro c2 tensors tok Hok Hmay E1 E2) as (Hok2 & Eqq & Ep & Hck & _). rewrite Eq in Hok2.
    destruct (finishes_ok used outs rest e q _ _ c1' (core_queue _ _ _ _ _ _ _ _ rest Hok2) Hf) as (Hsh & Hck' & _). cbn [co_sched] in *.
    split; [rewrite <-Eqq; by apply shrinks_queue|]. split; [rewrite (sh_pause _ _ Hsh); congruence|]. intros H. by apply Hck', Hck.
Qed.

(** The head of the queue advances. *)
Lemma turn_advances used outs q tensors tok (c : ViewCore) o c' id tl r r' :
  may_drain cfg n → core_ready used outs c → turn false q tensors tok c o c' → queue_of (co_sched c) = id :: tl →
  sc_requests (co_sched c) !! id = Some r → sc_requests (co_sched c') !! id = Some r' → (progress r < progress r')%Z.
Proof.
  intros Hd Hready Ht Hq Hr Hr'. pose proof (ready_has_requests _ _ c Hready ltac:(by rewrite Hq)) as Hhas. destruct Hready as (Hidle & Hclock & Hpause).
  pose proof (more_to_come _ _ c id r Hidle Hr) as Hmore. pose proof (in_flight _ _ c id r Hidle Hr) as Hfly. destruct Hidle as [Hok Hmay].
  unfold progress, sr_num_tokens in *. destruct Ht as [?|e rest o c1' ? _ _|so c1 mro c2 E1 E2 Eq|so c1 mro c2 e rest o c1' E1 E2 Eq Hf]; [congruence|congruence|..].
  - destruct (scheduled_ok used outs _ c false so c1 mro c2 tensors tok Hok Hmay E1 E2) as (_ & _ & _ & _ & Hhead).
    destruct (Hhead id r tl eq_refl Hd Hclock Hpause Hq Hr Hmore) as (r2 & Hr2 & E0 & Hc & Hor).
    cbn [co_sched] in Hr'. rewrite Hr2 in Hr'. injection Hr' as <-. rewrite E0. destruct Hor as [Hlt|Hph]; [lia|].
    destruct (Hfly Hph) as (e & Eq' & _). by rewrite Eq in Eq'.
  - destruct (scheduled_ok used outs _ c false so c1 mro c2 tensors tok Hok Hmay E1 E2) as (Hok2 & _ & _ & _ & Hhead).
    destruct (Hhead id r tl eq_refl Hd Hclock Hpause Hq Hr Hmore) as (r2 & Hr2 & E0 & Hc & Hor). rewrite Eq in Hok2.
    destruct (finishes_ok used outs rest e q _ _ c1' (core_queue _ _ _ _ _ _ _ _ rest Hok2) Hf) as (_ & _ & Hobj).
    destruct (Hobj id r' Hr') as (r2' & Hr2' & _ & _ & Et & Ec). cbn [co_sched] in Hr2'. rewrite Hr2 in Hr2'. injection Hr2' as <-.
    rewrite Et, Ec, E0, length_app. destruct Hor as [Hlt|Hph]; [lia|]. destruct (Hfly Hph) as (e' & Eq' & Htok). rewrite Eq' in Eq. injection Eq as <- _.
    destruct (tokens_for e'.2 id); [done|]. cbn [length]. lia.
Qed.

(** ** Steps *)

Lemma batches_fit used outs (c : ViewCore) : core_idle used outs c →
  max_concurrent_batches cfg = 1%Z ∧ co_batch_queue c = [] ∨ max_concurrent_batches cfg = 2%Z.
Proof.
  intros [_ Hmay]. unfold max_concurrent_batches, may_schedule in *. rewrite Hpp. destruct (sg_async_scheduling cfg); [by right|]. left.
  split; [done|]. destruct (co_batch_queue c); [done|]. cbn in Hmay. lia.
Qed.

(** One step of an engine that is not throttled. *)
Lemma step_remaining used outs (c : ViewCore) q tensors tok :
  may_drain cfg n → core_ready used outs c →
  ∃ o c', step_fn cfg visit false q tensors tok c = (Ok o, c') ∧ core_ready used (outs ++ o) c'
  ∧ (remaining cfg (co_sched c') ≤ Z.max 0 (remaining cfg (co_sched c) - 1))%Z
  ∧ (queue_of (co_sched c) = [] → queue_of (co_sched c') = []).
Proof.
  intros Hd Hready. pose proof Hready as (Hidle & _ & _). destruct (step_fn_ok cfg n z visit Hz Hvisit Hpp m0 used outs c false q tensors tok Hidle) as (o & c' & E & Hidle').
  exists o, c'. split; [done|]. pose proof (step_fn_turn false q tensors tok c c' o (batches_fit _ _ c Hidle) E) as Ht.
  destruct (turn_shrinks used outs false q tensors tok c o c' Hidle Ht) as (Hsub & Ep & Hck).
  assert (core_ready used (outs ++ o) c') as Hready' by (destruct Hready as (_ & Hc & Hp); split; [done|]; split; [by apply Hck|congruence]).
  split; [done|]. pose proof (ready_sched _ _ _ Hready) as Hs. pose proof (ready_sched _ _ _ Hready') as Hs'.
  destruct (queue_of (co_sched c)) as [|id tl] eqn:Eq.
  - apply sublist_nil_r in Hsub. unfold remaining. rewrite Eq, Hsub. split; [lia|done].
  - split; [|done]. destruct (proj2 (so_known _ _ _ Hs id)) as [r Hr]; [fold (queue_of (co_sched c)); rewrite Eq; by left|].
    assert (remaining cfg (co_sched c') < remaining cfg (co_sched c))%Z; [|lia].
    apply (remaining_falls cfg n _ _ id tl r Hs Hs' Eq Hr); [by rewrite Eq|]. intros r' Hr'. exact (turn_advances used outs q tensors tok c o c' id tl r r' Hd Hready Ht Eq Hr Hr').
Qed.

(** Steps of the busy loop that are not throttled. *)
Definition turns (l : list (list (list string) * list (LayerTensors (B := B)) * (string → Z))) : list ViewEvent :=
  map (λ t, CoreStep false t.1.1 t.1.2 t.2) l.

Lemma turns_remaining l : ∀ used outs c,
  may_drain cfg n → core_ready used outs c →
  ∃ o c', handle_all cfg visit (turns l) c = (Ok o, c') ∧ core_ready used (outs ++ o) c'
  ∧ (remaining cfg (co_sched c') ≤ Z.max 0 (remaining cfg (co_sched c) - Z.of_nat (length l)))%Z.
Proof.
  induction l as [|[[q tensors] tok] l IH]; intros used outs c Hd Hready.
  { exists [], c. rewrite app_nil_r. split; [done|]. split; [done|]. cbn. lia. }
  destruct (step_remaining used outs c q tensors tok Hd Hready) as (o1 & c1 & E1 & Hr1 & Hm1 & _). destruct (IH used (outs ++ o1) c1 Hd Hr1) as (o2 & c2 & E2 & Hr2 & Hm2).
  exists (o1 ++ o2), c2. cbn [turns map handle_all handle fst snd]. rewrite st_bind_eq, E1, st_bind_eq. fold (turns l). rewrite E2. split; [done|].
  rewrite app_assoc. split; [done|]. cbn [length]. lia.
Qed.

(** So many steps leave no request. *)
Lemma turns_drain l used outs (c : ViewCore) :
  may_drain cfg n → core_ready used outs c → (Z.of_nat (length (queue_of (co_sched c))) * span cfg ≤ Z.of_nat (length l))%Z →
  ∃ o c', handle_all cfg visit (turns l) c = (Ok o, c') ∧ core_ready used (outs ++ o) c' ∧ sc_requests (co_sched c') = ∅.
Proof.
  intros Hd Hready Hlen. destruct (turns_remaining l used outs c Hd Hready) as (o & c' & E & Hready' & Hm). exists o, c'. split; [done|]. split; [done|].
  pose proof (ready_sched _ _ _ Hready) as Hs. pose proof (ready_sched _ _ _ Hready') as Hs'. destruct (remaining_bound cfg n _ Hs) as [[_ Hb] _].
  destruct (remaining_bound cfg n _ Hs') as [_ Hpos]. destruct (queue_of (co_sched c')) as [|id tl] eqn:Eq; [|specialize (Hpos ltac:(done)); lia].
  apply map_empty. intros id. destruct (sc_requests (co_sched c') !! id) eqn:Er; [|done]. exfalso.
  assert (id ∈ queue_of (co_sched c')) as Hin by (apply (so_known _ _ _ Hs'); by eexists). rewrite Eq in Hin. by apply not_elem_of_nil in Hin.
Qed.
End Runs.
