(* ===== verification/CoreAnswers.v ===== *)
(** * The core of the engine answers

    A request that leaves the scheduler without having been aborted by its client was told
    why ([heard]); the clock of the scheduler stays right through all events.  With
    [CoreDrains]: once the engine runs unpaused, every request is answered.

    Where the budget leaves a long prefill two tokens ([SchedulerFair.fair_config]), all
    running requests but one have a single token to compute, and one that took a single
    token while it held others has one token to compute at a time.  So no step of the
    engine gives several tokens to a request that has begun to decode ([fresh_fair]): what
    the buffered append of the attention layers needs ([EngineFit.run_uncut]). *)

From Stdlib Require Import ZArith Lia Permutation.
From stdpp Require Import base tactics numbers list option gmap strings.
From S2P Require Import Prelude FreeQueue BlockPool PoolState KVManager KVTables SchedRequest.
From S2P Require Import Torch Quant Tab Triton Stores StagedTensor InputBatch BlockTables RequestStates Lifecycle RunnerV2.
From S2P Require Import RunnerView RunnerSteps RunnerBatch RunnerRun Engine ManagedEngine ServedV2 EngineFit.
From S2P Require Import Scheduler SchedCalls SchedulerPass SchedulerStep SchedulerEvents SchedulerView SchedulerHead SchedulerFair EngineCore WorkerModel CoreServed CoreRun CoreDrains.

(** ** Reasons *)

Definition has_reason (o : EngineCoreOutput) : Prop := is_Some (eo_finish_reason o).

(** What was told of a request: its tokens, then a reason. *)
Definition answered (outs : list EngineCoreOutput) : Prop := ∃ before final, outs = before ++ [final] ∧ unfinished before ∧ has_reason final.

Lemma finished_has_reason st : is_finished st = true → is_Some (get_finished_reason st).
Proof. destruct st; try done; intros _; by eexists. Qed.

Lemma talk_answered outs : talk_ok None outs → Exists has_reason outs → answered outs.
Proof.
  intros (before & final & -> & Hb & Hl) [He|He]%Exists_app.
  - exfalso. apply Exists_exists in He as (o & Ho & [x Hx]). unfold unfinished in Hb. rewrite Forall_forall in Hb. specialize (Hb o Ho). cbn in Hb. congruence.
  - destruct final as [|f [|f' l]]; [by apply Exists_nil in He| |cbn in Hl; lia]. exists before, f. split; [done|]. split; [done|].
    apply Exists_cons in He as [?|?%Exists_nil]; done.
Qed.

(** A request that stops is told why. *)
Lemma stopped_reason cfg id gen r : object_ok cfg id r → settled cfg gen r = None → Exists has_reason (output_for cfg id gen r).
Proof.
  intros (_ & _ & _ & Hlen & _ & _ & Hmin). unfold settled, output_for.
  destruct (append_until_stop_ok cfg gen r Hmin ltac:(lia)) as (kept & stopped & r1 & -> & _ & H). destruct stopped; [|done].
  intros _. destruct H as [(st & reason & -> & Hf) Hne]. destruct kept; [done|]. apply Exists_cons. left. by apply finished_has_reason.
Qed.

Section Runs.
Context `{TF : TorchFloat} {B : Type}.
Variables (cfg : SchedConfig) (n : nat) (z : Sizes) (visit : list string → list string).
Abbreviation kv := (sg_kv cfg).
Hypotheses (Hz : sizes_fit cfg z) (Hvisit : ∀ l, visit l ≡ₚ l) (Hpp : sg_pp_size cfg = 1%Z).
Variable m0 : Manager.

Abbreviation ViewCore := (Core (ViewState B)).
Abbreviation ViewEvent := (Event (list (LayerTensors (B := B)))).
#[local] Hint Extern 0 (ModelWorker _ _) => exact (view_worker z) : typeclass_instances.
Abbreviation core_ok := (core_ok cfg n z m0).
Abbreviation core_idle := (core_idle cfg n z m0).

(** ** Who leaves *)

(** Requests leave; each of them is one of [ab] or told why in [o]. *)
Definition leaves (ab : list string) (o : list EngineCoreOutput) (s s' : Scheduler) : Prop :=
  ∀ id, (sc_requests s !! id = None → sc_requests s' !! id = None)
      ∧ (is_Some (sc_requests s !! id) → sc_requests s' !! id = None → id ∈ ab ∨ Exists has_reason (told id o)).

Lemma leaves_same ab o s s' : sc_requests s' = sc_requests s → leaves ab o s s'.
Proof. intros E id. rewrite E. split; [done|]. intros [r Hr] Hn. congruence. Qed.

Lemma leaves_mono ab ab' o s s' : (∀ id, id ∈ ab → id ∈ ab') → leaves ab o s s' → leaves ab' o s s'.
Proof. intros Hsub H id. destruct (H id) as [H1 H2]. split; [done|]. intros Hs Hn. destruct (H2 Hs Hn); auto. Qed.

Lemma leaves_trans ab1 ab2 o1 o2 s1 s2 s3 : leaves ab1 o1 s1 s2 → leaves ab2 o2 s2 s3 → leaves (ab1 ++ ab2) (o1 ++ o2) s1 s3.
Proof.
  intros H12 H23 id. destruct (H12 id) as [A1 A2], (H23 id) as [B1 B2]. split; [auto|]. intros Hs Hn. rewrite elem_of_app, told_app, Exists_app.
  destruct (sc_requests s2 !! id) eqn:E; [destruct (B2 ltac:(by eexists) Hn); tauto|]. destruct (A2 Hs eq_refl); tauto.
Qed.

Lemma finish_leaves used outs flight (c : ViewCore) ids gone c' :
  core_ok used outs flight c → on_sched (finish_requests visit ids FINISHED_ABORTED) c = (Ok gone, c') →
  leaves gone [] (co_sched c) (co_sched c') ∧ (∀ id, id ∈ gone → match ids with Some l => id ∈ l | None => True end)
  ∧ (clock_ok (co_sched c) → clock_ok (co_sched c')).
Proof.
  intros Hok E%on_sched_ok. destruct (ck_system _ _ _ _ _ _ _ _ Hok) as (k0 & H & _). destruct (sy_calls _ _ _ _ _ _ H) as [granted Hc].
  destruct (finish_requests_ok cfg n visit k0 ids FINISHED_ABORTED _ granted Hvisit eq_refl (sy_sched _ _ _ _ _ _ H) Hc)
    as (gone' & s' & g & E' & _ & _ & _ & Hg & R & _). rewrite E in E'. injection E' as <- <-.
  pose proof (finish_requests_shrinks visit ids FINISHED_ABORTED (co_sched c)) as Hsh. unfold st_at in Hsh. rewrite E in Hsh. cbn [snd] in Hsh.
  split; [|split].
  - intros id. rewrite R. split; [by intros ->; case_decide|]. intros Hs Hn. left. case_decide; [done|]. rewrite Hn in Hs. by destruct Hs.
  - intros id Hid. by apply Hg.
  - intros [Hpos Hck]. split; [by rewrite (sh_step _ _ Hsh)|]. intros id r. rewrite R, (sh_step _ _ Hsh). case_decide; [done|]. apply Hck.
Qed.

Lemma aborts_leave used outs flight (c : ViewCore) q c' :
  core_ok used outs flight c → _process_aborts_queue visit q c = (Ok tt, c') → leaves (concat q) [] (co_sched c) (co_sched c').
Proof.
  intros Hok. destruct q as [|ids q]; [by intros [= <-]; apply leaves_same|]. unfold _process_aborts_queue, abort_requests.
  intros (gone & c1 & E & [= <-])%st_bind_ok. destruct (finish_leaves used outs flight c _ gone c1 Hok E) as (H & Hg & _).
  by eapply leaves_mono; [exact Hg|].
Qed.

Lemma output_leaves used outs flight e (c : ViewCore) o c' :
  core_ok used outs (e :: flight) c → on_sched (update_from_output cfg e.1 e.2) c = (Ok o, c') → leaves [] o (co_sched c) (co_sched c').
Proof.
  intros Hok E%on_sched_ok. destruct (ck_system _ _ _ _ _ _ _ _ Hok) as (k0 & H & _). destruct (system_output cfg n k0 _ _ e flight H) as (s' & E' & _ & R).
  rewrite E in E'. injection E' as -> <-. intros id. rewrite R. split; [by intros ->|]. intros [r Hr]. rewrite Hr.
  change (Some r ≫= settled cfg (tokens_for e.2 id)) with (settled cfg (tokens_for e.2 id) r). intros Hn. right.
  pose proof (Forall_inv (sy_flight _ _ _ _ _ _ H)) as He. rewrite told_rounds by apply He. case_decide as Hid.
  - unfold round_output. rewrite Hr. apply stopped_reason; [|done]. by apply (so_object _ _ _ (sy_sched _ _ _ _ _ _ H)).
  - rewrite flight_tokens in Hn by done. by rewrite settled_nil in Hn.
Qed.

Lemma finishes_leave used outs flight e q (c : ViewCore) o c' :
  core_ok used outs (e :: flight) c → finishes cfg visit q e c o c' → leaves (concat q) o (co_sched c) (co_sched c').
Proof.
  intros Hok (c1 & E1 & E2). destruct (core_aborts cfg n z visit Hvisit m0 used outs (e :: flight) c q Hok) as (c1' & E1' & Hok1 & _).
  rewrite E1 in E1'. injection E1' as <-. rewrite <-(app_nil_r (concat q)).
  exact (leaves_trans _ _ [] o _ _ _ (aborts_leave used outs _ c q c1 Hok E1) (output_leaves used outs flight e c1 o c' Hok1 E2)).
Qed.

Lemma schedule_leaves used outs flight (c : ViewCore) throttle so c1 mro c2 tensors tok :
  core_ok used outs flight c → may_schedule cfg flight → on_sched (schedule cfg visit throttle) c = (Ok so, c1) →
  on_model (run_model so tensors tok) c1 = (Ok mro, c2) → leaves [] [] (co_sched c) (co_sched c2).
Proof.
  intros Hok Hmay E1%on_sched_ok [_ E2]%on_model_queue id. rewrite E2.
  destruct (ck_system _ _ _ _ _ _ _ _ Hok) as (k0 & H & _). destruct (sy_calls _ _ _ _ _ _ H) as [granted Hc].
  destruct (schedule_ok cfg n visit (sf_watermark _ _ Hz) (sf_positive _ _ Hz) (proj1 (sf_tokens _ _ Hz)) throttle k0 _ granted (sy_sched _ _ _ _ _ _ H) Hc)
    as (s' & s & p & kept & dropped & new & rest & g & E & _ & Hstep). rewrite E in E1. injection E1 as _ <-.
  rewrite (requests_kept cfg n _ _ _ _ _ _ _ _ _ _ id Hstep). split; [done|]. intros [r Hr] Hn. congruence.
Qed.

Lemma turn_leaves used outs throttle q tensors tok (c : ViewCore) o c' :
  core_idle used outs c → turn cfg z visit throttle q tensors tok c o c' → leaves (concat q) o (co_sched c) (co_sched c').
Proof.
  intros [Hok Hmay] [_|e rest o' c1' _ Eq Hf|so c1 mro c2 E1 E2 Eq|so c1 mro c2 e rest o' c1' E1 E2 Eq Hf].
  - by apply leaves_same.
  - rewrite Eq in Hok. exact (finishes_leave used outs rest e q _ _ c1' (core_queue _ _ _ _ _ _ _ _ rest Hok) Hf).
  - eapply leaves_mono; [|exact (schedule_leaves used outs _ c throttle so c1 mro c2 tensors tok Hok Hmay E1 E2)]. by intros id ?%not_elem_of_nil.
  - destruct (scheduled_ok cfg n z visit Hz Hvisit Hpp m0 used outs _ c throttle so c1 mro c2 tensors tok Hok Hmay E1 E2) as (Hok2 & _). rewrite Eq in Hok2.
    exact (leaves_trans [] _ [] _ _ _ _ (schedule_leaves used outs _ c throttle so c1 mro c2 tensors tok Hok Hmay E1 E2)
      (finishes_leave used outs rest e q _ _ c1' (core_queue _ _ _ _ _ _ _ _ rest Hok2) Hf)).
Qed.

(** ** Through all events *)

(** The requests a client gave up in an event. *)
Definition aborted_by (ev : ViewEvent) : list string :=
  match ev with AbortRequests ids => ids | CoreStep _ q _ _ => concat q | _ => [] end.

(** Of the requests [used], those that left were aborted or told why. *)
Definition heard (used ab : list string) (outs : list EngineCoreOutput) (s : Scheduler) : Prop :=
  ∀ id, id ∈ used → sc_requests s !! id = None → id ∈ ab ∨ Exists has_reason (told id outs).

Lemma heard_leaves used ab ab' outs o s s' : heard used ab outs s → leaves ab' o s s' → heard used (ab' ++ ab) (outs ++ o) s'.
Proof.
  intros Hh Hl id Hid Hn. destruct (Hl id) as [_ H]. rewrite elem_of_app, told_app, Exists_app.
  destruct (sc_requests s !! id) eqn:E; [destruct (H ltac:(by eexists) Hn); tauto|]. destruct (Hh id Hid E); tauto.
Qed.

Lemma told_abort id gone : id ∈ gone → Exists has_reason (told id (map (λ id, mkEngineOutput id [] (Some ABORT) None) gone)).
Proof.
  intros Hid. apply Exists_exists. exists (mkEngineOutput id [] (Some ABORT) None). split; [|by eexists].
  unfold told. rewrite list_elem_of_In, filter_In, in_map_iff. split; [|by rewrite bool_decide_eq_true_2]. exists id. split; [done|by apply list_elem_of_In].
Qed.

Lemma add_heard used ab outs (c : ViewCore) id prompt params c' :
  heard used ab outs (co_sched c) → clock_ok (co_sched c) → on_sched (add_request (new_request id prompt params)) c = (Ok tt, c') →
  heard (id :: used) ab outs (co_sched c') ∧ clock_ok (co_sched c').
Proof.
  intros Hh [Hpos Hclock] E%on_sched_ok. unfold add_request in E. rewrite st_bind_eq in E. cbn [st_get] in E. apply st_bind_ok in E as ([] & s1 & E1 & E).
  assert (s1 = co_sched c) as -> by (unfold st_raise_if, st_lift in E1; by injection E1). rewrite st_bind_eq in E. cbn in E. injection E as <-. cbn [sc_requests sc_current_step]. split.
  - intros x Hx. cbn. rewrite lookup_insert. case_decide as Ex; [done|]. apply Hh. by apply elem_of_cons in Hx as [->|].
  - split; [done|]. intros x r. cbn. rewrite lookup_insert. case_decide; [intros [= <-]; cbn; lia|apply Hclock].
Qed.

Lemma pause_heard used ab outs flight (c : ViewCore) mode o c' :
  core_ok used outs flight c → heard used ab outs (co_sched c) → clock_ok (co_sched c) → pause_scheduler visit mode c = (Ok o, c') →
  heard used ab (outs ++ o) (co_sched c') ∧ clock_ok (co_sched c').
Proof.
  intros Hok Hh Hclock (gone & c1 & E1 & E)%st_bind_ok. apply st_bind_ok in E as ([] & c2 & E2%on_sched_ok & [= <- <-]).
  injection E2 as E2. assert (leaves gone [] (co_sched c) (co_sched c1) ∧ clock_ok (co_sched c1)) as [Hl Hck].
  { destruct mode; [|injection E1 as <- <-; by split; [apply leaves_same|]..]. destruct (finish_leaves used outs flight c None gone c1 Hok E1) as (Hl & _ & Hck). by split; [|apply Hck]. }
  rewrite <-E2. split; [|exact Hck]. intros id Hid Hn. cbn in Hn. rewrite told_app, Exists_app. destruct (Hl id) as [_ H].
  destruct (sc_requests (co_sched c) !! id) eqn:Er; [|destruct (Hh id Hid Er); tauto].
  destruct (H ltac:(by eexists) Hn) as [Hg|Hg]; [|by apply Exists_nil in Hg]. right. right. apply told_abort. by rewrite Hvisit.
Qed.

Lemma handle_heard used ab outs (c : ViewCore) ev o c' :
  core_idle used outs c → heard used ab outs (co_sched c) → clock_ok (co_sched c) → handle cfg visit ev c = (Ok o, c') →
  heard (added ev ++ used) (aborted_by ev ++ ab) (outs ++ o) (co_sched c') ∧ clock_ok (co_sched c').
Proof.
  intros Hidle Hh Hclock. pose proof Hidle as [Hok _]. destruct ev as [id prompt params|ids|mode| |throttle q tensors tok]; cbn [handle added aborted_by app].
  - intros ([] & c1 & E & [= <- <-])%st_bind_ok. rewrite app_nil_r. by eapply add_heard.
  - intros ([] & c1 & E & [= <- <-])%st_bind_ok. unfold abort_requests in E. apply st_bind_ok in E as (gone & c2 & E & [= <-]).
    destruct (finish_leaves used outs _ c _ gone c2 Hok E) as (Hl & Hg & Hck). split; [|by apply Hck]. eapply heard_leaves; [exact Hh|]. by eapply leaves_mono.
  - intros E. by eapply pause_heard.
  - intros ([] & c1 & E%on_sched_ok & [= <- <-])%st_bind_ok. injection E as E. rewrite app_nil_r, <-E. by split.
  - intros E. pose proof (step_fn_turn cfg z visit throttle q tensors tok c c' o (batches_fit cfg n z Hpp m0 used outs c Hidle) E) as Ht.
    split; [eapply heard_leaves; [exact Hh|by eapply turn_leaves]|].
    by apply (turn_shrinks cfg n z visit Hz Hvisit Hpp m0 used outs throttle q tensors tok c o c' Hidle Ht).
Qed.

Lemma heard_mono used ab ab' outs s : (∀ id, id ∈ ab → id ∈ ab') → heard used ab outs s → heard used ab' outs s.
Proof. intros Hsub H id Hid Hn. destruct (H id Hid Hn); auto. Qed.

Lemma handle_all_heard events : ∀ used ab outs (c : ViewCore),
  core_idle used outs c → events_ok cfg events → (∀ id, id ∈ concat (map added events) → id ∉ used) →
  heard used ab outs (co_sched c) → clock_ok (co_sched c) →
  ∃ o used' c', handle_all cfg visit events c = (Ok o, c') ∧ core_idle used' (outs ++ o) c' ∧ clock_ok (co_sched c')
  ∧ (∀ id, id ∈ used' ↔ id ∈ used ∨ id ∈ concat (map added events))
  ∧ heard used' (concat (map aborted_by events) ++ ab) (outs ++ o) (co_sched c').
Proof.
  induction events as [|ev events IH]; intros used ab outs c Hc [Hnd Hev] Hnew Hh Hck.
  { exists [], used, c. rewrite app_nil_r. do 3 (split; [done|]). split; [intros id; rewrite elem_of_nil; tauto|done]. }
  apply Forall_cons in Hev as [Hev Hevs]. cbn [map concat] in Hnd, Hnew. apply NoDup_app in Hnd as (_ & Hd & Hnd).
  destruct (handle_ok cfg n z visit Hz Hvisit Hpp m0 used outs c ev Hc Hev) as (o1 & c1 & E1 & H1); [intros id Hid; apply Hnew, elem_of_app; by left|].
  destruct (handle_heard used ab outs c ev o1 c1 Hc Hh Hck E1) as [Hh1 Hck1].
  destruct (IH (added ev ++ used) (aborted_by ev ++ ab) (outs ++ o1) c1 H1) as (o2 & used' & c' & E2 & H2 & Hck2 & Hu & Hh2); [by split| |done|done|].
  { intros id Hid [Ha|Hu]%elem_of_app; [by apply (Hd id)|]. apply (Hnew id); [apply elem_of_app; by right|done]. }
  exists (o1 ++ o2), used', c'. cbn [handle_all map concat]. rewrite st_bind_eq, E1, st_bind_eq, E2, app_assoc. do 3 (split; [done|]). split.
  - intros id. rewrite Hu, !elem_of_app. tauto.
  - eapply heard_mono; [|exact Hh2]. intros id. rewrite !elem_of_app. tauto.
Qed.

(** Running on after other events. *)
Lemma handle_all_app {W T} {MW : ModelWorker W T} ev1 ev2 (c : Core W) o1 c1 r :
  handle_all cfg visit ev1 c = (Ok o1, c1) → handle_all cfg visit ev2 c1 = r →
  handle_all cfg visit (ev1 ++ ev2) c = match r with (Ok o2, c2) => (Ok (o1 ++ o2), c2) | (Err e, c2) => (Err e, c2) end.
Proof.
  revert c o1. induction ev1 as [|ev ev1 IH]; intros c o1; cbn [app handle_all].
  { intros [= <- <-] ->. by destruct r as [[o|e] c2]. }
  intros (o & c2 & E1 & E)%st_bind_ok Er. apply st_bind_ok in E as (rest & c3 & E2 & [= <- <-]).
  rewrite st_bind_eq, E1, st_bind_eq, (IH _ _ E2 Er). destruct r as [[o2|e] c4]; [|done]. by rewrite st_ret_eq, app_assoc.
Qed.

Lemma turns_added (l : list (list (list string) * list (LayerTensors (B := B)) * (string → Z))) : concat (map added (turns l)) = [].
Proof. induction l as [|t l IH]; [done|]. exact IH. Qed.

Lemma turns_ok l : events_ok cfg (turns (B := B) l).
Proof. split; [rewrite turns_added; constructor|]. apply List.Forall_forall. by intros ev (t & <- & _)%in_map_iff. Qed.

(** ** No block is lost *)

Lemma drained_blocks s : sched_ok cfg n s → sc_requests s = ∅ →
  queue_of s = [] ∧ Pool.get_num_free_blocks (mg_pool (sc_manager s)) = (Z.of_nat n - 1)%Z.
Proof.
  intros Hs E. assert (queue_of s = []) as Eq.
  { destruct (queue_of s) as [|id l] eqn:Eq; [done|]. exfalso. destruct (proj2 (so_known _ _ _ Hs id)) as [r Hr]; [fold (queue_of s); rewrite Eq; by left|].
    by rewrite E, lookup_empty in Hr. }
  split; [done|]. destruct (so_tables _ _ _ Hs) as [Hok Ht]. rewrite (free_count n _ Hok), (held_alone _ EmptyString).
  - destruct (Ht EmptyString) as [_ ->]; [cbn; lia|]. apply app_eq_nil in Eq as [-> _]. apply not_elem_of_nil.
  - intros x _. destruct (Ht x) as [_ H]. apply H. apply app_eq_nil in Eq as [-> _]. apply not_elem_of_nil.
Qed.
End Runs.

(** ** Chunks *)

(** At most the token sampled last is left to compute. *)
Definition caught_up (v : ReqView) : Prop := (Z.of_nat (length (sl_tokens (rq_slot v))) ≤ sl_computed (rq_slot v) + 1)%Z.

Section Fair.
Context `{TF : TorchFloat} {B : Type}.
Variables (cfg : SchedConfig) (n : nat) (z : Sizes) (visit : list string → list string).
Abbreviation kv := (sg_kv cfg).
Hypotheses (Hz : sizes_fit cfg z) (Hvisit : ∀ l, visit l ≡ₚ l) (Hpp : sg_pp_size cfg = 1%Z) (Hfair : fair_config cfg).

Abbreviation Log := (list (WorkerStep (B := B))).
Abbreviation spec := (spec_steps (B := B) z ∅).
Abbreviation sched_after log := (fold_left sched_step (spec log) sched_init).

Record fair_ok (running : list string) (view : Requests) (log : Log) (flight : Flight) : Prop := {
  fa_one : ∃ x, ∀ id v, id ∈ running → id ≠ x → view !! id = Some v → caught_up v;
  fa_quiet : ∀ id v, id ∈ running → view !! id = Some v → (sl_computed (rq_slot v) < Z.of_nat (sl_prefill (rq_slot v)))%Z → pending flight id = [];
  fa_decoded : ∀ id v, id ∈ sd_decoded (sched_after log) → view !! id = Some v → (0 < sl_computed (rq_slot v))%Z → caught_up v;
  fa_uncut : run_uncut sched_init (spec log)
}.

(** Requests that leave and outputs that come back keep it. *)
Lemma fair_leave running running' view log flight flight' :
  (∀ id, id ∈ running' → id ∈ running) → (∀ id, pending flight id = [] → pending flight' id = []) →
  fair_ok running view log flight → fair_ok running' view log flight'.
Proof.
  intros Hr Hf [(x & F1) F2 F3 F4]. split; try done.
  - exists x. intros id v Hid. by apply F1, Hr.
  - intros id v Hid Hv Hlt. by apply Hf, (F2 id v); [apply Hr|..].
Qed.

Lemma run_uncut_snoc steps (st : EngineStep (B := B)) : ∀ sd,
  run_uncut sd steps → step_uncut (fold_left sched_step steps sd) st → run_uncut sd (steps ++ [st]).
Proof. induction steps as [|st' steps IH]; intros sd; [done|]. intros [H1 H2] H. split; [done|]. by apply IH. Qed.

(** ** One step *)

Section OneStep.
Variables (k0 : Manager) (s0 s s' : Scheduler) (view : Requests) (log : Log) (flight : Flight) (throttle : bool).
Variables (p : Pass) (kept dropped new rest : list string) (g granted : gmap string Z).
Hypotheses (H0 : system_ok cfg n k0 s0 view flight) (Hm : may_schedule cfg flight) (Hclock : clock_ok s0).
Hypotheses (Hcall : called kv k0 (sc_finished_req_ids s0) (sc_manager s0) g) (Hreq : schedule_requests cfg throttle (tick s0) = (Ok p, s)).
Hypothesis (Hstep : step_result cfg n k0 s0 s s' p kept dropped new rest granted).
Hypothesis (Hf : fair_ok (sc_running s0) view log flight).

Let so := output_of visit s p.
Let counts := ps_num_scheduled_tokens p.
Let view' := updated_view z view so.
Let Hpass : pass_inv cfg n k0 (tick s0) kept dropped new rest s p granted := re_pass _ _ _ _ _ _ _ _ _ _ _ _ Hstep.

Let queues := step_queues cfg n k0 s0 s s' view flight p kept dropped new rest granted H0 Hstep.
Let count_of := count_entry cfg n z visit Hz Hvisit k0 s0 s s' view flight p kept dropped new rest granted H0 Hm Hstep.
Let slot_of := view_step_slot cfg n z visit Hz Hvisit k0 s0 s s' view flight p kept dropped new rest granted H0 Hm Hstep.
Let kept_of := kept_object cfg n z Hz k0 s0 s s' view flight p kept dropped new rest granted H0 Hstep.
Let new_of := new_object cfg n k0 s0 s s' view flight p kept dropped new rest granted H0 Hm Hstep.
Let view_of := step_view_eq cfg n z visit Hvisit k0 s0 s s' view flight p kept dropped new rest granted H0 Hstep.

(** What a running request has to compute, by the worker's view. *)
Lemma todo_left id r v : sc_requests s0 !! id = Some r → view !! id = Some v → view_matches (sc_manager s0) id r (pending flight id) v →
  todo_of (tick s0) id = (Z.of_nat (length (sl_tokens (rq_slot v))) - sl_computed (rq_slot v))%Z.
Proof.
  intros Hr Hv Hmatch. unfold todo_of. cbn [tick sc_requests]. rewrite Hr. unfold todo.
  rewrite (live_tokens cfg n k0 s0 view flight id r v H0 Hm Hr Hmatch). destruct Hmatch as ((-> & _) & _). done.
Qed.

Lemma one_before : ∃ x, one_prefill (tick s0) x.
Proof.
  destruct (fa_one _ _ _ _ Hf) as [x Hx]. exists x. split.
  - intros id Hid Hne. destruct (proj2 (so_known _ _ _ (sy_sched _ _ _ _ _ _ H0) id)) as [r Hr]; [apply elem_of_app; by left|].
    destruct (sy_live _ _ _ _ _ _ H0 id r Hid Hr) as (v & Hv & Hmatch). rewrite (todo_left id r v Hr Hv Hmatch).
    specialize (Hx id v Hid Hne Hv). unfold caught_up in Hx. lia.
  - intros r Hr Hid Hmore. cbn [tick sc_requests sc_running sc_current_step] in *. split; [|by apply Hclock in Hr].
    destruct (sy_live _ _ _ _ _ _ H0 x r Hid Hr) as (v & Hv & Hmatch). pose proof (todo_left x r v Hr Hv Hmatch) as Et.
    unfold todo_of in Et. cbn [tick sc_requests] in Et. rewrite Hr in Et. rewrite (sy_places _ _ _ _ _ _ H0 x r Hr).
    destruct Hmatch as ((_ & _ & [[P1 P2]|[P1 P2]]) & _); [|lia]. rewrite (fa_quiet _ _ _ _ Hf x v Hid Hv P1). unfold places. by destruct (sg_async_scheduling cfg).
  - intros id r Hid Hr. cbn [tick sc_requests sc_waiting] in *. rewrite (sy_places _ _ _ _ _ _ H0 id r Hr).
    rewrite (waiting_settled cfg n k0 s0 view flight id H0 Hm Hid). unfold places. by destruct (sg_async_scheduling cfg).
Qed.

(** What a request of the step has to compute, by the view the step updates. *)
Lemma todo_view id v : id ∈ kept ++ new → view' !! id = Some v →
  todo_of (tick s0) id = (Z.of_nat (length (sl_tokens (rq_slot v))) - sl_computed (rq_slot v))%Z.
Proof.
  intros Hid Hv. destruct (slot_of id Hid) as (r & v1 & Hr & Hv1 & (Hc & _) & _ & Htok). assert (v1 = v) as -> by (unfold view', so in Hv; congruence).
  rewrite Hc, <-Htok. unfold todo_of. cbn [tick sc_requests]. apply elem_of_app in Hid as [Hid|Hid].
  - destruct (kept_of id Hid) as (r0 & _ & Hr0 & Hr0' & _).
    assert (r0 = r) as -> by congruence. by rewrite Hr0.
  - destruct (new_of id Hid) as (r0 & Hr0 & Hr0' & _).
    rewrite Hr0' in Hr. injection Hr as <-. rewrite Hr0. destruct queues as (_ & _ & _ & _ & _ & _ & Hnew & _).
    destruct (so_waits _ _ _ (sy_sched _ _ _ _ _ _ H0) id r0 (proj1 (Hnew id Hid)) Hr0) as [_ Ec]. unfold todo. rewrite Ec. done.
Qed.

(** A new request has nothing computed, and gets tokens. *)
Lemma new_slot id v : id ∈ new → view' !! id = Some v → sl_computed (rq_slot v) = 0%Z ∧ pending flight id = [] ∧ id ∈ map fst counts.
Proof.
  intros Hid Hv. destruct (slot_of id ltac:(apply elem_of_app; by right)) as (r & v1 & Hr & Hv1 & (Hc & _) & _). assert (v1 = v) as -> by (unfold view', so in Hv; congruence).
  destruct (new_of id Hid) as (r0 & _ & Hr0 & Hp & _).
  rewrite Hr0 in Hr. injection Hr as <-. rewrite Hc. split; [done|]. split; [done|].
  unfold counts. rewrite (pi_keys _ _ _ _ _ _ _ _ _ _ _ Hpass). apply elem_of_app. by right.
Qed.

(** A kept one is what it was. *)
Lemma kept_slot id v : id ∈ kept → view' !! id = Some v → ∃ v0, view !! id = Some v0 ∧ rq_slot v = rq_slot v0 ∧ id ∈ sc_running s0.
Proof.
  intros Hid Hv. destruct (kept_of id Hid) as (r & v0 & _ & _ & Hv0 & _).
  destruct queues as (_ & _ & _ & _ & _ & Hk & _). destruct (Hk id Hid) as (Hrun & _ & Hnew). exists v0. split; [done|]. split; [|done].
  pose proof (view_of id) as Ev.
  unfold view', so in Hv. rewrite Hv in Ev. rewrite decide_False in Ev by done. destruct (decide _).
  - rewrite Hv0 in Ev. by injection Ev as ->.
  - erewrite kept_view in Ev by done. rewrite Hv0 in Ev. by injection Ev as ->.
Qed.

Section After.
Variables (tok : string → Z) (tensors : list (LayerTensors (B := B))).
Hypothesis (Hview : view = final_view z ∅ log).
Let view1 := step_view z view so (sampled_for tok so).
Let flight1 := flight ++ [(so, view_output view' so tok)].
Let step : WorkerStep (B := B) := (so, tensors, sampled_for tok so).
Let st := spec_of z view step.
Let system1 := step_system_ok cfg n z visit Hz Hvisit k0 s0 s s' view flight p kept dropped new rest granted H0 Hm Hstep tok.

Lemma keys_once : NoDup (map fst counts).
Proof. exact (re_keys _ _ _ _ _ _ _ _ _ _ _ _ Hstep). Qed.

Lemma counted id q : (id, q) ∈ counts → (list_to_map counts : gmap string Z) !! id = Some q.
Proof. intros Hin. apply elem_of_list_to_map_1; [exact keys_once|done]. Qed.

Lemma uncounted id : id ∉ map fst counts → (list_to_map counts : gmap string Z) !! id = None.
Proof. intros Hin. by apply not_elem_of_list_to_map_1. Qed.

(** The tokens that run are those left, or fewer. *)
Lemma count_within id q v : (id, q) ∈ counts → view' !! id = Some v → id ∈ kept ++ new ∧ (0 < q ≤ todo_of (tick s0) id)%Z
  ∧ (q = todo_of (tick s0) id → caught_up (sample_one q (tok id) v)).
Proof.
  intros Hin Hv. destruct (count_of id q Hin) as (r & v' & _ & Hv' & (_ & _ & Hph) & Hq & (_ & _ & E3 & E4 & _) & _ & _).
  assert (v' = v) as -> by (unfold view', so in Hv; congruence). rewrite Z2Nat.id in E4 by lia.
  assert (id ∈ kept ++ new) as Hid.
  { apply (olds_kept cfg n k0 s0 s s' view flight p kept dropped new rest granted H0 Hstep).
    rewrite <-(pi_keys _ _ _ _ _ _ _ _ _ _ _ Hpass). apply list_elem_of_fmap. by exists (id, q). }
  split; [done|]. rewrite (todo_view id v Hid Hv). split; [lia|]. intros Eq. unfold caught_up, sample_one, sampled_tokens. cbn [rq_slot slot_step sl_tokens sl_computed].
  rewrite Z2Nat.id, length_app by lia. destruct (Z.ltb_spec (sl_computed (rq_slot v) + q) (Z.of_nat (sl_prefill (rq_slot v)))); cbn [length]; lia.
Qed.

(** A slot after the step: that before it, or with its count and what it sampled. *)
Lemma slot_after id v1 : view1 !! id = Some v1 → id ∈ kept ++ new ∧ ∃ v, view' !! id = Some v
  ∧ ((id ∉ map fst counts) ∧ v1 = v ∧ tokens_for (view_output view' so tok) id = []
     ∨ ∃ q, (id, q) ∈ counts ∧ v1 = sample_one q (tok id) v ∧ tokens_for (view_output view' so tok) id = sampled_tokens q (tok id) (rq_slot v)).
Proof.
  intros Hv1. assert (id ∈ kept ++ new) as Hid.
  { destruct (sy_known _ _ _ _ _ _ system1 id) as [H|H]; [by exists v1|by rewrite (re_running _ _ _ _ _ _ _ _ _ _ _ _ Hstep) in H|].
    rewrite (re_finished _ _ _ _ _ _ _ _ _ _ _ _ Hstep) in H. by apply not_elem_of_nil in H. }
  split; [done|]. unfold view1 in Hv1. rewrite step_view_lookup in Hv1 by exact keys_once. fold view' in Hv1.
  rewrite view_output_tokens by exact keys_once. change (so_num_scheduled_tokens so) with counts in *.
  destruct (decide (id ∈ map fst counts)) as [Hin|Hnin].
  - apply list_elem_of_fmap in Hin as ([id' q] & -> & Hin). cbn [fst] in *. rewrite (counted id' q Hin) in Hv1 |- *. apply fmap_Some in Hv1 as (v & Hv & ->).
    exists v. split; [done|]. right. exists q. split; [done|]. split; [done|]. by rewrite Hv.
  - rewrite (uncounted id Hnin) in Hv1 |- *. exists v1. split; [done|]. left. done.
Qed.

(** The items of the batch the worker is sent. *)
Lemma item_of it : it ∈ es_batch st → (it.1.1, it.1.2) ∈ counts ∧ ∃ v, view' !! it.1.1 = Some v ∧ it.2 = sl_computed (rq_slot v).
Proof.
  intros Hin. destruct (spec_item view' so _ tensors it keys_once Hin) as [Hb%batch_elem Ec]. split; [done|].
  destruct (count_of _ _ Hb) as (_ & v & _ & Hv & _). exists v. split; [done|]. unfold computed_of in Ec. unfold view', so in Ec. by rewrite Hv in Ec.
Qed.

Lemma of_item id q v : (id, q) ∈ counts → view' !! id = Some v → (id, q, sl_computed (rq_slot v)) ∈ es_batch st.
Proof.
  intros Hin Hv. unfold st, spec_of. cbn [fst snd]. rewrite spec_batch by exact keys_once. apply list_elem_of_In, in_map_iff. exists (id, q). cbn [fst snd].
  split; [unfold computed_of; change (updated_view z view step.1.1) with view'; by rewrite Hv|]. by apply list_elem_of_In, batch_elem.
Qed.

(** One that has begun to decode has one token to compute. *)
Lemma decoding id v : id ∈ kept ++ new → id ∈ sd_decoded (sched_after log) → view' !! id = Some v → (0 < sl_computed (rq_slot v))%Z →
  (todo_of (tick s0) id ≤ 1)%Z.
Proof.
  intros Hid Hd Hv Hpos. rewrite (todo_view id v Hid Hv). apply elem_of_app in Hid as [Hid|Hid].
  - destruct (kept_slot id v Hid Hv) as (v0 & Hv0 & E & _). rewrite E in *. pose proof (fa_decoded _ _ _ _ Hf id v0 Hd Hv0 Hpos) as Hc. unfold caught_up in Hc. lia.
  - destruct (new_slot id v Hid Hv) as (E & _). lia.
Qed.

Lemma uncut_after : step_uncut (sched_after log) st.
Proof.
  apply List.Forall_forall. intros it Hit%list_elem_of_In Hq Hc Hd. destruct (item_of it Hit) as (Hin & v & Hv & Ec). rewrite Ec in Hc.
  destruct (count_within _ _ v Hin Hv) as (Hid & Hle & _). pose proof (decoding _ v Hid Hd Hv Hc). lia.
Qed.

Lemma fair_after : fair_ok (sc_running s') view1 (log ++ [step]) flight1.
Proof.
  destruct one_before as [x Hone].
  destruct (schedule_requests_fair cfg n k0 (tick s0) x throttle g p s (sf_watermark _ _ Hz) (sf_positive _ _ Hz) (proj1 (sf_tokens _ _ Hz)) Hfair
    (tick_ok cfg n s0 (sy_sched _ _ _ _ _ _ H0)) Hone Hcall Hreq) as [F1 [y F2]].
  assert (sched_after (log ++ [step]) = sched_step (sched_after log) st) as Esd
    by (rewrite spec_steps_snoc, fold_left_app, <-Hview; done).
  split.
  - exists y. intros id v1 Hid Hne Hv1. destruct (slot_after id v1 Hv1) as (Hk & v & Hv & [(Hnin & -> & _)|(q & Hin & -> & _)]).
    + destruct (F2 id) as [Hle|Hall]; [|done| |].
      * by rewrite (pi_run _ _ _ _ _ _ _ _ _ _ _ Hpass).
      * rewrite (todo_view id v Hk Hv) in Hle. unfold caught_up. lia.
      * exfalso. apply Hnin, list_elem_of_fmap. by exists (id, todo_of (tick s0) id).
    + destruct (count_within id q v Hin Hv) as (_ & Hle & Hcaught). apply Hcaught.
      destruct (F2 id) as [Hone1|Hall]; [by rewrite (pi_run _ _ _ _ _ _ _ _ _ _ _ Hpass)|done|lia|].
      pose proof (counted _ _ Hin). pose proof (counted _ _ Hall). congruence.
  - intros id v1 Hid Hv1 Hlt. destruct (slot_after id v1 Hv1) as (Hk & v & Hv & Hor). unfold flight1, pending. rewrite map_app, concat_app. cbn [map concat snd].
    rewrite app_nil_r. fold (pending flight id).
    assert (sl_computed (rq_slot v) < Z.of_nat (sl_prefill (rq_slot v)))%Z as Hlt0.
    { destruct Hor as [(_ & -> & _)|(q & Hin & -> & _)]; [done|]. cbn in Hlt. lia. }
    assert (pending flight id = []) as ->.
    { apply elem_of_app in Hk as [Hk|Hk]; [|by apply (new_slot id v Hk Hv)]. destruct (kept_slot id v Hk Hv) as (v0 & Hv0 & E & Hrun). rewrite E in Hlt0.
      by apply (fa_quiet _ _ _ _ Hf id v0). }
    destruct Hor as [(_ & _ & ->)|(q & Hin & -> & ->)]; [done|]. destruct (count_within id q v Hin Hv) as (_ & Hq & _). cbn in Hlt. rewrite Z2Nat.id in Hlt by lia.
    unfold sampled_tokens. by rewrite (proj2 (Z.ltb_lt _ _) Hlt).
  - intros id v1 Hd Hv1 Hpos. destruct (slot_after id v1 Hv1) as (Hk & v & Hv & Hor). rewrite Esd in Hd. cbn [sched_step sd_decoded] in Hd.
    destruct Hor as [(Hnin & -> & _)|(q & Hin & -> & _)].
    + assert (id ∈ sd_decoded (sched_after log)) as Hd0.
      { unfold step_decoded in Hd. apply elem_of_union in Hd as [Hd|Hd]; [|by apply elem_of_difference in Hd as [? _]]. exfalso.
        apply elem_of_ids_where in Hd as (it & Hit & _ & <-). destruct (item_of it Hit) as [Hin _]. apply Hnin, list_elem_of_fmap. by exists (it.1.1, it.1.2). }
      pose proof (decoding id v Hk Hd0 Hv Hpos) as Hle. rewrite (todo_view id v Hk Hv) in Hle. unfold caught_up. lia.
    + destruct (count_within id q v Hin Hv) as (_ & Hle & Hcaught). apply Hcaught. unfold step_decoded in Hd. apply elem_of_union in Hd as [Hd|Hd].
      * apply elem_of_ids_where in Hd as (it & Hit & Eit & <-). apply andb_true_iff in Eit as [E1%Z.eqb_eq E2%Z.leb_le].
        destruct (item_of it Hit) as (Hin' & v' & Hv' & Ec). assert (v' = v) as -> by congruence.
        assert (q = 1%Z) as -> by (pose proof (counted _ _ Hin); pose proof (counted _ _ Hin'); congruence).
        destruct (F1 _ Hin) as [?|[Hq|Hw]]; [done|cbn in Hq; lia|]. cbn [fst tick sc_waiting] in Hw. exfalso.
        destruct queues as (_ & _ & _ & _ & _ & Hkq & _). apply elem_of_app in Hk as [Hk|Hk].
        -- destruct (Hkq _ Hk) as (Hrun & _). pose proof (so_nodup _ _ _ (sy_sched _ _ _ _ _ _ H0)) as Hnd. apply NoDup_app in Hnd as (_ & Hdis & _).
           by apply (Hdis it.1.1).
        -- destruct (new_slot _ v Hk Hv) as (E & _). lia.
      * apply elem_of_difference in Hd as [Hd Hz0]. pose proof (of_item id q v Hin Hv) as Hit.
        assert (0 < sl_computed (rq_slot v))%Z as Hc.
        { destruct (count_of id q Hin) as (_ & v' & _ & Hv' & _ & _ & (_ & E0 & _) & _). assert (v' = v) as -> by (unfold view', so in Hv; congruence).
          apply Z.le_neq. split; [done|]. intros E. apply Hz0, elem_of_ids_where. eexists. split; [exact Hit|]. cbn. split; [by apply Z.eqb_eq|done]. }
        pose proof (decoding id v Hk Hd Hv Hc). lia.
  - rewrite spec_steps_snoc, <-Hview. apply run_uncut_snoc; [apply Hf|exact uncut_after].
Qed.
End After.
End OneStep.

(** ** All events *)

Section Core.
Variable m0 : Manager.
Abbreviation ViewCore := (Core (ViewState B)).
Abbreviation ViewEvent := (Event (list (LayerTensors (B := B)))).
#[local] Hint Extern 0 (ModelWorker _ _) => exact (view_worker z) : typeclass_instances.
Abbreviation core_ok := (core_ok cfg n z m0).
Abbreviation core_idle := (core_idle cfg n z m0).

Definition core_fair (flight : Flight) (c : ViewCore) : Prop := fair_ok (sc_running (co_sched c)) (co_worker c).1 (co_worker c).2 flight.

Lemma scheduled_fair used outs flight (c : ViewCore) throttle so c1 mro c2 tensors tok :
  core_ok used outs flight c → may_schedule cfg flight → clock_ok (co_sched c) → core_fair flight c →
  on_sched (schedule cfg visit throttle) c = (Ok so, c1) → on_model (run_model so tensors tok) c1 = (Ok mro, c2) → core_fair (flight ++ [(so, mro)]) c2.
Proof.
  intros Hok Hmay Hclock Hfa E1 E2. destruct (ck_system _ _ _ _ _ _ _ _ Hok) as (k0 & H & _). destruct (sy_calls _ _ _ _ _ _ H) as [granted Hc].
  destruct (schedule_ok cfg n visit (sf_watermark _ _ Hz) (sf_positive _ _ Hz) (proj1 (sf_tokens _ _ Hz)) throttle k0 _ granted (sy_sched _ _ _ _ _ _ H) Hc)
    as (s' & s & p & kept & dropped & new & rest & g & E & Er & Hstep).
  rewrite (on_sched_eq _ _ _ _ E) in E1. injection E1 as <- <-. injection E2 as <- <-. unfold core_fair. cbn [co_sched co_worker fst snd].
  exact (fair_after k0 _ s s' _ _ _ throttle p kept dropped new rest granted g H Hmay Hclock Hc Er Hstep Hfa tok tensors (ck_view _ _ _ _ _ _ _ _ Hok)).
Qed.

Lemma on_sched_worker {A} (m : ST Scheduler A) (c : ViewCore) r c' : on_sched m c = (r, c') → co_worker c' = co_worker c.
Proof. unfold on_sched. destruct (m (co_sched c)). by intros [= _ <-]. Qed.

Lemma aborts_worker q (c c' : ViewCore) r : _process_aborts_queue visit q c = (r, c') → co_worker c' = co_worker c.
Proof.
  destruct q; [by intros [= _ <-]|]. unfold _process_aborts_queue, abort_requests. rewrite st_bind_eq.
  destruct (on_sched _ c) as [[gone|e] c1] eqn:E; [intros [= _ <-]|intros [= _ <-]]; by eapply on_sched_worker.
Qed.

Lemma finishes_fair used outs flight e q (c : ViewCore) o c' :
  core_ok used outs (e :: flight) c → core_fair (e :: flight) c → finishes cfg visit q e c o c' → core_fair flight c'.
Proof.
  intros Hok Hfa Hfin. destruct (finishes_ok cfg n z visit Hvisit m0 used outs flight e q c o c' Hok Hfin) as (Hsh & _). destruct Hfin as (c1 & E1 & E2).
  apply aborts_worker in E1. apply on_sched_worker in E2. unfold core_fair. rewrite E2, E1. eapply fair_leave; [| |exact Hfa].
  - intros id Hid. by eapply sublist_subseteq; [apply (sh_running _ _ Hsh)|].
  - intros id. unfold pending. cbn [map concat]. by intros [_ ?]%app_eq_nil.
Qed.

Lemma finishes_queue used outs flight e q (c : ViewCore) o c' :
  core_ok used outs (e :: flight) c → finishes cfg visit q e c o c' → co_batch_queue c' = co_batch_queue c.
Proof.
  intros Hok (c1 & E1 & E2). destruct (core_aborts cfg n z visit Hvisit m0 used outs (e :: flight) c q Hok) as (c1' & E1' & _ & Q).
  rewrite E1 in E1'. injection E1' as <-. by rewrite (on_sched_queue _ _ _ _ E2).
Qed.

Lemma turn_fair used outs throttle q tensors tok (c : ViewCore) o c' :
  core_idle used outs c → clock_ok (co_sched c) → core_fair (co_batch_queue c) c → turn cfg z visit throttle q tensors tok c o c' → core_fair (co_batch_queue c') c'.
Proof.
  intros [Hok Hmay] Hclock Hfa [_|e rest o' c1' _ Eq Hfin|so c1 mro c2 E1 E2 Eq|so c1 mro c2 e rest o' c1' E1 E2 Eq Hfin].
  - done.
  - rewrite Eq in Hok, Hfa. pose proof (core_queue _ _ _ _ _ _ _ _ rest Hok) as Hok'. rewrite (finishes_queue used outs rest e q _ _ c1' Hok' Hfin).
    exact (finishes_fair used outs rest e q _ _ c1' Hok' Hfa Hfin).
  - exact (scheduled_fair used outs _ c throttle so c1 mro c2 tensors tok Hok Hmay Hclock Hfa E1 E2).
  - destruct (scheduled_ok cfg n z visit Hz Hvisit Hpp m0 used outs _ c throttle so c1 mro c2 tensors tok Hok Hmay E1 E2) as (Hok2 & _).
    pose proof (scheduled_fair used outs _ c throttle so c1 mro c2 tensors tok Hok Hmay Hclock Hfa E1 E2) as Hfa2. rewrite Eq in Hok2, Hfa2.
    pose proof (core_queue _ _ _ _ _ _ _ _ rest Hok2) as Hok'. rewrite (finishes_queue used outs rest e q _ _ c1' Hok' Hfin).
    exact (finishes_fair used outs rest e q _ _ c1' Hok' Hfa2 Hfin).
Qed.

Lemma finish_fair (c : ViewCore) ids gone c' flight :
  on_sched (finish_requests visit ids FINISHED_ABORTED) c = (Ok gone, c') → core_fair flight c → core_fair flight c' ∧ co_batch_queue c' = co_batch_queue c.
Proof.
  intros E Hfa. pose proof (on_sched_worker _ _ _ _ E) as Ew. pose proof (on_sched_queue _ _ _ _ E) as Eq. split; [|done]. apply on_sched_ok in E.
  pose proof (finish_requests_shrinks visit ids FINISHED_ABORTED (co_sched c)) as Hsh. unfold st_at in Hsh. rewrite E in Hsh. cbn [snd] in Hsh.
  unfold core_fair. rewrite Ew. eapply fair_leave; [|by intros id|exact Hfa]. intros id Hid. by eapply sublist_subseteq; [apply (sh_running _ _ Hsh)|].
Qed.

Lemma handle_fair used outs (c : ViewCore) ev o c' :
  core_idle used outs c → clock_ok (co_sched c) → core_fair (co_batch_queue c) c → handle cfg visit ev c = (Ok o, c') → core_fair (co_batch_queue c') c'.
Proof.
  intros Hidle Hclock Hfa. destruct ev as [id prompt params|ids|mode| |throttle q tensors tok]; cbn [handle].
  - intros ([] & c1 & E & [= <- <-])%st_bind_ok. rewrite (on_sched_queue _ _ _ _ E). unfold core_fair. rewrite (on_sched_worker _ _ _ _ E).
    apply on_sched_ok in E. unfold add_request in E. rewrite st_bind_eq in E. cbn [st_get] in E. apply st_bind_ok in E as ([] & s1 & E1 & E).
    assert (s1 = co_sched c) as -> by (unfold st_raise_if, st_lift in E1; by injection E1). rewrite st_bind_eq in E. cbn in E. by injection E as <-.
  - intros ([] & c1 & E & [= <- <-])%st_bind_ok. unfold abort_requests in E. apply st_bind_ok in E as (gone & c2 & E & [= <-]).
    destruct (finish_fair c _ gone c2 _ E Hfa) as [H ->]. exact H.
  - intros (gone & c1 & E1 & E)%st_bind_ok. apply st_bind_ok in E as ([] & c2 & E2 & [= <- <-]).
    assert (core_fair (co_batch_queue c1) c1) as H1.
    { destruct mode; [|injection E1 as <- <-; exact Hfa..]. destruct (finish_fair c _ gone c1 _ E1 Hfa) as [H ->]. exact H. }
    rewrite (on_sched_queue _ _ _ _ E2). unfold core_fair. rewrite (on_sched_worker _ _ _ _ E2). apply on_sched_ok in E2. injection E2 as <-. exact H1.
  - intros ([] & c1 & E & [= <- <-])%st_bind_ok. unfold resume_scheduler in E. rewrite (on_sched_queue _ _ _ _ E). unfold core_fair.
    rewrite (on_sched_worker _ _ _ _ E). apply on_sched_ok in E. injection E as <-. exact Hfa.
  - intros E. pose proof (step_fn_turn cfg z visit throttle q tensors tok c c' o (batches_fit cfg n z Hpp m0 used outs c Hidle) E) as Ht.
    by eapply turn_fair.
Qed.

(** Whatever clients ask, no request is cut once it decodes. *)
Lemma core_kept_fair events : ∀ used ab outs (c : ViewCore) o c',
  core_idle used outs c → events_ok cfg events → (∀ id, id ∈ concat (map added events) → id ∉ used) → heard used ab outs (co_sched c) →
  clock_ok (co_sched c) → core_fair (co_batch_queue c) c → handle_all cfg visit events c = (Ok o, c') → core_fair (co_batch_queue c') c'.
Proof.
  induction events as [|ev events IH]; intros used ab outs c o c' Hc [Hnd Hev] Hnew Hh Hck Hfa; cbn [handle_all]; [by intros [= _ <-]|].
  intros (o1 & c1 & E1 & E)%st_bind_ok. apply st_bind_ok in E as (o2 & c2 & E2 & [= <- <-]).
  apply Forall_cons in Hev as [Hev Hevs]. cbn [map concat] in Hnd, Hnew. apply NoDup_app in Hnd as (_ & Hd & Hnd).
  destruct (handle_ok cfg n z visit Hz Hvisit Hpp m0 used outs c ev Hc Hev) as (o1' & c1' & E1' & H1); [intros id Hid; apply Hnew, elem_of_app; by left|].
  rewrite E1 in E1'. injection E1' as <- <-. destruct (handle_heard cfg n z visit Hz Hvisit Hpp m0 used ab outs c ev o1 c1 Hc Hh Hck E1) as [Hh1 Hck1].
  apply (IH (added ev ++ used) (aborted_by ev ++ ab) (outs ++ o1) c1 o2 c2 H1); try done.
  - intros id Hid [Ha|Hu]%elem_of_app; [by apply (Hd id)|]. apply (Hnew id); [apply elem_of_app; by right|done].
  - exact (handle_fair used outs c ev o1 c1 Hc Hck Hfa E1).
Qed.

(** From a fresh engine. *)
Lemma fresh_fair events (c : ViewCore) o :
  core_idle [] [] (core_init m0 (∅, []) : ViewCore) → events_ok cfg events → handle_all cfg visit events (core_init m0 (∅, [])) = (Ok o, c) →
  core_fair (co_batch_queue c) c.
Proof.
  intros Hidle Hev E. refine (core_kept_fair events [] [] [] _ o c Hidle Hev _ _ _ _ E).
  - by intros id _ ?%not_elem_of_nil.
  - by intros id ?%not_elem_of_nil.
  - by split.
  - split; cbn; try done. exists EmptyString. by intros id v ?%not_elem_of_nil.
Qed.
End Core.
End Fair.
