(* ===== verification/EngineServed.v ===== *)
(** * The engine as it runs

    The core of the engine ([EngineCore]) over the worker with its layers ([WorkerModel]):
    whatever clients ask and whichever tokens the sampler chooses, the whole engine raises
    nothing, the front end hears the tokens of every request, and every layer computes the
    attention of each request over its own tokens. *)

From Stdlib Require Import ZArith Lia Permutation.
From stdpp Require Import gmap strings pretty base tactics numbers list option.
From S2P Require Import Prelude Layout Torch SpecFloatTorch BitPack Meta Quant Tab Triton Decoded Page Sidecar Tail OnlineRef Runtime.
From S2P Require Import FixedTorch Bulk ChunkPlan FastAppend Attention PageAttention TailAttention TailPrep DecodeAttention.
From S2P Require Import DecodeState TileSchedule TileKernels Lifecycle Forward ForwardFrame TileState ForwardStream ForwardState.
From S2P Require Import Engine FreeQueue BlockPool PoolState KVManager KVTables ManagedEngine.
From S2P Require Import Stores StagedTensor InputBatch BlockTables RequestStates RunnerV2 RunnerView RunnerSteps RunnerBatch RunnerRun ServedV2 EngineFit.
From S2P Require Import SchedRequest Scheduler SchedCalls SchedulerPass SchedulerStep SchedulerEvents SchedulerView SchedulerHead SchedulerFair.
From S2P Require Import EngineCore WorkerModel CoreServed CoreRun CoreDrains CoreAnswers.

(** ** Runs taken apart at the last step *)

Section Back.
Context `{TF : TorchFloat} {B : Type}.

Lemma outputs_asked_back z steps (step : WorkerStep (B := B)) : ∀ reqs,
  outputs_asked z reqs (steps ++ [step]) → outputs_asked z reqs steps ∧ step_asked z (final_view z reqs steps) (step.1.1, step.2).
Proof.
  induction steps as [|[[so t] sam] steps IH]; intros reqs; [destruct step as [[so t] sam]; by intros [H _]|].
  intros [H1 H2]. destruct (IH _ H2) as [H3 H4]. by split.
Qed.

Lemma managed_run_back cfg steps (step : EngineStep (B := B)) : ∀ s s',
  managed_run cfg s (steps ++ [step]) s' → ∃ s1, managed_run cfg s steps s1 ∧ managed_step cfg s1 step s'.
Proof.
  induction steps as [|st steps IH]; intros s s'; cbn [app managed_run].
  - intros (s1 & H & ->). by exists s.
  - intros (s1 & H1 & H). destruct (IH _ _ H) as (s2 & H2 & H3). exists s2. split; [|done]. by exists s1.
Qed.

Lemma managed_run_tables cfg n steps : ∀ s s',
  (0 ≤ watermark_blocks cfg)%Z → kv_block_size cfg = 32%Z → kv_ok n s → managed_run (B := B) cfg s steps s' → kv_ok n s'.
Proof.
  induction steps as [|st steps IH]; intros s s' Hwm Hbs Hs; cbn [managed_run]; [by intros ->|]. intros (s1 & H1 & H).
  apply (IH s1 s'); try done. by apply (managed_tables 1 1 1 (conj Nat.lt_0_1 (Nat.divide_refl 1)) cfg n Hbs Hwm sched_init st s s1).
Qed.
End Back.

Section Runs.
Context `{TF : TorchFloat} {TR : TritonFloat} {TE : TorchEmpty} {TA : TritonReduce} {TL : TritonLaws TR}.
Context {B : Type} {FT : FloatType B}.
Context {EN : Environ}.
Variables (h g NQ : nat).
Variable context_attention_fwd : list (list B) → dev_tensor → dev_tensor → f32 → list (list B).
Variable torch_empty : nat → list Z.
Variable impls : list AttnImpl.

Lemma run_fit_back steps (step : EngineStep (B := B)) : ∀ sd,
  run_fit h g NQ impls sd (steps ++ [step]) → run_fit h g NQ impls sd steps ∧ step_fit h g NQ impls (fold_left sched_step steps sd) step.
Proof.
  induction steps as [|st steps IH]; intros sd; cbn [app run_fit fold_left]; [by intros [H _]|]. intros [H1 H]. destruct (IH _ H) as [H2 H3]. by split.
Qed.

Lemma served_run_snoc steps (step : WorkerStep (B := B)) : ∀ w louts w1 outs w',
  served_run context_attention_fwd torch_empty impls steps w = (Ok louts, w1) →
  served_step context_attention_fwd torch_empty impls step w1 = (Ok outs, w') →
  served_run context_attention_fwd torch_empty impls (steps ++ [step]) w = (Ok (louts ++ [outs]), w').
Proof.
  induction steps as [|st steps IH]; intros w louts w1 outs w'; cbn [app served_run].
  - intros [= <- <-] E. by rewrite st_bind_eq, E.
  - rewrite !st_bind_eq. destruct (served_step _ _ _ st w) as [[o|ex] w2]; [|done]. rewrite st_bind_eq.
    destruct (served_run _ _ _ steps w2) as [[l|ex] w3] eqn:E2; [|done]. intros [= <- <-] E.
    by rewrite st_bind_eq, (IH _ _ _ _ _ E2 E).
Qed.
End Runs.

(** ** The worker follows its view *)

Section Served.
Context `{TF : TorchFloat} {TR : TritonFloat} {TE : TorchEmpty} {TA : TritonReduce}.
Context {TFL : TorchFloatLaws TF} {TL : TritonLaws TR} {TZ : TritonZero}.
Context {B : Type} {FT : FloatType B}.
Context {EN : Environ}.
Variables (h g NQ : nat).
Let d := (g * 32)%nat.
Hypotheses (Hgeo : runtime_geometry h d) (HQ : (0 < NQ)%nat ∧ (h | NQ)%nat).
Variable context_attention_fwd : list (list B) → dev_tensor → dev_tensor → f32 → list (list B).
Hypothesis (Henv : environ_ok).
Variables (impls : list AttnImpl) (caches : list PageCache).
Hypotheses (Hlen : length impls = length caches) (Himpl : Forall (impl_ok h g) impls).
Variables (cfg : SchedConfig) (blocks : nat).
Abbreviation kv := (sg_kv cfg).
Hypothesis Hblock : kv_block_size kv = 32%Z.
Hypothesis Hcaches : Forall (λ c, pc_width c = page_bytes (layout_of GROUP h d d) ∧ length (pc_pages c) = blocks) caches.
Variables (z : Sizes) (torch_empty : nat → list Z) (visit : list string → list string).
Hypotheses (Hempty : ∀ m, length (torch_empty m) = m) (Hz : sizes_fit cfg z).

Abbreviation served_run := (served_run context_attention_fwd torch_empty impls).
Abbreviation served_step := (served_step context_attention_fwd torch_empty impls).
Abbreviation spec := (spec_steps (B := B) z ∅).

Section Follow.
Variables (m0 : Manager) (rn0 : Runner).
Hypotheses (Hm0 : kv_ok blocks m0) (Hrn0 : runner_idle z rn0 ∅) (Hcok : Forall cache_ok caches).

(** The log of a view the worker can follow. *)
Definition followable (w : ViewState B) : Prop :=
  outputs_asked z ∅ w.2 ∧ (∃ s, managed_run kv m0 (spec w.2) s) ∧ run_fit h g NQ impls sched_init (spec w.2).

(** The worker after the steps of the log. *)
Definition follows (w : ViewState B) (r : Runner * Engine) : Prop :=
  w.1 = final_view z ∅ w.2 ∧ ∃ louts, served_run w.2 (rn0, engine_init caches) = (Ok louts, r).

Lemma followable_back so (tensors : list (LayerTensors (B := B))) tok w mro w' :
  view_worker z so tensors tok w = (Ok mro, w') → followable w' → followable w.
Proof.
  intros [= _ <-] (Ha & (s & Hm) & Hf). cbn [snd] in *. rewrite spec_steps_snoc in Hm, Hf.
  apply outputs_asked_back in Ha as [Ha _]. apply managed_run_back in Hm as (s1 & Hm & _). apply run_fit_back in Hf as [Hf _].
  split; [done|]. split; [by exists s1|done].
Qed.

Lemma followed_step so (tensors : list (LayerTensors (B := B))) tok w r mro w' :
  follows w r → followable w → view_worker z so tensors tok w = (Ok mro, w') → followable w' →
  ∃ r', model_step context_attention_fwd torch_empty impls so tensors tok r = (Ok mro, r') ∧ follows w' r'.
Proof.
  intros [Ev (louts & Er)] (Ha & (s1 & Hm) & Hf) E (Ha' & (s' & Hm') & Hf'). destruct w as [v log], r as [rn e]. cbn [fst snd] in *.
  injection E as <- <-. cbn [fst snd] in *. rewrite spec_steps_snoc in Hm', Hf'. apply outputs_asked_back in Ha' as [_ Hasked].
  apply managed_run_back in Hm' as (s2 & Hm2 & Hst). apply run_fit_back in Hf' as [_ Hfit]. cbn [fst snd] in Hasked.
  pose proof (managed_run_tables kv blocks _ _ _ (sf_watermark _ _ Hz) Hblock Hm0 Hm2) as Hk2.
  assert (0 < z_block z)%Z as Hzb by (rewrite (sf_block _ _ Hz), Hblock; lia).
  destruct (served_run_ok h g NQ Hgeo HQ context_attention_fwd Henv impls caches Hlen Himpl kv blocks Hblock (sf_watermark _ _ Hz) Hcaches z torch_empty Hempty Hzb
    log rn0 (engine_init caches) ∅ sched_init sched_init m0 s2 Hrn0) as (lo & rn1 & e1 & sd & E & H1 & H2 & H3 & H4 & _); try done.
  { by apply (engine_init_ok h g NQ HQ impls). }
  rewrite Er in E. injection E as <- <- <-. rewrite <-Ev in *.
  destruct (served_step_ok h g NQ Hgeo HQ context_attention_fwd Henv impls caches Hlen Himpl kv blocks Hblock (sf_watermark _ _ Hz) Hcaches z torch_empty Hempty Hzb
    so tensors (sampled_for tok so) rn e v sd s2 s' H1 H2 H3 Hk2 Hasked Hst) as (outs & rn' & e' & rows & E' & _).
  { eapply step_fit_rows; [|exact Hfit]. exact H4. }
  exists (rn', e'). split; [by eapply model_step_ok|]. split; cbn [fst snd].
  - by rewrite final_view_snoc, <-Ev.
  - eexists. by eapply served_run_snoc.
Qed.

(** The engine over the worker with its layers runs as the one over the view. *)
Lemma core_follows events outs c :
  handle_all (MW := view_worker z) cfg visit events (core_init m0 (∅, [])) = (Ok outs, c) → followable (co_worker c) →
  ∃ r, handle_all (MW := served_worker context_attention_fwd torch_empty impls) cfg visit events (core_init m0 (rn0, engine_init caches))
       = (Ok outs, mkCore (co_sched c) r (co_batch_queue c))
  ∧ follows (co_worker c) r.
Proof.
  intros E Hp.
  destruct (si_ok _ _ _ _ (sim_handle_all (MW1 := view_worker z) (MW2 := served_worker context_attention_fwd torch_empty impls) follows followable
    (rn0, engine_init caches) followable_back followed_step cfg visit events) (core_init m0 (∅, [])) (core_init m0 (rn0, engine_init caches)) outs c)
    as ([s' r q'] & E' & (Es & Eq & HR)); [|done|done|].
  - split; [done|]. split; [done|]. split; [done|]. by exists [].
  - cbn in *. subst. by exists r.
Qed.
End Follow.

(** What the scheduler asks fits, with tensors of the model. *)
Lemma fresh_fits m0 events outs (c : Core (ViewState B)) :
  (∀ l, visit l ≡ₚ l) → sg_pp_size cfg = 1%Z → core_idle cfg blocks z m0 [] [] (core_init m0 (∅, []) : Core (ViewState B)) → events_ok cfg events →
  handle_all (MW := view_worker z) cfg visit events (core_init m0 (∅, [])) = (Ok outs, c) →
  outputs_asked z ∅ (co_worker c).2 → outputs_fresh z ∅ (co_worker c).2 →
  run_inputs h g NQ impls sched_init (spec (co_worker c).2) → fair_config cfg ∨ run_uncut sched_init (spec (co_worker c).2) →
  run_fit h g NQ impls sched_init (spec (co_worker c).2).
Proof.
  intros Hvisit Hpp Hidle Hev E Ha Hst Hmodel Hcut. apply (run_fits h g NQ impls z HQ); try done; [by apply view_streams_start|].
  destruct Hcut as [Hfair|]; [|done]. exact (fa_uncut _ _ _ _ _ (fresh_fair cfg blocks z visit Hz Hvisit Hpp Hfair m0 events c outs Hidle Hev E)).
Qed.

(** ** Property *)

(** C1: the engine as it runs.  From a fresh engine, for any requests with new names,
    prompts the model takes and a minimum of tokens it has room for, any aborts, pauses and steps of the busy loop, with or without
    asynchronous scheduling, and any tokens the sampler chooses: the core raises nothing;
    the front end has heard of every live request all its output tokens and of every other
    request nothing after a reason to finish; the worker has of every running request the
    prompt, the output and the tokens in flight, and the blocks the manager holds for it.
    Let the model pass tensors of its geometry with ordinary numbers, under names that are no
    profile run's.  If long prefills have no threshold and the budget of tokens exceeds the
    number of requests that may run, as by default - or else if the schedule happens never to
    give several tokens to a request after a single one with four or more held - then
    the model runner and the attention layers
    raise nothing either, the whole engine runs the same, and every output row of every
    layer is the attention of its request's own stream, kept in the blocks of its table. *)
Theorem engine_core_serves hbs s0 block_size kernel_block_size row_blocks bins rn (events : list (Event (list (LayerTensors (B := B))))) :
  (0 < blocks)%nat → kv_init (Z.of_nat blocks) false hbs = Ok s0 → Forall cache_ok caches →
  z_bpk z = (block_size / kernel_block_size)%nat → z_row z = (row_blocks * z_bpk z)%nat → z_block z = Z.of_nat kernel_block_size →
  runner_init true false false (z_reqs z) (z_model_len z) (z_tokens z) 0
    (Tables.init block_size kernel_block_size (z_reqs z) (z_tokens z) row_blocks 1 0 1) bins = Ok rn →
  (∀ l, visit l ≡ₚ l) → sg_pp_size cfg = 1%Z → (0 ≤ sg_max_num_running_reqs cfg)%Z → events_ok cfg events →
  ∃ outs c, handle_all (MW := view_worker z) cfg visit events (core_init s0 (∅, [])) = (Ok outs, c)
  ∧ (∀ id, talk_ok (sc_requests (co_sched c) !! id) (told id outs))
  ∧ (∀ id r, id ∈ sc_running (co_sched c) → sc_requests (co_sched c) !! id = Some r →
       ∃ v, (co_worker c).1 !! id = Some v ∧ sl_tokens (rq_slot v) = sr_all_token_ids r ++ pending (co_batch_queue c) id
         ∧ rq_blocks v = map number (table_of (sc_manager (co_sched c)) id))
  ∧ (run_inputs h g NQ impls sched_init (spec (co_worker c).2) → fair_config cfg ∨ run_uncut sched_init (spec (co_worker c).2) →
     ∃ louts rn' e', handle_all (MW := served_worker context_attention_fwd torch_empty impls) cfg visit events (core_init s0 (rn, engine_init caches))
         = (Ok outs, mkCore (co_sched c) (rn', e') (co_batch_queue c))
     ∧ served_run (co_worker c).2 (rn, engine_init caches) = (Ok louts, (rn', e'))
     ∧ run_rows h g NQ context_attention_fwd impls sched_init (spec (co_worker c).2) louts
     ∧ runner_idle z rn' (co_worker c).1
     ∧ ∃ s, serves h g caches (fold_left sched_step (spec (co_worker c).2) sched_init) e' s).
Proof.
  intros Hn Hi Hc Z1 Z2 Z3 Hrn Hvisit Hpp Hmax Hev. destruct (fresh_manager blocks hbs s0 Hn Hi) as [H0 Ht].
  assert (core_idle (B := B) cfg blocks z s0 [] [] (core_init s0 (∅, []))) as Hidle.
  { apply core_fresh; try done. intros id. unfold table_of. by rewrite Ht. }
  destruct (handle_all_ok cfg blocks z visit Hz Hvisit Hpp s0 events [] [] (core_init s0 (∅, [])) Hidle Hev) as (outs & used & c & E & Hok & _).
  { by intros id _ ?%not_elem_of_nil. }
  exists outs, c. destruct Hok as [(k0 & Hsys & Hm) Ha Hv _ Htalk Hst]. split; [exact E|]. split; [exact Htalk|]. split.
  { intros id r Hid Hr. destruct (sy_live _ _ _ _ _ _ Hsys id r Hid Hr) as (v & V1 & (_ & V2 & _) & V3). by exists v. }
  intros Hmodel Hcut. pose proof (fresh_fits s0 events outs c Hvisit Hpp Hidle Hev E Ha Hst Hmodel Hcut) as Hfit. pose proof (runner_init_ok z block_size kernel_block_size row_blocks bins rn Z1 Z2 Z3 Hrn) as Hrn0.
  destruct (core_follows s0 rn H0 Hrn0 Hc events outs c E) as ([rn' e'] & E' & _ & (louts & El)); [by split; [|split; [by exists k0|]]|].
  assert (0 < z_block z)%Z as Hzb by (rewrite (sf_block _ _ Hz), Hblock; lia).
  destruct (served_run_ok h g NQ Hgeo HQ context_attention_fwd Henv impls caches Hlen Himpl kv blocks Hblock (sf_watermark _ _ Hz) Hcaches z torch_empty Hempty Hzb
    (co_worker c).2 rn (engine_init caches) ∅ sched_init sched_init s0 k0 Hrn0) as (lo & rn1 & e1 & sd & El' & H1 & H2 & H3 & H4 & H5); try done.
  { by apply (engine_init_ok h g NQ HQ impls). }
  rewrite El in El'. injection El' as <- <- <-. exists louts, rn', e'. split; [done|]. split; [done|]. split; [done|]. rewrite Hv. split; [done|].
  exists k0. intros l id kx vx Hl Hid. destruct H4 as [H4 _]. rewrite <-H4 in Hid. by eapply (synced_serves h g).
Qed.
End Served.

(** ** Long prefills *)

(** C4: one long prefill at a time.  Without a threshold for long prefills, and with a budget of
    tokens larger than the number of requests that may run, whatever clients ask and
    whenever the engine steps, with preemptions and with asynchronous scheduling: of all
    running requests but one, the worker has computed everything but the token sampled last; and
    no step of the run gives several tokens to a request that was given a single one while it held
    four or more, the schedule on which the buffered append of the attention layers
    would lose tokens. *)
Theorem one_long_prefill `{TF : TorchFloat} {B : Type} cfg z visit blocks hbs k (events : list (Event (list (LayerTensors (B := B))))) :
  (0 < blocks)%nat → kv_init (Z.of_nat blocks) false hbs = Ok k → sizes_fit cfg z → (∀ l, visit l ≡ₚ l) → sg_pp_size cfg = 1%Z →
  (0 ≤ sg_max_num_running_reqs cfg)%Z → fair_config cfg → events_ok cfg events →
  ∃ outs c, handle_all (MW := view_worker z) cfg visit events (core_init k (∅, [])) = (Ok outs, c)
  ∧ (∃ x, ∀ id v, id ∈ sc_running (co_sched c) → id ≠ x → (co_worker c).1 !! id = Some v →
       (Z.of_nat (length (sl_tokens (rq_slot v))) ≤ sl_computed (rq_slot v) + 1)%Z)
  ∧ run_uncut sched_init (spec_steps z ∅ (co_worker c).2).
Proof.
  intros Hn Hi Hz Hvisit Hpp Hmax Hfair Hev. destruct (fresh_manager blocks hbs k Hn Hi) as [H0 Ht].
  assert (core_idle (B := B) cfg blocks z k [] [] (core_init k (∅, []))) as Hidle.
  { apply core_fresh; try done. intros id. unfold table_of. by rewrite Ht. }
  destruct (handle_all_ok cfg blocks z visit Hz Hvisit Hpp k events [] [] (core_init k (∅, [])) Hidle Hev) as (outs & used & c & E & _).
  { by intros id _ ?%not_elem_of_nil. }
  exists outs, c. split; [exact E|].
  destruct (fresh_fair cfg blocks z visit Hz Hvisit Hpp Hfair k events c outs Hidle Hev E) as [Hone _ _ Hcut]. by split.
Qed.

(** ** A concrete run *)

Section Demo.
Context `{TF : TorchFloat} {B : Type}.

Definition demo_engine : SchedConfig := mkSchedConfig 2 64 0 true true false 1 (mkKVConfig 32 64 0 false).
Definition demo_params : SamplingParams := mkSampling 4 0 None [] None.

(** A prompt of 36 tokens; its first decode token beside another prompt; an abort and
    a pause, after which a step tells the worker. *)
Definition demo_events (t1 t2 t3 : LayerTensors (B := B)) : list (Event (list (LayerTensors (B := B)))) :=
  [AddRequest "a" (replicate 36 5%Z) demo_params; CoreStep false [] [t1] (λ _, 9%Z);
   AddRequest "b" [1; 2]%Z demo_params; CoreStep false [] [t2] (λ id, if String.eqb id "a" then 4%Z else 3%Z);
   AbortRequests ["a"]; PauseScheduler PauseKeep; CoreStep false [] [t3] (λ _, 0%Z)].

Lemma demo_events_ok t1 t2 t3 : events_ok demo_engine (demo_events t1 t2 t3).
Proof. split; [by apply (bool_decide_unpack _); vm_compute|]. repeat constructor; cbn; lia. Qed.

Lemma demo_core t1 t2 t3 :
  ∃ outs c, handle_all (MW := view_worker served_sizes) demo_engine (λ l, l) (demo_events t1 t2 t3) (core_init demo_manager (∅, [])) = (Ok outs, c)
  ∧ outs = [mkEngineOutput "a" [9%Z] None None; mkEngineOutput "a" [4%Z] None None; mkEngineOutput "b" [3%Z] None None]
  ∧ spec_steps served_sizes ∅ (co_worker c).2 = spec_steps served_sizes ∅ (served_demo t1 t2 t3).
Proof. eexists _, _. split; [vm_compute; reflexivity|]. split; [done|]. by vm_compute. Qed.

Lemma demo_steps t1 t2 t3 outs c :
  handle_all (MW := view_worker served_sizes) demo_engine (λ l, l) (demo_events t1 t2 t3) (core_init demo_manager (∅, [])) = (Ok outs, c) →
  spec_steps served_sizes ∅ (co_worker c).2 = spec_steps served_sizes ∅ (served_demo t1 t2 t3).
Proof. destruct (demo_core t1 t2 t3) as (outs' & c' & E' & _ & Es). rewrite E'. by intros [= _ <-]. Qed.
End Demo.

Lemma demo_fair : fair_config demo_engine.
Proof. by split. Qed.

Lemma demo_sizes : sizes_fit demo_engine served_sizes.
Proof. by split. Qed.

Section Concrete.
#[local] Existing Instance FixedTorch.
#[local] Existing Instance FixedTriton.
#[local] Existing Instance zero_memory.
#[local] Existing Instance FixedReduce.
#[local] Existing Instance bf16_type.
#[local] Existing Instance FixedTorch_laws.
#[local] Existing Instance FixedTriton_laws.
#[local] Existing Instance FixedZero.
#[local] Existing Instance default_environ.

(** C4: the run of [demo_events]. *)
Lemma one_long_prefill_witness :
  ∃ outs c, handle_all (MW := view_worker served_sizes) demo_engine (λ l, l) (demo_events (demo_tensors 36) (demo_tensors 3) (demo_tensors 0))
      (core_init demo_manager (∅, [])) = (Ok outs, c)
  ∧ run_uncut sched_init (spec_steps served_sizes ∅ (co_worker c).2).
Proof.
  destruct (one_long_prefill demo_engine served_sizes (λ l, l) 5 32 demo_manager (demo_events (demo_tensors 36) (demo_tensors 3) (demo_tensors 0))
    ltac:(lia) eq_refl demo_sizes ltac:(done) eq_refl ltac:(done) demo_fair (demo_events_ok _ _ _)) as (outs & c & E & _ & H).
  exists outs, c. exact (conj E H).
Defined.

(** C1: two requests, one layer of five pages. *)
Lemma engine_core_serves_witness :
  ∃ outs louts c r, handle_all (MW := served_worker copy_attention (λ m, replicate m 7%Z) [fixed_impl]) demo_engine (λ l, l)
      (demo_events (demo_tensors 36) (demo_tensors 3) (demo_tensors 0))
      (core_init demo_manager (mkRunner (States.init 2 64 0) (Tables.init 32 32 2 64 4 1 0 1)
         (mkBuffers (replicate 64 0%Z) (replicate 64 0%Z) (replicate 3 0%Z) (replicate 2 0%Z)) None, engine_init [zero_cache 5])) = (Ok outs, r)
  ∧ run_rows 1 2 4 copy_attention [fixed_impl] sched_init (spec_steps served_sizes ∅ (co_worker (W := ViewState Z) c).2) louts.
Proof.
  destruct (engine_core_serves 1 2 4 one_head_runtime four_heads copy_attention default_environ_ok [fixed_impl] [zero_cache 5] eq_refl ltac:(by repeat constructor)
    demo_engine 5 eq_refl) with (z := served_sizes) (torch_empty := λ m, replicate m 7%Z) (hbs := 32%Z) (s0 := demo_manager) (visit := λ l : list string, l)
    (block_size := 32%nat) (kernel_block_size := 32%nat) (row_blocks := 4%nat) (bins := @None (list Z * nat))
    (events := demo_events (demo_tensors 36) (demo_tensors 3) (demo_tensors 0))
    (rn := mkRunner (States.init 2 64 0) (Tables.init 32 32 2 64 4 1 0 1)
         (mkBuffers (replicate 64 0%Z) (replicate 64 0%Z) (replicate 3 0%Z) (replicate 2 0%Z)) None)
    as (outs & c & E & _ & _ & Hrun).
  - constructor; [|constructor]. by split; vm_compute.
  - intros m. apply length_replicate.
  - apply demo_sizes.
  - lia.
  - reflexivity.
  - constructor; [apply zero_cache_ok|constructor].
  - reflexivity.
  - reflexivity.
  - reflexivity.
  - reflexivity.
  - reflexivity.
  - reflexivity.
  - done.
  - apply demo_events_ok.
  - destruct Hrun as (louts & rn' & e' & Er & _ & Hr & _); [rewrite (demo_steps _ _ _ outs c E); exact (proj1 demo_inputs)|left; exact demo_fair|].
    exists outs, louts, c, (mkCore (co_sched c) (rn', e') (co_batch_queue c)). exact (conj Er Hr).
Defined.
End Concrete.
