(* ===== verification/EngineDrains.v ===== *)
(** * The engine answers every request

    The engine as it runs ([EngineServed]), left to itself: after so many steps of the
    busy loop every request has been answered or aborted, and every block is free again.

    The conditions of [engine_answers] are needed.  Two concrete engines, both of which the
    code accepts, keep a request for ever: one whose minimum of tokens is beyond the length
    of the model ([long_minimum_stalls]), and one in a cache that holds exactly the blocks
    of the length of the model, of which the null block takes one ([null_block_stalls]). *)

From Stdlib Require Import ZArith Lia Permutation.
From stdpp Require Import gmap strings pretty base tactics numbers list option.
From S2P Require Import Prelude Layout Torch SpecFloatTorch BitPack Meta Quant Tab Triton Decoded Page Sidecar Tail OnlineRef Runtime.
From S2P Require Import FixedTorch Bulk ChunkPlan FastAppend Attention PageAttention TailAttention TailPrep DecodeAttention.
From S2P Require Import DecodeState TileSchedule TileKernels Lifecycle Forward ForwardFrame TileState ForwardStream ForwardState.
From S2P Require Import Engine FreeQueue BlockPool PoolState KVManager KVTables ManagedEngine.
From S2P Require Import Stores StagedTensor InputBatch BlockTables RequestStates RunnerV2 RunnerView RunnerSteps RunnerBatch RunnerRun ServedV2 EngineFit.
From S2P Require Import SchedRequest Scheduler SchedCalls SchedulerPass SchedulerStep SchedulerEvents SchedulerView SchedulerHead SchedulerFair.
From S2P Require Import EngineCore WorkerModel CoreServed CoreRun CoreDrains CoreAnswers EngineServed.

Section Drains.
Context `{TF : TorchFloat} {TR : TritonFloat} {TE : TorchEmpty} {TA : TritonReduce}.
Context {TFL : TorchFloatLaws TF} {TL : TritonLaws TR} {TZ : TritonZero}.
Context {B : Type} {FT : FloatType B}.
Context {EN : Environ}.
Variables (h g NQ : nat).
Let d := (g * 32)%nat.
Hypotheses (Hgeo : runtime_geometry h d) (HQ : (0 < NQ)%nat ∧ (h | NQ)%nat).
Variable context_attention_fwd : list (list B) → dev_tensor → dev_tensor → f32 → list (list B).
Hypothesis (Henv : environ_ok).
Variables (impls : list AttnImpl) (caches : list PageCache).
Hypotheses (Hlen : length impls = length caches) (Himpl : Forall (impl_ok h g) impls).
Variables (cfg : SchedConfig) (blocks : nat).
Abbreviation kv := (sg_kv cfg).
Hypothesis Hblock : kv_block_size kv = 32%Z.
Hypothesis Hcaches : Forall (λ c, pc_width c = page_bytes (layout_of GROUP h d d) ∧ length (pc_pages c) = blocks) caches.
Variables (z : Sizes) (torch_empty : nat → list Z) (visit : list string → list string).
Hypotheses (Hempty : ∀ m, length (torch_empty m) = m) (Hz : sizes_fit cfg z).

(** C2: the engine answers.  Let clients ask anything the model takes - new names, a prompt
    shorter than its length, a minimum of tokens it has room for - of a fresh engine whose
    cache holds, besides its null block, the blocks of one request of the model's length.  If the
    scheduler is not paused then, the steps of the busy loop finish every request: twice the
    length of the model of them for each request are enough, whatever tokens the sampler
    chooses, synchronous or asynchronous, however the requests preempt each other.  Then
    the queues are empty, every block but the null block is free, and every request was told,
    last, why it finished, unless its client aborted it.  If the model passes tensors of its
    geometry with ordinary numbers, and either long prefills have no threshold and the
    budget of tokens exceeds the number of requests that may run, as by default, or the
    schedule gives no request several tokens after a single one with four or more held,
    then the engine with its layers runs the same. *)
Theorem engine_answers hbs s0 block_size kernel_block_size row_blocks bins rn (events : list (Event (list (LayerTensors (B := B))))) :
  (0 < blocks)%nat → kv_init (Z.of_nat blocks) false hbs = Ok s0 → Forall cache_ok caches →
  z_bpk z = (block_size / kernel_block_size)%nat → z_row z = (row_blocks * z_bpk z)%nat → z_block z = Z.of_nat kernel_block_size →
  runner_init true false false (z_reqs z) (z_model_len z) (z_tokens z) 0
    (Tables.init block_size kernel_block_size (z_reqs z) (z_tokens z) row_blocks 1 0 1) bins = Ok rn →
  (∀ l, visit l ≡ₚ l) → sg_pp_size cfg = 1%Z → may_drain cfg blocks → events_ok cfg events →
  ∃ outs c, handle_all (MW := view_worker z) cfg visit events (core_init s0 (∅, [])) = (Ok outs, c)
  ∧ (sc_pause_state (co_sched c) = UNPAUSED → ∀ l,
     (Z.of_nat (length (queue_of (co_sched c))) * (2 * max_model_len kv) ≤ Z.of_nat (length l))%Z →
     ∃ o c', handle_all (MW := view_worker z) cfg visit (events ++ turns l) (core_init s0 (∅, [])) = (Ok (outs ++ o), c')
     ∧ sc_requests (co_sched c') = ∅ ∧ queue_of (co_sched c') = []
     ∧ Pool.get_num_free_blocks (mg_pool (sc_manager (co_sched c'))) = (Z.of_nat blocks - 1)%Z
     ∧ (∀ id, id ∈ concat (map added events) → id ∈ concat (map aborted_by (events ++ turns l)) ∨ answered (told id (outs ++ o)))
     ∧ (run_inputs h g NQ impls sched_init (spec_steps (B := B) z ∅ (co_worker c').2) →
        fair_config cfg ∨ run_uncut sched_init (spec_steps (B := B) z ∅ (co_worker c').2) →
        ∃ r, handle_all (MW := served_worker context_attention_fwd torch_empty impls) cfg visit (events ++ turns l) (core_init s0 (rn, engine_init caches))
           = (Ok (outs ++ o), mkCore (co_sched c') r (co_batch_queue c')))).
Proof.
  intros Hn Hi Hc Z1 Z2 Z3 Hrn Hvisit Hpp Hd Hev. destruct (fresh_manager blocks hbs s0 Hn Hi) as [H0 Ht]. pose proof (md_reqs _ _ Hd) as Hreqs.
  assert (core_idle (B := B) cfg blocks z s0 [] [] (core_init s0 (∅, []))) as Hfresh.
  { apply core_fresh; try done; [intros id; unfold table_of; by rewrite Ht|lia]. }
  destruct (handle_all_heard cfg blocks z visit Hz Hvisit Hpp s0 events [] [] [] (core_init s0 (∅, [])) Hfresh Hev) as (outs & used & c & E & Hidle & Hck & Hused & Hheard).
  { by intros id _ ?%not_elem_of_nil. }
  { by intros id ?%not_elem_of_nil. }
  { by split. }
  exists outs, c. split; [exact E|]. intros Hpause l Hlong. cbn [app] in Hidle, Hheard.
  destruct (turns_drain cfg blocks z visit Hz Hvisit Hpp s0 l used outs c Hd ltac:(by split) Hlong) as (o & c' & E2 & (Hidle' & _) & Hempty').
  destruct (handle_all_heard cfg blocks z visit Hz Hvisit Hpp s0 (turns l) used _ outs c Hidle (turns_ok cfg l) ltac:(by rewrite turns_added; intros id ?%not_elem_of_nil) Hheard Hck)
    as (o2 & used2 & c2 & E2' & _ & _ & Hused2 & Hheard2). rewrite E2 in E2'. injection E2' as <- <-.
  exists o, c'. pose proof (handle_all_app cfg visit (MW := view_worker z) events (turns l) _ outs c _ E E2) as E3. cbn in E3. split; [exact E3|]. split; [done|].
  destruct Hidle' as [Hok Hmay]. destruct (ck_system _ _ _ _ _ _ _ _ Hok) as (k0 & Hsys & Hm). destruct (drained_blocks cfg blocks _ (sy_sched _ _ _ _ _ _ Hsys) Hempty') as [Hq Hfree].
  split; [done|]. split; [done|]. split.
  - intros id Hid. destruct (Hheard2 id) as [Ha|Hr].
    + rewrite Hused2, Hused. by left; right.
    + by rewrite Hempty', lookup_empty.
    + left. rewrite map_app, concat_app, elem_of_app. rewrite !elem_of_app, elem_of_nil in Ha. tauto.
    + right. apply talk_answered; [|done]. pose proof (ck_talk _ _ _ _ _ _ _ _ Hok id) as Htalk. by rewrite Hempty', lookup_empty in Htalk.
  - intros Hinputs Hcut. assert (events_ok cfg (events ++ turns l)) as Hev2 by (destruct Hev; split; [by rewrite map_app, concat_app, turns_added, app_nil_r|apply Forall_app; split; [done|apply (turns_ok cfg l)]]).
    pose proof (fresh_fits h g NQ HQ impls cfg blocks z visit Hz s0 (events ++ turns l) (outs ++ o) c' Hvisit Hpp Hfresh Hev2 E3
      (ck_asked _ _ _ _ _ _ _ _ Hok) (ck_starts _ _ _ _ _ _ _ _ Hok) Hinputs Hcut) as Hfit. pose proof (runner_init_ok z block_size kernel_block_size row_blocks bins rn Z1 Z2 Z3 Hrn) as Hrn0.
    destruct (core_follows h g NQ Hgeo HQ context_attention_fwd Henv impls caches Hlen Himpl cfg blocks Hblock Hcaches z torch_empty visit Hempty Hz
      s0 rn H0 Hrn0 Hc (events ++ turns l) (outs ++ o) c' E3) as (r & Er & _); [|by exists r].
    split; [by apply (ck_asked _ _ _ _ _ _ _ _ Hok)|]. split; [by exists k0|done].
Qed.
End Drains.

(** ** A concrete run *)

(** The engine of [EngineServed.demo_engine], scheduling asynchronously. *)
Definition demo_async : SchedConfig := mkSchedConfig 2 64 0 true true true 1 (mkKVConfig 32 64 0 false).

Section Demo.
Context `{TF : TorchFloat} {B : Type}.

(** Two requests, the second while the first is computed. *)
Definition demo_asks (t : LayerTensors (B := B)) : list (Event (list (LayerTensors (B := B)))) :=
  [AddRequest "a" (replicate 36 5%Z) demo_params; CoreStep false [] [t] (λ _, 9%Z); AddRequest "b" [1; 2]%Z demo_params].

Definition demo_turns (t : LayerTensors (B := B)) : list (list (list string) * list (LayerTensors (B := B)) * (string → Z)) :=
  replicate 256 ([], [t], λ _, 9%Z).

Lemma demo_asks_ok t : events_ok demo_async (demo_asks t).
Proof. split; [by apply (bool_decide_unpack _); vm_compute|]. repeat constructor; cbn; lia. Qed.

Lemma demo_state t outs c :
  handle_all (MW := view_worker served_sizes) demo_async (λ l, l) (demo_asks t) (core_init demo_manager (∅, [])) = (Ok outs, c) →
  sc_pause_state (co_sched c) = UNPAUSED ∧ queue_of (co_sched c) = ["a"; "b"].
Proof. intros E. vm_compute in E. by injection E as <- <-. Qed.

Lemma demo_no_aborts t : concat (map aborted_by (demo_asks t ++ turns (demo_turns t))) = [].
Proof. done. Qed.

Lemma demo_added t : "a" ∈ concat (map added (demo_asks t)) ∧ "b" ∈ concat (map added (demo_asks t)).
Proof. split; [by left|right; by left]. Qed.
End Demo.

Lemma demo_drains : may_drain demo_async 5.
Proof. by split. Qed.

Lemma demo_async_sizes : sizes_fit demo_async served_sizes.
Proof. by split. Qed.

Section Concrete.
#[local] Existing Instance FixedTorch.
#[local] Existing Instance FixedTriton.
#[local] Existing Instance zero_memory.
#[local] Existing Instance FixedReduce.
#[local] Existing Instance bf16_type.
#[local] Existing Instance FixedTorch_laws.
#[local] Existing Instance FixedTriton_laws.
#[local] Existing Instance FixedZero.
#[local] Existing Instance default_environ.

(** C2: two requests, answered asynchronously. *)
Lemma engine_answers_witness :
  ∃ outs c, handle_all (MW := view_worker served_sizes) demo_async (λ l, l) (demo_asks (demo_tensors 36) ++ turns (demo_turns (demo_tensors 36)))
    (core_init demo_manager (∅, [])) = (Ok outs, c)
  ∧ sc_requests (co_sched c) = ∅ ∧ answered (told "a" outs) ∧ answered (told "b" outs).
Proof.
  destruct (engine_answers 1 2 4 one_head_runtime four_heads copy_attention default_environ_ok [fixed_impl] [zero_cache 5] eq_refl ltac:(by repeat constructor)
    demo_async 5 eq_refl) with (z := served_sizes) (torch_empty := λ m, replicate m 7%Z) (hbs := 32%Z) (s0 := demo_manager) (visit := λ l : list string, l)
    (block_size := 32%nat) (kernel_block_size := 32%nat) (row_blocks := 4%nat) (bins := @None (list Z * nat))
    (events := demo_asks (demo_tensors 36))
    (rn := mkRunner (States.init 2 64 0) (Tables.init 32 32 2 64 4 1 0 1)
         (mkBuffers (replicate 64 0%Z) (replicate 64 0%Z) (replicate 3 0%Z) (replicate 2 0%Z)) None)
    as (outs & c & E & Hrun).
  - constructor; [|constructor]. by split; vm_compute.
  - intros m. apply length_replicate.
  - apply demo_async_sizes.
  - lia.
  - reflexivity.
  - constructor; [apply zero_cache_ok|constructor].
  - reflexivity.
  - reflexivity.
  - reflexivity.
  - reflexivity.
  - reflexivity.
  - reflexivity.
  - apply demo_drains.
  - apply demo_asks_ok.
  - destruct (demo_state _ outs c E) as [Hp Hq]. destruct (Hrun Hp (demo_turns (demo_tensors 36))) as (o & c' & E' & Hr & _ & _ & Ha & _).
    { rewrite Hq. unfold demo_turns. rewrite length_replicate. cbn. lia. }
    rewrite demo_no_aborts in Ha. exists (outs ++ o), c'. split; [exact E'|]. split; [exact Hr|].
    destruct (demo_added (demo_tensors 36)) as [A1 A2]. clear E E' Hrun.
    destruct (Ha "a" A1) as [H|H1]; [by apply not_elem_of_nil in H|]. destruct (Ha "b" A2) as [H|H2]; [by apply not_elem_of_nil in H|]. exact (conj H1 H2).
Defined.
End Concrete.

(** ** Steps that change nothing *)

Section Stuck.
Context `{TF : TorchFloat} {B : Type}.
Variables (cfg : SchedConfig) (z : Sizes).
#[local] Hint Extern 0 (ModelWorker _ _) => exact (view_worker z) : typeclass_instances.

Definition at_clock (p : positive) (s : Scheduler) : Scheduler :=
  mkScheduler (sc_requests s) (sc_waiting s) (sc_running s) (sc_finished_req_ids s) (sc_preempted_req_ids s) (Z.pos p)
    (sc_prefill_capacity_bound s) (sc_pause_state s) (sc_manager s).

(** A step tells nothing and leaves all but the clock. *)
Definition stuck (s : Scheduler) : Prop := ∀ p (w : ViewState B) tensors tok, ∃ w',
  step_fn cfg (λ l, l) false [] tensors tok (mkCore (at_clock p s) w []) = (Ok [], mkCore (at_clock (p + 1) s) w' []).

(** Steps without aborts. *)
Definition quiet (l : list (list (LayerTensors (B := B)) * (string → Z))) : list (Event (list (LayerTensors (B := B)))) :=
  turns (map (λ t, ([], t.1, t.2)) l).

Lemma stuck_forever s l : stuck s → ∀ p (w : ViewState B), ∃ p' w',
  handle_all cfg (λ l, l) (quiet l) (mkCore (at_clock p s) w []) = (Ok [], mkCore (at_clock p' s) w' []).
Proof.
  intros Hs. induction l as [|t l IH]; intros p w; [by exists p, w|]. destruct (Hs p w t.1 t.2) as [w1 E1]. destruct (IH (p + 1)%positive w1) as (p' & w' & E).
  exists p', w'. cbn [quiet turns map handle_all handle fst snd]. rewrite st_bind_eq, E1, st_bind_eq. fold (turns (map (λ t, ([], t.1, t.2)) l)).
  fold (quiet l). by rewrite E.
Qed.
End Stuck.

(** ** Two engines *)

(** A model of 64 tokens in blocks of 32. *)
Definition stall_config : SchedConfig := mkSchedConfig 2 64 0 true true false 1 (mkKVConfig 32 64 0 false).
Definition stall_sizes : Sizes := mkSizes 2 64 64 4 1 32.
Abbreviation stall_kv := (sg_kv stall_config).

Section Stalls.
Context `{TF : TorchFloat} {B : Type}.
#[local] Hint Extern 0 (ModelWorker _ _) => exact (view_worker stall_sizes) : typeclass_instances.

(** One request and four steps, in which the sampler chooses the token 9. *)
Definition stall_events (prompt : nat) (params : SamplingParams) (t : list (LayerTensors (B := B))) : list (Event (list (LayerTensors (B := B)))) :=
  AddRequest "a" (replicate prompt 5%Z) params :: turns (replicate 4 ([], t, λ _, 9%Z)).

(** Requests that the engine keeps for ever, although it is not paused. *)
Definition stalls (k : Manager) (prompt : nat) (params : SamplingParams) : Prop := ∀ t : list (LayerTensors (B := B)), ∃ outs c,
  handle_all stall_config (λ l, l) (stall_events prompt params t) (core_init k (∅, [])) = (Ok outs, c)
  ∧ sc_pause_state (co_sched c) = UNPAUSED
  ∧ ∀ l, ∃ c', handle_all stall_config (λ l, l) (quiet l) c = (Ok [], c') ∧ is_Some (sc_requests (co_sched c') !! "a").

Lemma stalls_at k prompt params :
  (∀ t : list (LayerTensors (B := B)), ∃ outs p s w, handle_all stall_config (λ l, l) (stall_events prompt params t) (core_init k (∅, [])) = (Ok outs, mkCore s w [])
     ∧ sc_current_step s = Z.pos p ∧ sc_pause_state s = UNPAUSED ∧ is_Some (sc_requests s !! "a") ∧ stuck (B := B) stall_config stall_sizes s) → stalls k prompt params.
Proof.
  intros H t. destruct (H t) as (outs & p & s & w & E & Ec & Hp & Hr & Hs). exists outs, (mkCore s w []). split; [exact E|]. split; [exact Hp|].
  intros l. destruct (stuck_forever stall_config stall_sizes s l Hs p w) as (p' & w' & E'). exists (mkCore (at_clock p' s) w' []).
  split; [|exact Hr]. assert (at_clock p s = s) as Es by (destruct s; cbn in *; by subst). by rewrite Es in E'.
Qed.

(** A minimum beyond the model.  [min_tokens] may be as large as [max_tokens], which
    is only set to the rest of the model's length when it is absent; while there are fewer
    output tokens, [check_stop] returns before it looks at the length.  A request of 62
    tokens in a model of 64 that asks for 10 is given two tokens and then none, and is never
    told that it ended: no number of steps finishes it. *)
Lemma long_minimum_stalls : ∃ k, kv_init 5 false 32 = Ok k ∧ stalls k 62 (mkSampling 100 10 None [] None).
Proof.
  eexists. split; [vm_compute; reflexivity|]. apply stalls_at. intros t. eexists _, 4%positive, _, _.
  split; [vm_compute; reflexivity|]. split; [done|]. split; [done|]. split; [vm_compute; by eexists|]. intros p w tensors tok. eexists. vm_compute. reflexivity.
Qed.

(** A cache of exactly the model's length.  The check at the start asks for the memory of
    the blocks of one request of the model's length, and the pool keeps one of them as its
    null block.  In such a cache of two blocks a request of 31 tokens that may have 8 more,
    within the 64 of the model, is given two tokens; the block for the next is refused, the
    request preempts itself, and it is never admitted again. *)
Lemma null_block_stalls : ∃ k, kv_init (cdiv (max_model_len stall_kv) (kv_block_size stall_kv)) false 32 = Ok k ∧ stalls k 31 (mkSampling 8 0 None [] None).
Proof.
  eexists. split; [vm_compute; reflexivity|]. apply stalls_at. intros t. eexists _, 4%positive, _, _.
  split; [vm_compute; reflexivity|]. split; [done|]. split; [done|]. split; [vm_compute; by eexists|]. intros p w tensors tok. eexists. vm_compute. reflexivity.
Qed.
End Stalls.
