(* ===== verification/PromptAttention.v ===== *)
(** * Dense attention of a prompt

    [triton_prefill_attention.py]: [_fwd_kernel] and its launcher
    [context_attention_fwd], which [_forward_rabit_kv2] calls on the first chunk of a
    request.  A program computes a block of query rows of one sequence under one
    head, in a running softmax over tiles of keys; the grid is the stores of its
    programs ([Stores]).

    Tensors are contiguous, of shape [tokens, heads, head_dim].  Keys and values are
    the float32 values their elements hold; [p.to(v.dtype)] is a rounding.  A masked
    score is [-1e8], not minus infinity: that a masked key has no weight is a fact of
    the arithmetic, stated in [TritonPromptLaws]. *)

From Stdlib Require Import ZArith Lia.
From stdpp Require Import base tactics numbers list option.
From S2P Require Import Prelude Torch Quant Tab Triton FixedTorch Decoded Stores Int3Cache Attention AttnHelpers FastAppend TailPrep DecodeState.

(** The further operations of the kernel and of its launcher. *)
Class TritonPrompt `{TF : TorchFloat} := {
  tl_exp2 : f32 → f32;
  tl_neg_1e8 : f32;                        (* -1.0e8 *)
  tl_dot_acc : list f32 → list f32 → f32 → f32;  (* an element of tl.dot(p, v, acc) *)
  py_inv_sqrt : nat → f32;                 (* 1.0 / (Lq ** 0.5) *)
  py_times_rcp_ln2 : f32 → f32             (* sm_scale * RCP_LN2, as a float32 argument *)
}.

Section PromptAttention.
Context `{TF : TorchFloat} {TR : TritonFloat} {TA : TritonReduce} {TS : TritonScores} {TP : TritonPrompt}.
Context {B : Type} {FT : FloatType B}.

(** ** The kernel *)

Record PrefillArgs := mkPrefillArgs {
  p_sm_scale : f32;
  p_B_Start_Loc : list Z;
  p_B_Seqlen : list Z;
  p_stride_qbs : nat; p_stride_qh : nat;
  p_stride_kbs : nat; p_stride_kh : nat;
  p_stride_vbs : nat; p_stride_vh : nat;
  p_stride_obs : nat; p_stride_oh : nat;
  p_kv_group_num : nat;
  p_BLOCK_M : nat;
  p_BLOCK_DMODEL : nat;
  p_BLOCK_N : nat;
  p_IS_CAUSAL : bool;
  p_SLIDING_WINDOW_Q : Z;
  p_SLIDING_WINDOW_K : Z;
  p_Lk : nat;
  p_to_v_dtype : f32 → f32
}.

(** The lanes of a sequence: keys and values by position and dimension. *)
Record Lanes := mkLanes { ln_key : Z → nat → f32; ln_value : Z → nat → f32 }.

Definition device_lanes (a : PrefillArgs) (K V : list f32) (start len : Z) (cur_kv_head : nat) : Lanes :=
  let load mem bs h pos d :=
    if (pos <? len)%Z && (d <? p_Lk a)%nat then nth (Z.to_nat (start + pos) * bs + cur_kv_head * h + d) mem f32_zero else f32_zero in
  mkLanes (load K (p_stride_kbs a) (p_stride_kh a)) (load V (p_stride_vbs a) (p_stride_vh a)).

(** The mask of a query and a key position. *)
Definition prompt_mask (a : PrefillArgs) (len pos_q pos_k : Z) : bool :=
  let mask := (pos_k <? len)%Z in
  let mask := if p_IS_CAUSAL a then mask && (pos_k <=? pos_q)%Z else mask in
  let mask := if (0 <? p_SLIDING_WINDOW_Q a)%Z then mask && (pos_q - pos_k <=? p_SLIDING_WINDOW_Q a)%Z else mask in
  if (0 <? p_SLIDING_WINDOW_K a)%Z then mask && (pos_k - pos_q <=? p_SLIDING_WINDOW_K a)%Z else mask.

Definition prompt_score (a : PrefillArgs) (ln : Lanes) (len pos_q : Z) (q : list f32) (pos_k : Z) : f32 :=
  if prompt_mask a len pos_q pos_k then f32_mul (tl_dot q (tab (p_BLOCK_DMODEL a) (ln_key ln pos_k))) (p_sm_scale a) else tl_neg_1e8.

(** One iteration on [(m_i, l_i, acc)]. *)
Definition prompt_tile (a : PrefillArgs) (ln : Lanes) (len pos_q : Z) (q : list f32) (st : f32 * f32 * list f32) (tile : nat) :
    f32 * f32 * list f32 :=
  let '(m_i, l_i, acc) := st in
  let pos_k n := (Z.of_nat (tile * p_BLOCK_N a) + Z.of_nat n)%Z in
  let qk := tab (p_BLOCK_N a) (λ n, prompt_score a ln len pos_q q (pos_k n)) in
  let m_ij := tl_maximum m_i (tl_max qk) in
  let p := map (λ s, tl_exp2 (f32_sub s m_ij)) qk in
  let alpha := tl_exp2 (f32_sub m_i m_ij) in
  let p_v := map (p_to_v_dtype a) p in
  (m_ij, f32_add (f32_mul l_i alpha) (tl_sum p),
   tab (p_BLOCK_DMODEL a) (λ d, tl_dot_acc p_v (tab (p_BLOCK_N a) (λ n, ln_value ln (pos_k n) d)) (f32_mul (nth d acc f32_zero) alpha))).

(** [range(0, end_n_limit, BLOCK_N)], and the row divided by its weight. *)
Definition prompt_row (a : PrefillArgs) (ln : Lanes) (len pos_q : Z) (q : list f32) (start_m : nat) : list f32 :=
  let end_n := if p_IS_CAUSAL a then Z.min len (Z.of_nat ((start_m + 1) * p_BLOCK_M a)) else len in
  let block_mask := if (Z.of_nat (p_BLOCK_M a * start_m) <? len)%Z then 1%Z else 0%Z in
  let tiles := Z.to_nat (cdiv_fn (block_mask * end_n) (Z.of_nat (p_BLOCK_N a))) in
  let '(m_i, l_i, acc) := fold_left (prompt_tile a ln len pos_q q) (seq 0 tiles)
    (tl_neg_inf, f32_zero, tab (p_BLOCK_DMODEL a) (λ _, f32_zero)) in
  map (λ x, tl_div x l_i) acc.

(** The query lanes of a position. *)
Definition prompt_query (a : PrefillArgs) (Q : list B) (start pos_q : Z) (cur_head : nat) : list f32 :=
  tab (p_BLOCK_DMODEL a) (λ d, if (d <? p_Lk a)%nat
    then ft_load (nth (Z.to_nat (start + pos_q) * p_stride_qbs a + cur_head * p_stride_qh a + d) Q ft_zero) else f32_zero).

(** The program [(cur_batch, cur_head, start_m)]: the rows inside the sequence. *)
Definition _fwd_kernel (a : PrefillArgs) (Q : list B) (K V : list f32) (cur_batch cur_head start_m : nat) : list (Store B) :=
  let cur_kv_head := (cur_head / p_kv_group_num a)%nat in
  let len := nth cur_batch (p_B_Seqlen a) 0%Z in
  let start := nth cur_batch (p_B_Start_Loc a) 0%Z in
  let ln := device_lanes a K V start len cur_kv_head in
  omap (λ i,
    let offs_m := Z.of_nat (start_m * p_BLOCK_M a + i) in
    if (offs_m <? len)%Z then
      Some ((Z.to_nat (start + offs_m) * p_stride_obs a + cur_head * p_stride_oh a)%nat,
            map ft_cast (take (p_Lk a) (prompt_row a ln len offs_m (prompt_query a Q start offs_m cur_head) start_m)))
    else None) (seq 0 (p_BLOCK_M a)).

(** ** The launcher *)

Definition get_block_size (float32 device_80 : bool) : nat := if float32 then 32 else if device_80 then 128 else 64.

Record PrefillCall := mkPrefillCall {
  pc_q : list B;
  pc_k : list f32;
  pc_v : list f32;
  pc_tokens : nat;
  pc_heads : nat;
  pc_kv_heads : nat;
  pc_head_dim : nat;
  pc_float32 : bool;                       (* q.dtype == torch.float32 *)
  pc_device_80 : bool;
  pc_to_v_dtype : f32 → f32;
  pc_b_start_loc : list Z;
  pc_b_seq_len : list Z;
  pc_max_input_len : Z;
  pc_is_causal : bool;
  pc_softmax_scale : option f32;
  pc_sliding_window_q : option Z;
  pc_sliding_window_k : option Z
}.

Definition prefill_args (x : PrefillCall) : PrefillArgs :=
  let BLOCK := get_block_size (pc_float32 x) (pc_device_80 x) in
  let row heads := (heads * pc_head_dim x)%nat in
  mkPrefillArgs (py_times_rcp_ln2 (match pc_softmax_scale x with Some s => s | None => py_inv_sqrt (pc_head_dim x) end))
    (pc_b_start_loc x) (pc_b_seq_len x)
    (row (pc_heads x)) (pc_head_dim x) (row (pc_kv_heads x)) (pc_head_dim x) (row (pc_kv_heads x)) (pc_head_dim x)
    (row (pc_heads x)) (pc_head_dim x) (pc_heads x / pc_kv_heads x) BLOCK (next_power_of_2 (pc_head_dim x)) BLOCK
    (pc_is_causal x) (default 0%Z (pc_sliding_window_q x)) (default 0%Z (pc_sliding_window_k x)) (pc_head_dim x) (pc_to_v_dtype x).

Definition context_attention_fwd (x : PrefillCall) (o : list B) : list B :=
  let a := prefill_args x in
  let blocks := Z.to_nat (cdiv (pc_max_input_len x) (Z.of_nat (p_BLOCK_M a))) in
  apply_stores (flat_map (λ b, flat_map (λ h, flat_map (λ m, _fwd_kernel a (pc_q x) (pc_k x) (pc_v x) b h m) (seq 0 blocks))
    (seq 0 (pc_heads x))) (seq 0 (length (pc_b_seq_len x)))) o.

(** ** The specification *)

Section Rows.
Variable x : PrefillCall.
Let a : PrefillArgs := prefill_args x.
Let D : nat := pc_head_dim x.
Let BLOCK : nat := p_BLOCK_M a.
Let n : nat := length (pc_b_seq_len x).

Definition seq_start (b : nat) : Z := nth b (pc_b_start_loc x) 0%Z.
Definition prompt_len (b : nat) : Z := nth b (pc_b_seq_len x) 0%Z.

(** The cell of a token under a head. *)
Definition prompt_cell (b i h : nat) : nat := (Z.to_nat (seq_start b + Z.of_nat i) * pc_heads x + h)%nat.

(** Query [i] of sequence [b] under head [h] against that sequence's keys and values. *)
Definition prompt_output (b i h : nat) : list B :=
  let ln := device_lanes a (pc_k x) (pc_v x) (seq_start b) (prompt_len b) (h / p_kv_group_num a) in
  map ft_cast (take D (prompt_row a ln (prompt_len b) (Z.of_nat i) (prompt_query a (pc_q x) (seq_start b) (Z.of_nat i) h) (i / BLOCK))).

(** Sequences inside the tensors, none longer than announced, no two overlapping. *)
Definition prefill_ok (o : list B) : Prop :=
  (∀ b, (b < n)%nat → (0 ≤ seq_start b)%Z ∧ (prompt_len b ≤ pc_max_input_len x)%Z
     ∧ (seq_start b + prompt_len b ≤ Z.of_nat (pc_tokens x))%Z)
  ∧ (∀ b b', (b < n)%nat → (b' < n)%nat → b ≠ b' →
       (seq_start b + prompt_len b ≤ seq_start b' ∨ seq_start b' + prompt_len b' ≤ seq_start b)%Z)
  ∧ length o = (pc_tokens x * pc_heads x * D)%nat.

Lemma prompt_row_length ln len pos_q q start_m : length (prompt_row a ln len pos_q q start_m) = p_BLOCK_DMODEL a.
Proof.
  unfold prompt_row. set (st := (tl_neg_inf, f32_zero, _)). assert (length st.2 = p_BLOCK_DMODEL a) as H by apply tab_length.
  clearbody st. generalize dependent st.
  set (l := seq 0 _). clearbody l. induction l as [|j l IH]; intros st H; cbn [fold_left].
  - destruct st as [[m s] acc]. by rewrite length_map.
  - apply IH. destruct st as [[m s] acc]. apply tab_length.
Qed.

Lemma prompt_output_length b i h : length (prompt_output b i h) = D.
Proof.
  unfold prompt_output. rewrite length_map, length_take, prompt_row_length.
  change (p_BLOCK_DMODEL a) with (next_power_of_2 D). pose proof (next_power_of_2_ge D). lia.
Qed.

Lemma block_positive : (0 < BLOCK)%nat.
Proof. unfold BLOCK, a, prefill_args, get_block_size. cbn [p_BLOCK_M]. destruct (pc_float32 x), (pc_device_80 x); lia. Qed.

(** The stores of the grid: a cell for each query of each sequence under each head. *)
Lemma grid_stores st :
  (∀ b, (b < n)%nat → (prompt_len b ≤ pc_max_input_len x)%Z) →
  In st (flat_map (λ b, flat_map (λ h, flat_map (λ m, _fwd_kernel a (pc_q x) (pc_k x) (pc_v x) b h m)
       (seq 0 (Z.to_nat (cdiv (pc_max_input_len x) (Z.of_nat BLOCK))))) (seq 0 (pc_heads x))) (seq 0 n))
  ↔ ∃ b h i, (b < n)%nat ∧ (h < pc_heads x)%nat ∧ (Z.of_nat i < prompt_len b)%Z ∧ st = ((prompt_cell b i h * D)%nat, prompt_output b i h).
Proof.
  intros Hmax. pose proof block_positive as HB.
  assert (∀ b h m i, (i < BLOCK)%nat →
    ((Z.to_nat (seq_start b + Z.of_nat (m * BLOCK + i)) * p_stride_obs a + h * p_stride_oh a)%nat,
       map ft_cast (take (p_Lk a) (prompt_row a (device_lanes a (pc_k x) (pc_v x) (seq_start b) (prompt_len b) (h / p_kv_group_num a))
         (prompt_len b) (Z.of_nat (m * BLOCK + i)) (prompt_query a (pc_q x) (seq_start b) (Z.of_nat (m * BLOCK + i)) h) m)))
    = ((prompt_cell b (m * BLOCK + i) h * D)%nat, prompt_output b (m * BLOCK + i) h)) as Est.
  { intros b h m i Hi. unfold prompt_output, prompt_cell. rewrite Nat.div_add_l, (Nat.div_small i), Nat.add_0_r by lia. f_equal.
    change (p_stride_obs a) with (pc_heads x * D)%nat. change (p_stride_oh a) with D. lia. }
  rewrite in_flat_map. split.
  - intros (b & Hb%in_seq & (h & Hh%in_seq & (m & Hm & Hin)%in_flat_map)%in_flat_map). unfold _fwd_kernel in Hin.
    apply list_elem_of_In, list_elem_of_omap in Hin as (i & Hi & E). apply list_elem_of_In, in_seq in Hi.
    change (nth b (p_B_Seqlen a) 0%Z) with (prompt_len b) in E. change (nth b (p_B_Start_Loc a) 0%Z) with (seq_start b) in E.
    fold BLOCK in E, Hi.
    destruct (Z.ltb_spec (Z.of_nat (m * BLOCK + i)) (prompt_len b)) as [Hlt|]; [|done]. apply (inj Some) in E as <-.
    exists b, h, (m * BLOCK + i)%nat. rewrite Est by lia. repeat (split; [lia|]). done.
  - intros (b & h & i & Hb & Hh & Hi & ->). exists b. split; [apply in_seq; lia|]. apply in_flat_map. exists h. split; [apply in_seq; lia|].
    apply in_flat_map. exists (i / BLOCK)%nat. pose proof (Nat.div_mod_eq i BLOCK) as Ei. pose proof (Nat.mod_upper_bound i BLOCK ltac:(lia)) as Hr.
    specialize (Hmax b Hb). split.
    + apply in_seq. split; [lia|]. rewrite <-(Z2Nat.id (pc_max_input_len x)) by lia. rewrite cdiv_nat by lia. rewrite Nat2Z.id.
      cbn [Nat.add].
      apply (Nat.lt_le_trans _ ((i + BLOCK) / BLOCK)); [|apply Nat.Div0.div_le_mono; lia].
      replace (i + BLOCK)%nat with (1 * BLOCK + i)%nat by lia. rewrite Nat.div_add_l by lia. lia.
    + unfold _fwd_kernel. apply list_elem_of_In, list_elem_of_omap. exists (i mod BLOCK)%nat. split; [apply list_elem_of_In, in_seq; fold BLOCK; lia|].
      change (nth b (p_B_Seqlen a) 0%Z) with (prompt_len b). change (nth b (p_B_Start_Loc a) 0%Z) with (seq_start b).
      fold BLOCK. replace (i / BLOCK * BLOCK + i mod BLOCK)%nat with i by lia.
      rewrite (proj2 (Z.ltb_lt _ _) Hi). f_equal. pose proof (Est b h (i / BLOCK)%nat (i mod BLOCK)%nat Hr) as E.
      replace (i / BLOCK * BLOCK + i mod BLOCK)%nat with i in E by lia. exact E.
Qed.

Lemma prompt_cell_unique b b' i i' h h' :
  (∀ b b', (b < n)%nat → (b' < n)%nat → b ≠ b' →
     (seq_start b + prompt_len b ≤ seq_start b' ∨ seq_start b' + prompt_len b' ≤ seq_start b)%Z) →
  (∀ b, (b < n)%nat → (0 ≤ seq_start b)%Z) →
  (b < n)%nat → (b' < n)%nat → (Z.of_nat i < prompt_len b)%Z → (Z.of_nat i' < prompt_len b')%Z →
  (h < pc_heads x)%nat → (h' < pc_heads x)%nat → prompt_cell b i h = prompt_cell b' i' h' → b = b' ∧ i = i' ∧ h = h'.
Proof.
  intros Hd H0 Hb Hb' Hi Hi' Hh Hh' E. unfold prompt_cell in E. apply pair_inj in E as [E ->]; [|done|done].
  pose proof (H0 b Hb). pose proof (H0 b' Hb'). destruct (Nat.eq_dec b b') as [<-|Hne]; [split; [done|]; split; [lia|done]|].
  destruct (Hd b b' Hb Hb' Hne); lia.
Qed.

Lemma prompt_cell_fits b i h :
  (0 ≤ seq_start b)%Z → (seq_start b + prompt_len b ≤ Z.of_nat (pc_tokens x))%Z → (Z.of_nat i < prompt_len b)%Z → (h < pc_heads x)%nat →
  (prompt_cell b i h * D + D ≤ pc_tokens x * pc_heads x * D)%nat.
Proof.
  intros H1 H2 Hi Hh. assert (prompt_cell b i h + 1 ≤ pc_tokens x * pc_heads x)%nat as H by (unfold prompt_cell; nia). nia.
Qed.
End Rows.

(** ** A prompt of the serving path *)

Definition is_bf16 (x : dev_tensor) : bool := match dt_data x with TBf16 _ => true | TFloat _ => false end.

(** The call of [_forward_rabit_kv2] on a first chunk: one sequence, causal. *)
Definition prompt_call (float32 device_80 : bool) (query_heads : nat) (q_seq : list (list B)) (k_seq v_seq : dev_tensor) (scale : f32) :
    PrefillCall :=
  mkPrefillCall (concat q_seq) (flat (t_rows (as_f32 k_seq))) (flat (t_rows (as_f32 v_seq))) (length q_seq) query_heads
    (t_heads (as_f32 k_seq)) (t_dim (as_f32 k_seq)) float32 device_80
    (λ p, if is_bf16 v_seq then f32_of_bf16 (bf16_of_f32 p) else p)
    [0%Z; Z.of_nat (length q_seq)] [Z.of_nat (length q_seq)] (Z.of_nat (length q_seq)) true (Some scale) (Some (-1)%Z) (Some (-1)%Z).

(** The rows it leaves in [output[q0:q1]]. *)
Definition dense_prompt (float32 device_80 : bool) (query_heads : nat) (q_seq : list (list B)) (k_seq v_seq : dev_tensor) (scale : f32) :
    list (list B) :=
  let x := prompt_call float32 device_80 query_heads q_seq k_seq v_seq scale in
  let width := (query_heads * pc_head_dim x)%nat in
  view2 (length q_seq) width (context_attention_fwd x (ft_empty (length q_seq * width))).

(** A mask that leaves the keys up to the query. *)
Definition causal_only (a : PrefillArgs) : Prop :=
  p_IS_CAUSAL a = true ∧ (p_SLIDING_WINDOW_Q a ≤ 0)%Z ∧ (p_SLIDING_WINDOW_K a ≤ 0)%Z ∧ (0 < p_BLOCK_N a)%nat.

Lemma causal_mask a len pos_q pos_k : causal_only a → prompt_mask a len pos_q pos_k = ((pos_k <? len) && (pos_k <=? pos_q))%Z.
Proof.
  intros (Hc & Hq & Hk & _). unfold prompt_mask. rewrite Hc.
  by rewrite (proj2 (Z.ltb_ge 0 (p_SLIDING_WINDOW_Q a)) Hq), (proj2 (Z.ltb_ge 0 (p_SLIDING_WINDOW_K a)) Hk).
Qed.
End PromptAttention.

(** The arithmetic of a masked key: next to an ordinary maximum its weight is zero, and
    a value of weight zero, if finite, does not enter the dot product. *)
Class TritonPromptLaws `{TF : TorchFloat} {TR : TritonFloat} {TA : TritonReduce} (TP : TritonPrompt) := {
  tl_ordinary : f32 → Prop;
  tl_finite : f32 → Prop;
  max_ordinary : ∀ m l,
    (m = tl_neg_inf ∧ (∃ s, In s l ∧ tl_ordinary s)) ∨ tl_ordinary m → (∀ s, In s l → tl_ordinary s ∨ s = tl_neg_1e8) →
    tl_ordinary (tl_maximum m (tl_max l));
  exp2_masked : ∀ m, tl_ordinary m → tl_exp2 (f32_sub tl_neg_1e8 m) = f32_zero;
  dot_acc_zero : ∀ p v v' acc,
    length v = length p → length v' = length p →
    (∀ i, (i < length p)%nat →
       nth i v f32_zero = nth i v' f32_zero
       ∨ nth i p f32_zero = f32_zero ∧ tl_finite (nth i v f32_zero) ∧ tl_finite (nth i v' f32_zero)) →
    tl_dot_acc p v acc = tl_dot_acc p v' acc
}.

Section Causal.
Context `{TF : TorchFloat} {TR : TritonFloat} {TA : TritonReduce} {TS : TritonScores} {TP : TritonPrompt}.
Context {TPL : TritonPromptLaws TP}.
Variables (a : PrefillArgs) (ln ln' : Lanes) (len pos_q : Z) (q : list f32).
Hypotheses (Ha : causal_only a) (Hz : p_to_v_dtype a f32_zero = f32_zero) (Hq : (0 ≤ pos_q < len)%Z).
Hypothesis (Hagree : ∀ pos d, (0 ≤ pos ≤ pos_q)%Z → ln_key ln pos d = ln_key ln' pos d ∧ ln_value ln pos d = ln_value ln' pos d).
Hypothesis (Hrest : ∀ pos d, (pos_q < pos)%Z →
  ln_value ln pos d = ln_value ln' pos d ∨ tl_finite (ln_value ln pos d) ∧ tl_finite (ln_value ln' pos d)).
Hypothesis (Hscore : ∀ pos, (0 ≤ pos ≤ pos_q)%Z → tl_ordinary (f32_mul (tl_dot q (tab (p_BLOCK_DMODEL a) (ln_key ln pos))) (p_sm_scale a))).

Lemma score_agrees pos : (0 ≤ pos)%Z → prompt_score a ln len pos_q q pos = prompt_score a ln' len pos_q q pos.
Proof.
  intros Hp. unfold prompt_score. rewrite (causal_mask a _ _ _ Ha). destruct (Z.ltb_spec pos len), (Z.leb_spec pos pos_q); cbn [andb]; try done.
  rewrite (tab_ext _ _ (ln_key ln' pos)); [done|]. intros d _. by apply Hagree.
Qed.

Lemma score_kind pos : (0 ≤ pos)%Z →
  if (pos <=? pos_q)%Z then tl_ordinary (prompt_score a ln len pos_q q pos) else prompt_score a ln len pos_q q pos = tl_neg_1e8.
Proof.
  intros Hp. unfold prompt_score. rewrite (causal_mask a _ _ _ Ha). destruct (Z.leb_spec pos pos_q) as [H|H].
  - rewrite (proj2 (Z.ltb_lt pos len)) by lia. cbn [andb]. apply Hscore. lia.
  - by rewrite andb_false_r.
Qed.

(** The running maximum is ordinary from the first tile on, so both lanes give the same
    tile. *)
Lemma tile_agrees st tile :
  (tile = 0%nat ∧ st.1.1 = tl_neg_inf) ∨ tl_ordinary st.1.1 →
  prompt_tile a ln len pos_q q st tile = prompt_tile a ln' len pos_q q st tile
  ∧ tl_ordinary (prompt_tile a ln len pos_q q st tile).1.1.
Proof.
  destruct st as [[m l] acc]. cbn [fst]. intros Hm. destruct Ha as (_ & _ & _ & HN).
  set (pos := λ k : nat, (Z.of_nat (tile * p_BLOCK_N a) + Z.of_nat k)%Z). assert (∀ k, 0 ≤ pos k)%Z as Hpos by (intros k; unfold pos; lia).
  assert (tl_ordinary (tl_maximum m (tl_max (tab (p_BLOCK_N a) (λ k, prompt_score a ln len pos_q q (pos k)))))) as Hord.
  { apply max_ordinary.
    - destruct Hm as [[-> ->]|Hm]; [left|by right]. split; [done|]. exists (prompt_score a ln len pos_q q (pos 0)). split.
      + unfold tab. apply in_map_iff. exists 0%nat. split; [done|]. apply in_seq. lia.
      + pose proof (score_kind (pos 0) (Hpos 0)) as H. change (pos 0) with 0%Z in *. by rewrite (proj2 (Z.leb_le 0 pos_q)) in H by lia.
    - intros s (k & <- & _)%in_map_iff. pose proof (score_kind (pos k) (Hpos k)) as H. destruct (pos k <=? pos_q)%Z; [by left|by right]. }
  unfold prompt_tile. fold pos. cbn [fst]. split; [|exact Hord].
  rewrite <-(tab_ext (p_BLOCK_N a) (λ k, prompt_score a ln len pos_q q (pos k)) (λ k, prompt_score a ln' len pos_q q (pos k)))
    by (intros k _; apply score_agrees, Hpos).
  f_equal. apply tab_ext. intros d _. apply dot_acc_zero; [by rewrite !length_map, !tab_length..|].
  intros k Hk. rewrite !length_map, tab_length in Hk. rewrite !tab_nth by done.
  destruct (Z.le_gt_cases (pos k) pos_q) as [Hle|Hgt]; [left; apply Hagree; split; [apply Hpos|done]|].
  destruct (Hrest (pos k) d Hgt) as [E|Hf]; [by left|right]. split; [|exact Hf]. unfold tab. rewrite !map_map, nth_tabulate by done.
  pose proof (score_kind (pos k) (Hpos k)) as E. rewrite (proj2 (Z.leb_gt _ _) Hgt) in E. rewrite E, exp2_masked by exact Hord. exact Hz.
Qed.

Lemma row_agrees start_m : prompt_row a ln len pos_q q start_m = prompt_row a ln' len pos_q q start_m.
Proof.
  unfold prompt_row. set (tiles := Z.to_nat _). clearbody tiles.
  assert (∀ k st, tl_ordinary st.1.1 ∨ k = 0%nat ∧ st.1.1 = tl_neg_inf → ∀ m,
    fold_left (prompt_tile a ln len pos_q q) (seq k m) st = fold_left (prompt_tile a ln' len pos_q q) (seq k m) st) as H.
  { intros k st Hst m. revert k st Hst. induction m as [|m IH]; intros k st Hst; [done|]. cbn [seq fold_left].
    destruct (tile_agrees st k) as [<- Ho]; [tauto|]. apply IH. by left. }
  rewrite H; [done|]. right. by split.
Qed.
End Causal.

(** ** Properties *)

Section Properties.
Context `{TF : TorchFloat} {TR : TritonFloat} {TA : TritonReduce} {TS : TritonScores} {TP : TritonPrompt}.
Context {B : Type} {FT : FloatType B}.

(** The stores of the grid, and a cell it stores. *)
Lemma context_attention_stores (x : PrefillCall (B := B)) (o : list B) (D := pc_head_dim x) (n := length (pc_b_seq_len x)) :
  prefill_ok x o →
  ∃ ss, context_attention_fwd x o = apply_stores ss o ∧ cell_stores D (length o) ss
  ∧ ∀ st, In st ss ↔ ∃ b h i, (b < n)%nat ∧ (h < pc_heads x)%nat ∧ (Z.of_nat i < prompt_len x b)%Z
      ∧ st = ((prompt_cell x b i h * D)%nat, prompt_output x b i h).
Proof.
  intros (Hb & Hdis & Hl). pose proof (λ st, grid_stores x st (λ b H, proj1 (proj2 (Hb b H)))) as Hst. cbv zeta in Hst.
  eexists. split; [reflexivity|]. split; [|exact Hst]. intros st (b & h & i & Hbn & Hh & Hi & ->)%Hst.
  exists (prompt_cell x b i h). cbn [fst snd]. fold D. rewrite Hl. destruct (Hb b Hbn) as (H1 & _ & H2).
  split; [done|]. split; [apply prompt_output_length|]. by apply prompt_cell_fits.
Qed.

Lemma context_attention_cell (x : PrefillCall (B := B)) (o : list B) b i h d (D := pc_head_dim x) :
  prefill_ok x o → (b < length (pc_b_seq_len x))%nat → (Z.of_nat i < prompt_len x b)%Z → (h < pc_heads x)%nat → (d < D)%nat →
  nth (prompt_cell x b i h * D + d) (context_attention_fwd x o) ft_zero = nth d (prompt_output x b i h) ft_zero.
Proof.
  intros Hok Hb Hi Hh Hd. destruct (context_attention_stores x o Hok) as (ss & -> & Hc & Hst). fold D in Hc, Hst.
  apply cells_read; [done|apply Hst; by exists b, h, i|done|].
  intros v (b' & h' & i' & Hb' & Hh' & Hi' & [= Ec ->])%Hst. destruct Hok as (H0 & Hdis & _).
  destruct (prompt_cell_unique x b b' i i' h h') as (-> & -> & ->); try done; [|nia]. intros b0 Hb0. apply (H0 b0 Hb0).
Qed.

(** The dense attention of a batch.  For sequences inside the tensors, not longer
    than announced and not overlapping, every query of every sequence under every head
    gets the running softmax over the keys and values of its own sequence and its
    key-value head; every row of no sequence keeps what the output held. *)
Theorem context_attention_rows (x : PrefillCall (B := B)) (o : list B) (D := pc_head_dim x) (n := length (pc_b_seq_len x)) :
  prefill_ok x o →
  let o' := context_attention_fwd x o in
  length o' = length o
  ∧ (∀ b i h d, (b < n)%nat → (Z.of_nat i < prompt_len x b)%Z → (h < pc_heads x)%nat → (d < D)%nat →
       nth (prompt_cell x b i h * D + d) o' ft_zero = nth d (prompt_output x b i h) ft_zero)
  ∧ (∀ t h d, (h < pc_heads x)%nat → (d < D)%nat →
       (∀ b, (b < n)%nat → (Z.of_nat t < seq_start x b ∨ seq_start x b + prompt_len x b ≤ Z.of_nat t)%Z) →
       nth ((t * pc_heads x + h) * D + d) o' ft_zero = nth ((t * pc_heads x + h) * D + d) o ft_zero).
Proof.
  intros Hok o'. destruct (context_attention_stores x o Hok) as (ss & E & Hc & Hst). fold D n in Hc, Hst. unfold o'. split; [|split].
  - rewrite E. by apply (cells_length D).
  - intros b i h d. by apply context_attention_cell.
  - intros t h d Hh Hd Ht. rewrite E. apply (cells_frame D); [done|done|]. intros v (b & h' & i & Hbn & Hh' & Hi & [= Ec ->])%Hst.
    destruct Hok as (H0 & _). destruct (H0 b Hbn) as (H1 & _). assert (t * pc_heads x + h = prompt_cell x b i h')%nat as Ecell by nia.
    unfold prompt_cell in Ecell. apply pair_inj in Ecell as [Ecell _]; [|done|done]. destruct (Ht b Hbn); lia.
Qed.

(** ** The prompt of the serving path *)

Section Prompt.
Context {TPL : TritonPromptLaws TP} {TZ : TritonZero}.
Variables (float32 device_80 : bool) (query_heads : nat) (q_seq : list (list B)) (scale : f32).
Let m : nat := length q_seq.

(** Keys and values of the query's tokens, in whole groups of query heads. *)
Definition prompt_shapes (k v : dev_tensor) : Prop :=
  let K := as_f32 k in let V := as_f32 v in
  wf_tensor3 K ∧ wf_tensor3 V ∧ t_tokens K = m ∧ t_tokens V = m ∧ t_heads V = t_heads K ∧ t_dim V = t_dim K
  ∧ (query_heads = t_heads K * (query_heads / t_heads K))%nat ∧ (0 < query_heads)%nat.

(** The score of key [t] for query [j] under head [h]. *)
Definition prompt_score_of (k v : dev_tensor) (j h t : nat) : f32 :=
  let x := prompt_call float32 device_80 query_heads q_seq k v scale in
  let a := prefill_args x in
  f32_mul (tl_dot (prompt_query a (pc_q x) 0 (Z.of_nat j) h)
             (tab (p_BLOCK_DMODEL a) (ln_key (device_lanes a (pc_k x) (pc_v x) 0 (Z.of_nat m) (h / p_kv_group_num a)) (Z.of_nat t))))
          (p_sm_scale a).

Lemma flat_agree {E} (x y : list (list (list E))) nh nd j i (e : E) :
  Forall (wf_row nh nd) x → Forall (wf_row nh nd) y → take j x = take j y → (j ≤ length x)%nat → (j ≤ length y)%nat →
  (i < j * (nh * nd))%nat → nth i (flat x) e = nth i (flat y) e.
Proof.
  intros Hx Hy E1 Lx Ly Hi. rewrite <-(take_drop j x), <-(take_drop j y), E1, !flat_app.
  rewrite !app_nth1; [done| |]; erewrite flat_length by (by apply Forall_take); rewrite length_take, Nat.min_l by done; done.
Qed.

Lemma prompt_ok_call k v o :
  prompt_shapes k v → length o = (m * (query_heads * t_dim (as_f32 k)))%nat →
  prefill_ok (prompt_call float32 device_80 query_heads q_seq k v scale) o.
Proof.
  intros Hs Ho. split; [|split].
  - intros [|b] Hb; [|cbn in Hb; lia]. unfold seq_start, prompt_len. cbn. fold m. lia.
  - intros [|b] [|b'] Hb Hb' Hne; cbn in Hb, Hb'; lia.
  - rewrite Ho. cbn. fold m. lia.
Qed.

Lemma dense_prompt_row k v j :
  prompt_shapes k v → (j < m)%nat →
  nth j (dense_prompt float32 device_80 query_heads q_seq k v scale) []
  = tab (query_heads * t_dim (as_f32 k)) (λ i, let x := prompt_call float32 device_80 query_heads q_seq k v scale in
      nth (i mod t_dim (as_f32 k)) (prompt_output x 0 j (i / t_dim (as_f32 k))) ft_zero).
Proof.
  intros Hs Hj. unfold dense_prompt. set (x := prompt_call float32 device_80 query_heads q_seq k v scale).
  change (pc_head_dim x) with (t_dim (as_f32 k)). set (D := t_dim (as_f32 k)). fold m.
  set (o := ft_empty (m * (query_heads * D))). assert (length o = (m * (query_heads * D))%nat) as Ho by apply ft_empty_length.
  pose proof (prompt_ok_call k v o Hs Ho) as Hok. fold x in Hok.
  rewrite (view2_tab _ _ _ ft_zero).
  2: { rewrite <-Ho. destruct (context_attention_stores x o Hok) as (ss & -> & Hc & _). by apply (cells_length D). }
  rewrite tab_nth by done. apply tab_ext. intros i Hi.
  assert (0 < D)%nat as HD by (destruct D; lia). assert (i / D < query_heads)%nat as Hh by (apply Nat.Div0.div_lt_upper_bound; lia).
  pose proof (Nat.div_mod_eq i D) as Ei. pose proof (Nat.mod_upper_bound i D ltac:(lia)) as Hr.
  rewrite <-(context_attention_cell x o 0 j (i / D) (i mod D) Hok); [|cbn; lia|unfold prompt_len; cbn; fold m; lia|done|done].
  f_equal. unfold prompt_cell, seq_start. change (pc_heads x) with query_heads. change (pc_head_dim x) with D. cbn. nia.
Qed.

(** The lanes of two prompts that agree up to a token. *)
Lemma lanes_agree k v k' v' j (x := prompt_call float32 device_80 query_heads q_seq k v scale) (a := prefill_args x) kh :
  prompt_shapes k v → prompt_shapes k' v' → t_heads (as_f32 k') = t_heads (as_f32 k) → t_dim (as_f32 k') = t_dim (as_f32 k) →
  (j < m)%nat → (kh < t_heads (as_f32 k))%nat →
  take (S j) (t_rows (as_f32 k)) = take (S j) (t_rows (as_f32 k')) → take (S j) (t_rows (as_f32 v)) = take (S j) (t_rows (as_f32 v')) →
  ∀ pos d, (0 ≤ pos ≤ Z.of_nat j)%Z →
  let ln := device_lanes a (flat (t_rows (as_f32 k))) (flat (t_rows (as_f32 v))) 0 (Z.of_nat m) kh in
  let ln' := device_lanes a (flat (t_rows (as_f32 k'))) (flat (t_rows (as_f32 v'))) 0 (Z.of_nat m) kh in
  ln_key ln pos d = ln_key ln' pos d ∧ ln_value ln pos d = ln_value ln' pos d.
Proof.
  intros (K1 & K2 & K3 & K4 & K5 & K6 & _) (K1' & K2' & K3' & K4' & K5' & K6' & _) Eh Ed Hj Hk Ek Ev pos d Hp.
  unfold wf_tensor3, t_tokens in *. rewrite Eh, Ed in *. rewrite K5, K6 in *. rewrite K5', K6' in *.
  unfold device_lanes. cbn [ln_key ln_value]. destruct (Z.ltb_spec pos (Z.of_nat m)); [|done]. destruct (Nat.ltb_spec d (p_Lk a)) as [Hd|]; [|done].
  cbn [andb]. change (p_Lk a) with (t_dim (as_f32 k)) in Hd. change (p_stride_kbs a) with (t_heads (as_f32 k) * t_dim (as_f32 k))%nat.
  change (p_stride_vbs a) with (t_heads (as_f32 k) * t_dim (as_f32 k))%nat. change (p_stride_kh a) with (t_dim (as_f32 k)).
  change (p_stride_vh a) with (t_dim (as_f32 k)).
  assert (Z.to_nat (0 + pos) * (t_heads (as_f32 k) * t_dim (as_f32 k)) + kh * t_dim (as_f32 k) + d < S j * (t_heads (as_f32 k) * t_dim (as_f32 k)))%nat as Hi.
  { pose proof (flat_index (Z.to_nat pos) kh d (S j) (t_heads (as_f32 k)) (t_dim (as_f32 k)) ltac:(lia) Hk Hd). cbn [Z.add]. nia. }
  split; by apply (flat_agree _ _ (t_heads (as_f32 k)) (t_dim (as_f32 k)) (S j)); try lia.
Qed.

(** C29: the dense attention of a prompt is causal.  Two prompts with the same queries
    whose keys and values agree up to token [j] get the same output row [j], whatever
    finite keys and values follow, when the scores of the query with the tokens up to
    its own are ordinary numbers. *)
Theorem dense_prompt_causal (k v k' v' : dev_tensor) (j : nat) :
  prompt_shapes k v → prompt_shapes k' v' →
  t_heads (as_f32 k') = t_heads (as_f32 k) → t_dim (as_f32 k') = t_dim (as_f32 k) → is_bf16 v' = is_bf16 v → (j < m)%nat →
  take (S j) (t_rows (as_f32 k)) = take (S j) (t_rows (as_f32 k')) → take (S j) (t_rows (as_f32 v)) = take (S j) (t_rows (as_f32 v')) →
  (∀ i, tl_finite (nth i (flat (t_rows (as_f32 v))) f32_zero)) → (∀ i, tl_finite (nth i (flat (t_rows (as_f32 v'))) f32_zero)) →
  (∀ h t, (h < query_heads)%nat → (t ≤ j)%nat → tl_ordinary (prompt_score_of k v j h t)) →
  nth j (dense_prompt float32 device_80 query_heads q_seq k v scale) []
  = nth j (dense_prompt float32 device_80 query_heads q_seq k' v' scale) [].
Proof.
  intros Hs Hs' Eh Ed Eb Hj Ek Ev Hf Hf' Hord. rewrite !dense_prompt_row, Ed by done. apply tab_ext. intros i Hi. f_equal.
  set (D := t_dim (as_f32 k)) in *. assert (i / D < query_heads)%nat as Hh by (apply Nat.Div0.div_lt_upper_bound; lia).
  set (h := (i / D)%nat) in *. unfold prompt_output, seq_start, prompt_len.
  set (x := prompt_call float32 device_80 query_heads q_seq k v scale). set (x' := prompt_call float32 device_80 query_heads q_seq k' v' scale).
  assert (prefill_args x' = prefill_args x) as -> by (unfold prefill_args, x, x', prompt_call; cbn; by rewrite Eh, Ed, Eb).
  change (pc_head_dim x') with (t_dim (as_f32 k')). change (pc_head_dim x) with D. rewrite Ed. fold D.
  change (nth 0 (pc_b_seq_len _) 0%Z) with (Z.of_nat m). change (nth 0 (pc_b_start_loc _) 0%Z) with 0%Z. change (pc_q x') with (pc_q x).
  f_equal. f_equal. set (a := prefill_args x). assert (h / p_kv_group_num a < t_heads (as_f32 k))%nat as Hk.
  { destruct Hs as (_ & _ & _ & _ & _ & _ & Eq & Hpos). change (p_kv_group_num a) with (query_heads / t_heads (as_f32 k))%nat.
    apply Nat.Div0.div_lt_upper_bound. lia. }
  apply row_agrees.
  - split; [done|]. split; [done|]. split; [done|]. exact (block_positive x).
  - unfold a, x, prompt_call, prefill_args. cbn. destruct (is_bf16 v); [apply zero_rounded|done].
  - lia.
  - intros pos d Hp. exact (lanes_agree k v k' v' j _ Hs Hs' Eh Ed Hj Hk Ek Ev pos d Hp).
  - intros pos d Hp. unfold device_lanes. cbn [ln_value]. destruct (_ && _); [right|by left]. split; [apply Hf|apply Hf'].
  - intros pos Hp. rewrite <-(Z2Nat.id pos) by lia. apply Hord; [done|lia].
Qed.
End Prompt.
End Properties.

(** ** An instance *)

Section Concrete.
#[local] Existing Instance FixedTorch.
#[local] Existing Instance FixedTriton.
#[local] Existing Instance FixedReduce.
#[local] Existing Instance FixedZero.
#[local] Existing Instance zero_memory.
#[local] Existing Instance bf16_type.

#[local] Existing Instance FixedScores.

#[local] Instance FixedPrompt : @TritonPrompt FixedTorch := {
  tl_exp2 := λ x, Z.max 0 (UNIT + x);
  tl_neg_1e8 := (- 100000000 * UNIT)%Z;
  tl_dot_acc := λ p v acc, fold_left Z.add (zip_with (λ x y, x * y / UNIT)%Z p v) acc;
  py_inv_sqrt := λ d, (UNIT / Z.sqrt (Z.of_nat d))%Z;
  py_times_rcp_ln2 := λ x, (x * 2955 / UNIT)%Z
}.

Lemma fixed_dot (p v v' : list Z) :
  length v = length p → length v' = length p →
  (∀ i, (i < length p)%nat → nth i v 0%Z = nth i v' 0%Z ∨ nth i p 0%Z = 0%Z) →
  zip_with (λ x y, x * y / UNIT)%Z p v = zip_with (λ x y, x * y / UNIT)%Z p v'.
Proof.
  revert v v'. induction p as [|x p IH]; intros [|y v] [|y' v'] H1 H2 H; try done. cbn in H1, H2. cbn [zip_with]. f_equal.
  - by destruct (H 0%nat ltac:(cbn; lia)) as [E|E]; cbn in E; subst.
  - apply IH; [lia|lia|]. intros i Hi. apply (H (S i)). cbn. lia.
Qed.

#[local] Instance FixedPrompt_laws : TritonPromptLaws FixedPrompt.
Proof.
  refine (@Build_TritonPromptLaws FixedTorch FixedTriton FixedReduce FixedPrompt (λ s : Z, (-100000000000 < s)%Z) (λ _, True) _ _ _).
  - intros m l Hm Hl. cbn. destruct Hm as [[_ (s & Hs & Ho)]|Hm].
    + apply list_elem_of_In in Hs. pose proof (amax_ge l s Hs). cbn in *. lia.
    + cbn in *. lia.
  - intros m Hm. cbn in *. unfold UNIT. lia.
  - intros p v v' acc H1 H2 H. change (fold_left Z.add (zip_with (λ x y, x * y / UNIT)%Z p v) acc = fold_left Z.add (zip_with (λ x y, x * y / UNIT)%Z p v') acc).
    f_equal. apply fixed_dot; [done|done|]. intros i Hi. destruct (H i Hi) as [E|[E _]]; [by left|by right].
Defined.

(** Two sequences of two tokens and one, with a token of neither between them. *)
Definition two_prompts : PrefillCall (B := Z) :=
  mkPrefillCall (tab 32 (λ i, Z.of_nat i)) (tab 16 (λ i, Z.of_nat i * 100)%Z) (tab 16 (λ i, 5000 - Z.of_nat i)%Z) 4 2 1 4 false false
    (λ p, p) [0; 3]%Z [2; 1]%Z 2 true None None None.

(** The last head of the second sequence, and the token of no sequence. *)
Lemma context_attention_rows_witness :
  nth ((3 * 2 + 1) * 4 + 2) (context_attention_fwd two_prompts (replicate 32 9%Z)) ft_zero = nth 2 (prompt_output two_prompts 1 0 1) ft_zero
  ∧ nth ((2 * 2 + 1) * 4 + 2) (context_attention_fwd two_prompts (replicate 32 9%Z)) ft_zero = 9%Z.
Proof.
  destruct (context_attention_rows two_prompts (replicate 32 9%Z)) as (_ & H1 & H2).
  - split; [|split; [|done]].
    + intros [|[|b]] Hb; [done|done|cbn in Hb; lia].
    + intros [|[|b]] [|[|b']] Hb Hb' Hne; cbn in Hb, Hb'; try lia; cbn; lia.
  - split; [exact (H1 1%nat 0%nat 1%nat 2%nat (le_n 2) eq_refl (le_n 2) (le_S _ _ (le_n 3)))|].
    apply (H2 2%nat 1%nat 2%nat); [cbn; lia|cbn; lia|]. intros [|[|b]] Hb; [by right|by left|cbn in Hb; lia].
Defined.

(** Three tokens of one key-value head; a third token of two kinds. *)
Definition prompt_rows (x : Z) : tensor3 (@f32 FixedTorch) :=
  mkTensor3 1 4 [[[100; 200; 300; 400]%Z]; [[50; -60; 70; -80]%Z]; [[x; x + 1; x + 2; x + 3]%Z]].
Definition prompt_tensor (x : Z) : dev_tensor := mkDev true true (TFloat (prompt_rows x)).

(** C29: the second query does not see the third token. *)
Lemma dense_prompt_causal_witness :
  nth 1 (dense_prompt false true 2 (replicate 3 (tab 8 (λ i, Z.of_nat i * 700)%Z)) (prompt_tensor 11) (prompt_tensor 12) f32_one) []
  = nth 1 (dense_prompt false true 2 (replicate 3 (tab 8 (λ i, Z.of_nat i * 700)%Z)) (prompt_tensor 900000) (prompt_tensor 77) f32_one) [].
Proof.
  apply (dense_prompt_causal false true 2 (replicate 3 (tab 8 (λ i, Z.of_nat i * 700)%Z)) f32_one (prompt_tensor 11) (prompt_tensor 12)
    (prompt_tensor 900000) (prompt_tensor 77) 1); try done.
  - repeat split; try done; repeat constructor.
  - repeat split; try done; repeat constructor.
  - cbn. lia.
  - intros [|[|h]] [|[|t]] Hh Ht; try lia; by apply Z.ltb_lt.
Defined.
End Concrete.
